(* ===== verification/_CoqProject ===== *)
-Q . S2P
Prelude.v
Bitmap.v
Arrays.v
ThreadList.v
Memory.v
CopyInOut.v
Uio.v
Stream.v
Lhd.v
SfsDisk.v
Sfs.v
SfsIo.v
SfsVnode.v
SfsDir.v
SfsFs.v
SfsOps.v
Synch.v
SynchSem.v
Millicode.v
Qdivrem.v
Kmalloc.v
Kheap.v
Dumbvm.v
HeapSpec.v
VmSpec.v
Sched.v
Process.v
Spl.v
Trap.v
Mips.v
Vfs.v
VfsRefs.v
VfsSpec.v
File.v
FileSpec.v
Printf.v
Mksfs.v
Serial.v
Console.v
Elf.v
Malloc.v
