(* ===== verification/Prelude.v ===== *)
(** * OS/161 kernel: a verification development

    The program is a teaching kernel for a MIPS machine (System/161): the
    machine-dependent code of kern/arch/mips, threads and processes, memory,
    the virtual file system layer with its system calls, the file system SFS
    and its disk driver, the console, and the libraries these stand on; beside
    it stand mksfs, the program that makes SFS volumes, and the allocator of the
    user programs.

    ** Parts of the program and where they are modelled

    Libraries:
    - Prelude.v: how C functions are modelled (below), wrap-around of machine
      integers, error numbers, shared lemmas and tactics.
    - Bitmap.v: kern/lib/bitmap.c.  A bit count and a vector of bytes.
    - Arrays.v: kern/lib/array.c and the inline functions of
      kern/include/array.h.
    - ThreadList.v: kern/thread/threadlist.c, on a heap of list nodes.
    - Memory.v: the string functions of common/libc/string, on a byte memory
      in which an access to an unmapped address traps.
    - CopyInOut.v: kern/vm/copyinout.c, with the recovery from such a trap.
    - Uio.v: kern/lib/uio.c, on that memory.
    - Millicode.v, Qdivrem.v: the 64-bit arithmetic of common/gcc-millicode.
    - Printf.v: common/libc/printf/__printf.c for any client, snprintf.c into
      the memory of Memory.v, and common/libc/stdlib/atoi.c.

    File system and disk:
    - Stream.v: a uio of one iovec with its bytes inside it, which is the form
      of uio the file system is modelled with, and the class [BlockDevice],
      the contract between the file system and a disk driver.
    - Lhd.v: kern/dev/lamebus/lhd.c.  The disk card is the class [LhdHw] with
      its documented behaviour as laws; the driver on a working card is an
      instance of [BlockDevice]; [sim] is a concrete card.
    - SfsDisk.v: the on-disk structures of kern/include/kern/sfs.h and the
      block transfers of kern/fs/sfs/sfs_io.c.
    - Sfs.v, SfsIo.v, SfsVnode.v, SfsDir.v: kern/fs/sfs/sfs_vnode.c.  The state
      of a mounted volume ([fs]), block allocation and [sfs_bmap]; [sfs_io]
      with the block cache; vnodes (with kern/vfs/vnode.c), truncation and
      reclaiming; directories, path lookup and rename.
    - SfsFs.v: kern/fs/sfs/sfs_fs.c: mount, sync, unmount.
    - SfsOps.v: the tables of vnode operations and the VOP macros of
      kern/include/vnode.h, for SFS.
    - Mksfs.v: user/sbin/mksfs/mksfs.c and disk.c, as built for OS/161.

    Console:
    - Serial.v: kern/dev/lamebus/lser.c and the interrupt side of
      kern/dev/generic/console.c, interleaved; the serial card is the class
      [LserHw], with [card] as a concrete one.
    - Console.v: the rest of console.c, kern/lib/kprintf.c, kern/lib/kgets.c
      and kern/dev/generic/beep.c as one thread runs them, above Printf.v.

    Threads and processes:
    - Synch.v, SynchSem.v: kern/thread/synch.c with the wait channels of
      kern/thread/thread.c and kern/thread/spinlock.c, as threads whose atomic
      actions interleave in every possible way.
    - Sched.v: the run queues of kern/thread/thread.c: [schedule], migration,
      wakeups and inter-processor interrupts, on the lists of ThreadList.v.
    - Process.v: process identifiers, [sys_waitpid] and exit
      (kern/thread/thread.c); the creation of threads one access to the list
      of pids at a time.
    - Spl.v: kern/thread/spl.c and spinlock.c on several processors, one
      access to a lock word at a time.

    Memory:
    - Kmalloc.v, Kheap.v, HeapSpec.v: kern/vm/kmalloc.c: the definitions and
      their invariant, the preservation proofs, the contract.  The provider of
      pages is the class [PageProvider].
    - Dumbvm.v, VmSpec.v: kern/arch/mips/vm/ram.c and dumbvm.c: the page
      allocator, which is an instance of [PageProvider], address spaces and
      TLB faults; a specification with one memory per process.
    - Elf.v: kern/syscall/loadelf.c and runprogram.c, on those address spaces.
      The executable is the class [ExecFile]: what [VOP_READ] hands over.
    - Malloc.v: user/lib/libc/stdlib/malloc.c, on the words of the heap.  The
      call [sbrk], which the kernel does not implement, is the class [Sbrk].

    Machine:
    - Trap.v: kern/arch/mips/locore/trap.c, kern/arch/mips/syscall/syscall.c and
      [mainbus_interrupt], on the interrupt levels of Spl.v.  The handlers they
      call are parameters about which nothing is assumed.
    - Mips.v: the assembly routines for exceptions, context switch, the TLB
      and setjmp, as lists of instructions with an interpreter.

    Virtual file system:
    - Vfs.v, VfsRefs.v, VfsSpec.v: kern/vfs.  The definitions, with file systems
      and drivers as the class [FsOps]; a program logic that counts references
      and locks, with the laws a file system has to meet ([FsLaws]); what the
      layer guarantees.
    - File.v, FileSpec.v: the system calls of kern/syscall/file.c and fs.c,
      above Vfs.v and CopyInOut.v.

    ** How the code is modelled

    A C function that changes state is a function of type [M S A]: it either
    comes back with a value and a new state or stops the machine for a reason
    ([fault]).  Error codes are values: [result] for functions with an out
    parameter, an integer otherwise.  Integers are [Z] with the wrap-around of
    the C type written out ([u32], [s64], ...) where the code computes with it.
    Addresses, vnodes and list nodes are keys of finite maps, so aliasing is
    that of the code.  Where interleaving is the point (Synch.v, SynchSem.v,
    Spl.v, Serial.v, the pids of Process.v) the code is a step relation of all threads or processors.
    Elsewhere an operation runs in one thread; the locks it takes are part of
    the state (in the file system [held] and [biglock_depth] of the
    environment [ker]), and taking one twice, or giving the big lock back
    without holding it, stops with [KAssertFail].  The environment also
    supplies the numbers [random] returns and the outcome of each allocation.

    ** What the theorems show

    - Libraries: bitmaps allocate first fit and round-trip marks; arrays and
      thread lists refine operations on lists, for any sequence of operations;
      [memmove] is correct for every overlap and alignment, [strcmp] and
      [strtok_r] meet their specifications; each 64-bit helper computes the
      operation it is named after, and long division stays inside its arrays.
    - User memory: [copyin], [copyinstr] and [copyout] copy exactly what they
      report, return [EFAULT] otherwise, and never write kernel memory through
      a user pointer.
    - Transfers: [uiomove] and [uiomovezeros] move the next bytes for any
      number of iovecs; the stream of Stream.v implements [uiomove] on memory
      that can be accessed.
    - Disk: a block written is read back; inodes round-trip through their
      on-disk form.
    - SFS, on a device that completes its transfers: [sfs_balloc], [sfs_bmap]
      and [sfs_truncate] keep the pointers of a file distinct and marked and
      touch nothing else; as long as the block cache need not replace a slot, a
      short write is read back and directory search, link and unlink act on
      exactly one entry; sync
      followed by mount gives the state back; every vnode operation but one
      returns the locks it takes.
    - Synchronisation: locks give mutual exclusion to threads that use them as
      their interface asks; semaphores count correctly, never fail an
      assertion and lose no wakeup; spinlocks exclude each other on any number
      of processors, and the interrupt state follows the level of the thread.
    - Scheduling and processes: reshuffling and migration lose and duplicate
      no thread and keep the current one in place; pids of live processes
      created under [wait_lock] are distinct; a parent that waits beside another
      waiter is woken by the exit of its child and gets its pid, but its status
      only if the word for it already held it.
    - Memory: the heap implements a map of disjoint blocks; processes see
      memories of their own, whatever the sequence of faults and switches; a
      program is started with the memory its file describes, and the file is
      closed on every path; the user's allocator implements a map of disjoint
      blocks and leaves no two free neighbours, as long as no block of no bytes
      is freed.
    - Machine: a trap whose handler comes back to the thread as it found it
      leaves the interrupt level and the registers of the interrupted program
      as they were, or as the call asks; a context switch returns where it was
      called with the callee-saved registers intact; a new thread starts in
      its entry function; resetting the TLB fills it with distinct entries.
    - VFS: any sequence of calls of a client that closes and drops only what
      it was given, and adds no device twice, keeps the reference counts, open
      counts and locks in order and fails no assertion; names of devices stay
      distinct and are found; paths are split as documented.  On open files
      [sys_read] and [sys_lseek] move the offset as they should, and [sys_open]
      takes the lowest free handle.
    - Formatting: [__vprintf] sends its client what the format says (with X no
      conversion, unlike in the manual), and [vsnprintf] stores as much of it as fits; [atoi] reads back what
      [snprintf] prints in decimal.
    - mksfs: however its writes are interrupted or cut short, the kernel mounts
      the volume it makes, with exactly the blocks in use that should be.
    - Console: the card is sent every character once and in order, whether
      printed by interrupts or by polling; keys are read in the order they
      were accepted; messages from before there is a console are not lost;
      reads give lines, and the line [kgets] returns is the line on the
      screen; [panic] begins each of its steps once even if they panic.
    - Defects, each proved on the model: a left-aligned field with the flag 0
      is padded with zeros behind the number; the growth loop of [array_setsize]
      diverges above 2^31; a media error on a write is reported as success;
      the block cache is not flushed by a sync, is bypassed by whole-block
      reads, and keeps stale tags when a slot is replaced; truncation keeps
      one block too many in the indirect block; a removed directory is never
      reclaimed; [sfs_lookparent] keeps the big lock; [cv_wait] can
      miss a signal, [lock_release] accepts any caller, and a writer can enter
      a reader-writer lock beside a reader; [kmalloc] of nearly 4 GB returns a
      block that overlaps others, and the user's [malloc] of nearly 4 GB one of
      no bytes; the user's [free] ends the program when a block of no bytes is
      the last of the heap; pids repeat when they run out and when threads are
      created without the lock; adding a device twice fails an assertion, [vfs_setbootfs] refuses every name with
      a colon; [sys_open] writes past its block, [sys_close] and [sys_dup2]
      never give a handle back, [sys_read] looks at neither the flags of the
      file nor the result of the copy, [sys_write] need not write the user's
      data, a refused [sys_lseek] keeps the lock and a position above 2^31 comes
      back truncated, and [sys_getdirentry] stores anywhere.

    ** Bounds

    Loops over a list or a counter are structural.  The others take fuel:
    [uiomove] two iterations per iovec plus one, [uiomovezeros] one per 16
    bytes plus one, the growth loop of [array_setsize] 30 for up to
    2^29 elements, the string loops one per byte, the loops of [__qdivrem] as
    many as a number of 16-bit digits allows (2 and 3 for leading zeros, 16
    for a shift, 2 corrections of a digit, 4 digits), the lists of the heap
    256 (the size of the table of pages), the loops of the scheduler the
    number of threads, a routine of Mips.v the number of instructions it
    executes (1540 for [tlb_reset]), the conversion of a number 65 digits (its
    buffer holds 22 and a terminator), the write loop of mksfs one more than
    its results of [write] and the final test, polling the serial card as often
    as the card can be busy and once more, [con_io] one per byte, [kgets] one
    per key, [panic] 6 nested calls, the search of the user's [malloc] one more
    than the bytes of the heap.  The theorems state the bound they need
    and prove that the result is reached within it.

    ** Not modelled

    - kern/syscall/time_syscalls.c, and [sys_execv] and [sys_fork] beyond what
      Trap.v says of them; the placement of threads by [thread_switch];
    - the paged virtual memory of kern/vm/addrspace.c and
      kern/arch/mips/vm/vm.c, which is not in the default configuration;
    - the drivers other than lhd, the serial line and the console, boot code,
      the menu, the kernel's tests and the user programs but mksfs.
    Messages to the console are left out outside Console.v, and so is interleaving
    with other threads inside an operation of the file systems, the VFS layer
    and the system calls. *)

From stdpp Require Export base tactics option numbers list gmap.
From Stdlib Require Export ZArith Lia.

Open Scope Z_scope.

(** ** How a C function can stop

    A kernel function either comes back with a value or stops the machine.
    [KAssertFail] is a failed [KASSERT] (the default configuration has
    [OPT_NOASSERTS] off), [KPanic] a call of [panic], [NullDeref] the use of a
    null pointer, [BadAccess] an access outside an object, [Blocked] a thread
    that sleeps with nobody left to wake it, [DivZero] an integer division by
    zero, and [NoFuel] says that the bound given to a loop of the model ran
    out. *)
Inductive fault : Set :=
  | KAssertFail
  | KPanic
  | NullDeref
  | BadAccess
  | Blocked
  | DivZero
  | NoFuel.

#[export] Instance fault_eq_dec : EqDecision fault.
Proof. solve_decision. Defined.

Inductive outcome (A : Type) : Type :=
  | Done (a : A)
  | Stop (f : fault).
Arguments Done {A} a.
Arguments Stop {A} f.

#[export] Instance outcome_ret : MRet outcome := fun A a => Done a.
#[export] Instance outcome_bind : MBind outcome := fun A B k m =>
  match m with Done a => k a | Stop f => Stop f end.

(** A function that changes the state [S]: state passing with faults. *)
Definition M (S A : Type) : Type := S -> outcome (A * S).

#[export] Instance M_ret {S} : MRet (M S) := fun A a s => Done (a, s).
#[export] Instance M_bind {S} : MBind (M S) := fun A B k m s =>
  match m s with
  | Done (a, s') => k a s'
  | Stop f => Stop f
  end.

Definition mget {S} : M S S := fun s => Done (s, s).
Definition mput {S} (s : S) : M S unit := fun _ => Done (tt, s).
Definition mgets {S A} (f : S -> A) : M S A := fun s => Done (f s, s).
Definition mmodify {S} (f : S -> S) : M S unit := fun s => Done (tt, f s).
Definition mstop {S A} (f : fault) : M S A := fun _ => Stop f.
(** A pure computation that may stop, used inside a stateful one. *)
Definition mlift {S A} (o : outcome A) : M S A := fun s =>
  match o with Done a => Done (a, s) | Stop f => Stop f end.

(** [KASSERT(expr)] *)
Definition kassert {S} (b : bool) : M S unit :=
  if b then mret tt else mstop KAssertFail.
(** The same for code that has no state. *)
Definition oassert (b : bool) : outcome unit :=
  if b then Done tt else Stop KAssertFail.
(** Reading through a pointer that may be null. *)
Definition deref {S A} (p : option A) : M S A :=
  match p with Some a => mret a | None => mstop NullDeref end.

(** A [for (i=0; i<n; i++)] loop whose body always runs to completion. *)
Fixpoint mfor {S} (n : nat) (i : Z) (body : Z -> M S unit) : M S unit :=
  match n with
  | O => mret tt
  | S n' => body i ≫= fun _ => mfor n' (i + 1) body
  end.

(** A C function of type [int] that hands back an error number, or 0 and a
    result in an out parameter. *)
Inductive result (A : Type) : Type :=
  | Err (e : Z)
  | Ok (a : A).
Arguments Err {A} e.
Arguments Ok {A} a.

(** [result = f(..., &x); if (result) return result; k] *)
Definition ebind {S A B} (m : M S (result A)) (k : A -> M S (result B)) : M S (result B) :=
  r ← m;
  match r with
  | Ok a => k a
  | Err e => mret (Err e)
  end.
Notation "x ←? m ; k" := (ebind m (fun x => k))
  (at level 20, m at level 100, k at level 200, right associativity) : stdpp_scope.
Notation "' x ←? m ; k" := (ebind m (fun y => match y with x => k end))
  (at level 20, x pattern, m at level 100, k at level 200, right associativity,
   only parsing) : stdpp_scope.
(** The error number of a function without an out parameter. *)
Definition check {S} (m : M S Z) : M S (result unit) :=
  r ← m; mret (if r =? 0 then Ok tt else Err r).
(** And back: what such a function returns. *)
Definition code {A} (r : result A) : Z :=
  match r with Ok _ => 0 | Err e => e end.

(** ** Error numbers (kern/include/kern/errno.h) *)
Definition EUNIMP : Z := 2.
Definition ENOMEM : Z := 3.
Definition EFAULT : Z := 6.
Definition ENAMETOOLONG : Z := 7.
Definition EINVAL : Z := 8.
Definition ENOTDIR : Z := 17.
Definition EISDIR : Z := 18.
Definition ENOENT : Z := 19.
Definition ENOTEMPTY : Z := 21.
Definition EEXIST : Z := 22.
Definition ENODEV : Z := 25.
Definition ENXIO : Z := 26.
Definition EBUSY : Z := 27.
Definition ENFILE : Z := 29.
Definition EBADF : Z := 30.
Definition EAGAIN : Z := 4.
Definition EINTR : Z := 5.
Definition EPERM : Z := 9.
Definition ENPROC : Z := 12.
Definition ENOEXEC : Z := 13.
Definition ESRCH : Z := 15.
Definition ECHILD : Z := 16.
Definition EXDEV : Z := 24.
Definition EMFILE : Z := 28.
Definition EIOCTL : Z := 31.
Definition ESPIPE : Z := 33.
Definition EIO : Z := 32.
Definition ENOSPC : Z := 36.
Definition EFBIG : Z := 38.

(** ** Machine integers

    An unsigned [w]-bit value is a [Z] in [0, 2^w); an operation that can
    leave the range is written with the wrap-around of the C type. *)
Definition uwrap (w z : Z) : Z := z mod 2 ^ w.
Abbreviation u8 := (uwrap 8).
Abbreviation u16 := (uwrap 16).
Abbreviation u32 := (uwrap 32).
Abbreviation u64 := (uwrap 64).
(** Two's complement reading of the low [w] bits. *)
Definition swrap (w z : Z) : Z := (z + 2 ^ (w - 1)) mod 2 ^ w - 2 ^ (w - 1).
Abbreviation s32 := (swrap 32).
Abbreviation s64 := (swrap 64).

(** [lia] with the quotients and remainders of the context spelled out. *)
Ltac dlia := Z.to_euclidean_division_equations; lia.

Lemma uwrap_range w z : 0 <= w -> 0 <= uwrap w z < 2 ^ w.
Proof. intros. apply Z.mod_pos_bound. lia. Qed.
Lemma uwrap_small w z : 0 <= z < 2 ^ w -> uwrap w z = z.
Proof. apply Z.mod_small. Qed.
Lemma uwrap_idem w z : uwrap w (uwrap w z) = uwrap w z.
Proof. apply Zmod_mod. Qed.
Lemma uwrap_testbit w z i :
  0 <= w -> Z.testbit (uwrap w z) i = (i <? w) && Z.testbit z i.
Proof.
  intros Hw. unfold uwrap. destruct (Z.ltb_spec i w).
  - destruct (decide (0 <= i)).
    + by rewrite Z.mod_pow2_bits_low.
    + by rewrite !Z.testbit_neg_r by lia.
  - by rewrite Z.mod_pow2_bits_high by lia.
Qed.

(** ** Lemmas on the state monad *)
Section monad.
Context {S A B : Type}.
Implicit Types (m : M S A) (k : A -> M S B).

Lemma bind_Done m k s a s' :
  m s = Done (a, s') -> (m ≫= k) s = k a s'.
Proof. intros H. unfold mbind, M_bind. by rewrite H. Qed.
Lemma bind_Stop m k s f : m s = Stop f -> (m ≫= k) s = Stop f.
Proof. intros H. unfold mbind, M_bind. by rewrite H. Qed.
Lemma bind_inv m k s b s'' :
  (m ≫= k) s = Done (b, s'') ->
  exists a s', m s = Done (a, s') /\ k a s' = Done (b, s'').
Proof.
  unfold mbind, M_bind. destruct (m s) as [[a s']|f]; [eauto|discriminate].
Qed.
Lemma ebind_Ok (m : M S (result A)) (k : A -> M S (result B)) s a s' :
  m s = Done (Ok a, s') -> ebind m k s = k a s'.
Proof. intros H. unfold ebind, mbind, M_bind. by rewrite H. Qed.
Lemma ebind_Err (m : M S (result A)) (k : A -> M S (result B)) s e s' :
  m s = Done (Err e, s') -> ebind m k s = Done (Err e, s').
Proof. intros H. unfold ebind, mbind, M_bind. by rewrite H. Qed.
Lemma kassert_inv b s u s' :
  @kassert S b s = Done (u, s') -> b = true /\ s' = s.
Proof. destruct b; cbn; [by intros [= <- <-]|discriminate]. Qed.
End monad.

(** [mrun] computes the administrative steps of a monadic goal. *)
Ltac mrun :=
  cbv beta iota delta [mbind M_bind mret M_ret outcome_bind outcome_ret mget mput
    mgets mmodify mstop mlift kassert oassert deref].

(** The same for stateless code. *)
Ltac orun := cbn [mbind outcome_bind mret outcome_ret oassert andb negb] in *.

(** ** Bits of a word *)
Lemma land_pow2_0 w n :
  0 <= n -> Z.land w (Z.shiftl 1 n) = 0 <-> Z.testbit w n = false.
Proof.
  intros Hn. rewrite Z.shiftl_1_l. split; intros H.
  - apply (f_equal (fun x => Z.testbit x n)) in H.
    by rewrite Z.land_spec, Z.bits_0, Z.pow2_bits_true, andb_true_r in H by lia.
  - apply Z.bits_inj'. intros i Hi. rewrite Z.land_spec, Z.bits_0.
    rewrite Z.pow2_bits_eqb by lia. destruct (Z.eqb_spec n i) as [->|].
    + by rewrite H.
    + by rewrite andb_false_r.
Qed.

Lemma testbit_shiftl1 n i :
  0 <= n -> Z.testbit (Z.shiftl 1 n) i = (n =? i).
Proof. intros. rewrite Z.shiftl_1_l. by apply Z.pow2_bits_eqb. Qed.

(** A non-negative number whose bits above [w] are clear fits in [w] bits. *)
Lemma bits_bound w z :
  0 <= w -> 0 <= z -> (forall i, w <= i -> Z.testbit z i = false) -> z < 2 ^ w.
Proof.
  intros Hw Hz Hb. destruct (decide (z = 0)) as [->|]; [lia|].
  apply Z.log2_lt_pow2; [lia|].
  destruct (decide (Z.log2 z < w)); [done|].
  specialize (Hb (Z.log2 z) ltac:(lia)). by rewrite Z.bit_log2 in Hb by lia.
Qed.
Lemma bits_above w z i : 0 <= z < 2 ^ w -> w <= i -> Z.testbit z i = false.
Proof.
  intros Hz Hi. destruct (decide (z = 0)) as [->|]; [apply Z.bits_0|].
  apply Z.bits_above_log2; [lia|].
  pose proof (proj1 (Z.log2_lt_pow2 z w ltac:(lia))). lia.
Qed.

(** Two disjoint ranges of bits. *)
Lemma lor_shiftl_add h l w : 0 <= w -> 0 <= l < 2 ^ w -> Z.lor (Z.shiftl h w) l = h * 2 ^ w + l.
Proof.
  intros Hw Hl. rewrite <- Z.shiftl_mul_pow2 by lia.
  rewrite <- Z.add_lor_land. enough (Z.land (Z.shiftl h w) l = 0) by lia.
  apply Z.bits_inj'. intros i Hi. rewrite Z.land_spec, Z.bits_0.
  destruct (decide (i < w)).
  - by rewrite Z.shiftl_spec_low by lia.
  - by rewrite (bits_above w l i), andb_false_r by lia.
Qed.

Lemma lor_range w x y :
  0 <= w -> 0 <= x < 2 ^ w -> 0 <= y < 2 ^ w -> 0 <= Z.lor x y < 2 ^ w.
Proof.
  intros Hw Hx Hy. assert (0 <= Z.lor x y) by (apply Z.lor_nonneg; lia).
  split; [done|]. apply bits_bound; [done..|]. intros i Hi.
  by rewrite Z.lor_spec, !(bits_above w) by lia.
Qed.
Lemma land_range w x y :
  0 <= w -> 0 <= x < 2 ^ w -> 0 <= Z.land x y < 2 ^ w.
Proof.
  intros Hw Hx. assert (0 <= Z.land x y) by (apply Z.land_nonneg; lia).
  split; [done|]. apply bits_bound; [done..|]. intros i Hi.
  by rewrite Z.land_spec, (bits_above w x) by lia.
Qed.

(** The automation shared by the components. *)
Create HintDb kern discriminated.
#[export] Hint Resolve uwrap_range lor_range land_range : kern.
Create Rewrite HintDb bits.
#[export] Hint Rewrite Z.lor_spec Z.land_spec Z.lxor_spec Z.bits_0 : bits.
