(* ===== verification/Bitmap.v ===== *)
(** * kern/lib/bitmap.c: fixed-size arrays of bits

    The free-block map of SFS and the page maps of the virtual memory system
    are bitmaps.  A bitmap is a number of bits and a vector of bytes; bits past
    [nbits] in the last byte are permanently marked in use. *)

From S2P Require Import Prelude.

Module Bitmap.

Definition BITS_PER_WORD : Z := 8.
Definition WORD_ALLBITS : Z := 255.

(** [struct bitmap]: the storage [v] is a list of [unsigned char]. *)
Record bitmap : Type := mkBitmap {
  nbits : Z;
  v : list Z;
}.

(** [DIVROUNDUP] on [unsigned], whose sum wraps at 32 bits. *)
Definition DIVROUNDUP (a b : Z) : Z := u32 (a + b - 1) / b.

(** [b->v[ix]], stopping on an access outside the vector. *)
Definition getword (b : bitmap) (ix : Z) : outcome Z :=
  match v b !! Z.to_nat ix with
  | Some w => Done w
  | None => Stop BadAccess
  end.
Definition setword (b : bitmap) (ix w : Z) : bitmap :=
  mkBitmap (nbits b) (<[Z.to_nat ix := w]> (v b)).

(** The loop that marks the leftover bits of the last byte in use. *)
Fixpoint mark_leftover (n : nat) (j ix : Z) (b : bitmap) : outcome bitmap :=
  match n with
  | O => Done b
  | S n' =>
      w ← getword b ix;
      mark_leftover n' (j + 1) ix (setword b ix (u8 (Z.lor w (Z.shiftl 1 j))))
  end.

(** [bitmap_create]: the two booleans say whether the calls of [kmalloc]
    succeed; [None] is a null pointer. *)
Definition bitmap_create (have_struct have_words : bool) (n : Z)
    : outcome (option bitmap) :=
  let words := DIVROUNDUP n BITS_PER_WORD in
  if negb have_struct then Done None
  else if negb have_words then Done None
  else
    let b := mkBitmap n (replicate (Z.to_nat words) 0) in
    if n / BITS_PER_WORD <? words then
      let ix := words - 1 in
      let overbits := n - ix * BITS_PER_WORD in
      _ ← oassert (n / BITS_PER_WORD =? words - 1);
      _ ← oassert ((0 <? overbits) && (overbits <? BITS_PER_WORD));
      b' ← mark_leftover (Z.to_nat (BITS_PER_WORD - overbits)) overbits ix b;
      Done (Some b')
    else Done (Some b).

(** The inner loop of [bitmap_alloc]: the first clear bit of a byte. *)
Fixpoint scan_word (n : nat) (offset w : Z) : option Z :=
  match n with
  | O => None
  | S n' =>
      let mask := u8 (Z.shiftl 1 offset) in
      if Z.land w mask =? 0 then Some offset else scan_word n' (offset + 1) w
  end.

(** The outer loop, over the bytes from [ix] up. *)
Fixpoint alloc_loop (n : nat) (ix : Z) (b : bitmap)
    : outcome (result Z * bitmap) :=
  match n with
  | O => Done (Err ENOSPC, b)
  | S n' =>
      w ← getword b ix;
      if w =? WORD_ALLBITS then alloc_loop n' (ix + 1) b
      else
        match scan_word (Z.to_nat BITS_PER_WORD) 0 w with
        | Some offset =>
            let index := ix * BITS_PER_WORD + offset in
            let b' := setword b ix (Z.lor w (u8 (Z.shiftl 1 offset))) in
            _ ← oassert (index <? nbits b');
            Done (Ok index, b')
        | None => Stop KAssertFail
        end
  end.

Definition bitmap_alloc (b : bitmap) : outcome (result Z * bitmap) :=
  alloc_loop (Z.to_nat (DIVROUNDUP (nbits b) BITS_PER_WORD)) 0 b.

Definition bitmap_translate (bitno : Z) : Z * Z :=
  (bitno / BITS_PER_WORD, u8 (Z.shiftl 1 (bitno mod BITS_PER_WORD))).

Definition bitmap_mark (b : bitmap) (index : Z) : outcome bitmap :=
  _ ← oassert (index <? nbits b);
  let '(ix, mask) := bitmap_translate index in
  w ← getword b ix;
  _ ← oassert (Z.land w mask =? 0);
  Done (setword b ix (Z.lor w mask)).

Definition bitmap_unmark (b : bitmap) (index : Z) : outcome bitmap :=
  _ ← oassert (index <? nbits b);
  let '(ix, mask) := bitmap_translate index in
  w ← getword b ix;
  _ ← oassert (negb (Z.land w mask =? 0));
  Done (setword b ix (u8 (Z.land w (Z.lnot mask)))).

(** [bitmap_isset] has no bound check: a bit past the storage is a bad access. *)
Definition bitmap_isset (b : bitmap) (index : Z) : outcome Z :=
  let '(ix, mask) := bitmap_translate index in
  w ← getword b ix;
  Done (Z.land w mask).

Definition bitmap_getdata (b : bitmap) : list Z := v b.

(** ** Abstraction: a bitmap is a set of marked indices *)

Definition bit (b : bitmap) (i : Z) : bool :=
  Z.testbit (default 0 (v b !! Z.to_nat (i / 8))) (i mod 8).

(** The invariant of every bitmap [bitmap_create] hands out. *)
Record wf (b : bitmap) : Prop := mkWf {
  wf_nbits : 0 <= nbits b <= 2 ^ 32 - 8;
  wf_len : Z.of_nat (length (v b)) = (nbits b + 7) / 8;
  wf_bytes : Forall (fun w => 0 <= w < 256) (v b);
  wf_pad : forall i, nbits b <= i < 8 * Z.of_nat (length (v b)) -> bit b i = true;
}.

(** The bitmap with the bit [i] set to [x] and every other bit as in [b]. *)
Definition updates (b : bitmap) (i : Z) (x : bool) (b' : bitmap) : Prop :=
  nbits b' = nbits b /\ length (v b') = length (v b) /\
  forall j, 0 <= j -> bit b' j = if j =? i then x else bit b j.

Lemma mask_eq o : 0 <= o < 8 -> u8 (Z.shiftl 1 o) = Z.shiftl 1 o.
Proof.
  intros. apply uwrap_small. rewrite Z.shiftl_1_l. split; [lia|].
  apply Z.pow_lt_mono_r; lia.
Qed.

Lemma getword_Done b ix w :
  getword b ix = Done w <-> v b !! Z.to_nat ix = Some w.
Proof.
  unfold getword. destruct (v b !! _); split; intros H; by simplify_eq.
Qed.

Lemma wf_word b i : wf b -> 0 <= i < nbits b ->
  exists w, v b !! Z.to_nat (i / 8) = Some w /\ 0 <= w < 256 /\
    bit b i = Z.testbit w (i mod 8).
Proof.
  intros Hwf Hi. pose proof (wf_len _ Hwf).
  destruct (lookup_lt_is_Some_2 (v b) (Z.to_nat (i / 8))) as [w Hw]; [dlia|].
  exists w. split; [done|]. split.
  - by eapply (Forall_lookup_1 _ _ _ _ (wf_bytes _ Hwf)).
  - unfold bit. by rewrite Hw.
Qed.

(** Writing a byte changes the bits of that byte only. *)
Lemma bit_setword b ix w j :
  0 <= ix < Z.of_nat (length (v b)) -> 0 <= j ->
  bit (setword b ix w) j = if j / 8 =? ix then Z.testbit w (j mod 8) else bit b j.
Proof.
  intros Hix Hj. unfold bit, setword. cbn [v].
  destruct (Z.eqb_spec (j / 8) ix) as [->|].
  - by rewrite list_lookup_insert_eq by lia.
  - rewrite list_lookup_insert_ne; [done|]. dlia.
Qed.

Lemma setword_updates b i x w w' :
  v b !! Z.to_nat (i / 8) = Some w -> 0 <= i ->
  (forall o, 0 <= o < 8 -> Z.testbit w' o = if o =? i mod 8 then x else Z.testbit w o) ->
  updates b i x (setword b (i / 8) w').
Proof.
  intros Hw Hi Hb. split; [done|]. split; [apply length_insert|].
  intros j Hj. rewrite bit_setword;
    [|apply lookup_lt_Some in Hw; dlia|done].
  destruct (Z.eqb_spec (j / 8) (i / 8)) as [E|E].
  - rewrite Hb by dlia. unfold bit. rewrite E, Hw. cbn.
    destruct (Z.eqb_spec (j mod 8) (i mod 8)), (Z.eqb_spec j i); try done; dlia.
  - destruct (Z.eqb_spec j i); [by subst|done].
Qed.

Lemma wf_updates b i x w' :
  wf b -> 0 <= i < nbits b -> 0 <= w' < 256 ->
  updates b i x (setword b (i / 8) w') -> wf (setword b (i / 8) w').
Proof.
  intros Hwf Hi Hw' (Hn & Hl & Hb). constructor.
  - rewrite Hn. apply Hwf.
  - rewrite Hl, Hn. apply Hwf.
  - apply Forall_insert; [apply Hwf|done].
  - intros j Hj. rewrite Hl, Hn in Hj. rewrite Hb by dlia.
    destruct (Z.eqb_spec j i); [lia|]. by apply Hwf.
Qed.

Lemma bytes_lor w o : 0 <= w < 256 -> 0 <= o < 8 ->
  0 <= Z.lor w (Z.shiftl 1 o) < 256.
Proof.
  intros. apply (lor_range 8); [lia|done|]. rewrite Z.shiftl_1_l.
  split; [lia|]. apply Z.pow_lt_mono_r; lia.
Qed.

Lemma lor_updates b i w :
  v b !! Z.to_nat (i / 8) = Some w -> 0 <= i ->
  updates b i true (setword b (i / 8) (Z.lor w (Z.shiftl 1 (i mod 8)))).
Proof.
  intros Hw Hi. apply (setword_updates _ _ _ w); [done..|].
  intros o Ho. rewrite Z.lor_spec, testbit_shiftl1 by dlia.
  destruct (Z.eqb_spec (i mod 8) o), (Z.eqb_spec o (i mod 8));
    try lia; by rewrite ?orb_true_r, ?orb_false_r.
Qed.

Lemma lnot_updates b i w :
  v b !! Z.to_nat (i / 8) = Some w -> 0 <= i ->
  updates b i false
    (setword b (i / 8) (u8 (Z.land w (Z.lnot (Z.shiftl 1 (i mod 8)))))).
Proof.
  intros Hw Hi. apply (setword_updates _ _ _ w); [done..|].
  intros o Ho. rewrite uwrap_testbit, Z.land_spec, Z.lnot_spec by lia.
  rewrite testbit_shiftl1 by dlia.
  destruct (Z.eqb_spec (i mod 8) o), (Z.eqb_spec o (i mod 8)), (Z.ltb_spec o 8);
    try lia; cbn; by rewrite ?andb_false_r, ?andb_true_r.
Qed.

(** The mask test of the code reads the abstract bit. *)
Lemma land_mask w i : 0 <= i ->
  (Z.land w (u8 (Z.shiftl 1 (i mod 8))) =? 0) = negb (Z.testbit w (i mod 8)).
Proof.
  intros Hi. rewrite mask_eq by dlia.
  pose proof (land_pow2_0 w (i mod 8) ltac:(dlia)) as Hl.
  destruct (Z.eqb_spec (Z.land w (Z.shiftl 1 (i mod 8))) 0) as [E|E].
  - by rewrite (proj1 Hl E).
  - destruct (Z.testbit w (i mod 8)); [done|]. by destruct E; apply Hl.
Qed.

(** Two well-formed bitmaps with the same bits are the same bitmap. *)
Lemma bitmap_ext b b' :
  wf b -> wf b' -> nbits b = nbits b' ->
  (forall j, 0 <= j -> bit b j = bit b' j) -> b = b'.
Proof.
  intros Hb Hb' Hn Hj.
  assert (length (v b) = length (v b')) as Hl.
  { pose proof (wf_len _ Hb). pose proof (wf_len _ Hb'). rewrite Hn in *. lia. }
  destruct b as [n l], b' as [n' l']; cbn in *. subst n'. f_equal.
  apply (list_eq_same_length _ _ (length l)); [done..|].
  intros k x y Hk Hx Hy.
  pose proof (Forall_lookup_1 _ _ _ _ (wf_bytes _ Hb) Hx) as Rx.
  pose proof (Forall_lookup_1 _ _ _ _ (wf_bytes _ Hb') Hy) as Ry.
  cbn beta in Rx, Ry.
  apply Z.bits_inj'. intros o Ho. destruct (decide (o < 8)).
  - specialize (Hj (8 * Z.of_nat k + o) ltac:(lia)). unfold bit in Hj. cbn [v] in Hj.
    replace ((8 * Z.of_nat k + o) / 8) with (Z.of_nat k) in Hj by dlia.
    replace ((8 * Z.of_nat k + o) mod 8) with o in Hj by dlia.
    by rewrite Nat2Z.id, Hx, Hy in Hj.
  - by rewrite !(bits_above 8) by lia.
Qed.

Lemma scan_word_spec n off w :
  0 <= off -> off + Z.of_nat n = 8 ->
  match scan_word n off w with
  | Some o => off <= o < 8 /\ Z.testbit w o = false /\
              forall p, off <= p < o -> Z.testbit w p = true
  | None => forall p, off <= p < 8 -> Z.testbit w p = true
  end.
Proof.
  revert off. induction n as [|n IH]; intros off Hoff Hn; cbn [scan_word].
  - intros p Hp. lia.
  - pose proof (land_mask w off Hoff) as Hl. rewrite (Z.mod_small off) in Hl by lia.
    rewrite Hl.
    destruct (Z.testbit w off) eqn:E; cbn.
    + specialize (IH (off + 1) ltac:(lia) ltac:(lia)).
      destruct (scan_word n (off + 1) w).
      * destruct IH as (? & ? & Hp). split; [lia|]. split; [done|].
        intros p Hp'. destruct (decide (p = off)) as [->|]; [done|apply Hp; lia].
      * intros p Hp'. destruct (decide (p = off)) as [->|]; [done|apply IH; lia].
    + split; [lia|]. split; [done|]. intros p Hp. lia.
Qed.

(** A byte is [WORD_ALLBITS] when all eight bits are set. *)
Lemma allbits w : 0 <= w < 256 ->
  w = WORD_ALLBITS <-> forall o, 0 <= o < 8 -> Z.testbit w o = true.
Proof.
  intros Hw. change WORD_ALLBITS with (Z.ones 8). split.
  - intros -> o Ho. apply Z.ones_spec_low. lia.
  - intros H. apply Z.bits_inj'. intros o Ho. destruct (decide (o < 8)).
    + rewrite H, Z.ones_spec_low; [done|lia..].
    + rewrite Z.ones_spec_high by lia. apply (bits_above 8); lia.
Qed.

(** What [bitmap_alloc] promises: the lowest free index, or [ENOSPC] with
    the map untouched. *)
Definition alloc_post (b : bitmap) (r : result Z) (b' : bitmap) : Prop :=
  match r with
  | Ok i => 0 <= i < nbits b /\ bit b i = false /\
            (forall j, 0 <= j < i -> bit b j = true) /\ updates b i true b' /\ wf b'
  | Err e => e = ENOSPC /\ b' = b /\ forall j, 0 <= j < nbits b -> bit b j = true
  end.

Lemma alloc_loop_spec n ix b :
  wf b -> 0 <= ix -> ix + Z.of_nat n = Z.of_nat (length (v b)) ->
  (forall j, 0 <= j < 8 * ix -> bit b j = true) ->
  exists r b', alloc_loop n ix b = Done (r, b') /\ alloc_post b r b'.
Proof.
  intros Hwf. pose proof (wf_len _ Hwf) as Hlen.
  revert ix. induction n as [|n IH]; intros ix Hix Hn Hset; cbn [alloc_loop].
  { eexists _, _. split; [done|]. split; [done|]. split; [done|].
    intros j Hj. apply Hset. dlia. }
  destruct (lookup_lt_is_Some_2 (v b) (Z.to_nat ix)) as [w Hw]; [lia|].
  pose proof (Forall_lookup_1 _ _ _ _ (wf_bytes _ Hwf) Hw) as Rw. cbn beta in Rw.
  rewrite (proj2 (getword_Done b ix w) Hw). cbn [mbind outcome_bind].
  assert (forall o, 0 <= o < 8 -> bit b (8 * ix + o) = Z.testbit w o) as Hbit.
  { intros o Ho. unfold bit. replace ((8 * ix + o) / 8) with ix by dlia.
    rewrite Hw. cbn. f_equal. dlia. }
  destruct (Z.eqb_spec w WORD_ALLBITS) as [E|E].
  - apply IH; [lia..|]. intros j Hj. destruct (decide (j < 8 * ix)); [apply Hset; lia|].
    replace j with (8 * ix + (j - 8 * ix)) by lia. rewrite Hbit by lia.
    apply allbits; [done..|lia].
  - pose proof (scan_word_spec 8 0 w ltac:(lia) ltac:(lia)) as Hs.
    change (Z.to_nat BITS_PER_WORD) with 8%nat.
    destruct (scan_word 8 0 w) as [o|]; [|by destruct E; apply allbits].
    destruct Hs as (Ho & Hclear & Hlow). unfold BITS_PER_WORD.
    set (i := ix * 8 + o).
    assert (bit b i = false) as Hi.
    { unfold i. rewrite Z.mul_comm. by rewrite Hbit. }
    assert (i < nbits b) as Hin.
    { destruct (decide (i < nbits b)); [done|].
      rewrite (wf_pad _ Hwf i) in Hi by lia. done. }
    replace ix with (i / 8) in Hw |- * by (unfold i; dlia).
    replace o with (i mod 8) by (unfold i; dlia). rewrite mask_eq by dlia.
    cbn [nbits setword]. rewrite (proj2 (Z.ltb_lt i (nbits b)) Hin). cbn.
    eexists _, _. split; [done|].
    pose proof (lor_updates b i w Hw ltac:(lia)) as Hup.
    split; [lia|]. split; [done|]. split; [|split; [done|]].
    + intros j Hj. destruct (decide (j < 8 * ix)); [apply Hset; lia|].
      replace j with (8 * ix + (j - 8 * ix)) by lia. rewrite Hbit by lia.
      apply Hlow. lia.
    + apply (wf_updates b i true); [done|lia|apply bytes_lor; dlia|done].
Qed.

Lemma bitmap_alloc_spec b : wf b ->
  exists r b', bitmap_alloc b = Done (r, b') /\ alloc_post b r b'.
Proof.
  intros Hwf. pose proof (wf_len _ Hwf). pose proof (wf_nbits _ Hwf).
  apply alloc_loop_spec; [done|lia| |intros; lia].
  unfold DIVROUNDUP, BITS_PER_WORD. rewrite uwrap_small by lia. dlia.
Qed.

Lemma bitmap_mark_spec b i : wf b -> 0 <= i ->
  match bitmap_mark b i with
  | Done b' => i < nbits b /\ bit b i = false /\ updates b i true b' /\ wf b'
  | Stop f => f = KAssertFail /\ (nbits b <= i \/ bit b i = true)
  end.
Proof.
  intros Hwf Hi. unfold bitmap_mark, bitmap_translate, BITS_PER_WORD.
  destruct (Z.ltb_spec i (nbits b)) as [Hlt|Hge]; cbn; [|by auto].
  destruct (wf_word b i Hwf ltac:(lia)) as (w & Hw & Rw & Hb).
  rewrite (proj2 (getword_Done _ _ _) Hw). cbn. rewrite land_mask, <- Hb by done.
  destruct (bit b i); cbn; [by auto|]. split; [done|]. split; [done|].
  rewrite mask_eq by dlia. split; [by apply lor_updates|].
  apply (wf_updates b i true); [done|lia|apply bytes_lor; dlia|by apply lor_updates].
Qed.

Lemma bitmap_unmark_spec b i : wf b -> 0 <= i ->
  match bitmap_unmark b i with
  | Done b' => i < nbits b /\ bit b i = true /\ updates b i false b' /\ wf b'
  | Stop f => f = KAssertFail /\ (nbits b <= i \/ bit b i = false)
  end.
Proof.
  intros Hwf Hi. unfold bitmap_unmark, bitmap_translate, BITS_PER_WORD.
  destruct (Z.ltb_spec i (nbits b)) as [Hlt|Hge]; cbn; [|by auto].
  destruct (wf_word b i Hwf ltac:(lia)) as (w & Hw & Rw & Hb).
  rewrite (proj2 (getword_Done _ _ _) Hw). cbn. rewrite land_mask, <- Hb by done.
  destruct (bit b i); cbn; [|by auto]. split; [done|]. split; [done|].
  rewrite mask_eq by dlia. split; [by apply lnot_updates|].
  apply (wf_updates b i false); [done|lia|by apply (uwrap_range 8)|by apply lnot_updates].
Qed.

Lemma bitmap_isset_spec b i : wf b -> 0 <= i < nbits b ->
  exists x, bitmap_isset b i = Done x /\ (x =? 0) = negb (bit b i).
Proof.
  intros Hwf Hi. destruct (wf_word b i Hwf Hi) as (w & Hw & _ & Hb).
  unfold bitmap_isset, bitmap_translate, BITS_PER_WORD.
  rewrite (proj2 (getword_Done _ _ _) Hw). cbn. eexists. split; [done|].
  by rewrite land_mask, <- Hb by lia.
Qed.

Lemma mark_leftover_spec n j ix b :
  0 <= j -> j + Z.of_nat n = 8 -> 0 <= ix < Z.of_nat (length (v b)) ->
  Forall (fun w => 0 <= w < 256) (v b) ->
  exists b', mark_leftover n j ix b = Done b' /\ nbits b' = nbits b /\
    length (v b') = length (v b) /\ Forall (fun w => 0 <= w < 256) (v b') /\
    forall i, 0 <= i -> bit b' i = bit b i || ((i / 8 =? ix) && (j <=? i mod 8)).
Proof.
  revert j b. induction n as [|n IH]; intros j b Hj Hn Hix Hb; cbn [mark_leftover].
  { exists b. repeat (split; [done|]). intros i Hi.
    destruct (Z.leb_spec j (i mod 8)); [dlia|]. by rewrite andb_false_r, orb_false_r. }
  destruct (lookup_lt_is_Some_2 (v b) (Z.to_nat ix)) as [w Hw]; [lia|].
  pose proof (Forall_lookup_1 _ _ _ _ Hb Hw) as Rw. cbn beta in Rw.
  rewrite (proj2 (getword_Done b ix w) Hw). cbn [mbind outcome_bind].
  pose proof (bytes_lor w j Rw ltac:(lia)) as Rl. rewrite (uwrap_small 8) by done.
  destruct (IH (j + 1) (setword b ix (Z.lor w (Z.shiftl 1 j))))
    as (b' & -> & Hn' & Hl' & Hb' & Hbit); [lia..| | |].
  { cbn [v setword]. by rewrite length_insert. }
  { by apply Forall_insert. }
  exists b'. split; [done|]. split; [done|]. cbn [v setword] in Hl'.
  rewrite length_insert in Hl'. split; [done|]. split; [done|].
  intros i Hi. rewrite Hbit by done. rewrite bit_setword by lia.
  destruct (Z.eqb_spec (i / 8) ix) as [E|E]; [|done]. cbn.
  rewrite Z.lor_spec, testbit_shiftl1 by lia. unfold bit. rewrite E, Hw. cbn.
  destruct (Z.testbit w (i mod 8)); [done|]. cbn.
  destruct (Z.eqb_spec j (i mod 8)), (Z.leb_spec (j + 1) (i mod 8)),
    (Z.leb_spec j (i mod 8)); lia || done.
Qed.

Lemma bit_replicate n m i : bit (mkBitmap n (replicate m 0)) i = false.
Proof.
  unfold bit. cbn [v]. destruct (_ !! _) as [x|] eqn:E; [|apply Z.bits_0].
  apply lookup_replicate in E as [-> _]. apply Z.bits_0.
Qed.

Lemma bitmap_create_spec n : 0 <= n <= 2 ^ 32 - 8 ->
  exists b, bitmap_create true true n = Done (Some b) /\ wf b /\ nbits b = n /\
    forall i, 0 <= i < n -> bit b i = false.
Proof.
  intros Hn. unfold bitmap_create, DIVROUNDUP, BITS_PER_WORD. cbn [negb].
  rewrite uwrap_small by lia. set (words := (n + 8 - 1) / 8).
  assert (Forall (fun w => 0 <= w < 256) (replicate (Z.to_nat words) 0)) as Hz.
  { apply Forall_replicate. lia. }
  assert (words = (n + 7) / 8) as Hw by (unfold words; f_equal; lia).
  assert (Z.of_nat (length (replicate (Z.to_nat words) 0)) = words) as Hl.
  { rewrite length_replicate. dlia. }
  destruct (Z.ltb_spec (n / 8) words) as [Hlt|Hge].
  - rewrite (proj2 (Z.eqb_eq _ _)) by dlia. cbn [oassert mbind outcome_bind].
    rewrite (proj2 (Z.ltb_lt 0 _)) by dlia. rewrite (proj2 (Z.ltb_lt _ 8)) by dlia.
    cbn [oassert mbind outcome_bind andb].
    destruct (mark_leftover_spec (Z.to_nat (8 - (n - (words - 1) * 8)))
      (n - (words - 1) * 8) (words - 1) (mkBitmap n (replicate (Z.to_nat words) 0)))
      as (b & -> & Hnb & Hlb & Hbb & Hbit); [dlia|dlia|cbn [v]; dlia|done|].
    cbn [mbind outcome_bind]. cbn [v nbits] in *. exists b. split; [done|].
    split; [constructor|split; [done|]].
    + lia.
    + rewrite Hlb, Hl, Hnb. done.
    + done.
    + intros i Hi. rewrite Hbit, bit_replicate by lia. cbn.
      apply andb_true_intro. split; [apply Z.eqb_eq|apply Z.leb_le]; dlia.
    + intros i Hi. rewrite Hbit, bit_replicate by lia. cbn.
      destruct (Z.eqb_spec (i / 8) (words - 1)); [|done]. cbn. apply Z.leb_gt. dlia.
  - eexists. split; [done|]. split; [constructor; cbn [v nbits]|split; [done|]].
    + lia.
    + by rewrite Hl.
    + done.
    + intros i Hi. rewrite Hl in Hi. dlia.
    + intros i Hi. apply bit_replicate.
Qed.

(** ** Properties *)

(** [bitmap_create] hands out a well-formed map of [n] clear bits, for
    every [n] whose byte count does not overflow. *)
Theorem bitmap_create_clear n (Hn : 0 <= n <= 2 ^ 32 - 8) :
  exists b, bitmap_create true true n = Done (Some b) /\ wf b /\ nbits b = n /\
    forall i, 0 <= i < n -> bit b i = false.
Proof. by apply bitmap_create_spec. Qed.

Lemma bitmap_create_clear_witness : exists b,
  bitmap_create true true 13 = Done (Some b) /\ wf b /\ nbits b = 13 /\
    forall i, 0 <= i < 13 -> bit b i = false.
Proof. apply bitmap_create_clear. lia. Defined.

(** [bitmap_alloc] on a well-formed map never trips an assertion or
    leaves the storage.  It returns the lowest clear index and marks exactly
    that bit, or it returns [ENOSPC] with the map unchanged, and then every
    bit is marked. *)
Theorem bitmap_alloc_first_fit b (Hb : wf b) :
  exists r b', bitmap_alloc b = Done (r, b') /\
  match r with
  | Ok i => 0 <= i < nbits b /\ bit b i = false /\
            (forall j, 0 <= j < i -> bit b j = true) /\ updates b i true b' /\ wf b'
  | Err e => e = ENOSPC /\ b' = b /\ forall j, 0 <= j < nbits b -> bit b j = true
  end.
Proof. by apply bitmap_alloc_spec. Qed.

(** A map of ten bits of which the first three are taken. *)
Definition ten : bitmap := mkBitmap 10 [7; 252].
Lemma ten_wf : wf ten.
Proof.
  constructor; cbn; [lia|done|repeat constructor; lia|].
  intros i Hi. assert (i ∈ seqZ 10 6) as Hin by (apply elem_of_seqZ; lia).
  clear Hi. revert i Hin. apply Forall_forall. by repeat constructor.
Qed.

Lemma bitmap_alloc_first_fit_witness : exists b',
  bitmap_alloc ten = Done (Ok 3, b') /\ bit b' 3 = true /\ wf b'.
Proof.
  destruct (bitmap_alloc_first_fit ten ten_wf) as (r & b' & Hr & Hp).
  assert (r = Ok 3) as -> by (vm_compute in Hr; congruence).
  exists b'. split; [exact Hr|]. destruct Hp as (_ & _ & _ & (_ & _ & Hu) & Hw).
  split; [by rewrite Hu|exact Hw].
Defined.

(** Marking a clear bit and unmarking it again gives back the same map,
    byte for byte, and in between the bit reads as set; the calls stop on
    their assertions exactly when the index is out of range or the bit is
    already in the requested state. *)
Theorem bitmap_mark_unmark b i (Hb : wf b) (Hi : 0 <= i) :
  if bool_decide (i < nbits b) && negb (bit b i) then
    exists b' x, bitmap_mark b i = Done b' /\ wf b' /\
      bitmap_isset b' i = Done x /\ x <> 0 /\ bitmap_unmark b' i = Done b
  else bitmap_mark b i = Stop KAssertFail.
Proof.
  pose proof (bitmap_mark_spec b i Hb Hi) as Hm.
  case_bool_decide as Hlt; cbn [andb].
  - destruct (bit b i) eqn:Ebit; cbn [negb];
      destruct (bitmap_mark b i) as [b'|f]; [naive_solver..| |by destruct Hm as [_ [?|?]]; [lia|]].
    destruct Hm as (_ & _ & (Hn & Hl & Hu) & Hb').
    destruct (bitmap_isset_spec b' i Hb' ltac:(lia)) as (x & Hx & Hx0).
    rewrite Hu, Z.eqb_refl in Hx0 by lia. exists b', x.
    split; [done|]. split; [done|]. split; [done|]. split; [by apply Z.eqb_neq|].
    pose proof (bitmap_unmark_spec b' i Hb' Hi) as Hun.
    destruct (bitmap_unmark b' i) as [b''|f].
    + destruct Hun as (_ & _ & (Hn' & Hl' & Hu') & Hb''). f_equal.
      apply bitmap_ext; [done..|congruence|]. intros j Hj. rewrite Hu', Hu by done.
      destruct (Z.eqb_spec j i) as [->|]; congruence.
    + destruct Hun as [_ [?|Hc]]; [lia|]. rewrite Hu, Z.eqb_refl in Hc by lia. done.
  - destruct (bitmap_mark b i); [lia|]. by destruct Hm as [-> _].
Qed.

Lemma bitmap_mark_unmark_witness : exists b' x,
  bitmap_mark ten 8 = Done b' /\ wf b' /\
    bitmap_isset b' 8 = Done x /\ x <> 0 /\ bitmap_unmark b' 8 = Done ten.
Proof. exact (bitmap_mark_unmark ten 8 ten_wf ltac:(lia)). Defined.
End Bitmap.
