(* ===== verification/Arrays.v ===== *)
(** * kern/lib/array.c, kern/include/array.h: resizeable arrays of pointers

    The vnode table of SFS, the device table of the VFS layer and the table of
    CPUs are such arrays.  Storage is obtained with [kmalloc] in sizes that
    double; a slot that was never stored to holds no value ([None]). *)

From S2P Require Import Prelude.

Module Arrays.
Section arrays.
Context {A : Type}.

(** [struct array]: [v] is the allocated block (empty for a null pointer). *)
Record array : Type := mkArray {
  v : list (option A);
  num : Z;
  max : Z;
}.

Definition array_init : array := mkArray [] 0 0.

Definition array_create (have_mem : bool) : option array :=
  if have_mem then Some array_init else None.

(** [array_cleanup], and with it [array_destroy], insists on an empty array. *)
Definition array_cleanup (a : array) : outcome array :=
  _ ← oassert (num a =? 0);
  Done (mkArray [] (num a) (max a)).

Definition array_num (a : array) : Z := num a.

Definition array_get (a : array) (index : Z) : outcome (option A) :=
  _ ← oassert (index <? num a);
  match v a !! Z.to_nat index with
  | Some x => Done x
  | None => Stop BadAccess
  end.

(** A store into slot [index] of the block. *)
Definition store (a : array) (index : Z) (x : A) : outcome array :=
  match v a !! Z.to_nat index with
  | Some _ => Done (mkArray (<[Z.to_nat index := Some x]> (v a)) (num a) (max a))
  | None => Stop BadAccess
  end.

Definition array_set (a : array) (index : Z) (x : A) : outcome array :=
  _ ← oassert (index <? num a);
  store a index x.

(** [while (num > newmax) newmax = newmax ? newmax*2 : 4;] on [unsigned]. *)
Fixpoint grow (fuel : nat) (n newmax : Z) : outcome Z :=
  match fuel with
  | O => Stop NoFuel
  | S fuel' =>
      if n <=? newmax then Done newmax
      else grow fuel' n (if newmax =? 0 then 4 else u32 (newmax * 2))
  end.

(** The number of slots in a block of [newmax*sizeof( *a->v)] bytes: the
    multiplication is on [size_t] and wraps. *)
Definition slots (newmax : Z) : nat := Z.to_nat (u32 (newmax * 4) / 4).

Definition array_setsize (fuel : nat) (have_mem : bool) (a : array) (n : Z)
    : outcome (Z * array) :=
  if max a <? n then
    newmax ← grow fuel n (max a);
    if negb have_mem then Done (ENOMEM, a)
    else
      let blk := take (Z.to_nat (num a)) (v a) in
      let newptr := blk ++ replicate (slots newmax - length blk) None in
      if (Z.to_nat (num a) <=? slots newmax)%nat
      then Done (0, mkArray newptr n newmax)
      else Stop BadAccess
  else Done (0, mkArray (v a) n (max a)).

Definition array_add (fuel : nat) (have_mem : bool) (a : array) (x : A)
    : outcome (result Z * array) :=
  let index := num a in
  '(ret, a1) ← array_setsize fuel have_mem a (u32 (index + 1));
  if negb (ret =? 0) then Done (Err ret, a1)
  else
    a2 ← store a1 index x;
    Done (Ok index, a2).

(** [memmove(a->v + index, a->v + index+1, num_to_move*sizeof(void * ))] *)
Definition array_remove (a : array) (index : Z) : outcome array :=
  _ ← oassert (num a <=? max a);
  _ ← oassert (index <? num a);
  let num_to_move := Z.to_nat (num a - (index + 1)) in
  let i := Z.to_nat index in
  if (Nat.ltb (length (v a)) (i + 1 + num_to_move)) then Stop BadAccess
  else
    let moved := take num_to_move (drop (i + 1) (v a)) in
    Done (mkArray (take i (v a) ++ moved ++ drop (i + num_to_move) (v a))
            (num a - 1) (max a)).

(** ** Abstraction: an array is the list of its first [num] slots *)

Definition contents (a : array) : list (option A) := take (Z.to_nat (num a)) (v a).

Record wf (a : array) : Prop := mkWf {
  wf_num : 0 <= num a <= max a;
  wf_len : Z.of_nat (length (v a)) = max a;
  wf_max : max a = 0 \/ exists k, 0 <= k <= 27 /\ max a = 4 * 2 ^ k;
}.

Lemma wf_init : wf array_init.
Proof. constructor; cbn; auto; lia. Qed.

Lemma wf_max_bound a : wf a -> max a <= 2 ^ 29.
Proof.
  intros [_ _ [->|(k & Hk & ->)]]; [lia|].
  replace (2 ^ 29) with (4 * 2 ^ 27) by lia.
  apply Z.mul_le_mono_nonneg_l; [lia|]. apply Z.pow_le_mono_r; lia.
Qed.

Lemma length_contents a : wf a -> Z.of_nat (length (contents a)) = num a.
Proof.
  intros Hwf. pose proof (wf_num _ Hwf). pose proof (wf_len _ Hwf).
  unfold contents. rewrite length_take. lia.
Qed.

(** From a power of two the loop reaches the bound within 28 doublings. *)
Lemma grow_pow fuel n k :
  0 <= k <= 27 -> n <= 2 ^ 29 -> 28 <= k + Z.of_nat fuel ->
  exists k', k <= k' <= 27 /\ n <= 4 * 2 ^ k' /\
    (4 * 2 ^ k' < 2 * n \/ k' = k) /\ grow fuel n (4 * 2 ^ k) = Done (4 * 2 ^ k').
Proof.
  revert k. induction fuel as [|fuel IH]; intros k Hk Hn Hf; [lia|]. cbn [grow].
  destruct (Z.leb_spec n (4 * 2 ^ k)) as [Hle|Hgt].
  - exists k. split; [lia|]. split; [done|]. auto.
  - assert (k < 27).
    { destruct (decide (k = 27)) as [->|]; [lia|lia]. }
    destruct (IH (k + 1)) as (k' & Hk' & Hn' & Hb & Hg); [lia..|].
    exists k'. split; [lia|]. split; [done|]. rewrite Z.pow_add_r in Hg by lia.
    pose proof (Z.pow_pos_nonneg 2 k ltac:(lia) ltac:(lia)).
    pose proof (Z.pow_le_mono_r 2 k 26 ltac:(lia) ltac:(lia)).
    destruct (Z.eqb_spec (4 * 2 ^ k) 0); [lia|]. rewrite uwrap_small by lia.
    replace (4 * 2 ^ k * 2) with (4 * (2 ^ k * 2 ^ 1)) by lia.
    split; [|done]. left. destruct Hb as [Hb| ->]; [lia|].
    rewrite Z.pow_add_r; lia.
Qed.

Lemma grow_spec fuel n a :
  wf a -> max a < n <= 2 ^ 29 -> (30 <= fuel)%nat ->
  exists k, 0 <= k <= 27 /\ n <= 4 * 2 ^ k /\ (4 * 2 ^ k < 2 * n \/ k = 0) /\
    grow fuel n (max a) = Done (4 * 2 ^ k).
Proof.
  intros Hwf Hn Hf. destruct (wf_max _ Hwf) as [E|(k & Hk & E)]; rewrite E in *.
  - destruct fuel as [|fuel]; [lia|]. cbn [grow].
    destruct (Z.leb_spec n 0); [pose proof (wf_num _ Hwf); lia|]. cbn [Z.eqb].
    destruct (grow_pow fuel n 0) as (k & ? & ? & ? & Hg); [lia..|].
    exists k. split; [lia|]. split; [done|]. split; [done|].
    by change 4 with (4 * 2 ^ 0) at 1.
  - destruct (grow_pow fuel n k) as (k' & ? & ? & Hb & Hg); [lia..|].
    exists k'. split; [lia|]. split; [done|]. split; [|done].
    destruct Hb as [Hb| ->]; [by left|]. lia.
Qed.

Lemma slots_pow k : 0 <= k <= 27 -> Z.of_nat (slots (4 * 2 ^ k)) = 4 * 2 ^ k.
Proof.
  intros Hk. unfold slots.
  pose proof (Z.pow_pos_nonneg 2 k ltac:(lia) ltac:(lia)).
  pose proof (Z.pow_le_mono_r 2 k 27 ltac:(lia) ltac:(lia)).
  rewrite uwrap_small by lia. dlia.
Qed.

Lemma setsize_spec fuel a n :
  wf a -> 0 <= n <= 2 ^ 29 -> (30 <= fuel)%nat ->
  exists a', array_setsize fuel true a n = Done (0, a') /\ wf a' /\ num a' = n /\
    forall i, (i < Z.to_nat (Z.min n (num a)))%nat -> v a' !! i = v a !! i.
Proof.
  intros Hwf Hn Hf. pose proof (wf_num _ Hwf). pose proof (wf_len _ Hwf) as Hlen.
  unfold array_setsize. destruct (Z.ltb_spec (max a) n).
  - destruct (grow_spec fuel n a) as (k & Hk & Hnk & _ & ->); [done|lia|done|].
    cbn [mbind outcome_bind negb]. pose proof (slots_pow k Hk) as Hs.
    rewrite (proj2 (Nat.leb_le _ _)) by lia. eexists. split; [done|].
    split; [constructor; cbn|split; [done|]].
    + lia.
    + rewrite length_app, length_take, length_replicate. lia.
    + eauto.
    + intros i Hi. cbn [v]. rewrite lookup_app_l by (rewrite length_take; lia).
      by rewrite lookup_take_lt by lia.
  - eexists. split; [done|]. split; [constructor; cbn|split; [done|done]].
    + lia.
    + done.
    + apply Hwf.
Qed.

Lemma setsize_nomem fuel a n :
  wf a -> max a < n <= 2 ^ 29 -> (30 <= fuel)%nat ->
  array_setsize fuel false a n = Done (ENOMEM, a).
Proof.
  intros Hwf Hn Hf. unfold array_setsize. rewrite (proj2 (Z.ltb_lt _ _)) by lia.
  by destruct (grow_spec fuel n a) as (k & _ & _ & _ & ->).
Qed.

Lemma store_spec a i x : wf a -> 0 <= i < max a ->
  exists a', store a i x = Done a' /\ wf a' /\ num a' = num a /\
    v a' = <[Z.to_nat i := Some x]> (v a).
Proof.
  intros Hwf Hi. pose proof (wf_len _ Hwf) as Hlen. unfold store.
  destruct (lookup_lt_is_Some_2 (v a) (Z.to_nat i)) as [y ->]; [lia|].
  eexists. split; [done|]. split; [|done].
  constructor; cbn; [apply Hwf|by rewrite length_insert|apply Hwf].
Qed.

Lemma add_spec fuel a x :
  wf a -> num a < 2 ^ 29 -> (30 <= fuel)%nat ->
  exists a', array_add fuel true a x = Done (Ok (num a), a') /\ wf a' /\
    contents a' = contents a ++ [Some x].
Proof.
  intros Hwf Hn Hf. pose proof (wf_num _ Hwf). pose proof (wf_len _ Hwf).
  unfold array_add. rewrite uwrap_small by lia.
  destruct (setsize_spec fuel a (num a + 1)) as (a1 & -> & Hwf1 & Hn1 & Heq);
    [done|lia|done|]. cbn [mbind outcome_bind negb Z.eqb].
  pose proof (wf_num _ Hwf1). pose proof (wf_len _ Hwf1).
  destruct (store_spec a1 (num a) x) as (a2 & -> & Hwf2 & Hn2 & Hv2);
    [done|lia|]. cbn [mbind outcome_bind].
  exists a2. split; [done|]. split; [done|].
  unfold contents. rewrite Hv2, Hn2, Hn1. apply list_eq. intros i.
  destruct (decide (i < Z.to_nat (num a))%nat).
  - rewrite lookup_take_lt by lia. rewrite list_lookup_insert_ne by lia.
    rewrite lookup_app_l by (rewrite length_take; lia).
    rewrite lookup_take_lt by lia. apply Heq. lia.
  - destruct (decide (i = Z.to_nat (num a))) as [->|].
    + rewrite lookup_take_lt by lia. rewrite list_lookup_insert_eq by lia.
      rewrite lookup_app_r by (rewrite length_take; lia).
      rewrite length_take. replace (_ - _)%nat with 0%nat by lia. done.
    + rewrite lookup_take_ge by lia. symmetry. apply lookup_ge_None.
      rewrite length_app, length_take. cbn. lia.
Qed.

Lemma get_spec a i : wf a -> 0 <= i < num a ->
  exists x, array_get a i = Done x /\ contents a !! Z.to_nat i = Some x.
Proof.
  intros Hwf Hi. pose proof (wf_num _ Hwf). pose proof (wf_len _ Hwf).
  unfold array_get. rewrite (proj2 (Z.ltb_lt _ _)) by lia. cbn.
  destruct (lookup_lt_is_Some_2 (v a) (Z.to_nat i)) as [x Hx]; [lia|].
  rewrite Hx. exists x. split; [done|]. unfold contents.
  by rewrite lookup_take_lt by lia.
Qed.

Lemma set_spec a i x : wf a -> 0 <= i < num a ->
  exists a', array_set a i x = Done a' /\ wf a' /\
    contents a' = <[Z.to_nat i := Some x]> (contents a).
Proof.
  intros Hwf Hi. pose proof (wf_num _ Hwf). pose proof (wf_len _ Hwf).
  unfold array_set. rewrite (proj2 (Z.ltb_lt _ _)) by lia. cbn.
  destruct (store_spec a i x) as (a' & -> & Hwf' & Hn' & Hv'); [done|lia|].
  exists a'. split; [done|]. split; [done|]. unfold contents.
  rewrite Hv', Hn'. by rewrite take_insert_lt by lia.
Qed.

Lemma remove_spec a i : wf a -> 0 <= i < num a ->
  exists a', array_remove a i = Done a' /\ wf a' /\
    contents a' = delete (Z.to_nat i) (contents a).
Proof.
  intros Hwf Hi. pose proof (wf_num _ Hwf). pose proof (wf_len _ Hwf).
  unfold array_remove. rewrite (proj2 (Z.leb_le _ _)) by lia.
  rewrite (proj2 (Z.ltb_lt _ _)) by lia. orun.
  rewrite (proj2 (Nat.ltb_ge _ _)) by lia. eexists. split; [done|].
  set (k := Z.to_nat i). set (m := Z.to_nat (num a - (i + 1))).
  assert (k + 1 + m = Z.to_nat (num a))%nat as Hk by lia.
  split; [constructor; cbn|].
  - lia.
  - rewrite !length_app, !length_take, !length_drop. lia.
  - apply Hwf.
  - unfold contents. cbn [v num]. rewrite <- Hk.
    replace (Z.to_nat (num a - 1)) with (k + m)%nat by lia.
    rewrite delete_take_drop, app_assoc.
    rewrite take_app_le by (rewrite length_app, !length_take, length_drop; lia).
    rewrite take_ge by (rewrite length_app, !length_take, length_drop; lia).
    rewrite take_take, Nat.min_l by lia. f_equal.
    rewrite skipn_firstn_comm. f_equal; [lia|]. f_equal. lia.
Qed.

(** ** Sequences of calls, on the array and on a list *)

Inductive op : Type :=
  | Add (x : A)
  | Set_ (i : Z) (x : A)
  | Get (i : Z)
  | Remove (i : Z).

Inductive reply : Type :=
  | Index (i : Z)
  | Value (x : option A)
  | Nothing.

(** One call, with memory available; [fuel] bounds the doublings. *)
Definition call (fuel : nat) (o : op) (a : array) : outcome (reply * array) :=
  match o with
  | Add x =>
      '(r, a') ← array_add fuel true a x;
      Done (match r with Ok i => Index i | Err _ => Nothing end, a')
  | Set_ i x => a' ← array_set a i x; Done (Nothing, a')
  | Get i => x ← array_get a i; Done (Value x, a)
  | Remove i => a' ← array_remove a i; Done (Nothing, a')
  end.

Fixpoint calls (fuel : nat) (os : list op) (a : array) : outcome (list reply * array) :=
  match os with
  | [] => Done ([], a)
  | o :: r =>
      '(x, a1) ← call fuel o a;
      '(xs, a2) ← calls fuel r a1;
      Done (x :: xs, a2)
  end.

(** The same call on a list; [None] when the code's assertions forbid it. *)
Definition lcall (o : op) (l : list (option A)) : option (reply * list (option A)) :=
  match o with
  | Add x =>
      if decide (Z.of_nat (length l) < 2 ^ 29)
      then Some (Index (Z.of_nat (length l)), l ++ [Some x]) else None
  | Set_ i x =>
      if decide (0 <= i < Z.of_nat (length l))
      then Some (Nothing, <[Z.to_nat i := Some x]> l) else None
  | Get i =>
      if decide (0 <= i) then x ← l !! Z.to_nat i; Some (Value x, l) else None
  | Remove i =>
      if decide (0 <= i < Z.of_nat (length l))
      then Some (Nothing, delete (Z.to_nat i) l) else None
  end.

Fixpoint lcalls (os : list op) (l : list (option A))
    : option (list reply * list (option A)) :=
  match os with
  | [] => Some ([], l)
  | o :: r =>
      '(x, l1) ← lcall o l;
      '(xs, l2) ← lcalls r l1;
      Some (x :: xs, l2)
  end.

Lemma call_sim fuel o a x l :
  wf a -> (30 <= fuel)%nat -> lcall o (contents a) = Some (x, l) ->
  exists a', call fuel o a = Done (x, a') /\ wf a' /\ contents a' = l.
Proof.
  intros Hwf Hf H. pose proof (length_contents _ Hwf) as Hlen.
  destruct o as [y|i y|i|i]; cbn -[Z.pow] in H |- *.
  - case_decide; simplify_eq. rewrite Hlen.
    destruct (add_spec fuel a y) as (a' & -> & ? & ?); [done|lia|done|]. by exists a'.
  - case_decide; simplify_eq.
    destruct (set_spec a i y) as (a' & -> & ? & ?); [done|lia|]. by exists a'.
  - case_decide; [|done]. destruct (contents a !! _) as [z|] eqn:E; simplify_eq/=.
    pose proof (lookup_lt_Some _ _ _ E).
    destruct (get_spec a i) as (x & -> & ?); [done|lia|].
    exists a. by simplify_eq.
  - case_decide; simplify_eq.
    destruct (remove_spec a i) as (a' & -> & ? & ?); [done|lia|]. by exists a'.
Qed.

(** Refinement.  Any sequence of add, set, get and remove calls that is
    legal on the list of the array's elements runs on the array without a
    failed assertion or an access outside its block, gives the replies the
    list gives, and leaves a well-formed array with the list's elements. *)
Theorem array_refines_list fuel os a xs l :
  wf a -> (30 <= fuel)%nat -> lcalls os (contents a) = Some (xs, l) ->
  exists a', calls fuel os a = Done (xs, a') /\ wf a' /\ contents a' = l.
Proof.
  intros Hwf Hf. revert a xs l Hwf.
  induction os as [|o os IH]; intros a xs l Hwf H; cbn in H |- *; [by simplify_eq; exists a|].
  destruct (lcall o (contents a)) as [[x l1]|] eqn:E; [|done]. cbn in H.
  destruct (lcalls os l1) as [[ys l2]|] eqn:E2; [|done]. cbn in H. simplify_eq.
  destruct (call_sim fuel o a _ _ Hwf Hf E) as (a1 & -> & Hwf1 & <-).
  destruct (IH _ _ _ Hwf1 E2) as (a2 & Hc & ? & ?). exists a2. cbn. by rewrite Hc.
Qed.
End arrays.
Arguments array : clear implicits.

(** The doubling loop reaches 0 by wrap-around and starts over. *)
Lemma grow_wraps fuel n k :
  2 ^ 31 < n -> 0 <= k <= 29 -> grow fuel n (4 * 2 ^ k) = Stop NoFuel /\
  grow fuel n 0 = Stop NoFuel.
Proof.
  intros Hn. revert k. induction fuel as [|fuel IH]; intros k Hk; [done|]. cbn [grow].
  pose proof (Z.pow_pos_nonneg 2 k ltac:(lia) ltac:(lia)).
  pose proof (Z.pow_le_mono_r 2 k 29 ltac:(lia) ltac:(lia)).
  rewrite !(proj2 (Z.leb_gt _ _)) by lia. cbn [Z.eqb]. split.
  - rewrite (proj2 (Z.eqb_neq _ _)) by lia. destruct (decide (k = 29)) as [->|].
    + exact (proj2 (IH 0 ltac:(lia))).
    + destruct (IH (k + 1) ltac:(lia)) as [E _].
      pose proof (Z.pow_le_mono_r 2 k 28 ltac:(lia) ltac:(lia)).
      rewrite uwrap_small by lia. rewrite <- E. f_equal. rewrite Z.pow_add_r; lia.
  - exact (proj1 (IH 0 ltac:(lia))).
Qed.

(** The size computation of [array_setsize] does not terminate for a
    request above 2^31 elements: [newmax] doubles to 2^31, wraps to 0 and
    starts again at 4, so no amount of iterations leaves the loop. *)
Theorem array_setsize_diverges {A} fuel (n : Z) (Hn : 2 ^ 31 < n) (have_mem : bool) :
  array_setsize (A := A) fuel have_mem array_init n = Stop NoFuel.
Proof.
  unfold array_setsize. cbn [max array_init]. rewrite (proj2 (Z.ltb_lt _ _)) by lia.
  by rewrite (proj2 (grow_wraps fuel n 0 Hn ltac:(lia))).
Qed.

Lemma array_refines_list_witness : exists a',
  calls 30 [Add 5; Add 6; Add 7; Remove 1; Get 1; Set_ 0 9; Get 0] (array_init (A := Z))
    = Done ([Index 0; Index 1; Index 2; Nothing; Value (Some 7); Nothing; Value (Some 9)], a')
  /\ wf a' /\ contents a' = [Some 9; Some 7].
Proof. apply array_refines_list; [apply wf_init|lia|reflexivity]. Defined.

Lemma array_setsize_diverges_witness :
  array_setsize (A := Z) 100 true array_init (2 ^ 31 + 1) = Stop NoFuel.
Proof. apply array_setsize_diverges. lia. Defined.
End Arrays.
