(* ===== verification/ThreadList.v ===== *)
(** * kern/thread/threadlist.c: doubly linked lists of threads

    The run queue and the zombie list of a CPU and the sleepers of a wait
    channel are such lists.  A node lives inside its thread ([t_listnode]); the
    two bookends live inside the list.  The model keeps the nodes in a heap so
    that the pointer surgery of the code is the surgery that is verified. *)

From S2P Require Import Prelude.

Module ThreadList.

(** The address of a [struct threadlistnode]: [&t->t_listnode],
    [&tl->tl_head] or [&tl->tl_tail]. *)
Inductive nodeaddr : Set :=
  | ThrNode (t : Z)
  | HeadNode (tl : Z)
  | TailNode (tl : Z).

#[export] Instance nodeaddr_eq_dec : EqDecision nodeaddr.
Proof. solve_decision. Defined.
#[export] Instance nodeaddr_countable : Countable nodeaddr.
Proof.
  refine (inj_countable'
    (fun a => match a with
              | ThrNode t => inl t
              | HeadNode l => inr (inl l)
              | TailNode l => inr (inr l)
              end : Z + (Z + Z))
    (fun x => match x with
              | inl t => ThrNode t
              | inr (inl l) => HeadNode l
              | inr (inr l) => TailNode l
              end) _).
  by intros [].
Defined.

(** [struct threadlistnode] *)
Record tln : Type := mkTln {
  tln_prev : option nodeaddr;
  tln_next : option nodeaddr;
  tln_self : option Z;
}.

(** All nodes, and the [tl_count] of every list. *)
Record tlstate : Type := mkTl {
  nodes : gmap nodeaddr tln;
  tl_count : gmap Z Z;
}.

Definition node (a : nodeaddr) : M tlstate tln := fun s =>
  match nodes s !! a with
  | Some n => Done (n, s)
  | None => Stop BadAccess
  end.
Definition put_node (a : nodeaddr) (n : tln) : M tlstate unit :=
  mmodify (fun s => mkTl (<[a := n]> (nodes s)) (tl_count s)).
Definition set_prev (a : nodeaddr) (p : option nodeaddr) : M tlstate unit :=
  n ← node a; put_node a (mkTln p (tln_next n) (tln_self n)).
Definition set_next (a : nodeaddr) (p : option nodeaddr) : M tlstate unit :=
  n ← node a; put_node a (mkTln (tln_prev n) p (tln_self n)).
Definition get_count (l : Z) : M tlstate Z := fun s =>
  match tl_count s !! l with
  | Some c => Done (c, s)
  | None => Stop BadAccess
  end.
Definition set_count (l c : Z) : M tlstate unit :=
  mmodify (fun s => mkTl (nodes s) (<[l := c]> (tl_count s))).

Definition threadlistnode_init (a : nodeaddr) (t : Z) : M tlstate unit :=
  put_node a (mkTln None None (Some t)).

Definition threadlistnode_cleanup (a : nodeaddr) : M tlstate unit :=
  n ← node a;
  _ ← kassert (bool_decide (tln_next n = None));
  _ ← kassert (bool_decide (tln_prev n = None));
  kassert (bool_decide (tln_self n <> None)).

Definition threadlist_init (l : Z) : M tlstate unit :=
  _ ← put_node (HeadNode l) (mkTln None (Some (TailNode l)) None);
  _ ← put_node (TailNode l) (mkTln (Some (HeadNode l)) None None);
  set_count l 0.

Definition threadlist_isempty (l : Z) : M tlstate bool :=
  c ← get_count l; mret (c =? 0).

Definition threadlist_cleanup (l : Z) : M tlstate unit :=
  e ← threadlist_isempty l;
  _ ← kassert e;
  c ← get_count l;
  kassert (c =? 0).

Definition threadlist_insertafternode (onlist : nodeaddr) (t : Z) : M tlstate unit :=
  let addee := ThrNode t in
  _ ← set_prev addee (Some onlist);
  n ← node onlist;
  _ ← set_next addee (tln_next n);
  a ← node addee;
  p ← deref (tln_prev a);
  _ ← set_next p (Some addee);
  a ← node addee;
  q ← deref (tln_next a);
  set_prev q (Some addee).

Definition threadlist_insertbeforenode (t : Z) (onlist : nodeaddr) : M tlstate unit :=
  let addee := ThrNode t in
  n ← node onlist;
  _ ← set_prev addee (tln_prev n);
  _ ← set_next addee (Some onlist);
  a ← node addee;
  p ← deref (tln_prev a);
  _ ← set_next p (Some addee);
  a ← node addee;
  q ← deref (tln_next a);
  set_prev q (Some addee).

Definition threadlist_removenode (a : nodeaddr) : M tlstate unit :=
  n ← node a;
  p ← deref (tln_prev n);
  _ ← set_next p (tln_next n);
  n ← node a;
  q ← deref (tln_next n);
  _ ← set_prev q (tln_prev n);
  _ ← set_prev a None;
  set_next a None.

(** [tl->tl_count++] and [tl->tl_count--] on [unsigned]. *)
Definition count_inc (l : Z) : M tlstate unit :=
  c ← get_count l; set_count l (u32 (c + 1)).
Definition count_dec (l : Z) : M tlstate unit :=
  c ← get_count l; set_count l (u32 (c - 1)).

Definition threadlist_addhead (l t : Z) : M tlstate unit :=
  _ ← threadlist_insertafternode (HeadNode l) t; count_inc l.

Definition threadlist_addtail (l t : Z) : M tlstate unit :=
  _ ← threadlist_insertbeforenode t (TailNode l); count_inc l.

Definition threadlist_remhead (l : Z) : M tlstate (option Z) :=
  h ← node (HeadNode l);
  a ← deref (tln_next h);
  n ← node a;
  match tln_next n with
  | None => mret None
  | Some _ =>
      _ ← threadlist_removenode a;
      _ ← count_dec l;
      n' ← node a;
      mret (tln_self n')
  end.

Definition threadlist_remtail (l : Z) : M tlstate (option Z) :=
  h ← node (TailNode l);
  a ← deref (tln_prev h);
  n ← node a;
  match tln_prev n with
  | None => mret None
  | Some _ =>
      _ ← threadlist_removenode a;
      _ ← count_dec l;
      n' ← node a;
      mret (tln_self n')
  end.

Definition threadlist_insertafter (l onlist addee : Z) : M tlstate unit :=
  _ ← threadlist_insertafternode (ThrNode onlist) addee; count_inc l.

Definition threadlist_insertbefore (l addee onlist : Z) : M tlstate unit :=
  _ ← threadlist_insertbeforenode addee (ThrNode onlist); count_inc l.

Definition threadlist_remove (l t : Z) : M tlstate unit :=
  _ ← threadlist_removenode (ThrNode t); count_dec l.

(** ** Representation: a list of threads *)

Definition self_of (a : nodeaddr) : option Z :=
  match a with ThrNode t => Some t | _ => None end.

(** [dlseg h p xs n]: the nodes [xs] are linked both ways, the first one
    points back to [p] and the last one forward to [n]. *)
Fixpoint dlseg (h : gmap nodeaddr tln) (p : option nodeaddr) (xs : list nodeaddr)
    (n : option nodeaddr) : Prop :=
  match xs with
  | [] => True
  | a :: r =>
      h !! a = Some (mkTln p (match r with [] => n | b :: _ => Some b end) (self_of a)) /\
      dlseg h (Some a) r n
  end.

Definition spine (l : Z) (ts : list Z) : list nodeaddr :=
  HeadNode l :: (ThrNode <$> ts) ++ [TailNode l].

(** The list [l] of the state [s] holds exactly the threads [ts], in order. *)
Record rep (s : tlstate) (l : Z) (ts : list Z) : Prop := mkRep {
  rep_seg : dlseg (nodes s) None (spine l ts) None;
  rep_nodup : NoDup ts;
  rep_count : tl_count s !! l = Some (Z.of_nat (length ts));
}.

(** The thread [t] is on no list. *)
Definition off_list (s : tlstate) (t : Z) : Prop :=
  nodes s !! ThrNode t = Some (mkTln None None (Some t)).

Definition hd_or (xs : list nodeaddr) (n : option nodeaddr) : option nodeaddr :=
  match xs with [] => n | b :: _ => Some b end.
Definition last_or (xs : list nodeaddr) (p : option nodeaddr) : option nodeaddr :=
  match last xs with None => p | Some b => Some b end.

Lemma last_or_cons a xs p : last_or (a :: xs) p = last_or xs (Some a).
Proof. unfold last_or. rewrite last_cons. by destruct (last xs). Qed.
Lemma last_or_snoc xs a p : last_or (xs ++ [a]) p = Some a.
Proof. unfold last_or. by rewrite last_snoc. Qed.

Lemma dlseg_app h p xs ys n :
  dlseg h p (xs ++ ys) n <-> dlseg h p xs (hd_or ys n) /\ dlseg h (last_or xs p) ys n.
Proof.
  revert p. induction xs as [|a xs IH]; intros p; cbn [app dlseg].
  { unfold last_or. cbn. tauto. }
  rewrite last_or_cons, IH. destruct xs; cbn; destruct ys; tauto.
Qed.

(** Nodes outside the segment do not matter. *)
Lemma dlseg_frame h h' p xs n :
  (forall a, a ∈ xs -> h' !! a = h !! a) -> dlseg h p xs n -> dlseg h' p xs n.
Proof.
  revert p. induction xs as [|a xs IH]; intros p Hf; cbn [dlseg]; [done|].
  intros [Ha Hr]. split.
  - by rewrite Hf by set_solver.
  - apply IH; [set_solver|done].
Qed.

(** Redirecting the end of a segment. *)
Lemma dlseg_snoc_next h h' p xs x n n' :
  dlseg h p (xs ++ [x]) n -> x ∉ xs ->
  h' !! x = (fun m => mkTln (tln_prev m) n' (tln_self m)) <$> h !! x ->
  (forall a, a ∈ xs -> h' !! a = h !! a) ->
  dlseg h' p (xs ++ [x]) n'.
Proof.
  rewrite !dlseg_app. intros [H1 H2] Hx Hh Hf. split.
  - by eapply dlseg_frame.
  - destruct H2 as [H2 _]. cbn. split; [|done]. by rewrite Hh, H2.
Qed.

Lemma dlseg_cons_prev h h' p p' y ys n :
  dlseg h p (y :: ys) n -> y ∉ ys ->
  h' !! y = (fun m => mkTln p' (tln_next m) (tln_self m)) <$> h !! y ->
  (forall a, a ∈ ys -> h' !! a = h !! a) ->
  dlseg h' p' (y :: ys) n.
Proof.
  intros [H1 H2] Hx Hh Hf. split.
  - rewrite Hh, H1. done.
  - by eapply dlseg_frame.
Qed.

(** What linking [a] in between [x] and [y] does to the heap. *)
Record linked_in (h h' : gmap nodeaddr tln) (x a y : nodeaddr) : Prop := mkIn {
  li_a : h' !! a = (fun m => mkTln (Some x) (Some y) (tln_self m)) <$> h !! a;
  li_x : h' !! x = (fun m => mkTln (tln_prev m) (Some a) (tln_self m)) <$> h !! x;
  li_y : h' !! y = (fun m => mkTln (Some a) (tln_next m) (tln_self m)) <$> h !! y;
  li_frame : forall b, b <> x -> b <> a -> b <> y -> h' !! b = h !! b;
}.

(** And unlinking it. *)
Record linked_out (h h' : gmap nodeaddr tln) (x a y : nodeaddr) : Prop := mkOut {
  lo_a : h' !! a = (fun m => mkTln None None (tln_self m)) <$> h !! a;
  lo_x : h' !! x = (fun m => mkTln (tln_prev m) (Some y) (tln_self m)) <$> h !! x;
  lo_y : h' !! y = (fun m => mkTln (Some x) (tln_next m) (tln_self m)) <$> h !! y;
  lo_frame : forall b, b <> x -> b <> a -> b <> y -> h' !! b = h !! b;
}.

Lemma dlseg_insert h h' p xs x a y ys n :
  dlseg h p (xs ++ x :: y :: ys) n -> NoDup (xs ++ x :: a :: y :: ys) ->
  linked_in h h' x a y -> (tln_self <$> h !! a) = Some (self_of a) ->
  dlseg h' p (xs ++ x :: a :: y :: ys) n.
Proof.
  intros Hseg Hnd [Ha Hx Hy Hf] Hself.
  replace (xs ++ x :: y :: ys) with ((xs ++ [x]) ++ y :: ys) in Hseg
    by by rewrite <- app_assoc.
  replace (xs ++ x :: a :: y :: ys) with ((xs ++ [x]) ++ a :: y :: ys)
    in Hnd |- * by by rewrite <- app_assoc.
  apply dlseg_app in Hseg as [Sl Sr]. apply dlseg_app.
  rewrite last_or_snoc in Sr |- *. apply NoDup_app in Hnd as (N1 & N2 & N3).
  apply NoDup_app in N1 as (_ & N1 & _).
  apply NoDup_cons in N3 as [N3 N4]. apply NoDup_cons in N4 as [N4 N5].
  split; [|split].
  - eapply (dlseg_snoc_next h); [done|set_solver|done|].
    intros b Hb. apply Hf; set_solver.
  - rewrite Ha. destruct (h !! a); cbn in *; congruence.
  - eapply (dlseg_cons_prev h); [done|done|done|].
    intros b Hb. apply Hf; set_solver.
Qed.

Lemma dlseg_remove h h' p xs x a y ys n :
  dlseg h p (xs ++ x :: a :: y :: ys) n -> NoDup (xs ++ x :: a :: y :: ys) ->
  linked_out h h' x a y -> dlseg h' p (xs ++ x :: y :: ys) n.
Proof.
  intros Hseg Hnd [Ha Hx Hy Hf].
  replace (xs ++ x :: y :: ys) with ((xs ++ [x]) ++ y :: ys)
    by by rewrite <- app_assoc.
  replace (xs ++ x :: a :: y :: ys) with ((xs ++ [x]) ++ a :: y :: ys)
    in Hnd, Hseg by by rewrite <- app_assoc.
  apply dlseg_app in Hseg as [Sl [_ Sr]]. apply dlseg_app.
  rewrite last_or_snoc. apply NoDup_app in Hnd as (N1 & N2 & N3).
  apply NoDup_app in N1 as (_ & N1 & _).
  apply NoDup_cons in N3 as [N3 N4]. apply NoDup_cons in N4 as [N4 N5].
  split.
  - eapply (dlseg_snoc_next h); [done|set_solver|done|].
    intros b Hb. apply Hf; set_solver.
  - eapply (dlseg_cons_prev h); [done|done|done|].
    intros b Hb. apply Hf; set_solver.
Qed.

(** ** The pointer surgery *)

(** Runs the primitive accesses of a goal; the lookups are hypotheses. *)
Ltac tlstep :=
  unfold set_prev, set_next, put_node, node; mrun;
  cbn [nodes tl_count tln_prev tln_next tln_self];
  repeat first
    [ rewrite lookup_insert_eq
    | rewrite lookup_insert_ne by congruence
    | match goal with H : nodes _ !! _ = Some _ |- _ => rewrite H end
    | progress (mrun; cbn [nodes tl_count tln_prev tln_next tln_self]) ].

Ltac tllink :=
  repeat match goal with
    | |- context [<[?i := _]> _ !! ?i] => rewrite lookup_insert_eq
    | |- context [<[?i := _]> _ !! ?j] => rewrite lookup_insert_ne by congruence
    end;
  repeat match goal with H : nodes _ !! _ = Some _ |- _ => rewrite H end;
  cbn; congruence.

Lemma insertafternode_run s x t y na nx ny :
  let a := ThrNode t in
  nodes s !! a = Some na -> nodes s !! x = Some nx -> nodes s !! y = Some ny ->
  tln_next nx = Some y -> x <> a -> y <> a -> x <> y ->
  exists h', threadlist_insertafternode x t s = Done (tt, mkTl h' (tl_count s)) /\
    linked_in (nodes s) h' x a y.
Proof.
  intros a Ha Hx Hy Hn Hxa Hya Hxy. unfold threadlist_insertafternode.
  subst a. tlstep.
  rewrite Hn. tlstep.
  eexists. split; [done|]. constructor; intros; tllink.
Qed.

Lemma insertbeforenode_run s x t y na nx ny :
  let a := ThrNode t in
  nodes s !! a = Some na -> nodes s !! x = Some nx -> nodes s !! y = Some ny ->
  tln_prev ny = Some x -> x <> a -> y <> a -> x <> y ->
  exists h', threadlist_insertbeforenode t y s = Done (tt, mkTl h' (tl_count s)) /\
    linked_in (nodes s) h' x a y.
Proof.
  intros a Ha Hx Hy Hn Hxa Hya Hxy. unfold threadlist_insertbeforenode.
  subst a. tlstep. rewrite Hn. tlstep.
  eexists. split; [done|]. constructor; intros; tllink.
Qed.

Lemma removenode_run s x a y na nx ny :
  nodes s !! a = Some na -> nodes s !! x = Some nx -> nodes s !! y = Some ny ->
  tln_prev na = Some x -> tln_next na = Some y -> x <> a -> y <> a -> x <> y ->
  exists h', threadlist_removenode a s = Done (tt, mkTl h' (tl_count s)) /\
    linked_out (nodes s) h' x a y.
Proof.
  intros Ha Hx Hy Hp Hn Hxa Hya Hxy. unfold threadlist_removenode.
  tlstep. rewrite Hp. tlstep. rewrite Hn. tlstep.
  eexists. split; [done|]. constructor; intros; tllink.
Qed.

(** ** Lists of threads in the heap *)

(** The node in front of, and behind, a position of the list. *)
Definition before (l : Z) (ts : list Z) : nodeaddr :=
  match last ts with None => HeadNode l | Some u => ThrNode u end.
Definition after (l : Z) (ts : list Z) : nodeaddr :=
  match ts with [] => TailNode l | u :: _ => ThrNode u end.

Lemma spine_split l ts1 ts2 : exists xs ys,
  spine l (ts1 ++ ts2) = xs ++ before l ts1 :: after l ts2 :: ys /\
  forall t, spine l (ts1 ++ t :: ts2) = xs ++ before l ts1 :: ThrNode t :: after l ts2 :: ys.
Proof.
  assert (exists xs, HeadNode l :: (ThrNode <$> ts1) = xs ++ [before l ts1]) as [xs Hx].
  { destruct ts1 as [|u ts1 _] using rev_ind; [by exists []|].
    exists (HeadNode l :: (ThrNode <$> ts1)). unfold before.
    by rewrite last_snoc, fmap_app. }
  assert (exists ys, (ThrNode <$> ts2) ++ [TailNode l] = after l ts2 :: ys) as [ys Hy].
  { destruct ts2; cbn; eauto. }
  exists xs, ys. unfold spine. split; [|intros t]; rewrite fmap_app, <- app_assoc.
  - rewrite app_comm_cons, Hx, Hy, <- app_assoc. done.
  - rewrite fmap_cons, app_comm_cons, Hx, <- app_comm_cons, Hy, <- app_assoc. done.
Qed.

Lemma elem_of_spine l ts a : a ∈ spine l ts <->
  a = HeadNode l \/ a = TailNode l \/ exists t, a = ThrNode t /\ t ∈ ts.
Proof.
  unfold spine. rewrite elem_of_cons, elem_of_app, list_elem_of_fmap.
  rewrite list_elem_of_singleton. naive_solver.
Qed.

Lemma spine_nodup l ts : NoDup ts -> NoDup (spine l ts).
Proof.
  intros H. unfold spine. apply NoDup_cons. split.
  - rewrite elem_of_app, list_elem_of_fmap, list_elem_of_singleton. naive_solver.
  - apply NoDup_app. split; [by apply NoDup_fmap_2; [intros ?? [=]|]|].
    split; [|apply NoDup_singleton]. intros x. rewrite list_elem_of_fmap.
    rewrite list_elem_of_singleton. naive_solver.
Qed.

Lemma dlseg_mid h p xs x y ys n :
  dlseg h p (xs ++ x :: y :: ys) n ->
  (exists q, h !! x = Some (mkTln q (Some y) (self_of x))) /\
  (exists q, h !! y = Some (mkTln (Some x) q (self_of y))).
Proof.
  intros H. apply dlseg_app in H as [_ H]. cbn in H.
  destruct H as (H1 & H2 & _). eauto.
Qed.

Lemma dlseg_elem h p xs n a : dlseg h p xs n -> a ∈ xs -> is_Some (h !! a).
Proof.
  revert p. induction xs as [|b xs IH]; intros p H Ha; [set_solver|].
  apply elem_of_cons in Ha as [->|Ha].
  - destruct H as [-> _]. eauto.
  - destruct H as [_ H]. eauto.
Qed.

(** A thread on a list has both neighbours. *)
Lemma rep_on_list s l ts1 t ts2 : rep s l (ts1 ++ t :: ts2) ->
  nodes s !! ThrNode t = Some (mkTln (Some (before l ts1)) (Some (after l ts2)) (Some t)).
Proof.
  intros [Hseg _ _]. destruct (spine_split l ts1 ts2) as (xs & ys & _ & Hsp).
  rewrite Hsp in Hseg. apply dlseg_app in Hseg as [_ Hseg]. cbn in Hseg. tauto.
Qed.

Lemma rep_not_off s l ts t : rep s l ts -> off_list s t -> t ∉ ts.
Proof.
  intros Hr Ho Ht. apply list_elem_of_split in Ht as (ts1 & ts2 & ->).
  apply rep_on_list in Hr. unfold off_list in Ho. congruence.
Qed.

(** The facts about the two neighbours of a position that the code reads. *)
Lemma rep_neighbours s l ts1 ts2 : rep s l (ts1 ++ ts2) -> exists q1 q2,
  nodes s !! before l ts1 =
    Some (mkTln q1 (Some (after l ts2)) (self_of (before l ts1))) /\
  nodes s !! after l ts2 =
    Some (mkTln (Some (before l ts1)) q2 (self_of (after l ts2))) /\
  before l ts1 <> after l ts2 /\
  forall t, t ∉ ts1 ++ ts2 -> before l ts1 <> ThrNode t /\ after l ts2 <> ThrNode t.
Proof.
  intros [Hseg Hnd _]. destruct (spine_split l ts1 ts2) as (xs & ys & Hsp & Hspt).
  apply (spine_nodup l) in Hnd as Hnds. rewrite Hsp in Hseg, Hnds.
  destruct (dlseg_mid _ _ _ _ _ _ _ Hseg) as [[q1 H1] [q2 H2]].
  exists q1, q2. split; [done|]. split; [done|]. split.
  - apply NoDup_app in Hnds as (_ & _ & Hnds). apply NoDup_cons in Hnds as [Hn _].
    set_solver.
  - intros t Ht. pose proof (elem_of_spine l (ts1 ++ ts2) (ThrNode t)) as He.
    split; intros E; apply Ht; rewrite Hsp in He; rewrite E in He.
    + destruct (proj1 He ltac:(set_solver)) as [?|[?|(u & ? & ?)]]; naive_solver.
    + destruct (proj1 He ltac:(set_solver)) as [?|[?|(u & ? & ?)]]; naive_solver.
Qed.

(** ** The abstract state: disjoint lists and free threads *)

Record absstate : Type := mkAbs {
  lists : gmap Z (list Z);
  free : gset Z;
}.

Record world (s : tlstate) (m : absstate) : Prop := mkWorld {
  w_rep : forall l ts, lists m !! l = Some ts -> rep s l ts;
  w_free : forall t, t ∈ free m -> off_list s t;
  w_disj : forall l1 l2 ts1 ts2 t, lists m !! l1 = Some ts1 ->
    lists m !! l2 = Some ts2 -> t ∈ ts1 -> t ∈ ts2 -> l1 = l2;
}.

Lemma before_spine l ts1 ts2 : before l ts1 ∈ spine l (ts1 ++ ts2).
Proof. destruct (spine_split l ts1 ts2) as (xs & ys & -> & _). set_solver. Qed.
Lemma after_spine l ts1 ts2 : after l ts2 ∈ spine l (ts1 ++ ts2).
Proof. destruct (spine_split l ts1 ts2) as (xs & ys & -> & _). set_solver. Qed.

(** Spines of different lists of a world share no node. *)
Lemma spine_disj s m l1 l2 ts1 ts2 a : world s m ->
  lists m !! l1 = Some ts1 -> lists m !! l2 = Some ts2 -> l1 <> l2 ->
  a ∈ spine l1 ts1 -> a ∈ spine l2 ts2 -> False.
Proof.
  intros Hw H1 H2 Hne. rewrite !elem_of_spine.
  intros [->|[->|(t & -> & Ht)]] [?|[?|(u & ? & Hu)]]; simplify_eq.
  by destruct Hne; eapply (w_disj _ _ Hw).
Qed.

Lemma rep_frame s s' l ts : rep s l ts ->
  (forall a, a ∈ spine l ts -> nodes s' !! a = nodes s !! a) ->
  tl_count s' !! l = tl_count s !! l -> rep s' l ts.
Proof.
  intros [Hs Hn Hc] Hf Hc'. constructor; [|done|by rewrite Hc'].
  by eapply dlseg_frame.
Qed.

Lemma world_insert s m l ts1 ts2 t h' :
  world s m -> lists m !! l = Some (ts1 ++ ts2) -> t ∈ free m ->
  Z.of_nat (length (ts1 ++ ts2)) + 1 < 2 ^ 32 ->
  linked_in (nodes s) h' (before l ts1) (ThrNode t) (after l ts2) ->
  world (mkTl h' (<[l := u32 (Z.of_nat (length (ts1 ++ ts2)) + 1)]> (tl_count s)))
    (mkAbs (<[l := ts1 ++ t :: ts2]> (lists m)) (free m ∖ {[t]})).
Proof.
  intros Hw Hl Ht Hlen Hli. pose proof (w_rep _ _ Hw _ _ Hl) as Hr.
  pose proof (w_free _ _ Hw _ Ht) as Hoff.
  pose proof (rep_not_off _ _ _ _ Hr Hoff) as Hnt.
  assert (forall l' ts', lists m !! l' = Some ts' -> t ∉ ts') as Hnot.
  { intros l' ts' Hl'. by eapply rep_not_off; [eapply Hw|]. }
  constructor; cbn [lists free].
  - intros l' ts'. rewrite lookup_insert. case_decide as E.
    + subst l'. intros [= <-].
      destruct (spine_split l ts1 ts2) as (xs & ys & Hsp & Hspt).
      assert (NoDup (ts1 ++ t :: ts2)) as Hnd.
      { rewrite <- Permutation_middle. apply NoDup_cons. split; [done|]. apply Hr. }
      constructor; cbn [nodes tl_count].
      * apply (spine_nodup l) in Hnd. rewrite Hspt in Hnd |- *.
        eapply dlseg_insert; [|done|done|by rewrite Hoff].
        rewrite <- Hsp. apply Hr.
      * done.
      * rewrite lookup_insert_eq, uwrap_small by lia. f_equal.
        rewrite !length_app. cbn. lia.
    + intros Hl'. apply (rep_frame s); cbn [nodes tl_count].
      * by apply Hw.
      * intros a Ha. apply (li_frame _ _ _ _ _ Hli); intros ->.
        -- by eapply (spine_disj s m l l'); eauto using before_spine.
        -- apply elem_of_spine in Ha as [?|[?|(u & [= ->] & Hu)]]; try done.
           by apply (Hnot l' ts').
        -- by eapply (spine_disj s m l l'); eauto using after_spine.
      * by rewrite lookup_insert_ne.
  - intros u Hu. unfold off_list. cbn [nodes].
    apply elem_of_difference in Hu as [Hu Hut]. pose proof (w_free _ _ Hw _ Hu) as Ho.
    rewrite (li_frame _ _ _ _ _ Hli); [done| |set_solver|];
      intros E; destruct (rep_neighbours _ _ _ _ Hr) as (_ & _ & _ & _ & _ & Hne);
      destruct (Hne u (rep_not_off _ _ _ _ Hr Ho)); congruence.
  - intros l1 l2 us1 us2 u. rewrite !lookup_insert. 
    repeat case_decide; try (by eauto using w_disj); intros; simplify_eq; [done|..].
    + destruct (decide (u = t)) as [->|]; [by exfalso; eapply Hnot|].
      eapply (w_disj _ _ Hw); eauto. set_solver.
    + destruct (decide (u = t)) as [->|]; [by exfalso; eapply Hnot|].
      eapply (w_disj _ _ Hw); eauto. set_solver.
Qed.

Lemma world_remove s m l ts1 ts2 t h' :
  world s m -> lists m !! l = Some (ts1 ++ t :: ts2) ->
  Z.of_nat (length (ts1 ++ t :: ts2)) < 2 ^ 32 ->
  linked_out (nodes s) h' (before l ts1) (ThrNode t) (after l ts2) ->
  world (mkTl h' (<[l := u32 (Z.of_nat (length (ts1 ++ t :: ts2)) - 1)]> (tl_count s)))
    (mkAbs (<[l := ts1 ++ ts2]> (lists m)) (free m ∪ {[t]})).
Proof.
  intros Hw Hl Hlen Hlo. pose proof (w_rep _ _ Hw _ _ Hl) as Hr.
  pose proof (rep_on_list _ _ _ _ _ Hr) as Hon.
  destruct (spine_split l ts1 ts2) as (xs & ys & Hsp & Hspt).
  assert (forall b, b ∈ [before l ts1; ThrNode t; after l ts2] ->
    b ∈ spine l (ts1 ++ t :: ts2)) as Hin by (rewrite Hspt; set_solver).
  constructor; cbn [lists free].
  - intros l' ts'. rewrite lookup_insert. case_decide as E.
    + subst l'. intros [= <-]. constructor; cbn [nodes tl_count].
      * pose proof (spine_nodup l _ (rep_nodup _ _ _ Hr)) as Hnd.
        pose proof (rep_seg _ _ _ Hr) as Hseg. rewrite Hspt in Hnd, Hseg.
        rewrite Hsp. by eapply dlseg_remove.
      * pose proof (rep_nodup _ _ _ Hr) as Hnd. rewrite <- Permutation_middle in Hnd.
        by apply NoDup_cons in Hnd as [_ ?].
      * rewrite lookup_insert_eq. rewrite length_app in *. cbn [length] in *.
        rewrite uwrap_small by lia. rewrite length_app. f_equal. lia.
    + intros Hl'. apply (rep_frame s); cbn [nodes tl_count].
      * by apply Hw.
      * intros a Ha. apply (lo_frame _ _ _ _ _ Hlo); intros ->;
          (eapply (spine_disj s m l l'); [done..| |done]; apply Hin; cbn; 
           rewrite !elem_of_cons; tauto).
      * by rewrite lookup_insert_ne.
  - intros u Hu. unfold off_list. cbn [nodes].
    destruct (decide (u = t)) as [->|Hut].
    + rewrite (lo_a _ _ _ _ _ Hlo), Hon. done.
    + pose proof (w_free _ _ Hw u ltac:(set_solver)) as Ho.
      pose proof (rep_not_off _ _ _ _ Hr Ho) as Hnu.
      assert (forall b, b ∈ [before l ts1; ThrNode t; after l ts2] -> ThrNode u <> b).
      { intros b Hb <-. apply Hin, elem_of_spine in Hb. naive_solver. }
      rewrite (lo_frame _ _ _ _ _ Hlo); [done|set_solver..].
  - intros l1 l2 us1 us2 u. rewrite !lookup_insert.
    repeat case_decide; try (by eauto using w_disj); intros; simplify_eq; [done|..].
    + eapply (w_disj _ _ Hw); eauto. set_solver.
    + eapply (w_disj _ _ Hw); eauto. set_solver.
Qed.

(** ** The operations on the abstract state *)

Inductive tlop : Type :=
  | AddHead (l t : Z)
  | AddTail (l t : Z)
  | InsertAfter (l onlist addee : Z)
  | InsertBefore (l addee onlist : Z)
  | Remove (l t : Z)
  | RemHead (l : Z)
  | RemTail (l : Z).

Definition conc (o : tlop) : M tlstate (option Z) :=
  match o with
  | AddHead l t => _ ← threadlist_addhead l t; mret None
  | AddTail l t => _ ← threadlist_addtail l t; mret None
  | InsertAfter l u t => _ ← threadlist_insertafter l u t; mret None
  | InsertBefore l t u => _ ← threadlist_insertbefore l t u; mret None
  | Remove l t => _ ← threadlist_remove l t; mret None
  | RemHead l => threadlist_remhead l
  | RemTail l => threadlist_remtail l
  end.

(** What each operation means for lists: the rules say when it may be called
    and what becomes of the lists and of the free threads. *)
Inductive abs_step : tlop -> absstate -> option Z -> absstate -> Prop :=
  | abs_insert m l ts1 ts2 t o :
      lists m !! l = Some (ts1 ++ ts2) -> t ∈ free m ->
      Z.of_nat (length (ts1 ++ ts2)) + 1 < 2 ^ 32 ->
      match o with
      | AddHead l' t' => l' = l /\ t' = t /\ ts1 = []
      | AddTail l' t' => l' = l /\ t' = t /\ ts2 = []
      | InsertAfter l' u t' => l' = l /\ t' = t /\ last ts1 = Some u
      | InsertBefore l' t' u => l' = l /\ t' = t /\ head ts2 = Some u
      | _ => False
      end ->
      abs_step o m None (mkAbs (<[l := ts1 ++ t :: ts2]> (lists m)) (free m ∖ {[t]}))
  | abs_remove m l ts1 t ts2 o r :
      lists m !! l = Some (ts1 ++ t :: ts2) ->
      Z.of_nat (length (ts1 ++ t :: ts2)) < 2 ^ 32 ->
      match o with
      | Remove l' t' => l' = l /\ t' = t /\ r = None
      | RemHead l' => l' = l /\ ts1 = [] /\ r = Some t
      | RemTail l' => l' = l /\ ts2 = [] /\ r = Some t
      | _ => False
      end ->
      abs_step o m r (mkAbs (<[l := ts1 ++ ts2]> (lists m)) (free m ∪ {[t]}))
  | abs_empty m l o :
      lists m !! l = Some [] -> o = RemHead l \/ o = RemTail l ->
      abs_step o m None m.

(** A run of operations, the values they return collected in order. *)
Fixpoint conc_all (os : list tlop) : M tlstate (list (option Z)) :=
  match os with
  | [] => mret []
  | o :: r => x ← conc o; xs ← conc_all r; mret (x :: xs)
  end.

Inductive abs_steps : list tlop -> absstate -> list (option Z) -> absstate -> Prop :=
  | abs_nil m : abs_steps [] m [] m
  | abs_cons o os m r m1 rs m2 :
      abs_step o m r m1 -> abs_steps os m1 rs m2 -> abs_steps (o :: os) m (r :: rs) m2.

Lemma count_inc_run s l c : tl_count s !! l = Some c ->
  count_inc l s = Done (tt, mkTl (nodes s) (<[l := u32 (c + 1)]> (tl_count s))).
Proof. intros H. unfold count_inc, get_count, set_count. mrun. by rewrite H. Qed.
Lemma count_dec_run s l c : tl_count s !! l = Some c ->
  count_dec l s = Done (tt, mkTl (nodes s) (<[l := u32 (c - 1)]> (tl_count s))).
Proof. intros H. unfold count_dec, get_count, set_count. mrun. by rewrite H. Qed.

(** Insertion at a position, from either side of it. *)
Lemma insert_sim s m l ts1 ts2 t :
  world s m -> lists m !! l = Some (ts1 ++ ts2) -> t ∈ free m ->
  Z.of_nat (length (ts1 ++ ts2)) + 1 < 2 ^ 32 ->
  let m' := mkAbs (<[l := ts1 ++ t :: ts2]> (lists m)) (free m ∖ {[t]}) in
  (exists s', (_ ← threadlist_insertafternode (before l ts1) t; count_inc l) s
     = Done (tt, s') /\ world s' m') /\
  (exists s', (_ ← threadlist_insertbeforenode t (after l ts2); count_inc l) s
     = Done (tt, s') /\ world s' m').
Proof.
  intros Hw Hl Ht Hlen m'. pose proof (w_rep _ _ Hw _ _ Hl) as Hr.
  pose proof (w_free _ _ Hw _ Ht) as Hoff.
  destruct (rep_neighbours _ _ _ _ Hr) as (q1 & q2 & Hb & Ha & Hne & Hn).
  destruct (Hn t (rep_not_off _ _ _ _ Hr Hoff)) as [Hbt Hat].
  split.
  - edestruct insertafternode_run as (h' & Hrun & Hli);
      [exact Hoff|exact Hb|exact Ha|done..|].
    eexists. unfold mbind, M_bind. rewrite Hrun.
    split; [by apply count_inc_run, Hr|]. cbn [nodes tl_count]. by eapply world_insert.
  - edestruct insertbeforenode_run as (h' & Hrun & Hli);
      [exact Hoff|exact Hb|exact Ha|done..|].
    eexists. unfold mbind, M_bind. rewrite Hrun.
    split; [by apply count_inc_run, Hr|]. cbn [nodes tl_count]. by eapply world_insert.
Qed.

Lemma remove_sim s m l ts1 t ts2 :
  world s m -> lists m !! l = Some (ts1 ++ t :: ts2) ->
  Z.of_nat (length (ts1 ++ t :: ts2)) < 2 ^ 32 ->
  exists s', (_ ← threadlist_removenode (ThrNode t); count_dec l) s = Done (tt, s') /\
    world s' (mkAbs (<[l := ts1 ++ ts2]> (lists m)) (free m ∪ {[t]})).
Proof.
  intros Hw Hl Hlen. pose proof (w_rep _ _ Hw _ _ Hl) as Hr.
  pose proof (rep_on_list _ _ _ _ _ Hr) as Ht.
  pose proof (spine_nodup l _ (rep_nodup _ _ _ Hr)) as Hnd.
  pose proof (rep_seg _ _ _ Hr) as Hseg.
  destruct (spine_split l ts1 ts2) as (xs & ys & _ & Hsp). rewrite Hsp in Hnd, Hseg.
  destruct (dlseg_mid _ _ _ _ _ _ _ Hseg) as [[q1 Hb] _].
  change (xs ++ ?x :: ?r) with (xs ++ [x] ++ r) in Hseg. rewrite app_assoc in Hseg.
  destruct (dlseg_mid _ _ _ _ _ _ _ Hseg) as [_ [q2 Ha]].
  apply NoDup_app in Hnd as (_ & _ & Hnd).
  apply NoDup_cons in Hnd as [Hb' [Ht' _]%NoDup_cons].
  edestruct removenode_run as (h' & Hrun & Hlo);
    [exact Ht|exact Hb|exact Ha|done|done|set_solver..|].
  eexists. unfold mbind, M_bind. rewrite Hrun.
  split; [by apply count_dec_run, Hr|]. cbn [nodes tl_count]. by eapply world_remove.
Qed.

Lemma deref_run {A} (x : A) (s : tlstate) : deref (Some x) s = Done (x, s).
Proof. done. Qed.
Lemma node_run s a n : nodes s !! a = Some n -> node a s = Done (n, s).
Proof. intros H. unfold node. by rewrite H. Qed.

(** Both [remhead] and [remtail] end the same way once they found the node. *)
Lemma take_sim s m l ts1 t ts2 :
  world s m -> lists m !! l = Some (ts1 ++ t :: ts2) ->
  Z.of_nat (length (ts1 ++ t :: ts2)) < 2 ^ 32 ->
  exists s', (_ ← threadlist_removenode (ThrNode t); _ ← count_dec l;
              n' ← node (ThrNode t); mret (tln_self n')) s = Done (Some t, s') /\
    world s' (mkAbs (<[l := ts1 ++ ts2]> (lists m)) (free m ∪ {[t]})).
Proof.
  intros Hw Hl Hlen. destruct (remove_sim _ _ _ _ _ _ Hw Hl Hlen) as (s' & Hrun & Hw').
  exists s'. split; [|done].
  apply bind_inv in Hrun as ([] & s1 & Hr1 & Hr2).
  rewrite (bind_Done _ _ _ _ _ Hr1), (bind_Done _ _ _ _ _ Hr2).
  pose proof (w_free _ _ Hw' t ltac:(set_solver)) as Hoff.
  by rewrite (bind_Done _ _ _ _ _ (node_run _ _ _ Hoff)).
Qed.

Lemma insert_step s m l ts1 ts2 t o :
  world s m -> lists m !! l = Some (ts1 ++ ts2) -> t ∈ free m ->
  Z.of_nat (length (ts1 ++ ts2)) + 1 < 2 ^ 32 ->
  match o with
  | AddHead l' t' => l' = l /\ t' = t /\ ts1 = []
  | AddTail l' t' => l' = l /\ t' = t /\ ts2 = []
  | InsertAfter l' u t' => l' = l /\ t' = t /\ last ts1 = Some u
  | InsertBefore l' t' u => l' = l /\ t' = t /\ head ts2 = Some u
  | _ => False
  end ->
  exists s', conc o s = Done (None, s') /\
    world s' (mkAbs (<[l := ts1 ++ t :: ts2]> (lists m)) (free m ∖ {[t]})).
Proof.
  intros Hw Hl Ht Hlen Ho.
  destruct (insert_sim _ _ _ _ _ _ Hw Hl Ht Hlen) as [(s1 & H1 & W1) (s2 & H2 & W2)].
  destruct o; try done; destruct Ho as (-> & -> & Ho); cbn [conc].
  - subst ts1. exists s1. by rewrite (bind_Done _ _ _ _ _ H1).
  - subst ts2. exists s2. by rewrite (bind_Done _ _ _ _ _ H2).
  - exists s1. unfold before in H1. rewrite Ho in H1. by rewrite (bind_Done _ _ _ _ _ H1).
  - exists s2. destruct ts2; simplify_eq/=. by rewrite (bind_Done _ _ _ _ _ H2).
Qed.

Lemma remove_step s m l ts1 t ts2 o r :
  world s m -> lists m !! l = Some (ts1 ++ t :: ts2) ->
  Z.of_nat (length (ts1 ++ t :: ts2)) < 2 ^ 32 ->
  match o with
  | Remove l' t' => l' = l /\ t' = t /\ r = None
  | RemHead l' => l' = l /\ ts1 = [] /\ r = Some t
  | RemTail l' => l' = l /\ ts2 = [] /\ r = Some t
  | _ => False
  end ->
  exists s', conc o s = Done (r, s') /\
    world s' (mkAbs (<[l := ts1 ++ ts2]> (lists m)) (free m ∪ {[t]})).
Proof.
  intros Hw Hl Hlen Ho. pose proof (w_rep _ _ Hw _ _ Hl) as Hr.
  destruct (remove_sim _ _ _ _ _ _ Hw Hl Hlen) as (s1 & H1 & W1).
  destruct (take_sim _ _ _ _ _ _ Hw Hl Hlen) as (s2 & H2 & W2).
  pose proof (rep_on_list _ _ _ _ _ Hr) as Hn.
  destruct o; try done; destruct Ho as (-> & -> & ->); cbn [conc].
  - exists s1. by rewrite (bind_Done _ _ _ _ _ H1).
  - exists s2. split; [|done].
    destruct (rep_neighbours _ _ [] _ Hr) as (q1 & q2 & Hb & _).
    unfold threadlist_remhead. rewrite (bind_Done _ _ _ _ _ (node_run _ _ _ Hb)).
    cbn [tln_next tln_prev after before last app].
    rewrite (bind_Done _ _ _ _ _ (deref_run _ _)), (bind_Done _ _ _ _ _ (node_run _ _ _ Hn)). exact H2.
  - exists s2. split; [|done].
    pose proof (rep_neighbours s l (ts1 ++ [t]) []) as Hnb. rewrite app_nil_r in Hnb.
    destruct (Hnb Hr) as (q1 & q2 & _ & Ha & _). unfold before in Ha.
    rewrite last_snoc in Ha.
    unfold threadlist_remtail. rewrite (bind_Done _ _ _ _ _ (node_run _ _ _ Ha)).
    cbn [tln_next tln_prev after before last app].
    rewrite (bind_Done _ _ _ _ _ (deref_run _ _)), (bind_Done _ _ _ _ _ (node_run _ _ _ Hn)). exact H2.
Qed.

Lemma empty_step s m l o : world s m -> lists m !! l = Some [] ->
  o = RemHead l \/ o = RemTail l -> conc o s = Done (None, s).
Proof.
  intros Hw Hl Ho.
  destruct (rep_neighbours _ _ [] [] (w_rep _ _ Hw _ _ Hl)) as (q1 & q2 & Hb & Ha & _).
  pose proof (rep_seg _ _ _ (w_rep _ _ Hw _ _ Hl)) as (Hh & Ht & _).
  cbn in Hh, Ht, Hb, Ha. 
  destruct Ho as [-> | ->]; cbn [conc]; unfold threadlist_remhead, threadlist_remtail, node;
    mrun; rewrite ?Hh, ?Ht; cbn; rewrite ?Hh, ?Ht; done.
Qed.

Lemma abs_step_sim s m o r m' : world s m -> abs_step o m r m' ->
  exists s', conc o s = Done (r, s') /\ world s' m'.
Proof.
  intros Hw Hs. destruct Hs as [m l ts1 ts2 t o|m l ts1 t ts2 o r|m l o].
  - by apply insert_step.
  - by apply remove_step.
  - exists s. split; [by eapply empty_step|done].
Qed.

(** Initialisation: a fresh list is empty, a fresh thread is on no list. *)
Lemma world_init_list s m l : world s m -> lists m !! l = None ->
  exists s', threadlist_init l s = Done (tt, s') /\
    world s' (mkAbs (<[l := []]> (lists m)) (free m)).
Proof.
  intros Hw Hl. eexists. split; [reflexivity|]. constructor; cbn.
  - intros l' ts'. rewrite lookup_insert. case_decide as E.
    + intros [= <-]. subst l'. constructor; cbn; [|constructor|by rewrite lookup_insert_eq].
      by rewrite lookup_insert_ne, !lookup_insert_eq.
    + intros Hl'. apply (rep_frame s); [by apply Hw| |by cbn; rewrite lookup_insert_ne].
      intros a Ha%elem_of_spine. cbn. rewrite !lookup_insert_ne; naive_solver.
  - intros t Ht. unfold off_list. cbn. rewrite !lookup_insert_ne by done. by apply Hw.
  - intros l1 l2 us1 us2 u. rewrite !lookup_insert.
    repeat case_decide; intros; simplify_eq; try by apply elem_of_nil in H2.
    all: try set_solver. by eapply (w_disj _ _ Hw).
Qed.

Lemma world_init_thread s m t : world s m ->
  (forall l ts, lists m !! l = Some ts -> t ∉ ts) ->
  exists s', threadlistnode_init (ThrNode t) t s = Done (tt, s') /\
    world s' (mkAbs (lists m) (free m ∪ {[t]})).
Proof.
  intros Hw Ht. eexists. split; [reflexivity|]. constructor; cbn; [| |apply Hw].
  - intros l ts Hl. apply (rep_frame s); [by apply Hw| |done].
    intros a [->|[->|(u & -> & Hu)]]%elem_of_spine; cbn;
      rewrite lookup_insert_ne; [done..|]. intros [= ->]. by eapply Ht.
  - intros u Hu. unfold off_list. cbn. rewrite lookup_insert. case_decide as E.
    + by injection E as ->.
    + apply Hw. set_solver.
Qed.

(** ** Properties *)

(** C32: Refinement.  Whenever the abstract lists allow a sequence of
    operations (the thread inserted is on no list, the anchor or the removed
    thread is on the named list), the pointer code runs to completion without
    a failed assertion or a bad access, returns what the abstract operations
    return (the removed thread, or NULL on an empty list), and leaves a heap
    that again represents the abstract lists and their counts. *)
Theorem threadlist_refines s m os rs m' :
  world s m -> abs_steps os m rs m' ->
  exists s', conc_all os s = Done (rs, s') /\ world s' m'.
Proof.
  intros Hw Hs. revert s Hw. induction Hs as [m|o os m r m1 rs m2 H1 _ IH]; intros s Hw.
  - by exists s.
  - destruct (abs_step_sim _ _ _ _ _ Hw H1) as (s1 & Hr1 & W1).
    destruct (IH _ W1) as (s2 & Hr2 & W2). exists s2. split; [|done].
    cbn [conc_all]. rewrite (bind_Done _ _ _ _ _ Hr1). by rewrite (bind_Done _ _ _ _ _ Hr2).
Qed.

(** A state with the empty list 7 and the threads 1, 2 and 3. *)
Definition three_threads : M tlstate unit :=
  _ ← threadlist_init 7;
  _ ← threadlistnode_init (ThrNode 1) 1;
  _ ← threadlistnode_init (ThrNode 2) 2;
  threadlistnode_init (ThrNode 3) 3.

Lemma three_threads_world : exists s, three_threads (mkTl ∅ ∅) = Done (tt, s) /\
  world s (mkAbs (<[7 := []]> ∅) (∅ ∪ {[1]} ∪ {[2]} ∪ {[3]})).
Proof.
  assert (world (mkTl ∅ ∅) (mkAbs ∅ ∅)) as W.
  { constructor; cbn; [by intros ?? H; rewrite lookup_empty in H|set_solver|].
    by intros ????? H; rewrite lookup_empty in H. }
  destruct (world_init_list _ _ 7 W) as (s0 & H0 & W0); [done|].
  assert (forall t l ts, <[7 := []]> (∅ : gmap Z (list Z)) !! l = Some ts -> t ∉ ts) as Ho.
  { intros t l ts H. apply lookup_insert_Some in H as [[_ <-]|[_ H]]; [set_solver|].
    by rewrite lookup_empty in H. }
  destruct (world_init_thread _ _ 1 W0 (Ho 1)) as (s1 & H1 & W1).
  destruct (world_init_thread _ _ 2 W1 (Ho 2)) as (s2 & H2 & W2).
  destruct (world_init_thread _ _ 3 W2 (Ho 3)) as (s3 & H3 & W3).
  exists s3. split; [|done]. unfold three_threads.
  by rewrite (bind_Done _ _ _ _ _ H0), (bind_Done _ _ _ _ _ H1), (bind_Done _ _ _ _ _ H2).
Qed.

Lemma threadlist_refines_witness : exists s s' m',
  three_threads (mkTl ∅ ∅) = Done (tt, s) /\
  conc_all [AddTail 7 1; AddHead 7 2; InsertAfter 7 2 3; RemHead 7; RemTail 7;
    Remove 7 3; RemHead 7] s =
    Done ([None; None; None; Some 2; Some 1; None; None], s') /\ world s' m'.
Proof.
  destruct three_threads_world as (s & Hs & W). exists s.
  eassert (abs_steps
    [AddTail 7 1; AddHead 7 2; InsertAfter 7 2 3; RemHead 7; RemTail 7; Remove 7 3; RemHead 7]
    (mkAbs (<[7 := []]> ∅) (∅ ∪ {[1]} ∪ {[2]} ∪ {[3]}))
    [None; None; None; Some 2; Some 1; None; None] _) as Hst.
  { eapply abs_cons; [apply (abs_insert _ 7 [] [] 1); [reflexivity|set_solver|cbn; lia|done]|].
    eapply abs_cons; [apply (abs_insert _ 7 [] [1] 2); [reflexivity|set_solver|cbn; lia|done]|].
    eapply abs_cons; [apply (abs_insert _ 7 [2] [1] 3); [reflexivity|set_solver|cbn; lia|done]|].
    eapply abs_cons; [apply (abs_remove _ 7 [] 2 [3; 1]); [reflexivity|cbn; lia|done]|].
    eapply abs_cons; [apply (abs_remove _ 7 [3] 1 []); [reflexivity|cbn; lia|done]|].
    eapply abs_cons; [apply (abs_remove _ 7 [] 3 []); [reflexivity|cbn; lia|done]|].
    eapply abs_cons; [apply (abs_empty _ 7); [reflexivity|by left]|].
    apply abs_nil. }
  destruct (threadlist_refines _ _ _ _ _ W Hst) as (s' & Hr & W').
  exists s'. eexists. split; [exact Hs|]. split; [exact Hr|exact W'].
Defined.
End ThreadList.
