(* ===== verification/Memory.v ===== *)
(** * common/libc/string: memory and string functions

    The C library routines that libc and the kernel share, on a byte-addressed
    memory.  An access to an address that is not mapped traps; the trap keeps
    the memory as it was at that point, because [copyin] and [copyout] recover
    from it (CopyInOut.v). *)

From S2P Require Import Prelude.

Module Memory.

(** Mapped addresses and the byte at each. *)
Abbreviation mem := (gmap Z Z).

Inductive xres (A : Type) : Type :=
  | Val (a : A) (m : mem)
  | Trap (m : mem)
  | OutOfFuel.
Arguments Val {A} a m.
Arguments Trap {A} m.
Arguments OutOfFuel {A}.

(** Code that reads and writes memory. *)
Definition X (A : Type) : Type := mem -> xres A.
#[export] Instance X_ret : MRet X := fun A a m => Val a m.
#[export] Instance X_bind : MBind X := fun A B k x m =>
  match x m with
  | Val a m' => k a m'
  | Trap m' => Trap m'
  | OutOfFuel => OutOfFuel
  end.

Definition ld (a : Z) : X Z := fun m =>
  match m !! a with
  | Some b => Val b m
  | None => Trap m
  end.
Definition st (a b : Z) : X unit := fun m =>
  match m !! a with
  | Some _ => Val tt (<[a := b]> m)
  | None => Trap m
  end.
Definition nofuel {A} : X A := fun _ => OutOfFuel.

(** An access of [w] bytes: a [char] is one byte, a [long] four. *)
Fixpoint ldn (w : nat) (a : Z) : X (list Z) :=
  match w with
  | O => mret []
  | S w' => b ← ld a; bs ← ldn w' (a + 1); mret (b :: bs)
  end.
Fixpoint stn (a : Z) (bs : list Z) : X unit :=
  match bs with
  | [] => mret tt
  | b :: r => _ ← st a b; stn (a + 1) r
  end.

Definition sizeof_long : Z := 4.
Definition aligned (a : Z) : bool := a mod sizeof_long =? 0.

(** [for (i=0; i<n; i++) d[i] = s[i];] on elements of [w] bytes, from [i]. *)
Fixpoint copy_up (w : nat) (d s : Z) (n : nat) (i : Z) : X unit :=
  match n with
  | O => mret tt
  | S n' =>
      bs ← ldn w (s + Z.of_nat w * i);
      _ ← stn (d + Z.of_nat w * i) bs;
      copy_up w d s n' (i + 1)
  end.

(** [for (i=n; i>0; i--) d[i-1] = s[i-1];] *)
Fixpoint copy_down (w : nat) (d s : Z) (i : nat) : X unit :=
  match i with
  | O => mret tt
  | S i' =>
      bs ← ldn w (s + Z.of_nat w * Z.of_nat i');
      _ ← stn (d + Z.of_nat w * Z.of_nat i') bs;
      copy_down w d s i'
  end.

Definition memcpy (dst src len : Z) : X Z :=
  _ ← (if aligned dst && aligned src && aligned len
       then copy_up 4 dst src (Z.to_nat (len / sizeof_long)) 0
       else copy_up 1 dst src (Z.to_nat len) 0);
  mret dst.

Definition memmove (dst src len : Z) : X Z :=
  if dst <? src then memcpy dst src len
  else
    _ ← (if aligned dst && aligned src && aligned len
         then copy_down 4 dst src (Z.to_nat (len / sizeof_long))
         else copy_down 1 dst src (Z.to_nat len));
    mret dst.

(** [for (i=0; i<n; i++) block[i] = 0;] on elements of [w] bytes. *)
Fixpoint zero_up (w : nat) (d : Z) (n : nat) (i : Z) : X unit :=
  match n with
  | O => mret tt
  | S n' =>
      _ ← stn (d + Z.of_nat w * i) (replicate w 0);
      zero_up w d n' (i + 1)
  end.

Definition bzero (vblock len : Z) : X unit :=
  if aligned vblock && aligned len
  then zero_up 4 vblock (Z.to_nat (len / sizeof_long)) 0
  else zero_up 1 vblock (Z.to_nat len) 0.

(** ** Strings.  [fuel] bounds the characters visited. *)

Fixpoint strlen_loop (fuel : nat) (str ret : Z) : X Z :=
  match fuel with
  | O => nofuel
  | S f =>
      c ← ld (str + ret);
      if c =? 0 then mret ret else strlen_loop f str (ret + 1)
  end.
Definition strlen (fuel : nat) (str : Z) : X Z := strlen_loop fuel str 0.

Fixpoint strcpy_loop (fuel : nat) (dest src i : Z) : X Z :=
  match fuel with
  | O => nofuel
  | S f =>
      c ← ld (src + i);
      if c =? 0 then mret i
      else _ ← st (dest + i) c; strcpy_loop f dest src (i + 1)
  end.
Definition strcpy (fuel : nat) (dest src : Z) : X Z :=
  i ← strcpy_loop fuel dest src 0;
  _ ← st (dest + i) 0;
  mret dest.

Definition strcat (fuel : nat) (dest src : Z) : X Z :=
  offset ← strlen fuel dest;
  _ ← strcpy fuel (dest + offset) src;
  mret dest.

Fixpoint strcmp_loop (fuel : nat) (a b i : Z) : X Z :=
  match fuel with
  | O => nofuel
  | S f =>
      x ← ld (a + i);
      if x =? 0 then mret i
      else
        y ← ld (b + i);
        if x =? y then strcmp_loop f a b (i + 1) else mret i
  end.
Definition strcmp (fuel : nat) (a b : Z) : X Z :=
  i ← strcmp_loop fuel a b 0;
  x ← ld (a + i);
  y ← ld (b + i);
  mret (if y <? x then 1 else if x =? y then 0 else -1).

(** The [char] that [const char ch = ch_arg;] keeps of its argument. *)
Fixpoint strchr_loop (fuel : nat) (s ch : Z) : X (option Z) :=
  match fuel with
  | O => nofuel
  | S f =>
      c ← ld s;
      if c =? 0 then mret (if c =? ch then Some s else None)
      else if c =? ch then mret (Some s)
      else strchr_loop f (s + 1) ch
  end.
Definition strchr (fuel : nat) (s ch_arg : Z) : X (option Z) :=
  strchr_loop fuel s (u8 ch_arg).

Fixpoint strrchr_loop (i : nat) (s ch : Z) : X (option Z) :=
  match i with
  | O => mret None
  | S i' =>
      c ← ld (s + Z.of_nat i');
      if c =? ch then mret (Some (s + Z.of_nat i')) else strrchr_loop i' s ch
  end.
Definition strrchr (fuel : nat) (s ch_arg : Z) : X (option Z) :=
  len ← strlen fuel s;
  strrchr_loop (Z.to_nat (len + 1)) s (u8 ch_arg).

(** [while ( *p && strchr(seps, *p) == want) p++;] *)
Fixpoint strtok_skip (fuel g : nat) (want : bool) (seps p : Z) : X Z :=
  match fuel with
  | O => nofuel
  | S f =>
      c ← ld p;
      if c =? 0 then mret p
      else
        r ← strchr g seps c;
        if Bool.eqb (bool_decide (r <> None)) want
        then strtok_skip f g want seps (p + 1) else mret p
  end.

(** [strtok_r]: returns the word and the new [*context]. *)
Definition strtok_r (fuel : nat) (string : option Z) (seps : Z) (context : option Z)
    : X (option Z * option Z) :=
  let context := match string with Some s => Some s | None => context end in
  match context with
  | None => mret (None, None)
  | Some head =>
      head ← strtok_skip fuel fuel true seps head;
      c ← ld head;
      if c =? 0 then mret (None, None)
      else
        tail ← strtok_skip fuel fuel false seps head;
        c' ← ld tail;
        if c' =? 0 then mret (Some head, None)
        else _ ← st tail 0; mret (Some head, Some (tail + 1))
  end.

(** ** Block copies *)

(** The administrative steps of memory code. *)
Ltac xrun :=
  cbv beta iota delta [mbind X_bind mret X_ret nofuel ld st].

Definition mapped (m : mem) (a n : Z) : Prop :=
  forall i, 0 <= i < n -> is_Some (m !! (a + i)).

(** [m'] is [m] with the [n] bytes at [d] replaced by those at [s] of [m]. *)
Definition copied (m : mem) (d s n : Z) (m' : mem) : Prop :=
  forall a, m' !! a = if decide (d <= a < d + n) then m !! (s + (a - d)) else m !! a.

Definition zeroed (m : mem) (d n : Z) (m' : mem) : Prop :=
  forall a, m' !! a = if decide (d <= a < d + n) then Some 0 else m !! a.

Lemma xbind_Val {A B} (x : X A) (k : A -> X B) m a m' :
  x m = Val a m' -> (x ≫= k) m = k a m'.
Proof. intros H. unfold mbind, X_bind. by rewrite H. Qed.

Lemma ldn_run w a m : mapped m a (Z.of_nat w) -> exists bs,
  ldn w a m = Val bs m /\ length bs = w /\
  forall i b, bs !! i = Some b -> m !! (a + Z.of_nat i) = Some b.
Proof.
  revert a. induction w as [|w IH]; intros a Hm; [by exists []|].
  destruct (Hm 0) as [b Hb]; [lia|]. rewrite Z.add_0_r in Hb.
  destruct (IH (a + 1)) as (bs & Hr & Hl & Hbs).
  { intros i Hi. replace (a + 1 + i) with (a + (i + 1)) by lia. apply Hm. lia. }
  exists (b :: bs). cbn [ldn]. rewrite (xbind_Val _ _ m b m) by (unfold ld; by rewrite Hb).
  rewrite (xbind_Val _ _ _ _ _ Hr). split; [done|]. split; [cbn; lia|].
  intros [|i] c Hc; simplify_eq/=; [by rewrite Z.add_0_r|].
  replace (a + _) with (a + 1 + Z.of_nat i) by lia. by apply Hbs.
Qed.

Lemma stn_run bs a m : mapped m a (Z.of_nat (length bs)) -> exists m',
  stn a bs m = Val tt m' /\ forall x, m' !! x =
    if decide (a <= x < a + Z.of_nat (length bs)) then bs !! Z.to_nat (x - a) else m !! x.
Proof.
  revert a m. induction bs as [|b bs IH]; intros a m Hm; cbn [stn length] in *.
  { exists m. split; [done|]. intros x. rewrite decide_False by lia. done. }
  destruct (Hm 0) as [c Hc]; [lia|]. rewrite Z.add_0_r in Hc.
  rewrite (xbind_Val _ _ m tt (<[a := b]> m)) by (unfold st; by rewrite Hc).
  destruct (IH (a + 1) (<[a := b]> m)) as (m' & Hr & Hx).
  { intros i Hi. rewrite lookup_insert_ne by lia.
    replace (a + 1 + i) with (a + (i + 1)) by lia. apply Hm. lia. }
  exists m'. split; [done|]. intros x. rewrite Hx.
  destruct (decide (x = a)) as [->|].
  - rewrite decide_False, decide_True, lookup_insert_eq by lia. by rewrite Z.sub_diag.
  - rewrite lookup_insert_ne by done. repeat case_decide; try lia; [|done].
    by replace (Z.to_nat (x - a)) with (S (Z.to_nat (x - (a + 1)))) by lia.
Qed.

(** One element: load it, then store it. *)
Lemma copy_elt w d s m {B} (k : unit -> X B) :
  mapped m s (Z.of_nat w) -> mapped m d (Z.of_nat w) -> exists m',
  (bs ← ldn w s; _ ← stn d bs; k tt) m = k tt m' /\ copied m d s (Z.of_nat w) m'.
Proof.
  intros Hs Hd. destruct (ldn_run w s m Hs) as (bs & Hr & Hl & Hbs).
  destruct (stn_run bs d m) as (m' & Hr' & Hx); [by rewrite Hl|].
  exists m'. rewrite (xbind_Val _ _ _ _ _ Hr), (xbind_Val _ _ _ _ _ Hr').
  split; [done|]. intros a. rewrite Hx, Hl. case_decide; [|done].
  destruct (lookup_lt_is_Some_2 bs (Z.to_nat (a - d))) as [b Hb]; [lia|].
  rewrite Hb. apply Hbs in Hb. rewrite <- Hb. f_equal. lia.
Qed.

Lemma copied_mapped m d s n m' a k :
  copied m d s n m' -> mapped m s n -> mapped m a k -> mapped m' a k.
Proof.
  intros Hc Hs Ha i Hi. rewrite Hc. case_decide; [apply Hs; lia|by apply Ha].
Qed.

(** A copy can run upwards when no byte is overwritten before it is read:
    the destination is below the source, or the two do not overlap. *)
Lemma copy_up_spec w d s n i m :
  let W := Z.of_nat w in
  0 <= i -> d + W <= s \/ d = s \/ s + W * (i + Z.of_nat n) <= d ->
  mapped m (s + W * i) (W * Z.of_nat n) -> mapped m (d + W * i) (W * Z.of_nat n) ->
  exists m', copy_up w d s n i m = Val tt m' /\
    copied m (d + W * i) (s + W * i) (W * Z.of_nat n) m'.
Proof.
  intros W. revert i m. induction n as [|n IH]; intros i m Hi H1 Hs Hd; cbn [copy_up].
  { exists m. split; [done|]. intros a. rewrite decide_False by lia. done. }
  fold W. destruct (copy_elt w (d + W * i) (s + W * i) m (fun _ => copy_up w d s n (i + 1)))
    as (m1 & Hrun & Hc1).
  { intros j Hj. apply Hs. nia. }
  { intros j Hj. apply Hd. nia. }
  setoid_rewrite Hrun. fold W in Hc1.
  assert (mapped m (s + W * i) W) as Hs1 by (intros j Hj; apply Hs; nia).
  destruct (IH (i + 1) m1) as (m' & Hr & Hc).
  { lia. }
  { nia. }
  { eapply copied_mapped; [done..|]. intros j Hj.
    replace (s + W * (i + 1) + j) with (s + W * i + (W + j)) by lia. apply Hs. nia. }
  { eapply copied_mapped; [done..|]. intros j Hj.
    replace (d + W * (i + 1) + j) with (d + W * i + (W + j)) by lia. apply Hd. nia. }
  exists m'. split; [done|]. intros a. rewrite Hc, !Hc1.
  repeat case_decide; try nia; try done; f_equal; nia.
Qed.

(** ... and downwards when the destination is not below the source. *)
Lemma copy_down_spec w d s n m :
  let W := Z.of_nat w in
  s + W <= d \/ d = s -> mapped m s (W * Z.of_nat n) -> mapped m d (W * Z.of_nat n) ->
  exists m', copy_down w d s n m = Val tt m' /\ copied m d s (W * Z.of_nat n) m'.
Proof.
  intros W. revert m. induction n as [|n IH]; intros m H1 Hs Hd; cbn [copy_down].
  { exists m. split; [done|]. intros a. rewrite decide_False by lia. done. }
  fold W. destruct (copy_elt w (d + W * Z.of_nat n) (s + W * Z.of_nat n) m
    (fun _ => copy_down w d s n)) as (m1 & Hrun & Hc1).
  { intros j Hj. rewrite <- Z.add_assoc. apply Hs. nia. }
  { intros j Hj. rewrite <- Z.add_assoc. apply Hd. nia. }
  setoid_rewrite Hrun. fold W in Hc1.
  assert (mapped m (s + W * Z.of_nat n) W) as Hs1.
  { intros j Hj. rewrite <- Z.add_assoc. apply Hs. nia. }
  destruct (IH m1) as (m' & Hr & Hc); [done|..].
  { eapply copied_mapped; [done..|]. intros j Hj. apply Hs. nia. }
  { eapply copied_mapped; [done..|]. intros j Hj. apply Hd. nia. }
  exists m'. split; [done|]. intros a. rewrite Hc, !Hc1.
  repeat case_decide; try nia; try done; f_equal; nia.
Qed.

Lemma aligned_spec a : reflect (exists k, a = 4 * k) (aligned a).
Proof.
  unfold aligned, sizeof_long. destruct (Z.eqb_spec (a mod 4) 0) as [E|E]; constructor.
  - exists (a / 4). dlia.
  - intros [k ->]. apply E. dlia.
Qed.

Lemma memcpy_spec d s n m :
  0 <= n -> d <= s \/ s + n <= d -> mapped m s n -> mapped m d n ->
  exists m', memcpy d s n m = Val d m' /\ copied m d s n m'.
Proof.
  intros Hn Ho Hs Hd. unfold memcpy.
  destruct (aligned_spec d) as [[kd Ed]|_], (aligned_spec s) as [[ks Es]|_],
    (aligned_spec n) as [[kn En]|_]; cbn [andb].
  1: { assert (n / sizeof_long = kn) as E by (unfold sizeof_long; dlia).
       destruct (copy_up_spec 4 d s (Z.to_nat kn) 0 m) as (m' & Hr & Hc); [lia| | | |].
       - lia.
       - replace (_ * Z.of_nat (Z.to_nat kn)) with n by lia. by rewrite Z.mul_0_r, Z.add_0_r.
       - replace (_ * Z.of_nat (Z.to_nat kn)) with n by lia. by rewrite Z.mul_0_r, Z.add_0_r.
       - exists m'. rewrite E, (xbind_Val _ _ _ _ _ Hr). split; [done|].
         replace (_ * Z.of_nat (Z.to_nat kn)) with n in Hc by lia.
         by rewrite Z.mul_0_r, !Z.add_0_r in Hc. }
  all: destruct (copy_up_spec 1 d s (Z.to_nat n) 0 m) as (m' & Hr & Hc);
    [lia|lia|by rewrite Z.mul_0_r, Z.mul_1_l, Z2Nat.id, Z.add_0_r ..|].
  all: exists m'; rewrite (xbind_Val _ _ _ _ _ Hr); split; [done|].
  all: by rewrite Z.mul_0_r, Z.mul_1_l, Z2Nat.id, !Z.add_0_r in Hc.
Qed.

Lemma memmove_spec d s n m :
  0 <= n -> mapped m s n -> mapped m d n ->
  exists m', memmove d s n m = Val d m' /\ copied m d s n m'.
Proof.
  intros Hn Hs Hd. unfold memmove. destruct (Z.ltb_spec d s).
  { apply memcpy_spec; [done|lia|done..]. }
  destruct (aligned_spec d) as [[kd Ed]|_], (aligned_spec s) as [[ks Es]|_],
    (aligned_spec n) as [[kn En]|_]; cbn [andb].
  1: { assert (n / sizeof_long = kn) as E by (unfold sizeof_long; dlia).
       assert (Z.of_nat 4 * Z.of_nat (Z.to_nat kn) = n) as En' by lia.
       destruct (copy_down_spec 4 d s (Z.to_nat kn) m) as (m' & Hr & Hc);
         [lia|by rewrite En'..|].
       exists m'. rewrite E, (xbind_Val _ _ _ _ _ Hr). by rewrite En' in Hc. }
  all: destruct (copy_down_spec 1 d s (Z.to_nat n) m) as (m' & Hr & Hc);
    [lia|by rewrite Z.mul_1_l, Z2Nat.id..|].
  all: exists m'; rewrite (xbind_Val _ _ _ _ _ Hr); split; [done|].
  all: by rewrite Z.mul_1_l, Z2Nat.id in Hc.
Qed.

Lemma zero_up_spec w d n i m :
  let W := Z.of_nat w in
  0 <= i -> mapped m (d + W * i) (W * Z.of_nat n) ->
  exists m', zero_up w d n i m = Val tt m' /\ zeroed m (d + W * i) (W * Z.of_nat n) m'.
Proof.
  intros W. revert i m. induction n as [|n IH]; intros i m Hi Hd; cbn [zero_up].
  { exists m. split; [done|]. intros a. rewrite decide_False by lia. done. }
  fold W. destruct (stn_run (replicate w 0) (d + W * i) m) as (m1 & Hr1 & H1).
  { rewrite length_replicate. intros j Hj. apply Hd. nia. }
  rewrite (xbind_Val _ _ _ _ _ Hr1). rewrite length_replicate in H1. fold W in H1.
  assert (zeroed m (d + W * i) W m1) as Hz.
  { intros a. rewrite H1. case_decide; [|done]. apply lookup_replicate. split; [done|lia]. }
  destruct (IH (i + 1) m1) as (m' & Hr & Hc); [lia|..].
  { intros j Hj. rewrite Hz. case_decide; [done|].
    replace (d + W * (i + 1) + j) with (d + W * i + (W + j)) by lia. apply Hd. nia. }
  exists m'. split; [done|]. intros a. rewrite Hc, Hz.
  repeat case_decide; try nia; done.
Qed.

Lemma bzero_spec d n m : 0 <= n -> mapped m d n ->
  exists m', bzero d n m = Val tt m' /\ zeroed m d n m'.
Proof.
  intros Hn Hd. unfold bzero.
  destruct (aligned_spec d) as [[kd Ed]|_], (aligned_spec n) as [[kn En]|_]; cbn [andb].
  1: { assert (n / sizeof_long = kn) as -> by (unfold sizeof_long; dlia).
       assert (Z.of_nat 4 * Z.of_nat (Z.to_nat kn) = n) as En' by lia.
       destruct (zero_up_spec 4 d (Z.to_nat kn) 0 m) as (m' & Hr & Hc);
         rewrite ?En', ?Z.mul_0_r, ?Z.add_0_r in *; eauto; lia. }
  all: destruct (zero_up_spec 1 d (Z.to_nat n) 0 m) as (m' & Hr & Hc);
    rewrite ?Z.mul_0_r, ?Z.mul_1_l, ?Z2Nat.id, ?Z.add_0_r in *; eauto; lia.
Qed.

(** ** Null-terminated strings *)

Fixpoint cstr (m : mem) (a : Z) (s : list Z) : Prop :=
  match s with
  | [] => m !! a = Some 0
  | c :: r => m !! a = Some c /\ 0 < c < 256 /\ cstr m (a + 1) r
  end.

Lemma cstr_frame m m' a s :
  (forall x, a <= x <= a + Z.of_nat (length s) -> m' !! x = m !! x) ->
  cstr m a s -> cstr m' a s.
Proof.
  revert a. induction s as [|c s IH]; intros a Hf H; cbn in *.
  - rewrite Hf; [done|lia].
  - destruct H as (H1 & H2 & H3). split; [rewrite Hf; [done|lia]|]. split; [done|].
    apply IH; [intros; apply Hf; lia|done].
Qed.

Lemma cstr_app m a s1 s2 : cstr m a (s1 ++ s2) -> cstr m (a + Z.of_nat (length s1)) s2.
Proof.
  revert a. induction s1 as [|c s1 IH]; intros a H; cbn in *; [by rewrite Z.add_0_r|].
  destruct H as (_ & _ & H). apply IH in H. by replace (a + _) with (a + 1 + Z.of_nat (length s1)) by lia.
Qed.

Lemma cstr_lookup m a s i c : cstr m a s -> s !! i = Some c ->
  m !! (a + Z.of_nat i) = Some c /\ 0 < c < 256.
Proof.
  intros H Hi. apply take_drop_middle in Hi as E. rewrite <- E in H.
  apply cstr_app in H. pose proof (lookup_lt_Some _ _ _ Hi).
  rewrite length_take, Nat.min_l in H by lia. cbn in H. tauto.
Qed.

Lemma cstr_end m a s : cstr m a s -> m !! (a + Z.of_nat (length s)) = Some 0.
Proof. intros H. rewrite <- (app_nil_r s) in H. by apply cstr_app in H. Qed.

Lemma cstr_intro m a s : Forall (fun c => 0 < c < 256) s ->
  (forall i c, s !! i = Some c -> m !! (a + Z.of_nat i) = Some c) ->
  m !! (a + Z.of_nat (length s)) = Some 0 -> cstr m a s.
Proof.
  intros Hf. revert a. induction Hf as [|c s Hc Hf IH]; intros a Hl He; cbn in *.
  - by rewrite Z.add_0_r in He.
  - split; [rewrite <- (Hl 0%nat c); [f_equal; lia|done]|]. split; [done|]. apply IH.
    + intros i c' Hi. rewrite <- (Hl (S i) c' Hi). f_equal. lia.
    + rewrite <- He. f_equal. lia.
Qed.

Lemma cstr_bytes m a s : cstr m a s -> Forall (fun c => 0 < c < 256) s.
Proof.
  intros H. apply Forall_lookup. intros i c Hi. exact (proj2 (cstr_lookup _ _ _ _ _ H Hi)).
Qed.

Lemma ld_run m a b {B} (k : Z -> X B) : m !! a = Some b -> (ld a ≫= k) m = k b m.
Proof. intros H. apply xbind_Val. unfold ld. by rewrite H. Qed.
Lemma st_run m a b c {B} (k : unit -> X B) : m !! a = Some b ->
  (st a c ≫= k) m = k tt (<[a := c]> m).
Proof. intros H. apply xbind_Val. unfold st. by rewrite H. Qed.

Lemma strlen_spec fuel m a s : cstr m a s -> (length s < fuel)%nat ->
  strlen fuel a m = Val (Z.of_nat (length s)) m.
Proof.
  unfold strlen. intros H Hf.
  cut (forall pre, cstr m (a + pre) s ->
    strlen_loop fuel a pre m = Val (pre + Z.of_nat (length s)) m).
  { intros C. rewrite C; [done|by rewrite Z.add_0_r]. }
  clear H. revert fuel Hf. induction s as [|c s IH]; intros [|fuel] Hf pre H; cbn in H, Hf; [lia| |lia|].
  - cbn [strlen_loop]. rewrite (ld_run _ _ _ _ H). cbn. by rewrite Z.add_0_r.
  - destruct H as (H & Hc & Hs). cbn [strlen_loop]. rewrite (ld_run _ _ _ _ H).
    rewrite (proj2 (Z.eqb_neq c 0)) by lia. rewrite IH; [f_equal; cbn; lia|lia|].
    by rewrite Z.add_assoc.
Qed.

(** The first position of a character, the terminator included. *)
Fixpoint index (ch : Z) (s : list Z) : option Z :=
  match s with
  | [] => if ch =? 0 then Some 0 else None
  | c :: r => if c =? ch then Some 0 else Z.succ <$> index ch r
  end.

Lemma strchr_spec fuel m a s ch : cstr m a s -> 0 <= ch < 256 -> (length s < fuel)%nat ->
  strchr fuel a ch m = Val (Z.add a <$> index ch s) m.
Proof.
  intros H Hch. unfold strchr. rewrite uwrap_small by lia.
  revert a fuel H. induction s as [|c s IH]; intros a [|fuel] H Hf; cbn in H, Hf; [lia| |lia|];
    cbn [strchr_loop index].
  - rewrite (ld_run _ _ _ _ H). rewrite (Z.eqb_sym 0 ch). cbn.
    destruct (Z.eqb_spec ch 0) as [->|]; cbn; [by rewrite Z.add_0_r|done].
  - destruct H as (H & Hc & Hs). rewrite (ld_run _ _ _ _ H).
    rewrite (proj2 (Z.eqb_neq c 0)) by lia.
    destruct (Z.eqb_spec c ch); cbn; [by rewrite Z.add_0_r|].
    rewrite IH by (done || lia). f_equal. destruct (index ch s); cbn; [|done]. f_equal. lia.
Qed.

Lemma index_elem ch s : ch <> 0 -> index ch s <> None <-> ch ∈ s.
Proof.
  intros Hch. induction s as [|c s IH]; cbn.
  - rewrite (proj2 (Z.eqb_neq _ _)) by done. split; [done|set_solver].
  - rewrite elem_of_cons. destruct (Z.eqb_spec c ch) as [->|]; [naive_solver|].
    destruct (index ch s); cbn in *; naive_solver.
Qed.

(** Lexicographic order on the characters, as -1, 0 or 1. *)
Fixpoint scmp (s t : list Z) : Z :=
  match s, t with
  | [], [] => 0
  | [], _ :: _ => -1
  | _ :: _, [] => 1
  | x :: s', y :: t' => if x =? y then scmp s' t' else if y <? x then 1 else -1
  end.

Lemma scmp_eq s t : scmp s t = 0 <-> s = t.
Proof.
  revert t. induction s as [|x s IH]; intros [|y t]; cbn; try done.
  destruct (Z.eqb_spec x y) as [->|].
  - rewrite IH. naive_solver.
  - destruct (y <? x); naive_solver.
Qed.

Lemma strcmp_spec fuel m a b s t : cstr m a s -> cstr m b t -> (length s < fuel)%nat ->
  strcmp fuel a b m = Val (scmp s t) m.
Proof.
  intros Ha Hb Hf. unfold strcmp.
  cut (forall i, cstr m (a + i) s -> cstr m (b + i) t -> (i ← strcmp_loop fuel a b i;
    x ← ld (a + i); y ← ld (b + i);
    mret (if y <? x then 1 else if x =? y then 0 else -1)) m = Val (scmp s t) m).
  { intros C. apply C; by rewrite Z.add_0_r. }
  clear Ha Hb. revert t fuel Hf.
  induction s as [|x s IH]; intros t [|fuel] Hf i Ha Hb; cbn in Ha, Hf; [lia| |lia|];
    cbn [strcmp_loop].
  - unfold mbind, X_bind. unfold ld at 1. rewrite Ha. cbn.
    unfold ld. rewrite Ha. destruct t as [|y t]; cbn in Hb.
    + by rewrite Hb.
    + destruct Hb as (-> & Hy & _). rewrite (proj2 (Z.ltb_ge _ _)) by lia. destruct y; [lia|done|lia].
  - destruct Ha as (Ha & Hx & Hs). unfold mbind, X_bind. unfold ld at 1. rewrite Ha.
    rewrite (proj2 (Z.eqb_neq x 0)) by lia. unfold ld at 1.
    destruct t as [|y t]; cbn in Hb.
    + rewrite Hb. rewrite (proj2 (Z.eqb_neq x 0)) by lia. unfold ld. cbn.
      rewrite Ha, Hb. by rewrite (proj2 (Z.ltb_lt _ _)) by lia.
    + destruct Hb as (Hb & Hy & Ht). rewrite Hb. cbn [scmp].
      destruct (Z.eqb_spec x y) as [->|Hne].
      * rewrite <- Z.add_assoc in Hs, Ht. exact (IH t fuel ltac:(lia) (i + 1) Hs Ht).
      * unfold ld. cbn. rewrite Ha, Hb. rewrite (proj2 (Z.eqb_neq _ _)) by done. done.
Qed.

Lemma strrchr_loop_spec m a ch n :
  (forall i, (i < n)%nat -> is_Some (m !! (a + Z.of_nat i))) ->
  exists r, strrchr_loop n a ch m = Val r m /\
  match r with
  | Some p => exists i, (i < n)%nat /\ p = a + Z.of_nat i /\ m !! p = Some ch /\
      forall j, (i < j < n)%nat -> m !! (a + Z.of_nat j) <> Some ch
  | None => forall j, (j < n)%nat -> m !! (a + Z.of_nat j) <> Some ch
  end.
Proof.
  induction n as [|n IH]; intros Hm; cbn [strrchr_loop].
  { exists None. split; [done|]. lia. }
  destruct (Hm n) as [c Hc]; [lia|]. rewrite (ld_run _ _ _ _ Hc).
  destruct (Z.eqb_spec c ch) as [->|Hne].
  - eexists. split; [done|]. exists n. repeat split; [lia|done|]. lia.
  - destruct IH as (r & -> & Hr); [intros; apply Hm; lia|]. exists r. split; [done|].
    destruct r as [p|].
    + destruct Hr as (i & Hi & -> & Hp & Hj). exists i. repeat split; [lia|done|].
      intros j Hj'. destruct (decide (j = n)) as [->|]; [congruence|]. apply Hj. lia.
    + intros j Hj. destruct (decide (j = n)) as [->|]; [congruence|]. apply Hr. lia.
Qed.

(** The copying loop of [strcpy], after the characters [pre]. *)
Lemma strcpy_loop_spec fuel m d a s r pre m1 :
  cstr m a s -> (length s < fuel)%nat -> mapped m d (Z.of_nat (length s) + 1) ->
  d + Z.of_nat (length s) < a \/ a + Z.of_nat (length s) < d ->
  s = pre ++ r -> copied m d a (Z.of_nat (length pre)) m1 ->
  exists m2, strcpy_loop (fuel - length pre) d a (Z.of_nat (length pre)) m1
    = Val (Z.of_nat (length s)) m2 /\ copied m d a (Z.of_nat (length s)) m2.
Proof.
  intros Hs Hf Hm Hd. revert pre m1. induction r as [|c r IH]; intros pre m1 Hpre H1.
  - rewrite app_nil_r in Hpre. subst pre.
    destruct (fuel - length s)%nat as [|f] eqn:E; [lia|]. cbn [strcpy_loop].
    rewrite (ld_run _ _ 0) by (rewrite H1, decide_False by lia; by apply cstr_end).
    by exists m1.
  - assert (s !! length pre = Some c) as Hc.
    { rewrite Hpre, lookup_app_r, Nat.sub_diag by lia. done. }
    pose proof (lookup_lt_Some _ _ _ Hc).
    destruct (fuel - length pre)%nat as [|f] eqn:E; [lia|]. cbn [strcpy_loop].
    destruct (cstr_lookup _ _ _ _ _ Hs Hc) as [Hmc Hcr].
    rewrite (ld_run _ _ c) by (by rewrite H1, decide_False by lia).
    rewrite (proj2 (Z.eqb_neq c 0)) by lia.
    destruct (Hm (Z.of_nat (length pre))) as [b Hb]; [lia|].
    rewrite (st_run _ _ b) by (by rewrite H1, decide_False by lia).
    destruct (IH (pre ++ [c]) (<[d + Z.of_nat (length pre) := c]> m1)) as (m2 & Hr & Hm2).
    { by rewrite <- app_assoc. }
    { intros x. rewrite lookup_insert, H1, length_app. cbn.
      repeat case_decide; try lia; subst; rewrite <- ?Hmc; f_equal; lia. }
    exists m2. split; [|done]. rewrite <- Hr. rewrite length_app. cbn [length]. f_equal; lia.
Qed.

(** A string copy that does not run into its own source. *)
Lemma strcpy_spec fuel m d a s :
  cstr m a s -> (length s < fuel)%nat -> mapped m d (Z.of_nat (length s) + 1) ->
  d + Z.of_nat (length s) < a \/ a + Z.of_nat (length s) < d ->
  exists m', strcpy fuel d a m = Val d m' /\ cstr m' d s /\
    forall x, x < d \/ d + Z.of_nat (length s) < x -> m' !! x = m !! x.
Proof.
  intros Hs Hf Hm Hd. unfold strcpy.
  destruct (strcpy_loop_spec fuel m d a s s [] m) as (m2 & Hr & Hc); try done.
  { intros x. by rewrite decide_False by (cbn; lia). }
  cbn [length] in Hr. rewrite Nat.sub_0_r in Hr. rewrite (xbind_Val _ _ _ _ _ Hr).
  destruct (Hm (Z.of_nat (length s))) as [b Hb]; [lia|].
  rewrite (st_run _ _ b) by (by rewrite Hc, decide_False by lia).
  eexists. split; [done|]. split.
  - apply cstr_intro; [by eapply cstr_bytes| |by rewrite lookup_insert_eq].
    intros i c Hi. pose proof (lookup_lt_Some _ _ _ Hi).
    rewrite lookup_insert_ne, Hc, decide_True by lia.
    rewrite <- (proj1 (cstr_lookup _ _ _ _ _ Hs Hi)). f_equal. lia.
  - intros x Hx. rewrite lookup_insert_ne, Hc, decide_False by lia. done.
Qed.

(** ** Tokens *)

(** The longest prefix whose characters satisfy [p], and the rest. *)
Fixpoint span (p : Z -> bool) (s : list Z) : list Z * list Z :=
  match s with
  | [] => ([], [])
  | c :: r => if p c then let '(u, v) := span p r in (c :: u, v) else ([], s)
  end.

(** The maximal runs of characters that are not separators. *)
Fixpoint words (sep : Z -> bool) (cur s : list Z) : list (list Z) :=
  match s with
  | [] => if decide (cur = []) then [] else [cur]
  | c :: r =>
      if sep c then (if decide (cur = []) then [] else [cur]) ++ words sep [] r
      else words sep (cur ++ [c]) r
  end.

Lemma span_spec p s u v : span p s = (u, v) ->
  s = u ++ v /\ Forall (fun c => p c = true) u /\
  match v with [] => True | c :: _ => p c = false end.
Proof.
  revert u v. induction s as [|c s IH]; intros u v H; cbn in H; [by simplify_eq|].
  destruct (p c) eqn:E.
  - destruct (span p s) as [u' v'] eqn:Es. simplify_eq.
    destruct (IH _ _ eq_refl) as (-> & ? & ?). split; [done|]. split; [by constructor|done].
  - simplify_eq. split; [done|]. split; [constructor|done].
Qed.

Lemma words_seps sep u v : Forall (fun c => sep c = true) u ->
  words sep [] (u ++ v) = words sep [] v.
Proof. induction 1 as [|c u Hc Hu IH]; cbn; [done|]. by rewrite Hc. Qed.

Lemma words_word sep cur u v : Forall (fun c => sep c = false) u ->
  words sep cur (u ++ v) = words sep (cur ++ u) v.
Proof.
  intros Hu. revert cur. induction Hu as [|c u Hc Hu IH]; intros cur; cbn;
    [by rewrite app_nil_r|]. rewrite Hc, IH. by rewrite <- app_assoc.
Qed.

(** Calls [strtok_r] until it returns a null pointer. *)
Fixpoint strtok_all (n fuel : nat) (string : option Z) (seps : Z) (context : option Z)
    : X (list Z) :=
  match n with
  | O => nofuel
  | S n' =>
      '(w, context') ← strtok_r fuel string seps context;
      match w with
      | None => mret []
      | Some p => ps ← strtok_all n' fuel None seps context'; mret (p :: ps)
      end
  end.

Section tokens.
Context (q : Z) (sp : list Z).
Definition is_sep (c : Z) : bool := bool_decide (c ∈ sp).
Abbreviation disjoint_from_seps h s :=
  (h + Z.of_nat (length s) < q \/ q + Z.of_nat (length sp) < h).

Lemma strtok_skip_spec fuel g want m a s u v :
  cstr m q sp -> (length sp < g)%nat -> cstr m a s -> (length s < fuel)%nat ->
  span (fun c => Bool.eqb (is_sep c) want) s = (u, v) ->
  strtok_skip fuel g want q a m = Val (a + Z.of_nat (length u)) m.
Proof.
  intros Hq Hg. revert a fuel u v.
  induction s as [|c s IH]; intros a [|fuel] u v Hs Hf Hsp; cbn in Hs, Hf, Hsp;
    [lia| |lia|]; cbn [strtok_skip].
  - simplify_eq. rewrite (ld_run _ _ _ _ Hs). cbn. by rewrite Z.add_0_r.
  - destruct Hs as (Hc & Hr & Hs). rewrite (ld_run _ _ _ _ Hc).
    rewrite (proj2 (Z.eqb_neq c 0)) by lia.
    rewrite (xbind_Val _ _ _ _ _ (strchr_spec g m q sp c Hq ltac:(lia) Hg)).
    assert (bool_decide (Z.add q <$> index c sp <> None) = is_sep c) as ->.
    { apply bool_decide_ext. rewrite <- index_elem by lia. by destruct (index c sp). }
    destruct (Bool.eqb (is_sep c) want).
    + destruct (span _ s) as [u' v'] eqn:E. simplify_eq.
      rewrite (IH _ fuel u' v Hs) by (done || lia). f_equal. cbn. lia.
    + simplify_eq. by rewrite Z.add_0_r.
Qed.

(** A zero stored over a character splits the string there. *)
Lemma cstr_cut m p w d r : cstr m p (w ++ d :: r) ->
  let t := p + Z.of_nat (length w) in
  m !! t = Some d /\ 0 < d < 256 /\ cstr (<[t := 0]> m) p w /\ cstr (<[t := 0]> m) (t + 1) r.
Proof.
  intros H t. pose proof (cstr_app _ _ _ _ H) as (Hd & Hr & Ht). fold t in Hd, Ht.
  split; [done|]. split; [done|]. split.
  - apply cstr_intro; [|intros i x Hi|by rewrite lookup_insert_eq].
    + apply cstr_bytes, Forall_app in H. tauto.
    + pose proof (lookup_lt_Some _ _ _ Hi). rewrite lookup_insert_ne by lia.
      eapply (cstr_lookup m p); [done|]. by apply lookup_app_l_Some.
  - eapply cstr_frame; [|done]. intros x Hx. by rewrite lookup_insert_ne by lia.
Qed.

(** One call of [strtok_r] with the string [s] left in its context. *)
Lemma strtok_r_spec fuel m h s string context :
  match string with Some p => Some p | None => context end = Some h ->
  cstr m q sp -> cstr m h s -> (length sp < fuel)%nat -> (length s < fuel)%nat ->
  disjoint_from_seps h s ->
  (words is_sep [] s = [] /\ strtok_r fuel string q context m = Val (None, None) m) \/
  exists p w r context' m', words is_sep [] s = w :: r /\
    strtok_r fuel string q context m = Val (Some p, context') m' /\
    cstr m' p w /\ h <= p /\ p + Z.of_nat (length w) <= h + Z.of_nat (length s) /\
    (forall x, x < p \/ p + Z.of_nat (length w) < x -> m' !! x = m !! x) /\
    match context' with
    | None => r = []
    | Some h' => exists s', cstr m' h' s' /\ r = words is_sep [] s' /\
        h' = p + Z.of_nat (length w) + 1 /\
        h' + Z.of_nat (length s') = h + Z.of_nat (length s)
    end.
Proof.
  intros Hctx Hq Hs Hf1 Hf2 Hd. unfold strtok_r. rewrite Hctx.
  destruct (span (fun c => Bool.eqb (is_sep c) true) s) as [pre s1] eqn:E1.
  rewrite (xbind_Val _ _ _ _ _ (strtok_skip_spec _ _ _ _ _ _ _ _ Hq Hf1 Hs Hf2 E1)).
  apply span_spec in E1 as (-> & Hpre & Hhd). apply cstr_app in Hs as Hs1.
  rewrite words_seps by (eapply Forall_impl; [exact Hpre|]; intros c ?%eqb_prop; done).
  destruct s1 as [|c s1].
  { left. cbn in Hs1. by rewrite (ld_run _ _ _ _ Hs1). }
  right. pose proof Hs1 as (Hc & Hcr & _). rewrite (ld_run _ _ _ _ Hc).
  rewrite (proj2 (Z.eqb_neq c 0)) by lia. rewrite length_app in *.
  destruct (span (fun c => Bool.eqb (is_sep c) false) (c :: s1)) as [w r] eqn:E2.
  assert (length (c :: s1) < fuel)%nat as Hf3 by lia.
  rewrite (xbind_Val _ _ _ _ _ (strtok_skip_spec _ _ _ _ _ _ _ _ Hq Hf1 Hs1 Hf3 E2)).
  assert (w <> []) as Hw.
  { intros ->. cbn in E2. destruct (is_sep c); [done|]. cbn in E2.
    destruct (span _ s1). congruence. }
  apply span_spec in E2 as (Ews & Hnw & Hhd2). rewrite Ews in *. rewrite length_app in *.
  assert (Forall (fun c => is_sep c = false) w) as Hnw'.
  { eapply Forall_impl; [exact Hnw|]. intros x ?%eqb_prop. done. }
  rewrite words_word by done. cbn [app]. set (p := h + Z.of_nat (length pre)) in *.
  destruct r as [|d r].
  - rewrite app_nil_r in Hs1. rewrite (ld_run _ _ _ _ (cstr_end _ _ _ Hs1)). cbn.
    rewrite decide_False by done. exists p, w, [], None, m. repeat split; [done|lia|lia].
  - destruct (cstr_cut _ _ _ _ _ Hs1) as (Hdm & Hdr & Hs2 & Hs3).
    rewrite (ld_run _ _ _ _ Hdm), (proj2 (Z.eqb_neq d 0)), (st_run _ _ _ _ _ Hdm) by lia.
    assert (is_sep d = true) as Hsd by (by destruct (is_sep d)).
    cbn [words]. rewrite Hsd, decide_False by done. cbn in Hd, Hf2 |- *.
    exists p, w, (words is_sep [] r), (Some (p + Z.of_nat (length w) + 1)).
    eexists. repeat (split; [done || lia|]). split.
    + intros x Hx. by rewrite lookup_insert_ne by lia.
    + exists r. repeat (split; [done|]). lia.
Qed.

(** Distance of the rest of the string to its end bounds the calls needed. *)
Lemma strtok_all_spec n fuel m h s string context :
  match string with Some p => Some p | None => context end = Some h ->
  cstr m q sp -> cstr m h s -> (length sp < fuel)%nat -> (length s < fuel)%nat ->
  disjoint_from_seps h s -> (length s < n)%nat ->
  exists ps m', strtok_all n fuel string q context m = Val ps m' /\
    Forall2 (cstr m') ps (words is_sep [] s) /\
    forall x, x < h \/ h + Z.of_nat (length s) < x -> m' !! x = m !! x.
Proof.
  revert m h s string context.
  induction n as [|n IH]; intros m h s string context Hctx Hq Hs Hf1 Hf2 Hd Hn; [lia|].
  cbn [strtok_all].
  destruct (strtok_r_spec fuel m h s string context) as
    [[-> Hr]|(p & w & r & c' & m1 & Ew & Hr & Hw & Hp1 & Hp2 & Hfr & Hc')]; [done..| |].
  { exists [], m. rewrite (xbind_Val _ _ _ _ _ Hr). split; [done|]. split; [constructor|done]. }
  rewrite (xbind_Val _ _ _ _ _ Hr), Ew. destruct c' as [h'|].
  - destruct Hc' as (s' & Hs' & -> & -> & Hlen).
    destruct (IH m1 (p + Z.of_nat (length w) + 1) s' None (Some (p + Z.of_nat (length w) + 1)))
      as (ps & m' & Hr' & Hps & Hfr'); [done| |done|done|lia|lia|lia|].
    { eapply cstr_frame; [|exact Hq]. intros x Hx. apply Hfr. lia. }
    exists (p :: ps), m'. rewrite (xbind_Val _ _ _ _ _ Hr'). split; [done|]. split.
    + constructor; [|done]. eapply cstr_frame; [|exact Hw]. intros x Hx. apply Hfr'. lia.
    + intros x Hx. rewrite Hfr', Hfr by lia. done.
  - subst r. exists [p], m1. destruct s; [done|]. split; [by destruct n; [cbn in Hn; lia|]|]. split; [by repeat constructor|].
    intros x Hx. apply Hfr. lia.
Qed.
End tokens.

(** ** Properties *)

(** [memmove] copies a block correctly for every overlap of source and
    destination and every alignment: afterwards the destination holds what
    the source held before the call, and every other byte is unchanged. *)
Theorem memmove_correct d s n m (Hn : 0 <= n) (Hs : mapped m s n) (Hd : mapped m d n) :
  exists m', memmove d s n m = Val d m' /\
  forall a, m' !! a = if decide (d <= a < d + n) then m !! (s + (a - d)) else m !! a.
Proof. by apply memmove_spec. Qed.

(** Calling [strtok_r] until it returns NULL yields the words of the
    string in order: the pointers it returns point at null-terminated copies
    of the maximal runs of non-separator characters, and nothing outside the
    string was written. *)
Theorem strtok_r_splits fuel m h s q sp :
  cstr m h s -> cstr m q sp -> (length s < fuel)%nat -> (length sp < fuel)%nat ->
  h + Z.of_nat (length s) < q \/ q + Z.of_nat (length sp) < h ->
  exists ps m', strtok_all fuel fuel (Some h) q None m = Val ps m' /\
    Forall2 (cstr m') ps (words (is_sep sp) [] s) /\
    forall x, x < h \/ h + Z.of_nat (length s) < x -> m' !! x = m !! x.
Proof. intros. by apply strtok_all_spec. Qed.

(** [strcmp] decides the lexicographic order of unsigned characters; in
    particular it returns 0 exactly on equal strings. *)
Theorem strcmp_correct fuel m a b s t :
  cstr m a s -> cstr m b t -> (length s < fuel)%nat ->
  exists r, strcmp fuel a b m = Val r m /\ r = scmp s t /\ (r = 0 <-> s = t).
Proof.
  intros Ha Hb Hf. exists (scmp s t). split; [by apply strcmp_spec|].
  split; [done|]. apply scmp_eq.
Qed.

(** The memory with the bytes [bs] at [a] and nothing else. *)
Fixpoint mem_of (a : Z) (bs : list Z) : mem :=
  match bs with
  | [] => ∅
  | b :: r => <[a := b]> (mem_of (a + 1) r)
  end.

Lemma memmove_correct_witness : exists m',
  memmove 18 16 8 (mem_of 16 [1; 2; 3; 4; 5; 6; 7; 8; 9; 10]) = Val 18 m' /\
  m' !! 18 = Some 1 /\ m' !! 25 = Some 8.
Proof.
  assert (forall a, a = 16 \/ a = 18 -> mapped (mem_of 16 [1; 2; 3; 4; 5; 6; 7; 8; 9; 10]) a 8) as H.
  { intros a Ha i Hi. cbn. rewrite !lookup_insert. repeat case_decide; eauto. lia. }
  destruct (memmove_correct 18 16 8 (mem_of 16 [1; 2; 3; 4; 5; 6; 7; 8; 9; 10])
    ltac:(lia) (H 16 ltac:(lia)) (H 18 ltac:(lia))) as (m' & Hr & Hm).
  exists m'. split; [exact Hr|]. by rewrite !Hm.
Defined.

(** ",a,,b" at 0 and the separators "," at 100. *)
Definition text : mem := mem_of 0 [44; 97; 44; 44; 98; 0] ∪ mem_of 100 [44; 0].

Lemma strtok_r_splits_witness : exists ps m',
  strtok_all 9 9 (Some 0) 100 None text = Val ps m' /\ Forall2 (cstr m') ps [[97]; [98]].
Proof.
  destruct (strtok_r_splits 9 text 0 [44; 97; 44; 44; 98] 100 [44])
    as (ps & m' & Hr & Hps & _); [..|exists ps, m'; split; [exact Hr|exact Hps]];
    try (cbn; lia).
  - cbn. repeat split; try lia; by vm_compute.
  - cbn. repeat split; try lia; by vm_compute.
Defined.

Lemma strcmp_correct_witness : exists r,
  strcmp 9 1 4 text = Val r text /\ r = -1 /\ (r = 0 <-> [97; 44; 44; 98] = [98]).
Proof.
  apply (strcmp_correct 9 text 1 4 [97; 44; 44; 98] [98]); [| |cbn; lia];
    cbn; repeat split; try lia; by vm_compute.
Defined.
End Memory.
