(* ===== verification/CopyInOut.v ===== *)
(** * kern/vm/copyinout.c: copying between user and kernel memory

    [copyin] and [copyout] check that the user's block lies below
    [USERSPACETOP] and then copy with [memcpy]; a fault on the way lands in
    [copyfail], which jumps back to the [setjmp] and makes the call return
    [EFAULT].  Memory is the one address space of the machine. *)

From S2P Require Import Prelude Memory.
Import Memory.

Module CopyInOut.

(** [MIPS_KSEG0] *)
Definition USERSPACETOP : Z := 2 ^ 31.

(** The memory and whether [t_machdep.tm_badfaultfunc] is [copyfail]. *)
Record mach : Type := mkMach {
  memory : mem;
  tm_badfaultfunc : bool;
}.

(** [copycheck]: the error code and [*stoplen]. *)
Definition copycheck (userptr len : Z) : Z * Z :=
  let bot := userptr in
  let top := u32 (bot + len - 1) in
  if top <? bot then (EFAULT, len)
  else if USERSPACETOP <=? bot then (EFAULT, len)
  else if USERSPACETOP <=? top then (0, USERSPACETOP - bot)
  else (0, len).

(** Runs [x] with [copyfail] installed: a trap takes the [setjmp] path. *)
Definition recovering (x : X (Z * Z)) : M mach (Z * Z) := fun s =>
  match x (memory s) with
  | Val r m' => Done (r, mkMach m' false)
  | Trap m' => Done ((EFAULT, 0), mkMach m' false)
  | OutOfFuel => Stop NoFuel
  end.

Definition copyin (usersrc dest len : Z) : M mach Z :=
  let '(result, stoplen) := copycheck usersrc len in
  if negb (result =? 0) then mret result
  else if negb (stoplen =? len) then mret EFAULT
  else
    r ← recovering (_ ← memcpy dest usersrc len; mret (0, 0));
    mret r.1.

Definition copyout (src userdest len : Z) : M mach Z :=
  let '(result, stoplen) := copycheck userdest len in
  if negb (result =? 0) then mret result
  else if negb (stoplen =? len) then mret EFAULT
  else
    r ← recovering (_ ← memcpy userdest src len; mret (0, 0));
    mret r.1.

(** [copystr] from index [i], with [n] characters left before [maxlen] or
    [stoplen]: the error code and [*gotlen]. *)
Fixpoint copystr_loop (n : nat) (dest src i maxlen stoplen : Z) : X (Z * Z) :=
  match n with
  | O => mret (if stoplen <? maxlen then EFAULT else ENAMETOOLONG, 0)
  | S n' =>
      c ← ld (src + i);
      _ ← st (dest + i) c;
      c' ← ld (src + i);
      if c' =? 0 then mret (0, i + 1)
      else copystr_loop n' dest src (i + 1) maxlen stoplen
  end.

Definition copystr (dest src maxlen stoplen : Z) : X (Z * Z) :=
  copystr_loop (Z.to_nat (Z.min maxlen stoplen)) dest src 0 maxlen stoplen.

(** The error code and [*actual]. *)
Definition copyinstr (usersrc dest len : Z) : M mach (Z * Z) :=
  let '(result, stoplen) := copycheck usersrc len in
  if negb (result =? 0) then mret (result, 0)
  else recovering (copystr dest usersrc len stoplen).

Definition copyoutstr (src userdest len : Z) : M mach (Z * Z) :=
  let '(result, stoplen) := copycheck userdest len in
  if negb (result =? 0) then mret (result, 0)
  else recovering (copystr userdest src len stoplen).

(** ** What a run may write *)

(** Whether it returns or traps, [x] changes only the [n] bytes at [d]. *)
Definition writes_only {A} (d n : Z) (m : mem) (r : xres A) : Prop :=
  match r with
  | Val _ m' | Trap m' => forall a, ~ (d <= a < d + n) -> m' !! a = m !! a
  | OutOfFuel => False
  end.

Lemma writes_bind {A B} d n m (x : X A) (k : A -> X B) :
  writes_only d n m (x m) ->
  (forall a m', x m = Val a m' -> writes_only d n m' (k a m')) ->
  writes_only d n m ((x ≫= k) m).
Proof.
  unfold mbind, X_bind. destruct (x m) as [a m'|m'|] eqn:E; cbn; intros H1 H2; [|done|done].
  specialize (H2 a m' eq_refl). destruct (k a m'); cbn in *; [..|done];
    intros y Hy; by rewrite H2, H1.
Qed.

Lemma writes_ld d n m a : writes_only d n m (ld a m).
Proof. unfold ld. by destruct (m !! a). Qed.

Lemma writes_st d n m a b : d <= a < d + n -> writes_only d n m (st a b m).
Proof.
  intros Ha. unfold st. destruct (m !! a); cbn; [|done].
  intros x Hx. by rewrite lookup_insert_ne by lia.
Qed.

Lemma writes_ldn d n m w a : writes_only d n m (ldn w a m).
Proof.
  revert a m. induction w as [|w IH]; intros a m; cbn [ldn]; [done|].
  apply writes_bind; [apply writes_ld|]. intros b m1 _. apply writes_bind; [apply IH|done].
Qed.

Lemma ldn_length w a m bs m' : ldn w a m = Val bs m' -> length bs = w.
Proof.
  revert a m bs. induction w as [|w IH]; intros a m bs H; cbn [ldn] in H.
  { unfold mret, X_ret in H. by simplify_eq. }
  unfold mbind, X_bind, mret, X_ret in H. destruct (ld a m) as [b m1|m1|]; [|done..].
  destruct (ldn w (a + 1) m1) as [bs1 m2|m2|] eqn:E; [|done..]. simplify_eq. cbn.
  by rewrite (IH _ _ _ E).
Qed.

Lemma writes_stn d n m a bs : d <= a -> a + Z.of_nat (length bs) <= d + n ->
  writes_only d n m (stn a bs m).
Proof.
  revert a m. induction bs as [|b bs IH]; intros a m H1 H2; cbn [stn length] in *; [done|].
  apply writes_bind; [apply writes_st; lia|]. intros _ m1 _. apply IH; lia.
Qed.

Lemma writes_copy_up d n m w s k i :
  0 <= i -> Z.of_nat w * (i + Z.of_nat k) <= n -> writes_only d n m (copy_up w d s k i m).
Proof.
  revert i m. induction k as [|k IH]; intros i m Hi H; cbn [copy_up]; [done|].
  apply writes_bind; [apply writes_ldn|]. intros bs m1 Hbs%ldn_length.
  apply writes_bind; [apply writes_stn; rewrite ?Hbs; nia|]. intros _ m2 _. apply IH; lia.
Qed.

Lemma writes_memcpy d s n m : 0 <= n -> writes_only d n m (memcpy d s n m).
Proof.
  intros Hn. unfold memcpy. apply writes_bind; [|done].
  destruct (_ && _ && _); apply writes_copy_up; unfold sizeof_long; dlia.
Qed.

Lemma writes_copystr d s n m mx sl i :
  0 <= i -> writes_only d (i + Z.of_nat n) m (copystr_loop n d s i mx sl m).
Proof.
  revert i m. induction n as [|n IH]; intros i m Hi; cbn [copystr_loop]; [done|].
  apply writes_bind; [apply writes_ld|]. intros c m1 _.
  apply writes_bind; [apply writes_st; lia|]. intros _ m2 _.
  apply writes_bind; [apply writes_ld|]. intros c' m3 _.
  destruct (c' =? 0); [done|].
  replace (i + Z.of_nat (S n)) with (i + 1 + Z.of_nat n) by lia. apply IH. lia.
Qed.

(** ** The bounds check *)

(** What [copycheck] lets through, and the part of it below the kernel. *)
Lemma copycheck_spec u n : 0 <= u < 2 ^ 32 -> 0 <= n < 2 ^ 32 ->
  copycheck u n =
    if decide (0 < n /\ u < USERSPACETOP /\ u + n <= 2 ^ 32) then
      (0, if decide (u + n <= USERSPACETOP) then n else USERSPACETOP - u)
    else if decide (n = 0 /\ u = 0) then (0, USERSPACETOP) else (EFAULT, n).
Proof.
  intros Hu Hn. unfold copycheck, USERSPACETOP, uwrap.
  repeat case_decide; subst;
    repeat match goal with
      | |- context [?a <? ?b] => destruct (Z.ltb_spec a b)
      | |- context [?a <=? ?b] => destruct (Z.leb_spec a b)
      end; try done; first [dlia | f_equal; dlia].
Qed.

(** A successful check of the whole block means the block is user memory. *)
Lemma copycheck_full u n : 0 <= u < 2 ^ 32 -> 0 <= n < 2 ^ 32 ->
  copycheck u n = (0, n) -> 0 < n /\ u + n <= USERSPACETOP.
Proof.
  intros Hu Hn. rewrite copycheck_spec by done. unfold USERSPACETOP, EFAULT.
  repeat case_decide; intros; simplify_eq; lia.
Qed.

Lemma copycheck_ok u n : 0 <= u -> 0 < n -> u + n <= USERSPACETOP ->
  copycheck u n = (0, n).
Proof.
  unfold USERSPACETOP. intros. rewrite copycheck_spec by lia. unfold USERSPACETOP.
  by rewrite !decide_True by lia.
Qed.

(** The common shape of [copyin] and [copyout]. *)
Definition copy_block (user d s n : Z) : M mach Z :=
  let '(result, stoplen) := copycheck user n in
  if negb (result =? 0) then mret result
  else if negb (stoplen =? n) then mret EFAULT
  else
    r ← recovering (_ ← memcpy d s n; mret (0, 0));
    mret r.1.

Lemma copy_block_safe user d s n st : 0 <= user < 2 ^ 32 -> 0 <= n < 2 ^ 32 ->
  tm_badfaultfunc st = false ->
  exists r st', copy_block user d s n st = Done (r, st') /\ tm_badfaultfunc st' = false /\
    ((r = EFAULT /\ st' = st) \/
     ((r = 0 \/ r = EFAULT) /\ 0 < n /\ user + n <= USERSPACETOP /\
      forall a, ~ (d <= a < d + n) -> memory st' !! a = memory st !! a)).
Proof.
  intros Hu Hn Hf. unfold copy_block.
  destruct (copycheck user n) as [r sl] eqn:E.
  destruct (Z.eqb_spec r 0) as [->|Hr]; cbn [negb].
  2: { exists r, st. repeat split; [done|]. left. split; [|done].
       rewrite copycheck_spec in E by done. repeat case_decide; by simplify_eq. }
  destruct (Z.eqb_spec sl n) as [->|]; cbn [negb]; [|by exists EFAULT, st; auto].
  apply copycheck_full in E as [Hn0 Htop]; [|done..].
  pose proof (writes_memcpy d s n (memory st) ltac:(lia)) as Hw.
  unfold recovering. mrun. xrun. destruct (memcpy d s n (memory st)) as [a m'|m'|]; cbn in Hw |- *.
  - exists 0, (mkMach m' false). split; [done|]. split; [done|]. right. auto.
  - exists EFAULT, (mkMach m' false). split; [done|]. split; [done|]. right. auto.
  - done.
Qed.

Lemma copy_block_ok user d s n st : 0 <= user -> 0 < n -> user + n <= USERSPACETOP ->
  mapped (memory st) s n -> mapped (memory st) d n -> d + n <= s \/ s + n <= d ->
  exists m', copy_block user d s n st = Done (0, mkMach m' false) /\
    copied (memory st) d s n m'.
Proof.
  intros Hu Hn Ht Hs Hd Ho. unfold copy_block. rewrite copycheck_ok by done.
  rewrite !Z.eqb_refl. cbn [negb].
  destruct (memcpy_spec d s n (memory st)) as (m' & Hr & Hc); [lia|lia|done..|].
  exists m'. unfold recovering. mrun. xrun. by rewrite Hr.
Qed.

Lemma copystr_spec m d a s n m1 i mx sl :
  cstr m a s -> d + Z.of_nat n + i <= a \/ a + Z.of_nat (length s) < d ->
  mapped m d (i + Z.of_nat n) -> 0 <= i ->
  copied m d a i m1 -> i <= Z.of_nat (length s) ->
  exists m2, copystr_loop n d a i mx sl m1 =
    (if decide (Z.of_nat (length s) < i + Z.of_nat n) then Val (0, Z.of_nat (length s) + 1) m2
     else Val (if sl <? mx then EFAULT else ENAMETOOLONG, 0) m2) /\
    copied m d a (Z.min (i + Z.of_nat n) (Z.of_nat (length s) + 1)) m2.
Proof.
  intros Hs Ho Hd. revert m1 i Ho Hd.
  induction n as [|n IH]; intros m1 i Ho Hd Hi Hc Hle; cbn [copystr_loop].
  { exists m1. rewrite decide_False by lia. split; [done|].
    by replace (Z.min _ _) with i by lia. }
  assert (exists c, m !! (a + i) = Some c /\ (c = 0 <-> i = Z.of_nat (length s))) as (c & Hmc & Hc0).
  { destruct (decide (i = Z.of_nat (length s))) as [->|].
    - exists 0. split; [by apply cstr_end|done].
    - destruct (lookup_lt_is_Some_2 s (Z.to_nat i)) as [c Hsc]; [lia|].
      destruct (cstr_lookup _ _ _ _ _ Hs Hsc) as [H1 H2]. rewrite Z2Nat.id in H1 by lia.
      exists c. split; [done|]. split; intros; lia. }
  destruct (Hd i) as [b Hb]; [lia|].
  rewrite (ld_run _ _ c) by (by rewrite Hc, decide_False by lia).
  rewrite (st_run _ _ b) by (by rewrite Hc, decide_False by lia).
  rewrite (ld_run _ _ c) by (rewrite lookup_insert_ne, Hc, decide_False by lia; done).
  assert (copied m d a (i + 1) (<[d + i := c]> m1)) as Hc1.
  { intros x. rewrite lookup_insert, Hc. repeat case_decide; try lia; try done.
    rewrite <- Hmc. f_equal. lia. }
  destruct (Z.eqb_spec c 0) as [E|E].
  - eexists. rewrite decide_True by lia. rewrite (proj1 Hc0 E) in *. split; [done|].
    by replace (Z.min _ _) with (Z.of_nat (length s) + 1) by lia.
  - destruct (IH (<[d + i := c]> m1) (i + 1)) as (m2 & Hr & Hm2); [lia| |lia|done|lia|].
    { intros j Hj. apply Hd. lia. }
    exists m2. rewrite Hr. replace (i + Z.of_nat (S n)) with (i + 1 + Z.of_nat n) by lia. done.
Qed.

Lemma recovering_safe d n x s : writes_only d n (memory s) (x (memory s)) ->
  exists r s', recovering x s = Done (r, s') /\ tm_badfaultfunc s' = false /\
    forall a, ~ (d <= a < d + n) -> memory s' !! a = memory s !! a.
Proof.
  unfold recovering. destruct (x (memory s)) as [r m'|m'|]; cbn; [| |done].
  - intros H. by exists r, (mkMach m' false).
  - intros H. by exists (EFAULT, 0), (mkMach m' false).
Qed.

(** ** Properties *)

(** C33: Protection.  Whatever addresses and lengths a user process supplies,
    [copyout] and [copyoutstr] return normally with the fault handler removed
    again, and no byte of kernel memory (at or above [USERSPACETOP]) has
    changed. *)
Theorem copyout_protects_kernel src user n s :
  0 <= user < 2 ^ 32 -> 0 <= n < 2 ^ 32 -> tm_badfaultfunc s = false ->
  (exists r s', copyout src user n s = Done (r, s') /\ (r = 0 \/ r = EFAULT) /\
     tm_badfaultfunc s' = false /\
     forall a, USERSPACETOP <= a -> memory s' !! a = memory s !! a) /\
  (exists r s', copyoutstr src user n s = Done (r, s') /\
     tm_badfaultfunc s' = false /\
     forall a, USERSPACETOP <= a -> memory s' !! a = memory s !! a).
Proof.
  intros Hu Hn Hf. split.
  - destruct (copy_block_safe user user src n s Hu Hn Hf)
      as (r & s' & Hr & Hf' & [[-> ->]|(? & ? & ? & Hm)]).
    + exists EFAULT, s. auto.
    + exists r, s'. repeat split; try done. intros a Ha. apply Hm. lia.
  - unfold copyoutstr. rewrite copycheck_spec by done.
    case_decide as H1; [|case_decide as H2].
    + cbn [Z.eqb negb].
      destruct (recovering_safe user (USERSPACETOP - user) (copystr user src n
        (if decide (user + n <= USERSPACETOP) then n else USERSPACETOP - user)) s)
        as (r & s' & Hr & Hf' & Hm).
      * unfold copystr.
        pose proof (fun n' => writes_copystr user src n' (memory s) n
          (if decide (user + n <= USERSPACETOP) then n else USERSPACETOP - user) 0 ltac:(lia)) as Hw.
        match goal with |- writes_only _ _ _ (copystr_loop ?n' _ _ _ _ _ _) => specialize (Hw n') end.
        destruct (copystr_loop _ _ _ _ _ _ _); cbn in *; try done;
          intros x Hx; apply Hw; case_decide; lia.
      * exists r, s'. repeat split; try done. intros a Ha. apply Hm. lia.
    + destruct H2 as [-> ->]. cbn. by eexists _, _.
    + cbn. by exists (EFAULT, 0), s.
Qed.

(** [copyin] copies exactly the user's block into the kernel buffer and
    returns 0 when the block lies in mapped user memory, and [copyin] of any
    block that is empty, wraps around, or reaches into the kernel returns
    [EFAULT] with memory unchanged. *)
Theorem copyin_correct user dest n s :
  0 <= user < 2 ^ 32 -> 0 <= n < 2 ^ 32 -> tm_badfaultfunc s = false ->
  (0 < n -> user + n <= USERSPACETOP ->
     mapped (memory s) user n -> mapped (memory s) dest n ->
     dest + n <= user \/ user + n <= dest ->
     exists m', copyin user dest n s = Done (0, mkMach m' false) /\
       copied (memory s) dest user n m') /\
  (n = 0 \/ USERSPACETOP < user + n -> copyin user dest n s = Done (EFAULT, s)).
Proof.
  intros Hu Hn Hf. split.
  - intros. apply (copy_block_ok user dest user n s); (done || lia).
  - intros Hbad. destruct (copy_block_safe user dest user n s Hu Hn Hf)
      as (r & s' & Hr & _ & [[-> ->]|(_ & ? & ? & _)]); [done|lia].
Qed.

(** [copyinstr] on a null-terminated user string either copies it with
    its terminator and reports its length including the terminator, or, when
    it does not fit in [len] bytes, returns [ENAMETOOLONG]; the bytes outside
    the destination buffer stay as they were. *)
Theorem copyinstr_correct user dest n str s :
  0 <= user -> 0 < n -> user + n <= USERSPACETOP -> cstr (memory s) user str ->
  mapped (memory s) dest n -> dest + n <= user \/ user + Z.of_nat (length str) < dest ->
  exists m', copyinstr user dest n s =
    Done (if decide (Z.of_nat (length str) < n) then (0, Z.of_nat (length str) + 1)
          else (ENAMETOOLONG, 0), mkMach m' false) /\
    (Z.of_nat (length str) < n -> cstr m' dest str) /\
    forall a, ~ (dest <= a < dest + n) -> m' !! a = memory s !! a.
Proof.
  intros Hu Hn Ht Hs Hd Ho. unfold copyinstr. rewrite copycheck_ok by done.
  cbn [Z.eqb negb]. unfold recovering, copystr. rewrite Z.min_id.
  destruct (copystr_spec (memory s) dest user str (Z.to_nat n) (memory s) 0 n n)
    as (m' & -> & Hc); [done|lia| |lia| |lia|].
  { by replace (0 + _) with n by lia. }
  { intros a. by rewrite decide_False by lia. }
  exists m'. replace (0 + Z.of_nat (Z.to_nat n)) with n in * by lia.
  rewrite Z.ltb_irrefl. split; [by case_decide|]. split.
  - intros Hl. apply cstr_intro; [by eapply cstr_bytes| |].
    + intros i c Hi. pose proof (lookup_lt_Some _ _ _ Hi). rewrite Hc, decide_True by lia.
      rewrite <- (proj1 (cstr_lookup _ _ _ _ _ Hs Hi)). f_equal. lia.
    + rewrite Hc, decide_True by lia. rewrite <- (cstr_end _ _ _ Hs). f_equal. lia.
  - intros a Ha. by rewrite Hc, decide_False by lia.
Qed.

(** Some user memory at 16 and a kernel buffer at [USERSPACETOP]. *)
Definition sample : mach :=
  mkMach (mem_of 16 [104; 105; 0] ∪ mem_of USERSPACETOP [1; 2; 3; 4]) false.

Lemma sample_mapped : mapped (memory sample) 16 3 /\ mapped (memory sample) USERSPACETOP 3.
Proof.
  split; intros i Hi; assert (i = 0 \/ i = 1 \/ i = 2) as [-> | [-> | ->]] by lia;
    vm_compute; eauto.
Qed.

Lemma copyout_protects_kernel_witness : exists r s',
  copyout USERSPACETOP (USERSPACETOP - 2) 4 sample = Done (r, s') /\
  memory s' !! USERSPACETOP = Some 1.
Proof.
  destruct (copyout_protects_kernel USERSPACETOP (USERSPACETOP - 2) 4 sample)
    as [(r & s' & Hr & _ & _ & Hm) _]; [unfold USERSPACETOP; lia|lia|done|].
  exists r, s'. split; [exact Hr|]. rewrite Hm by lia. by vm_compute.
Defined.

Lemma copyin_correct_witness :
  (exists m', copyin 16 USERSPACETOP 3 sample = Done (0, mkMach m' false) /\
     copied (memory sample) USERSPACETOP 16 3 m') /\
  copyin (USERSPACETOP - 1) 16 2 sample = Done (EFAULT, sample).
Proof.
  split.
  - apply (copyin_correct 16 USERSPACETOP 3 sample); try done;
      try (unfold USERSPACETOP; lia); apply sample_mapped.
  - apply (copyin_correct (USERSPACETOP - 1) 16 2 sample); try done;
      unfold USERSPACETOP; lia.
Defined.

Lemma copyinstr_correct_witness : exists m',
  copyinstr 16 USERSPACETOP 3 sample = Done ((0, 3), mkMach m' false) /\
  cstr m' USERSPACETOP [104; 105].
Proof.
  destruct (copyinstr_correct 16 USERSPACETOP 3 [104; 105] sample) as (m' & Hr & Hc & _);
    [lia|lia|unfold USERSPACETOP; lia| |apply sample_mapped|unfold USERSPACETOP; cbn; lia|].
  - cbn. repeat split; try lia; by vm_compute.
  - exists m'. split; [exact Hr|]. apply Hc. cbn. lia.
Defined.
End CopyInOut.
