(* ===== verification/Uio.v ===== *)
(** * kern/lib/uio.c: data transfer through a struct uio

    A [uio] describes a transfer between a kernel buffer and a sequence of
    memory blocks, in the kernel or in a user process.  [uiomove] moves the
    next bytes and advances the description. *)

From S2P Require Import Prelude Memory CopyInOut.
Import Memory CopyInOut.

Module Uio.

Inductive uio_rw_t : Set := UIO_READ | UIO_WRITE.
Inductive uio_seg_t : Set := UIO_USERISPACE | UIO_USERSPACE | UIO_SYSSPACE.

(** [iov_ubase] and [iov_kbase] are one union. *)
Record iovec : Type := mkIov {
  iov_base : Z;
  iov_len : Z;
}.

(** [uio_iov] is the array from the current iovec on; a null [uio_space] is
    [None]. *)
Record uio : Type := mkUio {
  uio_iov : list iovec;
  uio_iovcnt : Z;
  uio_offset : Z;
  uio_resid : Z;
  uio_segflg : uio_seg_t;
  uio_rw : uio_rw_t;
  uio_space : option Z;
}.

(** A memory access of the kernel that has no recovery. *)
Definition kernel {A} (x : X A) : M mach A := fun s =>
  match x (memory s) with
  | Val a m' => Done (a, mkMach m' (tm_badfaultfunc s))
  | Trap _ => Stop BadAccess
  | OutOfFuel => Stop NoFuel
  end.

(** The [switch] of [uiomove]: moves [size] bytes, returns the error code. *)
Definition uiomove_chunk (u : uio) (iov : iovec) (ptr size : Z) : M mach Z :=
  match uio_segflg u with
  | UIO_SYSSPACE =>
      _ ← kernel (match uio_rw u with
                  | UIO_READ => memmove (iov_base iov) ptr size
                  | UIO_WRITE => memmove ptr (iov_base iov) size
                  end);
      mret 0
  | UIO_USERSPACE | UIO_USERISPACE =>
      match uio_rw u with
      | UIO_READ => copyout ptr (iov_base iov) size
      | UIO_WRITE => copyin (iov_base iov) ptr size
      end
  end.

(** [uio->uio_iov++; uio->uio_iovcnt--;] *)
Definition next_iov (u : uio) (rest : list iovec) : uio :=
  mkUio rest (u32 (uio_iovcnt u - 1)) (uio_offset u) (uio_resid u)
    (uio_segflg u) (uio_rw u) (uio_space u).

(** The updates after a chunk of [size] bytes. *)
Definition advance (u : uio) (iov : iovec) (rest : list iovec) (size : Z) : uio :=
  mkUio (mkIov (iov_base iov + size) (u32 (iov_len iov - size)) :: rest) (uio_iovcnt u)
    (s64 (uio_offset u + size)) (u32 (uio_resid u - size))
    (uio_segflg u) (uio_rw u) (uio_space u).

Fixpoint uiomove_loop (fuel : nat) (ptr n : Z) (u : uio) : M mach (Z * uio) :=
  match fuel with
  | O => mstop NoFuel
  | S f =>
      if (0 <? n) && (0 <? uio_resid u) then
        match uio_iov u with
        | [] => mstop BadAccess
        | iov :: rest =>
            let size := if n <? iov_len iov then n else iov_len iov in
            if size =? 0 then
              let u' := next_iov u rest in
              if uio_iovcnt u' =? 0 then mstop KPanic
              else uiomove_loop f ptr n u'
            else
              result ← uiomove_chunk u iov ptr size;
              if negb (result =? 0) then mret (result, u)
              else uiomove_loop f (ptr + size) (n - size) (advance u iov rest size)
        end
      else mret (0, u)
  end.

(** [curspace] is [curthread->t_addrspace]. *)
Definition uiomove (fuel : nat) (curspace : option Z) (ptr n : Z) (u : uio)
    : M mach (Z * uio) :=
  _ ← kassert (match uio_segflg u with
               | UIO_SYSSPACE => bool_decide (uio_space u = None)
               | _ => bool_decide (uio_space u = curspace)
               end);
  uiomove_loop fuel ptr n u.

(** The loop of [uiomovezeros]; [zeros] is the address of the static array. *)
Fixpoint uiomovezeros_loop (fuel fuel' : nat) (curspace : option Z) (zeros n : Z) (u : uio)
    : M mach (Z * uio) :=
  match fuel with
  | O => mstop NoFuel
  | S f =>
      if 0 <? n then
        let amt := if n <? 16 then n else 16 in
        '(result, u') ← uiomove fuel' curspace zeros amt u;
        if negb (result =? 0) then mret (result, u')
        else uiomovezeros_loop f fuel' curspace zeros (n - amt) u'
      else mret (0, u)
  end.
Definition uiomovezeros (fuel fuel' : nat) (curspace : option Z) (zeros n : Z) (u : uio)
    : M mach (Z * uio) :=
  _ ← kassert (match uio_rw u with UIO_READ => true | UIO_WRITE => false end);
  uiomovezeros_loop fuel fuel' curspace zeros n u.

Definition uio_kinit (kbuf len pos : Z) (rw : uio_rw_t) : uio :=
  mkUio [mkIov kbuf len] 1 pos len UIO_SYSSPACE rw None.

(** ** The addresses a uio denotes *)

Definition blocks (iovs : list iovec) : list Z :=
  iovs ≫= (fun v => seqZ (iov_base v) (iov_len v)).
Definition flat (u : uio) : list Z := blocks (uio_iov u).

(** [uio_resid] is the total length of the blocks, as uio.h asks. *)
Record wf (u : uio) : Prop := mkWf {
  wf_lens : Forall (fun v => 0 <= iov_len v < 2 ^ 32) (uio_iov u);
  wf_cnt : uio_iovcnt u = Z.of_nat (length (uio_iov u));
  wf_resid : uio_resid u = Z.of_nat (length (flat u));
  wf_bound : uio_resid u < 2 ^ 32 /\ uio_iovcnt u < 2 ^ 32;
  wf_offset : 0 <= uio_offset u /\ uio_offset u + uio_resid u < 2 ^ 63;
}.

(** [m'] is [m] with the bytes at [srcs] stored at [dsts], in order. *)
Definition moved (m : mem) (srcs dsts : list Z) (m' : mem) : Prop :=
  (forall i s d, srcs !! i = Some s -> dsts !! i = Some d -> m' !! d = m !! s) /\
  (forall a, a ∉ dsts -> m' !! a = m !! a).

Lemma moved_nil m : moved m [] [] m.
Proof. by split. Qed.

Lemma moved_app m s1 d1 m1 s2 d2 m2 :
  moved m s1 d1 m1 -> moved m1 s2 d2 m2 -> length s1 = length d1 ->
  (forall x, x ∈ s2 -> x ∉ d1) -> (forall x, x ∈ d1 -> x ∉ d2) ->
  moved m (s1 ++ s2) (d1 ++ d2) m2.
Proof.
  intros [H1 F1] [H2 F2] Hl Hs Hd. split.
  - intros i s d Hi Hj. apply lookup_app_Some in Hi as [Hi|[Hi Hi']].
    + pose proof (lookup_lt_Some _ _ _ Hi). rewrite lookup_app_l in Hj by lia.
      rewrite F2 by (apply Hd; by eapply list_elem_of_lookup_2). by eapply H1.
    + rewrite lookup_app_r in Hj by lia. rewrite <- Hl in Hj.
      rewrite (H2 _ _ _ Hi' Hj). apply F1, Hs. by eapply list_elem_of_lookup_2.
  - intros a Ha. rewrite F2, F1; set_solver.
Qed.

Lemma lookup_seqZ_Some (a n x : Z) i : seqZ a n !! i = Some x ->
  x = a + Z.of_nat i /\ Z.of_nat i < n.
Proof. intros H. apply lookup_seqZ in H. naive_solver. Qed.

Lemma copied_moved m d s n m' : copied m d s n m' -> moved m (seqZ s n) (seqZ d n) m'.
Proof.
  intros Hc. split.
  - intros i x y [-> Hi]%lookup_seqZ_Some [-> _]%lookup_seqZ_Some.
    rewrite Hc, decide_True by lia. f_equal. lia.
  - intros a Ha. rewrite elem_of_seqZ in Ha. by rewrite Hc, decide_False by lia.
Qed.

Lemma seqZ_split a n k : 0 <= k <= n -> seqZ a n = seqZ a k ++ seqZ (a + k) (n - k).
Proof. intros. replace n with (k + (n - k)) at 1 by lia. apply seqZ_app; lia. Qed.

(** The user blocks must lie in user space; kernel blocks anywhere. *)
Definition accessible (seg : uio_seg_t) (a : Z) : Prop :=
  match seg with UIO_SYSSPACE => True | _ => 0 <= a < USERSPACETOP end.

(** The two sides of the transfer. *)
Definition srcs (rw : uio_rw_t) (buf blk : list Z) : list Z :=
  match rw with UIO_READ => buf | UIO_WRITE => blk end.
Definition dsts (rw : uio_rw_t) (buf blk : list Z) : list Z :=
  match rw with UIO_READ => blk | UIO_WRITE => buf end.

Lemma chunk_spec u iov ptr size s :
  0 < size -> mapped (memory s) ptr size -> mapped (memory s) (iov_base iov) size ->
  ptr + size <= iov_base iov \/ iov_base iov + size <= ptr ->
  (forall a, a ∈ seqZ (iov_base iov) size -> accessible (uio_segflg u) a) ->
  tm_badfaultfunc s = false ->
  exists m', uiomove_chunk u iov ptr size s = Done (0, mkMach m' false) /\
    moved (memory s) (srcs (uio_rw u) (seqZ ptr size) (seqZ (iov_base iov) size))
      (dsts (uio_rw u) (seqZ ptr size) (seqZ (iov_base iov) size)) m'.
Proof.
  intros Hsz Hp Hb Hd Hacc Hf. unfold uiomove_chunk.
  assert (uio_segflg u <> UIO_SYSSPACE ->
    0 <= iov_base iov /\ iov_base iov + size <= USERSPACETOP) as Hu.
  { intros Hs. pose proof (Hacc (iov_base iov)) as H1.
    pose proof (Hacc (iov_base iov + size - 1)) as H2.
    rewrite elem_of_seqZ in H1, H2. destruct (uio_segflg u); cbn in *; try done; lia. }
  destruct (uio_segflg u) eqn:Eseg, (uio_rw u) eqn:Erw; cbn [srcs dsts].
  - destruct (copy_block_ok (iov_base iov) (iov_base iov) ptr size s) as (m' & Hr & Hc);
      [naive_solver..|lia|]. exists m'. split; [done|]. by apply copied_moved.
  - destruct (copy_block_ok (iov_base iov) ptr (iov_base iov) size s) as (m' & Hr & Hc);
      [naive_solver..|lia|]. exists m'. split; [done|]. by apply copied_moved.
  - destruct (copy_block_ok (iov_base iov) (iov_base iov) ptr size s) as (m' & Hr & Hc);
      [naive_solver..|lia|]. exists m'. split; [done|]. by apply copied_moved.
  - destruct (copy_block_ok (iov_base iov) ptr (iov_base iov) size s) as (m' & Hr & Hc);
      [naive_solver..|lia|]. exists m'. split; [done|]. by apply copied_moved.
  - destruct (memmove_spec (iov_base iov) ptr size (memory s)) as (m' & Hr & Hc); [lia|done..|].
    exists m'. unfold kernel. mrun. rewrite Hr, Hf. split; [done|]. by apply copied_moved.
  - destruct (memmove_spec ptr (iov_base iov) size (memory s)) as (m' & Hr & Hc); [lia|done..|].
    exists m'. unfold kernel. mrun. rewrite Hr, Hf. split; [done|]. by apply copied_moved.
Qed.

(** ** The loop *)

(** The state in which a transfer of [n] bytes at [ptr] can proceed. *)
Record ready (u : uio) (ptr n : Z) (s : mach) : Prop := mkReady {
  rd_wf : wf u;
  rd_n : 0 <= n;
  rd_buf : forall a, a ∈ seqZ ptr n -> is_Some (memory s !! a);
  rd_blk : forall a, a ∈ flat u -> is_Some (memory s !! a) /\ accessible (uio_segflg u) a;
  rd_disj : forall a, a ∈ seqZ ptr n -> a ∉ flat u;
  rd_nodup : NoDup (flat u);
  rd_flag : tm_badfaultfunc s = false;
}.

(** [u'] is [u] after [k] bytes. *)
Record advanced (u : uio) (k : Z) (u' : uio) : Prop := mkAdvanced {
  adv_flat : flat u' = drop (Z.to_nat k) (flat u);
  adv_resid : uio_resid u' = uio_resid u - k;
  adv_offset : uio_offset u' = uio_offset u + k;
  adv_seg : uio_segflg u' = uio_segflg u;
  adv_rw : uio_rw u' = uio_rw u;
  adv_space : uio_space u' = uio_space u;
  adv_len : (length (uio_iov u') <= length (uio_iov u))%nat;
}.

Lemma flat_cons u iov rest : uio_iov u = iov :: rest ->
  flat u = seqZ (iov_base iov) (iov_len iov) ++ blocks rest.
Proof. intros H. unfold flat. by rewrite H. Qed.

Lemma s64_small z : 0 <= z < 2 ^ 63 -> s64 z = z.
Proof. intros H. unfold swrap. rewrite Z.mod_small; lia. Qed.

Lemma advance_spec u iov rest size : wf u -> uio_iov u = iov :: rest ->
  0 < size <= iov_len iov -> wf (advance u iov rest size) /\
  advanced u size (advance u iov rest size) /\
  flat u = seqZ (iov_base iov) size ++ flat (advance u iov rest size).
Proof.
  intros Hwf Hu Hsz. pose proof (wf_resid _ Hwf) as Hres.
  rewrite (flat_cons _ _ _ Hu), length_app, length_seqZ in Hres.
  pose proof (wf_lens _ Hwf) as Hl. rewrite Hu in Hl. apply Forall_cons in Hl as [Hv Hl].
  pose proof (wf_bound _ Hwf). pose proof (wf_offset _ Hwf).
  assert (flat (advance u iov rest size) =
    seqZ (iov_base iov + size) (iov_len iov - size) ++ blocks rest) as Hfl.
  { unfold flat, advance. cbn. by rewrite uwrap_small by lia. }
  assert (flat u = seqZ (iov_base iov) size ++ flat (advance u iov rest size)) as Hfl'.
  { rewrite Hfl, (flat_cons _ _ _ Hu), app_assoc. f_equal. apply seqZ_split. lia. }
  split; [constructor|split; [constructor|]]; cbn -[flat]; try done.
  - constructor; [cbn; rewrite uwrap_small; lia|done].
  - rewrite (wf_cnt _ Hwf), Hu. done.
  - rewrite uwrap_small by lia. rewrite Hfl, length_app, length_seqZ. lia.
  - rewrite uwrap_small by lia. lia.
  - rewrite uwrap_small by lia. rewrite s64_small; lia.
  - rewrite Hfl'. rewrite drop_app_length' by (rewrite length_seqZ; lia). done.
  - rewrite uwrap_small; lia.
  - rewrite s64_small; lia.
  - rewrite Hu. cbn. lia.
Qed.

Lemma next_iov_spec u iov rest : wf u -> uio_iov u = iov :: rest ->
  iov_len iov = 0 -> 0 < uio_resid u -> wf (next_iov u rest) /\
  advanced u 0 (next_iov u rest) /\ uio_iovcnt (next_iov u rest) <> 0.
Proof.
  intros Hwf Hu Hl0 Hr. pose proof (wf_cnt _ Hwf) as Hcnt. rewrite Hu in Hcnt. cbn in Hcnt.
  assert (flat (next_iov u rest) = flat u) as Hfl.
  { rewrite (flat_cons _ _ _ Hu), Hl0. done. }
  pose proof (wf_resid _ Hwf) as Hres. pose proof (wf_bound _ Hwf).
  assert (rest <> []) as Hne by (intros ->; rewrite <- Hfl in Hres; cbn in Hres; lia).
  assert (u32 (uio_iovcnt u - 1) = Z.of_nat (length rest)) as Hc.
  { rewrite Hcnt, uwrap_small; lia. }
  pose proof (wf_lens _ Hwf) as Hl. rewrite Hu in Hl. apply Forall_cons in Hl as [_ Hl].
  split; [constructor|split; [constructor|]]; cbn -[flat]; try done.
  - by rewrite Hfl.
  - rewrite Hc. lia.
  - apply Hwf.
  - lia.
  - lia.
  - rewrite Hu. cbn. lia.
  - rewrite Hc. destruct rest; [done|cbn; lia].
Qed.

Lemma ready_advance u iov rest ptr n size s m' :
  ready u ptr n s -> uio_iov u = iov :: rest -> 0 < size <= iov_len iov -> size <= n ->
  (forall a, is_Some (memory s !! a) -> is_Some (m' !! a)) ->
  ready (advance u iov rest size) (ptr + size) (n - size) (mkMach m' false).
Proof.
  intros Hr Hu Hsz Hn Hm. destruct (advance_spec u iov rest size (rd_wf _ _ _ _ Hr) Hu Hsz)
    as (Hwf' & Hadv & _).
  assert (forall a, a ∈ flat (advance u iov rest size) -> a ∈ flat u) as Hin.
  { intros a. rewrite (adv_flat _ _ _ Hadv). intros Ha.
    rewrite <- (take_drop (Z.to_nat size) (flat u)). set_solver. }
  assert (forall a, a ∈ seqZ (ptr + size) (n - size) -> a ∈ seqZ ptr n) as Hin2.
  { intros a. rewrite !elem_of_seqZ. lia. }
  constructor; cbn [memory tm_badfaultfunc]; try done.
  - lia.
  - intros a Ha. by apply Hm, Hr, Hin2.
  - intros a Ha%Hin. destruct (rd_blk _ _ _ _ Hr a Ha). split; [by apply Hm|done].
  - intros a Ha%Hin2 Hb%Hin. by eapply (rd_disj _ _ _ _ Hr).
  - rewrite (adv_flat _ _ _ Hadv). pose proof (rd_nodup _ _ _ _ Hr) as Hnd.
    rewrite <- (take_drop (Z.to_nat size) (flat u)) in Hnd. apply NoDup_app in Hnd. tauto.
Qed.

Lemma moved_mapped m ss ds m' a :
  moved m ss ds m' -> length ss = length ds -> (forall x, x ∈ ss -> is_Some (m !! x)) ->
  is_Some (m !! a) -> is_Some (m' !! a).
Proof.
  intros [H1 H2] Hl Hs Ha. destruct (decide (a ∈ ds)) as [Hin|Hout]; [|by rewrite H2].
  apply list_elem_of_lookup in Hin as [i Hi].
  destruct (lookup_lt_is_Some_2 ss i) as [x Hx].
  { rewrite Hl. by eapply lookup_lt_Some. }
  rewrite (H1 _ _ _ Hx Hi). apply Hs. by eapply list_elem_of_lookup_2.
Qed.

(** Iterations left: two per iovec, one less if the first one is used up. *)
Definition budget (u : uio) : nat :=
  match uio_iov u with
  | [] => 0
  | v :: r => 2 * length r + (if iov_len v =? 0 then 1 else 2)
  end.

Lemma budget_bound u : (budget u <= 2 * length (uio_iov u))%nat.
Proof. unfold budget. destruct (uio_iov u) as [|v r]; cbn; [lia|]. destruct (_ =? _); lia. Qed.

(** What [uiomove] promises. *)
Definition transferred (u : uio) (ptr n : Z) (s : mach) (u' : uio) (s' : mach) : Prop :=
  let k := Z.min n (uio_resid u) in
  wf u' /\ advanced u k u' /\ tm_badfaultfunc s' = false /\
  moved (memory s)
    (srcs (uio_rw u) (seqZ ptr k) (take (Z.to_nat k) (flat u)))
    (dsts (uio_rw u) (seqZ ptr k) (take (Z.to_nat k) (flat u))) (memory s').

Lemma transferred_nothing u ptr n s : ready u ptr n s ->
  n = 0 \/ uio_resid u = 0 -> transferred u ptr n s u s.
Proof.
  intros Hr Hz. unfold transferred. assert (0 <= uio_resid u).
  { rewrite (wf_resid _ (rd_wf _ _ _ _ Hr)). lia. }
  pose proof (rd_n _ _ _ _ Hr). replace (Z.min _ _) with 0 by lia.
  split; [apply Hr|]. split; [constructor; try done; lia|]. split; [apply Hr|].
  destruct (uio_rw u); apply moved_nil.
Qed.

(** A chunk followed by the rest of the transfer. *)
Lemma moved_chunk rw m m1 m2 buf1 blk1 buf2 blk2 :
  moved m (srcs rw buf1 blk1) (dsts rw buf1 blk1) m1 ->
  moved m1 (srcs rw buf2 blk2) (dsts rw buf2 blk2) m2 ->
  length buf1 = length blk1 -> NoDup (buf1 ++ buf2) -> NoDup (blk1 ++ blk2) ->
  (forall x, x ∈ buf1 ++ buf2 -> x ∉ blk1 ++ blk2) ->
  moved m (srcs rw (buf1 ++ buf2) (blk1 ++ blk2)) (dsts rw (buf1 ++ buf2) (blk1 ++ blk2)) m2.
Proof.
  intros H1 H2 Hl Hn1 Hn2 Hd. apply NoDup_app in Hn1 as (_ & Hn1 & _), Hn2 as (_ & Hn2 & _).
  destruct rw; cbn in *; eapply moved_app; eauto; set_solver.
Qed.

Lemma transferred_chunk u iov rest ptr n size s m1 u' s' :
  ready u ptr n s -> uio_iov u = iov :: rest -> 0 < size <= iov_len iov -> size <= n ->
  moved (memory s) (srcs (uio_rw u) (seqZ ptr size) (seqZ (iov_base iov) size))
    (dsts (uio_rw u) (seqZ ptr size) (seqZ (iov_base iov) size)) m1 ->
  transferred (advance u iov rest size) (ptr + size) (n - size) (mkMach m1 false) u' s' ->
  transferred u ptr n s u' s'.
Proof.
  intros Hr Hu Hsz Hn Hm1 (Hwf' & Ha' & Hf' & Hm').
  destruct (advance_spec u iov rest size (rd_wf _ _ _ _ Hr) Hu Hsz) as (_ & Hadv & Hfl).
  rewrite (adv_resid _ _ _ Hadv) in *.
  set (k1 := Z.min (n - size) (uio_resid u - size)) in *.
  assert (Z.min n (uio_resid u) = size + k1) as Hk by lia.
  assert (0 <= k1) as Hk1.
  { pose proof (wf_resid _ (rd_wf _ _ _ _ Hr)) as E. rewrite Hfl, length_app, length_seqZ in E. lia. }
  assert (take (Z.to_nat (size + k1)) (flat u) = seqZ (iov_base iov) size ++
    take (Z.to_nat k1) (flat (advance u iov rest size))) as Hblk.
  { rewrite Hfl at 1. rewrite take_app_ge by (rewrite length_seqZ; lia).
    rewrite length_seqZ. do 2 f_equal. lia. }
  assert (seqZ ptr (size + k1) = seqZ ptr size ++ seqZ (ptr + size) k1) as Hbuf.
  { rewrite (seqZ_split ptr (size + k1) size) by lia. do 2 f_equal. lia. }
  unfold transferred. rewrite Hk. split; [done|]. split; [|split; [done|]].
  { destruct Ha' as [E1 E2 E3 E4 E5 E6 E7], Hadv as [F1 F2 F3 F4 F5 F6 F7].
    constructor; try congruence; try lia. rewrite E1, F1, drop_drop. f_equal. lia. }
  rewrite (adv_rw _ _ _ Hadv) in Hm'. rewrite Hblk, Hbuf.
  eapply moved_chunk; [exact Hm1|exact Hm'|by rewrite !length_seqZ|..];
    rewrite <- ?Hblk, <- ?Hbuf.
  - apply NoDup_seqZ.
  - pose proof (rd_nodup _ _ _ _ Hr) as Hnd.
    rewrite <- (take_drop (Z.to_nat (size + k1)) (flat u)) in Hnd.
    apply NoDup_app in Hnd. tauto.
  - intros x Hx Hx'. apply (rd_disj _ _ _ _ Hr x); [|by rewrite <- (take_drop (Z.to_nat (size + k1)) (flat u)); apply elem_of_app; left].
    rewrite elem_of_seqZ in *. lia.
Qed.

(** A chunk of a ready transfer runs. *)
Lemma ready_chunk u iov rest ptr n size s :
  ready u ptr n s -> uio_iov u = iov :: rest -> 0 < size <= iov_len iov -> size <= n ->
  exists m', uiomove_chunk u iov ptr size s = Done (0, mkMach m' false) /\
    moved (memory s) (srcs (uio_rw u) (seqZ ptr size) (seqZ (iov_base iov) size))
      (dsts (uio_rw u) (seqZ ptr size) (seqZ (iov_base iov) size)) m' /\
    ready (advance u iov rest size) (ptr + size) (n - size) (mkMach m' false).
Proof.
  intros Hr Hu Hsz Hn.
  assert (forall a, a ∈ seqZ (iov_base iov) size -> a ∈ flat u) as Hin.
  { intros a. rewrite (flat_cons _ _ _ Hu), elem_of_app, !elem_of_seqZ. lia. }
  assert (forall a, a ∈ seqZ ptr size -> a ∈ seqZ ptr n) as Hin2.
  { intros a. rewrite !elem_of_seqZ. lia. }
  assert (forall i, 0 <= i < size -> iov_base iov + i ∈ seqZ (iov_base iov) size /\
    ptr + i ∈ seqZ ptr size) as Hi by (intros i ?; rewrite !elem_of_seqZ; lia).
  destruct (chunk_spec u iov ptr size s) as (m1 & Hrun & Hm1); [lia|..].
  - intros i ?. by apply Hr, Hin2, Hi.
  - intros i ?. by apply (rd_blk _ _ _ _ Hr), Hin, Hi.
  - destruct (decide (ptr + size <= iov_base iov \/ iov_base iov + size <= ptr)); [done|].
    exfalso. eapply (rd_disj _ _ _ _ Hr (Z.max ptr (iov_base iov))); [apply Hin2|apply Hin];
      rewrite elem_of_seqZ; lia.
  - intros a Ha. by apply (rd_blk _ _ _ _ Hr), Hin.
  - apply Hr.
  - exists m1. split; [done|]. split; [done|]. eapply ready_advance; [done..|].
    intros a. eapply moved_mapped; [done| |].
    + destruct (uio_rw u); cbn; by rewrite !length_seqZ.
    + intros x Hx. destruct (uio_rw u); cbn in Hx; [by apply Hr, Hin2|by apply (rd_blk _ _ _ _ Hr), Hin].
Qed.

(** Skipping an empty iovec changes nothing. *)
Lemma ready_next u iov rest ptr n s :
  ready u ptr n s -> uio_iov u = iov :: rest -> iov_len iov = 0 -> 0 < uio_resid u ->
  ready (next_iov u rest) ptr n s /\ uio_iovcnt (next_iov u rest) <> 0 /\
  (budget (next_iov u rest) < budget u)%nat /\
  forall u' s', transferred (next_iov u rest) ptr n s u' s' -> transferred u ptr n s u' s'.
Proof.
  intros Hr Hu Hl0 Hres.
  destruct (next_iov_spec u iov rest (rd_wf _ _ _ _ Hr) Hu Hl0 Hres) as (Hwf' & Hadv & Hc).
  assert (flat (next_iov u rest) = flat u) as Hfl by (by rewrite (adv_flat _ _ _ Hadv)).
  split; [|split; [done|split]].
  - destruct Hr. constructor; try done; by rewrite ?Hfl.
  - unfold budget. rewrite Hu, Hl0. cbn. destruct rest as [|v r]; cbn; [lia|].
    destruct (_ =? _); lia.
  - intros u' s' (H1 & [] & H2). unfold transferred. rewrite <- Hfl. split; [done|].
    split; [|done]. pose proof (adv_len _ _ _ Hadv).
    constructor; try done; [by rewrite <- ?Hfl|lia].
Qed.

Lemma uiomove_loop_spec fuel ptr n u s :
  ready u ptr n s -> (budget u < fuel)%nat ->
  exists u' s', uiomove_loop fuel ptr n u s = Done ((0, u'), s') /\
    transferred u ptr n s u' s'.
Proof.
  revert ptr n u s. induction fuel as [|fuel IH]; intros ptr n u s Hr Hf; [lia|].
  cbn [uiomove_loop]. pose proof (rd_n _ _ _ _ Hr) as Hn.
  pose proof (rd_wf _ _ _ _ Hr) as Hwf. pose proof (wf_resid _ Hwf) as Hres.
  destruct (Z.ltb_spec 0 n); cbn [andb];
    [|exists u, s; split; [done|]; apply transferred_nothing; [done|lia]].
  destruct (Z.ltb_spec 0 (uio_resid u));
    [|exists u, s; split; [done|]; apply transferred_nothing; [done|lia]].
  destruct (uio_iov u) as [|iov rest] eqn:Hu.
  { unfold flat in Hres. rewrite Hu in Hres. cbn in Hres. lia. }
  pose proof (wf_lens _ Hwf) as Hl. rewrite Hu in Hl. apply Forall_cons in Hl as [Hv _].
  cbn beta in Hv.
  set (size := if n <? iov_len iov then n else iov_len iov).
  assert (size = Z.min n (iov_len iov)) as Hsz.
  { unfold size. destruct (Z.ltb_spec n (iov_len iov)); lia. }
  destruct (Z.eqb_spec size 0) as [E|E].
  - destruct (ready_next u iov rest ptr n s Hr Hu ltac:(lia) ltac:(lia)) as (Hr' & Hc & Hb & Ht').
    rewrite (proj2 (Z.eqb_neq _ _) Hc).
    destruct (IH ptr n (next_iov u rest) s Hr' ltac:(lia)) as (u' & s' & Hrun & Ht).
    exists u', s'. split; [done|]. by apply Ht'.
  - assert (0 < size <= iov_len iov) as Hsz' by lia.
    destruct (ready_chunk u iov rest ptr n size s) as (m1 & Hrun1 & Hm1 & Hr1); [done..|lia|].
    rewrite (bind_Done _ _ _ _ _ Hrun1). cbn [Z.eqb negb].
    unfold budget in Hf. rewrite Hu, (proj2 (Z.eqb_neq (iov_len iov) 0)) in Hf by lia.
    destruct (decide (size = n)) as [En|].
    { destruct fuel as [|fuel]; [lia|]. rewrite En, Z.sub_diag in *. cbn [uiomove_loop Z.ltb Z.compare andb].
      eexists _, _. split; [done|]. eapply transferred_chunk; [done..|].
      rewrite Z.sub_diag. by apply transferred_nothing; [|left]. }
    destruct (IH (ptr + size) (n - size) (advance u iov rest size) (mkMach m1 false))
      as (u' & s' & Hrun & Ht); [done| |].
    { unfold budget, advance. cbn. rewrite uwrap_small by lia.
      rewrite (proj2 (Z.eqb_eq _ _)) by lia. lia. }
    exists u', s'. split; [done|]. eapply transferred_chunk; [done..|lia|done|done].
Qed.

Lemma uiomove_spec fuel cur ptr n u s :
  ready u ptr n s -> (2 * length (uio_iov u) < fuel)%nat ->
  uio_space u = (if uio_segflg u is UIO_SYSSPACE then None else cur) ->
  exists u' s', uiomove fuel cur ptr n u s = Done ((0, u'), s') /\
    transferred u ptr n s u' s'.
Proof.
  intros Hr Hf Hsp. unfold uiomove. pose proof (budget_bound u).
  rewrite (bind_Done _ _ s tt s).
  - apply uiomove_loop_spec; [done|lia].
  - destruct (uio_segflg u); by rewrite bool_decide_eq_true_2.
Qed.

(** [m'] is [m] with zeros at [ds]. *)
Definition zeros_at (m : mem) (ds : list Z) (m' : mem) : Prop :=
  (forall a, a ∈ ds -> m' !! a = Some 0) /\ (forall a, a ∉ ds -> m' !! a = m !! a).

Lemma advanced_trans u j u1 k u2 : 0 <= j -> 0 <= k ->
  advanced u j u1 -> advanced u1 k u2 -> advanced u (j + k) u2.
Proof.
  intros Hj Hk [E1 E2 E3 E4 E5 E6 E7] [F1 F2 F3 F4 F5 F6 F7].
  constructor; try congruence; try lia. rewrite F1, E1, drop_drop. f_equal. lia.
Qed.

Lemma moved_zeros m z k ds m' : moved m (seqZ z k) ds m' -> Z.of_nat (length ds) = k ->
  (forall a, a ∈ seqZ z k -> m !! a = Some 0) -> zeros_at m ds m'.
Proof.
  intros [H1 H2] Hl Hz. split; [|done]. intros a [i Hi]%list_elem_of_lookup.
  pose proof (lookup_lt_Some _ _ _ Hi).
  destruct (lookup_lt_is_Some_2 (seqZ z k) i) as [x Hx]; [rewrite length_seqZ; lia|].
  rewrite (H1 _ _ _ Hx Hi). apply Hz. by eapply list_elem_of_lookup_2.
Qed.

(** One round of [uiomovezeros] keeps the transfer ready. *)
Lemma zeros_round cur fuel' z amt u s :
  uio_rw u = UIO_READ -> ready u z 16 s -> 0 <= amt <= 16 ->
  (forall a, a ∈ seqZ z 16 -> memory s !! a = Some 0) ->
  uio_space u = (if uio_segflg u is UIO_SYSSPACE then None else cur) ->
  (2 * length (uio_iov u) < fuel')%nat ->
  exists u' s', uiomove fuel' cur z amt u s = Done ((0, u'), s') /\
    advanced u (Z.min amt (uio_resid u)) u' /\ ready u' z 16 s' /\
    zeros_at (memory s) (take (Z.to_nat (Z.min amt (uio_resid u))) (flat u)) (memory s').
Proof.
  intros Hrw Hr Hamt Hz Hsp Hf. pose proof (wf_resid _ (rd_wf _ _ _ _ Hr)) as Hres.
  assert (forall a, a ∈ seqZ z amt -> a ∈ seqZ z 16) as Hin.
  { intros a. rewrite !elem_of_seqZ. lia. }
  destruct (uiomove_spec fuel' cur z amt u s) as (u' & s' & Hrun & Hwf' & Hadv & Hfl & Hm);
    [|done..|].
  { destruct Hr. constructor; naive_solver. }
  set (k := Z.min amt (uio_resid u)) in *. rewrite Hrw in Hm. cbn in Hm.
  apply moved_zeros in Hm.
  2: { rewrite length_take. lia. }
  2: { intros a Ha. apply Hz. rewrite elem_of_seqZ in *. lia. }
  assert (forall a, is_Some (memory s !! a) -> is_Some (memory s' !! a)) as Hmap.
  { intros a Ha. destruct (decide (a ∈ take (Z.to_nat k) (flat u))) as [Hd|Hd].
    - rewrite (proj1 Hm a Hd). eauto.
    - by rewrite (proj2 Hm a Hd). }
  assert (flat u = take (Z.to_nat k) (flat u) ++ flat u') as Hsplit.
  { by rewrite (adv_flat _ _ _ Hadv), take_drop. }
  exists u', s'. split; [done|]. split; [done|]. split; [|done].
  constructor; try done.
  - intros a Ha. by apply Hmap, Hr.
  - intros a Ha. rewrite (adv_seg _ _ _ Hadv).
    destruct (rd_blk _ _ _ _ Hr a); [rewrite Hsplit; set_solver|]. split; [by apply Hmap|done].
  - intros a Ha Hb. apply (rd_disj _ _ _ _ Hr a Ha). rewrite Hsplit. set_solver.
  - pose proof (rd_nodup _ _ _ _ Hr) as Hnd. rewrite Hsplit in Hnd. apply NoDup_app in Hnd. tauto.
Qed.

Lemma uiomovezeros_loop_spec fuel fuel' cur z n u s :
  uio_rw u = UIO_READ -> ready u z 16 s -> 0 <= n ->
  (forall a, a ∈ seqZ z 16 -> memory s !! a = Some 0) ->
  uio_space u = (if uio_segflg u is UIO_SYSSPACE then None else cur) ->
  (2 * length (uio_iov u) < fuel')%nat -> n + 16 <= 16 * Z.of_nat fuel ->
  exists u' s', uiomovezeros_loop fuel fuel' cur z n u s = Done ((0, u'), s') /\
    wf u' /\ advanced u (Z.min n (uio_resid u)) u' /\
    zeros_at (memory s) (take (Z.to_nat (Z.min n (uio_resid u))) (flat u)) (memory s').
Proof.
  revert n u s. induction fuel as [|fuel IH]; intros n u s Hrw Hr Hn Hz Hsp Hf' Hf; [lia|].
  cbn [uiomovezeros_loop]. pose proof (wf_resid _ (rd_wf _ _ _ _ Hr)) as Hres.
  destruct (Z.ltb_spec 0 n).
  2: { exists u, s. split; [done|]. split; [apply Hr|]. replace (Z.min _ _) with 0 by lia.
       split; [constructor; try done; lia|]. cbn. split; [set_solver|done]. }
  set (amt := if n <? 16 then n else 16).
  assert (amt = Z.min n 16) as Hamt by (unfold amt; destruct (Z.ltb_spec n 16); lia).
  destruct (zeros_round cur fuel' z amt u s) as (u1 & s1 & Hrun & Hadv & Hr1 & Hz1);
    [done|done|lia|done..|].
  rewrite (bind_Done _ _ _ _ _ Hrun). cbn [Z.eqb negb].
  set (k := Z.min amt (uio_resid u)) in *.
  pose proof (rd_disj _ _ _ _ Hr) as Hdj. pose proof (adv_resid _ _ _ Hadv) as Hres1.
  assert (flat u = take (Z.to_nat k) (flat u) ++ flat u1) as Hsplit.
  { by rewrite (adv_flat _ _ _ Hadv), take_drop. }
  destruct (IH (n - amt) u1 s1) as (u' & s' & Hrun' & Hwf' & Hadv' & Hz').
  { by rewrite (adv_rw _ _ _ Hadv). }
  { done. }
  { lia. }
  { intros a Ha. rewrite (proj2 Hz1); [by apply Hz|]. intros Hin. apply (Hdj a Ha).
    rewrite Hsplit. set_solver. }
  { by rewrite (adv_space _ _ _ Hadv), (adv_seg _ _ _ Hadv). }
  { pose proof (adv_len _ _ _ Hadv). lia. }
  { lia. }
  exists u', s'. split; [done|]. split; [done|].
  replace (Z.min n (uio_resid u)) with (k + Z.min (n - amt) (uio_resid u1)) by lia.
  split; [eapply advanced_trans; [lia|lia|done..]|].
  assert (take (Z.to_nat (k + Z.min (n - amt) (uio_resid u1))) (flat u) =
    take (Z.to_nat k) (flat u) ++ take (Z.to_nat (Z.min (n - amt) (uio_resid u1))) (flat u1)) as ->.
  { rewrite (adv_flat _ _ _ Hadv), take_take_drop. f_equal. lia. }
  split; intros a; rewrite elem_of_app; [intros Ha|intros Ha].
  - destruct (decide (a ∈ take (Z.to_nat (Z.min (n - amt) (uio_resid u1))) (flat u1))) as [Hd|Hd].
    + by apply Hz'.
    + rewrite (proj2 Hz' a Hd). apply Hz1. tauto.
  - rewrite (proj2 Hz'), (proj2 Hz1); tauto.
Qed.

(** ** Properties *)

(** C34: [uiomove] moves the next min(n, uio_resid) bytes between the kernel
    buffer and the blocks of the uio, across block boundaries and in the
    direction of [uio_rw], for kernel and user blocks alike; it changes no
    other byte, advances [uio_offset] and [uio_resid] by exactly that amount
    and leaves a well-formed uio that denotes the remaining addresses. *)
Theorem uiomove_transfers fuel cur ptr n u s :
  ready u ptr n s -> (2 * length (uio_iov u) < fuel)%nat ->
  uio_space u = (if uio_segflg u is UIO_SYSSPACE then None else cur) ->
  exists u' s', uiomove fuel cur ptr n u s = Done ((0, u'), s') /\
  let k := Z.min n (uio_resid u) in
  wf u' /\ uio_resid u' = uio_resid u - k /\ uio_offset u' = uio_offset u + k /\
  flat u' = drop (Z.to_nat k) (flat u) /\ tm_badfaultfunc s' = false /\
  moved (memory s)
    (srcs (uio_rw u) (seqZ ptr k) (take (Z.to_nat k) (flat u)))
    (dsts (uio_rw u) (seqZ ptr k) (take (Z.to_nat k) (flat u))) (memory s').
Proof.
  intros Hr Hf Hsp. destruct (uiomove_spec _ _ _ _ _ _ Hr Hf Hsp) as (u' & s' & Hrun & H).
  exists u', s'. split; [done|]. destruct H as (? & [] & ? & ?). done.
Qed.

(** [uiomovezeros] stores zeros in the next min(n, uio_resid) bytes the
    uio denotes and nothing else, sixteen at a time, and advances the uio
    past them. *)
Theorem uiomovezeros_zeroes fuel fuel' cur z n u s :
  uio_rw u = UIO_READ -> ready u z 16 s -> 0 <= n ->
  (forall a, a ∈ seqZ z 16 -> memory s !! a = Some 0) ->
  uio_space u = (if uio_segflg u is UIO_SYSSPACE then None else cur) ->
  (2 * length (uio_iov u) < fuel')%nat -> n + 16 <= 16 * Z.of_nat fuel ->
  exists u' s', uiomovezeros fuel fuel' cur z n u s = Done ((0, u'), s') /\
    wf u' /\ advanced u (Z.min n (uio_resid u)) u' /\
    zeros_at (memory s) (take (Z.to_nat (Z.min n (uio_resid u))) (flat u)) (memory s').
Proof.
  intros Hrw. intros. unfold uiomovezeros. rewrite Hrw. by apply uiomovezeros_loop_spec.
Qed.

(** A kernel buffer at 100 and a target of three bytes at 200. *)
Definition two_buffers : mach :=
  mkMach (mem_of 100 (replicate 16 0) ∪ mem_of 200 [7; 8; 9]) false.

Lemma two_buffers_ready n rw : 0 <= n <= 16 -> ready (uio_kinit 200 3 0 rw) 100 n two_buffers.
Proof.
  intros Hn. assert (flat (uio_kinit 200 3 0 rw) = [200; 201; 202]) as Hfl by done.
  constructor; try rewrite Hfl.
  - constructor; cbn; [repeat constructor; cbn; lia|done|done|lia|lia].
  - lia.
  - intros a. rewrite elem_of_seqZ. intros Ha. cbn [memory two_buffers].
    assert (a ∈ seqZ 100 16) as Hin by (rewrite elem_of_seqZ; lia).
    clear Ha. revert a Hin. apply Forall_forall. cbn. repeat constructor; by eexists; vm_compute.
  - apply Forall_forall. repeat constructor; by eexists; vm_compute.
  - intros a. rewrite elem_of_seqZ, !elem_of_cons, elem_of_nil. lia.
  - by apply (bool_decide_unpack _); vm_compute.
  - done.
Qed.

Lemma uiomove_transfers_witness : exists u' s',
  uiomove 3 None 100 5 (uio_kinit 200 3 0 UIO_WRITE) two_buffers = Done ((0, u'), s') /\
  uio_resid u' = 0 /\ uio_offset u' = 3 /\ memory s' !! 101 = Some 8.
Proof.
  destruct (uiomove_transfers 3 None 100 5 (uio_kinit 200 3 0 UIO_WRITE) two_buffers)
    as (u' & s' & Hr & _ & H1 & H2 & _ & _ & Hm); [apply two_buffers_ready; lia|cbn; lia|done|].
  exists u', s'. split; [exact Hr|]. split; [exact H1|]. split; [exact H2|].
  rewrite (proj1 Hm 1%nat 201 101); by vm_compute.
Defined.

Lemma uiomovezeros_zeroes_witness : exists u' s',
  uiomovezeros 3 3 None 100 20 (uio_kinit 200 3 0 UIO_READ) two_buffers = Done ((0, u'), s') /\
  zeros_at (memory two_buffers) [200; 201; 202] (memory s').
Proof.
  destruct (uiomovezeros_zeroes 3 3 None 100 20 (uio_kinit 200 3 0 UIO_READ) two_buffers)
    as (u' & s' & Hr & _ & _ & Hz);
    [done|apply two_buffers_ready; lia|lia| |done|cbn; lia|lia|].
  - apply Forall_forall. by repeat constructor.
  - exists u', s'. split; [exact Hr|exact Hz].
Defined.
End Uio.
