(* ===== verification/Stream.v ===== *)
(** * Transfers through one iovec, and the block device interface

    Every uio of this kernel that reaches a file system has a single iovec.
    For such a uio the bytes of the target block can be kept in the uio
    itself: a reader's uio holds the bytes delivered so far, a writer's uio
    the bytes still to be taken.  [umove] is [uiomove] of kern/lib/uio.c
    (Uio.v) on such a uio.

    [BlockDevice] is what the file system expects of [struct device]
    (kern/include/device.h): its [d_io] and the contents of its blocks. *)

From S2P Require Import Prelude Memory CopyInOut Uio.
Import Memory CopyInOut Uio.

Module Stream.

Definition BLOCKSIZE : Z := 512.

Record sio : Type := mkSio {
  u_rw : uio_rw_t;
  u_off : Z;
  u_resid : Z;
  u_len : Z;         (** [iov_len] *)
  u_room : Z;        (** bytes of the block before the first that cannot be accessed *)
  u_user : Z;        (** bytes of the block that [copycheck] allows, before the end
                         of user space; at least [u_room] *)
  u_data : list Z;
}.

(** The uio after [size] bytes; [buf] is the kernel buffer of [uiomove]. *)
Definition took (u : sio) (size : Z) (buf : list Z) : sio :=
  mkSio (u_rw u) (s64 (u_off u + size)) (u32 (u_resid u - size)) (u_len u - size)
    (u_room u - size) (u_user u - size)
    match u_rw u with
    | UIO_READ => u_data u ++ take (Z.to_nat size) buf
    | UIO_WRITE => drop (Z.to_nat size) (u_data u)
    end.
Definition filled (u : sio) (size : Z) (buf : list Z) : list Z :=
  match u_rw u with
  | UIO_READ => buf
  | UIO_WRITE => take (Z.to_nat size) (u_data u) ++ drop (Z.to_nat size) buf
  end.

(** What a transfer of [size] bytes that fails leaves in the kernel buffer:
    nothing is copied if the range leaves user space, else [copyin] has copied
    the bytes before the page that is not mapped.  (A failed [copyout] has
    stored such bytes in the user's block; they do not count as delivered.) *)
Definition faulted (u : sio) (size : Z) (buf : list Z) : list Z :=
  if u_user u <? size then buf else filled u (u_room u) buf.

(** [uiomove(buf, length buf, u)]: the error code, the buffer and the uio.
    With one iovec the loop runs at most once before it either ends or runs
    out of buffers. *)
Definition umove (buf : list Z) (u : sio) : outcome (Z * list Z * sio) :=
  let n := Z.of_nat (length buf) in
  if (0 <? n) && (0 <? u_resid u) then
    let size := if n <? u_len u then n else u_len u in
    if size =? 0 then Stop KPanic
    else if u_room u <? size then Done (EFAULT, faulted u size buf, u)
    else
      let u' := took u size buf in
      if (0 <? n - size) && (0 <? u_resid u') then Stop KPanic
      else Done (0, filled u size buf, u')
  else Done (0, buf, u).

#[global] Arguments umove : simpl never.

(** A uio for the transfer of exactly one block [b]. *)
Record whole (rw : uio_rw_t) (b : Z) (u : sio) : Prop := mkWhole {
  wh_rw : u_rw u = rw;
  wh_off : u_off u = BLOCKSIZE * b;
  wh_block : 0 <= b < 2 ^ 32;
  wh_resid : u_resid u = BLOCKSIZE;
  wh_len : BLOCKSIZE <= u_len u;
  wh_room : BLOCKSIZE <= u_room u;
  wh_data : rw = UIO_WRITE -> BLOCKSIZE <= Z.of_nat (length (u_data u));
}.

Class BlockDevice (D : Type) : Type := {
  d_blocks : D -> Z;
  d_blocksize : D -> Z;
  d_io : sio -> D -> outcome (Z * sio * D);
  (** The contents of the blocks, and that no I/O error is to be expected. *)
  block : D -> Z -> list Z;
  healthy : D -> Prop;
  block_size : forall d, healthy d -> d_blocksize d = BLOCKSIZE;
  block_length : forall d b, healthy d -> length (block d b) = 512%nat;
  block_bytes : forall d b, healthy d -> Forall (fun x => 0 <= x < 256) (block d b);
  d_io_read : forall d u b, healthy d -> whole UIO_READ b u -> b < d_blocks d ->
    exists d', d_io u d = Done (0, took u BLOCKSIZE (block d b), d') /\ healthy d' /\
      d_blocks d' = d_blocks d /\ forall c, block d' c = block d c;
  d_io_write : forall d u b, healthy d -> whole UIO_WRITE b u -> b < d_blocks d ->
    Forall (fun x => 0 <= x < 256) (u_data u) ->
    exists d', d_io u d = Done (0, took u BLOCKSIZE [], d') /\ healthy d' /\
      d_blocks d' = d_blocks d /\
      forall c, block d' c = if c =? b then take 512 (u_data u) else block d c;
}.

(** ** Facts about [umove] *)

(** A uio whose residue does not exceed what its iovec can take. *)
Record sane (u : sio) : Prop := mkSane {
  sn_off : 0 <= u_off u /\ u_off u + u_resid u < 2 ^ 63;
  sn_resid : 0 <= u_resid u < 2 ^ 32;
  sn_len : u_resid u <= u_len u /\ u_resid u <= u_room u;
  sn_data : u_rw u = UIO_WRITE -> u_resid u <= Z.of_nat (length (u_data u));
}.

Lemma umove_spec buf u : sane u -> Z.of_nat (length buf) <= u_resid u ->
  umove buf u = Done (0, filled u (Z.of_nat (length buf)) buf,
                         took u (Z.of_nat (length buf)) buf) /\
  u_resid (took u (Z.of_nat (length buf)) buf) = u_resid u - Z.of_nat (length buf) /\
  u_off (took u (Z.of_nat (length buf)) buf) = u_off u + Z.of_nat (length buf) /\
  sane (took u (Z.of_nat (length buf)) buf).
Proof.
  intros [Ho Hr Hl Hd] Hn. set (n := Z.of_nat (length buf)) in *.
  assert (u32 (u_resid u - n) = u_resid u - n) as Er by (apply uwrap_small; lia).
  assert (s64 (u_off u + n) = u_off u + n) as Eo by (apply s64_small; lia).
  split; [|split; [done|split; [done|]]].
  - unfold umove. fold n. destruct (Z.ltb_spec 0 n); cbn [andb].
    + rewrite (proj2 (Z.ltb_lt 0 (u_resid u))) by lia.
      replace (if n <? u_len u then n else u_len u) with n by (destruct (Z.ltb_spec n (u_len u)); lia).
      rewrite (proj2 (Z.eqb_neq n 0)) by lia. rewrite (proj2 (Z.ltb_ge _ _)) by lia.
      by rewrite Z.sub_diag.
    + assert (n = 0) as E by lia. destruct buf; [|cbn in n; lia].
      rewrite E in *. f_equal. f_equal; [f_equal; by destruct u as [[] ??????]|].
      unfold took. destruct u as [rw o r l rm us d]; cbn in *. rewrite Eo, Er, !Z.sub_0_r, Z.add_0_r.
      destruct rw; by rewrite ?app_nil_r.
  - constructor; cbn; [lia|lia|lia|]. intros E. rewrite E. specialize (Hd E).
    rewrite length_drop. lia.
Qed.

(** ** [umove] and [uiomove] *)

(** The bytes [bs] are stored at [addrs]. *)
Definition holds (m : mem) (addrs bs : list Z) : Prop :=
  Forall2 (fun a x => m !! a = Some x) addrs bs.

Lemma moved_holds m ss ds m' bs : moved m ss ds m' -> length ss = length ds ->
  holds m ss bs -> holds m' ds bs.
Proof.
  intros [Hm _] Hl H. apply Forall2_same_length_lookup in H as [Hl' H].
  apply Forall2_same_length_lookup. split; [congruence|]. intros i a x Ha Hx.
  destruct (lookup_lt_is_Some_2 ss i) as [b Hb].
  { rewrite Hl. by eapply lookup_lt_Some. }
  rewrite (Hm _ _ _ Hb Ha). by eapply H.
Qed.
Lemma holds_frame m ss ds m' addrs bs : moved m ss ds m' -> (forall a, a ∈ addrs -> a ∉ ds) ->
  holds m addrs bs -> holds m' addrs bs.
Proof.
  intros [_ Hf] Hd H. apply Forall2_same_length_lookup in H as [Hl H].
  apply Forall2_same_length_lookup. split; [done|]. intros i a x Ha Hx.
  rewrite Hf; [by eapply H|]. apply Hd. by eapply list_elem_of_lookup_2.
Qed.

(** The stream [u] stands for the uio [q], which has one iovec; its residue may
    be less than the iovec takes, as after [sfs_io] has stopped a read at the
    end of the file.  [base] are the addresses of the iovec when the transfer
    began.  A reader's stream holds what was delivered to the first of them, a
    writer's what is still to be fetched. *)
Record tracks (m : mem) (base : list Z) (q : uio) (u : sio) : Prop := mkTracks {
  tr_rw : u_rw u = uio_rw q;
  tr_off : u_off u = uio_offset q /\ 0 <= u_off u /\ u_off u + u_resid u < 2 ^ 63;
  tr_resid : u_resid u = uio_resid q /\ 0 <= u_resid u;
  tr_iov : exists a, uio_iov q = [mkIov a (u_len u)];
  tr_len : u_resid u <= u_len u < 2 ^ 32 /\ u_resid u <= u_room u;
  tr_bytes : match uio_rw q with
             | UIO_READ => flat q = drop (length (u_data u)) base /\
                           holds m (take (length (u_data u)) base) (u_data u)
             | UIO_WRITE => holds m (flat q) (u_data u)
             end;
}.
(** The kernel buffer of [n] bytes at [ptr] and the first [k] bytes of the
    iovec can be accessed and do not overlap. *)
Record movable (q : uio) (ptr n k : Z) (s : mach) : Prop := mkMovable {
  mv_buf : mapped (memory s) ptr n;
  mv_blk : forall a, a ∈ take (Z.to_nat k) (flat q) -> is_Some (memory s !! a) /\ accessible (uio_segflg q) a;
  mv_disj : forall a, a ∈ seqZ ptr n -> a ∉ flat q;
  mv_flag : tm_badfaultfunc s = false;
}.

Lemma umove_nothing buf u : 0 <= u_resid u < 2 ^ 32 -> 0 <= u_off u < 2 ^ 63 ->
  Done (0, buf, u) = Done (0, filled u 0 buf, took u 0 buf).
Proof.
  intros Hr Ho. unfold took, filled. destruct u as [rw o r l rm us d]; cbn in *.
  rewrite s64_small, uwrap_small by lia. rewrite Z.add_0_r, !Z.sub_0_r.
  by destruct rw; rewrite ?app_nil_r.
Qed.

Lemma umove_run buf u : 0 <= u_resid u -> u_resid u <= u_len u -> u_resid u <= u_room u ->
  u_resid u < 2 ^ 32 -> 0 <= u_off u < 2 ^ 63 ->
  Z.of_nat (length buf) <= u_resid u \/ u_len u = u_resid u ->
  let k := Z.min (Z.of_nat (length buf)) (u_resid u) in
  umove buf u = Done (0, filled u k buf, took u k buf).
Proof.
  intros Hr Hl Hm Hb Ho Hn k. unfold umove. set (n := Z.of_nat (length buf)) in *.
  destruct (Z.ltb_spec 0 n), (Z.ltb_spec 0 (u_resid u)); cbn [andb].
  { replace (if n <? u_len u then n else u_len u) with k by (destruct (Z.ltb_spec n (u_len u)); lia).
    rewrite (proj2 (Z.eqb_neq k 0)), (proj2 (Z.ltb_ge _ _)) by lia.
    assert ((0 <? n - k) && (0 <? u_resid (took u k buf)) = false) as ->; [|done].
    apply andb_false_iff. rewrite !Z.ltb_ge. cbn [took u_resid]. rewrite uwrap_small by lia. lia. }
  all: replace k with 0 by lia; apply umove_nothing; lia.
Qed.

(** [uiomove] on such a uio moves [k] bytes in one round. *)
Lemma uiomove_one fuel cur ptr n q s a len :
  uio_iov q = [mkIov a len] -> 0 <= n -> 0 <= uio_resid q <= len -> len < 2 ^ 32 ->
  n <= uio_resid q \/ len = uio_resid q -> (2 <= fuel)%nat ->
  uio_space q = (if uio_segflg q is UIO_SYSSPACE then None else cur) ->
  let k := Z.min n (uio_resid q) in
  movable q ptr n k s ->
  exists s', uiomove fuel cur ptr n q s =
      Done ((0, if 0 <? k then advance q (mkIov a len) [] k else q), s') /\
    moved (memory s) (srcs (uio_rw q) (seqZ ptr k) (take (Z.to_nat k) (flat q)))
      (dsts (uio_rw q) (seqZ ptr k) (take (Z.to_nat k) (flat q))) (memory s').
Proof.
  intros Hi Hn Hr Hl Hor Hf Hsp k [Hbuf Hblk Hdis Hfl].
  assert (flat q = seqZ a len) as Hfq by (unfold flat; rewrite Hi; cbn; by rewrite app_nil_r).
  assert (take (Z.to_nat k) (flat q) = seqZ a k) as Htk.
  { rewrite Hfq, (seqZ_split a len k), take_app_length' by (rewrite ?length_seqZ; lia). done. }
  rewrite Htk in *. unfold uiomove.
  rewrite (bind_Done _ _ s tt s) by (unfold kassert; destruct (uio_segflg q); by rewrite Hsp, bool_decide_true).
  destruct fuel as [|[|fuel]]; [lia..|]. cbn [uiomove_loop].
  destruct (Z.ltb_spec 0 k) as [Hk|Hk].
  - rewrite (proj2 (Z.ltb_lt 0 n)), (proj2 (Z.ltb_lt 0 (uio_resid q))), Hi by lia. cbn [andb iov_len].
    replace (if n <? len then n else len) with k by (destruct (Z.ltb_spec n len); lia).
    rewrite (proj2 (Z.eqb_neq k 0)) by lia.
    destruct (chunk_spec q (mkIov a len) ptr k s) as (m' & Hc & Hm); try done.
    + intros x Hx. apply Hbuf. lia.
    + intros x Hx. apply Hblk. rewrite elem_of_seqZ. cbn. lia.
    + cbn. destruct (decide (ptr + k <= a)); [by left|]. destruct (decide (a + k <= ptr)); [by right|]. exfalso.
      apply (Hdis (Z.max a ptr)); [|rewrite Hfq]; rewrite elem_of_seqZ; lia.
    + intros x Hx. by apply Hblk.
    + exists (mkMach m' false). split; [|exact Hm]. rewrite (bind_Done _ _ _ _ _ Hc). cbn [Z.eqb negb].
      assert ((0 <? n - k) && (0 <? uio_resid (advance q (mkIov a len) [] k)) = false) as ->; [|done].
      apply andb_false_iff. rewrite !Z.ltb_ge. cbn. rewrite uwrap_small by lia. lia.
  - assert ((0 <? n) && (0 <? uio_resid q) = false) as ->.
    { apply andb_false_iff. rewrite !Z.ltb_ge. lia. }
    exists s. split; [done|]. replace (seqZ ptr k) with (@nil Z) by (symmetry; apply seqZ_nil; lia).
    replace (seqZ a k) with (@nil Z) by (symmetry; apply seqZ_nil; lia). destruct (uio_rw q); apply moved_nil.
Qed.

(** Delivering [k] bytes, and fetching them. *)
Lemma read_holds m m' base done data blk buf k : (k <= length buf)%nat -> (k <= length blk)%nat ->
  NoDup base -> blk = drop (length data) base -> done = take (length data) base ->
  holds m done data -> forall ptrs, length ptrs = k -> holds m ptrs (take k buf) ->
  moved m ptrs (take k blk) m' ->
  holds m' (take (length (data ++ take k buf)) base) (data ++ take k buf).
Proof.
  intros Hk Hk' Hnd -> -> Hd ptrs Hp Hb Hm. rewrite length_app, length_take, Nat.min_l by done.
  assert (length (take (length data) base) = length data) as Hl by by eapply Forall2_length.
  rewrite length_take in Hl. rewrite length_drop in Hk'.
  rewrite <- (take_drop (length data) base) at 1. rewrite take_app, take_take, Nat.min_r by lia.
  rewrite length_take, Nat.min_l by lia. replace (length data + k - length data)%nat with k by lia.
  rewrite <- (take_drop (length data) base) in Hnd. apply NoDup_app in Hnd as (_ & Hdis & _).
  apply Forall2_app.
  - eapply holds_frame; [exact Hm| |done]. intros a Ha Ha'.
    apply (Hdis a Ha). by eapply subseteq_take.
  - eapply moved_holds; [exact Hm| |done]. rewrite length_take, length_drop. lia.
Qed.
Lemma write_holds m m' blk data ptrs buf k : (k <= length blk)%nat -> NoDup blk ->
  length ptrs = length buf -> (forall a, a ∈ ptrs -> a ∉ blk) -> (k <= length buf)%nat ->
  holds m blk data -> holds m ptrs buf -> NoDup ptrs ->
  moved m (take k blk) (take k ptrs) m' ->
  holds m' (drop k blk) (drop k data) /\ holds m' ptrs (take k data ++ drop k buf).
Proof.
  intros Hk Hnd Hl Hdis Hk' Hd Hb Hndp Hm. split.
  - eapply holds_frame; [exact Hm| |by apply Forall2_drop]. intros a Ha Ha'.
    apply (Hdis a); [by eapply subseteq_take|by eapply subseteq_drop].
  - rewrite <- (take_drop k ptrs) in Hndp |- *. apply NoDup_app in Hndp as (_ & Hp & _).
    apply Forall2_app.
    + eapply moved_holds; [exact Hm| |by apply Forall2_take]. rewrite !length_take. lia.
    + eapply holds_frame; [exact Hm| |by apply Forall2_drop]. intros a Ha Ha'. by apply (Hp a).
Qed.

(** The uio and the stream after [k] bytes. *)
Lemma tracks_took m m' base q u k buf a len : tracks m base q u -> uio_iov q = [mkIov a len] ->
  0 <= k <= u_resid u ->
  match uio_rw q with
  | UIO_READ => drop (Z.to_nat k) (flat q) = drop (length (u_data u ++ take (Z.to_nat k) buf)) base /\
      holds m' (take (length (u_data u ++ take (Z.to_nat k) buf)) base) (u_data u ++ take (Z.to_nat k) buf)
  | UIO_WRITE => holds m' (drop (Z.to_nat k) (flat q)) (drop (Z.to_nat k) (u_data u))
  end ->
  tracks m' base (advance q (mkIov a len) [] k) (took u k buf).
Proof.
  intros [T1 (T2 & T2' & T2'') [T3 T3'] [b T4] [[T5 T5'] T5''] T6] Hi Hk Hx.
  rewrite Hi in T4. injection T4 as -> ->.
  assert (flat (advance q (mkIov b (u_len u)) [] k) = drop (Z.to_nat k) (flat q)) as Hfl.
  { unfold flat. rewrite Hi. cbn. rewrite !app_nil_r, uwrap_small, (seqZ_split b (u_len u) k),
      drop_app_length' by (rewrite ?length_seqZ; lia). done. }
  constructor; cbn -[flat]; rewrite <- ?T1, <- ?T2, <- ?T3, ?s64_small, ?uwrap_small, ?Hfl by lia.
  - done.
  - lia.
  - lia.
  - by exists (b + k).
  - lia.
  - rewrite <- T1 in Hx. by destruct (u_rw u).
Qed.

(** The stream of one iovec through which the file system is modelled
    implements [uiomove] on memory that can be accessed: whenever the stream
    stands for a uio, [umove] and [uiomove] move the same bytes, leave the same
    bytes in the kernel buffer and leave a stream that stands for the uio
    [uiomove] leaves.  The kernel buffer may be longer than the residue only if
    the residue is all the iovec takes. *)
Lemma umove_refines fuel cur ptr buf base q u s
    (Hmv : movable q ptr (Z.of_nat (length buf)) (Z.min (Z.of_nat (length buf)) (uio_resid q)) s)
    (Hf : (2 <= fuel)%nat)
    (Hn : Z.of_nat (length buf) <= u_resid u \/ u_len u = u_resid u)
    (Hsp : uio_space q = (if uio_segflg q is UIO_SYSSPACE then None else cur))
    (Ht : tracks (memory s) base q u) (Hnd : NoDup base)
    (Hb : holds (memory s) (seqZ ptr (Z.of_nat (length buf))) buf) :
  exists q' s' buf' u',
    uiomove fuel cur ptr (Z.of_nat (length buf)) q s = Done ((0, q'), s') /\
    umove buf u = Done (0, buf', u') /\ tracks (memory s') base q' u' /\
    holds (memory s') (seqZ ptr (Z.of_nat (length buf))) buf'.
Proof.
  pose proof Ht as [T1 (T2 & T2' & T2'') [T3 T3'] [a T4] [[T5 T5'] T5''] T6].
  set (n := Z.of_nat (length buf)) in *. set (k := Z.min n (uio_resid q)) in *.
  destruct (uiomove_one fuel cur ptr n q s a (u_len u) T4) as (s' & Hrun & Hm); [lia|lia|lia|lia|done|done|done|].
  fold k in Hrun, Hm. eexists _, s', (filled u k buf), (took u k buf). split; [exact Hrun|].
  split; [rewrite umove_run by (fold n; lia); fold n; by rewrite T3|].
  assert (length (flat q) = Z.to_nat (u_len u)) as Hfl.
  { unfold flat. rewrite T4. cbn. by rewrite app_nil_r, length_seqZ. }
  assert (seqZ ptr k = take (Z.to_nat k) (seqZ ptr n)) as Hsq.
  { rewrite (seqZ_split ptr n k), take_app_length' by (rewrite ?length_seqZ; lia). done. }
  rewrite Hsq in Hm. assert (length (seqZ ptr n) = length buf) as Hlp by (rewrite length_seqZ; lia).
  assert (NoDup (flat q)) as Hndq by (unfold flat; rewrite T4; cbn; rewrite app_nil_r; apply NoDup_seqZ).
  assert (match uio_rw q with
    | UIO_READ => drop (Z.to_nat k) (flat q) = drop (length (u_data u ++ take (Z.to_nat k) buf)) base /\
        holds (memory s') (take (length (u_data u ++ take (Z.to_nat k) buf)) base) (u_data u ++ take (Z.to_nat k) buf)
    | UIO_WRITE => holds (memory s') (drop (Z.to_nat k) (flat q)) (drop (Z.to_nat k) (u_data u))
    end /\ holds (memory s') (seqZ ptr n) (filled u k buf)) as [Hx Hbuf].
  { unfold filled. rewrite T1. destruct (uio_rw q) eqn:Erw; cbn [srcs dsts] in Hm.
    - destruct T6 as [T6 T7]. split; [split|].
      + rewrite T6, drop_drop, length_app, length_take, Nat.min_l by lia. done.
      + eapply (read_holds (memory s) _ base _ (u_data u) (flat q) buf (Z.to_nat k));
          try done; [lia|lia| |by apply Forall2_take]. rewrite length_take. lia.
      + eapply holds_frame; [exact Hm| |done]. intros x Hx Hx'.
        apply (mv_disj _ _ _ _ _ Hmv x Hx). by eapply subseteq_take.
    - eapply (write_holds (memory s)); try done; [lia|by apply Hmv|lia|apply NoDup_seqZ]. }
  split; [|exact Hbuf]. pose proof (tracks_took (memory s) (memory s') base q u k buf a (u_len u) Ht T4 ltac:(lia) Hx) as Ht'.
  destruct (Z.ltb_spec 0 k) as [|Hk]; [done|]. replace k with 0 in * by lia.
  assert (advance q (mkIov a (u_len u)) [] 0 = q) as E; [|by rewrite E in Ht'].
  destruct q as [iv cnt off res seg rw sp]; cbn in *. subst. unfold advance; cbn.
  by rewrite Z.add_0_r, !Z.sub_0_r, Z.add_0_r, !uwrap_small, s64_small by lia.
Qed.

(** Three of the five bytes asked for are left. *)
Lemma umove_refines_example : exists q' s' buf' u',
  uiomove 3 None 100 5 (uio_kinit 200 3 0 UIO_WRITE) two_buffers = Done ((0, q'), s') /\
  umove (replicate 5 0) (mkSio UIO_WRITE 0 3 3 3 3 [7; 8; 9]) = Done (0, buf', u') /\
  holds (memory s') [100; 101; 102; 103; 104] buf'.
Proof.
  destruct (umove_refines 3 None 100 (replicate 5 0) [200; 201; 202] (uio_kinit 200 3 0 UIO_WRITE)
    (mkSio UIO_WRITE 0 3 3 3 3 [7; 8; 9]) two_buffers) as (q' & s' & buf' & u' & H1 & H2 & _ & H3).
  - pose proof (two_buffers_ready 5 UIO_WRITE ltac:(lia)) as Hr.
    constructor.
    + intros x Hx. apply (rd_buf _ _ _ _ Hr). rewrite elem_of_seqZ. cbn in *. lia.
    + intros x Hx. apply (rd_blk _ _ _ _ Hr). by eapply subseteq_take.
    + apply (rd_disj _ _ _ _ Hr).
    + done.
  - lia.
  - by right.
  - reflexivity.
  - constructor; cbn; try done; try lia; [by eexists|]. repeat constructor.
  - by apply (bool_decide_unpack _); vm_compute.
  - cbn. repeat constructor.
  - exists q', s', buf', u'. split; [exact H1|]. split; [exact H2|exact H3].
Qed.
End Stream.
