(* ===== verification/Lhd.v ===== *)
(** * kern/dev/lamebus/lhd.c: the LAMEbus hard disk driver

    The driver writes a sector number and a command to registers of the card,
    sleeps on the semaphore [lh_done] and is woken by its interrupt handler,
    which saves the result.  The card itself is a parameter, [LhdHw]; with a
    card that works, the driver is a [BlockDevice]. *)

From S2P Require Import Prelude Uio Stream.
Import Uio Stream.

Module Lhd.

Definition LHD_SECTSIZE : Z := 512.
Definition LHD_IDLE : Z := 0.
Definition LHD_WORKING : Z := 1.
Definition LHD_OK : Z := 4.
Definition LHD_INVSECT : Z := 12.
Definition LHD_MEDIA : Z := 20.
Definition LHD_ISWRITE : Z := 2.
Definition LHD_STATEMASK : Z := 29.

(** The card: [hw_io] is a command, started with the status register value,
    on a sector and the on-card buffer; it gives the final status and the
    buffer.  The laws say what a card without faults does. *)
Class LhdHw (H : Type) : Type := {
  hw_nsect : H -> Z;
  hw_io : Z -> Z -> list Z -> H -> Z * list Z * H;
  sector_data : H -> Z -> list Z;
  hw_good : H -> Prop;
  hw_data_length : forall h s, hw_good h -> length (sector_data h s) = 512%nat;
  hw_data_bytes : forall h s, hw_good h ->
    Forall (fun x => 0 <= x < 256) (sector_data h s);
  hw_read : forall h s buf, hw_good h -> 0 <= s < hw_nsect h ->
    exists st h', hw_io LHD_WORKING s buf h = (st, sector_data h s, h') /\
      Z.land st LHD_STATEMASK = LHD_OK /\ hw_good h' /\ hw_nsect h' = hw_nsect h /\
      forall t, sector_data h' t = sector_data h t;
  hw_write : forall h s buf, hw_good h -> 0 <= s < hw_nsect h ->
    length buf = 512%nat -> Forall (fun x => 0 <= x < 256) buf ->
    exists st h', hw_io (Z.lor LHD_WORKING LHD_ISWRITE) s buf h = (st, buf, h') /\
      Z.land st LHD_STATEMASK = LHD_OK /\ hw_good h' /\ hw_nsect h' = hw_nsect h /\
      forall t, sector_data h' t = if t =? s then buf else sector_data h t;
}.

Section lhd.
Context {H : Type} `{!LhdHw H}.

(** [struct lhd_softc], with the card and its registers; a semaphore is its
    count. *)
Record lhd : Type := mkLhd {
  lh_hw : H;
  lh_buf : list Z;
  lh_result : Z;
  lh_clear : Z;
  lh_done : Z;
  lh_blocks : Z;
  reg_stat : Z;
  reg_sect : Z;
}.

Definition set_buf (b : list Z) : M lhd unit := mmodify (fun l =>
  mkLhd (lh_hw l) b (lh_result l) (lh_clear l) (lh_done l) (lh_blocks l) (reg_stat l) (reg_sect l)).
Definition set_result (r : Z) : M lhd unit := mmodify (fun l =>
  mkLhd (lh_hw l) (lh_buf l) r (lh_clear l) (lh_done l) (lh_blocks l) (reg_stat l) (reg_sect l)).
Definition set_clear (c : Z) : M lhd unit := mmodify (fun l =>
  mkLhd (lh_hw l) (lh_buf l) (lh_result l) c (lh_done l) (lh_blocks l) (reg_stat l) (reg_sect l)).
Definition set_done (c : Z) : M lhd unit := mmodify (fun l =>
  mkLhd (lh_hw l) (lh_buf l) (lh_result l) (lh_clear l) c (lh_blocks l) (reg_stat l) (reg_sect l)).
Definition set_stat (v : Z) : M lhd unit := mmodify (fun l =>
  mkLhd (lh_hw l) (lh_buf l) (lh_result l) (lh_clear l) (lh_done l) (lh_blocks l) v (reg_sect l)).
Definition set_sect (v : Z) : M lhd unit := mmodify (fun l =>
  mkLhd (lh_hw l) (lh_buf l) (lh_result l) (lh_clear l) (lh_done l) (lh_blocks l) (reg_stat l) v).

(** [P] and [V] on the two semaphores. *)
Definition P_clear : M lhd unit :=
  c ← mgets lh_clear; if c =? 0 then mstop Blocked else set_clear (c - 1).
Definition V_clear : M lhd unit := c ← mgets lh_clear; set_clear (c + 1).
Definition P_done : M lhd unit :=
  c ← mgets lh_done; if c =? 0 then mstop Blocked else set_done (c - 1).
Definition V_done : M lhd unit := c ← mgets lh_done; set_done (c + 1).

Definition lhd_code_to_errno (code : Z) : Z :=
  let c := Z.land code LHD_STATEMASK in
  if c =? LHD_OK then 0
  else if c =? LHD_INVSECT then EINVAL
  else if c =? LHD_MEDIA then EIO
  else EAGAIN.

Definition lhd_iodone (err : Z) : M lhd unit :=
  _ ← set_result err; V_done.

Definition lhd_irq : M lhd unit :=
  val ← mgets reg_stat;
  let c := Z.land val LHD_STATEMASK in
  if (c =? LHD_IDLE) || (c =? LHD_WORKING) then mret tt
  else if (c =? LHD_OK) || (c =? LHD_INVSECT) || (c =? LHD_MEDIA) then
    _ ← set_stat 0; lhd_iodone (lhd_code_to_errno val)
  else mret tt.

(** The card carries out the command in its registers. *)
Definition hardware : M lhd unit := fun l =>
  let '(st, buf, h) := hw_io (reg_stat l) (reg_sect l) (lh_buf l) (lh_hw l) in
  Done (tt, mkLhd h buf (lh_result l) (lh_clear l) (lh_done l) (lh_blocks l) st (reg_sect l)).

(** [uiomove] between the on-card buffer and the uio. *)
Definition move_buf (u : sio) : M lhd (Z * sio) :=
  b ← mgets lh_buf;
  '(r, b', u') ← mlift (umove b u);
  _ ← set_buf b';
  mret (r, u').

(** The body of the loop over the sectors.  The command runs, and the
    interrupt arrives, while the caller waits for [lh_done]. *)
Definition lhd_sector (statval sector : Z) (u : sio) : M lhd (Z * sio) :=
  _ ← P_clear;
  '(r, u1) ← match u_rw u with
             | UIO_WRITE => move_buf u
             | UIO_READ => mret (0, u)
             end;
  if negb (r =? 0) then _ ← V_clear; mret (r, u1)
  else
    _ ← set_sect sector;
    _ ← set_stat statval;
    _ ← hardware;
    _ ← lhd_irq;
    _ ← P_done;
    result ← mgets lh_result;
    '(result', u2) ← match u_rw u with
                     | UIO_READ => if result =? 0 then move_buf u1 else mret (result, u1)
                     | UIO_WRITE => mret (result, u1)
                     end;
    _ ← V_clear;
    mret (result', u2).

Fixpoint lhd_loop (n : nat) (statval sector : Z) (u : sio) : M lhd (Z * sio) :=
  match n with
  | O => mret (0, u)
  | S n' =>
      '(r, u') ← lhd_sector statval sector u;
      if negb (r =? 0) then mret (r, u')
      else lhd_loop n' statval (u32 (sector + 1)) u'
  end.

Definition lhd_io (u : sio) : M lhd (Z * sio) :=
  let sector := u32 (u_off u / LHD_SECTSIZE) in
  let sectoff := u_off u mod LHD_SECTSIZE in
  let len := u_resid u / LHD_SECTSIZE in
  let lenoff := u_resid u mod LHD_SECTSIZE in
  if negb (sectoff =? 0) || negb (lenoff =? 0) then mret (EINVAL, u)
  else
    blocks ← mgets lh_blocks;
    if blocks <? u32 (sector + len) then mret (EINVAL, u)
    else
      let statval := match u_rw u with
                     | UIO_WRITE => Z.lor LHD_WORKING LHD_ISWRITE
                     | UIO_READ => LHD_WORKING
                     end in
      lhd_loop (Z.to_nat len) statval sector u.

(** [config_lhd]: the semaphores and the size of the disk; the two booleans
    say whether [sem_create] succeeds. *)
Definition config_lhd (clear_ok done_ok : bool) (h : H) (buf : list Z) : Z * lhd :=
  let l := mkLhd h buf 0 1 0 0 LHD_IDLE 0 in
  if negb clear_ok then (ENOMEM, l)
  else if negb done_ok then (ENOMEM, l)
  else (0, mkLhd h buf 0 1 0 (hw_nsect h) LHD_IDLE 0).
End lhd.
Arguments lhd : clear implicits.

(** Runs the primitive steps of the driver. *)
Ltac lhd_run :=
  unfold lhd_sector, lhd_irq, lhd_iodone, move_buf, hardware, P_clear, V_clear, P_done,
    V_done, set_buf, set_result, set_clear, set_done, set_stat, set_sect; mrun;
  cbn [lh_hw lh_buf lh_result lh_clear lh_done lh_blocks reg_stat reg_sect].

(** ** The driver over a working card *)
Section working.
Context {H : Type} `{!LhdHw H}.
Implicit Type l : lhd H.

(** Nobody uses the device and no completion is pending. *)
Record idle (l : lhd H) : Prop := mkIdle {
  id_good : hw_good (lh_hw l);
  id_clear : lh_clear l = 1;
  id_done : lh_done l = 0;
  id_blocks : lh_blocks l = hw_nsect (lh_hw l);
  id_bound : lh_blocks l < 2 ^ 32;
  id_buf : length (lh_buf l) = 512%nat;
}.

Lemma whole_sane rw b u : whole rw b u -> sane u.
Proof.
  intros [? ? ? ? ? ? Hd]. unfold BLOCKSIZE in *. constructor; [lia|lia|lia|].
  intros E. subst rw. rewrite E in Hd. specialize (Hd eq_refl). lia.
Qed.

Lemma irq_ok st : Z.land st LHD_STATEMASK = LHD_OK -> lhd_code_to_errno st = 0.
Proof. intros E. unfold lhd_code_to_errno. by rewrite E. Qed.

Lemma lhd_sector_read l u b : idle l -> whole UIO_READ b u -> b < lh_blocks l ->
  exists l', lhd_sector LHD_WORKING b u l =
      Done ((0, took u BLOCKSIZE (sector_data (lh_hw l) b)), l') /\
    idle l' /\ lh_blocks l' = lh_blocks l /\
    forall t, sector_data (lh_hw l') t = sector_data (lh_hw l) t.
Proof.
  intros [Hg Hc Hd Hb Hbd Hbuf] Hu Hlt. pose proof (wh_block _ _ _ Hu).
  destruct (hw_read (lh_hw l) b (lh_buf l) Hg ltac:(lia)) as (st & h' & Hio & Hst & Hg' & Hn & Hs).
  pose proof (hw_data_length (lh_hw l) b Hg) as Hlen.
  destruct (umove_spec (sector_data (lh_hw l) b) u (whole_sane _ _ _ Hu)) as (Hm & _).
  { rewrite Hlen, (wh_resid _ _ _ Hu). done. }
  rewrite Hlen in Hm. change (Z.of_nat 512) with BLOCKSIZE in Hm.
  eexists. lhd_run. rewrite Hc, (wh_rw _ _ _ Hu). cbn. rewrite Hio. cbn.
  rewrite Hst. cbn. rewrite Hd, (irq_ok _ Hst). change (0 + 1) with 1. cbn. rewrite Hm. cbn.
  split; [reflexivity|]. cbn. split; [constructor; cbn; try done; try congruence|].
  - unfold filled. by rewrite (wh_rw _ _ _ Hu).
  - done.
Qed.

Lemma lhd_sector_write l u b : idle l -> whole UIO_WRITE b u -> b < lh_blocks l ->
  Forall (fun x => 0 <= x < 256) (u_data u) ->
  exists l', lhd_sector (Z.lor LHD_WORKING LHD_ISWRITE) b u l =
      Done ((0, took u BLOCKSIZE []), l') /\
    idle l' /\ lh_blocks l' = lh_blocks l /\
    forall t, sector_data (lh_hw l') t =
      if t =? b then take 512 (u_data u) else sector_data (lh_hw l) t.
Proof.
  intros [Hg Hc Hd Hb Hbd Hbuf] Hu Hlt Hbytes. pose proof (wh_block _ _ _ Hu).
  destruct (umove_spec (lh_buf l) u (whole_sane _ _ _ Hu)) as (Hm & _).
  { rewrite Hbuf, (wh_resid _ _ _ Hu). done. }
  rewrite Hbuf in Hm. change (Z.of_nat 512) with BLOCKSIZE in Hm.
  assert (filled u BLOCKSIZE (lh_buf l) = take 512 (u_data u)) as Hf.
  { unfold filled. rewrite (wh_rw _ _ _ Hu). rewrite drop_ge by (rewrite Hbuf; done).
    by rewrite app_nil_r. }
  pose proof (wh_data _ _ _ Hu eq_refl) as Hdl. unfold BLOCKSIZE in Hdl.
  destruct (hw_write (lh_hw l) b (take 512 (u_data u)) Hg ltac:(lia))
    as (st & h' & Hio & Hst & Hg' & Hn & Hs).
  { rewrite length_take. lia. }
  { by apply Forall_take. }
  eexists. lhd_run. rewrite Hc, (wh_rw _ _ _ Hu). cbn. rewrite Hm. cbn. rewrite Hf, Hio. cbn.
  rewrite Hst. cbn. rewrite Hd, (irq_ok _ Hst). change (0 + 1) with 1. cbn.
  split; [unfold took; rewrite (wh_rw _ _ _ Hu); reflexivity|]. cbn.
  split; [constructor; cbn; try done; try congruence|done].
  rewrite length_take. lia.
Qed.

Lemma lhd_io_whole rw l u b : lh_blocks l < 2 ^ 32 -> whole rw b u -> b < lh_blocks l ->
  lhd_io u l = ('(r, u') ← lhd_sector
    (match rw with UIO_WRITE => Z.lor LHD_WORKING LHD_ISWRITE | UIO_READ => LHD_WORKING end) b u;
    mret (r, u')) l.
Proof.
  intros Hi Hu Hlt. pose proof (wh_block _ _ _ Hu).
  unfold lhd_io, LHD_SECTSIZE. rewrite (wh_off _ _ _ Hu), (wh_resid _ _ _ Hu), (wh_rw _ _ _ Hu).
  unfold BLOCKSIZE. rewrite (Z.mul_comm 512 b), Z.div_mul, Z.mod_mul by lia.
  assert (u32 b = b) as -> by (apply uwrap_small; lia). change (512 mod 512) with 0.
  change (512 / 512) with 1. cbn [negb orb Z.eqb]. rewrite uwrap_small by lia.
  mrun. rewrite (proj2 (Z.ltb_ge _ _)) by lia. change (Z.to_nat 1) with 1%nat.
  cbn [lhd_loop]. mrun. destruct (lhd_sector _ b u l) as [[[r u'] l']|f]; [|done].
  destruct (Z.eqb_spec r 0) as [->|]; done.
Qed.
End working.

(** [lhd_io] as the [d_io] of the device structure. *)
Definition lhd_d_io {H} `{!LhdHw H} (u : sio) (l : lhd H) : outcome (Z * sio * lhd H) :=
  match lhd_io u l with
  | Done ((r, u'), l') => Done (r, u', l')
  | Stop f => Stop f
  end.

(** The driver discharges the block device interface. *)
#[export] Program Instance lhd_device {H} `{!LhdHw H} : BlockDevice (lhd H) := {
  d_blocks := lh_blocks;
  d_blocksize _ := LHD_SECTSIZE;
  d_io := lhd_d_io;
  block l b := sector_data (lh_hw l) b;
  healthy := idle;
}.
Next Obligation. done. Qed.
Next Obligation. intros H ? l b Hi. apply hw_data_length, Hi. Qed.
Next Obligation. intros H ? l b Hi. apply hw_data_bytes, Hi. Qed.
Next Obligation.
  intros H ? l u b Hi Hu Hlt. destruct (lhd_sector_read l u b Hi Hu Hlt) as (l' & Hr & ?).
  exists l'. unfold lhd_d_io. rewrite (lhd_io_whole UIO_READ l u b (id_bound _ Hi) Hu Hlt). mrun. by rewrite Hr.
Qed.
Next Obligation.
  intros H ? l u b Hi Hu Hlt Hb. destruct (lhd_sector_write l u b Hi Hu Hlt Hb) as (l' & Hr & ?).
  exists l'. unfold lhd_d_io. rewrite (lhd_io_whole UIO_WRITE l u b (id_bound _ Hi) Hu Hlt). mrun. by rewrite Hr.
Qed.

(** A card with its sectors in memory; [faults] says which of the coming
    commands end in a media error. *)
Record sim : Type := mkSim {
  sim_nsect : Z;
  sim_data : gmap Z (list Z);
  sim_faults : list bool;
}.

Definition blank : list Z := replicate 512 0.
#[global] Arguments blank : simpl never.
Definition sim_sector (h : sim) (s : Z) : list Z := default blank (sim_data h !! s).

Definition sim_io (cmd s : Z) (buf : list Z) (h : sim) : Z * list Z * sim :=
  if (s <? 0) || (sim_nsect h <=? s) then (LHD_INVSECT, buf, h)
  else
    let h' := mkSim (sim_nsect h) (sim_data h) (tail (sim_faults h)) in
    if default false (head (sim_faults h)) then (LHD_MEDIA, buf, h')
    else if Z.testbit cmd 1
    then (Z.lor LHD_OK LHD_ISWRITE, buf,
          mkSim (sim_nsect h) (<[s := buf]> (sim_data h)) (tail (sim_faults h)))
    else (LHD_OK, sim_sector h s, h').

Definition sim_good (h : sim) : Prop :=
  sim_faults h = [] /\ 
  map_Forall (fun _ d => length d = 512%nat /\ Forall (fun x => 0 <= x < 256) d) (sim_data h).

Lemma sim_sector_good h s : sim_good h ->
  length (sim_sector h s) = 512%nat /\ Forall (fun x => 0 <= x < 256) (sim_sector h s).
Proof.
  intros [_ Hd]. unfold sim_sector. destruct (sim_data h !! s) as [d|] eqn:E; cbn [default from_option id].
  - by apply (Hd s d E).
  - split; [done|]. apply Forall_replicate. lia.
Qed.

#[export] Program Instance sim_hw : LhdHw sim := {
  hw_nsect := sim_nsect;
  hw_io := sim_io;
  sector_data := sim_sector;
  hw_good := sim_good;
}.
Next Obligation. intros h s Hg. by apply sim_sector_good. Qed.
Next Obligation. intros h s Hg. by apply sim_sector_good. Qed.
Next Obligation.
  intros h s buf Hg Hs. destruct Hg as [Hf Hd]. unfold sim_io. rewrite Hf.
  rewrite (proj2 (Z.ltb_ge _ _)), (proj2 (Z.leb_gt _ _)) by lia. cbn.
  eexists _, _. split; [reflexivity|].
  split; [done|]. split; [by split; [|exact Hd]|]. by split.
Qed.
Next Obligation.
  intros h s buf Hg Hs Hl Hb. destruct Hg as [Hf Hd]. unfold sim_io. rewrite Hf.
  rewrite (proj2 (Z.ltb_ge _ _)), (proj2 (Z.leb_gt _ _)) by lia. cbn.
  eexists _, _. split; [reflexivity|]. split; [done|]. split; [|split; [done|]].
  - split; [done|]. cbn. by apply map_Forall_insert_2.
  - intros t. unfold sim_sector. cbn. rewrite lookup_insert.
    destruct (Z.eqb_spec t s) as [->|]; [by rewrite decide_True|by rewrite decide_False].
Qed.

(** A disk of [n] sectors, freshly configured. *)
Definition sim_disk (n : Z) (faults : list bool) : lhd sim :=
  (config_lhd true true (mkSim n ∅ faults) blank).2.

Lemma sim_disk_idle n : 0 <= n < 2 ^ 32 -> idle (sim_disk n []).
Proof.
  intros Hn. constructor; try done. cbn. lia.
Qed.
End Lhd.
