(* ===== verification/SfsDisk.v ===== *)
(** * kern/include/kern/sfs.h, kern/fs/sfs/sfs_io.c: SFS on disk

    The on-disk structures as big-endian byte strings of one block, and the
    routines that read and write a block, with their retries. *)

From S2P Require Import Prelude Uio Stream Lhd.
Import Uio Stream Lhd.

Module SfsDisk.

Definition SFS_MAGIC : Z := 2880303105.
Definition SFS_BLOCKSIZE : Z := 512.
Definition SFS_VOLNAME_SIZE : Z := 32.
Definition SFS_NDIRECT : Z := 15.
Definition SFS_DBPERIDB : Z := 128.
Definition SFS_NAMELEN : Z := 60.
Definition SFS_SB_LOCATION : Z := 0.
Definition SFS_ROOT_LOCATION : Z := 1.
Definition SFS_MAP_LOCATION : Z := 2.
Definition SFS_NOINO : Z := 0.
Definition SFS_BLOCKBITS : Z := SFS_BLOCKSIZE * 8.
Definition SFS_ROUNDUP (a b : Z) : Z := u32 (u32 (a + b - 1) / b * b).
Definition SFS_BITMAPSIZE (nblocks : Z) : Z := SFS_ROUNDUP nblocks SFS_BLOCKBITS.
Definition SFS_BITBLOCKS (nblocks : Z) : Z := SFS_BITMAPSIZE nblocks / SFS_BLOCKBITS.
Definition SFS_TYPE_INVAL : Z := 0.
Definition SFS_TYPE_FILE : Z := 1.
Definition SFS_TYPE_DIR : Z := 2.

Record sfs_super : Type := mkSuper {
  sp_magic : Z;
  sp_nblocks : Z;
  sp_volname : list Z;
  sp_reserved : list Z;
}.

Record sfs_inode : Type := mkInode {
  sfi_size : Z;
  sfi_type : Z;
  sfi_linkcount : Z;
  sfi_direct : list Z;
  sfi_indirect : Z;
  sfi_waste : list Z;
}.

Record sfs_dir : Type := mkDir {
  sfd_ino : Z;
  sfd_name : list Z;
}.

(** ** Big-endian words *)

Definition be16 (z : Z) : list Z := [z / 2 ^ 8 mod 256; z mod 256].
Definition be32 (z : Z) : list Z :=
  [z / 2 ^ 24 mod 256; z / 2 ^ 16 mod 256; z / 2 ^ 8 mod 256; z mod 256].
Definition enc32 (ws : list Z) : list Z := ws ≫= be32.

Definition rd16 (bs : list Z) : Z :=
  match bs with a :: b :: _ => a * 2 ^ 8 + b | _ => 0 end.
Definition rd32 (bs : list Z) : Z :=
  match bs with
  | a :: b :: c :: d :: _ => a * 2 ^ 24 + b * 2 ^ 16 + c * 2 ^ 8 + d
  | _ => 0
  end.
Fixpoint dec32 (bs : list Z) : list Z :=
  match bs with
  | a :: b :: c :: d :: r => (a * 2 ^ 24 + b * 2 ^ 16 + c * 2 ^ 8 + d) :: dec32 r
  | _ => []
  end.

Definition encode_inode (i : sfs_inode) : list Z :=
  be32 (sfi_size i) ++ be16 (sfi_type i) ++ be16 (sfi_linkcount i) ++
  enc32 (sfi_direct i) ++ be32 (sfi_indirect i) ++ enc32 (sfi_waste i).
Definition decode_inode (bs : list Z) : sfs_inode :=
  let ws := dec32 (drop 8 bs) in
  mkInode (rd32 bs) (rd16 (drop 4 bs)) (rd16 (drop 6 bs)) (take 15 ws)
    (default 0 (ws !! 15%nat)) (drop 16 ws).

Definition encode_super (s : sfs_super) : list Z :=
  be32 (sp_magic s) ++ be32 (sp_nblocks s) ++ sp_volname s ++ enc32 (sp_reserved s).
Definition decode_super (bs : list Z) : sfs_super :=
  mkSuper (rd32 bs) (rd32 (drop 4 bs)) (take 32 (drop 8 bs)) (dec32 (drop 40 bs)).

Definition encode_dir (d : sfs_dir) : list Z := be32 (sfd_ino d) ++ sfd_name d.
Definition decode_dir (bs : list Z) : sfs_dir := mkDir (rd32 bs) (take 60 (drop 4 bs)).

(** ** Block I/O *)
Section io.
Context {D : Type} `{!BlockDevice D}.

(** [sfs_rwblock] after [10 - n] tries. *)
Fixpoint rwblock_loop (n : nat) (u : sio) : M D (Z * sio) := fun d =>
  match d_io u d with
  | Stop f => Stop f
  | Done (result, u', d') =>
      if result =? EINVAL then Stop KPanic
      else if result =? EIO then
        match n with
        | O => Done ((result, u'), d')
        | S n' => rwblock_loop n' u' d'
        end
      else Done ((result, u'), d')
  end.
Definition sfs_rwblock (u : sio) : M D (Z * sio) := rwblock_loop 10 u.

(** [SFSUIO]: a kernel uio for the block [b] and the buffer [data]. *)
Definition SFSUIO (data : list Z) (b : Z) (rw : uio_rw_t) : sio :=
  mkSio rw (b * SFS_BLOCKSIZE) SFS_BLOCKSIZE SFS_BLOCKSIZE SFS_BLOCKSIZE SFS_BLOCKSIZE
    match rw with UIO_READ => [] | UIO_WRITE => data end.

(** [sfs_rblock]: the error code and the buffer, which keeps the bytes that
    were not overwritten. *)
Definition sfs_rblock (data : list Z) (b : Z) : M D (Z * list Z) :=
  '(r, u) ← sfs_rwblock (SFSUIO data b UIO_READ);
  mret (r, u_data u ++ drop (length (u_data u)) data).

Definition sfs_wblock (data : list Z) (b : Z) : M D Z :=
  '(r, _) ← sfs_rwblock (SFSUIO data b UIO_WRITE);
  mret r.

(** ** On a healthy device *)

Lemma rwblock_ok u u' d d' : d_io u d = Done (0, u', d') ->
  sfs_rwblock u d = Done ((0, u'), d').
Proof. intros E. unfold sfs_rwblock. cbn. by rewrite E. Qed.

Lemma SFSUIO_whole data b rw : 0 <= b < 2 ^ 32 -> length data = 512%nat ->
  whole rw b (SFSUIO data b rw).
Proof.
  intros Hb Hl. constructor; cbn; try done; unfold BLOCKSIZE, SFS_BLOCKSIZE in *; try lia.
  intros ->. by rewrite Hl.
Qed.

Lemma rblock_ok data b d : healthy d -> 0 <= b < d_blocks d -> d_blocks d <= 2 ^ 32 ->
  length data = 512%nat ->
  exists d', sfs_rblock data b d = Done ((0, block d b), d') /\ healthy d' /\
    d_blocks d' = d_blocks d /\ forall c, block d' c = block d c.
Proof.
  intros Hh Hb Hd Hl.
  destruct (d_io_read d (SFSUIO data b UIO_READ) b Hh) as (d' & Hio & ?);
    [apply SFSUIO_whole; [lia|done]|lia|].
  exists d'. unfold sfs_rblock. rewrite (bind_Done _ _ _ _ _ (rwblock_ok _ _ _ _ Hio)).
  split; [|done]. mrun. do 3 f_equal. unfold took. cbn.
  pose proof (block_length d b Hh) as Hbl. change (Z.to_nat BLOCKSIZE) with 512%nat.
  rewrite take_ge by lia. rewrite drop_ge by lia. apply app_nil_r.
Qed.

Lemma wblock_ok data b d : healthy d -> 0 <= b < d_blocks d -> d_blocks d <= 2 ^ 32 ->
  length data = 512%nat -> Forall (fun x => 0 <= x < 256) data ->
  exists d', sfs_wblock data b d = Done (0, d') /\ healthy d' /\
    d_blocks d' = d_blocks d /\ forall c, block d' c = if c =? b then data else block d c.
Proof.
  intros Hh Hb Hd Hl Hby.
  destruct (d_io_write d (SFSUIO data b UIO_WRITE) b Hh) as (d' & Hio & H1 & H2 & H3);
    [apply SFSUIO_whole; [lia|done]|lia|done|].
  exists d'. unfold sfs_wblock. rewrite (bind_Done _ _ _ _ _ (rwblock_ok _ _ _ _ Hio)).
  split; [done|]. split; [done|]. split; [done|]. intros c. rewrite H3. cbn.
  by rewrite take_ge by lia.
Qed.
End io.

(** ** Encodings *)

Lemma rd32_be32 z r : 0 <= z < 2 ^ 32 -> rd32 (be32 z ++ r) = z.
Proof. intros Hz. cbn. dlia. Qed.
Lemma rd16_be16 z r : 0 <= z < 2 ^ 16 -> rd16 (be16 z ++ r) = z.
Proof. intros Hz. cbn. dlia. Qed.

Lemma dec32_enc32 ws : Forall (fun w => 0 <= w < 2 ^ 32) ws -> dec32 (enc32 ws) = ws.
Proof.
  induction 1 as [|w ws Hw Hws IH]; [done|]. change (enc32 (w :: ws)) with (be32 w ++ enc32 ws).
  cbn [be32 app dec32]. rewrite IH. f_equal. dlia.
Qed.

Lemma enc32_dec32 bs : (exists k, length bs = 4 * k)%nat ->
  Forall (fun x => 0 <= x < 256) bs -> enc32 (dec32 bs) = bs.
Proof.
  intros [k Hk]. revert bs Hk. induction k as [|k IH]; intros bs Hk Hb.
  { by destruct bs. }
  destruct bs as [|a [|b [|c [|d r]]]]; cbn in Hk; try lia.
  repeat match goal with H : Forall _ (_ :: _) |- _ => apply Forall_cons in H as [? H] end.
  cbn [dec32]. change (enc32 (?w :: ?ws)) with (be32 w ++ enc32 ws).
  rewrite IH by (done || lia). cbn [be32 app]. repeat f_equal; dlia.
Qed.

Lemma length_enc32 ws : length (enc32 ws) = (4 * length ws)%nat.
Proof.
  induction ws as [|w ws IH]; [done|]. change (enc32 (w :: ws)) with (be32 w ++ enc32 ws).
  rewrite length_app, IH. cbn. lia.
Qed.

Lemma length_dec32 bs k : length bs = (4 * k)%nat -> length (dec32 bs) = k.
Proof.
  revert bs. induction k as [|k IH]; intros bs Hk; [by destruct bs|].
  destruct bs as [|a [|b [|c [|d r]]]]; cbn in Hk; try lia. cbn. f_equal. apply IH. lia.
Qed.

Lemma be_bytes32 z : Forall (fun x => 0 <= x < 256) (be32 z).
Proof. repeat constructor; dlia. Qed.
Lemma be_bytes16 z : Forall (fun x => 0 <= x < 256) (be16 z).
Proof. repeat constructor; dlia. Qed.
Lemma enc32_bytes ws : Forall (fun x => 0 <= x < 256) (enc32 ws).
Proof.
  induction ws as [|w ws IH]; [constructor|]. change (enc32 (w :: ws)) with (be32 w ++ enc32 ws).
  apply Forall_app. split; [apply be_bytes32|done].
Qed.
Lemma dec32_range bs : Forall (fun x => 0 <= x < 256) bs ->
  Forall (fun w => 0 <= w < 2 ^ 32) (dec32 bs).
Proof.
  revert bs. fix IH 1. intros [|a [|b [|c [|d r]]]] Hb; cbn [dec32]; try constructor.
  - repeat match goal with H : Forall _ (_ :: _) |- _ => apply Forall_cons in H as [? H] end. lia.
  - apply IH. by do 4 (apply Forall_cons in Hb as [_ Hb]).
Qed.

(** ** Well-formed structures *)

Definition u32_list (n : nat) (ws : list Z) : Prop :=
  length ws = n /\ Forall (fun w => 0 <= w < 2 ^ 32) ws.

Record inode_ok (i : sfs_inode) : Prop := mkInodeOk {
  io_size : 0 <= sfi_size i < 2 ^ 32;
  io_type : 0 <= sfi_type i < 2 ^ 16;
  io_link : 0 <= sfi_linkcount i < 2 ^ 16;
  io_direct : u32_list 15 (sfi_direct i);
  io_indirect : 0 <= sfi_indirect i < 2 ^ 32;
  io_waste : u32_list 110 (sfi_waste i);
}.

Definition block_ok (bs : list Z) : Prop :=
  length bs = 512%nat /\ Forall (fun x => 0 <= x < 256) bs.

Lemma encode_inode_ok i : inode_ok i -> block_ok (encode_inode i).
Proof.
  intros [_ _ _ [Hd _] _ [Hw _]]. split.
  - unfold encode_inode. rewrite !length_app, !length_enc32, Hd, Hw. done.
  - unfold encode_inode. rewrite !Forall_app.
    auto 10 using be_bytes32, be_bytes16, enc32_bytes.
Qed.

Lemma enc32_app a b : enc32 (a ++ b) = enc32 a ++ enc32 b.
Proof. apply bind_app. Qed.

Lemma decode_encode_inode i : inode_ok i -> decode_inode (encode_inode i) = i.
Proof.
  intros [Hs Ht Hl [Hd Hd'] Hi [Hw Hw']]. unfold decode_inode.
  assert (drop 8 (encode_inode i) =
    enc32 (sfi_direct i ++ [sfi_indirect i] ++ sfi_waste i)) as Hdrop.
  { rewrite !enc32_app. unfold enc32 at 2. cbn [mbind list_bind]. rewrite app_nil_r. done. }
  rewrite Hdrop, dec32_enc32 by (apply Forall_app; split; [done|by constructor]).
  rewrite take_app_length' by done.
  rewrite lookup_app_r by lia. rewrite Hd. cbn [lookup list_lookup Nat.sub app default].
  rewrite drop_app_ge by lia. rewrite Hd. cbn [Nat.sub app drop].
  rewrite drop_0. unfold encode_inode. rewrite rd32_be32 by done.
  change (drop 4 (be32 (sfi_size i) ++ ?r)) with r. rewrite rd16_be16 by done.
  change (drop 6 (be32 (sfi_size i) ++ be16 ?t ++ ?r)) with r. rewrite rd16_be16 by done.
  by destruct i.
Qed.

Lemma decode_inode_ok bs : block_ok bs -> inode_ok (decode_inode bs).
Proof.
  intros [Hl Hb]. assert (length (dec32 (drop 8 bs)) = 126%nat) as Hlen.
  { apply length_dec32. rewrite length_drop, Hl. done. }
  pose proof (dec32_range (drop 8 bs) (Forall_drop _ _ _ Hb)) as Hr.
  unfold decode_inode. constructor; cbn [sfi_size sfi_type sfi_linkcount sfi_direct sfi_indirect sfi_waste].
  - do 8 (destruct bs as [|? bs]; [cbn in Hl; lia|]).
    repeat match goal with H : Forall _ (_ :: _) |- _ => apply Forall_cons in H as [? H] end.
    cbn. lia.
  - do 8 (destruct bs as [|? bs]; [cbn in Hl; lia|]).
    repeat match goal with H : Forall _ (_ :: _) |- _ => apply Forall_cons in H as [? H] end.
    cbn. lia.
  - do 8 (destruct bs as [|? bs]; [cbn in Hl; lia|]).
    repeat match goal with H : Forall _ (_ :: _) |- _ => apply Forall_cons in H as [? H] end.
    cbn. lia.
  - split; [rewrite length_take; lia|by apply Forall_take].
  - destruct (dec32 (drop 8 bs) !! 15%nat) as [w|] eqn:E; cbn; [|lia].
    by apply (Forall_lookup_1 _ _ _ _ Hr E).
  - split; [rewrite length_drop; lia|by apply Forall_drop].
Qed.

Record dir_ok (e : sfs_dir) : Prop := mkDirOk {
  do_ino : 0 <= sfd_ino e < 2 ^ 32;
  do_len : length (sfd_name e) = 60%nat;
  do_bytes : Forall (fun x => 0 <= x < 256) (sfd_name e);
}.

Lemma decode_encode_dir e : dir_ok e -> decode_dir (encode_dir e) = e.
Proof.
  intros [Hi Hl Hb]. unfold decode_dir, encode_dir. rewrite rd32_be32 by done.
  change (drop 4 (be32 (sfd_ino e) ++ ?r)) with r. rewrite take_ge by lia. by destruct e.
Qed.

(** ** Properties *)

(** The in-memory and the on-disk form of an inode determine each other:
    an encoded inode fills exactly one block and decodes to itself, and
    whatever a block holds decodes to an inode within its field widths. *)
Theorem inode_roundtrip i (Hi : inode_ok i) :
  block_ok (encode_inode i) /\ decode_inode (encode_inode i) = i /\
  inode_ok (decode_inode (encode_inode i)).
Proof.
  split; [by apply encode_inode_ok|]. split; [by apply decode_encode_inode|].
  by apply decode_inode_ok, encode_inode_ok.
Qed.

(** A media error on the first attempt of a block write is hidden.  The
    driver has already consumed the uio when the error arrives, so the retry
    of [sfs_rwblock] transfers nothing and reports success: [sfs_wblock]
    returns 0 and the block on disk keeps its old contents. *)
Theorem wblock_hides_media_error n h s data fs :
  0 <= s < n -> n < 2 ^ 32 -> length data = 512%nat ->
  let d := mkLhd (mkSim n h (true :: fs)) blank 0 1 0 n LHD_IDLE 0 in
  exists d', sfs_wblock data s d = Done (0, d') /\
    forall t, block d' t = block d t.
Proof.
  intros Hs Hn Hl d. unfold sfs_wblock. 
  pose proof (SFSUIO_whole data s UIO_WRITE ltac:(lia) Hl) as Hw.
  set (u := SFSUIO data s UIO_WRITE) in *.
  destruct (umove_spec blank u (whole_sane _ _ _ Hw)) as (Hm & Hres & Hoff & _);
    [done|]. change (Z.of_nat (length blank)) with 512 in *.
  set (u1 := took u 512 blank) in *. unfold sfs_rwblock. cbn [rwblock_loop].
  set (d1 := mkLhd (mkSim n h fs) (filled u 512 blank) EIO 1 0 n 0 s).
  assert (d_io u d = Done (EIO, u1, d1)) as H1.
  { unfold d_io, lhd_device, lhd_d_io.
    rewrite (lhd_io_whole UIO_WRITE) with (b := s) by (cbn; done || lia).
    lhd_run. rewrite (wh_rw _ _ _ Hw). cbn -[u]. rewrite Hm. cbn -[u]. unfold sim_io.
    rewrite (proj2 (Z.ltb_ge _ _)), (proj2 (Z.leb_gt _ _)) by (cbn; lia). done. }
  assert (d_io u1 d1 = Done (0, u1, d1)) as H2.
  { unfold d_io, lhd_device, lhd_d_io, lhd_io, LHD_SECTSIZE. rewrite Hres, Hoff.
    cbn [u SFSUIO u_resid u_off]. unfold SFS_BLOCKSIZE.
    replace (s * 512 + 512) with ((s + 1) * 512) by lia.
    rewrite Z.div_mul, Z.mod_mul by lia. mrun. change (512 - 512) with 0. cbn -[uwrap].
    change (0 mod 512) with 0. change (0 / 512) with 0. cbn -[uwrap Z.ltb].
    assert (u32 (s + 1) = s + 1) as -> by (apply uwrap_small; lia).
    rewrite Z.add_0_r, uwrap_small by lia.
    by rewrite (proj2 (Z.ltb_ge _ _)) by lia. }
  exists d1. mrun. rewrite H1. cbn -[d_io]. rewrite H2. done.
Qed.

(** On a healthy device a written block is read back: [sfs_wblock]
    followed by [sfs_rblock] of the same block returns the data written, of
    any other block what that block held before, and both report success on
    the first try. *)
Theorem wblock_rblock {D} `{!BlockDevice D} (d : D) b c data buf :
  healthy d -> 0 <= b < d_blocks d -> 0 <= c < d_blocks d -> d_blocks d <= 2 ^ 32 ->
  block_ok data -> length buf = 512%nat ->
  exists d' d'', sfs_wblock data b d = Done (0, d') /\
    sfs_rblock buf c d' = Done ((0, if c =? b then data else block d c), d'') /\
    healthy d''.
Proof.
  intros Hh Hb Hc Hd [Hl Hby] Hbuf.
  destruct (wblock_ok data b d Hh Hb Hd Hl Hby) as (d' & Hw & Hh' & Hn & Hbl).
  destruct (rblock_ok buf c d') as (d'' & Hr & Hh'' & _); [done|lia|lia|done|].
  exists d', d''. split; [done|]. by rewrite <- Hbl.
Qed.

Definition sample_inode : sfs_inode :=
  mkInode 700 SFS_TYPE_FILE 1 ([9; 8] ++ replicate 13 0) 77 (replicate 110 0).

Lemma inode_roundtrip_witness :
  inode_ok sample_inode /\ decode_inode (encode_inode sample_inode) = sample_inode.
Proof.
  assert (inode_ok sample_inode) as H.
  { unfold sample_inode.
    constructor; cbn [sfi_size sfi_type sfi_linkcount sfi_direct sfi_indirect sfi_waste];
      unfold SFS_TYPE_FILE; try lia; (split; [done|]); [apply Forall_app; split|].
    - repeat constructor; lia.
    - apply Forall_replicate. lia.
    - apply Forall_replicate. lia. }
  split; [exact H|]. apply (inode_roundtrip sample_inode H).
Defined.

Lemma wblock_hides_media_error_witness : exists d',
  sfs_wblock (replicate 512 1) 3 (sim_disk 10 [true]) = Done (0, d') /\
  block d' 3 = blank.
Proof.
  destruct (wblock_hides_media_error 10 ∅ 3 (replicate 512 1) []) as (d' & Hr & Hb);
    [lia|lia|by rewrite length_replicate|].
  exists d'. split; [exact Hr|]. by rewrite Hb.
Defined.

Lemma wblock_rblock_witness : exists d' d'',
  sfs_wblock (replicate 512 1) 3 (sim_disk 10 []) = Done (0, d') /\
  sfs_rblock blank 3 d' = Done ((0, replicate 512 1), d'') /\ healthy d''.
Proof.
  apply (wblock_rblock (sim_disk 10 []) 3 3 (replicate 512 1) blank);
    [apply sim_disk_idle; lia|cbn; lia|cbn; lia|cbn; lia| |done].
  split; [done|]. apply Forall_replicate. lia.
Defined.
End SfsDisk.
