(* ===== verification/Sfs.v ===== *)
(** * kern/fs/sfs/sfs_vnode.c: SFS state, block allocation, block mapping

    The state of a mounted SFS ([struct sfs_fs]) and of its vnodes, the
    allocation of disk blocks with the free map, and [sfs_bmap], which maps a
    block of a file to a block of the disk and allocates it on demand. *)

From S2P Require Import Prelude Bitmap Arrays Uio Stream Lhd SfsDisk.
Import Stream Lhd SfsDisk.

Module Sfs.

(** [struct sfs_vnode] with the fields of [struct vnode] the code uses;
    [vn_isdir] says which of the two operation tables [vn_ops] is. *)
Record svnode : Type := mkSv {
  vn_refcount : Z;
  vn_opencount : Z;
  vn_isdir : bool;
  sv_i : sfs_inode;
  sv_ino : Z;
  sv_dirty : bool;
}.

(** [struct sfs_buffer_cache] *)
Record cslot : Type := mkSlot {
  cache : list Z;
  inode_no : Z;
  block_no : Z;
}.

(** The locks of the file system and of its vnodes. *)
Inductive lockid : Set :=
  | BmapLock
  | BcacheLock
  | CreateLock (v : Z)
  | CountLock (v : Z).
#[export] Instance lockid_eq_dec : EqDecision lockid.
Proof. solve_decision. Defined.

(** What the kernel around SFS supplies: the depth of [vfs_biglock] and the
    other locks held by the running thread, the coming results of [random]
    and of [kmalloc], and the next unused vnode address. *)
Record env : Type := mkEnv {
  biglock_depth : Z;
  held : list lockid;
  rng : list Z;
  mem_ok : list bool;
  fresh : Z;
}.

Record fs (D : Type) : Type := mkFs {
  sfs_device : D;
  super : sfs_super;
  sfs_superdirty : bool;
  sfs_freemap : Bitmap.bitmap;
  sfs_freemapdirty : bool;
  sfs_vnodes : Arrays.array Z;
  vheap : gmap Z svnode;
  sfs_rcache : list cslot;
  ker : env;
}.
Arguments mkFs {D} _ _ _ _ _ _ _ _ _.
Arguments sfs_device {D} _.
Arguments super {D} _.
Arguments sfs_superdirty {D} _.
Arguments sfs_freemap {D} _.
Arguments sfs_freemapdirty {D} _.
Arguments sfs_vnodes {D} _.
Arguments vheap {D} _.
Arguments sfs_rcache {D} _.
Arguments ker {D} _.

Section state.
Context {D : Type}.
Implicit Type s : fs D.

Definition with_device d s : fs D := mkFs d (super s) (sfs_superdirty s) (sfs_freemap s)
  (sfs_freemapdirty s) (sfs_vnodes s) (vheap s) (sfs_rcache s) (ker s).
Definition with_super sb dirty s : fs D := mkFs (sfs_device s) sb dirty (sfs_freemap s)
  (sfs_freemapdirty s) (sfs_vnodes s) (vheap s) (sfs_rcache s) (ker s).
Definition with_freemap b dirty s : fs D := mkFs (sfs_device s) (super s) (sfs_superdirty s) b
  dirty (sfs_vnodes s) (vheap s) (sfs_rcache s) (ker s).
Definition with_vnodes a s : fs D := mkFs (sfs_device s) (super s) (sfs_superdirty s)
  (sfs_freemap s) (sfs_freemapdirty s) a (vheap s) (sfs_rcache s) (ker s).
Definition with_vheap h s : fs D := mkFs (sfs_device s) (super s) (sfs_superdirty s)
  (sfs_freemap s) (sfs_freemapdirty s) (sfs_vnodes s) h (sfs_rcache s) (ker s).
Definition with_rcache c s : fs D := mkFs (sfs_device s) (super s) (sfs_superdirty s)
  (sfs_freemap s) (sfs_freemapdirty s) (sfs_vnodes s) (vheap s) c (ker s).
Definition with_ker e s : fs D := mkFs (sfs_device s) (super s) (sfs_superdirty s)
  (sfs_freemap s) (sfs_freemapdirty s) (sfs_vnodes s) (vheap s) (sfs_rcache s) e.

(** Code that only touches the device, or only the free map. *)
Definition on_device {A} (m : M D A) : M (fs D) A := fun s =>
  match m (sfs_device s) with
  | Done (a, d) => Done (a, with_device d s)
  | Stop f => Stop f
  end.

(** Access to a vnode by its address. *)
Definition vnode (v : Z) : M (fs D) svnode := fun s =>
  match vheap s !! v with
  | Some sv => Done (sv, s)
  | None => Stop BadAccess
  end.
Definition put_vnode (v : Z) (sv : svnode) : M (fs D) unit :=
  mmodify (fun s => with_vheap (<[v := sv]> (vheap s)) s).

(** Assignment to the inode and the dirty flag. *)
Definition set_inode (i : sfs_inode) (dirty : bool) (sv : svnode) : svnode :=
  mkSv (vn_refcount sv) (vn_opencount sv) (vn_isdir sv) i (sv_ino sv) dirty.
Definition set_refcount (n : Z) (sv : svnode) : svnode :=
  mkSv n (vn_opencount sv) (vn_isdir sv) (sv_i sv) (sv_ino sv) (sv_dirty sv).
Definition set_opencount (n : Z) (sv : svnode) : svnode :=
  mkSv (vn_refcount sv) n (vn_isdir sv) (sv_i sv) (sv_ino sv) (sv_dirty sv).

Definition set_size (n : Z) (i : sfs_inode) : sfs_inode :=
  mkInode n (sfi_type i) (sfi_linkcount i) (sfi_direct i) (sfi_indirect i) (sfi_waste i).
Definition set_type (t : Z) (i : sfs_inode) : sfs_inode :=
  mkInode (sfi_size i) t (sfi_linkcount i) (sfi_direct i) (sfi_indirect i) (sfi_waste i).
Definition set_linkcount (n : Z) (i : sfs_inode) : sfs_inode :=
  mkInode (sfi_size i) (sfi_type i) n (sfi_direct i) (sfi_indirect i) (sfi_waste i).
Definition set_direct (k b : Z) (i : sfs_inode) : sfs_inode :=
  mkInode (sfi_size i) (sfi_type i) (sfi_linkcount i) (<[Z.to_nat k := b]> (sfi_direct i))
    (sfi_indirect i) (sfi_waste i).
Definition set_indirect (b : Z) (i : sfs_inode) : sfs_inode :=
  mkInode (sfi_size i) (sfi_type i) (sfi_linkcount i) (sfi_direct i) b (sfi_waste i).

(** ** Locks of the running thread *)

Definition with_depth (n : Z) (e : env) : env :=
  mkEnv n (held e) (rng e) (mem_ok e) (fresh e).
Definition with_held (l : list lockid) (e : env) : env :=
  mkEnv (biglock_depth e) l (rng e) (mem_ok e) (fresh e).

Definition vfs_biglock_acquire : M (fs D) unit :=
  mmodify (fun s => with_ker (with_depth (biglock_depth (ker s) + 1) (ker s)) s).
Definition vfs_biglock_release : M (fs D) unit :=
  d ← mgets (fun s => biglock_depth (ker s));
  _ ← kassert (0 <? d);
  mmodify (fun s => with_ker (with_depth (d - 1) (ker s)) s).

(** [lock_acquire] asserts that the caller does not hold the lock yet;
    [lock_release] of this kernel does not check its owner. *)
Definition lock_acquire (l : lockid) : M (fs D) unit :=
  h ← mgets (fun s => held (ker s));
  _ ← kassert (bool_decide (l ∉ h));
  mmodify (fun s => with_ker (with_held (l :: h) (ker s)) s).
Definition lock_release (l : lockid) : M (fs D) unit :=
  mmodify (fun s => with_ker (with_held (filter (fun k => k <> l) (held (ker s))) (ker s)) s).

(** [kmalloc] and [random]. *)
Definition kmalloc : M (fs D) bool :=
  ok ← mgets (fun s => mem_ok (ker s));
  _ ← mmodify (fun s => with_ker
        (mkEnv (biglock_depth (ker s)) (held (ker s)) (rng (ker s)) (tail ok) (fresh (ker s))) s);
  mret (default true (head ok)).
Definition random : M (fs D) Z :=
  r ← mgets (fun s => rng (ker s));
  _ ← mmodify (fun s => with_ker
        (mkEnv (biglock_depth (ker s)) (held (ker s)) (tail r) (mem_ok (ker s)) (fresh (ker s))) s);
  mret (u32 (default 0 (head r))).

(** ** Locks around an operation *)

Lemma with_ker_id s : with_ker (ker s) s = s.
Proof. by destruct s. Qed.
Lemma with_depth_id e : with_depth (biglock_depth e) e = e.
Proof. by destruct e. Qed.

Definition locked s : fs D := with_ker (with_depth (biglock_depth (ker s) + 1) (ker s)) s.

Lemma biglock_acquire_run s : vfs_biglock_acquire s = Done (tt, locked s).
Proof. done. Qed.
Lemma biglock_release_run s e : 0 <= biglock_depth e ->
  ker s = with_depth (biglock_depth e + 1) e -> vfs_biglock_release s = Done (tt, with_ker e s).
Proof.
  intros He Hk. unfold vfs_biglock_release. mrun. rewrite Hk. cbn.
  rewrite (proj2 (Z.ltb_lt _ _)) by lia. cbn. unfold with_depth. rewrite Hk. cbn.
  replace (biglock_depth e + 1 - 1) with (biglock_depth e) by lia. by destruct e.
Qed.

Lemma filter_other l (h : list lockid) : l ∉ h -> filter (fun k => k <> l) (l :: h) = h.
Proof.
  intros Hl. rewrite filter_cons_False by (intros H; by apply H).
  induction h as [|k h IH]; [done|]. apply not_elem_of_cons in Hl as [Hk Hl].
  rewrite filter_cons_True by done. by rewrite IH.
Qed.

Lemma lock_acquire_run l s : l ∉ held (ker s) ->
  lock_acquire l s = Done (tt, with_ker (with_held (l :: held (ker s)) (ker s)) s).
Proof. intros Hl. unfold lock_acquire. mrun. by rewrite bool_decide_true. Qed.
Lemma lock_release_run l s e : l ∉ held e -> ker s = with_held (l :: held e) e ->
  lock_release l s = Done (tt, with_ker e s).
Proof.
  intros Hl Hk. unfold lock_release. mrun. rewrite Hk. cbn [held with_held].
  rewrite filter_other by done. by destruct e.
Qed.

Lemma lock_pair l s : l ∉ held (ker s) ->
  exists s1, lock_acquire l s = Done (tt, s1) /\ lock_release l s1 = Done (tt, s) /\
    vheap s1 = vheap s.
Proof.
  intros Hl. eexists. split; [|split].
  - unfold lock_acquire. mrun. rewrite bool_decide_true by done. done.
  - unfold lock_release. mrun. cbn [ker with_ker held with_held]. rewrite filter_other by done.
    by destruct s as [???????? []].
  - done.
Qed.
End state.

Section alloc.
Context {D : Type} `{!BlockDevice D}.
Implicit Type s : fs D.

Definition zeros : list Z := replicate 512 0.
#[global] Arguments zeros : simpl never.

Definition sfs_clearblock (b : Z) : M (fs D) Z := on_device (sfs_wblock zeros b).

Definition sfs_sync_inode (v : Z) : M (fs D) Z :=
  sv ← vnode v;
  if sv_dirty sv then
    result ← on_device (sfs_wblock (encode_inode (sv_i sv)) (sv_ino sv));
    if negb (result =? 0) then mret result
    else
      _ ← put_vnode v (set_inode (sv_i sv) false sv);
      mret 0
  else mret 0.

Definition bitmap_alloc : M (fs D) (result Z) := fun s =>
  match Bitmap.bitmap_alloc (sfs_freemap s) with
  | Done (r, b) => Done (r, with_freemap b (sfs_freemapdirty s) s)
  | Stop f => Stop f
  end.

Definition sfs_balloc : M (fs D) (result Z) :=
  diskblock ←? bitmap_alloc;
  _ ← mmodify (fun s => with_freemap (sfs_freemap s) true s);
  nblocks ← mgets (fun s => sp_nblocks (super s));
  if nblocks <=? diskblock then mstop KPanic
  else
    _ ←? check (sfs_clearblock diskblock);
    mret (Ok diskblock).

Definition sfs_bfree (b : Z) : M (fs D) unit := fun s =>
  match Bitmap.bitmap_unmark (sfs_freemap s) b with
  | Done bm => Done (tt, with_freemap bm true s)
  | Stop f => Stop f
  end.

Definition sfs_bused (b : Z) : M (fs D) bool := fun s =>
  if sp_nblocks (super s) <=? b then Stop KPanic
  else
    match Bitmap.bitmap_isset (sfs_freemap s) b with
    | Done x => Done (negb (x =? 0), s)
    | Stop f => Stop f
    end.

(** [if (block != 0 && !sfs_bused(sfs, block)) panic(...); *diskblock = block;] *)
Definition hand_back (block : Z) : M (fs D) (result Z) :=
  if block =? 0 then mret (Ok block)
  else
    used ← sfs_bused block;
    if (used : bool) then mret (Ok block) else mstop KPanic.

(** An [unsigned] array element. *)
Definition elt (l : list Z) (i : Z) : M (fs D) Z :=
  match l !! Z.to_nat i with
  | Some x => mret x
  | None => mstop BadAccess
  end.

Definition bmap_direct (v fileblock : Z) (doalloc : bool) : M (fs D) (result Z) :=
  sv ← vnode v;
  block ← elt (sfi_direct (sv_i sv)) fileblock;
  if (block =? 0) && doalloc then
    block ←? sfs_balloc;
    _ ← put_vnode v (set_inode (set_direct fileblock block (sv_i sv)) true sv);
    hand_back block
  else hand_back block.

(** The number of the indirect block and its contents, [idbuf]; [idbuf] is a
    static array, so its former contents do not matter. *)
Definition bmap_idblock (v : Z) : M (fs D) (result (Z * list Z)) :=
  sv ← vnode v;
  if sfi_indirect (sv_i sv) =? 0 then
    idblock ←? sfs_balloc;
    _ ← put_vnode v (set_inode (set_indirect idblock (sv_i sv)) true sv);
    mret (Ok (idblock, replicate 128 0))
  else
    '(result, bs) ← on_device (sfs_rblock zeros (sfi_indirect (sv_i sv)));
    if negb (result =? 0) then mret (Err result)
    else mret (Ok (sfi_indirect (sv_i sv), dec32 bs)).

Definition bmap_indirect (v idoff : Z) (doalloc : bool) : M (fs D) (result Z) :=
  sv ← vnode v;
  if (sfi_indirect (sv_i sv) =? 0) && negb doalloc then mret (Ok 0)
  else
    '(idblock, idbuf) ←? bmap_idblock v;
    block ← elt idbuf idoff;
    if (block =? 0) && doalloc then
      block ←? sfs_balloc;
      let idbuf := <[Z.to_nat idoff := block]> idbuf in
      _ ←? check (on_device (sfs_wblock (enc32 idbuf) idblock));
      hand_back block
    else hand_back block.

Definition sfs_bmap (v fileblock : Z) (doalloc : bool) : M (fs D) (result Z) :=
  if fileblock <? SFS_NDIRECT then bmap_direct v fileblock doalloc
  else
    let fileblock := fileblock - SFS_NDIRECT in
    let idnum := fileblock / SFS_DBPERIDB in
    let idoff := fileblock mod SFS_DBPERIDB in
    if 0 <? idnum then mret (Err EFBIG)
    else bmap_indirect v idoff doalloc.

(** ** The state of a consistent file system *)

Definition marked s (b : Z) : bool := Bitmap.bit (sfs_freemap s) b.
Definition content s (b : Z) : list Z := block (sfs_device s) b.

Record fs_ok s : Prop := mkOk {
  ok_dev : healthy (sfs_device s);
  ok_blocks : 0 < sp_nblocks (super s) <= d_blocks (sfs_device s);
  ok_dmax : d_blocks (sfs_device s) <= 2 ^ 32;
  ok_map : Bitmap.wf (sfs_freemap s);
  ok_nbits : sp_nblocks (super s) <= Bitmap.nbits (sfs_freemap s);
  ok_pad : forall b, sp_nblocks (super s) <= b < Bitmap.nbits (sfs_freemap s) -> marked s b = true;
  ok_super : marked s 0 = true;
}.

(** [s'] differs from [s] in the free map and the device only. *)
Definition same_files s s' : Prop :=
  super s' = super s /\ sfs_superdirty s' = sfs_superdirty s /\
  sfs_vnodes s' = sfs_vnodes s /\ vheap s' = vheap s /\
  sfs_rcache s' = sfs_rcache s /\ ker s' = ker s.

Lemma same_files_refl s : same_files s s.
Proof. done. Qed.
Lemma same_files_trans s1 s2 s3 : same_files s1 s2 -> same_files s2 s3 -> same_files s1 s3.
Proof. unfold same_files. naive_solver congruence. Qed.

Lemma zeros_ok : block_ok zeros.
Proof. split; [done|]. apply Forall_replicate. lia. Qed.

Lemma on_device_run {A} (m : M D A) s a d :
  m (sfs_device s) = Done (a, d) -> on_device m s = Done (a, with_device d s).
Proof. intros H. unfold on_device. by rewrite H. Qed.

(** Reading and writing blocks of the file system. *)
Lemma fs_rblock s b : fs_ok s -> 0 <= b < sp_nblocks (super s) ->
  exists s', on_device (sfs_rblock zeros b) s = Done ((0, content s b), s') /\
    fs_ok s' /\ same_files s s' /\ sfs_freemap s' = sfs_freemap s /\
    sfs_freemapdirty s' = sfs_freemapdirty s /\ forall c, content s' c = content s c.
Proof.
  intros [] Hb. destruct (rblock_ok zeros b (sfs_device s)) as (d' & Hr & Hh & Hn & Hc);
    [done|lia|done|done|].
  exists (with_device d' s). rewrite (on_device_run _ _ _ _ Hr). split; [done|].
  split; [constructor; cbn; try done; by rewrite ?Hn|]. done.
Qed.

Lemma fs_wblock s b data : fs_ok s -> 0 <= b < sp_nblocks (super s) -> block_ok data ->
  exists s', on_device (sfs_wblock data b) s = Done (0, s') /\
    fs_ok s' /\ same_files s s' /\ sfs_freemap s' = sfs_freemap s /\
    sfs_freemapdirty s' = sfs_freemapdirty s /\
    forall c, content s' c = if c =? b then data else content s c.
Proof.
  intros [] Hb [Hl Hby].
  destruct (wblock_ok data b (sfs_device s)) as (d' & Hr & Hh & Hn & Hc); [done|lia|done..|].
  exists (with_device d' s). rewrite (on_device_run _ _ _ _ Hr). split; [done|].
  split; [constructor; cbn; try done; by rewrite ?Hn|]. done.
Qed.

Lemma with_freemap_ok s bm dirty i x : fs_ok s -> Bitmap.wf bm ->
  Bitmap.updates (sfs_freemap s) i x bm -> 0 < i < sp_nblocks (super s) ->
  fs_ok (with_freemap bm dirty s).
Proof.
  intros [] Hwf (Hn & _ & Hu) Hi. constructor; cbn; try done.
  - lia.
  - intros b Hb. unfold marked. cbn. rewrite Hu by lia. rewrite (proj2 (Z.eqb_neq _ _)) by lia.
    apply ok_pad0. lia.
  - unfold marked. cbn. rewrite Hu by lia. by rewrite (proj2 (Z.eqb_neq _ _)) by lia.
Qed.

(** What [sfs_balloc] does: a free block is marked and cleared on disk. *)
Definition allocated s (b : Z) s' : Prop :=
  0 < b < sp_nblocks (super s) /\ marked s b = false /\
  (forall c, 0 <= c -> marked s' c = (c =? b) || marked s c) /\
  (forall c, content s' c = if c =? b then zeros else content s c) /\
  sfs_freemapdirty s' = true /\ same_files s s' /\ fs_ok s'.

Lemma balloc_spec s : fs_ok s ->
  exists r s', sfs_balloc s = Done (r, s') /\
  match r with
  | Ok b => allocated s b s'
  | Err e => e = ENOSPC /\ s' = s /\ forall b, 0 <= b < sp_nblocks (super s) -> marked s b = true
  end.
Proof.
  intros Hok. pose proof Hok as [Hdev Hbl Hdm Hmap Hnb Hpad Hsup].
  destruct (Bitmap.bitmap_alloc_spec _ Hmap) as (r & bm & Hr & Hp).
  assert (bitmap_alloc s = Done (r, with_freemap bm (sfs_freemapdirty s) s)) as Hba.
  { unfold bitmap_alloc. by rewrite Hr. }
  destruct r as [e|b]; cbn in Hp.
  - destruct Hp as (-> & -> & Hfull). exists (Err ENOSPC), s.
    unfold sfs_balloc. rewrite (ebind_Err _ _ _ _ _ Hba). split; [by destruct s|].
    repeat split. intros b Hb. apply Hfull. lia.
  - destruct Hp as (Hb & Hfree & Hlow & Hu & Hwf).
    assert (0 < b < sp_nblocks (super s)) as Hb'.
    { split.
      - destruct (decide (b = 0)) as [->|]; [unfold marked in Hsup; congruence|lia].
      - destruct (decide (b < sp_nblocks (super s))); [done|].
        unfold marked in Hpad. rewrite Hpad in Hfree by lia. done. }
    pose proof (with_freemap_ok s bm true b true Hok Hwf Hu Hb') as Hok1.
    destruct (fs_wblock _ b zeros Hok1) as (s' & Hw & Hok' & Hsf & Hfm & Hfd & Hc);
      [cbn; lia|apply zeros_ok|].
    exists (Ok b), s'. unfold sfs_balloc. rewrite (ebind_Ok _ _ _ _ _ Hba). mrun.
    cbn [super with_freemap sfs_freemap]. rewrite (proj2 (Z.leb_gt _ _)) by lia.
    unfold ebind, check, sfs_clearblock. mrun. setoid_rewrite Hw. split; [done|].
    split; [done|]. split; [done|]. split; [|split; [done|split; [done|split; [|done]]]].
    + intros c Hc0. unfold marked. rewrite Hfm. cbn. destruct Hu as (_ & _ & Hu).
      rewrite Hu by done. by destruct (c =? b).
    + done.
Qed.

(** ** The block pointers of an inode *)

Definition entries s (i : sfs_inode) : list Z :=
  if sfi_indirect i =? 0 then [] else dec32 (content s (sfi_indirect i)).

(** Pointers 0 to 14 are direct, 15 to 142 in the indirect block, and 143 is
    the indirect block itself. *)
Definition ptr s (i : sfs_inode) (k : Z) : Z :=
  if k <? 15 then default 0 (sfi_direct i !! Z.to_nat k)
  else if k <? 143 then default 0 (entries s i !! Z.to_nat (k - 15))
  else if k =? 143 then sfi_indirect i else 0.

(** The pointers lead to distinct blocks that are marked in use. *)
Record valid s (i : sfs_inode) : Prop := mkValid {
  va_inode : inode_ok i;
  va_marked : forall k, 0 <= k -> ptr s i k <> 0 ->
    0 < ptr s i k < sp_nblocks (super s) /\ marked s (ptr s i k) = true;
  va_inj : forall j k, 0 <= j -> 0 <= k -> ptr s i j = ptr s i k -> ptr s i j <> 0 -> j = k;
}.

(** What every call of [sfs_bmap] guarantees, failing calls included: marked
    blocks stay marked, their contents and the pointers that exist stay, and
    a new pointer leads to a block that was free. *)
Record extends s (i : sfs_inode) s' (i' : sfs_inode) : Prop := mkExtends {
  ex_ok : fs_ok s';
  ex_valid : valid s' i';
  ex_super : super s' = super s;
  ex_fields : sfi_size i' = sfi_size i /\ sfi_type i' = sfi_type i /\
    sfi_linkcount i' = sfi_linkcount i;
  ex_marked : forall c, 0 <= c -> marked s c = true -> marked s' c = true;
  ex_content : forall c, 0 <= c -> marked s c = true -> c <> sfi_indirect i ->
    content s' c = content s c;
  ex_old : forall k, 0 <= k -> ptr s i k <> 0 -> ptr s' i' k = ptr s i k;
  ex_new : forall k, 0 <= k -> ptr s i k = 0 -> ptr s' i' k <> 0 ->
    marked s (ptr s' i' k) = false;
}.

Lemma ptr_143 s i : ptr s i 143 = sfi_indirect i.
Proof. done. Qed.

Lemma extends_refl s i : fs_ok s -> valid s i -> extends s i s i.
Proof. intros. by constructor. Qed.

Lemma extends_indirect s i s' i' : extends s i s' i' ->
  sfi_indirect i' = sfi_indirect i \/
  (sfi_indirect i = 0 /\ marked s (sfi_indirect i') = false).
Proof.
  intros He. pose proof (ptr_143 s i) as P. pose proof (ptr_143 s' i') as P'.
  destruct (decide (ptr s i 143 = 0)) as [E|E].
  - destruct (decide (ptr s' i' 143 = 0)) as [E'|E']; [left; congruence|].
    right. split; [congruence|]. rewrite <- P'. by apply (ex_new _ _ _ _ He).
  - left. rewrite <- P, <- P'. by apply (ex_old _ _ _ _ He).
Qed.

Lemma extends_trans s1 i1 s2 i2 s3 i3 :
  extends s1 i1 s2 i2 -> extends s2 i2 s3 i3 -> extends s1 i1 s3 i3.
Proof.
  intros H1 H2.
  assert (forall c, marked s1 c = true -> c <> sfi_indirect i1 -> c <> sfi_indirect i2) as Hind.
  { intros c Hm Hne. destruct (extends_indirect _ _ _ _ H1) as [->|[_ Hf]]; [done|].
    intros ->. congruence. }
  destruct (ex_fields _ _ _ _ H1) as (? & ? & ?), (ex_fields _ _ _ _ H2) as (? & ? & ?).
  constructor.
  - apply H2.
  - apply H2.
  - rewrite (ex_super _ _ _ _ H2). apply H1.
  - repeat split; congruence.
  - intros c Hc Hm. by apply (ex_marked _ _ _ _ H2), (ex_marked _ _ _ _ H1).
  - intros c Hc Hm Hne. rewrite (ex_content _ _ _ _ H2); [by apply (ex_content _ _ _ _ H1)|done|..].
    + by apply (ex_marked _ _ _ _ H1).
    + by apply Hind.
  - intros k Hk Hp. pose proof (ex_old _ _ _ _ H1 k Hk Hp) as E.
    rewrite (ex_old _ _ _ _ H2); [done|done|congruence].
  - intros k Hk Hp Hp3. destruct (decide (ptr s2 i2 k = 0)) as [E|E].
    + pose proof (ex_new _ _ _ _ H2 k Hk E Hp3) as Hm.
      destruct (marked s1 (ptr s3 i3 k)) eqn:E1; [|done].
      destruct (va_marked _ _ (ex_valid _ _ _ _ H2) k Hk Hp3).
      rewrite (ex_marked _ _ _ _ H1) in Hm; [done|lia|done].
    + rewrite (ex_old _ _ _ _ H2 k Hk E) in *. by apply (ex_new _ _ _ _ H1).
Qed.

(** One new pointer, to the block [b] that was just allocated. *)
Lemma extends_one s i s' i' b j : fs_ok s' -> valid s i -> inode_ok i' ->
  super s' = super s -> sfi_size i' = sfi_size i -> sfi_type i' = sfi_type i ->
  sfi_linkcount i' = sfi_linkcount i ->
  0 < b < sp_nblocks (super s) -> marked s b = false ->
  (forall c, 0 <= c -> marked s' c = (c =? b) || marked s c) ->
  (forall c, 0 <= c -> marked s c = true -> c <> sfi_indirect i -> content s' c = content s c) ->
  0 <= j -> ptr s i j = 0 -> (forall k, 0 <= k -> ptr s' i' k = if k =? j then b else ptr s i k) ->
  extends s i s' i'.
Proof.
  intros Hok Hv Hi' Hsup ? ? ? Hb Hfree Hm Hc Hj Hpj Hp.
  assert (forall k, 0 <= k -> ptr s i k <> b) as Hnb.
  { intros k Hk E. destruct (va_marked _ _ Hv k Hk) as [_ Hmk]; [lia|]. congruence. }
  constructor; try done; [constructor|..].
  - done.
  - intros k Hk. rewrite Hp, Hsup by done. destruct (Z.eqb_spec k j) as [->|].
    + rewrite Hm, Z.eqb_refl by lia. done.
    + intros Hne. destruct (va_marked _ _ Hv k Hk Hne) as [Hr Hmk].
      rewrite Hm, Hmk by lia. by rewrite orb_true_r.
  - intros k l Hk Hl. rewrite !Hp by done.
    destruct (Z.eqb_spec k j) as [->|], (Z.eqb_spec l j) as [->|]; intros E Hne.
    + done.
    + by destruct (Hnb l Hl).
    + by destruct (Hnb k Hk).
    + by apply (va_inj _ _ Hv).
  - intros c Hc0 Hmc. rewrite Hm, Hmc by done. apply orb_true_r.
  - intros k Hk Hne. rewrite Hp by done. destruct (Z.eqb_spec k j) as [->|]; [done|done].
  - intros k Hk Hz. rewrite Hp by done. destruct (Z.eqb_spec k j) as [->|]; congruence.
Qed.

(** ** [sfs_bmap] *)

Lemma hand_back_ok s b : fs_ok s ->
  (b <> 0 -> 0 < b < sp_nblocks (super s) /\ marked s b = true) ->
  hand_back b s = Done (Ok b, s).
Proof.
  intros Hok Hb. unfold hand_back. destruct (Z.eqb_spec b 0) as [->|Hne]; [done|].
  destruct (Hb Hne) as [Hr Hm]. unfold sfs_bused. mrun.
  rewrite (proj2 (Z.leb_gt _ _)) by lia. pose proof (ok_nbits _ Hok).
  destruct (Bitmap.bitmap_isset_spec (sfs_freemap s) b (ok_map _ Hok) ltac:(lia)) as (x & -> & Hx).
  fold (marked s b) in Hx. rewrite Hx, Hm. done.
Qed.

(** The other fields of the file system. *)
Definition same_rest s s' : Prop :=
  super s' = super s /\ sfs_superdirty s' = sfs_superdirty s /\
  sfs_vnodes s' = sfs_vnodes s /\ sfs_rcache s' = sfs_rcache s /\ ker s' = ker s.

(** An inode that was changed is marked to be written back. *)
Definition marks (sv : svnode) (i' : sfs_inode) (dirty : bool) : Prop :=
  dirty = true \/ (i' = sv_i sv /\ dirty = sv_dirty sv).
Lemma marks_same sv : marks sv (sv_i sv) (sv_dirty sv).
Proof. by right. Qed.
Lemma marks_new sv i' : marks sv i' true.
Proof. by left. Qed.

(** What [sfs_bmap] does on block [fb] of the vnode [v]. *)
Definition bmap_post s (v : Z) (sv : svnode) (fb : Z) (doalloc : bool) (r : result Z) s' : Prop :=
  exists i' dirty, marks sv i' dirty /\ vheap s' = <[v := set_inode i' dirty sv]> (vheap s) /\ same_rest s s' /\
  extends s (sv_i sv) s' i' /\
  match r with
  | Ok b => fb < 143 /\ ptr s' i' fb = b /\ (doalloc = true -> b <> 0) /\
      (forall k, 0 <= k < 143 -> k <> fb -> ptr s' i' k = ptr s (sv_i sv) k) /\
      if decide (ptr s (sv_i sv) fb = 0 /\ doalloc = true)
      then marked s b = false /\ content s' b = zeros
      else b = ptr s (sv_i sv) fb /\ i' = sv_i sv /\ dirty = sv_dirty sv /\
        sfs_freemap s' = sfs_freemap s /\ forall c, content s' c = content s c
  | Err e => (e = EFBIG /\ 143 <= fb /\ s' = s) \/
      (e = ENOSPC /\ doalloc = true /\ ptr s (sv_i sv) fb = 0 /\
       forall k, 0 <= k < 143 -> ptr s' i' k = ptr s (sv_i sv) k)
  end.

Lemma set_inode_id sv : set_inode (sv_i sv) (sv_dirty sv) sv = sv.
Proof. by destruct sv. Qed.

Lemma bmap_same s v sv fb doalloc s' :
  fs_ok s -> valid s (sv_i sv) -> vheap s !! v = Some sv -> 0 <= fb < 143 ->
  fs_ok s' -> same_files s s' -> sfs_freemap s' = sfs_freemap s ->
  (forall c, content s' c = content s c) ->
  ~ (ptr s (sv_i sv) fb = 0 /\ doalloc = true) ->
  hand_back (ptr s (sv_i sv) fb) s' = Done (Ok (ptr s (sv_i sv) fb), s') /\
  bmap_post s v sv fb doalloc (Ok (ptr s (sv_i sv) fb)) s'.
Proof.
  intros Hok Hv Hsv Hfb Hok' Hsf Hfm Hc Hn. destruct Hsf as (E1 & E2 & E3 & E4 & E5 & E6).
  assert (forall i k, ptr s' i k = ptr s i k) as Hp.
  { intros i k. unfold ptr, entries. by rewrite Hc. }
  assert (forall c, marked s' c = marked s c) as Hm by (intros c; unfold marked; by rewrite Hfm).
  split.
  - apply hand_back_ok; [done|]. intros Hne. rewrite E1, Hm. by apply Hv; [lia|].
  - exists (sv_i sv), (sv_dirty sv). rewrite set_inode_id, E4, insert_id by done.
    split; [apply marks_same|]. split; [done|]. split; [done|]. split; [|rewrite decide_False by done; naive_solver lia].
    destruct Hv as [V1 V2 V3].
    constructor; try done; [constructor|..]; intros; rewrite ?Hp, ?Hm, ?E1 in *; try done; naive_solver.
Qed.

Lemma vnode_run s v sv : vheap s !! v = Some sv -> vnode v s = Done (sv, s).
Proof. intros H. unfold vnode. by rewrite H. Qed.

Lemma elt_run (l : list Z) i x s : l !! Z.to_nat i = Some x -> elt l i s = Done (x, s).
Proof. intros H. unfold elt. by rewrite H. Qed.

Lemma direct_lookup i fb : inode_ok i -> 0 <= fb < 15 ->
  exists x, sfi_direct i !! Z.to_nat fb = Some x.
Proof. intros Hi Hfb. apply lookup_lt_is_Some_2. rewrite (proj1 (io_direct _ Hi)). lia. Qed.

Lemma fs_ok_vheap s h : fs_ok s -> fs_ok (with_vheap h s).
Proof. intros []. by constructor. Qed.

Lemma set_direct_ok i k b : inode_ok i -> 0 <= b < 2 ^ 32 -> inode_ok (set_direct k b i).
Proof.
  intros [H1 H2 H3 [H4 H4'] H5 H6] Hb. constructor; try done. cbn. split.
  - by rewrite length_insert.
  - by apply Forall_insert.
Qed.
Lemma set_indirect_ok i b : inode_ok i -> 0 <= b < 2 ^ 32 -> inode_ok (set_indirect b i).
Proof. intros [] Hb. by constructor. Qed.

(** Freshly allocated blocks are not pointed at. *)
Lemma allocated_keeps s b s' i : allocated s b s' -> valid s i ->
  forall c, 0 <= c -> marked s c = true -> content s' c = content s c.
Proof.
  intros (Hb & Hf & _ & Hc & _) Hv c Hc0 Hm. rewrite Hc.
  destruct (Z.eqb_spec c b) as [->|]; [congruence|done].
Qed.

Lemma allocated_entries s b s' i : allocated s b s' -> valid s i -> entries s' i = entries s i.
Proof.
  intros Ha Hv. unfold entries. destruct (Z.eqb_spec (sfi_indirect i) 0) as [|Hne]; [done|].
  f_equal. destruct (va_marked _ _ Hv 143 ltac:(lia) Hne) as [Hr Hm]. rewrite ptr_143 in *.
  apply (allocated_keeps _ _ _ _ Ha Hv); [lia|done].
Qed.

(** A pointer to the freshly allocated block [b] appeared at [fb]. *)
Lemma bmap_new s v sv fb b s2 i' dirty :
  valid s (sv_i sv) -> 0 <= fb < 143 -> ptr s (sv_i sv) fb = 0 -> marks sv i' dirty ->
  vheap s2 = <[v := set_inode i' dirty sv]> (vheap s) -> same_rest s s2 ->
  extends s (sv_i sv) s2 i' ->
  0 < b < sp_nblocks (super s) -> marked s b = false -> marked s2 b = true ->
  content s2 b = zeros -> ptr s2 i' fb = b ->
  (forall k, 0 <= k < 143 -> k <> fb -> ptr s2 i' k = ptr s (sv_i sv) k) ->
  hand_back b s2 = Done (Ok b, s2) /\ bmap_post s v sv fb true (Ok b) s2.
Proof.
  intros Hv Hfb Hz Hmk Hh Hrest He Hb Hf Hm Hc Hp Hpk. split.
  - apply hand_back_ok; [apply He|]. by rewrite (ex_super _ _ _ _ He).
  - exists i', dirty. repeat (split; [done || lia|]). by rewrite decide_True.
Qed.

(** The call failed for lack of space. *)
Lemma bmap_nospc s v sv fb s' i' dirty :
  marks sv i' dirty -> vheap s' = <[v := set_inode i' dirty sv]> (vheap s) -> same_rest s s' ->
  extends s (sv_i sv) s' i' -> ptr s (sv_i sv) fb = 0 ->
  (forall k, 0 <= k < 143 -> ptr s' i' k = ptr s (sv_i sv) k) ->
  bmap_post s v sv fb true (Err ENOSPC) s'.
Proof. intros. exists i', dirty. split; [done|]. split; [done|]. split; [done|]. split; [done|]. by right. Qed.

(** The state after [sfs_balloc] and the assignment of the new inode. *)
Lemma allocated_put s v sv b s1 i' :
  allocated s b s1 -> vheap s !! v = Some sv ->
  let s2 := with_vheap (<[v := set_inode i' true sv]> (vheap s1)) s1 in
  vheap s2 = <[v := set_inode i' true sv]> (vheap s) /\ same_rest s s2 /\ fs_ok s2 /\
  (forall c, 0 <= c -> marked s2 c = (c =? b) || marked s c) /\
  (forall c, content s2 c = if c =? b then zeros else content s c).
Proof.
  intros (Hb & Hf & Hm & Hc & Hd & (E1 & E2 & E3 & E4 & E5 & E6) & Hok) Hsv s2.
  split; [cbn; by rewrite E4|]. split; [done|]. split; [by apply fs_ok_vheap|]. done.
Qed.

Lemma bmap_direct_spec s v sv fb doalloc : fs_ok s -> valid s (sv_i sv) ->
  vheap s !! v = Some sv -> 0 <= fb < 15 ->
  exists r s', bmap_direct v fb doalloc s = Done (r, s') /\ bmap_post s v sv fb doalloc r s'.
Proof.
  intros Hok Hv Hsv Hfb. pose proof (va_inode _ _ Hv) as Hi.
  destruct (direct_lookup _ fb Hi Hfb) as [x Hx].
  assert (ptr s (sv_i sv) fb = x) as Hpx.
  { unfold ptr. rewrite (proj2 (Z.ltb_lt _ _)) by lia. by rewrite Hx. }
  unfold bmap_direct. rewrite (bind_Done _ _ _ _ _ (vnode_run _ _ _ Hsv)).
  rewrite (bind_Done _ _ _ _ _ (elt_run _ _ _ _ Hx)).
  destruct (decide (x = 0 /\ doalloc = true)) as [[-> ->]|Hn].
  2: { destruct (bmap_same s v sv fb doalloc s) as [Hr Hp]; try done; [lia|by rewrite Hpx|].
       rewrite Hpx in Hr, Hp. exists (Ok x), s. split; [|done].
       destruct (Z.eqb_spec x 0) as [->|]; [|done]. destruct doalloc; [tauto|done]. }
  cbn [Z.eqb andb]. destruct (balloc_spec s Hok) as ([e|b] & s1 & Hba & Hr).
  { destruct Hr as (-> & -> & Hfull). exists (Err ENOSPC), s. rewrite (ebind_Err _ _ _ _ _ Hba).
    split; [done|]. apply (bmap_nospc s v sv fb s (sv_i sv) (sv_dirty sv));
      [apply marks_same|by rewrite set_inode_id, insert_id|done|by apply extends_refl|done|done]. }
  rewrite (ebind_Ok _ _ _ _ _ Hba). set (i' := set_direct fb b (sv_i sv)).
  destruct (allocated_put s v sv b s1 i' Hr Hsv) as (Hh & Hrest & Hok2 & Hm & Hc).
  set (s2 := with_vheap _ s1) in *. pose proof Hr as (Hb & Hf & _).
  pose proof (ok_dmax _ Hok). pose proof (ok_blocks _ Hok).
  assert (forall k, 0 <= k -> ptr s2 i' k = if k =? fb then b else ptr s (sv_i sv) k) as Hp.
  { intros k Hk. unfold ptr. change (entries s2 i') with (entries s1 (sv_i sv)).
    rewrite (allocated_entries _ _ _ _ Hr Hv). cbn [i' set_direct sfi_direct sfi_indirect].
    destruct (Z.eqb_spec k fb) as [->|Hne].
    - rewrite (proj2 (Z.ltb_lt _ _)) by lia. rewrite list_lookup_insert_eq; [done|].
      by eapply lookup_lt_Some.
    - rewrite list_lookup_insert_ne by lia. done. }
  destruct (bmap_new s v sv fb b s2 i' true) as [Hhb Hpost]; try done; [lia|apply marks_new|..].
  - apply (extends_one s _ s2 i' b fb); try done; [apply set_direct_ok; [done|lia]|apply Hrest| |lia].
    intros c Hc0 Hmc _. by apply (allocated_keeps _ _ _ _ Hr Hv).
  - by rewrite Hm, Z.eqb_refl by lia.
  - by rewrite Hc, Z.eqb_refl.
  - by rewrite Hp, Z.eqb_refl by lia.
  - intros k Hk Hne. by rewrite Hp, (proj2 (Z.eqb_neq _ _)) by lia.
  - exists (Ok b), s2. split; [exact Hhb|done].
Qed.

Lemma default_replicate n i : default 0 (replicate n 0 !! i) = 0.
Proof.
  destruct (replicate n 0 !! i) as [y|] eqn:E; [|done]. by apply lookup_replicate in E as [-> _].
Qed.

(** The indirect block is there, with its contents in [idbuf]. *)
Definition idblock_post s (v : Z) (sv : svnode) (idblock : Z) (idbuf : list Z) s1 : Prop :=
  exists i1 dirty1, marks sv i1 dirty1 /\ vheap s1 = <[v := set_inode i1 dirty1 sv]> (vheap s) /\ same_rest s s1 /\
  extends s (sv_i sv) s1 i1 /\
  (forall k, 0 <= k < 143 -> ptr s1 i1 k = ptr s (sv_i sv) k) /\
  idblock = sfi_indirect i1 /\ idblock <> 0 /\ idbuf = dec32 (content s1 idblock) /\
  (sfi_indirect (sv_i sv) <> 0 ->
     i1 = sv_i sv /\ dirty1 = sv_dirty sv /\ same_files s s1 /\
     sfs_freemap s1 = sfs_freemap s /\ forall c, content s1 c = content s c).

Lemma bmap_idblock_spec s v sv : fs_ok s -> valid s (sv_i sv) -> vheap s !! v = Some sv ->
  exists r s1, bmap_idblock v s = Done (r, s1) /\
  match r with
  | Ok (idblock, idbuf) => idblock_post s v sv idblock idbuf s1
  | Err e => e = ENOSPC /\ s1 = s /\ sfi_indirect (sv_i sv) = 0
  end.
Proof.
  intros Hok Hv Hsv. pose proof (ok_dmax _ Hok). pose proof (ok_blocks _ Hok).
  unfold bmap_idblock. rewrite (bind_Done _ _ _ _ _ (vnode_run _ _ _ Hsv)).
  destruct (Z.eqb_spec (sfi_indirect (sv_i sv)) 0) as [Ez|Hne].
  - destruct (balloc_spec s Hok) as ([e|b] & s1 & Hba & Hr).
    { exists (Err e), s1. rewrite (ebind_Err _ _ _ _ _ Hba). naive_solver. }
    rewrite (ebind_Ok _ _ _ _ _ Hba). set (i' := set_indirect b (sv_i sv)).
    destruct (allocated_put s v sv b s1 i' Hr Hsv) as (Hh & Hrest & Hok2 & Hm & Hc).
    set (s2 := with_vheap _ s1) in *. pose proof Hr as (Hb & Hf & _).
    assert (content s2 b = zeros) as Hcb by (by rewrite Hc, Z.eqb_refl).
    assert (forall k, 0 <= k -> ptr s2 i' k = if k =? 143 then b else ptr s (sv_i sv) k) as Hp.
    { intros k Hk. unfold ptr, entries. cbn [i' set_indirect sfi_direct sfi_indirect].
      rewrite Ez, (proj2 (Z.eqb_neq b 0)) by lia. cbn [Z.eqb]. rewrite Hcb.
      change (dec32 zeros) with (replicate 128 0).
      destruct (Z.ltb_spec k 15); [by rewrite (proj2 (Z.eqb_neq _ _)) by lia|].
      destruct (Z.ltb_spec k 143).
      - rewrite (proj2 (Z.eqb_neq _ _)) by lia. rewrite lookup_nil.
        by rewrite default_replicate.
      - by destruct (k =? 143). }
    exists (Ok (b, replicate 128 0)), s2. split; [done|]. exists i', true.
    split; [apply marks_new|]. split; [done|]. split; [done|]. split; [|split; [|split; [done|split; [lia|]]]].
    + apply (extends_one s _ s2 i' b 143); try done; [apply set_indirect_ok; [apply Hv|lia]|apply Hrest|].
      intros c Hc0 Hmc _. by apply (allocated_keeps _ _ _ _ Hr Hv).
    + intros k Hk. by rewrite Hp, (proj2 (Z.eqb_neq _ _)) by lia.
    + rewrite Hcb. done.
  - destruct (va_marked _ _ Hv 143 ltac:(lia) Hne) as [Hr Hm]. rewrite ptr_143 in *.
    destruct (fs_rblock s (sfi_indirect (sv_i sv)) Hok ltac:(lia))
      as (s1 & Hrb & Hok1 & Hsf & Hfm & Hfd & Hc).
    rewrite (bind_Done _ _ _ _ _ Hrb). cbn [Z.eqb negb].
    exists (Ok (sfi_indirect (sv_i sv), dec32 (content s (sfi_indirect (sv_i sv))))), s1.
    split; [done|].
    destruct (bmap_same s v sv 0 false s1) as [_ Hpost]; try done; [by intros [_ ?]|].
    destruct Hpost as (i' & dirty' & _ & Hh & Hrest & He & _ & _ & _ & Hk & Hif).
    rewrite decide_False in Hif by naive_solver. destruct Hif as (_ & -> & -> & _ & _).
    exists (sv_i sv), (sv_dirty sv). split; [apply marks_same|]. repeat (split; [done|]). rewrite Hc.
    split; [|split; [done|split; [done|split; [done|done]]]].
    intros k Hk0. unfold ptr, entries. by rewrite Hc.
Qed.

Lemma content_ok s b : fs_ok s -> block_ok (content s b).
Proof. intros Hok. split; [by apply block_length, Hok|by apply block_bytes, Hok]. Qed.

Lemma content_entries s b : fs_ok s -> u32_list 128 (dec32 (content s b)).
Proof.
  intros Hok. destruct (content_ok s b Hok) as [Hl Hb]. split; [|by apply dec32_range].
  apply length_dec32. by rewrite Hl.
Qed.

Lemma enc_entries l : u32_list 128 l -> block_ok (enc32 l) /\ dec32 (enc32 l) = l.
Proof.
  intros [Hl Hr]. split; [split|by apply dec32_enc32].
  - by rewrite length_enc32, Hl.
  - apply enc32_bytes.
Qed.

(** A new entry in the indirect block: the block is allocated, then the
    indirect block is written. *)
Lemma new_entry s i off b s2 : fs_ok s -> valid s i -> sfi_indirect i <> 0 ->
  0 <= off < 128 -> ptr s i (15 + off) = 0 -> allocated s b s2 ->
  exists s3, on_device (sfs_wblock (enc32 (<[Z.to_nat off := b]>
      (dec32 (content s (sfi_indirect i))))) (sfi_indirect i)) s2 = Done (0, s3) /\
    same_files s s3 /\ extends s i s3 i /\ content s3 b = zeros /\ marked s3 b = true /\
    forall k, 0 <= k -> ptr s3 i k = if k =? 15 + off then b else ptr s i k.
Proof.
  intros Hok Hv Hne Hoff Hz Hal. pose proof Hal as (Hb & Hf & Hm & Hc & _ & Hsf & Hok2).
  pose proof (ok_dmax _ Hok). pose proof (ok_blocks _ Hok).
  destruct (va_marked _ _ Hv 143 ltac:(lia) Hne) as [Hr Hmi]. rewrite ptr_143 in *.
  set (id := sfi_indirect i) in *. set (l := <[Z.to_nat off := b]> (dec32 (content s id))).
  destruct (content_entries s id Hok) as [Hel Her].
  assert (u32_list 128 l) as Hl.
  { split; [by unfold l; rewrite length_insert|]. apply Forall_insert; [done|lia]. }
  destruct (enc_entries l Hl) as [Hbo Hdec].
  destruct (fs_wblock s2 id (enc32 l)) as (s3 & Hw & Hok3 & Hsf3 & Hfm & _ & Hc3);
    [done|destruct Hsf as (-> & _); lia|done|].
  pose proof (same_files_trans _ _ _ Hsf Hsf3) as Hsf'.
  assert (b <> id) as Hbi by congruence.
  assert (forall k, 0 <= k -> ptr s3 i k = if k =? 15 + off then b else ptr s i k) as Hp.
  { intros k Hk. unfold ptr, entries. fold id. rewrite (proj2 (Z.eqb_neq id 0)) by done.
    rewrite Hc3, Z.eqb_refl, Hdec.
    destruct (Z.ltb_spec k 15); [by rewrite (proj2 (Z.eqb_neq _ (15 + off))) by lia|].
    destruct (Z.ltb_spec k 143); [|by rewrite (proj2 (Z.eqb_neq _ (15 + off))) by lia].
    unfold l. destruct (Z.eqb_spec k (15 + off)) as [->|].
    - replace (15 + off - 15) with off by lia. rewrite list_lookup_insert_eq by lia. done.
    - rewrite list_lookup_insert_ne by lia. done. }
  exists s3. split; [done|]. split; [done|]. split; [|split; [|split; [|done]]].
  - apply (extends_one s i s3 i b (15 + off)); try done; [apply Hv|apply Hsf'| | |lia].
    + intros c Hc0. unfold marked at 1. rewrite Hfm. by apply Hm.
    + intros c Hc0 Hmc Hci. rewrite Hc3, (proj2 (Z.eqb_neq _ _)) by done.
      by apply (allocated_keeps _ _ _ _ Hal Hv).
  - rewrite Hc3, (proj2 (Z.eqb_neq _ _)) by done. by rewrite Hc, Z.eqb_refl.
  - unfold marked. rewrite Hfm. change (marked s2 b = true). by rewrite Hm, Z.eqb_refl by lia.
Qed.

Lemma ptr_noindirect s i off : sfi_indirect i = 0 -> 0 <= off < 128 -> ptr s i (15 + off) = 0.
Proof.
  intros Ez Hoff. unfold ptr, entries. rewrite Ez. cbn [Z.eqb]. rewrite lookup_nil.
  by rewrite (proj2 (Z.ltb_ge _ 15)), (proj2 (Z.ltb_lt _ 143)) by lia.
Qed.

(** The rest of [bmap_indirect] when the entry has to be allocated. *)
Lemma bmap_new_entry s v sv off s1 i1 dirty1 :
  valid s (sv_i sv) -> 0 <= off < 128 -> ptr s (sv_i sv) (15 + off) = 0 -> marks sv i1 dirty1 ->
  vheap s1 = <[v := set_inode i1 dirty1 sv]> (vheap s) -> same_rest s s1 ->
  extends s (sv_i sv) s1 i1 ->
  (forall k, 0 <= k < 143 -> ptr s1 i1 k = ptr s (sv_i sv) k) -> sfi_indirect i1 <> 0 ->
  exists r s', (block ←? sfs_balloc;
      _ ←? check (on_device (sfs_wblock (enc32 (<[Z.to_nat off := block]>
             (dec32 (content s1 (sfi_indirect i1))))) (sfi_indirect i1)));
      hand_back block) s1 = Done (r, s') /\ bmap_post s v sv (15 + off) true r s'.
Proof.
  intros Hv Hoff Hz Hmk Hh1 Hrest1 He1 Hk1 Hne.
  pose proof (ex_ok _ _ _ _ He1) as Hok1. pose proof (ex_valid _ _ _ _ He1) as Hv1.
  destruct (balloc_spec s1 Hok1) as ([e|b] & s2 & Hba & Hr).
  { destruct Hr as (-> & -> & _). exists (Err ENOSPC), s1. rewrite (ebind_Err _ _ _ _ _ Hba).
    split; [done|]. by apply (bmap_nospc s v sv _ s1 i1 dirty1). }
  rewrite (ebind_Ok _ _ _ _ _ Hba).
  destruct (new_entry s1 i1 off b s2) as (s3 & Hw & Hsf & He3 & Hcb & Hmb & Hp3);
    [done..|by rewrite Hk1 by lia|done|].
  pose proof Hr as (Hb & Hf & _). destruct Hsf as (F1 & F2 & F3 & F4 & F5 & F6).
  destruct Hrest1 as (E1 & E2 & E3 & E4 & E5).
  destruct (bmap_new s v sv (15 + off) b s3 i1 dirty1) as [Hhb Hpost]; try done; [lia|..].
  - by rewrite F4.
  - repeat split; congruence.
  - by eapply extends_trans.
  - by rewrite <- E1.
  - destruct (marked s b) eqn:Em; [|done]. rewrite (ex_marked _ _ _ _ He1) in Hf; [done|lia|done].
  - by rewrite Hp3, Z.eqb_refl by lia.
  - intros k Hk Hkn. by rewrite Hp3, (proj2 (Z.eqb_neq _ _)), Hk1 by lia.
  - exists (Ok b), s3. split; [|done]. unfold ebind at 1, check. mrun. setoid_rewrite Hw. exact Hhb.
Qed.

Lemma bmap_indirect_spec s v sv off doalloc : fs_ok s -> valid s (sv_i sv) ->
  vheap s !! v = Some sv -> 0 <= off < 128 ->
  exists r s', bmap_indirect v off doalloc s = Done (r, s') /\
    bmap_post s v sv (15 + off) doalloc r s'.
Proof.
  intros Hok Hv Hsv Hoff. unfold bmap_indirect.
  rewrite (bind_Done _ _ _ _ _ (vnode_run _ _ _ Hsv)).
  destruct (decide (sfi_indirect (sv_i sv) = 0 /\ doalloc = false)) as [[Ez ->]|Hn].
  { exists (Ok 0), s. rewrite Ez. split; [done|].
    pose proof (ptr_noindirect s _ off Ez Hoff) as Hp.
    destruct (bmap_same s v sv (15 + off) false s) as [_ Hpost]; try done; [lia|by intros [_ ?]|].
    by rewrite Hp in Hpost. }
  replace ((sfi_indirect (sv_i sv) =? 0) && negb doalloc) with false
    by (destruct (Z.eqb_spec (sfi_indirect (sv_i sv)) 0), doalloc; naive_solver).
  destruct (bmap_idblock_spec s v sv Hok Hv Hsv) as ([e|[idb buf]] & s1 & Hr1 & Hp1).
  { destruct Hp1 as (-> & -> & Ez). exists (Err ENOSPC), s. rewrite (ebind_Err _ _ _ _ _ Hr1).
    split; [done|]. destruct doalloc; [|naive_solver].
    apply (bmap_nospc s v sv _ s (sv_i sv) (sv_dirty sv));
      [apply marks_same|by rewrite set_inode_id, insert_id|done|by apply extends_refl|by apply ptr_noindirect|done]. }
  rewrite (ebind_Ok _ _ _ _ _ Hr1).
  destruct Hp1 as (i1 & dirty1 & Hmk & Hh1 & Hrest1 & He1 & Hk1 & -> & Hne & -> & Hsame).
  pose proof (ex_ok _ _ _ _ He1) as Hok1. pose proof (ex_valid _ _ _ _ He1) as Hv1.
  destruct (content_entries s1 (sfi_indirect i1) Hok1) as [Hel _].
  destruct (lookup_lt_is_Some_2 (dec32 (content s1 (sfi_indirect i1))) (Z.to_nat off)) as [x Hx]; [lia|].
  rewrite (bind_Done _ _ _ _ _ (elt_run _ _ _ _ Hx)).
  assert (ptr s1 i1 (15 + off) = x) as Hpx.
  { unfold ptr, entries. rewrite (proj2 (Z.eqb_neq _ _) Hne).
    rewrite (proj2 (Z.ltb_ge _ 15)), (proj2 (Z.ltb_lt _ 143)) by lia.
    replace (15 + off - 15) with off by lia. by rewrite Hx. }
  rewrite Hk1 in Hpx by lia.
  destruct (decide (x = 0 /\ doalloc = true)) as [[-> ->]|Hn2].
  - cbn [Z.eqb andb]. eapply bmap_new_entry; try done; lia.
  - destruct (decide (sfi_indirect (sv_i sv) = 0)) as [Ez|Hnz].
    { rewrite (ptr_noindirect s _ off Ez Hoff) in Hpx. subst x.
      destruct doalloc; [tauto|]. tauto. }
    destruct (Hsame Hnz) as (_ & _ & Hsf & Hfm & Hc).
    destruct (bmap_same s v sv (15 + off) doalloc s1) as [Hhb Hpost]; try done; [lia|by rewrite Hpx|].
    rewrite Hpx in Hhb, Hpost. exists (Ok x), s1. split; [|done].
    destruct (Z.eqb_spec x 0) as [->|]; [|done]. destruct doalloc; [tauto|done].
Qed.

Lemma bmap_spec s v sv fb doalloc : fs_ok s -> valid s (sv_i sv) ->
  vheap s !! v = Some sv -> 0 <= fb ->
  exists r s', sfs_bmap v fb doalloc s = Done (r, s') /\ bmap_post s v sv fb doalloc r s'.
Proof.
  intros Hok Hv Hsv Hfb. unfold sfs_bmap, SFS_NDIRECT, SFS_DBPERIDB.
  destruct (Z.ltb_spec fb 15); [by apply bmap_direct_spec|].
  destruct (Z.ltb_spec 0 ((fb - 15) / 128)).
  - exists (Err EFBIG), s. split; [done|]. exists (sv_i sv), (sv_dirty sv).
    rewrite set_inode_id, insert_id by done. split; [apply marks_same|]. split; [done|]. split; [done|].
    split; [by apply extends_refl|]. left. repeat split. dlia.
  - destruct (bmap_indirect_spec s v sv ((fb - 15) mod 128) doalloc) as (r & s' & Hr & Hp);
      [done..|dlia|]. replace (15 + (fb - 15) mod 128) with fb in Hp by dlia. by exists r, s'.
Qed.

(** ** Flushing one inode *)

Definition undirty (sv : svnode) : svnode := set_inode (sv_i sv) false sv.

Lemma sync_inode_run s v sv : fs_ok s -> vheap s !! v = Some sv -> inode_ok (sv_i sv) ->
  0 <= sv_ino sv < sp_nblocks (super s) ->
  exists s', sfs_sync_inode v s = Done (0, s') /\ fs_ok s' /\
    vheap s' = <[v := undirty sv]> (vheap s) /\
    same_files (with_vheap (vheap s') s) s' /\ sfs_freemap s' = sfs_freemap s /\
    sfs_freemapdirty s' = sfs_freemapdirty s /\
    forall c, content s' c =
      if sv_dirty sv && (c =? sv_ino sv) then encode_inode (sv_i sv) else content s c.
Proof.
  intros Hok Hv Hi Hino. unfold sfs_sync_inode.
  rewrite (bind_Done _ _ _ sv s) by (unfold vnode; by rewrite Hv).
  destruct (sv_dirty sv) eqn:Ed.
  - destruct (fs_wblock s (sv_ino sv) (encode_inode (sv_i sv)) Hok Hino (encode_inode_ok _ Hi))
      as (s1 & Hw & Hok1 & Hs1 & Hm & Hmd & Hc).
    rewrite (bind_Done _ _ _ _ _ Hw). mrun. cbn [Z.eqb negb].
    exists (with_vheap (<[v := undirty sv]> (vheap s1)) s1).
    destruct Hs1 as (? & ? & ? & Hvh & ? & ?).
    split; [done|]. split; [by destruct Hok1; constructor|]. split; [cbn; by rewrite Hvh|].
    split; [done|]. done.
  - exists s. split; [done|]. split; [done|].
    assert (undirty sv = sv) as -> by (destruct sv; cbn in *; by subst).
    rewrite insert_id by done. split; [done|]. by destruct s.
Qed.

(** ** Properties *)

(** [sfs_balloc] on a consistent file system never panics.  It returns a
    block that was free, marks it, clears it on disk and leaves every other
    block as it was; or it returns [ENOSPC] with nothing changed, and then
    every block of the volume is in use. *)
Theorem sfs_balloc_correct s (Hok : fs_ok s) :
  exists r s', sfs_balloc s = Done (r, s') /\
  match r with
  | Ok b => 0 < b < sp_nblocks (super s) /\ marked s b = false /\
      (forall c, 0 <= c -> marked s' c = (c =? b) || marked s c) /\
      (forall c, content s' c = if c =? b then zeros else content s c) /\
      sfs_freemapdirty s' = true /\ same_files s s' /\ fs_ok s'
  | Err e => e = ENOSPC /\ s' = s /\ forall b, 0 <= b < sp_nblocks (super s) -> marked s b = true
  end.
Proof. by apply balloc_spec. Qed.

(** C18: [sfs_bmap] on a consistent file system and inode, on a device that
    completes every transfer (so that none of the errors of [sfs_rblock] and
    [sfs_wblock] that it passes on occurs), always comes back.
    It returns the block the pointer leads to, allocating and clearing a
    free block (and the indirect block) when asked to; all other pointers of
    the file stay; no block in use changes except the file's own indirect
    block; an inode that changes is marked dirty; the pointers remain distinct
    and marked in use, after failures too, which are [EFBIG] exactly from
    block 143 on and [ENOSPC]. *)
Theorem sfs_bmap_correct s v sv fb doalloc :
  fs_ok s -> valid s (sv_i sv) -> vheap s !! v = Some sv -> 0 <= fb ->
  exists r s', sfs_bmap v fb doalloc s = Done (r, s') /\ bmap_post s v sv fb doalloc r s'.
Proof. apply bmap_spec. Qed.
End alloc.

(** A volume of 40 blocks with an empty file (inode 3) loaded at address 100. *)
Definition empty_inode : sfs_inode :=
  mkInode 0 SFS_TYPE_FILE 1 (replicate 15 0) 0 (replicate 110 0).
Definition empty_file : svnode := mkSv 1 1 false empty_inode 3 false.
Definition small_fs : fs (lhd sim) :=
  mkFs (sim_disk 40 []) (mkSuper SFS_MAGIC 40 (replicate 32 0) (replicate 118 0)) false
    (Bitmap.mkBitmap 40 [15; 0; 0; 0; 0]) false Arrays.array_init {[100 := empty_file]}
    (replicate 64 (mkSlot zeros (-1) (-1))) (mkEnv 0 [] [] [] 200).

Lemma empty_inode_ok : inode_ok empty_inode.
Proof.
  constructor; cbn [sfi_size sfi_type sfi_linkcount sfi_direct sfi_indirect sfi_waste empty_inode];
    unfold SFS_TYPE_FILE; try lia; (split; [done|apply Forall_replicate; lia]).
Qed.

Lemma small_fs_ok : fs_ok small_fs.
Proof.
  constructor.
  - apply sim_disk_idle. lia.
  - cbn. lia.
  - cbn. lia.
  - constructor; cbn; [lia|done|repeat constructor; lia|lia].
  - cbn. lia.
  - cbn. lia.
  - done.
Qed.

Lemma small_fs_valid : valid small_fs empty_inode.
Proof.
  assert (forall k, 0 <= k -> ptr small_fs empty_inode k = 0) as Hz.
  { intros k Hk. unfold ptr, entries. cbn [empty_inode sfi_direct sfi_indirect Z.eqb].
    rewrite lookup_nil, default_replicate. destruct (k <? 15), (k <? 143), (k =? 143); done. }
  constructor; [apply empty_inode_ok|..].
  - intros k Hk Hn. by rewrite Hz in Hn.
  - intros j k Hj Hk _ Hn. by rewrite Hz in Hn.
Qed.

Lemma sfs_balloc_correct_witness : exists s',
  sfs_balloc small_fs = Done (Ok 4, s') /\ marked s' 4 = true /\ fs_ok s'.
Proof.
  destruct (sfs_balloc_correct small_fs small_fs_ok) as (r & s' & Hr & Hp).
  assert (r = Ok 4) as ->.
  { assert (exists s1, sfs_balloc small_fs = Done (Ok 4, s1)) as [s1 E] by (eexists; vm_compute; reflexivity).
    congruence. }
  exists s'. split; [exact Hr|]. destruct Hp as (_ & _ & Hm & _ & _ & _ & Hok).
  split; [by rewrite Hm by lia|exact Hok].
Defined.

Lemma sfs_bmap_correct_witness : exists r s',
  sfs_bmap 100 20 true small_fs = Done (r, s') /\
  bmap_post small_fs 100 empty_file 20 true r s'.
Proof.
  apply sfs_bmap_correct; [apply small_fs_ok|apply small_fs_valid|reflexivity|lia].
Defined.
End Sfs.
