(* ===== verification/SfsIo.v ===== *)
(** * kern/fs/sfs/sfs_vnode.c: file-level I/O

    [sfs_io] splits a transfer into a leading partial block, whole blocks and
    a trailing partial block.  Whole blocks go directly between the uio and
    the device; partial blocks go through a cache of 64 blocks. *)

From S2P Require Import Prelude Bitmap Arrays Uio Stream Lhd SfsDisk Sfs.
Import Uio Stream Lhd SfsDisk Sfs.

Module SfsIo.

Definition BUFFER_SIZE : Z := 64.

(** The bytes [skip, skip + len) of a buffer, and their replacement. *)
Definition slice (skip len : Z) (buf : list Z) : list Z :=
  take (Z.to_nat len) (drop (Z.to_nat skip) buf).
Definition splice (skip : Z) (new buf : list Z) : list Z :=
  take (Z.to_nat skip) buf ++ new ++ drop (Z.to_nat skip + length new) buf.

(** The search loop of [sfs_partialio]: the first slot that holds the block,
    otherwise the first free slot. *)
Fixpoint cache_scan (slots : list cslot) (i : nat) (ino diskblock : Z) (free : option nat)
    : option nat * option nat :=
  match slots with
  | [] => (None, free)
  | c :: r =>
      if (inode_no c =? s32 ino) && (block_no c =? s32 diskblock) then (Some i, free)
      else if bool_decide (free = None) && (inode_no c =? -1)
      then cache_scan r (S i) ino diskblock (Some i)
      else cache_scan r (S i) ino diskblock free
  end.

Section io.
Context {D : Type} `{!BlockDevice D}.
Implicit Type s : fs D.

Definition doalloc (u : sio) : bool :=
  match u_rw u with UIO_WRITE => true | UIO_READ => false end.

(** [uiomove(buf+skip, len, uio)]: the error code, the buffer and the uio. *)
Definition umove_at (buf : list Z) (skip len : Z) (u : sio) : outcome (Z * list Z * sio) :=
  '(r, new, u') ← umove (slice skip len buf) u;
  Done (r, splice skip new buf, u').

Definition slot (i : nat) : M (fs D) cslot := fun s =>
  match sfs_rcache s !! i with
  | Some c => Done (c, s)
  | None => Stop BadAccess
  end.
Definition put_slot (i : nat) (c : cslot) : M (fs D) unit :=
  mmodify (fun s => with_rcache (<[i := c]> (sfs_rcache s)) s).

(** [uiomove] to or from a cache slot. *)
Definition move_slot (i : nat) (skip len : Z) (u : sio) : M (fs D) (Z * sio) :=
  c ← slot i;
  '(r, buf, u') ← mlift (umove_at (cache c) skip len u);
  _ ← put_slot i (mkSlot buf (inode_no c) (block_no c));
  mret (r, u').

(** Block found in the cache: the transfer ends there. *)
Definition partial_hit (i : nat) (skip len : Z) (u : sio) : M (fs D) (Z * sio) :=
  '(result, u') ← move_slot i skip len u;
  _ ← lock_release BcacheLock;
  mret (result, u').

(** A free slot: the block is read into it; the result of the read is
    overwritten by that of [uiomove]. *)
Definition partial_load (i : nat) (ino diskblock skip len : Z) (u : sio) : M (fs D) (Z * sio) :=
  c ← slot i;
  '(_, data) ← on_device (sfs_rblock (cache c) diskblock);
  _ ← put_slot i (mkSlot data (s32 ino) (s32 diskblock));
  '(result, u') ← move_slot i skip len u;
  _ ← lock_release BcacheLock;
  mret (result, u').

(** Replacement of a random slot: its contents are written back and the
    block read in, with the tags of the slot left as they are. *)
Definition partial_replace (diskblock : Z) : M (fs D) Z :=
  rn ← random;
  let i := Z.to_nat (rn mod BUFFER_SIZE) in
  c ← slot i;
  _ ← on_device (sfs_wblock (cache c) (u32 (block_no c)));
  '(result, data) ← on_device (sfs_rblock (cache c) diskblock);
  _ ← put_slot i (mkSlot data (inode_no c) (block_no c));
  _ ← lock_release BcacheLock;
  mret result.

(** The transfer through [iobuf], written back after a write. *)
Definition partial_iobuf (iobuf : list Z) (diskblock skip len : Z) (u : sio) : M (fs D) (Z * sio) :=
  '(result, buf, u') ← mlift (umove_at iobuf skip len u);
  if negb (result =? 0) then mret (result, u')
  else
    match u_rw u with
    | UIO_WRITE => r ← on_device (sfs_wblock buf diskblock); mret (r, u')
    | UIO_READ => mret (0, u')
    end.

(** The transfer of a block that exists. *)
Definition partial_cached (v diskblock skipstart len : Z) (u : sio) : M (fs D) (Z * sio) :=
  _ ← lock_acquire BcacheLock;
  sv ← vnode v;
  slots ← mgets sfs_rcache;
  match cache_scan slots 0 (sv_ino sv) diskblock None with
  | (Some i, _) => partial_hit i skipstart len u
  | (None, Some i) => partial_load i (sv_ino sv) diskblock skipstart len u
  | (None, None) =>
      result ← partial_replace diskblock;
      if negb (result =? 0) then mret (result, u)
      else
        '(result, iobuf) ← on_device (sfs_rblock zeros diskblock);
        if negb (result =? 0) then mret (result, u)
        else partial_iobuf iobuf diskblock skipstart len u
  end.

Definition sfs_partialio (v : Z) (u : sio) (skipstart len : Z) : M (fs D) (Z * sio) :=
  _ ← kassert (u32 (skipstart + len) <=? SFS_BLOCKSIZE);
  let fileblock := u32 (u_off u / SFS_BLOCKSIZE) in
  _ ← lock_acquire BmapLock;
  r ← sfs_bmap v fileblock (doalloc u);
  _ ← lock_release BmapLock;
  match r with
  | Err e => mret (e, u)
  | Ok diskblock =>
      if diskblock =? 0 then
        _ ← kassert (negb (doalloc u));
        partial_iobuf zeros diskblock skipstart len u
      else partial_cached v diskblock skipstart len u
  end.

(** [uiomovezeros] *)
Fixpoint umovezeros (fuel : nat) (n : Z) (u : sio) : outcome (Z * sio) :=
  match fuel with
  | O => Stop NoFuel
  | S f =>
      if 0 <? n then
        let amt := if n <? 16 then n else 16 in
        '(result, _, u') ← umove (replicate (Z.to_nat amt) 0) u;
        if negb (result =? 0) then Done (result, u') else umovezeros f (n - amt) u'
      else Done (0, u)
  end.

Definition sfs_blockio (v : Z) (u : sio) : M (fs D) (Z * sio) :=
  let fileblock := u32 (u_off u / SFS_BLOCKSIZE) in
  r ← sfs_bmap v fileblock (doalloc u);
  match r with
  | Err e => mret (e, u)
  | Ok diskblock =>
      if diskblock =? 0 then
        _ ← kassert (negb (doalloc u));
        mlift (umovezeros 33 SFS_BLOCKSIZE u)
      else
        let saveoff := u_off u in
        let diskoff := u32 (diskblock * SFS_BLOCKSIZE) in
        _ ← kassert (SFS_BLOCKSIZE <=? u_resid u);
        let saveres := u_resid u in
        '(result, u') ← on_device (sfs_rwblock
          (mkSio (u_rw u) diskoff SFS_BLOCKSIZE (u_len u) (u_room u) (u_user u) (u_data u)));
        mret (result,
          mkSio (u_rw u') (s64 (u_off u' - diskoff + saveoff))
            (u32 (u_resid u' - SFS_BLOCKSIZE + saveres)) (u_len u') (u_room u') (u_user u') (u_data u'))
  end.

(** The loop over the whole blocks. *)
Fixpoint blockio_loop (n : nat) (v : Z) (u : sio) : M (fs D) (Z * sio) :=
  match n with
  | O => mret (0, u)
  | S n' =>
      '(result, u') ← sfs_blockio v u;
      if negb (result =? 0) then mret (result, u') else blockio_loop n' v u'
  end.

Definition with_resid (r : Z) (u : sio) : sio :=
  mkSio (u_rw u) (u_off u) r (u_len u) (u_room u) (u_user u) (u_data u).

(** From the leading partial block to the label [out]. *)
Definition io_body (v : Z) (u : sio) : M (fs D) (Z * sio) :=
  let blkoff := u_off u mod SFS_BLOCKSIZE in
  '(result, u1) ← (if negb (blkoff =? 0) then
      let len := SFS_BLOCKSIZE - blkoff in
      sfs_partialio v u blkoff (if u_resid u <? len then u_resid u else len)
    else mret (0, u));
  if negb (result =? 0) then mret (result, u1)
  else if u_resid u1 =? 0 then mret (0, u1)
  else
    _ ← kassert (u_off u1 mod SFS_BLOCKSIZE =? 0);
    let nblocks := u_resid u1 / SFS_BLOCKSIZE in
    '(result, u2) ← blockio_loop (Z.to_nat nblocks) v u1;
    if negb (result =? 0) then mret (result, u2)
    else
      _ ← kassert (u_resid u2 <? SFS_BLOCKSIZE);
      if 0 <? u_resid u2 then sfs_partialio v u2 0 (u_resid u2) else mret (0, u2).

(** The code from the label [out] on. *)
Definition io_out (v result extraresid : Z) (u : sio) : M (fs D) (Z * sio) :=
  sv ← vnode v;
  _ ← (if doalloc u && (sfi_size (sv_i sv) <? u_off u)
       then put_vnode v (set_inode (set_size (u32 (u_off u)) (sv_i sv)) true sv)
       else mret tt);
  mret (result, with_resid (u32 (u_resid u + extraresid)) u).

Definition sfs_io (v : Z) (u : sio) : M (fs D) (Z * sio) :=
  sv ← vnode v;
  let size := sfi_size (sv_i sv) in
  match u_rw u with
  | UIO_READ =>
      let endpos := u_off u + u_resid u in
      if size <=? u_off u then mret (0, u)
      else if size <? endpos then
        let extraresid := u32 (endpos - size) in
        _ ← kassert (extraresid <? u_resid u);
        '(result, u') ← io_body v (with_resid (u_resid u - extraresid) u);
        io_out v result extraresid u'
      else '(result, u') ← io_body v u; io_out v result 0 u'
  | UIO_WRITE => '(result, u') ← io_body v u; io_out v result 0 u'
  end.

(** A kernel uio, as [uio_kinit] sets it up. *)
Definition kuio (data : list Z) (len pos : Z) (rw : uio_rw_t) : sio :=
  mkSio rw pos len len len len match rw with UIO_READ => [] | UIO_WRITE => data end.

Definition sizeof_dir : Z := 64.

(** [sfs_readdir]: the error code and the entry. *)
Definition sfs_readdir (v k : Z) : M (fs D) (result sfs_dir) :=
  let actualpos := u32 (k * sizeof_dir) in
  '(result, u) ← sfs_io v (kuio [] sizeof_dir actualpos UIO_READ);
  if negb (result =? 0) then mret (Err result)
  else if 0 <? u_resid u then mstop KPanic
  else mret (Ok (decode_dir (u_data u))).

Definition sfs_writedir (v : Z) (sd : sfs_dir) (k : Z) : M (fs D) Z :=
  _ ← kassert (0 <=? k);
  let actualpos := u32 (k * sizeof_dir) in
  '(result, u) ← sfs_io v (kuio (encode_dir sd) sizeof_dir actualpos UIO_WRITE);
  if negb (result =? 0) then mret result
  else if 0 <? u_resid u then mstop KPanic
  else mret 0.

Definition sfs_dir_nentries (v : Z) : M (fs D) Z :=
  sv ← vnode v;
  _ ← kassert (sfi_type (sv_i sv) =? SFS_TYPE_DIR);
  let size := sfi_size (sv_i sv) in
  if negb (size mod sizeof_dir =? 0) then mstop KPanic else mret (size / sizeof_dir).
End io.

(** ** Parts of a buffer *)

Lemma lookup_slice skip len buf i : 0 <= skip ->
  slice skip len buf !! i =
    if (i <? Z.to_nat len)%nat then buf !! (Z.to_nat skip + i)%nat else None.
Proof.
  intros Hs. unfold slice. destruct (Nat.ltb_spec i (Z.to_nat len)).
  - by rewrite lookup_take_lt, lookup_drop.
  - by rewrite lookup_take_ge.
Qed.
Lemma length_slice skip len buf : 0 <= skip -> 0 <= len ->
  skip + len <= Z.of_nat (length buf) -> Z.of_nat (length (slice skip len buf)) = len.
Proof. intros. unfold slice. rewrite length_take, length_drop. lia. Qed.

Lemma length_splice skip new buf : 0 <= skip ->
  skip + Z.of_nat (length new) <= Z.of_nat (length buf) ->
  length (splice skip new buf) = length buf.
Proof. intros. unfold splice. rewrite !length_app, length_take, length_drop. lia. Qed.
Lemma lookup_splice skip new buf i : 0 <= skip ->
  skip + Z.of_nat (length new) <= Z.of_nat (length buf) ->
  splice skip new buf !! i =
    if (Z.to_nat skip <=? i)%nat && (i <? Z.to_nat skip + length new)%nat
    then new !! (i - Z.to_nat skip)%nat else buf !! i.
Proof.
  intros Hs Hl. unfold splice.
  assert (length (take (Z.to_nat skip) buf) = Z.to_nat skip) as Ht by (rewrite length_take; lia).
  destruct (Nat.leb_spec (Z.to_nat skip) i); cbn [andb].
  - rewrite lookup_app_r by lia. rewrite Ht. destruct (Nat.ltb_spec i (Z.to_nat skip + length new)).
    + by rewrite lookup_app_l by lia.
    + rewrite lookup_app_r by lia. rewrite lookup_drop. f_equal. lia.
  - rewrite lookup_app_l by lia. by rewrite lookup_take_lt by lia.
Qed.

Lemma slice_splice_same skip new buf : 0 <= skip ->
  skip + Z.of_nat (length new) <= Z.of_nat (length buf) ->
  slice skip (Z.of_nat (length new)) (splice skip new buf) = new.
Proof.
  intros Hs Hl. apply list_eq. intros i. rewrite lookup_slice, lookup_splice by done.
  rewrite Nat2Z.id. destruct (Nat.ltb_spec i (length new)).
  - rewrite (proj2 (Nat.leb_le _ _)), (proj2 (Nat.ltb_lt _ _)) by lia. cbn. f_equal. lia.
  - symmetry. apply lookup_ge_None. lia.
Qed.
Lemma slice_splice_other skip new buf a n : 0 <= skip -> 0 <= a ->
  skip + Z.of_nat (length new) <= Z.of_nat (length buf) ->
  a + n <= skip \/ skip + Z.of_nat (length new) <= a ->
  slice a n (splice skip new buf) = slice a n buf.
Proof.
  intros Hs Ha Hl Hd. apply list_eq. intros i. rewrite !lookup_slice by done.
  destruct (Nat.ltb_spec i (Z.to_nat n)); [|done]. rewrite lookup_splice by done.
  destruct (Nat.leb_spec (Z.to_nat skip) (Z.to_nat a + i)); [|done].
  by rewrite (proj2 (Nat.ltb_ge _ _)) by lia.
Qed.
Lemma splice_slice skip n buf : 0 <= skip -> 0 <= n -> skip + n <= Z.of_nat (length buf) ->
  splice skip (slice skip n buf) buf = buf.
Proof.
  intros. pose proof (length_slice skip n buf ltac:(done) ltac:(done) ltac:(done)).
  apply list_eq. intros i. rewrite lookup_splice by lia.
  destruct (Nat.leb_spec (Z.to_nat skip) i); [|done].
  destruct (Nat.ltb_spec i (Z.to_nat skip + length (slice skip n buf))); [|done]. cbn.
  rewrite lookup_slice by done. rewrite (proj2 (Nat.ltb_lt _ _)) by lia. f_equal. lia.
Qed.
Lemma Forall_splice (P : Z -> Prop) skip new buf :
  Forall P new -> Forall P buf -> Forall P (splice skip new buf).
Proof. intros. unfold splice. rewrite !Forall_app. auto using Forall_take, Forall_drop. Qed.

(** ** The block cache *)

(** Slot [c] holds block [b] of inode [ino]. *)
Definition tagged (ino b : Z) (c : cslot) : bool :=
  (inode_no c =? s32 ino) && (block_no c =? s32 b).
Definition unused (c : cslot) : bool := inode_no c =? -1.

Definition found_slot (slots : list cslot) (ino b : Z) (i : nat) (c : cslot) : Prop :=
  slots !! i = Some c /\ tagged ino b c = true /\
  forall j d, (j < i)%nat -> slots !! j = Some d -> tagged ino b d = false.

Lemma cache_scan_spec slots k ino b free :
  match cache_scan slots k ino b free with
  | (Some i, _) => exists j c, i = (k + j)%nat /\ found_slot slots ino b j c
  | (None, f) => Forall (fun c => tagged ino b c = false) slots /\
      match free with
      | Some _ => f = free
      | None =>
          match f with
          | Some i => exists j c, i = (k + j)%nat /\ slots !! j = Some c /\ unused c = true
          | None => Forall (fun c => unused c = false) slots
          end
      end
  end.
Proof.
  revert k free. induction slots as [|c r IH]; intros k free; cbn [cache_scan].
  { split; [constructor|]. by destruct free. }
  change ((inode_no c =? s32 ino) && (block_no c =? s32 b)) with (tagged ino b c).
  destruct (tagged ino b c) eqn:Et.
  { exists 0%nat, c. split; [lia|]. split; [done|]. split; [done|]. intros; lia. }
  change (inode_no c =? -1) with (unused c).
  assert (forall j d, found_slot r ino b j d -> found_slot (c :: r) ino b (S j) d) as Hsh.
  { intros j d (H1 & H2 & H3). split; [done|]. split; [done|]. intros [|l] e Hl He; [by injection He as <-|].
    apply (H3 l e); [lia|done]. }
  destruct (bool_decide (free = None) && unused c) eqn:Ef.
  - apply andb_prop in Ef as [->%bool_decide_eq_true Hu]. specialize (IH (S k) (Some k)).
    destruct (cache_scan r (S k) ino b (Some k)) as [[i|] f].
    + destruct IH as (j & d & -> & Hf). exists (S j), d. split; [lia|]. by apply Hsh.
    + destruct IH as [Ha ->]. split; [by constructor|]. exists 0%nat, c. split; [lia|done].
  - specialize (IH (S k) free). destruct (cache_scan r (S k) ino b free) as [[i|] f].
    + destruct IH as (j & d & -> & Hf). exists (S j), d. split; [lia|]. by apply Hsh.
    + destruct IH as [Ha Hf]. split; [by constructor|]. destruct free; [done|]. cbn in Ef.
      destruct f as [i|]; [|by constructor].
      destruct Hf as (j & d & -> & Hd & Hu). exists (S j), d. split; [lia|done].
Qed.

(** What the cache holds for a block. *)
Definition view_in (slots : list cslot) (ino b : Z) : option (list Z) :=
  match list_find (fun c => tagged ino b c = true) slots with
  | Some (_, c) => Some (cache c)
  | None => None
  end.

(** Keys that keep their value as a C [int]. *)
Definition key (ino b : Z) : Prop := 0 <= ino < 2 ^ 31 /\ 0 <= b < 2 ^ 31.

Lemma s32_key z : 0 <= z < 2 ^ 31 -> s32 z = z.
Proof. intros. unfold swrap. rewrite Z.mod_small; lia. Qed.

Lemma tagged_key ino b c : key ino b ->
  tagged ino b c = true <-> inode_no c = ino /\ block_no c = b.
Proof.
  intros [Hi Hb]. unfold tagged. rewrite !s32_key by done.
  destruct (Z.eqb_spec (inode_no c) ino), (Z.eqb_spec (block_no c) b); naive_solver.
Qed.

Lemma view_in_found slots ino b i c : found_slot slots ino b i c ->
  view_in slots ino b = Some (cache c).
Proof.
  intros (Hl & Ht & Hlt). unfold view_in.
  replace (list_find _ slots) with (Some (i, c)); [done|]. symmetry.
  apply list_find_Some. split; [done|]. split; [done|]. intros j d Hj Hji.
  by rewrite (Hlt j d Hji Hj).
Qed.
Lemma view_in_none slots ino b :
  Forall (fun c => tagged ino b c = false) slots -> view_in slots ino b = None.
Proof.
  intros H. unfold view_in.
  replace (list_find _ slots) with (@None (nat * cslot)); [done|]. symmetry.
  apply list_find_None. eapply Forall_impl; [exact H|]. intros c Hc. by rewrite Hc.
Qed.
Lemma view_in_cases slots ino b :
  (exists i c, found_slot slots ino b i c) \/ Forall (fun c => tagged ino b c = false) slots.
Proof.
  destruct (list_find (fun c => tagged ino b c = true) slots) as [[i c]|] eqn:E.
  - left. apply list_find_Some in E as (H1 & H2 & H3). exists i, c. split; [done|].
    split; [done|]. intros j d Hj Hd. specialize (H3 j d Hd Hj). by destruct (tagged ino b d).
  - right. apply list_find_None in E. eapply Forall_impl; [exact E|]. intros c Hc.
    by apply not_true_is_false.
Qed.

(** A slot gets new contents. *)
Lemma view_in_update slots ino b i c data : found_slot slots ino b i c -> key ino b ->
  forall ino' b', key ino' b' ->
  view_in (<[i := mkSlot data (inode_no c) (block_no c)]> slots) ino' b' =
    if decide (ino' = ino /\ b' = b) then Some data else view_in slots ino' b'.
Proof.
  intros (Hl & Ht & Hlt) Hk ino' b' Hk'. pose proof (lookup_lt_Some _ _ _ Hl) as Hi.
  set (c' := mkSlot data (inode_no c) (block_no c)).
  assert (forall x y, tagged x y c' = tagged x y c) as Htag by done.
  assert (forall j d', <[i := c']> slots !! j = Some d' ->
    exists d, slots !! j = Some d /\ tagged ino' b' d = tagged ino' b' d') as Hback.
  { intros j d' Hd. destruct (decide (j = i)) as [->|].
    - rewrite list_lookup_insert_eq in Hd by done. injection Hd as <-. by exists c.
    - rewrite list_lookup_insert_ne in Hd by done. by exists d'. }
  destruct (view_in_cases slots ino' b') as [(j & d & Hf)|Hn].
  - pose proof Hf as (Hj & Htj & Hltj).
    rewrite (view_in_found _ _ _ _ _ Hf).
    rewrite (view_in_found _ ino' b' j (if decide (j = i) then c' else d)).
    + destruct (decide (j = i)) as [->|Hne].
      * rewrite Hl in Hj. injection Hj as <-. rewrite decide_True; [done|].
        apply tagged_key in Ht, Htj; [|done..]. naive_solver.
      * rewrite decide_False; [done|]. intros [-> ->].
        destruct (Nat.lt_total j i) as [Hji|[?|Hji]]; [|done|].
        -- by rewrite (Hlt j d Hji Hj) in Htj.
        -- by rewrite (Hltj i c Hji Hl) in Ht.
    + split; [|split].
      * destruct (decide (j = i)) as [->|]; [by rewrite list_lookup_insert_eq|].
        by rewrite list_lookup_insert_ne.
      * destruct (decide (j = i)) as [->|]; [|done]. rewrite Htag. congruence.
      * intros l e Hlj He. destruct (Hback l e He) as (e0 & He0 & <-). by apply (Hltj l).
  - rewrite decide_False.
    + rewrite !view_in_none; [done|done|]. apply Forall_lookup_2. intros j d' Hd.
      destruct (Hback j d' Hd) as (d & Hd0 & <-). by apply (Forall_lookup_1 _ _ _ _ Hn Hd0).
    + intros [-> ->]. by rewrite (Forall_lookup_1 _ _ _ _ Hn Hl) in Ht.
Qed.

(** An unused slot gets a block that is not in the cache. *)
Lemma view_in_load slots ino b i c data : slots !! i = Some c -> unused c = true ->
  Forall (fun c => tagged ino b c = false) slots -> key ino b ->
  found_slot (<[i := mkSlot data ino b]> slots) ino b i (mkSlot data ino b) /\
  forall ino' b', key ino' b' ->
  view_in (<[i := mkSlot data ino b]> slots) ino' b' =
    if decide (ino' = ino /\ b' = b) then Some data else view_in slots ino' b'.
Proof.
  intros Hl Hu Hn Hk. pose proof (lookup_lt_Some _ _ _ Hl) as Hi.
  set (c' := mkSlot data ino b).
  assert (found_slot (<[i := c']> slots) ino b i c') as Hf.
  { split; [by rewrite list_lookup_insert_eq|]. split; [by apply tagged_key|].
    intros j d Hj Hd. rewrite list_lookup_insert_ne in Hd by lia.
    by apply (Forall_lookup_1 _ _ _ _ Hn Hd). }
  split; [done|]. intros ino' b' Hk'. destruct (decide (ino' = ino /\ b' = b)) as [[-> ->]|Hne].
  { by rewrite (view_in_found _ _ _ _ _ Hf). }
  assert (tagged ino' b' c' = false) as Hc'.
  { destruct (tagged ino' b' c') eqn:E; [|done]. apply tagged_key in E; [|done]. cbn in E. naive_solver. }
  assert (tagged ino' b' c = false) as Hc.
  { destruct (tagged ino' b' c) eqn:E; [|done]. apply tagged_key in E; [|done].
    apply Z.eqb_eq in Hu. destruct Hk'. lia. }
  assert (forall j d, <[i := c']> slots !! j = Some d -> j <> i -> slots !! j = Some d) as Hback.
  { intros j d Hd Hji. by rewrite list_lookup_insert_ne in Hd. }
  destruct (view_in_cases slots ino' b') as [(j & d & Hf')|Hn'].
  - rewrite (view_in_found _ _ _ _ _ Hf'). pose proof Hf' as (Hj & Htj & Hltj).
    assert (j <> i) as Hji by congruence. apply (view_in_found _ _ _ j). split; [|split; [done|]].
    + by rewrite list_lookup_insert_ne.
    + intros l e Hlj He. destruct (decide (l = i)) as [->|]; [|by eauto].
      rewrite list_lookup_insert_eq in He by done. congruence.
  - rewrite !view_in_none; [done|done|]. apply Forall_lookup_2. intros j d Hd.
    destruct (decide (j = i)) as [->|].
    + rewrite list_lookup_insert_eq in Hd by done. congruence.
    + by apply (Forall_lookup_1 _ _ _ _ Hn' (Hback j d Hd ltac:(done))).
Qed.

(** Replacing one slot changes the number of slots with a property by the
    difference at that slot. *)
Lemma filter_insert (P : cslot -> Prop) `{!forall c, Decision (P c)} l i c c' :
  l !! i = Some c ->
  (length (filter P (<[i := c']> l)) + (if decide (P c) then 1 else 0) =
   length (filter P l) + (if decide (P c') then 1 else 0))%nat.
Proof.
  intros Hl. pose proof (lookup_lt_Some _ _ _ Hl) as Hi.
  rewrite insert_take_drop by done.
  rewrite <- (take_drop_middle l i c Hl) at 3.
  rewrite !filter_app, !length_app, !filter_cons.
  destruct (decide (P c)), (decide (P c')); cbn; lia.
Qed.

Section specs.
Context {D : Type} `{!BlockDevice D}.
Implicit Type s : fs D.

(** The contents of block [b] of inode [ino] as the partial transfers see
    them: the cached copy, else the disk. *)
Definition lview s (ino b : Z) : list Z := default (content s b) (view_in (sfs_rcache s) ino b).
Definition free_slots s : nat := length (filter (fun c => unused c = true) (sfs_rcache s)).

Record cache_ok s : Prop := mkCacheOk {
  co_len : length (sfs_rcache s) = 64%nat;
  co_blocks : Forall (fun c => block_ok (cache c)) (sfs_rcache s);
  co_small : sp_nblocks (super s) <= 2 ^ 31;
}.

(** [s'] is [s] after a transfer through the cache that leaves [data] as the
    contents of block [b] of inode [ino]. *)
Record touched s (ino b : Z) (data : list Z) s' : Prop := mkTouched {
  to_ok : fs_ok s';
  to_cache : cache_ok s';
  to_files : same_files (with_rcache (sfs_rcache s') s) s';
  to_map : sfs_freemap s' = sfs_freemap s /\ sfs_freemapdirty s' = sfs_freemapdirty s;
  to_content : forall c, content s' c = content s c;
  to_view : forall ino' b', key ino' b' -> view_in (sfs_rcache s') ino' b' =
    if decide (ino' = ino /\ b' = b) then Some data else view_in (sfs_rcache s) ino' b';
  to_free : free_slots s = (free_slots s' +
    match view_in (sfs_rcache s) ino b with Some _ => 0 | None => 1 end)%nat;
}.

(** The buffer after [uiomove(buf + skip, len, u)]. *)
Definition moved_buf (buf : list Z) (skip len : Z) (u : sio) : list Z :=
  match u_rw u with
  | UIO_READ => buf
  | UIO_WRITE => splice skip (take (Z.to_nat len) (u_data u)) buf
  end.

Lemma umove_at_run buf skip len u : sane u -> 0 <= skip -> 0 <= len <= u_resid u ->
  skip + len <= Z.of_nat (length buf) ->
  umove_at buf skip len u =
    Done (0, moved_buf buf skip len u, took u len (slice skip len buf)) /\
  u_resid (took u len (slice skip len buf)) = u_resid u - len /\
  u_off (took u len (slice skip len buf)) = u_off u + len /\
  sane (took u len (slice skip len buf)).
Proof.
  intros Hu Hs Hl Hb. pose proof (length_slice skip len buf Hs ltac:(lia) Hb) as Hlen.
  destruct (umove_spec (slice skip len buf) u Hu ltac:(lia)) as (Hm & Hrest). rewrite Hlen in *.
  split; [|done]. unfold umove_at. rewrite Hm. cbn [mbind outcome_bind].
  do 3 f_equal. unfold filled, moved_buf. destruct (u_rw u); [by apply splice_slice; lia|].
  f_equal. rewrite (drop_ge (slice skip len buf)) by lia. apply app_nil_r.
Qed.

Lemma moved_buf_ok buf skip len u : sane u -> block_ok buf -> 0 <= skip -> 0 <= len <= u_resid u ->
  skip + len <= 512 -> Forall (fun x => 0 <= x < 256) (u_data u) ->
  block_ok (moved_buf buf skip len u).
Proof.
  intros Hu [Hl Hb] Hs Hn Hsn Hd. unfold moved_buf. destruct (u_rw u) eqn:E; [done|].
  pose proof (sn_data _ Hu E). split.
  - rewrite length_splice; [done|done|]. rewrite length_take. lia.
  - apply Forall_splice; [by apply Forall_take|done].
Qed.

(** [uiomove] through slot [i], with the cache lock released after it. *)
Lemma move_slot_run s e i c skip len u : cache_ok s -> sfs_rcache s !! i = Some c ->
  sane u -> 0 <= skip -> 0 <= len <= u_resid u -> skip + len <= 512 ->
  BcacheLock ∉ held e -> ker s = with_held (BcacheLock :: held e) e ->
  ('(result, u') ← move_slot i skip len u; _ ← lock_release BcacheLock; mret (result, u')) s =
    Done ((0, took u len (slice skip len (cache c))),
      with_ker e (with_rcache (<[i := mkSlot (moved_buf (cache c) skip len u)
        (inode_no c) (block_no c)]> (sfs_rcache s)) s)).
Proof.
  intros [_ Hb _] Hc Hu Hs Hl Hsl He Hk. destruct (Forall_lookup_1 _ _ _ _ Hb Hc) as [Hcl _].
  destruct (umove_at_run (cache c) skip len u Hu Hs Hl ltac:(lia)) as (Hm & _).
  rewrite (bind_Done _ _ _ (0, took u len (slice skip len (cache c))) (with_rcache
    (<[i := mkSlot (moved_buf (cache c) skip len u) (inode_no c) (block_no c)]> (sfs_rcache s)) s)).
  2:{ unfold move_slot, slot. mrun. rewrite Hc, Hm. done. }
  by rewrite (bind_Done _ _ _ _ _ (lock_release_run _ (with_rcache _ s) e He Hk)).
Qed.

Lemma unused_decide c : (if decide (unused c = true) then 1 else 0)%nat = if unused c then 1%nat else 0%nat.
Proof. by destruct (unused c). Qed.

(** The transfer of a block that is cached, or for which a slot is free. *)
Lemma partial_cached_run s v sv b skip len u : fs_ok s -> cache_ok s ->
  vheap s !! v = Some sv -> key (sv_ino sv) b -> 0 <= b < sp_nblocks (super s) ->
  BcacheLock ∉ held (ker s) -> sane u -> Forall (fun x => 0 <= x < 256) (u_data u) ->
  0 <= skip -> 0 <= len <= u_resid u -> skip + len <= 512 ->
  (view_in (sfs_rcache s) (sv_ino sv) b <> None \/ (0 < free_slots s)%nat) ->
  exists s', partial_cached v b skip len u s =
      Done ((0, took u len (slice skip len (lview s (sv_ino sv) b))), s') /\
    touched s (sv_ino sv) b (moved_buf (lview s (sv_ino sv) b) skip len u) s'.
Proof.
  intros Hok Hco Hv Hkey Hb Hh Hu Hby Hs Hl Hsl Hroom. set (ino := sv_ino sv) in *.
  pose proof (co_blocks _ Hco) as Hcb.
  set (s0 := with_ker (with_held (BcacheLock :: held (ker s)) (ker s)) s).
  unfold partial_cached. rewrite (bind_Done _ _ _ _ _ (lock_acquire_run _ _ Hh)).
  rewrite (bind_Done _ _ _ sv s0) by (unfold vnode; cbn; by rewrite Hv).
  unfold mgets. rewrite (bind_Done _ _ _ _ _ eq_refl). fold ino.
  change (sfs_rcache s0) with (sfs_rcache s).
  pose proof (cache_scan_spec (sfs_rcache s) 0 ino b None) as Hsc.
  destruct (cache_scan (sfs_rcache s) 0 ino b None) as [[i|] f].
  - destruct Hsc as (j & c & -> & Hf). cbn [Nat.add]. pose proof Hf as (Hlk & Htag & _).
    rewrite (view_in_found _ _ _ _ _ Hf) in Hroom.
    assert (lview s ino b = cache c) as -> by (unfold lview; by rewrite (view_in_found _ _ _ _ _ Hf)).
    unfold partial_hit. eexists. split.
    { apply (move_slot_run s0 (ker s)); try done. by destruct Hco; constructor. }
    pose proof (Forall_lookup_1 _ _ _ _ Hcb Hlk) as Hbo. cbn in Hbo.
    constructor; cbn; try done.
    + by destruct Hok; constructor.
    + destruct Hco. constructor; cbn; [by rewrite length_insert| |done].
      apply Forall_insert; [done|]. by apply moved_buf_ok.
    + by apply view_in_update.
    + unfold free_slots. cbn. rewrite (view_in_found _ _ _ _ _ Hf).
      pose proof (filter_insert (fun c => unused c = true) (sfs_rcache s) j c
        (mkSlot (moved_buf (cache c) skip len u) (inode_no c) (block_no c)) Hlk) as Hcnt.
      cbv beta in Hcnt. rewrite !unused_decide in Hcnt. change (unused (mkSlot ?d (inode_no c) ?b)) with (unused c) in Hcnt. lia.
  - destruct Hsc as [Hnone Hf]. rewrite (view_in_none _ _ _ Hnone) in Hroom.
    destruct f as [i|].
    2:{ destruct Hroom as [?|Hpos]; [done|]. unfold free_slots in Hpos.
        destruct (filter (fun c => unused c = true) (sfs_rcache s)) as [|c l] eqn:E; [cbn in Hpos; lia|].
        assert (c ∈ filter (fun c => unused c = true) (sfs_rcache s)) as [Hc1 Hc2]%list_elem_of_filter
          by (rewrite E; by left).
        rewrite Forall_forall in Hf. by rewrite Hf in Hc1. }
    destruct Hf as (j & c & -> & Hlk & Hun). cbn [Nat.add].
    assert (lview s ino b = content s b) as -> by (unfold lview; by rewrite (view_in_none _ _ _ Hnone)).
    destruct (Forall_lookup_1 _ _ _ _ Hcb Hlk) as [Hcl _].
    pose proof (ok_blocks _ Hok). pose proof (ok_dmax _ Hok).
    destruct (rblock_ok (cache c) b (sfs_device s)) as (d1 & Hr & Hh1 & Hn1 & Hc1);
      [apply Hok|lia|lia|done|].
    destruct Hkey as [Hki Hkb]. pose proof (conj Hki Hkb : key ino b) as Hkey.
    destruct (view_in_load (sfs_rcache s) ino b j c (content s b) Hlk Hun Hnone Hkey) as [Hfs _].
    destruct (view_in_load (sfs_rcache s) ino b j c (moved_buf (content s b) skip len u) Hlk Hun Hnone Hkey)
      as [_ Hvw].
    set (s1 := with_rcache (<[j := mkSlot (content s b) ino b]> (sfs_rcache s)) (with_device d1 s0)).
    pose proof (content_ok s b Hok) as Hcok.
    assert (cache_ok s1) as Hco1.
    { destruct Hco. constructor; cbn; [by rewrite length_insert| |done]. by apply Forall_insert. }
    eexists. split.
    { unfold partial_load. rewrite (bind_Done _ _ _ c s0) by (unfold slot; cbn; by rewrite Hlk).
      rewrite (bind_Done _ _ _ _ _ (on_device_run _ s0 _ _ Hr)).
      rewrite !s32_key by done. rewrite (bind_Done _ _ _ tt s1) by done.
      apply (move_slot_run s1 (ker s) j (mkSlot (content s b) ino b)); try done. apply Hfs. }
    cbn [cache inode_no block_no s1 with_rcache sfs_rcache].
    rewrite list_insert_insert_eq.
    constructor; cbn; try done.
    + destruct Hok. constructor; cbn; try done; by rewrite Hn1.
    + destruct Hco. constructor; cbn; [by rewrite length_insert| |done].
      apply Forall_insert; [done|]. by apply moved_buf_ok.
    + unfold free_slots. cbn. rewrite (view_in_none _ _ _ Hnone).
      pose proof (filter_insert (fun c => unused c = true) (sfs_rcache s) j c
        (mkSlot (moved_buf (content s b) skip len u) ino b) Hlk) as Hcnt.
      cbv beta in Hcnt. rewrite !unused_decide, Hun in Hcnt. change (unused (mkSlot ?d ino b)) with (ino =? -1) in Hcnt.
      rewrite (proj2 (Z.eqb_neq ino (-1))) in Hcnt by lia. lia.
Qed.

(** ** Partial transfers *)

Lemma fs_ok_ker e s : fs_ok s -> fs_ok (with_ker e s).
Proof. intros []. by constructor. Qed.
Lemma valid_ker e s i : valid s i -> valid (with_ker e s) i.
Proof. intros []. by constructor. Qed.
Lemma cache_ok_ker e s : cache_ok s -> cache_ok (with_ker e s).
Proof. intros []. by constructor. Qed.

Lemma bmap_post_ker e s v sv fb da r s1 : bmap_post (with_ker e s) v sv fb da r s1 ->
  bmap_post s v sv fb da r (with_ker (ker s) s1) /\ ker s1 = e.
Proof.
  intros (i' & dirty & Hmk & Hh & Hrest & [] & Hr). destruct Hrest as (E1 & E2 & E3 & E4 & E5).
  split; [|done]. exists i', dirty. split; [done|]. split; [done|]. split; [done|]. split.
  { constructor; try done; [by apply fs_ok_ker|by apply valid_ker]. }
  destruct r as [err|b]; [|done].
  destruct Hr as [(-> & Hfb & ->)|Hr]; [left|by right]. split; [done|]. split; [done|].
  by destruct s.
Qed.

(** [sfs_bmap] under its lock. *)
Lemma locked_bmap s v sv fb da : fs_ok s -> valid s (sv_i sv) -> vheap s !! v = Some sv ->
  0 <= fb -> BmapLock ∉ held (ker s) ->
  exists r s1, (_ ← lock_acquire BmapLock; r ← sfs_bmap v fb da;
      _ ← lock_release BmapLock; mret r) s = Done (r, s1) /\ bmap_post s v sv fb da r s1.
Proof.
  intros Hok Hv Hsv Hfb Hl. set (e := with_held (BmapLock :: held (ker s)) (ker s)).
  destruct (bmap_spec (with_ker e s) v sv fb da) as (r & s1 & Hr & Hp);
    [by apply fs_ok_ker|by apply valid_ker|done|done|].
  destruct (bmap_post_ker _ _ _ _ _ _ _ _ Hp) as [Hp' Hk].
  exists r, (with_ker (ker s) s1). split; [|done].
  rewrite (bind_Done _ _ _ _ _ (lock_acquire_run _ _ Hl)), (bind_Done _ _ _ _ _ Hr).
  by rewrite (bind_Done _ _ _ _ _ (lock_release_run _ s1 (ker s) Hl Hk)).
Qed.

(** The block [fb] of the file can be transferred without a replacement. *)
Definition reach s (sv : svnode) (fb : Z) (da : bool) : Prop :=
  (ptr s (sv_i sv) fb = 0 /\ da = false) \/
  (ptr s (sv_i sv) fb <> 0 /\ view_in (sfs_rcache s) (sv_ino sv) (ptr s (sv_i sv) fb) <> None) \/
  (0 < free_slots s)%nat.

(** No lock of the file system is held by the running thread. *)
Definition unlocked s : Prop :=
  (BmapLock ∉ held (ker s)) /\ (BcacheLock ∉ held (ker s)).

(** A transfer of [len] bytes from offset [skip] of block [fb] on. *)
Record within (u : sio) (fb skip len : Z) : Prop := mkWithin {
  wi_sane : sane u;
  wi_bytes : Forall (fun x => 0 <= x < 256) (u_data u);
  wi_off : u_off u = fb * 512 + skip;
  wi_skip : 0 <= skip;
  wi_len : 0 <= len <= u_resid u;
  wi_fit : skip + len <= 512;
  wi_fb : 0 <= fb < 2 ^ 32;
}.

Definition block_view s (ino b : Z) : list Z := if b =? 0 then zeros else lview s ino b.

Lemma partialio_run s v sv fb skip len u : fs_ok s -> cache_ok s -> valid s (sv_i sv) ->
  vheap s !! v = Some sv -> 0 <= sv_ino sv < 2 ^ 31 -> unlocked s -> reach s sv fb (doalloc u) ->
  within u fb skip len -> skip < 512 ->
  exists r s1, bmap_post s v sv fb (doalloc u) r s1 /\
  match r with
  | Err e => sfs_partialio v u skip len s = Done ((e, u), s1)
  | Ok b => exists s',
      sfs_partialio v u skip len s =
        Done ((0, took u len (slice skip len (block_view s1 (sv_ino sv) b))), s') /\
      if b =? 0 then s' = s1
      else touched s1 (sv_ino sv) b (moved_buf (lview s1 (sv_ino sv) b) skip len u) s'
  end.
Proof.
  intros Hok Hco Hv Hsv Hino [Hl1 Hl2] Hre [Hu Hby Hoff Hs Hl Hsl Hfb] Hsk.
  destruct (locked_bmap s v sv fb (doalloc u) Hok Hv Hsv ltac:(lia) Hl1) as (r & s1 & Hr & Hp).
  assert (sfs_partialio v u skip len s =
    match r with
    | Err e => mret (e, u)
    | Ok diskblock =>
        if diskblock =? 0 then
          _ ← kassert (negb (doalloc u)); partial_iobuf zeros diskblock skip len u
        else partial_cached v diskblock skip len u
    end s1) as Hrun.
  { unfold sfs_partialio, SFS_BLOCKSIZE. rewrite (uwrap_small 32 (skip + len)) by lia.
    rewrite (proj2 (Z.leb_le _ _)) by lia. unfold kassert. rewrite (bind_Done _ _ _ _ _ eq_refl).
    rewrite Hoff. replace ((fb * 512 + skip) / 512) with fb by dlia.
    rewrite (uwrap_small 32 fb) by lia. revert Hr. mrun.
    destruct (lock_acquire BmapLock s) as [[[] s2]|]; [|done].
    destruct (sfs_bmap v fb (doalloc u) s2) as [[r' s3]|]; [|done].
    destruct (lock_release BmapLock s3) as [[[] s4]|]; [|done]. by intros [= <- <-]. }
  exists r, s1. split; [done|]. destruct r as [e|b]; [exact Hrun|].
  destruct Hp as (i' & dirty & Hmk & Hh & (E1 & E2 & E3 & E4 & E5) & He & Hfb143 & Hpt & Hna & Hks & Hif).
  rewrite Hrun. unfold block_view. destruct (Z.eqb_spec b 0) as [->|Hb0].
  - destruct (doalloc u) eqn:Eda; [by destruct Hna|].
    unfold kassert. cbn [negb]. rewrite (bind_Done _ _ _ _ _ eq_refl).
    exists s1. split; [|done]. unfold partial_iobuf.
    destruct (umove_at_run zeros skip len u Hu Hs Hl Hsl) as (Hm & _).
    rewrite (bind_Done _ _ _ (0, moved_buf zeros skip len u, took u len (slice skip len zeros)) s1)
      by (unfold mlift; by rewrite Hm). cbn [Z.eqb negb].
    unfold doalloc in Eda. by destruct (u_rw u).
  - pose proof (co_small _ Hco). rewrite <- E1 in *.
    destruct (va_marked _ _ (ex_valid _ _ _ _ He) fb ltac:(lia)) as [Hbr _]; [congruence|].
    rewrite Hpt in Hbr.
    assert (cache_ok s1) as Hco1.
    { destruct Hco. constructor; by rewrite ?E4, ?E1. }
    apply (partial_cached_run s1 v (set_inode i' dirty sv)); try done.
    + apply He.
    + by rewrite Hh, lookup_insert_eq.
    + cbn. split; lia.
    + lia.
    + by rewrite E5.
    + rewrite E4. cbn. destruct Hre as [[Hp0 Hd]|[[Hp0 Hc]|Hfr]];
        [|left|right; unfold free_slots; by rewrite E4].
      { rewrite Hd, decide_False in Hif by naive_solver. destruct Hif as (Hb & _). congruence. }
      rewrite decide_False in Hif by naive_solver. destruct Hif as (-> & _). done.
Qed.

(** ** Transfers inside one block of a file *)

Lemma io_body_within v u fb skip e u' s s' : within u fb skip (u_resid u) ->
  0 < u_resid u < 512 -> skip < 512 ->
  sfs_partialio v u skip (u_resid u) s = Done ((e, u'), s') ->
  (e = 0 -> u_resid u' = 0) -> io_body v u s = Done ((e, u'), s').
Proof.
  intros [Hu _ Hoff Hs _ Hfit _] Hr Hsk Hrun Hz. unfold io_body, SFS_BLOCKSIZE. rewrite Hoff.
  replace ((fb * 512 + skip) mod 512) with skip by dlia.
  destruct (Z.eqb_spec skip 0) as [->|Hne]; cbn [negb].
  - unfold mret at 1, M_ret. rewrite (bind_Done _ _ _ (0, u) s) by done. cbn [Z.eqb negb].
    rewrite (proj2 (Z.eqb_neq (u_resid u) 0)) by lia. rewrite Hoff.
    replace ((fb * 512 + 0) mod 512) with 0 by dlia. unfold kassert. cbn [Z.eqb].
    rewrite (bind_Done _ _ _ _ _ eq_refl). rewrite Z.div_small by lia.
    rewrite (bind_Done _ _ _ (0, u) s) by done. cbn [Z.eqb negb].
    rewrite (proj2 (Z.ltb_lt _ 512)) by lia. rewrite (bind_Done _ _ _ _ _ eq_refl).
    by rewrite (proj2 (Z.ltb_lt 0 _)) by lia.
  - replace (if u_resid u <? 512 - skip then u_resid u else 512 - skip) with (u_resid u)
      by (destruct (Z.ltb_spec (u_resid u) (512 - skip)); lia).
    rewrite (bind_Done _ _ _ _ _ Hrun). destruct (Z.eqb_spec e 0) as [->|]; cbn [negb]; [|done].
    by rewrite Hz.
Qed.

Lemma with_resid_id r u : u_resid u = r -> with_resid r u = u.
Proof. intros <-. by destruct u. Qed.

(** The contents of block [k] of a file. *)
Definition fview s (sv : svnode) (k : Z) : list Z :=
  block_view s (sv_ino sv) (ptr s (sv_i sv) k).

(** [s'] is [s] after reading: nothing but the set of cached blocks differs. *)
Record reads s s' : Prop := mkReads {
  re_ok : fs_ok s';
  re_cache : cache_ok s';
  re_files : same_files (with_rcache (sfs_rcache s') s) s';
  re_map : sfs_freemap s' = sfs_freemap s;
  re_content : forall c, content s' c = content s c;
  re_view : forall ino b, key ino b -> lview s' ino b = lview s ino b;
  re_keys : forall ino b, key ino b -> view_in (sfs_rcache s') ino b <> None ->
    view_in (sfs_rcache s) ino b <> None \/ marked s b = true;
}.

Lemma reads_refl s : fs_ok s -> cache_ok s -> reads s s.
Proof. intros. constructor; try done. by left. Qed.

Lemma reads_ptr s s' i k : reads s s' -> ptr s' i k = ptr s i k.
Proof. intros Hr. unfold ptr, entries. by rewrite (re_content _ _ Hr). Qed.
Lemma reads_marked s s' b : reads s s' -> marked s' b = marked s b.
Proof. intros Hr. unfold marked. by rewrite (re_map _ _ Hr). Qed.
Lemma reads_valid s s' i : reads s s' -> valid s i -> valid s' i.
Proof.
  intros Hr [V1 V2 V3]. destruct (re_files _ _ Hr) as (E & _).
  constructor; [done|..]; intros; rewrite ?(reads_ptr s s'), ?(reads_marked s s'), ?E in * by done; eauto.
Qed.
Lemma reads_heap s s' : reads s s' -> vheap s' = vheap s /\ ker s' = ker s /\ super s' = super s.
Proof. intros Hr. by destruct (re_files _ _ Hr) as (? & _ & _ & ? & _ & ?). Qed.

Lemma reads_trans s1 s2 s3 : reads s1 s2 -> reads s2 s3 -> reads s1 s3.
Proof.
  intros H1 H2. destruct (re_files _ _ H1) as (? & ? & ? & ? & ? & ?).
  destruct (re_files _ _ H2) as (? & ? & ? & ? & ? & ?).
  pose proof (re_map _ _ H1). pose proof (re_map _ _ H2). constructor.
  - apply H2.
  - apply H2.
  - cbn in *. unfold same_files. cbn. split; [congruence|]. split; [congruence|].
    split; [congruence|]. split; [congruence|]. split; congruence.
  - congruence.
  - intros c. by rewrite (re_content _ _ H2), (re_content _ _ H1).
  - intros ino b Hk. by rewrite (re_view _ _ H2), (re_view _ _ H1).
  - intros ino b Hk Hn. destruct (re_keys _ _ H2 ino b Hk Hn) as [Hc|Hm].
    + by apply (re_keys _ _ H1).
    + right. by rewrite <- (reads_marked s1 s2).
Qed.

Lemma ptr_range s i k : valid s i -> cache_ok s -> 0 <= k -> 0 <= ptr s i k < 2 ^ 31.
Proof.
  intros Hv Hc Hk. pose proof (co_small _ Hc).
  destruct (decide (ptr s i k = 0)) as [->|Hne]; [lia|].
  destruct (va_marked _ _ Hv k Hk Hne). lia.
Qed.

Lemma reads_fview s s' sv k : reads s s' -> valid s (sv_i sv) -> cache_ok s ->
  0 <= sv_ino sv < 2 ^ 31 -> 0 <= k -> fview s' sv k = fview s sv k.
Proof.
  intros Hr Hv Hc Hi Hk. unfold fview, block_view. rewrite (reads_ptr s s') by done.
  destruct (_ =? 0); [done|]. apply (re_view _ _ Hr). split; [done|]. by apply ptr_range.
Qed.

(** Writing back what was there is a read. *)
Lemma touched_reads s ino b s' : touched s ino b (lview s ino b) s' -> fs_ok s -> key ino b ->
  marked s b = true -> reads s s'.
Proof.
  intros [] Hok Hk Hm. constructor; try done.
  - by destruct to_map0.
  - intros ino' b' Hk'. unfold lview at 1. rewrite to_view0 by done.
    destruct (decide (ino' = ino /\ b' = b)) as [[-> ->]|]; [done|].
    unfold lview. by rewrite to_content0.
  - intros ino' b' Hk'. rewrite to_view0 by done.
    destruct (decide (ino' = ino /\ b' = b)) as [[-> ->]|]; [by right|by left].
Qed.

(** What the transfers need of the file system and the vnode. *)
Record ready s (v : Z) (sv : svnode) : Prop := mkReady {
  rd_ok : fs_ok s;
  rd_cache : cache_ok s;
  rd_valid : valid s (sv_i sv);
  rd_vnode : vheap s !! v = Some sv;
  rd_ino : 0 <= sv_ino sv < 2 ^ 31;
  rd_locks : unlocked s;
}.

Lemma reads_ready s s' v sv : reads s s' -> ready s v sv -> ready s' v sv.
Proof.
  intros Hr []. destruct (reads_heap _ _ Hr) as (E1 & E2 & _).
  constructor; [apply Hr|apply Hr|by apply (reads_valid s)|by rewrite E1|done|].
  unfold unlocked. by rewrite E2.
Qed.

(** The cached keys of [s'] are those of [s] and block [b] of [ino]. *)
Definition loads s (ino b : Z) s' : Prop :=
  (forall b', key ino b' -> view_in (sfs_rcache s') ino b' = None <->
     view_in (sfs_rcache s) ino b' = None /\ (b' <> b \/ b = 0)) /\
  free_slots s = (free_slots s' +
    (if decide (b = 0%Z) then 0%nat
     else match view_in (sfs_rcache s) ino b with Some _ => 0 | None => 1 end))%nat.

Lemma block_view_length s ino b : fs_ok s -> cache_ok s -> length (block_view s ino b) = 512%nat.
Proof.
  intros Hok Hc. unfold block_view. destruct (b =? 0); [done|]. unfold lview.
  destruct (view_in_cases (sfs_rcache s) ino b) as [(i & c & Hf)|Hn].
  - rewrite (view_in_found _ _ _ _ _ Hf). cbn.
    by destruct (Forall_lookup_1 _ _ _ _ (co_blocks _ Hc) (proj1 Hf)).
  - rewrite (view_in_none _ _ _ Hn). cbn. by apply block_length, Hok.
Qed.

Lemma io_read_within s v sv fb skip u : ready s v sv -> u_rw u = UIO_READ ->
  within u fb skip (u_resid u) -> 0 < u_resid u < 512 -> skip < 512 -> fb < 143 ->
  u_off u + u_resid u <= sfi_size (sv_i sv) -> reach s sv fb false ->
  exists s', sfs_io v u s = Done ((0, took u (u_resid u) (slice skip (u_resid u) (fview s sv fb))), s') /\
    reads s s' /\ loads s (sv_ino sv) (ptr s (sv_i sv) fb) s'.
Proof.
  intros Hrd Hrw Hw Hr Hsk Hfb Hsz Hre. pose proof Hrd as [Hok Hco Hv Hsv Hi Hl].
  assert (doalloc u = false) as Hda by (unfold doalloc; by rewrite Hrw).
  rewrite <- Hda in Hre. pose proof (wi_fb _ _ _ _ Hw) as Hfb0.
  destruct (partialio_run s v sv fb skip (u_resid u) u Hok Hco Hv Hsv Hi Hl Hre Hw Hsk)
    as (r & s1 & Hp & Hrun). rewrite Hda in Hp.
  destruct r as [e|b].
  { destruct Hp as (i' & dirty & _ & _ & _ & _ & [(_ & ? & _)|(_ & ? & _)]); [lia|done]. }
  destruct Hp as (i' & dirty & _ & Hh & (E1 & E2 & E3 & E4 & E5) & He & _ & _ & _ & _ & Hif).
  rewrite decide_False in Hif by naive_solver. destruct Hif as (-> & -> & -> & Hm & Hc).
  rewrite set_inode_id, insert_id in Hh by done.
  set (b := ptr s (sv_i sv) fb) in *.
  assert (reads s s1) as Hr1.
  { constructor; [apply He| |done| |done| |].
    - destruct Hco. constructor; by rewrite ?E4, ?E1.
    - done.
    - intros ino b' _. unfold lview. by rewrite E4, Hc.
    - intros ino b' _ Hn. left. by rewrite <- E4. }
  assert (block_view s1 (sv_ino sv) b = fview s sv fb) as Hbv.
  { unfold fview, block_view. fold b. destruct (b =? 0); [done|]. unfold lview. by rewrite E4, Hc. }
  rewrite Hbv in Hrun. destruct Hrun as (s2 & Hrun & Ht).
  set (u' := took u (u_resid u) (slice skip (u_resid u) (fview s sv fb))) in *.
  assert (length (fview s sv fb) = 512%nat) as Hlen.
  { rewrite <- Hbv. apply block_view_length; [apply He|apply Hr1]. }
  assert (u_resid u' = 0 /\ u_rw u' = UIO_READ) as [Hz Hrw'].
  { split; [|done]. destruct (umove_at_run (fview s sv fb) skip (u_resid u) u) as (_ & Hz & _).
    - apply Hw.
    - apply Hw.
    - lia.
    - rewrite Hlen. apply Hw.
    - fold u' in Hz. lia. }
  assert (reads s s2 /\ loads s (sv_ino sv) b s2) as [Hr2 Hld].
  { destruct (Z.eqb_spec b 0) as [Hb0|Hb0].
    - subst s2. split; [done|]. unfold loads, free_slots. rewrite E4, decide_True by done.
      split; [naive_solver|lia].
    - assert (key (sv_ino sv) b) as Hk by (split; [done|]; by apply ptr_range; [| |lia]).
      assert (moved_buf (lview s1 (sv_ino sv) b) skip (u_resid u) u = lview s1 (sv_ino sv) b) as Emb
        by (unfold moved_buf; by rewrite Hrw). rewrite Emb in Ht. split.
      + apply (reads_trans s s1); [done|]. apply (touched_reads s1 (sv_ino sv) b); [done|apply He|done|].
        rewrite (reads_marked s s1) by done. by apply Hv; [lia|].
      + unfold loads. rewrite decide_False by done. destruct Ht. unfold free_slots in *.
        rewrite <- E4. split; [|done]. intros b' Hk'. rewrite to_view0 by done.
        destruct (decide (sv_ino sv = sv_ino sv /\ b' = b)); naive_solver. }
  exists s2. split; [|done]. unfold sfs_io. rewrite (bind_Done _ _ _ _ _ (vnode_run _ _ _ Hsv)).
  rewrite Hrw. rewrite (proj2 (Z.leb_gt _ _)), (proj2 (Z.ltb_ge _ _)) by lia.
  rewrite (bind_Done _ _ _ _ _ (io_body_within v u fb skip 0 u' s s2 Hw Hr Hsk Hrun (fun _ => Hz))).
  unfold io_out. destruct (reads_heap _ _ Hr2) as (Eh & _).
  rewrite (bind_Done _ _ _ sv s2) by (apply vnode_run; by rewrite Eh).
  unfold doalloc. rewrite Hrw'. cbn [andb]. rewrite (bind_Done _ _ _ tt s2) by done.
  unfold mret, M_ret. do 3 f_equal. rewrite Hz. by apply with_resid_id.
Qed.

(** No cached copy of a free block is left over from an earlier owner. *)
Definition fresh_cache s (ino : Z) : Prop :=
  forall b, key ino b -> view_in (sfs_rcache s) ino b <> None -> marked s b = true.

Lemma reads_fresh s s' ino : reads s s' -> fresh_cache s ino -> fresh_cache s' ino.
Proof.
  intros Hr Hf b Hk Hn. rewrite (reads_marked s s') by done.
  destruct (re_keys _ _ Hr ino b Hk Hn); auto.
Qed.

(** The data blocks of a file and its indirect block are distinct. *)
Lemma ptr_indirect s i k : valid s i -> 0 <= k < 143 -> ptr s i k <> 0 ->
  ptr s i k <> sfi_indirect i.
Proof.
  intros Hv Hk Hne E. rewrite <- (ptr_143 s i) in E.
  pose proof (va_inj _ _ Hv k 143 ltac:(lia) ltac:(lia) E Hne). lia.
Qed.

Lemma extends_content s i s1 i1 k : valid s i -> extends s i s1 i1 -> 0 <= k < 143 ->
  ptr s i k <> 0 -> content s1 (ptr s i k) = content s (ptr s i k).
Proof.
  intros Hv He Hk Hne. destruct (va_marked _ _ Hv k ltac:(lia) Hne).
  apply (ex_content _ _ _ _ He); [lia|done|]. by apply ptr_indirect.
Qed.

(** [s'], [sv'] are the state and the vnode after a transfer that leaves
    block [fb] of the file with contents [new] and the others as they were. *)
Record wrote s (v : Z) (sv : svnode) (fb : Z) (new : list Z) s' (sv' : svnode) : Prop := mkWrote {
  wr_ready : ready s' v sv';
  wr_fresh : fresh_cache s' (sv_ino sv);
  wr_heap : vheap s' = <[v := sv']> (vheap s);
  wr_same : sv_ino sv' = sv_ino sv /\ vn_refcount sv' = vn_refcount sv /\
    vn_opencount sv' = vn_opencount sv /\ vn_isdir sv' = vn_isdir sv /\
    sfi_type (sv_i sv') = sfi_type (sv_i sv) /\ sfi_linkcount (sv_i sv') = sfi_linkcount (sv_i sv);
  wr_ptr : forall k, 0 <= k -> (k < 143 /\ k <> fb) \/ ptr s (sv_i sv) k <> 0 ->
    ptr s' (sv_i sv') k = ptr s (sv_i sv) k;
  wr_dirty : marks sv (sv_i sv') (sv_dirty sv');
  wr_view : forall k, 0 <= k < 143 ->
    fview s' sv' k = if k =? fb then new else fview s sv k;
  wr_other : forall ino b, key ino b -> ino <> sv_ino sv -> marked s b = true ->
    b <> sfi_indirect (sv_i sv) -> lview s' ino b = lview s ino b;
  wr_marked : forall b, 0 <= b -> marked s b = true -> marked s' b = true;
  wr_reach : reach s sv fb true -> reach s' sv' fb false;
  wr_rest : super s' = super s /\ sfs_vnodes s' = sfs_vnodes s /\ ker s' = ker s;
}.

(** The end of [sfs_io] after a write. *)
Lemma io_out_write s v sv e u : ready s v sv -> u_rw u = UIO_WRITE ->
  0 <= u_resid u < 2 ^ 32 -> 0 <= u_off u < 2 ^ 32 ->
  exists s' sv', io_out v e 0 u s = Done ((e, u), s') /\
    s' = with_vheap (<[v := sv']> (vheap s)) s /\
    (exists d, marks sv (set_size (Z.max (sfi_size (sv_i sv)) (u_off u)) (sv_i sv)) d /\
       sv' = set_inode (set_size (Z.max (sfi_size (sv_i sv)) (u_off u)) (sv_i sv)) d sv).
Proof.
  intros Hrd Hrw Hr Ho. pose proof (rd_vnode _ _ _ Hrd) as Hv.
  assert (with_resid (u32 (u_resid u + 0)) u = u) as Eu
    by (apply with_resid_id; rewrite Z.add_0_r, uwrap_small; lia).
  unfold io_out. rewrite (bind_Done _ _ _ _ _ (vnode_run _ _ _ Hv)).
  unfold doalloc. rewrite Hrw. cbn [andb]. destruct (Z.ltb_spec (sfi_size (sv_i sv)) (u_off u)).
  - do 2 eexists. split; [|split; [reflexivity|]].
    + unfold put_vnode, mmodify. rewrite (bind_Done _ _ _ _ _ eq_refl). rewrite Eu. reflexivity.
    + exists true. split; [apply marks_new|]. rewrite uwrap_small by done. by rewrite Z.max_r by lia.
  - exists s, sv. split; [|split].
    + rewrite (bind_Done _ _ _ tt s) by done. by rewrite Eu.
    + rewrite insert_id by done. by destruct s.
    + exists (sv_dirty sv). rewrite Z.max_l by lia. destruct sv as [? ? ? [] ? ?]. split; [by right|done].
Qed.

Lemma set_size_ok n i : inode_ok i -> 0 <= n < 2 ^ 32 -> inode_ok (set_size n i).
Proof. intros []. by constructor. Qed.

(** Only the vnode [v] is replaced, by one with the same block pointers. *)
Lemma ready_resize s v sv n d : ready s v sv -> 0 <= n < 2 ^ 32 ->
  ready (with_vheap (<[v := set_inode (set_size n (sv_i sv)) d sv]> (vheap s)) s) v
    (set_inode (set_size n (sv_i sv)) d sv).
Proof.
  intros [Hok Hco Hv Hsv Hi Hl] Hn.
  constructor; [by apply fs_ok_vheap|by destruct Hco; constructor| |cbn; by rewrite lookup_insert_eq|done|done].
  destruct Hv. constructor; [by apply set_size_ok|done|done].
Qed.

Lemma wrote_resize s v sv fb new s' sv' n d : wrote s v sv fb new s' sv' -> 0 <= n < 2 ^ 32 ->
  marks sv' (set_size n (sv_i sv')) d ->
  wrote s v sv fb new
    (with_vheap (<[v := set_inode (set_size n (sv_i sv')) d sv']> (vheap s')) s')
    (set_inode (set_size n (sv_i sv')) d sv').
Proof.
  intros [Hrd Hf Hh Hsm Hpt Hd Hw Ho Hm Hr] Hn Hmk. constructor; try done.
  - by apply ready_resize.
  - cbn. by rewrite Hh, insert_insert_eq.
  - cbn. destruct Hmk as [->|[-> ->]]; [apply marks_new|exact Hd].
Qed.

(** After [sfs_bmap] the views of the blocks it did not allocate are the same. *)
Lemma bmap_view s v sv s1 i1 k : ready s v sv -> same_rest s s1 ->
  extends s (sv_i sv) s1 i1 -> 0 <= k < 143 ->
  ptr s1 i1 k = ptr s (sv_i sv) k ->
  block_view s1 (sv_ino sv) (ptr s1 i1 k) = fview s sv k.
Proof.
  intros Hrd (_ & _ & _ & Ec & _) He Hk Hp. unfold fview, block_view. rewrite Hp.
  destruct (Z.eqb_spec (ptr s (sv_i sv) k) 0); [done|]. unfold lview. rewrite Ec.
  by rewrite (extends_content s (sv_i sv) s1 i1) by (done || apply Hrd).
Qed.

Lemma other_view s v sv s1 i1 ino b : ready s v sv -> same_rest s s1 ->
  extends s (sv_i sv) s1 i1 -> key ino b -> marked s b = true -> b <> sfi_indirect (sv_i sv) ->
  lview s1 ino b = lview s ino b.
Proof.
  intros Hrd (_ & _ & _ & Ec & _) He [_ Hb] Hm Hne. unfold lview. rewrite Ec.
  by rewrite (ex_content _ _ _ _ He) by (done || lia).
Qed.

Lemma bmap_ready s v sv s1 i1 d : ready s v sv -> same_rest s s1 ->
  extends s (sv_i sv) s1 i1 -> vheap s1 = <[v := set_inode i1 d sv]> (vheap s) ->
  ready s1 v (set_inode i1 d sv).
Proof.
  intros [Hok [C1 C2 C3] Hv Hsv Hi Hl] (E1 & E2 & E3 & E4 & E5) He Hh.
  constructor; [apply He| |apply He|by rewrite Hh, lookup_insert_eq|done|].
  - constructor; by rewrite ?E4, ?E1.
  - unfold unlocked. by rewrite E5.
Qed.

Lemma bmap_fresh s s1 i i1 ino : same_rest s s1 -> extends s i s1 i1 ->
  fresh_cache s ino -> fresh_cache s1 ino.
Proof.
  intros (_ & _ & _ & E & _) He Hf b Hk. rewrite E. intros Hn.
  apply (ex_marked _ _ _ _ He); [apply Hk|by apply Hf].
Qed.

(** A failed [sfs_bmap] changes nothing one can see. *)
Lemma bmap_failed s v sv fb da e s1 : ready s v sv -> fresh_cache s (sv_ino sv) -> 0 <= fb < 143 ->
  bmap_post s v sv fb da (Err e) s1 ->
  e = ENOSPC /\ exists sv1, wrote s v sv fb (fview s sv fb) s1 sv1 /\
    sfi_size (sv_i sv1) = sfi_size (sv_i sv).
Proof.
  intros Hrd Hf Hfb Hp. pose proof Hp as (i1 & d & Hmk & Hh & Hrest & He & Hr).
  destruct Hr as [(_ & ? & _)|(-> & -> & _ & Hk)]; [lia|]. split; [done|].
  exists (set_inode i1 d sv). destruct (ex_fields _ _ _ _ He) as (F1 & F2 & F3). split; [|done].
  constructor; try done.
  - by apply (bmap_ready s).
  - by apply (bmap_fresh s s1 (sv_i sv) i1).
  - intros k Hk0 [[? _]|Hne]; [by apply Hk|]. by apply (ex_old _ _ _ _ He).
  - intros k Hk0. unfold fview at 1. cbn [set_inode sv_ino sv_i].
    erewrite (bmap_view s v sv) by (done || by apply Hk).
    by destruct (Z.eqb_spec k fb) as [->|].
  - intros ino b Hkb Hi Hm Hne. by apply (other_view s v sv s1 i1).
  - intros b Hb. by apply (ex_marked _ _ _ _ He).
  - unfold reach, free_slots. cbn. destruct Hrest as (_ & _ & _ & -> & _).
    rewrite Hk by done. naive_solver.
  - by destruct Hrest as (? & ? & ? & ? & ?).
Qed.

(** The views after a transfer to the block that [sfs_bmap] handed out. *)
Lemma write_done s v sv fb b s1 new s2 : ready s v sv -> fresh_cache s (sv_ino sv) -> 0 <= fb ->
  bmap_post s v sv fb true (Ok b) s1 -> touched s1 (sv_ino sv) b new s2 ->
  exists sv1, wrote s v sv fb new s2 sv1 /\ sfi_size (sv_i sv1) = sfi_size (sv_i sv) /\
    lview s1 (sv_ino sv) b = fview s sv fb.
Proof.
  intros Hrd Hf Hfb0 Hp Ht.
  destruct Hp as (i1 & d & Hmk & Hh & Hrest & He & Hfb & Hpt & Hb0 & Hks & Hif).
  specialize (Hb0 eq_refl). exists (set_inode i1 d sv).
  pose proof (bmap_ready s v sv s1 i1 d Hrd Hrest He Hh) as Hrd1.
  pose proof (bmap_fresh s s1 (sv_i sv) i1 _ Hrest He Hf) as Hf1.
  pose proof (rd_valid _ _ _ Hrd1) as Hv1. cbn in Hv1.
  assert (key (sv_ino sv) b) as Hkb.
  { split; [apply Hrd|]. rewrite <- Hpt. apply ptr_range; [done|apply Hrd1|lia]. }
  destruct (va_marked _ _ Hv1 fb Hfb0) as [Hbr Hbm]; [congruence|]. rewrite Hpt in Hbr, Hbm.
  destruct Ht as [T1 T2 (E1 & E2 & E3 & E4 & E5 & E6) [T4 T4'] T5 T6 T7]. cbn in E1, E2, E3, E4, E6.
  assert (forall i k, ptr s2 i k = ptr s1 i k) as Hp2 by (intros; unfold ptr, entries; by rewrite T5).
  assert (forall c, marked s2 c = marked s1 c) as Hm2 by (intros; unfold marked; by rewrite T4).
  assert (forall ino c, key ino c -> ino <> sv_ino sv \/ c <> b -> lview s2 ino c = lview s1 ino c) as Hlv.
  { intros ino c Hk Hne. unfold lview. rewrite T6, T5 by done. by rewrite decide_False by naive_solver. }
  split; [|split].
  - constructor.
    + destruct Hrd1 as [R1 R2 [V1 V2 V3] R4 R5 R6]. constructor; [done|done| |by rewrite E4|done|].
      * constructor; [done|..]; intros; rewrite ?Hp2, ?Hm2, ?E1 in *; eauto.
      * unfold unlocked. by rewrite E6.
    + intros c Hk. rewrite T6, Hm2 by done.
      destruct (decide (sv_ino sv = sv_ino sv /\ c = b)) as [[_ ->]|]; [done|]. by apply Hf1.
    + by rewrite E4.
    + by destruct (ex_fields _ _ _ _ He) as (? & ? & ?).
    + intros k Hk Hor. cbn. rewrite Hp2. destruct Hor as [[? ?]|?]; [by apply Hks|]. by apply (ex_old _ _ _ _ He).
    + done.
    + intros k Hk. unfold fview at 1, block_view. cbn [set_inode sv_ino sv_i]. rewrite Hp2.
      destruct (Z.eqb_spec k fb) as [->|Hne].
      { rewrite Hpt, (proj2 (Z.eqb_neq b 0)) by done. unfold lview.
        by rewrite T6, decide_True by done. }
      rewrite <- (bmap_view s v sv s1 i1 k Hrd Hrest He Hk) by (by apply Hks).
      unfold block_view. destruct (Z.eqb_spec (ptr s1 i1 k) 0) as [|Hn0]; [done|].
      apply Hlv; [split; [apply Hrd|]; apply ptr_range; [done|apply Hrd1|lia]|].
      right. intros E. apply Hne. apply (va_inj _ _ Hv1); [lia|lia|congruence|done].
    + intros ino c Hk Hi Hm Hne. rewrite Hlv by auto. by apply (other_view s v sv s1 i1).
    + intros c Hc Hm. rewrite Hm2. by apply (ex_marked _ _ _ _ He).
    + intros _. right. left. cbn. rewrite Hp2, Hpt. split; [done|].
      by rewrite T6, decide_True by done.
    + destruct Hrest as (? & ? & ? & ? & ?). split; [congruence|]. split; congruence.
  - apply (ex_fields _ _ _ _ He).
  - destruct (decide (ptr s (sv_i sv) fb = 0 /\ true = true)) as [[Hz _]|Hn].
    + destruct Hif as [Hfree Hzero]. unfold fview, block_view. rewrite Hz. cbn [Z.eqb].
      unfold lview. destruct Hrest as (_ & _ & _ & -> & _).
      destruct (view_in (sfs_rcache s) (sv_ino sv) b) eqn:E; [|done].
      rewrite (Hf b Hkb) in Hfree by (by rewrite E). done.
    + destruct Hif as (-> & -> & _ & _ & Hc). unfold fview, block_view.
      rewrite (proj2 (Z.eqb_neq _ _)) by done. unfold lview.
      destruct Hrest as (_ & _ & _ & -> & _). by rewrite Hc.
Qed.

Lemma io_write_within s v sv fb skip u : ready s v sv -> fresh_cache s (sv_ino sv) ->
  u_rw u = UIO_WRITE -> within u fb skip (u_resid u) -> 0 < u_resid u < 512 -> skip < 512 ->
  fb < 143 -> reach s sv fb true ->
  exists e u' s' sv', sfs_io v u s = Done ((e, u'), s') /\
    (e = 0 \/ e = ENOSPC) /\ u_resid u' = (if e =? 0 then 0 else u_resid u) /\
    wrote s v sv fb (if e =? 0 then splice skip (take (Z.to_nat (u_resid u)) (u_data u)) (fview s sv fb)
                     else fview s sv fb) s' sv' /\
    sfi_size (sv_i sv') = Z.max (sfi_size (sv_i sv)) (u_off u + (if e =? 0 then u_resid u else 0)).
Proof.
  intros Hrd Hfr Hrw Hw Hr Hsk Hfb Hre. pose proof Hrd as [Hok Hco Hv Hsv Hi Hl].
  assert (doalloc u = true) as Hda by (unfold doalloc; by rewrite Hrw).
  rewrite <- Hda in Hre. pose proof (wi_fb _ _ _ _ Hw) as Hfb0. pose proof (wi_sane _ _ _ _ Hw) as Hsn.
  pose proof (wi_off _ _ _ _ Hw) as Wo. pose proof (wi_fit _ _ _ _ Hw) as Wf.
  pose proof (wi_skip _ _ _ _ Hw) as Ws.
  destruct (partialio_run s v sv fb skip (u_resid u) u Hok Hco Hv Hsv Hi Hl Hre Hw Hsk)
    as (r & s1 & Hp & Hrun). rewrite Hda in Hp.
  pose proof (io_size _ (va_inode _ _ Hv)) as Hsz.
  assert (exists e u' s2 sv2, sfs_partialio v u skip (u_resid u) s = Done ((e, u'), s2) /\
    (e = 0 \/ e = ENOSPC) /\ u_rw u' = UIO_WRITE /\ u_resid u' = (if e =? 0 then 0 else u_resid u) /\
    u_off u' = u_off u + (if e =? 0 then u_resid u else 0) /\
    wrote s v sv fb (if e =? 0 then splice skip (take (Z.to_nat (u_resid u)) (u_data u)) (fview s sv fb)
                     else fview s sv fb) s2 sv2 /\
    sfi_size (sv_i sv2) = sfi_size (sv_i sv)) as (e & u' & s2 & sv2 & H1 & H2 & H3 & H4 & H5 & H6 & H7).
  { destruct r as [e|b].
    - destruct (bmap_failed s v sv fb true e s1 Hrd Hfr ltac:(lia) Hp) as (-> & sv1 & Hwr & Hs1).
      exists ENOSPC, u, s1, sv1. cbn. rewrite Z.add_0_r. auto 10.
    - destruct Hrun as (s2 & Hrun & Ht). pose proof Hp as (i1 & d & _ & _ & Hrest & He & _ & _ & Hb0 & _).
      rewrite (proj2 (Z.eqb_neq b 0)) in Ht by auto.
      destruct (write_done s v sv fb b s1 _ s2 Hrd Hfr ltac:(lia) Hp Ht) as (sv1 & Hwr & Hs1 & Hvw).
      unfold moved_buf in Hwr. rewrite Hrw, Hvw in Hwr.
      assert (length (block_view s1 (sv_ino sv) b) = 512%nat) as Hbl.
      { apply block_view_length; [apply He|]. destruct Hco, Hrest as (E1 & _ & _ & E4 & _).
        constructor; by rewrite ?E4, ?E1. }
      destruct (umove_at_run (block_view s1 (sv_ino sv) b) skip (u_resid u) u Hsn) as (_ & Hz & Ho & _);
        [done|lia|lia|].
      exists 0, (took u (u_resid u) (slice skip (u_resid u) (block_view s1 (sv_ino sv) b))), s2, sv1.
      cbn [Z.eqb]. rewrite Hz, Ho, Z.sub_diag. auto 10. }
  pose proof (io_body_within v u fb skip e u' s s2 Hw Hr Hsk H1) as Hbody.
  destruct (io_out_write s2 v sv2 e u') as (s3 & sv3 & Hout & -> & d & Hmk & ->);
    [apply H6|done|destruct (e =? 0); lia|destruct (e =? 0); lia|].
  do 4 eexists. split; [|split; [exact H2|split; [exact H4|split]]].
  - unfold sfs_io. rewrite (bind_Done _ _ _ _ _ (vnode_run _ _ _ Hsv)). rewrite Hrw.
    rewrite (bind_Done _ _ _ _ _ (Hbody (fun E => ltac:(by rewrite H4, E)))). exact Hout.
  - apply wrote_resize; [exact H6| |exact Hmk]. rewrite H5, H7. destruct (e =? 0); lia.
  - cbn. by rewrite H5, H7.
Qed.

(** A read after a short write that succeeded. *)
Lemma wrote_read s v sv fb skip u s' sv' ur : ready s v sv -> u_rw u = UIO_WRITE ->
  within u fb skip (u_resid u) -> 0 < u_resid u < 512 -> skip < 512 -> fb < 143 -> reach s sv fb true ->
  wrote s v sv fb (splice skip (take (Z.to_nat (u_resid u)) (u_data u)) (fview s sv fb)) s' sv' ->
  sfi_size (sv_i sv') = Z.max (sfi_size (sv_i sv)) (u_off u + u_resid u) ->
  u_rw ur = UIO_READ -> within ur fb skip (u_resid ur) -> u_resid ur = u_resid u ->
  exists ur' s'', sfs_io v ur s' = Done ((0, ur'), s'') /\
    u_data ur' = u_data ur ++ take (Z.to_nat (u_resid u)) (u_data u).
Proof.
  intros Hrd Hrw Hw Hr Hsk Hfb Hre Hwr Hsz Hrw' Hw' Hres'.
  pose proof (wi_fb _ _ _ _ Hw) as Hfb0.
  pose proof (wr_view _ _ _ _ _ _ _ Hwr fb ltac:(lia)) as Hvw. rewrite Z.eqb_refl in Hvw.
  destruct (io_read_within s' v sv' fb skip ur) as (s'' & Hrun & _); try done.
  - apply Hwr.
  - lia.
  - rewrite Hsz, (wi_off _ _ _ _ Hw'), (wi_off _ _ _ _ Hw). lia.
  - by apply (wr_reach _ _ _ _ _ _ _ Hwr).
  - do 2 eexists. split; [exact Hrun|]. unfold took. rewrite Hrw'. cbn [u_data]. f_equal.
    rewrite Hvw, Hres'. pose proof (sn_data _ (wi_sane _ _ _ _ Hw) Hrw) as Hd.
    set (data := take (Z.to_nat (u_resid u)) (u_data u)).
    assert (Z.of_nat (length data) = u_resid u) as Hl by (unfold data; rewrite length_take; lia).
    rewrite <- Hl at 2. rewrite slice_splice_same; [rewrite take_ge by lia; done|apply Hw|].
    unfold fview. rewrite block_view_length by apply Hrd. rewrite Hl. apply Hw.
Qed.

(** ** Properties *)


(** The cache has no free slot and no copy of block [b] of [ino]. *)
Definition full s (ino b : Z) : Prop :=
  Forall (fun c => unused c = false /\ tagged ino b c = false) (sfs_rcache s).

Lemma full_scan s ino b : full s ino b -> cache_scan (sfs_rcache s) 0 ino b None = (None, None).
Proof.
  intros Hf. pose proof (cache_scan_spec (sfs_rcache s) 0 ino b None) as Hsc.
  unfold full in Hf. rewrite Forall_forall in Hf.
  destruct (cache_scan (sfs_rcache s) 0 ino b None) as [[i|] f].
  - destruct Hsc as (j & c & _ & Hl & Ht & _).
    destruct (Hf c) as [_ ?]; [by eapply list_elem_of_lookup_2|congruence].
  - destruct Hsc as [_ Hsc]. destruct f as [i|]; [|done].
    destruct Hsc as (j & c & _ & Hl & Hu).
    destruct (Hf c) as [? _]; [by eapply list_elem_of_lookup_2|congruence].
Qed.

(** The victim slot after a replacement. *)
Lemma replace_run s b i c : fs_ok s -> cache_ok s -> 0 <= b < sp_nblocks (super s) ->
  i = Z.to_nat (u32 (default 0 (head (rng (ker s)))) mod 64) -> sfs_rcache s !! i = Some c ->
  0 <= block_no c < sp_nblocks (super s) -> b <> block_no c ->
  exists s', partial_replace b s = Done (0, s') /\ fs_ok s' /\
    sfs_rcache s' = <[i := mkSlot (content s b) (inode_no c) (block_no c)]> (sfs_rcache s) /\
    super s' = super s /\ content s' b = content s b.
Proof.
  intros Hok Hco Hb Hi Hc Hbn Hne. unfold partial_replace, random, BUFFER_SIZE, mgets.
  set (e1 := mkEnv (biglock_depth (ker s)) (held (ker s)) (tail (rng (ker s))) (mem_ok (ker s))
    (fresh (ker s))).
  set (s1 := with_ker e1 s).
  rewrite (bind_Done _ _ _ (u32 (default 0 (head (rng (ker s))))) s1) by done.
  rewrite <- Hi. rewrite (bind_Done _ _ _ c s1) by (unfold slot; cbn; by rewrite Hc).
  pose proof (ok_blocks _ Hok). pose proof (ok_dmax _ Hok).
  pose proof (Forall_lookup_1 _ _ _ _ (co_blocks _ Hco) Hc) as Hcb. cbn in Hcb.
  rewrite uwrap_small by lia.
  destruct (fs_wblock s1 (block_no c) (cache c) (fs_ok_ker _ _ Hok) Hbn Hcb)
    as (s2 & Hw & Hok2 & (E1 & _ & _ & _ & E5 & E6) & _ & _ & Hc2).
  rewrite (bind_Done _ _ _ _ _ Hw).
  destruct (rblock_ok (cache c) b (sfs_device s2)) as (d3 & Hr & Hh3 & Hn3 & Hc3);
    [apply Hok2|pose proof (ok_blocks _ Hok2); rewrite E1 in *; cbn in *; lia|apply Hok2|apply Hcb|].
  rewrite (bind_Done _ _ _ _ _ (on_device_run _ _ _ _ Hr)).
  assert (content s2 b = content s b) as Hcb2.
  { rewrite Hc2, (proj2 (Z.eqb_neq _ _)) by done. done. }
  change (block (sfs_device s2) b) with (content s2 b). rewrite Hcb2.
  unfold put_slot, mmodify. rewrite (bind_Done _ _ _ _ _ eq_refl).
  cbn [with_device sfs_rcache]. rewrite E5. cbn [s1 with_ker sfs_rcache].
  set (s4 := with_rcache (<[i := mkSlot (content s b) (inode_no c) (block_no c)]> (sfs_rcache s))
    (with_device d3 s2)).
  destruct (lock_release BcacheLock s4) as [[[] s5]|] eqn:El; [|done].
  exists s5. rewrite (bind_Done _ _ _ _ _ El). split; [done|].
  unfold lock_release, mmodify in El. injection El as <-.
  split; [apply fs_ok_ker; destruct Hok2; constructor; cbn; try done; by rewrite Hn3|].
  split; [done|]. split; [done|]. unfold content. cbn. rewrite Hc3. exact Hcb2.
Qed.

(** Cache replacement gives one file the data of another.  When a short
    read finds the cache full, a randomly chosen slot is written back and
    reloaded with the block being read, but it keeps the tags of its old
    block [(ino', b')].  The read itself is correct; from then on, however,
    the cache answers every short access to block [b'] of inode [ino'] with
    the contents of block [b] of the file that was read. *)
Theorem replacement_mixes_files s v sv b skip len u i c
    (Hok : fs_ok s) (Hco : cache_ok s) (Hv : vheap s !! v = Some sv)
    (Hb : 0 < b < sp_nblocks (super s)) (Hfull : full s (sv_ino sv) b)
    (Hh : BcacheLock ∉ held (ker s)) (Hrw : u_rw u = UIO_READ) (Hu : sane u)
    (Hs : 0 <= skip) (Hl : 0 <= len <= u_resid u) (Hsl : skip + len <= 512)
    (Hi : i = Z.to_nat (u32 (default 0 (head (rng (ker s)))) mod 64))
    (Hc : found_slot (sfs_rcache s) (inode_no c) (block_no c) i c)
    (Hk : key (inode_no c) (block_no c)) (Hbn : block_no c < sp_nblocks (super s))
    (Hne : b <> block_no c) :
  exists s', partial_cached v b skip len u s =
      Done ((0, took u len (slice skip len (content s b))), s') /\
    lview s' (inode_no c) (block_no c) = content s b.
Proof.
  set (s0 := with_ker (with_held (BcacheLock :: held (ker s)) (ker s)) s).
  unfold partial_cached. rewrite (bind_Done _ _ _ _ _ (lock_acquire_run _ _ Hh)).
  rewrite (bind_Done _ _ _ sv s0) by (unfold vnode; cbn; by rewrite Hv).
  unfold mgets. rewrite (bind_Done _ _ _ _ _ eq_refl). change (sfs_rcache s0) with (sfs_rcache s).
  rewrite full_scan by done.
  destruct (replace_run s0 b i c) as (s1 & Hr & Hok1 & Hrc & Hsup & Hcb);
    [by apply fs_ok_ker|by apply cache_ok_ker|cbn; lia|done|apply Hc| |done|].
  { destruct Hk. cbn. lia. }
  rewrite (bind_Done _ _ _ _ _ Hr). cbn [Z.eqb negb].
  destruct (fs_rblock s1 b Hok1) as (s2 & Hr2 & Hok2 & (_ & _ & _ & _ & E5 & _) & _ & _ & Hc2);
    [rewrite Hsup; cbn; lia|].
  rewrite (bind_Done _ _ _ _ _ Hr2). cbn [Z.eqb negb]. rewrite Hcb.
  change (content s0 b) with (content s b) in *.
  destruct (umove_at_run (content s b) skip len u Hu Hs Hl) as (Hm & _).
  { destruct (content_ok s b Hok) as [-> _]. done. }
  exists s2. split.
  - unfold partial_iobuf.
    rewrite (bind_Done _ _ _ (0, moved_buf (content s b) skip len u,
      took u len (slice skip len (content s b))) s2) by (unfold mlift; by rewrite Hm).
    cbn [Z.eqb negb]. by rewrite Hrw.
  - unfold lview. rewrite E5, Hrc. cbn [s0 with_ker sfs_rcache].
    rewrite (view_in_update _ _ _ _ _ (content s b) Hc Hk) by done. by rewrite decide_True.
Qed.
End specs.

(** ** Concrete runs on a small volume *)

Lemma small_fs_ready : ready small_fs 100 empty_file.
Proof.
  constructor; [apply small_fs_ok| |apply small_fs_valid|done|cbn; lia|split; apply not_elem_of_nil].
  constructor; [done| |cbn; lia]. apply Forall_replicate, zeros_ok.
Qed.

Lemma small_fs_fresh ino : fresh_cache small_fs ino.
Proof.
  intros b Hk. cbn [small_fs sfs_rcache]. rewrite view_in_none; [done|].
  apply Forall_replicate. destruct (tagged ino b _) eqn:E; [|done].
  apply tagged_key in E as [E _]; [|done]. cbn in E. destruct Hk. lia.
Qed.

Lemma kuio_within data n off rw fb skip : 0 <= off < 2 ^ 32 -> 0 <= n <= 512 ->
  Forall (fun x => 0 <= x < 256) data -> (rw = UIO_WRITE -> n <= Z.of_nat (length data)) ->
  off = fb * 512 + skip -> 0 <= skip -> skip + n <= 512 -> 0 <= fb -> within (kuio data n off rw) fb skip n.
Proof.
  intros. constructor; cbn; try lia.
  - constructor; cbn; try lia. by intros ->; auto.
  - by destruct rw.
Qed.


(** Inode 77 owns block 20 and fills the whole cache. *)
Definition busy_slot : cslot := mkSlot (replicate 512 1) 77 20.
Definition busy_fs : fs (lhd sim) := with_rcache (replicate 64 busy_slot) small_fs.

Lemma replacement_mixes_files_witness : exists s',
  partial_cached 100 5 0 3 (kuio [] 3 0 UIO_READ) busy_fs =
    Done ((0, took (kuio [] 3 0 UIO_READ) 3 (slice 0 3 (content busy_fs 5))), s') /\
  lview s' 77 20 = content busy_fs 5.
Proof.
  apply (replacement_mixes_files busy_fs 100 empty_file 5 0 3 (kuio [] 3 0 UIO_READ) 0 busy_slot).
  - destruct small_fs_ok. by constructor.
  - constructor; [done| |cbn; lia]. apply Forall_replicate. split; [done|].
    apply Forall_replicate. lia.
  - reflexivity.
  - cbn. lia.
  - apply Forall_replicate. split; reflexivity.
  - apply not_elem_of_nil.
  - reflexivity.
  - apply (wi_sane _ 0 0 3), kuio_within; [lia|lia|constructor|done|lia|lia|lia|lia].
  - lia.
  - cbn. lia.
  - lia.
  - reflexivity.
  - split; [reflexivity|]. split; [reflexivity|]. intros; lia.
  - split; cbn; lia.
  - cbn. lia.
  - cbn. lia.
Defined.

(** Two short writes, then one read of the whole file. *)
Definition stale_read : M (fs (lhd sim)) (list Z * Z) :=
  '(r1, _) ← sfs_io 100 (kuio [7; 8; 9] 3 0 UIO_WRITE);
  '(r2, _) ← sfs_io 100 (kuio [1] 1 600 UIO_WRITE);
  '(r3, u) ← sfs_io 100 (kuio [] 3 0 UIO_READ);
  '(r4, u') ← sfs_io 100 (kuio [] 601 0 UIO_READ);
  if (r1 =? 0) && (r2 =? 0) && (r3 =? 0) && (r4 =? 0) && bool_decide (u_data u = [7; 8; 9])
  then mret (take 3 (u_data u'), u_resid u') else mstop KPanic.

(** A long read does not see a short write that is still in the cache.
    Whole blocks are read straight from the disk: after short writes of
    7, 8, 9 at the start and of a byte at offset 600, a read of three bytes
    returns 7, 8, 9 while a read of all 601 bytes starts with 0, 0, 0 (every
    call succeeds and transfers everything it was asked to). *)
Theorem long_read_misses_short_write :
  exists s', stale_read small_fs = Done (([0; 0; 0], 0), s').
Proof.
  assert (match stale_read small_fs with
          | Done (([0; 0; 0], 0), _) => true
          | _ => false
          end = true) as H by (vm_compute; reflexivity).
  destruct (stale_read small_fs) as [[r s']|]; [|done]. exists s'. do 2 f_equal.
  repeat match type of H with
  | match ?x with _ => _ end = true => destruct x; try done
  end.
Qed.
End SfsIo.
