(* ===== verification/SfsVnode.v ===== *)
(** * kern/fs/sfs/sfs_vnode.c, kern/vfs/vnode.c: vnodes of SFS

    Reference counts, loading and reclaiming of vnodes, truncation, and the
    vnode operations that do not involve directories. *)

From S2P Require Import Prelude Bitmap Arrays Uio Stream Lhd SfsDisk Sfs SfsIo.
Import Uio Stream Lhd SfsDisk Sfs SfsIo.

Module SfsVnode.

Definition O_ACCMODE : Z := 3.
Definition O_RDONLY : Z := 0.
Definition O_APPEND : Z := 32.
Definition S_IFREG : Z := 4096.
Definition S_IFDIR : Z := 8192.

Section vnodes.
Context {D : Type} `{!BlockDevice D}.
Implicit Type s : fs D.

(** ** kern/vfs/vnode.c *)

(** Whether the next [lock_create] succeeds. *)
Definition lock_create : M (fs D) bool := kmalloc.

(** [vnode_init]: the error code; the vnode itself is set up by the caller. *)
Definition vnode_init : M (fs D) Z :=
  a ← lock_create;
  if negb a then mret ENOMEM
  else
    b ← lock_create;
    if negb b then mret ENOMEM
    else
      c ← lock_create;
      mret (if negb c then ENOMEM else 0).

(** [vnode_cleanup], and the release of the vnode's memory that follows it. *)
Definition vnode_cleanup (v : Z) : M (fs D) unit :=
  sv ← vnode v;
  _ ← kassert (vn_refcount sv =? 1);
  _ ← kassert (vn_opencount sv =? 0);
  mmodify (fun s => with_vheap (delete v (vheap s)) s).

(** [vnode_check]: called before every VOP; [reclaim] is the name of the
    operation that may see a zero reference count. *)
Definition vnode_check (v : Z) (reclaim : bool) : M (fs D) unit :=
  sv ← vnode v;
  _ ← lock_acquire (CountLock v);
  if vn_refcount sv <? 0 then mstop KPanic
  else if (vn_refcount sv =? 0) && negb reclaim then mstop KPanic
  else if vn_opencount sv <? 0 then mstop KPanic
  else lock_release (CountLock v).

Definition vnode_incref (v : Z) : M (fs D) unit :=
  _ ← lock_acquire (CountLock v);
  sv ← vnode v;
  _ ← put_vnode v (set_refcount (vn_refcount sv + 1) sv);
  lock_release (CountLock v).

Definition vnode_incopen (v : Z) : M (fs D) unit :=
  _ ← lock_acquire (CountLock v);
  sv ← vnode v;
  _ ← put_vnode v (set_opencount (vn_opencount sv + 1) sv);
  lock_release (CountLock v).

(** ** Operations on one vnode *)

Definition sfs_open (v openflags : Z) : M (fs D) Z :=
  mret (if negb (Z.land openflags O_APPEND =? 0) then EUNIMP else 0).

Definition sfs_opendir (v openflags : Z) : M (fs D) Z :=
  if negb (Z.land openflags O_ACCMODE =? O_RDONLY) then mret EISDIR
  else if negb (Z.land openflags O_APPEND =? 0) then mret EISDIR
  else mret 0.

Definition sfs_ioctl (v : Z) : M (fs D) Z := mret EINVAL.
Definition sfs_mmap (v : Z) : M (fs D) Z := mret EUNIMP.
Definition sfs_tryseek (v pos : Z) : M (fs D) Z := mret (if pos <? 0 then EINVAL else 0).
Definition sfs_notdir : M (fs D) Z := mret ENOTDIR.
Definition sfs_isdir : M (fs D) Z := mret EISDIR.
Definition sfs_unimp : M (fs D) Z := mret EUNIMP.

Definition sfs_fsync (v : Z) : M (fs D) Z :=
  _ ← vfs_biglock_acquire;
  result ← sfs_sync_inode v;
  _ ← vfs_biglock_release;
  mret result.

Definition sfs_close (v : Z) : M (fs D) Z :=
  _ ← vnode_check v false;
  sfs_fsync v.

Definition vnode_decopen (v : Z) : M (fs D) unit :=
  _ ← lock_acquire (CountLock v);
  sv ← vnode v;
  _ ← kassert (0 <? vn_opencount sv);
  _ ← put_vnode v (set_opencount (vn_opencount sv - 1) sv);
  _ ← lock_release (CountLock v);
  if 0 <? vn_opencount sv - 1 then mret tt
  else _ ← vnode_check v false; _ ← sfs_close v; mret tt.

Definition sfs_read (v : Z) (u : sio) : M (fs D) (Z * sio) :=
  _ ← kassert (negb (doalloc u));
  _ ← vfs_biglock_acquire;
  r ← sfs_io v u;
  _ ← vfs_biglock_release;
  mret r.

Definition sfs_write (v : Z) (u : sio) : M (fs D) (Z * sio) :=
  _ ← kassert (doalloc u);
  _ ← vfs_biglock_acquire;
  r ← sfs_io v u;
  _ ← vfs_biglock_release;
  mret r.

Definition sfs_gettype (v : Z) : M (fs D) (result Z) :=
  sv ← vnode v;
  _ ← vfs_biglock_acquire;
  if sfi_type (sv_i sv) =? SFS_TYPE_FILE then _ ← vfs_biglock_release; mret (Ok S_IFREG)
  else if sfi_type (sv_i sv) =? SFS_TYPE_DIR then _ ← vfs_biglock_release; mret (Ok S_IFDIR)
  else mstop KPanic.

(** [struct stat], the fields SFS fills in. *)
Record stat : Type := mkStat {
  st_mode : Z;
  st_size : Z;
  st_nlink : Z;
  st_ino : Z;
}.
Definition sfs_stat (v : Z) : M (fs D) (result stat) :=
  _ ← vnode_check v false;
  mode ←? sfs_gettype v;
  sv ← vnode v;
  mret (Ok (mkStat mode (sfi_size (sv_i sv)) (sfi_linkcount (sv_i sv)) (sv_ino sv))).

(** ** Truncation *)

(** The loop over the direct blocks, from block [i] up. *)
Fixpoint trunc_direct (n : nat) (v i blocklen : Z) : M (fs D) unit :=
  match n with
  | O => mret tt
  | S n' =>
      sv ← vnode v;
      block ← elt (sfi_direct (sv_i sv)) i;
      _ ← (if (blocklen <=? i) && negb (block =? 0) then
             _ ← sfs_bfree block;
             put_vnode v (set_inode (set_direct i 0 (sv_i sv)) true sv)
           else mret tt);
      trunc_direct n' v (i + 1) blocklen
  end.

(** The loop over [idbuf], from entry [j] up; the entries before [j] are
    done.  Returns the buffer and [hasnonzero], [iddirty]. *)
Fixpoint trunc_entries (l : list Z) (j blocklen : Z) : M (fs D) (list Z * bool * bool) :=
  match l with
  | [] => mret ([], false, false)
  | b :: r =>
      let discard := (blocklen <? SFS_NDIRECT + j) && negb (b =? 0) in
      _ ← (if discard then sfs_bfree b else mret tt);
      let b' := if discard then 0 else b in
      '(r', nonzero, dirty) ← trunc_entries r (j + 1) blocklen;
      mret (b' :: r', negb (b' =? 0) || nonzero, discard || dirty)
  end.

Definition trunc_indirect (v blocklen : Z) : M (fs D) Z :=
  sv ← vnode v;
  let idblock := sfi_indirect (sv_i sv) in
  let highblock := SFS_NDIRECT + SFS_DBPERIDB - 1 in
  if (blocklen <? highblock) && negb (idblock =? 0) then
    '(result, bs) ← on_device (sfs_rblock zeros idblock);
    if negb (result =? 0) then mret result
    else
      '(idbuf, hasnonzero, iddirty) ← trunc_entries (dec32 bs) 0 blocklen;
      if negb hasnonzero then
        _ ← sfs_bfree idblock;
        _ ← put_vnode v (set_inode (set_indirect 0 (sv_i sv)) true sv);
        mret 0
      else if (iddirty : bool) then on_device (sfs_wblock (enc32 idbuf) idblock)
      else mret 0
  else mret 0.

Definition sfs_truncate (v len : Z) : M (fs D) Z :=
  let blocklen := u32 ((len + SFS_BLOCKSIZE - 1) / SFS_BLOCKSIZE) in
  _ ← vfs_biglock_acquire;
  _ ← trunc_direct 15 v 0 blocklen;
  result ← trunc_indirect v blocklen;
  if negb (result =? 0) then _ ← vfs_biglock_release; mret result
  else
    sv ← vnode v;
    _ ← put_vnode v (set_inode (set_size (u32 len) (sv_i sv)) true sv);
    _ ← vfs_biglock_release;
    mret 0.

(** [VOP_TRUNCATE]: the directory table has [ISDIR] there. *)
Definition VOP_TRUNCATE (v len : Z) : M (fs D) Z :=
  _ ← vnode_check v false;
  sv ← vnode v;
  if vn_isdir sv then sfs_isdir else sfs_truncate v len.

(** ** Reclaiming *)

(** The index of the vnode in the table. *)
Fixpoint vnode_index (l : list (option Z)) (v i : Z) : option Z :=
  match l with
  | [] => None
  | p :: r => if bool_decide (p = Some v) then Some i else vnode_index r v (i + 1)
  end.

Definition vnodes_remove (v : Z) : M (fs D) unit := fun s =>
  match vnode_index (Arrays.contents (sfs_vnodes s)) v 0 with
  | None => Stop KPanic
  | Some ix =>
      match Arrays.array_remove (sfs_vnodes s) ix with
      | Done a => Done (tt, with_vnodes a s)
      | Stop f => Stop f
      end
  end.

Definition sfs_reclaim (v : Z) : M (fs D) Z :=
  _ ← vfs_biglock_acquire;
  sv ← vnode v;
  if negb (vn_refcount sv =? 1) then
    _ ← kassert (1 <? vn_refcount sv);
    _ ← put_vnode v (set_refcount (vn_refcount sv - 1) sv);
    _ ← vfs_biglock_release;
    mret EBUSY
  else
    result ← (if sfi_linkcount (sv_i sv) =? 0 then VOP_TRUNCATE v 0 else mret 0);
    if negb (result =? 0) then _ ← vfs_biglock_release; mret result
    else
      result ← sfs_sync_inode v;
      if negb (result =? 0) then _ ← vfs_biglock_release; mret result
      else
        sv ← vnode v;
        _ ← (if sfi_linkcount (sv_i sv) =? 0 then sfs_bfree (sv_ino sv) else mret tt);
        _ ← vnodes_remove v;
        _ ← vnode_cleanup v;
        _ ← vfs_biglock_release;
        mret 0.

(** [vnode_decref]: a failing reclaim is only reported on the console. *)
Definition vnode_decref (v : Z) : M (fs D) unit :=
  _ ← lock_acquire (CountLock v);
  sv ← vnode v;
  _ ← kassert (0 <? vn_refcount sv);
  if 1 <? vn_refcount sv then
    _ ← put_vnode v (set_refcount (vn_refcount sv - 1) sv);
    lock_release (CountLock v)
  else
    _ ← lock_release (CountLock v);
    _ ← vnode_check v true;
    _ ← sfs_reclaim v;
    mret tt.

(** ** Loading *)

(** The search of the table: the vnode with inode [ino]. *)
Fixpoint find_loaded (l : list (option Z)) (ino : Z) : M (fs D) (option Z) :=
  match l with
  | [] => mret None
  | p :: r =>
      v ← deref p;
      sv ← vnode v;
      used ← sfs_bused (sv_ino sv);
      if negb used then mstop KPanic
      else if sv_ino sv =? ino then mret (Some v)
      else find_loaded r ino
  end.

Definition vnodearray_add (have_mem : bool) (v : Z) : M (fs D) (result Z) := fun s =>
  match Arrays.array_add 40 have_mem (sfs_vnodes s) v with
  | Done (r, a) => Done (r, with_vnodes a s)
  | Stop f => Stop f
  end.

(** A new address for a vnode. *)
Definition new_address : M (fs D) Z :=
  p ← mgets (fun s => fresh (ker s));
  _ ← mmodify (fun s => with_ker (mkEnv (biglock_depth (ker s)) (held (ker s)) (rng (ker s))
        (mem_ok (ker s)) (p + 1)) s);
  mret p.

Definition load_new (ino forcetype : Z) : M (fs D) (result Z) :=
  ok ← kmalloc;
  if negb ok then mret (Err ENOMEM)
  else
    used ← sfs_bused ino;
    if negb used then mstop KPanic
    else
      '(result, bs) ← on_device (sfs_rblock zeros ino);
      if negb (result =? 0) then mret (Err result)
      else
        let i := decode_inode bs in
        _ ← kassert ((forcetype =? SFS_TYPE_INVAL) || (sfi_type i =? SFS_TYPE_INVAL));
        let dirty := negb (forcetype =? SFS_TYPE_INVAL) in
        let i := if dirty then set_type forcetype i else i in
        if (sfi_type i =? SFS_TYPE_FILE) || (sfi_type i =? SFS_TYPE_DIR) then
          result ← vnode_init;
          if negb (result =? 0) then mret (Err result)
          else
            v ← new_address;
            _ ← put_vnode v (mkSv 1 0 (sfi_type i =? SFS_TYPE_DIR) i ino dirty);
            ok ← kmalloc;
            r ← vnodearray_add ok v;
            match r with
            | Err e => _ ← vnode_cleanup v; mret (Err e)
            | Ok _ => mret (Ok v)
            end
        else mstop KPanic.

Definition sfs_loadvnode (ino forcetype : Z) : M (fs D) (result Z) :=
  l ← mgets (fun s => Arrays.contents (sfs_vnodes s));
  found ← find_loaded l ino;
  match found with
  | Some v =>
      _ ← kassert (forcetype =? SFS_TYPE_INVAL);
      _ ← vnode_incref v;
      mret (Ok v)
  | None => load_new ino forcetype
  end.

Definition sfs_getroot : M (fs D) Z :=
  _ ← vfs_biglock_acquire;
  r ← sfs_loadvnode SFS_ROOT_LOCATION SFS_TYPE_INVAL;
  match r with
  | Err _ => mstop KPanic
  | Ok v => _ ← vfs_biglock_release; mret v
  end.

(** [sfs_makeobj] *)
Definition sfs_makeobj (type : Z) : M (fs D) (result Z) :=
  ino ←? sfs_balloc;
  sfs_loadvnode ino type.
End vnodes.

(** ** Truncation: what is freed *)

(** The non-zero pointers of a table from position [thr] on; the first
    element of [l] is at position [j]. *)
Fixpoint gone (l : list Z) (j thr : Z) : list Z :=
  match l with
  | [] => []
  | b :: r => (if (thr <=? j) && negb (b =? 0) then [b] else []) ++ gone r (j + 1) thr
  end.
(** The table without them. *)
Fixpoint kept (l : list Z) (j thr : Z) : list Z :=
  match l with
  | [] => []
  | b :: r => (if thr <=? j then 0 else b) :: kept r (j + 1) thr
  end.

Lemma elem_of_gone b l j thr :
  b ∈ gone l j thr <-> b <> 0 /\ exists k, l !! k = Some b /\ thr <= j + Z.of_nat k.
Proof.
  revert j. induction l as [|a l IH]; intros j; cbn [gone].
  { rewrite elem_of_nil. split; [done|]. intros (_ & k & Hk & _). by rewrite lookup_nil in Hk. }
  rewrite elem_of_app, IH. split.
  - intros [Ha|(Hb & k & Hk & Ht)].
    + destruct (Z.leb_spec thr j), (Z.eqb_spec a 0); cbn in Ha; rewrite ?elem_of_nil in Ha; try done.
      apply list_elem_of_singleton in Ha as ->. split; [done|]. exists 0%nat. split; [done|lia].
    + split; [done|]. exists (S k). split; [done|lia].
  - intros (Hb & [|k] & Hk & Ht).
    + injection Hk as ->. left. rewrite (proj2 (Z.leb_le _ _)), (proj2 (Z.eqb_neq _ _)) by lia.
      by apply list_elem_of_singleton.
    + right. split; [done|]. exists k. split; [done|lia].
Qed.

Lemma lookup_kept l j thr k :
  kept l j thr !! k = (fun b => if thr <=? j + Z.of_nat k then 0 else b) <$> l !! k.
Proof.
  revert j k. induction l as [|a l IH]; intros j k; [done|]. destruct k as [|k]; cbn [kept].
  - cbn. by rewrite Z.add_0_r.
  - cbn [lookup list_lookup]. rewrite IH. replace (j + 1 + Z.of_nat k) with (j + Z.of_nat (S k)) by lia.
    done.
Qed.
Lemma length_kept l j thr : length (kept l j thr) = length l.
Proof. revert j. induction l; intros; cbn; auto. Qed.

Section truncation.
Context {D : Type} `{!BlockDevice D}.
Implicit Type s : fs D.

(** [s'] is [s] with the blocks of [l] free; the device is the same. *)
Record freed s (l : list Z) s' : Prop := mkFreed {
  fr_ok : fs_ok s';
  fr_files : same_files (with_vheap (vheap s') s) s';
  fr_device : sfs_device s' = sfs_device s;
  fr_marked : forall c, 0 <= c -> marked s' c = marked s c && bool_decide (c ∉ l);
}.

Lemma freed_refl s : fs_ok s -> freed s [] s.
Proof.
  intros. constructor; try done. intros c _. rewrite bool_decide_true by apply not_elem_of_nil.
  by rewrite andb_true_r.
Qed.
Lemma freed_trans s1 l1 s2 l2 s3 : freed s1 l1 s2 -> freed s2 l2 s3 -> freed s1 (l1 ++ l2) s3.
Proof.
  intros [_ (E1 & E2 & E3 & _ & E5 & E6) E7 H1] [Hok (F1 & F2 & F3 & _ & F5 & F6) F7 H2].
  cbn in *. constructor; [done| |congruence|].
  - split; [cbn; congruence|]. split; [cbn; congruence|]. split; [cbn; congruence|].
    split; [done|]. split; cbn; congruence.
  - intros c Hc. rewrite H2, H1, <- andb_assoc by done. f_equal.
    rewrite <- bool_decide_and. apply bool_decide_ext. by rewrite not_elem_of_app.
Qed.

Lemma bfree_run s b : fs_ok s -> 0 < b < sp_nblocks (super s) -> marked s b = true ->
  exists s', sfs_bfree b s = Done (tt, s') /\ freed s [b] s' /\ vheap s' = vheap s.
Proof.
  intros Hok Hb Hm. pose proof (ok_map _ Hok) as Hwf. unfold sfs_bfree.
  pose proof (Bitmap.bitmap_unmark_spec (sfs_freemap s) b Hwf ltac:(lia)) as Hu.
  destruct (Bitmap.bitmap_unmark (sfs_freemap s) b) as [bm|f].
  - destruct Hu as (_ & _ & Hup & Hwf'). eexists. split; [done|]. split; [|done].
    constructor; try done; [by apply (with_freemap_ok s bm true b false)|].
    intros c Hc. unfold marked. cbn. destruct Hup as (_ & _ & Hup). rewrite Hup by done.
    destruct (Z.eqb_spec c b) as [->|Hne].
    + rewrite bool_decide_false; [by rewrite andb_false_r|]. intros H. apply H. by left.
    + rewrite bool_decide_true by (by rewrite list_elem_of_singleton). by rewrite andb_true_r.
  - pose proof (ok_nbits _ Hok). destruct Hu as (_ & [?|?]); [lia|]. unfold marked in Hm. congruence.
Qed.

(** Blocks that can be freed: in use, and each listed once. *)
Definition freeable s (l : list Z) : Prop :=
  NoDup l /\ forall b, b ∈ l -> 0 < b < sp_nblocks (super s) /\ marked s b = true.

Lemma freeable_app s l1 l2 s' : freeable s (l1 ++ l2) -> freed s l1 s' ->
  freeable s l1 /\ freeable s' l2.
Proof.
  intros [Hn Hb] Hf. apply NoDup_app in Hn as (Hn1 & Hd & Hn2). split; (split; [done|]).
  - intros b H. apply Hb, elem_of_app. by left.
  - intros b H. destruct (Hb b) as [Hr Hm]; [apply elem_of_app; by right|].
    destruct (fr_files _ _ _ Hf) as (E & _). cbn in E. rewrite E. split; [done|].
    rewrite (fr_marked _ _ _ Hf) by lia. rewrite Hm, bool_decide_true; [done|].
    intros Hin. by apply (Hd b).
Qed.

(** The loop over the entries of the indirect block. *)
Lemma trunc_entries_run l j bl s : fs_ok s -> freeable s (gone l j (bl - 14)) ->
  exists s', trunc_entries l j bl s =
      Done ((kept l j (bl - 14), bool_decide (Exists (fun b => b <> 0) (kept l j (bl - 14))),
             bool_decide (gone l j (bl - 14) <> [])), s') /\
    freed s (gone l j (bl - 14)) s' /\ vheap s' = vheap s.
Proof.
  revert j s. induction l as [|b l IH]; intros j s Hok Hf;
    cbn [trunc_entries gone kept] in *.
  { exists s. split; [|by split; [apply freed_refl|]]. done. }
  replace (bl <? SFS_NDIRECT + j) with (bl - 14 <=? j)
    by (unfold SFS_NDIRECT; destruct (Z.leb_spec (bl - 14) j), (Z.ltb_spec bl (15 + j)); done || lia).
  set (d := (bl - 14 <=? j) && negb (b =? 0)) in *.
  assert (exists s1, (if d then sfs_bfree b else mret tt) s = Done (tt, s1) /\
    freed s (if d then [b] else []) s1 /\ vheap s1 = vheap s) as (s1 & H1 & Hf1 & Hv1).
  { destruct d; [|exists s; by split; [|split; [apply freed_refl|]]].
    destruct Hf as [_ Hb]. destruct (Hb b) as [Hr Hm]; [by left|]. by apply bfree_run. }
  destruct (freeable_app _ _ _ _ Hf Hf1) as [_ Hf2].
  destruct (IH (j + 1) s1 (fr_ok _ _ _ Hf1) Hf2) as (s2 & H2 & Hf3 & Hv2).
  exists s2. rewrite (bind_Done _ _ _ _ _ H1), (bind_Done _ _ _ _ _ H2). mrun.
  split; [|split; [by eapply freed_trans|congruence]]. do 2 f_equal.
  assert ((if d then 0 else b) = (if bl - 14 <=? j then 0 else b)) as ->.
  { unfold d. destruct (bl - 14 <=? j), (Z.eqb_spec b 0); cbn; congruence. }
  f_equal; [f_equal|].
  - set (b' := if bl - 14 <=? j then 0 else b). set (r := kept l (j + 1) (bl - 14)).
    destruct (Z.eqb_spec b' 0) as [E|E]; cbn [negb orb].
    + apply bool_decide_ext. rewrite Exists_cons. naive_solver.
    + symmetry. apply bool_decide_true. by constructor.
  - destruct d; cbn [orb app]; [|done]. by rewrite bool_decide_true.
Qed.

Definition set_directs (l : list Z) (i : sfs_inode) : sfs_inode :=
  mkInode (sfi_size i) (sfi_type i) (sfi_linkcount i) l (sfi_indirect i) (sfi_waste i).

(** One step of the loop over the direct blocks. *)
Lemma trunc_direct_step s v sv i bl b : fs_ok s -> vheap s !! v = Some sv ->
  sfi_direct (sv_i sv) !! Z.to_nat i = Some b ->
  freeable s (if (bl <=? i) && negb (b =? 0) then [b] else []) ->
  exists s1 d, (if (bl <=? i) && negb (b =? 0) then
      _ ← sfs_bfree b; put_vnode v (set_inode (set_direct i 0 (sv_i sv)) true sv)
    else mret tt) s = Done (tt, s1) /\
    freed s (if (bl <=? i) && negb (b =? 0) then [b] else []) s1 /\
    vheap s1 = <[v := set_inode (set_directs (<[Z.to_nat i := if bl <=? i then 0 else b]>
      (sfi_direct (sv_i sv))) (sv_i sv)) d sv]> (vheap s).
Proof.
  intros Hok Hv Hb Hf.
  assert (set_directs (sfi_direct (sv_i sv)) (sv_i sv) = sv_i sv) as Eid by (by destruct (sv_i sv)).
  destruct ((bl <=? i) && negb (b =? 0)) eqn:Ed.
  - apply andb_prop in Ed as [Hle _]. rewrite Hle.
    destruct Hf as [_ Hf]. destruct (Hf b) as [Hr Hm]; [by left|].
    destruct (bfree_run s b Hok Hr Hm) as (s1 & H1 & [F1 F2 F3 F4] & Hv1).
    rewrite (bind_Done _ _ _ _ _ H1). do 2 eexists. split; [reflexivity|].
    split; [|cbn; by rewrite Hv1]. constructor; [by apply fs_ok_vheap| |done|done].
    by destruct F2 as (? & ? & ? & _ & ? & ?).
  - exists s, (sv_dirty sv). split; [done|]. split; [by apply freed_refl|].
    replace (if bl <=? i then 0 else b) with b
      by (destruct (bl <=? i), (Z.eqb_spec b 0); cbn in Ed; congruence).
    rewrite list_insert_id by done. by rewrite Eid, set_inode_id, insert_id.
Qed.

Lemma drop_kept l i thr b : l !! Z.to_nat i = Some b -> 0 <= i ->
  take (Z.to_nat i) l ++ kept (drop (Z.to_nat i) l) i thr =
  take (Z.to_nat (i + 1)) (<[Z.to_nat i := if thr <=? i then 0 else b]> l) ++
    kept (drop (Z.to_nat (i + 1)) (<[Z.to_nat i := if thr <=? i then 0 else b]> l)) (i + 1) thr.
Proof.
  intros Hb Hi. replace (Z.to_nat (i + 1)) with (S (Z.to_nat i)) by lia.
  pose proof (lookup_lt_Some _ _ _ Hb). rewrite (drop_S l b) by done. cbn [kept].
  rewrite (take_S_r _ _ (if thr <=? i then 0 else b)) by (by rewrite list_lookup_insert_eq).
  rewrite <- app_assoc. cbn [app]. rewrite take_insert_ge by lia. by rewrite drop_insert_lt by lia.
Qed.

Lemma trunc_direct_run n i bl v s sv : fs_ok s -> vheap s !! v = Some sv ->
  length (sfi_direct (sv_i sv)) = 15%nat -> i + Z.of_nat n = 15 -> 0 <= i ->
  freeable s (gone (drop (Z.to_nat i) (sfi_direct (sv_i sv))) i bl) ->
  exists s' d, trunc_direct n v i bl s = Done (tt, s') /\
    freed s (gone (drop (Z.to_nat i) (sfi_direct (sv_i sv))) i bl) s' /\
    vheap s' = <[v := set_inode (set_directs (take (Z.to_nat i) (sfi_direct (sv_i sv)) ++
      kept (drop (Z.to_nat i) (sfi_direct (sv_i sv))) i bl) (sv_i sv)) d sv]> (vheap s).
Proof.
  revert i s sv. induction n as [|n IH]; intros i s sv Hok Hv Hl Hn Hi Hf.
  { exists s, (sv_dirty sv). rewrite drop_ge in * by lia. split; [done|].
    split; [by apply freed_refl|]. rewrite take_ge by lia. cbn [kept]. rewrite app_nil_r.
    assert (set_directs (sfi_direct (sv_i sv)) (sv_i sv) = sv_i sv) as -> by (by destruct (sv_i sv)).
    by rewrite set_inode_id, insert_id. }
  destruct (lookup_lt_is_Some_2 (sfi_direct (sv_i sv)) (Z.to_nat i)) as [b Hb]; [lia|].
  rewrite (drop_kept _ i bl b) by done.
  rewrite (drop_S _ b) in * by done. cbn [gone] in *.
  set (d := (bl <=? i) && negb (b =? 0)) in *.
  destruct (trunc_direct_step s v sv i bl b Hok Hv Hb) as (s1 & d1 & H1 & Hf1 & Hv1).
  { destruct Hf as [Hnd Hm]. apply NoDup_app in Hnd as (? & _ & _). split; [done|].
    intros c Hc. apply Hm, elem_of_app. by left. }
  fold d in H1, Hf1. destruct (freeable_app _ _ _ _ Hf Hf1) as [_ Hf2].
  set (l1 := <[Z.to_nat i := if bl <=? i then 0 else b]> (sfi_direct (sv_i sv))) in *.
  assert (drop (S (Z.to_nat i)) (sfi_direct (sv_i sv)) = drop (Z.to_nat (i + 1)) l1) as Edrop.
  { unfold l1. rewrite drop_insert_lt by lia. f_equal. lia. }
  rewrite Edrop in *.
  destruct (IH (i + 1) s1 (set_inode (set_directs l1 (sv_i sv)) d1 sv)) as (s2 & d2 & H2 & Hf3 & Hv2).
  - apply Hf1.
  - by rewrite Hv1, lookup_insert_eq.
  - cbn. unfold l1. by rewrite length_insert.
  - lia.
  - lia.
  - exact Hf2.
  - exists s2, d2. split.
    { cbn [trunc_direct]. rewrite (bind_Done _ _ _ _ _ (vnode_run _ _ _ Hv)).
      rewrite (bind_Done _ _ _ _ _ (elt_run _ _ _ _ Hb)). fold d.
      by rewrite (bind_Done _ _ _ _ _ H1). }
    split; [by eapply freed_trans|]. rewrite Hv2, Hv1, insert_insert_eq. done.
Qed.

Lemma NoDup_gone l j thr :
  (forall a b x, l !! a = Some x -> l !! b = Some x -> x <> 0 -> a = b) -> NoDup (gone l j thr).
Proof.
  revert j. induction l as [|x l IH]; intros j Hl; cbn [gone]; [constructor|].
  assert (NoDup (gone l (j + 1) thr)) as Hn.
  { apply IH. intros a b y Ha Hb Hy. by injection (Hl (S a) (S b) y Ha Hb Hy). }
  destruct ((thr <=? j) && negb (x =? 0)) eqn:E; [|done]. cbn [app]. constructor; [|done].
  rewrite elem_of_gone. intros (Hx & k & Hk & _). by specialize (Hl 0%nat (S k) x eq_refl Hk Hx).
Qed.

(** The pointers a truncation to [bl] blocks leaves alone: a direct pointer
    must be below the limit, an entry of the indirect block may be at it. *)
Definition keeps (bl k : Z) : bool := if k <? 15 then k <? bl else k <=? bl.

Lemma ptr_direct s i k : inode_ok i -> (k < 15)%nat ->
  sfi_direct i !! k = Some (ptr s i (Z.of_nat k)).
Proof.
  intros Hi Hk. unfold ptr. rewrite (proj2 (Z.ltb_lt _ _)) by lia. rewrite Nat2Z.id.
  destruct (lookup_lt_is_Some_2 (sfi_direct i) k) as [x Hx]; [|by rewrite Hx].
  by destruct (io_direct _ Hi) as [-> _].
Qed.
Lemma ptr_entry s i k : sfi_indirect i <> 0 -> fs_ok s -> (k < 128)%nat ->
  entries s i !! k = Some (ptr s i (15 + Z.of_nat k)).
Proof.
  intros Hi Hok Hk. unfold ptr. rewrite (proj2 (Z.ltb_ge _ _)), (proj2 (Z.ltb_lt _ _)) by lia.
  replace (Z.to_nat (15 + Z.of_nat k - 15)) with k by lia.
  destruct (lookup_lt_is_Some_2 (entries s i) k) as [x Hx]; [|by rewrite Hx].
  unfold entries. rewrite (proj2 (Z.eqb_neq _ _)) by done.
  by destruct (content_entries s (sfi_indirect i) Hok) as [-> _].
Qed.

(** The blocks a truncation discards, as pointers of the inode. *)
Lemma gone_direct s i bl c : inode_ok i ->
  c ∈ gone (sfi_direct i) 0 bl <-> c <> 0 /\ exists k, 0 <= k < 15 /\ ptr s i k = c /\ keeps bl k = false.
Proof.
  intros Hi. rewrite elem_of_gone. split; intros [Hc (k & Hk & Ht)]; (split; [done|]).
  - pose proof (lookup_lt_Some _ _ _ Hk). destruct (io_direct _ Hi) as [Hl _].
    exists (Z.of_nat k). rewrite (ptr_direct s i k) in Hk by (done || lia). injection Hk as Hk.
    split; [lia|]. split; [done|]. unfold keeps. rewrite (proj2 (Z.ltb_lt _ 15)) by lia.
    apply Z.ltb_ge. lia.
  - destruct Ht as [Hp Hkp]. exists (Z.to_nat k).
    rewrite (ptr_direct s i) by (done || lia). rewrite Z2Nat.id by lia. split; [by rewrite Hp|].
    unfold keeps in Hkp. rewrite (proj2 (Z.ltb_lt _ 15)) in Hkp by lia. apply Z.ltb_ge in Hkp. lia.
Qed.
Lemma gone_entries s i bl c : fs_ok s -> sfi_indirect i <> 0 ->
  c ∈ gone (entries s i) 0 (bl - 14) <->
  c <> 0 /\ exists k, 15 <= k < 143 /\ ptr s i k = c /\ keeps bl k = false.
Proof.
  intros Hok Hi. rewrite elem_of_gone. split; intros [Hc (k & Hk & Ht)]; (split; [done|]).
  - pose proof (lookup_lt_Some _ _ _ Hk) as Hl.
    assert (length (entries s i) = 128%nat) as Hl'.
    { unfold entries. rewrite (proj2 (Z.eqb_neq _ _)) by done. by apply content_entries. }
    exists (15 + Z.of_nat k). rewrite (ptr_entry s i k) in Hk by (done || lia). injection Hk as Hk.
    split; [lia|]. split; [done|]. unfold keeps. rewrite (proj2 (Z.ltb_ge _ 15)) by lia.
    apply Z.leb_gt. lia.
  - destruct Ht as [Hp Hkp]. exists (Z.to_nat (k - 15)).
    rewrite (ptr_entry s i) by (done || lia).
    replace (15 + Z.of_nat (Z.to_nat (k - 15))) with k by lia. split; [by rewrite Hp|].
    unfold keeps in Hkp. rewrite (proj2 (Z.ltb_ge _ 15)) in Hkp by lia. apply Z.leb_gt in Hkp. lia.
Qed.

Lemma direct_freeable s i bl : valid s i -> freeable s (gone (sfi_direct i) 0 bl).
Proof.
  intros Hv. pose proof (va_inode _ _ Hv) as Hio. split.
  - apply NoDup_gone. intros a b x Ha Hb Hx.
    pose proof (lookup_lt_Some _ _ _ Ha). pose proof (lookup_lt_Some _ _ _ Hb).
    destruct (io_direct _ Hio) as [Hl _].
    rewrite (ptr_direct s) in Ha, Hb by (done || lia). injection Ha as <-. injection Hb as Hb.
    pose proof (va_inj _ _ Hv (Z.of_nat a) (Z.of_nat b)). naive_solver lia.
  - intros c (H0 & k & Hk & <- & _)%(gone_direct s); [|done]. by apply (va_marked _ _ Hv); [lia|].
Qed.

(** All discarded blocks together with the indirect block can be freed. *)
Lemma all_freeable s i bl : fs_ok s -> valid s i -> sfi_indirect i <> 0 ->
  freeable s (gone (sfi_direct i) 0 bl ++ gone (entries s i) 0 (bl - 14) ++ [sfi_indirect i]).
Proof.
  intros Hok Hv Hi. pose proof (va_inode _ _ Hv) as Hio.
  assert (forall c, c ∈ gone (sfi_direct i) 0 bl ++ gone (entries s i) 0 (bl - 14) ++ [sfi_indirect i] ->
    c <> 0 /\ exists k, 0 <= k <= 143 /\ ptr s i k = c) as Hall.
  { intros c. rewrite !elem_of_app, (gone_direct s), (gone_entries s), list_elem_of_singleton by done.
    intros [(? & k & ? & ? & _)|[(? & k & ? & ? & _)| ->]];
      (split; [done|]); [exists k|exists k|exists 143]; naive_solver lia. }
  split.
  - apply NoDup_app. split; [|split].
    + apply (direct_freeable s i bl Hv).
    + intros c. rewrite elem_of_app, (gone_direct s), (gone_entries s), list_elem_of_singleton by done.
      intros (Hc & k & Hk & Hp & _) [(_ & k' & Hk' & Hp' & _)| ->].
      * pose proof (va_inj _ _ Hv k k'). naive_solver lia.
      * rewrite <- (ptr_143 s i) in Hp. pose proof (va_inj _ _ Hv k 143). rewrite ptr_143 in *.
        naive_solver lia.
    + apply NoDup_app. split; [|split; [|apply NoDup_singleton]].
      * apply NoDup_gone. intros a b x Ha Hb Hx.
        assert (length (entries s i) = 128%nat) as Hl'.
        { unfold entries. rewrite (proj2 (Z.eqb_neq _ _)) by done. by apply content_entries. }
        pose proof (lookup_lt_Some _ _ _ Ha). pose proof (lookup_lt_Some _ _ _ Hb).
        rewrite (ptr_entry s) in Ha, Hb by (done || lia). injection Ha as <-. injection Hb as Hb.
        pose proof (va_inj _ _ Hv (15 + Z.of_nat a) (15 + Z.of_nat b)). naive_solver lia.
      * intros c. rewrite (gone_entries s), list_elem_of_singleton by done.
        intros (Hc & k & Hk & Hp & _) ->. rewrite <- (ptr_143 s i) in Hp.
        pose proof (va_inj _ _ Hv k 143). rewrite ptr_143 in *. naive_solver lia.
  - intros c Hc. destruct (Hall c Hc) as (H0 & k & Hk & <-). by apply (va_marked _ _ Hv); [lia|].
Qed.

(** The effect of a truncation to [bl] blocks on the file and the free map;
    [d] is the dirty mark of the vnode afterwards. *)
Record truncated s (v : Z) (sv : svnode) (bl : Z) (d : bool) s' (i' : sfs_inode) : Prop := mkTruncated {
  tr_ok : fs_ok s';
  tr_valid : valid s' i';
  tr_heap : vheap s' = <[v := set_inode i' d sv]> (vheap s);
  tr_rest : same_rest s s';
  tr_fields : sfi_type i' = sfi_type (sv_i sv) /\ sfi_linkcount i' = sfi_linkcount (sv_i sv);
  tr_ptr : forall k, 0 <= k < 143 ->
    ptr s' i' k = if keeps bl k then ptr s (sv_i sv) k else 0;
  tr_indirect : sfi_indirect i' = sfi_indirect (sv_i sv) \/
    (sfi_indirect i' = 0 /\ forall k, 15 <= k < 143 -> ptr s' i' k = 0);
  tr_emptied : bl < 142 -> (forall k, 15 <= k < 143 -> ptr s' i' k = 0) -> sfi_indirect i' = 0;
  tr_marked : forall c, 0 <= c -> marked s' c = true <->
    marked s c = true /\
    (forall k, 0 <= k -> ptr s (sv_i sv) k = c -> c <> 0 -> ptr s' i' k = c);
  tr_content : forall c, c <> sfi_indirect (sv_i sv) -> content s' c = content s c;
}.

(** The pointers that are left still lead to distinct blocks in use. *)
Lemma truncated_valid s i s' i' bl : valid s i -> inode_ok i' -> super s' = super s ->
  (forall k, 0 <= k < 143 -> ptr s' i' k = if keeps bl k then ptr s i k else 0) ->
  (sfi_indirect i' = sfi_indirect i \/ sfi_indirect i' = 0) ->
  (forall c, 0 <= c -> marked s' c = true <-> marked s c = true /\
     (forall k, 0 <= k -> ptr s i k = c -> c <> 0 -> ptr s' i' k = c)) ->
  valid s' i'.
Proof.
  intros Hv Hi Hs Hp Hind Hm.
  assert (forall k, 0 <= k -> ptr s' i' k <> 0 -> ptr s' i' k = ptr s i k) as Hsub.
  { intros k Hk. destruct (decide (k < 143)) as [Hlt|Hge].
    - rewrite Hp by lia. by destruct (keeps bl k).
    - destruct (decide (k = 143)) as [->|].
      + rewrite !ptr_143. destruct Hind as [-> | ->]; done.
      + unfold ptr. rewrite (proj2 (Z.ltb_ge k 15)), (proj2 (Z.ltb_ge k 143)),
          (proj2 (Z.eqb_neq k 143)) by lia. done. }
  constructor; [done|..].
  - intros k Hk Hne. pose proof (Hsub k Hk Hne) as E0.
    assert (ptr s i k <> 0) as Hne' by congruence. rewrite E0, Hs.
    destruct (va_marked _ _ Hv k Hk Hne') as [Hr Hmk]. split; [done|].
    apply Hm; [lia|]. split; [done|]. intros k' Hk' E _.
    assert (k' = k) as -> by (apply (va_inj _ _ Hv); congruence). done.
  - intros j k Hj Hk E Hne. apply (va_inj _ _ Hv); [done|done| |].
    + rewrite <- !Hsub; [done|done|congruence|done|done].
    + by rewrite <- Hsub.
Qed.

Lemma kept_table (f : Z -> Z) l thr n : length l = n ->
  (forall k, (k < n)%nat -> l !! k = Some (f (Z.of_nat k))) ->
  forall k, 0 <= k < Z.of_nat n ->
  default 0 (kept l 0 thr !! Z.to_nat k) = if thr <=? k then 0 else f k.
Proof.
  intros Hl Hf k Hk. rewrite lookup_kept, Hf by lia. cbn. rewrite Z2Nat.id by lia. done.
Qed.

(** What the second half of a truncation does, on a file whose indirect
    entries are [entries s i]. *)
Record indirect_post s (v : Z) (sv : svnode) (bl : Z) s' (i' : sfs_inode) : Prop := mkIndPost {
  ip_ok : fs_ok s';
  ip_heap : exists d, vheap s' = <[v := set_inode i' d sv]> (vheap s);
  ip_rest : same_rest s s';
  ip_inode : i' = sv_i sv \/ i' = set_indirect 0 (sv_i sv);
  ip_entries : forall k, 0 <= k < 128 -> default 0 (entries s' i' !! Z.to_nat k) =
    if bl - 14 <=? k then 0 else default 0 (entries s (sv_i sv) !! Z.to_nat k);
  ip_zero : i' = set_indirect 0 (sv_i sv) -> forall k, 0 <= k < 128 ->
    default 0 (entries s' i' !! Z.to_nat k) = 0;
  ip_emptied : bl < 142 -> (forall k, 0 <= k < 128 -> default 0 (entries s' i' !! Z.to_nat k) = 0) ->
    sfi_indirect i' = 0;
  ip_marked : forall c, 0 <= c -> marked s' c = marked s c &&
    bool_decide (c ∉ gone (entries s (sv_i sv)) 0 (bl - 14) ++
      (if decide (sfi_indirect i' = sfi_indirect (sv_i sv)) then [] else [sfi_indirect (sv_i sv)]));
  ip_content : forall c, c <> sfi_indirect (sv_i sv) -> content s' c = content s c;
}.

Lemma gone_none l thr : thr >= Z.of_nat (length l) -> gone l 0 thr = [].
Proof.
  intros Hl. destruct (gone l 0 thr) as [|b r] eqn:E; [done|].
  assert (b ∈ gone l 0 thr) as (_ & k & Hk & Ht)%elem_of_gone by (rewrite E; by left).
  apply lookup_lt_Some in Hk. lia.
Qed.

Lemma entries_none s i : sfi_indirect i = 0 -> entries s i = [].
Proof. intros E. unfold entries. by rewrite E. Qed.

(** Nothing to do: no indirect block, or the new size uses all of it. *)
Lemma indirect_idle s v sv bl : fs_ok s -> vheap s !! v = Some sv ->
  sfi_indirect (sv_i sv) = 0 \/ 142 <= bl ->
  indirect_post s v sv bl s (sv_i sv).
Proof.
  intros Hok Hv Hc.
  assert (forall k, 0 <= k < 128 -> bl - 14 <= k -> default 0 (entries s (sv_i sv) !! Z.to_nat k) = 0) as Hz.
  { intros k Hk Hb. destruct Hc as [E|]; [|lia]. by rewrite entries_none. }
  constructor; try done.
  - exists (sv_dirty sv). by rewrite set_inode_id, insert_id.
  - by left.
  - intros k Hk. destruct (Z.leb_spec (bl - 14) k); [by apply Hz|done].
  - intros E%(f_equal sfi_indirect) k Hk. cbn in E. by rewrite entries_none.
  - intros Hb _. destruct Hc; [done|lia].
  - intros c Hc0. rewrite decide_True by done. rewrite app_nil_r.
    assert (gone (entries s (sv_i sv)) 0 (bl - 14) = []) as ->.
    { destruct Hc as [E|?]; [by rewrite entries_none|]. apply gone_none. unfold entries.
      destruct (_ =? 0); [cbn; lia|].
      destruct (content_entries s (sfi_indirect (sv_i sv)) Hok) as [-> _]. lia. }
    by rewrite bool_decide_true, andb_true_r by apply not_elem_of_nil.
Qed.

Lemma kept_u32 n l j thr : u32_list n l -> u32_list n (kept l j thr).
Proof.
  intros [Hl Hr]. split; [by rewrite length_kept|]. apply Forall_lookup_2. intros k x.
  rewrite lookup_kept. destruct (l !! k) as [y|] eqn:E; [|done]. cbn. intros [= <-].
  pose proof (Forall_lookup_1 _ _ _ _ Hr E). destruct (_ <=? _); [lia|done].
Qed.

Lemma kept_default l thr k : 0 <= k ->
  default 0 (kept l 0 thr !! Z.to_nat k) = if thr <=? k then 0 else default 0 (l !! Z.to_nat k).
Proof.
  intros Hk. rewrite lookup_kept. rewrite Z2Nat.id by done. cbn.
  destruct (l !! Z.to_nat k); cbn; [done|]. by destruct (thr <=? k).
Qed.

Lemma all_zero l : ~ Exists (fun b => b <> 0) l -> forall k : nat, default 0 (l !! k) = 0.
Proof.
  intros Hn k. destruct (l !! k) as [b|] eqn:E; [|done]. cbn. destruct (decide (b = 0)); [done|].
  destruct Hn. apply Exists_exists. exists b. split; [by eapply list_elem_of_lookup_2|done].
Qed.

(** Some entry is left: the indirect block holds the kept entries. *)
Lemma indirect_kept s v sv bl s' : fs_ok s -> fs_ok s' -> sfi_indirect (sv_i sv) <> 0 ->
  vheap s !! v = Some sv -> vheap s' = vheap s -> same_rest s s' ->
  content s' (sfi_indirect (sv_i sv)) = enc32 (kept (entries s (sv_i sv)) 0 (bl - 14)) ->
  (forall c, c <> sfi_indirect (sv_i sv) -> content s' c = content s c) ->
  Exists (fun b => b <> 0) (kept (entries s (sv_i sv)) 0 (bl - 14)) ->
  (forall c, 0 <= c -> marked s' c =
     marked s c && bool_decide (c ∉ gone (entries s (sv_i sv)) 0 (bl - 14))) ->
  indirect_post s v sv bl s' (sv_i sv).
Proof.
  intros Hok Hok' Hnz Hv Hv' Hrest Hci Hco Hex Hm.
  assert (u32_list 128 (entries s (sv_i sv))) as HE.
  { unfold entries. rewrite (proj2 (Z.eqb_neq _ _)) by done. by apply content_entries. }
  assert (entries s' (sv_i sv) = kept (entries s (sv_i sv)) 0 (bl - 14)) as E'.
  { unfold entries at 1. rewrite (proj2 (Z.eqb_neq _ _)) by done. rewrite Hci.
    by apply enc_entries, kept_u32. }
  constructor; rewrite ?E'; try done.
  - exists (sv_dirty sv). by rewrite set_inode_id, Hv', insert_id.
  - by left.
  - intros k Hk. apply kept_default. lia.
  - intros E0%(f_equal sfi_indirect). done.
  - intros _ Hall. apply Exists_exists in Hex as (b & Hb & Hb0).
    apply list_elem_of_lookup in Hb as [k Hk]. pose proof (lookup_lt_Some _ _ _ Hk) as Hlt.
    rewrite length_kept in Hlt. destruct HE as [HEl _].
    specialize (Hall (Z.of_nat k) ltac:(lia)). rewrite Nat2Z.id, Hk in Hall. done.
  - intros c Hc. rewrite decide_True by done. rewrite app_nil_r. by apply Hm.
Qed.

(** No entry is left: the indirect block is free. *)
Lemma indirect_gone s v sv bl s' : sfi_indirect (sv_i sv) <> 0 -> fs_ok s' ->
  vheap s' = <[v := set_inode (set_indirect 0 (sv_i sv)) true sv]> (vheap s) -> same_rest s s' ->
  (forall c, content s' c = content s c) ->
  ~ Exists (fun b => b <> 0) (kept (entries s (sv_i sv)) 0 (bl - 14)) ->
  (forall c, 0 <= c -> marked s' c = marked s c &&
     bool_decide (c ∉ gone (entries s (sv_i sv)) 0 (bl - 14) ++ [sfi_indirect (sv_i sv)])) ->
  indirect_post s v sv bl s' (set_indirect 0 (sv_i sv)).
Proof.
  intros Hnz Hok' Hv' Hrest Hc Hex Hm. pose proof (all_zero _ Hex) as Hz. constructor; try done.
  - by exists true.
  - by right.
  - intros k Hk. rewrite entries_none by done. rewrite lookup_nil. cbn [default].
    pose proof (Hz (Z.to_nat k)) as Hzk. rewrite kept_default in Hzk by lia. by rewrite Hzk.
  - intros c Hc0. cbn [sfi_indirect set_indirect]. rewrite decide_False by congruence. by apply Hm.
Qed.

Lemma kept_all E thr : gone E 0 thr = [] -> kept E 0 thr = E.
Proof.
  intros Hg. apply list_eq. intros k. rewrite lookup_kept. destruct (E !! k) as [b|] eqn:Ek; [|done].
  cbn [fmap option_fmap option_map]. f_equal.
  destruct (Z.leb_spec thr (0 + Z.of_nat k)); [|done].
  destruct (decide (b = 0)) as [->|Hb]; [done|].
  assert (b ∈ gone E 0 thr) as Hin by (apply elem_of_gone; eauto with lia).
  rewrite Hg in Hin. by apply elem_of_nil in Hin.
Qed.

(** The indirect block is read and its entries are discarded. *)
Lemma trunc_read s v sv bl : fs_ok s -> vheap s !! v = Some sv -> sfi_indirect (sv_i sv) <> 0 ->
  freeable s (gone (entries s (sv_i sv)) 0 (bl - 14) ++ [sfi_indirect (sv_i sv)]) ->
  let E := entries s (sv_i sv) in
  exists s1 s2, on_device (sfs_rblock zeros (sfi_indirect (sv_i sv))) s =
      Done ((0, content s (sfi_indirect (sv_i sv))), s1) /\
    trunc_entries (dec32 (content s (sfi_indirect (sv_i sv)))) 0 bl s1 =
      Done ((kept E 0 (bl - 14), bool_decide (Exists (fun b => b <> 0) (kept E 0 (bl - 14))),
             bool_decide (gone E 0 (bl - 14) <> [])), s2) /\
    fs_ok s2 /\ vheap s2 = vheap s /\ same_rest s s2 /\ (forall c, content s2 c = content s c) /\
    (forall c, 0 <= c -> marked s2 c = marked s c && bool_decide (c ∉ gone E 0 (bl - 14))) /\
    freeable s2 [sfi_indirect (sv_i sv)].
Proof.
  intros Hok Hv Hnz Hf E. set (ind := sfi_indirect (sv_i sv)) in *. pose proof Hf as [_ Hfb].
  destruct (Hfb ind) as [Hr _]; [apply elem_of_app; right; by left|].
  destruct (fs_rblock s ind Hok ltac:(lia)) as (s1 & Hrb & Hok1 & (A1 & A2 & A3 & A4 & A5 & A6) & Hm1 & Hd1 & Hc1).
  assert (dec32 (content s ind) = E) as ->
    by (unfold E, entries; fold ind; by rewrite (proj2 (Z.eqb_neq _ _))).
  assert (forall c, marked s1 c = marked s c) as Hmk1 by (intros; unfold marked; by rewrite Hm1).
  assert (freeable s1 (gone E 0 (bl - 14) ++ [ind])) as Hf1.
  { destruct Hf as [Hn _]. split; [done|]. intros b Hb. rewrite Hmk1, A1. auto. }
  assert (freeable s1 (gone E 0 (bl - 14))) as Hf1'.
  { destruct Hf1 as [Hn Hb]. apply NoDup_app in Hn as (Hn & _ & _). split; [done|].
    intros b H. apply Hb, elem_of_app. by left. }
  destruct (trunc_entries_run E 0 bl s1 Hok1 Hf1') as (s2 & Ht & Hfr & Hv2).
  destruct (freeable_app _ _ _ _ Hf1 Hfr) as [_ Hf2].
  destruct Hfr as [Hok2 (B1 & B2 & B3 & _ & B5 & B6) B7 B8]. cbn in B1, B2, B3, B5, B6.
  exists s1, s2. split; [done|]. split; [done|]. split; [done|]. split; [congruence|].
  split; [repeat split; congruence|]. split; [intros c; unfold content; rewrite B7; apply Hc1|].
  split; [|done]. intros c Hc. by rewrite B8, Hmk1.
Qed.

Lemma trunc_indirect_run s v sv bl : fs_ok s -> vheap s !! v = Some sv ->
  (sfi_indirect (sv_i sv) <> 0 ->
     freeable s (gone (entries s (sv_i sv)) 0 (bl - 14) ++ [sfi_indirect (sv_i sv)])) ->
  exists s' i', trunc_indirect v bl s = Done (0, s') /\ indirect_post s v sv bl s' i'.
Proof.
  intros Hok Hv Hf. unfold trunc_indirect. rewrite (bind_Done _ _ _ _ _ (vnode_run _ _ _ Hv)).
  change (SFS_NDIRECT + SFS_DBPERIDB - 1) with 142.
  destruct (Z.ltb_spec bl 142) as [Hbl|Hbl]; cbn [andb].
  2:{ exists s, (sv_i sv). split; [done|]. apply indirect_idle; auto. }
  destruct (Z.eqb_spec (sfi_indirect (sv_i sv)) 0) as [Ez|Hnz]; cbn [negb].
  { exists s, (sv_i sv). split; [done|]. apply indirect_idle; auto. }
  destruct (trunc_read s v sv bl Hok Hv Hnz (Hf Hnz)) as (s1 & s2 & Hrb & Ht & Hok2 & Hv2 & Hrest & Hc2 & Hm2 & Hf2).
  rewrite (bind_Done _ _ _ _ _ Hrb). cbn [Z.eqb negb]. rewrite (bind_Done _ _ _ _ _ Ht).
  assert (u32_list 128 (entries s (sv_i sv))) as HE.
  { unfold entries. rewrite (proj2 (Z.eqb_neq _ _)) by done. by apply content_entries. }
  destruct Hf2 as [_ Hf2]. destruct (Hf2 (sfi_indirect (sv_i sv))) as [Hr2 Hmi2]; [by left|].
  case_bool_decide as Hex; cbn [negb].
  - case_bool_decide as Hdirty.
    + destruct (enc_entries _ (kept_u32 128 _ 0 (bl - 14) HE)) as [Hbo _].
      destruct (fs_wblock s2 (sfi_indirect (sv_i sv)) (enc32 (kept (entries s (sv_i sv)) 0 (bl - 14))) Hok2)
        as (s3 & Hw & Hok3 & (C1 & C2 & C3 & C4 & C5 & C6) & Hm3 & _ & Hc3); [lia|done|].
      exists s3, (sv_i sv). split; [exact Hw|]. destruct Hrest as (R1 & R2 & R3 & R4 & R5).
      apply indirect_kept; try done.
      * congruence.
      * repeat split; congruence.
      * by rewrite Hc3, Z.eqb_refl.
      * intros c Hc. by rewrite Hc3, (proj2 (Z.eqb_neq _ _)).
      * intros c Hc. unfold marked at 1. rewrite Hm3. by apply Hm2.
    + exists s2, (sv_i sv). split; [done|].
      apply indirect_kept; try done. rewrite Hc2, kept_all by done. symmetry.
      unfold entries. rewrite (proj2 (Z.eqb_neq _ _)) by done.
      destruct (content_ok s (sfi_indirect (sv_i sv)) Hok). apply enc32_dec32; [by exists 128%nat|done].
  - destruct (bfree_run s2 (sfi_indirect (sv_i sv)) Hok2 Hr2 Hmi2) as (s3 & H3 & [D1 D2 D7 D8] & Hv3).
    rewrite (bind_Done _ _ _ _ _ H3). unfold put_vnode, mmodify. rewrite (bind_Done _ _ _ _ _ eq_refl).
    exists (with_vheap (<[v := set_inode (set_indirect 0 (sv_i sv)) true sv]> (vheap s3)) s3),
      (set_indirect 0 (sv_i sv)).
    destruct D2 as (D2 & D3 & D4 & _ & D5 & D6), Hrest as (R1 & R2 & R3 & R4 & R5).
    cbn in D2, D3, D4, D5, D6.
    split; [done|]. apply indirect_gone; try done.
    + by apply fs_ok_vheap.
    + cbn. by rewrite Hv3, Hv2.
    + repeat split; cbn; congruence.
    + intros c. unfold content. cbn. rewrite D7. apply Hc2.
    + intros c Hc. unfold marked at 1. cbn. fold (marked s3 c). rewrite D8, Hm2, <- andb_assoc by done.
      f_equal. rewrite <- bool_decide_and. apply bool_decide_ext. by rewrite not_elem_of_app.
Qed.

(** The pointers after both halves. *)
Lemma truncated_ptr s i s' i' bl l' : fs_ok s -> inode_ok i -> l' = kept (sfi_direct i) 0 bl ->
  sfi_direct i' = l' ->
  (forall k, 0 <= k < 128 -> default 0 (entries s' i' !! Z.to_nat k) =
     if bl - 14 <=? k then 0 else default 0 (entries s i !! Z.to_nat k)) ->
  forall k, 0 <= k < 143 -> ptr s' i' k = if keeps bl k then ptr s i k else 0.
Proof.
  intros Hok Hi -> Hd He k Hk. unfold ptr, keeps. rewrite Hd.
  destruct (Z.ltb_spec k 15).
  - rewrite kept_default by lia. destruct (Z.leb_spec bl k), (Z.ltb_spec k bl); done || lia.
  - rewrite (proj2 (Z.ltb_lt k 143)) by lia. rewrite He by lia.
    destruct (Z.leb_spec (bl - 14) (k - 15)), (Z.leb_spec k bl); done || lia.
Qed.

(** The discarded blocks are the pointers that changed. *)
Lemma truncated_marked s i s' i' bl c : fs_ok s -> valid s i ->
  (forall k, 0 <= k < 143 -> ptr s' i' k = if keeps bl k then ptr s i k else 0) ->
  (sfi_indirect i' = sfi_indirect i \/ sfi_indirect i' = 0) ->
  c ∈ gone (sfi_direct i) 0 bl ++ gone (entries s i) 0 (bl - 14) ++
      (if decide (sfi_indirect i' = sfi_indirect i) then [] else [sfi_indirect i]) <->
  c <> 0 /\ exists k, 0 <= k /\ ptr s i k = c /\ ptr s' i' k <> c.
Proof.
  intros Hok Hv Hp Hind. pose proof (va_inode _ _ Hv) as Hi.
  assert (c ∈ gone (entries s i) 0 (bl - 14) <->
    c <> 0 /\ exists k, 15 <= k < 143 /\ ptr s i k = c /\ keeps bl k = false) as Hge.
  { destruct (decide (sfi_indirect i = 0)) as [E|E]; [|by apply gone_entries].
    rewrite entries_none by done. cbn [gone]. rewrite elem_of_nil. split; [done|].
    intros (Hc & k & Hk & Hpk & _). replace k with (15 + (k - 15)) in Hpk by lia.
    rewrite ptr_noindirect in Hpk by (done || lia). congruence. }
  rewrite !elem_of_app, (gone_direct s), Hge by done. split.
  - intros [(Hc & k & Hk & Hpk & Hkp)|[(Hc & k & Hk & Hpk & Hkp)|Hin]].
    1-2: split; [done|]; exists k; split; [lia|]; split; [done|]; rewrite Hp, Hkp by lia; congruence.
    destruct (decide (sfi_indirect i' = sfi_indirect i)) as [|Hne]; [by apply elem_of_nil in Hin|].
    apply list_elem_of_singleton in Hin as ->. destruct Hind as [|Hz]; [done|].
    split; [congruence|]. exists 143. rewrite !ptr_143. split; [lia|]. split; [done|congruence].
  - intros (Hc & k & Hk & Hpk & Hne). destruct (decide (k < 143)) as [Hlt|Hge'].
    + rewrite Hp in Hne by lia. destruct (keeps bl k) eqn:Hkp; [done|].
      destruct (decide (k < 15)); [left|right; left]; (split; [done|]); exists k; (split; [lia|done]).
    + destruct (decide (k = 143)) as [->|Hk3].
      * right. right. rewrite !ptr_143 in *. rewrite decide_False by congruence.
        by apply list_elem_of_singleton.
      * exfalso. apply Hc. rewrite <- Hpk. unfold ptr.
        by rewrite (proj2 (Z.ltb_ge k 15)), (proj2 (Z.ltb_ge k 143)), (proj2 (Z.eqb_neq k 143)) by lia.
Qed.

Lemma kept_inode_ok i bl : inode_ok i -> inode_ok (set_directs (kept (sfi_direct i) 0 bl) i).
Proof. intros []. constructor; cbn; try done. by apply kept_u32. Qed.

Lemma truncate_blocks s v sv bl : fs_ok s -> valid s (sv_i sv) -> vheap s !! v = Some sv ->
  exists s' i' d, (_ ← trunc_direct 15 v 0 bl; trunc_indirect v bl) s = Done (0, s') /\
    truncated s v sv bl d s' i' /\ sfi_size i' = sfi_size (sv_i sv).
Proof.
  intros Hok Hv Hsv. set (i := sv_i sv) in *. pose proof (va_inode _ _ Hv) as Hi.
  pose proof (direct_freeable s i bl Hv) as Hfd. destruct (io_direct _ Hi) as [Hdl _].
  destruct (trunc_direct_run 15 0 bl v s sv) as (s1 & d1 & H1 & Hf1 & Hv1); [done..|].
  fold i in Hf1, Hv1. cbn [Z.to_nat] in Hf1, Hv1. rewrite drop_0 in Hf1, Hv1. cbn [take app] in Hv1.
  set (i1 := set_directs (kept (sfi_direct i) 0 bl) i) in *.
  pose proof Hf1 as [Hok1 (A1 & A2 & A3 & _ & A5 & A6) A7 A8]. cbn in A1, A2, A3, A5, A6.
  assert (forall c, content s1 c = content s c) as Hc1 by (intros; unfold content; by rewrite A7).
  assert (entries s1 i1 = entries s i) as Een by (unfold entries; cbn; by rewrite Hc1).
  destruct (trunc_indirect_run s1 v (set_inode i1 d1 sv) bl Hok1) as (s2 & i2 & H2 & Hip).
  { by rewrite Hv1, lookup_insert_eq. }
  { cbn [sv_i set_inode]. rewrite Een. cbn. intros Hnz.
    by destruct (freeable_app _ _ _ _ (all_freeable s i bl Hok Hv Hnz) Hf1). }
  destruct Hip as [P1 [d2 P2] P3 P4 P5 P6 P7 P8 P9]. cbn [sv_i set_inode] in *. rewrite Een in *.
  change (sfi_indirect i1) with (sfi_indirect i) in *.
  assert (sfi_direct i2 = kept (sfi_direct i) 0 bl /\ sfi_size i2 = sfi_size i /\ sfi_type i2 = sfi_type i /\
    sfi_linkcount i2 = sfi_linkcount i /\ inode_ok i2 /\
    (sfi_indirect i2 = sfi_indirect i \/ i2 = set_indirect 0 i1)) as (F1 & F2 & F3 & F4 & F5 & F6).
  { destruct P4 as [-> | ->]; (split; [done|]); (split; [done|]); (split; [done|]); (split; [done|]).
    - split; [by apply kept_inode_ok|by left].
    - split; [apply set_indirect_ok; [by apply kept_inode_ok|lia]|by right]. }
  pose proof (truncated_ptr s i s2 i2 bl _ Hok Hi eq_refl F1 P5) as Hptr.
  assert (sfi_indirect i2 = sfi_indirect i \/ sfi_indirect i2 = 0) as Hind
    by (destruct F6 as [? | ->]; auto).
  assert (forall c, 0 <= c -> marked s2 c = true <-> marked s c = true /\
    (forall k, 0 <= k -> ptr s i k = c -> c <> 0 -> ptr s2 i2 k = c)) as Hmk.
  { intros c Hc. rewrite P8, A8, <- andb_assoc, <- bool_decide_and by done.
    pose proof (truncated_marked s i s2 i2 bl c Hok Hv Hptr Hind) as Htm. rewrite elem_of_app in Htm.
    rewrite andb_true_iff, bool_decide_eq_true.
    assert ((c ∉ gone (sfi_direct i) 0 bl) /\ (c ∉ gone (entries s i) 0 (bl - 14) ++
      (if decide (sfi_indirect i2 = sfi_indirect i) then [] else [sfi_indirect i])) <->
      ~ (c <> 0 /\ exists k, 0 <= k /\ ptr s i k = c /\ ptr s2 i2 k <> c)) as -> by tauto.
    split; intros [Hm Hn]; (split; [done|]).
    - intros k Hk Hpk Hc0. destruct (decide (ptr s2 i2 k = c)); [done|]. destruct Hn. eauto.
    - intros (Hc0 & k & Hk & Hpk & Hne). by apply Hne, Hn. }
  assert (forall k, 15 <= k < 143 -> ptr s2 i2 k = default 0 (entries s2 i2 !! Z.to_nat (k - 15))) as Hpe.
  { intros k Hk. unfold ptr. by rewrite (proj2 (Z.ltb_ge _ 15)), (proj2 (Z.ltb_lt _ 143)) by lia. }
  destruct P3 as (B1 & B2 & B3 & B4 & B5).
  exists s2, i2, d2. split; [by rewrite (bind_Done _ _ _ _ _ H1)|]. split; [|done].
  constructor; try done.
  - apply (truncated_valid s i s2 i2 bl); try done. congruence.
  - rewrite P2, Hv1. by rewrite insert_insert_eq.
  - repeat split; congruence.
  - destruct F6 as [?|E]; [by left|]. right. split; [by rewrite E|]. intros k Hk. rewrite Hpe by done.
    apply P6; [done|lia].
  - intros Hbl Hall. apply P7; [done|]. intros k Hk. specialize (Hall (15 + k) ltac:(lia)).
    rewrite Hpe in Hall by lia. by replace (15 + k - 15) with k in Hall by lia.
  - intros c Hc. rewrite P9 by done. apply Hc1.
Qed.

(** ** Reclaiming *)

Lemma vnode_check_run s v sv reclaim : vheap s !! v = Some sv ->
  0 < vn_refcount sv -> 0 <= vn_opencount sv -> CountLock v ∉ held (ker s) ->
  vnode_check v reclaim s = Done (tt, s).
Proof.
  intros Hv Hr Ho Hh. destruct (lock_pair (CountLock v) s Hh) as (s1 & Ha & Hrel & Hv1).
  unfold vnode_check. rewrite (bind_Done _ _ _ sv s) by (unfold vnode; by rewrite Hv).
  rewrite (bind_Done _ _ _ _ _ Ha).
  rewrite (proj2 (Z.ltb_ge (vn_refcount sv) 0)), (proj2 (Z.eqb_neq (vn_refcount sv) 0)) by lia.
  by rewrite (proj2 (Z.ltb_ge (vn_opencount sv) 0)) by lia.
Qed.

Lemma truncate_run s v sv len : fs_ok s -> valid s (sv_i sv) -> vheap s !! v = Some sv ->
  0 <= len < 2 ^ 32 -> 0 <= biglock_depth (ker s) ->
  exists s' i', sfs_truncate v len s = Done (0, s') /\
    truncated s v sv ((len + 511) / 512) true s' i' /\ sfi_size i' = len.
Proof.
  intros Hok Hv Hsv Hlen Hd. set (bl := (len + 511) / 512).
  assert (u32 ((len + SFS_BLOCKSIZE - 1) / SFS_BLOCKSIZE) = bl) as Ebl.
  { unfold SFS_BLOCKSIZE, bl. replace (len + 512 - 1) with (len + 511) by lia.
    apply uwrap_small. dlia. }
  destruct (truncate_blocks (locked s) v sv bl) as (s2 & i2 & d & Hr & Ht & Hsz);
    [by apply fs_ok_ker|by apply valid_ker|done|].
  destruct Ht as [T1 T2 T3 (R1 & R2 & R3 & R4 & R5) T5 T6 T7 T8 T9 T10].
  apply bind_inv in Hr as ([] & s1 & Hr1 & Hr2).
  set (sv2 := set_inode i2 d sv). set (i' := set_size len i2).
  set (s' := with_ker (ker s) (with_vheap (<[v := set_inode i' true sv]> (vheap s)) s2)).
  exists s', i'. split; [|split]; try done.
  - unfold sfs_truncate. rewrite Ebl. rewrite (bind_Done _ _ _ _ _ (biglock_acquire_run s)).
    rewrite (bind_Done _ _ _ _ _ Hr1), (bind_Done _ _ _ _ _ Hr2). cbn [Z.eqb negb].
    rewrite (bind_Done _ _ _ sv2 s2) by (apply vnode_run; by rewrite T3, lookup_insert_eq).
    unfold put_vnode, mmodify. rewrite (bind_Done _ _ _ _ _ eq_refl).
    rewrite (bind_Done _ _ _ _ _ (biglock_release_run (with_vheap _ s2) (ker s) Hd R5)).
    unfold s', i'. rewrite uwrap_small by done. rewrite T3. cbn [locked with_ker vheap].
    rewrite insert_insert_eq. done.
  - constructor; try done.
    + by apply fs_ok_ker, fs_ok_vheap.
    + apply valid_ker. destruct T2 as [V1 V2 V3]. constructor; [by apply set_size_ok|done|done].
Qed.

(** C20: [sfs_truncate] on a consistent file system on a working device
    succeeds, stores the new length and marks the inode dirty.  With [bl] the
    number of blocks the new length needs, every pointer of the file below
    [bl] survives and every pointer above [bl] is discarded.  Block [bl] itself
    is the first block past the new end: it is discarded if it is one of the
    fifteen direct blocks, and wrongly kept if it is reached through the
    indirect block (the comment there says that any block past the new end is
    discarded; the comparison is off by one).  The blocks of the discarded
    pointers, and the indirect block when no entry is left, are free afterwards
    and every other block of the volume keeps its mark; no data block is
    touched and the remaining pointers are still distinct and in use. *)
Theorem sfs_truncate_correct s v sv len
    (Hok : fs_ok s) (Hv : valid s (sv_i sv)) (Hsv : vheap s !! v = Some sv)
    (Hlen : 0 <= len < 2 ^ 32) (Hd : 0 <= biglock_depth (ker s)) :
  let bl := (len + 511) / 512 in
  exists s' i', sfs_truncate v len s = Done (0, s') /\ sfi_size i' = len /\
    vheap s' = <[v := set_inode i' true sv]> (vheap s) /\
    (forall k, 0 <= k < 143 -> k < bl -> ptr s' i' k = ptr s (sv_i sv) k) /\
    (forall k, bl < k < 143 -> ptr s' i' k = 0) /\
    (bl < 143 -> ptr s' i' bl = if bl <? 15 then 0 else ptr s (sv_i sv) bl) /\
    truncated s v sv bl true s' i'.
Proof.
  destruct (truncate_run s v sv len) as (s' & i' & H1 & H2 & H3); [done..|]. cbv zeta.
  assert (0 <= (len + 511) / 512) as Hbl by dlia.
  exists s', i'. split; [done|]. split; [done|]. split; [apply H2|]. split; [|split; [|split; [|done]]].
  - intros k Hk Hlt. rewrite (tr_ptr _ _ _ _ _ _ _ H2) by done. unfold keeps.
    rewrite (proj2 (Z.ltb_lt k ((len + 511) / 512))), (proj2 (Z.leb_le k ((len + 511) / 512))) by lia. by destruct (k <? 15).
  - intros k Hk. rewrite (tr_ptr _ _ _ _ _ _ _ H2) by lia. unfold keeps.
    rewrite (proj2 (Z.ltb_ge k ((len + 511) / 512))), (proj2 (Z.leb_gt k ((len + 511) / 512))) by lia.
    by destruct (k <? 15).
  - intros Hlt. rewrite (tr_ptr _ _ _ _ _ _ _ H2) by lia. unfold keeps.
    rewrite Z.ltb_irrefl, Z.leb_refl. by destruct (_ <? 15).
Qed.

(** Truncation keeps a block it should discard.  If the new length needs
    [bl >= 15] blocks, block [bl] of the file lies past the new end, yet its
    pointer in the indirect block is left in place and the block stays in
    use; its old bytes come back when the file grows again. *)
Theorem truncate_keeps_block_past_end s v sv len
    (Hok : fs_ok s) (Hv : valid s (sv_i sv)) (Hsv : vheap s !! v = Some sv)
    (Hlen : 0 <= len < 2 ^ 32) (Hd : 0 <= biglock_depth (ker s))
    (Hbl : 15 <= (len + 511) / 512 < 143)
    (Hp : ptr s (sv_i sv) ((len + 511) / 512) <> 0) :
  exists s' i', sfs_truncate v len s = Done (0, s') /\ sfi_size i' = len /\
    vheap s' = <[v := set_inode i' true sv]> (vheap s) /\
    len <= 512 * ((len + 511) / 512) /\
    ptr s' i' ((len + 511) / 512) = ptr s (sv_i sv) ((len + 511) / 512) /\
    marked s' (ptr s (sv_i sv) ((len + 511) / 512)) = true.
Proof.
  destruct (truncate_run s v sv len Hok Hv Hsv Hlen Hd) as (s' & i' & H1 & H2 & H3).
  exists s', i'. split; [done|]. split; [done|]. split; [apply H2|]. split; [dlia|].
  assert (ptr s' i' ((len + 511) / 512) = ptr s (sv_i sv) ((len + 511) / 512)) as E.
  { rewrite (tr_ptr _ _ _ _ _ _ _ H2) by lia. unfold keeps.
    by rewrite (proj2 (Z.ltb_ge _ 15)), Z.leb_refl by lia. }
  split; [done|]. rewrite <- E. apply (va_marked _ _ (tr_valid _ _ _ _ _ _ _ H2)); [lia|congruence].
Qed.

(** A removed directory is never reclaimed.  [sfs_reclaim] truncates an
    inode without links through [VOP_TRUNCATE], which the table of directory
    operations answers with [EISDIR]; so it returns [EISDIR] and leaves the
    vnode, its inode and its blocks exactly as they were. *)
Theorem reclaim_of_directory_fails s v sv
    (Hsv : vheap s !! v = Some sv) (Hdir : vn_isdir sv = true) (Hr : vn_refcount sv = 1)
    (Ho : 0 <= vn_opencount sv) (Hl : sfi_linkcount (sv_i sv) = 0)
    (Hh : CountLock v ∉ held (ker s)) (Hd : 0 <= biglock_depth (ker s)) :
  sfs_reclaim v s = Done (EISDIR, s).
Proof.
  unfold sfs_reclaim. rewrite (bind_Done _ _ _ _ _ (biglock_acquire_run s)).
  rewrite (bind_Done _ _ _ sv (locked s)) by (by apply vnode_run). rewrite Hr, Hl.
  change (negb (1 =? 1)) with false. change (0 =? 0) with true. cbv iota.
  rewrite (bind_Done _ _ _ EISDIR (locked s)).
  - change (negb (EISDIR =? 0)) with true. cbv iota.
    rewrite (bind_Done _ _ _ _ _ (biglock_release_run (locked s) (ker s) Hd eq_refl)).
    by destruct s.
  - unfold VOP_TRUNCATE.
    rewrite (bind_Done _ _ _ _ _ (vnode_check_run (locked s) v sv false Hsv ltac:(lia) Ho Hh)).
    rewrite (bind_Done _ _ _ sv (locked s)) by (by apply vnode_run). by rewrite Hdir.
Qed.
End truncation.

(** ** Concrete runs *)

(** A file of 17 blocks whose last two, 7 and 8, are in its indirect block 5. *)
Definition tail_entries : list Z := [7; 8] ++ replicate 126 0.
Definition tail_inode : sfs_inode :=
  mkInode (17 * 512) SFS_TYPE_FILE 1 (replicate 15 0) 5 (replicate 110 0).
Definition tail_file : svnode := mkSv 1 1 false tail_inode 3 false.
Definition tail_disk : lhd sim :=
  (config_lhd true true (mkSim 40 {[5 := enc32 tail_entries]} []) blank).2.
Definition tail_fs : fs (lhd sim) :=
  mkFs tail_disk (mkSuper SFS_MAGIC 40 (replicate 32 0) (replicate 118 0)) false
    (Bitmap.mkBitmap 40 [255; 1; 0; 0; 0]) false Arrays.array_init {[100 := tail_file]}
    (replicate 64 (mkSlot zeros (-1) (-1))) (mkEnv 0 [] [] [] 200).

Lemma tail_entries_ok : u32_list 128 tail_entries.
Proof.
  split; [done|]. apply Forall_app. split; [repeat constructor; lia|]. apply Forall_replicate. lia.
Qed.

Lemma tail_fs_ok : fs_ok tail_fs.
Proof.
  constructor; try (cbn; lia); [| |done].
  - constructor; try done. split; [done|]. cbn. apply map_Forall_singleton.
    destruct (enc_entries tail_entries tail_entries_ok) as [[H1 H2] _]. done.
  - constructor; cbn; [lia|done|repeat constructor; lia|lia].
Qed.

Lemma tail_ptr k : 0 <= k -> ptr tail_fs tail_inode k =
  if k =? 15 then 7 else if k =? 16 then 8 else if k =? 143 then 5 else 0.
Proof.
  intros Hk. unfold ptr, entries. cbn [tail_inode sfi_indirect sfi_direct].
  change (5 =? 0) with false. cbv iota.
  assert (content tail_fs 5 = enc32 tail_entries) as -> by reflexivity.
  rewrite (proj2 (enc_entries _ tail_entries_ok)). rewrite default_replicate.
  destruct (Z.ltb_spec k 15).
  { rewrite !(proj2 (Z.eqb_neq _ _)) by lia. done. }
  destruct (Z.ltb_spec k 143).
  2:{ destruct (Z.eqb_spec k 143) as [->|]; [done|]. by rewrite !(proj2 (Z.eqb_neq _ _)) by lia. }
  destruct (Z.eqb_spec k 15) as [->|]; [done|]. destruct (Z.eqb_spec k 16) as [->|]; [done|].
  rewrite (proj2 (Z.eqb_neq k 143)) by lia. unfold tail_entries.
  rewrite lookup_app_r by (cbn; lia). apply default_replicate.
Qed.

Lemma tail_fs_valid : valid tail_fs tail_inode.
Proof.
  constructor.
  - constructor; cbn [tail_inode sfi_size sfi_type sfi_linkcount sfi_direct sfi_indirect sfi_waste];
      unfold SFS_TYPE_FILE; try lia; (split; [done|apply Forall_replicate; lia]).
  - intros k Hk. rewrite tail_ptr by done.
    destruct (k =? 15); [cbn; split; [lia|reflexivity]|].
    destruct (k =? 16); [cbn; split; [lia|reflexivity]|].
    destruct (k =? 143); [cbn; split; [lia|reflexivity]|done].
  - intros j k Hj Hk. rewrite !tail_ptr by done.
    destruct (Z.eqb_spec j 15), (Z.eqb_spec j 16), (Z.eqb_spec j 143),
      (Z.eqb_spec k 15), (Z.eqb_spec k 16), (Z.eqb_spec k 143); intros; lia.
Qed.

Lemma sfs_truncate_correct_witness : exists s' i',
  sfs_truncate 100 (15 * 512) tail_fs = Done (0, s') /\ sfi_size i' = 15 * 512 /\
  ptr s' i' 15 = 7 /\ ptr s' i' 16 = 0.
Proof.
  destruct (sfs_truncate_correct tail_fs 100 tail_file (15 * 512)) as (s' & i' & H1 & H2 & _ & _ & H3 & H4 & _);
    [apply tail_fs_ok|apply tail_fs_valid|reflexivity|lia|done|].
  exists s', i'. split; [exact H1|]. split; [exact H2|]. split; [exact (H4 ltac:(reflexivity))|].
  apply (H3 16). split; reflexivity.
Defined.

Lemma truncate_keeps_block_past_end_witness : exists s' i',
  sfs_truncate 100 (15 * 512) tail_fs = Done (0, s') /\ sfi_size i' = 15 * 512 /\
  ptr s' i' 15 = 7 /\ marked s' 7 = true.
Proof.
  destruct (truncate_keeps_block_past_end tail_fs 100 tail_file (15 * 512))
    as (s' & i' & H1 & H2 & _ & _ & H3 & H4);
    [apply tail_fs_ok|apply tail_fs_valid|reflexivity|lia|done|done|done|].
  exists s', i'. split; [exact H1|]. split; [exact H2|]. split; [exact H3|exact H4].
Defined.

(** An open-less directory without links. *)
Definition dead_dir : svnode := mkSv 1 0 true (set_linkcount 0 (set_type SFS_TYPE_DIR empty_inode)) 3 false.

Lemma reclaim_of_directory_fails_witness :
  sfs_reclaim 100 (with_vheap {[100 := dead_dir]} small_fs) =
    Done (EISDIR, with_vheap {[100 := dead_dir]} small_fs).
Proof.
  apply (reclaim_of_directory_fails _ 100 dead_dir);
    [reflexivity|reflexivity|reflexivity|done|reflexivity|apply not_elem_of_nil|done].
Defined.
End SfsVnode.
