(* ===== verification/SfsDir.v ===== *)
(** * kern/fs/sfs/sfs_vnode.c: directories of SFS

    A directory is a file of 64-byte entries; an entry with inode number 0 is
    free.  The operations that look names up, create, link, remove and rename
    them. *)

From S2P Require Import Prelude Bitmap Arrays Uio Stream Lhd SfsDisk Sfs SfsIo SfsVnode.
Import Uio Stream Lhd SfsDisk Sfs SfsIo SfsVnode.

Module SfsDir.

(** A file name is the list of its characters, without the terminator. *)
Fixpoint cname (bs : list Z) : list Z :=
  match bs with
  | [] => []
  | c :: r => if c =? 0 then [] else c :: cname r
  end.

(** The name in an entry, after [tsd.sfd_name[sizeof(tsd.sfd_name)-1] = 0]. *)
Definition entry_name (e : sfs_dir) : list Z := cname (<[59%nat := 0]> (sfd_name e)).

(** [bzero(&sd, sizeof(sd)); sd.sfd_ino = ino; strcpy(sd.sfd_name, name);] *)
Definition make_entry (name : list Z) (ino : Z) : sfs_dir :=
  mkDir ino (name ++ replicate (60 - length name) 0).

Definition dot : list Z := [46].
Definition dotdot : list Z := [46; 46].
Definition slash : Z := 47.

(** The out parameters of [sfs_dir_findname]. *)
Record found : Type := mkFound {
  f_ino : option Z;
  f_slot : option Z;
  f_empty : option Z;
}.

Section dirs.
Context {D : Type} `{!BlockDevice D}.
Implicit Type s : fs D.

(** The loop over the slots from [i] up. *)
Fixpoint findname_loop (n : nat) (v : Z) (name : list Z) (i : Z) (f : found)
    : M (fs D) (Z * found) :=
  match n with
  | O => mret (if bool_decide (f_slot f = None) then ENOENT else 0, f)
  | S n' =>
      r ← sfs_readdir v i;
      match r with
      | Err e => mret (e, f)
      | Ok tsd =>
          if sfd_ino tsd =? SFS_NOINO then
            findname_loop n' v name (i + 1) (mkFound (f_ino f) (f_slot f) (Some i))
          else if bool_decide (entry_name tsd = name) then
            _ ← kassert (bool_decide (f_slot f = None));
            findname_loop n' v name (i + 1) (mkFound (Some (sfd_ino tsd)) (Some i) (f_empty f))
          else findname_loop n' v name (i + 1) f
      end
  end.

Definition sfs_dir_findname (v : Z) (name : list Z) : M (fs D) (Z * found) :=
  n ← sfs_dir_nentries v;
  findname_loop (Z.to_nat n) v name 0 (mkFound None None None).

(** [sfs_dir_link]: the error code and [*slot]. *)
Definition sfs_dir_link (v : Z) (name : list Z) (ino : Z) : M (fs D) (Z * option Z) :=
  '(result, f) ← sfs_dir_findname v name;
  if negb (result =? 0) && negb (result =? ENOENT) then mret (result, None)
  else if result =? 0 then mret (EEXIST, None)
  else if SFS_NAMELEN <? Z.of_nat (length name) + 1 then mret (ENAMETOOLONG, None)
  else
    emptyslot ← match f_empty f with
                | Some i => mret i
                | None => sfs_dir_nentries v
                end;
    r ← sfs_writedir v (make_entry name ino) emptyslot;
    mret (r, Some emptyslot).

Definition sfs_dir_unlink (v k : Z) : M (fs D) Z :=
  sfs_writedir v (mkDir SFS_NOINO (replicate 60 0)) k.

(** [sfs_lookonce]: the vnode and [*slot]. *)
Definition sfs_lookonce (v : Z) (name : list Z) : M (fs D) (result (Z * Z)) :=
  '(result, f) ← sfs_dir_findname v name;
  if negb (result =? 0) then mret (Err result)
  else
    ino ← deref (f_ino f);
    k ← deref (f_slot f);
    w ←? sfs_loadvnode ino SFS_TYPE_INVAL;
    sv ← vnode w;
    if sfi_linkcount (sv_i sv) =? 0 then mstop KPanic else mret (Ok (w, k)).

(** Assignments to the link count, a [uint16_t]. *)
Definition add_link (w n : Z) : M (fs D) unit :=
  sv ← vnode w;
  put_vnode w (set_inode (set_linkcount (u16 (sfi_linkcount (sv_i sv) + n)) (sv_i sv)) true sv).

Definition sfs_creat (v : Z) (name : list Z) (excl : bool) : M (fs D) (result Z) :=
  _ ← vfs_biglock_acquire;
  '(result, f) ← sfs_dir_findname v name;
  if negb (result =? 0) && negb (result =? ENOENT) then
    _ ← vfs_biglock_release; mret (Err result)
  else if (result =? 0) && excl then _ ← vfs_biglock_release; mret (Err EEXIST)
  else if result =? 0 then
    ino ← deref (f_ino f);
    r ← sfs_loadvnode ino SFS_TYPE_INVAL;
    _ ← vfs_biglock_release;
    mret r
  else
    r ← sfs_makeobj SFS_TYPE_FILE;
    match r with
    | Err e => _ ← vfs_biglock_release; mret (Err e)
    | Ok newguy =>
        sv ← vnode newguy;
        '(result, _) ← sfs_dir_link v name (sv_ino sv);
        if negb (result =? 0) then
          _ ← vnode_decref newguy;
          _ ← vfs_biglock_release;
          mret (Err result)
        else
          _ ← add_link newguy 1;
          _ ← vfs_biglock_release;
          mret (Ok newguy)
    end.

Definition sfs_link (dir : Z) (name : list Z) (file : Z) : M (fs D) Z :=
  f ← vnode file;
  _ ← vfs_biglock_acquire;
  '(result, _) ← sfs_dir_link dir name (sv_ino f);
  if negb (result =? 0) then _ ← vfs_biglock_release; mret result
  else
    _ ← add_link file 1;
    _ ← vfs_biglock_release;
    mret 0.

Definition sfs_mkdir (v : Z) (name : list Z) : M (fs D) Z :=
  sv ← vnode v;
  _ ← vfs_biglock_acquire;
  '(result, _) ← sfs_dir_findname v name;
  if negb (result =? 0) && negb (result =? ENOENT) then
    _ ← vfs_biglock_release; mret result
  else
    r ← sfs_makeobj SFS_TYPE_DIR;
    match r with
    | Err e => _ ← vfs_biglock_release; mret e
    | Ok newguy =>
        nv ← vnode newguy;
        '(result, _) ← sfs_dir_link v name (sv_ino nv);
        if negb (result =? 0) then _ ← vfs_biglock_release; mret result
        else
          _ ← add_link newguy 1;
          '(result, _) ← sfs_dir_link newguy dotdot (sv_ino sv);
          if negb (result =? 0) then _ ← vfs_biglock_release; mret result
          else
            '(result, _) ← sfs_dir_link newguy dot (sv_ino nv);
            _ ← vfs_biglock_release;
            mret result
    end.

(** The end of [sfs_remove] and [sfs_rmdir]: the entry is erased and the
    reference from [sfs_lookonce] given back. *)
Definition erase (dir victim k : Z) : M (fs D) Z :=
  result ← sfs_dir_unlink dir k;
  _ ← (if result =? 0 then
         sv ← vnode victim;
         _ ← kassert (0 <? sfi_linkcount (sv_i sv));
         add_link victim (-1)
       else mret tt);
  _ ← vnode_decref victim;
  _ ← vfs_biglock_release;
  mret result.

Definition sfs_remove (dir : Z) (name : list Z) : M (fs D) Z :=
  _ ← vfs_biglock_acquire;
  r ← sfs_lookonce dir name;
  match r with
  | Err e => _ ← vfs_biglock_release; mret e
  | Ok (victim, k) => erase dir victim k
  end.

(** The number of used slots from slot [i] up. *)
Fixpoint count_entries (n : nat) (v i : Z) (number : Z) : M (fs D) (result Z) :=
  match n with
  | O => mret (Ok number)
  | S n' =>
      tsd ←? sfs_readdir v i;
      count_entries n' v (i + 1) (if sfd_ino tsd =? SFS_NOINO then number - 1 else number)
  end.

Definition sfs_rmdir (dir : Z) (name : list Z) : M (fs D) Z :=
  _ ← vfs_biglock_acquire;
  r ← sfs_lookonce dir name;
  match r with
  | Err e => _ ← vfs_biglock_release; mret e
  | Ok (victim, k) =>
      sv ← vnode victim;
      if sfi_type (sv_i sv) =? SFS_TYPE_FILE then _ ← vfs_biglock_release; mret ENOTDIR
      else
        nentries ← sfs_dir_nentries victim;
        c ← count_entries (Z.to_nat nentries) victim 0 nentries;
        match c with
        | Err e => _ ← vfs_biglock_release; mret e
        | Ok number =>
            if 2 <? number then _ ← vfs_biglock_release; mret ENOTEMPTY
            else erase dir victim k
        end
  end.

(** ** Renaming *)

Definition rename_lock (d1 d2 : Z) : M (fs D) unit :=
  if d1 =? d2 then lock_acquire (CreateLock d1)
  else _ ← lock_acquire (CreateLock d1); lock_acquire (CreateLock d2).
Definition rename_unlock (d1 d2 : Z) : M (fs D) unit :=
  if d1 =? d2 then lock_release (CreateLock d1)
  else _ ← lock_release (CreateLock d2); lock_release (CreateLock d1).

(** The label [error]. *)
Definition rename_error (d1 d2 g1 result : Z) : M (fs D) Z :=
  _ ← vnode_decref g1;
  _ ← rename_unlock d1 d2;
  mret result.

(** The label [fatal_error], which undoes the new link; [slot2] is a slot of
    [d2], but the code erases that slot of [d1]. *)
Definition rename_fatal (d1 d2 g1 slot2 result : Z) : M (fs D) Z :=
  result2 ← sfs_dir_unlink d1 slot2;
  if negb (result2 =? 0) then mstop KPanic
  else
    sv ← vnode g1;
    _ ← put_vnode g1 (set_inode
          (set_linkcount (u16 (sfi_linkcount (sv_i sv) - 1)) (sv_i sv)) (sv_dirty sv) sv);
    rename_error d1 d2 g1 result.

(** The old name goes away and the link count back down. *)
Definition rename_finish (d1 d2 g1 slot1 slot2 : Z) : M (fs D) Z :=
  result ← sfs_dir_unlink d1 slot1;
  if negb (result =? 0) then rename_fatal d1 d2 g1 slot2 result
  else
    sv ← vnode g1;
    _ ← kassert (0 <? sfi_linkcount (sv_i sv));
    _ ← add_link g1 (-1);
    rename_error d1 d2 g1 0.

(** A directory that moves to another directory gets a new "..". *)
Definition rename_parent (d1 d2 g1 slot1 slot2 : Z) : M (fs D) Z :=
  r ← sfs_lookonce g1 dotdot;
  match r with
  | Err e => rename_error d1 d2 g1 e
  | Ok (_, parentslot) =>
      result ← sfs_dir_unlink g1 parentslot;
      if negb (result =? 0) then rename_fatal d1 d2 g1 slot2 result
      else
        sv2 ← vnode d2;
        '(result, _) ← sfs_dir_link g1 dotdot (sv_ino sv2);
        if negb (result =? 0) then rename_error d1 d2 g1 result
        else rename_finish d1 d2 g1 slot1 slot2
  end.

Definition sfs_rename (d1 : Z) (n1 : list Z) (d2 : Z) (n2 : list Z) : M (fs D) Z :=
  r ← sfs_lookonce d1 n1;
  match r with
  | Err e => mret e
  | Ok (g1, slot1) =>
      _ ← rename_lock d1 d2;
      g ← vnode g1;
      '(result, slot2) ← sfs_dir_link d2 n2 (sv_ino g);
      if negb (result =? 0) then rename_error d1 d2 g1 result
      else
        slot2 ← deref slot2;
        _ ← add_link g1 1;
        if (sfi_type (sv_i g) =? SFS_TYPE_DIR) && negb (d1 =? d2)
        then rename_parent d1 d2 g1 slot1 slot2
        else rename_finish d1 d2 g1 slot1 slot2
  end.

(** ** Path lookup *)

(** [sfs_parsepath(path, subpath)]: from index 1 up to a slash or the end;
    [subpath] is an array, of which only these cells are written. *)
Fixpoint parsepath_loop (fuel : nat) (path : list Z) (subpath : list Z) (i : nat)
    : outcome (nat * list Z) :=
  match fuel with
  | O => Stop NoFuel
  | S f =>
      if (length path <? i)%nat then Stop BadAccess
      else
        match path !! i with
        | None => Done (i, subpath)
        | Some c =>
            if c =? slash then Done (i, subpath)
            else if (length subpath <=? i)%nat then Stop BadAccess
            else parsepath_loop f path (<[i := c]> subpath) (S i)
        end
  end.
Definition sfs_parsepath (path subpath : list Z) : outcome (nat * list Z) :=
  parsepath_loop (S (length path)) path subpath 1.

(** The string in an array, which must have a terminator. *)
Definition string_in (a : list Z) : M (fs D) (list Z) :=
  if bool_decide (0 ∈ a) then mret (cname a) else mstop BadAccess.

Definition strchr (path : list Z) : bool := bool_decide (slash ∈ path).

(** The [do]-loop of [sfs_lookup]. *)
Fixpoint lookup_loop (fuel : nat) (v : Z) (path subpath : list Z) : M (fs D) (result Z) :=
  match fuel with
  | O => mstop NoFuel
  | S f =>
      '(pos, subpath) ← mlift (sfs_parsepath path subpath);
      let path := drop pos path in
      name ← string_in subpath;
      r ← sfs_lookonce v name;
      match r with
      | Err e => mret (Err e)
      | Ok (final, _) =>
          _ ← vnode_decref v;
          if strchr path then lookup_loop f final path subpath else mret (Ok final)
      end
  end.

(** [sfs_lookup]; [subpath] is what the stack holds in that array.  The path
    is first copied to an array of 256 bytes. *)
Definition sfs_lookup (v : Z) (path subpath : list Z) : M (fs D) (result Z) :=
  sv ← vnode v;
  _ ← vfs_biglock_acquire;
  if negb (sfi_type (sv_i sv) =? SFS_TYPE_DIR) then
    _ ← vfs_biglock_release; mret (Err ENOTDIR)
  else if 256 <=? Z.of_nat (length path) then mstop BadAccess
  else if negb (strchr path) then
    r ← sfs_lookonce v path;
    match r with
    | Err e => _ ← vfs_biglock_release; mret (Err e)
    | Ok (final, _) =>
        _ ← vnode_incref v;
        _ ← vfs_biglock_release;
        mret (Ok final)
    end
  else
    r ← lookup_loop (S (length path)) v path subpath;
    _ ← vfs_biglock_release;
    mret r.

(** The parts of a path before and after its last slash. *)
Fixpoint split_last (path : list Z) : option (list Z * list Z) :=
  match path with
  | [] => None
  | c :: r =>
      match split_last r with
      | Some (a, b) => Some (c :: a, b)
      | None => if c =? slash then Some ([], r) else None
      end
  end.

(** [sfs_lookparent]: the directory and the last component. *)
Definition sfs_lookparent (v : Z) (path : list Z) (buflen : Z) (subpath : list Z)
    : M (fs D) (result (Z * list Z)) :=
  sv ← vnode v;
  _ ← vfs_biglock_acquire;
  if negb (sfi_type (sv_i sv) =? SFS_TYPE_DIR) then
    _ ← vfs_biglock_release; mret (Err ENOTDIR)
  else if buflen <? Z.of_nat (length path) + 1 then
    _ ← vfs_biglock_release; mret (Err ENAMETOOLONG)
  else
    match split_last path with
    | None =>
        _ ← vnode_incref v;
        _ ← vfs_biglock_release;
        mret (Ok (v, path))
    | Some (dir, name) =>
        w ←? sfs_lookup v dir subpath;
        mret (Ok (w, name))
    end.

(** ** Reading a directory *)

(** The loop advances [uio_offset] over the free slots; the caller's uio shows
    how far it came whether or not it finds an entry. *)
Fixpoint getdirentry_loop (fuel : nat) (v nentries offset : Z) (u : sio)
    : M (fs D) (result (sfs_dir * Z) * sio) :=
  match fuel with
  | O => mstop NoFuel
  | S f =>
      r ← sfs_readdir v (s32 (u_off u));
      match r with
      | Err e => mret (Err e, u)
      | Ok tsd =>
          if sfd_ino tsd =? SFS_NOINO then
            let offset := offset + 1 in
            if nentries <=? offset then mret (Err ENOENT, u)
            else getdirentry_loop f v nentries offset
                   (mkSio (u_rw u) (u_off u + 1) (u_resid u) (u_len u) (u_room u) (u_user u) (u_data u))
          else mret (Ok (tsd, offset), u)
      end
  end.

Definition sfs_getdirentry (v : Z) (u : sio) : M (fs D) (Z * sio) :=
  let offset := s32 (u_off u) in
  _ ← vfs_biglock_acquire;
  nentries ← sfs_dir_nentries v;
  if nentries <=? offset then _ ← vfs_biglock_release; mret (ENOENT, u)
  else
    '(r, u) ← getdirentry_loop (S (Z.to_nat (nentries - offset))) v nentries offset u;
    match r with
    | Err e => _ ← vfs_biglock_release; mret (e, u)
    | Ok (tsd, offset) =>
        name ← string_in (sfd_name tsd);
        '(_, _, u') ← mlift (umove name u);
        _ ← vfs_biglock_release;
        mret (0, mkSio (u_rw u') (offset + 1) (u_resid u') (u_len u') (u_room u') (u_user u') (u_data u'))
    end.

(** ** The name of a directory *)

(** [strcpy] and [strcat] on arrays of a given length. *)
Definition acopy (dst src : list Z) : M (fs D) (list Z) :=
  if (length src <? length dst)%nat
  then mret (src ++ [0] ++ drop (S (length src)) dst)
  else mstop BadAccess.
Definition acat (dst src : list Z) : M (fs D) (list Z) :=
  a ← string_in dst;
  acopy dst (a ++ src).

Fixpoint name_from_inode_loop (n : nat) (v ino i : Z) (buf : list Z) : M (fs D) (Z * list Z) :=
  match n with
  | O => mret (ENOENT, buf)
  | S n' =>
      r ← sfs_readdir v i;
      match r with
      | Err e => mret (e, buf)
      | Ok tsd =>
          if sfd_ino tsd =? ino then
            name ← string_in (sfd_name tsd);
            buf ← acopy buf name;
            mret (0, buf)
          else name_from_inode_loop n' v ino (i + 1) buf
      end
  end.
Definition name_from_inode (v ino : Z) (buf : list Z) : M (fs D) (Z * list Z) :=
  nentries ← sfs_dir_nentries v;
  name_from_inode_loop (Z.to_nat nentries) v ino 0 buf.

Definition failed (r : Z) : bool := negb (r =? 0) && negb (r =? ENOENT).

(** The loop of [sfs_namefile] from [v] up to the root.  [ino], [buf], [path]
    and [temp] are the local variables, which nothing initialises. *)
Fixpoint namefile_loop (fuel : nat) (root v ino : Z) (buf path temp : list Z)
    : M (fs D) (result (list Z)) :=
  match fuel with
  | O => mstop NoFuel
  | S f =>
      if v =? root then mret (Ok path)
      else
        '(r, fd) ← sfs_dir_findname v dotdot;
        if failed r then mret (Err r)
        else
          parent ←? sfs_loadvnode (default ino (f_ino fd)) SFS_TYPE_INVAL;
          sv ← vnode v;
          '(r, buf) ← name_from_inode parent (sv_ino sv) buf;
          if failed r then mret (Err r)
          else
            let temp := <[O := slash]> temp in
            b ← string_in buf;
            temp ← acat temp b;
            p ← string_in path;
            temp ← acat temp p;
            t ← string_in temp;
            path ← acopy path t;
            namefile_loop f root parent (sv_ino sv) buf path temp
  end.

Definition sfs_namefile (fuel : nat) (v : Z) (u : sio) (ino : Z) (buf path temp : list Z)
    : M (fs D) (Z * sio) :=
  _ ← vfs_biglock_acquire;
  root ← sfs_getroot;
  r ← namefile_loop fuel root v ino buf path temp;
  match r with
  | Err e => _ ← vfs_biglock_release; mret (e, u)
  | Ok path =>
      p ← string_in path;
      if (length path <=? S (length p))%nat then mstop BadAccess
      else
        '(result, _, u') ← mlift (umove p u);
        _ ← vfs_biglock_release;
        mret (result, u')
  end.
End dirs.

(** ** Room in the block cache *)

Fixpoint count (f : Z -> bool) (n : nat) : nat :=
  match n with
  | O => 0
  | S m => ((if f (Z.of_nat m) then 1 else 0) + count f m)%nat
  end.

Lemma count_ext f g n : (forall k, 0 <= k < Z.of_nat n -> f k = g k) -> count f n = count g n.
Proof.
  induction n as [|n IH]; intros H; [done|]. cbn [count]. rewrite H by lia.
  rewrite IH; [done|]. intros k Hk. apply H. lia.
Qed.
Lemma count_remove f k n : 0 <= k < Z.of_nat n ->
  count f n = (count (fun j => f j && negb (j =? k)%Z) n + (if f k then 1 else 0))%nat.
Proof.
  induction n as [|n IH]; intros Hk; [lia|]. cbn [count].
  destruct (Z.eqb_spec (Z.of_nat n) k) as [<-|Hne].
  - rewrite andb_false_r. rewrite (count_ext (fun j => f j && negb (j =? Z.of_nat n)) f n); [lia|].
    intros j Hj. rewrite (proj2 (Z.eqb_neq _ _)) by lia. apply andb_true_r.
  - rewrite andb_true_r, IH by lia. lia.
Qed.
Lemma count_pos f k n : 0 <= k < Z.of_nat n -> f k = true -> (0 < count f n)%nat.
Proof. intros Hk Hf. rewrite (count_remove f k) by done. rewrite Hf. lia. Qed.

Section specs.
Context {D : Type} `{!BlockDevice D}.
Implicit Type s : fs D.

(** Block [k] of the file is not in the cache yet. *)
Definition uncached s (sv : svnode) (k : Z) : bool :=
  negb (ptr s (sv_i sv) k =? 0) &&
  bool_decide (view_in (sfs_rcache s) (sv_ino sv) (ptr s (sv_i sv) k) = None).
(** The first [n] blocks of the file fit into the cache, with [m] slots to
    spare. *)
Definition room s (sv : svnode) (n m : nat) : Prop := (count (uncached s sv) n + m <= free_slots s)%nat.

Lemma room_reach s sv n m k : room s sv n m -> 0 <= k < Z.of_nat n -> reach s sv k false.
Proof.
  intros Hr Hk. unfold room in Hr. unfold reach. destruct (decide (ptr s (sv_i sv) k = 0)) as [|Hp]; [by left|].
  right. destruct (decide (view_in (sfs_rcache s) (sv_ino sv) (ptr s (sv_i sv) k) = None)) as [Hn|Hn];
    [right|by left].
  pose proof (count_pos (uncached s sv) k n Hk) as Hc. unfold uncached in Hc at 1.
  rewrite (proj2 (Z.eqb_neq _ _) Hp), bool_decide_true in Hc by done. specialize (Hc eq_refl). lia.
Qed.
Lemma room_spare s sv n m k : room s sv n (S m) -> reach s sv k true.
Proof. intros Hr. unfold room in Hr. right. right. lia. Qed.

Lemma loads_room s s' v sv n m k : ready s v sv -> reads s s' ->
  loads s (sv_ino sv) (ptr s (sv_i sv) k) s' -> 0 <= k < Z.of_nat n -> Z.of_nat n <= 143 ->
  room s sv n m -> room s' sv n m.
Proof.
  intros Hrd Hrs [Hl Hf] Hk Hn Hr. unfold room in *.
  pose proof (rd_valid _ _ _ Hrd) as Hv.
  assert (forall j, 0 <= j -> key (sv_ino sv) (ptr s (sv_i sv) j)) as Hkey.
  { intros j Hj. split; [apply Hrd|]. by apply ptr_range; [|apply Hrd|]. }
  assert (forall j, 0 <= j < Z.of_nat n -> uncached s' sv j =
    uncached s sv j && (negb (j =? k) || (ptr s (sv_i sv) k =? 0))) as Hu.
  { intros j Hj. unfold uncached. rewrite (reads_ptr s s') by done.
    destruct (Z.eqb_spec (ptr s (sv_i sv) j) 0) as [|Hj0]; [done|]. cbn [negb andb].
    rewrite (bool_decide_ext _ _ (Hl _ (Hkey j ltac:(lia)))), bool_decide_and. f_equal.
    destruct (Z.eqb_spec j k) as [->|Hjk]; cbn [negb orb].
    - destruct (Z.eqb_spec (ptr s (sv_i sv) k) 0); [by rewrite bool_decide_true by auto|].
      rewrite bool_decide_false by naive_solver. done.
    - rewrite bool_decide_true; [done|]. left. intros E. apply Hjk.
      by apply (va_inj _ _ Hv); [lia|lia| |]. }
  destruct (decide (ptr s (sv_i sv) k = 0)) as [E|E].
  - rewrite (count_ext _ (uncached s sv)); [lia|]. intros j Hj. rewrite Hu by done.
    rewrite (proj2 (Z.eqb_eq _ _) E), orb_true_r. apply andb_true_r.
  - rewrite (count_ext _ (fun j => uncached s sv j && negb (j =? k))).
    2:{ intros j Hj. rewrite Hu by done. rewrite (proj2 (Z.eqb_neq _ _) E). by rewrite orb_false_r. }
    rewrite (count_remove _ k) in Hr by lia. unfold uncached at 2 in Hr.
    rewrite (proj2 (Z.eqb_neq _ _) E) in Hr. cbn [negb andb] in Hr.
    destruct (view_in (sfs_rcache s) (sv_ino sv) (ptr s (sv_i sv) k)) eqn:Ev.
    + lia.
    + rewrite bool_decide_true in Hr by done. lia.
Qed.

(** ** Directory entries *)

Definition dirent s (sv : svnode) (k : Z) : sfs_dir :=
  decode_dir (slice (k mod 8 * 64) 64 (fview s sv (k / 8))).

Lemma readdir_run s v sv k : ready s v sv -> 0 <= k < 1144 -> (k + 1) * 64 <= sfi_size (sv_i sv) ->
  reach s sv (k / 8) false ->
  exists s', sfs_readdir v k s = Done (Ok (dirent s sv k), s') /\ reads s s' /\
    loads s (sv_ino sv) (ptr s (sv_i sv) (k / 8)) s'.
Proof.
  intros Hrd Hk Hsz Hre. unfold sfs_readdir, sizeof_dir.
  rewrite (uwrap_small 32 (k * 64)) by lia.
  pose proof (kuio_within [] 64 (k * 64) UIO_READ (k / 8) (k mod 8 * 64)) as Hw.
  destruct (io_read_within s v sv (k / 8) (k mod 8 * 64) (kuio [] 64 (k * 64) UIO_READ))
    as (s' & Hr & Hrs & Hl); try done.
  - apply Hw; try done; dlia.
  - dlia.
  - dlia.
  - cbn. lia.
  - exists s'. split; [|done]. rewrite (bind_Done _ _ _ _ _ Hr). cbn [Z.eqb negb].
    cbn [u_resid kuio took u_data u_rw app]. change (u32 (64 - 64)) with 0. cbn [Z.ltb].
    rewrite take_ge; [done|]. unfold slice. rewrite length_take. lia.
Qed.

Lemma dirent_reads s s' v sv k : ready s v sv -> reads s s' -> 0 <= k ->
  dirent s' sv k = dirent s sv k.
Proof.
  intros Hrd Hr Hk. unfold dirent. rewrite (reads_fview s s'); [done|done| | | |dlia]; apply Hrd.
Qed.

(** ** Searching a directory *)

(** A directory of [n] entries, all of which can be read with [m] cache
    slots to spare. *)
Record directory s (v : Z) (sv : svnode) (n m : Z) : Prop := mkDirectory {
  di_ready : ready s v sv;
  di_fresh : fresh_cache s (sv_ino sv);
  di_type : sfi_type (sv_i sv) = SFS_TYPE_DIR;
  di_size : sfi_size (sv_i sv) = n * 64;
  di_len : 0 <= n < 1144;
  di_room : room s sv (Z.to_nat ((n + 7) / 8)) (Z.to_nat m);
}.

Definition names s (sv : svnode) (name : list Z) (k : Z) : Prop :=
  sfd_ino (dirent s sv k) <> SFS_NOINO /\ entry_name (dirent s sv k) = name.

(** What the out parameters say of the entries below [i]. *)
Record searched s (sv : svnode) (name : list Z) (i : Z) (f : found) : Prop := mkSearched {
  se_slot : match f_slot f with
            | Some k => 0 <= k < i /\ names s sv name k /\ f_ino f = Some (sfd_ino (dirent s sv k))
            | None => forall k, 0 <= k < i -> ~ names s sv name k
            end;
  se_empty : match f_empty f with
             | Some k => 0 <= k < i /\ sfd_ino (dirent s sv k) = SFS_NOINO
             | None => forall k, 0 <= k < i -> sfd_ino (dirent s sv k) <> SFS_NOINO
             end;
}.

Lemma searched_empty s sv name i f : searched s sv name i f -> 0 <= i ->
  sfd_ino (dirent s sv i) = SFS_NOINO ->
  searched s sv name (i + 1) (mkFound (f_ino f) (f_slot f) (Some i)).
Proof.
  intros [H1 H2] Hi He. constructor; cbn [f_slot f_empty f_ino].
  - destruct (f_slot f); [intuition lia|]. intros k Hk. destruct (decide (k = i)) as [->|].
    + by intros [].
    + apply H1. lia.
  - split; [lia|done].
Qed.
Lemma searched_match s sv name i f : searched s sv name i f -> 0 <= i -> names s sv name i ->
  searched s sv name (i + 1) (mkFound (Some (sfd_ino (dirent s sv i))) (Some i) (f_empty f)).
Proof.
  intros [H1 H2] Hi He. constructor; cbn [f_slot f_empty f_ino]; [split; [lia|done]|].
  destruct (f_empty f); [intuition lia|]. intros k Hk. destruct (decide (k = i)) as [->|].
  - apply He.
  - apply H2. lia.
Qed.
Lemma searched_other s sv name i f : searched s sv name i f -> 0 <= i ->
  sfd_ino (dirent s sv i) <> SFS_NOINO -> entry_name (dirent s sv i) <> name ->
  searched s sv name (i + 1) f.
Proof.
  intros [H1 H2] Hi He Hn. constructor.
  - destruct (f_slot f); [intuition lia|]. intros k Hk. destruct (decide (k = i)) as [->|].
    + by intros [].
    + apply H1. lia.
  - destruct (f_empty f); [intuition lia|]. intros k Hk. destruct (decide (k = i)) as [->|];
      [done|]. apply H2. lia.
Qed.

Definition unique s (sv : svnode) (name : list Z) (n : Z) : Prop :=
  forall j k, 0 <= j < n -> 0 <= k < n -> names s sv name j -> names s sv name k -> j = k.

Lemma directory_reads s s' v sv n m i : directory s v sv n m -> reads s s' ->
  0 <= i < n -> loads s (sv_ino sv) (ptr s (sv_i sv) (i / 8)) s' -> directory s' v sv n m.
Proof.
  intros [H1 Hf H2 H3 H4 H5] Hr Hi Hl. constructor; try done.
  - by apply (reads_ready s).
  - by apply (reads_fresh s).
  - apply (loads_room s s' v sv _ _ (i / 8)); try done; dlia.
Qed.
Lemma searched_ext s s' sv name i f : (forall k, 0 <= k -> dirent s' sv k = dirent s sv k) ->
  searched s' sv name i f -> searched s sv name i f.
Proof.
  intros Hd [H1 H2]. unfold names in *. constructor; unfold names.
  - destruct (f_slot f) as [k|].
    + destruct H1 as (Hk & H1). by rewrite Hd in H1 by lia.
    + intros k Hk. specialize (H1 k Hk). by rewrite Hd in H1 by lia.
  - destruct (f_empty f) as [k|].
    + destruct H2 as (Hk & H2). by rewrite Hd in H2 by lia.
    + intros k Hk. specialize (H2 k Hk). by rewrite Hd in H2 by lia.
Qed.
Lemma unique_ext s s' sv name n : (forall k, 0 <= k -> dirent s' sv k = dirent s sv k) ->
  unique s sv name n -> unique s' sv name n.
Proof.
  intros Hd H j k Hj Hk H1 H2. unfold names in *. rewrite Hd in H1, H2 by lia. by apply H.
Qed.

Definition verdict (f : found) : Z := if bool_decide (f_slot f = None) then ENOENT else 0.

Lemma findname_loop_run v sv name n m q : forall s i f, directory s v sv n m ->
  i + Z.of_nat q = n -> 0 <= i -> unique s sv name n -> searched s sv name i f ->
  exists f' s', findname_loop q v name i f s = Done ((verdict f', f'), s') /\ reads s s' /\
    directory s' v sv n m /\ searched s sv name n f'.
Proof.
  induction q as [|q IH]; intros s i f Hd Hq Hi Hu Hs.
  { exists f, s. replace n with i by lia. split; [done|]. replace i with n by lia.
    split; [apply reads_refl; apply Hd|]. split; [done|]. by replace n with i by lia. }
  pose proof (di_ready _ _ _ _ _ Hd) as Hrd. pose proof (di_len _ _ _ _ _ Hd) as Hlen.
  destruct (readdir_run s v sv i) as (s1 & H1 & Hr1 & Hl1); [done|lia| | |].
  { rewrite (di_size _ _ _ _ _ Hd). lia. }
  { eapply room_reach; [apply Hd|]. dlia. }
  pose proof (directory_reads s s1 v sv n m i Hd Hr1 ltac:(lia) Hl1) as Hd1.
  pose proof (fun k => dirent_reads s s1 v sv k Hrd Hr1) as He.
  assert (forall f', searched s sv name (i + 1) f' ->
    exists f'' s', findname_loop q v name (i + 1) f' s1 = Done ((verdict f'', f''), s') /\ reads s s' /\
      directory s' v sv n m /\ searched s sv name n f'') as Hgo.
  { intros f' Hf'. destruct (IH s1 (i + 1) f' Hd1) as (f'' & s' & H2 & H3 & H4 & H5); [lia|lia| | |].
    - by apply (unique_ext s).
    - apply (searched_ext s1 s); [|done]. intros. by rewrite He.
    - exists f'', s'. split; [done|]. split; [by apply (reads_trans s s1)|]. split; [done|].
      by apply (searched_ext s s1). }
  cbn [findname_loop]. rewrite (bind_Done _ _ _ _ _ H1).
  destruct (Z.eqb_spec (sfd_ino (dirent s sv i)) SFS_NOINO) as [E|E].
  { by apply Hgo, searched_empty. }
  destruct (bool_decide_reflect (entry_name (dirent s sv i) = name)) as [En|En].
  - assert (f_slot f = None) as Hnone.
    { pose proof (se_slot _ _ _ _ _ Hs) as Hsl. destruct (f_slot f) as [k|]; [|done].
      destruct Hsl as (Hk & Hn & _). specialize (Hu k i ltac:(lia) ltac:(lia) Hn (conj E En)). lia. }
    rewrite bool_decide_true by done. rewrite (bind_Done _ _ _ tt s1) by done.
    by apply Hgo, searched_match.
  - by apply Hgo, searched_other.
Qed.

Lemma nentries_run s v sv n m : directory s v sv n m -> sfs_dir_nentries v s = Done (n, s).
Proof.
  intros [[] _ H2 H3 H4 _]. unfold sfs_dir_nentries. rewrite (bind_Done _ _ _ sv s) by by apply vnode_run.
  rewrite (proj2 (Z.eqb_eq _ _) H2), (bind_Done _ _ _ tt s) by done.
  rewrite H3. unfold sizeof_dir. rewrite Z_mod_mult, Z_div_mult by lia. done.
Qed.

Lemma findname_run s v sv n m name : directory s v sv n m -> unique s sv name n ->
  exists f s', sfs_dir_findname v name s = Done ((verdict f, f), s') /\ reads s s' /\
    directory s' v sv n m /\ searched s sv name n f.
Proof.
  intros Hd Hu. unfold sfs_dir_findname. rewrite (bind_Done _ _ _ _ _ (nentries_run _ _ _ _ _ Hd)).
  pose proof (di_len _ _ _ _ _ Hd). apply findname_loop_run; [done|lia|lia|done|].
  constructor; cbn; intros; lia.
Qed.

(** ** Changing a directory *)

Lemma make_entry_ok name ino : 0 <= ino < 2 ^ 32 -> Forall (fun c => 0 < c < 256) name ->
  (length name < 60)%nat -> dir_ok (make_entry name ino).
Proof.
  intros Hi Hn Hl. constructor; cbn [make_entry sfd_ino sfd_name]; [done| |].
  - rewrite length_app, length_replicate. lia.
  - apply Forall_app. split; [|apply Forall_replicate; lia].
    eapply Forall_impl; [exact Hn|]. intros; cbn in *; lia.
Qed.
Lemma cname_app name r : Forall (fun c => 0 < c < 256) name -> cname (name ++ 0 :: r) = name.
Proof.
  induction 1 as [|c l Hc _ IH]; [done|]. cbn [app cname].
  rewrite (proj2 (Z.eqb_neq c 0)) by lia. by rewrite IH.
Qed.
Lemma make_entry_name name ino : Forall (fun c => 0 < c < 256) name -> (length name < 60)%nat ->
  entry_name (make_entry name ino) = name.
Proof.
  intros Hn Hl. unfold entry_name, make_entry. cbn [sfd_name].
  rewrite insert_app_r_alt by lia.
  destruct (59 - length name)%nat as [|q] eqn:E.
  - replace (60 - length name)%nat with 1%nat by lia. by apply cname_app.
  - replace (60 - length name)%nat with (S (S q)) by lia. by apply cname_app.
Qed.

(** [s'], [sv'] differ from [s], [sv] at most in entry [k], which holds [e],
    and in the size, which is that of [n] entries. *)
Record entered s (v : Z) (sv : svnode) (k : Z) (e : sfs_dir) (n : Z) s' (sv' : svnode) : Prop := mkEntered {
  en_ready : ready s' v sv';
  en_fresh : fresh_cache s' (sv_ino sv);
  en_same : sv_ino sv' = sv_ino sv /\ sfi_type (sv_i sv') = sfi_type (sv_i sv) /\
    sfi_linkcount (sv_i sv') = sfi_linkcount (sv_i sv);
  en_entry : dirent s' sv' k = e;
  en_other : forall j, 0 <= j < 1144 -> j <> k -> dirent s' sv' j = dirent s sv j;
  en_size : sfi_size (sv_i sv') = n * 64;
  en_files : forall ino b, key ino b -> ino <> sv_ino sv -> marked s b = true ->
    b <> sfi_indirect (sv_i sv) -> lview s' ino b = lview s ino b;
}.

Lemma encode_dir_length e : dir_ok e -> length (encode_dir e) = 64%nat.
Proof. intros []. unfold encode_dir. rewrite length_app, do_len0. done. Qed.

Lemma writedir_run s v sv n k e : ready s v sv -> fresh_cache s (sv_ino sv) -> dir_ok e ->
  sfi_size (sv_i sv) = n * 64 -> 0 <= k <= n -> k < 1144 -> reach s sv (k / 8) true ->
  exists r s' sv', sfs_writedir v e k s = Done (r, s') /\
    ((r = ENOSPC /\ entered s v sv k (dirent s sv k) n s' sv') \/
     (r = 0 /\ entered s v sv k e (Z.max n (k + 1)) s' sv')).
Proof.
  intros Hrd Hf He Hsz Hk Hk' Hre. pose proof (encode_dir_length e He) as Hlen.
  set (u := kuio (encode_dir e) 64 (k * 64) UIO_WRITE).
  assert (within u (k / 8) (k mod 8 * 64) 64) as Hw.
  { apply kuio_within; try dlia. destruct He. unfold encode_dir.
    apply Forall_app. split; [apply be_bytes32|done]. }
  destruct (io_write_within s v sv (k / 8) (k mod 8 * 64) u)
    as (r & u' & s' & sv' & Hr & Hcase & Hres & Hwr & Hsz'); try done; try dlia.
  pose proof (wr_same _ _ _ _ _ _ _ Hwr) as (S1 & _ & _ & _ & S2 & S3).
  pose proof (wr_view _ _ _ _ _ _ _ Hwr) as Hv.
  exists r, s', sv'. split.
  { unfold sfs_writedir, sizeof_dir. rewrite (proj2 (Z.leb_le 0 k)) by lia.
    rewrite (bind_Done _ _ _ tt s) by done. rewrite (uwrap_small 32 (k * 64)) by lia. fold u.
    rewrite (bind_Done _ _ _ _ _ Hr). destruct Hcase as [->| ->]; cbn [Z.eqb negb ENOSPC].
    - rewrite Hres. done.
    - done. }
  assert (forall nb : list Z, length nb = 512%nat -> forall j, 0 <= j -> j / 8 = k / 8 -> j <> k ->
    slice (j mod 8 * 64) 64 (splice (k mod 8 * 64) (encode_dir e) nb) = slice (j mod 8 * 64) 64 nb) as Hoth.
  { intros nb Hnb j Hj Hjk Hne. apply slice_splice_other; rewrite ?Hlen, ?Hnb; try dlia. }
  assert (length (fview s sv (k / 8)) = 512%nat) as Hvl by (apply block_view_length; apply Hrd).
  destruct Hcase as [->| ->]; [right|left]; (split; [done|]); cbn [Z.eqb ENOSPC] in *.
  - change (take (Z.to_nat (u_resid u)) (u_data u)) with (take 64 (encode_dir e)) in *.
    rewrite take_ge in Hv by lia. constructor; [apply Hwr|apply Hwr|done| | | |apply Hwr].
    + unfold dirent. rewrite Hv by dlia. rewrite Z.eqb_refl.
      replace 64 with (Z.of_nat (length (encode_dir e))) at 2 by lia.
      rewrite slice_splice_same by (rewrite ?Hlen, ?Hvl; dlia). by apply decode_encode_dir.
    + intros j Hj Hne. unfold dirent. rewrite Hv by dlia.
      destruct (Z.eqb_spec (j / 8) (k / 8)) as [E|E]; [|done]. by rewrite Hoth, E by (done || lia).
    + rewrite Hsz', Hsz. change (u_off u) with (k * 64). change (u_resid u) with 64. lia.
  - constructor; [apply Hwr|apply Hwr|done| | | |apply Hwr].
    + unfold dirent. rewrite Hv by dlia. by rewrite Z.eqb_refl.
    + intros j Hj Hne. unfold dirent. rewrite Hv by dlia.
      destruct (Z.eqb_spec (j / 8) (k / 8)) as [E|E]; [|done]. by rewrite E.
    + rewrite Hsz', Hsz. change (u_off u) with (k * 64). lia.
Qed.

Lemma spare_reach s v sv n m k : directory s v sv n m -> 0 < m -> reach s sv k true.
Proof.
  intros Hd Hm. apply (room_spare s sv (Z.to_nat ((n + 7) / 8)) (Z.to_nat (m - 1))).
  pose proof (di_room _ _ _ _ _ Hd). by replace (S (Z.to_nat (m - 1))) with (Z.to_nat m) by lia.
Qed.

Lemma entered_ext s s1 v sv k e n s' sv' : ready s v sv -> reads s s1 ->
  entered s1 v sv k e n s' sv' -> entered s v sv k e n s' sv'.
Proof.
  intros Hrd Hr [H1 H2 H3 H4 H5 H6 H7]. constructor; try done.
  - intros j Hj Hne. rewrite H5 by done. apply (dirent_reads s s1 v); [done|done|lia].
  - intros ino b' Hk Hi Hm Hb. rewrite H7; [by apply (re_view _ _ Hr)|done|done| |done].
    by rewrite (reads_marked s s1).
Qed.

(** ** Properties *)

(** [sfs_dir_findname] decides whether a directory has an entry of a given
    name.  It succeeds exactly if there is one, and returns the slot and the
    inode number of that entry; it returns [ENOENT] exactly if there is none.
    The empty slot it reports is a free one, and it reports one whenever the
    directory has one.  Nothing but the set of cached blocks changes. *)
Theorem dir_findname_correct s v sv n m name (Hd : directory s v sv n m)
    (Hu : unique s sv name n) :
  exists r f s', sfs_dir_findname v name s = Done ((r, f), s') /\ reads s s' /\
    match f_slot f with
    | Some k => r = 0 /\ 0 <= k < n /\ names s sv name k /\ f_ino f = Some (sfd_ino (dirent s sv k))
    | None => r = ENOENT /\ forall k, 0 <= k < n -> ~ names s sv name k
    end /\
    match f_empty f with
    | Some k => 0 <= k < n /\ sfd_ino (dirent s sv k) = SFS_NOINO
    | None => forall k, 0 <= k < n -> sfd_ino (dirent s sv k) <> SFS_NOINO
    end.
Proof.
  destruct (findname_run s v sv n m name Hd Hu) as (f & s' & H1 & H2 & _ & [H3 H4]).
  exists (verdict f), f, s'. split; [done|]. split; [done|]. split; [|done].
  unfold verdict. by destruct (f_slot f).
Qed.

(** C19: [sfs_dir_link] adds an entry, in a directory on a consistent file
    system on a working device whose blocks are all in the cache or have a free
    slot waiting there, with one more free slot for the block of a new entry
    (slots are never given back, and replacing one mixes files,
    [replacement_mixes_files]), and in which the name occurs at most once.
    It refuses a name that is there
    ([EEXIST]) or too long ([ENAMETOOLONG]) and leaves the directory alone.
    Otherwise it picks a free slot, or the one after the last if there is
    none, and either fails with [ENOSPC] and no entry changed, or makes that
    slot, and no other, an entry with the name and the inode number; the
    directory grows by at most the one entry, and no other file changes. *)
Theorem dir_link_correct s v sv n m name ino (Hd : directory s v sv n m) (Hm : 0 < m)
    (Hu : unique s sv name n) (Hi : 0 < ino < 2 ^ 32)
    (Hn : Forall (fun c => 0 < c < 256) name) :
  exists r slot s', sfs_dir_link v name ino s = Done ((r, slot), s') /\
    ((r = EEXIST /\ reads s s' /\ exists k, 0 <= k < n /\ names s sv name k) \/
     (forall k, 0 <= k < n -> ~ names s sv name k) /\
     ((r = ENAMETOOLONG /\ reads s s' /\ (60 <= length name)%nat) \/
      exists k sv', slot = Some k /\ 0 <= k <= n /\
        (if k =? n then forall j, 0 <= j < n -> sfd_ino (dirent s sv j) <> SFS_NOINO
         else sfd_ino (dirent s sv k) = SFS_NOINO) /\
        ((r = ENOSPC /\ entered s v sv k (dirent s sv k) n s' sv') \/
         (r = 0 /\ entered s v sv k (make_entry name ino) (Z.max n (k + 1)) s' sv' /\
          names s' sv' name k)))).
Proof.
  destruct (findname_run s v sv n m name Hd Hu) as (f & s1 & H1 & Hr & Hd1 & [H3 H4]).
  pose proof (di_ready _ _ _ _ _ Hd) as Hrd. pose proof (di_len _ _ _ _ _ Hd) as Hlen.
  unfold sfs_dir_link. rewrite (bind_Done _ _ _ _ _ H1). unfold verdict.
  destruct (f_slot f) as [k|].
  { rewrite bool_decide_false by done. exists EEXIST, None, s1. split; [done|]. left.
    split; [done|]. split; [done|]. exists k. tauto. }
  rewrite bool_decide_true by done. change (negb (ENOENT =? 0) && negb (ENOENT =? ENOENT)) with false.
  change (ENOENT =? 0) with false. cbv iota.
  destruct (Z.ltb_spec SFS_NAMELEN (Z.of_nat (length name) + 1)) as [Hl|Hl]; unfold SFS_NAMELEN in Hl.
  { exists ENAMETOOLONG, None, s1. split; [done|]. right. split; [done|]. left. split; [done|].
    split; [done|lia]. }
  set (k := match f_empty f with Some i => i | None => n end).
  assert (0 <= k <= n /\ (if k =? n then forall j, 0 <= j < n -> sfd_ino (dirent s sv j) <> SFS_NOINO
         else sfd_ino (dirent s sv k) = SFS_NOINO)) as [Hk Hfree].
  { unfold k. destruct (f_empty f) as [i|]; [|rewrite Z.eqb_refl; split; [lia|done]].
    rewrite (proj2 (Z.eqb_neq _ _)) by lia. split; [lia|tauto]. }
  rewrite (bind_Done _ _ _ k s1).
  2:{ unfold k. destruct (f_empty f); [done|]. by apply (nentries_run s1 v sv n m). }
  destruct (writedir_run s1 v sv n k (make_entry name ino)) as (r & s' & sv' & Hw & Hc);
    [apply Hd1|apply Hd1|apply make_entry_ok; [lia|done|lia]|apply (di_size _ _ _ _ _ Hd)|done|lia|by apply (spare_reach s1 v sv n m)|].
  rewrite (bind_Done _ _ _ _ _ Hw). exists r, (Some k), s'. split; [done|]. right. split; [done|]. right.
  exists k, sv'. split; [done|]. split; [done|]. split; [done|]. destruct Hc as [[-> He]|[-> He]].
  - left. split; [done|]. rewrite <- (dirent_reads s s1 v sv k) by (done || lia).
    by apply (entered_ext s s1).
  - right. split; [done|]. split; [by apply (entered_ext s s1)|].
    unfold names. rewrite (en_entry _ _ _ _ _ _ _ _ He). split; [cbn; unfold SFS_NOINO; lia|].
    apply make_entry_name; [done|lia].
Qed.

(** [sfs_dir_unlink] frees one slot.  For a slot of the directory whose
    block is cached or can be, it either fails with [ENOSPC] and no entry
    changed or frees that slot; the other entries and the size stay. *)
Theorem dir_unlink_correct s v sv n m k (Hd : directory s v sv n m) (Hk : 0 <= k < n)
    (Hre : reach s sv (k / 8) true) :
  exists r s' sv', sfs_dir_unlink v k s = Done (r, s') /\
    (forall j, 0 <= j < n -> j <> k -> dirent s' sv' j = dirent s sv j) /\
    sfi_size (sv_i sv') = n * 64 /\
    ((r = ENOSPC /\ dirent s' sv' k = dirent s sv k) \/
     (r = 0 /\ sfd_ino (dirent s' sv' k) = SFS_NOINO)).
Proof.
  pose proof (di_len _ _ _ _ _ Hd) as Hlen.
  destruct (writedir_run s v sv n k (mkDir SFS_NOINO (replicate 60 0))) as (r & s' & sv' & Hw & Hc);
    [apply Hd|apply Hd| |apply (di_size _ _ _ _ _ Hd)|lia|lia|done|].
  { constructor; cbn; [unfold SFS_NOINO; lia|done|repeat constructor; lia]. }
  exists r, s', sv'. split; [exact Hw|]. destruct Hc as [[-> He]|[-> He]].
  - split; [intros; apply (en_other _ _ _ _ _ _ _ _ He); lia|]. split; [apply (en_size _ _ _ _ _ _ _ _ He)|].
    left. split; [done|apply He].
  - split; [intros; apply (en_other _ _ _ _ _ _ _ _ He); lia|].
    split; [rewrite (en_size _ _ _ _ _ _ _ _ He); lia|].
    right. split; [done|]. by rewrite (en_entry _ _ _ _ _ _ _ _ He).
Qed.
End specs.

(** ** Concrete runs *)

(** A directory of three entries in block 5: ["."], a free slot, and ["a"]. *)
Definition home_block : list Z :=
  encode_dir (make_entry dot 3) ++ encode_dir (mkDir SFS_NOINO (replicate 60 0)) ++
  encode_dir (make_entry [97] 7) ++ replicate 320 0.
Definition home_inode : sfs_inode :=
  mkInode (3 * 64) SFS_TYPE_DIR 1 (5 :: replicate 14 0) 0 (replicate 110 0).
Definition home_dir : svnode := mkSv 1 1 true home_inode 3 false.
Definition home_fs : fs (lhd sim) :=
  mkFs (config_lhd true true (mkSim 40 {[5 := home_block]} []) blank).2
    (mkSuper SFS_MAGIC 40 (replicate 32 0) (replicate 118 0)) false
    (Bitmap.mkBitmap 40 [63; 0; 0; 0; 0]) false Arrays.array_init {[100 := home_dir]}
    (replicate 64 (mkSlot zeros (-1) (-1))) (mkEnv 0 [] [] [] 200).

Lemma home_ptr k : 0 <= k -> ptr home_fs home_inode k = if k =? 0 then 5 else 0.
Proof.
  intros Hk. unfold ptr, entries. cbn [home_inode sfi_direct sfi_indirect Z.eqb].
  rewrite lookup_nil. destruct (Z.eqb_spec k 0) as [->|]; [done|].
  destruct (k <? 15), (k <? 143), (k =? 143); try done.
  all: replace (Z.to_nat k) with (S (Z.to_nat (k - 1))) by lia; apply default_replicate.
Qed.

Lemma home_fs_ok : fs_ok home_fs.
Proof.
  constructor; try (cbn; lia); [| |done].
  - constructor; try done. split; [done|]. cbn. apply map_Forall_singleton.
    split; [done|]. apply (bool_decide_unpack (Forall _ home_block)). by vm_compute.
  - constructor; cbn; [lia|done|repeat constructor; lia|lia].
Qed.

Lemma home_fs_directory : directory home_fs 100 home_dir 3 1.
Proof.
  constructor; [constructor| |done|done|lia|vm_compute; lia].
  - apply home_fs_ok.
  - constructor; [done| |cbn; lia]. apply Forall_replicate, zeros_ok.
  - constructor.
    + constructor; cbn [home_dir home_inode sv_i sfi_size sfi_type sfi_linkcount sfi_direct sfi_indirect sfi_waste];
        unfold SFS_TYPE_DIR; try lia; (split; [done|]); [|apply Forall_replicate; lia].
      repeat constructor; lia.
    + intros k Hk. cbn [home_dir sv_i]. rewrite home_ptr by done.
      destruct (k =? 0); [cbn; split; [lia|reflexivity]|done].
    + intros j k Hj Hk. cbn [home_dir sv_i]. rewrite !home_ptr by done.
      destruct (Z.eqb_spec j 0), (Z.eqb_spec k 0); intros; lia.
  - done.
  - cbn. lia.
  - split; apply not_elem_of_nil.
  - intros b Hk Hn. destruct Hn. cbn [home_fs sfs_rcache]. apply view_in_none, Forall_replicate.
    destruct (tagged _ b _) eqn:E; [|done]. apply tagged_key in E as [E _]; [|done]. done.
Qed.

Lemma home_entries k : 0 <= k < 3 ->
  dirent home_fs home_dir k =
    if k =? 0 then make_entry dot 3 else if k =? 1 then mkDir SFS_NOINO (replicate 60 0)
    else make_entry [97] 7.
Proof.
  intros Hk. assert (k = 0 \/ k = 1 \/ k = 2) as [->|[->| ->]] by lia; vm_compute; reflexivity.
Qed.
Lemma home_unique name : unique home_fs home_dir name 3.
Proof.
  intros j k Hj Hk [Hj1 Hj2] [Hk1 Hk2]. rewrite home_entries in Hj1, Hj2 by done.
  rewrite home_entries in Hk1, Hk2 by done.
  destruct (Z.eqb_spec j 0), (Z.eqb_spec k 0); try lia;
    destruct (Z.eqb_spec j 1), (Z.eqb_spec k 1); try lia; try done; subst name; done.
Qed.

Lemma dir_findname_correct_witness : exists r f s',
  sfs_dir_findname 100 [97] home_fs = Done ((r, f), s') /\
  match f_slot f with
  | Some k => r = 0 /\ 0 <= k < 3 /\ names home_fs home_dir [97] k /\
      f_ino f = Some (sfd_ino (dirent home_fs home_dir k))
  | None => r = ENOENT /\ forall k, 0 <= k < 3 -> ~ names home_fs home_dir [97] k
  end.
Proof.
  destruct (dir_findname_correct home_fs 100 home_dir 3 1 [97] home_fs_directory (home_unique _))
    as (r & f & s' & H1 & _ & H2 & _).
  exists r, f, s'. split; [exact H1|exact H2].
Defined.

Lemma dir_link_correct_witness : exists r slot s',
  sfs_dir_link 100 [98; 99] 9 home_fs = Done ((r, slot), s').
Proof.
  destruct (dir_link_correct home_fs 100 home_dir 3 1 [98; 99] 9 home_fs_directory)
    as (r & slot & s' & H1 & _);
    [lia|apply home_unique|lia|repeat constructor; lia|].
  exists r, slot, s'. exact H1.
Defined.

Lemma dir_unlink_correct_witness : exists r s' sv',
  sfs_dir_unlink 100 2 home_fs = Done (r, s') /\
  (forall j, 0 <= j < 3 -> j <> 2 -> dirent s' sv' j = dirent home_fs home_dir j) /\
  sfi_size (sv_i sv') = 3 * 64.
Proof.
  destruct (dir_unlink_correct home_fs 100 home_dir 3 1 2 home_fs_directory)
    as (r & s' & sv' & H1 & H2 & H3 & _); [lia| |].
  - right. right. vm_compute. lia.
  - exists r, s', sv'. split; [exact H1|]. split; [exact H2|exact H3].
Defined.
End SfsDir.
