(* ===== verification/SfsFs.v ===== *)
(** * kern/fs/sfs/sfs_fs.c: mounting, syncing and unmounting SFS *)

From S2P Require Import Prelude Bitmap Arrays Uio Stream Lhd SfsDisk Sfs SfsIo SfsVnode.
Import Uio Stream Lhd SfsDisk Sfs SfsIo SfsVnode.

Module SfsFs.

Section filesystem.
Context {D : Type} `{!BlockDevice D}.
Implicit Type s : fs D.

(** The block [j] of the storage of the free map. *)
Definition map_block (b : Bitmap.bitmap) (j : Z) : list Z :=
  slice (j * SFS_BLOCKSIZE) SFS_BLOCKSIZE (Bitmap.bitmap_getdata b).
Definition put_map_block (j : Z) (data : list Z) : M (fs D) unit :=
  mmodify (fun s => with_freemap
    (Bitmap.mkBitmap (Bitmap.nbits (sfs_freemap s))
      (splice (j * SFS_BLOCKSIZE) data (Bitmap.bitmap_getdata (sfs_freemap s))))
    (sfs_freemapdirty s) s).

(** The loop of [sfs_mapio] from block [j] of the map up. *)
Fixpoint mapio_loop (n : nat) (rw : uio_rw_t) (j : Z) : M (fs D) Z :=
  match n with
  | O => mret 0
  | S n' =>
      ptr ← mgets (fun s => map_block (sfs_freemap s) j);
      result ← match rw with
               | UIO_READ =>
                   '(r, data) ← on_device (sfs_rblock ptr (SFS_MAP_LOCATION + j));
                   _ ← put_map_block j data;
                   mret r
               | UIO_WRITE => on_device (sfs_wblock ptr (SFS_MAP_LOCATION + j))
               end;
      if negb (result =? 0) then mret result else mapio_loop n' rw (j + 1)
  end.
Definition sfs_mapio (rw : uio_rw_t) : M (fs D) Z :=
  mapsize ← mgets (fun s => SFS_BITBLOCKS (sp_nblocks (super s)));
  mapio_loop (Z.to_nat mapsize) rw 0.

(** [vnodearray_get] *)
Definition vnodearray_get (i : Z) : M (fs D) Z := fun s =>
  match Arrays.array_get (sfs_vnodes s) i with
  | Done (Some v) => Done (v, s)
  | Done None => Stop NullDeref
  | Stop f => Stop f
  end.

(** [VOP_FSYNC] of every loaded vnode; its result is ignored. *)
Fixpoint sync_vnodes (n : nat) (i : Z) : M (fs D) unit :=
  match n with
  | O => mret tt
  | S n' =>
      v ← vnodearray_get i;
      _ ← vnode_check v false;
      _ ← sfs_fsync v;
      sync_vnodes n' (i + 1)
  end.

Definition sync_freemap : M (fs D) (result unit) :=
  dirty ← mgets sfs_freemapdirty;
  if (dirty : bool) then
    _ ←? check (sfs_mapio UIO_WRITE);
    _ ← mmodify (fun s => with_freemap (sfs_freemap s) false s);
    mret (Ok tt)
  else mret (Ok tt).
Definition sync_super : M (fs D) (result unit) :=
  dirty ← mgets sfs_superdirty;
  if (dirty : bool) then
    sb ← mgets super;
    _ ←? check (on_device (sfs_wblock (encode_super sb) SFS_SB_LOCATION));
    _ ← mmodify (fun s => with_super (super s) false s);
    mret (Ok tt)
  else mret (Ok tt).

Definition sfs_sync : M (fs D) Z :=
  _ ← vfs_biglock_acquire;
  num ← mgets (fun s => Arrays.array_num (sfs_vnodes s));
  _ ← sync_vnodes (Z.to_nat num) 0;
  r ← (_ ←? sync_freemap; sync_super);
  _ ← vfs_biglock_release;
  mret (code r).

Definition sfs_getvolname : M (fs D) (list Z) :=
  _ ← vfs_biglock_acquire;
  ret ← mgets (fun s => sp_volname (super s));
  _ ← vfs_biglock_release;
  mret ret.

(** [sfs_unmount]; the file system object is freed when it returns 0. *)
Definition sfs_unmount : M (fs D) Z :=
  _ ← vfs_biglock_acquire;
  num ← mgets (fun s => Arrays.array_num (sfs_vnodes s));
  if 0 <? num then _ ← vfs_biglock_release; mret EBUSY
  else
    sd ← mgets sfs_superdirty;
    _ ← kassert (negb sd);
    fd ← mgets sfs_freemapdirty;
    _ ← kassert (negb fd);
    _ ← vfs_biglock_release;
    mret 0.

(** ** Mounting

    The state of [sfs_domount] is the object [kmalloc] hands out, whose fields
    other than the device hold whatever the memory held. *)

Definition terminate (sb : sfs_super) : sfs_super :=
  mkSuper (sp_magic sb) (sp_nblocks sb) (<[31%nat := 0]> (sp_volname sb)) (sp_reserved sb).

(** [bitmap_create] with the results of [kmalloc]. *)
Definition freemap_create (n : Z) : M (fs D) (option Bitmap.bitmap) :=
  a ← kmalloc;
  if negb a then mlift (Bitmap.bitmap_create false true n)
  else b ← kmalloc; mlift (Bitmap.bitmap_create true b n).

(** The superblock: read, checked and terminated. *)
Definition mount_super : M (fs D) (result unit) :=
  sb ← mgets super;
  '(result, bs) ← on_device (sfs_rblock (encode_super sb) SFS_SB_LOCATION);
  _ ← mmodify (fun s => with_super (decode_super bs) (sfs_superdirty s) s);
  if negb (result =? 0) then mret (Err result)
  else if negb (sp_magic (decode_super bs) =? SFS_MAGIC) then mret (Err EINVAL)
  else
    _ ← mmodify (fun s => with_super (terminate (super s)) (sfs_superdirty s) s);
    mret (Ok tt).

Definition mount_freemap : M (fs D) (result unit) :=
  n ← mgets (fun s => SFS_BITMAPSIZE (sp_nblocks (super s)));
  b ← freemap_create n;
  match b with
  | None => mret (Err ENOMEM)
  | Some b =>
      _ ← mmodify (fun s => with_freemap b (sfs_freemapdirty s) s);
      check (sfs_mapio UIO_READ)
  end.

(** The four locks; each failure leaves without releasing [vfs_biglock]. *)
Fixpoint mount_locks (n : nat) : M (fs D) (result unit) :=
  match n with
  | O => mret (Ok tt)
  | S n' =>
      ok ← lock_create;
      if negb ok then mret (Err ENOMEM) else mount_locks n'
  end.

Definition clear_tags (c : cslot) : cslot := mkSlot (cache c) (-1) (-1).

Definition mount_finish : M (fs D) unit :=
  _ ← mmodify (fun s => with_rcache (map clear_tags (sfs_rcache s)) s);
  _ ← mmodify (fun s => with_super (super s) false s);
  _ ← mmodify (fun s => with_freemap (sfs_freemap s) false s);
  vfs_biglock_release.

Definition sfs_domount : M (fs D) Z :=
  _ ← vfs_biglock_acquire;
  _ ← kassert (4 + 4 + SFS_VOLNAME_SIZE + 4 * 118 =? SFS_BLOCKSIZE);
  _ ← kassert (4 + 2 + 2 + 4 * SFS_NDIRECT + 4 + 4 * (128 - 3 - SFS_NDIRECT) =? SFS_BLOCKSIZE);
  _ ← kassert (SFS_BLOCKSIZE mod sizeof_dir =? 0);
  bs ← mgets (fun s => d_blocksize (sfs_device s));
  if negb (bs =? SFS_BLOCKSIZE) then _ ← vfs_biglock_release; mret ENXIO
  else
    ok ← kmalloc;
    if negb ok then _ ← vfs_biglock_release; mret ENOMEM
    else
      ok ← kmalloc;
      match Arrays.array_create ok with
      | None => _ ← vfs_biglock_release; mret ENOMEM
      | Some a =>
          _ ← mmodify (with_vnodes a);
          r ← (_ ←? mount_super; mount_freemap);
          match r with
          | Err e => _ ← vfs_biglock_release; mret e
          | Ok _ =>
              r ← mount_locks 4;
              match r with
              | Err e => mret e
              | Ok _ => _ ← mount_finish; mret 0
              end
          end
      end.

(** ** What a sync leaves on disk *)

Record super_ok (sb : sfs_super) : Prop := mkSuperOk {
  so_magic : 0 <= sp_magic sb < 2 ^ 32;
  so_nblocks : 0 <= sp_nblocks sb < 2 ^ 32;
  so_name : length (sp_volname sb) = 32%nat /\ Forall (fun x => 0 <= x < 256) (sp_volname sb);
  so_reserved : u32_list 118 (sp_reserved sb);
}.

(** The number of blocks of the free map. *)
Definition mapsize s : Z := SFS_BITBLOCKS (sp_nblocks (super s)).

(** The layout: superblock, root inode, free map, the rest. *)
Record layout s : Prop := mkLayout {
  la_ok : fs_ok s;
  la_super : super_ok (super s);
  la_small : sp_nblocks (super s) <= 2 ^ 32 - 4096;
  la_nbits : Bitmap.nbits (sfs_freemap s) = SFS_BITMAPSIZE (sp_nblocks (super s));
  la_room : SFS_MAP_LOCATION + mapsize s <= sp_nblocks (super s);
}.

(** A block that can hold an inode. *)
Definition inode_block s (b : Z) : Prop :=
  b = SFS_ROOT_LOCATION \/ SFS_MAP_LOCATION + mapsize s <= b < sp_nblocks (super s).

(** The loaded vnodes: referenced, well-formed, one per inode. *)
Record loaded s : Prop := mkLoaded {
  lo_arr : Arrays.wf (sfs_vnodes s);
  lo_some : Forall (fun p => exists v sv, p = Some v /\ vheap s !! v = Some sv /\
    0 < vn_refcount sv /\ 0 <= vn_opencount sv /\ inode_ok (sv_i sv) /\
    inode_block s (sv_ino sv) /\ CountLock v ∉ held (ker s)) (Arrays.contents (sfs_vnodes s));
  lo_inj : forall v w sv sw, vheap s !! v = Some sv -> vheap s !! w = Some sw ->
    sv_ino sv = sv_ino sw -> v = w;
}.

(** What is not marked dirty is on the disk already. *)
Record clean s : Prop := mkClean {
  cl_map : sfs_freemapdirty s = false -> forall j, 0 <= j < mapsize s ->
    content s (SFS_MAP_LOCATION + j) = map_block (sfs_freemap s) j;
  cl_super : sfs_superdirty s = false -> content s SFS_SB_LOCATION = encode_super (super s);
  cl_inode : forall v sv, vheap s !! v = Some sv -> sv_dirty sv = false ->
    content s (sv_ino sv) = encode_inode (sv_i sv);
}.

(** ** The invariant of a mounted file system and its preservation *)

Record steady s : Prop := mkSteady {
  st_layout : layout s;
  st_loaded : loaded s;
  st_clean : clean s;
  st_depth : 0 <= biglock_depth (ker s);
}.

(** [s'] is [s] with some inodes, the map or the superblock flushed. *)
Record flush s s' : Prop := mkFlush {
  fl_super : super s' = super s;
  fl_map : sfs_freemap s' = sfs_freemap s;
  fl_vnodes : sfs_vnodes s' = sfs_vnodes s;
  fl_heap : forall v, undirty <$> vheap s' !! v = undirty <$> vheap s !! v;
  fl_rcache : sfs_rcache s' = sfs_rcache s;
  fl_ker : ker s' = ker s;
}.

Lemma flush_refl s : flush s s.
Proof. by constructor. Qed.
Lemma flush_trans s1 s2 s3 : flush s1 s2 -> flush s2 s3 -> flush s1 s3.
Proof. intros [] []. constructor; congruence. Qed.

Lemma undirty_inv v s s' sv : flush s s' -> vheap s' !! v = Some sv ->
  exists sv0, vheap s !! v = Some sv0 /\ undirty sv0 = undirty sv.
Proof.
  intros Hf Hv. pose proof (fl_heap _ _ Hf v) as H. rewrite Hv in H. cbn in H.
  destruct (vheap s !! v) as [sv0|]; [|done]. injection H as H. exists sv0.
  split; [done|]. unfold undirty, set_inode. congruence.
Qed.
Lemma undirty_fields sv sv' : undirty sv = undirty sv' ->
  vn_refcount sv = vn_refcount sv' /\ vn_opencount sv = vn_opencount sv' /\
  sv_i sv = sv_i sv' /\ sv_ino sv = sv_ino sv'.
Proof. unfold undirty, set_inode. naive_solver. Qed.

Lemma flush_mapsize s s' : flush s s' -> mapsize s' = mapsize s.
Proof. intros []. unfold mapsize. congruence. Qed.

Lemma flush_layout s s' : layout s -> fs_ok s' -> flush s s' -> layout s'.
Proof.
  intros [] ? Hf. pose proof (flush_mapsize _ _ Hf) as Hm.
  destruct Hf as [E1 E2]. constructor; rewrite ?Hm, ?E1, ?E2; done.
Qed.

Lemma flush_loaded s s' : loaded s -> flush s s' -> loaded s'.
Proof.
  intros [Ha Hs Hi] Hf. constructor.
  - by rewrite (fl_vnodes _ _ Hf).
  - rewrite (fl_vnodes _ _ Hf), (fl_ker _ _ Hf). eapply Forall_impl; [exact Hs|].
    intros p (v & sv & -> & Hv & Hr & Ho & Hok & Hb & Hh).
    pose proof (fl_heap _ _ Hf v) as H. rewrite Hv in H. cbn in H.
    destruct (vheap s' !! v) as [sv'|] eqn:E; [|done]. injection H as H.
    exists v, sv'. destruct (undirty_fields sv' sv) as (-> & -> & -> & ->).
    { unfold undirty, set_inode. congruence. }
    unfold inode_block in *. by rewrite (flush_mapsize _ _ Hf), (fl_super _ _ Hf).
  - intros v w sv sw Hv Hw E.
    destruct (undirty_inv v s s' sv Hf Hv) as (sv0 & Hv0 & Ev).
    destruct (undirty_inv w s s' sw Hf Hw) as (sw0 & Hw0 & Ew).
    apply (Hi v w sv0 sw0); [done..|]. apply undirty_fields in Ev, Ew. naive_solver congruence.
Qed.

Lemma mapsize_pos s : 0 <= mapsize s.
Proof. unfold mapsize, SFS_BITBLOCKS. apply Z.div_pos; [apply uwrap_range|]; done. Qed.

Lemma inode_block_range s b : layout s -> inode_block s b ->
  0 < b < sp_nblocks (super s) /\ b <> SFS_SB_LOCATION /\
  forall j, 0 <= j < mapsize s -> b <> SFS_MAP_LOCATION + j.
Proof.
  intros Hl Hb. pose proof (la_room _ Hl). pose proof (mapsize_pos s).
  unfold inode_block, SFS_ROOT_LOCATION, SFS_MAP_LOCATION, SFS_SB_LOCATION in *.
  repeat split; intros; lia.
Qed.

(** [VOP_FSYNC] of the vnode at index [i]. *)
Lemma fsync_step s i v : steady s -> Arrays.contents (sfs_vnodes s) !! i = Some (Some v) ->
  exists s', (_ ← vnode_check v false; sfs_fsync v) s = Done (0, s') /\ steady s' /\
    flush s s' /\ sfs_freemapdirty s' = sfs_freemapdirty s /\
    sfs_superdirty s' = sfs_superdirty s /\
    (forall w sw, vheap s' !! w = Some sw ->
       sv_dirty sw = false \/ (w <> v /\ vheap s !! w = Some sw)).
Proof.
  intros [Hla Hlo Hcl Hd] Hi. pose proof (Forall_lookup_1 _ _ _ _ (lo_some _ Hlo) Hi)
    as (v' & sv & [= <-] & Hv & Hr & Ho & Hok & Hb & Hh).
  destruct (inode_block_range s (sv_ino sv) Hla Hb) as (Hrng & H0 & Hj).
  rewrite (bind_Done _ _ _ _ _ (vnode_check_run s v sv false Hv Hr Ho Hh)).
  destruct (sync_inode_run (locked s) v sv) as (s1 & Hs & Hok1 & Hvh & Hsf & Hm & Hmd & Hc);
    [by destruct (la_ok _ Hla); constructor|done|done|cbn; lia|].
  unfold sfs_fsync. rewrite (bind_Done _ _ _ _ _ (biglock_acquire_run s)).
  rewrite (bind_Done _ _ _ _ _ Hs).
  destruct Hsf as (Es & Esd & Ev & _ & Er & Ek). cbn in Es, Esd, Ev, Er, Hm, Hmd.
  rewrite (bind_Done _ _ _ _ _ (biglock_release_run s1 (ker s) Hd Ek)).
  exists (with_ker (ker s) s1).
  assert (flush s (with_ker (ker s) s1)) as Hf.
  { constructor; try done. intros w. cbn. rewrite Hvh. cbn [locked with_ker vheap].
    destruct (decide (w = v)) as [->|]; [by rewrite lookup_insert_eq, Hv|].
    by rewrite lookup_insert_ne. }
  assert (fs_ok (with_ker (ker s) s1)) as Hok2 by (by destruct Hok1; constructor).
  split; [done|]. split; [|split; [done|]].
  - constructor; [by apply (flush_layout s)|by apply (flush_loaded s)| |done].
    destruct Hcl as [Hc1 Hc2 Hc3]. constructor.
    + cbn. intros E j Hjr. rewrite (flush_mapsize _ _ Hf) in Hjr. unfold content in *. cbn.
      rewrite Hc, Hm. rewrite (proj2 (Z.eqb_neq _ _)) by (intros E'; by apply (Hj j)).
      rewrite andb_false_r. apply Hc1; [congruence|done].
    + cbn. intros E. unfold content in *. cbn. rewrite Hc.
      rewrite (proj2 (Z.eqb_neq _ _)) by congruence. rewrite andb_false_r, Es.
      apply Hc2. cbn in Esd. congruence.
    + cbn. intros w sw Hw Hdw. unfold content in *. cbn. rewrite Hc. rewrite Hvh in Hw.
      apply lookup_insert_Some in Hw as [[<- <-]|[Hne Hw]].
      * cbn. rewrite Z.eqb_refl, andb_true_r. destruct (sv_dirty sv) eqn:E; [done|].
        by apply (Hc3 v).
      * rewrite (proj2 (Z.eqb_neq _ _)).
        { rewrite andb_false_r. by apply (Hc3 w). }
        intros E. apply Hne. by apply (lo_inj _ Hlo v w sv sw).
  - cbn. split; [done|]. split; [done|]. rewrite Hvh. intros w sw Hw.
    apply lookup_insert_Some in Hw as [[<- <-]|[Hne Hw]]; [by left|]. right. done.
Qed.

Lemma sync_vnodes_run n i s : steady s ->
  Z.of_nat n + i = Arrays.num (sfs_vnodes s) -> 0 <= i ->
  (forall k v sv, (k < Z.to_nat i)%nat -> Arrays.contents (sfs_vnodes s) !! k = Some (Some v) ->
     vheap s !! v = Some sv -> sv_dirty sv = false) ->
  exists s', sync_vnodes n i s = Done (tt, s') /\ steady s' /\ flush s s' /\
    sfs_freemapdirty s' = sfs_freemapdirty s /\ sfs_superdirty s' = sfs_superdirty s /\
    forall v sv, Some v ∈ Arrays.contents (sfs_vnodes s) -> vheap s' !! v = Some sv ->
      sv_dirty sv = false.
Proof.
  revert i s. induction n as [|n IH]; intros i s Hst Hn Hi Hdone.
  - exists s. split; [done|]. split; [done|]. split; [apply flush_refl|]. do 2 (split; [done|]).
    intros v sv Hv Hsv. apply list_elem_of_lookup in Hv as [k Hk].
    apply (Hdone k v sv); [|done..]. apply lookup_lt_Some in Hk.
    pose proof (Arrays.length_contents _ (lo_arr _ (st_loaded _ Hst))). lia.
  - destruct (Arrays.get_spec (sfs_vnodes s) i (lo_arr _ (st_loaded _ Hst))) as (p & Hg & Hc);
      [lia|].
    pose proof (Forall_lookup_1 _ _ _ _ (lo_some _ (st_loaded _ Hst)) Hc) as (v & _ & -> & _).
    destruct (fsync_step s (Z.to_nat i) v Hst Hc) as (s1 & Hs1 & Hst1 & Hf1 & Hm1 & Hd1 & Hcl1).
    destruct (IH (i + 1) s1 Hst1) as (s2 & Hs2 & Hst2 & Hf2 & Hm2 & Hd2 & Hcl2).
    + rewrite (fl_vnodes _ _ Hf1). lia.
    + lia.
    + rewrite (fl_vnodes _ _ Hf1). intros k w sw Hk Hw Hsw.
      destruct (Hcl1 w sw Hsw) as [?|[Hne Hw0]]; [done|].
      apply (Hdone k w sw); [|done..]. assert (k <> Z.to_nat i) by (intros ->; congruence). lia.
    + exists s2. split.
      * cbn [sync_vnodes]. unfold vnodearray_get. mrun. rewrite Hg. unfold mbind, M_bind in Hs1.
        destruct (vnode_check v false s) as [[[] s0]|]; [|done]. rewrite Hs1. exact Hs2.
      * split; [done|]. split; [by apply flush_trans with s1|].
        split; [congruence|]. split; [congruence|]. intros w sw Hw. apply Hcl2.
        by rewrite (fl_vnodes _ _ Hf1).
Qed.

(** ** The free map on disk *)

Lemma mapsize_eq s : layout s ->
  Bitmap.nbits (sfs_freemap s) = mapsize s * 4096 /\
  Z.of_nat (length (Bitmap.v (sfs_freemap s))) = mapsize s * 512.
Proof.
  intros Hl. pose proof (la_nbits _ Hl) as Hn. pose proof (la_small _ Hl).
  pose proof (ok_blocks _ (la_ok _ Hl)).
  pose proof (Bitmap.wf_len _ (ok_map _ (la_ok _ Hl))) as Hw.
  assert (Bitmap.nbits (sfs_freemap s) = mapsize s * 4096) as E.
  { rewrite Hn. unfold mapsize, SFS_BITBLOCKS, SFS_BITMAPSIZE, SFS_ROUNDUP.
    change SFS_BLOCKBITS with 4096.
    assert (u32 (sp_nblocks (super s) + 4096 - 1) = sp_nblocks (super s) + 4095) as ->
      by (rewrite uwrap_small; lia).
    rewrite uwrap_small by dlia. by rewrite Z.div_mul. }
  split; [done|]. rewrite Hw, E. pose proof (mapsize_pos s). dlia.
Qed.

Lemma map_block_ok s j : layout s -> 0 <= j < mapsize s -> block_ok (map_block (sfs_freemap s) j).
Proof.
  intros Hl Hj. destruct (mapsize_eq s Hl) as [_ Hlen].
  unfold map_block, slice, Bitmap.bitmap_getdata, SFS_BLOCKSIZE. split.
  - rewrite length_take, length_drop. lia.
  - apply Forall_take, Forall_drop, (Bitmap.wf_bytes _ (ok_map _ (la_ok _ Hl))).
Qed.

Lemma same_files_layout s s' : layout s -> fs_ok s' -> same_files s s' ->
  sfs_freemap s' = sfs_freemap s -> layout s'.
Proof.
  intros [] ? (E & _) Em. unfold mapsize in *. constructor; unfold mapsize; rewrite ?E, ?Em; done.
Qed.

Lemma mapio_write n j s : layout s -> 0 <= j -> j + Z.of_nat n <= mapsize s ->
  exists s', mapio_loop n UIO_WRITE j s = Done (0, s') /\ fs_ok s' /\ same_files s s' /\
    sfs_freemap s' = sfs_freemap s /\ sfs_freemapdirty s' = sfs_freemapdirty s /\
    (forall k, j <= k < j + Z.of_nat n ->
       content s' (SFS_MAP_LOCATION + k) = map_block (sfs_freemap s) k) /\
    (forall c, c < SFS_MAP_LOCATION + j \/ SFS_MAP_LOCATION + j + Z.of_nat n <= c ->
       content s' c = content s c).
Proof.
  revert j s. induction n as [|n IH]; intros j s Hl Hj Hn.
  { exists s. split; [done|]. split; [apply (la_ok _ Hl)|]. split; [done|]. do 2 (split; [done|]).
    split; [intros; lia|done]. }
  pose proof (la_room _ Hl) as Hr.
  destruct (fs_wblock s (SFS_MAP_LOCATION + j) (map_block (sfs_freemap s) j) (la_ok _ Hl))
    as (s1 & Hw & Hok1 & Hs1 & Hm1 & Hmd1 & Hc1).
  { unfold SFS_MAP_LOCATION in *. lia. }
  { apply map_block_ok; [done|lia]. }
  assert (mapsize s1 = mapsize s) as Hms by (unfold mapsize; by rewrite (proj1 Hs1)).
  destruct (IH (j + 1) s1) as (s2 & Hrun & Hok2 & Hs2 & Hm2 & Hmd2 & Hin & Hout);
    [by apply (same_files_layout s)|lia|lia|].
  exists s2. split.
  { cbn [mapio_loop]. unfold mgets. rewrite (bind_Done _ _ _ _ _ eq_refl).
    rewrite (bind_Done _ _ _ _ _ Hw). exact Hrun. }
  split; [done|]. split; [by apply same_files_trans with s1|]. split; [congruence|].
  split; [congruence|]. split.
  - intros k Hk. destruct (decide (k = j)) as [->|].
    + rewrite Hout by lia. rewrite Hc1, Z.eqb_refl. done.
    + rewrite Hin by lia. by rewrite Hm1.
  - intros c Hc. rewrite Hout by lia. rewrite Hc1. by rewrite (proj2 (Z.eqb_neq _ _)) by lia.
Qed.

Lemma encode_super_ok sb : super_ok sb -> block_ok (encode_super sb).
Proof.
  intros [_ _ [Hl Hb] [Hr _]]. unfold encode_super. split.
  - rewrite !length_app, length_enc32, Hl, Hr. done.
  - rewrite !Forall_app. auto 10 using be_bytes32, enc32_bytes.
Qed.

Lemma inode_away s v sv : steady s -> vheap s !! v = Some sv ->
  Some v ∈ Arrays.contents (sfs_vnodes s) -> inode_block s (sv_ino sv).
Proof.
  intros [_ [_ Hs _] _ _] Hv Hin. rewrite Forall_forall in Hs.
  destruct (Hs _ Hin) as (v' & sv' & [= <-] & Hv' & _ & _ & _ & Hb & _). naive_solver.
Qed.

(** Every vnode in memory is in the table. *)
Definition tabled s : Prop :=
  forall v sv, vheap s !! v = Some sv -> Some v ∈ Arrays.contents (sfs_vnodes s).

Lemma flush_tabled s s' : tabled s -> flush s s' -> tabled s'.
Proof.
  intros Ht Hf v sv Hv. rewrite (fl_vnodes _ _ Hf).
  destruct (undirty_inv v s s' sv Hf Hv) as (sv0 & Hv0 & _). by apply (Ht v sv0).
Qed.

Lemma sync_freemap_run s : steady s -> tabled s ->
  exists s', sync_freemap s = Done (Ok tt, s') /\ steady s' /\ flush s s' /\
    vheap s' = vheap s /\ sfs_freemapdirty s' = false /\ sfs_superdirty s' = sfs_superdirty s.
Proof.
  intros Hst Ht. unfold sync_freemap, mgets. rewrite (bind_Done _ _ _ _ _ eq_refl).
  destruct (sfs_freemapdirty s) eqn:Ed; [|exists s; by eauto using flush_refl].
  pose proof (st_layout _ Hst) as Hl.
  destruct (mapio_write (Z.to_nat (mapsize s)) 0 s Hl)
    as (s1 & Hw & Hok1 & Hs1 & Hm1 & _ & Hin & Hout); [lia|pose proof (mapsize_pos s); lia|].
  assert (sfs_mapio UIO_WRITE s = Done (0, s1)) as Hio.
  { unfold sfs_mapio, mgets. by rewrite (bind_Done _ _ _ _ _ eq_refl). }
  rewrite (ebind_Ok _ _ _ tt s1) by (unfold check; by rewrite (bind_Done _ _ _ _ _ Hio)).
  exists (with_freemap (sfs_freemap s1) false s1).
  destruct Hs1 as (E1 & E2 & E3 & E4 & E5 & E6).
  assert (flush s (with_freemap (sfs_freemap s1) false s1)) as Hf.
  { constructor; try done. intros v. cbn. by rewrite E4. }
  assert (fs_ok (with_freemap (sfs_freemap s1) false s1)) as Hok2 by (by destruct Hok1; constructor).
  split; [done|]. split; [|done].
  constructor; [by apply (flush_layout s)|by apply (flush_loaded s _ (st_loaded _ Hst))| |].
  - constructor.
    + intros _ j Hj. rewrite (flush_mapsize _ _ Hf) in Hj. unfold content. cbn.
      fold (content s1 (SFS_MAP_LOCATION + j)). rewrite Hin by lia. by rewrite Hm1.
    + cbn. intros E. unfold content. cbn. fold (content s1 SFS_SB_LOCATION).
      rewrite Hout by (unfold SFS_SB_LOCATION, SFS_MAP_LOCATION; lia). rewrite E1.
      apply (cl_super _ (st_clean _ Hst)). congruence.
    + cbn. rewrite E4. intros v sv Hv Hd. unfold content. cbn. fold (content s1 (sv_ino sv)).
      assert (inode_block s (sv_ino sv)) as Hb by (apply (inode_away s v); eauto).
      rewrite Hout; [by apply (cl_inode _ (st_clean _ Hst) v)|].
      destruct (inode_block_range _ _ Hl Hb) as (? & _ & _). pose proof (mapsize_pos s).
      unfold inode_block, SFS_ROOT_LOCATION, SFS_MAP_LOCATION in *. lia.
  - cbn. rewrite E6. apply (st_depth _ Hst).
Qed.

Lemma sync_super_run s : steady s -> tabled s ->
  exists s', sync_super s = Done (Ok tt, s') /\ steady s' /\ flush s s' /\
    vheap s' = vheap s /\ sfs_superdirty s' = false /\ sfs_freemapdirty s' = sfs_freemapdirty s.
Proof.
  intros Hst Ht. unfold sync_super, mgets. rewrite (bind_Done _ _ _ _ _ eq_refl).
  destruct (sfs_superdirty s) eqn:Ed; [|exists s; by eauto using flush_refl].
  pose proof (st_layout _ Hst) as Hl.
  destruct (fs_wblock s SFS_SB_LOCATION (encode_super (super s)) (la_ok _ Hl))
    as (s1 & Hw & Hok1 & Hs1 & Hm1 & Hmd1 & Hc).
  { pose proof (ok_blocks _ (la_ok _ Hl)). unfold SFS_SB_LOCATION. lia. }
  { apply encode_super_ok, (la_super _ Hl). }
  rewrite (bind_Done _ _ _ _ _ eq_refl).
  rewrite (ebind_Ok _ _ _ tt s1) by (unfold check; by rewrite (bind_Done _ _ _ _ _ Hw)).
  exists (with_super (super s1) false s1).
  destruct Hs1 as (E1 & E2 & E3 & E4 & E5 & E6).
  assert (flush s (with_super (super s1) false s1)) as Hf.
  { constructor; try done. intros v. cbn. by rewrite E4. }
  assert (fs_ok (with_super (super s1) false s1)) as Hok2 by (by destruct Hok1; constructor).
  split; [done|]. split; [|done].
  constructor; [by apply (flush_layout s)|by apply (flush_loaded s _ (st_loaded _ Hst))| |].
  - constructor; unfold content; cbn.
    + intros E j Hj. rewrite (flush_mapsize _ _ Hf) in Hj.
      fold (content s1 (SFS_MAP_LOCATION + j)). rewrite Hc, Hm1.
      rewrite (proj2 (Z.eqb_neq _ _)) by (unfold SFS_SB_LOCATION, SFS_MAP_LOCATION; lia).
      apply (cl_map _ (st_clean _ Hst)); [congruence|done].
    + intros _. fold (content s1 SFS_SB_LOCATION). by rewrite Hc, Z.eqb_refl, E1.
    + rewrite E4. intros v sv Hv Hd. fold (content s1 (sv_ino sv)). rewrite Hc.
      destruct (inode_block_range s (sv_ino sv) Hl) as (_ & ? & _); [by eauto using inode_away|].
      rewrite (proj2 (Z.eqb_neq _ _)) by done. by apply (cl_inode _ (st_clean _ Hst) v).
  - cbn. rewrite E6. apply (st_depth _ Hst).
Qed.

Lemma with_ker_steady s e : steady s -> held e = held (ker s) -> 0 <= biglock_depth e ->
  steady (with_ker e s).
Proof.
  intros [[[]] [Ha Hs Hi] [] ?] He Hd. split; [constructor; [by constructor|done..]| |by constructor|done].
  constructor; [done| |done]. cbn. rewrite He. exact Hs.
Qed.

Lemma sfs_sync_run s : steady s -> tabled s ->
  exists s', sfs_sync s = Done (0, s') /\ steady s' /\ flush s s' /\
    sfs_freemapdirty s' = false /\ sfs_superdirty s' = false /\
    forall v sv, vheap s' !! v = Some sv -> sv_dirty sv = false.
Proof.
  intros Hst Ht. assert (0 <= biglock_depth (ker s)) as Hd by apply Hst.
  assert (steady (locked s)) as Hst0.
  { apply with_ker_steady; [done..|]. cbn. lia. }
  assert (tabled (locked s)) as Ht0 by done.
  pose proof (Arrays.wf_num _ (lo_arr _ (st_loaded _ Hst))) as Hn.
  destruct (sync_vnodes_run (Z.to_nat (Arrays.num (sfs_vnodes s))) 0 (locked s))
    as (s1 & Hr1 & Hst1 & Hf1 & Hm1 & Hd1 & Hc1); [done|cbn; lia|lia|intros; lia|].
  destruct (sync_freemap_run s1) as (s2 & Hr2 & Hst2 & Hf2 & Hv2 & Hm2 & Hd2);
    [done|by apply (flush_tabled (locked s))|].
  destruct (sync_super_run s2) as (s3 & Hr3 & Hst3 & Hf3 & Hv3 & Hd3 & Hm3);
    [done|by eauto using flush_tabled|].
  assert (flush (locked s) s3) as Hf by eauto using flush_trans.
  exists (with_ker (ker s) s3). split; [|split; [|split; [|split; [cbn; congruence|split; [done|]]]]].
  - unfold sfs_sync, mgets. rewrite (bind_Done _ _ _ _ _ (biglock_acquire_run s)).
    rewrite (bind_Done _ _ _ _ _ eq_refl), (bind_Done _ _ _ _ _ Hr1).
    rewrite (bind_Done _ _ _ (Ok tt) s3) by (by rewrite (ebind_Ok _ _ _ _ _ Hr2)).
    by rewrite (bind_Done _ _ _ _ _ (biglock_release_run s3 (ker s) Hd (fl_ker _ _ Hf))).
  - apply with_ker_steady; [done| |done]. by rewrite (fl_ker _ _ Hf).
  - destruct Hf. by constructor.
  - cbn. rewrite Hv3, Hv2. intros v sv Hv. apply (Hc1 v sv); [|done].
    destruct (undirty_inv v (locked s) s1 sv Hf1 Hv) as (sv0 & Hv0 & _). by apply (Ht v sv0).
Qed.

(** ** Mounting a disk *)

(** A disk with a file system whose superblock is [sb]. *)
Record mountable (d : D) (sb : sfs_super) : Prop := mkMountable {
  mo_dev : healthy d;
  mo_max : d_blocks d <= 2 ^ 32;
  mo_block : block d SFS_SB_LOCATION = encode_super sb;
  mo_super : super_ok sb;
  mo_magic : sp_magic sb = SFS_MAGIC;
  mo_name : sp_volname sb !! 31%nat = Some 0;
  mo_size : sp_nblocks sb <= d_blocks d;
  mo_small : sp_nblocks sb <= 2 ^ 32 - 4096;
  mo_room : SFS_MAP_LOCATION + SFS_BITBLOCKS (sp_nblocks sb) <= sp_nblocks sb;
}.

Lemma decode_encode_super sb : super_ok sb -> decode_super (encode_super sb) = sb.
Proof.
  intros [Hm Hn [Hl Hb] [Hr Hr']]. unfold decode_super, encode_super.
  rewrite rd32_be32 by done. change (drop 4 (be32 (sp_magic sb) ++ ?r)) with r.
  rewrite rd32_be32 by done.
  change (drop 8 (be32 (sp_magic sb) ++ be32 (sp_nblocks sb) ++ ?r)) with r.
  rewrite take_app_length' by done.
  replace 40%nat with (8 + 32)%nat by done. rewrite <- drop_drop.
  change (drop 8 (be32 (sp_magic sb) ++ be32 (sp_nblocks sb) ++ ?r)) with r.
  rewrite drop_app_length' by done. rewrite dec32_enc32 by done. by destruct sb.
Qed.

Lemma terminate_id sb : sp_volname sb !! 31%nat = Some 0 -> terminate sb = sb.
Proof. intros H. unfold terminate. rewrite list_insert_id by done. by destruct sb. Qed.

(** [s'] differs from [s] in the device's state and the storage of the map. *)
Definition same_mount s s' : Prop :=
  super s' = super s /\ sfs_vnodes s' = sfs_vnodes s /\ vheap s' = vheap s /\
  sfs_rcache s' = sfs_rcache s /\ ker s' = ker s /\
  Bitmap.nbits (sfs_freemap s') = Bitmap.nbits (sfs_freemap s) /\
  length (Bitmap.v (sfs_freemap s')) = length (Bitmap.v (sfs_freemap s)) /\
  forall c, content s' c = content s c.

Lemma mapio_read n j s : healthy (sfs_device s) -> d_blocks (sfs_device s) <= 2 ^ 32 ->
  0 <= j -> SFS_MAP_LOCATION + j + Z.of_nat n <= d_blocks (sfs_device s) ->
  (j + Z.of_nat n) * 512 <= Z.of_nat (length (Bitmap.v (sfs_freemap s))) ->
  exists s', mapio_loop n UIO_READ j s = Done (0, s') /\ healthy (sfs_device s') /\
    d_blocks (sfs_device s') = d_blocks (sfs_device s) /\ same_mount s s' /\
    forall k, 0 <= k -> map_block (sfs_freemap s') k =
      if (j <=? k) && (k <? j + Z.of_nat n) then content s (SFS_MAP_LOCATION + k)
      else map_block (sfs_freemap s) k.
Proof.
  revert j s. induction n as [|n IH]; intros j s Hh Hmx Hj Hn Hl.
  { exists s. do 4 (split; [done|]). intros k _.
    destruct (Z.leb_spec j k), (Z.ltb_spec k (j + Z.of_nat 0)); cbn; done || lia. }
  unfold SFS_MAP_LOCATION in *. cbn [mapio_loop]. unfold mgets.
  rewrite (bind_Done _ _ _ _ _ eq_refl).
  destruct (rblock_ok (map_block (sfs_freemap s) j) (2 + j) (sfs_device s))
    as (d1 & Hr & Hh1 & Hn1 & Hc1); [done|lia|lia| |].
  { unfold map_block, Bitmap.bitmap_getdata, SFS_BLOCKSIZE.
    pose proof (length_slice (j * 512) 512 (Bitmap.v (sfs_freemap s))). lia. }
  set (data := block (sfs_device s) (2 + j)) in *.
  assert (length data = 512%nat) as Hld by by apply block_length.
  set (m1 := Bitmap.mkBitmap (Bitmap.nbits (sfs_freemap s))
     (splice (j * 512) data (Bitmap.v (sfs_freemap s)))).
  set (s1 := with_freemap m1 (sfs_freemapdirty s) (with_device d1 s)).
  rewrite (bind_Done _ _ s 0 s1) by
    (mrun; unfold SFS_MAP_LOCATION; by rewrite (on_device_run _ _ _ _ Hr)).
  assert (length (Bitmap.v m1) = length (Bitmap.v (sfs_freemap s))) as Hl1
    by (apply length_splice; rewrite ?Hld; lia).
  destruct (IH (j + 1) s1) as (s2 & Hrun & Hh2 & Hd2 & Hsm & Hk); [done|cbn; lia|lia|cbn; lia| |].
  { cbn [s1 with_freemap sfs_freemap]. rewrite Hl1. lia. }
  exists s2. split; [exact Hrun|]. split; [done|]. split; [rewrite Hd2; exact Hn1|]. split.
  { destruct Hsm as (? & ? & ? & ? & ? & ? & ? & Hcc). do 6 (split; [done|]).
    split; [by rewrite <- Hl1|]. intros c. rewrite Hcc. unfold content. cbn. by rewrite Hc1. }
  intros k Hk0. rewrite Hk by done. unfold content. cbn [s1 with_freemap sfs_device with_device sfs_freemap].
  rewrite Hc1. unfold map_block, Bitmap.bitmap_getdata, SFS_BLOCKSIZE. cbn [m1 Bitmap.v].
  destruct (Z.eq_dec k j) as [->|Hne].
  - rewrite (proj2 (Z.leb_gt (j + 1) j)), Z.leb_refl by lia. cbn [andb].
    rewrite (proj2 (Z.ltb_lt j (j + Z.of_nat (S n)))) by lia.
    pose proof (slice_splice_same (j * 512) data (Bitmap.v (sfs_freemap s))) as E.
    rewrite Hld in E. apply E; lia.
  - rewrite slice_splice_other by (rewrite ?Hld; lia).
    replace (j + 1 + Z.of_nat n) with (j + Z.of_nat (S n)) by lia.
    destruct (Z.leb_spec (j + 1) k), (Z.leb_spec j k); done || lia.
Qed.

(** A kernel with memory to spare. *)
Definition plenty (e : env) : Prop := Forall (eq true) (mem_ok e).
(** Environments that differ in the supply of memory only. *)
Definition same_env (e e' : env) : Prop :=
  biglock_depth e' = biglock_depth e /\ held e' = held e /\ fresh e' = fresh e /\
  (plenty e -> plenty e').

Lemma same_env_trans e1 e2 e3 : same_env e1 e2 -> same_env e2 e3 -> same_env e1 e3.
Proof. unfold same_env. intuition congruence. Qed.

Lemma kmalloc_run s : plenty (ker s) ->
  exists e, kmalloc s = Done (true, with_ker e s) /\ same_env (ker s) e.
Proof.
  intros Hp. set (k := ker s) in *.
  exists (mkEnv (biglock_depth k) (held k) (rng k) (tail (mem_ok k)) (fresh k)). split.
  - unfold kmalloc. mrun. fold k. do 2 f_equal. unfold plenty in Hp.
    destruct (mem_ok k); [done|]. by inversion Hp.
  - repeat split. unfold plenty. cbn. intros H. by destruct H.
Qed.

Lemma mount_super_run s sb : mountable (sfs_device s) sb -> super_ok (super s) ->
  exists d, mount_super s = Done (Ok tt, with_super sb (sfs_superdirty s) (with_device d s)) /\
    healthy d /\ d_blocks d = d_blocks (sfs_device s) /\
    forall c, block d c = block (sfs_device s) c.
Proof.
  intros [Hh Hmx Hb Hsb Hmg Hnm Hsz Hsm Hrm] Hs.
  destruct (rblock_ok (encode_super (super s)) SFS_SB_LOCATION (sfs_device s))
    as (d & Hr & Hd); [done| |done|by apply encode_super_ok|].
  { pose proof (mapsize_pos (with_super sb true s)) as Hp. unfold mapsize in Hp. cbn in Hp.
    unfold SFS_SB_LOCATION, SFS_MAP_LOCATION in *. lia. }
  exists d. split; [|done]. unfold mount_super, mgets. rewrite (bind_Done _ _ _ _ _ eq_refl).
  rewrite (bind_Done _ _ _ _ _ (on_device_run _ _ _ _ Hr)). rewrite Hb. mrun.
  rewrite decode_encode_super by done. rewrite Hmg. cbn. by rewrite terminate_id.
Qed.

Lemma map_bits n : 0 <= n <= 2 ^ 32 - 4096 ->
  SFS_BITMAPSIZE n = SFS_BITBLOCKS n * 4096 /\ 0 <= SFS_BITMAPSIZE n <= 2 ^ 32 - 4096.
Proof.
  intros Hn. unfold SFS_BITBLOCKS, SFS_BITMAPSIZE, SFS_ROUNDUP. change SFS_BLOCKBITS with 4096.
  assert (u32 (n + 4096 - 1) = n + 4095) as -> by (rewrite uwrap_small; lia).
  rewrite uwrap_small by dlia. rewrite Z.div_mul by done. dlia.
Qed.

Lemma mount_freemap_run s : healthy (sfs_device s) -> d_blocks (sfs_device s) <= 2 ^ 32 ->
  0 <= sp_nblocks (super s) <= 2 ^ 32 - 4096 ->
  SFS_MAP_LOCATION + mapsize s <= d_blocks (sfs_device s) -> plenty (ker s) ->
  exists s', mount_freemap s = Done (Ok tt, s') /\ healthy (sfs_device s') /\
    d_blocks (sfs_device s') = d_blocks (sfs_device s) /\ super s' = super s /\ sfs_vnodes s' = sfs_vnodes s /\ vheap s' = vheap s /\
    sfs_rcache s' = sfs_rcache s /\ same_env (ker s) (ker s') /\
    (forall c, content s' c = content s c) /\
    Bitmap.nbits (sfs_freemap s') = SFS_BITMAPSIZE (sp_nblocks (super s)) /\
    Z.of_nat (length (Bitmap.v (sfs_freemap s'))) = mapsize s * 512 /\
    forall k, 0 <= k < mapsize s ->
      map_block (sfs_freemap s') k = content s (SFS_MAP_LOCATION + k).
Proof.
  intros Hh Hmx Hn Hroom Hp. destruct (map_bits _ Hn) as [Hb Hbr]. fold (mapsize s) in Hb.
  unfold mount_freemap, freemap_create, mgets. rewrite (bind_Done _ _ _ _ _ eq_refl).
  destruct (kmalloc_run s Hp) as (e1 & Hk1 & He1).
  destruct (kmalloc_run (with_ker e1 s)) as (e2 & Hk2 & He2); [by apply He1|].
  destruct (Bitmap.bitmap_create_spec (SFS_BITMAPSIZE (sp_nblocks (super s))))
    as (b & Hbm & Hwf & Hnb & _); [lia|].
  set (s1 := with_freemap b (sfs_freemapdirty s) (with_ker e2 s)).
  rewrite (bind_Done _ _ _ (Some b) (with_ker e2 s)).
  2:{ rewrite (bind_Done _ _ _ _ _ Hk1). cbn [negb].
      rewrite (bind_Done _ _ _ _ _ Hk2). unfold mlift. by rewrite Hbm. }
  rewrite (bind_Done _ _ _ tt s1) by done.
  pose proof (mapsize_pos s) as Hpos. pose proof (Bitmap.wf_len _ Hwf) as Hlen.
  assert (Z.of_nat (length (Bitmap.v b)) = mapsize s * 512) as Hl by (rewrite Hlen, Hnb, Hb; dlia).
  destruct (mapio_read (Z.to_nat (mapsize s)) 0 s1) as (s2 & Hr & Hh2 & Hd2 & Hsm & Hk);
    [done|done|done|cbn; lia|cbn; lia|].
  destruct Hsm as (? & ? & ? & ? & Ek & Enb & El & Hc). cbn in Enb, El, Ek.
  exists s2. split.
  { unfold check, sfs_mapio, mgets.
    rewrite (bind_Done _ _ _ 0 s2) by (by rewrite (bind_Done _ _ _ _ _ eq_refl)). done. }
  do 6 (split; [done|]). split.
  { rewrite Ek. by apply same_env_trans with e1. }
  split; [intros c; by rewrite Hc|]. split; [by rewrite Enb|]. split; [by rewrite El|].
  intros k Hkr. rewrite Hk by lia.
  rewrite (proj2 (Z.leb_le _ _)), (proj2 (Z.ltb_lt _ _)) by lia. done.
Qed.

Lemma map_ext b b' n : Z.of_nat (length (Bitmap.v b)) = n * 512 ->
  Z.of_nat (length (Bitmap.v b')) = n * 512 -> Bitmap.nbits b' = Bitmap.nbits b ->
  (forall k, 0 <= k < n -> map_block b' k = map_block b k) -> b' = b.
Proof.
  intros Hl Hl' Hn Hk. destruct b as [nb v], b' as [nb' v']. cbn in *. f_equal; [done|].
  apply list_eq. intros i. destruct (decide (i < length v)%nat) as [Hi|Hi].
  - set (k := Z.of_nat i / 512).
    assert (0 <= k < n) as Hkr by (subst k; dlia).
    assert (Z.of_nat i mod 512 < 512 /\ 0 <= Z.of_nat i mod 512 /\
      Z.of_nat i = k * 512 + Z.of_nat i mod 512) as (Hm & Hm' & E) by (subst k; dlia).
    specialize (Hk k Hkr). unfold map_block, SFS_BLOCKSIZE, Bitmap.bitmap_getdata in Hk. cbn in Hk.
    apply (f_equal (.!! Z.to_nat (Z.of_nat i mod 512))) in Hk.
    rewrite !lookup_slice in Hk by lia. rewrite (proj2 (Nat.ltb_lt _ _)) in Hk by lia.
    replace (Z.to_nat (k * 512) + Z.to_nat (Z.of_nat i mod 512))%nat with i in Hk by lia. done.
  - rewrite !lookup_ge_None_2 by lia. done.
Qed.

Lemma mount_locks_run n s : plenty (ker s) ->
  exists e, mount_locks n s = Done (Ok tt, with_ker e s) /\ same_env (ker s) e.
Proof.
  revert s. induction n as [|n IH]; intros s Hp.
  - exists (ker s). by rewrite with_ker_id.
  - destruct (kmalloc_run s Hp) as (e1 & Hk1 & He1).
    destruct (IH (with_ker e1 s)) as (e2 & Hk2 & He2); [by apply He1|].
    exists e2. split; [|by apply same_env_trans with e1].
    cbn [mount_locks]. unfold lock_create. rewrite (bind_Done _ _ _ _ _ Hk1). exact Hk2.
Qed.

Lemma mount_run s sb : mountable (sfs_device s) sb -> super_ok (super s) -> plenty (ker s) ->
  0 <= biglock_depth (ker s) ->
  exists m, sfs_domount s = Done (0, m) /\ healthy (sfs_device m) /\
    d_blocks (sfs_device m) = d_blocks (sfs_device s) /\ super m = sb /\
    sfs_superdirty m = false /\ sfs_freemapdirty m = false /\
    sfs_vnodes m = Arrays.array_init /\ vheap m = vheap s /\
    sfs_rcache m = map clear_tags (sfs_rcache s) /\
    biglock_depth (ker m) = biglock_depth (ker s) /\ held (ker m) = held (ker s) /\
    (forall c, content m c = content s c) /\
    Bitmap.nbits (sfs_freemap m) = SFS_BITMAPSIZE (sp_nblocks sb) /\
    Z.of_nat (length (Bitmap.v (sfs_freemap m))) = SFS_BITBLOCKS (sp_nblocks sb) * 512 /\
    forall k, 0 <= k < SFS_BITBLOCKS (sp_nblocks sb) ->
      map_block (sfs_freemap m) k = content s (SFS_MAP_LOCATION + k).
Proof.
  intros Hm Hs Hp Hd. destruct (kmalloc_run (locked s) Hp) as (e1 & Hk1 & He1).
  destruct (kmalloc_run (with_ker e1 (locked s))) as (e2 & Hk2 & He2); [by apply He1|].
  set (s1 := with_vnodes Arrays.array_init (with_ker e2 (with_ker e1 (locked s)))).
  destruct (mount_super_run s1 sb Hm Hs) as (d & Hr & Hh & Hn & Hc).
  set (s2 := with_super sb (sfs_superdirty s1) (with_device d s1)) in *.
  assert (plenty (ker s2)) as Hp2 by (by apply He2, He1).
  pose proof (so_nblocks _ (mo_super _ _ Hm)).
  destruct (mount_freemap_run s2) as (s3 & Hf & Hh3 & Hd3 & E1 & E2 & E3 & E4 & He3 & Hc3 & Hnb & Hlen & Hblk);
    [done|cbn; rewrite Hn; apply (mo_max _ _ Hm)|pose proof (mo_small _ _ Hm); cbn; lia
    |pose proof (mo_size _ _ Hm); pose proof (mo_room _ _ Hm); unfold mapsize; cbn; rewrite Hn; cbn; lia
    |done|].
  destruct (mount_locks_run 4 s3) as (e4 & Hl & He4); [by apply He3|].
  assert (same_env (with_depth (biglock_depth (ker s) + 1) (ker s)) e4) as He.
  { eapply same_env_trans; [exact He1|]. eapply same_env_trans; [exact He2|].
    eapply same_env_trans; [exact He3|]. exact He4. }
  set (e := with_depth (biglock_depth (ker s)) e4).
  exists (with_ker e (with_freemap (sfs_freemap s3) false (with_super (super s3) false
    (with_rcache (map clear_tags (sfs_rcache s3)) (with_ker e4 s3))))).
  split.
  - unfold sfs_domount, mgets. rewrite (bind_Done _ _ _ _ _ (biglock_acquire_run s)).
    do 3 (rewrite (bind_Done _ _ (locked s) tt (locked s)) by done).
    rewrite (bind_Done _ _ _ _ _ eq_refl). change (sfs_device (locked s)) with (sfs_device s).
    rewrite (block_size _ (mo_dev _ _ Hm)). change (negb (BLOCKSIZE =? SFS_BLOCKSIZE)) with false. cbv iota.
    rewrite (bind_Done _ _ _ _ _ Hk1). cbn [negb].
    rewrite (bind_Done _ _ _ _ _ Hk2). cbn [Arrays.array_create].
    rewrite (bind_Done _ _ _ tt s1) by done.
    rewrite (bind_Done _ _ _ (Ok tt) s3) by (by rewrite (ebind_Ok _ _ _ _ _ Hr)).
    rewrite (bind_Done _ _ _ _ _ Hl). unfold mount_finish.
    rewrite (bind_Done _ _ _ tt (with_ker e (with_freemap (sfs_freemap s3) false (with_super (super s3) false
      (with_rcache (map clear_tags (sfs_rcache s3)) (with_ker e4 s3)))))); [done|].
    do 3 rewrite (bind_Done _ _ _ _ _ eq_refl).
    apply biglock_release_run; [done|]. cbn. unfold e, with_depth. cbn.
    pose proof (proj1 He) as Hde. cbn in Hde. rewrite <- Hde. by destruct e4.
  - unfold e. cbn. destruct He as (? & ? & ? & ?). rewrite E3, E4, E2, E1.
    split; [done|]. split; [by rewrite Hd3|]. do 8 (split; [done|]). split; [|split; [exact Hnb|split; [exact Hlen|]]].
    + intros c. unfold content in *. cbn. rewrite Hc3. cbn. apply Hc.
    + intros k Hk. rewrite Hblk by done. apply Hc.
Qed.

(** ** Properties *)

(** C15: A sync followed by a mount of the same disk restores the file system.
    From a consistent mounted state [sfs_sync] succeeds, marks everything
    clean and leaves every loaded inode on disk; [sfs_domount] of that disk,
    in whatever memory [kmalloc] hands out, succeeds and comes back with the
    same superblock and the same free map, an empty vnode table and an empty
    block cache. *)
Theorem sync_mount_roundtrip s s0 (Hs : steady s) (Ht : tabled s)
    (Hmagic : sp_magic (super s) = SFS_MAGIC) (Hname : sp_volname (super s) !! 31%nat = Some 0)
    (Hs0 : super_ok (super s0)) (Hmem : plenty (ker s0)) (Hd : 0 <= biglock_depth (ker s0)) :
  exists s' m,
    sfs_sync s = Done (0, s') /\
    (forall v sv, vheap s' !! v = Some sv ->
       sv_dirty sv = false /\ content s' (sv_ino sv) = encode_inode (sv_i sv)) /\
    sfs_domount (with_device (sfs_device s') s0) = Done (0, m) /\
    super m = super s /\ sfs_freemap m = sfs_freemap s /\
    sfs_vnodes m = Arrays.array_init /\
    Forall (fun c => inode_no c = -1) (sfs_rcache m) /\
    biglock_depth (ker m) = biglock_depth (ker s0) /\
    forall b, content m b = content s' b.
Proof.
  destruct (sfs_sync_run s Hs Ht) as (s' & Hr & Hst & Hf & Hmd & Hsd & Hvd). exists s'.
  pose proof (st_layout _ Hst) as Hl. pose proof (st_clean _ Hst) as Hcl.
  assert (mountable (sfs_device s') (super s)) as Hm.
  { rewrite <- (fl_super _ _ Hf). destruct (la_ok _ Hl). constructor; try done.
    - by apply (cl_super _ Hcl).
    - apply (la_super _ Hl).
    - by rewrite (fl_super _ _ Hf).
    - by rewrite (fl_super _ _ Hf).
    - lia.
    - apply (la_small _ Hl).
    - apply (la_room _ Hl). }
  destruct (mount_run (with_device (sfs_device s') s0) (super s) Hm Hs0 Hmem Hd)
    as (m & Hrm & _ & _ & Es & _ & _ & Ev & _ & Ec & Ed & _ & Hc & Hnb & Hlen & Hblk).
  exists m. split; [done|]. split.
  { intros v sv Hv. split; [by apply (Hvd v)|]. by apply (cl_inode _ Hcl v), (Hvd v). }
  split; [done|]. split; [done|]. split.
  { destruct (mapsize_eq _ Hl) as [Hn1 Hl1]. rewrite (flush_mapsize _ _ Hf), (fl_map _ _ Hf) in *.
    apply (map_ext _ _ (mapsize s)); [done|done| |].
    - rewrite Hnb. symmetry. apply (la_nbits _ (st_layout _ Hs)).
    - intros k Hk. rewrite Hblk by done. rewrite <- (fl_map _ _ Hf).
      apply (cl_map _ Hcl Hmd). by rewrite (flush_mapsize _ _ Hf). }
  split; [done|]. split; [|split; [done|exact Hc]].
  rewrite Ec. apply Forall_map, Forall_true. done.
Qed.
End filesystem.

(** ** A concrete volume

    40 blocks: the superblock, the root inode, one block of free map and an
    empty file (inode 3) loaded at address 100; nothing is on disk yet. *)
Definition volume_super : sfs_super :=
  mkSuper SFS_MAGIC 40 (replicate 32 0) (replicate 118 0).
Definition volume_map : Bitmap.bitmap :=
  Bitmap.mkBitmap 4096 ([15; 0; 0; 0; 0] ++ replicate 507 255).
Definition volume_file : svnode := mkSv 1 1 false empty_inode 3 true.
Definition volume : fs (lhd sim) :=
  mkFs (sim_disk 40 []) volume_super true volume_map true
    (Arrays.mkArray [Some 100; None; None; None] 1 4) {[100 := volume_file]}
    (replicate 64 (mkSlot zeros (-1) (-1))) (mkEnv 0 [] [] [] 200).

Lemma volume_super_ok : super_ok volume_super.
Proof.
  constructor; cbn [volume_super sp_magic sp_nblocks sp_volname sp_reserved]; unfold SFS_MAGIC; try lia.
  - split; [done|]. apply Forall_replicate. lia.
  - split; [done|]. apply Forall_replicate. lia.
Qed.

Lemma volume_map_wf : Bitmap.wf volume_map.
Proof.
  constructor; cbn [volume_map Bitmap.nbits Bitmap.v]; [lia|done| |].
  - apply Forall_app. split; [repeat constructor; lia|]. apply Forall_replicate. lia.
  - rewrite length_app, length_replicate. cbn. lia.
Qed.

Lemma volume_ok : fs_ok volume.
Proof.
  constructor; try (cbn; lia).
  - apply sim_disk_idle. lia.
  - exact volume_map_wf.
  - intros b Hb. cbn in Hb. unfold marked, Bitmap.bit. cbn [volume sfs_freemap volume_map Bitmap.v].
    rewrite lookup_app_r by (cbn; dlia). rewrite lookup_replicate_2 by (cbn; dlia). cbn [default].
    assert (b mod 8 = 0 \/ b mod 8 = 1 \/ b mod 8 = 2 \/ b mod 8 = 3 \/ b mod 8 = 4 \/
      b mod 8 = 5 \/ b mod 8 = 6 \/ b mod 8 = 7) as Hc by dlia.
    by destruct Hc as [->|[->|[->|[->|[->|[->|[->| ->]]]]]]].
  - done.
Qed.

Lemma volume_steady : steady volume.
Proof.
  split; [..|done].
  - constructor; [apply volume_ok|apply volume_super_ok|cbn; lia|done|done].
  - constructor.
    + constructor; cbn; [lia|lia|]. right. exists 0. lia.
    + cbn. constructor; [|constructor]. exists 100, volume_file. split; [done|].
      split; [by rewrite lookup_singleton_eq|]. split; [done|]. split; [done|].
      split; [apply empty_inode_ok|]. split; [right; cbn; split; [done|lia]|]. apply not_elem_of_nil.
    + intros v w sv sw Hv Hw _. cbn in Hv, Hw. apply lookup_singleton_Some in Hv as [<- _].
      by apply lookup_singleton_Some in Hw as [<- _].
  - constructor; [done|done|]. intros v sv Hv Hd. cbn in Hv.
    apply lookup_singleton_Some in Hv as [_ <-]. done.
Qed.

Lemma volume_tabled : tabled volume.
Proof.
  intros v sv Hv. cbn in Hv. apply lookup_singleton_Some in Hv as [<- _]. cbn. by left.
Qed.

Lemma sync_mount_roundtrip_witness : exists s' m,
  sfs_sync volume = Done (0, s') /\
  sfs_domount (with_device (sfs_device s') volume) = Done (0, m) /\
  sfs_freemap m = sfs_freemap volume.
Proof.
  destruct (sync_mount_roundtrip volume volume volume_steady volume_tabled)
    as (s' & m & H1 & _ & H2 & _ & H3 & _);
    [done|done|apply volume_super_ok|constructor|done|].
  exists s', m. split; [exact H1|split; [exact H2|exact H3]].
Defined.

(** The run of the next theorem, as one computation. *)
Definition lost_write : M (fs (lhd sim)) (list Z * list Z * Z) :=
  '(r1, _) ← sfs_write 100 (kuio [7; 8; 9] 3 0 UIO_WRITE);
  '(r2, u) ← sfs_read 100 (kuio [] 3 0 UIO_READ);
  r3 ← sfs_sync;
  r4 ← (fun s => sfs_domount (with_device (sfs_device s) volume));
  v ← sfs_loadvnode 3 SFS_TYPE_INVAL;
  match v with
  | Ok v =>
      sv ← vnode v;
      '(r5, u') ← sfs_read v (kuio [] 3 0 UIO_READ);
      if (r1 =? 0) && (r2 =? 0) && (r3 =? 0) && (r4 =? 0) && (r5 =? 0)
      then mret (u_data u, u_data u', sfi_size (sv_i sv)) else mstop KPanic
  | Err _ => mstop KPanic
  end.

(** A sync does not write the block cache back, so a short write can be
    lost for good.  On a fresh volume a write of three bytes to the empty
    file succeeds, a read sees them, and [sfs_sync] succeeds; yet after a
    mount of that disk the file, whose inode says it has three bytes, reads
    as three zeros (every call of the run returns 0). *)
Theorem sync_loses_cached_write :
  exists m, lost_write volume = Done (([7; 8; 9], [0; 0; 0], 3), m).
Proof.
  assert (match lost_write volume with
          | Done (([7; 8; 9], [0; 0; 0], 3), _) => true
          | _ => false
          end = true) as H by (vm_compute; reflexivity).
  destruct (lost_write volume) as [[r m]|]; [|done]. exists m. do 2 f_equal.
  repeat match type of H with
  | match ?x with _ => _ end = true => destruct x; try done
  end.
Qed.
End SfsFs.
