(* ===== verification/SfsOps.v ===== *)
(** * kern/fs/sfs/sfs_vnode.c: the operation tables of SFS

    [VOP_xxx(vn, ...)] checks the vnode and calls the entry of its table,
    [sfs_fileops] or [sfs_dirops].  A [call] is an operation with its
    arguments, a [reply] its error code and out parameters. *)

From S2P Require Import Prelude Bitmap Arrays Uio Stream Lhd SfsDisk Sfs SfsIo SfsVnode SfsDir SfsFs.
Import Uio Stream Lhd SfsDisk Sfs SfsIo SfsVnode SfsDir SfsFs.

Module SfsOps.

(** Lemmas about the locks an operation takes and gives back. *)
Create HintDb locks.

(** The local arrays of [sfs_lookup] and [sfs_namefile] are not initialised;
    a call carries what the stack holds there. *)
Inductive call : Type :=
  | Open (flags : Z)
  | Close
  | Reclaim
  | Read (u : sio)
  | Readlink (u : sio)
  | Getdirentry (u : sio)
  | Write (u : sio)
  | Ioctl
  | Stat
  | Gettype
  | Tryseek (pos : Z)
  | Fsync
  | Mmap
  | Truncate (len : Z)
  | Namefile (u : sio) (fuel : nat) (ino : Z) (buf path temp : list Z)
  | Creat (name : list Z) (excl : bool)
  | Symlink
  | Mkdir (name : list Z)
  | Link (name : list Z) (file : Z)
  | Remove (name : list Z)
  | Rmdir (name : list Z)
  | Rename (n1 : list Z) (d2 : Z) (n2 : list Z)
  | Lookup (path subpath : list Z)
  | Lookparent (path : list Z) (buflen : Z) (subpath : list Z).

Inductive reply : Type :=
  | Code (e : Z)
  | Transfer (e : Z) (u : sio)
  | Value (r : result Z)
  | StatBuf (r : result stat)
  | Parent (r : result (Z * list Z)).

Section ops.
Context {D : Type} `{!BlockDevice D}.
Implicit Type s : fs D.

Definition coded (m : M (fs D) Z) : M (fs D) reply := e ← m; mret (Code e).
Definition transfer (m : M (fs D) (Z * sio)) : M (fs D) reply :=
  '(e, u) ← m; mret (Transfer e u).
Definition valued (m : M (fs D) (result Z)) : M (fs D) reply := r ← m; mret (Value r).

Definition sfs_fileops (v : Z) (c : call) : M (fs D) reply :=
  match c with
  | Open flags => coded (sfs_open v flags)
  | Close => coded (sfs_close v)
  | Reclaim => coded (sfs_reclaim v)
  | Read u => transfer (sfs_read v u)
  | Readlink _ => coded sfs_notdir
  | Getdirentry _ => coded sfs_notdir
  | Write u => transfer (sfs_write v u)
  | Ioctl => coded (sfs_ioctl v)
  | Stat => r ← sfs_stat v; mret (StatBuf r)
  | Gettype => valued (sfs_gettype v)
  | Tryseek pos => coded (sfs_tryseek v pos)
  | Fsync => coded (sfs_fsync v)
  | Mmap => coded (sfs_mmap v)
  | Truncate len => coded (sfs_truncate v len)
  | Namefile _ _ _ _ _ _ => coded sfs_notdir
  | Creat _ _ => coded sfs_notdir
  | Symlink => coded sfs_notdir
  | Mkdir _ => coded sfs_notdir
  | Link _ _ => coded sfs_notdir
  | Remove _ => coded sfs_notdir
  | Rmdir _ => coded sfs_notdir
  | Rename _ _ _ => coded sfs_notdir
  | Lookup _ _ => coded sfs_notdir
  | Lookparent _ _ _ => coded sfs_notdir
  end.

Definition sfs_dirops (v : Z) (c : call) : M (fs D) reply :=
  match c with
  | Open flags => coded (sfs_opendir v flags)
  | Close => coded (sfs_close v)
  | Reclaim => coded (sfs_reclaim v)
  | Read _ => coded sfs_isdir
  | Readlink _ => coded sfs_isdir
  | Getdirentry u => transfer (sfs_getdirentry v u)
  | Write _ => coded sfs_isdir
  | Ioctl => coded (sfs_ioctl v)
  | Stat => r ← sfs_stat v; mret (StatBuf r)
  | Gettype => valued (sfs_gettype v)
  | Tryseek _ => coded sfs_unimp
  | Fsync => coded (sfs_fsync v)
  | Mmap => coded sfs_isdir
  | Truncate _ => coded sfs_isdir
  | Namefile u fuel ino buf path temp => transfer (sfs_namefile fuel v u ino buf path temp)
  | Creat name excl => valued (sfs_creat v name excl)
  | Symlink => coded sfs_unimp
  | Mkdir name => coded (sfs_mkdir v name)
  | Link name file => coded (sfs_link v name file)
  | Remove name => coded (sfs_remove v name)
  | Rmdir name => coded (sfs_rmdir v name)
  | Rename n1 d2 n2 => coded (sfs_rename v n1 d2 n2)
  | Lookup path subpath => valued (sfs_lookup v path subpath)
  | Lookparent path buflen subpath => r ← sfs_lookparent v path buflen subpath; mret (Parent r)
  end.

(** [__VOP(vn, sym)]: the check, then the table entry. *)
Definition VOP (v : Z) (c : call) : M (fs D) reply :=
  _ ← vnode_check v (match c with Reclaim => true | _ => false end);
  sv ← vnode v;
  if vn_isdir sv then sfs_dirops v c else sfs_fileops v c.

(** ** Locks held across an operation

    [locks n h m n' h']: started with [vfs_biglock] held [n] times and the
    locks [h], the code [m], if it comes back, leaves [n'] and [h']. *)
Definition locks {A} (n : Z) (h : list lockid) (m : M (fs D) A) (n' : Z) (h' : list lockid) : Prop :=
  forall s a s', biglock_depth (ker s) = n -> held (ker s) = h -> m s = Done (a, s') ->
    biglock_depth (ker s') = n' /\ held (ker s') = h'.

Lemma locks_ret {A} n h (a : A) : locks n h (mret a) n h.
Proof. intros s b s' Hn Hh [= _ <-]. done. Qed.
Lemma locks_stop {A} n h f n' h' : locks n h (mstop f : M (fs D) A) n' h'.
Proof. by intros s a s' _ _ ?. Qed.
Lemma locks_bind {A B} n h (m : M (fs D) A) (k : A -> M (fs D) B) n1 h1 n2 h2 :
  locks n h m n1 h1 -> (forall a, locks n1 h1 (k a) n2 h2) -> locks n h (m ≫= k) n2 h2.
Proof.
  intros Hm Hk s b s'' Hn Hh Hr. apply bind_inv in Hr as (a & s' & Hr & Hr').
  destruct (Hm s a s' Hn Hh Hr). by apply (Hk a s' b s'').
Qed.
Lemma locks_assoc {A B C} n h (m : M (fs D) A) (k : A -> M (fs D) B) (f : B -> M (fs D) C) n2 h2 :
  locks n h (m ≫= fun a => k a ≫= f) n2 h2 -> locks n h ((m ≫= k) ≫= f) n2 h2.
Proof.
  intros Hm s c s' Hn Hh Hr. apply (Hm s c s' Hn Hh). revert Hr. mrun.
  by destruct (m s) as [[]|].
Qed.
Lemma locks_ebind {A B} n h (m : M (fs D) (result A)) (k : A -> M (fs D) (result B)) n1 h1 :
  locks n h m n1 h1 -> (forall a, locks n1 h1 (k a) n1 h1) -> locks n h (ebind m k) n1 h1.
Proof.
  intros Hm Hk. unfold ebind. eapply locks_bind; [exact Hm|]. intros [e|a]; [apply locks_ret|done].
Qed.
Lemma locks_acquire {A} n h l (k : unit -> M (fs D) A) n2 h2 :
  (l ∉ h -> locks n (l :: h) (k tt) n2 h2) -> locks n h (lock_acquire l ≫= k) n2 h2.
Proof.
  intros Hk s b s'' Hn Hh Hr. apply bind_inv in Hr as ([] & s' & Hr & Hr').
  unfold lock_acquire in Hr. revert Hr. mrun. rewrite Hh.
  destruct (bool_decide (l ∉ h)) eqn:E; [|done]. apply bool_decide_eq_true in E.
  intros [= <-]. by apply (Hk E (with_ker (with_held (l :: h) (ker s)) s) b s'').
Qed.
Lemma locks_release n h l : l ∉ h -> locks n (l :: h) (lock_release l) n h.
Proof.
  intros Hl s a s' Hn Hh [= _ <-]. cbn. split; [done|]. by rewrite Hh, filter_other.
Qed.
Lemma locks_big_acquire n h : locks n h vfs_biglock_acquire (n + 1) h.
Proof. intros s a s' <- <- [= _ <-]. done. Qed.
Lemma locks_big_release n h : locks (n + 1) h vfs_biglock_release n h.
Proof.
  intros s a s' Hn Hh. unfold vfs_biglock_release. mrun. rewrite Hn.
  destruct (0 <? n + 1); [|done]. intros [= _ <-]. cbn. split; [lia|done].
Qed.
(** Code that leaves [ker] alone. *)
Lemma locks_ker {A} n h (m : M (fs D) A) :
  (forall s a s', m s = Done (a, s') -> ker s' = ker s) -> locks n h m n h.
Proof. intros Hm s a s' Hn Hh Hr. by rewrite (Hm s a s' Hr). Qed.
Lemma locks_gets {A} n h (f : fs D -> A) : locks n h (mgets f) n h.
Proof. apply locks_ker. by intros s a s' [= _ <-]. Qed.
Lemma locks_lift {A} n h (o : outcome A) : locks n h (mlift o) n h.
Proof. apply locks_ker. intros s a s'. unfold mlift. destruct o; [by intros [= _ <-]|done]. Qed.
Lemma locks_deref {A} n h (p : option A) : locks n h (deref p : M (fs D) A) n h.
Proof. destruct p; [apply locks_ret|apply locks_stop]. Qed.
Lemma locks_device {A} n h (m : M D A) : locks n h (on_device m) n h.
Proof.
  apply locks_ker. intros s a s'. unfold on_device.
  destruct (m (sfs_device s)) as [[]|]; [by intros [= _ <-]|done].
Qed.

Lemma locks_modify n h f : (forall s, ker (f s) = ker s) -> locks n h (mmodify f) n h.
Proof. intros Hf. apply locks_ker. intros s a s' [= _ <-]. apply Hf. Qed.
Lemma locks_kassert n h b : locks n h (kassert b : M (fs D) unit) n h.
Proof. destruct b; [apply locks_ret|apply locks_stop]. Qed.
Lemma locks_vnode n h v : locks n h (vnode v) n h.
Proof.
  apply locks_ker. intros s a s'. unfold vnode. destruct (vheap s !! v); [by intros [= _ <-]|done].
Qed.
Lemma locks_kmalloc n h : locks n h kmalloc n h.
Proof. intros s a s' Hn Hh. unfold kmalloc. mrun. by intros [= _ <-]. Qed.
Lemma locks_random n h : locks n h random n h.
Proof. intros s a s' Hn Hh. unfold random. mrun. by intros [= _ <-]. Qed.
Lemma locks_new_address n h : locks n h new_address n h.
Proof. intros s a s' Hn Hh. unfold new_address. mrun. by intros [= _ <-]. Qed.

#[local] Hint Resolve locks_ret locks_stop locks_gets locks_lift locks_deref locks_device
  locks_kassert locks_vnode locks_kmalloc locks_random locks_new_address
  locks_big_acquire locks_big_release locks_release : locks.

(** Walks through a piece of code, with the lemmas of [locks] for the calls. *)
Ltac lock_step :=
  lazymatch goal with
  | |- locks _ _ (lock_acquire _ ≫= _) _ _ => apply locks_acquire; intros ?
  | |- locks _ _ (_ ≫= _) _ _ => eapply locks_bind; [|intros ?]
  | |- locks _ _ (ebind _ _) _ _ => eapply locks_ebind; [|intros ?]
  | |- locks _ _ (mmodify _) _ _ => apply locks_modify; intros ?; reflexivity
  | |- locks _ _ (put_vnode _ _) _ _ => apply locks_modify; intros ?; reflexivity
  | |- locks _ _ (match ?x with _ => _ end) _ _ => destruct x
  | |- _ => solve [eauto with locks]
  end.
Ltac lock_code := repeat lock_step.

(** Code that changes one field other than [ker]. *)
Ltac lock_prim :=
  apply locks_ker; intros ? ? ?;
  repeat match goal with
  | |- (match ?x with _ => _ end = _) -> _ => destruct x; try discriminate
  end; by intros [= _ <-].

Lemma locks_check n h (m : M (fs D) Z) n' h' : locks n h m n' h' -> locks n h (check m) n' h'.
Proof. intros Hm. unfold check. lock_code; eauto. Qed.
#[local] Hint Resolve locks_check : locks.

Lemma locks_balloc n h : locks n h sfs_balloc n h.
Proof.
  unfold sfs_balloc. lock_step; [unfold bitmap_alloc; lock_prim|].
  unfold sfs_clearblock. lock_code.
Qed.
Lemma locks_bfree n h b : locks n h (sfs_bfree b) n h.
Proof. unfold sfs_bfree. lock_prim. Qed.
Lemma locks_bused n h b : locks n h (sfs_bused b) n h.
Proof. unfold sfs_bused. lock_prim. Qed.
#[local] Hint Resolve locks_balloc locks_bfree locks_bused : locks.

Lemma locks_elt n h l i : locks n h (elt l i) n h.
Proof. unfold elt. lock_code. Qed.
Lemma locks_hand_back n h b : locks n h (hand_back b) n h.
Proof. unfold hand_back. lock_code. Qed.
#[local] Hint Resolve locks_elt locks_hand_back : locks.

Lemma locks_bmap n h v fb da : locks n h (sfs_bmap v fb da) n h.
Proof. unfold sfs_bmap, bmap_direct, bmap_indirect, bmap_idblock. lock_code. Qed.
#[local] Hint Resolve locks_bmap : locks.

Lemma locks_slot n h i : locks n h (slot i) n h.
Proof. unfold slot. lock_prim. Qed.
#[local] Hint Resolve locks_slot : locks.

Lemma locks_move_slot n h i skip len u : locks n h (move_slot i skip len u) n h.
Proof. unfold move_slot, put_slot. lock_code. Qed.
#[local] Hint Resolve locks_move_slot : locks.

Lemma locks_partial_cached n h v b skip len u : locks n h (partial_cached v b skip len u) n h.
Proof.
  unfold partial_cached, partial_hit, partial_load, partial_replace, partial_iobuf, put_slot.
  lock_code.
Qed.
#[local] Hint Resolve locks_partial_cached : locks.

Lemma locks_partialio n h v u skip len : locks n h (sfs_partialio v u skip len) n h.
Proof. unfold sfs_partialio, partial_iobuf. lock_code. Qed.
#[local] Hint Resolve locks_partialio : locks.

Lemma locks_blockio n h v u : locks n h (sfs_blockio v u) n h.
Proof. unfold sfs_blockio. lock_code. Qed.
#[local] Hint Resolve locks_blockio : locks.
Lemma locks_blockio_loop n h k v u : locks n h (blockio_loop k v u) n h.
Proof. revert u. induction k; intros u; cbn [blockio_loop]; lock_code. Qed.
#[local] Hint Resolve locks_blockio_loop : locks.
Lemma locks_io n h v u : locks n h (sfs_io v u) n h.
Proof. unfold sfs_io, io_body, io_out. lock_code. Qed.
#[local] Hint Resolve locks_io : locks.

Lemma locks_readdir n h v k : locks n h (sfs_readdir v k) n h.
Proof. unfold sfs_readdir. lock_code. Qed.
Lemma locks_writedir n h v sd k : locks n h (sfs_writedir v sd k) n h.
Proof. unfold sfs_writedir. lock_code. Qed.
Lemma locks_nentries n h v : locks n h (sfs_dir_nentries v) n h.
Proof. unfold sfs_dir_nentries. lock_code. Qed.
#[local] Hint Resolve locks_readdir locks_writedir locks_nentries : locks.

Lemma locks_findname n h v name : locks n h (sfs_dir_findname v name) n h.
Proof.
  unfold sfs_dir_findname. lock_code. generalize 0, (mkFound None None None).
  induction (Z.to_nat a); intros i f; cbn [findname_loop]; lock_code.
Qed.
#[local] Hint Resolve locks_findname : locks.
Lemma locks_dir_link n h v name ino : locks n h (sfs_dir_link v name ino) n h.
Proof. unfold sfs_dir_link. lock_code. Qed.
Lemma locks_dir_unlink n h v k : locks n h (sfs_dir_unlink v k) n h.
Proof. unfold sfs_dir_unlink. lock_code. Qed.
#[local] Hint Resolve locks_dir_link locks_dir_unlink : locks.

(** ** Vnodes *)

Lemma locks_check_vnode n h v b : locks n h (vnode_check v b) n h.
Proof. unfold vnode_check. lock_code. Qed.
Lemma locks_incref n h v : locks n h (vnode_incref v) n h.
Proof. unfold vnode_incref. lock_code. Qed.
Lemma locks_sync_inode n h v : locks n h (sfs_sync_inode v) n h.
Proof. unfold sfs_sync_inode. lock_code. Qed.
#[local] Hint Resolve locks_check_vnode locks_incref locks_sync_inode : locks.

Lemma locks_fsync n h v : locks n h (sfs_fsync v) n h.
Proof. unfold sfs_fsync. lock_code. Qed.
#[local] Hint Resolve locks_fsync : locks.

Lemma locks_trunc_direct n h k v i bl : locks n h (trunc_direct k v i bl) n h.
Proof. revert i. induction k; intros i; cbn [trunc_direct]; lock_code. Qed.
Lemma locks_trunc_entries n h l j bl : locks n h (trunc_entries l j bl) n h.
Proof. revert j. induction l; intros j; cbn [trunc_entries]; lock_code. Qed.
#[local] Hint Resolve locks_trunc_direct locks_trunc_entries : locks.
Lemma locks_truncate n h v len : locks n h (sfs_truncate v len) n h.
Proof. unfold sfs_truncate, trunc_indirect. lock_code. Qed.
#[local] Hint Resolve locks_truncate : locks.

Lemma locks_reclaim n h v : locks n h (sfs_reclaim v) n h.
Proof.
  unfold sfs_reclaim, VOP_TRUNCATE, vnode_cleanup. lock_code. unfold vnodes_remove. lock_prim.
Qed.
#[local] Hint Resolve locks_reclaim : locks.
Lemma locks_decref n h v : locks n h (vnode_decref v) n h.
Proof. unfold vnode_decref. lock_code. Qed.
#[local] Hint Resolve locks_decref : locks.

Lemma locks_find_loaded n h l ino : locks n h (find_loaded l ino) n h.
Proof. induction l; cbn [find_loaded]; lock_code. Qed.
#[local] Hint Resolve locks_find_loaded : locks.
Lemma locks_loadvnode n h ino t : locks n h (sfs_loadvnode ino t) n h.
Proof.
  unfold sfs_loadvnode, load_new, vnode_init, lock_create, vnode_cleanup. lock_code.
  unfold vnodearray_add. lock_prim.
Qed.
#[local] Hint Resolve locks_loadvnode : locks.
Lemma locks_lookonce n h v name : locks n h (sfs_lookonce v name) n h.
Proof. unfold sfs_lookonce. lock_code. Qed.
Lemma locks_makeobj n h t : locks n h (sfs_makeobj t) n h.
Proof. unfold sfs_makeobj. lock_code. Qed.
Lemma locks_add_link n h w k : locks n h (add_link w k) n h.
Proof. unfold add_link. lock_code. Qed.
#[local] Hint Resolve locks_lookonce locks_makeobj locks_add_link : locks.

(** ** Directories *)

Lemma locks_count_entries n h k v i c : locks n h (count_entries k v i c) n h.
Proof. revert i c. induction k; intros i c; cbn [count_entries]; lock_code. Qed.
#[local] Hint Resolve locks_count_entries : locks.
Lemma locks_erase n h dir w k : locks (n + 1) h (erase dir w k) n h.
Proof. unfold erase. lock_code. Qed.
#[local] Hint Resolve locks_erase : locks.
Lemma locks_rename_error n h d1 d2 g e :
  (CreateLock d1 ∉ h) -> d1 <> d2 -> (CreateLock d2 ∉ CreateLock d1 :: h) ->
  locks n (CreateLock d2 :: CreateLock d1 :: h) (rename_error d1 d2 g e) n h.
Proof.
  intros H1 Hne H2. unfold rename_error, rename_unlock. rewrite (proj2 (Z.eqb_neq _ _)) by done.
  lock_code.
Qed.
Lemma locks_rename_error_same n h d g e :
  (CreateLock d ∉ h) -> locks n (CreateLock d :: h) (rename_error d d g e) n h.
Proof. intros H1. unfold rename_error, rename_unlock. rewrite Z.eqb_refl. lock_code. Qed.
#[local] Hint Resolve locks_rename_error locks_rename_error_same : locks.

Lemma locks_rename n h d1 n1 d2 n2 : locks n h (sfs_rename d1 n1 d2 n2) n h.
Proof.
  unfold sfs_rename, rename_lock. lock_step; [lock_code|].
  lock_step; [lock_code|]. lock_step. destruct (Z.eqb_spec d1 d2) as [->|Hne].
  - unfold rename_parent, rename_finish, rename_fatal. lock_code.
  - apply locks_assoc. unfold rename_parent, rename_finish, rename_fatal. lock_code.
Qed.
#[local] Hint Resolve locks_rename : locks.

Lemma locks_string_in n h a : locks n h (string_in a) n h.
Proof. unfold string_in. lock_code. Qed.
Lemma locks_acopy n h a b : locks n h (acopy a b) n h.
Proof. unfold acopy. lock_code. Qed.
#[local] Hint Resolve locks_string_in locks_acopy : locks.
Lemma locks_acat n h a b : locks n h (acat a b) n h.
Proof. unfold acat. lock_code. Qed.
#[local] Hint Resolve locks_acat : locks.
Lemma locks_lookup_loop n h k v path sub : locks n h (lookup_loop k v path sub) n h.
Proof. revert v path sub. induction k; intros v path sub; cbn [lookup_loop]; lock_code. Qed.
#[local] Hint Resolve locks_lookup_loop : locks.
Lemma locks_lookup n h v path sub : locks n h (sfs_lookup v path sub) n h.
Proof. unfold sfs_lookup. lock_code. Qed.
#[local] Hint Resolve locks_lookup : locks.
Lemma locks_getdirentry_loop n h k v ne off u : locks n h (getdirentry_loop k v ne off u) n h.
Proof. revert off u. induction k; intros off u; cbn [getdirentry_loop]; lock_code. Qed.
#[local] Hint Resolve locks_getdirentry_loop : locks.
Lemma locks_name_from_inode n h v ino buf : locks n h (name_from_inode v ino buf) n h.
Proof.
  unfold name_from_inode. lock_code. generalize 0.
  induction (Z.to_nat a); intros i; cbn [name_from_inode_loop]; lock_code.
Qed.
#[local] Hint Resolve locks_name_from_inode : locks.
Lemma locks_namefile_loop n h k root v ino buf path temp :
  locks n h (namefile_loop k root v ino buf path temp) n h.
Proof.
  revert v ino buf path temp. induction k; intros v ino buf path temp; cbn [namefile_loop]; lock_code.
Qed.
Lemma locks_getroot n h : locks n h sfs_getroot n h.
Proof. unfold sfs_getroot. lock_code. Qed.
#[local] Hint Resolve locks_namefile_loop locks_getroot : locks.

(** A path whose parent is looked up with [vfs_biglock] left behind. *)
Definition leaks (c : call) : bool :=
  match c with
  | Lookparent path _ _ => bool_decide (split_last path <> None)
  | _ => false
  end.

Lemma locks_lookparent n h v path bl sub : split_last path = None ->
  locks n h (sfs_lookparent v path bl sub) n h.
Proof. intros E. unfold sfs_lookparent. rewrite E. lock_code. Qed.
#[local] Hint Resolve locks_lookparent : locks.

Lemma locks_fileops n h v c : locks n h (sfs_fileops v c) n h.
Proof.
  destruct c; cbn [sfs_fileops]; unfold coded, transfer, valued, sfs_open, sfs_close, sfs_read,
    sfs_write, sfs_ioctl, sfs_stat, sfs_gettype, sfs_tryseek, sfs_mmap, sfs_notdir; lock_code.
Qed.
Lemma locks_dirops n h v c : leaks c = false -> locks n h (sfs_dirops v c) n h.
Proof.
  intros Hc. destruct c; cbn [sfs_dirops]; unfold coded, transfer, valued, sfs_opendir, sfs_close,
    sfs_ioctl, sfs_stat, sfs_gettype, sfs_isdir, sfs_unimp, sfs_getdirentry, sfs_namefile,
    sfs_creat, sfs_mkdir, sfs_link, sfs_remove, sfs_rmdir; lock_code.
  apply locks_lookparent. cbn in Hc. apply bool_decide_eq_false in Hc.
  by destruct (split_last path); [destruct Hc|].
Qed.
#[local] Hint Resolve locks_fileops locks_dirops : locks.

(** ** Properties *)

(** C21: Every vnode operation of SFS gives back the locks it takes.  Whatever
    the operation, its arguments and the state, and on every error path, a
    call that comes back leaves the depth of [vfs_biglock] and the set of
    other locks held by the thread as they were; the only exception is
    [VOP_LOOKPARENT] of a path with a slash. *)
Theorem vop_lock_balance s v c r s' (Hc : leaks c = false) (Hr : VOP v c s = Done (r, s')) :
  biglock_depth (ker s') = biglock_depth (ker s) /\ held (ker s') = held (ker s).
Proof.
  assert (locks (biglock_depth (ker s)) (held (ker s)) (VOP v c)
    (biglock_depth (ker s)) (held (ker s))) as Hl by (unfold VOP; lock_code).
  by apply (Hl s r s').
Qed.

(** [sfs_lookparent] of a path with a slash in a directory never releases
    the [vfs_biglock] it has taken: whether the lookup of the directory part
    succeeds or fails, the thread comes back holding it once more than
    before. *)
Theorem lookparent_leaks_biglock s v sv path buflen sub dir name r s'
    (Hv : vheap s !! v = Some sv) (Ht : sfi_type (sv_i sv) = SFS_TYPE_DIR)
    (Hp : split_last path = Some (dir, name)) (Hl : Z.of_nat (length path) + 1 <= buflen)
    (Hr : sfs_lookparent v path buflen sub s = Done (r, s')) :
  biglock_depth (ker s') = biglock_depth (ker s) + 1 /\ held (ker s') = held (ker s).
Proof.
  revert Hr. unfold sfs_lookparent. rewrite (bind_Done _ _ _ sv s) by (unfold vnode; by rewrite Hv).
  rewrite (bind_Done _ _ _ _ _ (biglock_acquire_run s)). rewrite Ht, Hp. cbn [Z.eqb negb].
  change (SFS_TYPE_DIR =? SFS_TYPE_DIR) with true. cbn [negb].
  rewrite (proj2 (Z.ltb_ge _ _)) by lia. intros Hr.
  assert (locks (biglock_depth (ker s) + 1) (held (ker s)) (w ←? sfs_lookup v dir sub; mret (Ok (w, name)))
    (biglock_depth (ker s) + 1) (held (ker s))) as Hk by lock_code.
  by apply (Hk (locked s) r s').
Qed.
End ops.

(** ** Concrete runs *)

Lemma vop_lock_balance_witness : exists r s',
  VOP 100 (Write (kuio [7; 8; 9] 3 0 UIO_WRITE)) volume = Done (r, s') /\
  biglock_depth (ker s') = 0 /\ held (ker s') = [].
Proof.
  destruct (VOP 100 (Write (kuio [7; 8; 9] 3 0 UIO_WRITE)) volume) as [[r s']|f] eqn:E.
  - exists r, s'. split; [reflexivity|].
    apply (vop_lock_balance volume 100 (Write (kuio [7; 8; 9] 3 0 UIO_WRITE)) r s' eq_refl E).
  - exfalso. assert (match VOP 100 (Write (kuio [7; 8; 9] 3 0 UIO_WRITE)) volume with
                     | Done _ => true | Stop _ => false end = true) as H by (vm_compute; reflexivity).
    by rewrite E in H.
Defined.

(** The volume with an empty directory in place of the file. *)
Definition volume_dir : svnode := mkSv 1 0 true (set_type SFS_TYPE_DIR empty_inode) 3 false.
Definition dir_volume : fs (lhd sim) := with_vheap {[100 := volume_dir]} volume.

(** The path a/b *)
Lemma lookparent_leaks_biglock_witness : exists r s',
  sfs_lookparent 100 [97; 47; 98] 20 [] dir_volume = Done (r, s') /\ biglock_depth (ker s') = 1.
Proof.
  destruct (sfs_lookparent 100 [97; 47; 98] 20 [] dir_volume) as [[r s']|f] eqn:E.
  - exists r, s'. split; [reflexivity|].
    apply (lookparent_leaks_biglock dir_volume 100 volume_dir [97; 47; 98] 20 [] [97] [98] r s');
      [reflexivity|reflexivity|reflexivity|cbn; lia|exact E].
  - exfalso. assert (match sfs_lookparent 100 [97; 47; 98] 20 [] dir_volume with
                     | Done _ => true | Stop _ => false end = true) as H by (vm_compute; reflexivity).
    by rewrite E in H.
Defined.
End SfsOps.
