(* ===== verification/Synch.v ===== *)
(** * kern/thread/synch.c: semaphores, locks, condition variables, rw locks

    The primitives as code that several threads run at the same time.  A
    function is the list of its atomic actions in program order; a step of the
    machine is one action of one thread, and any thread may go next.  A thread
    that waits for a spinlock, or sleeps on a wait channel, has no step.  Wait
    channels (kern/thread/thread.c) and spinlocks (kern/thread/spinlock.c) are
    modelled by the actions they consist of.

    Waking a thread makes it runnable at once; when it runs is up to the
    interleaving, so the delay between [threadlist_remhead] and
    [thread_make_runnable] is covered.  Creating and destroying the objects,
    and the checks for null pointers, are not modelled: an object is a
    number. *)

From S2P Require Import Prelude.

Module Synch.

Abbreviation tid := nat (only parsing).

Inductive chan : Set :=
  | SemChan (x : Z)   (** [sem_wchan] *)
  | LockChan (x : Z)  (** [lk_wchan] *)
  | CvChan (x : Z)    (** [cv_wchan] *)
  | RdChan (x : Z)    (** [rd_wchan] *)
  | WrChan (x : Z).   (** [wr_wchan] *)
#[export] Instance chan_eq_dec : EqDecision chan.
Proof. solve_decision. Defined.

Inductive spin : Set :=
  | SemSpin (x : Z)      (** [sem_lock] *)
  | LockSpin (x : Z)     (** [lk_lock] *)
  | ChanSpin (w : chan). (** [wc_lock] *)
#[export] Instance spin_eq_dec : EqDecision spin.
Proof. solve_decision. Defined.

Inductive mode : Set := READ | WRITE.
#[export] Instance mode_eq_dec : EqDecision mode.
Proof. solve_decision. Defined.

(** What the threads share. *)
Record shared : Type := mkShared {
  spins : spin -> option tid;
  sleepers : chan -> list tid;
  sem_count : Z -> Z;
  lk_owner : Z -> option tid;
  rw_count : Z -> Z;
}.

(** Conditions the code tests. *)
Inductive cond : Set :=
  | NotInInterrupt          (** [curthread->t_in_interrupt == false] *)
  | SemZero (x : Z)         (** [sem->sem_count == 0] *)
  | SemPos (x : Z)          (** [sem->sem_count > 0] *)
  | Owned (x : Z)           (** [lock->lk_owner != NULL] *)
  | NotOwned (x : Z)        (** [lock->lk_owner == NULL] *)
  | IHold (x : Z)           (** [lock_do_i_hold(lock)] *)
  | NotIHold (x : Z)
  | RwBusy (x : Z)          (** [rw->count != 0] *)
  | RwZero (x : Z)          (** [rw->count == 0] *)
  | MoreWriters (x : Z)     (** [tl_count] of [wr_wchan] > of [rd_wchan] *)
  | FewerWriters (x : Z).
#[export] Instance cond_eq_dec : EqDecision cond.
Proof. solve_decision. Defined.

Inductive instr : Set :=
  | Acquire (l : spin)
  | Release (l : spin)
  | Sleep (w : chan)
  | Pop (w : chan)
  | PopAll (w : chan)
  | Assert (c : cond)
  | SemAdd (x d : Z)
  | SetOwner (x : Z)
  | ClearOwner (x : Z)
  | RwAdd (x d : Z)
  | While (c : cond) (b : list instr)
  | If (c : cond) (a b : list instr).

(** ** The functions *)

Definition wchan_lock (w : chan) : list instr := [Acquire (ChanSpin w)].
Definition wchan_sleep (w : chan) : list instr := [Assert NotInInterrupt; Sleep w].
Definition wchan_wakeone (w : chan) : list instr :=
  [Acquire (ChanSpin w); Pop w; Release (ChanSpin w)].
Definition wchan_wakeall (w : chan) : list instr :=
  [Acquire (ChanSpin w); PopAll w; Release (ChanSpin w)].

Definition sem_P (x : Z) : list instr :=
  [Assert NotInInterrupt;
   Acquire (SemSpin x);
   While (SemZero x)
     (wchan_lock (SemChan x) ++ [Release (SemSpin x)] ++
      wchan_sleep (SemChan x) ++ [Acquire (SemSpin x)]);
   Assert (SemPos x);
   SemAdd x (-1);
   Release (SemSpin x)].
Definition sem_V (x : Z) : list instr :=
  [Acquire (SemSpin x);
   SemAdd x 1;
   Assert (SemPos x)] ++
  wchan_wakeone (SemChan x) ++
  [Release (SemSpin x)].

Definition lock_acquire (x : Z) : list instr :=
  [Assert NotInInterrupt;
   Acquire (LockSpin x);
   Assert (NotIHold x);
   While (Owned x)
     (wchan_lock (LockChan x) ++ [Release (LockSpin x)] ++
      wchan_sleep (LockChan x) ++ [Acquire (LockSpin x)]);
   Assert (NotOwned x);
   SetOwner x;
   Release (LockSpin x)].
Definition lock_release (x : Z) : list instr :=
  [Acquire (LockSpin x);
   ClearOwner x] ++
  wchan_wakeone (LockChan x) ++
  [Release (LockSpin x)].

Definition cv_wait (c x : Z) : list instr :=
  lock_release x ++ wchan_lock (CvChan c) ++ wchan_sleep (CvChan c) ++ lock_acquire x.
Definition cv_signal (c x : Z) : list instr :=
  Assert (IHold x) :: wchan_wakeone (CvChan c).
Definition cv_broadcast (c x : Z) : list instr :=
  Assert (IHold x) :: wchan_wakeall (CvChan c).

Definition rw_acquire (r x : Z) (m : mode) : list instr :=
  match m with
  | READ =>
      lock_acquire x ++
      [If (MoreWriters r)
         (wchan_lock (RdChan r) ++ lock_release x ++ wchan_sleep (RdChan r) ++ lock_acquire x) [];
       RwAdd r 1] ++
      lock_release x
  | WRITE =>
      lock_acquire x ++
      [If (RwBusy r)
         (wchan_lock (WrChan r) ++ lock_release x ++ wchan_sleep (WrChan r) ++ lock_acquire x) []]
  end.
Definition rw_release (r x : Z) (m : mode) : list instr :=
  match m with
  | READ =>
      lock_acquire x ++
      [RwAdd r (-1); If (RwZero r) (wchan_wakeone (WrChan r)) []] ++
      lock_release x
  | WRITE =>
      [If (FewerWriters r) (wchan_wakeall (RdChan r)) (wchan_wakeone (WrChan r))] ++
      lock_release x
  end.

(** A call of one of the functions. *)
Inductive call : Set :=
  | CallP (x : Z)
  | CallV (x : Z)
  | CallAcquire (x : Z)
  | CallRelease (x : Z)
  | CallWait (c x : Z)
  | CallSignal (c x : Z)
  | CallBroadcast (c x : Z)
  | CallRwAcquire (r x : Z) (m : mode)
  | CallRwRelease (r x : Z) (m : mode).
#[export] Instance call_eq_dec : EqDecision call.
Proof. solve_decision. Defined.

Definition body (c : call) : list instr :=
  match c with
  | CallP x => sem_P x
  | CallV x => sem_V x
  | CallAcquire x => lock_acquire x
  | CallRelease x => lock_release x
  | CallWait c x => cv_wait c x
  | CallSignal c x => cv_signal c x
  | CallBroadcast c x => cv_broadcast c x
  | CallRwAcquire r x m => rw_acquire r x m
  | CallRwRelease r x m => rw_release r x m
  end.

(** ** The machine *)

(** A thread: the channel it sleeps on, the call it is in with what is left of
    its code, the calls it has yet to make and those it has returned from. *)
Record thread : Type := mkThread {
  t_in_interrupt : bool;
  t_wchan : option chan;
  t_cur : option (call * list instr);
  t_todo : list call;
  t_past : list call;
}.

(** [failed]: an assertion has failed, or [panic] was called. *)
Record state : Type := mkState {
  sh : shared;
  threads : list thread;
  failed : bool;
}.

Definition upd {K V} `{EqDecision K} (f : K -> V) (k : K) (v : V) : K -> V :=
  fun j => if decide (j = k) then v else f j.

Definition set_spin (l : spin) (o : option tid) (s : shared) : shared :=
  mkShared (upd (spins s) l o) (sleepers s) (sem_count s) (lk_owner s) (rw_count s).
Definition set_sleepers (w : chan) (l : list tid) (s : shared) : shared :=
  mkShared (spins s) (upd (sleepers s) w l) (sem_count s) (lk_owner s) (rw_count s).
Definition set_sem (x n : Z) (s : shared) : shared :=
  mkShared (spins s) (sleepers s) (upd (sem_count s) x n) (lk_owner s) (rw_count s).
Definition set_owner (x : Z) (o : option tid) (s : shared) : shared :=
  mkShared (spins s) (sleepers s) (sem_count s) (upd (lk_owner s) x o) (rw_count s).
Definition set_rw (x n : Z) (s : shared) : shared :=
  mkShared (spins s) (sleepers s) (sem_count s) (lk_owner s) (upd (rw_count s) x n).

Definition eval (t : tid) (intr : bool) (s : shared) (c : cond) : bool :=
  match c with
  | NotInInterrupt => negb intr
  | SemZero x => sem_count s x =? 0
  | SemPos x => 0 <? sem_count s x
  | Owned x => bool_decide (lk_owner s x <> None)
  | NotOwned x => bool_decide (lk_owner s x = None)
  | IHold x => bool_decide (lk_owner s x = Some t)
  | NotIHold x => bool_decide (lk_owner s x <> Some t)
  | RwBusy x => negb (rw_count s x =? 0)
  | RwZero x => rw_count s x =? 0
  | MoreWriters x => (length (sleepers s (RdChan x)) <? length (sleepers s (WrChan x)))%nat
  | FewerWriters x => (length (sleepers s (WrChan x)) <? length (sleepers s (RdChan x)))%nat
  end.

(** The effect of an action: wait, stop the machine, go on with the given
    code, go to sleep on a channel, or wake threads. *)
Inductive effect : Type :=
  | Spinning
  | Failing
  | Next (s : shared) (k : list instr)
  | Sleeping (s : shared) (w : chan)
  | Waking (s : shared) (ts : list tid).

(** One action of thread [t]; [k] is the code that follows it. *)
Definition act (t : tid) (intr : bool) (i : instr) (k : list instr) (s : shared) : effect :=
  match i with
  | Acquire l =>
      match spins s l with
      | None => Next (set_spin l (Some t) s) k
      | Some t' => if decide (t' = t) then Failing else Spinning
      end
  | Release l =>
      if decide (spins s l = Some t) then Next (set_spin l None s) k else Failing
  | Sleep w =>
      if decide (spins s (ChanSpin w) = Some t)
      then Sleeping (set_spin (ChanSpin w) None (set_sleepers w (sleepers s w ++ [t]) s)) w
      else Failing
  | Pop w =>
      match sleepers s w with
      | [] => Next s k
      | t' :: r => Waking (set_sleepers w r s) [t']
      end
  | PopAll w => Waking (set_sleepers w [] s) (sleepers s w)
  | Assert c => if eval t intr s c then Next s k else Failing
  | SemAdd x d => Next (set_sem x (s32 (sem_count s x + d)) s) k
  | SetOwner x => Next (set_owner x (Some t) s) k
  | ClearOwner x => Next (set_owner x None s) k
  | RwAdd x d => Next (set_rw x (s32 (rw_count s x + d)) s) k
  | While c b => if eval t intr s c then Next s (b ++ While c b :: k) else Next s k
  | If c a b => Next s ((if eval t intr s c then a else b) ++ k)
  end.

Definition with_cur (o : option (call * list instr)) (thr : thread) : thread :=
  mkThread (t_in_interrupt thr) (t_wchan thr) o (t_todo thr) (t_past thr).
Definition with_wchan (o : option chan) (thr : thread) : thread :=
  mkThread (t_in_interrupt thr) o (t_cur thr) (t_todo thr) (t_past thr).

Definition wake (ts : list tid) (l : list thread) : list thread :=
  imap (fun t thr => if decide (t ∈ ts) then with_wchan None thr else thr) l.

(** One step of thread [t], if it can make one. *)
Definition step (t : tid) (st : state) : option state :=
  if failed st then None
  else
    thr ← threads st !! t;
    match t_wchan thr, t_cur thr with
    | Some _, _ => None
    | None, None =>
        match t_todo thr with
        | [] => None
        | c :: r => Some (mkState (sh st)
            (<[t := mkThread (t_in_interrupt thr) None (Some (c, body c)) r (t_past thr)]> (threads st)) false)
        end
    | None, Some (c, []) => Some (mkState (sh st)
            (<[t := mkThread (t_in_interrupt thr) None None (t_todo thr) (t_past thr ++ [c])]> (threads st)) false)
    | None, Some (c, i :: k) =>
        match act t (t_in_interrupt thr) i k (sh st) with
        | Spinning => None
        | Failing => Some (mkState (sh st) (threads st) true)
        | Next s k' => Some (mkState s (<[t := with_cur (Some (c, k')) thr]> (threads st)) false)
        | Sleeping s w =>
            Some (mkState s (<[t := with_wchan (Some w) (with_cur (Some (c, k)) thr)]> (threads st)) false)
        | Waking s ts =>
            Some (mkState s (wake ts (<[t := with_cur (Some (c, k)) thr]> (threads st))) false)
        end
    end.

(** The states that some interleaving reaches. *)
Inductive reachable (s0 : state) : state -> Prop :=
  | reach_start : reachable s0 s0
  | reach_step s t s' : reachable s0 s -> step t s = Some s' -> reachable s0 s'.

(** No lock is taken and every thread is about to make its first call. *)
Definition boot (sems : Z -> Z) (progs : list (list call)) : state :=
  mkState (mkShared (fun _ => None) (fun _ => []) sems (fun _ => None) (fun _ => 0))
    ((fun p => mkThread false None None p []) <$> progs) false.

(** A given interleaving. *)
Fixpoint run (sched : list tid) (st : state) : option state :=
  match sched with
  | [] => Some st
  | t :: r => st' ← step t st; run r st'
  end.

Lemma run_reachable s0 sched st st' : reachable s0 st -> run sched st = Some st' -> reachable s0 st'.
Proof.
  revert st. induction sched as [|t r IH]; intros st Hr; cbn [run]; [by intros [= <-]|].
  destruct (step t st) as [st1|] eqn:E; [|done]. cbn. apply IH. by eapply reach_step.
Qed.

(** ** What one step does *)

Lemma wake_lookup ts l t thr : wake ts l !! t = Some thr ->
  exists thr0, l !! t = Some thr0 /\ (thr = thr0 \/ thr = with_wchan None thr0 /\ t ∈ ts).
Proof.
  unfold wake. rewrite list_lookup_imap. destruct (l !! t) as [thr0|]; [|done]. cbn.
  intros [= <-]. exists thr0. split; [done|]. destruct (decide (t ∈ ts)); auto.
Qed.

(** ** Tracking one lock *)

(** What is known of lock [x] at a point of a thread's code: whether the
    thread owns it, whether it holds [lk_lock], and whether the lock is free. *)
Record abs : Type := mkAbs { a_own : bool; a_spin : bool; a_free : bool }.
#[export] Instance abs_eq_dec : EqDecision abs.
Proof. solve_decision. Defined.

Section locks.
Variable x : Z.

Definition is_lock (l : spin) : bool := bool_decide (l = LockSpin x).

(** The effect of an action on this knowledge; [None] if the action needs what
    is not known. *)
Fixpoint ai (i : instr) (a : abs) {struct i} : option abs :=
  let seq := fix seq (l : list instr) (a : abs) : option abs :=
    match l with
    | [] => Some a
    | j :: r => match ai j a with Some a' => seq r a' | None => None end
    end in
  match i with
  | Acquire l =>
      if is_lock l then if a_spin a then None else Some (mkAbs (a_own a) true false) else Some a
  | Release l =>
      if is_lock l then if a_spin a then Some (mkAbs (a_own a) false false) else None else Some a
  | Assert c =>
      if bool_decide (c = NotOwned x) && a_spin a then Some (mkAbs (a_own a) true true) else Some a
  | SetOwner y =>
      if y =? x then if a_spin a && a_free a && negb (a_own a) then Some (mkAbs true true false) else None
      else Some a
  | ClearOwner y =>
      if y =? x then if a_spin a && a_own a then Some (mkAbs false true false) else None
      else Some a
  | While _ b =>
      match seq b a with
      | Some a' => if decide (a' = a) then Some a else None
      | None => None
      end
  | If _ p q =>
      match seq p a, seq q a with
      | Some a1, Some a2 => if decide (a1 = a2) then Some a1 else None
      | _, _ => None
      end
  | _ => Some a
  end.
Fixpoint ais (l : list instr) (a : abs) : option abs :=
  match l with
  | [] => Some a
  | j :: r => match ai j a with Some a' => ais r a' | None => None end
  end.

Lemma ai_while c b a : ai (While c b) a =
  match ais b a with Some a' => if decide (a' = a) then Some a else None | None => None end.
Proof. reflexivity. Qed.
Lemma ai_if c p q a : ai (If c p q) a =
  match ais p a, ais q a with
  | Some a1, Some a2 => if decide (a1 = a2) then Some a1 else None
  | _, _ => None
  end.
Proof. reflexivity. Qed.
Lemma ais_app l1 l2 a : ais (l1 ++ l2) a = match ais l1 a with Some a' => ais l2 a' | None => None end.
Proof. revert a. induction l1 as [|i r IH]; intros a; [done|]. cbn [app ais]. destruct (ai i a); auto. Qed.

(** The knowledge is true of the state. *)
Record knows (t : tid) (s : shared) (a : abs) : Prop := mkKnows {
  kn_own : a_own a = bool_decide (lk_owner s x = Some t);
  kn_spin : a_spin a = bool_decide (spins s (LockSpin x) = Some t);
  kn_free : a_free a = true -> a_spin a = true /\ lk_owner s x = None;
}.

(** Thread [t] changes lock [x] only as its holder may. *)
Definition polite (t : tid) (s s' : shared) : Prop :=
  (spins s' (LockSpin x) = spins s (LockSpin x) \/
   (spins s (LockSpin x) = None /\ spins s' (LockSpin x) = Some t) \/
   (spins s (LockSpin x) = Some t /\ spins s' (LockSpin x) = None)) /\
  (lk_owner s' x = lk_owner s x \/
   (spins s (LockSpin x) = Some t /\
    ((lk_owner s x = None /\ lk_owner s' x = Some t) \/
     (lk_owner s x = Some t /\ lk_owner s' x = None)))).

Lemma polite_knows t t' s s' a : polite t s s' -> t' <> t -> knows t' s a -> knows t' s' a.
Proof.
  intros [H1 H2] Hne [K1 K2 K3]. constructor.
  - rewrite K1. apply bool_decide_ext. destruct H2 as [->|(_ & [[-> ->]|[-> ->]])]; naive_solver.
  - rewrite K2. apply bool_decide_ext. destruct H1 as [->|[[-> ->]|[-> ->]]]; naive_solver.
  - intros Hf. destruct (K3 Hf) as [Hs Ho]. split; [done|]. rewrite Hs in K2.
    symmetry in K2. apply bool_decide_eq_true in K2. destruct H2 as [->|(E & _)]; [done|]. congruence.
Qed.
Lemma polite_same t s s' : spins s' (LockSpin x) = spins s (LockSpin x) -> lk_owner s' x = lk_owner s x ->
  polite t s s'.
Proof. intros. split; by left. Qed.
Lemma knows_same t s s' a : spins s' (LockSpin x) = spins s (LockSpin x) -> lk_owner s' x = lk_owner s x ->
  knows t s a -> knows t s' a.
Proof. intros H1 H2 [K1 K2 K3]. constructor; by rewrite ?H1, ?H2. Qed.
(** One action of a thread that follows the tracking. *)
Definition after_act (e : effect) (k : list instr) : option (shared * list instr) :=
  match e with
  | Next s k' => Some (s, k')
  | Sleeping s _ | Waking s _ => Some (s, k)
  | _ => None
  end.

Lemma upd_eq {K V} `{EqDecision K} (f : K -> V) k v : upd f k v k = v.
Proof. unfold upd. by rewrite decide_True. Qed.
Lemma upd_ne {K V} `{EqDecision K} (f : K -> V) k v j : j <> k -> upd f k v j = f j.
Proof. intros. unfold upd. by rewrite decide_False. Qed.

Lemma act_acquire t intr s a l k s' a1 : knows t s a -> ai (Acquire l) a = Some a1 ->
  act t intr (Acquire l) k s = Next s' k -> knows t s' a1 /\ polite t s s'.
Proof.
  intros Hk. cbn. destruct (spins s l) as [t'|] eqn:El; [by destruct (decide _)|].
  intros Ha [= <-]. unfold is_lock in Ha. destruct (bool_decide_reflect (l = LockSpin x)) as [->|Hne].
  - destruct (a_spin a) eqn:Es; [done|]. injection Ha as <-. destruct Hk as [K1 K2 K3]. split.
    + constructor; cbn; [done|by rewrite upd_eq, bool_decide_true|done].
    + split; [|by left]. right. left. cbn. by rewrite upd_eq.
  - injection Ha as <-. assert (LockSpin x <> l) by done.
    split; [apply (knows_same t s)|apply polite_same]; cbn; rewrite ?upd_ne by done; done.
Qed.

Lemma act_release t intr s a l k s' a1 : knows t s a -> ai (Release l) a = Some a1 ->
  act t intr (Release l) k s = Next s' k -> knows t s' a1 /\ polite t s s'.
Proof.
  intros Hk. cbn. destruct (decide (spins s l = Some t)) as [El|]; [|done].
  intros Ha [= <-]. unfold is_lock in Ha. destruct (bool_decide_reflect (l = LockSpin x)) as [->|Hne].
  - destruct (a_spin a) eqn:Es; [|done]. injection Ha as <-. destruct Hk as [K1 K2 K3]. split.
    + constructor; cbn; [done|by rewrite upd_eq, bool_decide_false|done].
    + split; [|by left]. right. right. cbn. by rewrite upd_eq.
  - injection Ha as <-. assert (LockSpin x <> l) by done.
    split; [apply (knows_same t s)|apply polite_same]; cbn; rewrite ?upd_ne by done; done.
Qed.

Lemma act_owner t s a i a1 s' : knows t s a -> ai i a = Some a1 ->
  (exists y, i = SetOwner y /\ s' = set_owner y (Some t) s \/ i = ClearOwner y /\ s' = set_owner y None s) ->
  knows t s' a1 /\ polite t s s'.
Proof.
  intros [K1 K2 K3] Ha (y & Hi). destruct (Z.eqb_spec y x) as [->|Hne].
  - destruct Hi as [[-> ->]|[-> ->]]; cbn in Ha; rewrite Z.eqb_refl in Ha.
    + destruct (a_spin a) eqn:Es, (a_free a) eqn:Ef, (a_own a) eqn:Eo; try done.
      cbn in Ha. injection Ha as <-. destruct (K3 eq_refl) as [_ Hn]. split.
      * constructor; cbn; [by rewrite upd_eq, bool_decide_true|done|done].
      * split; [by left|]. right. symmetry in K2. apply bool_decide_eq_true in K2. split; [done|].
        left. cbn. by rewrite upd_eq.
    + destruct (a_spin a) eqn:Es, (a_own a) eqn:Eo; try done.
      cbn in Ha. injection Ha as <-. symmetry in K1, K2. apply bool_decide_eq_true in K1, K2. split.
      * constructor; cbn; [by rewrite upd_eq, bool_decide_false|by rewrite bool_decide_true|done].
      * split; [by left|]. right. split; [done|]. right. cbn. by rewrite upd_eq.
  - assert (a1 = a) as ->.
    { destruct Hi as [[-> _]|[-> _]]; cbn in Ha; rewrite (proj2 (Z.eqb_neq _ _) Hne) in Ha; congruence. }
    assert (lk_owner s' x = lk_owner s x) as Eo.
    { destruct Hi as [[_ ->]|[_ ->]]; cbn; by rewrite upd_ne by done. }
    assert (spins s' (LockSpin x) = spins s (LockSpin x)) as Esp by (by destruct Hi as [[_ ->]|[_ ->]]).
    split; [by apply (knows_same t s)|by apply polite_same].
Qed.

Lemma act_tracks t intr i k s s' k' a a' r : knows t s a -> ais (i :: k ++ r) a = Some a' ->
  after_act (act t intr i k s) k = Some (s', k') ->
  exists a1, knows t s' a1 /\ ais (k' ++ r) a1 = Some a' /\ polite t s s'.
Proof.
  intros Hk Ha. cbn [ais] in Ha. destruct (ai i a) as [a1|] eqn:Ei; [|done].
  assert (forall s1, spins s1 (LockSpin x) = spins s (LockSpin x) -> lk_owner s1 x = lk_owner s x ->
    a1 = a -> exists a2, knows t s1 a2 /\ ais (k ++ r) a2 = Some a' /\ polite t s s1) as Hsame.
  { intros s1 H1 H2 ->. exists a. split; [by apply (knows_same t s)|]. split; [done|by apply polite_same]. }
  destruct i as [l|l|w|w|w|c|y d|y|y|y d|c b|c p q]; cbn [act after_act]; intros Hact.
  - destruct (act t intr (Acquire l) k s) as [| |s1 k1| |] eqn:Eact; cbn in Eact;
      destruct (spins s l) eqn:El; try (by destruct (decide _)); try done.
    injection Eact as <- <-. cbn in Hact. injection Hact as <- <-.
    exists a1. destruct (act_acquire t intr s a l k (set_spin l (Some t) s) a1 Hk Ei); [by cbn; rewrite El|done].
  - destruct (decide (spins s l = Some t)) as [El|]; [|done]. cbn in Hact. injection Hact as <- <-.
    exists a1. destruct (act_release t intr s a l k (set_spin l None s) a1 Hk Ei); [by cbn; rewrite decide_True|done].
  - destruct (decide _); [|done]. cbn in Hact. injection Hact as <- <-. apply Hsame; [done|done|].
    cbn in Ei. congruence.
  - destruct (sleepers s w); cbn in Hact; injection Hact as <- <-; (apply Hsame; [done|done|cbn in Ei; congruence]).
  - injection Hact as <- <-. apply Hsame; [done|done|cbn in Ei; congruence].
  - destruct (eval t intr s c) eqn:Ec; [|done]. cbn in Hact. injection Hact as <- <-. cbn in Ei.
    destruct (bool_decide_reflect (c = NotOwned x)) as [->|]; cbn [andb] in Ei.
    + destruct (a_spin a) eqn:Es; [|apply Hsame; [done|done|congruence]].
      injection Ei as <-. cbn in Ec. apply bool_decide_eq_true in Ec.
      eexists. split; [|split; [done|by apply polite_same]]. destruct Hk. by constructor; rewrite <- ?Es.
    + apply Hsame; [done|done|congruence].
  - injection Hact as <- <-. apply Hsame; [done|done|cbn in Ei; congruence].
  - injection Hact as <- <-. exists a1. destruct (act_owner t s a (SetOwner y) a1 (set_owner y (Some t) s)); eauto.
  - injection Hact as <- <-. exists a1. destruct (act_owner t s a (ClearOwner y) a1 (set_owner y None s)); eauto.
  - injection Hact as <- <-. apply Hsame; [done|done|cbn in Ei; congruence].
  - rewrite ai_while in Ei. destruct (ais b a) as [a2|] eqn:Eb; [|done].
    destruct (decide (a2 = a)) as [->|]; [|done]. injection Ei as <-.
    destruct (eval t intr s c); cbn in Hact; injection Hact as <- <-; [|by apply Hsame].
    exists a. split; [done|]. split; [|by apply polite_same].
    rewrite <- app_assoc, ais_app, Eb. cbn [app ais]. rewrite ai_while, Eb, decide_True by done. done.
  - rewrite ai_if in Ei. destruct (ais p a) as [a2|] eqn:Ep; [|done].
    destruct (ais q a) as [a3|] eqn:Eq; [|done]. destruct (decide (a2 = a3)) as [->|]; [|done].
    injection Ei as <-. cbn in Hact. injection Hact as <- <-.
    exists a. split; [done|]. split; [|by apply polite_same].
    rewrite <- app_assoc, ais_app. destruct (eval t intr s c); [by rewrite Ep|by rewrite Eq].
Qed.

(** Code that has nothing to do with lock [x]. *)
Fixpoint quiet (i : instr) : bool :=
  match i with
  | Acquire l | Release l => negb (is_lock l)
  | Assert c => negb (bool_decide (c = NotOwned x))
  | SetOwner y | ClearOwner y => negb (y =? x)
  | While _ b => forallb quiet b
  | If _ p q => forallb quiet p && forallb quiet q
  | _ => true
  end.

Lemma quiet_ais l a : Forall (fun i => quiet i = true -> ai i a = Some a) l ->
  forallb quiet l = true -> ais l a = Some a.
Proof.
  induction 1 as [|i r Hi _ IH]; [done|]. cbn. intros [H1 H2]%andb_true_iff. by rewrite Hi, IH.
Qed.
Lemma quiet_ai a : forall i, quiet i = true -> ai i a = Some a.
Proof.
  fix IH 1. intros i. assert (forall l, Forall (fun i => quiet i = true -> ai i a = Some a) l) as Hall.
  { induction l as [|j r Hr]; constructor; [apply IH|done]. }
  clear IH. destruct i as [l|l|w|w|w|c|y d|y|y|y d|c b|c p q]; cbn [quiet ai]; try done.
  - by destruct (is_lock l).
  - by destruct (is_lock l).
  - by destruct (bool_decide _).
  - by destruct (y =? x).
  - by destruct (y =? x).
  - intros H. fold (ais b a). rewrite (quiet_ais b a (Hall b) H). by rewrite decide_True.
  - intros [H1 H2]%andb_true_iff. fold (ais p a) (ais q a).
    rewrite (quiet_ais p a (Hall p) H1), (quiet_ais q a (Hall q) H2). by rewrite decide_True.
Qed.

Lemma quiet_all l a : forallb quiet l = true -> ais l a = Some a.
Proof. apply quiet_ais. apply Forall_forall. intros i _. apply quiet_ai. Qed.

Lemma act_quiet t intr i k s s' k' : forallb quiet (i :: k) = true ->
  after_act (act t intr i k s) k = Some (s', k') -> forallb quiet k' = true.
Proof.
  cbn [forallb]. intros [Hi Hk]%andb_true_iff.
  assert (forall e, (forall s1 k1, e = Next s1 k1 -> forallb quiet k1 = true) ->
    after_act e k = Some (s', k') -> forallb quiet k' = true) as Hgen.
  { intros e He. destruct e as [| |s1 k1|s1 w1|s1 w1]; cbn; intros E; try done.
    - injection E as <- <-. by eapply He.
    - by injection E as <- <-.
    - by injection E as <- <-. }
  apply Hgen. intros s1 k1. destruct i as [l|l|w|w|w|c|y d|y|y|y d|c b|c p q]; cbn [act quiet] in *.
  - destruct (spins s l); [by destruct (decide _)|]. by intros [= <- <-].
  - destruct (decide _); [by intros [= <- <-]|done].
  - by destruct (decide _).
  - destruct (sleepers s w); [by intros [= <- <-]|done].
  - done.
  - destruct (eval _ _ _ _); [by intros [= <- <-]|done].
  - by intros [= <- <-].
  - by intros [= <- <-].
  - by intros [= <- <-].
  - by intros [= <- <-].
  - destruct (eval _ _ _ _); intros [= <- <-]; [|done]. rewrite forallb_app. cbn. by rewrite Hi, Hk.
  - intros [= <- <-]. rewrite forallb_app, Hk. apply andb_true_iff in Hi as [H1 H2].
    by destruct (eval _ _ _ _); rewrite ?H1, ?H2.
Qed.

(** ** The discipline of the callers *)

Definition uses (c : call) : bool :=
  match c with
  | CallAcquire y | CallRelease y | CallWait _ y
  | CallRwAcquire _ y _ | CallRwRelease _ y _ => y =? x
  | _ => false
  end.

(** A thread that holds lock [x] or not ([b]) may make the call; whether it
    holds the lock afterwards. *)
Definition call_held (c : call) (b : bool) : option bool :=
  if uses c then
    match c with
    | CallAcquire _ | CallRwAcquire _ _ WRITE => if b then None else Some true
    | CallRelease _ | CallRwRelease _ _ WRITE => if b then Some false else None
    | CallWait _ _ => if b then Some true else None
    | CallRwAcquire _ _ READ | CallRwRelease _ _ READ => if b then None else Some false
    | _ => Some b
    end
  else Some b.
Fixpoint calls_held (l : list call) (b : bool) : option bool :=
  match l with
  | [] => Some b
  | c :: r => b' ← call_held c b; calls_held r b'
  end.

Definition settled (b : bool) : abs := mkAbs b false false.

Lemma body_quiet c : uses c = false -> forallb quiet (body c) = true.
Proof.
  destruct c as [y|y|y|y|c y|c y|c y|r y m|r y m]; cbn [uses]; intros E; try done;
    assert (y <> x) as Hne by (intros ->; by rewrite Z.eqb_refl in E);
    assert (is_lock (LockSpin y) = false) as Hl by (apply bool_decide_false; congruence);
    assert (bool_decide (NotOwned y = NotOwned x) = false) as Ho by (apply bool_decide_false; congruence).
  - cbn. by rewrite E, Hl, Ho.
  - cbn. by rewrite E, Hl.
  - cbn. by rewrite E, Hl, Ho.
  - destruct m; cbn; by rewrite E, Hl, Ho.
  - destruct m; cbn; by rewrite E, Hl, ?Ho.
Qed.

Lemma body_held c b b' : call_held c b = Some b' -> ais (body c) (settled b) = Some (settled b').
Proof.
  unfold call_held. destruct (uses c) eqn:Eu.
  2:{ intros [= <-]. by apply quiet_all, body_quiet. }
  assert (is_lock (LockSpin x) = true) as Hl by by apply bool_decide_true.
  assert (bool_decide (NotOwned x = NotOwned x) = true) as Ho by by apply bool_decide_true.
  destruct c as [y|y|y|y|c y|c y|c y|r y m|r y m]; cbn [uses] in Eu; try done;
    apply Z.eqb_eq in Eu as ->; try destruct m; destruct b; intros [= <-];
    cbn; rewrite ?Hl, ?Ho, ?Z.eqb_refl; try done.
Qed.

(** ** The invariant *)

Record follows (thr : thread) (a : abs) : Prop := mkFollows {
  fo_hist : exists b, calls_held (t_past thr) false = Some b /\
    match t_cur thr with
    | None => a = settled b /\ is_Some (calls_held (t_todo thr) b)
    | Some (c, l) => exists b', call_held c b = Some b' /\ ais l a = Some (settled b') /\
        (uses c = false -> forallb quiet l = true /\ a = settled b) /\
        is_Some (calls_held (t_todo thr) b')
    end;
}.
Definition lock_inv (st : state) : Prop :=
  forall t thr, threads st !! t = Some thr -> exists a, knows t (sh st) a /\ follows thr a.

Lemma calls_held_app l1 l2 b :
  calls_held (l1 ++ l2) b = match calls_held l1 b with Some b' => calls_held l2 b' | None => None end.
Proof.
  revert b. induction l1 as [|c r IH]; intros b; [done|]. cbn [app calls_held].
  destruct (call_held c b); [apply IH|done].
Qed.

Lemma follows_wchan thr a o : follows thr a -> follows (with_wchan o thr) a.
Proof. intros [H]. by constructor. Qed.

(** A step that changes thread [t] politely keeps the invariant. *)
Lemma inv_update st t thr thr' s' a : lock_inv st -> threads st !! t = Some thr ->
  polite t (sh st) s' -> knows t s' a -> follows thr' a ->
  forall ths, (forall j thr0, ths !! j = Some thr0 ->
    exists thr1 o, <[t := thr']> (threads st) !! j = Some thr1 /\ (thr0 = thr1 \/ thr0 = with_wchan o thr1)) ->
  lock_inv (mkState s' ths false).
Proof.
  intros Hi Ht Hp Hk Hf ths Hths j thr0 Hj. cbn in *.
  destruct (Hths j thr0 Hj) as (thr1 & o & H1 & H2).
  assert (exists a1, knows j s' a1 /\ follows thr1 a1) as (a1 & Hk1 & Hf1).
  { destruct (decide (j = t)) as [->|Hne].
    - rewrite list_lookup_insert_eq in H1 by (by eapply lookup_lt_Some). injection H1 as <-. eauto.
    - rewrite list_lookup_insert_ne in H1 by done. destruct (Hi j thr1 H1) as (a1 & Hk1 & Hf1).
      exists a1. split; [by apply (polite_knows t j (sh st))|done]. }
  exists a1. split; [done|]. destruct H2 as [->| ->]; [done|by apply follows_wchan].
Qed.

Lemma inv_act st t thr c i k s' k' o ths : lock_inv st -> threads st !! t = Some thr ->
  t_cur thr = Some (c, i :: k) ->
  after_act (act t (t_in_interrupt thr) i k (sh st)) k = Some (s', k') ->
  (forall j thr0, ths !! j = Some thr0 ->
    exists thr1 o', <[t := with_wchan o (with_cur (Some (c, k')) thr)]> (threads st) !! j = Some thr1 /\
      (thr0 = thr1 \/ thr0 = with_wchan o' thr1)) ->
  lock_inv (mkState s' ths false).
Proof.
  intros Hi Ht Hc Ha Hths. destruct (Hi t thr Ht) as (a & Hk & [(b & Hb & Hh)]). rewrite Hc in Hh.
  destruct Hh as (b' & Hb' & Hl & Hq & Htodo).
  destruct (act_tracks t (t_in_interrupt thr) i k (sh st) s' k' a (settled b') [] Hk) as (a1 & Hk1 & Hl1 & Hp);
    [by rewrite app_nil_r|done|]. rewrite app_nil_r in Hl1.
  eapply (inv_update st t thr _ s' a1); [done|done|done|done| |exact Hths].
  constructor. exists b. cbn. split; [done|]. exists b'. split; [done|]. split; [done|]. split; [|done].
  intros Hu. destruct (Hq Hu) as [Hq1 ->]. pose proof (act_quiet _ _ _ _ _ _ _ Hq1 Ha) as Hq2.
  split; [done|]. rewrite (quiet_all _ a1 Hq2) in Hl1. rewrite (quiet_all _ _ Hq1) in Hl. congruence.
Qed.

Lemma lock_inv_step st t st' : lock_inv st -> step t st = Some st' -> lock_inv st'.
Proof.
  intros Hi. unfold step. destruct (failed st); [done|]. destruct (threads st !! t) as [thr|] eqn:Ht; [|done]. cbn.
  destruct (t_wchan thr) as [w|] eqn:Ew; [done|]. destruct (t_cur thr) as [[c [|i k]]|] eqn:Ec.
  - intros [= <-]. destruct (Hi t thr Ht) as (a & Hk & [(b & Hb & Hh)]). rewrite Ec in Hh.
    destruct Hh as (b' & Hb' & [= ->] & _ & Htodo).
    eapply (inv_update st t thr _ (sh st)); [done|done|by apply polite_same|exact Hk| |].
    2:{ intros j thr0 Hj. exists thr0, None. split; [exact Hj|by left]. }
    constructor. exists b'. cbn. rewrite calls_held_app, Hb. cbn. by rewrite Hb'.
  - intros Hs. pose proof (inv_act st t thr c i k) as Hact.
    destruct (act t (t_in_interrupt thr) i k (sh st)) as [| |s1 k1|s1 w|s1 ts]; try done;
      injection Hs as <-; [exact Hi|..].
    + apply (Hact s1 k1 None); try done. intros j thr0 Hj. exists thr0, None.
      split; [|by left]. destruct thr; cbn in *. by subst.
    + apply (Hact s1 k (Some w)); try done. intros j thr0 Hj. exists thr0, None. split; [done|by left].
    + apply (Hact s1 k None); try done. intros j thr0 Hj.
      destruct (wake_lookup _ _ _ _ Hj) as (thr1 & H1 & H2). exists thr1, None.
      split; [destruct thr; cbn in *; by subst|]. destruct H2 as [->|[-> _]]; auto.
  - destruct (t_todo thr) as [|c r] eqn:Etodo; [done|]. intros [= <-].
    destruct (Hi t thr Ht) as (a & Hk & [(b & Hb & Hh)]). rewrite Ec, Etodo in Hh.
    destruct Hh as [-> Htodo]. cbn [calls_held] in Htodo.
    destruct (call_held c b) as [b'|] eqn:Eb'; [|by destruct Htodo].
    eapply (inv_update st t thr _ (sh st)); [done|done|by apply polite_same|exact Hk| |].
    2:{ intros j thr0 Hj. exists thr0, None. split; [exact Hj|by left]. }
    constructor. exists b. cbn. split; [done|]. exists b'. split; [done|].
    split; [by apply body_held|]. split; [|done]. intros Hu. split; [by apply body_quiet|done].
Qed.

Lemma lock_inv_boot sems progs : (forall p, p ∈ progs -> is_Some (calls_held p false)) ->
  lock_inv (boot sems progs).
Proof.
  intros Hp t thr Ht. cbn in Ht. apply list_lookup_fmap_Some in Ht as (p & -> & Hl).
  exists (settled false). split.
  - constructor; cbn; [by rewrite bool_decide_false|by rewrite bool_decide_false|done].
  - constructor. exists false. split; [done|]. split; [done|]. apply Hp. by eapply list_elem_of_lookup_2.
Qed.
Lemma lock_inv_reachable s0 st : lock_inv s0 -> reachable s0 st -> lock_inv st.
Proof. intros H0. induction 1; [done|]. by eapply lock_inv_step. Qed.

(** Thread [thr] is between acquiring and releasing lock [x]: the calls it has
    returned from leave it with the lock, and it is not in a call that uses
    the lock. *)
Definition holding (thr : thread) : Prop :=
  calls_held (t_past thr) false = Some true /\
  match t_cur thr with Some (c, _) => uses c = false | None => True end.

(** C29: Mutual exclusion.  However many threads run whatever sequences of
    calls on whatever semaphores, locks, condition variables and
    reader-writer locks, under every interleaving of their actions: if each of
    them uses lock [x] as the interface asks (acquires it when it does not
    hold it; releases it, or waits with it, when it does), then a thread
    between acquiring and releasing the lock is its owner, and no two threads
    are there at the same time. *)
Theorem lock_mutual_exclusion sems progs st t1 t2 thr1 thr2
    (Hp : forall p, p ∈ progs -> is_Some (calls_held p false))
    (Hr : reachable (boot sems progs) st)
    (H1 : threads st !! t1 = Some thr1) (H2 : threads st !! t2 = Some thr2)
    (Hh1 : holding thr1) (Hh2 : holding thr2) :
  lk_owner (sh st) x = Some t1 /\ t1 = t2.
Proof.
  pose proof (lock_inv_reachable _ _ (lock_inv_boot sems progs Hp) Hr) as Hi.
  assert (forall t thr, threads st !! t = Some thr -> holding thr -> lk_owner (sh st) x = Some t) as Ho.
  { intros t thr Ht [Hb Hc]. destruct (Hi t thr Ht) as (a & [K1 _ _] & [(b & Hb' & Hh)]).
    rewrite Hb in Hb'. injection Hb' as <-. assert (a = settled true) as ->.
    { destruct (t_cur thr) as [[c l]|]; [|apply Hh]. destruct Hh as (b' & _ & _ & Hq & _).
      by apply Hq. }
    symmetry in K1. by apply bool_decide_eq_true in K1. }
  split; [by eapply Ho|]. pose proof (Ho _ _ H1 Hh1). pose proof (Ho _ _ H2 Hh2). congruence.
Qed.
End locks.

(** ** Interleavings that break the promises of synch.h *)

Definition returned (st : state) (t : tid) (l : list call) : Prop :=
  exists thr, threads st !! t = Some thr /\ t_cur thr = None /\ t_past thr = l.

(** [lock_release] does not check its caller.  A thread that does not hold
    a lock can release it; another thread then acquires it, and two threads
    are between acquiring and releasing the lock at the same time, with no
    assertion failing. *)
Theorem foreign_release_breaks_lock : exists st thr0 thr2,
  reachable (boot (fun _ => 0) [[CallAcquire 1]; [CallRelease 1]; [CallAcquire 1]]) st /\
  failed st = false /\ threads st !! 0%nat = Some thr0 /\ threads st !! 2%nat = Some thr2 /\
  holding 1 thr0 /\ holding 1 thr2.
Proof.
  eexists _, _, _. split.
  - eapply (run_reachable _ (replicate 9 0 ++ replicate 8 1 ++ replicate 9 2)%nat); [constructor|].
    vm_compute. reflexivity.
  - split; [reflexivity|]. split; [reflexivity|]. split; [reflexivity|]. by repeat split.
Qed.

(** [cv_wait] can miss a signal.  It releases the lock before it locks the
    wait channel, so there is an interleaving in which one thread enters
    [cv_wait] while it owns the lock, a second thread then acquires the lock,
    signals, releases the lock and ends, and the first one sleeps on the
    condition variable with no thread left that can make a step. *)
Theorem cv_wait_misses_signal : exists st1 st2,
  let progs := [[CallAcquire 1; CallWait 0 1; CallRelease 1];
                [CallAcquire 1; CallSignal 0 1; CallRelease 1]] in
  reachable (boot (fun _ => 0) progs) st1 /\ lk_owner (sh st1) 1 = Some 0%nat /\
  (exists thr, threads st1 !! 0%nat = Some thr /\ t_cur thr = Some (CallWait 0 1, body (CallWait 0 1))) /\
  returned st1 1 [] /\
  reachable st1 st2 /\ returned st2 1 [CallAcquire 1; CallSignal 0 1; CallRelease 1] /\
  sleepers (sh st2) (CvChan 0) = [0%nat] /\ failed st2 = false /\ forall t, step t st2 = None.
Proof.
  eexists _, _. split.
  { eapply (run_reachable _ (replicate 10 0)%nat); [constructor|]. vm_compute. reflexivity. }
  split; [reflexivity|]. split; [eexists; split; reflexivity|].
  split; [eexists; split; [reflexivity|split; reflexivity]|]. split.
  { eapply (run_reachable _ (replicate 6 0 ++ replicate 23 1 ++ replicate 3 0)%nat); [constructor|].
    vm_compute. reflexivity. }
  split; [eexists; split; [reflexivity|split; reflexivity]|]. split; [reflexivity|]. split; [reflexivity|].
  intros [|[|t]]; reflexivity.
Qed.

(** The reader-writer lock lets a writer in beside a reader.  A writer that
    is woken by the last reader does not look at the reader count again; if
    another reader comes first, both [rw_acquire] calls have returned and
    neither has been released. *)
Theorem writer_beside_reader : exists st,
  reachable (boot (fun _ => 0)
    [[CallRwAcquire 0 1 READ; CallRwRelease 0 1 READ]; [CallRwAcquire 0 1 WRITE];
     [CallRwAcquire 0 1 READ]]) st /\
  failed st = false /\ returned st 1 [CallRwAcquire 0 1 WRITE] /\
  returned st 2 [CallRwAcquire 0 1 READ] /\ rw_count (sh st) 0 = 1.
Proof.
  eexists. split.
  { eapply (run_reachable _ (replicate 17 0 ++ replicate 18 1 ++ replicate 20 0 ++
      replicate 17 2 ++ replicate 8 1)%nat); [constructor|]. vm_compute. reflexivity. }
  split; [reflexivity|].
  split; [eexists; split; [reflexivity|split; reflexivity]|].
  split; [eexists; split; [reflexivity|split; reflexivity]|]. reflexivity.
Qed.

(** ** A concrete run *)

Lemma lock_mutual_exclusion_witness : exists st thr,
  run (replicate 9 1 ++ replicate 5 0)%nat (boot (fun _ => 0) [[CallAcquire 1]; [CallAcquire 1; CallV 2]]) =
    Some st /\
  threads st !! 1%nat = Some thr /\ lk_owner (sh st) 1 = Some 1%nat.
Proof.
  eexists _, _. split; [vm_compute; reflexivity|]. split; [reflexivity|].
  eapply (lock_mutual_exclusion 1 (fun _ => 0) [[CallAcquire 1]; [CallAcquire 1; CallV 2]] _ 1 1).
  - intros p Hp. rewrite !elem_of_cons, elem_of_nil in Hp.
    destruct Hp as [->|[->|[]]]; eexists; reflexivity.
  - eapply (run_reachable _ (replicate 9 1 ++ replicate 5 0)%nat); [constructor|]. vm_compute. reflexivity.
  - reflexivity.
  - reflexivity.
  - split; [reflexivity|exact I].
  - split; [reflexivity|exact I].
Defined.
End Synch.
