(* ===== verification/SynchSem.v ===== *)
(** * kern/thread/synch.c: semaphores

    That [P] and [V] implement a counting semaphore, under every interleaving:
    the count is what the calls made of it, and no wakeup is lost.  The code of
    one semaphore is followed through its phases ([phase]), one for each point
    of [P] and [V]; [anext] is the machine of these phases, and the steps of
    the threads are steps of it. *)

From S2P Require Import Prelude Synch.
Import Synch.

Module SynchSem.

Inductive phase : Set :=
  | Out
  | PEnter | PWant | PTest | PChan | PDrop | PDoze | PSleep | PAsleep
  | PGot | PTake | PDone | PRet
  | VEnter | VAdd | VCheck | VChan | VPop | VUnchan | VUnsem | VRet.
#[export] Instance phase_eq_dec : EqDecision phase.
Proof. solve_decision. Defined.

(** The parts of the state that belong to one semaphore. *)
Record sem : Type := mkSem {
  ss : option nat;      (** holder of [sem_lock] *)
  cs : option nat;      (** holder of the lock of [sem_wchan] *)
  cnt : Z;
  q : list nat;
}.

(** One step of thread [t] from phase [p]: the phase after it and the threads
    woken; [None] if the thread waits or the machine stops. *)
Definition anext (t : nat) (intr : bool) (p : phase) (m : sem) : option (sem * phase * list nat) :=
  match p with
  | PEnter => if intr then None else Some (m, PWant, [])
  | PWant => match ss m with None => Some (mkSem (Some t) (cs m) (cnt m) (q m), PTest, []) | _ => None end
  | PTest => if cnt m =? 0 then Some (m, PChan, []) else Some (m, PGot, [])
  | PChan => match cs m with None => Some (mkSem (ss m) (Some t) (cnt m) (q m), PDrop, []) | _ => None end
  | PDrop => if decide (ss m = Some t) then Some (mkSem None (cs m) (cnt m) (q m), PDoze, []) else None
  | PDoze => if intr then None else Some (m, PSleep, [])
  | PSleep => if decide (cs m = Some t) then Some (mkSem (ss m) None (cnt m) (q m ++ [t]), PAsleep, []) else None
  | PGot => if 0 <? cnt m then Some (m, PTake, []) else None
  | PTake => Some (mkSem (ss m) (cs m) (s32 (cnt m - 1)) (q m), PDone, [])
  | PDone => if decide (ss m = Some t) then Some (mkSem None (cs m) (cnt m) (q m), PRet, []) else None
  | VEnter => match ss m with None => Some (mkSem (Some t) (cs m) (cnt m) (q m), VAdd, []) | _ => None end
  | VAdd => Some (mkSem (ss m) (cs m) (s32 (cnt m + 1)) (q m), VCheck, [])
  | VCheck => if 0 <? cnt m then Some (m, VChan, []) else None
  | VChan => match cs m with None => Some (mkSem (ss m) (Some t) (cnt m) (q m), VPop, []) | _ => None end
  | VPop => match q m with
            | [] => Some (m, VUnchan, [])
            | t' :: r => Some (mkSem (ss m) (cs m) (cnt m) r, VUnchan, [t'])
            end
  | VUnchan => if decide (cs m = Some t) then Some (mkSem (ss m) None (cnt m) (q m), VUnsem, []) else None
  | VUnsem => if decide (ss m = Some t) then Some (mkSem None (cs m) (cnt m) (q m), VRet, []) else None
  | _ => None
  end.

Definition hs (p : phase) : bool :=
  match p with
  | PTest | PChan | PDrop | PGot | PTake | PDone
  | VAdd | VCheck | VChan | VPop | VUnchan | VUnsem => true
  | _ => false
  end.
Definition hc (p : phase) : bool :=
  match p with PDrop | PDoze | PSleep | VPop | VUnchan => true | _ => false end.
(** Asleep, or about to be. *)
Definition needs (p : phase) : bool :=
  match p with PChan | PDrop | PDoze | PSleep | PAsleep => true | _ => false end.
(** Has seen, or made, a positive count and still holds [sem_lock]. *)
Definition tested (p : phase) : bool :=
  match p with PGot | PTake | VCheck => true | _ => false end.
(** Will take from the count, or wake a thread that will. *)
Definition wants (p : phase) : nat :=
  match p with PEnter | PWant | PTest | PGot | PTake | VCheck | VChan | VPop => 1 | _ => 0 end.

Lemma s32_small z : 0 <= z < 2 ^ 31 -> s32 z = z.
Proof. intros H. unfold swrap. rewrite Z.mod_small; lia. Qed.

(** ** Sums over the threads *)

Definition sum (l : list nat) : nat := foldr Nat.add 0%nat l.
Definition total {A} (f : A -> phase -> nat) (l : list A) (ph : list phase) : nat :=
  sum (zip_with f l ph).

Lemma sum_insert (l : list nat) i x y : l !! i = Some x -> (sum (<[i := y]> l) + x = sum l + y)%nat.
Proof.
  revert i. induction l as [|z r IH]; intros [|i] Hi; try done.
  - injection Hi as ->. change (y + sum r + x = x + sum r + y)%nat. lia.
  - specialize (IH i Hi). change (z + sum (<[i := y]> r) + x = z + sum r + y)%nat. lia.
Qed.
Lemma sum_ge (l : list nat) i x : l !! i = Some x -> (x <= sum l)%nat.
Proof. intros Hi. pose proof (sum_insert l i x 0 Hi). lia. Qed.

Lemma total_lookup {A} (f : A -> phase -> nat) l ph t a p : l !! t = Some a -> ph !! t = Some p ->
  zip_with f l ph !! t = Some (f a p).
Proof. intros Ha Hp. rewrite lookup_zip_with, Ha. cbn. by rewrite Hp. Qed.
Lemma total_insert {A} (f : A -> phase -> nat) l ph t a p a' p' : l !! t = Some a -> ph !! t = Some p ->
  (total f (<[t := a']> l) (<[t := p']> ph) + f a p = total f l ph + f a' p')%nat.
Proof.
  intros Ha Hp. unfold total. rewrite <- insert_zip_with. by apply sum_insert, total_lookup.
Qed.
Lemma total_ge {A} (f : A -> phase -> nat) l ph t a p : l !! t = Some a -> ph !! t = Some p ->
  (f a p <= total f l ph)%nat.
Proof. intros Ha Hp. by eapply sum_ge, total_lookup. Qed.

(** ** Spinlocks and the queue *)

Definition holder (o : option nat) (h : phase -> bool) (ph : list phase) : Prop :=
  forall t, o = Some t <-> exists p, ph !! t = Some p /\ h p = true.

Lemma lookup_step (ph : list phase) t p p' j : ph !! t = Some p ->
  <[t := p']> ph !! j = if decide (j = t) then Some p' else ph !! j.
Proof.
  intros Hp. destruct (decide (j = t)) as [->|Hne].
  - apply list_lookup_insert_eq. by eapply lookup_lt_Some.
  - by apply list_lookup_insert_ne.
Qed.

Lemma holder_keep o h ph t p p' : holder o h ph -> ph !! t = Some p -> h p' = h p ->
  holder o h (<[t := p']> ph).
Proof.
  unfold holder. intros H Hp He j. rewrite (lookup_step _ _ p) by done. rewrite H.
  destruct (decide (j = t)) as [->|]; [|done]. rewrite Hp. naive_solver congruence.
Qed.
Lemma holder_take h ph t p p' : holder None h ph -> ph !! t = Some p -> h p' = true ->
  holder (Some t) h (<[t := p']> ph).
Proof.
  unfold holder. intros H Hp He j. rewrite (lookup_step _ _ p) by done.
  destruct (decide (j = t)) as [->|Hne]; [naive_solver|].
  split; [congruence|]. intros Hj. apply H in Hj. done.
Qed.
Lemma holder_drop h ph t p p' : holder (Some t) h ph -> ph !! t = Some p -> h p' = false ->
  holder None h (<[t := p']> ph).
Proof.
  unfold holder. intros H Hp He j. rewrite (lookup_step _ _ p) by done.
  destruct (decide (j = t)) as [->|Hne]; [naive_solver congruence|].
  split; [done|]. intros Hj. apply H in Hj. congruence.
Qed.
Lemma holder_is o h ph t p : holder o h ph -> ph !! t = Some p -> h p = true -> o = Some t.
Proof. intros H Hp He. apply H. eauto. Qed.
Lemma holder_other o h ph t p j p' : holder o h ph -> ph !! t = Some p -> h p = true ->
  ph !! j = Some p' -> h p' = true -> j = t.
Proof.
  intros H H1 H2 H3 H4. pose proof (holder_is _ _ _ _ _ H H1 H2).
  pose proof (holder_is _ _ _ _ _ H H3 H4). congruence.
Qed.

Definition queued (q : list nat) (ph : list phase) : Prop :=
  NoDup q /\ forall t, t ∈ q <-> ph !! t = Some PAsleep.

Lemma queued_keep q ph t p p' : queued q ph -> ph !! t = Some p -> p <> PAsleep -> p' <> PAsleep ->
  queued q (<[t := p']> ph).
Proof.
  intros [H1 H2] Hp Hn Hn'. split; [done|]. intros j. rewrite H2, (lookup_step _ _ p) by done.
  destruct (decide (j = t)) as [->|]; [|done]. naive_solver congruence.
Qed.
Lemma queued_push q ph t p : queued q ph -> ph !! t = Some p -> p <> PAsleep ->
  queued (q ++ [t]) (<[t := PAsleep]> ph).
Proof.
  intros [H1 H2] Hp Hn. split.
  - apply NoDup_app. split; [done|]. split; [|by apply NoDup_singleton].
    intros j Hj. rewrite list_elem_of_singleton. intros ->. apply H2 in Hj. congruence.
  - intros j. rewrite elem_of_app, list_elem_of_singleton, H2, (lookup_step _ _ p) by done.
    destruct (decide (j = t)) as [->|]; naive_solver.
Qed.
Lemma queued_pop q ph t : queued (t :: q) ph -> queued q (<[t := PWant]> ph).
Proof.
  intros [H1 H2]. apply NoDup_cons in H1 as [Hn H1]. split; [done|].
  assert (ph !! t = Some PAsleep) as Ht by (apply H2; set_solver).
  intros j. rewrite (lookup_step _ _ PAsleep) by done. specialize (H2 j). rewrite elem_of_cons in H2.
  destruct (decide (j = t)) as [->|]; naive_solver.
Qed.

(** ** The count *)

Definition times (c : call) (l : list call) : nat := length (filter (fun d => d = c) l).

Section semaphore.
Variables (x c0 : Z) (N : nat).

(** Completed increments and decrements, and increments to come. *)
Definition vdone (thr : thread) (p : phase) : nat :=
  times (CallV x) (t_past thr) +
  match p with VCheck | VChan | VPop | VUnchan | VUnsem | VRet => 1 | _ => 0 end.
Definition pdone (thr : thread) (p : phase) : nat :=
  times (CallP x) (t_past thr) + match p with PDone | PRet => 1 | _ => 0 end.
Definition vleft (thr : thread) (p : phase) : nat :=
  times (CallV x) (t_todo thr) + match p with VEnter | VAdd => 1 | _ => 0 end.
Definition waiting (thr : thread) (p : phase) : nat := wants p.

Record counted (ths : list thread) (ph : list phase) (n : Z) : Prop := mkCounted {
  co_min : 0 <= n;
  co_pos : forall t p, ph !! t = Some p -> tested p = true -> 0 < n;
  co_wake : (exists t p, ph !! t = Some p /\ needs p = true) ->
    n <= Z.of_nat (total waiting ths ph);
  co_bal : n + Z.of_nat (total pdone ths ph) = c0 + Z.of_nat (total vdone ths ph);
  co_left : (total vdone ths ph + total vleft ths ph = N)%nat;
}.

(** The ghost-relevant fields of a thread. *)
Definition alike (thr thr' : thread) : Prop :=
  t_past thr' = t_past thr /\ t_todo thr' = t_todo thr.

Ltac count_step thr p thr' p' :=
  pose proof (total_insert waiting _ _ _ thr p thr' p' ltac:(eassumption) ltac:(eassumption));
  pose proof (total_insert pdone _ _ _ thr p thr' p' ltac:(eassumption) ltac:(eassumption));
  pose proof (total_insert vdone _ _ _ thr p thr' p' ltac:(eassumption) ltac:(eassumption));
  pose proof (total_insert vleft _ _ _ thr p thr' p' ltac:(eassumption) ltac:(eassumption)).

(** A step that leaves the numbers alone. *)
Lemma counted_keep ths ph n t thr p thr' p' : counted ths ph n ->
  ths !! t = Some thr -> ph !! t = Some p ->
  vdone thr' p' = vdone thr p -> pdone thr' p' = pdone thr p -> vleft thr' p' = vleft thr p ->
  (wants p <= wants p')%nat \/ n = 0 -> (needs p' = true -> needs p = true \/ n = 0) ->
  (tested p' = true -> 0 < n) ->
  counted (<[t := thr']> ths) (<[t := p']> ph) n.
Proof.
  intros [C1 C2 C3 C4 C5] Ht Hp Hv Hpd Hl Hw Hn Hpos. count_step thr p thr' p'.
  assert (waiting thr p = wants p /\ waiting thr' p' = wants p') as [? ?] by done.
  constructor; [done| | |lia|lia].
  - intros j p1. rewrite (lookup_step _ _ p) by done. destruct (decide (j = t)); [naive_solver|apply C2].
  - intros (j & p1 & Hj & Hn1). destruct (decide (n = 0)) as [->|Hn0]; [lia|].
    destruct Hw as [Hw|]; [|done]. specialize (C3). rewrite (lookup_step _ _ p) in Hj by done.
    assert (exists t p, ph !! t = Some p /\ needs p = true) as He.
    { destruct (decide (j = t)) as [->|]; [|eauto]. injection Hj as <-.
      destruct (Hn Hn1) as [|]; [eauto|done]. }
    specialize (C3 He). lia.
Qed.

(** [sem->sem_count--] and [sem->sem_count++], by a thread no other of which
    has just tested the count. *)
Lemma counted_take ths ph n t thr thr' : counted ths ph n ->
  ths !! t = Some thr -> ph !! t = Some PTake -> alike thr thr' ->
  (forall j p, ph !! j = Some p -> hs p = true -> j = t) ->
  counted (<[t := thr']> ths) (<[t := PDone]> ph) (n - 1).
Proof.
  intros [C1 C2 C3 C4 C5] Ht Hp [Ha1 Ha2] Hex. count_step thr PTake thr' PDone.
  pose proof (C2 t PTake Hp eq_refl) as Hpos.
  assert (vdone thr' PDone = vdone thr PTake /\ pdone thr' PDone = S (pdone thr PTake) /\
    vleft thr' PDone = vleft thr PTake /\ waiting thr PTake = 1%nat /\ waiting thr' PDone = 0%nat) as (? & ? & ? & ? & ?).
  { unfold vdone, pdone, vleft. rewrite Ha1, Ha2. split; [lia|]. split; [lia|]. by split; [lia|]. }
  constructor; [lia| | |lia|lia].
  - intros j p1. rewrite (lookup_step _ _ PTake) by done. destruct (decide (j = t)); [naive_solver|].
    intros Hj Hor. assert (hs p1 = true) as Hh by (by destruct p1).
    specialize (Hex j p1 Hj Hh). done.
  - intros (j & p1 & Hj & Hn1). rewrite (lookup_step _ _ PTake) in Hj by done.
    destruct (decide (j = t)); [by injection Hj as <-|]. specialize (C3 ltac:(eauto)). lia.
Qed.
Lemma counted_add ths ph n t thr thr' : counted ths ph n ->
  ths !! t = Some thr -> ph !! t = Some VAdd -> alike thr thr' ->
  (forall j p, ph !! j = Some p -> hs p = true -> j = t) ->
  counted (<[t := thr']> ths) (<[t := VCheck]> ph) (n + 1).
Proof.
  intros [C1 C2 C3 C4 C5] Ht Hp [Ha1 Ha2] Hex. count_step thr VAdd thr' VCheck.
  assert (vdone thr' VCheck = S (vdone thr VAdd) /\ pdone thr' VCheck = pdone thr VAdd /\
    vleft thr VAdd = S (vleft thr' VCheck) /\ waiting thr VAdd = 0%nat /\ waiting thr' VCheck = 1%nat) as (? & ? & ? & ? & ?).
  { unfold vdone, pdone, vleft. rewrite Ha1, Ha2. split; [lia|]. split; [lia|]. by split; [lia|]. }
  constructor; [lia| | |lia|lia].
  - intros j p1 _ _. lia.
  - intros (j & p1 & Hj & Hn1). rewrite (lookup_step _ _ VAdd) in Hj by done.
    destruct (decide (j = t)); [by injection Hj as <-|]. specialize (C3 ltac:(eauto)). lia.
Qed.
(** The bound that keeps the increment from wrapping. *)
Lemma counted_bound ths ph n t thr : counted ths ph n -> ths !! t = Some thr -> ph !! t = Some VAdd ->
  n + 1 <= c0 + Z.of_nat N.
Proof.
  intros [C1 C2 C3 C4 C5] Ht Hp. pose proof (total_ge vleft ths ph t thr VAdd Ht Hp) as H.
  unfold vleft at 1 in H. lia.
Qed.
(** [wchan_wakeone], with a sleeper and without. *)
Lemma counted_pop ths ph n t thr thr' t2 thr2 thr2' : counted ths ph n ->
  ths !! t = Some thr -> ph !! t = Some VPop -> alike thr thr' ->
  ths !! t2 = Some thr2 -> ph !! t2 = Some PAsleep -> alike thr2 thr2' ->
  counted (<[t2 := thr2']> (<[t := thr']> ths)) (<[t2 := PWant]> (<[t := VUnchan]> ph)) n.
Proof.
  intros [C1 C2 C3 C4 C5] Ht Hp [Ha1 Ha2] Ht2 Hp2 [Hb1 Hb2].
  assert (t2 <> t) as Hne by congruence.
  assert (<[t := thr']> ths !! t2 = Some thr2) as Ht2' by by rewrite list_lookup_insert_ne.
  assert (<[t := VUnchan]> ph !! t2 = Some PAsleep) as Hp2' by by rewrite list_lookup_insert_ne.
  count_step thr VPop thr' VUnchan. count_step thr2 PAsleep thr2' PWant.
  assert (vdone thr' VUnchan = vdone thr VPop /\ pdone thr' VUnchan = pdone thr VPop /\
    vleft thr' VUnchan = vleft thr VPop /\ waiting thr VPop = 1%nat /\ waiting thr' VUnchan = 0%nat) as (? & ? & ? & ? & ?).
  { unfold vdone, pdone, vleft. by rewrite Ha1, Ha2. }
  assert (vdone thr2' PWant = vdone thr2 PAsleep /\ pdone thr2' PWant = pdone thr2 PAsleep /\
    vleft thr2' PWant = vleft thr2 PAsleep /\ waiting thr2 PAsleep = 0%nat /\ waiting thr2' PWant = 1%nat) as (? & ? & ? & ? & ?).
  { unfold vdone, pdone, vleft. by rewrite Hb1, Hb2. }
  constructor; [done| | |lia|lia].
  - intros j p1. rewrite (lookup_step _ _ PAsleep) by done.
    destruct (decide (j = t2)); [naive_solver|]. rewrite (lookup_step _ _ VPop) by done.
    destruct (decide (j = t)); [naive_solver|apply C2].
  - intros _. specialize (C3 (ex_intro _ t2 (ex_intro _ PAsleep (conj Hp2 eq_refl)))). lia.
Qed.
Lemma counted_nobody ths ph n t thr thr' : counted ths ph n ->
  ths !! t = Some thr -> ph !! t = Some VPop -> alike thr thr' ->
  (forall j p, ph !! j = Some p -> needs p = false) ->
  counted (<[t := thr']> ths) (<[t := VUnchan]> ph) n.
Proof.
  intros [C1 C2 C3 C4 C5] Ht Hp [Ha1 Ha2] Hno. count_step thr VPop thr' VUnchan.
  assert (vdone thr' VUnchan = vdone thr VPop /\ pdone thr' VUnchan = pdone thr VPop /\
    vleft thr' VUnchan = vleft thr VPop) as (? & ? & ?).
  { unfold vdone, pdone, vleft. by rewrite Ha1, Ha2. }
  constructor; [done| | |lia|lia].
  - intros j p1. rewrite (lookup_step _ _ VPop) by done. destruct (decide (j = t)); [naive_solver|apply C2].
  - intros (j & p1 & Hj & Hn1). rewrite (lookup_step _ _ VPop) in Hj by done.
    destruct (decide (j = t)); [by injection Hj as <-|]. rewrite (Hno j p1 Hj) in Hn1. done.
Qed.

Lemma counted_max ths ph n : counted ths ph n -> n <= c0 + Z.of_nat N.
Proof. intros [C1 C2 C3 C4 C5]. lia. Qed.

(** ** The invariant and its preservation *)

Record inv (ths : list thread) (ph : list phase) (m : sem) : Prop := mkInv {
  in_len : length ths = length ph;
  in_ss : holder (ss m) hs ph;
  in_cs : holder (cs m) hc ph;
  in_q : queued (q m) ph;
  in_count : counted ths ph (cnt m);
}.

Lemma keep_alike ths ph n t thr thr' p p' : counted ths ph n -> ths !! t = Some thr -> ph !! t = Some p ->
  alike thr thr' -> (wants p <= wants p')%nat \/ n = 0 ->
  (needs p' = true -> needs p = true \/ n = 0) -> (tested p' = true -> 0 < n) ->
  vdone thr p' = vdone thr p -> pdone thr p' = pdone thr p -> vleft thr p' = vleft thr p ->
  counted (<[t := thr']> ths) (<[t := p']> ph) (n).
Proof.
  intros Hi Ht Hp [Ha1 Ha2] Hw Hn Hpos Hv Hpd Hl. eapply counted_keep; try done.
  - rewrite <- Hv. unfold vdone. by rewrite Ha1.
  - rewrite <- Hpd. unfold pdone. by rewrite Ha1.
  - rewrite <- Hl. unfold vleft. by rewrite Ha2.
Qed.

Lemma inv_calm ths ph m t intr thr thr' p m' p' : inv ths ph m -> c0 + Z.of_nat N < 2 ^ 31 ->
  ths !! t = Some thr -> ph !! t = Some p -> alike thr thr' ->
  anext t intr p m = Some (m', p', []) -> inv (<[t := thr']> ths) (<[t := p']> ph) m'.
Proof.
  intros Hi Hb Ht Hp Ha Hs. pose proof Hi as [Hlen Hss Hcs Hq Hc].
  assert (forall j p1, ph !! j = Some p1 -> hs p = true -> hs p1 = true -> j = t) as Hex.
  { intros j p1 Hj H1 H2. by eapply (holder_other _ hs). }
  destruct m as [so co n qq]. cbn [ss cs cnt q] in *. constructor; [by rewrite !length_insert|..].
  - destruct p; cbn in Hs; repeat case_match; simplify_eq/=; try done;
      first [by eapply holder_keep | by eapply holder_take | by eapply holder_drop].
  - destruct p; cbn in Hs; repeat case_match; simplify_eq/=; try done;
      first [by eapply holder_keep | by eapply holder_take | by eapply holder_drop].
  - destruct p; cbn in Hs; repeat case_match; simplify_eq/=; try done;
      first [by eapply queued_keep | by eapply queued_push].
  - destruct p; cbn in Hs; repeat case_match; simplify_eq/=; try done.
    all: try (apply (keep_alike _ _ _ _ thr _ _ _ Hc Ht Hp Ha); cbn [wants needs];
      [first [left; lia|right; lia]|intros; first [done|left; done|right; lia]
      |intros; first [done|lia]|done|done|done]; fail).
    + pose proof (co_min _ _ _ Hc). apply Z.eqb_neq in H.
      apply (keep_alike _ _ _ _ thr _ PTest _ Hc Ht Hp Ha); cbn; try done; [by left|lia].
    + pose proof (counted_max _ _ _ Hc). pose proof (co_pos _ _ _ Hc t PTake Hp eq_refl).
      rewrite s32_small by lia. apply (counted_take _ _ _ _ thr); eauto.
    + pose proof (counted_bound _ _ _ _ _ Hc Ht Hp). pose proof (co_min _ _ _ Hc).
      rewrite s32_small by lia. apply (counted_add _ _ _ _ thr); eauto.
    + apply (counted_nobody _ _ _ _ thr); try done. intros j p1 Hj.
      destruct (needs p1) eqn:En; [exfalso|done].
      assert (hs p1 = true \/ hc p1 = true \/ p1 = PAsleep) as Hor by (destruct p1; cbn in *; auto; done).
      destruct Hor as [H1|[H1|H1]].
      * pose proof (Hex j p1 Hj eq_refl H1). subst j. rewrite Hp in Hj. by injection Hj as <-.
      * pose proof (holder_other _ _ _ _ _ _ _ Hcs Hp eq_refl Hj H1). subst j. rewrite Hp in Hj.
        by injection Hj as <-.
      * subst p1. apply (proj2 Hq) in Hj. by apply elem_of_nil in Hj.
Qed.

Lemma inv_wake ths ph m t intr thr thr' p m' p' t2 r : inv ths ph m ->
  ths !! t = Some thr -> ph !! t = Some p -> alike thr thr' ->
  anext t intr p m = Some (m', p', t2 :: r) ->
  r = [] /\ t2 <> t /\ ph !! t2 = Some PAsleep /\ p = VPop /\ p' = VUnchan /\
  forall thr2 thr2', ths !! t2 = Some thr2 -> alike thr2 thr2' ->
    inv (<[t2 := thr2']> (<[t := thr']> ths)) (<[t2 := PWant]> (<[t := VUnchan]> ph)) m'.
Proof.
  intros [Hlen Hss Hcs Hq Hc] Ht Hp Ha Hs. destruct m as [so co n qq]. cbn [ss cs cnt q] in *.
  destruct p; cbn in Hs; repeat case_match; simplify_eq/=.
  assert (ph !! t2 = Some PAsleep) as Hp2 by (apply (proj2 Hq); set_solver).
  assert (t2 <> t) as Hne by congruence.
  assert (<[t := VUnchan]> ph !! t2 = Some PAsleep) as Hp2' by by rewrite list_lookup_insert_ne.
  repeat (split; [done|]). intros thr2 thr2' Ht2 Ha2. constructor; cbn.
  - by rewrite !length_insert.
  - eapply holder_keep; [|exact Hp2'|done]. by eapply holder_keep.
  - eapply holder_keep; [|exact Hp2'|done]. by eapply holder_keep.
  - apply queued_pop. by eapply queued_keep.
  - by eapply counted_pop.
Qed.

(** ** The threads follow the phases *)

Definition proj (s : shared) : sem :=
  mkSem (spins s (SemSpin x)) (spins s (ChanSpin (SemChan x))) (sem_count s x) (sleepers s (SemChan x)).

Definition code_of (p : phase) : list instr :=
  match p with
  | PEnter => sem_P x
  | PWant | PAsleep => drop 1 (sem_P x)
  | PTest => drop 2 (sem_P x)
  | PChan => [Acquire (ChanSpin (SemChan x)); Release (SemSpin x); Assert NotInInterrupt;
              Sleep (SemChan x); Acquire (SemSpin x)] ++ drop 2 (sem_P x)
  | PDrop => [Release (SemSpin x); Assert NotInInterrupt; Sleep (SemChan x); Acquire (SemSpin x)] ++
             drop 2 (sem_P x)
  | PDoze => [Assert NotInInterrupt; Sleep (SemChan x); Acquire (SemSpin x)] ++ drop 2 (sem_P x)
  | PSleep => [Sleep (SemChan x); Acquire (SemSpin x)] ++ drop 2 (sem_P x)
  | PGot => drop 3 (sem_P x)
  | PTake => drop 4 (sem_P x)
  | PDone => drop 5 (sem_P x)
  | VEnter => sem_V x
  | VAdd => drop 1 (sem_V x)
  | VCheck => drop 2 (sem_V x)
  | VChan => drop 3 (sem_V x)
  | VPop => drop 4 (sem_V x)
  | VUnchan => drop 5 (sem_V x)
  | VUnsem => drop 6 (sem_V x)
  | Out | PRet | VRet => []
  end.
Definition call_of (p : phase) : call :=
  match p with
  | VEnter | VAdd | VCheck | VChan | VPop | VUnchan | VUnsem | VRet => CallV x
  | _ => CallP x
  end.

(** Code that does not touch the semaphore. *)
Fixpoint mute (i : instr) : bool :=
  match i with
  | Acquire l | Release l => bool_decide (l <> SemSpin x /\ l <> ChanSpin (SemChan x))
  | Sleep w | Pop w | PopAll w => bool_decide (w <> SemChan x)
  | SemAdd y _ => negb (y =? x)
  | While _ b => forallb mute b
  | If _ a b => forallb mute a && forallb mute b
  | _ => true
  end.

Definition in_phase (thr : thread) (p : phase) : Prop :=
  match p with
  | Out => t_wchan thr <> Some (SemChan x) /\
      match t_cur thr with
      | Some (c, l) => c <> CallP x /\ c <> CallV x /\ forallb mute l = true
      | None => True
      end
  | PAsleep => t_wchan thr = Some (SemChan x) /\ t_cur thr = Some (CallP x, code_of PWant)
  | _ => t_wchan thr = None /\ t_cur thr = Some (call_of p, code_of p)
  end.

Lemma body_mute c : c <> CallP x -> c <> CallV x -> forallb mute (body c) = true.
Proof.
  intros H1 H2. destruct c as [y|y|y|y|c y|c y|c y|r y m|r y m]; try (vm_compute; reflexivity).
  - assert (y <> x) by congruence. cbn. rewrite (proj2 (Z.eqb_neq y x)) by done.
    rewrite !bool_decide_true by naive_solver. done.
  - assert (y <> x) by congruence. cbn. rewrite (proj2 (Z.eqb_neq y x)) by done.
    rewrite !bool_decide_true by naive_solver. done.
  - by destruct m.
  - by destruct m.
Qed.

Lemma sim_phase t intr p s i k : code_of p = i :: k -> p <> PAsleep ->
  match act t intr i k s with
  | Next s' k' => exists p', anext t intr p (proj s) = Some (proj s', p', []) /\
      k' = code_of p' /\ p' <> PAsleep /\ p' <> Out /\ call_of p' = call_of p
  | Sleeping s' w => w = SemChan x /\ k = code_of PWant /\ call_of p = CallP x /\
      anext t intr p (proj s) = Some (proj s', PAsleep, [])
  | Waking s' ts => exists t2 r, anext t intr p (proj s) = Some (proj s', VUnchan, [t2]) /\
      ts = [t2] /\ sleepers s (SemChan x) = t2 :: r /\ k = code_of VUnchan /\ call_of p = CallV x
  | _ => True
  end.
Proof.
  intros Hc Hp. destruct s as [sp sl sc lo rc].
  destruct p; cbn in Hc; try done; injection Hc as <- <-; cbn;
    repeat (case_match; cbn; simplify_eq/=; try done).
  all: try (eexists; split; [unfold proj; cbn; rewrite ?upd_eq, ?upd_ne by done; reflexivity|done]).
  - split; [done|]. split; [done|]. split; [done|]. unfold proj; cbn. by rewrite ?upd_eq, ?upd_ne by done.
  - do 2 eexists. split; [unfold proj; cbn; rewrite upd_eq; reflexivity|done].
Qed.

Lemma act_mute t intr i k s s' k' : forallb mute (i :: k) = true ->
  after_act (act t intr i k s) k = Some (s', k') -> proj s' = proj s /\ forallb mute k' = true.
Proof.
  cbn [forallb]. intros [Hi Hk]%andb_true_iff. unfold proj.
  destruct i as [l|l|w|w|w|c|y d|y|y|y d|c b|c p1 p2]; cbn [act mute] in *.
  1,2: apply bool_decide_eq_true in Hi as [H1 H2].
  3,4,5: apply bool_decide_eq_true in Hi.
  7: apply negb_true_iff, Z.eqb_neq in Hi.
  all: repeat case_match; cbn; intros [= <- <-]; cbn; rewrite ?upd_ne by congruence;
    (split; [done|]); rewrite ?forallb_app; cbn; rewrite ?Hi, ?Hk; try done.
  - by apply andb_true_iff in Hi as [-> _].
  - by apply andb_true_iff in Hi as [_ ->].
Qed.

(** ** Who sleeps where *)

Definition asleep_ok (st : state) : Prop := forall w,
  NoDup (sleepers (sh st) w) /\
  forall t, t ∈ sleepers (sh st) w -> exists thr, threads st !! t = Some thr /\ t_wchan thr = Some w.

Lemma act_sleepers t intr i k s :
  match act t intr i k s with
  | Next s' _ => forall w, sleepers s' w = sleepers s w
  | Sleeping s' w => forall w', sleepers s' w' = if decide (w' = w) then sleepers s w ++ [t] else sleepers s w'
  | Waking s' ts => exists w r, sleepers s w = ts ++ r /\ (i = Pop w \/ i = PopAll w) /\
      forall w', sleepers s' w' = if decide (w' = w) then r else sleepers s w'
  | _ => True
  end.
Proof.
  destruct i as [l|l|w|w|w|c|y d|y|y|y d|c b|c p1 p2]; cbn; repeat case_match; simplify_eq/=; try done.
  - do 2 eexists. split; [done|]. split; [by left|done].
  - exists w, []. split; [by rewrite app_nil_r|]. split; [by right|done].
Qed.

Lemma wake_in ts l t thr : l !! t = Some thr ->
  wake ts l !! t = Some (if decide (t ∈ ts) then with_wchan None thr else thr).
Proof. intros H. unfold wake. by rewrite list_lookup_imap, H. Qed.

Lemma asleep_ok_insert st t thr thr' : asleep_ok st -> threads st !! t = Some thr -> t_wchan thr = None ->
  forall s' b, (forall w, sleepers s' w = sleepers (sh st) w) ->
  asleep_ok (mkState s' (<[t := thr']> (threads st)) b).
Proof.
  intros Ha Ht Hw s' b Hs w. cbn. rewrite Hs. destruct (Ha w) as [H1 H2]. split; [done|].
  intros j Hj. destruct (H2 j Hj) as (thr0 & H3 & H4). exists thr0. split; [|done].
  rewrite list_lookup_insert_ne; [done|]. intros ->. congruence.
Qed.
Lemma asleep_ok_step st t st' : asleep_ok st -> step t st = Some st' -> asleep_ok st'.
Proof.
  intros Ha. unfold step. destruct (failed st); [done|]. destruct (threads st !! t) as [thr|] eqn:Ht; [|done].
  cbn. destruct (t_wchan thr) eqn:Hw; [done|]. destruct (t_cur thr) as [[c [|i k]]|].
  - intros [= <-]. by eapply asleep_ok_insert.
  - pose proof (act_sleepers t (t_in_interrupt thr) i k (sh st)) as Hs.
    destruct (act _ _ _ _ _) as [| |s1 k1|s1 w|s1 ts]; try done; intros [= <-].
    + by intros w.
    + by eapply asleep_ok_insert.
    + intros w'. cbn. rewrite Hs. destruct (decide (w' = w)) as [->|Hne].
      * destruct (Ha w) as [H1 H2]. split.
        -- apply NoDup_app. split; [done|]. split; [|apply NoDup_singleton].
           intros j Hj. rewrite list_elem_of_singleton. intros ->. destruct (H2 t Hj) as (? & ? & ?). congruence.
        -- intros j. rewrite elem_of_app, list_elem_of_singleton. intros Hj.
           destruct (decide (j = t)) as [->|Hjt].
           ++ eexists. split; [apply list_lookup_insert_eq; by eapply lookup_lt_Some|done].
           ++ rewrite list_lookup_insert_ne by done. apply H2. tauto.
      * destruct (Ha w') as [H1 H2]. split; [done|]. intros j Hj. destruct (H2 j Hj) as (thr0 & H3 & H4).
        exists thr0. split; [|done]. rewrite list_lookup_insert_ne; [done|]. intros ->. congruence.
    + destruct Hs as (w & r & Hr & _ & Hs). intros w'. cbn. rewrite Hs.
      assert (forall j, j ∈ sleepers (sh st) w' -> j ∉ ts -> exists thr0,
        wake ts (<[t := with_cur (Some (c, k)) thr]> (threads st)) !! j = Some thr0 /\ t_wchan thr0 = Some w') as Hg.
      { intros j Hj Hn. destruct (proj2 (Ha w') j Hj) as (thr0 & H3 & H4). exists thr0. split; [|done].
        rewrite (wake_in _ _ _ thr0); [by rewrite decide_False|].
        rewrite list_lookup_insert_ne; [done|]. intros ->. congruence. }
      destruct (decide (w' = w)) as [->|Hne].
      * pose proof (proj1 (Ha w)) as Hnd. rewrite Hr in Hnd. apply NoDup_app in Hnd as (_ & Hd & Hnd).
        split; [done|]. intros j Hj. apply Hg; [rewrite Hr; set_solver|]. intros Hj'. by apply (Hd j).
      * split; [apply Ha|]. intros j Hj. apply Hg; [done|]. intros Hj'.
        destruct (proj2 (Ha w') j Hj) as (? & ? & ?). destruct (proj2 (Ha w) j) as (? & ? & ?);
          [rewrite Hr; set_solver|]. congruence.
  - destruct (t_todo thr); [done|]. intros [= <-]. by eapply asleep_ok_insert.
Qed.

(** ** The invariant of the system *)

Definition sem_inv (st : state) : Prop :=
  asleep_ok st /\
  exists ph, Forall2 in_phase (threads st) ph /\ inv (threads st) ph (proj (sh st)).

Lemma total_alike (f : thread -> phase -> nat) l l' ph :
  (forall thr thr' p, alike thr thr' -> f thr' p = f thr p) -> Forall2 alike l l' ->
  total f l' ph = total f l ph.
Proof.
  intros Hf Hl. revert ph. induction Hl as [|thr thr' l l' Ha _ IH]; intros [|p ph]; try done.
  change (f thr' p + total f l' ph = f thr p + total f l ph)%nat. by rewrite IH, (Hf thr thr').
Qed.
Lemma inv_alike ths ths' ph m : Forall2 alike ths ths' -> inv ths ph m -> inv ths' ph m.
Proof.
  intros Hl [H1 H2 H3 H4 [C1 C2 C3 C4 C5]].
  assert (total vdone ths' ph = total vdone ths ph) as E1.
  { apply total_alike; [|done]. intros thr thr' p [Ha _]. unfold vdone. by rewrite Ha. }
  assert (total pdone ths' ph = total pdone ths ph) as E2.
  { apply total_alike; [|done]. intros thr thr' p [Ha _]. unfold pdone. by rewrite Ha. }
  assert (total vleft ths' ph = total vleft ths ph) as E3.
  { apply total_alike; [|done]. intros thr thr' p [_ Ha]. unfold vleft. by rewrite Ha. }
  assert (total waiting ths' ph = total waiting ths ph) as E4 by by apply total_alike.
  constructor; [by rewrite <- H1; symmetry; eapply Forall2_length|done|done|done|].
  constructor; [done|done|by rewrite E4|by rewrite E1, E2|by rewrite E1, E3].
Qed.

(** A thread enters or leaves a call. *)
Lemma inv_border ths ph m t thr thr' p p' : inv ths ph m -> ths !! t = Some thr -> ph !! t = Some p ->
  (p = Out \/ p = PRet \/ p = VRet) -> (p' = Out \/ p' = PEnter \/ p' = VEnter) ->
  vdone thr' p' = vdone thr p -> pdone thr' p' = pdone thr p -> vleft thr' p' = vleft thr p ->
  inv (<[t := thr']> ths) (<[t := p']> ph) m.
Proof.
  intros [H1 H2 H3 H4 H5] Ht Hp Hor Hor' Hv Hpd Hl.
  assert (hs p = false /\ hc p = false /\ p <> PAsleep /\ wants p = 0%nat /\ needs p = false) as (? & ? & ? & ? & ?)
    by (by destruct Hor as [->|[->| ->]]).
  assert (hs p' = false /\ hc p' = false /\ p' <> PAsleep /\ needs p' = false /\ tested p' = false) as (? & ? & ? & ? & ?)
    by (destruct Hor' as [->|[->| ->]]; repeat split; naive_solver).
  constructor; [by rewrite !length_insert|..].
  - eapply holder_keep; [done|done|congruence].
  - eapply holder_keep; [done|done|congruence].
  - by eapply queued_keep.
  - eapply counted_keep; try done; [left; lia|congruence..].
Qed.

Lemma times_app c l1 l2 : times c (l1 ++ l2) = (times c l1 + times c l2)%nat.
Proof. unfold times. by rewrite filter_app, length_app. Qed.
Lemma times_cons c d l : times c (d :: l) = ((if decide (d = c) then 1 else 0) + times c l)%nat.
Proof. unfold times. rewrite filter_cons. by destruct (decide (d = c)). Qed.

Lemma in_phase_done thr p c : in_phase thr p -> t_cur thr = Some (c, []) ->
  (p = Out /\ c <> CallP x /\ c <> CallV x) \/ (p = PRet /\ c = CallP x) \/ (p = VRet /\ c = CallV x).
Proof. intros Hp Hc. destruct p; cbn in Hp; rewrite Hc in Hp; naive_solver. Qed.
Lemma in_phase_idle thr p : in_phase thr p -> t_cur thr = None -> p = Out.
Proof. intros Hp Hc. destruct p; cbn in Hp; rewrite Hc in Hp; naive_solver. Qed.

Lemma sem_inv_return st t thr c ph : Forall2 in_phase (threads st) ph ->
  inv (threads st) ph (proj (sh st)) -> threads st !! t = Some thr ->
  t_wchan thr = None -> t_cur thr = Some (c, []) ->
  let thr' := mkThread (t_in_interrupt thr) None None (t_todo thr) (t_past thr ++ [c]) in
  exists ph', Forall2 in_phase (<[t := thr']> (threads st)) ph' /\
    inv (<[t := thr']> (threads st)) ph' (proj (sh st)).
Proof.
  intros Hph Hi Ht Hw Hc thr'. destruct (Forall2_lookup_l _ _ _ _ _ Hph Ht) as (p & Hp & Hin).
  pose proof (in_phase_done thr p c Hin Hc) as Hd. exists (<[t := Out]> ph). split.
  - apply Forall2_insert; [done|]. split; [done|exact I].
  - apply (inv_border _ _ _ _ thr _ p); try done; [naive_solver|naive_solver|..];
      unfold vdone, pdone, vleft; cbn [t_past t_todo thr'];
      destruct Hd as [(-> & H1 & H2)|[(-> & ->)|(-> & ->)]];
      rewrite ?times_app, ?times_cons, ?decide_False, ?decide_True by congruence; cbn; lia.
Qed.

Lemma sem_inv_start st t thr c r ph : Forall2 in_phase (threads st) ph ->
  inv (threads st) ph (proj (sh st)) -> threads st !! t = Some thr ->
  t_wchan thr = None -> t_cur thr = None -> t_todo thr = c :: r ->
  let thr' := mkThread (t_in_interrupt thr) None (Some (c, body c)) r (t_past thr) in
  exists ph', Forall2 in_phase (<[t := thr']> (threads st)) ph' /\
    inv (<[t := thr']> (threads st)) ph' (proj (sh st)).
Proof.
  intros Hph Hi Ht Hw Hc Htodo thr'. destruct (Forall2_lookup_l _ _ _ _ _ Hph Ht) as (p & Hp & Hin).
  pose proof (in_phase_idle thr p Hin Hc) as ->.
  set (p' := if decide (c = CallP x) then PEnter else if decide (c = CallV x) then VEnter else Out).
  exists (<[t := p']> ph). split.
  - apply Forall2_insert; [done|]. unfold p'. destruct (decide (c = CallP x)) as [->|H1]; [done|].
    destruct (decide (c = CallV x)) as [->|H2]; [done|]. split; [done|]. split; [done|].
    split; [done|by apply body_mute].
  - apply (inv_border _ _ _ _ thr _ Out); try done; [by left|unfold p'; repeat case_match; auto|..];
      unfold vdone, pdone, vleft; cbn [t_past t_todo thr']; rewrite ?Htodo, ?times_cons; unfold p';
      destruct (decide (c = CallP x)) as [->|H1]; try (destruct (decide (c = CallV x)) as [->|H2]);
      rewrite ?decide_False, ?decide_True by congruence; cbn; lia.
Qed.

Lemma wake_one l t thr : l !! t = Some thr -> wake [t] l = <[t := with_wchan None thr]> l.
Proof.
  intros Ht. apply list_eq. intros j. destruct (decide (j = t)) as [->|Hne].
  - rewrite (wake_in _ _ _ thr), decide_True by (done || set_solver).
    symmetry. apply list_lookup_insert_eq. by eapply lookup_lt_Some.
  - rewrite list_lookup_insert_ne by done. unfold wake. rewrite list_lookup_imap.
    destruct (l !! j); [|done]. cbn. by rewrite decide_False by set_solver.
Qed.
Lemma alike_wake ts l : Forall2 alike l (wake ts l).
Proof.
  apply Forall2_same_length_lookup. split; [unfold wake; by rewrite length_imap|].
  intros j thr thr' Hj Hj'. rewrite (wake_in _ _ _ thr Hj) in Hj'. injection Hj' as <-.
  by destruct (decide _).
Qed.
Lemma alike_insert l t thr thr' : l !! t = Some thr -> alike thr thr' -> Forall2 alike l (<[t := thr']> l).
Proof.
  intros Ht Ha. rewrite <- (list_insert_id l t thr Ht) at 1. apply Forall2_insert; [|done].
  apply Forall2_same_length_lookup. split; [done|]. intros. by simplify_eq.
Qed.

(** A step of code that does not touch the semaphore. *)
Lemma sem_inv_mute st t thr c i k ph st' : asleep_ok st -> Forall2 in_phase (threads st) ph ->
  inv (threads st) ph (proj (sh st)) -> threads st !! t = Some thr ->
  t_wchan thr = None -> t_cur thr = Some (c, i :: k) -> ph !! t = Some Out ->
  step t st = Some st' -> failed st' = false ->
  exists ph', Forall2 in_phase (threads st') ph' /\ inv (threads st') ph' (proj (sh st')).
Proof.
  intros Hok Hph Hi Ht Hw Hc Hp. destruct (Forall2_lookup_lr _ _ _ _ _ _ Hph Ht Hp) as (_ & Hm).
  rewrite Hc in Hm. destruct Hm as (Hc1 & Hc2 & Hm).
  pose proof (act_mute t (t_in_interrupt thr) i k (sh st)) as Ham.
  pose proof (act_sleepers t (t_in_interrupt thr) i k (sh st)) as Hsl.
  unfold step. destruct (failed st); [done|]. rewrite Ht. cbn. rewrite Hw, Hc.
  destruct (act t (t_in_interrupt thr) i k (sh st)) as [| |s1 k1|s1 w|s1 ts] eqn:Eact; try done;
    intros [= <-]; cbn; try done; intros _.
  - destruct (Ham s1 k1 Hm eq_refl) as [-> Hk1]. exists ph. split.
    + rewrite <- (list_insert_id ph t Out Hp). apply Forall2_insert; [done|].
      split; [cbn; by rewrite Hw|done].
    + eapply inv_alike; [|exact Hi]. by apply (alike_insert _ _ thr).
  - destruct (Ham s1 k Hm eq_refl) as [-> Hk1]. exists ph.
    assert (w <> SemChan x) as Hne.
    { destruct i; cbn in Eact; repeat case_match; simplify_eq. cbn in Hm.
      apply andb_true_iff in Hm as [Hm _]. by apply bool_decide_eq_true in Hm. }
    split.
    + rewrite <- (list_insert_id ph t Out Hp). apply Forall2_insert; [done|].
      split; [cbn; congruence|done].
    + eapply inv_alike; [|exact Hi]. by apply (alike_insert _ _ thr).
  - destruct (Ham s1 k Hm eq_refl) as [-> Hk1]. destruct Hsl as (w & r & Hr & Hi' & _).
    assert (w <> SemChan x) as Hne.
    { destruct Hi' as [->| ->]; cbn in Hm; apply andb_true_iff in Hm as [Hm _];
        by apply bool_decide_eq_true in Hm. }
    exists ph. split.
    + apply Forall2_same_length_lookup. split.
      { unfold wake. rewrite length_imap, length_insert. by eapply Forall2_length. }
      intros j thr1 p1 Hj Hpj. destruct (wake_lookup _ _ _ _ Hj) as (thr0 & Hj0 & Hor).
      destruct (decide (j = t)) as [->|Hjt].
      * rewrite list_lookup_insert_eq in Hj0 by (by eapply lookup_lt_Some). simplify_eq.
        destruct Hor as [->|[-> _]]; (split; [cbn; congruence|done]).
      * rewrite list_lookup_insert_ne in Hj0 by done.
        pose proof (Forall2_lookup_lr _ _ _ _ _ _ Hph Hj0 Hpj) as Hin.
        destruct Hor as [->|[-> Hts]]; [done|].
        destruct (proj2 (Hok w) j) as (thr2 & H1 & H2); [rewrite Hr; set_solver|].
        simplify_eq. destruct p1; cbn in Hin |- *; try (destruct Hin; congruence). split; [done|tauto].
    + eapply inv_alike; [apply alike_wake|]. eapply inv_alike; [|exact Hi]. by apply (alike_insert _ _ thr).
Qed.

(** A step of [P] or [V]. *)
Lemma sem_inv_active st t thr c i k ph p st' : c0 + Z.of_nat N < 2 ^ 31 ->
  Forall2 in_phase (threads st) ph ->
  inv (threads st) ph (proj (sh st)) -> threads st !! t = Some thr ->
  t_wchan thr = None -> t_cur thr = Some (c, i :: k) -> ph !! t = Some p -> p <> Out ->
  step t st = Some st' -> failed st' = false ->
  exists ph', Forall2 in_phase (threads st') ph' /\ inv (threads st') ph' (proj (sh st')).
Proof.
  intros Hb Hph Hi Ht Hw Hc Hp Hout. pose proof (Forall2_lookup_lr _ _ _ _ _ _ Hph Ht Hp) as Hin.
  assert (p <> PAsleep) as Hna by (intros ->; destruct Hin; congruence).
  assert (c = call_of p /\ code_of p = i :: k) as [-> Hcode].
  { destruct p; cbn in Hin; try done; destruct Hin as [_ Hin]; rewrite Hc in Hin;
      by simplify_eq/=. }
  pose proof (sim_phase t (t_in_interrupt thr) p (sh st) i k Hcode Hna) as Hsim.
  unfold step. destruct (failed st); [done|]. rewrite Ht. cbn. rewrite Hw, Hc.
  destruct (act t (t_in_interrupt thr) i k (sh st)) as [| |s1 k1|s1 w|s1 ts]; try done;
    intros [= <-]; cbn; try done; intros _.
  - destruct Hsim as (p' & Hs & -> & H1 & H2 & H3). exists (<[t := p']> ph). split.
    + apply Forall2_insert; [done|]. rewrite <- H3. destruct p'; try done; by split.
    + by eapply (inv_calm _ _ (proj (sh st)) _ (t_in_interrupt thr) thr).
  - destruct Hsim as (-> & -> & H1 & Hs). exists (<[t := PAsleep]> ph). split.
    + apply Forall2_insert; [done|]. rewrite H1. by split.
    + by eapply (inv_calm _ _ (proj (sh st)) _ (t_in_interrupt thr) thr).
  - destruct Hsim as (t2 & r & Hs & -> & Hr & -> & H1).
    destruct (inv_wake _ _ _ t _ thr (with_cur (Some (call_of p, code_of VUnchan)) thr) _ _ _ _ _ Hi Ht Hp ltac:(done) Hs)
      as (_ & Hne & Hp2 & -> & _ & Hinv).
    destruct (Forall2_lookup_r _ _ _ _ _ Hph Hp2) as (thr2 & Ht2 & Hin2).
    rewrite (wake_one _ _ thr2) by by rewrite list_lookup_insert_ne.
    eexists. split; [|by eapply Hinv].
    apply Forall2_insert; [|split; [done|apply Hin2]]. apply Forall2_insert; [done|]. by split.
Qed.

Lemma sem_inv_step st t st' : c0 + Z.of_nat N < 2 ^ 31 -> sem_inv st -> step t st = Some st' -> sem_inv st'.
Proof.
  intros Hb [Hok (ph & Hph & Hi)] Hs. split; [by eapply asleep_ok_step|].
  destruct (failed st') eqn:Hf.
  { unfold step in Hs. exists ph. destruct (failed st); [done|].
    destruct (threads st !! t) as [thr|]; [|done]. cbn in Hs. repeat case_match; by simplify_eq. }
  pose proof Hs as Hs0. unfold step in Hs0. destruct (failed st) eqn:Hf0; [done|].
  destruct (threads st !! t) as [thr|] eqn:Ht; [|done]. cbn in Hs0.
  destruct (t_wchan thr) eqn:Hw; [done|]. destruct (t_cur thr) as [[c [|i k]]|] eqn:Hc.
  - injection Hs0 as <-. by apply (sem_inv_return st t thr c ph).
  - destruct (Forall2_lookup_l _ _ _ _ _ Hph Ht) as (p & Hp & _).
    destruct (decide (p = Out)) as [->|Hne]; [by eapply sem_inv_mute|by eapply sem_inv_active].
  - destruct (t_todo thr) as [|c r] eqn:Htodo; [done|]. injection Hs0 as <-. by apply (sem_inv_start st t thr c r ph).
Qed.
Lemma sem_inv_reachable s0 st : c0 + Z.of_nat N < 2 ^ 31 -> sem_inv s0 -> reachable s0 st -> sem_inv st.
Proof. intros Hb H0. induction 1; [done|]. by eapply sem_inv_step. Qed.

(** ** Progress *)

(** What a thread inside [P] or [V] waits for if it cannot make a step. *)
Lemma phase_blocked st t thr ph p : Forall2 in_phase (threads st) ph ->
  threads st !! t = Some thr -> ph !! t = Some p -> p <> Out -> p <> PAsleep ->
  failed st = false -> step t st = None ->
  match p with
  | PWant | VEnter => spins (sh st) (SemSpin x) <> None
  | PChan | VChan => spins (sh st) (ChanSpin (SemChan x)) <> None
  | _ => False
  end.
Proof.
  intros Hph Ht Hp Ho Ha Hf. pose proof (Forall2_lookup_lr _ _ _ _ _ _ Hph Ht Hp) as Hin.
  assert (t_wchan thr = None /\ t_cur thr = Some (call_of p, code_of p)) as [Hw Hc] by (by destruct p).
  unfold step. rewrite Hf, Ht. cbn. rewrite Hw, Hc.
  destruct p; cbn; try done; repeat case_match; simplify_eq/=; try done.
Qed.
(** The assertions of [P] and [V] hold. *)
Lemma phase_no_fail st t thr ph p st' : Forall2 in_phase (threads st) ph ->
  inv (threads st) ph (proj (sh st)) -> threads st !! t = Some thr -> ph !! t = Some p -> p <> Out ->
  t_in_interrupt thr = false -> step t st = Some st' -> failed st' = false.
Proof.
  intros Hph [H1 Hss Hcs Hq Hc] Ht Hp Ho Hintr.
  pose proof (Forall2_lookup_lr _ _ _ _ _ _ Hph Ht Hp) as Hin. cbn [proj ss cs cnt q] in *.
  pose proof (holder_is _ _ _ _ _ Hss Hp) as Is. pose proof (holder_is _ _ _ _ _ Hcs Hp) as Ic.
  assert (hs p = false -> spins (sh st) (SemSpin x) <> Some t) as Ns.
  { intros Hh E. apply Hss in E as (p1 & Hp1 & Hh1). congruence. }
  assert (hc p = false -> spins (sh st) (ChanSpin (SemChan x)) <> Some t) as Nc.
  { intros Hh E. apply Hcs in E as (p1 & Hp1 & Hh1). congruence. }
  pose proof (co_pos _ _ _ Hc t p Hp) as Hpos.
  unfold step. destruct (failed st); [done|]. rewrite Ht. cbn.
  destruct (decide (p = PAsleep)) as [->|Ha]; [destruct Hin as [-> _]; done|].
  assert (t_wchan thr = None /\ t_cur thr = Some (call_of p, code_of p)) as [-> ->] by (by destruct p).
  rewrite Hintr. destruct p; cbn in *; try done; repeat case_match; intros; simplify_eq/=; try done;
    try (by specialize (Ns eq_refl)); try (by specialize (Nc eq_refl));
    try (by specialize (Is eq_refl)); try (by specialize (Ic eq_refl));
    specialize (Hpos eq_refl); lia.
Qed.
Lemma total_pos {A} (f : A -> phase -> nat) l ph : (0 < total f l ph)%nat ->
  exists t a p, l !! t = Some a /\ ph !! t = Some p /\ (0 < f a p)%nat.
Proof.
  revert ph. induction l as [|a l IH]; intros [|p ph] H; try (cbn in H; lia).
  change (0 < f a p + total f l ph)%nat in H.
  destruct (decide (f a p = 0%nat)) as [E|E]; [|exists 0%nat, a, p; repeat split; lia].
  destruct (IH ph) as (t & a' & p' & H1 & H2 & H3); [lia|]. by exists (S t), a', p'.
Qed.

(** In a state without steps nobody holds a spinlock of the semaphore. *)
Lemma stuck_free st ph : Forall2 in_phase (threads st) ph -> inv (threads st) ph (proj (sh st)) ->
  failed st = false -> (forall t, step t st = None) ->
  spins (sh st) (ChanSpin (SemChan x)) = None /\ spins (sh st) (SemSpin x) = None.
Proof.
  intros Hph [H1 Hss Hcs Hq Hc] Hf Hst. cbn [proj ss cs] in *.
  assert (forall t p, ph !! t = Some p -> p <> Out -> p <> PAsleep ->
    match p with
    | PWant | VEnter => spins (sh st) (SemSpin x) <> None
    | PChan | VChan => spins (sh st) (ChanSpin (SemChan x)) <> None
    | _ => False
    end) as Hbl.
  { intros t p Hp Ho Ha. destruct (Forall2_lookup_r _ _ _ _ _ Hph Hp) as (thr & Ht & _).
    by apply (phase_blocked st t thr ph p). }
  assert (spins (sh st) (ChanSpin (SemChan x)) = None) as Hn.
  { destruct (spins (sh st) (ChanSpin (SemChan x))) as [t|]; [exfalso|done].
    destruct (proj1 (Hcs t) eq_refl) as (p & Hp & Hh). specialize (Hbl t p Hp).
    destruct p; cbn in Hh; try done; by apply Hbl. }
  split; [done|]. destruct (spins (sh st) (SemSpin x)) as [t|]; [exfalso|done].
  destruct (proj1 (Hss t) eq_refl) as (p & Hp & Hh). specialize (Hbl t p Hp).
  rewrite Hn in Hbl. destruct p; cbn in Hh; try done; by apply Hbl.
Qed.
End semaphore.

(** ** Properties *)

Definition made (c : call) (progs : list (list call)) : nat := sum (times c <$> progs).
Definition made_by (f : thread -> nat) (st : state) : nat := sum (f <$> threads st).

(** The calls of [V] on [x] a thread has begun, and of [P] it has returned from. *)
Definition begun_V (x : Z) (thr : thread) : nat :=
  times (CallV x) (t_past thr) +
  match t_cur thr with Some (c, _) => if decide (c = CallV x) then 1 else 0 | None => 0 end.
Definition returned_P (x : Z) (thr : thread) : nat := times (CallP x) (t_past thr).
Definition returned_V (x : Z) (thr : thread) : nat := times (CallV x) (t_past thr).

Lemma boot_inv x sems progs : 0 <= sems x ->
  sem_inv x (sems x) (made (CallV x) progs) (boot sems progs).
Proof.
  intros H0. split.
  { intros w. split; [apply NoDup_nil_2|]. intros t Ht. by apply elem_of_nil in Ht. }
  exists (replicate (length progs) Out).
  assert (forall t p, replicate (length progs) Out !! t = Some p -> p = Out) as Hout.
  { intros t p [-> _]%lookup_replicate. done. }
  assert (forall f : thread -> phase -> nat, (forall pr, f (mkThread false None None pr []) Out = 0%nat) ->
    total f (threads (boot sems progs)) (replicate (length progs) Out) = 0%nat) as Hz.
  { intros f Hf. cbn [boot threads]. induction progs as [|pr r IH]; [done|].
    change (f (mkThread false None None pr []) Out + total f ((fun p => mkThread false None None p []) <$> r) (replicate (length r) Out) = 0)%nat.
    rewrite Hf. apply IH. intros t p [-> _]%lookup_replicate. done. }
  split; [|constructor].
  - apply Forall2_same_length_lookup. cbn. split; [by rewrite length_fmap, length_replicate|].
    intros t thr p Ht Hp. rewrite (Hout t p Hp). apply list_lookup_fmap_Some in Ht as (pr & -> & _). by split.
  - cbn. by rewrite length_fmap, length_replicate.
  - intros t. split; [done|]. intros (p & Hp & Hh). by rewrite (Hout t p Hp) in Hh.
  - intros t. split; [done|]. intros (p & Hp & Hh). by rewrite (Hout t p Hp) in Hh.
  - split; [apply NoDup_nil_2|]. intros t. split; [by intros ?%elem_of_nil|]. intros Hp.
    by pose proof (Hout _ _ Hp).
  - constructor; [done| | | |].
    + intros t p Hp Ht. by rewrite (Hout t p Hp) in Ht.
    + intros (t & p & Hp & Hn). by rewrite (Hout t p Hp) in Hn.
    + rewrite !Hz by done. done.
    + rewrite Hz by done. cbn [boot threads]. clear. unfold made. induction progs as [|pr r IH]; [done|].
      change (vleft x (mkThread false None None pr []) Out + total (vleft x) ((fun p => mkThread false None None p []) <$> r) (replicate (length r) Out) = times (CallV x) pr + sum (times (CallV x) <$> r))%nat.
      rewrite <- IH. f_equal. apply Nat.add_0_r.
Qed.

Lemma no_interrupts s0 st : Forall (fun thr => t_in_interrupt thr = false) (threads s0) ->
  reachable s0 st -> Forall (fun thr => t_in_interrupt thr = false) (threads st).
Proof.
  intros H0. induction 1 as [|s t s' _ IH Hs]; [done|]. apply Forall_lookup_2. intros j thr' Hj.
  unfold step in Hs. destruct (failed s); [done|]. destruct (threads s !! t) as [thr|] eqn:Ht; [|done].
  pose proof (Forall_lookup_1 _ _ _ _ IH Ht) as Hthr. cbn in Hs.
  assert (forall thr0, t_in_interrupt thr0 = false -> forall thr1,
    <[t := thr0]> (threads s) !! j = Some thr1 -> t_in_interrupt thr1 = false) as Hins.
  { intros thr0 H1 thr1 H2. by apply (Forall_lookup_1 _ _ _ _ (Forall_insert _ _ t thr0 IH H1) H2). }
  repeat case_match; simplify_eq/=; try (by eapply Hins; [|exact Hj]); try exact (Forall_lookup_1 _ _ _ _ IH Hj).
  destruct (wake_lookup _ _ _ _ Hj) as (thr0 & Hj0 & [->|[-> _]]); exact (Hins (with_cur _ thr) Hthr _ Hj0).
Qed.

Lemma total_fmap (f : thread -> phase -> nat) (g : thread -> nat) (R : thread -> phase -> Prop) l ph :
  Forall2 R l ph -> (forall thr p, R thr p -> (f thr p <= g thr)%nat) ->
  (total f l ph <= sum (g <$> l))%nat.
Proof.
  induction 1 as [|thr p l ph Hr _ IH]; intros Hf; [done|].
  change (f thr p + total f l ph <= g thr + sum (g <$> l))%nat. specialize (Hf thr p Hr) as H1.
  specialize (IH Hf). lia.
Qed.
Lemma fmap_total (f : thread -> phase -> nat) (g : thread -> nat) (R : thread -> phase -> Prop) l ph :
  Forall2 R l ph -> (forall thr p, R thr p -> (g thr <= f thr p)%nat) ->
  (sum (g <$> l) <= total f l ph)%nat.
Proof.
  induction 1 as [|thr p l ph Hr _ IH]; intros Hf; [done|].
  change (g thr + sum (g <$> l) <= f thr p + total f l ph)%nat. specialize (Hf thr p Hr) as H1.
  specialize (IH Hf). lia.
Qed.

(** C31: [P] and [V] implement a counting semaphore.  Whatever other calls the
    threads make besides, under every interleaving: the count never becomes
    negative; no more calls of [P] have returned than the initial count and
    the calls of [V] begun allow; when all threads are between calls the
    count is the initial one plus the calls of [V] minus those of [P]; and no
    thread inside [P] or [V] ever fails an assertion.  The calls of [V] must
    be few enough for the count to fit its type. *)
Theorem semaphore_correct x sems progs st (H0 : 0 <= sems x)
    (Hb : sems x + Z.of_nat (made (CallV x) progs) < 2 ^ 31)
    (Hr : reachable (boot sems progs) st) :
  0 <= sem_count (sh st) x /\
  Z.of_nat (made_by (returned_P x) st) <= sems x + Z.of_nat (made_by (begun_V x) st) /\
  (Forall (fun thr => t_cur thr = None) (threads st) ->
   sem_count (sh st) x = sems x + Z.of_nat (made_by (returned_V x) st) - Z.of_nat (made_by (returned_P x) st)) /\
  (forall t thr l st', threads st !! t = Some thr ->
   t_cur thr = Some (CallP x, l) \/ t_cur thr = Some (CallV x, l) ->
   step t st = Some st' -> failed st' = false).
Proof.
  destruct (sem_inv_reachable x _ _ _ _ Hb (boot_inv x sems progs H0) Hr) as [Hok (ph & Hph & Hi)].
  pose proof (in_count _ _ _ _ _ _ Hi) as [C1 C2 C3 C4 C5]. cbn [proj cnt] in *.
  assert (made_by (returned_P x) st <= total (pdone x) (threads st) ph)%nat as HP.
  { eapply fmap_total; [exact Hph|]. intros thr p _. unfold pdone, returned_P. lia. }
  split; [done|]. split; [|split].
  - assert (total (vdone x) (threads st) ph <= made_by (begun_V x) st)%nat; [|lia].
    eapply total_fmap; [exact Hph|]. intros thr p Hin. unfold vdone, begun_V.
    destruct p; cbn in Hin; try lia; destruct Hin as [_ ->]; rewrite decide_True by done; lia.
  - intros Hidle.
    assert (Forall2 (fun thr p => p = Out) (threads st) ph) as Hout.
    { apply Forall2_same_length_lookup. split; [by eapply Forall2_length|]. intros t thr p Ht Hp.
      eapply in_phase_idle; [by eapply Forall2_lookup_lr|]. by apply (Forall_lookup_1 _ _ _ _ Hidle Ht). }
    assert (total (pdone x) (threads st) ph <= made_by (returned_P x) st)%nat.
    { eapply total_fmap; [exact Hout|]. intros thr p ->. unfold pdone, returned_P. lia. }
    assert (total (vdone x) (threads st) ph <= made_by (returned_V x) st)%nat.
    { eapply total_fmap; [exact Hout|]. intros thr p ->. unfold vdone, returned_V. lia. }
    assert (made_by (returned_V x) st <= total (vdone x) (threads st) ph)%nat.
    { eapply fmap_total; [exact Hph|]. intros thr p _. unfold vdone, returned_V. lia. }
    lia.
  - intros t thr l st' Ht Hcur Hs. destruct (Forall2_lookup_l _ _ _ _ _ Hph Ht) as (p & Hp & Hin).
    eapply (phase_no_fail x _ _ st t thr ph p); try done.
    + intros ->. destruct Hin as [_ Hin]. destruct Hcur as [E|E]; rewrite E in Hin; naive_solver.
    + assert (Forall (fun thr => t_in_interrupt thr = false) (threads (boot sems progs))) as Hn.
      { apply Forall_fmap, Forall_true. done. }
      by apply (Forall_lookup_1 _ _ _ _ (no_interrupts _ _ Hn Hr) Ht).
Qed.

(** C30: No wakeup is lost.  If the system has come to a standstill, with a
    thread asleep in [P], then the count of that semaphore is 0: the thread
    is not waiting for anything it could have. *)
Theorem semaphore_no_lost_wakeup x sems progs st t thr (H0 : 0 <= sems x)
    (Hb : sems x + Z.of_nat (made (CallV x) progs) < 2 ^ 31)
    (Hr : reachable (boot sems progs) st) (Hf : failed st = false)
    (Hst : forall j, step j st = None)
    (Ht : threads st !! t = Some thr) (Hw : t_wchan thr = Some (SemChan x)) :
  sem_count (sh st) x = 0.
Proof.
  destruct (sem_inv_reachable x _ _ _ _ Hb (boot_inv x sems progs H0) Hr) as [Hok (ph & Hph & Hi)].
  destruct (stuck_free x _ _ st ph Hph Hi Hf Hst) as [Hc Hs].
  pose proof (in_count _ _ _ _ _ _ Hi) as [C1 C2 C3 C4 C5]. cbn [proj cnt] in *.
  destruct (decide (sem_count (sh st) x = 0)) as [|Hne]; [done|exfalso].
  destruct (Forall2_lookup_l _ _ _ _ _ Hph Ht) as (p & Hp & Hin).
  assert (p = PAsleep) as -> by (destruct p; cbn in Hin; naive_solver).
  specialize (C3 (ex_intro _ t (ex_intro _ PAsleep (conj Hp eq_refl)))).
  destruct (total_pos waiting (threads st) ph) as (j & thr1 & p1 & H1 & H2 & H3); [lia|].
  pose proof (phase_blocked x st j thr1 ph p1 Hph H1 H2) as Hbl. rewrite Hc, Hs in Hbl.
  unfold waiting in H3. destruct p1; cbn in H3; try lia; by apply Hbl.
Qed.

(** ** Concrete runs *)

(** A thread goes to sleep in [P], another calls [V]. *)
Definition handover : state := boot (fun _ => 0) [[CallP 5]; [CallV 5]].

Lemma semaphore_correct_witness : exists st,
  run (replicate 8 0 ++ replicate 9 1 ++ replicate 6 0)%nat handover = Some st /\
  0 <= sem_count (sh st) 5.
Proof.
  eexists. split; [vm_compute; reflexivity|].
  eapply (semaphore_correct 5 (fun _ => 0) [[CallP 5]; [CallV 5]]); [lia|vm_compute; reflexivity|].
  eapply (run_reachable _ (replicate 8 0 ++ replicate 9 1 ++ replicate 6 0)%nat); [constructor|].
  vm_compute. reflexivity.
Defined.

Lemma semaphore_no_lost_wakeup_witness : exists st,
  run (replicate 8 0)%nat (boot (fun _ => 0) [[CallP 5]]) = Some st /\ sem_count (sh st) 5 = 0.
Proof.
  eexists. split; [vm_compute; reflexivity|].
  eapply (semaphore_no_lost_wakeup 5 (fun _ => 0) [[CallP 5]] _ 0); [lia|vm_compute; reflexivity| | | | |].
  - eapply (run_reachable _ (replicate 8 0)%nat); [constructor|]. vm_compute. reflexivity.
  - reflexivity.
  - intros [|j]; reflexivity.
  - reflexivity.
  - reflexivity.
Defined.
End SynchSem.
