(* ===== verification/Millicode.v ===== *)
(** The 64-bit helpers of common/gcc-millicode

    gcc turns every [long long] operation of the 32-bit kernel into a call of
    one of these functions.  [uu] is [union uu] of longlong.h: the two 32-bit
    halves of the 64-bit value, with the readings [ll], [ull] and [si]; one
    definition per function, on machine words with the wrap-around of the C
    type.  The theorems say that each function computes the 64-bit operation
    it is named after.  Division is in Qdivrem.v. *)
From S2P Require Import Prelude.

(** [union uu]: [ui[H]] and [ui[L]]. *)
Record uu := UU { uiH : Z; uiL : Z }.
(** Storing through [ll] or [ull]. *)
Definition of_ll (a : Z) : uu := UU (Z.shiftr (u64 a) 32) (u32 a).
Definition ull (x : uu) : Z := Z.lor (Z.shiftl (uiH x) 32) (uiL x).
Definition ll (x : uu) : Z := s64 (ull x).
Definition siH (x : uu) : Z := s32 (uiH x).

Definition INT_BITS : Z := 32.
Definition HALF_BITS : Z := 16.
Definition HHALF (x : Z) : Z := Z.shiftr (u32 x) HALF_BITS.
Definition LHALF (x : Z) : Z := Z.land (u32 x) (Z.shiftl 1 HALF_BITS - 1).
Definition LHUP (x : Z) : Z := u32 (Z.shiftl (u32 x) HALF_BITS).

(** adddi3.c, subdi3.c, negdi2.c *)
Definition __adddi3 (a b : Z) : Z :=
  let aa := of_ll a in
  let bb := of_ll b in
  let sumL := u32 (uiL aa + uiL bb) in
  let sumH := u32 (uiH aa + uiH bb + Z.b2z (sumL <? uiL bb)) in
  ll (UU sumH sumL).
Definition __subdi3 (a b : Z) : Z :=
  let aa := of_ll a in
  let bb := of_ll b in
  let diffL := u32 (uiL aa - uiL bb) in
  let diffH := u32 (uiH aa - uiH bb - Z.b2z (diffL >? uiL aa)) in
  ll (UU diffH diffL).
Definition __negdi2 (a : Z) : Z :=
  let aa := of_ll a in
  let resL := u32 (- uiL aa) in
  let resH := u32 (- uiH aa - Z.b2z (resL >? 0)) in
  ll (UU resH resL).

(** anddi3.c, iordi3.c, xordi3.c, notdi2.c *)
Definition __anddi3 (a b : Z) : Z :=
  let aa := of_ll a in
  let bb := of_ll b in
  ll (UU (Z.land (uiH aa) (uiH bb)) (Z.land (uiL aa) (uiL bb))).
Definition __iordi3 (a b : Z) : Z :=
  let aa := of_ll a in
  let bb := of_ll b in
  ll (UU (Z.lor (uiH aa) (uiH bb)) (Z.lor (uiL aa) (uiL bb))).
Definition __xordi3 (a b : Z) : Z :=
  let aa := of_ll a in
  let bb := of_ll b in
  ll (UU (Z.lxor (uiH aa) (uiH bb)) (Z.lxor (uiL aa) (uiL bb))).
Definition __one_cmpldi2 (a : Z) : Z :=
  let aa := of_ll a in
  ll (UU (u32 (Z.lnot (uiH aa))) (u32 (Z.lnot (uiL aa)))).

(** ashldi3.c, lshldi3.c, ashrdi3.c, lshrdi3.c.  A shift of an [int] by 32 or
    more is undefined in C; [Z.shiftl] and [Z.shiftr] stand for the shifts the
    code performs, which are below 32 whenever [shift] is below 64. *)
Definition __ashldi3 (a shift : Z) : Z :=
  if shift =? 0 then a
  else
    let aa := of_ll a in
    if shift >=? INT_BITS then
      ll (UU (u32 (Z.shiftl (uiL aa) (shift - INT_BITS))) 0)
    else
      ll (UU (Z.lor (u32 (Z.shiftl (uiH aa) shift))
                    (Z.shiftr (uiL aa) (INT_BITS - shift)))
             (u32 (Z.shiftl (uiL aa) shift))).
Definition __lshldi3 (a shift : Z) : Z :=
  if shift =? 0 then a
  else
    let aa := of_ll a in
    if shift >=? INT_BITS then
      ll (UU (u32 (Z.shiftl (uiL aa) (shift - INT_BITS))) 0)
    else
      ll (UU (Z.lor (u32 (Z.shiftl (uiH aa) shift))
                    (Z.shiftr (uiL aa) (INT_BITS - shift)))
             (u32 (Z.shiftl (uiL aa) shift))).
Definition __ashrdi3 (a shift : Z) : Z :=
  if shift =? 0 then a
  else
    let aa := of_ll a in
    if shift >=? INT_BITS then
      let s := Z.shiftr (Z.shiftr (siH aa) (INT_BITS - 1)) 1 in
      ll (UU (u32 s) (u32 (Z.shiftr (siH aa) (shift - INT_BITS))))
    else
      ll (UU (u32 (Z.shiftr (siH aa) shift))
             (Z.lor (Z.shiftr (uiL aa) shift)
                    (u32 (Z.shiftl (uiH aa) (INT_BITS - shift))))).
Definition __lshrdi3 (a shift : Z) : Z :=
  if shift =? 0 then a
  else
    let aa := of_ll a in
    if shift >=? INT_BITS then
      ll (UU 0 (Z.shiftr (uiH aa) (shift - INT_BITS)))
    else
      ll (UU (Z.shiftr (uiH aa) shift)
             (Z.lor (Z.shiftr (uiL aa) shift)
                    (u32 (Z.shiftl (uiH aa) (INT_BITS - shift))))).

(** cmpdi2.c, ucmpdi2.c *)
Definition __cmpdi2 (a b : Z) : Z :=
  let aa := of_ll a in
  let bb := of_ll b in
  if siH aa <? siH bb then 0 else if siH aa >? siH bb then 2
  else if uiL aa <? uiL bb then 0 else if uiL aa >? uiL bb then 2 else 1.
Definition __ucmpdi2 (a b : Z) : Z :=
  let aa := of_ll a in
  let bb := of_ll b in
  if uiH aa <? uiH bb then 0 else if uiH aa >? uiH bb then 2
  else if uiL aa <? uiL bb then 0 else if uiL aa >? uiL bb then 2 else 1.

(** muldi3.c.  The last part of [__lmulq]: the double word
    [(high << 32) + (high << 16) +/- (mid << 16) + (low << 16) + low]. *)
Definition __lmulq_sum (neg : bool) (high mid low : Z) : Z :=
  let prodh := u32 (high + HHALF high) in
  let prodl := LHUP high in
  let '(prodh, prodl) :=
    if neg then
      let was := prodl in
      let prodl := u32 (prodl - LHUP mid) in
      (u32 (prodh - u32 (HHALF mid + Z.b2z (prodl >? was))), prodl)
    else
      let was := prodl in
      let prodl := u32 (prodl + LHUP mid) in
      (u32 (prodh + u32 (HHALF mid + Z.b2z (prodl <? was))), prodl) in
  let was := prodl in
  let prodl := u32 (prodl + LHUP low) in
  let prodh := u32 (prodh + u32 (HHALF low + Z.b2z (prodl <? was))) in
  let prodl := u32 (prodl + low) in
  let prodh := if prodl <? low then u32 (prodh + 1) else prodh in
  ll (UU prodh prodl).
Definition __lmulq (u v : Z) : Z :=
  let u1 := HHALF u in
  let u0 := LHALF u in
  let v1 := HHALF v in
  let v0 := LHALF v in
  let low := u32 (u0 * v0) in
  if (u1 =? 0) && (v1 =? 0) then low
  else
    let '(udiff, neg) :=
      if u1 >=? u0 then (u32 (u1 - u0), false) else (u32 (u0 - u1), true) in
    let '(vdiff, neg) :=
      if v0 >=? v1 then (u32 (v0 - v1), neg) else (u32 (v1 - v0), negb neg) in
    let mid := u32 (udiff * vdiff) in
    let high := u32 (u1 * v1) in
    __lmulq_sum neg high mid low.

(** The product of two non-negative values, by halves. *)
Definition __muldi3_prod (u v : uu) : uu :=
  let u1 := uiH u in
  let u0 := uiL u in
  let v1 := uiH v in
  let v0 := uiL v in
  if (u1 =? 0) && (v1 =? 0) then of_ll (__lmulq u0 v0)
  else
    let low := of_ll (__lmulq u0 v0) in
    let '(udiff, negmid) :=
      if u1 >=? u0 then (u32 (u1 - u0), false) else (u32 (u0 - u1), true) in
    let '(vdiff, negmid) :=
      if v0 >=? v1 then (u32 (v0 - v1), negmid) else (u32 (v1 - v0), negb negmid) in
    let mid := u32 (udiff * vdiff) in
    let high := u32 (u1 * v1) in
    UU (u32 (high + (if negmid : bool then u32 (- mid) else mid) + uiL low + uiH low))
       (uiL low).
Definition __muldi3 (a b : Z) : Z :=
  let '(u, negall) :=
    if a >=? 0 then (of_ll a, false) else (of_ll (s64 (- a)), true) in
  let '(v, negall) :=
    if b >=? 0 then (of_ll b, negall) else (of_ll (s64 (- b)), negb negall) in
  let prod := __muldi3_prod u v in
  if negall : bool then s64 (- ll prod) else ll prod.

(** ** Words and their halves *)
Definition word (w z : Z) : Prop := 0 <= z < 2 ^ w.
Definition uu_ok (x : uu) : Prop := word 32 (uiH x) /\ word 32 (uiL x).

Lemma ull_val x : word 32 (uiL x) -> ull x = uiH x * 2 ^ 32 + uiL x.
Proof. intros. unfold ull. by apply lor_shiftl_add. Qed.

Lemma of_ll_val a : uiH (of_ll a) * 2 ^ 32 + uiL (of_ll a) = u64 a.
Proof. unfold of_ll, uwrap. cbn [uiH uiL]. rewrite Z.shiftr_div_pow2 by lia. dlia. Qed.
Lemma of_ll_ok a : uu_ok (of_ll a).
Proof.
  unfold uu_ok, word, of_ll, uwrap. cbn [uiH uiL]. rewrite Z.shiftr_div_pow2 by lia. dlia.
Qed.

Lemma s64_range z : - 2 ^ 63 <= s64 z < 2 ^ 63.
Proof. unfold swrap. dlia. Qed.
Lemma s64_id z : - 2 ^ 63 <= z < 2 ^ 63 -> s64 z = z.
Proof. unfold swrap. dlia. Qed.
Lemma s64_cong x y : u64 x = u64 y -> s64 x = s64 y.
Proof. unfold swrap, uwrap. dlia. Qed.
Lemma u64_s64 z : u64 (s64 z) = u64 z.
Proof. unfold swrap, uwrap. dlia. Qed.
Lemma u64_opp_s64 z : u64 (- s64 z) = u64 (- z).
Proof. unfold swrap, uwrap. dlia. Qed.

(** The reading of two halves depends on them up to multiples of [2^64]. *)
Lemma ll_cong h l z :
  word 32 l -> u64 (h * 2 ^ 32 + l) = u64 z -> ll (UU h l) = s64 z.
Proof. intros Hl H. unfold ll. apply s64_cong. rewrite ull_val by done. exact H. Qed.

Lemma uu_split a :
  exists h l, of_ll a = UU h l /\ word 32 h /\ word 32 l /\ h * 2 ^ 32 + l = u64 a.
Proof.
  destruct (of_ll_ok a). exists (uiH (of_ll a)), (uiL (of_ll a)).
  split; [by destruct (of_ll a)|]. split_and!; [done..|apply of_ll_val].
Qed.
Ltac split_ll a :=
  let h := fresh "h" in let l := fresh "l" in let E := fresh "E" in
  destruct (uu_split a) as (h & l & E & ? & ? & ?); rewrite E; clear E;
  cbn [uiH uiL].

(** ** Addition and subtraction *)
Ltac carry := repeat match goal with
  | |- context [Z.b2z (?x <? ?y)] => destruct (Z.ltb_spec x y)
  | |- context [Z.b2z (?x >? ?y)] =>
      rewrite (Z.gtb_ltb x y); destruct (Z.ltb_spec y x)
  end; cbn [Z.b2z].

Lemma adddi3_spec a b : __adddi3 a b = s64 (a + b).
Proof.
  unfold __adddi3. split_ll a. split_ll b. unfold word in *.
  carry; apply ll_cong; unfold word, uwrap in *; dlia.
Qed.
Lemma subdi3_spec a b : __subdi3 a b = s64 (a - b).
Proof.
  unfold __subdi3. split_ll a. split_ll b. unfold word in *.
  carry; apply ll_cong; unfold word, uwrap in *; dlia.
Qed.
Lemma negdi2_spec a : __negdi2 a = s64 (- a).
Proof.
  unfold __negdi2. split_ll a. unfold word in *.
  carry; apply ll_cong; unfold word, uwrap in *; dlia.
Qed.

(** ** Bitwise operations and shifts, bit by bit *)
Lemma uiL_bit a i : Z.testbit (uiL (of_ll a)) i = (i <? 32) && Z.testbit a i.
Proof. cbn. by rewrite uwrap_testbit by lia. Qed.
Lemma uiH_bit a i :
  0 <= i -> Z.testbit (uiH (of_ll a)) i = (i <? 32) && Z.testbit a (i + 32).
Proof.
  intros. cbn. rewrite Z.shiftr_spec, uwrap_testbit by lia. f_equal.
  destruct (Z.ltb_spec (i + 32) 64), (Z.ltb_spec i 32); lia.
Qed.
Lemma ll_bits h l z :
  word 32 l ->
  (forall i, 0 <= i < 64 ->
     (if i <? 32 then Z.testbit l i else Z.testbit h (i - 32)) = Z.testbit z i) ->
  ll (UU h l) = s64 z.
Proof.
  intros Hl H. unfold ll. apply s64_cong. apply Z.bits_inj'. intros i Hi.
  rewrite !uwrap_testbit by lia. destruct (Z.ltb_spec i 64); [|done]. cbn.
  rewrite <- H by lia. unfold ull. cbn. rewrite Z.lor_spec.
  destruct (Z.ltb_spec i 32).
  - by rewrite Z.shiftl_spec_low by lia.
  - by rewrite Z.shiftl_spec, (bits_above 32 l), orb_false_r by (unfold word in *; lia).
Qed.

(** The high half of a signed value keeps its sign. *)
Lemma siH_bit a i :
  - 2 ^ 63 <= a < 2 ^ 63 -> 0 <= i -> Z.testbit (siH (of_ll a)) i = Z.testbit a (i + 32).
Proof.
  intros Ha Hi. replace (siH (of_ll a)) with (Z.shiftr a 32).
  - by rewrite Z.shiftr_spec by lia.
  - unfold siH, of_ll. cbn [uiH]. unfold uwrap, swrap.
    rewrite !Z.shiftr_div_pow2 by lia. dlia.
Qed.

(** From bit 63 on a [long long] repeats its sign. *)
Lemma sign_bit a i : - 2 ^ 63 <= a < 2 ^ 63 -> 63 <= i -> Z.testbit a i = (a <? 0).
Proof.
  intros Ha Hi. destruct (Z.ltb_spec a 0).
  - rewrite <- (Z.lnot_involutive a), Z.lnot_spec by lia.
    rewrite (bits_above 63); [done| |lia]. pose proof (Z.add_lnot_diag a). lia.
  - apply (bits_above 63); lia.
Qed.

Ltac bits := repeat first
  [ match goal with
    | |- context [Z.testbit ?x ?n] => rewrite (Z.testbit_neg_r x n) by lia
    end
  | rewrite Z.land_spec | rewrite Z.lor_spec | rewrite Z.lxor_spec | rewrite uiL_bit
  | rewrite uiH_bit by lia | rewrite uwrap_testbit by lia | rewrite Z.lnot_spec by lia
  | rewrite siH_bit by lia
  | rewrite Z.bits_0 | rewrite Z.shiftr_spec by lia | rewrite Z.shiftl_spec by lia
  | progress cbn [andb orb]
  | match goal with
    | |- context [?x <? ?y] => destruct (Z.ltb_spec x y); try lia
    end
  | rewrite andb_false_r | rewrite orb_false_r ];
  try done; try (repeat (f_equal; try lia); fail).
Lemma word_bits w z :
  0 <= w -> 0 <= z -> (forall i, w <= i -> Z.testbit z i = false) -> word w z.
Proof. split; [done|]. by apply bits_bound. Qed.

Lemma anddi3_spec a b : __anddi3 a b = s64 (Z.land a b).
Proof.
  unfold __anddi3. apply ll_bits.
  - apply word_bits; [lia|apply Z.land_nonneg; left; apply of_ll_ok|].
    intros i Hi. bits.
  - intros i Hi. bits.
Qed.
Lemma iordi3_spec a b : __iordi3 a b = s64 (Z.lor a b).
Proof.
  unfold __iordi3. apply ll_bits.
  - apply word_bits; [lia|apply Z.lor_nonneg; split; apply of_ll_ok|].
    intros i Hi. bits.
  - intros i Hi. bits.
Qed.
Lemma xordi3_spec a b : __xordi3 a b = s64 (Z.lxor a b).
Proof.
  unfold __xordi3. apply ll_bits.
  - apply word_bits; [lia|apply Z.lxor_nonneg; split; intros; apply of_ll_ok|].
    intros i Hi. bits.
  - intros i Hi. bits.
Qed.
Lemma one_cmpldi2_spec a : __one_cmpldi2 a = s64 (Z.lnot a).
Proof.
  unfold __one_cmpldi2. apply ll_bits; [by apply uwrap_range|].
  intros i Hi. bits.
Qed.

Section shifts.
Context (a shift : Z) (Ha : - 2 ^ 63 <= a < 2 ^ 63) (Hs : 0 <= shift < 64).

Lemma shiftr_word w z n : word w z -> 0 <= n -> 0 <= w -> word w (Z.shiftr z n).
Proof.
  intros [Hz Hz'] Hn Hw. apply word_bits; [done|by apply Z.shiftr_nonneg|].
  intros i Hi. rewrite Z.shiftr_spec by lia. apply (bits_above w); [done|lia].
Qed.

Lemma ashldi3_spec : __ashldi3 a shift = s64 (Z.shiftl a shift).
Proof.
  unfold __ashldi3, INT_BITS. destruct (Z.eqb_spec shift 0) as [->|].
  { by rewrite Z.shiftl_0_r, s64_id. }
  rewrite Z.geb_leb. destruct (Z.leb_spec 32 shift); apply ll_bits.
  - unfold word. lia.
  - intros i Hi. destruct (Z.ltb_spec i 32).
    + rewrite Z.bits_0, Z.shiftl_spec_low by lia. done.
    + bits.
  - by apply uwrap_range.
  - intros i Hi. destruct (decide (i < 32 + shift)), (decide (i < shift)); bits.
Qed.

(** The two left shifts are the same function. *)
Lemma lshldi3_ashldi3 b n : __lshldi3 b n = __ashldi3 b n.
Proof. reflexivity. Qed.

Lemma lshrdi3_spec : __lshrdi3 a shift = s64 (Z.shiftr (u64 a) shift).
Proof.
  destruct (of_ll_ok a) as [HH HL].
  unfold __lshrdi3, INT_BITS. destruct (Z.eqb_spec shift 0) as [->|].
  { rewrite Z.shiftr_0_r, (s64_cong _ a), s64_id; [done..|by apply uwrap_idem]. }
  rewrite Z.geb_leb. destruct (Z.leb_spec 32 shift); apply ll_bits.
  - apply shiftr_word; [done|lia..].
  - intros i Hi. bits.
  - apply lor_range; [lia| |by apply uwrap_range].
    apply shiftr_word; [done|lia..].
  - intros i Hi. destruct (decide (i + shift < 32)), (decide (i < 32)); bits.
Qed.

Lemma ashrdi3_spec : __ashrdi3 a shift = Z.shiftr a shift.
Proof.
  destruct (of_ll_ok a) as [HH HL].
  assert (Hr : - 2 ^ 63 <= Z.shiftr a shift < 2 ^ 63).
  { rewrite Z.shiftr_div_pow2 by lia. pose proof (Z.pow_pos_nonneg 2 shift ltac:(lia)).
    split; [apply Z.div_le_lower_bound|apply Z.div_lt_upper_bound]; nia. }
  rewrite <- (s64_id (Z.shiftr a shift)) by done.
  unfold __ashrdi3, INT_BITS. destruct (Z.eqb_spec shift 0) as [->|].
  { by rewrite Z.shiftr_0_r, s64_id. }
  rewrite Z.geb_leb. destruct (Z.leb_spec 32 shift); apply ll_bits.
  - by apply uwrap_range.
  - intros i Hi. bits. by rewrite !sign_bit by lia.
  - apply lor_range; [lia| |by apply uwrap_range].
    apply shiftr_word; [done|lia..].
  - intros i Hi. destruct (decide (i + shift < 32)), (decide (i < 32)); bits.
Qed.
End shifts.

(** ** Comparison *)
Definition cmp_code (c : comparison) : Z :=
  match c with Lt => 0 | Eq => 1 | Gt => 2 end.

Ltac cmp_cases := repeat match goal with
  | |- context [?x >? ?y] => rewrite (Z.gtb_ltb x y)
  | |- context [?x <? ?y] => destruct (Z.ltb_spec x y); try lia
  end.
Lemma cmp_halves h1 l1 h2 l2 :
  word 32 l1 -> word 32 l2 ->
  (if h1 <? h2 then 0 else if h1 >? h2 then 2
   else if l1 <? l2 then 0 else if l1 >? l2 then 2 else 1)
  = cmp_code (h1 * 2 ^ 32 + l1 ?= h2 * 2 ^ 32 + l2).
Proof.
  unfold word. intros H1 H2. destruct (Z.compare_spec (h1 * 2 ^ 32 + l1) (h2 * 2 ^ 32 + l2));
    cbn [cmp_code]; cmp_cases.
Qed.

Lemma ucmpdi2_spec a b : word 64 a -> word 64 b -> __ucmpdi2 a b = cmp_code (a ?= b).
Proof.
  unfold __ucmpdi2, word. intros. rewrite cmp_halves by apply of_ll_ok.
  by rewrite !of_ll_val, !uwrap_small.
Qed.
Lemma siH_val a : - 2 ^ 63 <= a < 2 ^ 63 -> siH (of_ll a) * 2 ^ 32 + uiL (of_ll a) = a.
Proof.
  intros. unfold siH, of_ll. cbn [uiH uiL]. unfold uwrap, swrap.
  rewrite !Z.shiftr_div_pow2 by lia. dlia.
Qed.
Lemma cmpdi2_spec a b :
  - 2 ^ 63 <= a < 2 ^ 63 -> - 2 ^ 63 <= b < 2 ^ 63 -> __cmpdi2 a b = cmp_code (a ?= b).
Proof.
  unfold __cmpdi2. intros. rewrite cmp_halves by apply of_ll_ok.
  by rewrite !siH_val.
Qed.

(** ** Multiplication *)
Lemma HHALF_val x : word 32 x -> HHALF x = x / 2 ^ 16.
Proof. intros. unfold HHALF. by rewrite uwrap_small, Z.shiftr_div_pow2. Qed.
Lemma LHALF_val x : LHALF x = u32 x mod 2 ^ 16.
Proof. exact (Z.land_ones (u32 x) 16 ltac:(lia)). Qed.
Lemma LHUP_val x : LHUP x = u32 (u32 x * 2 ^ 16).
Proof. unfold LHUP. by rewrite Z.shiftl_mul_pow2. Qed.

(** Adding [m << 16] to the double word [(ph, pl)], and taking it away. *)
Lemma acc_add ph pl m :
  word 32 ph -> word 32 pl -> word 32 m ->
  let pl' := u32 (pl + LHUP m) in
  let ph' := u32 (ph + u32 (HHALF m + Z.b2z (pl' <? pl))) in
  u64 (ph' * 2 ^ 32 + pl') = u64 (ph * 2 ^ 32 + pl + m * 2 ^ 16).
Proof.
  cbv zeta. intros. rewrite HHALF_val, LHUP_val by done.
  carry; unfold word, uwrap in *; dlia.
Qed.
Lemma acc_sub ph pl m :
  word 32 ph -> word 32 pl -> word 32 m ->
  let pl' := u32 (pl - LHUP m) in
  let ph' := u32 (ph - u32 (HHALF m + Z.b2z (pl' >? pl))) in
  u64 (ph' * 2 ^ 32 + pl') = u64 (ph * 2 ^ 32 + pl - m * 2 ^ 16).
Proof.
  cbv zeta. intros. rewrite HHALF_val, LHUP_val by done.
  carry; unfold word, uwrap in *; dlia.
Qed.
Lemma acc_low ph pl m :
  word 32 ph -> word 32 pl -> word 32 m ->
  let pl' := u32 (pl + m) in
  let ph' := if pl' <? m then u32 (ph + 1) else ph in
  u64 (ph' * 2 ^ 32 + pl') = u64 (ph * 2 ^ 32 + pl + m).
Proof.
  cbv zeta. intros. destruct (Z.ltb_spec (u32 (pl + m)) m); unfold word, uwrap in *; dlia.
Qed.

Lemma u64_add x y z : u64 x = u64 y -> u64 (x + z) = u64 (y + z).
Proof. unfold uwrap. intros. by rewrite <- Zplus_mod_idemp_l, H, Zplus_mod_idemp_l. Qed.
Lemma u64_sub x y z : u64 x = u64 y -> u64 (x - z) = u64 (y - z).
Proof. apply (u64_add x y (- z)). Qed.
Lemma word_u32 z : word 32 (u32 z).
Proof. by apply uwrap_range. Qed.
Lemma word_LHUP z : word 32 (LHUP z).
Proof. by apply uwrap_range. Qed.
#[local] Hint Resolve word_u32 word_LHUP : core.

(** The assembly of a product from [high], [mid] and [low]. *)
Lemma lmulq_sum_spec (neg : bool) high mid low :
  word 32 high -> word 32 mid -> word 32 low ->
  __lmulq_sum neg high mid low
  = s64 (high * 2 ^ 32 + high * 2 ^ 16
         + (if neg then - (mid * 2 ^ 16) else mid * 2 ^ 16) + low * 2 ^ 16 + low).
Proof.
  intros Hh Hm Hl. unfold __lmulq_sum.
  assert (H0 : u64 (u32 (high + HHALF high) * 2 ^ 32 + LHUP high)
             = u64 (high * 2 ^ 32 + high * 2 ^ 16)).
  { rewrite HHALF_val, LHUP_val by done. unfold word, uwrap in *. dlia. }
  destruct neg; (apply ll_cong; [done|]); (etrans; [by apply acc_low|]);
    apply u64_add; (etrans; [by apply acc_add|]); apply u64_add.
  - etrans; [by apply acc_sub|]. by apply u64_sub.
  - etrans; [by apply acc_add|]. by apply u64_add.
Qed.

(** The difference of two words, as the code takes it, is exact. *)
Lemma u32_diff x y : word 32 x -> word 32 y -> y <= x -> u32 (x - y) = x - y.
Proof. unfold word. intros. apply uwrap_small. lia. Qed.

Lemma halves x :
  word 32 x -> x = x / 2 ^ 16 * 2 ^ 16 + x mod 2 ^ 16 /\ word 16 (x mod 2 ^ 16)
               /\ word 16 (x / 2 ^ 16).
Proof. unfold word. dlia. Qed.

Lemma lmulq_spec u v : word 32 u -> word 32 v -> __lmulq u v = s64 (u * v).
Proof.
  intros Hu Hv. unfold __lmulq.
  rewrite (HHALF_val u), (HHALF_val v), !LHALF_val, !(uwrap_small 32 u), !(uwrap_small 32 v)
    by done.
  destruct (halves u Hu) as (Eu & ? & ?), (halves v Hv) as (Ev & ? & ?).
  set (u1 := u / 2 ^ 16) in *. set (u0 := u mod 2 ^ 16) in *.
  set (v1 := v / 2 ^ 16) in *. set (v0 := v mod 2 ^ 16) in *.
  clearbody u1 u0 v1 v0. subst u v.
  unfold word in *.
  assert (forall x y, 0 <= x < 2 ^ 16 -> 0 <= y < 2 ^ 16 -> word 32 (x * y)) as Hw.
  { unfold word. nia. }
  rewrite !Z.geb_leb, (uwrap_small 32 (u0 * v0)), (uwrap_small 32 (u1 * v1)) by by apply Hw.
  destruct ((u1 =? 0) && (v1 =? 0)) eqn:E.
  { apply andb_true_iff in E as [->%Z.eqb_eq ->%Z.eqb_eq].
    replace ((_ + u0) * _) with (u0 * v0) by ring.
    rewrite s64_id; [done|]. specialize (Hw u0 v0). unfold word in Hw. lia. }
  destruct (Z.leb_spec u0 u1), (Z.leb_spec v1 v0); cbn [negb];
    rewrite ?(u32_diff u1 u0), ?(u32_diff u0 u1), ?(u32_diff v0 v1), ?(u32_diff v1 v0)
      by (unfold word; lia).
  all: lazymatch goal with
    | |- context [u32 ((?x - ?y) * (?z - ?t))] =>
        assert (Hm : word 32 ((x - y) * (z - t))) by (apply Hw; lia);
        rewrite (uwrap_small 32 ((x - y) * (z - t)) Hm)
    end.
  all: rewrite lmulq_sum_spec by first [exact Hm|apply Hw; lia]; f_equal; ring.
Qed.

(** The product of [u] and [v] by halves, modulo [2^64]. *)
Lemma mul_halves u1 u0 v1 v0 mid lh l :
  l + lh * 2 ^ 32 = u0 * v0 -> u32 mid = u32 ((u1 - u0) * (v0 - v1)) ->
  u64 (u32 (u32 (u1 * v1) + mid + l + lh) * 2 ^ 32 + l)
  = u64 ((u1 * 2 ^ 32 + u0) * (v1 * 2 ^ 32 + v0)).
Proof.
  intros Hl Hm.
  replace ((u1 * 2 ^ 32 + u0) * (v1 * 2 ^ 32 + v0))
    with ((u1 * v0 + u0 * v1 + lh) * 2 ^ 32 + l + u1 * v1 * 2 ^ 64) by lia.
  replace ((u1 - u0) * (v0 - v1)) with (u1 * v0 + u0 * v1 - u1 * v1 - u0 * v0) in Hm by ring.
  unfold uwrap in *. dlia.
Qed.

Lemma u32_opp z : u32 (- u32 z) = u32 (- z).
Proof. unfold uwrap. dlia. Qed.

(** The signed difference as sign and magnitude, modulo [2^32]. *)
Lemma signed_mid u1 u0 v1 v0 :
  word 32 u1 -> word 32 u0 -> word 32 v1 -> word 32 v0 ->
  let '(udiff, negmid) :=
    if u1 >=? u0 then (u32 (u1 - u0), false) else (u32 (u0 - u1), true) in
  let '(vdiff, negmid) :=
    if v0 >=? v1 then (u32 (v0 - v1), negmid) else (u32 (v1 - v0), negb negmid) in
  u32 (if negmid : bool then u32 (- u32 (udiff * vdiff)) else u32 (udiff * vdiff))
  = u32 ((u1 - u0) * (v0 - v1)).
Proof.
  intros. rewrite !Z.geb_leb.
  destruct (Z.leb_spec u0 u1), (Z.leb_spec v1 v0); cbn [negb];
    rewrite !u32_diff by (try done; lia); rewrite ?u32_opp, !uwrap_idem; f_equal; ring.
Qed.

Lemma lmulq_halves u v :
  word 32 u -> word 32 v ->
  uiL (of_ll (__lmulq u v)) + uiH (of_ll (__lmulq u v)) * 2 ^ 32 = u * v.
Proof.
  intros Hu Hv. rewrite Z.add_comm, of_ll_val, lmulq_spec, u64_s64 by done.
  apply uwrap_small. unfold word in *. nia.
Qed.

Lemma muldi3_prod_spec u v :
  uu_ok u -> uu_ok v ->
  word 32 (uiL (__muldi3_prod u v)) /\
  u64 (ull (__muldi3_prod u v))
  = u64 ((uiH u * 2 ^ 32 + uiL u) * (uiH v * 2 ^ 32 + uiL v)).
Proof.
  intros [Hu1 Hu0] [Hv1 Hv0]. unfold __muldi3_prod.
  destruct (of_ll_ok (__lmulq (uiL u) (uiL v))) as [_ Hlow].
  pose proof (lmulq_halves _ _ Hu0 Hv0) as Hl.
  pose proof (signed_mid _ _ _ _ Hu1 Hu0 Hv1 Hv0) as Hm.
  destruct ((uiH u =? 0) && (uiH v =? 0)) eqn:E.
  { apply andb_true_iff in E as [->%Z.eqb_eq ->%Z.eqb_eq]. split; [exact Hlow|].
    rewrite ull_val by exact Hlow. f_equal. lia. }
  destruct (uiH u >=? uiL u), (uiL v >=? uiH v); cbn [negb uiH uiL] in *;
    (split; [exact Hlow|]); rewrite ull_val by exact Hlow; exact (mul_halves _ _ _ _ _ _ _ Hl Hm).
Qed.

Lemma u64_mul x y : u64 (u64 x * u64 y) = u64 (x * y).
Proof. symmetry. apply Zmult_mod. Qed.
Lemma u64_opp x y : u64 x = u64 y -> u64 (- x) = u64 (- y).
Proof. unfold uwrap. dlia. Qed.

Lemma muldi3_spec a b : __muldi3 a b = s64 (a * b).
Proof.
  unfold __muldi3. rewrite !Z.geb_leb.
  destruct (Z.leb_spec 0 a), (Z.leb_spec 0 b); cbn [negb];
    match goal with |- context [__muldi3_prod (of_ll ?x) (of_ll ?y)] =>
      destruct (muldi3_prod_spec _ _ (of_ll_ok x) (of_ll_ok y)) as [_ Hp];
      rewrite !of_ll_val, ?u64_s64, u64_mul in Hp; unfold ll
    end; apply s64_cong; rewrite ?u64_opp_s64.
  - exact Hp.
  - rewrite (u64_opp _ _ Hp). f_equal. ring.
  - rewrite (u64_opp _ _ Hp). f_equal. ring.
  - rewrite Hp. f_equal. ring.
Qed.

(** Every 64-bit helper that works on two 32-bit halves computes the
    operation of the [long long] type: sum, difference, negation and product
    modulo [2^64] in two's complement, the bitwise operations, the shifts by
    less than 64 places (the right shift of a signed value keeps the sign) and
    the signed and unsigned three-way comparisons. *)
Theorem longlong_helpers_correct a b shift :
  - 2 ^ 63 <= a < 2 ^ 63 -> - 2 ^ 63 <= b < 2 ^ 63 -> 0 <= shift < 64 ->
  __adddi3 a b = s64 (a + b) /\ __subdi3 a b = s64 (a - b) /\ __negdi2 a = s64 (- a) /\
  __muldi3 a b = s64 (a * b) /\
  __anddi3 a b = s64 (Z.land a b) /\ __iordi3 a b = s64 (Z.lor a b) /\
  __xordi3 a b = s64 (Z.lxor a b) /\ __one_cmpldi2 a = s64 (Z.lnot a) /\
  __ashldi3 a shift = s64 (Z.shiftl a shift) /\ __lshldi3 a shift = s64 (Z.shiftl a shift) /\
  __ashrdi3 a shift = Z.shiftr a shift /\ __lshrdi3 a shift = s64 (Z.shiftr (u64 a) shift) /\
  __cmpdi2 a b = cmp_code (a ?= b) /\
  __ucmpdi2 (u64 a) (u64 b) = cmp_code (u64 a ?= u64 b).
Proof.
  intros Ha Hb Hs. split_and!.
  - apply adddi3_spec.
  - apply subdi3_spec.
  - apply negdi2_spec.
  - apply muldi3_spec.
  - apply anddi3_spec.
  - apply iordi3_spec.
  - apply xordi3_spec.
  - apply one_cmpldi2_spec.
  - by apply ashldi3_spec.
  - rewrite lshldi3_ashldi3. by apply ashldi3_spec.
  - by apply ashrdi3_spec.
  - by apply lshrdi3_spec.
  - by apply cmpdi2_spec.
  - by apply ucmpdi2_spec; apply uwrap_range.
Qed.
Lemma longlong_helpers_correct_witness :
  __muldi3 (-3) (2 ^ 40) = -3298534883328 /\ __ashrdi3 (-3) 1 = -2.
Proof.
  destruct (longlong_helpers_correct (-3) (2 ^ 40) 1)
    as (_ & _ & _ & H1 & _ & _ & _ & _ & _ & _ & H2 & _); [lia..|].
  split; [exact H1|exact H2].
Defined.
