(* ===== verification/Qdivrem.v ===== *)
(** Division: [__qdivrem] and its callers (common/gcc-millicode)

    qdivrem.c is Knuth's Algorithm D on digits of 16 bits.  The three arrays
    of the function are lists of five digits in which a digit never written is
    [None]; reading one, or going outside an array, stops, so that the theorem
    that the function comes back also says that it stays inside its arrays and
    never uses an uninitialised digit.  The pointers [u], [v] and [q] are
    offsets into them.  The theorems say that the function returns the
    quotient and the remainder, and that the signed and unsigned helpers built
    on it compute C's [/] and [%]. *)
From S2P Require Import Prelude Millicode.

Definition B : Z := Z.shiftl 1 HALF_BITS.
(** [COMBINE(a, b)] *)
Definition COMBINE (a b : Z) : Z := Z.lor (u32 (Z.shiftl a HALF_BITS)) b.

(** [digit uspace[5]] and the like. *)
Abbreviation digits := (list (option Z)).
Definition space5 : digits := replicate 5 None.
Definition rd (a : digits) (i : Z) : outcome Z :=
  if i <? 0 then Stop BadAccess
  else match a !! Z.to_nat i with
       | Some (Some d) => Done d
       | _ => Stop BadAccess
       end.
Definition wr (a : digits) (i d : Z) : outcome digits :=
  if (0 <=? i) && (i <? Z.of_nat (length a))
  then Done (<[Z.to_nat i := Some d]> a) else Stop BadAccess.
(** [/] and [%] on [unsigned int]. *)
Definition udiv (a b : Z) : outcome Z := if b =? 0 then Stop DivZero else Done (a / b).
Definition umod (a b : Z) : outcome Z := if b =? 0 then Stop DivZero else Done (a mod b).

(** [shl]: shift [p[0]..p[len]] left, [p] being the array at offset [o]. *)
Fixpoint shl_loop (k : nat) (a : digits) (o i sh : Z) : outcome digits :=
  match k with
  | O => Done a
  | S k' =>
      x ← rd a (o + i);
      y ← rd a (o + i + 1);
      a ← wr a (o + i)
             (u16 (Z.lor (LHALF (u32 (Z.shiftl x sh))) (Z.shiftr y (HALF_BITS - sh))));
      shl_loop k' a o (i + 1) sh
  end.
Definition shl (a : digits) (o len sh : Z) : outcome digits :=
  a ← shl_loop (Z.to_nat len) a o 0 sh;
  x ← rd a (o + len);
  wr a (o + len) (u16 (LHALF (u32 (Z.shiftl x sh)))).

(** The digits of a 64-bit value, at index 1 to 4. *)
Definition put_digits (a : digits) (tmp : uu) : outcome digits :=
  a ← wr a 1 (u16 (HHALF (uiH tmp)));
  a ← wr a 2 (u16 (LHALF (uiH tmp)));
  a ← wr a 3 (u16 (HHALF (uiL tmp)));
  wr a 4 (u16 (LHALF (uiL tmp))).
Definition get_digits (a : digits) : outcome uu :=
  d1 ← rd a 1; d2 ← rd a 2; d3 ← rd a 3; d4 ← rd a 4;
  Done (UU (COMBINE d1 d2) (COMBINE d3 d4)).

(** [for (n = 4; v[1] == 0; v++) if (--n == 1) ...]: the offset of [v] and
    [n]; [n = 1] is the way into the short division.  At most three digits are
    skipped. *)
Fixpoint skip_v (k : nat) (vs : digits) (v n : Z) : outcome (Z * Z) :=
  x ← rd vs (v + 1);
  if x =? 0 then
    if n - 1 =? 1 then Done (v, n - 1)
    else match k with
         | O => Stop NoFuel
         | S k' => skip_v k' vs (v + 1) (n - 1)
         end
  else Done (v, n).

(** The short division, for a divisor of one digit. *)
Definition short_div (us : digits) (t : Z) : outcome (uu * Z) :=
  u1 ← rd us 1; u2 ← rd us 2; u3 ← rd us 3; u4 ← rd us 4;
  q1 ← udiv u1 t;
  r1 ← umod u1 t;
  let rbj := COMBINE r1 u2 in
  q2 ← udiv rbj t;
  r2 ← umod rbj t;
  let rbj := COMBINE r2 u3 in
  q3 ← udiv rbj t;
  r3 ← umod rbj t;
  let rbj := COMBINE r3 u4 in
  q4 ← udiv rbj t;
  r ← umod rbj t;
  Done (UU (COMBINE (u16 q1) (u16 q2)) (COMBINE (u16 q3) (u16 q4)), r).

(** [for (m = 4 - n; u[1] == 0; u++) m--;] *)
Fixpoint skip_u (k : nat) (us : digits) (u m : Z) : outcome (Z * Z) :=
  x ← rd us (u + 1);
  if x =? 0 then
    match k with
    | O => Stop NoFuel
    | S k' => skip_u k' us (u + 1) (m - 1)
    end
  else Done (u, m).
(** [for (i = 4 - m; --i >= 0;) q[i] = 0;] *)
Fixpoint zero_q (k : nat) (qs : digits) : outcome digits :=
  match k with
  | O => Done qs
  | S k' => qs ← wr qs (Z.of_nat k') 0; zero_q k' qs
  end.
(** D1: [for (t = v[1]; t < B / 2; t <<= 1) d++;] *)
Fixpoint norm_shift (k : nat) (t d : Z) : outcome Z :=
  if t <? B / 2 then
    match k with
    | O => Stop NoFuel
    | S k' => norm_shift k' (u32 (Z.shiftl t 1)) (d + 1)
    end
  else Done d.

(** D3, from the label [qhat_too_big] on. *)
Fixpoint qhat_too_big (k : nat) (v1 v2 uj2 qhat rhat : Z) : outcome Z :=
  let qhat := u32 (qhat - 1) in
  let rhat := u32 (rhat + v1) in
  if rhat >=? B then Done qhat
  else if u32 (v2 * qhat) >? COMBINE rhat uj2 then
    match k with
    | O => Stop NoFuel
    | S k' => qhat_too_big k' v1 v2 uj2 qhat rhat
    end
  else Done qhat.
(** D3: the estimate of a digit of the quotient.  The divisor is normalised,
    so that [rhat] reaches [B] after two rounds. *)
Definition calc_qhat (v1 v2 uj0 uj1 uj2 : Z) : outcome Z :=
  if uj0 =? v1 then qhat_too_big 2 v1 v2 uj2 B uj1
  else
    let nn := COMBINE uj0 uj1 in
    qhat ← udiv nn v1;
    rhat ← umod nn v1;
    if u32 (v2 * qhat) >? COMBINE rhat uj2
    then qhat_too_big 2 v1 v2 uj2 qhat rhat
    else Done qhat.

(** D4: multiply and subtract; [i] runs down from [n], [uj] is [u + j]. *)
Fixpoint mul_sub (i : nat) (us : digits) (uj : Z) (vs : digits) (v qhat t : Z)
    : outcome (digits * Z) :=
  match i with
  | O => Done (us, t)
  | S i' =>
      x ← rd us (uj + Z.of_nat i);
      y ← rd vs (v + Z.of_nat i);
      let t := u32 (x - u32 (y * qhat) - t) in
      us ← wr us (uj + Z.of_nat i) (u16 (LHALF t));
      mul_sub i' us uj vs v qhat (Z.land (u32 (B - HHALF t)) (B - 1))
  end.
(** D6: add back. *)
Fixpoint add_back (i : nat) (us : digits) (uj : Z) (vs : digits) (v t : Z)
    : outcome (digits * Z) :=
  match i with
  | O => Done (us, t)
  | S i' =>
      x ← rd us (uj + Z.of_nat i);
      y ← rd vs (v + Z.of_nat i);
      let t := u32 (t + (x + y)) in
      us ← wr us (uj + Z.of_nat i) (u16 (LHALF t));
      add_back i' us uj vs v (HHALF t)
  end.

(** D3 to D6 for one digit of the quotient: the new dividend and [qhat]. *)
Definition div_digit (us : digits) (uj : Z) (vs : digits) (v n v1 v2 : Z)
    : outcome (digits * Z) :=
  uj0 ← rd us uj;
  uj1 ← rd us (uj + 1);
  uj2 ← rd us (uj + 2);
  qhat ← calc_qhat v1 v2 uj0 uj1 uj2;
  '(us, t) ← mul_sub (Z.to_nat n) us uj vs v qhat 0;
  x ← rd us uj;
  let t := u32 (x - t) in
  us ← wr us uj (u16 (LHALF t));
  if HHALF t =? 0 then Done (us, qhat)
  else
    let qhat := u32 (qhat - 1) in
    '(us, t) ← add_back (Z.to_nat n) us uj vs v 0;
    x ← rd us uj;
    us ← wr us uj (u16 (LHALF (x + t)));
    Done (us, qhat).

(** D2 and D7: [do ... while (++j <= m);] with [m - j + 1] rounds. *)
Fixpoint div_loop (k : nat) (us : digits) (u : Z) (vs : digits) (v n v1 v2 : Z)
    (qs : digits) (q j m : Z) : outcome (digits * digits) :=
  '(us, qhat) ← div_digit us (u + j) vs v n v1 v2;
  qs ← wr qs (q + j) (u16 qhat);
  if j + 1 <=? m then
    match k with
    | O => Stop NoFuel
    | S k' => div_loop k' us u vs v n v1 v2 qs q (j + 1) m
    end
  else Done (us, qs).

(** The remainder: [for (i = m + n; i > m; --i) ...], [k = i - m]. *)
Fixpoint shr_loop (k : nat) (us : digits) (um d : Z) : outcome digits :=
  match k with
  | O => Done us
  | S k' =>
      x ← rd us (um + Z.of_nat k);
      y ← rd us (um + Z.of_nat k - 1);
      us ← wr us (um + Z.of_nat k)
             (u16 (Z.lor (Z.shiftr x d) (LHALF (u32 (Z.shiftl y (HALF_BITS - d))))));
      shr_loop k' us um d
  end.

(** D1: [if (d > 0) { shl(&u[0], m + n, d); shl(&v[1], n - 1, d); }] *)
Definition normalise (us vs : digits) (u v m n d : Z) : outcome (digits * digits) :=
  if d >? 0 then
    us ← shl us u (m + n) d;
    vs ← shl vs (v + 1) (n - 1) d;
    Done (us, vs)
  else Done (us, vs).
(** [if (arq) ...]: the remainder of the loop, shifted back. *)
Definition remainder (us : digits) (u m n d : Z) : outcome Z :=
  us ← (if d =? 0 then Done us
        else
          us ← shr_loop (Z.to_nat n) us (u + m) d;
          wr us (u + m) 0);
  tmp ← get_digits us;
  Done (u64 (ll tmp)).
(** Program D, for a divisor [v[1..n]] of at least two digits. *)
Definition long_div (us vs : digits) (v n : Z) (arq : bool) : outcome (Z * option Z) :=
  '(u, m) ← skip_u 3 us 0 (4 - n);
  qs ← zero_q (Z.to_nat (4 - m)) space5;
  let q := 4 - m in
  t ← rd vs (v + 1);
  d ← norm_shift 16 t 0;
  '(us, vs) ← normalise us vs u v m n d;
  v1 ← rd vs (v + 1);
  v2 ← rd vs (v + 2);
  '(us, qs) ← div_loop 4 us u vs v n v1 v2 qs q 0 m;
  r ← (if arq then r ← remainder us u m n d; Done (Some r) else Done None);
  tmp ← get_digits qs;
  Done (u64 (ll tmp), r).

(** [__qdivrem(ull, vll, arq)]; [arq] says whether the caller passed a place
    for the remainder. *)
Definition __qdivrem (ull vll : Z) (arq : bool) : outcome (Z * option Z) :=
  if vll =? 0 then Stop DivZero
  else if ull <? vll then Done (0, if arq then Some ull else None)
  else
    us ← wr space5 0 0;
    us ← put_digits us (of_ll ull);
    vs ← put_digits space5 (of_ll vll);
    '(v, n) ← skip_v 2 vs 0 4;
    if n =? 1 then
      t ← rd vs (v + 2);
      '(tmp, r) ← short_div us t;
      Done (u64 (ll tmp), if arq then Some r else None)
    else long_div us vs v n arq.

(** udivdi3.c, umoddi3.c, divdi3.c, moddi3.c.  The [None] of a remainder that
    was asked for cannot happen. *)
Definition __udivdi3 (a b : Z) : outcome Z :=
  '(q, _) ← __qdivrem a b false; Done q.
Definition __umoddi3 (a b : Z) : outcome Z :=
  '(_, r) ← __qdivrem a b true;
  match r with Some r => Done r | None => Stop BadAccess end.
Definition __divdi3 (a b : Z) : outcome Z :=
  let ua := u64 a in
  let ub := u64 b in
  let '(ua, neg) := if a <? 0 then (u64 (- ua), true) else (ua, false) in
  let '(ub, neg) := if b <? 0 then (u64 (- ub), negb neg) else (ub, neg) in
  '(uq, _) ← __qdivrem ua ub false;
  Done (s64 (if neg : bool then u64 (- uq) else uq)).
Definition __moddi3 (a b : Z) : outcome Z :=
  let ua := u64 a in
  let ub := u64 b in
  let '(ua, neg) := if a <? 0 then (u64 (- ua), true) else (ua, false) in
  let ub := if b <? 0 then u64 (- ub) else ub in
  '(_, r) ← __qdivrem ua ub true;
  match r with
  | Some ur => Done (s64 (if neg : bool then u64 (- ur) else ur))
  | None => Stop BadAccess
  end.

(** ** Arrays of digits

    [arr a f lo hi]: the array [a] holds the digits [f lo .. f (hi - 1)].
    [num f o k] is the value of the [k] digits from [o] on, most significant
    first. *)
Definition arr (a : digits) (f : Z -> Z) (lo hi : Z) : Prop :=
  length a = 5%nat /\ 0 <= lo /\ hi <= 5 /\
  forall i, lo <= i < hi -> a !! Z.to_nat i = Some (Some (f i)) /\ word 16 (f i).
Definition upd (f : Z -> Z) (i d : Z) : Z -> Z := fun j => if j =? i then d else f j.
Fixpoint num (f : Z -> Z) (o : Z) (k : nat) : Z :=
  match k with
  | O => 0
  | S k' => num f o k' * B + f (o + Z.of_nat k')
  end.

Lemma B_val : B = 2 ^ 16.
Proof. reflexivity. Qed.
Lemma upd_at f i d : upd f i d i = d.
Proof. unfold upd. by rewrite Z.eqb_refl. Qed.
Lemma upd_other f i d j : j <> i -> upd f i d j = f j.
Proof. intros H. unfold upd. by rewrite (proj2 (Z.eqb_neq j i) H). Qed.

Lemma rd_arr a f lo hi i : arr a f lo hi -> lo <= i < hi -> rd a i = Done (f i).
Proof.
  intros (_ & ? & _ & H) Hi. unfold rd. destruct (Z.ltb_spec i 0); [lia|].
  destruct (H i Hi) as [-> _]. done.
Qed.
Lemma arr_word a f lo hi i : arr a f lo hi -> lo <= i < hi -> word 16 (f i).
Proof. intros (_ & _ & _ & H) Hi. by apply H. Qed.
(** A write keeps the array and may extend it by one digit on either side. *)
Lemma wr_arr a f lo hi lo' hi' i d :
  arr a f lo hi -> word 16 d -> 0 <= i < 5 -> 0 <= lo' -> hi' <= 5 ->
  (forall j, lo' <= j < hi' -> j = i \/ lo <= j < hi) ->
  exists a', wr a i d = Done a' /\ arr a' (upd f i d) lo' hi'.
Proof.
  intros (Hl & ? & ? & H) Hd Hi ?? Hj. exists (<[Z.to_nat i := Some d]> a). split.
  - unfold wr. rewrite Hl. by rewrite (proj2 (Z.leb_le 0 i)), (proj2 (Z.ltb_lt i _)) by lia.
  - unfold arr. split_and!; [by rewrite length_insert|done..|]. intros j Hb.
    unfold upd. destruct (Z.eqb_spec j i) as [->|Hne].
    + split; [|done]. apply list_lookup_insert_eq. lia.
    + destruct (Hj j Hb) as [|Hr]; [done|]. rewrite list_lookup_insert_ne by lia. by apply H.
Qed.
Lemma wr_in a f lo hi i d :
  arr a f lo hi -> word 16 d -> lo <= i < hi ->
  exists a', wr a i d = Done a' /\ arr a' (upd f i d) lo hi.
Proof.
  intros Ha Hd Hi. pose proof Ha as (_ & ? & ? & _).
  apply (wr_arr a f lo hi); try done; [lia|]. intros. lia.
Qed.
Lemma arr_ext a f g lo hi :
  arr a f lo hi -> (forall i, lo <= i < hi -> g i = f i) -> arr a g lo hi.
Proof.
  intros (Hl & ? & ? & H) Hg. unfold arr. split_and!; try done. intros i Hi. rewrite Hg by done. by apply H.
Qed.

Lemma pow_S (k : nat) : B ^ Z.of_nat (S k) = B * B ^ Z.of_nat k.
Proof. rewrite Nat2Z.inj_succ, Z.pow_succ_r by lia. done. Qed.
Lemma pow_pos (k : nat) : 0 < B ^ Z.of_nat k.
Proof. apply Z.pow_pos_nonneg; [by rewrite B_val|lia]. Qed.

Lemma num_ext f g o k :
  (forall i, o <= i < o + Z.of_nat k -> f i = g i) -> num f o k = num g o k.
Proof.
  induction k as [|k IH]; intros H; [done|]. cbn [num]. rewrite IH, H; [done|lia|].
  intros i Hi. apply H. lia.
Qed.
Lemma num_bound f o k :
  (forall i, o <= i < o + Z.of_nat k -> word 16 (f i)) -> 0 <= num f o k < B ^ Z.of_nat k.
Proof.
  induction k as [|k IH]; intros H; [cbn; lia|].
  rewrite pow_S. cbn [num]. specialize (IH ltac:(intros; apply H; lia)).
  pose proof (H (o + Z.of_nat k) ltac:(lia)). unfold word in *. rewrite B_val in *. nia.
Qed.
Lemma num_app f o j k :
  num f o (j + k) = num f o j * B ^ Z.of_nat k + num f (o + Z.of_nat j) k.
Proof.
  induction k as [|k IH].
  - rewrite Nat.add_0_r. cbn [num]. change (B ^ Z.of_nat 0) with 1. lia.
  - rewrite Nat.add_succ_r, pow_S. cbn [num]. rewrite IH.
    replace (o + Z.of_nat (j + k)) with (o + Z.of_nat j + Z.of_nat k) by lia. ring.
Qed.
(** The leading digit apart. *)
Lemma num_cons f o k : num f o (S k) = f o * B ^ Z.of_nat k + num f (o + 1) k.
Proof.
  change (S k) with (1 + k)%nat. rewrite num_app. cbn [num].
  by rewrite Z.add_0_r, Z.mul_0_l, Z.add_0_l.
Qed.
Lemma num_upd_out f i d o k :
  ~ (o <= i < o + Z.of_nat k) -> num (upd f i d) o k = num f o k.
Proof. intros H. apply num_ext. intros j Hj. apply upd_other. lia. Qed.

(** ** One digit of multiply-and-subtract and of add-back *)
Lemma LHALF_word z : word 16 (LHALF z).
Proof. rewrite LHALF_val. unfold word. dlia. Qed.
Lemma u16_LHALF z : u16 (LHALF z) = LHALF z.
Proof. apply uwrap_small, LHALF_word. Qed.
Lemma HHALF_word z : word 16 (HHALF z).
Proof.
  unfold HHALF, HALF_BITS. rewrite Z.shiftr_div_pow2 by lia. unfold word, uwrap. dlia.
Qed.
Lemma land_B z : Z.land z (B - 1) = z mod B.
Proof. exact (Z.land_ones z 16 ltac:(lia)). Qed.

Lemma mul_sub_digit x y qhat t :
  word 16 x -> word 16 y -> word 16 qhat -> word 16 t ->
  let z := u32 (x - u32 (y * qhat) - t) in
  let t' := Z.land (u32 (B - HHALF z)) (B - 1) in
  word 16 t' /\ LHALF z - t' * B = x - y * qhat - t.
Proof.
  intros Hx Hy Hq Ht z t'. subst t'. rewrite land_B, LHALF_val, HHALF_val by apply word_u32.
  subst z. rewrite B_val. unfold word in *.
  assert (0 <= y * qhat <= (2 ^ 16 - 1) * (2 ^ 16 - 1)) by nia.
  unfold uwrap. dlia.
Qed.
Lemma add_back_digit x y t :
  word 16 x -> word 16 y -> word 16 t -> t <= 1 ->
  let z := u32 (t + (x + y)) in
  0 <= HHALF z <= 1 /\ LHALF z + HHALF z * B = x + y + t.
Proof.
  intros Hx Hy Ht Ht' z. rewrite LHALF_val, HHALF_val by apply word_u32.
  subst z. rewrite B_val. unfold word, uwrap in *. dlia.
Qed.

Section loops.
Context (lo hi : Z) (vs : digits) (g : Z -> Z) (vlo vhi : Z).
Context (Hv : arr vs g vlo vhi).

Lemma mul_sub_spec uj v qhat i : forall us f t,
  arr us f lo hi -> word 16 qhat -> word 16 t ->
  lo <= uj + 1 -> uj + Z.of_nat i < hi -> vlo <= v + 1 -> v + Z.of_nat i < vhi ->
  exists us' f' t', mul_sub i us uj vs v qhat t = Done (us', t') /\ arr us' f' lo hi /\
    word 16 t' /\ (forall k, ~ (uj + 1 <= k <= uj + Z.of_nat i) -> f' k = f k) /\
    num f' (uj + 1) i - t' * B ^ Z.of_nat i
    = num f (uj + 1) i - qhat * num g (v + 1) i - t.
Proof.
  induction i as [|i IH]; intros us f t Hu Hq Ht ????.
  { exists us, f, t. cbn. split_and!; try done. lia. }
  cbn [mul_sub].
  rewrite (rd_arr _ _ _ _ _ Hu), (rd_arr _ _ _ _ _ Hv) by lia. cbn [mbind outcome_bind].
  pose proof (mul_sub_digit (f (uj + Z.of_nat (S i))) (g (v + Z.of_nat (S i))) qhat t
    ltac:(eapply arr_word; [done|lia]) ltac:(eapply arr_word; [done|lia]) Hq Ht) as Hd.
  cbv zeta in Hd. set (z := u32 (_ - _ - t)) in *.
  set (t1 := Z.land _ (B - 1)) in *. destruct Hd as [Ht1 Hd].
  rewrite u16_LHALF.
  destruct (wr_in us f lo hi (uj + Z.of_nat (S i)) (LHALF z)) as (us1 & -> & Hu1);
    [done|apply LHALF_word|lia|].
  cbn [mbind outcome_bind].
  destruct (IH us1 _ t1 Hu1 Hq Ht1) as (us' & f' & t' & -> & Hu' & Ht' & Hout & Hn); [lia..|].
  exists us', f', t'. split_and!; try done.
  - intros k Hk. rewrite Hout, upd_other by lia. done.
  - rewrite num_upd_out in Hn by lia. rewrite pow_S. cbn [num].
    rewrite Hout by lia.
    replace (uj + 1 + Z.of_nat i) with (uj + Z.of_nat (S i)) by lia.
    replace (v + 1 + Z.of_nat i) with (v + Z.of_nat (S i)) by lia.
    rewrite upd_at. nia.
Qed.

Lemma add_back_spec uj v i : forall us f t,
  arr us f lo hi -> 0 <= t <= 1 ->
  lo <= uj + 1 -> uj + Z.of_nat i < hi -> vlo <= v + 1 -> v + Z.of_nat i < vhi ->
  exists us' f' t', add_back i us uj vs v t = Done (us', t') /\ arr us' f' lo hi /\
    0 <= t' <= 1 /\ (forall k, ~ (uj + 1 <= k <= uj + Z.of_nat i) -> f' k = f k) /\
    num f' (uj + 1) i + t' * B ^ Z.of_nat i
    = num f (uj + 1) i + num g (v + 1) i + t.
Proof.
  induction i as [|i IH]; intros us f t Hu Ht ????.
  { exists us, f, t. cbn. split_and!; try lia; done. }
  cbn [add_back].
  rewrite (rd_arr _ _ _ _ _ Hu), (rd_arr _ _ _ _ _ Hv) by lia. cbn [mbind outcome_bind].
  pose proof (add_back_digit (f (uj + Z.of_nat (S i))) (g (v + Z.of_nat (S i))) t
    ltac:(eapply arr_word; [done|lia]) ltac:(eapply arr_word; [done|lia])
    ltac:(unfold word; lia) ltac:(lia)) as Hd.
  cbv zeta in Hd. set (z := u32 (t + _)) in *. destruct Hd as [Ht1 Hd].
  rewrite u16_LHALF.
  destruct (wr_in us f lo hi (uj + Z.of_nat (S i)) (LHALF z)) as (us1 & -> & Hu1);
    [done|apply LHALF_word|lia|].
  cbn [mbind outcome_bind].
  destruct (IH us1 _ _ Hu1 Ht1) as (us' & f' & t' & -> & Hu' & Ht' & Hout & Hn); [lia..|].
  exists us', f', t'. split_and!; try done; try lia.
  - intros k Hk. rewrite Hout, upd_other by lia. done.
  - rewrite num_upd_out in Hn by lia. rewrite pow_S. cbn [num].
    rewrite Hout by lia.
    replace (uj + 1 + Z.of_nat i) with (uj + Z.of_nat (S i)) by lia.
    replace (v + 1 + Z.of_nat i) with (v + Z.of_nat (S i)) by lia.
    rewrite upd_at. nia.
Qed.
End loops.

(** ** D3: the estimate of a digit *)
Lemma COMBINE_val a b : word 16 a -> word 16 b -> COMBINE a b = a * B + b.
Proof.
  unfold COMBINE, word, HALF_BITS. intros. rewrite uwrap_small.
  - by apply lor_shiftl_add.
  - rewrite Z.shiftl_mul_pow2 by lia. lia.
Qed.

Section qhat.
Context (v1 v2 uj0 uj1 uj2 : Z).
Context (Hv1 : B / 2 <= v1 < B) (Hv2 : word 16 v2).
Context (Hu0 : 0 <= uj0 <= v1) (Hu1 : word 16 uj1) (Hu2 : word 16 uj2).
Let T : Z := uj0 * B ^ 2 + uj1 * B + uj2.
Let W : Z := v1 * B + v2.

Lemma TW q r : uj0 * B + uj1 = v1 * q + r -> T - q * W = r * B + uj2 - v2 * q.
Proof.
  intros E. unfold T, W. transitivity ((uj0 * B + uj1) * B + uj2 - q * (v1 * B + v2)); [ring|].
  rewrite E. ring.
Qed.

(** [rhat] is what [qhat] leaves of the two leading digits. *)
Lemma qhat_too_big_spec k : forall qhat rhat,
  0 < qhat <= B -> 0 <= rhat < B -> qhat * v1 + rhat = uj0 * B + uj1 ->
  qhat = B \/ T < qhat * W -> B <= rhat + v1 * (Z.of_nat k + 1) ->
  exists q, qhat_too_big k v1 v2 uj2 qhat rhat = Done q /\ word 16 q /\
    q * W <= T /\ (q = B - 1 \/ T < (q + 1) * W).
Proof.
  unfold T, W, word in *. rewrite B_val in *.
  induction k as [|k IH]; intros qhat rhat Hq Hr E Hub Hk; cbn [qhat_too_big];
    rewrite !(uwrap_small 32) by nia; rewrite Z.geb_leb, B_val;
    destruct (Z.leb_spec (2 ^ 16) (rhat + v1)).
  1,3: exists (qhat - 1); split_and!; [done|lia..|nia|];
    replace (qhat - 1 + 1) with qhat by lia; destruct Hub; [left; lia|by right].
  - lia.
  - rewrite COMBINE_val, B_val by (unfold word; lia). rewrite Z.gtb_ltb.
    destruct (Z.ltb_spec ((rhat + v1) * 2 ^ 16 + uj2) (v2 * (qhat - 1))).
    + apply IH; first [lia|nia|right; nia].
    + exists (qhat - 1). split_and!; [done|lia..|nia|].
      replace (qhat - 1 + 1) with qhat by lia; destruct Hub; [left; lia|by right].
Qed.

Lemma calc_qhat_spec :
  exists q, calc_qhat v1 v2 uj0 uj1 uj2 = Done q /\ word 16 q /\ q * W <= T /\
    (q = B - 1 \/ T < (q + 1) * W \/ uj0 * B + uj1 < (q + 1) * v1).
Proof.
  assert (Hv : 2 ^ 15 <= v1 < 2 ^ 16) by exact Hv1.
  unfold calc_qhat. destruct (Z.eqb_spec uj0 v1) as [E|E].
  - destruct (qhat_too_big_spec 2 B uj1) as (q & -> & ? & ? & ?);
      try (rewrite B_val; unfold word in *; lia).
    exists q. tauto.
  - rewrite COMBINE_val by (unfold word in *; lia).
    unfold udiv, umod. destruct (Z.eqb_spec v1 0); [lia|].
    cbn [mbind outcome_bind]. set (q := (uj0 * B + uj1) / v1). set (r := _ mod v1).
    assert (Hqr : uj0 * B + uj1 = v1 * q + r) by (apply Z.div_mod; done).
    assert (Hr : 0 <= r < v1) by (apply Z.mod_pos_bound; lia).
    clearbody q r. assert (Hq : word 16 q).
    { rewrite B_val in Hqr. unfold word in *. nia. }
    rewrite COMBINE_val, uwrap_small by (unfold word in *; nia). rewrite Z.gtb_ltb.
    pose proof (TW q r Hqr) as HTW.
    destruct (Z.ltb_spec (r * B + uj2) (v2 * q)).
    + assert (0 < q) by (rewrite B_val in *; unfold word in *; nia).
      destruct (qhat_too_big_spec 2 q r) as (q' & -> & ? & ? & ?);
        try (rewrite ?B_val in *; unfold word in *; lia).
      exists q'. tauto.
    + exists q. split_and!; try done; [lia|]. right; right. lia.
Qed.
End qhat.

(** The estimate is right or one too large (Knuth, theorem B). *)
Lemma qhat_error P T W ul vl q :
  0 < P -> 0 <= ul < P -> 0 <= vl < P -> B <= W -> word 16 q -> q * W <= T ->
  (q = B - 1 /\ T * P + ul < (W * P + vl) * B) \/ T < (q + 1) * W ->
  - (W * P + vl) < T * P + ul - q * (W * P + vl) < W * P + vl.
Proof.
  unfold word. intros HP Hu Hl HW Hq Hlow Hup. rewrite B_val in *. split.
  - assert (q * W * P <= T * P) by nia. assert (q * vl <= q * P) by nia.
    assert (q * P < W * P) by nia. nia.
  - destruct Hup as [[-> Hup]|Hup]; [lia|].
    assert ((T + 1) * P <= (q + 1) * W * P) by nia. nia.
Qed.

Lemma num_first2 f o k :
  num f o (S (S k)) = (f o * B + f (o + 1)) * B ^ Z.of_nat k + num f (o + 2) k.
Proof.
  rewrite !num_cons, pow_S. replace (o + 1 + 1) with (o + 2) by lia. ring.
Qed.

(** The quotient and the remainder are the only ones that fit. *)
Lemma div_mod_eq a b q r : 0 <= r < b -> a = b * q + r -> q = a / b /\ r = a mod b.
Proof.
  intros Hr ->. split; symmetry.
  - rewrite Z.mul_comm, Z.div_add_l by lia. rewrite Z.div_small; lia.
  - rewrite Z.add_comm, Z.mul_comm, Z.mod_add by lia. by apply Z.mod_small.
Qed.

Section digit.
Context (vs : digits) (g : Z -> Z) (vlo vhi v : Z) (n : nat).
Context (Hv : arr vs g vlo vhi) (Hvlo : vlo <= v + 1) (Hvhi : v + Z.of_nat (S (S n)) < vhi).
Context (Hnorm : B / 2 <= g (v + 1)).
Let V : Z := num g (v + 1) (S (S n)).

Lemma V_split : exists vl, 0 <= vl < B ^ Z.of_nat n /\
  V = (g (v + 1) * B + g (v + 2)) * B ^ Z.of_nat n + vl /\ word 16 (g (v + 2)) /\
  g (v + 1) < B.
Proof.
  exists (num g (v + 3) n). split_and!.
  1,2: apply num_bound; intros; eapply arr_word; [done|lia].
  - unfold V. rewrite num_first2. replace (v + 1 + 1) with (v + 2) by lia.
    by replace (v + 1 + 2) with (v + 3) by lia.
  - eapply arr_word; [done|lia].
  - rewrite B_val. eapply (arr_word _ _ _ _ (v + 1)); [done|lia].
Qed.

Lemma div_qhat us f lo hi uj :
  arr us f lo hi -> lo <= uj -> uj + Z.of_nat (S (S n)) < hi ->
  num f uj (S (S (S n))) < V * B ->
  exists q, calc_qhat (g (v + 1)) (g (v + 2)) (f uj) (f (uj + 1)) (f (uj + 2)) = Done q /\
    word 16 q /\ - V < num f uj (S (S (S n))) - q * V < V.
Proof.
  intros Hu Hlo Hhi HU. destruct V_split as (vl & Hvl & HV & Hv2 & Hv1).
  assert (Hw : forall i, uj <= i <= uj + Z.of_nat (S (S n)) -> word 16 (f i)).
  { intros. eapply arr_word; [done|lia]. }
  pose proof (num_first2 f uj (S n)) as E. rewrite (num_cons f (uj + 2) n), pow_S in E.
  set (ul := num f (uj + 2 + 1) n) in *.
  assert (Hul : 0 <= ul < B ^ Z.of_nat n) by (apply num_bound; intros; apply Hw; lia).
  pose proof (pow_pos n) as HP. set (P := B ^ Z.of_nat n) in *.
  assert (E' : num f uj (S (S (S n)))
    = (f uj * B ^ 2 + f (uj + 1) * B + f (uj + 2)) * P + ul) by (rewrite E; ring).
  rewrite E' in *. rewrite HV in *. clear E E'. clearbody ul P.
  pose proof (Hw uj ltac:(lia)). pose proof (Hw (uj + 1) ltac:(lia)).
  pose proof (Hw (uj + 2) ltac:(lia)).
  assert (f uj <= g (v + 1)).
  { rewrite B_val in *. unfold word in *. nia. }
  destruct (calc_qhat_spec (g (v + 1)) (g (v + 2)) (f uj) (f (uj + 1)) (f (uj + 2)))
    as (q & Hq & Hqw & Hqle & Hqub); [lia|done|unfold word in *; lia|done..|].
  exists q. split; [done|]. split; [done|]. apply qhat_error; try done.
  - change (B / 2) with (2 ^ 15) in Hnorm. rewrite B_val in *. unfold word in *. lia.
  - destruct Hqub as [?|[?|Hub]]; [by left|by right|]. right.
    rewrite B_val in *. unfold word in *. nia.
Qed.

(** The leading digit after the subtraction, and whether it borrowed. *)
Lemma top_digit x t :
  word 16 x -> word 16 t ->
  (t <= x /\ HHALF (u32 (x - t)) = 0 /\ LHALF (u32 (x - t)) = x - t) \/
  (x < t /\ HHALF (u32 (x - t)) <> 0 /\ LHALF (u32 (x - t)) = x - t + B).
Proof.
  intros. rewrite LHALF_val, HHALF_val, B_val by apply word_u32.
  destruct (Z.leb_spec t x); [left|right]; unfold word, uwrap in *; dlia.
Qed.

(** The value after the leading digit was replaced. *)
Lemma num_upd_top f o d k :
  num (upd f o d) o (S k) = d * B ^ Z.of_nat k + num f (o + 1) k.
Proof. rewrite num_cons, upd_at, num_upd_out by lia. done. Qed.

Lemma div_digit_spec us f lo hi uj :
  arr us f lo hi -> lo <= uj -> uj + Z.of_nat (S (S n)) < hi ->
  num f uj (S (S (S n))) < V * B ->
  exists us' f' q, div_digit us uj vs v (Z.of_nat (S (S n))) (g (v + 1)) (g (v + 2))
      = Done (us', q) /\
    arr us' f' lo hi /\ word 16 q /\ 0 <= num f' uj (S (S (S n))) < V /\
    num f uj (S (S (S n))) = V * q + num f' uj (S (S (S n))) /\
    (forall k, ~ (uj <= k <= uj + Z.of_nat (S (S n))) -> f' k = f k).
Proof.
  intros Hu Hlo Hhi HU. destruct (div_qhat us f lo hi uj Hu Hlo Hhi HU) as (q & Hq & Hqw & HD).
  set (N := S (S n)) in *. unfold div_digit.
  rewrite !(rd_arr _ _ _ _ _ Hu) by lia. cbn [mbind outcome_bind].
  rewrite Hq, Nat2Z.id. cbn [mbind outcome_bind].
  destruct (mul_sub_spec lo hi vs g vlo vhi Hv uj v q N us f 0 Hu Hqw)
    as (us1 & f1 & t1 & -> & Hu1 & Ht1 & Hout1 & Hn1); [unfold word; lia|lia..|].
  cbn [mbind outcome_bind].
  rewrite (rd_arr _ _ _ _ _ Hu1) by lia. cbn [mbind outcome_bind].
  rewrite u16_LHALF, Hout1 by lia.
  destruct (wr_in us1 f1 lo hi uj (LHALF (u32 (f uj - t1)))) as (us2 & -> & Hu2);
    [done|apply LHALF_word|lia|].
  cbn [mbind outcome_bind]. rewrite num_cons in *.
  assert (HR1 : 0 <= num f1 (uj + 1) N < B ^ Z.of_nat N).
  { apply num_bound. intros. eapply arr_word; [exact Hu1|lia]. }
  assert (HV : 0 <= V < B ^ Z.of_nat N).
  { apply num_bound. intros. eapply arr_word; [exact Hv|lia]. }
  fold V in Hn1. set (P := B ^ Z.of_nat N) in *.
  assert (Hx : word 16 (f uj)) by (eapply arr_word; [exact Hu|lia]).
  destruct (top_digit (f uj) t1 Hx Ht1) as [(Hle & -> & Etop)|(Hgt & Hnz & Etop)];
    rewrite Etop in *.
  - rewrite Z.eqb_refl. exists us2, (upd f1 uj (f uj - t1)), q.
    rewrite num_upd_top. fold P. split_and!; try done; try nia.
    intros k Hk. rewrite upd_other, Hout1 by lia. done.
  - rewrite (proj2 (Z.eqb_neq _ _) Hnz).
    destruct (add_back_spec lo hi vs g vlo vhi Hv uj v N us2 _ 0 Hu2)
      as (us3 & f3 & c & -> & Hu3 & Hc & Hout3 & Hn3); [lia..|].
    cbn [mbind outcome_bind]. rewrite (rd_arr _ _ _ _ _ Hu3) by lia. cbn [mbind outcome_bind].
    rewrite u16_LHALF, Hout3, upd_at by lia.
    destruct (wr_in us3 f3 lo hi uj (LHALF (f uj - t1 + B + c))) as (us4 & -> & Hu4);
      [done|apply LHALF_word|lia|].
    cbn [mbind outcome_bind]. rewrite num_upd_out in Hn3 by lia. fold V P in Hn3.
    assert (HR3 : 0 <= num f3 (uj + 1) N < P).
    { apply num_bound. intros. eapply arr_word; [exact Hu3|lia]. }
    assert (Hc0 : f uj - t1 + c = 0) by nia.
    replace (f uj - t1 + B + c) with B in Hu4 by lia. replace (LHALF B) with 0 in Hu4 by done.
    exists us4, (upd f3 uj 0), (u32 (q - 1)). rewrite num_upd_top. fold P.
    assert (0 <= num f (uj + 1) N < P).
    { apply num_bound. intros. eapply arr_word; [exact Hu|lia]. }
    assert (0 < q).
    { destruct (Z.eq_dec q 0) as [->|]; unfold word in *; nia. }
    rewrite uwrap_small by (unfold word in *; lia).
    split_and!; try done; try (unfold word in *; nia).
    intros k Hk. rewrite upd_other, Hout3, upd_other, Hout1 by lia. done.
Qed.

(** A remainder below the divisor has no digit left in front of it. *)
Lemma rem_top us f lo hi o :
  arr us f lo hi -> lo <= o -> o + Z.of_nat (S (S n)) < hi ->
  num f o (S (S (S n))) < V -> f o = 0.
Proof.
  intros Hu ?? HR. rewrite num_cons in HR.
  assert (HV : 0 <= V < B ^ Z.of_nat (S (S n))).
  { apply num_bound. intros. eapply arr_word; [exact Hv|lia]. }
  assert (0 <= num f (o + 1) (S (S n)) < B ^ Z.of_nat (S (S n))).
  { apply num_bound. intros. eapply arr_word; [exact Hu|lia]. }
  pose proof (arr_word _ _ _ _ o Hu ltac:(lia)). unfold word in *. nia.
Qed.

Lemma div_loop_eq k us u qs q j m us1 qs1 q0 :
  div_digit us (u + j) vs v (Z.of_nat (S (S n))) (g (v + 1)) (g (v + 2)) = Done (us1, q0) ->
  word 16 q0 -> wr qs (q + j) q0 = Done qs1 ->
  div_loop k us u vs v (Z.of_nat (S (S n))) (g (v + 1)) (g (v + 2)) qs q j m
  = if j + 1 <=? m then
      match k with
      | O => Stop NoFuel
      | S k' =>
          div_loop k' us1 u vs v (Z.of_nat (S (S n))) (g (v + 1)) (g (v + 2)) qs1 q (j + 1) m
      end
    else Done (us1, qs1).
Proof.
  intros E Hq0 Eq. destruct k; cbn [div_loop]; rewrite E; cbn [mbind outcome_bind];
    by rewrite (uwrap_small 16 q0 Hq0), Eq.
Qed.

(** The next round starts below the divisor again. *)
Lemma next_round us f lo hi o :
  arr us f lo hi -> lo <= o -> o + Z.of_nat (S (S (S n))) < hi -> f o = 0 ->
  num f o (S (S (S n))) < V -> num f (o + 1) (S (S (S n))) < V * B.
Proof.
  intros Hu ?? Htop HR.
  assert (E1 : num f o (S (S (S (S n))))
      = num f o (S (S (S n))) * B + f (o + Z.of_nat (S (S (S n))))) by done.
  rewrite num_cons, Htop, Z.mul_0_l, Z.add_0_l in E1. rewrite E1.
  pose proof (arr_word _ _ _ _ (o + Z.of_nat (S (S (S n)))) Hu ltac:(lia)) as Hw.
  unfold word in Hw. rewrite B_val. nia.
Qed.

(** What one round and the rounds after it add up to. *)
Lemma round_value f f1 o d q0 X :
  (forall k, ~ (o <= k <= o + Z.of_nat (S (S n))) -> f1 k = f k) -> f1 o = 0 ->
  num f o (S (S (S n))) = V * q0 + num f1 o (S (S (S n))) ->
  num f1 (o + 1) (S (S (S n)) + d) = X ->
  num f o (S (S (S n)) + S d) = V * (q0 * B ^ Z.of_nat (S d)) + X.
Proof.
  intros Hout Htop HUq HX. rewrite num_app, HUq.
  assert (Hlow : num f (o + Z.of_nat (S (S (S n)))) (S d)
               = num f1 (o + Z.of_nat (S (S (S n)))) (S d)).
  { apply num_ext. intros i Hi. symmetry. apply Hout. lia. }
  pose proof (num_app f1 o (S (S (S n))) (S d)) as Happ.
  replace (S (S (S n)) + S d)%nat with (S (S (S (S n)) + d)) in Happ by lia.
  rewrite num_cons, Htop, HX in Happ. rewrite Hlow. lia.
Qed.

Lemma div_loop_spec d : forall k us f lo hi u qs h q j,
  arr us f lo hi -> lo <= u + j -> u + j + Z.of_nat (S (S n) + d) < hi ->
  arr qs h 0 (q + j) -> 0 <= q + j -> q + j + Z.of_nat d < 5 ->
  num f (u + j) (S (S (S n))) < V * B -> (d <= k)%nat ->
  exists us' f' qs' h',
    div_loop k us u vs v (Z.of_nat (S (S n))) (g (v + 1)) (g (v + 2)) qs q j (j + Z.of_nat d)
      = Done (us', qs') /\
    arr us' f' lo hi /\ arr qs' h' 0 (q + j + Z.of_nat d + 1) /\
    (forall i, i < q + j -> h' i = h i) /\
    (forall i, i < u + j -> f' i = f i) /\
    (forall i, u + j <= i < u + j + Z.of_nat d -> f' i = 0) /\
    0 <= num f' (u + j + Z.of_nat d) (S (S (S n))) < V /\
    num f (u + j) (S (S (S n)) + d)
    = V * num h' (q + j) (S d) + num f' (u + j + Z.of_nat d) (S (S (S n))).
Proof.
  induction d as [|d IH]; intros k us f lo hi u qs h q j Hu ?? Hq ?? HU Hk;
    (destruct (div_digit_spec us f lo hi (u + j) Hu)
      as (us1 & f1 & q0 & E & Hu1 & Hq0 & Hr & HUq & Hout); [lia..|]);
    (destruct (wr_arr qs h 0 (q + j) 0 (q + j + 1) (q + j) q0) as (qs1 & Eq & Hqs1);
      [done|done|lia..|]); rewrite (div_loop_eq _ _ _ _ _ _ _ us1 qs1 q0 E Hq0 Eq).
  - exists us1, f1, qs1, (upd h (q + j) q0).
    destruct (Z.leb_spec (j + 1) (j + Z.of_nat 0)); [lia|]. rewrite Nat.add_0_r.
    replace (u + j + Z.of_nat 0) with (u + j) by lia.
    replace (q + j + Z.of_nat 0 + 1) with (q + j + 1) by lia.
    split_and!; try done; try lia.
    + intros i Hi. apply upd_other. lia.
    + intros i Hi. apply Hout. lia.
    + cbn [num] in *. rewrite Z.add_0_r, upd_at. lia.
  - destruct (Z.leb_spec (j + 1) (j + Z.of_nat (S d))); [|lia]. destruct k as [|k]; [lia|].
    assert (Htop : f1 (u + j) = 0) by (eapply rem_top; [exact Hu1|lia..]).
    pose proof (next_round us1 f1 lo hi (u + j) Hu1 ltac:(lia) ltac:(lia) Htop ltac:(lia)).
    replace (u + j + Z.of_nat (S d)) with (u + (j + 1) + Z.of_nat d) by lia.
    replace (q + j + Z.of_nat (S d) + 1) with (q + (j + 1) + Z.of_nat d + 1) by lia.
    replace (j + Z.of_nat (S d)) with (j + 1 + Z.of_nat d) by lia.
    replace (q + j + 1) with (q + (j + 1)) in Hqs1 by lia.
    replace (u + j + 1) with (u + (j + 1)) in * by lia.
    destruct (IH k us1 f1 lo hi u qs1 (upd h (q + j) q0) q (j + 1))
      as (us' & f' & qs' & h' & Ed & Hu' & Hqs' & Hh & Hf & Hz & HR & Hn); try done; try lia.
    exists us', f', qs', h'. rewrite Ed. split_and!; try done; try lia.
    + intros i Hi. rewrite Hh, upd_other by lia. done.
    + intros i Hi. rewrite Hf, Hout by lia. done.
    + intros i Hi. destruct (Z.eq_dec i (u + j)) as [->|]; [rewrite Hf by lia; done|].
      apply Hz. lia.
    + replace (u + (j + 1)) with (u + j + 1) in Hn by lia.
      rewrite (round_value f f1 _ d q0 _ Hout Htop HUq Hn), (num_cons h' (q + j)), Hh, upd_at
        by lia.
      replace (q + j + 1) with (q + (j + 1)) by lia.
      replace (u + j + 1) with (u + (j + 1)) by lia. ring.
Qed.
End digit.

(** ** Taking numbers apart and putting them together *)
Lemma num_zeros f o i k :
  (forall j, o <= j < o + Z.of_nat i -> f j = 0) -> num f o (i + k) = num f (o + Z.of_nat i) k.
Proof.
  intros Hz. rewrite num_app. replace (num f o i) with 0; [lia|].
  induction i as [|i IH]; [done|]. cbn [num]. rewrite <- IH, Hz by (intros; try apply Hz; lia).
  done.
Qed.
Lemma num4 f : num f 1 4 = (f 1 * B + f 2) * 2 ^ 32 + (f 3 * B + f 4).
Proof.
  change (2 ^ 32) with (B * B). cbn [num]. change (1 + Z.of_nat 0) with 1.
  change (1 + Z.of_nat 1) with 2. change (1 + Z.of_nat 2) with 3.
  change (1 + Z.of_nat 3) with 4. ring.
Qed.

Lemma HHALF_digit x : u16 (HHALF x) = HHALF x.
Proof. apply uwrap_small, HHALF_word. Qed.

Lemma put_digits_spec a f lo x :
  arr a f lo 1 -> lo <= 1 -> word 64 x ->
  exists a' f', put_digits a (of_ll x) = Done a' /\ arr a' f' lo 5 /\ num f' 1 4 = x /\
    f' 0 = f 0.
Proof.
  intros Ha Hlo Hx. destruct (of_ll_ok x) as [HH HL]. pose proof (of_ll_val x) as Hv.
  pose proof Ha as (_ & ? & _). unfold put_digits. rewrite !HHALF_digit, !u16_LHALF.
  set (h := uiH (of_ll x)) in *. set (l := uiL (of_ll x)) in *.
  destruct (wr_arr a f lo 1 lo 2 1 (HHALF h)) as (a1 & -> & H1); [done|apply HHALF_word|lia..|].
  destruct (wr_arr a1 _ lo 2 lo 3 2 (LHALF h) H1) as (a2 & E2 & H2); [apply LHALF_word|lia..|].
  destruct (wr_arr a2 _ lo 3 lo 4 3 (HHALF l) H2) as (a3 & E3 & H3); [apply HHALF_word|lia..|].
  destruct (wr_arr a3 _ lo 4 lo 5 4 (LHALF l) H3) as (a4 & E4 & H4); [apply LHALF_word|lia..|].
  exists a4, (upd (upd (upd (upd f 1 (HHALF h)) 2 (LHALF h)) 3 (HHALF l)) 4 (LHALF l)).
  cbn [mbind outcome_bind]. rewrite E2. cbn [mbind outcome_bind]. rewrite E3.
  cbn [mbind outcome_bind]. rewrite E4. split_and!; try done.
  rewrite num4. cbn [upd Z.eqb Pos.eqb]. rewrite !HHALF_val, !LHALF_val by done.
  rewrite !uwrap_small in * by done. clearbody h l. unfold word in *. rewrite B_val. dlia.
Qed.

Lemma u64_ll h l : word 32 h -> word 32 l -> u64 (ll (UU h l)) = h * 2 ^ 32 + l.
Proof.
  intros. unfold ll. rewrite u64_s64, ull_val by done. cbn [uiH uiL].
  apply uwrap_small. unfold word in *. lia.
Qed.
Lemma COMBINE_word a b : word 16 a -> word 16 b -> word 32 (COMBINE a b).
Proof. intros. rewrite COMBINE_val, B_val by done. unfold word in *. lia. Qed.

Lemma get_digits_spec a f lo :
  arr a f lo 5 -> lo <= 1 -> exists tmp, get_digits a = Done tmp /\ u64 (ll tmp) = num f 1 4.
Proof.
  intros Ha Hlo. unfold get_digits. rewrite !(rd_arr _ _ _ _ _ Ha) by lia.
  cbn [mbind outcome_bind]. eexists. split; [done|].
  pose proof (arr_word _ _ _ _ 1 Ha ltac:(lia)). pose proof (arr_word _ _ _ _ 2 Ha ltac:(lia)).
  pose proof (arr_word _ _ _ _ 3 Ha ltac:(lia)). pose proof (arr_word _ _ _ _ 4 Ha ltac:(lia)).
  rewrite u64_ll by (by apply COMBINE_word). by rewrite !COMBINE_val, num4.
Qed.

(** One step of the short division. *)
Lemma short_step r d t :
  0 < t < B -> 0 <= r < t -> word 16 d ->
  COMBINE r d = r * B + d /\ word 16 ((r * B + d) / t) /\ 0 <= (r * B + d) mod t < t.
Proof.
  intros Ht Hr Hd. rewrite B_val in *. unfold word in *. split_and!.
  - apply COMBINE_val; unfold word; lia.
  - apply Z.div_pos; lia.
  - apply Z.div_lt_upper_bound; [lia|nia].
  - apply Z.mod_pos_bound. lia.
  - apply Z.mod_pos_bound. lia.
Qed.

Lemma short_div_spec us f t lo :
  arr us f lo 5 -> lo <= 1 -> 0 < t < B ->
  exists tmp, short_div us t = Done (tmp, num f 1 4 mod t) /\
    u64 (ll tmp) = num f 1 4 / t.
Proof.
  intros Ha Hlo Ht. unfold short_div. rewrite !(rd_arr _ _ _ _ _ Ha) by lia.
  unfold udiv, umod. rewrite (proj2 (Z.eqb_neq t 0)) by lia. cbn [mbind outcome_bind].
  pose proof (arr_word _ _ _ _ 1 Ha ltac:(lia)) as Hd1.
  pose proof (short_step 0 (f 1) t Ht ltac:(lia) Hd1) as (_ & Q1 & R1). rewrite Z.add_0_l in *.
  pose proof (short_step _ (f 2) t Ht R1 ltac:(eapply arr_word; [done|lia])) as (-> & Q2 & R2).
  pose proof (short_step _ (f 3) t Ht R2 ltac:(eapply arr_word; [done|lia])) as (-> & Q3 & R3).
  pose proof (short_step _ (f 4) t Ht R3 ltac:(eapply arr_word; [done|lia])) as (-> & Q4 & R4).
  rewrite !(uwrap_small 16) by done.
  assert (E : forall a, a = t * (a / t) + a mod t) by (intros; apply Z.div_mod; lia).
  set (z1 := f 1) in *. set (z2 := z1 mod t * B + f 2) in *.
  set (z3 := z2 mod t * B + f 3) in *. set (z4 := z3 mod t * B + f 4) in *.
  destruct (div_mod_eq (num f 1 4) t
    ((z1 / t * B + z2 / t) * 2 ^ 32 + (z3 / t * B + z4 / t)) (z4 mod t)) as [E1 E2]; [done|..].
  { rewrite num4. pose proof (E z1). pose proof (E z2). pose proof (E z3). pose proof (E z4).
    change (2 ^ 32) with (B * B). subst z2 z3 z4. nia. }
  rewrite <- E2. eexists. split; [done|]. rewrite <- E1.
  rewrite u64_ll by (by apply COMBINE_word). by rewrite !COMBINE_val.
Qed.

(** ** The scans, the normalisation and the shifts *)
Lemma skip_u_spec us f lo hi : arr us f lo hi -> forall k u m,
  lo <= u + 1 -> u + 1 + Z.of_nat k < hi -> num f (u + 1) (S k) <> 0 ->
  exists i : nat, (i <= k)%nat /\ skip_u k us u m = Done (u + Z.of_nat i, m - Z.of_nat i) /\
    f (u + Z.of_nat i + 1) <> 0 /\ (forall j, u + 1 <= j <= u + Z.of_nat i -> f j = 0).
Proof.
  intros Ha. induction k as [|k IH]; intros u m ?? Hnz; rewrite num_cons in Hnz; cbn [skip_u];
    rewrite (rd_arr _ _ _ _ _ Ha) by lia; cbn [mbind outcome_bind];
    destruct (Z.eqb_spec (f (u + 1)) 0) as [E|E].
  - rewrite E in Hnz. cbn in Hnz. lia.
  - exists 0%nat. rewrite Z.add_0_r, Z.sub_0_r. split_and!; try done. intros; lia.
  - destruct (IH (u + 1) (m - 1)) as (i & ? & -> & ? & Hz); [lia..|rewrite E in Hnz; lia|].
    exists (S i). split_and!; [lia|do 2 f_equal; lia| |].
    + by replace (u + Z.of_nat (S i) + 1) with (u + 1 + Z.of_nat i + 1) by lia.
    + intros j Hj. destruct (Z.eq_dec j (u + 1)) as [->|]; [done|]. apply Hz. lia.
  - exists 0%nat. rewrite Z.add_0_r, Z.sub_0_r. split_and!; try done; [lia|]. intros; lia.
Qed.

(** Either a divisor of at least two digits, or one of a single digit. *)
Lemma skip_v_spec vs g lo hi : arr vs g lo hi -> forall k v,
  lo <= v + 1 -> v + 1 + Z.of_nat k < hi ->
  (exists i : nat, (i <= k)%nat /\
     skip_v k vs v (Z.of_nat k + 2) = Done (v + Z.of_nat i, Z.of_nat k + 2 - Z.of_nat i) /\
     g (v + Z.of_nat i + 1) <> 0 /\ (forall j, v + 1 <= j <= v + Z.of_nat i -> g j = 0)) \/
  (skip_v k vs v (Z.of_nat k + 2) = Done (v + Z.of_nat k, 1) /\
   forall j, v + 1 <= j <= v + Z.of_nat k + 1 -> g j = 0).
Proof.
  intros Ha. induction k as [|k IH]; intros v ??; cbn [skip_v];
    rewrite (rd_arr _ _ _ _ _ Ha) by lia; cbn [mbind outcome_bind];
    destruct (Z.eqb_spec (g (v + 1)) 0) as [E|E];
    try (left; exists 0%nat; rewrite Z.add_0_r, Z.sub_0_r; split_and!; try done; try lia;
         intros; lia).
  - right. split; [do 2 f_equal; lia|]. intros j Hj. by replace j with (v + 1) by lia.
  - destruct (Z.eqb_spec (Z.of_nat (S k) + 2 - 1) 1); [lia|].
    replace (Z.of_nat (S k) + 2 - 1) with (Z.of_nat k + 2) by lia.
    destruct (IH (v + 1)) as [(i & ? & -> & ? & Hz)|(-> & Hz)]; [lia..|left|right].
    + exists (S i). split_and!; [lia|do 2 f_equal; lia| |].
      * by replace (v + Z.of_nat (S i) + 1) with (v + 1 + Z.of_nat i + 1) by lia.
      * intros j Hj. destruct (Z.eq_dec j (v + 1)) as [->|]; [done|]. apply Hz. lia.
    + split; [do 2 f_equal; lia|]. intros j Hj.
      destruct (Z.eq_dec j (v + 1)) as [->|]; [done|]. apply Hz. lia.
Qed.

Lemma norm_shift_spec k : forall t d,
  0 < t < B -> B / 2 <= t * 2 ^ Z.of_nat k ->
  exists e : nat, (e <= k)%nat /\ norm_shift k t d = Done (d + Z.of_nat e) /\
    B / 2 <= t * 2 ^ Z.of_nat e < B.
Proof.
  change (B / 2) with (2 ^ 15). rewrite B_val.
  induction k as [|k IH]; intros t d Ht Hk; cbn [norm_shift];
    change (B / 2) with (2 ^ 15); destruct (Z.ltb_spec t (2 ^ 15)).
  - rewrite Z.mul_1_r in Hk. lia.
  - exists 0%nat. rewrite Z.add_0_r, Z.mul_1_r. split_and!; try done; lia.
  - rewrite Z.shiftl_mul_pow2, uwrap_small by lia.
    rewrite Nat2Z.inj_succ, Z.pow_succ_r in Hk by lia.
    destruct (IH (t * 2 ^ 1) (d + 1)) as (e & ? & -> & ?); [lia..|].
    exists (S e). rewrite Nat2Z.inj_succ, Z.pow_succ_r by lia.
    split_and!; [lia|f_equal; lia|lia..].
  - exists 0%nat. rewrite Z.add_0_r, Z.mul_1_r. split_and!; try done; lia.
Qed.

Lemma zero_q_spec k : forall qs f hi,
  arr qs f (Z.of_nat k) hi -> Z.of_nat k <= hi ->
  exists qs' f', zero_q k qs = Done qs' /\ arr qs' f' 0 hi /\
    (forall i, 0 <= i < Z.of_nat k -> f' i = 0) /\ (forall i, Z.of_nat k <= i -> f' i = f i).
Proof.
  induction k as [|k IH]; intros qs f hi Ha Hk; cbn [zero_q].
  { exists qs, f. split_and!; try done. intros; lia. }
  pose proof Ha as (_ & _ & ? & _).
  destruct (wr_arr qs f (Z.of_nat (S k)) hi (Z.of_nat k) hi (Z.of_nat k) 0)
    as (a1 & -> & H1); [done|by unfold word|lia..|].
  cbn [mbind outcome_bind]. destruct (IH a1 _ hi H1) as (qs' & f' & -> & Hq & Hz & Hf); [lia|].
  exists qs', f'. split_and!; try done.
  - intros i Hi. destruct (Z.eq_dec i (Z.of_nat k)) as [->|]; [|apply Hz; lia].
    rewrite Hf, upd_at by lia. done.
  - intros i Hi. rewrite Hf, upd_other by lia. done.
Qed.

Lemma half_shl x s :
  word 16 x -> 0 < s < 16 -> LHALF (u32 (Z.shiftl x s)) = Z.shiftl (x mod 2 ^ (16 - s)) s.
Proof.
  intros Hx Hs. rewrite LHALF_val, uwrap_idem, !Z.shiftl_mul_pow2 by lia.
  assert (0 < 2 ^ s < 2 ^ 16) by (split; [|apply Z.pow_lt_mono_r]; lia).
  rewrite uwrap_small by (unfold word in *; nia).
  replace (2 ^ 16) with (2 ^ (16 - s) * 2 ^ s) by (rewrite <- Z.pow_add_r by lia; f_equal; lia).
  apply Z.mul_mod_distr_r; lia.
Qed.

(** A digit made of the low bits of [x], moved up by [s], and of the high bits
    of [y]. *)
Lemma join_digit x y s :
  word 16 x -> word 16 y -> 0 < s < 16 ->
  let z := Z.lor (LHALF (u32 (Z.shiftl x s))) (Z.shiftr y (16 - s)) in
  word 16 z /\ z = x mod 2 ^ (16 - s) * 2 ^ s + y / 2 ^ (16 - s).
Proof.
  intros Hx Hy Hs z.
  assert (Hp : 2 ^ (16 - s) * 2 ^ s = 2 ^ 16)
    by (rewrite <- Z.pow_add_r by lia; f_equal; lia).
  assert (0 < 2 ^ s /\ 0 < 2 ^ (16 - s)) as [] by lia.
  assert (Hyb : 0 <= y / 2 ^ (16 - s) < 2 ^ s).
  { unfold word in Hy. split; [apply Z.div_pos; lia|]. apply Z.div_lt_upper_bound; lia. }
  pose proof (Z.mod_pos_bound x (2 ^ (16 - s)) ltac:(lia)).
  assert (Hz : z = x mod 2 ^ (16 - s) * 2 ^ s + y / 2 ^ (16 - s)).
  { subst z. rewrite half_shl, Z.shiftr_div_pow2 by (try done; lia).
    apply lor_shiftl_add; [lia|done]. }
  split; [|done]. rewrite Hz. unfold word. rewrite <- Hp. nia.
Qed.

Section shl.
Context (sh : Z) (Hsh : 0 < sh < 16).
Let carry (f : Z -> Z) (i : Z) : Z := f i / 2 ^ (16 - sh).

Lemma shl_loop_spec lo hi k : forall a f o i,
  arr a f lo hi -> lo <= o + i -> o + i + Z.of_nat k < hi ->
  exists a' f', shl_loop k a o i sh = Done a' /\ arr a' f' lo hi /\
    (forall j, ~ (o + i <= j < o + i + Z.of_nat k) -> f' j = f j) /\
    (forall j, o + i <= j < o + i + Z.of_nat k ->
       f' j = f j mod 2 ^ (16 - sh) * 2 ^ sh + carry f (j + 1)).
Proof.
  induction k as [|k IH]; intros a f o i Ha ??; cbn [shl_loop].
  { exists a, f. split_and!; try done. intros; lia. }
  rewrite !(rd_arr _ _ _ _ _ Ha) by lia. cbn [mbind outcome_bind].
  destruct (join_digit (f (o + i)) (f (o + i + 1)) sh) as [Hz Ez];
    [eapply arr_word; [done|lia]..|done|].
  unfold HALF_BITS. rewrite (uwrap_small 16) by done.
  destruct (wr_in a f lo hi (o + i) _ Ha Hz) as (a1 & -> & H1); [lia|].
  cbn [mbind outcome_bind].
  destruct (IH a1 _ o (i + 1) H1) as (a' & f' & -> & Ha' & Hout & Hin); [lia..|].
  exists a', f'. split_and!; try done.
  - intros j Hj. rewrite Hout, upd_other by lia. done.
  - intros j Hj. destruct (Z.eq_dec j (o + i)) as [->|].
    + rewrite Hout, upd_at by lia. exact Ez.
    + rewrite Hin by lia. unfold carry. by rewrite !upd_other by lia.
Qed.

Lemma shl_num f f' o k :
  (forall j, o <= j < o + Z.of_nat k ->
     f' j = f j mod 2 ^ (16 - sh) * 2 ^ sh + carry f (j + 1)) ->
  num f' o k = num f o k * 2 ^ sh - carry f o * B ^ Z.of_nat k + carry f (o + Z.of_nat k).
Proof.
  assert (Hp : B = 2 ^ (16 - sh) * 2 ^ sh)
    by (rewrite <- Z.pow_add_r by lia; rewrite B_val; f_equal; lia).
  induction k as [|k IH]; intros H.
  { cbn. rewrite Z.add_0_r. lia. }
  rewrite pow_S. cbn [num]. rewrite IH, H by (intros; try apply H; lia).
  replace (o + Z.of_nat k + 1) with (o + Z.of_nat (S k)) by lia.
  pose proof (Z.div_mod (f (o + Z.of_nat k)) (2 ^ (16 - sh)) ltac:(lia)) as Hd.
  fold (carry f (o + Z.of_nat k)) in Hd.
  replace (f (o + Z.of_nat k) mod 2 ^ (16 - sh))
    with (f (o + Z.of_nat k) - 2 ^ (16 - sh) * carry f (o + Z.of_nat k)) by lia.
  rewrite Hp. ring.
Qed.

(** [shl] multiplies by [2^sh] when the leading digit has room for it. *)
Lemma shl_spec a f lo hi o (len : nat) :
  arr a f lo hi -> lo <= o -> o + Z.of_nat len < hi -> f o * 2 ^ sh < B ->
  exists a' f', shl a o (Z.of_nat len) sh = Done a' /\ arr a' f' lo hi /\
    (forall j, ~ (o <= j <= o + Z.of_nat len) -> f' j = f j) /\
    num f' o (S len) = num f o (S len) * 2 ^ sh.
Proof.
  intros Ha ?? Hroom. unfold shl. rewrite Nat2Z.id.
  destruct (shl_loop_spec lo hi len a f o 0 Ha) as (a1 & f1 & -> & H1 & Hout & Hin); [lia..|].
  cbn [mbind outcome_bind]. rewrite (rd_arr _ _ _ _ _ H1) by lia. cbn [mbind outcome_bind].
  rewrite Hout by lia.
  destruct (join_digit (f (o + Z.of_nat len)) 0 sh) as [Hz Ez];
    [eapply arr_word; [done|lia]|by unfold word|done|].
  rewrite Z.shiftr_0_l, Z.lor_0_r in Hz, Ez. rewrite Z.div_0_l, Z.add_0_r in Ez by lia.
  rewrite (uwrap_small 16) by done.
  destruct (wr_in a1 f1 lo hi (o + Z.of_nat len) _ H1 Hz) as (a2 & -> & H2); [lia|].
  exists a2, (upd f1 (o + Z.of_nat len) (LHALF (u32 (Z.shiftl (f (o + Z.of_nat len)) sh)))).
  split_and!; try done.
  { intros j Hj. rewrite upd_other, Hout by lia. done. }
  set (F := upd f (o + Z.of_nat (S len)) 0).
  assert (Hw : word 16 (f o)) by (eapply arr_word; [exact Ha|lia]).
  assert (Hc : carry F o = 0).
  { unfold carry, F. rewrite upd_other by lia. apply Z.div_small.
    unfold word in Hw. split; [lia|]. apply (Zmult_lt_reg_r _ _ (2 ^ sh)); [lia|].
    rewrite <- Z.pow_add_r by lia. replace (16 - sh + sh) with 16 by lia. exact Hroom. }
  rewrite (shl_num F).
  - rewrite Hc. replace (num F o (S len)) with (num f o (S len)).
    + unfold carry, F. rewrite upd_at, Z.div_0_l by lia. lia.
    + symmetry. apply num_upd_out. lia.
  - intros j Hj. destruct (Z.eq_dec j (o + Z.of_nat len)) as [->|].
    + rewrite upd_at, Ez. unfold carry, F. rewrite upd_other by lia.
      replace (o + Z.of_nat len + 1) with (o + Z.of_nat (S len)) by lia.
      rewrite upd_at, Z.div_0_l by lia. lia.
    + rewrite upd_other, Hin by lia. unfold carry, F. by rewrite !upd_other by lia.
Qed.
End shl.

Section shr.
Context (d : Z) (Hd : 0 < d < 16).

Lemma shr_loop_spec lo hi um k : forall us f,
  arr us f lo hi -> lo <= um -> um + Z.of_nat k < hi ->
  exists us' f', shr_loop k us um d = Done us' /\ arr us' f' lo hi /\
    (forall j, ~ (um < j <= um + Z.of_nat k) -> f' j = f j) /\
    (forall j, um < j <= um + Z.of_nat k ->
       f' j = f (j - 1) mod 2 ^ d * 2 ^ (16 - d) + f j / 2 ^ d).
Proof.
  induction k as [|k IH]; intros us f Ha ??; cbn [shr_loop].
  { exists us, f. split_and!; try done. intros; lia. }
  rewrite !(rd_arr _ _ _ _ _ Ha) by lia. cbn [mbind outcome_bind].
  set (i := um + Z.of_nat (S k)).
  destruct (join_digit (f (i - 1)) (f i) (16 - d)) as [Hz Ez];
    [eapply arr_word; [done|lia]..|lia|].
  rewrite Z.lor_comm in Hz, Ez. replace (16 - (16 - d)) with d in Hz, Ez by lia.
  unfold HALF_BITS. rewrite (uwrap_small 16) by done.
  destruct (wr_in us f lo hi i _ Ha Hz) as (us1 & -> & H1); [lia|]. cbn [mbind outcome_bind].
  destruct (IH us1 _ H1) as (us' & f' & -> & Ha' & Hout & Hin); [lia..|].
  exists us', f'. split_and!; try done.
  - intros j Hj. rewrite Hout, upd_other by lia. done.
  - intros j Hj. destruct (Z.eq_dec j i) as [->|].
    + rewrite Hout, upd_at by lia. exact Ez.
    + rewrite Hin by lia. by rewrite !upd_other by lia.
Qed.

Lemma shr_num f f' o k :
  (forall j, o < j <= o + Z.of_nat k ->
     f' j = f (j - 1) mod 2 ^ d * 2 ^ (16 - d) + f j / 2 ^ d) ->
  num f' (o + 1) k * 2 ^ d
  = num f (o + 1) k - f (o + Z.of_nat k) mod 2 ^ d + f o mod 2 ^ d * B ^ Z.of_nat k.
Proof.
  assert (Hp : B = 2 ^ (16 - d) * 2 ^ d)
    by (rewrite <- Z.pow_add_r by lia; rewrite B_val; f_equal; lia).
  induction k as [|k IH]; intros H.
  { cbn. rewrite Z.add_0_r. lia. }
  rewrite pow_S. cbn [num]. rewrite Z.mul_add_distr_r, <- Z.mul_assoc, (Z.mul_comm B), Z.mul_assoc.
  rewrite IH by (intros; apply H; lia). rewrite H by lia.
  replace (o + 1 + Z.of_nat k - 1) with (o + Z.of_nat k) by lia.
  replace (o + 1 + Z.of_nat k) with (o + Z.of_nat (S k)) by lia.
  pose proof (Z.div_mod (f (o + Z.of_nat (S k))) (2 ^ d) ltac:(lia)) as Hm.
  replace (f (o + Z.of_nat (S k)) mod 2 ^ d)
    with (f (o + Z.of_nat (S k)) - 2 ^ d * (f (o + Z.of_nat (S k)) / 2 ^ d)) by lia.
  rewrite Hp. ring.
Qed.

(** Shifting a multiple of [2^d] back is exact. *)
Lemma shr_spec us f lo hi um k r :
  arr us f lo hi -> lo <= um -> um + Z.of_nat k < hi -> f um = 0 ->
  num f (um + 1) k = r * 2 ^ d ->
  exists us' f', shr_loop k us um d = Done us' /\ arr us' f' lo hi /\
    (forall j, j <= um -> f' j = f j) /\ num f' (um + 1) k = r.
Proof.
  intros Ha ?? H0 Hr. destruct (shr_loop_spec lo hi um k us f Ha)
    as (us' & f' & -> & Ha' & Hout & Hin); [lia..|].
  exists us', f'. split_and!; try done; [intros; apply Hout; lia|].
  pose proof (shr_num f f' um k Hin) as Hn. rewrite Hr, H0, Z.mod_0_l in Hn by lia.
  pose proof (Z.mod_pos_bound (f (um + Z.of_nat k)) (2 ^ d) ltac:(lia)). nia.
Qed.
End shr.

(** ** Program D *)
Lemma norm_bound x e : 0 <= e -> word 16 x -> B / 2 <= x * 2 ^ e < B -> e < 16.
Proof.
  intros He Hx Hn. apply (Z.pow_lt_mono_r_iff 2); [lia..|].
  change (B / 2) with (2 ^ 15) in Hn. rewrite B_val in Hn. unfold word in Hx.
  pose proof (Z.pow_nonneg 2 e ltac:(lia)).
  destruct (Z.eq_dec x 0) as [->|]; [lia|nia].
Qed.
Lemma normalise_spec us f vs g (u v : Z) (mn n : nat) e :
  arr us f 0 5 -> arr vs g 1 5 -> 0 <= u -> u + Z.of_nat (mn + S n) < 5 -> f u = 0 ->
  0 <= v -> v + Z.of_nat (S n) < 5 ->
  B / 2 <= g (v + 1) * 2 ^ Z.of_nat e < B ->
  exists us' f' vs' g',
    normalise us vs u v (Z.of_nat mn) (Z.of_nat (S n)) (Z.of_nat e) = Done (us', vs') /\
    arr us' f' 0 5 /\ arr vs' g' 1 5 /\ (forall j, j < u -> f' j = f j) /\
    num f' u (S (mn + S n)) = num f u (S (mn + S n)) * 2 ^ Z.of_nat e /\
    num g' (v + 1) (S n) = num g (v + 1) (S n) * 2 ^ Z.of_nat e /\
    B / 2 <= g' (v + 1).
Proof.
  intros Hu Hv ?? Hu0 ?? Hn. unfold normalise. rewrite Z.gtb_ltb.
  destruct (Z.ltb_spec 0 (Z.of_nat e)) as [He|He].
  2: { replace (Z.of_nat e) with 0 in * by lia. change (2 ^ 0) with 1 in *.
       exists us, f, vs, g. rewrite !Z.mul_1_r. split_and!; try done. lia. }
  assert (Hw : word 16 (g (v + 1))) by (eapply arr_word; [exact Hv|lia]).
  assert (He' : 0 < Z.of_nat e < 16).
  { split; [done|]. apply (norm_bound (g (v + 1))); [lia|done|done]. }
  replace (Z.of_nat mn + Z.of_nat (S n)) with (Z.of_nat (mn + S n)) by lia.
  destruct (shl_spec _ He' us f 0 5 u (mn + S n) Hu) as (us' & f' & -> & Hu' & Hfo & Hfn);
    [lia..|rewrite Hu0, B_val; lia|].
  cbn [mbind outcome_bind].
  replace (Z.of_nat (S n) - 1) with (Z.of_nat n) by lia.
  destruct (shl_spec _ He' vs g 1 5 (v + 1) n Hv) as (vs' & g' & -> & Hv' & Hgo & Hgn);
    [lia..|].
  exists us', f', vs', g'. split_and!; try done.
  { intros j Hj. apply Hfo. lia. }
  pose proof (pow_pos n). rewrite !num_cons in Hgn.
  assert (0 <= num g (v + 1 + 1) n) by (apply num_bound; intros; eapply arr_word; [exact Hv|lia]).
  assert (num g' (v + 1 + 1) n < B ^ Z.of_nat n)
    by (apply num_bound; intros; eapply arr_word; [exact Hv'|lia]).
  pose proof (Z.pow_nonneg 2 (Z.of_nat e) ltac:(lia)). set (P := B ^ Z.of_nat n) in *.
  assert (B / 2 * P <= g (v + 1) * 2 ^ Z.of_nat e * P) by nia.
  assert (0 <= num g (v + 1 + 1) n * 2 ^ Z.of_nat e) by nia.
  apply Z.lt_succ_r, (Z.mul_lt_mono_pos_r P); lia.
Qed.

Lemma remainder_spec us f (u : Z) (m n e : nat) r :
  arr us f 0 5 -> 0 <= u -> u + Z.of_nat (m + n) = 4 -> Z.of_nat e < 16 ->
  (forall j, 0 <= j <= u + Z.of_nat m -> f j = 0) ->
  num f (u + Z.of_nat m + 1) n = r * 2 ^ Z.of_nat e ->
  remainder us u (Z.of_nat m) (Z.of_nat n) (Z.of_nat e) = Done r.
Proof.
  intros Hu ???? Hr. unfold remainder.
  assert (exists us' f',
    (if Z.of_nat e =? 0 then Done us
     else us ← shr_loop (Z.to_nat (Z.of_nat n)) us (u + Z.of_nat m) (Z.of_nat e);
          wr us (u + Z.of_nat m) 0) = Done us' /\
    arr us' f' 0 5 /\ (forall j, 0 <= j <= u + Z.of_nat m -> f' j = 0) /\
    num f' (u + Z.of_nat m + 1) n = r) as (us' & f' & -> & Hu' & Hz & Hr').
  { destruct (Z.eqb_spec (Z.of_nat e) 0) as [E|E].
    - exists us, f. rewrite Hr, E. split_and!; try done. lia.
    - rewrite Nat2Z.id. destruct (shr_spec (Z.of_nat e) ltac:(lia) us f 0 5 (u + Z.of_nat m) n r)
        as (us1 & f1 & -> & Hu1 & Hz1 & Hn1); [done|lia|lia|auto with lia|done|].
      cbn [mbind outcome_bind].
      destruct (wr_in us1 f1 0 5 (u + Z.of_nat m) 0 Hu1) as (us2 & -> & Hu2);
        [by unfold word|lia|].
      exists us2, (upd f1 (u + Z.of_nat m) 0). split_and!; try done.
      + intros j Hj. unfold upd. destruct (Z.eqb_spec j (u + Z.of_nat m)); [done|].
        rewrite Hz1 by lia. auto.
      + by rewrite num_upd_out by lia. }
  cbn [mbind outcome_bind].
  destruct (get_digits_spec us' f' 0 Hu') as (tmp & -> & Ht); [lia|]. cbn [mbind outcome_bind].
  rewrite Ht. replace 4%nat with (Z.to_nat (u + Z.of_nat m) + n)%nat by lia.
  rewrite num_zeros by (intros; apply Hz; lia).
  replace (1 + Z.of_nat (Z.to_nat (u + Z.of_nat m))) with (u + Z.of_nat m + 1) by lia.
  by rewrite Hr'.
Qed.

(** Counting the digits of the dividend: it has no fewer than the divisor. *)
Lemma dividend_digits f g (v : Z) (i n : nat) us vs :
  arr us f 0 5 -> arr vs g 1 5 -> v + Z.of_nat (S n) = 4 -> 0 <= v -> (i <= 3)%nat ->
  f 0 = 0 -> (forall j, 1 <= j <= Z.of_nat i -> f j = 0) -> g (v + 1) <> 0 ->
  num g (v + 1) (S n) <= num f 1 4 ->
  exists m : nat, (i + m + S n = 4)%nat /\
    num f (Z.of_nat i) (S (m + S n)) = num f 1 4 /\ f (Z.of_nat i) = 0.
Proof.
  intros Hu Hv ??? H0 Hz Hg Hle.
  assert (Hi : f (Z.of_nat i) = 0).
  { destruct i; [done|]. apply Hz. lia. }
  assert (E : num f 1 4 = num f (Z.of_nat i + 1) (4 - i)).
  { replace 4%nat with (i + (4 - i))%nat at 1 by lia.
    rewrite num_zeros by (intros; apply Hz; lia). f_equal. lia. }
  assert (Hin : (i + S n <= 4)%nat).
  { destruct (decide (i + S n <= 4)%nat); [done|]. exfalso.
    assert (num f (Z.of_nat i + 1) (4 - i) < B ^ Z.of_nat (4 - i)).
    { apply num_bound. intros. eapply arr_word; [exact Hu|lia]. }
    assert (B ^ Z.of_nat (4 - i) <= B ^ Z.of_nat n).
    { apply Z.pow_le_mono_r; [by rewrite B_val|lia]. }
    rewrite num_cons in Hle. pose proof (pow_pos n).
    assert (0 <= num g (v + 1 + 1) n)
      by (apply num_bound; intros; eapply arr_word; [exact Hv|lia]).
    pose proof (arr_word _ _ _ _ (v + 1) Hv ltac:(lia)). unfold word in *. nia. }
  exists (4 - i - S n)%nat. split_and!; [lia| |done].
  rewrite num_cons, Hi, E. replace (4 - i - S n + S n)%nat with (4 - i)%nat by lia. lia.
Qed.

(** The leading digits of the shifted dividend stay below the divisor. *)
Lemma first_round f g (u v : Z) (m n : nat) e us vs (U V : Z) :
  arr us f 0 5 -> arr vs g 1 5 -> 0 <= u -> u + Z.of_nat (m + S n) < 5 ->
  0 <= v -> v + Z.of_nat (S n) < 5 -> 0 <= e ->
  0 <= U < B ^ Z.of_nat (m + S n) -> B ^ Z.of_nat n <= V ->
  num f u (S (m + S n)) = U * 2 ^ e -> num g (v + 1) (S n) = V * 2 ^ e ->
  num f u (S (S n)) < num g (v + 1) (S n) * B.
Proof.
  intros Hu Hv ????? HU HV EU EV.
  replace (S (m + S n)) with (S (S n) + m)%nat in EU by lia. rewrite num_app in EU.
  assert (0 <= num f (u + Z.of_nat (S (S n))) m).
  { apply num_bound. intros. eapply arr_word; [exact Hu|lia]. }
  replace (m + S n)%nat with (S (n + m)) in HU by lia.
  rewrite pow_S, Nat2Z.inj_add, Z.pow_add_r in HU by lia.
  pose proof (pow_pos m). pose proof (pow_pos n).
  assert (0 < 2 ^ e) by lia. rewrite EV.
  set (P := B ^ Z.of_nat m) in *. set (Q := B ^ Z.of_nat n) in *. set (E := 2 ^ e) in *.
  assert (num f u (S (S n)) * P < B * (Q * P) * E) by nia.
  assert (num f u (S (S n)) < B * Q * E) by nia.
  rewrite B_val in *. nia.
Qed.

Lemma space5_arr f o : 0 <= o <= 5 -> arr space5 f o o.
Proof. intros. unfold arr. split_and!; try done; try lia. Qed.

(** From the loop's equation to quotient and remainder. *)
Lemma unshift U V Q R E :
  0 < E -> 0 < V -> 0 <= R < V * E -> U * E = V * E * Q + R ->
  Q = U / V /\ R = U mod V * E.
Proof.
  intros HE HV HR EQ.
  assert (ER : R = (U - V * Q) * E) by lia.
  destruct (div_mod_eq U V Q (U - V * Q)) as [-> <-]; [nia|lia|]. done.
Qed.

(** The loop on normalised numbers, and the two results. *)
Lemma long_div_tail us f vs g qs h (v : Z) (i m n e : nat) U V (arq : bool) :
  arr us f 0 5 -> arr vs g 1 5 -> arr qs h 0 (Z.of_nat (i + S (S n))) ->
  (i + m + S (S n) = 4)%nat -> v + Z.of_nat (S (S n)) = 4 -> 0 <= v ->
  (forall j, 0 <= j < Z.of_nat i -> f j = 0) ->
  (forall j, 0 <= j < Z.of_nat (i + S (S n)) -> h j = 0) ->
  B / 2 <= g (v + 1) -> Z.of_nat e < 16 ->
  0 <= U < B ^ Z.of_nat (m + S (S n)) -> B ^ Z.of_nat (S n) <= V ->
  num f (Z.of_nat i) (S (m + S (S n))) = U * 2 ^ Z.of_nat e ->
  num g (v + 1) (S (S n)) = V * 2 ^ Z.of_nat e ->
  (v1 ← rd vs (v + 1);
   v2 ← rd vs (v + 2);
   '(us, qs) ← div_loop 4 us (Z.of_nat i) vs v (Z.of_nat (S (S n))) v1 v2 qs
                 (Z.of_nat (i + S (S n))) 0 (Z.of_nat m);
   r ← (if arq then
          r ← remainder us (Z.of_nat i) (Z.of_nat m) (Z.of_nat (S (S n))) (Z.of_nat e);
          Done (Some r)
        else Done None);
   tmp ← get_digits qs;
   Done (u64 (ll tmp), r))
  = Done (U / V, if arq then Some (U mod V) else None).
Proof.
  intros Hu Hv Hq Him Hvn Hv0 Hf Hh Hn He HU HV EU EV.
  rewrite !(rd_arr _ _ _ _ _ Hv) by lia. cbn [mbind outcome_bind].
  pose proof (first_round f g (Z.of_nat i) v m (S n) (Z.of_nat e) us vs U V Hu Hv
    ltac:(lia) ltac:(lia) Hv0 ltac:(lia) ltac:(lia) HU HV EU EV) as Hfirst.
  destruct (div_loop_spec vs g 1 5 v n Hv ltac:(lia) ltac:(lia) Hn m 4 us f 0 5
    (Z.of_nat i) qs h (Z.of_nat (i + S (S n))) 0)
    as (us2 & f2 & qs2 & h2 & Ed & Hu2 & Hq2 & Hh2 & Hf2 & Hz2 & HR & HQ);
    rewrite ?Z.add_0_r in *; try done; try lia.
  rewrite Z.add_0_l in Ed. rewrite Ed. cbn [mbind outcome_bind].
  pose proof (pow_pos (S n)). pose proof (Z.pow_pos_nonneg 2 (Z.of_nat e) ltac:(lia) ltac:(lia)).
  replace (S (S (S n)) + m)%nat with (S (m + S (S n))) in HQ by lia.
  rewrite EU, EV in *.
  destruct (unshift U V _ _ (2 ^ Z.of_nat e) ltac:(lia) ltac:(lia) HR HQ) as [EQ ER].
  assert (Hlast : f2 (Z.of_nat i + Z.of_nat m) = 0).
  { eapply (rem_top vs g 1 5 v n Hv); [lia|lia|exact Hu2|lia|lia|]. rewrite EV. lia. }
  destruct (get_digits_spec qs2 h2 0) as (tmp & -> & Ht).
  { replace (Z.of_nat (i + S (S n)) + Z.of_nat m + 1) with 5 in Hq2 by lia. done. }
  { lia. }
  assert (Hquot : num h2 1 4 = U / V).
  { replace 4%nat with ((i + S n) + S m)%nat by lia. rewrite num_zeros.
    - rewrite <- EQ. f_equal. lia.
    - intros j Hj. rewrite Hh2 by lia. apply Hh. lia. }
  cbn [mbind outcome_bind]. rewrite Ht, Hquot. destruct arq; [|done].
  rewrite (remainder_spec us2 f2 _ m (S (S n)) e (U mod V)); [done|done|lia|lia|done|..].
  - intros j Hj. destruct (Z.eq_dec j (Z.of_nat i + Z.of_nat m)) as [->|]; [done|].
    destruct (decide (j < Z.of_nat i)); [rewrite Hf2; auto with lia|apply Hz2; lia].
  - rewrite <- ER, (num_cons f2 (Z.of_nat i + Z.of_nat m)), Hlast. lia.
Qed.

Lemma long_div_spec us f vs g (v : Z) (n : nat) arq :
  arr us f 0 5 -> arr vs g 1 5 -> v + Z.of_nat (S (S n)) = 4 -> 0 <= v ->
  f 0 = 0 -> g (v + 1) <> 0 ->
  num g (v + 1) (S (S n)) <= num f 1 4 ->
  long_div us vs v (Z.of_nat (S (S n))) arq
  = Done (num f 1 4 / num g (v + 1) (S (S n)),
          if arq then Some (num f 1 4 mod num g (v + 1) (S (S n))) else None).
Proof.
  intros Hu Hv Hvn Hv0 Hf0 Hg Hle.
  assert (HgV : B ^ Z.of_nat (S n) <= num g (v + 1) (S (S n))).
  { rewrite num_cons. pose proof (pow_pos (S n)).
    assert (0 <= num g (v + 1 + 1) (S n))
      by (apply num_bound; intros; eapply arr_word; [exact Hv|lia]).
    pose proof (arr_word _ _ _ _ (v + 1) Hv ltac:(lia)). unfold word in *. nia. }
  pose proof (pow_pos (S n)) as Hpos.
  assert (HU : 0 <= num f 1 4) by lia.
  unfold long_div.
  destruct (skip_u_spec us f 0 5 Hu 3 0 (4 - Z.of_nat (S (S n)))) as (i & Hi & -> & Hnz & Hz);
    [lia..|change (0 + 1) with 1; lia|].
  destruct (dividend_digits f g v i (S n) us vs) as (m & Him & HUm & Hfi);
    try done.
  cbn [mbind outcome_bind]. rewrite Z.add_0_l in *.
  replace (4 - Z.of_nat (S (S n)) - Z.of_nat i) with (Z.of_nat m) by lia.
  replace (4 - Z.of_nat m) with (Z.of_nat (i + S (S n))) by lia. rewrite Nat2Z.id.
  destruct (zero_q_spec (i + S (S n)) space5 (fun _ => 0) (Z.of_nat (i + S (S n))))
    as (qs & h & -> & Hqs & Hh & _); [apply space5_arr; lia|lia|].
  cbn [mbind outcome_bind].
  rewrite (rd_arr _ _ _ _ _ Hv) by lia. cbn [mbind outcome_bind].
  assert (Hgw : word 16 (g (v + 1))) by (eapply arr_word; [exact Hv|lia]).
  destruct (norm_shift_spec 16 (g (v + 1)) 0) as (e & He & -> & Hne);
    [unfold word in Hgw; rewrite B_val; lia
    |change (B / 2) with (2 ^ 15); unfold word in Hgw; change (Z.of_nat 16) with 16; lia|].
  cbn [mbind outcome_bind]. rewrite Z.add_0_l.
  destruct (normalise_spec us f vs g (Z.of_nat i) v m (S n) e)
    as (us1 & f1 & vs1 & g1 & -> & Hu1 & Hv1 & Hfo & HU1 & HV1 & Hn1); try done; try lia.
  cbn [mbind outcome_bind].
  apply (long_div_tail us1 f1 vs1 g1 qs h); try done; try lia.
  - intros j Hj. rewrite Hfo by lia. destruct (Z.eq_dec j 0) as [->|]; [done|apply Hz; lia].
  - apply (norm_bound (g (v + 1))); [lia|done|done].
  - split; [done|]. rewrite <- HUm, num_cons, Hfi, Z.mul_0_l, Z.add_0_l.
    apply num_bound. intros. eapply arr_word; [exact Hu|lia].
Qed.

(** ** [__qdivrem] and its callers *)
Lemma qdivrem_short us f vs g (arq : bool) :
  arr us f 0 5 -> arr vs g 1 5 -> (forall j, 1 <= j <= 3 -> g j = 0) -> 0 < num g 1 4 ->
  (t ← rd vs (2 + 2);
   '(tmp, r) ← short_div us t;
   Done (u64 (ll tmp), if arq then Some r else None))
  = Done (num f 1 4 / num g 1 4, if arq then Some (num f 1 4 mod num g 1 4) else None).
Proof.
  intros Hu Hv Hz Hpos. assert (E : num g 1 4 = g 4).
  { rewrite num4, !Hz by lia. lia. }
  rewrite E in *. rewrite (rd_arr _ _ _ _ _ Hv) by lia. cbn [mbind outcome_bind].
  change (2 + 2) with 4. pose proof (arr_word _ _ _ _ 4 Hv ltac:(lia)) as Hw.
  destruct (short_div_spec us f (g 4) 0 Hu) as (tmp & -> & Ht);
    [lia|unfold word in Hw; rewrite B_val; lia|].
  cbn [mbind outcome_bind]. by rewrite Ht.
Qed.

Lemma qdivrem_spec ull vll arq :
  word 64 ull -> word 64 vll -> vll <> 0 ->
  __qdivrem ull vll arq = Done (ull / vll, if arq then Some (ull mod vll) else None).
Proof.
  intros Hull Hvll Hnz. unfold __qdivrem. rewrite (proj2 (Z.eqb_neq vll 0) Hnz).
  unfold word in *. destruct (Z.ltb_spec ull vll).
  { rewrite Z.div_small, Z.mod_small by lia. done. }
  destruct (wr_arr space5 (fun _ => 0) 0 0 0 1 0 0) as (us0 & -> & H0);
    [by apply space5_arr|by unfold word|lia..|].
  cbn [mbind outcome_bind].
  destruct (put_digits_spec us0 _ 0 ull H0) as (us & f & -> & Hu & EU & Hf0); [lia|done|].
  destruct (put_digits_spec space5 (fun _ => 0) 1 vll) as (vs & g & -> & Hv & EV & _);
    [by apply space5_arr|lia|done|].
  cbn [mbind outcome_bind]. rewrite upd_at in Hf0.
  change (skip_v 2 vs 0 4) with (skip_v 2 vs 0 (Z.of_nat 2 + 2)).
  destruct (skip_v_spec vs g 1 5 Hv 2 0) as [(i & Hi & -> & Hg & Hz)|[-> Hz]]; [lia..| |];
    cbn [mbind outcome_bind].
  - destruct (Z.eqb_spec (Z.of_nat 2 + 2 - Z.of_nat i) 1); [lia|].
    rewrite Z.add_0_l in *.
    replace (Z.of_nat 2 + 2 - Z.of_nat i) with (Z.of_nat (S (S (2 - i)))) by lia.
    assert (EVi : num g (Z.of_nat i + 1) (S (S (2 - i))) = vll).
    { rewrite <- EV. replace 4%nat with (i + S (S (2 - i)))%nat by lia.
      rewrite num_zeros by (intros; apply Hz; lia). f_equal. lia. }
    rewrite (long_div_spec us f vs g); try done; try lia.
    by rewrite EU, EVi.
  - change (0 + Z.of_nat 2 + 2) with (2 + 2). change (1 =? 1) with true. cbv iota.
    rewrite (qdivrem_short us f vs g); try done; [by rewrite EU, EV|lia].
Qed.

(** The magnitude of a [long long], as the callers take it. *)
Lemma magnitude a :
  - 2 ^ 63 <= a < 2 ^ 63 ->
  (if a <? 0 then u64 (- u64 a) else u64 a) = Z.abs a /\ word 64 (Z.abs a).
Proof.
  intros Ha. unfold word, uwrap. destruct (Z.ltb_spec a 0).
  - rewrite Z.abs_neq by lia. dlia.
  - rewrite Z.abs_eq by lia. dlia.
Qed.
Lemma s64_u64_opp z : s64 (u64 (- z)) = s64 (- z).
Proof. apply s64_cong, uwrap_idem. Qed.

Section signed.
Context (a b : Z) (Ha : - 2 ^ 63 <= a < 2 ^ 63) (Hb : - 2 ^ 63 <= b < 2 ^ 63) (Hnz : b <> 0).

Lemma abs_quot : Z.abs a / Z.abs b = Z.abs (Z.quot a b).
Proof. rewrite <- Z.quot_abs, Z.quot_div_nonneg by lia. done. Qed.
Lemma abs_rem : Z.abs a mod Z.abs b = Z.abs (Z.rem a b).
Proof. rewrite <- Z.rem_abs, Z.rem_mod_nonneg by lia. done. Qed.

Lemma divdi3_spec : __divdi3 a b = Done (s64 (Z.quot a b)).
Proof.
  destruct (magnitude a Ha) as [Ea Wa], (magnitude b Hb) as [Eb Wb].
  unfold __divdi3. destruct (Z.ltb_spec a 0), (Z.ltb_spec b 0); rewrite Ea, Eb;
    rewrite qdivrem_spec by (try done; lia); cbn [mbind outcome_bind negb]; f_equal;
    rewrite ?s64_u64_opp; f_equal; rewrite <- Z.quot_div_nonneg by lia.
  - by rewrite !Z.abs_neq, Z.quot_opp_opp by lia.
  - rewrite Z.abs_neq, Z.abs_eq, Z.quot_opp_l by lia. lia.
  - rewrite Z.abs_eq, Z.abs_neq, Z.quot_opp_r by lia. lia.
  - by rewrite !Z.abs_eq by lia.
Qed.

Lemma moddi3_spec : __moddi3 a b = Done (Z.rem a b).
Proof.
  destruct (magnitude a Ha) as [Ea Wa], (magnitude b Hb) as [Eb Wb].
  pose proof (Z.rem_bound_abs a b Hnz) as Hr.
  unfold __moddi3. rewrite Eb. destruct (Z.ltb_spec a 0); rewrite Ea;
    rewrite qdivrem_spec by (try done; lia); cbn [mbind outcome_bind]; f_equal;
    rewrite ?s64_u64_opp, abs_rem.
  - pose proof (Z.rem_sign_mul a b Hnz). rewrite Z.abs_neq by nia.
    rewrite Z.opp_involutive. apply s64_id. lia.
  - pose proof (Z.rem_sign_mul a b Hnz). rewrite Z.abs_eq.
    + apply s64_id. lia.
    + destruct (Z.eq_dec a 0) as [->|]; [by rewrite Z.rem_0_l|nia].
Qed.
End signed.

(** C11: [__qdivrem], Knuth's multiprecision division in digits of 16 bits,
    returns for every 64-bit dividend and non-zero divisor their quotient and,
    when it is asked for, their remainder.  Reading an uninitialised digit,
    leaving an array and exhausting a loop's bound would all stop the function;
    none of them happens.  Division by zero traps. *)
Theorem qdivrem_correct ull vll arq :
  word 64 ull -> word 64 vll ->
  __qdivrem ull vll arq
  = if vll =? 0 then Stop DivZero
    else Done (ull / vll, if arq then Some (ull mod vll) else None).
Proof.
  intros Hu Hv. destruct (Z.eqb_spec vll 0) as [->|]; [done|]. by apply qdivrem_spec.
Qed.
Lemma qdivrem_correct_witness :
  __qdivrem (2 ^ 64 - 1) (2 ^ 32 + 2) true = Done (4294967294, Some 3).
Proof.
  exact (qdivrem_correct (2 ^ 64 - 1) (2 ^ 32 + 2) true
    ltac:(unfold word; lia) ltac:(unfold word; lia)).
Defined.

(** The signed and unsigned 64-bit division helpers compute C's [/] and
    [%], rounding towards zero, with a remainder that has the sign of the
    dividend.  The signed quotient wraps, for the smallest value divided by
    -1 only; everything else is exact. *)
Theorem division_helpers_correct a b :
  - 2 ^ 63 <= a < 2 ^ 63 -> - 2 ^ 63 <= b < 2 ^ 63 -> b <> 0 ->
  __divdi3 a b = Done (s64 (Z.quot a b)) /\
  (s64 (Z.quot a b) = Z.quot a b <-> ~ (a = - 2 ^ 63 /\ b = -1)) /\
  __moddi3 a b = Done (Z.rem a b) /\
  __udivdi3 (u64 a) (u64 b) = Done (u64 a / u64 b) /\
  __umoddi3 (u64 a) (u64 b) = Done (u64 a mod u64 b).
Proof.
  intros Ha Hb Hnz. assert (Hn' : u64 b <> 0) by (unfold uwrap; dlia).
  split_and!; [by apply divdi3_spec| |by apply moddi3_spec|..].
  - split; [intros E [-> ->]; discriminate|]. intros Hno. apply s64_id.
    pose proof (abs_quot a b Hnz). pose proof (Z.div_mod (Z.abs a) (Z.abs b) ltac:(lia)).
    pose proof (Z.mod_pos_bound (Z.abs a) (Z.abs b) ltac:(lia)).
    destruct (decide (b = -1)) as [->|].
    { change (-1) with (- (1)). rewrite Z.quot_opp_r, Z.quot_1_r by lia. lia. }
    destruct (decide (b = 1)) as [->|]; [rewrite Z.quot_1_r; lia|].
    assert (Z.abs (Z.quot a b) <= 2 ^ 62) by nia. lia.
  - unfold __udivdi3. rewrite qdivrem_spec by (try done; apply uwrap_range; lia). done.
  - unfold __umoddi3. rewrite qdivrem_spec by (try done; apply uwrap_range; lia). done.
Qed.
Lemma division_helpers_correct_witness :
  __divdi3 (-7) 2 = Done (-3) /\ __moddi3 (-7) 2 = Done (-1).
Proof.
  destruct (division_helpers_correct (-7) 2) as (H1 & _ & H2 & _); [lia|lia|lia|].
  split; [exact H1|exact H2].
Defined.
