(* ===== verification/Kmalloc.v ===== *)
(** The kernel heap (kern/vm/kmalloc.c)

    Blocks of 16 to 2048 bytes are cut from pages that hold blocks of one size
    each; a page has a free list threaded through its free blocks and a
    [pageref] in a table of 256 that links it into the list of all pages and
    the list of the pages of its size.  Larger blocks are whole pages.

    The state is that of the file: the table, its bitmap of used entries, the
    list heads, and the words of memory the lists run through.  A [pageref] is
    its index in the table.  Pages come from [alloc_kpages] and go back to
    [free_kpages], which are the class [PageProvider]; what the heap relies on
    is its laws.  The spinlock is not modelled: one call runs at a time. *)
From S2P Require Import Prelude.

Definition PAGE_SIZE : Z := 4096.
Definition PAGE_FRAME : Z := 0xfffff000.
(** Kernel addresses that are not mapped through the TLB. *)
Definition MIPS_KSEG0 : Z := 0x80000000.
Definition MIPS_KSEG1 : Z := 0xa0000000.

(** ** Where the pages come from

    [owns p R]: the provider has handed out the runs of pages [R], a map from
    the address of the first page of a run to the number of its pages. *)
Record run_ok (a n : Z) : Prop := {
  run_kseg0 : MIPS_KSEG0 <= a;
  run_aligned : a mod PAGE_SIZE = 0;
  run_size : 0 < n;
  run_kseg1 : a + n * PAGE_SIZE <= MIPS_KSEG1;
}.
Class PageProvider (P : Type) := {
  alloc_kpages : Z -> P -> Z * P;
  free_kpages : Z -> P -> P;
  owns : P -> gmap Z Z -> Prop;
  (** runs are whole pages, and no two of them overlap *)
  owns_run p R a n : owns p R -> R !! a = Some n -> run_ok a n;
  owns_disjoint p R a n b k :
    owns p R -> R !! a = Some n -> R !! b = Some k -> a <> b ->
    a + n * PAGE_SIZE <= b \/ b + k * PAGE_SIZE <= a;
  (** 0, or a run that was not handed out before; the provider is asked for
      less than 2 GB *)
  alloc_kpages_law p R n a p' :
    owns p R -> 0 < n < 2 ^ 19 -> alloc_kpages n p = (a, p') ->
    (a = 0 /\ owns p' R) \/ (R !! a = None /\ owns p' (<[a := n]> R));
  free_kpages_law p R a n :
    owns p R -> R !! a = Some n -> owns (free_kpages a p) (delete a R);
}.

(** ** Data *)
Definition NSIZES : nat := 8.
Definition sizes : list Z := [16; 32; 64; 128; 256; 512; 1024; 2048].
Definition LARGEST_SUBPAGE_SIZE : Z := 2048.
Definition NPAGEREFS : nat := 256.
Definition INUSE_WORDS : nat := 8.
Definition INVALID_OFFSET : Z := 0xffff.

(** [struct pageref]; a pointer is an index into [pagerefs]. *)
Record pageref := Pageref {
  next_samesize : option nat;
  next_all : option nat;
  pageaddr_and_blocktype : Z;
  freelist_offset : Z;
  nfree : Z;
}.
#[export] Instance pageref_inhabited : Inhabited pageref := populate (Pageref None None 0 0 0).

Section kmalloc.
Context {P : Type} `{!PageProvider P}.

(** The variables of the file, the words of memory by address (a word that
    was never written is 0), and the page provider. *)
Record kheap := Kheap {
  pagerefs : gmap nat pageref;
  pagerefs_inuse : list Z;
  sizebases : list (option nat);
  allbase : option nat;
  mem : gmap Z Z;
  pages : P;
}.
Definition with_pagerefs f s := Kheap (f (pagerefs s)) (pagerefs_inuse s) (sizebases s)
  (allbase s) (mem s) (pages s).
Definition with_inuse f s := Kheap (pagerefs s) (f (pagerefs_inuse s)) (sizebases s)
  (allbase s) (mem s) (pages s).
Definition with_sizebases f s := Kheap (pagerefs s) (pagerefs_inuse s) (f (sizebases s))
  (allbase s) (mem s) (pages s).
Definition with_allbase (x : option nat) s := Kheap (pagerefs s) (pagerefs_inuse s) (sizebases s)
  x (mem s) (pages s).
Definition with_mem f s := Kheap (pagerefs s) (pagerefs_inuse s) (sizebases s)
  (allbase s) (f (mem s)) (pages s).
Definition with_pages p s := Kheap (pagerefs s) (pagerefs_inuse s) (sizebases s)
  (allbase s) (mem s) p.

(** The heap before the first call: everything in the BSS is 0. *)
Definition kheap_init (p : P) : kheap :=
  Kheap ∅ (replicate INUSE_WORDS 0) (replicate NSIZES None) None ∅ p.

(** ** Access *)
Definition getpr (i : nat) : M kheap pageref := mgets (fun s => pagerefs s !!! i).
Definition setpr (i : nat) (f : pageref -> pageref) : M kheap unit :=
  mmodify (with_pagerefs (fun m => <[i := f (m !!! i)]> m)).
Definition load (a : Z) : M kheap Z := mgets (fun s => mem s !!! a).
Definition store (a v : Z) : M kheap unit := mmodify (with_mem (<[a := v]>)).
Definition size_of (blktype : nat) : Z := nth blktype sizes 0.

Definition PR_PAGEADDR (pr : pageref) : Z := Z.land (pageaddr_and_blocktype pr) PAGE_FRAME.
Definition PR_BLOCKTYPE (pr : pageref) : Z :=
  Z.land (pageaddr_and_blocktype pr) (u32 (Z.lnot PAGE_FRAME)).
Definition MKPAB (pa blk : Z) : Z :=
  Z.lor (Z.land pa PAGE_FRAME) (Z.land blk (u32 (Z.lnot PAGE_FRAME))).

Definition set_next_samesize x pr := Pageref x (next_all pr) (pageaddr_and_blocktype pr)
  (freelist_offset pr) (nfree pr).
Definition set_next_all x pr := Pageref (next_samesize pr) x (pageaddr_and_blocktype pr)
  (freelist_offset pr) (nfree pr).
Definition set_pab x pr := Pageref (next_samesize pr) (next_all pr) x
  (freelist_offset pr) (nfree pr).
Definition set_offset x pr := Pageref (next_samesize pr) (next_all pr)
  (pageaddr_and_blocktype pr) (u16 x) (nfree pr).
Definition set_nfree x pr := Pageref (next_samesize pr) (next_all pr)
  (pageaddr_and_blocktype pr) (freelist_offset pr) (u16 x).

(** ** Operations *)
Fixpoint fill_loop (k : nat) (a : Z) : M kheap unit :=
  match k with
  | O => mret tt
  | S k' => store a 0xdeadbeef ≫= fun _ => fill_loop k' (a + 4)
  end.
Definition fill_deadbeef (vptr len : Z) : M kheap unit := fill_loop (Z.to_nat (len / 4)) vptr.

(** [for (k=1,j=0; k!=0; k<<=1,j++)]: the first clear bit of a word. *)
Fixpoint clear_bit (n : nat) (w j : Z) : option Z :=
  match n with
  | O => None
  | S n' => if Z.land w (Z.shiftl 1 j) =? 0 then Some j else clear_bit n' w (j + 1)
  end.
Fixpoint allocpageref_loop (n : nat) (i : nat) : M kheap (option nat) :=
  match n with
  | O => mret None
  | S n' =>
      w ← mgets (fun s => nth i (pagerefs_inuse s) 0);
      if w =? 0xffffffff then allocpageref_loop n' (S i)
      else
        match clear_bit 32 w 0 with
        | Some j =>
            mmodify (with_inuse (<[i := Z.lor w (Z.shiftl 1 j)]>)) ≫= fun _ =>
            mret (Some (i * 32 + Z.to_nat j)%nat)
        | None => mstop KAssertFail
        end
  end.
Definition allocpageref : M kheap (option nat) := allocpageref_loop INUSE_WORDS 0.
Definition freepageref (p : nat) : M kheap unit :=
  kassert (bool_decide (p < NPAGEREFS)%nat) ≫= fun _ =>
  w ← mgets (fun s => nth (p / 32) (pagerefs_inuse s) 0);
  let k := Z.shiftl 1 (Z.of_nat (p mod 32)) in
  kassert (negb (Z.land w k =? 0)) ≫= fun _ =>
  mmodify (with_inuse (<[(p / 32)%nat := Z.land w (u32 (Z.lnot k))]>)).

(** The two loops over [guy], the address of a link, differ in the field that
    links the list and in its head.  [cur] is what the link holds, and [prev]
    the [pageref] it belongs to, if it is not the head of the list. *)
Fixpoint remove_loop (next : pageref -> option nat)
    (set_next : option nat -> pageref -> pageref) (set_head : option nat -> kheap -> kheap)
    (fuel : nat) (prev cur : option nat) (pr : nat) : M kheap unit :=
  match cur with
  | None => mret tt
  | Some c =>
      nx ← getpr c;
      if Nat.eqb c pr then
        match prev with
        | None => mmodify (set_head (next nx))
        | Some p => setpr p (set_next (next nx))
        end
      else
        match fuel with
        | O => mstop NoFuel
        | S fuel' => remove_loop next set_next set_head fuel' (Some c) (next nx) pr
        end
  end.
Definition remove_lists (pr : nat) (blktype : Z) : M kheap unit :=
  kassert ((0 <=? blktype) && (blktype <? Z.of_nat NSIZES)) ≫= fun _ =>
  b ← mgets (fun s => nth (Z.to_nat blktype) (sizebases s) None);
  remove_loop next_samesize set_next_samesize
    (fun x => with_sizebases (<[Z.to_nat blktype := x]>)) NPAGEREFS None b pr ≫= fun _ =>
  a ← mgets allbase;
  remove_loop next_all set_next_all with_allbase NPAGEREFS None a pr.

Fixpoint blocktype_loop (n : nat) (i : nat) (sz : Z) : outcome nat :=
  match n with
  | O => Stop KPanic
  | S n' => if sz <=? size_of i then Done i else blocktype_loop n' (S i) sz
  end.
Definition blocktype (sz : Z) : outcome nat := blocktype_loop NSIZES 0 sz.

(** The search of [subpage_kmalloc] for a page with a free block. *)
Fixpoint find_free (fuel : nat) (cur : option nat) (blktype : nat) : M kheap (option nat) :=
  match cur with
  | None => mret None
  | Some c =>
      p ← getpr c;
      kassert (PR_BLOCKTYPE p =? Z.of_nat blktype) ≫= fun _ =>
      if nfree p >? 0 then mret (Some c)
      else match fuel with
           | O => mstop NoFuel
           | S fuel' => find_free fuel' (next_samesize p) blktype
           end
  end.
(** From the label [doalloc] on: take the first block of the page. *)
Definition doalloc (pr : nat) : M kheap Z :=
  p ← getpr pr;
  kassert (freelist_offset p <? PAGE_SIZE) ≫= fun _ =>
  let prpage := PR_PAGEADDR p in
  let fla := u32 (prpage + freelist_offset p) in
  fl ← load fla;
  setpr pr (set_nfree (nfree p - 1)) ≫= fun _ =>
  p ← getpr pr;
  (if negb (fl =? 0) then
     kassert (nfree p >? 0) ≫= fun _ =>
     kassert (u32 (fl - prpage) <? PAGE_SIZE) ≫= fun _ =>
     setpr pr (set_offset (u32 (fl - prpage)))
   else
     kassert (nfree p =? 0) ≫= fun _ =>
     setpr pr (set_offset INVALID_OFFSET)) ≫= fun _ =>
  mret fla.
(** [for (i=1; i<pr->nfree; i++)]: thread the free list through the page. *)
Fixpoint thread_page (k : nat) (i fla sz fl : Z) : M kheap Z :=
  match k with
  | O => mret fl
  | S k' =>
      let fl := u32 (fla + i * sz) in
      store fl (u32 (fla + (i - 1) * sz)) ≫= fun _ =>
      nx ← load fl;
      kassert (negb (fl =? nx)) ≫= fun _ =>
      thread_page k' (i + 1) fla sz fl
  end.
Definition get_kpages (n : Z) : M kheap Z := fun s =>
  let '(a, p) := alloc_kpages n (pages s) in Done (a, with_pages p s).
Definition put_kpages (a : Z) : M kheap unit := mmodify (fun s =>
  with_pages (free_kpages a (pages s)) s).

Definition new_page (pr blktype : nat) (prpage : Z) : M kheap unit :=
  let sz := size_of blktype in
  setpr pr (set_pab (MKPAB prpage (Z.of_nat blktype))) ≫= fun _ =>
  setpr pr (set_nfree (PAGE_SIZE / sz)) ≫= fun _ =>
  p ← getpr pr;
  store prpage 0 ≫= fun _ =>
  fl ← thread_page (Z.to_nat (nfree p - 1)) 1 prpage sz prpage;
  setpr pr (set_offset (u32 (fl - prpage))) ≫= fun _ =>
  p ← getpr pr;
  kassert (freelist_offset p =? (nfree p - 1) * sz) ≫= fun _ =>
  b ← mgets (fun s => nth blktype (sizebases s) None);
  setpr pr (set_next_samesize b) ≫= fun _ =>
  mmodify (with_sizebases (<[blktype := Some pr]>)) ≫= fun _ =>
  a ← mgets allbase;
  setpr pr (set_next_all a) ≫= fun _ =>
  mmodify (with_allbase (Some pr)).

(** The result is an address, or 0 for [NULL]. *)
Definition subpage_kmalloc (sz : Z) : M kheap Z :=
  blktype ← mlift (blocktype sz);
  b ← mgets (fun s => nth blktype (sizebases s) None);
  r ← find_free NPAGEREFS b blktype;
  match r with
  | Some pr => doalloc pr
  | None =>
      prpage ← get_kpages 1;
      if prpage =? 0 then mret 0
      else
        r ← allocpageref;
        match r with
        | None => put_kpages prpage ≫= fun _ => mret 0
        | Some pr =>
            new_page pr blktype prpage ≫= fun _ =>
            doalloc pr
        end
  end.

(** The search of [subpage_kfree] for the page of an address. *)
Fixpoint find_owner (fuel : nat) (cur : option nat) (ptraddr : Z) : M kheap (option nat) :=
  match cur with
  | None => mret None
  | Some c =>
      p ← getpr c;
      let prpage := PR_PAGEADDR p in
      kassert ((0 <=? PR_BLOCKTYPE p) && (PR_BLOCKTYPE p <? Z.of_nat NSIZES)) ≫= fun _ =>
      if (prpage <=? ptraddr) && (ptraddr <? u32 (prpage + PAGE_SIZE)) then mret (Some c)
      else match fuel with
           | O => mstop NoFuel
           | S fuel' => find_owner fuel' (next_all p) ptraddr
           end
  end.
Definition subpage_kfree (ptr : Z) : M kheap Z :=
  a ← mgets allbase;
  r ← find_owner NPAGEREFS a ptr;
  match r with
  | None => mret (-1)
  | Some pr =>
      p ← getpr pr;
      let prpage := PR_PAGEADDR p in
      let blktype := PR_BLOCKTYPE p in
      let sz := size_of (Z.to_nat blktype) in
      let offset := u32 (ptr - prpage) in
      (if (offset >=? PAGE_SIZE) || negb (offset mod sz =? 0) then mstop KPanic
       else mret tt) ≫= fun _ =>
      fill_deadbeef ptr sz ≫= fun _ =>
      let fla := u32 (prpage + offset) in
      (if freelist_offset p =? INVALID_OFFSET then store fla 0
       else store fla (u32 (prpage + freelist_offset p))) ≫= fun _ =>
      setpr pr (set_offset offset) ≫= fun _ =>
      setpr pr (set_nfree (nfree p + 1)) ≫= fun _ =>
      p ← getpr pr;
      kassert (nfree p <=? PAGE_SIZE / sz) ≫= fun _ =>
      if nfree p =? PAGE_SIZE / sz then
        remove_lists pr blktype ≫= fun _ =>
        freepageref pr ≫= fun _ =>
        put_kpages prpage ≫= fun _ =>
        mret 0
      else mret 0
  end.

Definition kmalloc (sz : Z) : M kheap Z :=
  if sz >=? LARGEST_SUBPAGE_SIZE then
    let npages := u32 (sz + PAGE_SIZE - 1) / PAGE_SIZE in
    get_kpages npages
  else subpage_kmalloc sz.
Definition kfree (ptr : Z) : M kheap unit :=
  if ptr =? 0 then mret tt
  else
    r ← subpage_kfree ptr;
    if negb (r =? 0) then
      kassert (ptr mod PAGE_SIZE =? 0) ≫= fun _ =>
      put_kpages ptr
    else mret tt.

(** ** The consistency checks of the file (compiled in with [SLOWER]) *)
Fixpoint check_list (fuel : nat) (fl prpage sz n : Z) : M kheap Z :=
  if fl =? 0 then mret n
  else
    kassert ((prpage <=? fl) && (fl <? u32 (prpage + PAGE_SIZE))) ≫= fun _ =>
    kassert (u32 (fl - prpage) mod sz =? 0) ≫= fun _ =>
    kassert (MIPS_KSEG0 <=? fl) ≫= fun _ =>
    kassert (fl <? MIPS_KSEG1) ≫= fun _ =>
    nx ← load fl;
    match fuel with
    | O => mstop NoFuel
    | S fuel' => check_list fuel' nx prpage sz (n + 1)
    end.
Definition checksubpage (pr : nat) : M kheap unit :=
  p ← getpr pr;
  if freelist_offset p =? INVALID_OFFSET then kassert (nfree p =? 0)
  else
    let prpage := PR_PAGEADDR p in
    let sz := size_of (Z.to_nat (PR_BLOCKTYPE p)) in
    kassert (freelist_offset p <? PAGE_SIZE) ≫= fun _ =>
    kassert (freelist_offset p mod sz =? 0) ≫= fun _ =>
    n ← check_list NPAGEREFS (u32 (prpage + freelist_offset p)) prpage sz 0;
    kassert (n =? nfree p).
Fixpoint check_chain (fuel : nat) (next : pageref -> option nat) (cur : option nat) (n : Z)
    : M kheap Z :=
  match cur with
  | None => mret n
  | Some c =>
      checksubpage c ≫= fun _ =>
      kassert (n <? Z.of_nat NPAGEREFS) ≫= fun _ =>
      p ← getpr c;
      match fuel with
      | O => mstop NoFuel
      | S fuel' => check_chain fuel' next (next p) (n + 1)
      end
  end.
Fixpoint check_sizes (k : nat) (i : nat) (sc : Z) : M kheap Z :=
  match k with
  | O => mret sc
  | S k' =>
      b ← mgets (fun s => nth i (sizebases s) None);
      sc ← check_chain NPAGEREFS next_samesize b sc;
      check_sizes k' (S i) sc
  end.
Definition checksubpages : M kheap unit :=
  sc ← check_sizes NSIZES 0 0;
  a ← mgets allbase;
  ac ← check_chain NPAGEREFS next_all a 0;
  kassert (sc =? ac).

(** ** What the heap looks like

    A page of the heap: its entry in the table, its address, the type of its
    blocks and the addresses of the free ones in the order of the free list. *)
Record page := Page {
  pg_idx : nat;
  pg_addr : Z;
  pg_type : nat;
  pg_free : list Z;
}.
Definition pg_size (pg : page) : Z := size_of (pg_type pg).
Definition pg_count (pg : page) : Z := PAGE_SIZE / pg_size pg.

(** A list in a table of links. *)
Fixpoint chain (nx : nat -> option nat) (start : option nat) (l : list nat) : Prop :=
  match l with
  | [] => start = None
  | x :: l' => start = Some x /\ chain nx (nx x) l'
  end.
(** The free list in memory: every block holds the address of the next. *)
Fixpoint fchain (m : gmap Z Z) (l : list Z) : Prop :=
  match l with
  | [] => True
  | a :: l' => m !!! a = hd 0 l' /\ fchain m l'
  end.

(** [a] is the address of a block of the page. *)
Definition block_of (pg : page) (a : Z) : Prop :=
  pg_addr pg <= a < pg_addr pg + PAGE_SIZE /\ (a - pg_addr pg) mod pg_size pg = 0.

Record page_ok (s : kheap) (pg : page) : Prop := {
  po_idx : (pg_idx pg < NPAGEREFS)%nat;
  po_type : (pg_type pg < NSIZES)%nat;
  po_run : run_ok (pg_addr pg) 1;
  po_pab : pageaddr_and_blocktype (pagerefs s !!! pg_idx pg)
           = MKPAB (pg_addr pg) (Z.of_nat (pg_type pg));
  po_off : freelist_offset (pagerefs s !!! pg_idx pg)
           = match pg_free pg with [] => INVALID_OFFSET | a :: _ => a - pg_addr pg end;
  po_nfree : nfree (pagerefs s !!! pg_idx pg) = Z.of_nat (length (pg_free pg));
  po_blocks : Forall (block_of pg) (pg_free pg);
  po_nodup : NoDup (pg_free pg);
  po_chain : fchain (mem s) (pg_free pg);
}.

Definition of_type (t : nat) (ps : list page) : list page :=
  filter (fun pg => pg_type pg = t) ps.
Record heap_core (s : kheap) (ps : list page) (R : gmap Z Z) : Prop := {
  hc_all : chain (fun i => next_all (pagerefs s !!! i)) (allbase s) (pg_idx <$> ps);
  hc_size t : (t < NSIZES)%nat ->
    chain (fun i => next_samesize (pagerefs s !!! i)) (nth t (sizebases s) None)
          (pg_idx <$> of_type t ps);
  hc_bases : length (sizebases s) = NSIZES;
  hc_idx : NoDup (pg_idx <$> ps);
  hc_pages : Forall (page_ok s) ps;
  hc_addr : NoDup (pg_addr <$> ps);
  hc_runs : Forall (fun pg => R !! pg_addr pg = Some 1) ps;
  hc_owns : owns (pages s) R;
}.
(** The bitmap says which entries of the table are in use. *)
Definition inuse_ok (w : list Z) (l : list nat) : Prop :=
  length w = INUSE_WORDS /\ Forall (fun x => 0 <= x < 2 ^ 32) w /\
  forall i, (i < NPAGEREFS)%nat ->
    Z.testbit (nth (i / 32) w 0) (Z.of_nat (i mod 32)) = bool_decide (i ∈ l).
Record heap_ok (s : kheap) (ps : list page) (R : gmap Z Z) : Prop := {
  ho_core : heap_core s ps R;
  ho_inuse : inuse_ok (pagerefs_inuse s) (pg_idx <$> ps);
  (** a page that is free altogether goes back at once *)
  ho_used : Forall (fun pg => Z.of_nat (length (pg_free pg)) < pg_count pg) ps;
}.

(** The blocks that are in use: the blocks of the pages that are not free, and
    the runs of pages that do not belong to the small-block allocator. *)
Definition live (ps : list page) (R : gmap Z Z) (a z : Z) : Prop :=
  (exists pg, (pg ∈ ps) /\ block_of pg a /\ (a ∉ pg_free pg) /\ z = pg_size pg) \/
  (exists n, R !! a = Some n /\ (a ∉ (pg_addr <$> ps)) /\ z = n * PAGE_SIZE).

(** ** Words and sizes *)
Lemma frame_bit i : 0 <= i -> Z.testbit PAGE_FRAME i = (12 <=? i) && (i <? 32).
Proof.
  intros Hi. change PAGE_FRAME with (Z.shiftl (Z.ones 20) 12).
  destruct (Z.leb_spec 12 i).
  - rewrite Z.shiftl_spec by lia. destruct (Z.ltb_spec i 32); cbn.
    + apply Z.ones_spec_low. lia.
    + apply Z.ones_spec_high. lia.
  - by rewrite Z.shiftl_spec_low by lia.
Qed.
Lemma offset_bit i : 0 <= i -> Z.testbit (u32 (Z.lnot PAGE_FRAME)) i = (i <? 12).
Proof.
  intros Hi. rewrite uwrap_testbit, Z.lnot_spec, frame_bit by lia.
  destruct (Z.ltb_spec i 32), (Z.ltb_spec i 12), (Z.leb_spec 12 i); cbn; lia || done.
Qed.
Lemma aligned_bit a i : a mod PAGE_SIZE = 0 -> 0 <= i < 12 -> Z.testbit a i = false.
Proof.
  intros Ha Hi. change PAGE_SIZE with (2 ^ 12) in Ha.
  rewrite <- (Z.mod_pow2_bits_low a 12 i) by lia. by rewrite Ha, Z.bits_0.
Qed.

Section mkpab.
Context (a t : Z) (Ha : a mod PAGE_SIZE = 0) (Ha' : 0 <= a < 2 ^ 32) (Ht : 0 <= t < 2 ^ 12).
Context (pr : pageref) (Hpr : pageaddr_and_blocktype pr = MKPAB a t).

Lemma PR_PAGEADDR_MKPAB : PR_PAGEADDR pr = a.
Proof.
  unfold PR_PAGEADDR, MKPAB in *. rewrite Hpr. apply Z.bits_inj'. intros i Hi.
  rewrite Z.land_spec, Z.lor_spec, !Z.land_spec, frame_bit, offset_bit by lia.
  destruct (Z.leb_spec 12 i), (Z.ltb_spec i 32), (Z.ltb_spec i 12); cbn;
    rewrite ?andb_true_r, ?andb_false_r, ?orb_false_r; try lia; try done; symmetry.
  - apply (bits_above 32); lia.
  - by apply aligned_bit.
Qed.
Lemma PR_BLOCKTYPE_MKPAB : PR_BLOCKTYPE pr = t.
Proof.
  unfold PR_BLOCKTYPE, MKPAB in *. rewrite Hpr. apply Z.bits_inj'. intros i Hi.
  rewrite Z.land_spec, Z.lor_spec, !Z.land_spec, frame_bit, offset_bit by lia.
  destruct (Z.leb_spec 12 i), (Z.ltb_spec i 32), (Z.ltb_spec i 12); cbn;
    rewrite ?andb_true_r, ?andb_false_r, ?orb_false_r; try lia; try done; symmetry;
    apply (bits_above 12); lia.
Qed.
End mkpab.

(** Every size is a multiple of 16 that divides the page. *)
Lemma size_cases t : (t < NSIZES)%nat ->
  16 <= size_of t <= 2048 /\ size_of t mod 16 = 0 /\
  PAGE_SIZE = PAGE_SIZE / size_of t * size_of t /\ 2 <= PAGE_SIZE / size_of t <= 256.
Proof.
  unfold NSIZES. intros Ht.
  do 8 (destruct t as [|t]; [split_and!; vm_compute; congruence|]). lia.
Qed.
End kmalloc.
Arguments kheap P : clear implicits.
