(* ===== verification/Kheap.v ===== *)
(** The kernel heap is correct (kern/vm/kmalloc.c)

    The invariant of Kmalloc.v is kept by [kmalloc] and [kfree]; the blocks
    in use never overlap, a new block is none of them, and their contents
    change only when the client writes them.  [heap_refines] puts this
    together: the heap implements an allocator that keeps a map of blocks and
    a map of their contents, for every sequence of calls of a client that
    frees and uses only what it was given. *)
From S2P Require Import Prelude Kmalloc.

Section heap.
Context {P : Type} `{!PageProvider P}.
Implicit Types (s : kheap P) (ps qs : list page) (pg : page) (R : gmap Z Z).

Ltac goal_decide := match goal with |- context [decide ?Q] => destruct (decide Q) end.

Lemma elem_mid {A} (l1 : list A) x l2 : x ∈ l1 ++ x :: l2.
Proof. apply elem_of_app. right. apply elem_of_cons. by left. Qed.

Lemma filter_none {A} (Q : A -> Prop) `{!forall x, Decision (Q x)} (l : list A) :
  (forall x, x ∈ l -> ~ Q x) -> filter Q l = [].
Proof.
  induction l as [|x l IH]; intros Hn; [done|]. rewrite filter_cons, decide_False.
  - apply IH. set_solver.
  - apply Hn. set_solver.
Qed.
Lemma filter_all {A} (Q : A -> Prop) `{!forall x, Decision (Q x)} (l : list A) :
  (forall x, Q x) -> filter Q l = l.
Proof.
  intros Ha. induction l as [|x l IH]; [done|]. rewrite filter_cons, decide_True by done.
  by f_equal.
Qed.

(** ** Lists in tables *)
Lemma chain_ext nx nx' start l :
  (forall x, x ∈ l -> nx' x = nx x) -> chain nx start l -> chain nx' start l.
Proof.
  revert start. induction l as [|x l IH]; intros start He; [done|]. intros [-> Hc].
  split; [done|]. rewrite He by set_solver. apply IH; [set_solver|done].
Qed.
Lemma fchain_ext m m' l :
  (forall a, a ∈ l -> m' !!! a = m !!! a) -> fchain m l -> fchain m' l.
Proof.
  induction l as [|a l IH]; intros He; [done|]. intros [E Hc]. split.
  - by rewrite He by set_solver.
  - apply IH; [set_solver|done].
Qed.
Lemma of_type_app t l1 l2 : of_type t (l1 ++ l2) = of_type t l1 ++ of_type t l2.
Proof. apply filter_app. Qed.

(** ** Facts about pages *)
Section page.
Context s pg (Hpg : page_ok s pg).

Lemma page_bounds : MIPS_KSEG0 <= pg_addr pg /\ pg_addr pg + PAGE_SIZE <= MIPS_KSEG1.
Proof. destruct (po_run _ _ Hpg). lia. Qed.
Lemma page_addr : PR_PAGEADDR (pagerefs s !!! pg_idx pg) = pg_addr pg.
Proof.
  pose proof page_bounds. destruct (po_run _ _ Hpg) as [_ Ha _ _].
  apply (PR_PAGEADDR_MKPAB (pg_addr pg) (Z.of_nat (pg_type pg))); [done| |..|by apply po_pab].
  - unfold MIPS_KSEG0, MIPS_KSEG1, PAGE_SIZE in *. lia.
Qed.
Lemma page_type : PR_BLOCKTYPE (pagerefs s !!! pg_idx pg) = Z.of_nat (pg_type pg).
Proof.
  pose proof page_bounds. pose proof (po_type _ _ Hpg). unfold NSIZES in *.
  destruct (po_run _ _ Hpg) as [_ Ha _ _].
  apply (PR_BLOCKTYPE_MKPAB (pg_addr pg)); [lia|by apply po_pab].
Qed.
Lemma page_sizes :
  16 <= pg_size pg <= 2048 /\ pg_size pg mod 16 = 0 /\
  PAGE_SIZE = pg_count pg * pg_size pg /\ 2 <= pg_count pg <= 256.
Proof. exact (size_cases _ (po_type _ _ Hpg)). Qed.
End page.

(** The number of free blocks of a page. *)
Lemma block_index pg a :
  0 < pg_size pg -> PAGE_SIZE = pg_count pg * pg_size pg -> block_of pg a ->
  exists i, a = pg_addr pg + i * pg_size pg /\ 0 <= i < pg_count pg.
Proof.
  intros Hz Hp [Hr Hm]. exists ((a - pg_addr pg) / pg_size pg).
  pose proof (Z.div_mod (a - pg_addr pg) (pg_size pg) ltac:(lia)) as Hd.
  rewrite Hm in Hd. split; [lia|]. split; [apply Z.div_pos; lia|].
  apply Z.div_lt_upper_bound; lia.
Qed.
Lemma block_at pg i :
  0 < pg_size pg -> PAGE_SIZE = pg_count pg * pg_size pg -> 0 <= i < pg_count pg ->
  block_of pg (pg_addr pg + i * pg_size pg).
Proof.
  intros Hz Hp Hi. split; [nia|].
  replace (pg_addr pg + i * pg_size pg - pg_addr pg) with (i * pg_size pg) by lia.
  apply Z.mod_mul. lia.
Qed.
(** All the blocks of a page, and the room for a list of them. *)
Definition all_blocks pg : list Z :=
  (fun i => pg_addr pg + Z.of_nat i * pg_size pg) <$> seq 0 (Z.to_nat (pg_count pg)).
Lemma elem_all_blocks s pg a : page_ok s pg -> a ∈ all_blocks pg <-> block_of pg a.
Proof.
  intros Hpg. destruct (page_sizes s pg Hpg) as (? & _ & ? & ?).
  unfold all_blocks. rewrite list_elem_of_fmap. split.
  - intros (i & -> & Hi%elem_of_seq). apply block_at; lia.
  - intros Hb. destruct (block_index pg a) as (i & -> & Hi); [lia|done..|].
    exists (Z.to_nat i). split; [lia|]. apply elem_of_seq. lia.
Qed.
Lemma free_bound s pg : page_ok s pg -> Z.of_nat (length (pg_free pg)) <= pg_count pg.
Proof.
  intros Hpg. destruct (page_sizes s pg Hpg) as (_ & _ & _ & ?).
  assert (length (pg_free pg) <= length (all_blocks pg))%nat as Hl.
  { apply submseteq_length, NoDup_submseteq; [by apply (po_nodup s)|].
    intros a Ha. apply (elem_all_blocks s); [done|].
    by eapply Forall_forall in Ha; [|apply (po_blocks s pg Hpg)]. }
  unfold all_blocks in Hl. rewrite length_fmap, length_seq in Hl. lia.
Qed.
(** A page that is not free altogether has a block in use, and one whose
    blocks are all free has none. *)
Lemma used_block s pg :
  page_ok s pg -> Z.of_nat (length (pg_free pg)) < pg_count pg ->
  exists a, block_of pg a /\ a ∉ pg_free pg.
Proof.
  intros Hpg Hl. destruct (decide (Forall (.∈ pg_free pg) (all_blocks pg))) as [Hall|Hno].
  - exfalso. assert (length (all_blocks pg) <= length (pg_free pg))%nat as Hc.
    { apply submseteq_length, NoDup_submseteq.
      - unfold all_blocks. apply NoDup_fmap_2_strong; [|apply NoDup_seq].
        destruct (page_sizes s pg Hpg) as (? & _). intros; nia.
      - intros a Ha. by eapply Forall_forall in Ha; [|exact Hall]. }
    unfold all_blocks in Hc. rewrite length_fmap, length_seq in Hc. lia.
  - apply not_Forall_Exists in Hno; [|apply _]. apply Exists_exists in Hno as (a & Ha & Hn).
    exists a. split; [by apply (elem_all_blocks s)|done].
Qed.

(** ** Pages do not overlap *)
Lemma pages_disjoint s ps R pg q :
  heap_core s ps R -> pg ∈ ps -> q ∈ ps -> pg_addr pg <> pg_addr q ->
  pg_addr pg + PAGE_SIZE <= pg_addr q \/ pg_addr q + PAGE_SIZE <= pg_addr pg.
Proof.
  intros Hc Hpg Hq Hne.
  pose proof (proj1 (Forall_forall _ _) (hc_runs _ _ _ Hc) _ Hpg) as H1.
  pose proof (proj1 (Forall_forall _ _) (hc_runs _ _ _ Hc) _ Hq) as H2.
  destruct (owns_disjoint _ _ _ _ _ _ (hc_owns _ _ _ Hc) H1 H2 Hne); lia.
Qed.
Lemma addr_inj s ps R pg q :
  heap_core s ps R -> pg ∈ ps -> q ∈ ps -> pg_addr pg = pg_addr q -> pg = q.
Proof.
  intros Hc Hpg Hq E. pose proof (hc_addr _ _ _ Hc) as Hnd.
  apply list_elem_of_lookup in Hpg as [i Hi], Hq as [j Hj].
  assert (i = j) as <-; [|congruence]. eapply (NoDup_lookup _ i j (pg_addr pg) Hnd).
  - by rewrite list_lookup_fmap, Hi.
  - by rewrite list_lookup_fmap, Hj, E.
Qed.
Lemma core_page s ps R pg : heap_core s ps R -> pg ∈ ps -> page_ok s pg.
Proof. intros Hc Hpg. exact (proj1 (Forall_forall _ _) (hc_pages _ _ _ Hc) _ Hpg). Qed.
Lemma idx_inj s ps R pg q :
  heap_core s ps R -> pg ∈ ps -> q ∈ ps -> pg_idx pg = pg_idx q -> pg = q.
Proof.
  intros Hc Hpg Hq E. pose proof (hc_idx _ _ _ Hc) as Hnd.
  apply list_elem_of_lookup in Hpg as [i Hi], Hq as [j Hj].
  assert (i = j) as <-; [|congruence]. eapply (NoDup_lookup _ i j (pg_idx pg) Hnd).
  - by rewrite list_lookup_fmap, Hi.
  - by rewrite list_lookup_fmap, Hj, E.
Qed.

(** A page is as it was when its entry and its memory are. *)
Lemma page_ok_ext s s' pg :
  page_ok s pg ->
  pageaddr_and_blocktype (pagerefs s' !!! pg_idx pg)
    = pageaddr_and_blocktype (pagerefs s !!! pg_idx pg) ->
  freelist_offset (pagerefs s' !!! pg_idx pg) = freelist_offset (pagerefs s !!! pg_idx pg) ->
  nfree (pagerefs s' !!! pg_idx pg) = nfree (pagerefs s !!! pg_idx pg) ->
  (forall a, pg_addr pg <= a < pg_addr pg + PAGE_SIZE -> mem s' !!! a = mem s !!! a) ->
  page_ok s' pg.
Proof.
  intros Hpg E1 E2 E3 Hm. pose proof (po_blocks _ _ Hpg) as Hb. destruct Hpg.
  split; try done; try congruence.
  apply (fchain_ext (mem s)); [|done]. intros a Ha. apply Hm.
  apply (proj1 (Forall_forall _ _) Hb a Ha).
Qed.

Lemma of_type_idx t l1 l2 pg pg' :
  pg_idx pg' = pg_idx pg -> pg_type pg' = pg_type pg ->
  pg_idx <$> of_type t (l1 ++ pg' :: l2) = pg_idx <$> of_type t (l1 ++ pg :: l2).
Proof.
  intros Hi Ht. unfold of_type. rewrite !filter_app, !fmap_app. f_equal.
  rewrite !filter_cons, Ht. destruct (decide _); [|done]. rewrite !fmap_cons. by f_equal.
Qed.

(** Changing the free list of one page. *)
Lemma heap_core_update s s' l1 pg pg' l2 R :
  heap_core s (l1 ++ pg :: l2) R ->
  pg_idx pg' = pg_idx pg -> pg_addr pg' = pg_addr pg -> pg_type pg' = pg_type pg ->
  (forall i, i <> pg_idx pg -> pagerefs s' !!! i = pagerefs s !!! i) ->
  next_all (pagerefs s' !!! pg_idx pg) = next_all (pagerefs s !!! pg_idx pg) ->
  next_samesize (pagerefs s' !!! pg_idx pg) = next_samesize (pagerefs s !!! pg_idx pg) ->
  sizebases s' = sizebases s -> allbase s' = allbase s -> pages s' = pages s ->
  (forall a, ~ (pg_addr pg <= a < pg_addr pg + PAGE_SIZE) -> mem s' !!! a = mem s !!! a) ->
  page_ok s' pg' -> heap_core s' (l1 ++ pg' :: l2) R.
Proof.
  intros Hc Ei Ea Et Hpr Hna Hns Esb Eab Epp Hm Hok.
  assert (Hnx : forall i, next_all (pagerefs s' !!! i) = next_all (pagerefs s !!! i)).
  { intros i. destruct (decide (i = pg_idx pg)) as [->|]; [done|by rewrite Hpr]. }
  assert (Hns' : forall i,
    next_samesize (pagerefs s' !!! i) = next_samesize (pagerefs s !!! i)).
  { intros i. destruct (decide (i = pg_idx pg)) as [->|]; [done|by rewrite Hpr]. }
  assert (Eidx : pg_idx <$> l1 ++ pg' :: l2 = pg_idx <$> l1 ++ pg :: l2)
    by (rewrite !fmap_app, !fmap_cons; by rewrite Ei).
  assert (Eadr : pg_addr <$> l1 ++ pg' :: l2 = pg_addr <$> l1 ++ pg :: l2)
    by (rewrite !fmap_app, !fmap_cons; by rewrite Ea).
  assert (Hother : forall q, q ∈ l1 ++ l2 -> page_ok s' q).
  { intros q Hq. assert (Hq' : q ∈ l1 ++ pg :: l2) by set_solver.
    assert (Hp' : pg ∈ l1 ++ pg :: l2) by apply elem_mid.
    assert (Hqn : q <> pg).
    { intros ->. pose proof (hc_idx _ _ _ Hc) as Hnd.
      rewrite fmap_app, fmap_cons in Hnd. apply NoDup_app in Hnd as (_ & Hd & Hnd2).
      apply NoDup_cons in Hnd2 as [Hn2 _]. apply elem_of_app in Hq as [Hq|Hq].
      - apply (Hd (pg_idx pg)); [by apply list_elem_of_fmap_2|set_solver].
      - by apply Hn2, list_elem_of_fmap_2. }
    assert (pg_idx q <> pg_idx pg) by (intros ?; by eapply Hqn, idx_inj).
    apply (page_ok_ext s); [by eapply core_page|rewrite Hpr by done; done..|].
    intros a Hr. apply Hm.
    destruct (pages_disjoint s _ R q pg Hc Hq' Hp'); [|lia..].
    intros ?. by eapply Hqn, addr_inj. }
  split; rewrite ?Esb, ?Eab, ?Epp, ?Eidx, ?Eadr.
  - eapply chain_ext, hc_all, Hc. intros. apply Hnx.
  - intros t Ht. rewrite (of_type_idx t l1 l2 pg pg') by done.
    eapply chain_ext, hc_size; [|exact Hc|done]. intros. apply Hns'.
  - apply Hc.
  - apply Hc.
  - apply Forall_app. split; [|constructor; [done|]];
      apply Forall_forall; intros q Hq; apply Hother; set_solver.
  - apply Hc.
  - pose proof (hc_runs _ _ _ Hc) as Hr. apply Forall_app in Hr as [? Hr].
    apply Forall_cons in Hr as [? ?]. apply Forall_app. split; [done|].
    constructor; [by rewrite Ea|done].
  - apply Hc.
Qed.

(** ** Searching *)
Lemma find_free_spec s t : forall qs cur fuel,
  chain (fun i => next_samesize (pagerefs s !!! i)) cur (pg_idx <$> qs) ->
  Forall (fun pg => page_ok s pg /\ pg_type pg = t) qs -> (length qs <= fuel)%nat ->
  exists r, find_free fuel cur t s = Done (r, s) /\
    match r with
    | Some i => exists pg, pg ∈ qs /\ pg_idx pg = i /\ pg_free pg <> []
    | None => Forall (fun pg => pg_free pg = []) qs
    end.
Proof.
  induction qs as [|q qs IH]; intros cur fuel Hc Hf Hl.
  { cbn in Hc. subst cur. exists None. destruct fuel; done. }
  destruct Hc as [-> Hc]. apply Forall_cons in Hf as [[Hq Ht] Hf]. destruct fuel; [cbn in Hl; lia|].
  cbn [find_free]. mrun. unfold getpr, mgets. rewrite (page_type s q Hq), Ht, Z.eqb_refl.
  cbn iota. rewrite (po_nfree s q Hq), Z.gtb_ltb.
  destruct (pg_free q) as [|a l] eqn:Ef.
  - change (0 <? Z.of_nat (length (@nil Z))) with false. cbn iota.
    destruct (IH _ fuel Hc Hf) as (r & E & Hr); [cbn in Hl; lia|].
    exists r. split; [done|]. destruct r as [i|]; [|by constructor].
    destruct Hr as (pg & ? & ? & ?). exists pg. split_and!; [by right|done..].
  - exists (Some (pg_idx q)). split; [by destruct (Z.ltb_spec 0 (Z.of_nat (length (a :: l)))); [|cbn in *; lia]|].
    exists q. split_and!; [by left|done|by rewrite Ef].
Qed.

Lemma find_owner_spec s ptr : forall qs cur fuel,
  chain (fun i => next_all (pagerefs s !!! i)) cur (pg_idx <$> qs) ->
  Forall (page_ok s) qs -> (length qs <= fuel)%nat ->
  exists r, find_owner fuel cur ptr s = Done (r, s) /\
    match r with
    | Some i => exists pg, pg ∈ qs /\ pg_idx pg = i /\
                  pg_addr pg <= ptr < pg_addr pg + PAGE_SIZE
    | None => Forall (fun pg => ~ (pg_addr pg <= ptr < pg_addr pg + PAGE_SIZE)) qs
    end.
Proof.
  induction qs as [|q qs IH]; intros cur fuel Hc Hf Hl.
  { cbn in Hc. subst cur. exists None. destruct fuel; done. }
  destruct Hc as [-> Hc]. apply Forall_cons in Hf as [Hq Hf]. destruct fuel; [cbn in Hl; lia|].
  cbn [find_owner]. mrun. unfold getpr, mgets.
  rewrite (page_type s q Hq), (page_addr s q Hq). pose proof (po_type s q Hq).
  destruct (Z.leb_spec 0 (Z.of_nat (pg_type q))); [|lia].
  destruct (Z.ltb_spec (Z.of_nat (pg_type q)) (Z.of_nat NSIZES)); [|lia]. cbn [andb].
  pose proof (page_bounds s q Hq) as Hb. unfold MIPS_KSEG0, MIPS_KSEG1, PAGE_SIZE in Hb.
  rewrite uwrap_small by (unfold PAGE_SIZE; lia).
  destruct (Z.leb_spec (pg_addr q) ptr), (Z.ltb_spec ptr (pg_addr q + PAGE_SIZE)); cbn [andb].
  1: exists (Some (pg_idx q)); split; [done|]; exists q; split_and!; [by left|done..].
  all: destruct (IH _ fuel Hc Hf) as (r & -> & Hr); [cbn in Hl; lia|];
    exists r; split; [done|]; destruct r as [i|]; [|by constructor; [lia|]];
    destruct Hr as (pg & ? & ? & ?); exists pg; split_and!; [by right|lia..].
Qed.

Lemma pages_length s ps R : heap_core s ps R -> (length ps <= NPAGEREFS)%nat.
Proof.
  intros Hc. rewrite <- (length_fmap pg_idx).
  change NPAGEREFS with (length (seq 0 NPAGEREFS)).
  apply submseteq_length, NoDup_submseteq; [by apply (hc_idx s _ R)|].
  intros i (pg & -> & Hpg)%list_elem_of_fmap. apply elem_of_seq.
  pose proof (po_idx _ _ (core_page _ _ _ _ Hc Hpg)). lia.
Qed.

Lemma table_full s ps R : heap_core s ps R -> (forall i, (0 * 32 <= i < NPAGEREFS)%nat -> i ∈ pg_idx <$> ps) ->
  length ps = NPAGEREFS.
Proof.
  intros Hc Hall. pose proof (pages_length _ _ _ Hc). enough (NPAGEREFS <= length ps)%nat by lia.
  rewrite <- (length_fmap pg_idx). change NPAGEREFS with (length (seq 0 NPAGEREFS)).
  apply submseteq_length, NoDup_submseteq; [apply NoDup_seq|].
  intros i Hi%elem_of_seq. apply Hall. lia.
Qed.

(** ** Taking a block from a page *)
Definition set_free pg l : page := Page (pg_idx pg) (pg_addr pg) (pg_type pg) l.

Lemma block_offset s pg a :
  page_ok s pg -> block_of pg a ->
  0 <= a - pg_addr pg < PAGE_SIZE /\ u32 (a - pg_addr pg) = a - pg_addr pg /\
  u32 (pg_addr pg + (a - pg_addr pg)) = a /\ 0 < a.
Proof.
  intros Hpg [Hr _].
  pose proof (page_bounds s pg Hpg) as Hk. unfold MIPS_KSEG0, MIPS_KSEG1, PAGE_SIZE in *.
  split; [lia|]. rewrite !uwrap_small by lia. lia.
Qed.

Lemma lookup_total_upd (m : gmap nat pageref) i x j :
  <[i := x]> m !!! j = if decide (i = j) then x else m !!! j.
Proof.
  destruct (decide (i = j)) as [->|]; [apply lookup_total_insert_eq|].
  by apply lookup_total_insert_ne.
Qed.

(** The entry of a page whose first free block is gone. *)
Lemma take_block_core s l1 pg l2 R a l off :
  heap_core s (l1 ++ pg :: l2) R -> pg_free pg = a :: l ->
  off = match l with [] => INVALID_OFFSET | b :: _ => b - pg_addr pg end ->
  0 <= off < 2 ^ 16 -> Z.of_nat (length l) < 2 ^ 16 ->
  heap_core (with_pagerefs (fun m => <[pg_idx pg := set_offset off (m !!! pg_idx pg)]> m)
      (with_pagerefs (fun m =>
         <[pg_idx pg := set_nfree (Z.of_nat (length l)) (m !!! pg_idx pg)]> m) s))
    (l1 ++ set_free pg l :: l2) R.
Proof.
  intros Hc Ef Eoff Hrng Hlen. set (s' := with_pagerefs _ _).
  assert (Hpg : page_ok s pg) by (eapply core_page; [exact Hc|apply elem_mid]).
  assert (Epr : forall i, pagerefs s' !!! i = if decide (pg_idx pg = i)
    then set_offset off (set_nfree (Z.of_nat (length l)) (pagerefs s !!! pg_idx pg))
    else pagerefs s !!! i).
  { intros i. cbn. rewrite !lookup_total_upd. repeat case_decide; done. }
  assert (Hown : pagerefs s' !!! pg_idx pg
    = set_offset off (set_nfree (Z.of_nat (length l)) (pagerefs s !!! pg_idx pg)))
    by by rewrite Epr, decide_True.
  apply (heap_core_update s s' l1 pg (set_free pg l) l2 R); try done;
    [intros i Hi; by rewrite Epr, decide_False|by rewrite Hown..|].
  pose proof (po_blocks _ _ Hpg) as Hb. pose proof (po_nodup _ _ Hpg) as Hn.
  pose proof (po_chain _ _ Hpg) as Hch. rewrite Ef in Hb, Hn, Hch.
  apply Forall_cons in Hb as [_ Hb]. apply NoDup_cons in Hn as [_ Hn].
  split; cbn [set_free pg_idx pg_addr pg_type pg_free]; rewrite ?Hown; try apply Hpg; try done.
  - cbn. by rewrite uwrap_small by lia.
  - cbn. by rewrite uwrap_small by lia.
  - apply Hch.
Qed.

Lemma doalloc_spec s l1 pg l2 R a l :
  heap_core s (l1 ++ pg :: l2) R -> pg_free pg = a :: l ->
  exists s', doalloc (pg_idx pg) s = Done (a, s') /\
    heap_core s' (l1 ++ set_free pg l :: l2) R /\
    mem s' = mem s /\ pagerefs_inuse s' = pagerefs_inuse s.
Proof.
  intros Hc Ef. assert (Hpg : page_ok s pg) by (eapply core_page; [exact Hc|apply elem_mid]).
  pose proof (po_blocks _ _ Hpg) as Hb. rewrite Ef in Hb. apply Forall_cons in Hb as [Hba Hb].
  destruct (block_offset s pg a Hpg Hba) as (Hoff & _ & Hfla & _).
  pose proof (free_bound s pg Hpg) as Hfb. destruct (page_sizes s pg Hpg) as (_ & _ & _ & Hcnt).
  rewrite Ef in Hfb. cbn [length] in Hfb.
  unfold doalloc. mrun. unfold getpr, setpr, load, mgets, mmodify. mrun.
  rewrite (po_off s pg Hpg), Ef, (page_addr s pg Hpg), Hfla.
  rewrite (proj2 (Z.ltb_lt _ _)) by lia. cbn [mem with_pagerefs pagerefs].
  rewrite lookup_total_upd, decide_True by done. cbn [nfree set_nfree].
  rewrite (po_nfree s pg Hpg), Ef. cbn [length].
  replace (Z.of_nat (S (length l)) - 1) with (Z.of_nat (length l)) by lia.
  rewrite uwrap_small by lia.
  pose proof (po_chain s pg Hpg) as Hch. rewrite Ef in Hch. destruct Hch as [-> _].
  destruct l as [|b l]; cbn [hd].
  - mrun. eexists. split; [reflexivity|]. split; [|done].
    eapply (take_block_core _ _ _ _ _ a []); try done; lia.
  - apply Forall_cons in Hb as [Hbb _].
    destruct (block_offset s pg b Hpg Hbb) as (Hob & Hwb & _ & Hpos).
    rewrite (proj2 (Z.eqb_neq b 0)), Z.gtb_ltb by lia. cbn [negb].
    rewrite (proj2 (Z.ltb_lt 0 _)) by (cbn [length]; lia). mrun.
    rewrite Hwb, (proj2 (Z.ltb_lt _ _)) by lia.
    eexists. split; [reflexivity|]. split; [|done].
    eapply (take_block_core _ _ _ _ _ a (b :: l)); try done; [|lia].
    unfold PAGE_SIZE in Hob. lia.
Qed.

(** ** The table's bitmap *)
Lemma clear_bit_spec w n : forall j,
  0 <= j -> (exists k, j <= k < j + Z.of_nat n /\ Z.testbit w k = false) ->
  exists k, clear_bit n w j = Some k /\ j <= k < j + Z.of_nat n /\ Z.testbit w k = false.
Proof.
  induction n as [|n IH]; intros j Hj (k & Hk & Hb); [lia|]. cbn [clear_bit].
  destruct (Z.eqb_spec (Z.land w (Z.shiftl 1 j)) 0) as [E|E].
  - exists j. split; [done|]. split; [lia|]. by apply land_pow2_0.
  - destruct (IH (j + 1)) as (k' & -> & ? & ?); [lia| |exists k'; split; [done|]; split; [lia|done]].
    exists k. split; [|done]. destruct (decide (k = j)) as [->|]; [|lia].
    by apply land_pow2_0 in Hb.
Qed.
Lemma has_clear_bit w :
  0 <= w < 2 ^ 32 -> w <> 0xffffffff -> exists k, 0 <= k < 32 /\ Z.testbit w k = false.
Proof.
  intros Hw Hne. destruct (decide (Forall (fun k => Z.testbit w (Z.of_nat k) = true) (seq 0 32)))
    as [Hall|Hno].
  - exfalso. apply Hne. change 0xffffffff with (Z.ones 32). apply Z.bits_inj'. intros i Hi.
    destruct (decide (i < 32)).
    + rewrite Z.ones_spec_low by lia. rewrite <- (Z2Nat.id i) by lia.
      apply (proj1 (Forall_forall _ _) Hall). apply elem_of_seq. lia.
    + rewrite Z.ones_spec_high by lia. apply (bits_above 32); lia.
  - apply not_Forall_Exists in Hno; [|apply _].
    apply Exists_exists in Hno as (k & Hk%elem_of_seq & Hb).
    exists (Z.of_nat k). split; [lia|].
    destruct (Z.testbit w (Z.of_nat k)) eqn:E; [|done]. by destruct (Hb E).
Qed.

(** One bit of one word changes. *)
Lemma inuse_update w l l' p x (b : bool) :
  inuse_ok w l -> (p < NPAGEREFS)%nat -> 0 <= x < 2 ^ 32 ->
  (forall i, (i < 32)%nat -> Z.testbit x (Z.of_nat i) =
     if Nat.eqb i (p mod 32) then b else Z.testbit (nth (p / 32) w 0) (Z.of_nat i)) ->
  (forall i, i ∈ l' <-> if decide (i = p) then b = true else i ∈ l) ->
  inuse_ok (<[(p / 32)%nat := x]> w) l'.
Proof.
  intros (Hl & Hf & Hb) Hp Hx Hbit Hmem. unfold NPAGEREFS, INUSE_WORDS in *.
  assert (Hd : (p / 32 < length w)%nat).
  { rewrite Hl. apply Nat.Div0.div_lt_upper_bound. lia. }
  split_and!.
  - by rewrite length_insert.
  - by apply Forall_insert.
  - intros i Hi. rewrite nth_lookup.
    destruct (decide (i / 32 = p / 32)%nat) as [E|E].
    + rewrite E, list_lookup_insert_eq by done. cbn [default].
      rewrite Hbit by (apply Nat.mod_upper_bound; lia).
      pose proof (Nat.div_mod_eq i 32). pose proof (Nat.div_mod_eq p 32).
      destruct (Nat.eqb_spec (i mod 32) (p mod 32)) as [E'|E'].
      * assert (i = p) as -> by lia. symmetry. destruct b.
        -- apply bool_decide_eq_true, Hmem. by rewrite decide_True.
        -- apply bool_decide_eq_false. intros Hin%Hmem. by rewrite decide_True in Hin.
      * rewrite <- E, Hb by done. apply bool_decide_ext. rewrite Hmem, decide_False; [done|].
        intros ->. done.
    + rewrite list_lookup_insert_ne by done. rewrite <- nth_lookup, Hb by done.
      apply bool_decide_ext. rewrite Hmem, decide_False; [done|]. intros ->. done.
Qed.

Lemma inuse_word w l i : inuse_ok w l -> 0 <= nth i w 0 < 2 ^ 32.
Proof.
  intros (_ & Hf & _). rewrite nth_lookup. destruct (w !! i) as [x|] eqn:E; cbn; [|lia].
  exact (Forall_lookup_1 _ _ _ _ Hf E).
Qed.

Lemma allocpageref_loop_spec l n : forall s i,
  inuse_ok (pagerefs_inuse s) l -> (i + n = INUSE_WORDS)%nat ->
  exists r s', allocpageref_loop n i s = Done (r, s') /\
    match r with
    | Some p => (p < NPAGEREFS)%nat /\ (p ∉ l) /\
        (exists w, s' = with_inuse (fun _ => w) s /\ inuse_ok w (p :: l))
    | None => s' = s /\ forall p, (i * 32 <= p < NPAGEREFS)%nat -> p ∈ l
    end.
Proof.
  induction n as [|n IH]; intros s i Hin Hi; cbn [allocpageref_loop].
  { exists None, s. split_and!; [done|done|]. unfold INUSE_WORDS, NPAGEREFS in *. lia. }
  mrun. pose proof (inuse_word _ _ i Hin) as Hw. set (w := nth i (pagerefs_inuse s) 0) in *.
  destruct (Z.eqb_spec w 0xffffffff) as [E|E].
  - destruct (IH s (S i)) as (r & s' & E' & Hr); [done|lia|]. exists r, s'. split; [done|].
    destruct r as [p|]; [done|]. destruct Hr as [-> Hr]. split; [done|]. intros p Hp.
    destruct (decide (S i * 32 <= p)%nat); [apply Hr; lia|].
    destruct Hin as (_ & _ & Hb). specialize (Hb p ltac:(lia)).
    assert (p / 32 = i)%nat as Ed by (symmetry; apply (Nat.div_unique p 32 i (p - i * 32)); lia).
    rewrite Ed in Hb. fold w in Hb. rewrite E in Hb.
    change 0xffffffff with (Z.ones 32) in Hb. rewrite Z.ones_spec_low in Hb.
    + by symmetry in Hb; apply bool_decide_eq_true in Hb.
    + pose proof (Nat.mod_upper_bound p 32). lia.
  - destruct (clear_bit_spec w 32 0) as (k & -> & Hk & Hkb); [lia|by apply has_clear_bit|].
    mrun. set (p := (i * 32 + Z.to_nat k)%nat). unfold INUSE_WORDS, NPAGEREFS in *.
    assert (Ed : (p / 32 = i)%nat) by (symmetry; apply (Nat.div_unique p 32 i (Z.to_nat k)); lia).
    assert (Em : (p mod 32 = Z.to_nat k)%nat) by (symmetry; apply (Nat.mod_unique p 32 i); lia).
    assert (Hpl : p ∉ l).
    { intros Hpl. destruct Hin as (_ & _ & Hb). specialize (Hb p ltac:(unfold NPAGEREFS; lia)).
      rewrite Ed, Em in Hb. fold w in Hb. rewrite Z2Nat.id, Hkb in Hb by lia.
      symmetry in Hb. by apply bool_decide_eq_false in Hb. }
    exists (Some p). eexists. split; [done|]. split_and!; [lia|done|].
    exists (<[i := Z.lor w (Z.shiftl 1 k)]> (pagerefs_inuse s)). split; [done|].
    rewrite <- Ed. apply (inuse_update _ l _ p _ true Hin); [unfold NPAGEREFS; lia|..].
    + apply lor_range; [lia|done|]. rewrite Z.shiftl_1_l. split; [lia|].
      apply Z.pow_lt_mono_r; lia.
    + intros j Hj. rewrite Z.lor_spec, testbit_shiftl1, Ed, Em by lia. fold w.
      destruct (Nat.eqb_spec j (Z.to_nat k)) as [->|].
      * rewrite Z2Nat.id, Z.eqb_refl by lia. apply orb_true_r.
      * rewrite (proj2 (Z.eqb_neq k (Z.of_nat j))) by lia. apply orb_false_r.
    + intros j. rewrite elem_of_cons. case_decide; naive_solver.
Qed.

Lemma freepageref_spec s l l' p :
  inuse_ok (pagerefs_inuse s) l -> p ∈ l -> (p < NPAGEREFS)%nat ->
  (forall i, i ∈ l' <-> i ∈ l /\ i <> p) ->
  exists w, freepageref p s = Done (tt, with_inuse (fun _ => w) s) /\ inuse_ok w l'.
Proof.
  intros Hin Hpl Hp Hl'. unfold freepageref. mrun. rewrite bool_decide_true by done. mrun.
  pose proof (inuse_word _ _ (p / 32)%nat Hin) as Hw.
  set (w := nth (p / 32) (pagerefs_inuse s) 0) in *. set (k := Z.of_nat (p mod 32)).
  assert (Hk : 0 <= k < 32) by (pose proof (Nat.mod_upper_bound p 32); lia).
  assert (Hb : Z.testbit w k = true).
  { destruct Hin as (_ & _ & Hb). unfold w, k. rewrite Hb by done. by apply bool_decide_true. }
  destruct (Z.eqb_spec (Z.land w (Z.shiftl 1 k)) 0) as [E|E].
  { apply land_pow2_0 in E; [|lia]. congruence. }
  cbn [negb]. mrun. eexists. split; [done|].
  apply (inuse_update _ l _ p _ false Hin Hp).
  - by apply land_range.
  - intros j Hj. rewrite Z.land_spec, uwrap_testbit, Z.lnot_spec, testbit_shiftl1 by lia.
    fold w. destruct (Z.ltb_spec (Z.of_nat j) 32); [|lia].
    destruct (Nat.eqb_spec j (p mod 32)) as [E'|E'].
    + rewrite (proj2 (Z.eqb_eq k (Z.of_nat j))) by lia. apply andb_false_r.
    + rewrite (proj2 (Z.eqb_neq k (Z.of_nat j))) by lia. apply andb_true_r.
  - intros i. rewrite Hl'. case_decide; naive_solver.
Qed.

(** ** A fresh page *)
Fixpoint down (fla sz : Z) (n : nat) : list Z :=
  match n with
  | O => []
  | S n' => (fla + Z.of_nat n' * sz) :: down fla sz n'
  end.
Lemma elem_down fla sz n a :
  a ∈ down fla sz n <-> exists j, 0 <= j < Z.of_nat n /\ a = fla + j * sz.
Proof.
  induction n as [|n IH]; cbn [down].
  - split; [by intros ?%elem_of_nil|]. intros (j & ? & _). lia.
  - rewrite elem_of_cons, IH. split.
    + intros [->|(j & ? & ->)]; eexists; (split; [|reflexivity]); lia.
    + intros (j & Hj & ->). destruct (decide (j = Z.of_nat n)) as [->|]; [by left|].
      right. exists j. split; [lia|done].
Qed.
Lemma down_length fla sz n : length (down fla sz n) = n.
Proof. induction n; cbn; congruence. Qed.
Lemma down_nodup fla sz n : 0 < sz -> NoDup (down fla sz n).
Proof.
  intros Hz. induction n as [|n IH]; cbn; constructor; [|done].
  rewrite elem_down. intros (j & Hj & E). nia.
Qed.
Lemma down_chain m fla sz n :
  (0 < n)%nat -> m !!! fla = 0 ->
  (forall j, 1 <= j < Z.of_nat n -> m !!! (fla + j * sz) = fla + (j - 1) * sz) ->
  fchain m (down fla sz n).
Proof.
  intros Hn H0 Hj. induction n as [|n IH]; [lia|]. cbn [down fchain]. destruct n as [|n].
  - cbn. by rewrite Z.add_0_r.
  - split; [|apply IH; [lia|intros; apply Hj; lia]].
    rewrite Hj by lia. cbn [down hd]. f_equal. f_equal. lia.
Qed.

Lemma lookup_total_mem (m : gmap Z Z) a x b :
  <[a := x]> m !!! b = if decide (a = b) then x else m !!! b.
Proof.
  destruct (decide (a = b)) as [->|]; [apply lookup_total_insert_eq|].
  by apply lookup_total_insert_ne.
Qed.

Lemma thread_page_spec fla sz k : forall s i fl,
  0 <= fla -> 0 < sz -> 1 <= i -> fla + (i + Z.of_nat k) * sz <= 2 ^ 32 ->
  exists m, thread_page k i fla sz fl s
      = Done (if decide (k = O) then fl else fla + (i + Z.of_nat k - 1) * sz,
              with_mem (fun _ => m) s) /\
    (forall j, i <= j < i + Z.of_nat k -> m !!! (fla + j * sz) = fla + (j - 1) * sz) /\
    (forall a, (forall j, i <= j < i + Z.of_nat k -> a <> fla + j * sz) ->
       m !!! a = mem s !!! a).
Proof.
  induction k as [|k IH]; intros s i fl ????; cbn [thread_page].
  { exists (mem s). split_and!; [by destruct s|intros; lia|done]. }
  mrun. unfold store, load, mmodify, mgets. mrun. cbn [mem with_mem].
  rewrite !uwrap_small by nia. rewrite lookup_total_mem, decide_True by done.
  rewrite (proj2 (Z.eqb_neq _ _)) by nia. cbn [negb].
  destruct (IH (with_mem <[fla + i * sz := fla + (i - 1) * sz]> s) (i + 1) (fla + i * sz))
    as (m & -> & Hin & Hout); [done|done|lia|nia|].
  exists m. split_and!.
  - rewrite (decide_False (P := S k = O)) by done.
    assert (E : (if decide (k = O) then fla + i * sz else fla + (i + 1 + Z.of_nat k - 1) * sz)
              = fla + (i + Z.of_nat (S k) - 1) * sz)
      by (case_decide; subst; lia).
    by rewrite E.
  - intros j Hj. destruct (decide (j = i)) as [->|]; [|apply Hin; lia].
    rewrite Hout by (intros; nia). cbn. by rewrite lookup_total_mem, decide_True.
  - intros a Ha. rewrite Hout by (intros; apply Ha; lia). cbn.
    rewrite lookup_total_mem, decide_False; [done|]. intros E. apply (Ha i); [lia|done].
Qed.

(** A page joins the lists. *)
Lemma heap_core_cons s s' pg ps R :
  heap_core s ps R -> pg_idx pg ∉ (pg_idx <$> ps) -> pg_addr pg ∉ (pg_addr <$> ps) ->
  R !! pg_addr pg = Some 1 ->
  (forall i, i <> pg_idx pg -> pagerefs s' !!! i = pagerefs s !!! i) ->
  next_all (pagerefs s' !!! pg_idx pg) = allbase s ->
  next_samesize (pagerefs s' !!! pg_idx pg) = nth (pg_type pg) (sizebases s) None ->
  sizebases s' = <[pg_type pg := Some (pg_idx pg)]> (sizebases s) ->
  allbase s' = Some (pg_idx pg) -> pages s' = pages s ->
  (forall a, ~ (pg_addr pg <= a < pg_addr pg + PAGE_SIZE) -> mem s' !!! a = mem s !!! a) ->
  page_ok s' pg -> heap_core s' (pg :: ps) R.
Proof.
  intros Hc Hi Ha HR Hpr Hna Hns Esb Eab Epp Hm Hok.
  assert (Hne : forall q, q ∈ ps -> pg_idx q <> pg_idx pg /\ pg_addr q <> pg_addr pg).
  { intros q Hq. split; intros E; [apply Hi|apply Ha]; rewrite <- E;
      by apply list_elem_of_fmap_2. }
  pose proof (hc_bases _ _ _ Hc) as Hlen.
  split; rewrite ?Eab, ?Epp.
  - cbn. split; [done|]. rewrite Hna. eapply chain_ext, hc_all, Hc.
    intros x (q & -> & Hq)%list_elem_of_fmap. cbn. by rewrite Hpr by by apply Hne.
  - intros t Ht. rewrite Esb, nth_lookup. unfold of_type. rewrite filter_cons.
    destruct (decide (pg_type pg = t)) as [<-|Hnt].
    + rewrite list_lookup_insert_eq by lia. cbn. split; [done|]. rewrite Hns.
      eapply chain_ext, hc_size; [|exact Hc|done].
      intros x (q & -> & [_ Hq]%list_elem_of_filter)%list_elem_of_fmap. cbn.
      by rewrite Hpr by by apply Hne.
    + rewrite list_lookup_insert_ne, <- nth_lookup by done.
      eapply chain_ext, hc_size; [|exact Hc|done].
      intros x (q & -> & [_ Hq]%list_elem_of_filter)%list_elem_of_fmap. cbn.
      by rewrite Hpr by by apply Hne.
  - by rewrite Esb, length_insert.
  - cbn. constructor; [done|apply Hc].
  - constructor; [done|]. apply Forall_forall. intros q Hq. destruct (Hne q Hq) as [Hqi Hqa].
    apply (page_ok_ext s); [by eapply core_page|by rewrite Hpr..|].
    intros a Hr. apply Hm.
    pose proof (proj1 (Forall_forall _ _) (hc_runs _ _ _ Hc) _ Hq) as HRq.
    destruct (owns_disjoint _ _ _ _ _ _ (hc_owns _ _ _ Hc) HRq HR Hqa); lia.
  - cbn. constructor; [done|apply Hc].
  - constructor; [done|apply Hc].
  - apply Hc.
Qed.

Definition fresh_page pr t a : page := Page pr a t (down a (size_of t) (Z.to_nat (PAGE_SIZE / size_of t))).

Lemma new_page_spec s ps R pr t a :
  heap_core s ps R -> pr ∉ (pg_idx <$> ps) -> (pr < NPAGEREFS)%nat -> (t < NSIZES)%nat ->
  R !! a = Some 1 -> a ∉ (pg_addr <$> ps) ->
  exists s', new_page pr t a s = Done (tt, s') /\
    heap_core s' (fresh_page pr t a :: ps) R /\
    pagerefs_inuse s' = pagerefs_inuse s /\
    (forall b, ~ (a <= b < a + PAGE_SIZE) -> mem s' !!! b = mem s !!! b).
Proof.
  intros Hc Hpr Hpr' Ht HR Ha.
  pose proof (owns_run _ _ _ _ (hc_owns _ _ _ Hc) HR) as Hrun. pose proof Hrun as [Hk0 Hal _ Hk1].
  destruct (size_cases t Ht) as (Hz & _ & Hp & Hn).
  set (sz := size_of t) in *. set (n := PAGE_SIZE / sz) in *.
  unfold MIPS_KSEG0, MIPS_KSEG1, PAGE_SIZE in Hk0, Hk1. unfold PAGE_SIZE in Hp.
  unfold new_page. fold sz. fold n. mrun. unfold setpr, getpr, store, mmodify, mgets. mrun.
  cbn [pagerefs with_pagerefs with_mem]. rewrite !lookup_total_upd, !decide_True by done.
  cbn [nfree set_nfree]. rewrite (uwrap_small 16) by lia.
  set (s1 := with_mem _ _).
  destruct (thread_page_spec a sz (Z.to_nat (n - 1)) s1 1 a) as (m & -> & Hin & Hout); [lia..|].
  rewrite (decide_False (P := Z.to_nat (n - 1) = O)) by lia.
  replace (a + (1 + Z.of_nat (Z.to_nat (n - 1)) - 1) * sz) with (a + (n - 1) * sz) by lia.
  cbn [pagerefs with_pagerefs with_mem].
  rewrite (uwrap_small 32) by nia. subst s1. cbn [pagerefs with_pagerefs with_mem].
  rewrite !lookup_total_upd, !decide_True by done. cbn [nfree freelist_offset set_offset set_nfree].
  rewrite (uwrap_small 16) by nia. rewrite (uwrap_small 16 n) by lia.
  replace (a + (n - 1) * sz - a) with ((n - 1) * sz) by lia. rewrite Z.eqb_refl.
  cbn [sizebases with_pagerefs with_mem allbase with_sizebases].
  eexists. split; [reflexivity|]. set (s' := with_allbase _ _).
  assert (Hmem : forall b, mem s' !!! b = m !!! b) by done.
  assert (Hm : forall b, ~ (a <= b < a + PAGE_SIZE) -> mem s' !!! b = mem s !!! b).
  { intros b Hb. rewrite Hmem, Hout.
    - cbn. rewrite lookup_total_mem, decide_False; [done|]. unfold PAGE_SIZE in Hb. lia.
    - intros j Hj ->. apply Hb. unfold PAGE_SIZE. nia. }
  assert (Epr : forall i, pagerefs s' !!! i = if decide (pr = i)
    then Pageref (nth t (sizebases s) None) (allbase s) (MKPAB a (Z.of_nat t)) ((n - 1) * sz) n
    else pagerefs s !!! i).
  { intros i. unfold s'. cbn [pagerefs with_allbase with_pagerefs with_sizebases with_mem].
    rewrite !lookup_total_upd. destruct (decide (pr = i)) as [<-|]; [|done].
    rewrite !decide_True by done.
    unfold set_next_all, set_next_samesize, set_offset, set_nfree, set_pab.
    cbn [next_samesize next_all pageaddr_and_blocktype freelist_offset nfree].
    rewrite (uwrap_small 16 n), (uwrap_small 16 ((n - 1) * sz)) by lia. done. }
  split; [|done].
  apply (heap_core_cons s s' (fresh_page pr t a)); try done.
  - intros i Hi. cbn in Hi. by rewrite Epr, decide_False.
  - cbn [fresh_page pg_idx]. by rewrite Epr, decide_True.
  - cbn [fresh_page pg_idx]. by rewrite Epr, decide_True.
  - assert (Hs : forall pg, pg_addr pg = a -> pg_type pg = t ->
      pg_size pg = sz /\ pg_count pg = n) by (by intros pg <- <-).
    destruct (Hs (fresh_page pr t a)) as [Esz En]; [done..|].
    split; cbn [fresh_page pg_idx pg_addr pg_type pg_free]; try done;
      rewrite ?Epr, ?decide_True by done; cbn [pageaddr_and_blocktype freelist_offset nfree];
      fold sz; fold n.
    + done.
    + replace (Z.to_nat n) with (S (Z.to_nat (n - 1))) by lia. cbn [down]. lia.
    + rewrite down_length. lia.
    + apply Forall_forall. intros b (j & Hj & ->)%elem_down. rewrite <- Esz.
      apply (block_at (fresh_page pr t a)); rewrite ?Esz, ?En; [lia|unfold PAGE_SIZE; lia|lia].
    + apply down_nodup. lia.
    + apply down_chain; [lia| |].
      * rewrite Hout by (intros; nia). cbn. by rewrite lookup_total_mem, decide_True.
      * intros j Hj. apply Hin. lia.
Qed.

(** ** A page leaves the lists *)
Lemma remove_loop_spec next set_next set_head x l2 : forall l1 s fuel prev cur,
  chain (fun i => next (pagerefs s !!! i)) cur (l1 ++ x :: l2) -> x ∉ l1 ->
  (length l1 <= fuel)%nat ->
  remove_loop next set_next set_head fuel prev cur x s
  = Done (tt, match last (option_list prev ++ l1) with
              | None => set_head (next (pagerefs s !!! x)) s
              | Some p => with_pagerefs (fun m =>
                  <[p := set_next (next (pagerefs s !!! x)) (m !!! p)]> m) s
              end).
Proof.
  induction l1 as [|y l1 IH]; intros s fuel prev cur Hc Hx Hl.
  - destruct Hc as [-> _]. rewrite app_nil_r. destruct fuel; cbn [remove_loop]; mrun;
      unfold getpr, setpr, mgets, mmodify; mrun; rewrite Nat.eqb_refl; by destruct prev.
  - destruct Hc as [-> Hc]. destruct fuel; [cbn in Hl; lia|]. cbn [remove_loop]. mrun.
    unfold getpr, mgets. mrun. destruct (Nat.eqb_spec y x) as [->|]; [set_solver|].
    rewrite (IH s fuel (Some y)); [|done|set_solver|cbn in Hl; lia].
    by destruct prev.
Qed.

Lemma chain_remove nx x l2 : forall l1 st,
  chain nx st (l1 ++ x :: l2) -> NoDup (l1 ++ x :: l2) ->
  match last l1 with
  | None => chain nx (nx x) (l1 ++ l2)
  | Some p => chain (fun i => if decide (i = p) then nx x else nx i) st (l1 ++ l2)
  end.
Proof.
  induction l1 as [|y l1 IH]; intros st Hc Hn.
  { by destruct Hc. }
  destruct Hc as [-> Hc]. apply NoDup_cons in Hn as [Hy Hn]. specialize (IH _ Hc Hn).
  destruct (last l1) as [p|] eqn:El.
  - rewrite last_cons, El. split; [done|].
    rewrite decide_False; [done|]. intros ->. apply Hy.
    apply last_Some in El as [l' ->]. set_solver.
  - apply last_None in El as ->. cbn. split; [done|]. rewrite decide_True by done.
    eapply chain_ext; [|exact IH]. intros i Hi. cbn in *.
    rewrite decide_False; [done|]. set_solver.
Qed.

Lemma of_type_split t l1 pg l2 :
  pg_type pg = t -> of_type t (l1 ++ pg :: l2) = of_type t l1 ++ pg :: of_type t l2.
Proof. intros <-. unfold of_type. by rewrite filter_app, filter_cons, decide_True. Qed.
Lemma of_type_skip t l1 pg l2 :
  pg_type pg <> t -> of_type t (l1 ++ pg :: l2) = of_type t (l1 ++ l2).
Proof. intros Ht. unfold of_type. by rewrite !filter_app, filter_cons, decide_False. Qed.
Lemma of_type_sub t ps : of_type t ps ⊆ ps.
Proof. intros pg Hpg. by apply list_elem_of_filter in Hpg as [_ ?]. Qed.

(** What [remove_lists] does to the state. *)
Definition unlink next set_next (set_head : option nat -> kheap P -> kheap P) l1 x s : kheap P :=
  match last l1 with
  | None => set_head (next (pagerefs s !!! x)) s
  | Some p => with_pagerefs (fun m => <[p := set_next (next (pagerefs s !!! x)) (m !!! p)]> m) s
  end.

Lemma unlink_samesize t l x s (s' := unlink next_samesize set_next_samesize
    (fun y => with_sizebases (<[t := y]>)) l x s) :
  (forall i, pagerefs s' !!! i = if decide (last l = Some i)
     then set_next_samesize (next_samesize (pagerefs s !!! x)) (pagerefs s !!! i)
     else pagerefs s !!! i) /\
  sizebases s' = (if decide (last l = None)
     then <[t := next_samesize (pagerefs s !!! x)]> (sizebases s) else sizebases s) /\
  allbase s' = allbase s /\ mem s' = mem s /\ pagerefs_inuse s' = pagerefs_inuse s /\
  pages s' = pages s.
Proof.
  subst s'. unfold unlink. destruct (last l) as [p|]; cbn.
  - split_and!; try done. intros i. rewrite lookup_total_upd.
    destruct (decide (p = i)) as [->|]; [by rewrite decide_True|].
    by rewrite decide_False by congruence.
  - split_and!; done.
Qed.
Lemma unlink_all l x s (s' := unlink next_all set_next_all with_allbase l x s) :
  (forall i, pagerefs s' !!! i = if decide (last l = Some i)
     then set_next_all (next_all (pagerefs s !!! x)) (pagerefs s !!! i)
     else pagerefs s !!! i) /\
  allbase s' = (if decide (last l = None) then next_all (pagerefs s !!! x) else allbase s) /\
  sizebases s' = sizebases s /\ mem s' = mem s /\ pagerefs_inuse s' = pagerefs_inuse s /\
  pages s' = pages s.
Proof.
  subst s'. unfold unlink. destruct (last l) as [p|]; cbn.
  - split_and!; try done. intros i. rewrite lookup_total_upd.
    destruct (decide (p = i)) as [->|]; [by rewrite decide_True|].
    by rewrite decide_False by congruence.
  - split_and!; done.
Qed.

(** The state of [unlink] with respect to both lists. *)
Lemma heap_core_unlink s s' l1 pg l2 R (t := pg_type pg) (x := pg_idx pg) :
  heap_core s (l1 ++ pg :: l2) R ->
  (forall i, next_all (pagerefs s' !!! i) = if decide (last (pg_idx <$> l1) = Some i)
     then next_all (pagerefs s !!! x) else next_all (pagerefs s !!! i)) ->
  (forall i, next_samesize (pagerefs s' !!! i)
     = if decide (last (pg_idx <$> of_type t l1) = Some i)
       then next_samesize (pagerefs s !!! x) else next_samesize (pagerefs s !!! i)) ->
  (forall i, pageaddr_and_blocktype (pagerefs s' !!! i) = pageaddr_and_blocktype (pagerefs s !!! i)
     /\ freelist_offset (pagerefs s' !!! i) = freelist_offset (pagerefs s !!! i)
     /\ nfree (pagerefs s' !!! i) = nfree (pagerefs s !!! i)) ->
  sizebases s' = (if decide (last (pg_idx <$> of_type t l1) = None)
     then <[t := next_samesize (pagerefs s !!! x)]> (sizebases s) else sizebases s) ->
  allbase s' = (if decide (last (pg_idx <$> l1) = None) then next_all (pagerefs s !!! x)
                else allbase s) ->
  mem s' = mem s -> pages s' = pages s -> heap_core s' (l1 ++ l2) R.
Proof.
  intros Hc Hna Hns Hpr Hb Ha Hm Hp.
  assert (Hsub : forall q, q ∈ l1 ++ l2 -> q ∈ l1 ++ pg :: l2) by set_solver.
  pose proof (hc_idx _ _ _ Hc) as Hnd. rewrite fmap_app, fmap_cons in Hnd. fold x in Hnd.
  assert (Hpg : page_ok s pg) by (eapply core_page; [exact Hc|apply elem_mid]).
  pose proof (po_type _ _ Hpg) as Ht. fold t in Ht.
  pose proof (hc_bases _ _ _ Hc) as Hbl.
  split.
  - rewrite Ha, fmap_app. pose proof (hc_all _ _ _ Hc) as Hall.
    rewrite fmap_app, fmap_cons in Hall. fold x in Hall.
    pose proof (chain_remove _ _ _ _ _ Hall Hnd) as Hr.
    destruct (last (pg_idx <$> l1)) as [p|] eqn:El.
    + rewrite decide_False by done. eapply chain_ext; [|exact Hr]. intros i _. cbn.
      rewrite Hna. repeat case_decide; naive_solver.
    + rewrite decide_True by done. eapply chain_ext; [|exact Hr]. intros i _. cbn.
      by rewrite Hna.
  - intros t' Ht'. destruct (decide (t' = t)) as [->|Hne].
    + rewrite Hb, of_type_app, fmap_app. pose proof (hc_size _ _ _ Hc t Ht) as Hsz.
      rewrite (of_type_split t l1 pg l2), fmap_app, fmap_cons in Hsz by done. fold x in Hsz.
      assert (Hnd' : NoDup ((pg_idx <$> of_type t l1) ++ x :: (pg_idx <$> of_type t l2))).
      { eapply sublist_NoDup; [exact Hnd|]. apply sublist_app; [|apply sublist_skip];
          apply fmap_sublist, sublist_filter. }
      pose proof (chain_remove _ _ _ _ _ Hsz Hnd') as Hr.
      destruct (last (pg_idx <$> of_type t l1)) as [p|] eqn:El.
      * rewrite decide_False by done. eapply chain_ext; [|exact Hr]. intros i _. cbn.
        rewrite Hns. repeat case_decide; naive_solver.
      * rewrite decide_True by done. rewrite nth_lookup, list_lookup_insert_eq by lia. cbn.
        eapply chain_ext; [|exact Hr]. intros i _. cbn. by rewrite Hns.
    + pose proof (hc_size _ _ _ Hc t' Ht') as Hsz. rewrite of_type_skip in Hsz by done.
      replace (nth t' (sizebases s') None) with (nth t' (sizebases s) None).
      * eapply chain_ext; [|exact Hsz]. intros i (q & -> & Hq)%list_elem_of_fmap. cbn.
        rewrite Hns, decide_False; [done|]. intros El.
        apply last_Some in El as [l' El].
        assert (pg_idx q ∈ (pg_idx <$> of_type t l1)) as (r & E & Hr)%list_elem_of_fmap
          by (rewrite El; set_solver).
        apply list_elem_of_filter in Hr as [Hrt Hr], Hq as [Hqt Hq].
        assert (q = r) as -> by (eapply (idx_inj s _ R); [exact Hc|set_solver..|done]). congruence.
      * rewrite Hb. goal_decide; [|done]. by rewrite !nth_lookup, list_lookup_insert_ne.
  - rewrite Hb. goal_decide; [by rewrite length_insert|done].
  - rewrite fmap_app. by apply NoDup_app in Hnd as (? & ? & [_ ?]%NoDup_cons);
      apply NoDup_app; set_solver.
  - apply Forall_forall. intros q Hq. destruct (Hpr (pg_idx q)) as (? & ? & ?).
    apply (page_ok_ext s); [eapply core_page; [exact Hc|auto]|done..|by rewrite Hm].
  - pose proof (hc_addr _ _ _ Hc) as Hn. rewrite fmap_app, fmap_cons in Hn. rewrite fmap_app.
    by apply NoDup_app in Hn as (? & ? & [_ ?]%NoDup_cons); apply NoDup_app; set_solver.
  - apply Forall_forall. intros q Hq.
    apply (proj1 (Forall_forall _ _) (hc_runs _ _ _ Hc)). auto.
  - rewrite Hp. apply Hc.
Qed.

Lemma remove_loop_unlink next set_next set_head x l1 l2 s st :
  chain (fun i => next (pagerefs s !!! i)) st (l1 ++ x :: l2) -> x ∉ l1 ->
  (length l1 <= NPAGEREFS)%nat ->
  remove_loop next set_next set_head NPAGEREFS None st x s
  = Done (tt, unlink next set_next set_head l1 x s).
Proof. intros. by rewrite (remove_loop_spec _ _ _ _ l2 l1). Qed.

Lemma remove_lists_spec s l1 pg l2 R :
  heap_core s (l1 ++ pg :: l2) R ->
  exists s', remove_lists (pg_idx pg) (Z.of_nat (pg_type pg)) s = Done (tt, s') /\
    heap_core s' (l1 ++ l2) R /\ mem s' = mem s /\ pagerefs_inuse s' = pagerefs_inuse s.
Proof.
  intros Hc. assert (Hpg : page_ok s pg) by (eapply core_page; [exact Hc|apply elem_mid]).
  pose proof (po_type _ _ Hpg) as Ht. set (t := pg_type pg) in *. set (x := pg_idx pg).
  pose proof (pages_length _ _ _ Hc) as Hlen. rewrite length_app in Hlen. cbn in Hlen.
  pose proof (hc_all _ _ _ Hc) as Hall. pose proof (hc_size _ _ _ Hc t Ht) as Hsz.
  pose proof (hc_idx _ _ _ Hc) as Hnd. rewrite fmap_app, fmap_cons in Hall, Hnd.
  rewrite (of_type_split t l1 pg l2), fmap_app, fmap_cons in Hsz by done.
  assert (Hx1 : x ∉ (pg_idx <$> l1)).
  { apply NoDup_app in Hnd as (_ & Hd & _). intros Hin. apply (Hd x Hin). set_solver. }
  assert (Hxt : x ∉ (pg_idx <$> of_type t l1)).
  { intros (q & E & Hq%of_type_sub)%list_elem_of_fmap. apply Hx1. rewrite E.
    by apply list_elem_of_fmap_2. }
  assert (Hlt : (length (of_type t l1) <= length l1)%nat) by apply length_filter.
  unfold remove_lists. mrun.
  rewrite (proj2 (Z.leb_le 0 _)), (proj2 (Z.ltb_lt _ _)), Nat2Z.id by lia. cbn [andb]. mrun.
  rewrite (remove_loop_unlink _ _ _ x _ _ _ _ Hsz Hxt) by (rewrite length_fmap; lia).
  destruct (unlink_samesize t (pg_idx <$> of_type t l1) x s) as (Hpr1 & Hb1 & Ha1 & Hm1 & Hi1 & Hp1).
  set (s1 := unlink _ _ _ _ _ s) in *.
  assert (Hna1 : forall i, next_all (pagerefs s1 !!! i) = next_all (pagerefs s !!! i)).
  { intros i. rewrite Hpr1. by goal_decide. }
  rewrite (remove_loop_unlink _ _ _ x (pg_idx <$> l1) (pg_idx <$> l2)).
  2: { rewrite Ha1. eapply chain_ext; [|exact Hall]. intros; apply Hna1. }
  2: { done. }
  2: { rewrite length_fmap. lia. }
  destruct (unlink_all (pg_idx <$> l1) x s1) as (Hpr2 & Ha2 & Hb2 & Hm2 & Hi2 & Hp2).
  set (s2 := unlink _ _ _ _ _ s1) in *.
  exists s2. split; [reflexivity|]. split; [|split; [by rewrite Hm2|by rewrite Hi2]].
  apply (heap_core_unlink s s2 l1 pg l2 R Hc); fold t x; try congruence.
  - intros i. rewrite Hpr2, Hna1. goal_decide; cbn; [done|apply Hna1].
  - intros i. rewrite Hpr2. transitivity (next_samesize (pagerefs s1 !!! i)).
    + by goal_decide.
    + rewrite Hpr1. by goal_decide.
  - intros i. rewrite Hpr2. assert (forall j, pageaddr_and_blocktype (pagerefs s1 !!! j)
        = pageaddr_and_blocktype (pagerefs s !!! j)
      /\ freelist_offset (pagerefs s1 !!! j) = freelist_offset (pagerefs s !!! j)
      /\ nfree (pagerefs s1 !!! j) = nfree (pagerefs s !!! j)) as H1.
    { intros j. rewrite Hpr1. by goal_decide. }
    goal_decide; apply H1.
  - rewrite Ha2, Hna1, Ha1. done.
Qed.

(** ** Filling a block *)
Lemma fill_loop_spec k : forall s a,
  exists m, fill_loop k a s = Done (tt, with_mem (fun _ => m) s) /\
    (forall b, ~ (a <= b < a + 4 * Z.of_nat k) -> m !!! b = mem s !!! b).
Proof.
  induction k as [|k IH]; intros s a; cbn [fill_loop].
  { exists (mem s). split; [by destruct s|done]. }
  mrun. unfold store, mmodify. destruct (IH (with_mem <[a := 0xdeadbeef]> s) (a + 4))
    as (m & -> & Hm).
  exists m. split; [done|]. intros b Hb. rewrite Hm by lia. cbn.
  rewrite lookup_total_mem, decide_False by lia. done.
Qed.
Lemma fill_deadbeef_spec s a z :
  0 <= z -> exists m, fill_deadbeef a z s = Done (tt, with_mem (fun _ => m) s) /\
    (forall b, ~ (a <= b < a + z) -> m !!! b = mem s !!! b).
Proof.
  intros Hz. destruct (fill_loop_spec (Z.to_nat (z / 4)) s a) as (m & E & Hm).
  exists m. split; [exact E|]. intros b Hb. apply Hm. dlia.
Qed.

(** ** Blocks in use *)
Section live.
Context s ps R (Hc : heap_core s ps R).

Lemma page_run pg : pg ∈ ps -> R !! pg_addr pg = Some 1.
Proof. intros. by apply (proj1 (Forall_forall _ _) (hc_runs _ _ _ Hc)). Qed.

Lemma block_inside pg a :
  pg ∈ ps -> block_of pg a -> pg_addr pg <= a /\ a + pg_size pg <= pg_addr pg + PAGE_SIZE.
Proof.
  intros Hpg Hb. destruct (page_sizes s pg (core_page _ _ _ _ Hc Hpg)) as (? & _ & Hp & ?).
  destruct (block_index pg a) as (i & -> & Hi); [lia|done..|]. nia.
Qed.
(** Two blocks of one page. *)
Lemma blocks_disjoint pg a b :
  pg ∈ ps -> block_of pg a -> block_of pg b -> a <> b ->
  a + pg_size pg <= b \/ b + pg_size pg <= a.
Proof.
  intros Hpg Ha Hb Hne. destruct (page_sizes s pg (core_page _ _ _ _ Hc Hpg)) as (? & _ & Hp & ?).
  destruct (block_index pg a) as (i & -> & Hi); [lia|done..|].
  destruct (block_index pg b) as (j & -> & Hj); [lia|done..|].
  assert (i <> j) by congruence. nia.
Qed.
(** A block in use lies in a run of pages. *)
Lemma live_run a z :
  live ps R a z -> exists r n, R !! r = Some n /\ r <= a /\ a + z <= r + n * PAGE_SIZE /\ 0 < z /\
    a mod 16 = 0 /\ z mod 16 = 0 /\
    ((exists pg, pg ∈ ps /\ pg_addr pg = r /\ block_of pg a /\ (a ∉ pg_free pg) /\ z = pg_size pg)
     \/ (r = a /\ (r ∉ (pg_addr <$> ps)) /\ z = n * PAGE_SIZE)).
Proof.
  intros [(pg & Hpg & Hb & Hf & ->)|(n & HR & Hn & ->)].
  - exists (pg_addr pg), 1. destruct (block_inside pg a Hpg Hb).
    pose proof (core_page _ _ _ _ Hc Hpg) as Hok.
    destruct (page_sizes s pg Hok) as (? & Hz16 & _).
    destruct (po_run _ _ Hok) as [_ Hal _ _].
    split_and!; [by apply page_run|lia..| |done|left; eauto 6].
    destruct Hb as [_ Hm]. unfold PAGE_SIZE in Hal.
    apply Z.mod_divide in Hm as [k Hk]; [|lia]. apply Z.mod_divide in Hz16 as [j Hj]; [|lia].
    apply Z.mod_divide in Hal as [i Hi]; [|lia]. apply Z.mod_divide; [lia|].
    exists (i * 256 + k * j). rewrite Z.mul_add_distr_r, <- (Z.mul_assoc k), <- Hj. lia.
  - exists a, n. destruct (owns_run _ _ _ _ (hc_owns _ _ _ Hc) HR) as [Hk Hal Hn0 _].
    unfold PAGE_SIZE in *.
    split_and!; [done|lia..|dlia|dlia|by right].
Qed.
Lemma live_disjoint a z b y :
  live ps R a z -> live ps R b y -> (a = b /\ z = y) \/ a + z <= b \/ b + y <= a.
Proof.
  intros (r & n & HR & ? & ? & ? & _ & _ & Ha)%live_run (r' & n' & HR' & ? & ? & ? & _ & _ & Hb)%live_run.
  destruct (decide (r = r')) as [<-|Hne].
  2: { destruct (owns_disjoint _ _ _ _ _ _ (hc_owns _ _ _ Hc) HR HR' Hne); lia. }
  rewrite HR in HR'. injection HR' as <-.
  destruct Ha as [(pg & Hpg & E & Hba & _ & ->)|(-> & Hna & ->)],
    Hb as [(q & Hq & E' & Hbb & _ & ->)|(-> & Hnb & ->)].
  - assert (q = pg) as -> by (eapply addr_inj; [exact Hc|done|done|congruence]).
    destruct (decide (a = b)) as [->|]; [by left|right]. by apply blocks_disjoint.
  - exfalso. apply Hnb. rewrite <- E. by apply list_elem_of_fmap_2.
  - exfalso. apply Hna. rewrite <- E'. by apply list_elem_of_fmap_2.
  - by left.
Qed.
End live.

(** A free block is not in use. *)
Lemma free_not_live s ps R pg a y :
  heap_core s ps R -> pg ∈ ps -> a ∈ pg_free pg -> ~ live ps R a y.
Proof.
  intros Hc Hpg Ha Hl. pose proof (core_page _ _ _ _ Hc Hpg) as Hok.
  pose proof (proj1 (Forall_forall _ _) (po_blocks _ _ Hok) a Ha) as [Hb _].
  destruct (live_run _ _ _ Hc a y Hl) as (r & n & HR & ? & ? & ? & _ & _ & Hcase).
  pose proof (page_run _ _ _ Hc pg Hpg) as HRp.
  assert (r = pg_addr pg) as ->.
  { destruct (decide (r = pg_addr pg)) as [|Hne]; [done|].
    destruct (owns_disjoint _ _ _ _ _ _ (hc_owns _ _ _ Hc) HR HRp Hne); lia. }
  destruct Hcase as [(q & Hq & E & _ & Hf & _)|(_ & Hn & _)].
  - assert (q = pg) as -> by (by eapply addr_inj). done.
  - by apply Hn, list_elem_of_fmap_2.
Qed.

(** The first free block of a page comes into use. *)
Lemma live_set_free s l1 pg l2 R a l :
  heap_core s (l1 ++ pg :: l2) R -> pg_free pg = a :: l -> forall b y,
  live (l1 ++ set_free pg l :: l2) R b y <->
  live (l1 ++ pg :: l2) R b y \/ (b = a /\ y = pg_size pg).
Proof.
  intros Hc Ef b y. assert (Hpg : page_ok s pg) by (eapply core_page; [exact Hc|apply elem_mid]).
  pose proof (po_nodup _ _ Hpg) as Hnd. pose proof (po_blocks _ _ Hpg) as Hb. rewrite Ef in Hnd, Hb.
  apply NoDup_cons in Hnd as [Hal _]. apply Forall_cons in Hb as [Hba _].
  assert (Eadr : pg_addr <$> l1 ++ set_free pg l :: l2 = pg_addr <$> l1 ++ pg :: l2)
    by by rewrite !fmap_app, !fmap_cons.
  unfold live. rewrite Eadr. split.
  - intros [(q & Hq & Hbq & Hf & ->)|?]; [|by left; right].
    apply elem_of_app in Hq as [Hq|[->|Hq]%elem_of_cons].
    + left; left. exists q. set_solver.
    + destruct (decide (b = a)) as [->|]; [by right|]. left; left. exists pg.
      split_and!; [set_solver|done| |done]. rewrite Ef. cbn in Hf. set_solver.
    + left; left. exists q. set_solver.
  - intros [[(q & Hq & Hbq & Hf & ->)|?]|[-> ->]]; [|by right|].
    + left. apply elem_of_app in Hq as [Hq|[->|Hq]%elem_of_cons].
      * exists q. set_solver.
      * exists (set_free pg l). split_and!; [set_solver|done| |done]. rewrite Ef in Hf. set_solver.
      * exists q. set_solver.
    + left. exists (set_free pg l). split_and!; [set_solver|done|done|done].
Qed.

(** A page all of whose blocks are free holds nothing in use. *)
Lemma live_full_page l1 pg l2 R b y :
  (forall a, block_of pg a -> a ∈ pg_free pg) -> pg_addr pg ∉ (pg_addr <$> l1 ++ l2) ->
  live (l1 ++ pg :: l2) R b y <-> live (l1 ++ l2) (delete (pg_addr pg) R) b y.
Proof.
  intros Hall Hna. unfold live.
  assert (Eadr : forall x, x ∈ (pg_addr <$> l1 ++ pg :: l2) <->
    x = pg_addr pg \/ x ∈ (pg_addr <$> l1 ++ l2)).
  { intros x. rewrite !fmap_app, fmap_cons, !elem_of_app, elem_of_cons. tauto. }
  split; (intros [(q & Hq & Hbq & Hf & ->)|(n & HR & Hn & ->)]; [left|right]).
  - exists q. split_and!; try done. apply elem_of_app in Hq as [?|[->|?]%elem_of_cons];
      [set_solver| |set_solver]. destruct Hf. by apply Hall.
  - rewrite Eadr in Hn. exists n. rewrite lookup_delete_ne by naive_solver. naive_solver.
  - exists q. split_and!; try done. set_solver.
  - apply lookup_delete_Some in HR as [Hne HR]. exists n. rewrite Eadr. naive_solver.
Qed.

Lemma full_page s pg :
  page_ok s pg -> Z.of_nat (length (pg_free pg)) = pg_count pg ->
  forall a, block_of pg a -> a ∈ pg_free pg.
Proof.
  intros Hpg Hl a Ha. destruct (page_sizes s pg Hpg) as (? & _ & _ & ?).
  assert (Hp : all_blocks pg ≡ₚ pg_free pg).
  { symmetry. apply submseteq_length_Permutation.
    - apply NoDup_submseteq; [apply (po_nodup _ _ Hpg)|]. intros x Hx.
      apply (elem_all_blocks s); [done|].
      exact (proj1 (Forall_forall _ _) (po_blocks _ _ Hpg) x Hx).
    - unfold all_blocks. rewrite length_fmap, length_seq. lia. }
  rewrite <- Hp. by apply (elem_all_blocks s).
Qed.

Lemma blocktype_spec sz :
  0 <= sz <= 2048 -> exists t, blocktype sz = Done t /\ (t < NSIZES)%nat /\ sz <= size_of t.
Proof.
  intros Hsz. unfold blocktype, NSIZES. cbn [blocktype_loop].
  repeat (match goal with |- context [sz <=? size_of ?t] =>
    destruct (Z.leb_spec sz (size_of t)); [exists t; split_and!; [done|lia|done]|]
    end).
  change (size_of 7) with 2048 in *. lia.
Qed.

(** ** [subpage_kmalloc] *)
Definition same_contents ps R s s' : Prop :=
  forall b y w, live ps R b y -> b <= w < b + y -> mem s' !!! w = mem s !!! w.
(** What a request asks the provider of pages for, and the two reasons for it to
    fail: there are no such pages, or no entry of the table to describe one. *)
Definition pages_for (sz : Z) : Z := if 2048 <=? sz then (sz + PAGE_SIZE - 1) / PAGE_SIZE else 1.
Definition refused s ps sz : Prop :=
  (alloc_kpages (pages_for sz) (pages s)).1 = 0 \/ (sz < 2048 /\ length ps = NPAGEREFS).
Definition alloc_post s ps R sz a s' ps' R' : Prop :=
  heap_ok s' ps' R' /\ same_contents ps R s s' /\
  ((a = 0 /\ refused s ps sz /\ forall b y, live ps' R' b y <-> live ps R b y) \/
   (exists z, sz <= z /\ (forall y, ~ live ps R a y) /\
      forall b y, live ps' R' b y <-> live ps R b y \/ (b = a /\ y = z))).

Lemma used_update l1 pg l2 l :
  Forall (fun q => Z.of_nat (length (pg_free q)) < pg_count q) (l1 ++ l2) ->
  Z.of_nat (length l) < pg_count pg ->
  Forall (fun q => Z.of_nat (length (pg_free q)) < pg_count q) (l1 ++ set_free pg l :: l2).
Proof. rewrite !Forall_app, Forall_cons. naive_solver. Qed.

Lemma alloc_found s ps R t sz pg :
  heap_ok s ps R -> pg ∈ ps -> pg_type pg = t -> pg_free pg <> [] -> sz <= size_of t ->
  exists a s' ps', doalloc (pg_idx pg) s = Done (a, s') /\ alloc_post s ps R sz a s' ps' R.
Proof.
  intros [Hc Hin Hu] Hpg Ht Hf Hsz. apply list_elem_of_split in Hpg as (l1 & l2 & ->).
  destruct (pg_free pg) as [|a l] eqn:Ef; [done|].
  destruct (doalloc_spec s l1 pg l2 R a l Hc Ef) as (s' & E & Hc' & Hm & Hi).
  exists a, s', (l1 ++ set_free pg l :: l2). split; [done|]. split; [|split].
  - split; [done| |].
    + rewrite Hi. by rewrite fmap_app, fmap_cons in *.
    + apply used_update; rewrite Forall_app, Forall_cons in Hu;
        [apply Forall_app; naive_solver|]. destruct Hu as (_ & Hu & _). rewrite Ef in Hu.
      cbn [length] in Hu. lia.
  - intros b y w _ _. by rewrite Hm.
  - right. exists (pg_size pg). split; [unfold pg_size; by rewrite Ht|]. split.
    + intros y. eapply (free_not_live s); [exact Hc|apply elem_mid|]. rewrite Ef.
      apply elem_of_cons. by left.
    + by apply (live_set_free s).
Qed.

(** The lists do not depend on the provider and the bitmap. *)
Lemma heap_core_pages s ps R p w R' :
  heap_core s ps R -> owns p R' -> (forall pg, pg ∈ ps -> R' !! pg_addr pg = Some 1) ->
  heap_core (with_inuse (fun _ => w) (with_pages p s)) ps R'.
Proof.
  intros Hc Ho HR. split; [apply Hc|apply Hc|apply Hc|apply Hc| |apply Hc| |done].
  - eapply Forall_impl; [apply (hc_pages _ _ _ Hc)|]. intros pg Hpg. by apply (page_ok_ext s).
  - by apply Forall_forall.
Qed.

Lemma live_outside s ps R p a n b y w :
  heap_core s ps R -> R !! a = None -> owns p (<[a := n]> R) -> live ps R b y ->
  b <= w < b + y -> ~ (a <= w < a + n * PAGE_SIZE).
Proof.
  intros Hc Ha Ho Hl Hw. destruct (live_run _ _ _ Hc b y Hl) as (r & k & HR & ? & ? & _).
  destruct (owns_disjoint _ _ r k a n Ho); [|by rewrite lookup_insert_eq| |lia|lia].
  - rewrite lookup_insert_ne; [done|congruence].
  - congruence.
Qed.

Lemma alloc_fresh s ps R t sz a p :
  heap_ok s ps R -> (t < NSIZES)%nat -> sz <= size_of t -> sz < 2048 ->
  R !! a = None -> owns p (<[a := 1]> R) ->
  exists b s' ps' R',
    (r ← allocpageref;
     match r with
     | None => put_kpages a ≫= fun _ => mret 0
     | Some pr => new_page pr t a ≫= fun _ => doalloc pr
     end) (with_pages p s) = Done (b, s') /\ alloc_post s ps R sz b s' ps' R'.
Proof.
  intros [Hc Hin Hu] Ht Hsz Hsm HRa Ho.
  assert (Hpa : forall pg, pg ∈ ps -> <[a := 1]> R !! pg_addr pg = Some 1).
  { intros pg Hpg. pose proof (page_run _ _ _ Hc pg Hpg) as E.
    rewrite lookup_insert_ne; [done|]. congruence. }
  assert (Haddr : a ∉ (pg_addr <$> ps)).
  { intros (pg & -> & Hpg)%list_elem_of_fmap. pose proof (page_run _ _ _ Hc pg Hpg). congruence. }
  destruct (allocpageref_loop_spec (pg_idx <$> ps) INUSE_WORDS (with_pages p s) 0)
    as (r & s1 & E & Hr); [done|done|].
  unfold allocpageref. rewrite (bind_Done _ _ _ _ _ E). destruct r as [pr|].
  - destruct Hr as (Hpr & Hprn & w & -> & Hw).
    pose proof (heap_core_pages s ps R p w _ Hc Ho Hpa) as Hc1.
    destruct (new_page_spec _ ps _ pr t a Hc1 Hprn Hpr Ht) as (s2 & E2 & Hc2 & Hi2 & Hm2);
      [by rewrite lookup_insert_eq|done|].
    destruct (size_cases t Ht) as (Hz & _ & Hp & Hn).
    assert (Efr : pg_free (fresh_page pr t a)
      = (a + Z.of_nat (Z.to_nat (PAGE_SIZE / size_of t - 1)) * size_of t)
        :: down a (size_of t) (Z.to_nat (PAGE_SIZE / size_of t - 1))).
    { cbn [fresh_page pg_free].
      replace (Z.to_nat (PAGE_SIZE / size_of t))
        with (S (Z.to_nat (PAGE_SIZE / size_of t - 1))) by lia. done. }
    destruct (doalloc_spec s2 [] (fresh_page pr t a) ps _ _ _ Hc2 Efr)
      as (s3 & E3 & Hc3 & Hm3 & Hi3).
    rewrite (bind_Done _ _ _ _ _ E2). eexists _, s3, _, _. split; [exact E3|]. split; [|split].
    + split; [exact Hc3| |].
      * rewrite Hi3, Hi2. exact Hw.
      * apply (used_update []); [exact Hu|]. rewrite down_length.
        change (pg_count (fresh_page pr t a)) with (PAGE_SIZE / size_of t). lia.
    + intros b y x Hl Hx. rewrite Hm3, Hm2; [done|].
      pose proof (live_outside _ _ _ _ _ _ _ _ _ Hc HRa Ho Hl Hx). lia.
    + right. exists (size_of t). split; [done|]. split.
      { intros y Hl. destruct (live_run _ _ _ Hc _ _ Hl) as (_ & _ & _ & _ & _ & Hy & _).
        match type of Hl with live _ _ ?b _ =>
          destruct (live_outside s ps R p a 1 b y b Hc HRa Ho Hl ltac:(lia)) end. nia. }
      intros b y. rewrite (live_set_free s2 [] (fresh_page pr t a) ps _ _ _ Hc2 Efr).
      rewrite (live_full_page [] _ ps).
      * cbn [fresh_page pg_addr app]. by rewrite delete_insert_id.
      * apply (full_page s2); [eapply core_page; [exact Hc2|set_solver]|].
        cbn [fresh_page pg_free]. rewrite down_length.
        change (pg_count (fresh_page pr t a)) with (PAGE_SIZE / size_of t). lia.
      * done.
  - destruct Hr as [-> Hall]. mrun. eexists 0, _, ps, R. split; [reflexivity|].
    assert (Ho' : owns (free_kpages a p) R).
    { pose proof (free_kpages_law _ _ _ _ Ho (lookup_insert_eq _ _ _)) as Ho'.
      by rewrite delete_insert_id in Ho'. }
    split; [|split; [done|left; split_and!; [done|right|done]]].
    2: { split; [done|]. by apply (table_full s ps R). }
    split; [|done|done]. apply (heap_core_pages s ps R _ (pagerefs_inuse s) R Hc Ho').
    intros pg Hpg. by apply (page_run _ _ _ Hc).
Qed.

Lemma subpage_kmalloc_spec s ps R sz :
  heap_ok s ps R -> 0 <= sz < 2048 ->
  exists a s' ps' R', subpage_kmalloc sz s = Done (a, s') /\ alloc_post s ps R sz a s' ps' R'.
Proof.
  intros Hok Hsz. pose proof Hok as [Hc Hin Hu].
  destruct (blocktype_spec sz ltac:(lia)) as (t & Et & Ht & Hst).
  unfold subpage_kmalloc. rewrite Et. mrun.
  destruct (find_free_spec s t (of_type t ps) (nth t (sizebases s) None) NPAGEREFS)
    as (r & -> & Hr).
  { by apply Hc. }
  { apply Forall_forall. intros pg [Hpt Hpg]%list_elem_of_filter. split; [|done].
    by eapply core_page. }
  { pose proof (pages_length _ _ _ Hc). pose proof (length_filter (fun pg => pg_type pg = t) ps).
    unfold of_type. lia. }
  destruct r as [i|].
  - destruct Hr as (pg & [Hpt Hpg]%list_elem_of_filter & <- & Hf).
    destruct (alloc_found s ps R t sz pg Hok Hpg Hpt Hf Hst) as (a & s' & ps' & E & Hpost).
    by exists a, s', ps', R.
  - unfold get_kpages. destruct (alloc_kpages 1 (pages s)) as [a p] eqn:Ea.
    destruct (alloc_kpages_law _ _ 1 _ _ (hc_owns _ _ _ Hc) ltac:(lia) Ea) as [[-> Ho]|[HRa Ho]].
    + exists 0, (with_pages p s), ps, R. split; [done|]. split; [|split; [done|left; split_and!; [done|left|done]]].
      2: { unfold pages_for. rewrite (proj2 (Z.leb_gt _ _)) by lia. by rewrite Ea. }
      split; [|done|done].
      apply (heap_core_pages s ps R p (pagerefs_inuse s) R Hc Ho).
      intros pg Hpg. by apply (page_run _ _ _ Hc).
    + pose proof (owns_run _ _ _ _ Ho (lookup_insert_eq _ _ _)) as [Hk _ _ _].
      rewrite (proj2 (Z.eqb_neq a 0)) by (unfold MIPS_KSEG0 in Hk; lia).
      exact (alloc_fresh s ps R t sz a p Hok Ht Hst ltac:(lia) HRa Ho).
Qed.

(** ** [kmalloc] *)
Lemma kmalloc_spec s ps R sz :
  heap_ok s ps R -> 0 <= sz <= 2 ^ 31 - PAGE_SIZE ->
  exists a s' ps' R', kmalloc sz s = Done (a, s') /\ alloc_post s ps R sz a s' ps' R'.
Proof.
  intros Hok Hsz. unfold kmalloc, LARGEST_SUBPAGE_SIZE. rewrite Z.geb_leb.
  destruct (Z.leb_spec 2048 sz); [|apply subpage_kmalloc_spec; [done|lia]].
  pose proof Hok as [Hc Hin Hu]. unfold PAGE_SIZE in Hsz.
  rewrite uwrap_small by (unfold PAGE_SIZE; lia).
  assert (Hpf : pages_for sz = (sz + PAGE_SIZE - 1) / PAGE_SIZE) by (unfold pages_for; by rewrite (proj2 (Z.leb_le _ _)) by lia).
  set (n := (sz + PAGE_SIZE - 1) / PAGE_SIZE) in *.
  assert (Hn : 0 < n < 2 ^ 19 /\ sz <= n * PAGE_SIZE) by (unfold n, PAGE_SIZE; dlia).
  clearbody n. unfold get_kpages. destruct (alloc_kpages n (pages s)) as [a p] eqn:Ea.
  exists a, (with_pages p s), ps.
  destruct (alloc_kpages_law _ _ n _ _ (hc_owns _ _ _ Hc) ltac:(lia) Ea) as [[-> Ho]|[HRa Ho]].
  - exists R. split; [done|]. split; [|split; [done|left; split_and!; [done|left; by rewrite Hpf, Ea|done]]]. split; [|done|done].
    apply (heap_core_pages s ps R p (pagerefs_inuse s) R Hc Ho).
    intros pg Hpg. by apply (page_run _ _ _ Hc).
  - exists (<[a := n]> R). split; [done|].
    assert (Haddr : a ∉ (pg_addr <$> ps)).
    { intros (pg & -> & Hpg)%list_elem_of_fmap. pose proof (page_run _ _ _ Hc pg Hpg). congruence. }
    split; [|split; [done|right]].
    + split; [|done|done].
      apply (heap_core_pages s ps R p (pagerefs_inuse s) _ Hc Ho). intros pg Hpg.
      pose proof (page_run _ _ _ Hc pg Hpg). by rewrite lookup_insert_ne by congruence.
    + exists (n * PAGE_SIZE). split; [lia|]. split.
      { intros y Hl. destruct (live_run _ _ _ Hc _ _ Hl) as (_ & _ & _ & _ & _ & Hy & _).
        eapply (live_outside s ps R p a n a y a); try done; unfold PAGE_SIZE; lia. }
      intros b y. unfold live. split.
      * intros [?|(k & HR & Hk & ->)]; [by left; left|].
        apply lookup_insert_Some in HR as [[<- <-]|[? HR]]; [by right|]. left; right. eauto.
      * intros [[?|(k & HR & Hk & ->)]|[-> ->]]; [by left|right..].
        -- exists k. rewrite lookup_insert_ne by congruence. done.
        -- exists n. by rewrite lookup_insert_eq.
Qed.

(** ** [kfree] *)
Definition free_post s ps R a s' ps' R' : Prop :=
  heap_ok s' ps' R' /\
  (forall b y, live ps' R' b y <-> live ps R b y /\ b <> a) /\
  (forall b y w, live ps R b y -> b <> a -> b <= w < b + y -> mem s' !!! w = mem s !!! w).

(** A block that does not belong to a page of the small-block allocator. *)
Lemma kfree_run s ps R a n :
  heap_ok s ps R -> R !! a = Some n -> a ∉ (pg_addr <$> ps) ->
  exists s', kfree a s = Done (tt, s') /\ free_post s ps R a s' ps (delete a R).
Proof.
  intros [Hc Hin Hu] HRa Ha. destruct (owns_run _ _ _ _ (hc_owns _ _ _ Hc) HRa) as [Hk Hal Hn _].
  assert (Hlive : live ps R a (n * PAGE_SIZE)) by (right; eauto).
  unfold kfree. rewrite (proj2 (Z.eqb_neq a 0)) by (unfold MIPS_KSEG0 in Hk; lia).
  destruct (find_owner_spec s a ps (allbase s) NPAGEREFS) as (r & E & Hr);
    [apply Hc|apply Hc|by eapply pages_length|].
  assert (r = None) as ->.
  { destruct r as [i|]; [|done]. destruct Hr as (pg & Hpg & _ & Hrng).
    pose proof (page_run _ _ _ Hc pg Hpg) as HR.
    destruct (decide (pg_addr pg = a)) as [<-|Hne].
    - by destruct Ha; apply list_elem_of_fmap_2.
    - unfold PAGE_SIZE in *.
      destruct (owns_disjoint _ _ _ _ _ _ (hc_owns _ _ _ Hc) HR HRa Hne); unfold PAGE_SIZE in *; lia. }
  unfold subpage_kfree. mrun. rewrite E, Hal. cbn [Z.eqb negb]. mrun.
  eexists. split; [reflexivity|].
  split; [split|split]; [|done|done| |done].
  - apply (heap_core_pages s ps R _ (pagerefs_inuse s) _ Hc).
    + by apply (free_kpages_law _ _ _ n), HRa; apply Hc.
    + intros pg Hpg. rewrite lookup_delete_ne; [by apply (page_run _ _ _ Hc)|].
      intros ->. by apply Ha, list_elem_of_fmap_2.
  - intros b y. split.
    + intros Hl. assert (Hl' : live ps R b y).
      { destruct Hl as [?|(k & HR & ? & ->)]; [by left|]. right.
        apply lookup_delete_Some in HR as [_ HR]. eauto. }
      split; [done|]. intros ->. destruct Hl as [(pg & Hpg & Hb & _ & ->)|(k & HR & _)].
      * destruct (block_inside _ _ _ Hc pg a Hpg Hb) as [? ?].
        pose proof (page_run _ _ _ Hc pg Hpg) as HR.
        destruct (page_sizes s pg (core_page _ _ _ _ Hc Hpg)) as (? & _).
        destruct (decide (pg_addr pg = a)) as [<-|Hne].
        -- by apply Ha, list_elem_of_fmap_2.
        -- destruct (owns_disjoint _ _ _ _ _ _ (hc_owns _ _ _ Hc) HR HRa Hne);
             unfold PAGE_SIZE in *; lia.
      * by rewrite lookup_delete_eq in HR.
    + intros [[?|(k & HR & ? & ->)] Hne]; [by left|]. right. exists k.
      by rewrite lookup_delete_ne.
Qed.

(** The state of [subpage_kfree] after the block went back on the free list. *)
Definition put_block pg a m s : kheap P :=
  with_pagerefs (fun r => <[pg_idx pg := set_nfree (Z.of_nat (S (length (pg_free pg)))) (r !!! pg_idx pg)]> r)
    (with_pagerefs (fun r => <[pg_idx pg := set_offset (a - pg_addr pg) (r !!! pg_idx pg)]> r)
       (with_mem (fun _ => <[a := hd 0 (pg_free pg)]> m) s)).

Lemma put_block_core s l1 pg l2 R a m :
  heap_core s (l1 ++ pg :: l2) R -> block_of pg a -> a ∉ pg_free pg ->
  (forall b, ~ (a <= b < a + pg_size pg) -> m !!! b = mem s !!! b) ->
  heap_core (put_block pg a m s) (l1 ++ set_free pg (a :: pg_free pg) :: l2) R.
Proof.
  intros Hc Hb Hf Hm. set (s' := put_block pg a m s).
  assert (Hin : pg ∈ l1 ++ pg :: l2) by apply elem_mid.
  assert (Hpg : page_ok s pg) by (by eapply core_page).
  destruct (page_sizes s pg Hpg) as (Hz & _ & _ & Hcnt).
  destruct (block_offset s pg a Hpg Hb) as (Hoff & _).
  destruct (block_inside _ _ _ Hc pg a Hin Hb) as [Hlo Hhi].
  assert (Hown : pagerefs s' !!! pg_idx pg = set_nfree (Z.of_nat (S (length (pg_free pg))))
    (set_offset (a - pg_addr pg) (pagerefs s !!! pg_idx pg))).
  { unfold s', put_block. cbn [pagerefs with_pagerefs with_mem].
    by rewrite !lookup_total_upd, !decide_True. }
  assert (Hmem : forall b, ~ (a <= b < a + pg_size pg) -> mem s' !!! b = mem s !!! b).
  { intros b Hr. unfold s', put_block. cbn [mem with_pagerefs with_mem].
    rewrite lookup_total_mem, decide_False by lia. by apply Hm. }
  apply (heap_core_update s s' l1 pg (set_free pg (a :: pg_free pg)) l2 R); try done.
  - intros i Hi. unfold s', put_block. cbn [pagerefs with_pagerefs with_mem].
    by rewrite !lookup_total_upd, !decide_False.
  - by rewrite Hown.
  - by rewrite Hown.
  - intros b Hr. apply Hmem. lia.
  - pose proof (free_bound s pg Hpg).
    split; cbn [set_free pg_idx pg_addr pg_type pg_free]; try apply Hpg.
    + rewrite Hown. apply Hpg.
    + rewrite Hown. apply uwrap_small. unfold PAGE_SIZE in Hoff. lia.
    + rewrite Hown. cbn [length]. apply (uwrap_small 16 (Z.of_nat (S _))). lia.
    + constructor; [done|apply Hpg].
    + constructor; [done|apply Hpg].
    + split.
      * unfold s', put_block. cbn [mem with_pagerefs with_mem].
        by rewrite lookup_total_mem, decide_True.
      * eapply fchain_ext; [|apply Hpg]. intros b Hbf. apply Hmem. intros Hr.
        assert (Hbb : block_of pg b) by exact (proj1 (Forall_forall _ _) (po_blocks _ _ Hpg) b Hbf).
        assert (a <> b) by congruence.
        destruct (blocks_disjoint _ _ _ Hc pg a b); try done; lia.
Qed.

Lemma subpage_kfree_put s l1 pg l2 R a :
  heap_core s (l1 ++ pg :: l2) R -> block_of pg a -> a ∉ pg_free pg ->
  exists m, (forall b, ~ (a <= b < a + pg_size pg) -> m !!! b = mem s !!! b) /\
    subpage_kfree a s =
    (if Z.of_nat (S (length (pg_free pg))) =? pg_count pg then
       remove_lists (pg_idx pg) (Z.of_nat (pg_type pg)) ≫= fun _ =>
       freepageref (pg_idx pg) ≫= fun _ =>
       put_kpages (pg_addr pg) ≫= fun _ =>
       mret 0
     else mret 0) (put_block pg a m s).
Proof.
  intros Hc Hb Hf. assert (Hin : pg ∈ l1 ++ pg :: l2) by apply elem_mid.
  assert (Hpg : page_ok s pg) by (by eapply core_page).
  destruct (page_sizes s pg Hpg) as (Hz & _ & Hcs & Hcnt).
  destruct (block_offset s pg a Hpg Hb) as (Hoff & Hw & Hfla & _).
  destruct (find_owner_spec s a (l1 ++ pg :: l2) (allbase s) NPAGEREFS) as (r & E & Hr);
    [apply Hc|apply Hc|by eapply pages_length|].
  assert (r = Some (pg_idx pg)) as ->.
  { destruct r as [i|].
    - destruct Hr as (q & Hq & <- & Hrng). f_equal. f_equal.
      destruct (decide (pg_addr q = pg_addr pg)) as [Eq|Hne]; [by eapply addr_inj|].
      destruct Hb as [Hb _]. destruct (pages_disjoint _ _ _ _ _ Hc Hq Hin Hne); lia.
    - destruct (proj1 (Forall_forall _ _) Hr pg Hin). apply Hb. }
  destruct (fill_deadbeef_spec s a (pg_size pg)) as (m & Em & Hm); [lia|].
  exists m. split; [done|]. unfold subpage_kfree. mrun. rewrite E.
  unfold getpr, mgets. mrun. rewrite (page_addr s pg Hpg), (page_type s pg Hpg), Nat2Z.id, Hw.
  fold (pg_size pg). rewrite Z.geb_leb, (proj2 (Z.leb_gt _ _)) by lia. destruct Hb as [Hr' Hmod].
  rewrite Hmod. cbn [orb negb Z.eqb]. rewrite Em, (po_off s pg Hpg), Hfla, (po_nfree s pg Hpg).
  assert (Est : forall s0 : kheap P,
    (if match pg_free pg with [] => INVALID_OFFSET | a0 :: _ => a0 - pg_addr pg end =? INVALID_OFFSET
     then store a 0
     else store a (u32 (pg_addr pg + match pg_free pg with
                     [] => INVALID_OFFSET | a0 :: _ => a0 - pg_addr pg end))) s0
    = Done (tt, with_mem (<[a := hd 0 (pg_free pg)]>) s0)).
  { intros s0. destruct (pg_free pg) as [|h l] eqn:Ef; [done|].
    pose proof (po_blocks _ _ Hpg) as Hbl. rewrite Ef in Hbl. apply Forall_cons in Hbl as [Hh _].
    destruct (block_offset s pg h Hpg Hh) as (Hho & _ & Hhf & _).
    rewrite (proj2 (Z.eqb_neq _ _)) by (unfold INVALID_OFFSET, PAGE_SIZE in *; lia).
    by rewrite Hhf. }
  rewrite Est. unfold setpr, mmodify. mrun.
  cbn [pagerefs with_pagerefs with_mem]. rewrite lookup_total_upd, decide_True by done.
  cbn [nfree set_nfree]. pose proof (free_bound s pg Hpg).
  replace (Z.of_nat (length (pg_free pg)) + 1) with (Z.of_nat (S (length (pg_free pg)))) by lia.
  rewrite (uwrap_small 16) by lia. fold (pg_count pg).
  assert (Hle : Z.of_nat (S (length (pg_free pg))) <= pg_count pg).
  { pose proof (put_block_core s l1 pg l2 R a m Hc (conj Hr' Hmod) Hf Hm) as Hc'.
    apply (free_bound (put_block pg a m s) (set_free pg (a :: pg_free pg))).
    eapply core_page; [exact Hc'|apply elem_mid]. }
  rewrite (proj2 (Z.leb_le _ _) Hle). destruct (_ =? _); reflexivity.
Qed.

Lemma kfree_block s l1 pg l2 R a :
  heap_ok s (l1 ++ pg :: l2) R -> block_of pg a -> a ∉ pg_free pg ->
  exists s' ps' R', kfree a s = Done (tt, s') /\ free_post s (l1 ++ pg :: l2) R a s' ps' R'.
Proof.
  intros [Hc Hin Hu] Hb Hf.
  assert (Hpin : pg ∈ l1 ++ pg :: l2) by apply elem_mid.
  assert (Hpg : page_ok s pg) by (by eapply core_page).
  destruct (block_offset s pg a Hpg Hb) as (_ & _ & _ & Hpos).
  destruct (subpage_kfree_put s l1 pg l2 R a Hc Hb Hf) as (m & Hm & E).
  pose proof (put_block_core s l1 pg l2 R a m Hc Hb Hf Hm) as Hc1.
  set (pg' := set_free pg (a :: pg_free pg)) in *. set (s1 := put_block pg a m s) in *.
  assert (Hpg' : page_ok s1 pg') by (eapply core_page; [exact Hc1|apply elem_mid]).
  assert (Hlive : forall b y, live (l1 ++ pg' :: l2) R b y <-> live (l1 ++ pg :: l2) R b y /\ b <> a).
  { intros b y. pose proof (live_set_free s1 l1 pg' l2 R a (pg_free pg) Hc1 eq_refl b y) as H.
    change (set_free pg' (pg_free pg)) with (set_free pg (pg_free pg)) in H.
    replace (set_free pg (pg_free pg)) with pg in H by by destruct pg.
    rewrite H. split; [intros Hl|intros [[?|[? _]] ?]; done].
    split; [by left|]. intros ->. eapply (free_not_live s1); [exact Hc1| | |exact Hl].
    - apply elem_mid.
    - apply elem_of_cons. by left. }
  assert (Hmem : forall b y w, live (l1 ++ pg :: l2) R b y -> b <> a -> b <= w < b + y ->
    mem s1 !!! w = mem s !!! w).
  { intros b y w Hl Hne Hw. unfold s1, put_block. cbn [mem with_pagerefs with_mem].
    assert (Hla : live (l1 ++ pg :: l2) R a (pg_size pg)) by (left; eauto 6).
    destruct (page_sizes s pg Hpg) as (Hz & _).
    destruct (live_disjoint _ _ _ Hc a _ b y Hla Hl) as [[? _]|Hd]; [congruence|].
    rewrite lookup_total_mem, decide_False by lia. apply Hm. lia. }
  unfold kfree. rewrite (proj2 (Z.eqb_neq a 0)) by lia. mrun. rewrite E.
  pose proof (free_bound s1 pg' Hpg') as Hfb. change (pg_free pg') with (a :: pg_free pg) in Hfb.
  change (pg_count pg') with (pg_count pg) in Hfb. cbn [length] in Hfb.
  destruct (Z.eqb_spec (Z.of_nat (S (length (pg_free pg)))) (pg_count pg)) as [Efull|Enot].
  - destruct (remove_lists_spec s1 l1 pg' l2 R Hc1) as (s2 & E2 & Hc2 & Hm2 & Hi2).
    change (pg_idx pg') with (pg_idx pg) in E2. change (pg_type pg') with (pg_type pg) in E2.
    mrun. rewrite E2.
    assert (Hin2 : inuse_ok (pagerefs_inuse s2) (pg_idx <$> l1 ++ pg :: l2)) by (by rewrite Hi2).
    destruct (freepageref_spec s2 _ (pg_idx <$> l1 ++ l2) (pg_idx pg) Hin2)
      as (w & E3 & Hw).
    { by apply list_elem_of_fmap_2. }
    { apply Hpg. }
    { pose proof (hc_idx _ _ _ Hc) as Hnd. rewrite !fmap_app, fmap_cons in *.
      apply NoDup_app in Hnd as (_ & Hd & [Hn2 _]%NoDup_cons). intros i.
      rewrite !elem_of_app, elem_of_cons. specialize (Hd (pg_idx pg)). set_solver. }
    rewrite E3. mrun. cbn [Z.eqb negb]. eexists _, (l1 ++ l2), (delete (pg_addr pg) R).
    split; [reflexivity|].
    assert (Hna : pg_addr pg ∉ (pg_addr <$> l1 ++ l2)).
    { pose proof (hc_addr _ _ _ Hc) as Hnd. rewrite !fmap_app, fmap_cons in *.
      apply NoDup_app in Hnd as (_ & Hd & [Hn2 _]%NoDup_cons).
      specialize (Hd (pg_addr pg)). set_solver. }
    split; [split|split].
    + apply (heap_core_pages s2 _ R _ w); [done| |].
      * apply (free_kpages_law _ _ _ 1); [apply Hc2|by apply (page_run _ _ _ Hc)].
      * intros q Hq. rewrite lookup_delete_ne; [by apply (page_run _ _ _ Hc2)|].
        intros Eq. apply Hna. rewrite Eq. by apply list_elem_of_fmap_2.
    + exact Hw.
    + rewrite Forall_app, Forall_cons in Hu. apply Forall_app. naive_solver.
    + intros b y. rewrite <- Hlive. symmetry. apply (live_full_page l1 pg' l2 R b y); [|exact Hna].
      by apply (full_page s1).
    + intros b y x Hl Hne Hx. cbn. rewrite Hm2. by eapply Hmem.
  - mrun. cbn [Z.eqb negb]. exists s1, (l1 ++ pg' :: l2), R. split; [done|].
    split; [split|split]; [done| | |done|done].
    + unfold s1, put_block. cbn [pagerefs_inuse with_pagerefs with_mem].
      by rewrite !fmap_app, !fmap_cons in *.
    + apply used_update; [|cbn [length]; lia].
      rewrite Forall_app, Forall_cons in Hu. apply Forall_app. naive_solver.
Qed.

Lemma kfree_spec s ps R a z :
  heap_ok s ps R -> live ps R a z ->
  exists s' ps' R', kfree a s = Done (tt, s') /\ free_post s ps R a s' ps' R'.
Proof.
  intros Hok [(pg & Hpg & Hb & Hf & _)|(n & HR & Hn & _)].
  - apply list_elem_of_split in Hpg as (l1 & l2 & ->). by apply (kfree_block s l1 pg l2 R a).
  - destruct (kfree_run s ps R a n Hok HR Hn) as (s' & E & Hp). by exists s', ps, (delete a R).
Qed.

(** ** The consistency checks never fire *)
Section checks.
Context s ps R (Hok : heap_ok s ps R).
Let Hc : heap_core s ps R := ho_core _ _ _ Hok.

Lemma check_list_spec pg : pg ∈ ps -> forall l fuel n,
  Forall (block_of pg) l -> fchain (mem s) l -> (length l <= fuel)%nat ->
  check_list fuel (hd 0 l) (pg_addr pg) (pg_size pg) n s = Done (n + Z.of_nat (length l), s).
Proof.
  intros Hpg. pose proof (core_page _ _ _ _ Hc Hpg) as Hok'.
  induction l as [|a l IH]; intros fuel n Hb Hf Hl.
  - replace (n + Z.of_nat (length (@nil Z))) with n by (cbn; lia). by destruct fuel.
  - apply Forall_cons in Hb as [Hba Hb]. destruct Hf as [Ea Hf]. destruct fuel; [cbn in Hl; lia|].
    destruct (block_offset s pg a Hok' Hba) as (Hoff & Hw & _ & Hpos).
    pose proof (page_bounds s pg Hok') as [Hk0 Hk1]. destruct Hba as [Hr Hm].
    cbn [check_list hd]. rewrite (proj2 (Z.eqb_neq a 0)) by lia. mrun.
    unfold MIPS_KSEG0, MIPS_KSEG1, PAGE_SIZE in *. rewrite (uwrap_small 32 (_ + _)) by lia.
    rewrite (proj2 (Z.leb_le _ _)), (proj2 (Z.ltb_lt _ _)) by lia. cbn [andb].
    rewrite Hw, Hm, Z.eqb_refl, (proj2 (Z.leb_le _ _)), (proj2 (Z.ltb_lt _ _)) by lia.
    unfold load, mgets. mrun. rewrite Ea, IH; [|done|done|cbn in Hl; lia].
    do 2 f_equal. cbn [length]. lia.
Qed.

Lemma checksubpage_spec pg : pg ∈ ps -> checksubpage (pg_idx pg) s = Done (tt, s).
Proof.
  intros Hpg. pose proof (core_page _ _ _ _ Hc Hpg) as Hok'.
  unfold checksubpage. mrun. unfold getpr, mgets. mrun.
  rewrite (po_off _ _ Hok'), (po_nfree _ _ Hok').
  destruct (pg_free pg) as [|a l] eqn:Ef; [done|].
  pose proof (po_blocks _ _ Hok') as Hb. pose proof (po_chain _ _ Hok') as Hf.
  pose proof (free_bound _ _ Hok') as Hfb. destruct (page_sizes s pg Hok') as (_ & _ & _ & Hcnt).
  rewrite Ef in Hb, Hf, Hfb. pose proof Hb as [Hba _]%Forall_cons.
  destruct (block_offset s pg a Hok' Hba) as (Hoff & _ & Hfla & _). destruct Hba as [_ Hm].
  rewrite (proj2 (Z.eqb_neq _ _)) by (unfold INVALID_OFFSET, PAGE_SIZE in *; lia).
  rewrite (proj2 (Z.ltb_lt _ _)) by lia. rewrite (page_type s pg Hok'), Nat2Z.id.
  fold (pg_size pg). rewrite Hm, Z.eqb_refl, (page_addr s pg Hok'), Hfla.
  change a with (hd 0 (a :: l)) at 1.
  rewrite (check_list_spec pg Hpg) by (try done; unfold NPAGEREFS; lia).
  by rewrite Z.add_0_l, Z.eqb_refl.
Qed.

Lemma check_chain_spec next qs : forall cur fuel n,
  chain (fun i => next (pagerefs s !!! i)) cur (pg_idx <$> qs) ->
  (forall q, q ∈ qs -> q ∈ ps) -> (length qs <= fuel)%nat ->
  n + Z.of_nat (length qs) <= Z.of_nat NPAGEREFS ->
  check_chain fuel next cur n s = Done (n + Z.of_nat (length qs), s).
Proof.
  induction qs as [|q qs IH]; intros cur fuel n Hch Hsub Hl Hn.
  - cbn in Hch. subst cur. rewrite Z.add_0_r. by destruct fuel.
  - destruct Hch as [-> Hch]. destruct fuel; [cbn in Hl; lia|]. cbn [check_chain]. mrun.
    cbn [length] in Hn. rewrite checksubpage_spec by (apply Hsub, elem_of_cons; by left).
    rewrite (proj2 (Z.ltb_lt _ _)) by lia. unfold getpr, mgets. mrun.
    rewrite (IH _ fuel); [|done|intros; apply Hsub, elem_of_cons; by right|cbn in Hl; lia|lia].
    do 2 f_equal. cbn [length]. lia.
Qed.

(** The pages of the types [i] and up. *)
Lemma check_sizes_spec k : forall i sc,
  (i + k = NSIZES)%nat ->
  sc + Z.of_nat (length (filter (fun pg => (i <= pg_type pg)%nat) ps)) <= Z.of_nat NPAGEREFS ->
  check_sizes k i sc s
  = Done (sc + Z.of_nat (length (filter (fun pg => (i <= pg_type pg)%nat) ps)), s).
Proof.
  assert (Hsplit : forall i, length (filter (fun pg => (i <= pg_type pg)%nat) ps)
    = (length (of_type i ps) + length (filter (fun pg => (S i <= pg_type pg)%nat) ps))%nat).
  { intros i. unfold of_type. clear. induction ps as [|q qs IH]; [done|].
    rewrite !filter_cons. repeat case_decide; cbn [length]; lia. }
  induction k as [|k IH]; intros i sc Hi Hn; cbn [check_sizes].
  - replace (filter (fun pg => (i <= pg_type pg)%nat) ps) with (@nil page).
    + by rewrite Z.add_0_r.
    + symmetry. apply filter_none. intros q Hq Hle.
      pose proof (po_type _ _ (core_page _ _ _ _ Hc Hq)). lia.
  - rewrite Hsplit in Hn |- *. mrun.
    rewrite (check_chain_spec next_samesize (of_type i ps)).
    + rewrite (IH (S i)) by lia. do 2 f_equal. lia.
    + apply Hc. lia.
    + intros q Hq. by apply of_type_sub in Hq.
    + pose proof (pages_length _ _ _ Hc). pose proof (length_filter (fun pg => pg_type pg = i) ps).
      unfold of_type. lia.
    + lia.
Qed.

Lemma checksubpages_spec : checksubpages s = Done (tt, s).
Proof.
  pose proof (pages_length _ _ _ Hc) as Hl. unfold checksubpages. mrun.
  assert (Ef : filter (fun pg => (0 <= pg_type pg)%nat) ps = ps).
  { apply filter_all. intros; lia. }
  rewrite check_sizes_spec by (rewrite ?Ef; done || lia). rewrite Ef.
  rewrite (check_chain_spec next_all ps); [|apply Hc|done|done|lia].
  by rewrite Z.eqb_refl.
Qed.
End checks.
End heap.
