(* ===== verification/Dumbvm.v ===== *)
(** Physical memory and the simple virtual memory system
    (kern/arch/mips/vm/ram.c and dumbvm.c)

    [ram] is the state of ram.c, the bounds of the physical memory that is
    still free.  The page allocator built on it is an instance of the heap's
    [PageProvider].  [vmstate] adds the memory itself, as the kernel sees it
    through the unmapped segment, and the TLB.  An address space is the record
    of dumbvm.c: two regions and a stack, each contiguous in physical memory.
    [translate] is what an address space promises: the physical address of
    every user address it covers. *)
From S2P Require Import Prelude Memory Kmalloc.
Import Memory.

(** ** ram.c *)
Record ram := Ram { firstpaddr : Z; lastpaddr : Z }.

Definition ram_bootstrap (ramsize firstfree : Z) : ram :=
  let ramsize := if ramsize >? 508 * 1024 * 1024 then 508 * 1024 * 1024 else ramsize in
  Ram (u32 (firstfree - MIPS_KSEG0)) ramsize.
Definition ram_stealmem (npages : Z) (r : ram) : Z * ram :=
  let size := u32 (npages * PAGE_SIZE) in
  if u32 (firstpaddr r + size) >? lastpaddr r then (0, r)
  else (firstpaddr r, Ram (u32 (firstpaddr r + size)) (lastpaddr r)).
Definition ram_getsize (r : ram) : (Z * Z) * ram := ((firstpaddr r, lastpaddr r), Ram 0 0).

(** ** Pages (dumbvm.c) *)
Definition PADDR_TO_KVADDR (paddr : Z) : Z := u32 (paddr + MIPS_KSEG0).
Definition getppages (npages : Z) (r : ram) : Z * ram := ram_stealmem npages r.
Definition dumb_alloc_kpages (npages : Z) (r : ram) : Z * ram :=
  let '(pa, r) := getppages npages r in
  if pa =? 0 then (0, r) else (PADDR_TO_KVADDR pa, r).
(** [free_kpages] leaks the memory. *)
Definition dumb_free_kpages (addr : Z) (r : ram) : ram := r.

(** What start.S and ram_bootstrap establish: the first free page comes after
    the kernel, and there are at most 508 MB. *)
Definition ram_ok (r : ram) : Prop :=
  0 < firstpaddr r /\ firstpaddr r mod PAGE_SIZE = 0 /\ firstpaddr r <= lastpaddr r /\
  lastpaddr r <= 508 * 1024 * 1024.

Lemma ram_bootstrap_ok ramsize firstfree :
  0 < firstfree - MIPS_KSEG0 -> firstfree mod PAGE_SIZE = 0 ->
  firstfree - MIPS_KSEG0 <= ramsize -> firstfree - MIPS_KSEG0 <= 508 * 1024 * 1024 ->
  ram_ok (ram_bootstrap ramsize firstfree).
Proof.
  intros. unfold ram_ok, ram_bootstrap. cbn [firstpaddr lastpaddr]. rewrite Z.gtb_ltb.
  rewrite uwrap_small by (unfold MIPS_KSEG0 in *; lia).
  unfold MIPS_KSEG0, PAGE_SIZE in *.
  destruct (Z.ltb_spec (508 * 1024 * 1024) ramsize); dlia.
Qed.

(** Fewer than 2 GB are asked for: the end of the run does not wrap. *)
Lemma getppages_spec r n :
  ram_ok r -> 0 <= n < 2 ^ 19 ->
  (getppages n r = (0, r) /\ lastpaddr r < firstpaddr r + n * PAGE_SIZE) \/
  (exists r', getppages n r = (firstpaddr r, r') /\ ram_ok r' /\
     firstpaddr r' = firstpaddr r + n * PAGE_SIZE /\ lastpaddr r' = lastpaddr r).
Proof.
  intros (Hp & Ha & Hle & Hl) Hn. unfold getppages, ram_stealmem.
  assert (0 <= n * PAGE_SIZE < 2 ^ 31) by (unfold PAGE_SIZE; lia).
  rewrite (uwrap_small 32 (n * PAGE_SIZE)) by lia. rewrite !uwrap_small by lia. rewrite Z.gtb_ltb.
  destruct (Z.ltb_spec (lastpaddr r) (firstpaddr r + n * PAGE_SIZE)); [by left|right].
  eexists. split; [done|]. unfold ram_ok. cbn [firstpaddr lastpaddr].
  split_and!; try lia; [|done..]. unfold PAGE_SIZE in *. dlia.
Qed.

Definition dumb_owns (r : ram) (R : gmap Z Z) : Prop :=
  ram_ok r /\
  (forall a n, R !! a = Some n ->
     run_ok a n /\ a + n * PAGE_SIZE <= firstpaddr r + MIPS_KSEG0) /\
  (forall a n b k, R !! a = Some n -> R !! b = Some k -> a <> b ->
     a + n * PAGE_SIZE <= b \/ b + k * PAGE_SIZE <= a).

#[export] Program Instance dumbvm_pages : PageProvider ram := {
  alloc_kpages := dumb_alloc_kpages;
  free_kpages := dumb_free_kpages;
  owns := dumb_owns;
}.
Next Obligation. intros r R a n (_ & Hr & _) HR. by apply Hr. Qed.
Next Obligation. intros r R a n b k (_ & _ & Hd). apply Hd. Qed.
Next Obligation.
  intros r R n a r' (Hok & Hr & Hd) Hn E. unfold dumb_alloc_kpages in E.
  destruct (getppages_spec r n Hok) as [[E' _]|(r1 & E' & Hok1 & Hf1 & Hl1)]; [lia|..];
    rewrite E' in E; cbn iota beta zeta in E.
  { rewrite Z.eqb_refl in E. injection E as <- <-. by left. }
  pose proof Hok as (Hp & Hal & _ & _). pose proof Hok1 as (_ & _ & Hle1 & Hl).
  rewrite (proj2 (Z.eqb_neq _ _)) in E by lia. injection E as <- <-. right.
  assert (Ek : PADDR_TO_KVADDR (firstpaddr r) = firstpaddr r + MIPS_KSEG0).
  { unfold PADDR_TO_KVADDR, MIPS_KSEG0. apply uwrap_small. unfold PAGE_SIZE in Hf1. lia. }
  rewrite Ek. set (a := firstpaddr r + MIPS_KSEG0).
  assert (Hnew : forall b k, R !! b = Some k -> b + k * PAGE_SIZE <= a) by (intros; by apply Hr).
  split.
  - destruct (R !! a) as [k|] eqn:Ea; [|done].
    pose proof (Hnew _ _ Ea). destruct (Hr _ _ Ea) as [[_ _ ? _] _]. unfold PAGE_SIZE in *. lia.
  - split_and!; [done|..].
    + intros b k [[<- <-]|[_ HR]]%lookup_insert_Some.
      * split; [|lia]. split; [unfold a; lia|unfold a, MIPS_KSEG0, PAGE_SIZE in *; dlia|lia|].
        unfold a, MIPS_KSEG0, MIPS_KSEG1, PAGE_SIZE in *. lia.
      * destruct (Hr _ _ HR) as [? ?]. split; [done|]. unfold PAGE_SIZE in *. lia.
    + intros b k c j [[<- <-]|[? HR]]%lookup_insert_Some [[<- <-]|[? HR']]%lookup_insert_Some Hne.
      * done.
      * right. by apply Hnew.
      * left. by apply Hnew.
      * by apply Hd.
Qed.
Next Obligation.
  intros r R a n (Hok & Hr & Hd) HR. split_and!; [done|..].
  - intros b k [_ HR']%lookup_delete_Some. by apply Hr.
  - intros b k c j [_ ?]%lookup_delete_Some [_ ?]%lookup_delete_Some. by apply Hd.
Qed.

(** ** The machine *)
Definition NUM_TLB : nat := 64.
Definition TLBLO_DIRTY : Z := 0x400.
Definition TLBLO_VALID : Z := 0x200.
Definition TLBHI_INVALID (entryno : Z) : Z := u32 (Z.shiftl (0x80000 + entryno) 12).
Definition TLBLO_INVALID : Z := 0.
Definition USERSTACK : Z := MIPS_KSEG0.
Definition DUMBVM_STACKPAGES : Z := 12.

(** Free physical memory, the bytes of memory by kernel address, and the
    entries of the TLB. *)
Record vmstate := VM { vm_ram : ram; kmem : gmap Z Z; tlb : list (Z * Z) }.
Definition with_ram r s := VM r (kmem s) (tlb s).
Definition with_kmem m s := VM (vm_ram s) m (tlb s).
Definition with_tlb t s := VM (vm_ram s) (kmem s) t.

Definition m_getppages (n : Z) : M vmstate Z := fun s =>
  let '(a, r) := getppages n (vm_ram s) in Done (a, with_ram r s).
(** The string functions on kernel memory; they do not trap on memory that
    exists. *)
Definition kmem_run {A} (x : X A) : M vmstate A := fun s =>
  match x (kmem s) with
  | Val a m => Done (a, with_kmem m s)
  | Trap _ => Stop BadAccess
  | OutOfFuel => Stop NoFuel
  end.
Definition tlb_write (hi lo : Z) (i : nat) : M vmstate unit :=
  mmodify (fun s => with_tlb (<[i := (hi, lo)]> (tlb s)) s).

(** [struct addrspace] *)
Record addrspace := AddrSpace {
  as_vbase1 : Z; as_pbase1 : Z; as_npages1 : Z;
  as_vbase2 : Z; as_pbase2 : Z; as_npages2 : Z;
  as_stackpbase : Z;
}.

(** [alloc_ok] is the outcome of the [kmalloc]. *)
Definition as_create (alloc_ok : bool) : option addrspace :=
  if alloc_ok then Some (AddrSpace 0 0 0 0 0 0 0) else None.

Fixpoint invalidate (k : nat) (i : nat) : M vmstate unit :=
  match k with
  | O => mret tt
  | S k' => tlb_write (TLBHI_INVALID (Z.of_nat i)) TLBLO_INVALID i ≫= fun _ =>
            invalidate k' (S i)
  end.
Definition as_activate : M vmstate unit := invalidate NUM_TLB 0.

Definition as_define_region (a : addrspace) (vaddr sz : Z) : Z * addrspace :=
  let sz := u32 (sz + Z.land vaddr (u32 (Z.lnot PAGE_FRAME))) in
  let vaddr := Z.land vaddr PAGE_FRAME in
  let sz := Z.land (u32 (sz + PAGE_SIZE - 1)) PAGE_FRAME in
  let npages := sz / PAGE_SIZE in
  if as_vbase1 a =? 0 then
    (0, AddrSpace vaddr (as_pbase1 a) npages (as_vbase2 a) (as_pbase2 a) (as_npages2 a)
          (as_stackpbase a))
  else if as_vbase2 a =? 0 then
    (0, AddrSpace (as_vbase1 a) (as_pbase1 a) (as_npages1 a) vaddr (as_pbase2 a) npages
          (as_stackpbase a))
  else (EUNIMP, a).

Definition as_zero_region (paddr npages : Z) : M vmstate unit :=
  kmem_run (bzero (PADDR_TO_KVADDR paddr) (u32 (npages * PAGE_SIZE))).
Definition set_pbase1 x a := AddrSpace (as_vbase1 a) x (as_npages1 a) (as_vbase2 a)
  (as_pbase2 a) (as_npages2 a) (as_stackpbase a).
Definition set_pbase2 x a := AddrSpace (as_vbase1 a) (as_pbase1 a) (as_npages1 a) (as_vbase2 a)
  x (as_npages2 a) (as_stackpbase a).
Definition set_stackpbase x a := AddrSpace (as_vbase1 a) (as_pbase1 a) (as_npages1 a)
  (as_vbase2 a) (as_pbase2 a) (as_npages2 a) x.
(** The address space is changed on the error paths too. *)
Definition as_prepare_load (a : addrspace) : M vmstate (Z * addrspace) :=
  kassert (as_pbase1 a =? 0) ≫= fun _ =>
  kassert (as_pbase2 a =? 0) ≫= fun _ =>
  kassert (as_stackpbase a =? 0) ≫= fun _ =>
  p1 ← m_getppages (as_npages1 a);
  let a := set_pbase1 p1 a in
  if p1 =? 0 then mret (ENOMEM, a)
  else
    p2 ← m_getppages (as_npages2 a);
    let a := set_pbase2 p2 a in
    if p2 =? 0 then mret (ENOMEM, a)
    else
      p3 ← m_getppages DUMBVM_STACKPAGES;
      let a := set_stackpbase p3 a in
      if p3 =? 0 then mret (ENOMEM, a)
      else
        as_zero_region (as_pbase1 a) (as_npages1 a) ≫= fun _ =>
        as_zero_region (as_pbase2 a) (as_npages2 a) ≫= fun _ =>
        as_zero_region (as_stackpbase a) DUMBVM_STACKPAGES ≫= fun _ =>
        mret (0, a).

Definition as_define_stack (a : addrspace) : outcome (Z * Z) :=
  if negb (as_stackpbase a =? 0) then Done (0, USERSTACK) else Stop KAssertFail.

Definition kmemmove (dst src len : Z) : M vmstate unit :=
  kmem_run (memmove (PADDR_TO_KVADDR dst) (PADDR_TO_KVADDR src) len) ≫= fun _ => mret tt.
Definition as_copy (alloc_ok : bool) (old : addrspace) : M vmstate (result addrspace) :=
  match as_create alloc_ok with
  | None => mret (Err ENOMEM)
  | Some new =>
      let new := AddrSpace (as_vbase1 old) (as_pbase1 new) (as_npages1 old)
                   (as_vbase2 old) (as_pbase2 new) (as_npages2 old) (as_stackpbase new) in
      '(e, new) ← as_prepare_load new;
      if negb (e =? 0) then mret (Err ENOMEM)
      else
        kassert (negb (as_pbase1 new =? 0)) ≫= fun _ =>
        kassert (negb (as_pbase2 new =? 0)) ≫= fun _ =>
        kassert (negb (as_stackpbase new =? 0)) ≫= fun _ =>
        kmemmove (as_pbase1 new) (as_pbase1 old) (u32 (as_npages1 old * PAGE_SIZE)) ≫= fun _ =>
        kmemmove (as_pbase2 new) (as_pbase2 old) (u32 (as_npages2 old * PAGE_SIZE)) ≫= fun _ =>
        kmemmove (as_stackpbase new) (as_stackpbase old) (DUMBVM_STACKPAGES * PAGE_SIZE)
          ≫= fun _ =>
        mret (Ok new)
  end.

(** ** Page faults *)
Definition VM_FAULT_READ : Z := 0.
Definition VM_FAULT_WRITE : Z := 1.
Definition VM_FAULT_READONLY : Z := 2.

(** [for (i=0; i<NUM_TLB; i++)]: install the translation in the first entry
    that is not valid. *)
Fixpoint tlb_install (k : nat) (i : nat) (faultaddress paddr : Z) : M vmstate Z :=
  match k with
  | O => mret EFAULT
  | S k' =>
      e ← mgets (fun s => nth i (tlb s) (0, 0));
      if negb (Z.land e.2 TLBLO_VALID =? 0) then tlb_install k' (S i) faultaddress paddr
      else
        tlb_write faultaddress (Z.lor (Z.lor paddr TLBLO_DIRTY) TLBLO_VALID) i ≫= fun _ =>
        mret 0
  end.

(** [as] is the address space of the current thread, if it has one. *)
Definition vm_fault (faulttype faultaddress : Z) (a : option addrspace) : M vmstate Z :=
  let faultaddress := Z.land faultaddress PAGE_FRAME in
  if faulttype =? VM_FAULT_READONLY then mstop KPanic
  else if negb ((faulttype =? VM_FAULT_READ) || (faulttype =? VM_FAULT_WRITE)) then mret EINVAL
  else
    match a with
    | None => mret EFAULT
    | Some a =>
        kassert (negb (as_vbase1 a =? 0)) ≫= fun _ =>
        kassert (negb (as_pbase1 a =? 0)) ≫= fun _ =>
        kassert (negb (as_npages1 a =? 0)) ≫= fun _ =>
        kassert (negb (as_vbase2 a =? 0)) ≫= fun _ =>
        kassert (negb (as_pbase2 a =? 0)) ≫= fun _ =>
        kassert (negb (as_npages2 a =? 0)) ≫= fun _ =>
        kassert (negb (as_stackpbase a =? 0)) ≫= fun _ =>
        kassert (Z.land (as_vbase1 a) PAGE_FRAME =? as_vbase1 a) ≫= fun _ =>
        kassert (Z.land (as_pbase1 a) PAGE_FRAME =? as_pbase1 a) ≫= fun _ =>
        kassert (Z.land (as_vbase2 a) PAGE_FRAME =? as_vbase2 a) ≫= fun _ =>
        kassert (Z.land (as_pbase2 a) PAGE_FRAME =? as_pbase2 a) ≫= fun _ =>
        kassert (Z.land (as_stackpbase a) PAGE_FRAME =? as_stackpbase a) ≫= fun _ =>
        let vbase1 := as_vbase1 a in
        let vtop1 := u32 (vbase1 + u32 (as_npages1 a * PAGE_SIZE)) in
        let vbase2 := as_vbase2 a in
        let vtop2 := u32 (vbase2 + u32 (as_npages2 a * PAGE_SIZE)) in
        let stackbase := USERSTACK - DUMBVM_STACKPAGES * PAGE_SIZE in
        let stacktop := USERSTACK in
        let install paddr :=
          kassert (Z.land paddr PAGE_FRAME =? paddr) ≫= fun _ =>
          tlb_install NUM_TLB 0 faultaddress paddr in
        if (faultaddress >=? vbase1) && (faultaddress <? vtop1) then
          install (u32 (faultaddress - vbase1 + as_pbase1 a))
        else if (faultaddress >=? vbase2) && (faultaddress <? vtop2) then
          install (u32 (faultaddress - vbase2 + as_pbase2 a))
        else if (faultaddress >=? stackbase) && (faultaddress <? stacktop) then
          install (u32 (faultaddress - stackbase + as_stackpbase a))
        else mret EFAULT
    end.

(** ** What an address space promises *)
Definition in_region (x base n : Z) : bool := (base <=? x) && (x <? base + n * PAGE_SIZE).
Definition stackbase : Z := USERSTACK - DUMBVM_STACKPAGES * PAGE_SIZE.
Definition translate (a : addrspace) (v : Z) : option Z :=
  if in_region v (as_vbase1 a) (as_npages1 a) then Some (v - as_vbase1 a + as_pbase1 a)
  else if in_region v (as_vbase2 a) (as_npages2 a) then Some (v - as_vbase2 a + as_pbase2 a)
  else if in_region v stackbase DUMBVM_STACKPAGES then Some (v - stackbase + as_stackpbase a)
  else None.
(** The physical memory of an address space. *)
Definition own (a : addrspace) (p : Z) : bool :=
  in_region p (as_pbase1 a) (as_npages1 a) || in_region p (as_pbase2 a) (as_npages2 a) ||
  in_region p (as_stackpbase a) DUMBVM_STACKPAGES.

(** A region of user space, and where it is in physical memory. *)
Definition region_ok (v n : Z) : Prop :=
  0 < v /\ v mod PAGE_SIZE = 0 /\ 0 < n /\ v + n * PAGE_SIZE <= MIPS_KSEG0.
Definition frames_ok (p n lim : Z) : Prop :=
  0 < p /\ p mod PAGE_SIZE = 0 /\ p + n * PAGE_SIZE <= lim.
Record as_ok (a : addrspace) (lim : Z) : Prop := {
  ok_region1 : region_ok (as_vbase1 a) (as_npages1 a);
  ok_region2 : region_ok (as_vbase2 a) (as_npages2 a);
  ok_frames1 : frames_ok (as_pbase1 a) (as_npages1 a) lim;
  ok_frames2 : frames_ok (as_pbase2 a) (as_npages2 a) lim;
  ok_stack : frames_ok (as_stackpbase a) DUMBVM_STACKPAGES lim;
}.

Lemma land_frame x : 0 <= x < 2 ^ 32 -> Z.land x PAGE_FRAME = x - x mod PAGE_SIZE.
Proof.
  intros Hx. transitivity (Z.shiftl (Z.shiftr x 12) 12).
  - apply Z.bits_inj'. intros i Hi. rewrite Z.land_spec, frame_bit by lia.
    destruct (Z.leb_spec 12 i).
    + rewrite Z.shiftl_spec, Z.shiftr_spec by lia. replace (i - 12 + 12) with i by lia.
      destruct (Z.ltb_spec i 32); cbn; [apply andb_true_r|].
      rewrite (bits_above 32 x) by lia. done.
    + by rewrite Z.shiftl_spec_low, andb_false_r by lia.
  - rewrite Z.shiftl_mul_pow2, Z.shiftr_div_pow2 by lia. unfold PAGE_SIZE.
    change (2 ^ 12) with 4096. dlia.
Qed.
Lemma land_aligned x : 0 <= x < 2 ^ 32 -> x mod PAGE_SIZE = 0 -> Z.land x PAGE_FRAME = x.
Proof. intros Hx Ha. rewrite land_frame, Ha by done. lia. Qed.

Section as_facts.
Context (a : addrspace) (lim : Z) (Ha : as_ok a lim) (Hlim : lim <= 508 * 1024 * 1024).

(** Addresses translate page by page. *)
Lemma region_page v base n p :
  0 <= v -> base mod PAGE_SIZE = 0 -> frames_ok p n lim ->
  in_region (v - v mod PAGE_SIZE) base n = in_region v base n /\
  (in_region v base n = true ->
   (v - v mod PAGE_SIZE - base + p) mod PAGE_SIZE = 0 /\
   0 < v - v mod PAGE_SIZE - base + p < 508 * 1024 * 1024).
Proof using Hlim.
  intros Hv Hb (Hp & Hpa & Hpl). unfold in_region, PAGE_SIZE in *. split.
  - apply eq_bool_prop_intro. rewrite !andb_True, !Is_true_true, !Z.leb_le, !Z.ltb_lt. dlia.
  - intros [?%Z.leb_le ?%Z.ltb_lt]%andb_true_iff. dlia.
Qed.
Lemma translate_page v p :
  0 <= v -> translate a (v - v mod PAGE_SIZE) = Some p ->
  p mod PAGE_SIZE = 0 /\ 0 < p < 508 * 1024 * 1024 /\ translate a v = Some (p + v mod PAGE_SIZE).
Proof using Ha Hlim.
  intros Hv. destruct Ha as [(_ & Hb1 & _) (_ & Hb2 & _) Hf1 Hf2 Hf3].
  destruct (region_page v _ _ _ Hv Hb1 Hf1) as [E1 H1], (region_page v _ _ _ Hv Hb2 Hf2) as [E2 H2],
    (region_page v stackbase _ _ Hv eq_refl Hf3) as [E3 H3].
  unfold translate. rewrite E1, E2, E3.
  destruct (in_region v (as_vbase1 a) (as_npages1 a)),
    (in_region v (as_vbase2 a) (as_npages2 a)), (in_region v stackbase DUMBVM_STACKPAGES);
    try done; intros [= <-];
    first [destruct H1 as [? ?]; [done|]|destruct H2 as [? ?]; [done|]|destruct H3 as [? ?]; [done|]];
    split_and!; try lia; f_equal; lia.
Qed.
Lemma translate_None v : 0 <= v -> translate a (v - v mod PAGE_SIZE) = None -> translate a v = None.
Proof using Ha Hlim.
  intros Hv. destruct Ha as [(_ & Hb1 & _) (_ & Hb2 & _) Hf1 Hf2 Hf3].
  destruct (region_page v _ _ _ Hv Hb1 Hf1) as [E1 _], (region_page v _ _ _ Hv Hb2 Hf2) as [E2 _],
    (region_page v stackbase _ _ Hv eq_refl Hf3) as [E3 _].
  unfold translate. rewrite E1, E2, E3. by repeat destruct (in_region v _ _).
Qed.
Lemma translate_own v p : translate a v = Some p -> own a p = true.
Proof.
  unfold translate, own, in_region.
  destruct (Z.leb_spec (as_vbase1 a) v), (Z.ltb_spec v (as_vbase1 a + as_npages1 a * PAGE_SIZE));
    cbn [andb]; [intros [= <-]; rewrite (proj2 (Z.leb_le _ _)), (proj2 (Z.ltb_lt _ _)) by lia; done|..];
  destruct (Z.leb_spec (as_vbase2 a) v), (Z.ltb_spec v (as_vbase2 a + as_npages2 a * PAGE_SIZE));
    cbn [andb]; try (intros [= <-];
      rewrite (proj2 (Z.leb_le (as_pbase2 a) _)), (proj2 (Z.ltb_lt _ (as_pbase2 a + _))) by lia;
      apply orb_true_iff; left; apply orb_true_r);
  destruct (Z.leb_spec stackbase v), (Z.ltb_spec v (stackbase + DUMBVM_STACKPAGES * PAGE_SIZE));
    cbn [andb]; try done; intros [= <-];
    rewrite (proj2 (Z.leb_le (as_stackpbase a) _)), (proj2 (Z.ltb_lt _ (as_stackpbase a + _))) by lia;
    apply orb_true_r.
Qed.
End as_facts.

(** ** The TLB *)
Definition tlb_entry (p : Z) : Z := Z.lor (Z.lor p TLBLO_DIRTY) TLBLO_VALID.
Definition valid (e : Z * Z) : bool := negb (Z.land e.2 TLBLO_VALID =? 0).
(** The hardware uses a valid entry whose page matches. *)
Definition tlb_maps (e : Z * Z) (v p : Z) : Prop :=
  valid e = true /\ Z.land e.1 PAGE_FRAME = Z.land v PAGE_FRAME /\
  p = Z.land e.2 PAGE_FRAME + v mod PAGE_SIZE.

Lemma tlb_entry_val p : p mod PAGE_SIZE = 0 -> tlb_entry p = p + 0x600.
Proof.
  intros Hp. unfold tlb_entry. rewrite <- Z.lor_assoc.
  change (Z.lor TLBLO_DIRTY TLBLO_VALID) with 0x600.
  replace p with (Z.shiftl (Z.shiftr p 12) 12) at 1;
    [rewrite lor_shiftl_add by lia|]; rewrite ?Z.shiftl_mul_pow2, Z.shiftr_div_pow2 by lia;
    unfold PAGE_SIZE in Hp; change (2 ^ 12) with 4096; dlia.
Qed.
Lemma tlb_entry_valid h p : valid (h, tlb_entry p) = true.
Proof.
  unfold valid. cbn. destruct (Z.eqb_spec (Z.land (tlb_entry p) TLBLO_VALID) 0) as [E|]; [|done].
  apply (f_equal (fun x => Z.testbit x 9)) in E. unfold tlb_entry in E.
  rewrite Z.land_spec, Z.lor_spec in E. change (Z.testbit TLBLO_VALID 9) with true in E.
  by rewrite orb_true_r in E.
Qed.
Lemma tlb_entry_frame p :
  0 <= p < 2 ^ 31 -> p mod PAGE_SIZE = 0 -> Z.land (tlb_entry p) PAGE_FRAME = p.
Proof.
  intros Hp Ha. rewrite tlb_entry_val, land_frame by (done || lia).
  unfold PAGE_SIZE in *. dlia.
Qed.

(** The first entry from [i] on that is not valid. *)
Fixpoint first_invalid (t : list (Z * Z)) (k : nat) : option nat :=
  match t with
  | [] => None
  | e :: t' => if valid e then first_invalid t' (S k) else Some k
  end.
Lemma first_invalid_spec t : forall k i,
  first_invalid t k = Some i ->
  exists j e, i = (k + j)%nat /\ t !! j = Some e /\ valid e = false.
Proof.
  induction t as [|e t IH]; intros k i; cbn; [done|].
  destruct (valid e) eqn:Ev.
  - intros Hi. destruct (IH _ _ Hi) as (j & e' & -> & ? & ?). exists (S j), e'.
    split_and!; [lia|done..].
  - intros [= <-]. exists 0%nat, e. split_and!; [lia|done..].
Qed.
Lemma first_invalid_None t : forall k,
  first_invalid t k = None -> Forall (fun e => valid e = true) t.
Proof.
  induction t as [|e t IH]; intros k; cbn; [by constructor|].
  destruct (valid e) eqn:Ev; [|done]. intros Hn. constructor; [done|by eapply IH].
Qed.
Lemma NoDup_insert_fresh {A} (l : list A) i x : NoDup l -> (x ∉ l) -> NoDup (<[i := x]> l).
Proof.
  intros Hl Hx. apply NoDup_alt. intros j k y.
  rewrite !list_lookup_insert_Some. rewrite list_elem_of_lookup in Hx. rewrite NoDup_alt in Hl.
  intros [(-> & <- & ?)|[? Hj]] [(<- & ? & ?)|[? Hk]]; subst; try done;
    [destruct Hx; by eexists..|by eapply Hl].
Qed.
Lemma tlb_install_spec va p s : forall k i,
  (i + k = length (tlb s))%nat ->
  tlb_install k i va p s
  = match first_invalid (drop i (tlb s)) i with
    | None => Done (EFAULT, s)
    | Some j => Done (0, with_tlb (<[j := (va, tlb_entry p)]> (tlb s)) s)
    end.
Proof.
  induction k as [|k IH]; intros i Hk; cbn [tlb_install].
  - by rewrite drop_ge by lia.
  - mrun. destruct (lookup_lt_is_Some_2 (tlb s) i) as [e He]; [lia|].
    rewrite (drop_S _ _ _ He), nth_lookup, He. cbn [default first_invalid]. unfold id.
    unfold valid. destruct (negb _); [apply IH; lia|done].
Qed.

(** Every entry that is valid is a translation of the address space [a]; the
    others cannot match a user address. *)
Definition entry_ok (a : option addrspace) (e : Z * Z) : Prop :=
  if valid e then
    exists b p, a = Some b /\ 0 <= e.1 < MIPS_KSEG0 /\ e.1 mod PAGE_SIZE = 0 /\
      translate b e.1 = Some p /\ e.2 = tlb_entry p
  else MIPS_KSEG0 <= e.1.
Definition tlb_ok (t : list (Z * Z)) (a : option addrspace) : Prop :=
  length t = NUM_TLB /\ Forall (entry_ok a) t /\ NoDup (fst <$> t).

Definition invalid_entry (i : nat) : Z * Z := (TLBHI_INVALID (Z.of_nat i), TLBLO_INVALID).
Lemma invalidate_spec k : forall i s,
  (i + k = length (tlb s))%nat ->
  invalidate k i s = Done (tt, with_tlb (take i (tlb s) ++ (invalid_entry <$> seq i k)) s).
Proof.
  induction k as [|k IH]; intros i s Hk; cbn [invalidate].
  - rewrite take_ge, app_nil_r by lia. by destruct s.
  - mrun. unfold tlb_write, mmodify. rewrite IH by (cbn; rewrite length_insert; lia). cbn [tlb with_tlb].
    do 2 f_equal. unfold with_tlb. cbn. f_equal.
    rewrite (take_S_r _ i (invalid_entry i)) by (apply list_lookup_insert_eq; lia).
    rewrite take_insert_ge by lia. by rewrite <- app_assoc.
Qed.

Definition reset_tlb : list (Z * Z) := invalid_entry <$> seq 0 NUM_TLB.
Lemma reset_tlb_ok a : tlb_ok reset_tlb a.
Proof.
  split_and!; [done| |].
  - apply Forall_fmap, Forall_forall. intros i Hi%elem_of_seq. unfold NUM_TLB in Hi.
    unfold compose, entry_ok. change (valid (invalid_entry i)) with false.
    cbn [invalid_entry fst]. unfold TLBHI_INVALID, MIPS_KSEG0.
    rewrite Z.shiftl_mul_pow2, uwrap_small by lia. lia.
  - by apply (bool_decide_unpack _); vm_compute.
Qed.
Lemma as_activate_spec s :
  length (tlb s) = NUM_TLB -> as_activate s = Done (tt, with_tlb reset_tlb s).
Proof. intros Hl. unfold as_activate. by rewrite invalidate_spec by (rewrite Hl; done). Qed.

(** ** [vm_fault] *)
Definition is_fault (ft : Z) : Prop := ft = VM_FAULT_READ \/ ft = VM_FAULT_WRITE.

Lemma vm_fault_run a lim ft va s :
  as_ok a lim -> lim <= 508 * 1024 * 1024 -> is_fault ft -> 0 <= va < 2 ^ 32 ->
  vm_fault ft va (Some a) s
  = match translate a (va - va mod PAGE_SIZE) with
    | None => Done (EFAULT, s)
    | Some p => tlb_install NUM_TLB 0 (va - va mod PAGE_SIZE) p s
    end.
Proof.
  intros Ha Hlim Hft Hva. unfold vm_fault. rewrite land_frame by done.
  assert ((ft =? VM_FAULT_READONLY) = false /\
    (ft =? VM_FAULT_READ) || (ft =? VM_FAULT_WRITE) = true) as [E0 E1] by (destruct Hft; subst ft; done).
  rewrite E0, E1. clear E0 E1.
  cbn [negb]. pose proof (translate_page a lim Ha Hlim va) as Htp.
  destruct Ha as [(Hv1 & Ha1 & Hn1 & Ht1) (Hv2 & Ha2 & Hn2 & Ht2) (Hp1 & Hpa1 & Hpl1)
    (Hp2 & Hpa2 & Hpl2) (Hp3 & Hpa3 & Hpl3)].
  unfold MIPS_KSEG0, DUMBVM_STACKPAGES in *.
  assert (0 <= as_npages1 a * PAGE_SIZE < 2 ^ 32 /\ 0 <= as_npages2 a * PAGE_SIZE < 2 ^ 32)
    as [? ?] by (unfold PAGE_SIZE in *; lia).
  rewrite !(proj2 (Z.eqb_neq _ 0)) by lia. cbn [negb].
  rewrite (land_aligned (as_vbase1 a)), (land_aligned (as_vbase2 a)), (land_aligned (as_pbase1 a)),
    (land_aligned (as_pbase2 a)), (land_aligned (as_stackpbase a))
    by (done || (unfold PAGE_SIZE in *; lia)). rewrite !Z.eqb_refl.
  rewrite (uwrap_small 32 (as_npages1 a * _)), (uwrap_small 32 (as_npages2 a * _)) by done.
  rewrite !(uwrap_small 32 (_ + _ * _)) by (unfold PAGE_SIZE in *; lia).
  mrun. set (pg := va - va mod PAGE_SIZE) in *.
  assert (Hinst : forall p, translate a pg = Some p ->
    (Z.land p PAGE_FRAME =? p) = true /\ u32 p = p).
  { intros p Hp. destruct (Htp p ltac:(lia) Hp) as (Hpa & Hpr & _).
    rewrite land_aligned by (done || lia). split; [apply Z.eqb_refl|]. apply uwrap_small. lia. }
  unfold translate, in_region in *. rewrite !Z.geb_leb.
  change (USERSTACK - 12 * PAGE_SIZE) with stackbase.
  change USERSTACK with (stackbase + 12 * PAGE_SIZE).
  destruct ((as_vbase1 a <=? pg) && (pg <? as_vbase1 a + as_npages1 a * PAGE_SIZE)).
  { destruct (Hinst _ eq_refl) as [E1 ->]. by rewrite E1. }
  destruct ((as_vbase2 a <=? pg) && (pg <? as_vbase2 a + as_npages2 a * PAGE_SIZE)).
  { destruct (Hinst _ eq_refl) as [E1 ->]. by rewrite E1. }
  change DUMBVM_STACKPAGES with 12 in *.
  destruct ((stackbase <=? pg) && (pg <? stackbase + 12 * PAGE_SIZE)); [|done].
  destruct (Hinst _ eq_refl) as [E1 ->]. by rewrite E1.
Qed.

(** A fault on a page that no entry matches. *)
Lemma vm_fault_spec a lim ft va s :
  as_ok a lim -> lim <= 508 * 1024 * 1024 -> is_fault ft -> 0 <= va < MIPS_KSEG0 ->
  tlb_ok (tlb s) (Some a) -> (va - va mod PAGE_SIZE ∉ (fst <$> tlb s)) ->
  exists e t, vm_fault ft va (Some a) s = Done (e, with_tlb t s) /\ tlb_ok t (Some a) /\
    (e = 0 -> exists j x y p, tlb s !! j = Some y /\ valid y = false /\ t = <[j := x]> (tlb s) /\
       x.1 = va - va mod PAGE_SIZE /\ translate a va = Some p /\ tlb_maps x va p) /\
    (e <> 0 -> e = EFAULT /\ t = tlb s /\
       (translate a va = None \/ Forall (fun x => valid x = true) (tlb s))).
Proof.
  intros Ha Hlim Hft Hva (Hlen & Hall & Hnd) Hmiss. unfold MIPS_KSEG0 in Hva.
  rewrite (vm_fault_run a lim) by (done || lia). set (pg := va - va mod PAGE_SIZE) in *.
  assert (Hsame : forall b, with_tlb (tlb b) b = b) by by intros [].
  assert (Hpg : 0 <= pg < 2147483648 /\ pg mod PAGE_SIZE = 0) by (unfold pg, PAGE_SIZE; dlia).
  destruct (translate a pg) as [p|] eqn:Htr; [|exists EFAULT, (tlb s); rewrite Hsame].
  2: { split_and!; try done. intros _. split_and!; [done..|]. left.
       apply (translate_None a lim Ha Hlim); [lia|done]. }
  destruct (translate_page a lim Ha Hlim va p ltac:(lia) Htr) as (Hpa & Hpr & Htv).
  rewrite tlb_install_spec by (rewrite Hlen; done). rewrite drop_0.
  destruct (first_invalid (tlb s) 0) as [j|] eqn:Hj.
  - apply first_invalid_spec in Hj as (j' & x & -> & Hx & Hxv). cbn [Nat.add] in *. rename j' into j.
    assert (Hjl : (j < length (tlb s))%nat) by by eapply lookup_lt_Some.
    eexists 0, _. split; [done|]. split_and!; [| |done].
    + split; [by rewrite length_insert|]. split.
      * apply Forall_insert; [done|]. unfold entry_ok. rewrite tlb_entry_valid. exists a, p.
        unfold MIPS_KSEG0. cbn [fst snd]. split_and!; try done; lia.
      * rewrite list_fmap_insert. by apply NoDup_insert_fresh.
    + intros _. exists j, (pg, tlb_entry p), x, (p + va mod PAGE_SIZE).
      split_and!; try done. split; [apply tlb_entry_valid|]. cbn [fst snd].
      rewrite tlb_entry_frame, !land_frame by (done || lia). split; [|done].
      destruct Hpg as [_ Hpg]. rewrite Hpg. unfold pg. lia.
  - exists EFAULT, (tlb s). rewrite Hsame. split_and!; try done. intros _. split_and!; [done..|].
    right. by eapply first_invalid_None.
Qed.

(** ** Loading and copying an address space *)

(** The byte at physical address [q]. *)
Definition phys (s : vmstate) (q : Z) : option Z := kmem s !! (q + MIPS_KSEG0).
(** Physical memory is there up to its end. *)
Definition mach_ok (s : vmstate) : Prop :=
  ram_ok (vm_ram s) /\ mapped (kmem s) MIPS_KSEG0 (lastpaddr (vm_ram s)).

Lemma kvaddr p : 0 <= p < 2 ^ 31 -> PADDR_TO_KVADDR p = p + MIPS_KSEG0.
Proof. intros. unfold PADDR_TO_KVADDR, MIPS_KSEG0. apply uwrap_small. lia. Qed.
Lemma mach_mapped s p n :
  mach_ok s -> 0 <= p -> p + n <= lastpaddr (vm_ram s) -> mapped (kmem s) (p + MIPS_KSEG0) n.
Proof.
  intros [_ Hm] Hp Hn i Hi. replace (p + MIPS_KSEG0 + i) with (MIPS_KSEG0 + (p + i)) by lia.
  apply Hm. lia.
Qed.
Lemma in_region_spec q p n : in_region q p n = bool_decide (p <= q < p + n * PAGE_SIZE).
Proof.
  unfold in_region. apply eq_bool_prop_intro.
  rewrite bool_decide_spec, andb_True, !Is_true_true, Z.leb_le, Z.ltb_lt. done.
Qed.
Lemma region_size p n s :
  mach_ok s -> frames_ok p n (lastpaddr (vm_ram s)) -> 0 <= n ->
  u32 (n * PAGE_SIZE) = n * PAGE_SIZE /\ 0 <= p < 2 ^ 31.
Proof.
  intros [(Hp & Ha & Hle & Hl) _] (Hp0 & _ & Hpl) Hn. unfold PAGE_SIZE in *.
  split; [apply uwrap_small; lia|lia].
Qed.

Lemma as_zero_region_spec s p n :
  mach_ok s -> frames_ok p n (lastpaddr (vm_ram s)) -> 0 <= n ->
  exists m, as_zero_region p n s = Done (tt, with_kmem m s) /\ mach_ok (with_kmem m s) /\
    forall q, phys (with_kmem m s) q = if in_region q p n then Some 0 else phys s q.
Proof.
  intros Hs Hf Hn. destruct (region_size p n s) as [En Hp]; [done..|].
  unfold as_zero_region. rewrite En, kvaddr by done. pose proof Hf as (_ & _ & Hpl).
  destruct (bzero_spec (p + MIPS_KSEG0) (n * PAGE_SIZE) (kmem s)) as (m & Hr & Hz);
    [unfold PAGE_SIZE; lia|by apply mach_mapped; [|lia|]|].
  exists m. unfold kmem_run. rewrite Hr. split; [done|]. split.
  - destruct Hs as [Hok Hm]. split; [done|]. intros i Hi. cbn [with_kmem kmem]. rewrite Hz.
    case_decide; [done|by apply Hm].
  - intros q. unfold phys. cbn [with_kmem kmem]. rewrite Hz, in_region_spec. unfold PAGE_SIZE.
    case_decide; case_bool_decide; done || lia.
Qed.
Lemma kmemmove_spec s d p n :
  mach_ok s -> frames_ok d n (lastpaddr (vm_ram s)) -> frames_ok p n (lastpaddr (vm_ram s)) ->
  0 <= n ->
  exists m, kmemmove d p (u32 (n * PAGE_SIZE)) s = Done (tt, with_kmem m s) /\
    mach_ok (with_kmem m s) /\
    forall q, phys (with_kmem m s) q = if in_region q d n then phys s (q - d + p) else phys s q.
Proof.
  intros Hs Hfd Hfp Hn. destruct (region_size d n s) as [En Hd]; [done..|].
  destruct (region_size p n s) as [_ Hp]; [done..|].
  pose proof Hfd as (_ & _ & Hdl). pose proof Hfp as (_ & _ & Hpl).
  unfold kmemmove. rewrite En, !kvaddr by done.
  destruct (memmove_spec (d + MIPS_KSEG0) (p + MIPS_KSEG0) (n * PAGE_SIZE) (kmem s))
    as (m & Hr & Hc); [unfold PAGE_SIZE; lia|by apply mach_mapped; [|lia|]..|].
  exists m. unfold kmem_run, mbind, M_bind. rewrite Hr. split; [done|]. split.
  - destruct Hs as [Hok Hm]. split; [done|].
    eapply copied_mapped; [exact Hc| |exact Hm]. by apply mach_mapped; [|lia|].
  - intros q. unfold phys. cbn [with_kmem kmem]. rewrite Hc, in_region_spec. unfold PAGE_SIZE.
    case_decide; case_bool_decide; try (done || lia). f_equal. lia.
Qed.

(** The regions of [a] one after another in physical memory, from [f] on. *)
Definition loaded (a : addrspace) (f : Z) : addrspace :=
  AddrSpace (as_vbase1 a) f (as_npages1 a) (as_vbase2 a) (f + as_npages1 a * PAGE_SIZE)
    (as_npages2 a) (f + as_npages1 a * PAGE_SIZE + as_npages2 a * PAGE_SIZE).
Definition total_pages (a : addrspace) : Z := as_npages1 a + as_npages2 a + DUMBVM_STACKPAGES.

(** The physical memory given out between [s] and [s'], with what else a load
    keeps. *)
Definition grown (s s' : vmstate) : Prop :=
  mach_ok s' /\ tlb s' = tlb s /\ lastpaddr (vm_ram s') = lastpaddr (vm_ram s) /\
  firstpaddr (vm_ram s) <= firstpaddr (vm_ram s').

Definition free_pages (s : vmstate) : Z :=
  (lastpaddr (vm_ram s) - firstpaddr (vm_ram s)) / PAGE_SIZE.
(** Pages left after the three requests of a load, and whether all were met;
    the pages of the requests that were met before one failed are lost. *)
Definition grab3 (n1 n2 n3 free : Z) : bool * Z :=
  if free <? n1 then (false, free)
  else if free - n1 <? n2 then (false, free - n1)
  else if free - n1 - n2 <? n3 then (false, free - n1 - n2)
  else (true, free - n1 - n2 - n3).

Lemma grown_refl s : mach_ok s -> grown s s.
Proof. intros. unfold grown. by split_and!. Qed.
Lemma grown_trans s1 s2 s3 : grown s1 s2 -> grown s2 s3 -> grown s1 s3.
Proof. unfold grown. intros (? & ? & ? & ?) (? & ? & ? & ?). split_and!; [done|congruence..|lia]. Qed.
Lemma m_getppages_spec n s :
  mach_ok s -> 0 <= n < 2 ^ 19 ->
  (m_getppages n s = Done (0, s) /\ free_pages s < n) \/
  (exists r, m_getppages n s = Done (firstpaddr (vm_ram s), with_ram r s) /\
     firstpaddr (vm_ram s) <> 0 /\ grown s (with_ram r s) /\ n <= free_pages s /\
     free_pages (with_ram r s) = free_pages s - n /\ firstpaddr r = firstpaddr (vm_ram s) + n * PAGE_SIZE).
Proof.
  intros [Hok Hm] Hn. unfold m_getppages. pose proof Hok as (Hf & _).
  destruct (getppages_spec (vm_ram s) n Hok Hn) as [[-> ?]|(r & -> & Hok' & Hf' & Hl)].
  - left. split; [by destruct s|]. unfold free_pages, PAGE_SIZE in *. dlia.
  - right. exists r. pose proof Hok' as (_ & _ & Hle & _). rewrite Hf', Hl in Hle.
    split_and!; [done|lia| |unfold free_pages, PAGE_SIZE in *; dlia| |done].
    2: { unfold free_pages. cbn [with_ram vm_ram]. rewrite Hl, Hf'. unfold PAGE_SIZE. dlia. }
    unfold grown, mach_ok. cbn [with_ram vm_ram kmem tlb]. rewrite Hl, Hf'. split_and!; try done. unfold PAGE_SIZE. lia.
Qed.

Lemma as_ok_mono a lim lim' : as_ok a lim -> lim <= lim' -> as_ok a lim'.
Proof.
  intros [? ? (? & ? & ?) (? & ? & ?) (? & ? & ?)] Hl.
  split; try done; unfold frames_ok; split_and!; done || lia.
Qed.
Lemma loaded_ok a f lim :
  region_ok (as_vbase1 a) (as_npages1 a) -> region_ok (as_vbase2 a) (as_npages2 a) ->
  0 < f -> f mod PAGE_SIZE = 0 -> f + total_pages a * PAGE_SIZE <= lim ->
  as_ok (loaded a f) lim.
Proof.
  intros H1 H2 Hf Ha Hl. pose proof H1 as (_ & _ & Hn1 & _). pose proof H2 as (_ & _ & Hn2 & _).
  unfold total_pages, DUMBVM_STACKPAGES, PAGE_SIZE in *.
  split; cbn [loaded as_vbase1 as_npages1 as_vbase2 as_npages2 as_pbase1 as_pbase2 as_stackpbase];
    try done; unfold frames_ok, DUMBVM_STACKPAGES, PAGE_SIZE; split_and!; dlia.
Qed.
Lemma own_loaded a f q :
  0 <= as_npages1 a -> 0 <= as_npages2 a ->
  own (loaded a f) q = in_region q f (total_pages a).
Proof.
  intros. unfold own, total_pages, DUMBVM_STACKPAGES. rewrite !in_region_spec.
  cbn [loaded as_pbase1 as_npages1 as_pbase2 as_npages2 as_stackpbase]. unfold PAGE_SIZE.
  repeat case_bool_decide; cbn [orb]; done || lia.
Qed.

Definition unloaded (a : addrspace) : Prop :=
  as_pbase1 a = 0 /\ as_pbase2 a = 0 /\ as_stackpbase a = 0.

Lemma zero_regions a s :
  mach_ok s -> as_ok a (lastpaddr (vm_ram s)) ->
  exists m, (as_zero_region (as_pbase1 a) (as_npages1 a) ≫= fun _ =>
             as_zero_region (as_pbase2 a) (as_npages2 a) ≫= fun _ =>
             as_zero_region (as_stackpbase a) DUMBVM_STACKPAGES ≫= fun _ =>
             mret (0, a)) s = Done ((0, a), with_kmem m s) /\
    mach_ok (with_kmem m s) /\
    forall q, phys (with_kmem m s) q = if own a q then Some 0 else phys s q.
Proof.
  intros Hs [(_ & _ & ? & _) (_ & _ & ? & _) Hf1 Hf2 Hf3].
  destruct (as_zero_region_spec s _ _ Hs Hf1) as (m1 & R1 & Hs1 & P1); [lia|].
  destruct (as_zero_region_spec _ _ _ Hs1 Hf2) as (m2 & R2 & Hs2 & P2); [lia|].
  destruct (as_zero_region_spec _ _ _ Hs2 Hf3) as (m3 & R3 & Hs3 & P3); [done|].
  exists m3. rewrite (bind_Done _ _ _ _ _ R1), (bind_Done _ _ _ _ _ R2), (bind_Done _ _ _ _ _ R3).
  split; [done|]. split; [done|]. intros q. rewrite P3, P2, P1. unfold own.
  by repeat destruct (in_region q _ _).
Qed.

Lemma as_prepare_load_spec a s :
  mach_ok s -> unloaded a ->
  region_ok (as_vbase1 a) (as_npages1 a) -> region_ok (as_vbase2 a) (as_npages2 a) ->
  exists e a' s', as_prepare_load a s = Done ((e, a'), s') /\ grown s s' /\
    (e =? 0, free_pages s')
    = grab3 (as_npages1 a) (as_npages2 a) DUMBVM_STACKPAGES (free_pages s) /\
    ((e = ENOMEM /\ kmem s' = kmem s) \/
     (e = 0 /\ a' = loaded a (firstpaddr (vm_ram s)) /\ as_ok a' (firstpaddr (vm_ram s')) /\
      firstpaddr (vm_ram s') = firstpaddr (vm_ram s) + total_pages a * PAGE_SIZE /\
      forall q, phys s' q = if own a' q then Some 0 else phys s q)).
Proof.
  intros Hs (E1 & E2 & E3) H1 H2. pose proof H1 as (? & _ & Hn1 & Ht1).
  pose proof H2 as (? & _ & Hn2 & Ht2). unfold MIPS_KSEG0 in Ht1, Ht2.
  assert (as_npages1 a < 2 ^ 19 /\ as_npages2 a < 2 ^ 19) as [? ?] by (unfold PAGE_SIZE in *; lia).
  set (f := firstpaddr (vm_ram s)). pose proof Hs as [(Hf & Hfa & _) _].
  unfold grab3. unfold as_prepare_load, kassert. rewrite E1, E2, E3. cbn [Z.eqb].
  rewrite !(bind_Done (mret tt) _ _ tt s) by done.
  destruct (m_getppages_spec (as_npages1 a) s) as [[R1 Hq1]|(r1 & R1 & Hz1 & Hg1 & Hq1 & Hu1 & Hf1)]; [done|lia|..];
    rewrite (bind_Done _ _ _ _ _ R1).
  { eexists _, _, _. split; [done|]. split; [by apply grown_refl|]. split; [|by left].
    by rewrite (proj2 (Z.ltb_lt _ _)). }
  rewrite (proj2 (Z.eqb_neq _ 0)) by done. cbn [set_pbase1 as_npages2].
  rewrite (proj2 (Z.ltb_ge (free_pages s) _)) by done.
  pose proof Hg1 as [Hs1 _].
  destruct (m_getppages_spec (as_npages2 a) _ Hs1) as [[R2 Hq2]|(r2 & R2 & Hz2 & Hg2 & Hq2 & Hu2 & Hf2)]; [lia|..];
    rewrite (bind_Done _ _ _ _ _ R2).
  { eexists _, _, _. split; [done|]. split; [done|]. split; [|by left].
    rewrite <- Hu1. by rewrite (proj2 (Z.ltb_lt (free_pages _) (as_npages2 a))). }
  rewrite (proj2 (Z.eqb_neq _ 0)) by done. rewrite Hu1 in Hq2, Hu2.
  rewrite (proj2 (Z.ltb_ge (free_pages s - _) _)) by done. pose proof Hg2 as [Hs2 _].
  pose proof (grown_trans _ _ _ Hg1 Hg2) as Hg12.
  destruct (m_getppages_spec DUMBVM_STACKPAGES _ Hs2) as [[R3 Hq3]|(r3 & R3 & Hz3 & Hg3 & Hq3 & Hu3 & Hf3)]; [done|..];
    rewrite (bind_Done _ _ _ _ _ R3).
  { eexists _, _, _. split; [done|]. split; [done|]. split; [|by left].
    rewrite <- Hu2. by rewrite (proj2 (Z.ltb_lt (free_pages _) DUMBVM_STACKPAGES)). }
  rewrite (proj2 (Z.eqb_neq _ 0)) by done. rewrite Hu2 in Hq3, Hu3.
  rewrite (proj2 (Z.ltb_ge (free_pages s - _ - _) _)) by done. pose proof Hg3 as [Hs3 _].
  pose proof (grown_trans _ _ _ Hg12 Hg3) as Hg13.
  cbn [with_ram vm_ram] in *. rewrite Hf1 in Hf2. rewrite Hf2 in Hf3. rewrite Hf1, Hf2.
  fold f in Hf1, Hf2, Hf3, Hf, Hfa |- *. change (set_stackpbase _ _) with (loaded a f).
  assert (Ef : firstpaddr r3 = f + total_pages a * PAGE_SIZE) by (unfold total_pages; lia).
  assert (Hok : as_ok (loaded a f) (firstpaddr r3)) by (apply loaded_ok; done || lia).
  destruct (zero_regions (loaded a f) _ Hs3) as (m & R & Hm & Hp).
  { apply (as_ok_mono _ _ _ Hok). cbn [with_ram vm_ram]. by destruct Hs3 as [(_ & _ & ? & _) _]. }
  eexists 0, (loaded a f), _. split; [exact R|]. split.
  - destruct Hg13 as (_ & ? & ? & ?). by split_and!.
  - split; [by rewrite <- Hu3|]. right. split_and!; done.
Qed.

Lemma translate_below a lim v p : as_ok a lim -> translate a v = Some p -> p < lim.
Proof.
  intros [_ _ (_ & _ & ?) (_ & _ & ?) (_ & _ & ?)]. unfold translate. rewrite !in_region_spec.
  unfold PAGE_SIZE, DUMBVM_STACKPAGES in *. repeat case_bool_decide; intros [= <-]; lia.
Qed.

Lemma own_below a lim q : as_ok a lim -> own a q = true -> q < lim.
Proof.
  intros [_ _ (_ & _ & ?) (_ & _ & ?) (_ & _ & ?)]. unfold own. rewrite !in_region_spec.
  unfold PAGE_SIZE, DUMBVM_STACKPAGES in *. repeat case_bool_decide; cbn [orb]; done || lia.
Qed.
Lemma translate_loaded a f v :
  translate (loaded a f) v
  = if in_region v (as_vbase1 a) (as_npages1 a) then Some (v - as_vbase1 a + f)
    else if in_region v (as_vbase2 a) (as_npages2 a)
    then Some (v - as_vbase2 a + (f + as_npages1 a * PAGE_SIZE))
    else if in_region v stackbase DUMBVM_STACKPAGES
    then Some (v - stackbase + (f + as_npages1 a * PAGE_SIZE + as_npages2 a * PAGE_SIZE))
    else None.
Proof. done. Qed.

Lemma copy_regions old f s :
  mach_ok s -> as_ok old f -> as_ok (loaded old f) (lastpaddr (vm_ram s)) ->
  exists m,
    (kmemmove f (as_pbase1 old) (u32 (as_npages1 old * PAGE_SIZE)) ≫= fun _ =>
     kmemmove (as_pbase2 (loaded old f)) (as_pbase2 old) (u32 (as_npages2 old * PAGE_SIZE))
       ≫= fun _ =>
     kmemmove (as_stackpbase (loaded old f)) (as_stackpbase old) (DUMBVM_STACKPAGES * PAGE_SIZE)
       ≫= fun _ =>
     mret (Ok (loaded old f))) s = Done (Ok (loaded old f), with_kmem m s) /\
    mach_ok (with_kmem m s) /\
    (forall q, q < f -> phys (with_kmem m s) q = phys s q) /\
    (forall v p p', translate old v = Some p -> translate (loaded old f) v = Some p' ->
       phys (with_kmem m s) p' = phys s p).
Proof.
  intros Hs [(_ & _ & Hn1 & _) (_ & _ & Hn2 & _) Ho1 Ho2 Ho3] [_ _ Hf1 Hf2 Hf3].
  cbn [loaded as_pbase1 as_npages1 as_pbase2 as_npages2 as_stackpbase] in *.
  assert (Hlift : forall p n, frames_ok p n f -> frames_ok p n (lastpaddr (vm_ram s))).
  { intros p n (? & ? & ?). destruct Hf1 as (? & ? & ?). unfold frames_ok, PAGE_SIZE in *.
    split_and!; done || lia. }
  destruct (kmemmove_spec s _ _ _ Hs Hf1 (Hlift _ _ Ho1)) as (m1 & R1 & Hs1 & P1); [lia|].
  destruct (kmemmove_spec _ _ _ _ Hs1 Hf2 (Hlift _ _ Ho2)) as (m2 & R2 & Hs2 & P2); [lia|].
  destruct (kmemmove_spec _ _ _ _ Hs2 Hf3 (Hlift _ _ Ho3)) as (m3 & R3 & Hs3 & P3); [done|].
  exists m3. rewrite (bind_Done _ _ _ _ _ R1), (bind_Done _ _ _ _ _ R2).
  rewrite (bind_Done _ _ _ _ _ R3). split; [done|]. split; [done|].
  destruct Ho1 as (? & _ & ?), Ho2 as (? & _ & ?), Ho3 as (? & _ & ?).
  unfold PAGE_SIZE, DUMBVM_STACKPAGES in *.
  split.
  - intros q Hq. rewrite !P3, !P2, !P1, !in_region_spec. unfold PAGE_SIZE.
    repeat (case_bool_decide; try lia). done.
  - intros v p p'. rewrite translate_loaded. unfold translate, DUMBVM_STACKPAGES.
    rewrite !(in_region_spec v). unfold PAGE_SIZE in *. clear R1 R2 R3.
    repeat case_bool_decide; intros [= <-] [= <-];
      rewrite !P3, !P2, !P1, !in_region_spec; unfold PAGE_SIZE;
      repeat (case_bool_decide; try lia); f_equal; lia.
Qed.

Definition is_ok {A} (r : result A) : bool := match r with Ok _ => true | Err _ => false end.
Lemma as_copy_spec alloc_ok old s :
  mach_ok s -> as_ok old (firstpaddr (vm_ram s)) ->
  exists res s', as_copy alloc_ok old s = Done (res, s') /\ grown s s' /\
    (is_ok res, free_pages s')
    = (if alloc_ok then grab3 (as_npages1 old) (as_npages2 old) DUMBVM_STACKPAGES (free_pages s)
       else (false, free_pages s)) /\
    (forall q, q < firstpaddr (vm_ram s) -> phys s' q = phys s q) /\
    match res with
    | Err e => e = ENOMEM
    | Ok new =>
        new = loaded old (firstpaddr (vm_ram s)) /\ as_ok new (firstpaddr (vm_ram s')) /\
        (forall v, match translate old v, translate new v with
                   | Some p, Some p' => phys s' p' = phys s p
                   | None, None => True
                   | _, _ => False
                   end)
    end.
Proof.
  intros Hs Hold. unfold as_copy. destruct alloc_ok; cbn [as_create].
  2: { eexists _, s. split; [done|]. split; [by apply grown_refl|done]. }
  set (f := firstpaddr (vm_ram s)) in *. pose proof Hold as [Hr1 Hr2 _ _ _].
  destruct (as_prepare_load_spec (AddrSpace (as_vbase1 old) 0 (as_npages1 old)
    (as_vbase2 old) 0 (as_npages2 old) 0) s) as (e & a' & s1 & R & Hg & Hfree & Hcase); [done..|].
  cbn [as_pbase1 as_pbase2 as_stackpbase as_npages1 as_npages2] in *.
  rewrite <- Hfree. rewrite (bind_Done _ _ _ _ _ R).
  destruct Hcase as [[-> Ek]|(-> & -> & Hok & Ef & Hp)]; cbn [negb Z.eqb ENOMEM Pos.eqb].
  { eexists _, s1. split; [done|]. split; [done|]. split; [done|]. split; [|done]. intros q _. unfold phys.
    by rewrite Ek. }
  fold f in Hok, Ef, Hp |- *. pose proof Hg as (Hs1 & Ht & Hl & Hle).
  change (loaded _ f) with (loaded old f) in *.
  assert (Hf : 0 < f) by by destruct Hs as [(? & _) _].
  pose proof Hr1 as (_ & _ & ? & _). pose proof Hr2 as (_ & _ & ? & _).
  unfold kassert.
  rewrite !(proj2 (Z.eqb_neq _ 0)) by (cbn [loaded as_pbase1 as_pbase2 as_stackpbase];
    unfold PAGE_SIZE; lia). cbn [negb].
  rewrite !(bind_Done (mret tt) _ _ tt s1) by done.
  destruct (copy_regions old f s1 Hs1 Hold) as (m & Rc & Hm & Hlow & Htr).
  { apply (as_ok_mono _ _ _ Hok). by destruct Hs1 as [(_ & _ & ? & _) _]. }
  assert (Hown : forall q, own (loaded old f) q = true -> f <= q).
  { intros q. rewrite own_loaded by lia. unfold in_region.
    by intros [?%Z.leb_le _]%andb_true_iff. }
  assert (Hkeep : forall q, q < f -> phys s1 q = phys s q).
  { intros q Hq. rewrite Hp. destruct (own (loaded old f) q) eqn:Eq; [|done].
    apply Hown in Eq. lia. }
  eexists _, _. split; [exact Rc|]. split; [by split_and!|]. split; [done|].
  split; [intros q Hq; by rewrite Hlow, Hkeep|]. split; [done|]. split; [exact Hok|].
  intros v. pose proof (Htr v) as Hv. destruct (translate old v) as [p|] eqn:Ep;
    destruct (translate (loaded old f) v) as [p'|] eqn:Ep'.
  - rewrite (Hv p p') by done. apply Hkeep. eapply translate_below; [exact Hold|exact Ep].
  - revert Ep Ep'. rewrite translate_loaded. unfold translate. by repeat destruct (in_region v _ _).
  - revert Ep Ep'. rewrite translate_loaded. unfold translate. by repeat destruct (in_region v _ _).
  - done.
Qed.

(** ** Defining the regions *)
Definition page_count (vaddr sz : Z) : Z := (vaddr mod PAGE_SIZE + sz + PAGE_SIZE - 1) / PAGE_SIZE.
(** A segment of user memory above the first page. *)
Definition segment_ok (vaddr sz : Z) : Prop :=
  PAGE_SIZE <= vaddr /\ 0 < sz /\ vaddr + sz <= MIPS_KSEG0.

Lemma segment_region vaddr sz :
  segment_ok vaddr sz -> region_ok (vaddr - vaddr mod PAGE_SIZE) (page_count vaddr sz).
Proof.
  unfold segment_ok, region_ok, page_count, MIPS_KSEG0, PAGE_SIZE. intros (? & ? & ?).
  split_and!; dlia.
Qed.
Lemma as_define_region_spec a vaddr sz :
  segment_ok vaddr sz ->
  as_define_region a vaddr sz
  = let v := vaddr - vaddr mod PAGE_SIZE in
    let n := page_count vaddr sz in
    if as_vbase1 a =? 0 then
      (0, AddrSpace v (as_pbase1 a) n (as_vbase2 a) (as_pbase2 a) (as_npages2 a) (as_stackpbase a))
    else if as_vbase2 a =? 0 then
      (0, AddrSpace (as_vbase1 a) (as_pbase1 a) (as_npages1 a) v (as_pbase2 a) n (as_stackpbase a))
    else (EUNIMP, a).
Proof.
  unfold segment_ok, MIPS_KSEG0, PAGE_SIZE. intros (Hv & Hsz & Hend). unfold as_define_region.
  assert (E1 : Z.land vaddr (u32 (Z.lnot PAGE_FRAME)) = vaddr mod PAGE_SIZE).
  { change (u32 (Z.lnot PAGE_FRAME)) with (Z.ones 12). by rewrite Z.land_ones. }
  assert (0 <= vaddr mod PAGE_SIZE < 4096) by (unfold PAGE_SIZE; dlia).
  rewrite E1, land_frame by lia. rewrite (uwrap_small 32 (sz + _)) by lia.
  rewrite (uwrap_small 32) by (unfold PAGE_SIZE in *; lia).
  rewrite land_frame by (unfold PAGE_SIZE in *; lia).
  replace ((sz + vaddr mod PAGE_SIZE + PAGE_SIZE - 1 -
    (sz + vaddr mod PAGE_SIZE + PAGE_SIZE - 1) mod PAGE_SIZE) / PAGE_SIZE)
    with (page_count vaddr sz); [done|].
  unfold page_count. replace (vaddr mod PAGE_SIZE + sz) with (sz + vaddr mod PAGE_SIZE) by lia.
  unfold PAGE_SIZE. dlia.
Qed.

(** Distinct user addresses of a loaded space are distinct in memory. *)
Lemma loaded_inj a f v v' p :
  0 <= as_npages1 a -> 0 <= as_npages2 a ->
  translate (loaded a f) v = Some p -> translate (loaded a f) v' = Some p -> v = v'.
Proof.
  intros ? ?. rewrite !translate_loaded, !in_region_spec. unfold PAGE_SIZE, DUMBVM_STACKPAGES.
  repeat case_bool_decide; intros [= <-] [= ?]; lia.
Qed.
