(* ===== verification/HeapSpec.v ===== *)
(** The contract of the kernel heap, and that kmalloc.c keeps it

    An abstract heap is a map of the blocks in use, with their sizes, and a map
    of the words the client wrote into them.  [heap_refines] is the
    refinement: whatever a client does that only frees blocks it holds and
    only touches words inside them, the calls come back, their results are
    results of the abstract heap, what is read is what was written, and a
    request fails only for a reason.  The other theorems are about single calls and about requests near 4 GB. *)
From S2P Require Import Prelude Kmalloc Kheap Dumbvm.

(** ** The abstract heap *)
Record aheap := AHeap { ablocks : gmap Z Z; awords : gmap Z Z }.

Inductive kop :=
  | KAlloc (sz : Z)
  | KFree (a : Z)
  | KWrite (a off v : Z)
  | KRead (a off : Z).

(** The word at [off] of the block at [a]. *)
Definition in_block (A : aheap) (a off : Z) : Prop :=
  exists z, ablocks A !! a = Some z /\ 0 <= off < z.
(** What a client may do. *)
Definition legal (A : aheap) (op : kop) : Prop :=
  match op with
  | KAlloc sz => 0 <= sz <= 2 ^ 31 - PAGE_SIZE
  | KFree a => a = 0 \/ is_Some (ablocks A !! a)
  | KWrite a off _ | KRead a off => in_block A a off
  end.
(** And what it may see. *)
Inductive astep (A : aheap) : kop -> Z -> aheap -> Prop :=
  | astep_fail sz : astep A (KAlloc sz) 0 A
  | astep_alloc sz a z :
      0 < a -> a mod 16 = 0 -> sz <= z ->
      (forall b y, ablocks A !! b = Some y -> a + z <= b \/ b + y <= a) ->
      astep A (KAlloc sz) a (AHeap (<[a := z]> (ablocks A)) (awords A))
  | astep_free_null : astep A (KFree 0) 0 A
  | astep_free a z :
      ablocks A !! a = Some z ->
      astep A (KFree a) 0 (AHeap (delete a (ablocks A))
        (filter (fun '(w, _) => ~ (a <= w < a + z)) (awords A)))
  | astep_write a off v :
      astep A (KWrite a off v) 0 (AHeap (ablocks A) (<[a + off := v]> (awords A)))
  | astep_read a off v :
      (forall x, awords A !! (a + off) = Some x -> v = x) ->
      astep A (KRead a off) v A.

Section refinement.
Context {P : Type} `{!PageProvider P}.

Definition exec (op : kop) : M (kheap P) Z :=
  match op with
  | KAlloc sz => kmalloc sz
  | KFree a => kfree a ≫= fun _ => mret 0
  | KWrite a off v => store (a + off) v ≫= fun _ => mret 0
  | KRead a off => load (a + off)
  end.

(** The heap [s] implements the abstract heap [A]. *)
Definition heap_rel (s : kheap P) (A : aheap) : Prop :=
  exists ps R, heap_ok s ps R /\
    (forall a z, ablocks A !! a = Some z <-> live ps R a z) /\
    (forall w v, awords A !! w = Some v ->
       mem s !!! w = v /\ exists a z, live ps R a z /\ a <= w < a + z).

Lemma heap_init_rel p : owns p ∅ -> heap_rel (kheap_init p) (AHeap ∅ ∅).
Proof.
  intros Ho. exists [], ∅. split; [split|split].
  - split; cbn; try done; try constructor.
    intros t Ht. unfold NSIZES in *. do 8 (destruct t as [|t]; [done|]). lia.
  - split_and!; [done|by repeat constructor|].
    intros i Hi. rewrite bool_decide_false by apply not_elem_of_nil.
    cbn [pagerefs_inuse kheap_init]. rewrite nth_lookup.
    destruct (replicate INUSE_WORDS 0 !! (i / 32)%nat) as [x|] eqn:E; [|apply Z.bits_0].
    apply lookup_replicate in E as [-> _]. apply Z.bits_0.
  - constructor.
  - intros a z. cbn. split; [by intros ?%lookup_empty_Some|].
    intros [(pg & Hpg & _)|(n & HR & _)]; [by apply not_elem_of_nil in Hpg|done].
  - intros w v E. cbn in E. by apply lookup_empty_Some in E.
Qed.

Lemma alloc_sim s A sz :
  heap_rel s A -> 0 <= sz <= 2 ^ 31 - PAGE_SIZE ->
  exists r s' A', kmalloc sz s = Done (r, s') /\ astep A (KAlloc sz) r A' /\ heap_rel s' A'.
Proof.
  intros (ps & R & Hok & Hb & Hw) Hsz.
  destruct (kmalloc_spec s ps R sz Hok Hsz) as (a & s' & ps' & R' & E & Hok' & Hsame & Hcase).
  exists a, s'. destruct Hcase as [(-> & _ & Hl)|(z & Hz & Hnew & Hl)].
  - exists A. split_and!; [done|constructor|]. exists ps', R'. split_and!; [done|..].
    + intros b y. by rewrite Hl.
    + intros w v E'. destruct (Hw w v E') as [Hm (b & y & Hby & Hr)].
      split; [by rewrite (Hsame b y)|]. exists b, y. by rewrite Hl.
  - exists (AHeap (<[a := z]> (ablocks A)) (awords A)).
    assert (Hla : live ps' R' a z) by (apply Hl; by right).
    destruct (live_run _ _ _ (ho_core _ _ _ Hok') a z Hla)
      as (r & n & HR & ? & ? & ? & Ha16 & _ & _).
    destruct (owns_run _ _ _ _ (hc_owns _ _ _ (ho_core _ _ _ Hok')) HR) as [Hk _ _ _].
    unfold MIPS_KSEG0 in Hk. split_and!; [done|apply astep_alloc; try done; [lia|]|].
    + intros b y Hby%Hb. assert (Hby' : live ps' R' b y) by (apply Hl; by left).
      destruct (live_disjoint _ _ _ (ho_core _ _ _ Hok') a z b y Hla Hby') as [[-> ->]|]; [|done].
      by destruct (Hnew y).
    + exists ps', R'. split_and!; [done|..].
      * intros b y. cbn. rewrite Hl, <- Hb. split.
        -- intros [[<- <-]|[? ?]]%lookup_insert_Some; [by right|by left].
        -- intros [Hby|[-> ->]]; [|by rewrite lookup_insert_eq].
           rewrite lookup_insert_ne; [done|]. intros ->. by eapply Hnew, Hb.
      * intros w v E'. destruct (Hw w v E') as [Hm (b & y & Hby & Hr)].
        split; [by rewrite (Hsame b y)|]. exists b, y. split; [apply Hl; by left|done].
Qed.

Lemma free_sim s A a z :
  heap_rel s A -> ablocks A !! a = Some z ->
  exists s', kfree a s = Done (tt, s') /\
    heap_rel s' (AHeap (delete a (ablocks A))
      (filter (fun '(w, _) => ~ (a <= w < a + z)) (awords A))).
Proof.
  intros (ps & R & Hok & Hb & Hw) Ha. pose proof (proj1 (Hb _ _) Ha) as Hla.
  destruct (kfree_spec s ps R a z Hok Hla) as (s' & ps' & R' & E & Hok' & Hl & Hm).
  exists s'. split; [done|]. exists ps', R'. split_and!; [done|..]; cbn.
  - intros b y. rewrite Hl, <- Hb, lookup_delete_Some. naive_solver.
  - intros w v [E' Hn]%map_lookup_filter_Some. destruct (Hw w v E') as [Hmw (b & y & Hby & Hr)].
    assert (Hne : b <> a).
    { intros ->. destruct (live_run _ _ _ (ho_core _ _ _ Hok) a z Hla) as (_ & _ & _ & _ & _ & Hz & _).
      destruct (live_disjoint _ _ _ (ho_core _ _ _ Hok) a z a y Hla Hby)
        as [[_ <-]|]; [done|lia]. }
    split; [by rewrite (Hm b y)|]. exists b, y. split; [by apply Hl|done].
Qed.

(** A word of a block in use is not the first word of a free block. *)
Lemma live_not_free s ps R pg a b y w :
  heap_core s ps R -> pg ∈ ps -> a ∈ pg_free pg -> live ps R b y -> b <= w < b + y -> a <> w.
Proof.
  intros Hc Hpg Ha Hl Hw <-. pose proof (core_page _ _ _ _ Hc Hpg) as Hok.
  pose proof (proj1 (Forall_forall _ _) (po_blocks _ _ Hok) a Ha) as Hba.
  destruct (live_run _ _ _ Hc b y Hl) as (r & n & HR & ? & ? & ? & _ & _ & Hcase).
  pose proof (page_run _ _ _ Hc pg Hpg) as HRp.
  destruct (page_sizes s pg Hok) as (Hz & _).
  assert (r = pg_addr pg) as ->.
  { destruct (decide (r = pg_addr pg)) as [|Hne]; [done|]. destruct Hba as [Hr _].
    destruct (owns_disjoint _ _ _ _ _ _ (hc_owns _ _ _ Hc) HR HRp Hne); lia. }
  destruct Hcase as [(q & Hq & E & Hbb & Hf & ->)|(_ & Hn & _)].
  - assert (q = pg) as -> by (by eapply addr_inj).
    destruct (decide (a = b)) as [->|Hne]; [done|].
    destruct (blocks_disjoint _ _ _ Hc pg a b Hpg Hba Hbb Hne); lia.
  - by apply Hn, list_elem_of_fmap_2.
Qed.

Lemma write_sim s A a off v :
  heap_rel s A -> in_block A a off ->
  heap_rel (with_mem <[a + off := v]> s) (AHeap (ablocks A) (<[a + off := v]> (awords A))).
Proof.
  intros (ps & R & [Hc Hi Hu] & Hb & Hw) (z & Ha & Hoff). pose proof (proj1 (Hb _ _) Ha) as Hla.
  exists ps, R. split_and!; [split; [|done|done]|done|]; cbn.
  - pose proof Hc as Hc0. destruct Hc as [Hc1 Hc2 Hc3 Hc4 Hc5 Hc6 Hc7 Hc8]; split; try done.
    apply Forall_forall. intros pg Hpg. pose proof (proj1 (Forall_forall _ _) Hc5 pg Hpg) as Hok.
    destruct Hok as [K1 K2 K3 K4 K5 K6 K7 K8 K9]. split; try done.
    apply (fchain_ext (mem s)); [|done]. intros x Hx. cbn.
    rewrite lookup_total_insert_ne; [done|]. intros E.
    exact (live_not_free s ps R pg x a z (a + off) Hc0 Hpg Hx Hla ltac:(lia) (eq_sym E)).
  - intros w x [[<- <-]|[Hne E]]%lookup_insert_Some.
    + rewrite lookup_total_insert_eq. split; [done|]. exists a, z. split; [done|lia].
    + rewrite lookup_total_insert_ne by done. by apply Hw.
Qed.

(** One call: it comes back, with a result the contract allows. *)
Lemma step_sim s A op :
  heap_rel s A -> legal A op ->
  exists r s' A', exec op s = Done (r, s') /\ astep A op r A' /\ heap_rel s' A'.
Proof.
  intros Hrel Hleg. destruct op as [sz|a|a off v|a off]; cbn [legal exec] in *.
  - by apply alloc_sim.
  - destruct Hleg as [->|[z Ha]].
    + exists 0, s, A. split_and!; [done|constructor|done].
    + destruct (free_sim s A a z Hrel Ha) as (s' & E & Hr).
      exists 0, s'. eexists. split_and!; [by rewrite (bind_Done _ _ _ _ _ E)|by constructor|done].
  - eexists 0, _, _. split_and!; [reflexivity|constructor|by apply write_sim].
  - eexists _, s, A. split_and!; [reflexivity|constructor|done].
    intros x Hx. destruct Hrel as (ps & R & _ & _ & Hw). by destruct (Hw _ _ Hx).
Qed.

(** Every page of small blocks has one in use, so there are as many blocks. *)
Lemma pages_blocks s ps R A :
  heap_ok s ps R -> (forall a z, ablocks A !! a = Some z <-> live ps R a z) ->
  (length ps <= size (ablocks A))%nat.
Proof.
  intros [Hc _ Hu] Hb.
  assert (exists l, Forall2 (fun pg a => block_of pg a /\ a ∉ pg_free pg) ps l) as [l Hl].
  { pose proof (hc_pages _ _ _ Hc) as Hp. clear - Hp Hu. induction Hu as [|pg ps Hpg Hu IH]; [by exists []|].
    apply Forall_cons in Hp as [Hp1 Hp]. destruct (IH Hp) as [l Hl], (used_block s pg Hp1 Hpg) as [a Ha].
    exists (a :: l). by constructor. }
  rewrite (Forall2_length _ _ _ Hl), <- size_dom. unfold size, set_size. cbn.
  apply submseteq_length, NoDup_submseteq.
  - apply NoDup_alt. intros i j a Hi Hj.
    destruct (Forall2_lookup_r _ _ _ _ _ Hl Hi) as (pg & Hpi & [Hbi _] & _).
    destruct (Forall2_lookup_r _ _ _ _ _ Hl Hj) as (q & Hqj & [Hbj _] & _).
    destruct (decide (pg_addr pg = pg_addr q)) as [E|E].
    + eapply (NoDup_lookup _ i j (pg_addr pg) (hc_addr _ _ _ Hc)); rewrite list_lookup_fmap; [by rewrite Hpi|by rewrite Hqj, E].
    + pose proof (pages_disjoint _ _ _ pg q Hc ltac:(by eapply list_elem_of_lookup_2) ltac:(by eapply list_elem_of_lookup_2) E). lia.
  - intros a [i Hi]%list_elem_of_lookup. apply elem_of_elements, elem_of_dom.
    destruct (Forall2_lookup_r _ _ _ _ _ Hl Hi) as (pg & Hpi & Hba & Hf).
    exists (pg_size pg). apply Hb. left. exists pg. split_and!; try done. by eapply list_elem_of_lookup_2.
Qed.
(** A request fails only for want of pages, or when every entry of the table
    describes a page with a block in use. *)
Lemma alloc_succeeds s A sz :
  heap_rel s A -> 0 <= sz <= 2 ^ 31 - PAGE_SIZE ->
  exists a s', kmalloc sz s = Done (a, s') /\
    (a = 0 -> (alloc_kpages (pages_for sz) (pages s)).1 = 0 \/
              (sz < 2048 /\ (NPAGEREFS <= size (ablocks A))%nat)).
Proof.
  intros (ps & R & Hok & Hb & _) Hsz.
  destruct (kmalloc_spec s ps R sz Hok Hsz) as (a & s' & ps' & R' & E & Hok' & _ & Hcase).
  exists a, s'. split; [done|]. intros ->. destruct Hcase as [(_ & [?|[? Hl]] & _)|(z & _ & _ & Hl)].
  - by left.
  - right. rewrite <- Hl. split; [done|]. by eapply pages_blocks.
  - assert (Hla : live ps' R' 0 z) by (apply Hl; by right).
    destruct (live_run _ _ _ (ho_core _ _ _ Hok') 0 z Hla) as (r & n & HR & ? & _).
    destruct (owns_run _ _ _ _ (hc_owns _ _ _ (ho_core _ _ _ Hok')) HR) as [Hk _ _ _].
    unfold MIPS_KSEG0 in Hk. lia.
Qed.

(** ** Clients

    A client chooses each call from the calls it made and their results. *)
Abbreviation history := (list (kop * Z)).
Fixpoint crun (next : history -> kop) (n : nat) (h : history) (s : kheap P)
    : outcome (history * kheap P) :=
  match n with
  | O => Done (h, s)
  | S n' =>
      '(r, s') ← exec (next h) s;
      crun next n' (h ++ [(next h, r)]) s'
  end.
End refinement.
Arguments heap_rel {P _} s A.

(** A history of the abstract heap, with the calls [next] chooses. *)
Inductive ahistory (next : list (kop * Z) -> kop) : list (kop * Z) -> aheap -> Prop :=
  | ahistory_nil : ahistory next [] (AHeap ∅ ∅)
  | ahistory_snoc h A r A' :
      ahistory next h A -> astep A (next h) r A' ->
      ahistory next (h ++ [(next h, r)]) A'.
(** The client keeps its side of the contract. *)
Definition well_behaved (next : list (kop * Z) -> kop) : Prop :=
  forall h A, ahistory next h A -> legal A (next h).

Lemma crun_sim {P} `{!PageProvider P} next n : forall h (s : kheap P) A,
  well_behaved next -> ahistory next h A -> heap_rel s A ->
  exists h' s' A', crun next n h s = Done (h', s') /\ ahistory next h' A' /\ heap_rel s' A' /\
    length h' = (length h + n)%nat.
Proof.
  induction n as [|n IH]; intros h s A Hnext Hh Hrel; cbn [crun].
  { exists h, s, A. by rewrite Nat.add_0_r. }
  destruct (step_sim s A (next h) Hrel (Hnext h A Hh)) as (r & s' & A' & -> & Hst & Hrel').
  cbn [mbind outcome_bind].
  destruct (IH (h ++ [(next h, r)]) s' A' Hnext) as (h' & s2 & A2 & E & ? & ? & Hl); [|done|].
  - by econstructor.
  - exists h', s2, A2. split_and!; try done. rewrite Hl, length_app. cbn. lia.
Qed.

(** ** A client, and a small machine *)
Definition demo_client (h : list (kop * Z)) : kop :=
  match h with
  | [] => KAlloc 100
  | (_, r) :: rest =>
      if r =? 0 then KAlloc 0
      else match rest with
           | [] => KWrite r 4 7
           | [_] => KRead r 4
           | [_; _] => KFree r
           | _ => KAlloc 0
           end
  end.
Definition demo_ram : ram := Ram 0x100000 0x400000.

Lemma demo_owns : owns demo_ram ∅.
Proof. split; [vm_compute; intuition congruence|]. split; intros; by simplify_map_eq. Qed.

Lemma demo_well_behaved : well_behaved demo_client.
Proof.
  assert (Hinv : forall h A, ahistory demo_client h A ->
    match h with
    | [] => True
    | (_, r) :: rest => r = 0 \/ ((length rest <= 2)%nat ->
                          exists z, ablocks A !! r = Some z /\ 100 <= z)
    end).
  { intros h A Hh. induction Hh as [|h A r A' Hh IH Hst]; [done|].
    destruct h as [|[o r0] rest]; cbn [app].
    - cbn in Hst. inversion Hst; subst; [by left|right]. intros _. cbn.
      eexists. by rewrite lookup_insert_eq.
    - destruct IH as [->|IH]; [by left|right]. rewrite length_app. cbn [length]. intros Hl.
      destruct (IH ltac:(lia)) as (z & Hz & H100).
      cbn [demo_client] in Hst. destruct (Z.eqb_spec r0 0) as [->|].
      { inversion Hst; subst; cbn; eauto.
        match goal with H : forall b y, _ -> _ |- _ => pose proof (H 0 z Hz) as Hd end.
        exists z. split; [|done]. rewrite lookup_insert_ne; [done|lia]. }
      destruct rest as [|[o1 r1] [|]]; cbn in Hl; [| |lia]; inversion Hst; subst; cbn; eauto. }
  intros h A Hh. specialize (Hinv h A Hh). destruct h as [|[o r] rest]; cbn [demo_client].
  { unfold legal, PAGE_SIZE. lia. }
  destruct (Z.eqb_spec r 0); [unfold legal, PAGE_SIZE; lia|].
  destruct Hinv as [|Hinv]; [done|].
  destruct rest as [|? [|? [|]]]; [..|unfold legal, PAGE_SIZE; lia];
    destruct (Hinv ltac:(cbn; lia)) as (z & Hz & ?).
  - exists z. split; [done|lia].
  - exists z. split; [done|lia].
  - right. by exists z.
Qed.

(** C12: The kernel heap implements its contract.  For every page provider that
    keeps its laws, every number of calls and every client that frees only
    blocks it holds and touches only words inside them, all calls of
    [kmalloc] and [kfree] come back without a failed assertion, a new block is
    aligned, large enough and disjoint from every block in use, every word
    read is the word last written there, and the next request fails only if the
    provider has no pages for it or, for a small block, if at least 256 blocks
    are in use. *)
Theorem heap_refines {P} `{!PageProvider P} (p : P) next n :
  owns p ∅ -> well_behaved next ->
  exists h s A, crun next n [] (kheap_init p) = Done (h, s) /\
    length h = n /\ ahistory next h A /\ heap_rel s A /\
    forall sz, 0 <= sz <= 2 ^ 31 - PAGE_SIZE -> exists a s', kmalloc sz s = Done (a, s') /\
      (a = 0 -> (alloc_kpages (pages_for sz) (pages s)).1 = 0 \/
                (sz < 2048 /\ (NPAGEREFS <= size (ablocks A))%nat)).
Proof.
  intros Ho Hnext.
  destruct (crun_sim next n [] (kheap_init p) (AHeap ∅ ∅) Hnext (ahistory_nil next)
    (heap_init_rel p Ho)) as (h & s & A & E & Hh & Hrel & Hl).
  exists h, s, A. repeat (split; [assumption|]). intros sz. by apply alloc_succeeds.
Qed.
Lemma heap_refines_witness :
  exists h s A, crun demo_client 5 [] (kheap_init demo_ram) = Done (h, s) /\
    length h = 5%nat /\ ahistory demo_client h A /\ heap_rel s A.
Proof.
  destruct (heap_refines demo_ram demo_client 5 demo_owns demo_well_behaved) as (h & s & A & H1 & H2 & H3 & H4 & _).
  exists h, s, A. exact (conj H1 (conj H2 (conj H3 H4))).
Defined.

(** After any such sequence of calls the consistency checks that the file
    has for debugging ([checksubpages], compiled in with [SLOWER]) all pass:
    every page of the heap is on the list of its size and on the list of all
    pages, its free list stays inside the page, is aligned, and has as many
    blocks as the page's free count. *)
Theorem heap_checks_pass {P} `{!PageProvider P} (p : P) next n h s :
  owns p ∅ -> well_behaved next ->
  crun next n [] (kheap_init p) = Done (h, s) -> checksubpages s = Done (tt, s).
Proof.
  intros Ho Hnext E.
  destruct (crun_sim next n [] (kheap_init p) (AHeap ∅ ∅) Hnext (ahistory_nil next)
    (heap_init_rel p Ho)) as (h' & s' & A & E' & _ & Hrel & _).
  rewrite E in E'. injection E' as <- <-. destruct Hrel as (ps & R & Hok & _).
  by apply (checksubpages_spec s ps R).
Qed.
Lemma heap_checks_pass_witness :
  exists h s, crun demo_client 2 [] (kheap_init demo_ram) = Done (h, s) /\
    checksubpages s = Done (tt, s).
Proof.
  eexists _, _. split; [vm_compute; reflexivity|].
  eapply (heap_checks_pass demo_ram demo_client 2); [exact demo_owns|exact demo_well_behaved|].
  vm_compute. reflexivity.
Defined.

(** A request close to 4 GB is not refused but succeeds, and memory in use
    is handed out again.  With 3 MB of memory free, [kmalloc(0xfffff000)]
    makes the end of the run in [ram_stealmem] wrap around, moves
    [firstpaddr] back by a page, and the next page allocated contains a block
    the first caller still holds.  For [kmalloc(0xffffffff)] the number of
    pages wraps to 0, and the next allocation returns the same address. *)
Theorem kmalloc_huge_overlaps :
  exists a b c s1 s2 s3 d e s4 s5,
    kmalloc 100 (kheap_init demo_ram) = Done (a, s1) /\
    kmalloc 0xfffff000 s1 = Done (b, s2) /\ b <> 0 /\
    kmalloc 4096 s2 = Done (c, s3) /\ c <= a < c + 4096 /\
    kmalloc 0xffffffff (kheap_init demo_ram) = Done (d, s4) /\ d <> 0 /\
    kmalloc 4096 s4 = Done (e, s5) /\ e = d.
Proof.
  do 10 eexists. split; [vm_compute; reflexivity|]. split; [vm_compute; reflexivity|].
  split; [vm_compute; discriminate|]. split; [vm_compute; reflexivity|].
  split; [vm_compute; split; congruence|]. split; [vm_compute; reflexivity|].
  split; [vm_compute; discriminate|]. split; vm_compute; reflexivity.
Qed.
