(* ===== verification/VmSpec.v ===== *)
(** Processes have memories of their own (kern/arch/mips/vm/dumbvm.c)

    [sys] is the machine with the address spaces of the processes.  A user
    access goes through the TLB as the processor does it: a valid entry that
    matches gives the physical address, anything else traps to [vm_fault] and
    is tried again.  The specification [spec] has no frames and no TLB: each
    process has a memory from user addresses to bytes, and the only traces of
    the machine are the number of free pages and the pages touched since the
    last switch, of which there can be 64.  The refinement shows that the
    replies to every sequence of operations are those of the specification. *)
From S2P Require Import Prelude Memory Kmalloc Dumbvm.
Import Memory.

(** ** The machine *)
Inductive tlb_result := Hit (p : Z) | Miss | Modify.
Definition matches (v : Z) (e : Z * Z) : bool :=
  valid e && (Z.land e.1 PAGE_FRAME =? Z.land v PAGE_FRAME).
Definition tlb_lookup (t : list (Z * Z)) (ft v : Z) : tlb_result :=
  match List.find (matches v) t with
  | None => Miss
  | Some e =>
      if (ft =? VM_FAULT_WRITE) && (Z.land e.2 TLBLO_DIRTY =? 0) then Modify
      else Hit (Z.land e.2 PAGE_FRAME + v mod PAGE_SIZE)
  end.

(** A user access: the instruction is tried again after the fault. *)
Definition user_access (ft v : Z) (a : option addrspace) : M vmstate (result Z) :=
  l ← mgets (fun s => tlb_lookup (tlb s) ft v);
  match l with
  | Hit p => mret (Ok p)
  | Miss | Modify =>
      e ← vm_fault (if l is Modify then VM_FAULT_READONLY else ft) v a;
      if negb (e =? 0) then mret (Err e)
      else
        l ← mgets (fun s => tlb_lookup (tlb s) ft v);
        match l with
        | Hit p => mret (Ok p)
        | _ => mstop NoFuel
        end
  end.

Record sys := Sys { vm : vmstate; spaces : list addrspace; cur : option nat }.
Definition cur_as (c : sys) : option addrspace := i ← cur c; spaces c !! i.

Inductive op :=
  | New (va1 sz1 va2 sz2 : Z) (alloc_ok : bool)
  | Fork (i : nat) (alloc_ok : bool)
  | Switch (i : nat)
  | Load (v : Z)
  | Store (v b : Z)
  | KPages (n : Z).
Inductive reply := RDone | RByte (b : Z) | RError (e : Z).

Definition new_space (va1 sz1 va2 sz2 : Z) (alloc_ok : bool) : M vmstate (result addrspace) :=
  match as_create alloc_ok with
  | None => mret (Err ENOMEM)
  | Some a =>
      let '(e, a) := as_define_region a va1 sz1 in
      if negb (e =? 0) then mret (Err e)
      else
        let '(e, a) := as_define_region a va2 sz2 in
        if negb (e =? 0) then mret (Err e)
        else
          '(e, a) ← as_prepare_load a;
          if negb (e =? 0) then mret (Err e) else mret (Ok a)
  end.

Definition push_space (c : sys) (r : result addrspace) (s : vmstate) : reply * sys :=
  match r with
  | Ok a => (RDone, Sys s (spaces c ++ [a]) (cur c))
  | Err e => (RError e, Sys s (spaces c) (cur c))
  end.
Definition with_vm (c : sys) (s : vmstate) : sys := Sys s (spaces c) (cur c).

Definition cstep (o : op) (c : sys) : outcome (reply * sys) :=
  match o with
  | New va1 sz1 va2 sz2 alloc_ok =>
      '(r, s) ← new_space va1 sz1 va2 sz2 alloc_ok (vm c);
      mret (push_space c r s)
  | Fork i alloc_ok =>
      match spaces c !! i with
      | None => Stop BadAccess
      | Some a => '(r, s) ← as_copy alloc_ok a (vm c); mret (push_space c r s)
      end
  | Switch i =>
      '(_, s) ← as_activate (vm c);
      mret (RDone, Sys s (spaces c) (Some i))
  | Load v =>
      '(r, s) ← user_access VM_FAULT_READ v (cur_as c) (vm c);
      match r with
      | Err e => mret (RError e, with_vm c s)
      | Ok p =>
          match phys s p with
          | Some b => mret (RByte b, with_vm c s)
          | None => Stop BadAccess
          end
      end
  | Store v b =>
      '(r, s) ← user_access VM_FAULT_WRITE v (cur_as c) (vm c);
      match r with
      | Err e => mret (RError e, with_vm c s)
      | Ok p =>
          match phys s p with
          | Some _ => mret (RDone, with_vm c (with_kmem (<[p + MIPS_KSEG0 := b]> (kmem s)) s))
          | None => Stop BadAccess
          end
      end
  | KPages n =>
      '(p, s) ← m_getppages n (vm c);
      mret (if p =? 0 then RError ENOMEM else RDone, with_vm c s)
  end.
Fixpoint crun (os : list op) (c : sys) : outcome (list reply * sys) :=
  match os with
  | [] => Done ([], c)
  | o :: os' => '(r, c) ← cstep o c; '(rs, c) ← crun os' c; Done (r :: rs, c)
  end.

(** ** The specification *)
Record proc := Proc { pm : Z -> option Z; pn1 : Z; pn2 : Z }.
Record spec := Spec { procs : list proc; acur : option nat; touched : list Z; afree : Z }.

Definition zero_mem (va1 sz1 va2 sz2 : Z) (v : Z) : option Z :=
  if in_region v (va1 - va1 mod PAGE_SIZE) (page_count va1 sz1) ||
     in_region v (va2 - va2 mod PAGE_SIZE) (page_count va2 sz2) ||
     in_region v stackbase DUMBVM_STACKPAGES
  then Some 0 else None.
(** A process asks for the pages of its two regions and its stack. *)
Definition a_load (alloc_ok : bool) (p : proc) (A : spec) : reply * spec :=
  let '(ok, free) :=
    if alloc_ok then grab3 (pn1 p) (pn2 p) DUMBVM_STACKPAGES (afree A) else (false, afree A) in
  if ok then (RDone, Spec (procs A ++ [p]) (acur A) (touched A) free)
  else (RError ENOMEM, Spec (procs A) (acur A) (touched A) free).
Definition touch (v : Z) (A : spec) : option (nat * proc * spec) :=
  let pg := v - v mod PAGE_SIZE in
  i ← acur A; p ← procs A !! i; _ ← pm p v;
  if decide (pg ∈ touched A) then Some (i, p, A)
  else if decide (length (touched A) < NUM_TLB)%nat then
    Some (i, p, Spec (procs A) (acur A) (pg :: touched A) (afree A))
  else None.

Definition astep (o : op) (A : spec) : reply * spec :=
  match o with
  | New va1 sz1 va2 sz2 alloc_ok =>
      a_load alloc_ok
        (Proc (zero_mem va1 sz1 va2 sz2) (page_count va1 sz1) (page_count va2 sz2)) A
  | Fork i alloc_ok =>
      match procs A !! i with
      | None => (RError EFAULT, A)
      | Some p => a_load alloc_ok p A
      end
  | Switch i => (RDone, Spec (procs A) (Some i) [] (afree A))
  | Load v =>
      match touch v A with
      | None => (RError EFAULT, A)
      | Some (_, p, A) => (RByte (default 0 (pm p v)), A)
      end
  | Store v b =>
      match touch v A with
      | None => (RError EFAULT, A)
      | Some (i, p, A) =>
          (RDone, Spec (<[i := Proc (fun x => if decide (x = v) then Some b else pm p x)
                                 (pn1 p) (pn2 p)]> (procs A)) (acur A) (touched A) (afree A))
      end
  | KPages n =>
      if n <=? afree A then (RDone, Spec (procs A) (acur A) (touched A) (afree A - n))
      else (RError ENOMEM, A)
  end.
Fixpoint arun (os : list op) (A : spec) : list reply * spec :=
  match os with
  | [] => ([], A)
  | o :: os' => let '(r, A) := astep o A in let '(rs, A) := arun os' A in (r :: rs, A)
  end.

(** Segments lie in user space, and processes that are named exist. *)
Definition op_ok (o : op) (A : spec) : Prop :=
  match o with
  | New va1 sz1 va2 sz2 _ => segment_ok va1 sz1 /\ segment_ok va2 sz2
  | Fork i _ | Switch i => (i < length (procs A))%nat
  | Load v | Store v _ => 0 <= v < MIPS_KSEG0
  | KPages n => 0 <= n < 2 ^ 19
  end.
Fixpoint ops_ok (os : list op) (A : spec) : Prop :=
  match os with
  | [] => True
  | o :: os' => op_ok o A /\ ops_ok os' (astep o A).2
  end.

(** ** The TLB *)
Abbreviation page v := (v - v mod PAGE_SIZE).
Definition vpns (t : list (Z * Z)) : list Z := fst <$> filter (fun e => valid e = true) t.

Lemma vpns_insert t j x y :
  t !! j = Some y -> valid y = false -> valid x = true ->
  vpns (<[j := x]> t) ≡ₚ x.1 :: vpns t.
Proof.
  intros Hj Hy Hx. pose proof (lookup_lt_Some _ _ _ Hj) as Hlt.
  rewrite insert_take_drop by done. rewrite <- (take_drop_middle t j y Hj) at 3. unfold vpns.
  rewrite !filter_app, !filter_cons, Hy, Hx. rewrite decide_True, decide_False by done.
  rewrite !fmap_app. cbn [fmap list_fmap]. symmetry. apply Permutation_middle.
Qed.
Lemma vpns_length t : (length (vpns t) <= length t)%nat.
Proof. unfold vpns. rewrite length_fmap. apply length_filter. Qed.
Lemma vpns_full t : Forall (fun e => valid e = true) t -> length (vpns t) = length t.
Proof.
  intros Hf. unfold vpns. rewrite length_fmap. f_equal.
  induction Hf as [|e t He _ IH]; [done|]. rewrite filter_cons, decide_True by done. by rewrite IH.
Qed.
Lemma vpns_not_full t j y : t !! j = Some y -> valid y = false -> (length (vpns t) < length t)%nat.
Proof.
  intros Hj Hy. pose proof (vpns_length (<[j := (0, TLBLO_VALID)]> t)) as Hl.
  rewrite (vpns_insert t j (0, TLBLO_VALID) y) in Hl by done. rewrite length_insert in Hl.
  cbn [length] in Hl. lia.
Qed.
Lemma vpns_miss t a pg :
  tlb_ok t a -> pg < MIPS_KSEG0 -> (pg ∉ vpns t) -> (pg ∉ (fst <$> t)).
Proof.
  intros (_ & Hall & _) Hpg Hn (e & -> & He)%list_elem_of_fmap.
  rewrite Forall_forall in Hall. specialize (Hall e He). unfold entry_ok in Hall.
  destruct (valid e) eqn:Ev; [|lia]. apply Hn. unfold vpns. apply list_elem_of_fmap_2.
  by apply list_elem_of_filter.
Qed.
Lemma tlb_entry_dirty p : (Z.land (tlb_entry p) TLBLO_DIRTY =? 0) = false.
Proof.
  apply Z.eqb_neq. intros E. apply (f_equal (fun x => Z.testbit x 10)) in E. unfold tlb_entry in E.
  rewrite Z.land_spec, !Z.lor_spec in E. change (Z.testbit TLBLO_DIRTY 10) with true in E.
  change (Z.testbit TLBLO_VALID 10) with false in E. by rewrite orb_true_r in E.
Qed.

(** Valid entries that match are translations of the page. *)
Lemma find_spec t a v :
  tlb_ok t a -> 0 <= v < MIPS_KSEG0 ->
  match List.find (matches v) t with
  | None => page v ∉ vpns t
  | Some e => page v ∈ vpns t /\ exists b p, a = Some b /\
      translate b (page v) = Some p /\ e.2 = tlb_entry p
  end.
Proof.
  intros (_ & Hall & _) Hv. unfold MIPS_KSEG0 in Hv. rewrite Forall_forall in Hall.
  destruct (List.find (matches v) t) as [e|] eqn:Hf.
  - apply List.find_some in Hf as [He Hm]. rewrite <- list_elem_of_In in He.
    unfold matches in Hm. apply andb_true_iff in Hm as [Hval Hpg%Z.eqb_eq].
    pose proof (Hall e He) as Hok. unfold entry_ok in Hok. rewrite Hval in Hok.
    destruct Hok as (b & p & -> & Hr & Hal & Htr & He2). unfold MIPS_KSEG0 in Hr.
    rewrite land_aligned, land_frame in Hpg by (done || lia). split.
    + rewrite <- Hpg. apply list_elem_of_fmap_2. by apply list_elem_of_filter.
    + exists b, p. by rewrite <- Hpg.
  - intros (e & Epg & [Hval He]%list_elem_of_filter)%list_elem_of_fmap.
    pose proof (Hall e He) as Hok. unfold entry_ok in Hok. rewrite Hval in Hok.
    destruct Hok as (b & p & -> & Hr & Hal & _). unfold MIPS_KSEG0 in Hr.
    rewrite list_elem_of_In in He. apply (List.find_none _ _ Hf) in He.
    unfold matches in He. rewrite Hval in He. cbn [andb] in He. apply Z.eqb_neq in He. apply He.
    rewrite land_aligned, land_frame by (done || lia). lia.
Qed.

Section access.
Context (a : addrspace) (s : vmstate) (ft v : Z).
Context (Hs : mach_ok s) (Ha : as_ok a (firstpaddr (vm_ram s))).
Context (Hft : is_fault ft) (Hv : 0 <= v < MIPS_KSEG0).

Lemma first_limit : firstpaddr (vm_ram s) <= 508 * 1024 * 1024.
Proof using Hs. clear Ha. destruct Hs as [(? & ? & ? & ?) _]. lia. Qed.

Lemma tlb_lookup_spec t :
  tlb_ok t (Some a) ->
  if decide (page v ∈ vpns t)
  then exists p, translate a v = Some p /\ tlb_lookup t ft v = Hit p
  else tlb_lookup t ft v = Miss.
Proof using Hs Ha Hv.
  intros Ht. pose proof (find_spec t (Some a) v Ht Hv) as Hf. unfold tlb_lookup.
  destruct (List.find (matches v) t) as [e|].
  - destruct Hf as [Hin (b & p & [= <-] & Htr & ->)]. rewrite decide_True by done.
    destruct (translate_page a _ Ha first_limit v p ltac:(lia) Htr) as (Hpa & Hpr & ->).
    eexists. split; [done|]. rewrite tlb_entry_dirty, andb_false_r.
    rewrite tlb_entry_frame by (done || lia). done.
  - by rewrite decide_False.
Qed.

Lemma user_access_spec :
  tlb_ok (tlb s) (Some a) ->
  if decide (page v ∈ vpns (tlb s))
  then exists p, translate a v = Some p /\ user_access ft v (Some a) s = Done (Ok p, s)
  else match translate a v with
       | Some p =>
           if decide (length (vpns (tlb s)) < NUM_TLB)%nat
           then exists t, user_access ft v (Some a) s = Done (Ok p, with_tlb t s) /\
                  tlb_ok t (Some a) /\ vpns t ≡ₚ page v :: vpns (tlb s)
           else user_access ft v (Some a) s = Done (Err EFAULT, s)
       | None => user_access ft v (Some a) s = Done (Err EFAULT, s)
       end.
Proof using Hs Ha Hft Hv.
  intros Ht. pose proof (tlb_lookup_spec _ Ht) as Hl. unfold user_access.
  cbv [mgets mbind M_bind mret M_ret]. case_decide as Hin.
  { destruct Hl as (p & ? & ->). by exists p. }
  rewrite Hl. pose proof (vpns_miss _ _ (page v) Ht) as Hmiss.
  destruct (vm_fault_spec a _ ft v s Ha first_limit Hft Hv Ht) as (e & t & -> & Ht' & Hok & Herr).
  { apply Hmiss; [|done]. unfold MIPS_KSEG0, PAGE_SIZE in *. dlia. }
  assert (Hsame : with_tlb (tlb s) s = s) by by destruct s.
  pose proof Ht as (Hlen & _). destruct (Z.eqb_spec e 0) as [->|He]; cbn [negb].
  - destruct (Hok eq_refl) as (j & x & y & p & Hj & Hy & -> & Hx & Htr & Hmap).
    rewrite Htr. pose proof (vpns_not_full _ _ _ Hj Hy) as Hlt. rewrite Hlen in Hlt.
    rewrite decide_True by done. destruct Hmap as (Hxv & _ & _).
    pose proof (vpns_insert _ _ x _ Hj Hy Hxv) as Hvp. rewrite Hx in Hvp.
    pose proof (tlb_lookup_spec _ Ht') as Hl'.
    rewrite decide_True in Hl' by (rewrite Hvp; apply list_elem_of_here). destruct Hl' as (p' & Htr' & Hl').
    rewrite Htr in Htr'. injection Htr' as <-. cbn [with_tlb tlb]. rewrite Hl'. eexists. by split_and!.
  - destruct (Herr He) as (-> & -> & Hcase). rewrite Hsame.
    destruct (translate a v) as [p|] eqn:Etr; [|done]. destruct Hcase as [?|Hfull]; [done|].
    apply vpns_full in Hfull. rewrite decide_False by lia. done.
Qed.
End access.

Lemma user_access_none ft v s :
  is_fault ft -> 0 <= v < MIPS_KSEG0 -> tlb_ok (tlb s) None ->
  user_access ft v None s = Done (Err EFAULT, s).
Proof.
  intros Hft Hv Ht. pose proof (find_spec _ _ v Ht Hv) as Hf. unfold user_access.
  cbv [mgets mbind M_bind mret M_ret]. unfold tlb_lookup.
  destruct (List.find _ _) as [e|]; [by destruct Hf as (_ & b & p & ? & _)|].
  unfold vm_fault. by destruct Hft as [->| ->].
Qed.

(** ** The relation *)
Definition holds (s : vmstate) (a : addrspace) (p : proc) : Prop :=
  as_npages1 a = pn1 p /\ as_npages2 a = pn2 p /\ forall v, translate a v ≫= phys s = pm p v.
Definition as_inj (a : addrspace) : Prop :=
  forall v v' q, translate a v = Some q -> translate a v' = Some q -> v = v'.
Record rel (c : sys) (A : spec) : Prop := {
  r_mach : mach_ok (vm c);
  r_free : free_pages (vm c) = afree A;
  r_cur : cur c = acur A;
  r_named : forall i, cur c = Some i -> (i < length (spaces c))%nat;
  r_tlb : tlb_ok (tlb (vm c)) (cur_as c);
  r_touched : vpns (tlb (vm c)) ≡ₚ touched A;
  r_spaces : Forall2 (holds (vm c)) (spaces c) (procs A);
  r_ok : Forall (fun a => as_ok a (firstpaddr (vm_ram (vm c))) /\ as_inj a) (spaces c);
  r_disjoint : forall i j a b q, spaces c !! i = Some a -> spaces c !! j = Some b -> i <> j ->
    own a q = true -> own b q = true -> False;
}.

(** Memory below [f] is that of before. *)
Definition low_kept (f : Z) (s s' : vmstate) : Prop := forall q, q < f -> phys s' q = phys s q.

Lemma holds_low f s s' a p :
  low_kept f s s' -> as_ok a f -> holds s a p -> holds s' a p.
Proof.
  intros Hlow Ha (? & ? & Hp). split_and!; [done..|]. intros v. rewrite <- Hp.
  destruct (translate a v) as [q|] eqn:Eq; [|done]. cbn. apply Hlow. by eapply translate_below.
Qed.

Lemma rel_grown c A s' :
  rel c A -> grown (vm c) s' -> low_kept (firstpaddr (vm_ram (vm c))) (vm c) s' ->
  rel (with_vm c s') (Spec (procs A) (acur A) (touched A) (free_pages s')).
Proof.
  intros [Hm Hf Hc Hn Ht Hto Hsp Hok Hd] (Hm' & Etlb & El & Hle) Hlow.
  split; cbn [with_vm vm spaces cur procs acur touched afree]; try done.
  - by rewrite Etlb.
  - by rewrite Etlb.
  - apply Forall2_same_length_lookup_2; [by eapply Forall2_length|].
    intros i a p Ea Ep. apply (holds_low (firstpaddr (vm_ram (vm c))) (vm c)); [done| |].
    + by destruct (Forall_lookup_1 _ _ _ _ Hok Ea).
    + by eapply Forall2_lookup_lr.
  - eapply Forall_impl; [exact Hok|]. intros a [Ha ?]. split; [|done]. by eapply as_ok_mono.
Qed.

Lemma rel_push c A s' a p f :
  rel c A -> grown (vm c) s' -> low_kept f (vm c) s' -> f = firstpaddr (vm_ram (vm c)) ->
  as_ok (loaded a f) (firstpaddr (vm_ram s')) -> holds s' (loaded a f) p ->
  rel (Sys s' (spaces c ++ [loaded a f]) (cur c))
    (Spec (procs A ++ [p]) (acur A) (touched A) (free_pages s')).
Proof.
  intros Hr Hg Hlow -> Ha Hp. set (f := firstpaddr (vm_ram (vm c))) in *.
  pose proof Ha as [(_ & _ & Hn1 & _) (_ & _ & Hn2 & _) _ _ _]. cbn [loaded as_npages1 as_npages2] in *.
  assert (Hold : forall i b q, spaces c !! i = Some b -> own b q = true ->
    own (loaded a f) q = true -> False).
  { intros i b q Hb Hq. rewrite own_loaded by lia. unfold in_region.
    intros [Hge%Z.leb_le _]%andb_true_iff.
    destruct (Forall_lookup_1 _ _ _ _ (r_ok _ _ Hr) Hb) as [Hbok _].
    assert (q < f) by (by eapply own_below). lia. }
  destruct (rel_grown c A s' Hr Hg Hlow) as [Hm Hf Hc Hn Ht Hto Hsp Hok Hd].
  cbn [with_vm vm spaces cur procs acur touched afree] in *.
  split; cbn [vm spaces cur procs acur touched afree]; try done.
  - intros i Hi. rewrite length_app. pose proof (Hn i Hi). lia.
  - unfold cur_as in *. cbn [with_vm spaces cur] in *. destruct (cur c) as [i|] eqn:Ec; [|done].
    cbn [mbind option_bind] in *. by rewrite lookup_app_l by (by apply Hn).
  - apply Forall2_app; [done|]. by constructor.
  - apply Forall_app. split; [done|]. constructor; [|done]. split; [done|].
    intros v v' q. by apply loaded_inj; lia.
  - intros i j b1 b2 q. rewrite !lookup_app_Some, !list_lookup_singleton_Some.
    intros [H1|(? & ? & <-)] [H2|(? & ? & <-)] Hne Hq1 Hq2.
    + exact (Hd _ _ _ _ _ H1 H2 Hne Hq1 Hq2).
    + exact (Hold _ _ _ H1 Hq1 Hq2).
    + exact (Hold _ _ _ H2 Hq2 Hq1).
    + apply Hne. lia.
Qed.

(** What loading a process [p] gives. *)
Definition load_post (s : vmstate) (alloc_ok : bool) (p : proc) (r : result addrspace)
    (s' : vmstate) : Prop :=
  let f := firstpaddr (vm_ram s) in
  grown s s' /\ low_kept f s s' /\
  (is_ok r, free_pages s')
  = (if alloc_ok then grab3 (pn1 p) (pn2 p) DUMBVM_STACKPAGES (free_pages s)
     else (false, free_pages s)) /\
  match r with
  | Err e => e = ENOMEM
  | Ok new => exists a, new = loaded a f /\ as_ok new (firstpaddr (vm_ram s')) /\ holds s' new p
  end.

Lemma new_space_spec va1 sz1 va2 sz2 alloc_ok s :
  mach_ok s -> segment_ok va1 sz1 -> segment_ok va2 sz2 ->
  exists r s', new_space va1 sz1 va2 sz2 alloc_ok s = Done (r, s') /\
    load_post s alloc_ok
      (Proc (zero_mem va1 sz1 va2 sz2) (page_count va1 sz1) (page_count va2 sz2)) r s'.
Proof.
  intros Hs H1 H2. unfold new_space, load_post. cbn [pn1 pn2]. destruct alloc_ok; cbn [as_create].
  2: { eexists _, s. split; [done|]. split; [by apply grown_refl|]. by split_and!. }
  pose proof (segment_region _ _ H1) as Hr1. pose proof (segment_region _ _ H2) as Hr2.
  pose proof Hr1 as (Hv1 & _). rewrite (as_define_region_spec _ va1) by done. cbn zeta.
  cbn [as_vbase1]. change (0 =? 0) with true. cbn [negb].
  rewrite (as_define_region_spec _ va2) by done. cbn zeta.
  cbn [as_vbase1 as_vbase2 as_pbase1 as_npages1 as_pbase2 as_npages2 as_stackpbase].
  rewrite (proj2 (Z.eqb_neq (page va1) 0)) by lia. change (0 =? 0) with true. cbn [negb].
  set (a0 := AddrSpace _ _ _ _ _ _ _). change (0 =? 0) with true. cbn [negb].
  destruct (as_prepare_load_spec a0 s) as (e & a & s' & R & Hg & Hfree & Hcase); [done..|].
  rewrite (bind_Done _ _ _ _ _ R). set (f := firstpaddr (vm_ram s)) in *.
  destruct Hcase as [[-> Ek]|(-> & -> & Hok & Ef & Hp)]; cbn [negb Z.eqb ENOMEM Pos.eqb].
  - eexists _, s'. split; [done|]. split; [done|]. split; [|by split].
    intros q _. unfold phys. by rewrite Ek.
  - eexists _, s'. split; [done|]. pose proof Hr1 as (_ & _ & ? & _). pose proof Hr2 as (_ & _ & ? & _).
    split; [done|]. split; [|split; [done|]].
    + intros q Hq. rewrite Hp, own_loaded by (cbn [a0 as_npages1 as_npages2]; lia).
      unfold in_region. by rewrite (proj2 (Z.leb_gt _ _)) by lia.
    + exists a0. unfold holds. split_and!; try done. intros v. cbn [pm].
      destruct (translate (loaded a0 f) v) as [q|] eqn:Eq; cbn [mbind option_bind].
      * rewrite Hp, (translate_own _ _ _ Eq). revert Eq. rewrite translate_loaded. unfold zero_mem, a0.
        cbn [as_vbase1 as_vbase2 as_npages1 as_npages2]. by repeat destruct (in_region v _ _).
      * revert Eq. rewrite translate_loaded. unfold zero_mem, a0.
        cbn [as_vbase1 as_vbase2 as_npages1 as_npages2]. by repeat destruct (in_region v _ _).
Qed.
Lemma fork_spec alloc_ok old p s :
  mach_ok s -> as_ok old (firstpaddr (vm_ram s)) -> holds s old p ->
  exists r s', as_copy alloc_ok old s = Done (r, s') /\ load_post s alloc_ok p r s'.
Proof.
  intros Hs Hold (E1 & E2 & Hp). unfold load_post.
  destruct (as_copy_spec alloc_ok old s Hs Hold) as (r & s' & R & Hg & Hfree & Hlow & Hr).
  exists r, s'. split; [done|]. rewrite E1, E2 in Hfree. split_and!; try done.
  destruct r as [e|new]; [done|]. destruct Hr as (-> & Hok & Htr). exists old.
  unfold holds. split_and!; try done. intros v. rewrite <- Hp. specialize (Htr v).
  destruct (translate old v), (translate (loaded _ _) v); done.
Qed.

Lemma rel_load c A alloc_ok p r s' :
  rel c A -> load_post (vm c) alloc_ok p r s' ->
  exists c', push_space c r s' = ((a_load alloc_ok p A).1, c') /\ rel c' (a_load alloc_ok p A).2.
Proof.
  intros Hr (Hg & Hlow & Hfree & Hres). rewrite (r_free _ _ Hr) in Hfree. unfold a_load.
  rewrite <- Hfree. destruct r as [e|new]; cbn [is_ok].
  - subst e. eexists. split; [done|]. by apply rel_grown.
  - destruct Hres as (a & -> & Hok & Hh). eexists. split; [done|]. by apply rel_push.
Qed.

Lemma rel_lookup c A i p :
  rel c A -> procs A !! i = Some p ->
  exists a, spaces c !! i = Some a /\ as_ok a (firstpaddr (vm_ram (vm c))) /\ as_inj a /\
    holds (vm c) a p.
Proof.
  intros Hr Hp. destruct (Forall2_lookup_r _ _ _ _ _ (r_spaces _ _ Hr) Hp) as (a & Ha & Hh).
  destruct (Forall_lookup_1 _ _ _ _ (r_ok _ _ Hr) Ha). by exists a.
Qed.
(** A process has a byte at every address its space translates. *)
Lemma holds_mapped s a p v :
  mach_ok s -> as_ok a (firstpaddr (vm_ram s)) -> holds s a p ->
  match translate a v with
  | Some q => phys s q = pm p v /\ is_Some (pm p v)
  | None => pm p v = None
  end.
Proof.
  intros Hs Ha (_ & _ & Hp). specialize (Hp v). destruct (translate a v) as [q|] eqn:Eq; [|done].
  split; [done|]. rewrite <- Hp. cbn. destruct Hs as [(_ & _ & Hle & _) Hm]. unfold phys.
  rewrite Z.add_comm. apply Hm. split; [|pose proof (translate_below _ _ _ _ Ha Eq); lia].
  destruct Ha as [_ _ (? & _) (? & _) (? & _)]. revert Eq. unfold translate.
  rewrite !in_region_spec. repeat case_bool_decide; intros [= <-]; lia.
Qed.

Lemma rel_access c A ft v :
  rel c A -> is_fault ft -> 0 <= v < MIPS_KSEG0 ->
  match touch v A with
  | None => user_access ft v (cur_as c) (vm c) = Done (Err EFAULT, vm c)
  | Some (i, p, A') =>
      exists a q s', user_access ft v (cur_as c) (vm c) = Done (Ok q, s') /\
        rel (with_vm c s') A' /\ spaces c !! i = Some a /\ procs A' !! i = Some p /\
        translate a v = Some q /\ phys s' q = pm p v /\ is_Some (pm p v)
  end.
Proof.
  intros Hr Hft Hv. pose proof (r_tlb _ _ Hr) as Ht. pose proof (r_touched _ _ Hr) as Hto.
  unfold touch. destruct (acur A) as [i|] eqn:Ec; cbn [mbind option_bind].
  2: { unfold cur_as in *. rewrite (r_cur _ _ Hr), Ec in *. by apply user_access_none. }
  destruct (procs A !! i) as [p|] eqn:Ep; cbn [mbind option_bind].
  2: { apply lookup_ge_None in Ep. rewrite <- (Forall2_length _ _ _ (r_spaces _ _ Hr)) in Ep.
       pose proof (r_named _ _ Hr i) as Hn. rewrite (r_cur _ _ Hr), Ec in Hn. specialize (Hn eq_refl). lia. }
  destruct (rel_lookup _ _ _ _ Hr Ep) as (a & Ha & Hok & Hinj & Hh).
  assert (Eas : cur_as c = Some a) by (unfold cur_as; by rewrite (r_cur _ _ Hr), Ec).
  rewrite Eas in *. pose proof (user_access_spec a _ ft v (r_mach _ _ Hr) Hok Hft Hv Ht) as Hu.
  pose proof (holds_mapped _ _ _ v (r_mach _ _ Hr) Hok Hh) as Hm.
  assert (Hin : page v ∈ vpns (tlb (vm c)) <-> page v ∈ touched A) by by rewrite Hto.
  assert (Hlen : length (vpns (tlb (vm c))) = length (touched A)) by by rewrite Hto.
  rewrite Hlen in Hu. destruct (decide (page v ∈ vpns (tlb (vm c)))) as [Hy|Hn].
  - destruct Hu as (q & Hq & Hu). rewrite Hq in Hm. destruct Hm as [Hph [b Hb]].
    rewrite Hb. cbn [mbind option_bind]. rewrite decide_True by (by apply Hin).
    exists a, q, (vm c). rewrite Hph, Hb. split_and!; try done. by destruct c.
  - destruct (translate a v) as [q|] eqn:Eq; [|by rewrite Hm].
    destruct Hm as [Hph [b Hb]]. rewrite Hb. cbn [mbind option_bind].
    rewrite decide_False by (by rewrite <- Hin). destruct (decide _) as [Hlt|Hge]; [|done].
    destruct Hu as (t & Hu & Ht' & Hvp). exists a, q, (with_tlb t (vm c)).
    split_and!; try done.
    destruct Hr. split; cbn [with_vm vm spaces cur procs acur touched afree]; try done.
    + by rewrite <- Ec.
    + unfold cur_as in *. cbn [with_vm spaces cur]. by rewrite Eas.
    + cbn [with_tlb tlb]. by rewrite Hvp, Hto.
Qed.

Lemma rel_store c A i a p v q b :
  rel c A -> spaces c !! i = Some a -> procs A !! i = Some p -> translate a v = Some q ->
  is_Some (phys (vm c) q) ->
  rel (with_vm c (with_kmem (<[q + MIPS_KSEG0 := b]> (kmem (vm c))) (vm c)))
    (Spec (<[i := Proc (fun x => if decide (x = v) then Some b else pm p x) (pn1 p) (pn2 p)]>
             (procs A)) (acur A) (touched A) (afree A)).
Proof.
  intros Hr Ha Hp Hq Hex. set (s' := with_kmem _ _).
  assert (Hph : forall x, phys s' x = if decide (x = q) then Some b else phys (vm c) x).
  { intros x. unfold phys, s'. cbn [with_kmem kmem]. case_decide as E; [subst; apply lookup_insert_eq|].
    apply lookup_insert_ne. lia. }
  destruct (Forall_lookup_1 _ _ _ _ (r_ok _ _ Hr) Ha) as [_ Hinj].
  pose proof (translate_own a _ _ Hq) as Hown. destruct Hr as [Hm Hf Hc Hn Ht Hto Hsp Hok Hd].
  split; cbn [with_vm vm spaces cur procs acur touched afree]; try done.
  - destruct Hm as [? Hm]. split; [done|]. intros k Hk. cbn [s' with_kmem kmem].
    destruct (decide (q + MIPS_KSEG0 = MIPS_KSEG0 + k)) as [E|E];
      [rewrite E, lookup_insert_eq; done|rewrite lookup_insert_ne by done; by apply Hm].
  - apply Forall2_same_length_lookup_2.
    { rewrite length_insert. by eapply Forall2_length. }
    intros j a' p' Ha' Hp'. apply list_lookup_insert_Some in Hp' as [(-> & <- & _)|[Hne Hp']].
    + rewrite Ha in Ha'. injection Ha' as <-.
      destruct (Forall2_lookup_lr _ _ _ _ _ _ Hsp Ha Hp) as (E1 & E2 & Hv).
      split_and!; [done..|]. intros x. cbn [pm]. rewrite <- Hv. case_decide as Ex.
      * subst x. rewrite Hq. cbn. by rewrite Hph, decide_True.
      * destruct (translate a x) as [y|] eqn:Ey; [|done]. cbn. rewrite Hph.
        rewrite decide_False; [done|]. intros ->. apply Ex. by eapply Hinj.
    + destruct (Forall2_lookup_lr _ _ _ _ _ _ Hsp Ha' Hp') as (E1 & E2 & Hv).
      split_and!; [done..|]. intros x. rewrite <- Hv.
      destruct (translate a' x) as [y|] eqn:Ey; [|done]. cbn. rewrite Hph.
      rewrite decide_False; [done|]. intros ->. pose proof (translate_own a' _ _ Ey) as Hown'.
      exact (Hd _ _ _ _ _ Ha Ha' Hne Hown Hown').
Qed.

Lemma rel_switch c A i :
  rel c A -> (i < length (procs A))%nat ->
  exists c', cstep (Switch i) c = Done (RDone, c') /\
    rel c' (Spec (procs A) (Some i) [] (afree A)).
Proof.
  intros Hr Hi. pose proof Hr as [Hm Hf Hc Hn Ht Hto Hsp Hok Hd].
  unfold cstep. rewrite as_activate_spec by by destruct Ht. cbn [mbind outcome_bind].
  eexists. split; [done|]. split; cbn [vm spaces cur procs acur touched afree with_tlb tlb]; try done.
  - intros j [= <-]. by rewrite (Forall2_length _ _ _ Hsp).
  - apply reset_tlb_ok.
Qed.

Lemma cstep_refines o c A :
  rel c A -> op_ok o A ->
  exists c', cstep o c = Done ((astep o A).1, c') /\ rel c' (astep o A).2.
Proof.
  intros Hr Ho. destruct o as [va1 sz1 va2 sz2 k|i k|i|v|v b|n]; cbn [op_ok] in Ho.
  - destruct Ho as [H1 H2].
    destruct (new_space_spec va1 sz1 va2 sz2 k (vm c)) as (r & s' & R & Hp); [apply Hr|done..|].
    destruct (rel_load _ _ _ _ _ _ Hr Hp) as (c' & E & Hr'). exists c'. split; [|done].
    unfold cstep. rewrite R. cbn [mbind outcome_bind mret outcome_ret]. by rewrite E.
  - cbn [astep]. destruct (lookup_lt_is_Some_2 _ _ Ho) as [p Ep]. rewrite Ep.
    destruct (rel_lookup _ _ _ _ Hr Ep) as (a & Ha & Hok & _ & Hh).
    destruct (fork_spec k a p (vm c)) as (r & s' & R & Hp); [apply Hr|done..|].
    destruct (rel_load _ _ _ _ _ _ Hr Hp) as (c' & E & Hr'). exists c'. split; [|done].
    unfold cstep. rewrite Ha, R. cbn [mbind outcome_bind mret outcome_ret]. by rewrite E.
  - by apply rel_switch.
  - pose proof (rel_access c A VM_FAULT_READ v Hr (or_introl eq_refl) Ho) as Hu. cbn [astep].
    destruct (touch v A) as [[[i p] A']|]; unfold cstep.
    + destruct Hu as (a & q & s' & -> & Hr' & _ & _ & _ & Hph & [b Hb]).
      cbn [mbind outcome_bind]. rewrite Hph, Hb. by eexists.
    + rewrite Hu. cbn [mbind outcome_bind]. exists c. split; [by destruct c|done].
  - pose proof (rel_access c A VM_FAULT_WRITE v Hr (or_intror eq_refl) Ho) as Hu. cbn [astep].
    destruct (touch v A) as [[[i p] A']|]; unfold cstep.
    + destruct Hu as (a & q & s' & -> & Hr' & Ha & Hp & Hq & Hph & [b' Hb]).
      cbn [mbind outcome_bind]. rewrite Hph, Hb. eexists. split; [done|].
      apply (rel_store (with_vm c s') A' i a p v q b Hr' Ha Hp Hq). cbn [with_vm vm].
      by rewrite Hph, Hb.
    + rewrite Hu. cbn [mbind outcome_bind]. exists c. split; [by destruct c|done].
  - cbn [astep]. rewrite <- (r_free _ _ Hr).
    destruct (m_getppages_spec n (vm c)) as [[R Hq]|(r & R & Hz & Hg & Hq & Hu & _)];
      [apply Hr|done|..]; unfold cstep; rewrite R; cbn [mbind outcome_bind mret outcome_ret].
    + rewrite (proj2 (Z.leb_gt _ _)) by lia. exists c. split; [by destruct c|done].
    + rewrite (proj2 (Z.leb_le _ _)), (proj2 (Z.eqb_neq _ 0)) by done. eexists. split; [done|].
      rewrite <- Hu. by apply rel_grown.
Qed.


Definition zmem (lo n : Z) : gmap Z Z := gset_to_gmap 0 (list_to_set (seqZ lo n)).
Lemma zmem_mapped lo n : mapped (zmem lo n) lo n.
Proof.
  intros i Hi. exists 0. apply lookup_gset_to_gmap_Some. split; [|done].
  apply elem_of_list_to_set, elem_of_seqZ. lia.
Qed.
(** A machine just booted, with [n] pages free from 1 MB on. *)
Definition boot (n : Z) : sys :=
  Sys (VM (Ram 0x100000 (0x100000 + n * PAGE_SIZE))
         (zmem MIPS_KSEG0 (0x100000 + n * PAGE_SIZE))
         reset_tlb) [] None.
Lemma boot_rel n : 0 <= n < 1000 -> rel (boot n) (Spec [] None [] n).
Proof.
  intros Hn. split; cbn [boot vm spaces cur procs acur touched afree].
  - split.
    + unfold ram_ok, PAGE_SIZE. cbn [vm_ram firstpaddr lastpaddr]. split_and!; done || lia.
    + apply zmem_mapped.
  - unfold free_pages, PAGE_SIZE. cbn [vm_ram firstpaddr lastpaddr]. dlia.
  - done.
  - done.
  - exact (reset_tlb_ok None).
  - done.
  - constructor.
  - constructor.
  - done.
Qed.

(** A process forks, and parent and child then write the same address.  The
    second fork loses the pages of the two regions it could allocate. *)
Definition demo_ops : list op :=
  [ New 0x400000 5000 0x10000010 100 true; Switch 0; Store 0x400004 65; Fork 0 true;
    Store 0x400004 66; Switch 1; Load 0x400004; Store 0x400004 67; Load 0x400004;
    Load 0x7fffffff; Load 0x402000; Switch 0; Load 0x400004; Fork 1 true; KPages 9; KPages 6 ].
