(* ===== verification/Sched.v ===== *)
(** The run queues (kern/thread/thread.c)

    The reshuffling of a run queue by [schedule], the balancing of the queues
    by [thread_consider_migration], the wakeups, and the inter-processor
    interrupts, on the linked lists of ThreadList.v.  Each function runs as a
    whole: the locks of the run queues are not part of this model.  [random]
    is an argument of the functions that call it. *)
From S2P Require Import Prelude Bitmap ThreadList.
Import ThreadList.

(** ** State *)

(** Addresses of the lists: the run queue of a CPU, the threads of a wait
    channel, and the local list of a function. *)
Definition rq (i : nat) : Z := 3 * Z.of_nat i.
Definition wc_threads (w : Z) : Z := 3 * w + 1.
Definition local_list : Z := 2.

Definition IPI_PANIC : Z := 0.
Definition IPI_OFFLINE : Z := 1.
Definition IPI_UNIDLE : Z := 2.
Definition IPI_TLBSHOOTDOWN : Z := 3.
Definition TLBSHOOTDOWN_MAX : Z := 16.
Definition TLBSHOOTDOWN_ALL : Z := -1.

(** [struct cpu]; a mapping of the shootdown queue is a number. *)
Record cpu := Cpu {
  c_curthread : Z;
  c_isidle : bool;
  c_ipi_pending : Z;
  c_shootdown : list Z;
  c_numshootdown : Z;
}.
Record kst := Kst {
  tls : tlstate;
  cpus : list cpu;
  t_cpu : gmap Z nat;
  priority : Z -> Z;
  switch_fl : Z;
}.
Definition with_tls x s := Kst x (cpus s) (t_cpu s) (priority s) (switch_fl s).
Definition with_cpus x s := Kst (tls s) x (t_cpu s) (priority s) (switch_fl s).
Definition with_t_cpu x s := Kst (tls s) (cpus s) x (priority s) (switch_fl s).
Definition with_switch_fl x s := Kst (tls s) (cpus s) (t_cpu s) (priority s) x.

Definition on_tl {A} (x : M tlstate A) : M kst A := fun s =>
  match x (tls s) with
  | Done (a, t) => Done (a, with_tls t s)
  | Stop f => Stop f
  end.
Definition get_cpu (i : nat) : M kst cpu := c ← mgets (fun s => cpus s !! i); deref c.
Definition put_cpu (i : nat) (c : cpu) : M kst unit :=
  mmodify (fun s => with_cpus (<[i := c]> (cpus s)) s).

(** [a->tln_next->tln_self], which the code uses as a thread. *)
Definition next_self (a : nodeaddr) : M tlstate Z :=
  n ← node a;
  b ← deref (tln_next n);
  n' ← node b;
  deref (tln_self n').

(** ** Inter-processor interrupts *)
Definition ipi_send (target : nat) (code : Z) : M kst unit :=
  kassert ((code >=? 0) && (code <? 32)) ≫= fun _ =>
  c ← get_cpu target;
  put_cpu target (Cpu (c_curthread c) (c_isidle c)
    (Z.lor (c_ipi_pending c) (Z.shiftl 1 code)) (c_shootdown c) (c_numshootdown c)).
Fixpoint ipi_broadcast_loop (k : nat) (i me : nat) (code : Z) : M kst unit :=
  match k with
  | O => mret tt
  | S k' =>
      (if bool_decide (i = me) then mret tt else ipi_send i code) ≫= fun _ =>
      ipi_broadcast_loop k' (S i) me code
  end.
Definition ipi_broadcast (me : nat) (code : Z) : M kst unit :=
  n ← mgets (fun s => length (cpus s)); ipi_broadcast_loop n 0 me code.

(** [c_shootdown[n] = *mapping] on an array of 16 mappings *)
Definition put_shootdown (l : list Z) (n mapping : Z) : outcome (list Z) :=
  if (0 <=? n) && (n <? TLBSHOOTDOWN_MAX) then Done (<[Z.to_nat n := mapping]> l)
  else Stop BadAccess.
Definition ipi_tlbshootdown (target : nat) (mapping : Z) : M kst unit :=
  c ← get_cpu target;
  let n := c_numshootdown c in
  '(l, n) ← mlift (if n =? TLBSHOOTDOWN_MAX then Done (c_shootdown c, TLBSHOOTDOWN_ALL)
                   else l ← put_shootdown (c_shootdown c) n mapping; Done (l, n + 1));
  put_cpu target (Cpu (c_curthread c) (c_isidle c)
    (Z.lor (c_ipi_pending c) (Z.shiftl 1 IPI_TLBSHOOTDOWN)) l n).

(** The handler: what it asks of the machine, in order. *)
Inductive ipi_action := Halt | ShootdownAll | Shootdown (mapping : Z).
Definition bit_set (bits i : Z) : bool := negb (Z.land bits (Z.shiftl 1 i) =? 0).
Definition interprocessor_interrupt (me : nat) : M kst (list ipi_action) :=
  c ← get_cpu me;
  let bits := c_ipi_pending c in
  if bit_set bits IPI_PANIC || bit_set bits IPI_OFFLINE then mret [Halt]
  else
    let shot := bit_set bits IPI_TLBSHOOTDOWN in
    let acts :=
      if shot then
        if c_numshootdown c =? TLBSHOOTDOWN_ALL then [ShootdownAll]
        else Shootdown <$> take (Z.to_nat (c_numshootdown c)) (c_shootdown c)
      else [] in
    put_cpu me (Cpu (c_curthread c) (c_isidle c) 0 (c_shootdown c)
      (if shot then 0 else c_numshootdown c)) ≫= fun _ =>
    mret acts.

(** ** Wakeups *)
Definition thread_make_runnable (target : Z) : M kst unit :=
  o ← mgets (fun s => t_cpu s !! target);
  targetcpu ← deref o;
  c ← get_cpu targetcpu;
  on_tl (threadlist_addtail (rq targetcpu) target) ≫= fun _ =>
  if c_isidle c then ipi_send targetcpu IPI_UNIDLE else mret tt.
Definition wchan_wakeone (w : Z) : M kst unit :=
  target ← on_tl (threadlist_remhead (wc_threads w));
  match target with
  | None => mret tt
  | Some t => thread_make_runnable t
  end.
(** The two loops, each bounded by the number of threads. *)
Fixpoint grab_all (fuel : nat) (w l : Z) : M kst unit :=
  match fuel with
  | O => mstop NoFuel
  | S f =>
      target ← on_tl (threadlist_remhead (wc_threads w));
      match target with
      | None => mret tt
      | Some t => on_tl (threadlist_addtail l t) ≫= fun _ => grab_all f w l
      end
  end.
Fixpoint wake_list (fuel : nat) (l : Z) : M kst unit :=
  match fuel with
  | O => mstop NoFuel
  | S f =>
      target ← on_tl (threadlist_remhead l);
      match target with
      | None => mret tt
      | Some t => thread_make_runnable t ≫= fun _ => wake_list f l
      end
  end.
Definition wchan_wakeall (w : Z) : M kst unit :=
  on_tl (threadlist_init local_list) ≫= fun _ =>
  n ← on_tl (get_count (wc_threads w));
  grab_all (S (Z.to_nat n)) w local_list ≫= fun _ =>
  wake_list (S (Z.to_nat n)) local_list ≫= fun _ =>
  on_tl (threadlist_cleanup local_list).

(** ** The scheduler *)
Fixpoint walk (k : nat) (t_thr : Z) : M tlstate Z :=
  match k with
  | O => mret t_thr
  | S k' => t ← next_self (ThrNode t_thr); walk k' t
  end.
(** The loop over a queue for the thread of the lowest [priority], from
    [t_thr1] on; it ends at the last thread, whose number is the count. *)
Fixpoint find_low (fuel : nat) (l i t_thr1 temp_thread : Z) : M kst Z :=
  match fuel with
  | O => mstop NoFuel
  | S f =>
      n ← on_tl (node (ThrNode t_thr1));
      match tln_next n with
      | None => mret temp_thread
      | Some _ =>
          let i := i + 1 in
          prio ← mgets priority;
          let temp_thread := if prio t_thr1 <? prio temp_thread then t_thr1 else temp_thread in
          c ← on_tl (get_count l);
          if i =? c then mret temp_thread
          else
            t_thr1 ← on_tl (next_self (ThrNode t_thr1));
            find_low f l i t_thr1 temp_thread
      end
  end.
Definition lowest (l : Z) : M kst Z :=
  temp_thread ← on_tl (next_self (HeadNode l));
  t_thr1 ← on_tl (next_self (HeadNode l));
  c ← on_tl (get_count l);
  find_low (Z.to_nat c) l 0 t_thr1 temp_thread.

(** [random] is what [random()] returns. *)
Definition schedule (me : nat) (random : Z) : M kst unit :=
  fl ← mgets switch_fl;
  e ← on_tl (threadlist_isempty (rq me));
  if fl =? 0 then
    if negb e then
      c ← on_tl (get_count (rq me));
      let ran := random mod c in
      t_thr ← on_tl (next_self (HeadNode (rq me)));
      t_thr ← on_tl (walk (Z.to_nat ran) t_thr);
      on_tl (threadlist_remove (rq me) t_thr) ≫= fun _ =>
      on_tl (threadlist_addhead (rq me) t_thr) ≫= fun _ =>
      mmodify (with_switch_fl 1)
    else mret tt
  else
    if negb e then
      temp_thread ← lowest (rq me);
      on_tl (threadlist_remove (rq me) temp_thread) ≫= fun _ =>
      on_tl (threadlist_addhead (rq me) temp_thread) ≫= fun _ =>
      mmodify (with_switch_fl 0)
    else mret tt.

(** ** Migration *)

(** [for (i=0; i<numcpus; i++)]: this CPU's count and the sum. *)
Fixpoint count_loop (k : nat) (i me : nat) (my_count total_count : Z) : M kst (Z * Z) :=
  match k with
  | O => mret (my_count, total_count)
  | S k' =>
      c ← on_tl (get_count (rq i));
      count_loop k' (S i) me (if bool_decide (i = me) then c else my_count)
        (u32 (total_count + c))
  end.
Fixpoint pick_victims (k : nat) (me : nat) (victims : Z) : M kst unit :=
  match k with
  | O => mret tt
  | S k' =>
      temp_thread ← lowest (rq me);
      on_tl (threadlist_remove (rq me) temp_thread) ≫= fun _ =>
      on_tl (threadlist_addhead victims temp_thread) ≫= fun _ =>
      pick_victims k' me victims
  end.
(** [while (c->c_runqueue.tl_count < one_share && to_send > 0)]; [to_send]
    falls by one in every round.  The result is [to_send]. *)
Fixpoint fill_cpu (fuel : nat) (i : nat) (curthread one_share victims to_send : Z) : M kst Z :=
  n ← on_tl (get_count (rq i));
  if (n <? one_share) && (to_send >? 0) then
    match fuel with
    | O => mstop NoFuel
    | S f =>
        o ← on_tl (threadlist_remhead victims);
        if bool_decide (o = Some curthread) then
          on_tl (threadlist_addtail victims curthread) ≫= fun _ =>
          fill_cpu f i curthread one_share victims (to_send - 1)
        else
          t ← deref o;
          mmodify (fun s => with_t_cpu (<[t := i]> (t_cpu s)) s) ≫= fun _ =>
          on_tl (threadlist_addtail (rq i) t) ≫= fun _ =>
          c ← get_cpu i;
          (if c_isidle c then ipi_send i IPI_UNIDLE else mret tt) ≫= fun _ =>
          fill_cpu f i curthread one_share victims (to_send - 1)
    end
  else mret to_send.
Fixpoint send_loop (k : nat) (i me : nat) (curthread one_share victims to_send : Z) : M kst unit :=
  match k with
  | O => mret tt
  | S k' =>
      if to_send >? 0 then
        if bool_decide (i = me) then
          send_loop k' (S i) me curthread one_share victims to_send
        else
          to_send ← fill_cpu (Z.to_nat to_send) i curthread one_share victims to_send;
          send_loop k' (S i) me curthread one_share victims to_send
      else mret tt
  end.
Fixpoint put_back (fuel : nat) (me : nat) (victims : Z) : M kst unit :=
  match fuel with
  | O => mstop NoFuel
  | S f =>
      o ← on_tl (threadlist_remhead victims);
      match o with
      | None => mret tt
      | Some t => on_tl (threadlist_addtail (rq me) t) ≫= fun _ => put_back f me victims
      end
  end.
Definition thread_consider_migration (me : nat) : M kst unit :=
  numcpus ← mgets (fun s => length (cpus s));
  c ← get_cpu me;
  '(my_count, total_count) ← count_loop numcpus 0 me 0 0;
  let one_share := Bitmap.DIVROUNDUP total_count (Z.of_nat numcpus) in
  if my_count <? one_share then mret tt
  else
    let to_send := u32 (my_count - one_share) in
    on_tl (threadlist_init local_list) ≫= fun _ =>
    pick_victims (Z.to_nat to_send) me local_list ≫= fun _ =>
    send_loop numcpus 0 me (c_curthread c) one_share local_list to_send ≫= fun _ =>
    e ← on_tl (threadlist_isempty local_list);
    (if negb e then
       n ← on_tl (get_count local_list);
       put_back (S (Z.to_nat n)) me local_list
     else mret tt) ≫= fun _ =>
    e ← on_tl (threadlist_isempty local_list);
    kassert e ≫= fun _ =>
    on_tl (threadlist_cleanup local_list).

(** ** Lists in the state of the scheduler *)
Section lists.
Context (s : kst) (m : absstate) (W : world (tls s) m).

Lemma on_list_not_free l ts t : lists m !! l = Some ts -> t ∈ ts -> t ∉ free m.
Proof using W.
intros Hl Ht Hf. pose proof (rep_not_off _ _ _ _ (w_rep _ _ W _ _ Hl) (w_free _ _ W _ Hf)). done.
Qed.
Lemma count_run l ts : lists m !! l = Some ts ->
on_tl (get_count l) s = Done (Z.of_nat (length ts), s).
Proof using W.
intros Hl. unfold on_tl, get_count. rewrite (rep_count _ _ _ (w_rep _ _ W _ _ Hl)).
by destruct s.
Qed.
Lemma isempty_run l ts : lists m !! l = Some ts ->
on_tl (threadlist_isempty l) s = Done (bool_decide (ts = []), s).
Proof using W.
intros Hl. unfold on_tl, threadlist_isempty, get_count. mrun.
rewrite (rep_count _ _ _ (w_rep _ _ W _ _ Hl)). destruct ts; by destruct s.
Qed.
Lemma addhead_run l ts t : lists m !! l = Some ts -> t ∈ free m ->
Z.of_nat (length ts) + 1 < 2 ^ 32 ->
exists x, on_tl (threadlist_addhead l t) s = Done (tt, with_tls x s) /\
  world x (mkAbs (<[l := t :: ts]> (lists m)) (free m ∖ {[t]})).
Proof using W.
intros Hl Ht Hlen. destruct (insert_sim (tls s) m l [] ts t W Hl Ht Hlen) as [(x & R & Wx) _].
exists x. unfold on_tl. split; [|done]. change (before l []) with (HeadNode l) in R. unfold threadlist_addhead. by rewrite R.
Qed.
Lemma addtail_run l ts t : lists m !! l = Some ts -> t ∈ free m ->
Z.of_nat (length ts) + 1 < 2 ^ 32 ->
exists x, on_tl (threadlist_addtail l t) s = Done (tt, with_tls x s) /\
  world x (mkAbs (<[l := ts ++ [t]]> (lists m)) (free m ∖ {[t]})).
Proof using W.
intros Hl Ht Hlen. rewrite <- (app_nil_r ts) in Hl, Hlen.
destruct (insert_sim (tls s) m l ts [] t W Hl Ht Hlen) as [_ (x & R & Wx)].
exists x. unfold on_tl. split; [|done]. change (after l []) with (TailNode l) in R.
rewrite app_nil_r in *. unfold threadlist_addtail. by rewrite R.
Qed.
Lemma remove_run l ts1 t ts2 : lists m !! l = Some (ts1 ++ t :: ts2) ->
Z.of_nat (length (ts1 ++ t :: ts2)) < 2 ^ 32 ->
exists x, on_tl (threadlist_remove l t) s = Done (tt, with_tls x s) /\
  world x (mkAbs (<[l := ts1 ++ ts2]> (lists m)) (free m ∪ {[t]})).
Proof using W.
intros Hl Hlen. destruct (remove_sim (tls s) m l ts1 t ts2 W Hl Hlen) as (x & R & Wx).
exists x. unfold on_tl. split; [|done]. unfold threadlist_remove. by rewrite R.
Qed.
Lemma remhead_run l t ts : lists m !! l = Some (t :: ts) ->
Z.of_nat (length (t :: ts)) < 2 ^ 32 ->
exists x, on_tl (threadlist_remhead l) s = Done (Some t, with_tls x s) /\
  world x (mkAbs (<[l := ts]> (lists m)) (free m ∪ {[t]})).
Proof using W.
intros Hl Hlen. destruct (remove_step (tls s) m l [] t ts (RemHead l) (Some t) W Hl Hlen)
  as (x & R & Wx); [done|]. cbn [conc] in R. exists x. unfold on_tl. by rewrite R.
Qed.
Lemma remhead_empty l : lists m !! l = Some [] -> on_tl (threadlist_remhead l) s = Done (None, s).
Proof using W.
intros Hl. pose proof (empty_step (tls s) m l (RemHead l) W Hl (or_introl eq_refl)) as R.
cbn [conc] in R. unfold on_tl. rewrite R. by destruct s.
Qed.
Lemma init_run l : lists m !! l = None ->
exists x, on_tl (threadlist_init l) s = Done (tt, with_tls x s) /\
  world x (mkAbs (<[l := []]> (lists m)) (free m)).
Proof using W.
intros Hl. destruct (world_init_list (tls s) m l W Hl) as (x & R & Wx). exists x.
unfold on_tl. by rewrite R.
Qed.
Lemma next_head_run l t ts : lists m !! l = Some (t :: ts) ->
on_tl (next_self (HeadNode l)) s = Done (t, s).
Proof using W.
intros Hl. pose proof (w_rep _ _ W _ _ Hl) as Hr.
destruct (rep_neighbours _ _ [] (t :: ts) Hr) as (q1 & q2 & Hb & Ha & _).
cbn [before after last self_of] in Hb, Ha. unfold on_tl, next_self, node. mrun.
rewrite Hb. cbn [tln_next]. rewrite Ha. by destruct s.
Qed.
Lemma next_thread_run l ts1 t u ts2 : lists m !! l = Some (ts1 ++ t :: u :: ts2) ->
next_self (ThrNode t) (tls s) = Done (u, tls s).
Proof using W.
intros Hl. pose proof (w_rep _ _ W _ _ Hl) as Hr.
pose proof (rep_on_list _ _ _ _ _ Hr) as Ht. cbn [after] in Ht.
rewrite (cons_middle t) in Hr. rewrite app_assoc in Hr.
pose proof (rep_on_list _ _ _ _ _ Hr) as Hu. unfold next_self, node. mrun.
rewrite Ht. cbn [tln_next]. by rewrite Hu.
Qed.
End lists.

(** Taking a thread off a list and putting it on another. *)
Lemma move_head s m l1 ts1 t ts2 l2 us :
  world (tls s) m -> lists m !! l1 = Some (ts1 ++ t :: ts2) ->
  <[l1 := ts1 ++ ts2]> (lists m) !! l2 = Some us ->
  Z.of_nat (length (ts1 ++ t :: ts2)) < 2 ^ 32 -> Z.of_nat (length us) + 1 < 2 ^ 32 ->
  exists x y, on_tl (threadlist_remove l1 t) s = Done (tt, with_tls x s) /\
    on_tl (threadlist_addhead l2 t) (with_tls x s) = Done (tt, with_tls y s) /\
    world y (mkAbs (<[l2 := t :: us]> (<[l1 := ts1 ++ ts2]> (lists m))) (free m)).
Proof.
  intros W Hl Hus Hlen1 Hlen2. pose proof (on_list_not_free s m W l1 _ t Hl ltac:(set_solver)) as Hn.
  destruct (remove_run s m W l1 ts1 t ts2 Hl Hlen1) as (x & R1 & W1).
  destruct (addhead_run (with_tls x s) _ W1 l2 us t Hus ltac:(set_solver) Hlen2) as (y & R2 & W2).
  exists x, y. split; [done|]. split; [done|]. cbn [free] in W2.
  by replace ((free m ∪ {[t]}) ∖ {[t]}) with (free m) in W2 by set_solver.
Qed.

(** ** The thread of the lowest priority *)
Definition low (prio : Z -> Z) (temp : Z) (ts : list Z) : Z :=
  fold_left (fun u t => if prio t <? prio u then t else u) ts temp.
(** [t] is the first of the threads of the lowest priority. *)
Definition first_low (prio : Z -> Z) (ts1 : list Z) (t : Z) (ts2 : list Z) : Prop :=
  Forall (fun u => prio t < prio u) ts1 /\ Forall (fun u => prio t <= prio u) ts2.

Lemma low_spec prio ts : forall d1 temp d2,
  first_low prio d1 temp d2 ->
  exists ts1 ts2, d1 ++ temp :: d2 ++ ts = ts1 ++ low prio temp ts :: ts2 /\
    first_low prio ts1 (low prio temp ts) ts2.
Proof.
  induction ts as [|t ts IH]; intros d1 temp d2 [H1 H2]; cbn [low fold_left].
  { exists d1, d2. by rewrite app_nil_r. }
  destruct (Z.ltb_spec (prio t) (prio temp)) as [Hlt|Hge].
  - destruct (IH (d1 ++ temp :: d2) t []) as (ts1 & ts2 & E & Hf).
    { split; [|done]. apply Forall_app. split; [|constructor; [done|]];
        eapply Forall_impl; [exact H1|cbn; lia|exact H2|cbn; lia]. }
    exists ts1, ts2. split; [|done]. unfold low in E |- *. rewrite <- E.
    by rewrite <- app_assoc.
  - destruct (IH d1 temp (d2 ++ [t])) as (ts1 & ts2 & E & Hf).
    { split; [done|]. apply Forall_app. split; [done|]. by constructor. }
    exists ts1, ts2. split; [|done]. unfold low in E |- *. rewrite <- E.
    by rewrite <- app_assoc.
Qed.

Section find.
Context (s : kst) (m : absstate) (W : world (tls s) m) (l : Z) (ts : list Z).
Context (Hl : lists m !! l = Some ts).

Lemma walk_run k : forall d t r u,
ts = d ++ t :: r -> (t :: r) !! k = Some u -> on_tl (walk k t) s = Done (u, s).
Proof using W Hl.
induction k as [|k IH]; intros d t r u E Hu; cbn [walk].
- injection Hu as ->. unfold on_tl. mrun. by destruct s.
- destruct r as [|v r]; [done|]. rewrite E in Hl.
  pose proof (next_thread_run s m W l d t v r Hl) as R.
  unfold on_tl. rewrite (bind_Done _ _ _ _ _ R). change (on_tl (walk k v) s = Done (u, s)).
  apply (IH (d ++ [t]) v r); [by rewrite <- app_assoc, E|done].
Qed.
Lemma find_low_run r : forall fuel d t temp,
ts = d ++ t :: r -> (length (t :: r) <= fuel)%nat ->
find_low fuel l (Z.of_nat (length d)) t temp s
= Done (low (priority s) temp (t :: r), s).
Proof using W Hl.
induction r as [|v r IH]; intros fuel d t temp E Hf; (destruct fuel as [|f]; [cbn in Hf; lia|]);
  cbn [find_low]; rewrite E in Hl; pose proof (w_rep _ _ W _ _ Hl) as Hr;
  pose proof (rep_on_list _ _ _ _ _ Hr) as Ht;
  (assert (Rn : on_tl (node (ThrNode t)) s = Done (mkTln (Some (before l d)) (Some (after l _)) (Some t), s))
     by (unfold on_tl, node; rewrite Ht; by destruct s));
  rewrite (bind_Done _ _ _ _ _ Rn); cbn [tln_next]; cbv zeta;
  rewrite (bind_Done (mgets priority) _ _ (priority s) s) by done;
  rewrite (bind_Done _ _ _ _ _ (count_run s m W l _ Hl)).
- rewrite length_app. cbn [length]. rewrite (proj2 (Z.eqb_eq _ _)) by lia. done.
- rewrite length_app. cbn [length]. rewrite (proj2 (Z.eqb_neq _ _)) by lia.
  pose proof (next_thread_run s m W l d t v r Hl) as R.
  assert (R' : on_tl (next_self (ThrNode t)) s = Done (v, s)).
  { unfold on_tl. rewrite R. by destruct s. }
  rewrite (bind_Done _ _ _ _ _ R'). rewrite <- E in Hl.
  replace (Z.of_nat (length d) + 1) with (Z.of_nat (length (d ++ [t]))) by (rewrite length_app; cbn; lia).
  rewrite IH; [done|by rewrite <- app_assoc, E|cbn [length] in *; lia].
Qed.
Lemma lowest_run : ts <> [] -> exists ts1 t ts2,
ts = ts1 ++ t :: ts2 /\ first_low (priority s) ts1 t ts2 /\ lowest l s = Done (t, s).
Proof using W Hl.
intros Hne. assert (exists t r, ts = t :: r) as (t & r & E) by (destruct ts; eauto; done).
destruct (low_spec (priority s) r [] t []) as (ts1 & ts2 & Es & Hf); [done|].
exists ts1, (low (priority s) t r), ts2. split; [by rewrite E|]. split; [done|].
assert (Hl' : lists m !! l = Some (t :: r)) by by rewrite <- E.
unfold lowest. rewrite !(bind_Done _ _ _ _ _ (next_head_run s m W l t r Hl')).
rewrite (bind_Done _ _ _ _ _ (count_run s m W l _ Hl)). rewrite Nat2Z.id.
change 0 with (Z.of_nat (length (@nil Z))).
rewrite (find_low_run r (length ts) [] t t E) by (rewrite E; cbn; lia). cbn [low fold_left].
by rewrite Z.ltb_irrefl.
Qed.
End find.

Lemma to_front s m l ts1 t ts2 :
  world (tls s) m -> lists m !! l = Some (ts1 ++ t :: ts2) ->
  Z.of_nat (length (ts1 ++ t :: ts2)) < 2 ^ 32 ->
  exists x y, on_tl (threadlist_remove l t) s = Done (tt, with_tls x s) /\
    on_tl (threadlist_addhead l t) (with_tls x s) = Done (tt, with_tls y s) /\
    world y (mkAbs (<[l := t :: ts1 ++ ts2]> (lists m)) (free m)).
Proof.
  intros W Hl Hlen.
  destruct (move_head s m l ts1 t ts2 l (ts1 ++ ts2) W Hl) as (x & y & R1 & R2 & W2).
  - apply lookup_insert_eq.
  - done.
  - rewrite length_app in *. cbn [length] in Hlen. lia.
  - exists x, y. rewrite insert_insert_eq in W2. by split_and!.
Qed.

(** [schedule] on a run queue in memory.  An empty queue is left alone.
    Otherwise one thread moves to the front and the others keep their order,
    alternately the thread that the random number selects and the first of the
    threads of the lowest priority; no other list changes, and no access goes
    wrong. *)
Theorem schedule_correct me random s m ts :
  world (tls s) m -> lists m !! rq me = Some ts -> Z.of_nat (length ts) < 2 ^ 32 ->
  exists x fl, schedule me random s = Done (tt, with_switch_fl fl (with_tls x s)) /\
    match ts with
    | [] => x = tls s /\ fl = switch_fl s
    | _ => exists ts1 t ts2, ts = ts1 ++ t :: ts2 /\
        world x (mkAbs (<[rq me := t :: ts1 ++ ts2]> (lists m)) (free m)) /\
        if decide (switch_fl s = 0)
        then Z.of_nat (length ts1) = random mod Z.of_nat (length ts) /\ fl = 1
        else first_low (priority s) ts1 t ts2 /\ fl = 0
    end.
Proof.
  intros W Hl Hlen. unfold schedule. rewrite (bind_Done (mgets switch_fl) _ _ (switch_fl s) s) by done.
  rewrite (bind_Done _ _ _ _ _ (isempty_run s m W _ _ Hl)).
  destruct ts as [|t0 r]; cbn [bool_decide decide_rel].
  { exists (tls s), (switch_fl s). rewrite bool_decide_eq_true_2 by done.
    split; [|done]. destruct (Z.eqb_spec (switch_fl s) 0); by destruct s. }
  rewrite bool_decide_eq_false_2 by done. cbn [negb].
  destruct (Z.eqb_spec (switch_fl s) 0) as [E0|E0].
  - rewrite (bind_Done _ _ _ _ _ (count_run s m W _ _ Hl)).
    rewrite (bind_Done _ _ _ _ _ (next_head_run s m W _ _ _ Hl)).
    set (n := Z.of_nat (length (t0 :: r))) in *. assert (0 < n) by (unfold n; cbn; lia).
    pose proof (Z.mod_pos_bound random n ltac:(lia)) as Hr.
    destruct (lookup_lt_is_Some_2 (t0 :: r) (Z.to_nat (random mod n))) as [t Ht]; [lia|].
    rewrite (bind_Done _ _ _ _ _ (walk_run s m W _ _ Hl _ [] t0 r t eq_refl Ht)).
    pose proof (take_drop_middle _ _ _ Ht) as Es. set (ts1 := take _ _) in Es.
    rewrite <- Es in Hl.
    destruct (to_front s m _ _ _ _ W Hl) as (x & y & R1 & R2 & W2); [by rewrite Es|].
    rewrite (bind_Done _ _ _ _ _ R1), (bind_Done _ _ _ _ _ R2).
    exists y, 1. split; [done|]. eexists ts1, t, _. split; [done|]. split; [exact W2|].
    rewrite decide_True by done. split; [|done]. unfold ts1. rewrite length_take. lia.
  - destruct (lowest_run s m W _ _ Hl) as (ts1 & t & ts2 & Es & Hf & R0); [done|].
    rewrite (bind_Done _ _ _ _ _ R0). rewrite Es in Hl. rewrite Es in Hlen.
    destruct (to_front s m _ _ _ _ W Hl) as (x & y & R1 & R2 & W2); [done|].
    rewrite (bind_Done _ _ _ _ _ R1), (bind_Done _ _ _ _ _ R2).
    exists y, 0. split; [done|]. exists ts1, t, ts2. split; [done|]. split; [exact W2|].
    rewrite decide_False by done. done.
Qed.

(** ** Balancing the run queues *)

(** The state in the middle of a migration: the run queues [qs], the list of
    victims [V], and every other list as in [m0]. *)
Record balancing (m0 : absstate) (s : kst) (qs : list (list Z)) (V : list Z) : Prop := {
  b_world : exists L, world (tls s) (mkAbs L (free m0)) /\
    (forall i q, qs !! i = Some q -> L !! rq i = Some q) /\ L !! local_list = Some V /\
    (forall l, (forall i, l <> rq i) -> l <> local_list -> L !! l = lists m0 !! l);
  b_cpus : length (cpus s) = length qs;
  b_fits : Z.of_nat (length (concat qs ++ V)) + 1 < 2 ^ 32;
}.

Lemma rq_inj i j : rq i = rq j -> i = j.
Proof. unfold rq. lia. Qed.
Lemma rq_local i : rq i <> local_list.
Proof. unfold rq, local_list. lia. Qed.

Lemma concat_insert (qs : list (list Z)) i q :
  qs !! i = Some q -> forall q', concat (<[i := q']> qs) ++ q ≡ₚ concat qs ++ q'.
Proof.
  intros Hq q'. pose proof (lookup_lt_Some _ _ _ Hq) as Hi.
  rewrite insert_take_drop by done. rewrite <- (take_drop_middle qs i q Hq) at 3.
  rewrite !concat_app. cbn [concat]. rewrite <- !app_assoc. apply Permutation_app_head.
  rewrite (Permutation_app_comm q' (_ ++ q)), <- app_assoc, !app_assoc.
  apply Permutation_app_tail, Permutation_app_comm.
Qed.
Lemma concat_elem_length (qs : list (list Z)) i q :
  qs !! i = Some q -> (length q <= length (concat qs))%nat.
Proof.
  intros Hq. rewrite <- (take_drop_middle qs i q Hq). rewrite concat_app. cbn [concat].
  rewrite !length_app. lia.
Qed.

(** A new assignment of the threads to the lists. *)
Lemma balancing_step m0 s qs V i q q' V' :
  balancing m0 s qs V -> qs !! i = Some q -> q ++ V ≡ₚ q' ++ V' ->
  forall x, (forall L, world (tls s) (mkAbs L (free m0)) -> L !! rq i = Some q ->
     L !! local_list = Some V ->
     world x (mkAbs (<[local_list := V']> (<[rq i := q']> L)) (free m0))) ->
  balancing m0 (with_tls x s) (<[i := q']> qs) V'.
Proof.
  intros [(L & W & Hqs & HV & Ho) Hc Hf] Hq HP x Hx. split.
  - eexists. split; [by apply (Hx L W (Hqs _ _ Hq) HV)|]. split_and!.
    + intros j r. rewrite list_lookup_insert_Some. intros [(<- & -> & _)|[Hne Hj]].
      * rewrite lookup_insert_ne by (intros ?; by eapply rq_local). apply lookup_insert_eq.
      * rewrite !lookup_insert_ne; [by apply Hqs|by intros ->%rq_inj|].
        intros E. symmetry in E. by apply rq_local in E.
    + apply lookup_insert_eq.
    + intros l Hl1 Hl2. rewrite !lookup_insert_ne by done. by apply Ho.
  - cbn [with_tls cpus]. by rewrite length_insert.
  - replace (length (concat (<[i := q']> qs) ++ V')) with (length (concat qs ++ V)); [done|].
    pose proof (Permutation_length (concat_insert qs i q Hq q')) as E1.
    pose proof (Permutation_length HP) as E2. rewrite !length_app in *. lia.
Qed.
Lemma balancing_frame m0 s s' qs V :
  balancing m0 s qs V -> tls s' = tls s -> length (cpus s') = length (cpus s) ->
  balancing m0 s' qs V.
Proof. intros [Hw Hc Hf] Et Ec. split; [by rewrite Et|congruence|done]. Qed.

Section steps.
Context (m0 : absstate) (s : kst) (qs : list (list Z)).

Lemma balancing_count i q V :
balancing m0 s qs V -> qs !! i = Some q ->
on_tl (get_count (rq i)) s = Done (Z.of_nat (length q), s) /\
Z.of_nat (length q) + Z.of_nat (length V) + 1 < 2 ^ 32.
Proof.
intros [(L & W & Hqs & _) Hc Hf] Hq. split; [by eapply count_run; [exact W|apply Hqs]|].
pose proof (concat_elem_length qs i q Hq). rewrite length_app in Hf. lia.
Qed.

Lemma pick_run me q V :
balancing m0 s qs V -> qs !! me = Some q -> q <> [] ->
exists ts1 t ts2 x y, q = ts1 ++ t :: ts2 /\ lowest (rq me) s = Done (t, s) /\
  on_tl (threadlist_remove (rq me) t) s = Done (tt, with_tls x s) /\
  on_tl (threadlist_addhead local_list t) (with_tls x s) = Done (tt, with_tls y s) /\
  balancing m0 (with_tls y s) (<[me := ts1 ++ ts2]> qs) (t :: V).
Proof.
intros Hb Hq Hne. pose proof Hb as [(L & W & Hqs & HV & _) _ _].
destruct (balancing_count me q V Hb Hq) as [_ Hlen].
destruct (lowest_run s _ W _ q (Hqs _ _ Hq) Hne) as (ts1 & t & ts2 & -> & _ & R0).
assert (Hmove : forall L, world (tls s) (mkAbs L (free m0)) -> L !! rq me = Some (ts1 ++ t :: ts2) ->
   L !! local_list = Some V -> exists x y,
  on_tl (threadlist_remove (rq me) t) s = Done (tt, with_tls x s) /\
  on_tl (threadlist_addhead local_list t) (with_tls x s) = Done (tt, with_tls y s) /\
  world y (mkAbs (<[local_list := t :: V]> (<[rq me := ts1 ++ ts2]> L)) (free m0))).
{ intros L' W' H1 H2. apply (move_head s (mkAbs L' (free m0))); cbn [lists]; try done; try lia.
  rewrite lookup_insert_ne by apply rq_local. done. }
destruct (Hmove L W (Hqs _ _ Hq) HV) as (x & y & R1 & R2 & _).
exists ts1, t, ts2, x, y. split_and!; try done.
apply (balancing_step m0 s qs V me (ts1 ++ t :: ts2)); [done..| |].
- rewrite <- !app_assoc. apply Permutation_app_head. cbn. apply Permutation_middle.
- intros L' W' H1 H2. destruct (Hmove L' W' H1 H2) as (x' & y' & R1' & R2' & W2).
  rewrite R1 in R1'. injection R1' as <-. rewrite R2 in R2'. by injection R2' as <-.
Qed.

(** The head of the victims, to the end of a run queue or of the victims. *)
Lemma pop_run t V :
balancing m0 s qs (t :: V) ->
exists x, on_tl (threadlist_remhead local_list) s = Done (Some t, with_tls x s) /\
  (forall i q s1, qs !! i = Some q -> tls s1 = x -> length (cpus s1) = length (cpus s) ->
     exists y, on_tl (threadlist_addtail (rq i) t) s1 = Done (tt, with_tls y s1) /\
       balancing m0 (with_tls y s1) (<[i := q ++ [t]]> qs) V) /\
  exists y, on_tl (threadlist_addtail local_list t) (with_tls x s) = Done (tt, with_tls y s) /\
    balancing m0 (with_tls y s) qs (V ++ [t]).
Proof.
intros [(L & W & Hqs & HV & Ho) Hc Hf].
pose proof (on_list_not_free s _ W local_list _ t HV ltac:(set_solver)) as Hn. cbn [free] in Hn.
assert (Efree : (free m0 ∪ {[t]}) ∖ {[t]} = free m0) by set_solver.
rewrite length_app in Hf. cbn [length] in Hf.
destruct (remhead_run s _ W local_list t V HV ltac:(cbn [length]; lia)) as (x & R & Wx).
cbn [lists free] in Wx. exists x. split; [done|]. split.
- intros i q s1 Hq Et Ec. pose proof (concat_elem_length qs i q Hq) as Hlen.
  destruct (addtail_run s1 (mkAbs (<[local_list := V]> L) (free m0 ∪ {[t]})) ltac:(by rewrite Et)
    (rq i) q t) as (y & Ry & Wy); cbn [lists free]; [|set_solver|lia|].
  { rewrite lookup_insert_ne; [by apply Hqs|]. intros E. symmetry in E. by apply rq_local in E. }
  exists y. split; [done|]. cbn [lists free] in Wy. rewrite Efree in Wy. split.
  + eexists. split; [exact Wy|]. split_and!.
    * intros j r. rewrite list_lookup_insert_Some. intros [(<- & -> & _)|[Hne Hj]];
        [apply lookup_insert_eq|]. rewrite !lookup_insert_ne; [by apply Hqs| |by intros ->%rq_inj].
      intros E. symmetry in E. by apply rq_local in E.
    * rewrite lookup_insert_ne by apply rq_local. apply lookup_insert_eq.
    * intros l Hl1 Hl2. rewrite !lookup_insert_ne by done. by apply Ho.
  + cbn [with_tls cpus]. rewrite length_insert. congruence.
  + pose proof (Permutation_length (concat_insert qs i q Hq (q ++ [t]))) as E1.
    rewrite !length_app in *. cbn [length] in *. lia.
- destruct (addtail_run (with_tls x s) _ Wx local_list V t) as (y & Ry & Wy);
    cbn [lists free]; [apply lookup_insert_eq|set_solver|lia|].
  exists y. split; [done|]. cbn [lists free] in Wy. rewrite Efree, insert_insert_eq in Wy. split.
  + eexists. split; [exact Wy|]. split_and!.
    * intros j r Hj. rewrite lookup_insert_ne; [by apply Hqs|].
      intros E. symmetry in E. by apply rq_local in E.
    * apply lookup_insert_eq.
    * intros l Hl1 Hl2. rewrite lookup_insert_ne by done. by apply Ho.
  + done.
  + rewrite !length_app. cbn [length]. lia.
Qed.
End steps.

Lemma pick_victims_run m0 k : forall s qs me q V,
  balancing m0 s qs V -> qs !! me = Some q -> (k <= length q)%nat ->
  exists x q' V', pick_victims k me local_list s = Done (tt, with_tls x s) /\
    balancing m0 (with_tls x s) (<[me := q']> qs) V' /\ q ++ V ≡ₚ q' ++ V' /\
    length V' = (k + length V)%nat.
Proof.
  induction k as [|k IH]; intros s qs me q V Hb Hq Hk; cbn [pick_victims].
  { exists (tls s), q, V. rewrite list_insert_id by done. by destruct s. }
  destruct (pick_run m0 s qs me q V Hb Hq) as (ts1 & t & ts2 & x & y & -> & R0 & R1 & R2 & Hb2);
    [intros ->; cbn in Hk; lia|].
  rewrite (bind_Done _ _ _ _ _ R0), (bind_Done _ _ _ _ _ R1), (bind_Done _ _ _ _ _ R2).
  destruct (IH (with_tls y s) _ me (ts1 ++ ts2) (t :: V) Hb2) as (x' & q' & V' & R & Hb3 & HP & Hl).
  - apply list_lookup_insert_eq. by eapply lookup_lt_Some.
  - rewrite length_app in *. cbn [length] in Hk. lia.
  - exists x', q', V'. rewrite R. rewrite list_insert_insert_eq in Hb3. split_and!; try done.
    + rewrite <- HP, <- !app_assoc. apply Permutation_app_head, Permutation_middle.
    + rewrite Hl. cbn. lia.
Qed.

(** What sending an interrupt may change. *)
Definition only_ipi (s s' : kst) : Prop :=
  exists cs, s' = with_cpus cs s /\ length cs = length (cpus s).
Lemma idle_ipi_run i s :
  (i < length (cpus s))%nat ->
  exists c s', cpus s !! i = Some c /\
    (if c_isidle c then ipi_send i IPI_UNIDLE else mret tt) s = Done (tt, s') /\ only_ipi s s'.
Proof.
  intros Hi. destruct (lookup_lt_is_Some_2 _ _ Hi) as [c Hc]. exists c.
  destruct (c_isidle c).
  - eexists. split; [done|]. unfold ipi_send, get_cpu, put_cpu.
    change ((IPI_UNIDLE >=? 0) && (IPI_UNIDLE <? 32)) with true. mrun. rewrite Hc. split; [reflexivity|]. eexists. split; [done|]. apply length_insert.
  - exists s. split; [done|]. split; [done|]. exists (cpus s). by destruct s.
Qed.

(** [to_send] victims are left to be sent; the current thread, once passed
    over, is the last of the list. *)
Definition victims_left (curthread : Z) (V : list Z) (to_send : Z) : Prop :=
  Z.of_nat (length V) = to_send \/
  (exists V0, V = V0 ++ [curthread] /\ Z.of_nat (length V0) = to_send).

(** What one CPU gets. *)
Record filled (s s' : kst) (i : nat) (curthread one_share : Z) (q new : list Z) : Prop := {
  f_share : new = [] \/ Z.of_nat (length (q ++ new)) <= one_share;
  f_cur : curthread ∉ new;
  f_tcpu : forall t, t_cpu s' !! t = if decide (t ∈ new) then Some i else t_cpu s !! t;
  f_len : length (cpus s') = length (cpus s);
}.

Lemma filled_nil s i curthread one_share q : filled s s i curthread one_share q [].
Proof.
  split; [by left|set_solver| |done]. intros t. by rewrite decide_False by set_solver.
Qed.
(** The first victim when some are left to be sent. *)
Lemma victims_left_cons curthread V to_send :
  victims_left curthread V to_send -> NoDup V -> 0 < to_send ->
  exists t V1, V = t :: V1 /\
    (t <> curthread -> victims_left curthread V1 (to_send - 1)) /\
    (t = curthread -> victims_left curthread (V1 ++ [t]) (to_send - 1)).
Proof.
  intros [Hl|(V0 & -> & Hl)] Hnd Hpos.
  - destruct V as [|t V1]; [cbn in Hl; lia|]. exists t, V1. split; [done|]. cbn [length] in Hl.
    split; intros Et; [left; lia|]. right. exists V1. rewrite Et. split; [done|lia].
  - destruct V0 as [|t V1]; [cbn in Hl; lia|]. exists t, (V1 ++ [curthread]). split; [done|].
    cbn [length] in Hl. split; intros Et; [right; exists V1; split; [done|lia]|].
    exfalso. subst t. cbn [app] in Hnd. apply NoDup_cons in Hnd as [Hn _]. set_solver.
Qed.
Lemma filled_cons s s1 s2 i curthread one_share q t new :
  t <> curthread -> Z.of_nat (length q) < one_share ->
  t_cpu s1 = <[t := i]> (t_cpu s) -> length (cpus s1) = length (cpus s) ->
  filled s1 s2 i curthread one_share (q ++ [t]) new ->
  filled s s2 i curthread one_share q (t :: new).
Proof.
  intros Ht Hlt Et Ec [Hs Hc Htc Hl]. split.
  - right. rewrite cons_middle, app_assoc. destruct Hs as [->|Hs]; [|done].
    rewrite app_nil_r, length_app. cbn. lia.
  - set_solver.
  - intros u. rewrite Htc, Et. destruct (decide (u ∈ new)) as [Hu|Hu].
    + by rewrite decide_True by set_solver.
    + destruct (decide (u = t)) as [->|Hne].
      * rewrite lookup_insert_eq, decide_True by set_solver. done.
      * rewrite lookup_insert_ne, decide_False by set_solver. done.
  - congruence.
Qed.

Lemma fill_cpu_run m0 i curthread one_share : forall fuel s qs q V to_send,
  balancing m0 s qs V -> NoDup V -> qs !! i = Some q -> 0 <= to_send <= Z.of_nat fuel ->
  victims_left curthread V to_send ->
  exists s' new V' k, fill_cpu fuel i curthread one_share local_list to_send s = Done (k, s') /\
    balancing m0 s' (<[i := q ++ new]> qs) V' /\ V ≡ₚ new ++ V' /\
    victims_left curthread V' k /\ filled s s' i curthread one_share q new /\
    0 <= k <= to_send - Z.of_nat (length new) /\
    (k = 0 \/ one_share - Z.of_nat (length q) <= to_send - k).
Proof.
  assert (Hstop : forall s qs q V to_send, balancing m0 s qs V -> qs !! i = Some q ->
    0 <= to_send -> victims_left curthread V to_send ->
    to_send = 0 \/ one_share <= Z.of_nat (length q) ->
    exists s' new V' k, (mret to_send : M kst Z) s = Done (k, s') /\
    balancing m0 s' (<[i := q ++ new]> qs) V' /\ V ≡ₚ new ++ V' /\
    victims_left curthread V' k /\ filled s s' i curthread one_share q new /\
    0 <= k <= to_send - Z.of_nat (length new) /\
    (k = 0 \/ one_share - Z.of_nat (length q) <= to_send - k)).
  { intros s qs q V to_send Hb Hq Hk Hvl Hor. exists s, [], V, to_send.
    rewrite app_nil_r, list_insert_id by done. split_and!; try done; [apply filled_nil|cbn; lia..]. }
  induction fuel as [|fuel IH]; intros s qs q V to_send Hb Hnd Hq Hk Hvl; cbn [fill_cpu];
    destruct (balancing_count m0 s qs i q V Hb Hq) as [Rc Hlen];
    rewrite (bind_Done _ _ _ _ _ Rc), Z.gtb_ltb.
  { rewrite (proj2 (Z.ltb_ge 0 to_send)), andb_false_r by lia. apply (Hstop s qs q V); done || lia. }
  destruct (Z.ltb_spec (Z.of_nat (length q)) one_share) as [Hlt|Hge]; cbn [andb];
    [|apply (Hstop s qs q V); done || lia].
  destruct (Z.ltb_spec 0 to_send) as [Hpos|Hz]; [|apply (Hstop s qs q V); done || lia].
  destruct (victims_left_cons _ _ _ Hvl Hnd Hpos) as (t & V1 & -> & Hsend & Hskip).
  destruct (pop_run m0 s qs t V1 Hb) as (x & R1 & Hpush & (y0 & Rrot & Hbrot)).
  rewrite (bind_Done _ _ _ _ _ R1). destruct (decide (t = curthread)) as [Et|Ht].
  - rewrite bool_decide_eq_true_2 by by rewrite Et. rewrite Et in Rrot.
    rewrite (bind_Done _ _ _ _ _ Rrot).
    destruct (IH (with_tls y0 s) qs q (V1 ++ [t]) (to_send - 1)) as
      (s' & new & V' & k & R & Hb' & HP & Hvl' & Hf & Hk' & Hor);
      [done| |done|lia|by apply Hskip|].
    { rewrite Permutation_app_comm. done. }
    exists s', new, V', k. split; [done|]. split_and!; try done; [|by destruct Hf|lia..].
    rewrite <- HP. symmetry. apply Permutation_app_comm.
  - rewrite bool_decide_eq_false_2 by congruence.
    rewrite (bind_Done (deref (Some t)) _ _ t (with_tls x s)) by done.
    set (s1 := with_t_cpu (<[t := i]> (t_cpu s)) (with_tls x s)).
    rewrite (bind_Done (mmodify _) _ _ tt s1) by done.
    destruct (Hpush i q s1 Hq eq_refl eq_refl) as (y & R2 & Hb2).
    rewrite (bind_Done _ _ _ _ _ R2).
    assert (Hi : (i < length (cpus (with_tls y s1)))%nat).
    { rewrite (b_cpus _ _ _ _ Hb2), length_insert. by eapply lookup_lt_Some. }
    destruct (idle_ipi_run i _ Hi) as (c & s2 & Hc & R3 & (cs & -> & Hcs)).
    unfold get_cpu at 1. rewrite (bind_Done _ _ (with_tls y s1) c (with_tls y s1))
      by (unfold mbind, M_bind, mgets; rewrite Hc; done).
    rewrite (bind_Done _ _ _ _ _ R3).
    destruct (IH (with_cpus cs (with_tls y s1)) (<[i := q ++ [t]]> qs) (q ++ [t]) V1 (to_send - 1)) as
      (s' & new & V' & k & R & Hb' & HP & Hvl' & Hf & Hk' & Hor).
    + by eapply balancing_frame.
    + by apply NoDup_cons in Hnd as [_ ?].
    + apply list_lookup_insert_eq. by eapply lookup_lt_Some.
    + lia.
    + by apply Hsend.
    + exists s', (t :: new), V', k. split; [done|]. rewrite list_insert_insert_eq in Hb'.
      rewrite <- app_assoc in Hb'. rewrite length_app in Hor. cbn [length app] in *.
      split_and!; try done; [by rewrite HP| |lia..].
      eapply (filled_cons s (with_cpus cs (with_tls y s1))); done.
Qed.

(** Every thread of a queue belongs to the queue's CPU. *)
Definition placed (s : kst) (qs : list (list Z)) : Prop :=
  forall i q t, qs !! i = Some q -> t ∈ q -> t_cpu s !! t = Some i.
(** Room below the share on the CPUs other than [me], from CPU [i] on. *)
Fixpoint spare (one_share : Z) (me i : nat) (qs : list (list Z)) : Z :=
  match qs with
  | [] => 0
  | q :: r => (if decide (i = me) then 0 else Z.max 0 (one_share - Z.of_nat (length q))) +
              spare one_share me (S i) r
  end.

Lemma spare_nonneg one_share me i qs : 0 <= spare one_share me i qs.
Proof.
  revert i. induction qs as [|q qs IH]; intros i; cbn [spare]; [lia|]. specialize (IH (S i)).
  case_decide; lia.
Qed.
Lemma balancing_nodup m0 s qs V : balancing m0 s qs V -> NoDup V.
Proof. intros [(L & W & _ & HV & _) _ _]. apply (rep_nodup _ _ _ (w_rep _ _ W _ _ HV)). Qed.
Lemma balancing_disjoint m0 s qs V i j q q' t :
  balancing m0 s qs V -> qs !! i = Some q -> t ∈ q ->
  (t ∉ V) /\ (qs !! j = Some q' -> t ∈ q' -> i = j).
Proof.
  intros [(L & W & Hqs & HV & _) _ _] Hq Ht. split.
  - intros HtV. apply (rq_local i). by eapply (w_disj _ _ W); [apply (Hqs _ _ Hq)|exact HV|..].
  - intros Hq' Ht'. apply rq_inj. by eapply (w_disj _ _ W); [apply (Hqs _ _ Hq)|apply (Hqs _ _ Hq')|..].
Qed.

(** The queues after the victims were handed out. *)
Record spread (s s' : kst) (me : nat) (curthread one_share : Z) (qs qs' : list (list Z))
    (V V' : list Z) : Prop := {
  sp_perm : concat qs ++ V ≡ₚ concat qs' ++ V';
  sp_me : qs' !! me = qs !! me;
  sp_new : forall j q, qs !! j = Some q -> j <> me -> exists new, qs' !! j = Some (q ++ new) /\
    (new = [] \/ Z.of_nat (length (q ++ new)) <= one_share) /\ curthread ∉ new;
  sp_placed : placed s qs -> (forall t, t ∈ V -> t_cpu s !! t = Some me) ->
    placed s' qs' /\ (forall t, t ∈ V' -> t_cpu s' !! t = Some me);
  sp_left : forall t, t ∈ V' -> t ∈ V;
  sp_len : length qs' = length qs;
}.
Lemma spread_refl s me curthread one_share qs V : spread s s me curthread one_share qs qs V V.
Proof.
  split; try done. intros j q Hq _. exists []. rewrite app_nil_r. split_and!; [done|by left|set_solver].
Qed.

Lemma filled_spread m0 s s' i me curthread one_share qs q new V V' :
  balancing m0 s qs V -> qs !! i = Some q -> i <> me -> V ≡ₚ new ++ V' -> NoDup V ->
  filled s s' i curthread one_share q new ->
  spread s s' me curthread one_share qs (<[i := q ++ new]> qs) V V'.
Proof.
  intros Hb Hq Hi HP Hnd [Hs Hc Ht Hl]. split.
  - pose proof (concat_insert qs i q Hq (q ++ new)) as HI.
    apply (Permutation_app_inv_r q). transitivity ((concat (<[i := q ++ new]> qs) ++ q) ++ V').
    + rewrite HI, HP, <- !app_assoc. apply Permutation_app_head. rewrite !app_assoc.
      rewrite (Permutation_app_comm (new ++ V') q), <- !app_assoc. done.
    + rewrite <- !app_assoc. apply Permutation_app_head, Permutation_app_comm.
  - by rewrite list_lookup_insert_ne.
  - intros j r Hj Hjm. destruct (decide (j = i)) as [->|Hne].
    + exists new. rewrite Hq in Hj. injection Hj as <-. split_and!; [|done..].
      apply list_lookup_insert_eq. by eapply lookup_lt_Some.
    + exists []. rewrite app_nil_r, list_lookup_insert_ne by done. split_and!; [done|by left|set_solver].
  - intros Hp HV. split.
    + intros j r t. rewrite list_lookup_insert_Some, Ht. intros [(<- & <- & _)|[Hne Hj]] Htr.
      * apply elem_of_app in Htr as [Htq|Htn]; [|by rewrite decide_True].
        case_decide; [done|]. by eapply Hp.
      * rewrite decide_False; [by eapply Hp|]. intros Htn.
        destruct (balancing_disjoint m0 s qs V j j r r t Hb Hj Htr) as [HtV _]. apply HtV. rewrite HP.
        set_solver.
    + intros t HtV. rewrite Ht, decide_False; [apply HV; rewrite HP; set_solver|].
      intros Htn. rewrite HP in Hnd. apply NoDup_app in Hnd as (_ & Hd & _). by apply (Hd t).
  - intros t HtV. rewrite HP. set_solver.
  - apply length_insert.
Qed.
Lemma spread_trans s1 s2 s3 me curthread one_share qs1 qs2 qs3 V1 V2 V3 :
  spread s1 s2 me curthread one_share qs1 qs2 V1 V2 ->
  spread s2 s3 me curthread one_share qs2 qs3 V2 V3 ->
  spread s1 s3 me curthread one_share qs1 qs3 V1 V3.
Proof.
  intros [P1 M1 N1 L1 O1 E1] [P2 M2 N2 L2 O2 E2]. split.
  - by rewrite P1.
  - by rewrite M2.
  - intros j q Hq Hj. destruct (N1 j q Hq Hj) as (n1 & Hq2 & Hs1 & Hc1).
    destruct (N2 j _ Hq2 Hj) as (n2 & Hq3 & Hs2 & Hc2). exists (n1 ++ n2).
    rewrite app_assoc. split_and!; [done| |set_solver].
    destruct Hs2 as [->|Hs2]; [|by right]. rewrite !app_nil_r. done.
  - intros Hp HV1. destruct (L1 Hp HV1) as [Hp2 HV2]. by apply L2.
  - intros t Ht. by apply O1, O2.
  - congruence.
Qed.

Lemma send_loop_run m0 me curthread one_share k : forall i s qs V to_send,
  balancing m0 s qs V -> (i + k = length qs)%nat -> victims_left curthread V to_send ->
  0 <= to_send <= spare one_share me i (drop i qs) ->
  exists s' qs' V', send_loop k i me curthread one_share local_list to_send s = Done (tt, s') /\
    balancing m0 s' qs' V' /\ victims_left curthread V' 0 /\
    spread s s' me curthread one_share qs qs' V V'.
Proof.
  induction k as [|k IH]; intros i s qs V to_send Hb Hk Hvl Hsp; cbn [send_loop].
  { rewrite drop_ge in Hsp by lia. cbn in Hsp. exists s, qs, V. split_and!; try done.
    - by replace to_send with 0 in Hvl by lia.
    - apply spread_refl. }
  rewrite Z.gtb_ltb. destruct (Z.ltb_spec 0 to_send) as [Hpos|Hz].
  2: { exists s, qs, V. split_and!; try done; [|apply spread_refl].
       by replace to_send with 0 in Hvl by lia. }
  destruct (lookup_lt_is_Some_2 qs i) as [q Hq]; [lia|].
  rewrite (drop_S _ _ _ Hq) in Hsp. cbn [spare] in Hsp.
  destruct (decide (i = me)) as [Ei|Hi].
  - rewrite bool_decide_eq_true_2 by done. apply IH; done || lia.
  - rewrite bool_decide_eq_false_2 by done.
    pose proof (balancing_nodup _ _ _ _ Hb) as Hnd.
    destruct (fill_cpu_run m0 i curthread one_share (Z.to_nat to_send) s qs q V to_send)
      as (s1 & new & V1 & k1 & R & Hb1 & HP & Hvl1 & Hf & Hk1 & Hor); [done..|lia|done|].
    rewrite (bind_Done _ _ _ _ _ R).
    destruct (IH (S i) s1 _ V1 k1 Hb1) as (s2 & qs2 & V2 & R2 & Hb2 & Hvl2 & Hs2).
    + rewrite length_insert. lia.
    + done.
    + rewrite drop_insert_lt by lia. pose proof (spare_nonneg one_share me (S i) (drop (S i) qs)). destruct Hor; lia.
    + exists s2, qs2, V2. split_and!; try done.
      eapply spread_trans; [by eapply filled_spread|exact Hs2].
Qed.

Lemma put_back_run m0 me V : forall fuel s qs q,
  balancing m0 s qs V -> qs !! me = Some q -> (length V < fuel)%nat ->
  exists x, put_back fuel me local_list s = Done (tt, with_tls x s) /\
    balancing m0 (with_tls x s) (<[me := q ++ V]> qs) [].
Proof.
  induction V as [|t V IH]; intros fuel s qs q Hb Hq Hf; (destruct fuel as [|f]; [cbn in Hf; lia|]);
    cbn [put_back].
  - pose proof Hb as [(L & W & _ & HV & _) _ _].
    rewrite (bind_Done _ _ _ _ _ (remhead_empty s _ W _ HV)). exists (tls s).
    rewrite app_nil_r, list_insert_id by done. split; by destruct s.
  - destruct (pop_run m0 s qs t V Hb) as (x & R & Hpush & _). rewrite (bind_Done _ _ _ _ _ R).
    destruct (Hpush me q (with_tls x s) Hq eq_refl eq_refl) as (y & R2 & Hb2).
    rewrite (bind_Done _ _ _ _ _ R2). cbn [with_tls tls cpus t_cpu priority switch_fl] in *.
    destruct (IH f (with_tls y s) _ (q ++ [t]) Hb2) as (z & R3 & Hb3).
    + apply list_lookup_insert_eq. by eapply lookup_lt_Some.
    + cbn [length] in Hf. lia.
    + exists z. split; [exact R3|]. by rewrite list_insert_insert_eq, <- app_assoc in Hb3.
Qed.

Lemma count_loop_run s m me qs k : forall i my total,
  world (tls s) m -> (forall i q, qs !! i = Some q -> lists m !! rq i = Some q) ->
  (i + k = length qs)%nat -> 0 <= total -> total + Z.of_nat (length (concat (drop i qs))) < 2 ^ 32 ->
  count_loop k i me my total s
  = Done (match drop i qs !! (me - i)%nat with
          | Some q => if decide (i <= me)%nat then Z.of_nat (length q) else my
          | None => my
          end, total + Z.of_nat (length (concat (drop i qs))), s).
Proof.
  induction k as [|k IH]; intros i my total W Hqs Hk Htot Hfit; cbn [count_loop].
  { rewrite drop_ge by lia. cbn. rewrite Z.add_0_r. done. }
  destruct (lookup_lt_is_Some_2 qs i) as [q Hq]; [lia|]. rewrite (drop_S _ _ _ Hq) in Hfit |- *.
  rewrite (bind_Done _ _ _ _ _ (count_run s m W _ _ (Hqs _ _ Hq))).
  cbn [concat] in Hfit |- *. rewrite length_app in Hfit |- *.
  rewrite IH by (done || lia || (rewrite uwrap_small by lia; lia)).
  rewrite uwrap_small by lia. do 2 f_equal. f_equal; [|lia].
  destruct (decide (i = me)) as [->|Hne].
  - rewrite bool_decide_eq_true_2 by done. rewrite Nat.sub_diag. cbn [lookup list_lookup].
    rewrite decide_True by lia. destruct (drop (S me) qs !! _); [|done].
    by rewrite decide_False by lia.
  - rewrite bool_decide_eq_false_2 by done. destruct (decide (i <= me)%nat) as [Hle|Hgt].
    + replace (me - i)%nat with (S (me - S i)) by lia.
      change ((q :: drop (S i) qs) !! S (me - S i)%nat) with (drop (S i) qs !! (me - S i)%nat).
      destruct (drop (S i) qs !! (me - S i)%nat); [|done]. by rewrite decide_True by lia.
    + replace (me - i)%nat with 0%nat by lia. cbn [lookup list_lookup].
      destruct (drop (S i) qs !! _); [|done]. by rewrite decide_False by lia.
Qed.

Lemma spare_absent one_share me qs : forall i, (me < i)%nat ->
  one_share * Z.of_nat (length qs) - Z.of_nat (length (concat qs)) <= spare one_share me i qs.
Proof.
  induction qs as [|q qs IH]; intros i Hi; cbn [spare length concat]; [lia|].
  specialize (IH (S i) ltac:(lia)). rewrite length_app, decide_False by lia. lia.
Qed.
Lemma spare_present one_share me qs : forall i q, (i <= me)%nat -> qs !! (me - i)%nat = Some q ->
  one_share * (Z.of_nat (length qs) - 1) - (Z.of_nat (length (concat qs)) - Z.of_nat (length q))
  <= spare one_share me i qs.
Proof.
  induction qs as [|r qs IH]; intros i q Hi Hq; cbn [spare length concat]; [done|].
  rewrite length_app. destruct (decide (i = me)) as [->|Hne].
  - rewrite Nat.sub_diag in Hq. injection Hq as ->.
    pose proof (spare_absent one_share me qs (S me) ltac:(lia)). lia.
  - replace (me - i)%nat with (S (me - S i)) in Hq by lia.
    specialize (IH (S i) q ltac:(lia) Hq). lia.
Qed.

(** The run queues of a machine. *)
Record queues (s : kst) (m : absstate) (qs : list (list Z)) : Prop := {
  q_world : world (tls s) m;
  q_lists : forall i q, qs !! i = Some q -> lists m !! rq i = Some q;
  q_local : lists m !! local_list = None;
  q_cpus : length (cpus s) = length qs;
  q_fits : Z.of_nat (length (concat qs)) + Z.of_nat (length qs) + 1 < 2 ^ 32;
}.
Definition others_kept (m m' : absstate) : Prop :=
  free m' = free m /\ forall l, (forall i, l <> rq i) -> lists m' !! l = lists m !! l.

Lemma cleanup_run s m :
  world (tls s) m -> lists m !! local_list = Some [] ->
  on_tl (threadlist_cleanup local_list) s = Done (tt, s).
Proof.
  intros W HV. pose proof (rep_count _ _ _ (w_rep _ _ W _ _ HV)) as Ec.
  unfold on_tl, threadlist_cleanup, threadlist_isempty, get_count. mrun.
  rewrite Ec. change (Z.of_nat (length (@nil Z)) =? 0) with true. cbv iota beta.
  rewrite Ec. by destruct s.
Qed.
Lemma queues_start s m qs :
  queues s m qs -> exists x, on_tl (threadlist_init local_list) s = Done (tt, with_tls x s) /\
    balancing m (with_tls x s) qs [].
Proof.
  intros [W Hq Hl Hc Hf]. destruct (init_run s m W _ Hl) as (x & R & Wx). exists x.
  split; [done|]. split; [|done|rewrite app_nil_r; lia]. eexists. split; [exact Wx|]. split_and!.
  - intros i q Hi. rewrite lookup_insert_ne; [by apply Hq|]. intros E. symmetry in E. by apply rq_local in E.
  - apply lookup_insert_eq.
  - intros l _ Hne. by rewrite lookup_insert_ne.
Qed.
Lemma queues_end s m qs s' qs' :
  queues s m qs -> balancing m s' qs' [] -> length qs' = length qs ->
  concat qs' ≡ₚ concat qs ->
  on_tl (threadlist_cleanup local_list) s' = Done (tt, s') /\
  exists m', queues s' m' qs' /\ others_kept m m'.
Proof.
  intros [W Hq Hl Hc Hf] [(L & W' & Hqs & HV & Ho) Hc' Hf'] Elen HP. split.
  { exact (cleanup_run s' _ W' HV). }
  exists (mkAbs (delete local_list L) (free m)). split; [split|split]; cbn [lists free].
  - destruct W' as [Wr Wf Wd]. cbn [lists free] in *. split; cbn [lists free].
    + intros l ts [_ Hts]%lookup_delete_Some. by apply Wr.
    + done.
    + intros l1 l2 ts1 ts2 t [_ H1]%lookup_delete_Some [_ H2]%lookup_delete_Some. by apply Wd.
  - intros i q Hi. rewrite lookup_delete_ne; [by apply Hqs|]. intros E. symmetry in E. by apply rq_local in E.
  - apply lookup_delete_eq.
  - done.
  - rewrite (Permutation_length HP), Elen. done.
  - done.
  - intros l Hne. destruct (decide (l = local_list)) as [->|Hll].
    + by rewrite lookup_delete_eq, Hl.
    + rewrite lookup_delete_ne by done. by apply Ho.
Qed.

(** What a migration from CPU [me] may do to the queues. *)
Record balanced (s s' : kst) (me : nat) (curthread one_share : Z) (qs qs' : list (list Z)) : Prop := {
  bl_perm : concat qs' ≡ₚ concat qs;
  bl_others : forall j r, qs !! j = Some r -> j <> me -> exists new, qs' !! j = Some (r ++ new) /\
    (new = [] \/ Z.of_nat (length (r ++ new)) <= one_share) /\ curthread ∉ new;
  bl_me : forall q, qs !! me = Some q -> exists q', qs' !! me = Some q' /\
    if decide (Z.of_nat (length q) < one_share) then q' = q
    else one_share <= Z.of_nat (length q') <= one_share + 1 /\
         (curthread ∉ q -> Z.of_nat (length q') = one_share);
  bl_placed : placed s qs -> placed s' qs';
}.

Lemma balanced_perm (qs qs2 : list (list Z)) me q q1 V1 V2 :
  qs !! me = Some q -> qs2 !! me = Some q1 -> q ≡ₚ q1 ++ V1 ->
  concat (<[me := q1]> qs) ++ V1 ≡ₚ concat qs2 ++ V2 ->
  concat (<[me := q1 ++ V2]> qs2) ≡ₚ concat qs.
Proof.
  intros Hq Hq2 HP1 HP2. transitivity (concat qs2 ++ V2).
  - apply (Permutation_app_inv_r q1). rewrite (concat_insert qs2 me q1 Hq2 (q1 ++ V2)).
    rewrite <- app_assoc. apply Permutation_app_head, Permutation_app_comm.
  - rewrite <- HP2. apply (Permutation_app_inv_r q1).
    rewrite <- (concat_insert qs me q Hq q1), <- app_assoc. apply Permutation_app_head.
    rewrite HP1. apply Permutation_app_comm.
Qed.
Lemma balanced_intro s s1 s2 s3 me curthread one_share qs qs2 q q1 V1 V2 :
  qs !! me = Some q -> q ≡ₚ q1 ++ V1 -> Z.of_nat (length q1) = one_share ->
  one_share <= Z.of_nat (length q) -> t_cpu s1 = t_cpu s -> t_cpu s3 = t_cpu s2 ->
  spread s1 s2 me curthread one_share (<[me := q1]> qs) qs2 V1 V2 ->
  victims_left curthread V2 0 ->
  balanced s s3 me curthread one_share qs (<[me := q1 ++ V2]> qs2).
Proof.
  intros Hq HP1 Hl1 Hsh Et1 Et3 [HP2 Hme Hnew Hpl Hleft Hlen] Hvl.
  pose proof (lookup_lt_Some _ _ _ Hq) as Hi. rewrite length_insert in Hlen.
  rewrite list_lookup_insert_eq in Hme by done.
  split.
  - by apply (balanced_perm qs qs2 me q q1 V1 V2).
  - intros j r Hj Hne. rewrite list_lookup_insert_ne by done. apply Hnew; [|done].
    by rewrite list_lookup_insert_ne.
  - intros q' Hq'. rewrite Hq in Hq'. injection Hq' as <-. exists (q1 ++ V2).
    split; [apply list_lookup_insert_eq; lia|]. rewrite decide_False by lia. rewrite length_app.
    destruct Hvl as [Hv|(V0 & -> & Hv)]; [split; intros; lia|].
    destruct V0; [|cbn in Hv; lia]. cbn [app length]. split; [lia|]. intros Hc. exfalso. apply Hc.
    rewrite HP1. apply elem_of_app. right. apply Hleft. cbn. set_solver.
  - intros Hp. destruct Hpl as [Hp2 HV2].
    + intros i r t. rewrite list_lookup_insert_Some, Et1. intros [(<- & <- & _)|[Hne Hr]] Ht.
      * apply (Hp me q); [done|]. rewrite HP1. set_solver.
      * by apply (Hp i r).
    + intros t Ht. rewrite Et1. apply (Hp me q); [done|]. rewrite HP1. set_solver.
    + intros i r t. rewrite list_lookup_insert_Some, Et3. intros [(<- & <- & _)|[Hne Hr]] Ht.
      * apply elem_of_app in Ht as [Ht|Ht]; [by apply (Hp2 me q1)|by apply HV2].
      * by apply (Hp2 i r).
Qed.

(** Choosing, sending and putting back. *)
Lemma migrate_run s m qs me q curthread one_share :
  queues s m qs -> qs !! me = Some q -> 0 <= one_share <= Z.of_nat (length q) ->
  Z.of_nat (length (concat qs)) <= one_share * Z.of_nat (length qs) ->
  exists s' qs', (on_tl (threadlist_init local_list) ≫= fun _ =>
    pick_victims (Z.to_nat (Z.of_nat (length q) - one_share)) me local_list ≫= fun _ =>
    send_loop (length qs) 0 me curthread one_share local_list
      (Z.of_nat (length q) - one_share) ≫= fun _ =>
    e ← on_tl (threadlist_isempty local_list);
    (if negb e then
       n ← on_tl (get_count local_list);
       put_back (S (Z.to_nat n)) me local_list
     else mret tt)) s = Done (tt, s') /\
    balancing m s' qs' [] /\ length qs' = length qs /\
    balanced s s' me curthread one_share qs qs'.
Proof.
  intros Hs Hq Hsh Htot. set (k := Z.of_nat (length q) - one_share) in *.
  destruct (queues_start s m qs Hs) as (x0 & R0 & Hb0).
  destruct (pick_victims_run m (Z.to_nat k) (with_tls x0 s) qs me q [] Hb0 Hq)
    as (x1 & q1 & V1 & R1 & Hb1 & HP1 & Hl1); [lia|].
  rewrite app_nil_r in HP1. cbn [length] in Hl1.
  assert (Hlq1 : Z.of_nat (length q1) = one_share).
  { pose proof (Permutation_length HP1) as E. rewrite length_app in E. lia. }
  set (s1 := with_tls x1 (with_tls x0 s)) in *. pose proof (lookup_lt_Some _ _ _ Hq) as Hme.
  assert (Hq1 : <[me := q1]> qs !! me = Some q1) by by apply list_lookup_insert_eq.
  destruct (send_loop_run m me curthread one_share (length qs) 0 s1 _ V1 k Hb1)
    as (s2 & qs2 & V2 & R2 & Hb2 & Hvl & Hsp).
  { by rewrite length_insert. } { left. lia. }
  { split; [lia|]. rewrite drop_0.
    pose proof (spare_present one_share me _ 0 q1 ltac:(lia) ltac:(by rewrite Nat.sub_0_r)) as Hspare.
    pose proof (Permutation_length (concat_insert qs me q Hq q1)) as E.
    rewrite length_insert in Hspare. rewrite !length_app in E. lia. }
  pose proof Hsp as [HP2 Hme2 Hnew2 Hpl2 Hleft2]. rewrite Hq1 in Hme2.
  assert (Hb3 : exists x3, (e ← on_tl (threadlist_isempty local_list);
    (if negb e then n ← on_tl (get_count local_list); put_back (S (Z.to_nat n)) me local_list
     else mret tt)) s2 = Done (tt, with_tls x3 s2) /\
    balancing m (with_tls x3 s2) (<[me := q1 ++ V2]> qs2) []).
  { pose proof Hb2 as [(L & W & _ & HV & _) _ _].
    rewrite (bind_Done _ _ _ _ _ (isempty_run s2 _ W _ _ HV)).
    destruct (decide (V2 = [])) as [->|Hne].
    - rewrite bool_decide_eq_true_2 by done. exists (tls s2).
      rewrite app_nil_r, list_insert_id by done. split; by destruct s2.
    - rewrite bool_decide_eq_false_2 by done. cbn [negb].
      rewrite (bind_Done _ _ _ _ _ (count_run s2 _ W _ _ HV)).
      apply (put_back_run m me V2); [done..|lia]. }
  destruct Hb3 as (x3 & R3 & Hb3). exists (with_tls x3 s2), (<[me := q1 ++ V2]> qs2).
  rewrite (bind_Done _ _ _ _ _ R0), (bind_Done _ _ _ _ _ R1), (bind_Done _ _ _ _ _ R2).
  split; [exact R3|]. split; [done|].
  split.
  { rewrite length_insert, (sp_len _ _ _ _ _ _ _ _ _ Hsp). apply length_insert. }
  apply (balanced_intro s s1 s2 _ me curthread one_share qs qs2 q q1 V1 V2); try done; lia.
Qed.

(** C7: [thread_consider_migration] on the run queues of all CPUs.  No thread
    is lost or duplicated; other CPUs only get threads up to their share of
    the total, and never the thread that is current here; a CPU with at least
    its share keeps exactly its share (one thread more when the current thread
    is in its own queue), one with less keeps everything; every thread's
    [t_cpu] is the CPU whose queue it is in; the list of victims is empty in
    the end and no access goes wrong. *)
Theorem migration_correct s m qs me c :
  queues s m qs -> cpus s !! me = Some c ->
  exists s' m' qs', thread_consider_migration me s = Done (tt, s') /\
    queues s' m' qs' /\ others_kept m m' /\
    balanced s s' me (c_curthread c)
      (Bitmap.DIVROUNDUP (Z.of_nat (length (concat qs))) (Z.of_nat (length qs))) qs qs'.
Proof.
  intros Hs Hc. pose proof Hs as [W Hqs Hloc Hn Hfit].
  assert (Hme : (me < length qs)%nat) by (rewrite <- Hn; by eapply lookup_lt_Some).
  destruct (lookup_lt_is_Some_2 qs me Hme) as [q Hq].
  pose proof (concat_elem_length qs me q Hq) as Hlq.
  unfold thread_consider_migration.
  rewrite (bind_Done (mgets _) _ _ (length (cpus s)) s) by done. rewrite Hn.
  rewrite (bind_Done (get_cpu me) _ _ c s)
    by (unfold get_cpu, mbind, M_bind, mgets; by rewrite Hc).
  rewrite (bind_Done _ _ _ _ _ (count_loop_run s m me qs (length qs) 0 0 0 W Hqs eq_refl
    ltac:(lia) ltac:(rewrite drop_0; lia))).
  rewrite drop_0, Nat.sub_0_r, Hq, decide_True, Z.add_0_l by lia.
  set (total := Z.of_nat (length (concat qs))) in *. set (n := Z.of_nat (length qs)) in *.
  set (share := Bitmap.DIVROUNDUP total n).
  assert (Hshare : 0 <= share /\ total <= share * n).
  { unfold share, Bitmap.DIVROUNDUP. rewrite uwrap_small by lia.
    pose proof (Z.div_mod (total + n - 1) n ltac:(lia)).
    pose proof (Z.mod_pos_bound (total + n - 1) n ltac:(lia)). nia. }
  destruct (Z.ltb_spec (Z.of_nat (length q)) share) as [Hlt|Hge].
  { exists s, m, qs. split_and!; try done. split; [done| | |done].
    - intros j r Hj _. exists []. rewrite app_nil_r. split_and!; [done|by left|set_solver].
    - intros q' Hq'. rewrite Hq in Hq'. injection Hq' as <-. exists q. by rewrite decide_True. }
  rewrite uwrap_small by lia.
  destruct (migrate_run s m qs me q (c_curthread c) share) as (s' & qs' & R & Hb & Elen & Hbal);
    [done..|lia|lia|].
  destruct (queues_end s m qs s' qs' Hs Hb Elen (bl_perm _ _ _ _ _ _ _ Hbal)) as (Rc & m' & Hq' & Ho).
  exists s', m', qs'. split_and!; try done.
  pose proof Hb as [(L & W' & _ & HV & _) _ _].
  apply bind_inv in R as ([] & s1 & R1 & R). apply bind_inv in R as ([] & s2 & R2 & R).
  apply bind_inv in R as ([] & s3 & R3 & R). apply bind_inv in R as (e & s4 & R4 & R).
  rewrite (bind_Done _ _ _ _ _ R1), (bind_Done _ _ _ _ _ R2), (bind_Done _ _ _ _ _ R3).
  rewrite (bind_Done _ _ _ _ _ R4), (bind_Done _ _ _ _ _ R).
  rewrite (bind_Done _ _ _ _ _ (isempty_run s' _ W' _ _ HV)).
  rewrite bool_decide_eq_true_2 by done. exact Rc.
Qed.

(** ** Waking all sleepers *)

Lemma move_tail s L F l1 t ts l2 us :
  world (tls s) (mkAbs L F) -> L !! l1 = Some (t :: ts) -> L !! l2 = Some us -> l1 <> l2 ->
  Z.of_nat (length ts) + Z.of_nat (length us) + 1 < 2 ^ 32 ->
  exists x y, on_tl (threadlist_remhead l1) s = Done (Some t, with_tls x s) /\
    on_tl (threadlist_addtail l2 t) (with_tls x s) = Done (tt, with_tls y s) /\
    world y (mkAbs (<[l2 := us ++ [t]]> (<[l1 := ts]> L)) F).
Proof.
  intros W H1 H2 Hne Hlen.
  pose proof (on_list_not_free s _ W l1 _ t H1 ltac:(set_solver)) as Hn. cbn [free] in Hn.
  destruct (remhead_run s _ W l1 t ts H1) as (x & R1 & W1); [cbn [length]; lia|].
  cbn [lists free] in W1.
  destruct (addtail_run (with_tls x s) _ W1 l2 us t) as (y & R2 & W2);
    cbn [lists free]; [by rewrite lookup_insert_ne|set_solver|lia|].
  exists x, y. split; [done|]. split; [done|]. cbn [lists free] in W2.
  by replace ((F ∪ {[t]}) ∖ {[t]}) with F in W2 by set_solver.
Qed.

Lemma wc_local w : wc_threads w <> local_list.
Proof. unfold wc_threads, local_list. lia. Qed.
Lemma wc_rq w i : wc_threads w <> rq i.
Proof. unfold wc_threads, rq. lia. Qed.

Lemma grab_all_run w ts : forall fuel s L F us,
  world (tls s) (mkAbs L F) -> L !! wc_threads w = Some ts -> L !! local_list = Some us ->
  Z.of_nat (length ts) + Z.of_nat (length us) + 1 < 2 ^ 32 -> (length ts < fuel)%nat ->
  exists x, grab_all fuel w local_list s = Done (tt, with_tls x s) /\
    world x (mkAbs (<[local_list := us ++ ts]> (<[wc_threads w := []]> L)) F).
Proof.
  induction ts as [|t ts IH]; intros fuel s L F us W H1 H2 Hlen Hf;
    (destruct fuel as [|f]; [lia|]); cbn [grab_all].
  - rewrite (bind_Done _ _ _ _ _ (remhead_empty s _ W _ H1)). exists (tls s). split; [by destruct s|].
    rewrite app_nil_r, (insert_id L) by done. by rewrite insert_id.
  - cbn [length] in *.
    destruct (move_tail s L F _ t ts local_list us W H1 H2) as (x & y & R1 & R2 & W2);
      [apply wc_local|lia|].
    rewrite (bind_Done _ _ _ _ _ R1), (bind_Done _ _ _ _ _ R2).
    destruct (IH f (with_tls y s) _ F (us ++ [t]) W2) as (z & R3 & W3).
    + rewrite lookup_insert_ne by (apply not_eq_sym, wc_local). apply lookup_insert_eq.
    + apply lookup_insert_eq.
    + rewrite length_app. cbn [length]. lia.
    + lia.
    + exists z. split; [exact R3|]. rewrite <- app_assoc in W3.
      rewrite (insert_insert_ne (<[wc_threads w := ts]> L) (wc_threads w) local_list) in W3
        by apply wc_local.
      by rewrite !insert_insert_eq in W3.
Qed.

(** What waking the threads [ts] does to the CPUs: the threads of a CPU are
    appended to its queue, and an idle CPU that gets one is interrupted. *)
Record woken (s s' : kst) (qs qs' : list (list Z)) (ts : list Z) : Prop := {
  wk_queues : forall i q, qs !! i = Some q ->
    qs' !! i = Some (q ++ filter (fun t => t_cpu s !! t = Some i) ts);
  wk_len : length qs' = length qs;
  wk_tcpu : t_cpu s' = t_cpu s;
  wk_cpus : forall i c, cpus s !! i = Some c -> exists c', cpus s' !! i = Some c' /\
    c_isidle c' = c_isidle c /\
    (bit_set (c_ipi_pending c) IPI_UNIDLE = true -> bit_set (c_ipi_pending c') IPI_UNIDLE = true) /\
    (c_isidle c = true -> Exists (fun t => t_cpu s !! t = Some i) ts ->
     bit_set (c_ipi_pending c') IPI_UNIDLE = true);
}.
Lemma bit_set_lor bits i : 0 <= i -> bit_set (Z.lor bits (Z.shiftl 1 i)) i = true.
Proof.
  intros Hi. unfold bit_set. apply negb_true_iff, Z.eqb_neq. intros E.
  apply (f_equal (fun x => Z.testbit x i)) in E. rewrite Z.land_spec, Z.lor_spec, Z.bits_0 in E.
  rewrite Z.shiftl_1_l, Z.pow2_bits_true in E by done. by rewrite orb_true_r in E.
Qed.
Lemma make_runnable_run m0 s qs t V i q :
  balancing m0 s qs (t :: V) -> t_cpu s !! t = Some i -> qs !! i = Some q ->
  exists x s', on_tl (threadlist_remhead local_list) s = Done (Some t, with_tls x s) /\
    thread_make_runnable t (with_tls x s) = Done (tt, s') /\
    balancing m0 s' (<[i := q ++ [t]]> qs) V /\ t_cpu s' = t_cpu s /\
    exists c c', cpus s !! i = Some c /\ cpus s' = <[i := c']> (cpus s) /\
      c_isidle c' = c_isidle c /\
      c_ipi_pending c' = if c_isidle c then Z.lor (c_ipi_pending c) (Z.shiftl 1 IPI_UNIDLE)
                         else c_ipi_pending c.
Proof.
  intros Hb Ht Hq. destruct (pop_run m0 s qs t V Hb) as (x & R1 & Hpush & _).
  destruct (Hpush i q (with_tls x s) Hq eq_refl eq_refl) as (y & R2 & Hb2).
  destruct (lookup_lt_is_Some_2 (cpus s) i) as [c Hc].
  { rewrite (b_cpus _ _ _ _ Hb). by eapply lookup_lt_Some. }
  exists x. unfold thread_make_runnable.
  rewrite (bind_Done (mgets _) _ _ (Some i) (with_tls x s)) by (unfold mgets; cbn; by rewrite Ht).
  rewrite (bind_Done (deref _) _ _ i (with_tls x s)) by done.
  rewrite (bind_Done (get_cpu i) _ _ c (with_tls x s))
    by (unfold get_cpu, mbind, M_bind, mgets; cbn; by rewrite Hc).
  rewrite (bind_Done _ _ _ _ _ R2). destruct (c_isidle c) eqn:Eidle.
  - unfold ipi_send, get_cpu, put_cpu.
    change ((IPI_UNIDLE >=? 0) && (IPI_UNIDLE <? 32)) with true. mrun.
    cbn [with_tls cpus]. rewrite Hc. eexists. split; [done|]. split; [reflexivity|]. split.
    { eapply balancing_frame; [exact Hb2|done|]. cbn. apply length_insert. }
    split; [done|]. exists c. eexists. split; [done|]. split; [done|]. by rewrite Eidle.
  - eexists. split; [done|]. split; [reflexivity|]. split; [exact Hb2|]. split; [done|].
    exists c, c. split; [done|]. cbn [with_tls cpus]. by rewrite list_insert_id, Eidle.
Qed.

Lemma wake_list_run m0 V : forall fuel s qs,
  balancing m0 s qs V -> (length V < fuel)%nat ->
  Forall (fun t => exists i, t_cpu s !! t = Some i /\ (i < length qs)%nat) V ->
  exists s' qs', wake_list fuel local_list s = Done (tt, s') /\ balancing m0 s' qs' [] /\
    woken s s' qs qs' V.
Proof.
  induction V as [|t V IH]; intros fuel s qs Hb Hf Hall; (destruct fuel as [|f]; [lia|]);
    cbn [wake_list].
  - pose proof Hb as [(L & W & _ & HV & _) _ _].
    rewrite (bind_Done _ _ _ _ _ (remhead_empty s _ W _ HV)). exists s, qs. split; [done|].
    split; [done|]. split; try done.
    + intros i q Hq. cbn. by rewrite app_nil_r.
    + intros i c Hc. exists c. split_and!; try done. intros _ He. by apply Exists_nil in He.
  - apply Forall_cons in Hall as [(i & Ht & Hi) Hall]. cbn [length] in Hf.
    destruct (lookup_lt_is_Some_2 qs i Hi) as [q Hq].
    destruct (make_runnable_run m0 s qs t V i q Hb Ht Hq)
      as (x & s1 & R1 & R2 & Hb1 & Et & c0 & c1 & Hc0 & Ecpus & Eidle & Eipi).
    rewrite (bind_Done _ _ _ _ _ R1), (bind_Done _ _ _ _ _ R2).
    destruct (IH f s1 _ Hb1) as (s' & qs' & R & Hb' & [Wq Wl Wt Wc]); [lia| |].
    { rewrite length_insert, Et. done. }
    exists s', qs'. split; [done|]. split; [done|]. rewrite Et in *. split.
    + intros j r Hj. rewrite filter_cons. destruct (decide (j = i)) as [->|Hne].
      * rewrite Hq in Hj. injection Hj as <-.
        rewrite (Wq i (q ++ [t])) by (apply list_lookup_insert_eq; done).
        rewrite decide_True by done. by rewrite <- app_assoc.
      * rewrite (Wq j r) by by rewrite list_lookup_insert_ne.
        rewrite decide_False by congruence. done.
    + by rewrite Wl, length_insert.
    + done.
    + intros j c Hc. destruct (decide (j = i)) as [->|Hne].
      * rewrite Hc0 in Hc. injection Hc as <-.
        destruct (Wc i c1) as (c' & Hc' & Ei & Hk & Hw).
        { rewrite Ecpus. apply list_lookup_insert_eq. by eapply lookup_lt_Some. }
        exists c'. split; [done|]. split; [congruence|]. rewrite Eipi in Hk.
        assert (Hset : c_isidle c0 = true -> bit_set (c_ipi_pending c') IPI_UNIDLE = true).
        { intros E. rewrite E in Hk. apply Hk, bit_set_lor. done. }
        split; [|intros E _; by apply Hset]. intros Hb0. destruct (c_isidle c0); [by apply Hset|by apply Hk].
      * destruct (Wc j c) as (c' & Hc' & Ei & Hk & Hw); [by rewrite Ecpus, list_lookup_insert_ne|].
        exists c'. split_and!; try done. intros E [Ex|Ex]%Exists_cons; [congruence|by apply Hw].
Qed.

(** [wchan_wakeall] leaves nobody asleep on the channel: the sleepers go to
    the ends of the run queues of their CPUs in the order they slept, every
    idle CPU that gets one has the interrupt that ends its idling pending, and
    the other lists keep their threads. *)
Theorem wakeall_correct s m qs w ts :
  queues s m qs -> lists m !! wc_threads w = Some ts ->
  Z.of_nat (length ts) + Z.of_nat (length (concat qs)) + 1 < 2 ^ 32 ->
  Forall (fun t => exists i, t_cpu s !! t = Some i /\ (i < length qs)%nat) ts ->
  exists s' L qs', wchan_wakeall w s = Done (tt, s') /\ world (tls s') (mkAbs L (free m)) /\
    L !! wc_threads w = Some [] /\
    (forall l, (forall i, l <> rq i) -> l <> local_list -> l <> wc_threads w ->
       L !! l = lists m !! l) /\
    (forall i q, qs' !! i = Some q -> L !! rq i = Some q) /\ woken s s' qs qs' ts.
Proof.
  intros Hs Hw Hlen Hall. pose proof Hs as [W Hqs Hloc Hn Hfit]. unfold wchan_wakeall.
  destruct (init_run s m W _ Hloc) as (x0 & R0 & W0). rewrite (bind_Done _ _ _ _ _ R0).
  assert (Hw0 : <[local_list := []]> (lists m) !! wc_threads w = Some ts)
    by (rewrite lookup_insert_ne by (apply not_eq_sym, wc_local); done).
  rewrite (bind_Done _ _ _ _ _ (count_run (with_tls x0 s) _ W0 _ _ Hw0)). rewrite Nat2Z.id.
  destruct (grab_all_run w ts (S (length ts)) (with_tls x0 s) _ (free m) [] W0 Hw0)
    as (x1 & R1 & W1); [apply lookup_insert_eq|cbn [length]; lia|lia|].
  rewrite (bind_Done _ _ _ _ _ R1). cbn [app] in W1.
  set (m1 := mkAbs (<[wc_threads w := []]> (lists m)) (free m)).
  assert (Hb : balancing m1 (with_tls x1 (with_tls x0 s)) qs ts).
  { split; [|done|rewrite length_app; lia]. eexists. split; [exact W1|]. split_and!.
    - intros i q Hi. rewrite !lookup_insert_ne; [by apply Hqs|..].
      + intros E. symmetry in E. by apply rq_local in E.
      + apply wc_rq.
      + intros E. symmetry in E. by apply rq_local in E.
    - apply lookup_insert_eq.
    - intros l _ Hl. unfold m1. cbn [lists]. rewrite lookup_insert_ne by done.
      rewrite !lookup_insert. repeat case_decide; done. }
  destruct (wake_list_run m1 ts (S (length ts)) _ qs Hb) as (s' & qs' & R2 & Hb' & Hwk); [lia|done|].
  rewrite (bind_Done _ _ _ _ _ R2). pose proof Hb' as [(L & W' & Hqs' & HV & Ho) _ _].
  exists s', L, qs'. rewrite (cleanup_run s' _ W' HV).
  split; [done|]. split; [exact W'|]. split; [|split; [|split; [exact Hqs'|by destruct Hwk]]].
  - rewrite Ho; [apply lookup_insert_eq|apply wc_rq|apply wc_local].
  - intros l H1 H2 H3. rewrite Ho by done. by apply lookup_insert_ne.
Qed.

(** Three CPUs, the third idle; the queue of the first has its current thread
    9, and the threads 7 and 8 sleep on channel 0. *)
Definition demo_lists : gmap Z (list Z) :=
  <[rq 0 := [1; 2; 9; 3; 4; 5]]> (<[rq 1 := [6]]> (<[rq 2 := []]>
    (<[wc_threads 0 := [7; 8]]> ∅))).
Definition demo_prio (t : Z) : Z := if bool_decide (t ∈ [2; 4]) then 1 else 2.
Definition build : M tlstate unit :=
  threadlist_init (rq 0) ≫= fun _ => threadlist_init (rq 1) ≫= fun _ =>
  threadlist_init (rq 2) ≫= fun _ => threadlist_init (wc_threads 0) ≫= fun _ =>
  mfor 9 1 (fun t => threadlistnode_init (ThrNode t) t) ≫= fun _ =>
  threadlist_addtail (rq 0) 1 ≫= fun _ => threadlist_addtail (rq 0) 2 ≫= fun _ =>
  threadlist_addtail (rq 0) 9 ≫= fun _ => threadlist_addtail (rq 0) 3 ≫= fun _ =>
  threadlist_addtail (rq 0) 4 ≫= fun _ => threadlist_addtail (rq 0) 5 ≫= fun _ =>
  threadlist_addtail (rq 1) 6 ≫= fun _ => threadlist_addtail (wc_threads 0) 7 ≫= fun _ =>
  threadlist_addtail (wc_threads 0) 8.
Definition demo_tls : tlstate :=
  match build (mkTl ∅ ∅) with Done (_, x) => x | Stop _ => mkTl ∅ ∅ end.
Definition demo_sched (fl : Z) : kst :=
  Kst demo_tls [Cpu 9 false 0 [] 0; Cpu 10 false 0 [] 0; Cpu 11 true 0 [] 0]
    (<[7 := 1%nat]> (<[8 := 2%nat]> (<[6 := 1%nat]> (list_to_map ((., 0%nat) <$> [1; 2; 9; 3; 4; 5]))))) demo_prio fl.
Lemma demo_world : world demo_tls (mkAbs demo_lists ∅).
Proof.
  assert (Hcases : forall l ts, demo_lists !! l = Some ts ->
    (l = rq 0 /\ ts = [1; 2; 9; 3; 4; 5]) \/ (l = rq 1 /\ ts = [6]) \/ (l = rq 2 /\ ts = []) \/
    (l = wc_threads 0 /\ ts = [7; 8])).
  { intros l ts. unfold demo_lists. rewrite !lookup_insert_Some, lookup_empty. naive_solver. }
  split; cbn [lists free].
  - intros l ts [[-> ->]|[[-> ->]|[[-> ->]|[-> ->]]]]%Hcases; split;
      solve [vm_compute; repeat split | apply (bool_decide_unpack _); vm_compute; done | vm_compute; done].
  - set_solver.
  - intros l1 l2 ts1 ts2 t [[-> ->]|[[-> ->]|[[-> ->]|[-> ->]]]]%Hcases [[-> ->]|[[-> ->]|[[-> ->]|[-> ->]]]]%Hcases;
      intros; set_solver.
Qed.
Lemma demo_queues fl : queues (demo_sched fl) (mkAbs demo_lists ∅) [[1; 2; 9; 3; 4; 5]; [6]; []].
Proof.
  split; [exact demo_world| |done..].
  intros i q Hi. cbn [lists]. do 3 (destruct i as [|i]; [injection Hi as <-; done|]). done.
Qed.

Lemma schedule_correct_witness : exists x y,
  schedule 0 8 (demo_sched 0) = Done (tt, with_switch_fl 1 (with_tls x (demo_sched 0))) /\
  rep x (rq 0) [9; 1; 2; 3; 4; 5] /\
  schedule 0 8 (demo_sched 1) = Done (tt, with_switch_fl 0 (with_tls y (demo_sched 1))) /\
  rep y (rq 0) [2; 1; 9; 3; 4; 5].
Proof.
  destruct (schedule_correct 0 8 (demo_sched 0) _ _ demo_world eq_refl ltac:(done))
    as (x & fl & R & ts1 & t & ts2 & E & Wx & Hr & ->).
  destruct (schedule_correct 0 8 (demo_sched 1) _ _ demo_world eq_refl ltac:(done))
    as (y & fl & R' & us1 & u & us2 & E' & Wy & [Hl1 Hl2] & ->).
  exists x, y. split; [exact R|]. split; [|split; [exact R'|]].
  - pose proof (w_rep _ _ Wx (rq 0) _ (lookup_insert_eq _ _ _)) as Hx.
    change (8 mod Z.of_nat (length [1; 2; 9; 3; 4; 5])) with 2 in Hr.
    destruct ts1 as [|a [|b [|]]]; cbn in Hr; try lia. by injection E as <- <- <- <-.
  - pose proof (w_rep _ _ Wy (rq 0) _ (lookup_insert_eq _ _ _)) as Hy.
    destruct us1 as [|a [|b us1]].
    + injection E' as <- <-. apply Forall_cons in Hl2 as [H _]. change (2 <= 1) in H. lia.
    + injection E' as <- <- <-. exact Hy.
    + injection E' as <- <- E'. apply Forall_cons in Hl1 as [_ [H _]%Forall_cons].
      assert (demo_prio u = 1 \/ demo_prio u = 2) by (unfold demo_prio; case_bool_decide; tauto).
      change (demo_prio u < 1) in H. lia.
Defined.
Lemma migration_correct_witness : exists s' m' qs',
  thread_consider_migration 0 (demo_sched 0) = Done (tt, s') /\ queues s' m' qs' /\
  others_kept (mkAbs demo_lists ∅) m' /\
  balanced (demo_sched 0) s' 0 9 3 [[1; 2; 9; 3; 4; 5]; [6]; []] qs'.
Proof.
  destruct (migration_correct (demo_sched 0) _ _ 0 _ (demo_queues 0) eq_refl)
    as (s' & m' & qs' & R & Hq & Ho & Hb).
  exists s', m', qs'. split; [exact R|]. split; [exact Hq|]. split; [exact Ho|exact Hb].
Defined.

Lemma wakeall_correct_witness : exists s' qs',
  wchan_wakeall 0 (demo_sched 0) = Done (tt, s') /\
  woken (demo_sched 0) s' [[1; 2; 9; 3; 4; 5]; [6]; []] qs' [7; 8].
Proof.
  destruct (wakeall_correct (demo_sched 0) _ _ 0 [7; 8] (demo_queues 0) eq_refl)
    as (s' & L & qs' & R & _ & _ & _ & _ & Hw); [done| |].
  - repeat constructor; [exists 1%nat|exists 2%nat]; split; done || (cbn; lia).
  - exists s', qs'. split; [exact R|exact Hw].
Defined.

(** ** A full shootdown queue *)
Fixpoint shootdowns (maps : list Z) (target : nat) : M kst unit :=
  match maps with
  | [] => mret tt
  | p :: r => ipi_tlbshootdown target p ≫= fun _ => shootdowns r target
  end.
Definition full_queue : kst :=
  Kst (mkTl ∅ ∅) [Cpu 0 false 0 (replicate 16 0) 0] ∅ (fun _ => 0) 1.

(** Requests to invalidate a mapping are meant to turn into a request to
    invalidate everything when there are more than 16.  The 17th does so; the
    18th takes the mark -1 for the number of entries, stores its mapping in
    front of the array and, had that store no effect, would forget the other
    seventeen. *)
Theorem shootdown_overflows :
  (exists s c, shootdowns (Z.of_nat <$> seq 0 17) 0 full_queue = Done (tt, s) /\
     cpus s !! 0%nat = Some c /\ c_numshootdown c = TLBSHOOTDOWN_ALL /\
     exists s', interprocessor_interrupt 0 s = Done ([ShootdownAll], s')) /\
  shootdowns (Z.of_nat <$> seq 0 18) 0 full_queue = Stop BadAccess.
Proof.
  split; [|vm_compute; reflexivity].
  eexists _, _. split; [vm_compute; reflexivity|]. split; [reflexivity|]. split; [reflexivity|].
  eexists. vm_compute. reflexivity.
Qed.
