(* ===== verification/Process.v ===== *)
(** Process identifiers, waitpid and exit (kern/thread/thread.c)

    The table of pids is a linked list that is only reached from its head, so
    it is modelled by the list of its pids; [[]] is the null pointer.  A node
    of the list of waiting threads keeps its address, because the code
    compares nodes by address.  The exit of a thread and [sys_waitpid] hold
    [wait_lock] and are single steps, but for the sleep: [sys_waitpid] is two
    functions, up to the sleep and after the wakeup.  Not every creation of a
    thread holds the lock, so [add_pid_table] is also modelled one access to the
    list at a time. *)
From Stdlib Require Import Sorted.
From S2P Require Import Prelude.

(** ** The pid table *)
Definition PID_MIN : Z := 2.
Definition MAX_PID : Z := 300.

(** [ok] is the outcome of the [kmalloc]: the node is written without a check. *)
Definition alloc_pid_table (ok : bool) : M (list Z) unit :=
  if ok then mret tt else mstop NullDeref.

(** [while(curr->next != NULL)], then the test of the last node looked at *)
Fixpoint pid_exists_loop (curr pid : Z) (next : list Z) : Z :=
  match next with
  | [] => curr
  | n :: r => if curr =? pid then curr else pid_exists_loop n pid r
  end.
Definition pid_exists (pid : Z) (pid_list : list Z) : outcome Z :=
  match pid_list with
  | [] => Stop KPanic
  | curr :: next => Done (if negb (pid_exists_loop curr pid next =? pid) then EINVAL else 0)
  end.

(** The nodes before [prev], [prev] itself, and the nodes behind it, when the
    loop ends. *)
Fixpoint find_prev (prev : Z) (curr : list Z) : list Z * Z * list Z :=
  match curr with
  | [] => ([], prev, [])
  | c :: r =>
      if prev =? c then ([], prev, curr)
      else let '(before, p, after) := find_prev c r in (prev :: before, p, after)
  end.
Definition add_pid_table (ok : bool) : M (list Z) Z :=
  l ← mget;
  match l with
  | [] =>
      alloc_pid_table ok ≫= fun _ =>
      mput [PID_MIN] ≫= fun _ => mret PID_MIN
  | head :: next =>
      let '(before, prev, after) := find_prev head next in
      if prev >? MAX_PID then mret EINVAL
      else
        alloc_pid_table ok ≫= fun _ =>
        mput (before ++ prev :: (prev + 1) :: after) ≫= fun _ =>
        mret (prev + 1)
  end.

(** The list behind [prev] without the node of [pid], if there is one. *)
Fixpoint unlink (pid : Z) (curr : list Z) : option (list Z) :=
  match curr with
  | [] => None
  | c :: r => if c =? pid then Some r else r' ← unlink pid r; Some (c :: r')
  end.
Definition remove_pid_table (pid : Z) : M (list Z) Z :=
  if pid <? 2 then mret 0
  else
    l ← mget;
    match l with
    | [] => mstop KPanic
    | [_] => mput [] ≫= fun _ => mret 0
    | prev :: curr =>
        match unlink pid curr with
        | None => mret EINVAL
        | Some r => mput (prev :: r) ≫= fun _ => mret 0
        end
    end.

(** The table of a running system: the pid of the boot thread stays at the
    front, and pids increase. *)
Definition pids_ok (l : list Z) : Prop :=
  exists r, l = PID_MIN :: r /\ StronglySorted Z.lt l.
Definition last_pid (l : list Z) : Z := default 0 (last l).

Lemma sorted_middle (l1 : list Z) a l2 :
  StronglySorted Z.lt (l1 ++ a :: l2) -> Forall (fun x => x < a) l1 /\ Forall (fun x => a < x) l2.
Proof.
  induction l1 as [|b l1 IH]; cbn; intros H; inversion_clear H as [|? ? Hs Hf].
  - split; [constructor|]. by apply Forall_forall; intros x Hx; rewrite Forall_forall in Hf; auto.
  - destruct (IH Hs) as [H1 H2]. split; [|done]. constructor; [|done].
    rewrite Forall_forall in Hf. apply Hf. set_solver.
Qed.
Lemma sorted_remove (l1 : list Z) a l2 :
  StronglySorted Z.lt (l1 ++ a :: l2) -> StronglySorted Z.lt (l1 ++ l2).
Proof.
  induction l1 as [|b l1 IH]; cbn; intros H; inversion_clear H as [|? ? Hs Hf]; [done|].
  constructor; [by apply IH|]. rewrite Forall_forall in Hf |- *. intros x Hx. apply Hf. set_solver.
Qed.
Lemma sorted_snoc (l : list Z) a :
  StronglySorted Z.lt l -> Forall (fun x => x < a) l -> StronglySorted Z.lt (l ++ [a]).
Proof.
  induction l as [|b l IH]; cbn; intros Hs Hf; [by repeat constructor|].
  inversion_clear Hs as [|? ? Hs' Hb]. inversion_clear Hf as [|? ? Hb' Hf'].
  constructor; [by apply IH|]. apply Forall_app. split; [done|]. by constructor.
Qed.

Lemma find_prev_sorted r : forall p,
  StronglySorted Z.lt (p :: r) ->
  exists before, find_prev p r = (before, last_pid (p :: r), []) /\ p :: r = before ++ [last_pid (p :: r)].
Proof.
  induction r as [|c r IH]; intros p Hs; cbn [find_prev].
  - by exists [].
  - inversion_clear Hs as [|? ? Hs' Hf]. inversion_clear Hf as [|? ? Hpc _].
    rewrite (proj2 (Z.eqb_neq p c)) by lia. destruct (IH c Hs') as (b & E & El). rewrite E.
    exists (p :: b). unfold last_pid in *. rewrite (last_cons p). rewrite last_cons in *.
    destruct (last r); cbn [default] in *; (split; [done|]); by rewrite El at 1.
Qed.
Lemma pid_exists_spec l pid : l <> [] ->
  pid_exists pid l = Done (if decide (pid ∈ l) then 0 else EINVAL).
Proof.
  destruct l as [|c r]; [done|]. intros _. cbn [pid_exists]. do 2 f_equal.
  revert c. induction r as [|n r IH]; intros c; cbn [pid_exists_loop].
  - destruct (Z.eqb_spec c pid) as [->|Hne]; cbn [negb].
    + by rewrite decide_True by set_solver.
    + by rewrite decide_False by set_solver.
  - destruct (Z.eqb_spec c pid) as [->|Hne].
    + rewrite Z.eqb_refl, decide_True by set_solver. done.
    + rewrite IH. repeat case_decide; set_solver.
Qed.
Lemma unlink_spec pid l : pid ∈ l -> NoDup l ->
  exists l1 l2, l = l1 ++ pid :: l2 /\ unlink pid l = Some (l1 ++ l2).
Proof.
  induction l as [|c r IH]; intros Hin Hnd; [set_solver|]. cbn [unlink].
  destruct (Z.eqb_spec c pid) as [->|Hne]; [by exists [], r|].
  apply NoDup_cons in Hnd as [_ Hnd]. destruct (IH ltac:(set_solver) Hnd) as (l1 & l2 & -> & ->).
  by exists (c :: l1), l2.
Qed.
Lemma sorted_nodup (l : list Z) : StronglySorted Z.lt l -> NoDup l.
Proof.
  induction 1 as [|a l Hs IH Hf]; constructor; [|done]. intros Ha.
  rewrite Forall_forall in Hf. specialize (Hf a Ha). lia.
Qed.

Lemma last_pid_in (l : list Z) : l <> [] -> last_pid l ∈ l.
Proof.
  intros Hl. unfold last_pid. destruct (last l) as [x|] eqn:E; cbn.
  - apply last_Some in E as [l' ->]. set_solver.
  - by apply last_None in E.
Qed.
Lemma sorted_last (l : list Z) x : StronglySorted Z.lt l -> x ∈ l -> x <= last_pid l.
Proof.
  intros Hs Hx. assert (Hl : l <> []) by (intros ->; set_solver).
  unfold last_pid. destruct (last l) as [y|] eqn:E; [cbn|by apply last_None in E].
  apply last_Some in E as [l' ->]. apply sorted_middle in Hs as [Hf _].
  rewrite Forall_forall in Hf. apply elem_of_app in Hx as [Hx|Hx]; [specialize (Hf x Hx); lia|].
  apply list_elem_of_singleton in Hx. lia.
Qed.

Lemma add_pid_ok l : pids_ok l -> last_pid l <= MAX_PID ->
  add_pid_table true l = Done (last_pid l + 1, l ++ [last_pid l + 1])
  /\ pids_ok (l ++ [last_pid l + 1]).
Proof.
  intros (r & -> & Hs) Hmax. destruct (find_prev_sorted r PID_MIN Hs) as (b & E & El).
  set (p := last_pid (PID_MIN :: r)) in *. split.
  - unfold add_pid_table, alloc_pid_table. mrun. rewrite E.
    destruct (Z.gtb_spec p MAX_PID); [lia|]. do 2 f_equal.
    change (PID_MIN :: r ++ [p + 1]) with ((PID_MIN :: r) ++ [p + 1]).
    rewrite El, <- app_assoc. done.
  - exists (r ++ [p + 1]). split; [done|]. apply sorted_snoc; [done|].
    apply Forall_forall. intros x Hx. pose proof (sorted_last _ x Hs Hx). lia.
Qed.
Lemma add_pid_full l ok : pids_ok l -> last_pid l > MAX_PID ->
  add_pid_table ok l = Done (EINVAL, l).
Proof.
  intros (r & -> & Hs) Hmax. destruct (find_prev_sorted r PID_MIN Hs) as (b & E & El).
  unfold add_pid_table. mrun. rewrite E. destruct (Z.gtb_spec (last_pid (PID_MIN :: r)) MAX_PID); [done|lia].
Qed.
Lemma remove_pid_ok l pid : pids_ok l -> pid ∈ l -> pid <> PID_MIN ->
  exists l1 l2, l = l1 ++ pid :: l2 /\ remove_pid_table pid l = Done (0, l1 ++ l2) /\ pids_ok (l1 ++ l2).
Proof.
  intros (r & -> & Hs) Hin Hne. pose proof (sorted_nodup _ Hs) as Hnd.
  apply elem_of_cons in Hin as [->|Hin]; [done|].
  apply NoDup_cons in Hnd as [_ Hnd]. destruct (unlink_spec pid r Hin Hnd) as (l1 & l2 & -> & E).
  assert (Hge : PID_MIN < pid).
  { apply (sorted_middle (PID_MIN :: l1) pid l2) in Hs as [Hf _]. by inversion_clear Hf. }
  exists (PID_MIN :: l1), l2. split; [done|]. split.
  - unfold remove_pid_table. unfold PID_MIN in Hge.
    rewrite (proj2 (Z.ltb_ge pid 2)) by lia. mrun. rewrite E.
    by destruct (l1 ++ pid :: l2) eqn:E'; [destruct l1|].
  - exists (l1 ++ l2). split; [done|]. exact (sorted_remove (PID_MIN :: l1) pid l2 Hs).
Qed.

(** ** Histories of the pid table

    [reach n t live]: after [n] threads were created, the table is [t] and
    the threads that have not ended have the pids [live].  A thread ends by
    [sys__exit], which removes its pid, or by returning from its entry point,
    which leaves the pid in the table.  The boot thread does not exit. *)
Inductive reach : nat -> list Z -> list Z -> Prop :=
  | reach_boot : reach 0 [] []
  | reach_create n t live p t' :
      reach n t live -> add_pid_table true t = Done (p, t') -> reach (S n) t' (p :: live)
  | reach_exit n t live1 p live2 r t' :
      reach n t (live1 ++ p :: live2) -> p <> PID_MIN ->
      remove_pid_table p t = Done (r, t') -> reach n t' (live1 ++ live2)
  | reach_return n t live1 p live2 :
      reach n t (live1 ++ p :: live2) -> p <> PID_MIN -> reach n t (live1 ++ live2).

(** What a reachable table satisfies before the pids run out. *)
Definition table_inv (n : nat) (t live : list Z) : Prop :=
  (n = 0%nat /\ t = [] /\ live = [] \/ pids_ok t)
  /\ last_pid t <= Z.of_nat n + 1 /\ NoDup live /\ (forall p, p ∈ live -> p ∈ t).

Lemma last_pid_snoc l x : last_pid (l ++ [x]) = x.
Proof. unfold last_pid. by rewrite last_snoc. Qed.
Lemma pids_ok_ne l : pids_ok l -> l <> [].
Proof. by intros (r & -> & _). Qed.

Lemma create_inv n t live : (n < 300)%nat -> table_inv n t live ->
  exists p t', add_pid_table true t = Done (p, t') /\ (p ∉ live) /\ table_inv (S n) t' (p :: live).
Proof.
  intros Hn ([(-> & -> & ->)|Hok] & Hlast & Hnd & Hsub).
  - exists PID_MIN, [PID_MIN]. split; [done|]. split; [set_solver|]. split_and!.
    + right. exists []. by split; [|repeat constructor].
    + done.
    + by apply NoDup_singleton.
    + done.
  - destruct (add_pid_ok t Hok) as [E Hok']; [unfold MAX_PID; lia|].
    assert (Hnew : last_pid t + 1 ∉ t).
    { intros Hin. destruct Hok as (r & -> & Hs). pose proof (sorted_last _ _ Hs Hin). lia. }
    exists (last_pid t + 1), (t ++ [last_pid t + 1]). split; [done|]. split; [set_solver|].
    split_and!; [by right|rewrite last_pid_snoc; lia| |set_solver].
    constructor; [set_solver|done].
Qed.
Lemma nodup_drop (l1 : list Z) p l2 : NoDup (l1 ++ p :: l2) -> NoDup (l1 ++ l2) /\ p ∉ l1 ++ l2.
Proof.
  intros H. rewrite <- Permutation_middle in H. by apply NoDup_cons in H as [? ?].
Qed.
Lemma elem_of_drop (l1 : list Z) p l2 q : q ∈ l1 ++ p :: l2 <-> q = p \/ q ∈ l1 ++ l2.
Proof. rewrite !elem_of_app, elem_of_cons. tauto. Qed.
Lemma exit_inv n t live1 p live2 : p <> PID_MIN -> table_inv n t (live1 ++ p :: live2) ->
  exists t', remove_pid_table p t = Done (0, t') /\ table_inv n t' (live1 ++ live2)
    /\ t' <> [] /\ p ∉ t'.
Proof.
  intros Hp (Hok & Hlast & Hnd & Hsub).
  destruct Hok as [(-> & -> & E)|Hok]; [by destruct live1|].
  destruct (remove_pid_ok t p Hok) as (l1 & l2 & -> & E & Hok');
    [apply Hsub, elem_of_app; right; left|done|].
  apply nodup_drop in Hnd as [Hnd Hp'].
  exists (l1 ++ l2). split; [done|].
  assert (Hs : StronglySorted Z.lt (l1 ++ p :: l2)) by by destruct Hok as (? & ? & ?).
  split; [unfold table_inv; split_and!; [by right| |done|]|split; [by apply pids_ok_ne|]].
  - etransitivity; [|exact Hlast]. apply (sorted_last _ _ Hs), elem_of_drop. right.
    exact (last_pid_in _ (pids_ok_ne _ Hok')).
  - intros q Hq. destruct (proj1 (elem_of_drop l1 p l2 q)) as [->|?]; [|done|done].
    apply Hsub, elem_of_drop. by right.
  - apply sorted_nodup, nodup_drop in Hs as [_ ?]. done.
Qed.
Lemma reach_inv n t live : reach n t live -> (n <= 300)%nat -> table_inv n t live.
Proof.
  induction 1 as [|n t live p t' _ IH E|n t live1 p live2 r t' _ IH Hp E|n t live1 p live2 _ IH Hp];
    intros Hn.
  - split_and!; [by left|done|constructor|done].
  - destruct (create_inv n t live) as (p' & t'' & E' & _ & Hinv); [lia|apply IH; lia|].
    rewrite E in E'. by injection E' as <- <-.
  - destruct (exit_inv n t live1 p live2 Hp (IH Hn)) as (t'' & E' & Hinv & _ & _).
    rewrite E in E'. by injection E' as -> <-.
  - destruct (IH Hn) as (Hok & Hlast & Hnd & Hsub). apply nodup_drop in Hnd as [? _].
    unfold table_inv. split_and!; [|done|done|].
    + destruct Hok as [(-> & -> & E)|?]; [by destruct live1|by right].
    + intros q Hq. apply Hsub, elem_of_drop. by right.
Qed.

(** ** The pid table when threads run at the same time

    [add_pid_table] one access to the list at a time.  A node of the list is
    its address and its pid.  A thread inside [add_pid_table] has not read the
    list yet, is in the loop with the variable [prev], has left it, or is about
    to put the node with its pid behind [prev]. *)
Abbreviation nodes := (list (Z * Z)).
Inductive task :=
  | Starting
  | Walking (prev : Z)
  | Testing (prev : Z)
  | Linking (prev pid : Z).
(** The pid of the node at [a] and the nodes behind it. *)
Fixpoint node_at (a : Z) (t : nodes) : option (Z * nodes) :=
  match t with
  | [] => None
  | (b, p) :: r => if b =? a then Some (p, r) else node_at a r
  end.
Fixpoint link_behind (a : Z) (n : Z * Z) (t : nodes) : nodes :=
  match t with
  | [] => []
  | (b, p) :: r => if b =? a then (b, p) :: n :: r else (b, p) :: link_behind a n r
  end.
(** The next access; [b] is the address [kmalloc] gives.  A node that is no
    longer in the list has been freed. *)
Definition add_step (b : Z) (k : task) : M nodes (task + Z) :=
  t ← mget;
  match k with
  | Starting =>
      match t with
      | [] => mput [(b, PID_MIN)] ≫= fun _ => mret (inr PID_MIN)
      | (a, _) :: _ => mret (inl (Walking a))
      end
  | Walking a =>
      match node_at a t with
      | None => mstop BadAccess
      | Some (p, []) => mret (inl (Testing a))
      | Some (p, (c, q) :: _) => mret (inl (if p =? q then Testing a else Walking c))
      end
  | Testing a =>
      match node_at a t with
      | None => mstop BadAccess
      | Some (p, _) => if p >? MAX_PID then mret (inr EINVAL) else mret (inl (Linking a (p + 1)))
      end
  | Linking a pid =>
      match node_at a t with
      | None => mstop BadAccess
      | Some _ => mput (link_behind a (b, pid) t) ≫= fun _ => mret (inr pid)
      end
  end.
(** A thread that runs alone. *)
Fixpoint add_alone (fuel : nat) (b : Z) (k : task) : M nodes Z :=
  match fuel with
  | O => mstop NoFuel
  | S fuel' => r ← add_step b k; match r with inl k' => add_alone fuel' b k' | inr p => mret p end
  end.

(** The system: the list, the pids of the live threads, how many were created,
    the holder of [wait_lock], and the threads inside [add_pid_table]. *)
Record psys := Psys {
  table : nodes;
  live : list Z;
  created : nat;
  wait_lock : option nat;
  tasks : gmap nat task;
}.
(** A step of the thread [i].  With [unlocked], a creation may begin without
    [wait_lock], as in [thread_fork]; otherwise only its holder begins one, as in
    [sys_fork].  A thread ends by [sys__exit], which holds the lock and removes
    its pid, or by returning from its entry point, which leaves the pid in the
    table.  The boot thread does not exit. *)
Inductive pstep (unlocked : bool) (i : nat) (s : psys) : psys -> Prop :=
  | p_acquire : wait_lock s = None ->
      pstep unlocked i s (Psys (table s) (live s) (created s) (Some i) (tasks s))
  | p_release : wait_lock s = Some i -> tasks s !! i = None ->
      pstep unlocked i s (Psys (table s) (live s) (created s) None (tasks s))
  | p_begin : tasks s !! i = None -> unlocked = true \/ wait_lock s = Some i ->
      pstep unlocked i s (Psys (table s) (live s) (created s) (wait_lock s) (<[i := Starting]> (tasks s)))
  | p_access b k k' t' : tasks s !! i = Some k -> b ∉ (table s).*1 ->
      add_step b k (table s) = Done (inl k', t') ->
      pstep unlocked i s (Psys t' (live s) (created s) (wait_lock s) (<[i := k']> (tasks s)))
  | p_created b k p t' : tasks s !! i = Some k -> b ∉ (table s).*1 ->
      add_step b k (table s) = Done (inr p, t') ->
      pstep unlocked i s (Psys t' (p :: live s) (S (created s)) (wait_lock s) (delete i (tasks s)))
  | p_exit live1 p live2 r t' : wait_lock s = Some i -> tasks s !! i = None ->
      live s = live1 ++ p :: live2 -> p <> PID_MIN -> t' `sublist_of` table s ->
      remove_pid_table p (table s).*2 = Done (r, t'.*2) ->
      pstep unlocked i s (Psys t' (live1 ++ live2) (created s) (wait_lock s) (tasks s))
  | p_return live1 p live2 : live s = live1 ++ p :: live2 -> p <> PID_MIN ->
      pstep unlocked i s (Psys (table s) (live1 ++ live2) (created s) (wait_lock s) (tasks s)).
Definition boot : psys := Psys [] [] 0 None ∅.
Definition preach (unlocked : bool) : psys -> Prop := rtc (fun s s' => exists i, pstep unlocked i s s') boot.

(** The thread in [add_pid_table] holds the lock, and is somewhere in the list;
    behind the loop it is at its end. *)
Definition at_last (a p : Z) (t : nodes) : Prop := exists l, t = l ++ [(a, p)].
Definition task_ok (k : task) (t : nodes) : Prop :=
  match k with
  | Starting => True
  | Walking a => a ∈ t.*1
  | Testing a => exists p, at_last a p t
  | Linking a pid => exists p, at_last a p t /\ pid = p + 1 /\ p <= MAX_PID
  end.
Record sys_inv (s : psys) : Prop := SysInv {
  si_table : table_inv (created s) (table s).*2 (live s);
  si_addr : NoDup (table s).*1;
  si_lock i k : tasks s !! i = Some k -> wait_lock s = Some i /\ task_ok k (table s)
}.
Lemma node_at_split a t : a ∈ t.*1 -> NoDup t.*1 ->
  exists l p r, t = l ++ (a, p) :: r /\ node_at a t = Some (p, r) /\
    forall n, link_behind a n t = l ++ (a, p) :: n :: r.
Proof.
  induction t as [|[b q] t IH]; cbn; [by intros ?%elem_of_nil|].
  intros Ha [Hb Hnd]%NoDup_cons. destruct (Z.eqb_spec b a) as [->|Hne]; [by exists [], q, t|].
  apply elem_of_cons in Ha as [->|Ha]; [done|]. destruct (IH Ha Hnd) as (l & p & r & -> & E & El).
  exists ((b, q) :: l), p, r. split; [done|]. split; [done|]. intros n. by rewrite El.
Qed.
Lemma at_last_node a p t : NoDup t.*1 -> at_last a p t ->
  node_at a t = Some (p, []) /\ forall n, link_behind a n t = t ++ [n].
Proof.
  intros Hnd [l ->]. induction l as [|[b q] l IH]; cbn in *; [by rewrite Z.eqb_refl|].
  apply NoDup_cons in Hnd as [Hb Hnd]. rewrite (proj2 (Z.eqb_neq b a)).
  - destruct (IH Hnd) as [-> El]. split; [done|]. intros n. by rewrite El.
  - intros ->. apply Hb. rewrite fmap_app. set_solver.
Qed.
Lemma at_last_pid a p t : at_last a p t -> last_pid t.*2 = p.
Proof. intros [l ->]. rewrite fmap_app. apply last_pid_snoc. Qed.
Lemma table_sorted n t lv : table_inv n t lv -> StronglySorted Z.lt t.
Proof. intros ([(_ & -> & _)|(r & -> & ?)] & _); [constructor|done]. Qed.

Lemma access_ok n t lv b k k' t' : table_inv n t.*2 lv -> NoDup t.*1 -> task_ok k t ->
  add_step b k t = Done (inl k', t') -> t' = t /\ task_ok k' t.
Proof.
  intros Ht Hnd Hk. unfold add_step. mrun. destruct k as [|a|a|a pid].
  - destruct t as [|[a p] r]; [done|]. intros [= <- <-]. split; [done|]. cbn. set_solver.
  - destruct (node_at_split a t Hk Hnd) as (l & p & r & E & -> & _). destruct r as [|[c q] r].
    + intros [= <- <-]. split; [done|]. by exists p, l.
    + rewrite (proj2 (Z.eqb_neq p q)).
      * intros [= <- <-]. split; [done|]. cbn. rewrite E, fmap_app. set_solver.
      * apply table_sorted in Ht. rewrite E, fmap_app in Ht. apply sorted_middle in Ht as [_ Hf].
        inversion_clear Hf. cbn in *. lia.
  - destruct Hk as [p Hk]. destruct (at_last_node _ _ _ Hnd Hk) as [-> _].
    destruct (Z.gtb_spec p MAX_PID); [done|]. intros [= <- <-]. split; [done|]. by exists p.
  - destruct Hk as (p & Hk & _). destruct (at_last_node _ _ _ Hnd Hk) as [-> _]. done.
Qed.
Lemma created_ok n t lv b k p t' : (n < 300)%nat -> table_inv n t.*2 lv -> NoDup t.*1 -> b ∉ t.*1 -> task_ok k t ->
  add_step b k t = Done (inr p, t') -> (p ∉ lv) /\ table_inv (S n) t'.*2 (p :: lv) /\ NoDup t'.*1.
Proof.
  intros Hn Ht Hnd Hb Hk Hs. destruct (create_inv n t.*2 lv Hn Ht) as (q & u & E & Hq & Hinv).
  revert Hs. unfold add_step. mrun. destruct k as [|a|a|a pid].
  - destruct t as [|[a r] t]; [|done]. intros [= <- <-]. cbn in E. injection E as <- <-. split_and!; [done|done|].
    by apply NoDup_singleton.
  - destruct (node_at_split a t Hk Hnd) as (l & x & r & E' & -> & _). by destruct r as [|[]].
  - destruct Hk as [x Hk]. destruct (at_last_node _ _ _ Hnd Hk) as [-> _].
    destruct (Z.gtb_spec x MAX_PID) as [Hx|]; [|done]. destruct Ht as (_ & Hl & _).
    rewrite (at_last_pid _ _ _ Hk) in Hl. unfold MAX_PID in Hx. lia.
  - destruct Hk as (x & Hk & -> & Hx). destruct (at_last_node _ _ _ Hnd Hk) as [-> ->]. intros [= <- <-].
    assert (pids_ok t.*2) as Hok by (destruct Ht as ([(_ & E0 & _)|?] & _); [destruct Hk as [l ->]; by destruct l|done]).
    destruct (add_pid_ok _ Hok) as [E' _]; rewrite (at_last_pid _ _ _ Hk) in *; [done|].
    rewrite E in E'. injection E' as -> ->. split; [done|]. rewrite !fmap_app. split; [done|].
    apply NoDup_app. split; [done|]. split; [set_solver|]. by apply NoDup_singleton.
Qed.
Lemma step_inv i s s' : pstep false i s s' -> sys_inv s -> (created s' <= 300)%nat -> sys_inv s'.
Proof.
  intros Hs [Ht Hnd Hk] Hn. destruct Hs as [Hl|Hl Hi|Hi [|Hl]|b k k' t' Hi Hb E|b k p t' Hi Hb E|live1 p live2 r t' Hl Hi El Hp Hsub E|live1 p live2 El Hp];
    cbn in *; try done.
  - split; cbn; try done. intros j k Hj. destruct (Hk j k Hj). congruence.
  - split; cbn; try done. intros j k Hj. destruct (Hk j k Hj). congruence.
  - split; cbn; try done. intros j k [[<- <-]|[_ Hj]]%lookup_insert_Some; [done|by apply Hk].
  - destruct (Hk i k Hi) as [Hl Hok]. destruct (access_ok _ _ _ _ _ _ _ Ht Hnd Hok E) as [-> Hok'].
    split; cbn; try done. intros j k0 [[<- <-]|[_ Hj]]%lookup_insert_Some; [done|by apply Hk].
  - destruct (Hk i k Hi) as [Hl Hok]. destruct (created_ok _ _ _ _ _ _ _ Hn Ht Hnd Hb Hok E) as (_ & ? & ?).
    split; cbn; try done. intros j k0 [Hne Hj]%lookup_delete_Some. destruct (Hk j k0 Hj). congruence.
  - rewrite El in Ht. destruct (exit_inv _ _ _ _ _ Hp Ht) as (u & E' & Hinv & _).
    rewrite E in E'. injection E' as -> <-. split; cbn; [done| |].
    + by eapply sublist_NoDup; [exact Hnd|apply fmap_sublist].
    + intros j k Hj. destruct (Hk j k Hj). congruence.
  - split; cbn; try done. rewrite El in Ht. destruct Ht as (Hok & Hlast & Hdup & Hsub).
    apply nodup_drop in Hdup as [? _]. unfold table_inv. split_and!; [|done|done|].
    + destruct Hok as [(-> & _ & E)|?]; [by destruct live1|by right].
    + intros q Hq. apply Hsub, elem_of_drop. by right.
Qed.
Lemma preach_inv s : preach false s -> (created s <= 300)%nat -> sys_inv s.
Proof.
  intros Hr. revert s Hr. apply (rtc_ind_r (fun s => (created s <= 300)%nat -> sys_inv s)).
  2: intros s s' Hr [i Hs] IH; intros Hn. 1: intros Hn.
  - split; cbn; [|constructor|by intros i k ?%lookup_empty_Some]. split_and!; [by left|done|constructor|done].
  - apply (step_inv i s s' Hs); [|done]. apply IH. destruct Hs; cbn in Hn; lia.
Qed.
(** Alone, the steps are [add_pid_table]. *)
Lemma walk_alone b a l p r : StronglySorted Z.lt (l ++ (a, p) :: r).*2 -> NoDup (l ++ (a, p) :: r).*1 -> b ∉ (l ++ (a, p) :: r).*1 ->
  last_pid (l ++ (a, p) :: r).*2 <= MAX_PID ->
  add_alone (3 + length r) b (Walking a) (l ++ (a, p) :: r)
  = Done (last_pid (l ++ (a, p) :: r).*2 + 1, (l ++ (a, p) :: r) ++ [(b, last_pid (l ++ (a, p) :: r).*2 + 1)]).
Proof.
  revert a l p. induction r as [|[c q] r IH]; intros a l p Ht Hnd Hb Hm; set (t := l ++ _) in *.
  - assert (at_last a p t) as Hk by (by exists l). destruct (at_last_node _ _ _ Hnd Hk) as [E El].
    rewrite (at_last_pid _ _ _ Hk) in *. cbn [length add_alone plus]. unfold add_step. mrun. rewrite E. mrun. rewrite E.
    destruct (Z.gtb_spec p MAX_PID); [lia|]. mrun. rewrite E. by rewrite El.
  - destruct (node_at_split a t) as (l' & p' & r' & E & E1 & _); [unfold t; rewrite fmap_app; set_solver|done|].
    assert (node_at a t = Some (p, (c, q) :: r)) as E2.
    { clear E E1 IH Ht Hm Hb. unfold t in *. clear t. induction l as [|[x y] l IHl]; cbn in *; [by rewrite Z.eqb_refl|].
      apply NoDup_cons in Hnd as [Hx Hnd]. rewrite (proj2 (Z.eqb_neq x a)); [by apply IHl|].
      intros ->. apply Hx. rewrite fmap_app. set_solver. }
    cbn [length plus]. change (S (S (S (S (length r))))) with (S (3 + length r)). cbn [add_alone].
    unfold add_step at 1. mrun. rewrite E2. rewrite (proj2 (Z.eqb_neq p q)).
    + assert (t = (l ++ [(a, p)]) ++ (c, q) :: r) as Et by (unfold t; by rewrite <- app_assoc). rewrite Et in *. by apply IH.
    + unfold t in Ht. rewrite fmap_app in Ht. apply sorted_middle in Ht as [_ Hf].
      inversion_clear Hf. cbn in *. lia.
Qed.
Lemma add_alone_table t b : pids_ok t.*2 -> NoDup t.*1 -> b ∉ t.*1 -> last_pid t.*2 <= MAX_PID ->
  exists p t', add_alone (3 + length t) b Starting t = Done (p, t') /\ add_pid_table true t.*2 = Done (p, t'.*2).
Proof.
  intros Hok Hnd Hb Hm. destruct (add_pid_ok _ Hok Hm) as [E _]. exists (last_pid t.*2 + 1), (t ++ [(b, last_pid t.*2 + 1)]).
  split; [|by rewrite E, fmap_app]. destruct Hok as (u & Eu & Hs). destruct t as [|[a p] r]; [done|].
  exact (walk_alone b a [] p r Hs Hnd Hb Hm).
Qed.

(** C8: For the first 300 threads of a system in which every thread is created
    under [wait_lock], as [sys_fork] does it, and memory for its node can be had,
    whatever the order in which threads get the lock, take the steps of
    [add_pid_table] under it, exit and return (a [thread_fork] from elsewhere in
    the kernel does not take the lock: [unlocked_creations_collide]): the live threads have distinct pids, each found by
    [pid_exists]; a thread about to link a node has chosen a pid that no live
    thread has, and so does the next creation; and the exit of a thread takes
    its pid, and no other live thread's, out of the table. *)
Theorem pids_unique s : preach false s -> (created s <= 300)%nat ->
  NoDup (live s) /\ (forall p, p ∈ live s -> pid_exists p (table s).*2 = Done 0)
  /\ ((created s < 300)%nat -> forall i b k p t', tasks s !! i = Some k -> b ∉ (table s).*1 ->
      add_step b k (table s) = Done (inr p, t') -> p ∉ live s)
  /\ ((created s < 300)%nat -> exists p t', add_pid_table true (table s).*2 = Done (p, t') /\ p ∉ live s)
  /\ (forall live1 p live2, live s = live1 ++ p :: live2 -> p <> PID_MIN ->
      exists t', remove_pid_table p (table s).*2 = Done (0, t')
        /\ pid_exists p t' = Done EINVAL
        /\ forall q, q ∈ live1 ++ live2 -> pid_exists q t' = Done 0).
Proof.
  intros Hr Hn. destruct (preach_inv _ Hr Hn) as [Hinv Hnd Hk].
  assert (Hex : forall m u lv q, table_inv m u lv -> q ∈ lv -> pid_exists q u = Done 0).
  { intros m u lv q (_ & _ & _ & Hsub) Hq. rewrite pid_exists_spec by (intros ->; set_solver).
    rewrite decide_True by set_solver. done. }
  split_and!.
  - apply Hinv.
  - intros p Hp. by eapply Hex.
  - intros Hlt i b k p t' Hi Hb E. destruct (Hk i k Hi) as [_ Hok].
    by destruct (created_ok _ _ _ _ _ _ _ Hlt Hinv Hnd Hb Hok E).
  - intros Hlt. destruct (create_inv _ _ _ Hlt Hinv) as (p & t' & E & Hp & _). eauto.
  - intros live1 p live2 El Hp. rewrite El in Hinv. destruct (exit_inv _ _ live1 p live2 Hp Hinv) as (t' & E & Hinv' & Hne & Hout).
    exists t'. split_and!; [done| |intros q Hq; by eapply Hex].
    rewrite pid_exists_spec by done. by rewrite decide_False.
Qed.

(** The table and the live pids after [n] creations. *)
Fixpoint creates (n : nat) : outcome (list Z * list Z) :=
  match n with
  | O => Done ([], [])
  | S m => '(t, live) ← creates m; '(p, t') ← add_pid_table true t; Done (t', p :: live)
  end.
Lemma creates_reach n : forall t live, creates n = Done (t, live) -> reach n t live.
Proof.
  induction n as [|n IH]; intros t live; cbn [creates].
  - intros [= <- <-]. constructor.
  - intros H. destruct (creates n) as [[t0 live0]|] eqn:E0; [|discriminate H]. cbn in H.
    destruct (add_pid_table true t0) as [[p t']|] eqn:E; [|discriminate H]. injection H as <- <-.
    exact (reach_create n t0 live0 p t' (IH _ _ eq_refl) E).
Qed.
(** Steps of the thread [i] that can be computed; [b] is the address of its node. *)
Ltac pid_begin i := eapply rtc_l; [exists i; apply p_begin; [reflexivity|auto]|cbn].
Ltac pid_access i b :=
  eapply rtc_l; [exists i; eapply (p_access _ _ _ b); [reflexivity|by apply (bool_decide_unpack _)|reflexivity]|cbn].
Ltac pid_created i b :=
  eapply rtc_l; [exists i; eapply (p_created _ _ _ b); [reflexivity|by apply (bool_decide_unpack _)|reflexivity]|cbn].
Lemma two_created : exists s, preach false s /\ live s = [3; 2] /\ created s = 2%nat.
Proof.
  eexists. split.
  { unfold preach, boot. eapply rtc_l; [exists 0%nat; by apply p_acquire|cbn].
    pid_begin 0%nat. pid_created 0%nat 100. pid_begin 0%nat. do 3 pid_access 0%nat 116. pid_created 0%nat 116. apply rtc_refl. }
  by split.
Qed.
Lemma pids_unique_witness : exists s, preach false s /\ live s = [3; 2] /\ NoDup (live s).
Proof.
  destruct two_created as (s & Hr & El & Ec). exists s. split; [exact Hr|]. split; [exact El|].
  refine (proj1 (pids_unique s Hr _)). rewrite Ec. lia.
Defined.
(** Two creations that do not hold the lock, as [thread_fork] makes them, can hand
    out the same pid. *)
Lemma unlocked_creations_collide : exists s, preach true s /\ live s = [3; 3; 2] /\ created s = 3%nat.
Proof.
  eexists. split.
  { unfold preach, boot. pid_begin 0%nat. pid_created 0%nat 100. pid_begin 0%nat. pid_begin 1%nat.
  do 3 pid_access 0%nat 116. do 3 pid_access 1%nat 132. pid_created 0%nat 116. pid_created 1%nat 132. apply rtc_refl. }
  by split.
Qed.

(** Creating the 301st thread hands out the error code of a full table as
    a pid: it is [EINVAL], the pid of a live thread. *)
Theorem pid_exhaustion_duplicates :
  exists t live, reach 301 t live /\ add_pid_table true t = Done (EINVAL, t)
    /\ (exists r, live = EINVAL :: r /\ EINVAL ∈ r) /\ pid_exists EINVAL t = Done 0.
Proof.
  destruct (creates 301) as [[t live]|f] eqn:E; [|by vm_compute in E].
  exists t, live. split; [by apply creates_reach|].
  vm_compute in E. injection E as <- <-. split; [by vm_compute|]. split; [|by vm_compute].
  eexists. split; [reflexivity|]. by apply (bool_decide_unpack _); vm_compute.
Qed.

(** ** waitpid and exit *)

(** A node of the list of waiters: its address, which is also the name of its
    wait channel, and its fields. *)
Record wait_List := WaitNode { wl_addr : Z; wl_pid : Z; wl_status : Z }.
(** [woken] are the channels [wchan_wakeall] was called on. *)
Record pst := Pst { wait_list : list wait_List; pid_list : list Z; woken : list Z }.
Definition with_waiters (l : list wait_List) (s : pst) : pst := Pst l (pid_list s) (woken s).

(** How [sys_waitpid] goes on after its checks: with an error, or asleep on
    the channel of a node.  [node] is the value of the local variable. *)
Inductive entry :=
  | Failed (e : Z)
  | Asleep (chan node stat : Z).

(** What the code does not initialise: the content of the stack slots of
    [node] and [stat], the [status] field of the new node, and memory that is
    not a node of the list ([None] when reading it faults). *)
Record junk := Junk { j_node : Z; j_stat : Z; j_status : Z; j_memory : Z -> option Z }.

Definition alloc_wait_list (a : option Z) (pid : Z) (j : junk) : M pst wait_List :=
  match a with
  | None => mstop NullDeref
  | Some a => mret (WaitNode a pid (j_status j))
  end.
Definition add_wait_list (node : wait_List) : M pst Z :=
  l ← mgets wait_list;
  match l with
  | [] => mret EINVAL
  | _ => mmodify (with_waiters (l ++ [node])) ≫= fun _ => mret 0
  end.

(** [while(trav != NULL)] without a step: it ends only at the first node. *)
Fixpoint get_waiting_loop (fuel : nat) (pid : Z) (trav : wait_List) : outcome wait_List :=
  match fuel with
  | O => Stop NoFuel
  | S f => if wl_pid trav =? pid then Done trav else get_waiting_loop f pid trav
  end.
Definition get_waiting_pid (fuel : nat) (pid : Z) (l : list wait_List) : outcome (option wait_List) :=
  match l with
  | [] => Done None
  | trav :: _ => n ← get_waiting_loop fuel pid trav; Done (Some n)
  end.

(** [sys_waitpid] up to the sleep, called by the thread [self] whose parent is
    [ppid].  [copied] is the outcome of the [copyin] from [status], [a] the
    address [kmalloc] gave, [chan] whether [wchan_create] succeeded. *)
Definition sys_waitpid_enter (self ppid : Z) (copied : result Z) (a : option Z) (chan : bool)
    (j : junk) (pid status options : Z) : M pst entry :=
  let stat := match copied with Ok v => v | Err _ => j_stat j end in
  let failed := match copied with Ok _ => 0 | Err e => e end in
  if negb (failed =? 0) && negb (ppid =? 0) then mret (Failed failed)
  else
    table ← mgets pid_list;
    e ← mlift (pid_exists pid table);
    if negb (e =? 0) || (pid <=? self) then mret (Failed EINVAL)
    else if status =? 0 then mret (Failed EINVAL)
    else if negb (options =? 0) then mret (Failed EINVAL)
    else
      l ← mgets wait_list;
      match l with
      | [] =>
          n ← alloc_wait_list a pid j;
          if negb chan then mstop NullDeref
          else mmodify (with_waiters [n]) ≫= fun _ => mret (Asleep (wl_addr n) (j_node j) stat)
      | _ =>
          n ← alloc_wait_list a pid j;
          add_wait_list n ≫= fun _ =>
          if negb chan then mstop NullDeref
          else mret (Asleep (wl_addr n) (wl_addr n) stat)
      end.

Fixpoint find_node (node : Z) (l : list wait_List) : option wait_List :=
  match l with
  | [] => None
  | n :: r => if wl_addr n =? node then Some n else find_node node r
  end.
(** The walk behind [prev]. *)
Fixpoint unlink_node (node : Z) (l : list wait_List) : list wait_List :=
  match l with
  | [] => []
  | n :: r => if wl_addr n =? node then r else n :: unlink_node node r
  end.
(** Removing the first node writes through [prev], which is not set. *)
Definition remove_wait_list (node : Z) (j : junk) : M pst Z :=
  l ← mgets wait_list;
  match find_node node l with
  | None =>
      _ ← mlift (match j_memory j node with None => Stop BadAccess | Some _ => Done tt end);
      match l with [] => mstop KPanic | _ => mret 0 end
  | Some _ =>
      match l with
      | [] => mstop KPanic
      | h :: r =>
          if wl_addr h =? node then mstop BadAccess
          else mmodify (with_waiters (h :: unlink_node node r)) ≫= fun _ => mret 0
      end
  end.
(** After the wakeup: the return value, and what is stored at [*status].
    [first]: the list was empty on entry, and nothing is stored. *)
Definition sys_waitpid_resume (first : bool) (pid node stat : Z) (j : junk) : M pst (Z * option Z) :=
  l ← mgets wait_list;
  stored ← (if first then mret None
            else match find_node node l with
                 | None => mstop BadAccess
                 | Some n => mret (Some (if negb (wl_status n =? stat) then -1 else stat))
                 end);
  _ ← remove_wait_list node j;
  mret (pid, stored).

Definition on_pids {A} (m : M (list Z) A) : M pst A :=
  fun s => match m (pid_list s) with
           | Done (a, t) => Done (a, Pst (wait_list s) t (woken s))
           | Stop f => Stop f
           end.
(** [sys__exit] of the thread [self], up to the call of [thread_exit]. *)
Definition set_status (self code : Z) (n : wait_List) : wait_List :=
  if wl_pid n =? self then WaitNode (wl_addr n) (wl_pid n) code else n.
Definition channels (self : Z) (l : list wait_List) : list Z :=
  map wl_addr (filter (fun n => wl_pid n = self) l).
Definition sys__exit (self code : Z) : M pst unit :=
  l ← mgets wait_list;
  mmodify (fun s => Pst (map (set_status self code) l) (pid_list s) (woken s ++ channels self l)) ≫= fun _ =>
  if self >? 1 then on_pids (remove_pid_table self) ≫= fun _ => mret tt
  else mret tt.

Lemma find_node_app_r a l n : a ∉ map wl_addr l -> wl_addr n = a -> find_node a (l ++ [n]) = Some n.
Proof.
  induction l as [|m l IH]; cbn; intros Hl Hn.
  - by rewrite (proj2 (Z.eqb_eq _ _) Hn).
  - apply not_elem_of_cons in Hl as [Hm Hl].
    rewrite (proj2 (Z.eqb_neq (wl_addr m) a)) by congruence. by apply IH.
Qed.
Lemma unlink_node_app_r a l n : a ∉ map wl_addr l -> wl_addr n = a -> unlink_node a (l ++ [n]) = l.
Proof.
  induction l as [|m l IH]; cbn; intros Hl Hn.
  - by rewrite (proj2 (Z.eqb_eq _ _) Hn).
  - apply not_elem_of_cons in Hl as [Hm Hl].
    rewrite (proj2 (Z.eqb_neq (wl_addr m) a)) by congruence. by rewrite IH.
Qed.
Lemma set_status_addrs self code l : map wl_addr (map (set_status self code) l) = map wl_addr l.
Proof. rewrite map_map. apply map_ext. intros n. unfold set_status. by destruct (wl_pid n =? self). Qed.

(** Waiting, with another waiter in the list: the new node goes to its end. *)
Lemma waitpid_enter_ok self ppid stat a j pid status l t w :
  l <> [] -> pid_exists pid t = Done 0 -> self < pid -> status <> 0 ->
  sys_waitpid_enter self ppid (Ok stat) (Some a) true j pid status 0 (Pst l t w)
  = Done (Asleep a a stat, Pst (l ++ [WaitNode a pid (j_status j)]) t w).
Proof.
  intros Hl Hp Hs Hst. unfold sys_waitpid_enter, add_wait_list, alloc_wait_list.
  cbn [Z.eqb negb andb]. mrun. cbn [pid_list]. rewrite Hp. cbn [Z.eqb negb orb].
  rewrite (proj2 (Z.leb_gt pid self) Hs), (proj2 (Z.eqb_neq status 0) Hst). cbn [negb].
  destruct l as [|h l]; [done|]. done.
Qed.

(** A step of another thread, while one sleeps on the node [a] for [pid]: it
    waits on a fresh node, exits, or returns from its own sleep. *)
Inductive others (a pid : Z) (s s' : pst) : Prop :=
  | others_wait self ppid copied a' chan j q status options e :
      a' ∉ map wl_addr (wait_list s) ->
      sys_waitpid_enter self ppid copied (Some a') chan j q status options s = Done (e, s') ->
      others a pid s s'
  | others_exit q code : q <> pid -> sys__exit q code s = Done (tt, s') -> others a pid s s'
  | others_resume first q b stat j v :
      b <> a -> sys_waitpid_resume first q b stat j s = Done (v, s') -> others a pid s s'.

(** The node [a] is in the list behind its head, with the status [st]. *)
Definition waits (a pid st : Z) (s : pst) : Prop :=
  exists h r, wait_list s = h :: r /\ wl_addr h <> a /\ find_node a r = Some (WaitNode a pid st).

Lemma find_node_app a l n r : find_node a l = Some n -> find_node a (l ++ r) = Some n.
Proof. induction l as [|m l IH]; cbn; [done|]. destruct (wl_addr m =? a); [done|apply IH]. Qed.
Lemma find_node_unlink a b l : a <> b -> find_node a (unlink_node b l) = find_node a l.
Proof.
  intros Hab. induction l as [|m l IH]; cbn; [done|].
  destruct (Z.eqb_spec (wl_addr m) b) as [E|_]; cbn.
  - by rewrite (proj2 (Z.eqb_neq (wl_addr m) a)) by congruence.
  - by rewrite IH.
Qed.
Lemma find_node_map a self code l :
  find_node a (map (set_status self code) l) = set_status self code <$> find_node a l.
Proof.
  induction l as [|m l IH]; cbn; [done|].
  replace (wl_addr (set_status self code m)) with (wl_addr m)
    by (unfold set_status; by destruct (wl_pid m =? self)).
  by destruct (wl_addr m =? a).
Qed.

Lemma enter_waiters self ppid copied a' chan j q status options s e s' :
  sys_waitpid_enter self ppid copied (Some a') chan j q status options s = Done (e, s') ->
  wait_list s' = wait_list s \/ exists n, wl_addr n = a' /\ wait_list s' = wait_list s ++ [n].
Proof.
  destruct s as [l t w]. unfold sys_waitpid_enter, add_wait_list, alloc_wait_list.
  destruct (_ && _); mrun; [by intros [= <- <-]; left|].
  cbn [pid_list]. destruct (pid_exists q t) as [x|]; [|done].
  destruct (_ || _); [by intros [= <- <-]; left|].
  destruct (status =? 0); [by intros [= <- <-]; left|].
  destruct (negb (options =? 0)); [by intros [= <- <-]; left|].
  destruct l as [|h l], chan; cbn; try done; intros [= <- <-]; right;
    by exists (WaitNode a' q (j_status j)).
Qed.
Lemma exit_waiters q code s s' : sys__exit q code s = Done (tt, s') ->
  wait_list s' = map (set_status q code) (wait_list s)
  /\ woken s' = woken s ++ channels q (wait_list s).
Proof.
  unfold sys__exit, on_pids. mrun. destruct (q >? 1); cbn.
  - destruct (remove_pid_table q (pid_list s)) as [[x t]|]; [|done]. by intros [= <-].
  - by intros [= <-].
Qed.
Lemma resume_waiters first q b stat j s v s' :
  sys_waitpid_resume first q b stat j s = Done (v, s') ->
  wait_list s' = wait_list s
  \/ exists h r, wait_list s = h :: r /\ wl_addr h <> b /\ wait_list s' = h :: unlink_node b r.
Proof.
  destruct s as [l t w]. intros H. unfold sys_waitpid_resume in H.
  apply bind_inv in H as (l0 & s0 & [= <- <-] & H).
  apply bind_inv in H as (st & s0 & Hs & H).
  assert (s0 = Pst l t w) as ->.
  { destruct first; [by injection Hs|]. cbn [wait_list] in Hs.
    destruct (find_node b l); [by injection Hs|done]. }
  clear Hs. revert H. unfold remove_wait_list. mrun. cbn [wait_list].
  destruct (find_node b l).
  - destruct l as [|h r]; [done|]. destruct (Z.eqb_spec (wl_addr h) b); [done|].
    intros [= <- <-]. right. by exists h, r.
  - destruct (j_memory j b); [|done]. destruct l; [done|]. intros [= <- <-]. by left.
Qed.

Lemma others_waits a pid st s s' : others a pid s s' -> waits a pid st s -> waits a pid st s'.
Proof.
  intros Ho (h & r & El & Hh & Hf). destruct Ho as
    [self ppid copied a' chan j q status options e Hn E|q code Hq E|first q b stat j v Hb E].
  - apply enter_waiters in E as [E|(n & _ & E)]; unfold waits; rewrite E, El; [by exists h, r|].
    exists h, (r ++ [n]). by rewrite (find_node_app _ _ _ _ Hf).
  - apply exit_waiters in E as [E _]. rewrite El in E. exists (set_status q code h), (map (set_status q code) r).
    rewrite find_node_map, Hf. split; [done|]. unfold set_status. cbn.
    rewrite (proj2 (Z.eqb_neq pid q)) by congruence. by destruct (wl_pid h =? q).
  - apply resume_waiters in E as [E|(h' & r' & El' & _ & E)]; [rewrite <- E in El; by exists h, r|].
    rewrite El in El'. injection El' as <- <-. exists h, (unlink_node b r).
    by rewrite find_node_unlink.
Qed.
Lemma others_rtc_waits a pid st s s' : rtc (others a pid) s s' -> waits a pid st s -> waits a pid st s'.
Proof. induction 1 as [|x y z Ho _ IH]; [done|]. intros Hw. by apply IH, (others_waits _ _ _ _ _ Ho). Qed.

Lemma exit_waits pid a st code s s' : sys__exit pid code s = Done (tt, s') -> waits a pid st s ->
  waits a pid code s' /\ a ∈ woken s'.
Proof.
  intros E (h & r & El & Hh & Hf). apply exit_waiters in E as [E Ew]. split.
  - rewrite El in E. exists (set_status pid code h), (map (set_status pid code) r).
    rewrite find_node_map, Hf. split; [done|]. unfold set_status. cbn.
    rewrite Z.eqb_refl. by destruct (wl_pid h =? pid).
  - rewrite Ew. apply elem_of_app. right. unfold channels. rewrite El.
    apply list_elem_of_fmap. exists (WaitNode a pid st). split; [done|].
    apply list_elem_of_filter. split; [done|]. right. clear El Hh Ew E.
    induction r as [|m r IH]; cbn in Hf; [done|]. destruct (wl_addr m =? a); [|by right; apply IH].
    injection Hf as ->. by left.
Qed.
Lemma resume_waits a pid st stat j s : waits a pid st s ->
  exists h r, wait_list s = h :: r
    /\ sys_waitpid_resume false pid a stat j s
       = Done ((pid, Some (if st =? stat then stat else -1)), with_waiters (h :: unlink_node a r) s).
Proof.
  intros (h & r & El & Hh & Hf). exists h, r. split; [done|].
  assert (Hf' : find_node a (h :: r) = Some (WaitNode a pid st)).
  { cbn. by rewrite (proj2 (Z.eqb_neq _ _) Hh). }
  unfold sys_waitpid_resume, remove_wait_list. mrun. rewrite El, Hf'. cbn [wl_status].
  rewrite El, Hf', (proj2 (Z.eqb_neq _ _) Hh). by destruct (st =? stat).
Qed.

(** C9: A thread that waits for a live child while another waiter is in the
    list is woken by the child's exit, whatever other threads do in between
    and after it, and [sys_waitpid] returns the child's pid.  What it stores
    as the exit status is the exit code only when the word at [status]
    already held that code, and -1 otherwise. *)
Theorem waitpid_reports self ppid stat a j pid status s :
  wait_list s <> [] -> a ∉ map wl_addr (wait_list s) ->
  pid_exists pid (pid_list s) = Done 0 -> self < pid -> status <> 0 ->
  exists s1,
    sys_waitpid_enter self ppid (Ok stat) (Some a) true j pid status 0 s = Done (Asleep a a stat, s1)
    /\ forall s2 s3 s4 code,
      rtc (others a pid) s1 s2 -> sys__exit pid code s2 = Done (tt, s3) -> rtc (others a pid) s3 s4 ->
      a ∈ woken s3
      /\ exists s5, sys_waitpid_resume false pid a stat j s4
           = Done ((pid, Some (if code =? stat then code else -1)), s5).
Proof.
  intros Hl Ha Hp Hs Hst. destruct s as [l t w]. cbn [wait_list pid_list] in *. eexists.
  split; [by apply waitpid_enter_ok|]. intros s2 s3 s4 code H12 Hx H34.
  destruct l as [|h l]; [done|]. apply not_elem_of_cons in Ha as [Hh Ha].
  assert (Hw : waits a pid (j_status j) (Pst ((h :: l) ++ [WaitNode a pid (j_status j)]) t w)).
  { exists h, (l ++ [WaitNode a pid (j_status j)]). split; [done|]. split; [congruence|].
    by apply find_node_app_r. }
  apply (others_rtc_waits _ _ _ _ _ H12), (exit_waits _ _ _ _ _ _ Hx) in Hw as [Hw Hwo].
  split; [done|]. apply (others_rtc_waits _ _ _ _ _ H34) in Hw.
  destruct (resume_waits _ _ _ stat j _ Hw) as (h' & r & _ & E). rewrite E. eexists.
  destruct (Z.eqb_spec code stat) as [->|]; done.
Qed.

Lemma waitpid_reports_witness :
  let s := Pst [WaitNode 100 3 0] [2; 3; 4; 5] [] in
  let j := Junk 0 0 77 (fun _ => None) in
  exists s1, sys_waitpid_enter 3 2 (Ok 0) (Some 200) true j 5 4096 0 s = Done (Asleep 200 200 0, s1)
    /\ exists s3 s5, sys__exit 5 9 s1 = Done (tt, s3)
      /\ sys_waitpid_resume false 5 200 0 j s3 = Done ((5, Some (-1)), s5).
Proof.
  intros s j.
  destruct (waitpid_reports 3 2 0 200 j 5 4096 s) as (s1 & E1 & H).
  { discriminate. }
  { apply (bool_decide_unpack _). vm_compute. exact I. }
  { reflexivity. }
  { lia. }
  { lia. }
  exists s1. split; [exact E1|].
  destruct (sys__exit 5 9 s1) as [[[] s3]|f] eqn:E3.
  2:{ vm_compute in E1. injection E1 as <-. discriminate E3. }
  destruct (H s1 s3 s3 9 (rtc_refl _ _) E3 (rtc_refl _ _)) as (_ & s5 & E5).
  exists s3, s5. split; [reflexivity|exact E5].
Defined.

(** The first waiter of an empty list returns without its status stored:
    it removes the node at an address it never set.  Whatever that address
    is, either the kernel faults or the node stays in the list, which
    therefore never becomes empty again. *)
Theorem first_waiter_unset_node self ppid stat a j pid status t w :
  pid_exists pid t = Done 0 -> self < pid -> status <> 0 ->
  exists s1,
    sys_waitpid_enter self ppid (Ok stat) (Some a) true j pid status 0 (Pst [] t w)
      = Done (Asleep a (j_node j) stat, s1)
    /\ forall code s2, sys__exit pid code s1 = Done (tt, s2) ->
        sys_waitpid_resume true pid (j_node j) stat j s2 = Stop BadAccess
        \/ (sys_waitpid_resume true pid (j_node j) stat j s2 = Done ((pid, None), s2)
            /\ wait_list s2 = [WaitNode a pid code]).
Proof.
  intros Hp Hs Hst. exists (Pst [WaitNode a pid (j_status j)] t w). split.
  - unfold sys_waitpid_enter, alloc_wait_list. cbn [Z.eqb negb andb]. mrun. cbn [pid_list].
    rewrite Hp. cbn [Z.eqb negb orb].
    by rewrite (proj2 (Z.leb_gt pid self) Hs), (proj2 (Z.eqb_neq status 0) Hst).
  - intros code s2 E. apply exit_waiters in E as [E _]. cbn in E. unfold set_status in E. cbn in E.
    rewrite Z.eqb_refl in E. unfold sys_waitpid_resume, remove_wait_list. mrun.
    rewrite E. cbn [find_node wl_addr]. destruct (a =? j_node j); [by left|].
    destruct (j_memory j (j_node j)); [by right|by left].
Qed.
Lemma first_waiter_unset_node_witness :
  exists s1, sys_waitpid_enter 3 2 (Ok 0) (Some 200) true (Junk 0 0 0 (fun _ => None)) 4 4096 0
      (Pst [] [2; 3; 4] []) = Done (Asleep 200 0 0, s1)
    /\ exists s2, sys__exit 4 0 s1 = Done (tt, s2).
Proof.
  destruct (first_waiter_unset_node 3 2 0 200 (Junk 0 0 0 (fun _ => None)) 4 4096 [2; 3; 4] [])
    as (s1 & E & _); [reflexivity|lia|lia|].
  exists s1. split; [exact E|]. vm_compute in E. injection E as <-. eexists. reflexivity.
Defined.
