(* ===== verification/Spl.v ===== *)
(** Interrupt levels and spinlocks (kern/thread/spl.c, kern/thread/spinlock.c)

    Several processors run the code of spinlock.c at the grain of single
    accesses to the lock word: the load-linked and the store-conditional of
    the test-and-set are two steps.  The interrupt level is a property of the
    thread that a processor runs, the lock of the processor, and a context
    switch changes the thread under the lock of the run queue. *)
From S2P Require Import Prelude.

(** ** State *)
Definition IPL_NONE : Z := 0.
Definition IPL_HIGH : Z := 1.
Definition CST_IEc : Z := 1.

(** The fields of [struct thread] that hold the interrupt state. *)
Record thread := Thread { t_curspl : Z; t_iplhigh_count : Z }.
Record spinlock := Spinlock { lk_lock : Z; lk_holder : option nat }.
(** Where a processor is in spinlock.c: in none of its functions, in the loop
    of [spinlock_acquire] before the test, before the test-and-set, between its
    two instructions (with the value loaded, and whether the link still
    stands), behind the loop; in [spinlock_release] before the lock word is
    cleared, and before the [spllower]. *)
Inductive pc :=
  | Out
  | Spin (l : Z)
  | Test (l : Z)
  | Linked (l x : Z) (link : bool)
  | Taken (l : Z)
  | Freeing (l : Z)
  | Lowering.
#[export] Instance pc_eq_dec : EqDecision pc.
Proof. solve_decision. Defined.

(** A processor: its thread, its status register, its position. *)
Record cpu := Cpu { c_curthread : Z; status : Z; at_pc : pc }.
Record kst := Kst {
  threads : gmap Z thread;
  cpus : gmap nat cpu;
  locks : gmap Z spinlock;
  suspended : gset Z;
}.

Definition get_cpu (c : nat) : M kst cpu :=
  s ← mget; match cpus s !! c with Some x => mret x | None => mstop BadAccess end.
Definition put_cpu (c : nat) (x : cpu) : M kst unit :=
  mmodify (fun s => Kst (threads s) (<[c := x]> (cpus s)) (locks s) (suspended s)).
Definition get_thread (t : Z) : M kst thread :=
  s ← mget; match threads s !! t with Some x => mret x | None => mstop BadAccess end.
Definition put_thread (t : Z) (x : thread) : M kst unit :=
  mmodify (fun s => Kst (<[t := x]> (threads s)) (cpus s) (locks s) (suspended s)).
Definition get_lock (l : Z) : M kst spinlock :=
  s ← mget; match locks s !! l with Some x => mret x | None => mstop BadAccess end.
Definition put_lock (l : Z) (x : spinlock) : M kst unit :=
  mmodify (fun s => Kst (threads s) (cpus s) (<[l := x]> (locks s)) (suspended s)).
Definition goto (c : nat) (p : pc) : M kst unit :=
  x ← get_cpu c; put_cpu c (Cpu (c_curthread x) (status x) p).

(** ** The interrupt level *)
Definition cpu_irqon (c : nat) : M kst unit :=
  x ← get_cpu c; put_cpu c (Cpu (c_curthread x) (Z.lor (status x) CST_IEc) (at_pc x)).
Definition cpu_irqoff (c : nat) : M kst unit :=
  x ← get_cpu c;
  put_cpu c (Cpu (c_curthread x) (Z.land (status x) (Z.lnot CST_IEc)) (at_pc x)).

Definition splraise (c : nat) (oldspl newspl : Z) : M kst unit :=
  x ← get_cpu c;
  kassert (oldspl =? IPL_NONE) ≫= fun _ =>
  kassert (newspl =? IPL_HIGH) ≫= fun _ =>
  cur ← get_thread (c_curthread x);
  (if t_iplhigh_count cur =? 0 then cpu_irqoff c else mret tt) ≫= fun _ =>
  put_thread (c_curthread x) (Thread (t_curspl cur) (t_iplhigh_count cur + 1)).
Definition spllower (c : nat) (oldspl newspl : Z) : M kst unit :=
  x ← get_cpu c;
  kassert (oldspl =? IPL_HIGH) ≫= fun _ =>
  kassert (newspl =? IPL_NONE) ≫= fun _ =>
  cur ← get_thread (c_curthread x);
  put_thread (c_curthread x) (Thread (t_curspl cur) (t_iplhigh_count cur - 1)) ≫= fun _ =>
  if t_iplhigh_count cur - 1 =? 0 then cpu_irqon c else mret tt.
Definition set_curspl (t spl : Z) : M kst unit :=
  cur ← get_thread t; put_thread t (Thread spl (t_iplhigh_count cur)).
Definition splx (c : nat) (spl : Z) : M kst Z :=
  x ← get_cpu c;
  cur ← get_thread (c_curthread x);
  if t_curspl cur <? spl then
    splraise c (t_curspl cur) spl ≫= fun _ =>
    set_curspl (c_curthread x) spl ≫= fun _ =>
    mret (t_curspl cur)
  else if t_curspl cur >? spl then
    set_curspl (c_curthread x) spl ≫= fun _ =>
    spllower c (t_curspl cur) spl ≫= fun _ =>
    mret (t_curspl cur)
  else mret spl.
Definition spl0 (c : nat) : M kst Z := splx c IPL_NONE.
Definition splhigh (c : nat) : M kst Z := splx c IPL_HIGH.

(** ** Spinlocks *)

(** A store to a lock word breaks the links of the other processors to it. *)
Definition break_link (l : Z) (x : cpu) : cpu :=
  match at_pc x with
  | Linked l' v _ =>
      if decide (l = l') then Cpu (c_curthread x) (status x) (Linked l' v false) else x
  | _ => x
  end.
Definition spinlock_data_set (l val : Z) : M kst unit :=
  lk ← get_lock l;
  put_lock l (Spinlock val (lk_holder lk)) ≫= fun _ =>
  mmodify (fun s => Kst (threads s) (break_link l <$> cpus s) (locks s) (suspended s)).

(** [spinlock_acquire] up to its loop. *)
Definition spinlock_acquire (c : nat) (l : Z) : M kst unit :=
  splraise c IPL_NONE IPL_HIGH ≫= fun _ =>
  lk ← get_lock l;
  if bool_decide (lk_holder lk = Some c) then mstop KPanic
  else goto c (Spin l).
(** The next access of a processor inside spinlock.c.  [sc] tells whether a
    store-conditional with a standing link takes place. *)
Definition spinlock_step (c : nat) (sc : bool) : M kst unit :=
  x ← get_cpu c;
  match at_pc x with
  | Out => mret tt
  | Spin l =>
      lk ← get_lock l;
      if negb (lk_lock lk =? 0) then mret tt else goto c (Test l)
  | Test l => lk ← get_lock l; goto c (Linked l (lk_lock lk) true)
  | Linked l v link =>
      if sc && link then
        spinlock_data_set l 1 ≫= fun _ =>
        goto c (if negb (v =? 0) then Spin l else Taken l)
      else goto c (Spin l)
  | Taken l =>
      lk ← get_lock l;
      put_lock l (Spinlock (lk_lock lk) (Some c)) ≫= fun _ => goto c Out
  | Freeing l => spinlock_data_set l 0 ≫= fun _ => goto c Lowering
  | Lowering => spllower c IPL_HIGH IPL_NONE ≫= fun _ => goto c Out
  end.
(** [spinlock_release] up to the store to the lock word. *)
Definition spinlock_release (c : nat) (l : Z) : M kst unit :=
  lk ← get_lock l;
  kassert (bool_decide (lk_holder lk = Some c)) ≫= fun _ =>
  put_lock l (Spinlock (lk_lock lk) None) ≫= fun _ =>
  goto c (Freeing l).
Definition spinlock_do_i_hold (c : nat) (l : Z) : M kst bool :=
  lk ← get_lock l; mret (bool_decide (lk_holder lk = Some c)).
Definition spinlock_init (l : Z) : M kst unit := put_lock l (Spinlock 0 None).
Definition spinlock_cleanup (l : Z) : M kst unit :=
  lk ← get_lock l;
  kassert (bool_decide (lk_holder lk = None)) ≫= fun _ =>
  kassert (lk_lock lk =? 0).

(** ** What the processors do

    A processor outside spinlock.c may call any of its functions and [splx];
    inside, it goes on.  In [thread_switch], with the level high and only the
    lock of its run queue held, it turns to another thread.  A new thread
    comes with the level and the count that [thread_create] and [thread_fork]
    give it. *)
Definition held (c : nat) (m : gmap Z spinlock) : gmap Z spinlock :=
  filter (fun kv => lk_holder kv.2 = Some c) m.
Definition new_thread : thread := Thread IPL_HIGH (1 + 1).
Definition switch_to (c : nat) (next : Z) : M kst unit :=
  x ← get_cpu c;
  put_cpu c (Cpu next (status x) (at_pc x)) ≫= fun _ =>
  mmodify (fun s => Kst (threads s) (cpus s) (locks s)
                        ({[ c_curthread x ]} ∪ suspended s ∖ {[ next ]})).

Inductive step (rq : nat -> Z) (s s' : kst) : Prop :=
  | step_splx c x spl old :
      cpus s !! c = Some x -> at_pc x = Out -> spl = IPL_NONE \/ spl = IPL_HIGH ->
      splx c spl s = Done (old, s') -> step rq s s'
  | step_acquire c x l :
      cpus s !! c = Some x -> at_pc x = Out ->
      spinlock_acquire c l s = Done (tt, s') -> step rq s s'
  | step_release c x l :
      cpus s !! c = Some x -> at_pc x = Out ->
      spinlock_release c l s = Done (tt, s') -> step rq s s'
  | step_inside c sc :
      spinlock_step c sc s = Done (tt, s') -> step rq s s'
  | step_switch c x t next :
      cpus s !! c = Some x -> at_pc x = Out -> threads s !! c_curthread x = Some t ->
      t_curspl t = IPL_HIGH ->
      (forall l lk, locks s !! l = Some lk -> lk_holder lk = Some c <-> l = rq c) ->
      is_Some (locks s !! rq c) -> next ∈ suspended s ->
      switch_to c next s = Done (tt, s') -> step rq s s'
  | step_new t :
      t ∉ dom (threads s) ->
      s' = Kst (<[t := new_thread]> (threads s)) (cpus s) (locks s) ({[ t ]} ∪ suspended s) ->
      step rq s s'.

(** ** Invariant *)
Definition nheld (c : nat) (m : gmap Z spinlock) : Z := Z.of_nat (size (held c m)).
Definition inside (p : pc) : Z := if decide (p = Out) then 0 else 1.
(** The lock word is set and the holder not, or not any more. *)
Definition taking (p : pc) (l : Z) : Prop := p = Taken l \/ p = Freeing l.
Definition owns (s : kst) (c : nat) (l : Z) : Prop :=
  (exists lk, locks s !! l = Some lk /\ lk_holder lk = Some c)
  \/ (exists x, cpus s !! c = Some x /\ taking (at_pc x) l).

(** The level of the thread a processor runs, its count, and the interrupt
    enable bit of the processor. *)
Definition level_ok (s : kst) (c : nat) (x : cpu) : Prop :=
  exists t, threads s !! c_curthread x = Some t
    /\ (t_curspl t = IPL_NONE \/ t_curspl t = IPL_HIGH)
    /\ t_iplhigh_count t = t_curspl t + nheld c (locks s) + inside (at_pc x)
    /\ Z.testbit (status x) 0 = (t_iplhigh_count t =? 0).
Definition lock_ok (s : kst) (l : Z) (lk : spinlock) : Prop :=
  lk_lock lk = 0 /\ (forall c, ~ owns s c l)
  \/ lk_lock lk = 1 /\ exists c, forall c', owns s c' l <-> c' = c.
(** What the position of a processor says about the lock it is at. *)
Definition pc_ok (m : gmap Z spinlock) (c : nat) (p : pc) : Prop :=
  match p with
  | Spin l | Test l | Taken l | Freeing l => forall lk, m !! l = Some lk -> lk_holder lk <> Some c
  | Linked l v link =>
      (forall lk, m !! l = Some lk -> lk_holder lk <> Some c)
      /\ (link = true -> exists lk, m !! l = Some lk /\ lk_lock lk = v)
  | Out | Lowering => True
  end.
Record inv (rq : nat -> Z) (s : kst) : Prop := Inv {
  inv_level : forall c x, cpus s !! c = Some x -> level_ok s c x;
  inv_pc : forall c x, cpus s !! c = Some x -> pc_ok (locks s) c (at_pc x);
  inv_lock : forall l lk, locks s !! l = Some lk -> lock_ok s l lk;
  inv_taken : forall c x l, cpus s !! c = Some x -> taking (at_pc x) l ->
    is_Some (locks s !! l);
  inv_current : forall c c' x x', cpus s !! c = Some x -> cpus s !! c' = Some x' ->
    c_curthread x = c_curthread x' -> c = c';
  inv_suspended : forall t, t ∈ suspended s ->
    threads s !! t = Some new_thread /\ forall c x, cpus s !! c = Some x -> c_curthread x <> t;
}.

Lemma held_split c m l lk : m !! l = Some lk ->
  nheld c m = nheld c (delete l m) + (if decide (lk_holder lk = Some c) then 1 else 0).
Proof.
  intros Hl. unfold nheld, held. rewrite map_filter_delete.
  destruct (decide (lk_holder lk = Some c)) as [Hh|Hh].
  - assert (E : filter (fun kv => lk_holder kv.2 = Some c) m !! l = Some lk).
    { apply map_lookup_filter_Some. done. }
    rewrite (map_size_delete_Some l). 2:{ by eexists. }
    assert (0 < size (filter (fun kv : Z * spinlock => lk_holder kv.2 = Some c) m))%nat.
    { apply Nat.neq_0_lt_0. intros H0. apply map_size_empty_inv in H0. rewrite H0 in E. done. }
    lia.
  - rewrite delete_id; [lia|]. apply map_lookup_filter_None. right. intros lk' E Hh'. cbn in Hh'. congruence.
Qed.
Lemma held_insert c m l lk lk' : m !! l = Some lk ->
  nheld c (<[l := lk']> m)
  = nheld c m - (if decide (lk_holder lk = Some c) then 1 else 0)
    + (if decide (lk_holder lk' = Some c) then 1 else 0).
Proof.
  intros Hl. rewrite (held_split c (<[l := lk']> m) l lk') by apply lookup_insert_eq.
  rewrite delete_insert_eq. rewrite (held_split c m l lk Hl). lia.
Qed.
Lemma held_same c m l lk lk' : m !! l = Some lk -> lk_holder lk' = lk_holder lk ->
  nheld c (<[l := lk']> m) = nheld c m.
Proof. intros Hl E. rewrite (held_insert c m l lk lk' Hl), E. lia. Qed.

(** A change of the other processors that only breaks links. *)
Record quiet (f : cpu -> cpu) : Prop := Quiet {
  quiet_thread y : c_curthread (f y) = c_curthread y;
  quiet_status y : status (f y) = status y;
  quiet_taking y l : taking (at_pc (f y)) l <-> taking (at_pc y) l;
  quiet_inside y : inside (at_pc (f y)) = inside (at_pc y);
}.
Lemma quiet_id : quiet id.
Proof. by split. Qed.
Lemma quiet_break_link l : quiet (break_link l).
Proof.
  split; intros y; unfold break_link; destruct (at_pc y) as [| | |l' v b| | |] eqn:E;
    try intros l0; try destruct (decide (l = l')); cbn; rewrite ?E; try done.
  unfold taking. naive_solver.
Qed.

Lemma owns_frame s c x x' f l0 lks' th sus l c' : quiet f -> cpus s !! c = Some x ->
  lks' !! l = locks s !! l -> (taking (at_pc x') l <-> taking (at_pc x) l) -> l <> l0 ->
  owns (Kst th (<[c := x']> (f <$> cpus s)) lks' sus) c' l <-> owns s c' l.
Proof.
  intros Hq Hx El Ht _. unfold owns. cbn. rewrite El. f_equiv. destruct (decide (c' = c)) as [->|Hc].
  - rewrite lookup_insert_eq, Hx. naive_solver.
  - rewrite lookup_insert_ne, lookup_fmap by done. destruct (cpus s !! c') as [y|]; cbn; [|naive_solver].
    pose proof (quiet_taking f Hq y l). naive_solver.
Qed.

Section frame.
Context (rq : nat -> Z) (s : kst) (c : nat) (x x' : cpu) (t' : thread) (f : cpu -> cpu).
Context (l0 : Z) (lks' : gmap Z spinlock).
Let s' := Kst (<[c_curthread x := t']> (threads s)) (<[c := x']> (f <$> cpus s)) lks' (suspended s).

Lemma inv_frame :
  inv rq s -> cpus s !! c = Some x -> quiet f -> c_curthread x' = c_curthread x ->
  t_curspl t' = IPL_NONE \/ t_curspl t' = IPL_HIGH ->
  t_iplhigh_count t' = t_curspl t' + nheld c lks' + inside (at_pc x') ->
  Z.testbit (status x') 0 = (t_iplhigh_count t' =? 0) ->
  (forall c', c' <> c -> nheld c' lks' = nheld c' (locks s)) ->
  (forall l, l <> l0 -> lks' !! l = locks s !! l /\ (taking (at_pc x') l <-> taking (at_pc x) l)) ->
  (is_Some (locks s !! l0) -> is_Some (lks' !! l0)) ->
  (taking (at_pc x') l0 -> is_Some (lks' !! l0)) ->
  pc_ok lks' c (at_pc x') ->
  (forall c' y, c' <> c -> cpus s !! c' = Some y -> pc_ok lks' c' (at_pc (f y))) ->
  (forall lk, lks' !! l0 = Some lk -> lock_ok s' l0 lk) ->
  inv rq s'.
Proof.
  intros Hi Hx Hq Hcur Hspl Hcount Hirq Hheld Hl Hsome Htk Hpc Hpcs Hl0.
  assert (Hlook : forall c' y, cpus s' !! c' = Some y ->
    c' = c /\ y = x' \/ c' <> c /\ exists z, cpus s !! c' = Some z /\ y = f z).
  { intros c' y. subst s'. cbn. destruct (decide (c' = c)) as [->|Hc].
    - rewrite lookup_insert_eq. intros [= <-]. by left.
    - rewrite lookup_insert_ne, lookup_fmap by done. intros E. right. split; [done|].
      apply fmap_Some in E as (z & ? & ?). by exists z. }
  assert (Hne : forall c' z, c' <> c -> cpus s !! c' = Some z -> c_curthread z <> c_curthread x).
  { intros c' z Hc Hz E. by apply Hc, (inv_current _ _ Hi c' c z x). }
  split.
  - intros c' y [[-> ->]|(Hc & z & Hz & ->)]%Hlook.
    + exists t'. subst s'. cbn. rewrite Hcur, lookup_insert_eq. done.
    + destruct (inv_level _ _ Hi c' z Hz) as (t & Ht & Hs & Hn & Hb). exists t. subst s'. cbn.
      rewrite (quiet_thread _ Hq), (quiet_status _ Hq), (quiet_inside _ Hq), (Hheld _ Hc).
      rewrite lookup_insert_ne by (apply not_eq_sym, (Hne _ _ Hc Hz)). done.
  - intros c' y [[-> ->]|(Hc & z & Hz & ->)]%Hlook; [done|]. by apply Hpcs.
  - intros l lk Hlk. destruct (decide (l = l0)) as [->|Hll]; [by apply Hl0|].
    destruct (Hl l Hll) as [El Et]. assert (Ho : forall c', owns s' c' l <-> owns s c' l).
    { intros c'. by apply (owns_frame s c x x' f l0). }
    unfold s' in Hlk. cbn in Hlk. rewrite El in Hlk.
    destruct (inv_lock _ _ Hi l lk Hlk) as [[E H]|(E & c1 & H)]; [left|right]; (split; [done|]).
    + intros c'. rewrite Ho. apply H.
    + exists c1. intros c'. rewrite Ho. apply H.
  - intros c' y l [[-> ->]|(Hc & z & Hz & ->)]%Hlook Ht; destruct (decide (l = l0)) as [->|Hll].
    + by apply Htk.
    + destruct (Hl l Hll) as [El Et]. subst s'. cbn. rewrite El. by apply (inv_taken _ _ Hi c x), Et.
    + apply Hsome, (inv_taken _ _ Hi c' z); [done|]. by apply (quiet_taking _ Hq).
    + destruct (Hl l Hll) as [El Et]. subst s'. cbn. rewrite El.
      apply (inv_taken _ _ Hi c' z); [done|]. by apply (quiet_taking _ Hq).
  - intros c1 c2 y1 y2 [[-> ->]|(Hc1 & z1 & Hz1 & ->)]%Hlook [[-> ->]|(Hc2 & z2 & Hz2 & ->)]%Hlook;
      rewrite ?(quiet_thread _ Hq), ?Hcur; intros E; [done| | |].
    + by destruct (Hne c2 z2).
    + by destruct (Hne c1 z1).
    + by apply (inv_current _ _ Hi c1 c2 z1 z2).
  - intros t Ht. destruct (inv_suspended _ _ Hi t Ht) as [Et Hcs]. subst s'. cbn. split.
    + rewrite lookup_insert_ne; [done|]. intros E. by apply (Hcs c x).
    + intros c' y [[-> ->]|(Hc & z & Hz & ->)]%Hlook; [rewrite Hcur; by apply (Hcs c)|].
      rewrite (quiet_thread _ Hq). by apply (Hcs c').
Qed.
End frame.

Lemma inv_local rq s c x x' t' : inv rq s -> cpus s !! c = Some x ->
  c_curthread x' = c_curthread x ->
  t_curspl t' = IPL_NONE \/ t_curspl t' = IPL_HIGH ->
  t_iplhigh_count t' = t_curspl t' + nheld c (locks s) + inside (at_pc x') ->
  Z.testbit (status x') 0 = (t_iplhigh_count t' =? 0) ->
  (forall l, taking (at_pc x') l <-> taking (at_pc x) l) ->
  pc_ok (locks s) c (at_pc x') ->
  inv rq (Kst (<[c_curthread x := t']> (threads s)) (<[c := x']> (cpus s)) (locks s) (suspended s)).
Proof.
  intros Hi Hx Hcur Hspl Hcount Hirq Ht Hpc. rewrite <- (map_fmap_id (cpus s)).
  apply (inv_frame rq s c x x' t' id 0 (locks s)); try done.
  - intros Htk. apply (inv_taken _ _ Hi c x); [done|]. by apply Ht.
  - intros c' y _ Hy. by apply (inv_pc _ _ Hi).
  - intros lk Hlk.
    assert (Ho : forall c', owns (Kst (<[c_curthread x := t']> (threads s)) (<[c := x']> (id <$> cpus s))
      (locks s) (suspended s)) c' 0 <-> owns s c' 0).
    { intros c'. by apply (owns_frame s c x x' id 1); [apply quiet_id| | | |]. }
    destruct (inv_lock _ _ Hi 0 lk Hlk) as [[E H]|(E & c1 & H)]; [left|right]; (split; [done|]).
    + intros c'. rewrite Ho. apply H.
    + exists c1. intros c'. rewrite Ho. apply H.
Qed.
(** The same for a step that keeps the thread. *)
Lemma inv_goto rq s c x p : inv rq s -> cpus s !! c = Some x ->
  inside p = inside (at_pc x) -> (forall l, taking p l <-> taking (at_pc x) l) -> pc_ok (locks s) c p ->
  inv rq (Kst (threads s) (<[c := Cpu (c_curthread x) (status x) p]> (cpus s)) (locks s) (suspended s)).
Proof.
  intros Hi Hx Hin Ht Hpc. destruct (inv_level _ _ Hi c x Hx) as (t & Et & Hspl & Hcount & Hirq).
  rewrite <- (insert_id (threads s) (c_curthread x) t Et) at 1.
  apply inv_local; try done. cbn. by rewrite Hin.
Qed.

Definition irqoff (st : Z) : Z := Z.land st (Z.lnot CST_IEc).
Definition irqon (st : Z) : Z := Z.lor st CST_IEc.
Lemma irqoff_bit st : Z.testbit (irqoff st) 0 = false.
Proof. unfold irqoff. rewrite Z.land_spec, Z.lnot_spec by lia. apply andb_false_r. Qed.
Lemma irqon_bit st : Z.testbit (irqon st) 0 = true.
Proof. unfold irqon. rewrite Z.lor_spec. apply orb_true_r. Qed.

Lemma splraise_run s c x t : cpus s !! c = Some x -> threads s !! c_curthread x = Some t ->
  splraise c IPL_NONE IPL_HIGH s
  = Done (tt, Kst (<[c_curthread x := Thread (t_curspl t) (t_iplhigh_count t + 1)]> (threads s))
      (<[c := Cpu (c_curthread x) (if t_iplhigh_count t =? 0 then irqoff (status x) else status x)
                  (at_pc x)]> (cpus s)) (locks s) (suspended s)).
Proof.
  intros Hx Ht. unfold splraise, get_cpu, get_thread, put_thread, cpu_irqoff, put_cpu. mrun.
  rewrite Hx. cbn [Z.eqb IPL_NONE IPL_HIGH Pos.eqb]. rewrite Ht.
  destruct (t_iplhigh_count t =? 0); mrun.
  - unfold get_cpu. mrun. rewrite Hx. done.
  - destruct x. cbn in *. by rewrite (insert_id (cpus s)).
Qed.
Lemma spllower_run s c x t : cpus s !! c = Some x -> threads s !! c_curthread x = Some t ->
  spllower c IPL_HIGH IPL_NONE s
  = Done (tt, Kst (<[c_curthread x := Thread (t_curspl t) (t_iplhigh_count t - 1)]> (threads s))
      (<[c := Cpu (c_curthread x) (if t_iplhigh_count t - 1 =? 0 then irqon (status x) else status x)
                  (at_pc x)]> (cpus s)) (locks s) (suspended s)).
Proof.
  intros Hx Ht. unfold spllower, get_cpu, get_thread, put_thread, cpu_irqon, put_cpu. mrun.
  rewrite Hx. cbn [Z.eqb IPL_NONE IPL_HIGH Pos.eqb]. rewrite Ht.
  destruct (t_iplhigh_count t - 1 =? 0); mrun.
  - unfold get_cpu. mrun. cbn [cpus]. rewrite Hx. done.
  - destruct x. cbn in *. by rewrite (insert_id (cpus s)).
Qed.
Lemma goto_run s c x p : cpus s !! c = Some x ->
  goto c p s = Done (tt, Kst (threads s) (<[c := Cpu (c_curthread x) (status x) p]> (cpus s))
                             (locks s) (suspended s)).
Proof. intros Hx. unfold goto, get_cpu, put_cpu. mrun. by rewrite Hx. Qed.

Lemma set_curspl_run s tid t spl : threads s !! tid = Some t ->
  set_curspl tid spl s
  = Done (tt, Kst (<[tid := Thread spl (t_iplhigh_count t)]> (threads s)) (cpus s) (locks s) (suspended s)).
Proof. intros Ht. unfold set_curspl, get_thread, put_thread. mrun. by rewrite Ht. Qed.
Lemma raise_bit st n : Z.testbit st 0 = (n =? 0) -> 0 <= n ->
  Z.testbit (if n =? 0 then irqoff st else st) 0 = (n + 1 =? 0).
Proof.
  intros E Hn. rewrite (proj2 (Z.eqb_neq (n + 1) 0)) by lia.
  destruct (Z.eqb_spec n 0); [apply irqoff_bit|done].
Qed.
Lemma lower_bit st n : Z.testbit st 0 = (n =? 0) -> 0 < n ->
  Z.testbit (if n - 1 =? 0 then irqon st else st) 0 = (n - 1 =? 0).
Proof.
  intros E Hn. destruct (Z.eqb_spec (n - 1) 0); [apply irqon_bit|].
  rewrite E. apply Z.eqb_neq. lia.
Qed.
Lemma nheld_nonneg c m : 0 <= nheld c m.
Proof. unfold nheld. lia. Qed.
Lemma inside_bounds p : 0 <= inside p <= 1.
Proof. unfold inside. case_decide; lia. Qed.

Lemma splx_up s c x n : cpus s !! c = Some x -> threads s !! c_curthread x = Some (Thread IPL_NONE n) ->
  splx c IPL_HIGH s
  = Done (IPL_NONE, Kst (<[c_curthread x := Thread IPL_HIGH (n + 1)]> (threads s))
      (<[c := Cpu (c_curthread x) (if n =? 0 then irqoff (status x) else status x) (at_pc x)]> (cpus s))
      (locks s) (suspended s)).
Proof.
  intros Hx Et. unfold splx, get_cpu, get_thread. mrun. rewrite Hx, Et. cbn [t_curspl].
  change (IPL_NONE <? IPL_HIGH) with true. cbv beta iota. rewrite (splraise_run s c x _ Hx Et).
  erewrite set_curspl_run by apply lookup_insert_eq. cbn. by rewrite insert_insert_eq.
Qed.
Lemma splx_down s c x n : cpus s !! c = Some x -> threads s !! c_curthread x = Some (Thread IPL_HIGH n) ->
  splx c IPL_NONE s
  = Done (IPL_HIGH, Kst (<[c_curthread x := Thread IPL_NONE (n - 1)]> (threads s))
      (<[c := Cpu (c_curthread x) (if n - 1 =? 0 then irqon (status x) else status x) (at_pc x)]> (cpus s))
      (locks s) (suspended s)).
Proof.
  intros Hx Et. unfold splx, get_cpu, get_thread. mrun. rewrite Hx, Et. cbn [t_curspl].
  change (IPL_HIGH <? IPL_NONE) with false. change (IPL_HIGH >? IPL_NONE) with true. cbv beta iota.
  erewrite set_curspl_run by exact Et.
  erewrite spllower_run; [|exact Hx|apply lookup_insert_eq]. cbn. by rewrite insert_insert_eq.
Qed.
Lemma splx_same s c x t : cpus s !! c = Some x -> threads s !! c_curthread x = Some t ->
  splx c (t_curspl t) s = Done (t_curspl t, s).
Proof.
  intros Hx Et. unfold splx, get_cpu, get_thread. mrun. rewrite Hx, Et.
  by rewrite Z.ltb_irrefl, Z.gtb_ltb, Z.ltb_irrefl.
Qed.
Lemma splx_run rq s c x t spl : inv rq s -> cpus s !! c = Some x -> at_pc x = Out ->
  spl = IPL_NONE \/ spl = IPL_HIGH -> threads s !! c_curthread x = Some t ->
  exists s', splx c spl s = Done (t_curspl t, s') /\ inv rq s'.
Proof.
  intros Hi Hx Hout Hspl Et.
  destruct (inv_level _ _ Hi c x Hx) as (t0 & Et0 & Hcs & Hn & Hb).
  rewrite Et in Et0. injection Et0 as <-.
  pose proof (nheld_nonneg c (locks s)) as Hnh. pose proof (inside_bounds (at_pc x)) as Hin.
  destruct (decide (spl = t_curspl t)) as [->|Hne]; [exists s; by rewrite (splx_same s c x t Hx Et)|].
  destruct t as [cs n]. cbn [t_curspl t_iplhigh_count] in *.
  destruct Hcs as [-> | ->], Hspl as [-> | ->]; try done.
  - rewrite (splx_up s c x n Hx Et). eexists. split; [reflexivity|].
    apply inv_local; cbn; [done|done|done|by right|unfold IPL_NONE, IPL_HIGH in *; lia| |done|by apply (inv_pc _ _ Hi c)].
    apply raise_bit; [done|]. unfold IPL_NONE in *. lia.
  - rewrite (splx_down s c x n Hx Et). eexists. split; [reflexivity|].
    apply inv_local; cbn; [done|done|done|by left|unfold IPL_NONE, IPL_HIGH in *; lia| |done|by apply (inv_pc _ _ Hi c)].
    apply lower_bit; [done|]. unfold IPL_HIGH in *. lia.
Qed.

Lemma get_lock_inv l s lk s' : get_lock l s = Done (lk, s') -> s' = s /\ locks s !! l = Some lk.
Proof. unfold get_lock. mrun. destruct (locks s !! l); [|done]. by intros [= <- <-]. Qed.
Lemma acquire_inv rq s c x l s' : inv rq s -> cpus s !! c = Some x -> at_pc x = Out ->
  spinlock_acquire c l s = Done (tt, s') -> inv rq s'.
Proof.
  intros Hi Hx Hout H. destruct (inv_level _ _ Hi c x Hx) as (t & Et & Hcs & Hn & Hb).
  pose proof (nheld_nonneg c (locks s)) as Hnh. rewrite Hout in Hn.
  change (inside Out) with 0 in Hn.
  unfold spinlock_acquire in H. apply bind_inv in H as ([] & s1 & E1 & H).
  rewrite (splraise_run s c x t Hx Et) in E1. injection E1 as <-.
  apply bind_inv in H as (lk & s2 & E2 & H). apply get_lock_inv in E2 as [-> E2]. cbn in E2.
  destruct (bool_decide_reflect (lk_holder lk = Some c)) as [|Hne]; [done|].
  erewrite goto_run in H by apply lookup_insert_eq. injection H as <-. cbn. rewrite insert_insert_eq.
  apply inv_local; cbn; try done.
  - change (inside (Spin l)) with 1. lia.
  - apply raise_bit; [done|]. destruct Hcs as [E|E]; rewrite E in Hn; unfold IPL_NONE, IPL_HIGH in Hn; lia.
  - intros l'. rewrite Hout. unfold taking. naive_solver.
  - intros lk' E. congruence.
Qed.

Lemma owns_at s c x x' f l0 lks' lk' th sus c' : quiet f -> cpus s !! c = Some x ->
  lks' !! l0 = Some lk' ->
  owns (Kst th (<[c := x']> (f <$> cpus s)) lks' sus) c' l0
  <-> lk_holder lk' = Some c' \/ (c' = c /\ taking (at_pc x') l0)
      \/ (c' <> c /\ exists y, cpus s !! c' = Some y /\ taking (at_pc y) l0).
Proof.
  intros Hq Hx El. unfold owns. cbn. rewrite El. destruct (decide (c' = c)) as [->|Hc].
  - rewrite lookup_insert_eq. naive_solver.
  - rewrite lookup_insert_ne, lookup_fmap by done. destruct (cpus s !! c') as [y|]; cbn; [|naive_solver].
    pose proof (quiet_taking f Hq y l0). naive_solver.
Qed.

Section lock_frame.
Context (rq : nat -> Z) (s : kst) (c : nat) (x : cpu) (f : cpu -> cpu) (l : Z) (lk lk' : spinlock) (p : pc).
Let x' := Cpu (c_curthread x) (status x) p.
Let s' := Kst (threads s) (<[c := x']> (f <$> cpus s)) (<[l := lk']> (locks s)) (suspended s).

(** A step of the processor [c] that changes the lock [l]. *)
Lemma inv_lock_frame :
  inv rq s -> cpus s !! c = Some x -> quiet f -> locks s !! l = Some lk ->
  (if decide (lk_holder lk = Some c) then 1 else 0) + inside (at_pc x)
    = (if decide (lk_holder lk' = Some c) then 1 else 0) + inside p ->
  (forall c', c' <> c -> lk_holder lk = Some c' <-> lk_holder lk' = Some c') ->
  (forall l', l' <> l -> taking p l' <-> taking (at_pc x) l') ->
  pc_ok (<[l := lk']> (locks s)) c p ->
  (f = id /\ lk_lock lk' = lk_lock lk \/ f = break_link l) ->
  lock_ok s' l lk' ->
  inv rq s'.
Proof.
  intros Hi Hx Hq Hl Hcount Hothers Ht Hp Hf Hok.
  destruct (inv_level _ _ Hi c x Hx) as (t & Et & Hspl & Hn & Hirq).
  assert (E : s' = Kst (<[c_curthread x := t]> (threads s)) (<[c := x']> (f <$> cpus s))
                (<[l := lk']> (locks s)) (suspended s)) by (unfold s'; by rewrite (insert_id (threads s))).
  rewrite E in Hok |- *.
  apply (inv_frame rq s c x x' t f l (<[l := lk']> (locks s))); try done.
  - rewrite (held_insert c (locks s) l lk lk' Hl). cbn. lia.
  - intros c' Hc. rewrite (held_insert c' (locks s) l lk lk' Hl).
    specialize (Hothers c' Hc). repeat case_decide; naive_solver lia.
  - intros l' Hll. rewrite lookup_insert_ne by done. split; [done|]. by apply Ht.
  - rewrite lookup_insert_eq. by eexists.
  - rewrite lookup_insert_eq. by eexists.
  - intros c' y Hc Hy. pose proof (inv_pc _ _ Hi c' y Hy) as Hpy.
    assert (Hne : forall l' m, (forall lk0, locks s !! l' = Some lk0 -> lk_holder lk0 <> Some c') ->
      (<[l := lk']> (locks s)) !! l' = Some m -> lk_holder m <> Some c').
    { intros l' m H Em. destruct (decide (l' = l)) as [->|Hll].
      - rewrite lookup_insert_eq in Em. injection Em as <-. rewrite <- Hothers by done. by apply H.
      - rewrite lookup_insert_ne in Em by done. by apply H. }
    assert (Hlink : forall l' v, (l' <> l \/ lk_lock lk' = lk_lock lk) ->
      (exists lk0, locks s !! l' = Some lk0 /\ lk_lock lk0 = v) ->
      exists lk0, (<[l := lk']> (locks s)) !! l' = Some lk0 /\ lk_lock lk0 = v).
    { intros l' v Hor (lk0 & E0 & Ev). destruct (decide (l' = l)) as [->|Hll].
      - rewrite lookup_insert_eq. eexists. split; [done|]. destruct Hor; congruence.
      - rewrite lookup_insert_ne by done. by exists lk0. }
    destruct Hf as [[-> Hw] | ->].
    + unfold id. destruct (at_pc y) as [| | |l' v b| | |]; cbn in *; try done; try (intros m; by apply Hne).
      destruct Hpy as [H1 H2]. split; [intros m; by apply Hne|]. intros Hb. apply Hlink; [by right|by apply H2].
    + unfold break_link. destruct (at_pc y) as [| | |l' v b| | |] eqn:Ey; try rewrite Ey; cbn in *; try done;
        try (intros m; by apply Hne).
      destruct Hpy as [H1 H2]. destruct (decide (l = l')) as [<-|Hll]; [|rewrite Ey]; cbn.
      * split; [intros m; by apply Hne|done].
      * split; [intros m; by apply Hne|]. intros Hb. apply Hlink; [left; congruence|by apply H2].
  - rewrite lookup_insert_eq. by intros lk0 [= <-].
Qed.
End lock_frame.

(** The owner of a lock that a processor holds or is taking. *)
Lemma owner_unique rq s l lk c c' : inv rq s -> locks s !! l = Some lk -> owns s c l -> owns s c' l ->
  lk_lock lk = 1 /\ c' = c.
Proof.
  intros Hi Hl Hc Hc'. destruct (inv_lock _ _ Hi l lk Hl) as [[_ H]|(E & c1 & H)].
  - by destruct (H c).
  - split; [done|]. apply H in Hc as ->. by apply H in Hc' as ->.
Qed.
Lemma taking_owns s c x l : cpus s !! c = Some x -> taking (at_pc x) l -> owns s c l.
Proof. intros Hx Ht. right. by exists x. Qed.
Lemma holder_owns s c l lk : locks s !! l = Some lk -> lk_holder lk = Some c -> owns s c l.
Proof. intros Hl Hh. left. by exists lk. Qed.
Lemma lock_word rq s l lk : inv rq s -> locks s !! l = Some lk -> lk_lock lk = 0 \/ lk_lock lk = 1.
Proof. intros Hi Hl. destruct (inv_lock _ _ Hi l lk Hl) as [[? _]|[? _]]; auto. Qed.

Lemma release_run rq s c x l lk : inv rq s -> cpus s !! c = Some x -> at_pc x = Out ->
  locks s !! l = Some lk -> lk_holder lk = Some c ->
  exists s', spinlock_release c l s = Done (tt, s') /\ inv rq s'.
Proof.
  intros Hi Hx Hout Hl Hh. unfold spinlock_release, get_lock, put_lock. mrun. rewrite Hl.
  rewrite bool_decide_true by done. erewrite goto_run by exact Hx. cbn.
  eexists. split; [reflexivity|]. rewrite <- (map_fmap_id (cpus s)).
  pose proof (holder_owns s c l lk Hl Hh) as Hown.
  apply (inv_lock_frame rq s c x id l lk); try done; cbn.
  - rewrite decide_True, Hout by done. done.
  - intros c' Hc. split; [intros; congruence|done].
  - intros l' Hll. rewrite Hout. unfold taking. naive_solver.
  - intros m. rewrite lookup_insert_eq. by intros [= <-].
  - by left.
  - right. destruct (owner_unique rq s l lk c c Hi Hl Hown Hown) as [E _]. split; [done|].
    exists c. intros c'. rewrite (owns_at s c x) by (try done; apply lookup_insert_eq). cbn. split.
    + intros [?|[[? _]|(Hc & y & Hy & Hty)]]; [done|done|].
      by destruct (owner_unique rq s l lk c c' Hi Hl Hown (taking_owns s c' y l Hy Hty)).
    + intros ->. right; left. split; [done|]. by right.
Qed.

Lemma linked_inv rq s c x l v s' : inv rq s -> cpus s !! c = Some x -> at_pc x = Linked l v true ->
  (spinlock_data_set l 1 ≫= fun _ => goto c (if negb (v =? 0) then Spin l else Taken l)) s = Done (tt, s') ->
  inv rq s'.
Proof.
  intros Hi Hx Hp H. pose proof (inv_pc _ _ Hi c x Hx) as Hpc. rewrite Hp in Hpc. cbn in Hpc.
  destruct Hpc as [Hnh Hlink]. destruct (Hlink eq_refl) as (lk & Hl & Ev).
  revert H. unfold spinlock_data_set, get_lock, put_lock. mrun. rewrite Hl.
  erewrite goto_run by (cbn; by rewrite lookup_fmap, Hx). cbn. intros [= <-].
  rewrite (quiet_thread _ (quiet_break_link l)), (quiet_status _ (quiet_break_link l)).
  assert (Hw := lock_word rq s l lk Hi Hl).
  apply (inv_lock_frame rq s c x (break_link l) l lk); cbn; try done; try apply quiet_break_link.
  - rewrite Hp. by destruct (v =? 0).
  - intros l' Hll. rewrite Hp. unfold taking. destruct (v =? 0); naive_solver.
  - destruct (v =? 0); cbn; intros m; rewrite lookup_insert_eq; intros [= <-]; exact (Hnh lk Hl).
  - by right.
  - right. split; [done|]. destruct (Z.eqb_spec v 0) as [E0|E0]; cbn.
    + exists c. intros c'. rewrite (owns_at s c x) by (try apply quiet_break_link; try done; apply lookup_insert_eq).
      cbn. destruct (inv_lock _ _ Hi l lk Hl) as [[_ Hno]|[E1 _]]; [|congruence]. split.
      * intros [Hh|[[? _]|(Hc & y & Hy & Hty)]]; [|done|].
        -- by destruct (Hno c' (holder_owns s c' l lk Hl Hh)).
        -- by destruct (Hno c' (taking_owns s c' y l Hy Hty)).
      * intros ->. right; left. split; [done|]. by left.
    + destruct (inv_lock _ _ Hi l lk Hl) as [[E1 _]|(E1 & c1 & Ho)]; [congruence|]. exists c1. intros c'.
      rewrite <- Ho, (owns_at s c x) by (try apply quiet_break_link; try done; apply lookup_insert_eq).
      cbn. split.
      * intros [Hh|[[_ [?|?]]|(_ & y & Hy & Hty)]]; [by apply (holder_owns s c' l lk)|done|done|].
        by apply (taking_owns s c' y).
      * intros [(lk0 & E2 & Hh)|(y & Hy & Hty)]; [left; congruence|]. right; right. split; [|by exists y].
        intros ->. rewrite Hx in Hy. injection Hy as <-. rewrite Hp in Hty. by destruct Hty.
Qed.

Lemma taken_inv rq s c x l s' : inv rq s -> cpus s !! c = Some x -> at_pc x = Taken l ->
  (lk ← get_lock l; put_lock l (Spinlock (lk_lock lk) (Some c)) ≫= fun _ => goto c Out) s = Done (tt, s') ->
  inv rq s'.
Proof.
  intros Hi Hx Hp H. pose proof (inv_pc _ _ Hi c x Hx) as Hnh. rewrite Hp in Hnh. cbn in Hnh.
  apply bind_inv in H as (lk & s1 & E1 & H). apply get_lock_inv in E1 as [-> Hl].
  revert H. unfold put_lock. mrun. erewrite goto_run by exact Hx. cbn. intros [= <-].
  assert (Hown : owns s c l) by (apply (taking_owns s c x l Hx); rewrite Hp; by left).
  rewrite <- (map_fmap_id (cpus s)).
  apply (inv_lock_frame rq s c x id l lk); cbn; try done.
  - rewrite decide_False, decide_True, Hp by (try apply Hnh; done). done.
  - intros c' Hc. split; [|intros [= ?]; congruence]. intros Hh.
    by destruct (owner_unique rq s l lk c c' Hi Hl Hown (holder_owns s c' l lk Hl Hh)).
  - intros l' Hll. rewrite Hp. unfold taking. naive_solver.
  - by left.
  - right. destruct (owner_unique rq s l lk c c Hi Hl Hown Hown) as [E _]. split; [done|].
    exists c. intros c'. rewrite (owns_at s c x) by (try done; apply lookup_insert_eq). cbn. split.
    + intros [[= ->]|[[? _]|(Hc & y & Hy & Hty)]]; [done|done|].
      by destruct (owner_unique rq s l lk c c' Hi Hl Hown (taking_owns s c' y l Hy Hty)).
    + intros ->. by left.
Qed.
Lemma freeing_inv rq s c x l s' : inv rq s -> cpus s !! c = Some x -> at_pc x = Freeing l ->
  (spinlock_data_set l 0 ≫= fun _ => goto c Lowering) s = Done (tt, s') -> inv rq s'.
Proof.
  intros Hi Hx Hp H. pose proof (inv_pc _ _ Hi c x Hx) as Hnh. rewrite Hp in Hnh. cbn in Hnh.
  assert (Hown : owns s c l) by (apply (taking_owns s c x l Hx); rewrite Hp; by right).
  revert H. unfold spinlock_data_set, get_lock, put_lock. mrun.
  destruct (locks s !! l) as [lk|] eqn:Hl; [|done].
  erewrite goto_run by (cbn; by rewrite lookup_fmap, Hx). cbn. intros [= <-].
  rewrite (quiet_thread _ (quiet_break_link l)), (quiet_status _ (quiet_break_link l)).
  apply (inv_lock_frame rq s c x (break_link l) l lk); cbn; try done; try apply quiet_break_link.
  - by rewrite Hp.
  - intros l' Hll. rewrite Hp. unfold taking. naive_solver.
  - by right.
  - left. split; [done|]. intros c'.
    rewrite (owns_at s c x) by (try apply quiet_break_link; try done; apply lookup_insert_eq). cbn.
    intros [Hh|[[-> [?|?]]|(Hc & y & Hy & Hty)]]; [|done|done|].
    + destruct (owner_unique rq s l lk c c' Hi Hl Hown (holder_owns s c' l lk Hl Hh)) as [_ ->].
      by apply (Hnh lk).
    + by destruct (owner_unique rq s l lk c c' Hi Hl Hown (taking_owns s c' y l Hy Hty)).
Qed.

Lemma lowering_inv rq s c x s' : inv rq s -> cpus s !! c = Some x -> at_pc x = Lowering ->
  (spllower c IPL_HIGH IPL_NONE ≫= fun _ => goto c Out) s = Done (tt, s') -> inv rq s'.
Proof.
  intros Hi Hx Hp H. destruct (inv_level _ _ Hi c x Hx) as (t & Et & Hcs & Hn & Hb).
  pose proof (nheld_nonneg c (locks s)) as Hnh. rewrite Hp in Hn. change (inside Lowering) with 1 in Hn.
  apply bind_inv in H as ([] & s1 & E1 & H). rewrite (spllower_run s c x t Hx Et) in E1. injection E1 as <-.
  erewrite goto_run in H by apply lookup_insert_eq. injection H as <-. cbn. rewrite insert_insert_eq.
  apply inv_local; cbn; try done.
  - change (inside Out) with 0. lia.
  - apply lower_bit; [done|]. destruct Hcs as [E|E]; rewrite E in Hn; unfold IPL_NONE, IPL_HIGH in Hn; lia.
  - intros l'. rewrite Hp. unfold taking. naive_solver.
Qed.
Lemma inside_inv rq s c sc s' : inv rq s -> spinlock_step c sc s = Done (tt, s') -> inv rq s'.
Proof.
  intros Hi H. unfold spinlock_step in H. apply bind_inv in H as (x & s1 & E1 & H).
  revert E1. unfold get_cpu. mrun. destruct (cpus s !! c) as [y|] eqn:Hx; [|done]. intros [= -> <-].
  pose proof (inv_pc _ _ Hi c x Hx) as Hpc.
  destruct (at_pc x) as [|l|l|l v link|l|l|] eqn:Hp; cbn in Hpc.
  - by injection H as <-.
  - apply bind_inv in H as (lk & s1 & E1 & H). apply get_lock_inv in E1 as [-> Hl].
    destruct (negb _); [by injection H as <-|]. rewrite (goto_run s c x _ Hx) in H. injection H as <-.
    apply inv_goto; rewrite ?Hp; try done. intros l'. unfold taking. naive_solver.
  - apply bind_inv in H as (lk & s1 & E1 & H). apply get_lock_inv in E1 as [-> Hl].
    rewrite (goto_run s c x _ Hx) in H. injection H as <-.
    apply inv_goto; rewrite ?Hp; try done; [intros l'; unfold taking; naive_solver|].
    split; [done|]. intros _. by exists lk.
  - destruct (sc && link) eqn:E.
    + apply andb_prop in E as [-> ->]. by apply (linked_inv rq s c x l v).
    + rewrite (goto_run s c x _ Hx) in H. injection H as <-.
      apply inv_goto; rewrite ?Hp; try done; [intros l'; unfold taking; naive_solver|]. exact (proj1 Hpc).
  - by apply (taken_inv rq s c x l).
  - by apply (freeing_inv rq s c x l).
  - by apply (lowering_inv rq s c x).
Qed.

Lemma held_only c (m : gmap Z spinlock) l : is_Some (m !! l) ->
  (forall l' lk, m !! l' = Some lk -> lk_holder lk = Some c <-> l' = l) -> nheld c m = 1.
Proof.
  intros [lk Hl] H. rewrite (held_split c m l lk Hl), decide_True by (by apply (H l)).
  unfold nheld, held.
  assert (E : filter (fun kv : Z * spinlock => lk_holder kv.2 = Some c) (delete l m) = ∅); [|by rewrite E].
  apply map_empty. intros l'. apply map_lookup_filter_None. right. intros lk' Hl' Hh. cbn in Hh.
  destruct (decide (l' = l)) as [->|Hne]; [by rewrite lookup_delete_eq in Hl'|].
  rewrite lookup_delete_ne in Hl' by done. by apply (H l') in Hh.
Qed.

(** After [switch_to] the processor runs a thread with the same level and
    count as the one it left. *)
Lemma switch_inv rq s c x t next s' : inv rq s -> cpus s !! c = Some x -> at_pc x = Out ->
  threads s !! c_curthread x = Some t -> t_curspl t = IPL_HIGH ->
  (forall l lk, locks s !! l = Some lk -> lk_holder lk = Some c <-> l = rq c) ->
  is_Some (locks s !! rq c) -> next ∈ suspended s ->
  switch_to c next s = Done (tt, s') -> inv rq s'.
Proof.
  intros Hi Hx Hout Et Hspl Hrq Hsome Hnext H.
  destruct (inv_level _ _ Hi c x Hx) as (t0 & Et0 & _ & Hn & Hb). rewrite Et in Et0. injection Et0 as <-.
  rewrite Hout, (held_only c (locks s) (rq c) Hsome Hrq), Hspl in Hn.
  assert (t = new_thread) as -> by (destruct t; cbn in *; subst; done). clear Hspl.
  destruct (inv_suspended _ _ Hi next Hnext) as [En Hnc].
  revert H. unfold switch_to, get_cpu, put_cpu. mrun. rewrite Hx. intros [= <-]. cbn.
  assert (Hlook : forall c' y, <[c := Cpu next (status x) (at_pc x)]> (cpus s) !! c' = Some y ->
    exists z, cpus s !! c' = Some z /\ at_pc y = at_pc z /\ status y = status z
      /\ (c' = c /\ c_curthread y = next \/ c' <> c /\ c_curthread y = c_curthread z)).
  { intros c' y. destruct (decide (c' = c)) as [->|Hc].
    - rewrite lookup_insert_eq. intros [= <-]. exists x. by split_and!; [|..|left].
    - rewrite lookup_insert_ne by done. intros E. exists y. by split_and!; [|..|right]. }
  split; cbn.
  - intros c' y (z & Hz & Ep & Es & Hor)%Hlook. destruct (inv_level _ _ Hi c' z Hz) as (t' & Et' & Hl).
    unfold level_ok. cbn. rewrite Ep, Es. destruct Hor as [[-> ->]|[Hc ->]]; [|by exists t'].
    rewrite Hx in Hz. injection Hz as <-. rewrite Et in Et'. injection Et' as <-. by exists new_thread.
  - intros c' y (z & Hz & Ep & Es & _)%Hlook. rewrite Ep. by apply (inv_pc _ _ Hi).
  - intros l lk Hl. assert (Ho : forall c', owns (Kst (threads s) (<[c := Cpu next (status x) (at_pc x)]> (cpus s))
      (locks s) ({[c_curthread x]} ∪ suspended s ∖ {[next]})) c' l <-> owns s c' l).
    { intros c'. unfold owns. cbn. f_equiv. destruct (decide (c' = c)) as [->|Hc].
      - rewrite lookup_insert_eq, Hx. naive_solver.
      - by rewrite lookup_insert_ne. }
    destruct (inv_lock _ _ Hi l lk Hl) as [[E H]|(E & c1 & H)]; [left|right]; (split; [done|]).
    + intros c'. rewrite Ho. apply H.
    + exists c1. intros c'. rewrite Ho. apply H.
  - intros c' y l (z & Hz & Ep & Es & _)%Hlook. rewrite Ep. by apply (inv_taken _ _ Hi c' z).
  - intros c1 c2 y1 y2 (z1 & Hz1 & _ & _ & H1)%Hlook (z2 & Hz2 & _ & _ & H2)%Hlook E.
    destruct H1 as [[-> E1]|[Hc1 E1]], H2 as [[-> E2]|[Hc2 E2]]; [done| | |].
    + destruct (Hnc c2 z2 Hz2). congruence.
    + destruct (Hnc c1 z1 Hz1). congruence.
    + apply (inv_current _ _ Hi c1 c2 z1 z2); congruence.
  - intros t' Ht'. apply elem_of_union in Ht' as [->%elem_of_singleton|[Ht' Hne]%elem_of_difference].
    + split; [done|]. intros c' y (z & Hz & _ & _ & [[-> E1]|[Hc E1]])%Hlook E.
      * destruct (Hnc c x Hx). congruence.
      * apply Hc, (inv_current _ _ Hi c' c z x); congruence.
    + destruct (inv_suspended _ _ Hi t' Ht') as [Et' Hcs]. split; [done|].
      intros c' y (z & Hz & _ & _ & [[-> E1]|[Hc E1]])%Hlook E; [|by apply (Hcs c' z Hz); congruence].
      apply Hne, elem_of_singleton. congruence.
Qed.

Lemma new_inv rq s t : inv rq s -> t ∉ dom (threads s) ->
  inv rq (Kst (<[t := new_thread]> (threads s)) (cpus s) (locks s) ({[ t ]} ∪ suspended s)).
Proof.
  intros Hi Hnew%not_elem_of_dom. destruct Hi as [H1 H2 H3 H4 H5 H6].
  assert (Hcur : forall c x, cpus s !! c = Some x -> c_curthread x <> t).
  { intros c x Hx E. destruct (H1 c x Hx) as (t0 & Et & _). congruence. }
  split; cbn; try done.
  - intros c x Hx. destruct (H1 c x Hx) as (t0 & Et & Hr). exists t0. cbn.
    rewrite lookup_insert_ne by (apply not_eq_sym, (Hcur c x Hx)). done.
  - intros t' Ht'. destruct (decide (t' = t)) as [->|Hne].
    + by rewrite lookup_insert_eq.
    + apply elem_of_union in Ht' as [?%elem_of_singleton|Ht']; [done|]. rewrite lookup_insert_ne by done. by apply H6.
Qed.
Lemma spl_step_inv rq s s' : inv rq s -> step rq s s' -> inv rq s'.
Proof.
  intros Hi Hs. destruct Hs as [c x spl old Hx Hp Hspl H|c x l Hx Hp H|c x l Hx Hp H|c sc H
    |c x t next Hx Hp Ht Hspl Hrq Hsome Hn H|t Ht ->].
  - destruct (inv_level _ _ Hi c x Hx) as (t & Et & _).
    destruct (splx_run rq s c x t spl Hi Hx Hp Hspl Et) as (s1 & E & Hi'). congruence.
  - by apply (acquire_inv rq s c x l).
  - destruct (locks s !! l) as [lk|] eqn:Hl.
    + destruct (bool_decide_reflect (lk_holder lk = Some c)) as [Hh|Hh].
      * destruct (release_run rq s c x l lk Hi Hx Hp Hl Hh) as (s1 & E & Hi'). congruence.
      * revert H. unfold spinlock_release, get_lock. mrun. rewrite Hl. by rewrite bool_decide_false.
    + revert H. unfold spinlock_release, get_lock. mrun. by rewrite Hl.
  - by apply (inside_inv rq s c sc).
  - by apply (switch_inv rq s c x t next).
  - by apply new_inv.
Qed.

(** The processors when they start: each runs its own thread, as
    [thread_create] made it, with the interrupts off. *)
Definition booted (s : kst) : Prop :=
  (forall c x, cpus s !! c = Some x -> at_pc x = Out /\ Z.testbit (status x) 0 = false
    /\ threads s !! c_curthread x = Some (Thread IPL_HIGH 1))
  /\ (forall c c' x x', cpus s !! c = Some x -> cpus s !! c' = Some x' ->
       c_curthread x = c_curthread x' -> c = c')
  /\ (forall l lk, locks s !! l = Some lk -> lk = Spinlock 0 None)
  /\ suspended s = ∅.
Lemma booted_inv rq s : booted s -> inv rq s.
Proof.
  intros (Hc & Hd & Hl & Hs). split.
  - intros c x Hx. destruct (Hc c x Hx) as (Hp & Hb & Ht). exists (Thread IPL_HIGH 1).
    rewrite Hb, Hp. split_and!; [done|by right| |done].
    assert (E : held c (locks s) = ∅).
    { apply map_empty. intros l. apply map_lookup_filter_None. right. intros lk Hlk. cbn.
      by rewrite (Hl l lk Hlk). }
    unfold nheld. by rewrite E.
  - intros c x Hx. destruct (Hc c x Hx) as (-> & _). done.
  - intros l lk Hlk. left. rewrite (Hl l lk Hlk). split; [done|]. intros c [(lk0 & E & Hh)|(x & Hx & Ht)].
    + by rewrite (Hl l lk0 E) in Hh.
    + destruct (Hc c x Hx) as (Hp & _). rewrite Hp in Ht. by destruct Ht.
  - intros c x l Hx Ht. destruct (Hc c x Hx) as (Hp & _). rewrite Hp in Ht. by destruct Ht.
  - done.
  - intros t. rewrite Hs. intros H. by apply not_elem_of_empty in H.
Qed.
Lemma spl_reach_inv rq s s' : booted s -> rtc (step rq) s s' -> inv rq s'.
Proof.
  intros Hb Hr. apply (booted_inv rq) in Hb. induction Hr as [|a b d Hs _ IH]; [done|].
  by apply IH, (spl_step_inv rq a).
Qed.
Lemma owns_lock rq s c l : inv rq s -> owns s c l -> is_Some (locks s !! l).
Proof.
  intros Hi [(lk & Hl & _)|(x & Hx & Ht)]; [by exists lk|]. by apply (inv_taken _ _ Hi c x).
Qed.
Lemma nheld_zero c m : nheld c m = 0 <-> forall l lk, m !! l = Some lk -> lk_holder lk <> Some c.
Proof.
  unfold nheld. split.
  - intros E l lk Hl Hh. assert (H0 : size (held c m) = 0%nat) by lia. apply map_size_empty_inv in H0.
    assert (H : held c m !! l = Some lk) by by apply map_lookup_filter_Some. by rewrite H0 in H.
  - intros H. assert (E : held c m = ∅); [|by rewrite E]. apply map_empty. intros l.
    apply map_lookup_filter_None. right. intros lk Hl. by apply (H l).
Qed.

(** C2: From boot, however the processors interleave their accesses to the
    lock words, switch threads and change their interrupt level: no lock has
    two owners, and its word is 0 exactly when it has none. *)
Theorem spinlock_mutual_exclusion rq s0 s : booted s0 -> rtc (step rq) s0 s ->
  (forall l c c', owns s c l -> owns s c' l -> c = c')
  /\ forall l lk, locks s !! l = Some lk -> lk_lock lk = 0 <-> forall c, ~ owns s c l.
Proof.
  intros Hb Hr. pose proof (spl_reach_inv rq s0 s Hb Hr) as Hi. split.
  - intros l c c' Hc Hc'. destruct (owns_lock rq s c l Hi Hc) as [lk Hl].
    by destruct (owner_unique rq s l lk c c' Hi Hl Hc Hc').
  - intros l lk Hl. destruct (inv_lock _ _ Hi l lk Hl) as [[E Hno]|(E & c & Ho)]; [done|].
    split; [lia|]. intros H. destruct (H c). by apply Ho.
Qed.

(** C3: In every such history the interrupts of a processor are on exactly
    when the level of its thread is 0, it holds no spinlock and is not taking
    or releasing one, although the level, the locks and the context switches
    raise and lower a common count that belongs to the thread.  The calls of
    [splx], of [spinlock_release] by the holder and of [spinlock_acquire] by
    another processor never fail an assertion. *)
Theorem interrupts_match_level rq s0 s c x : booted s0 -> rtc (step rq) s0 s -> cpus s !! c = Some x ->
  exists t, threads s !! c_curthread x = Some t
    /\ (Z.testbit (status x) 0 = true <->
        t_curspl t = IPL_NONE /\ at_pc x = Out
        /\ forall l lk, locks s !! l = Some lk -> lk_holder lk <> Some c)
    /\ (at_pc x = Out ->
        (forall spl, spl = IPL_NONE \/ spl = IPL_HIGH ->
           exists s', splx c spl s = Done (t_curspl t, s'))
        /\ forall l lk, locks s !! l = Some lk ->
           (lk_holder lk = Some c -> exists s', spinlock_release c l s = Done (tt, s'))
           /\ (lk_holder lk <> Some c -> exists s', spinlock_acquire c l s = Done (tt, s'))).
Proof.
  intros Hb Hr Hx. pose proof (spl_reach_inv rq s0 s Hb Hr) as Hi.
  destruct (inv_level _ _ Hi c x Hx) as (t & Et & Hcs & Hn & Hbit).
  exists t. split; [done|]. split.
  - pose proof (nheld_nonneg c (locks s)) as Hnh. pose proof (inside_bounds (at_pc x)) as Hin.
    rewrite <- nheld_zero, Hbit, Z.eqb_eq. split.
    + intros E. assert (inside (at_pc x) = 0 /\ t_curspl t = 0 /\ nheld c (locks s) = 0) as (E1 & E2 & E3).
      { destruct Hcs as [E1|E1]; rewrite E1 in Hn; unfold IPL_NONE, IPL_HIGH in *; lia. }
      split_and!; [done| |done]. unfold inside in E1. by case_decide.
    + intros (E1 & E2 & E3). rewrite Hn, E1, E2, E3. done.
  - intros Hp. split.
    + intros spl Hspl. destruct (splx_run rq s c x t spl Hi Hx Hp Hspl Et) as (s' & E & _). by exists s'.
    + intros l lk Hl. split; intros Hh.
      * destruct (release_run rq s c x l lk Hi Hx Hp Hl Hh) as (s' & E & _). by exists s'.
      * unfold spinlock_acquire. erewrite bind_Done by (by apply splraise_run).
        unfold get_lock. mrun. cbn [locks]. rewrite Hl, bool_decide_false by done.
        erewrite goto_run by apply lookup_insert_eq. by eexists.
Qed.

(** Two processors and two locks. *)
Definition two_cpus : kst :=
  Kst {[ 10 := Thread IPL_HIGH 1; 11 := Thread IPL_HIGH 1 ]}
      {[ 0%nat := Cpu 10 0 Out; 1%nat := Cpu 11 0 Out ]}
      {[ 5 := Spinlock 0 None; 6 := Spinlock 0 None ]} ∅.
Lemma two_cpus_booted : booted two_cpus.
Proof.
  assert (Hc : forall c x, cpus two_cpus !! c = Some x -> c = 0%nat /\ x = Cpu 10 0 Out \/ c = 1%nat /\ x = Cpu 11 0 Out).
  { intros c x. cbn. intros H. apply lookup_insert_Some in H as [[<- <-]|[_ H]]; [by left|].
    apply lookup_singleton_Some in H as [<- <-]. by right. }
  split_and!.
  - by intros c x [[-> ->]|[-> ->]]%Hc.
  - by intros c c' x x' [[-> ->]|[-> ->]]%Hc [[-> ->]|[-> ->]]%Hc.
  - intros l lk. cbn. intros H. apply lookup_insert_Some in H as [[_ <-]|[_ H]]; [done|].
    by apply lookup_singleton_Some in H as [_ <-].
  - done.
Qed.
(** The first processor lowers its level and takes lock 5. *)
Definition locked_once : outcome (unit * kst) :=
  (spl0 0 ≫= fun _ => spinlock_acquire 0 5 ≫= fun _ =>
   spinlock_step 0 true ≫= fun _ => spinlock_step 0 true ≫= fun _ =>
   spinlock_step 0 true ≫= fun _ => spinlock_step 0 true) two_cpus.
Lemma locked_once_reach : exists s, locked_once = Done (tt, s) /\ rtc (step Z.of_nat) two_cpus s.
Proof.
  destruct locked_once as [[[] s]|f] eqn:E; [|by vm_compute in E]. exists s. split; [done|].
  unfold locked_once in E.
  apply bind_inv in E as (v & s1 & E1 & E). apply bind_inv in E as ([] & s2 & E2 & E).
  apply bind_inv in E as ([] & s3 & E3 & E). apply bind_inv in E as ([] & s4 & E4 & E).
  apply bind_inv in E as ([] & s5 & E5 & E).
  eapply rtc_l; [apply (step_splx Z.of_nat _ _ 0 (Cpu 10 0 Out) IPL_NONE v); [reflexivity|done|by left|exact E1]|].
  eapply rtc_l.
  { vm_compute in E1. injection E1 as <- <-.
    eapply (step_acquire Z.of_nat _ _ 0); [reflexivity|reflexivity|exact E2]. }
  eapply rtc_l; [exact (step_inside Z.of_nat _ _ 0 true E3)|].
  eapply rtc_l; [exact (step_inside Z.of_nat _ _ 0 true E4)|].
  eapply rtc_l; [exact (step_inside Z.of_nat _ _ 0 true E5)|].
  apply rtc_once. exact (step_inside Z.of_nat _ _ 0 true E).
Qed.
Lemma spinlock_mutual_exclusion_witness :
  exists s, locked_once = Done (tt, s) /\ owns s 0 5 /\ ~ owns s 1 5.
Proof.
  destruct locked_once_reach as (s & E & Hr). exists s. split; [exact E|].
  destruct (spinlock_mutual_exclusion Z.of_nat two_cpus s two_cpus_booted Hr) as [H _].
  assert (Ho : owns s 0 5).
  { vm_compute in E. injection E as <-. left. eexists. split; reflexivity. }
  split; [exact Ho|]. intros H1. discriminate (H 5 0%nat 1%nat Ho H1).
Defined.
Lemma interrupts_match_level_witness :
  exists s x, locked_once = Done (tt, s) /\ cpus s !! 0%nat = Some x /\ Z.testbit (status x) 0 = false
    /\ exists t, threads s !! c_curthread x = Some t /\ t_curspl t = IPL_NONE.
Proof.
  destruct locked_once_reach as (s & E & Hr).
  destruct (cpus s !! 0%nat) as [x|] eqn:Hx.
  2:{ vm_compute in E. injection E as <-. discriminate Hx. }
  destruct (interrupts_match_level Z.of_nat two_cpus s 0 x two_cpus_booted Hr Hx) as (t & Et & _ & _).
  exists s, x. split; [exact E|]. split; [exact Hx|].
  vm_compute in E. injection E as <-. vm_compute in Hx. injection Hx as <-.
  split; [reflexivity|]. exists t. split; [exact Et|]. vm_compute in Et. injection Et as <-. reflexivity.
Defined.
