(* ===== verification/Trap.v ===== *)
(** Traps and system calls (kern/arch/mips/locore/trap.c,
    kern/arch/mips/syscall/syscall.c)

    What a trap does with the interrupt level and with the registers of the
    interrupted program, on the interrupt levels of Spl.v.  The handlers of
    devices, page faults and system calls are parameters about which nothing is
    assumed: they may stop the machine, not come back, or come back on another
    processor or with a level they forgot to restore. *)
From S2P Require Import Prelude Memory Kmalloc Dumbvm Spl.

(** ** Trap frames *)

(** [struct trapframe]; the 28 registers that no code here touches are a list. *)
Record trapframe := Trapframe {
  tf_vaddr : Z; tf_status : Z; tf_cause : Z; tf_epc : Z;
  tf_v0 : Z; tf_a0 : Z; tf_a1 : Z; tf_a2 : Z; tf_a3 : Z;
  tf_others : list Z;
}.
Definition with_result (v0 a3 epc : Z) (tf : trapframe) : trapframe :=
  Trapframe (tf_vaddr tf) (tf_status tf) (tf_cause tf) epc v0 (tf_a0 tf) (tf_a1 tf) (tf_a2 tf) a3
            (tf_others tf).
Definition with_epc (epc : Z) (tf : trapframe) : trapframe := with_result (tf_v0 tf) (tf_a3 tf) epc tf.

Definition EX_IRQ : Z := 0.
Definition EX_MOD : Z := 1.
Definition EX_TLBL : Z := 2.
Definition EX_TLBS : Z := 3.
Definition EX_IBE : Z := 6.
Definition EX_DBE : Z := 7.
Definition EX_SYS : Z := 8.
Definition NTRAPCODES : Z := 13.
Definition CCA_CODE : Z := 0x3c.
Definition CCA_CODESHIFT : Z := 2.
Definition CST_IEp : Z := 4.
Definition CST_KUp : Z := 8.
Definition CST_IRQMASK : Z := 0xff00.
Definition STACK_SIZE : Z := 4096.
Definition STACK_MASK : Z := u32 (Z.lnot (STACK_SIZE - 1)).
Definition SAME_STACK (p1 p2 : Z) : bool := Z.land p1 STACK_MASK =? Z.land p2 STACK_MASK.
Definition ENOSYS : Z := 1.

(** ** System calls *)
Inductive call :=
  | Reboot (code : Z) | Time (seconds nanoseconds : Z) | Fork | Execv (progname args : Z)
  | Waitpid (pid status options : Z) | Exit (code : Z)
  | Open (name flags mode : Z) | Read (fd buf len : Z) | Write (fd buf len : Z) | Getpid
  | Getcwd (buf len : Z) | Chdir (name : Z) | Close (fd : Z) | Lseek (fd pos code : Z)
  | Dup2 (old new : Z) | Mkdir (name mode : Z) | Rmdir (name : Z) | Fstat (fd buf : Z)
  | Remove (name : Z) | Rename (old new : Z) | Getdirentry (fd buf len : Z).
(** The [switch] on the call number.  The arguments are the words of the
    registers. *)
Definition decode (tf : trapframe) : option call :=
  let '(a0, a1, a2) := (tf_a0 tf, tf_a1 tf, tf_a2 tf) in
  match s32 (tf_v0 tf) with
  | 119 => Some (Reboot a0)
  | 113 => Some (Time a0 a1)
  | 0 => Some Fork
  | 2 => Some (Execv a0 a1)
  | 4 => Some (Waitpid a0 a1 a2)
  | 3 => Some (Exit a0)
  | 45 => Some (Open a0 a1 a2)
  | 50 => Some (Read a0 a1 a2)
  | 55 => Some (Write a0 a1 a2)
  | 5 => Some Getpid
  | 76 => Some (Getcwd a0 a1)
  | 74 => Some (Chdir a0)
  | 49 => Some (Close a0)
  | 59 => Some (Lseek a0 a1 a2)
  | 48 => Some (Dup2 a0 a1)
  | 69 => Some (Mkdir a0 a1)
  | 70 => Some (Rmdir a0)
  | 82 => Some (Fstat a0 a1)
  | 68 => Some (Remove a0)
  | 72 => Some (Rename a0 a1)
  | 54 => Some (Getdirentry a0 a1 a2)
  | _ => None
  end.
(** The registers after the call, with the program counter behind the
    [syscall] instruction. *)
Definition answer (err retval : Z) (tf : trapframe) : trapframe :=
  if negb (err =? 0) then with_result (u32 err) 1 (u32 (tf_epc tf + 4)) tf
  else with_result (u32 retval) 0 (u32 (tf_epc tf + 4)) tf.
(** The priority the dispatcher gives to the calling thread. *)
Definition call_priority (k : call) : option Z :=
  match k with
  | Waitpid _ _ _ | Exit _ => Some 0
  | Open _ _ _ | Read _ _ _ | Write _ _ _ | Chdir _ | Close _ | Lseek _ _ _ | Dup2 _ _ => Some 1
  | _ => None
  end.

(** ** State *)

(** The thread that takes a trap and the processor it is on ([curcpu]): the
    interrupt state of Spl.v, the fields of the thread, and the arrays
    [cputhreads] and [cpustacks] in which the next trap finds them. *)
Record tst := Tst {
  spl_st : kst;
  here : nat;
  t_in_interrupt : bool;
  priority : Z;
  t_stack : Z;
  tm_badfaultfunc : Z;
  cputhreads : gmap nat Z;
  cpustacks : gmap nat Z;
}.
Definition on_spl {A} (m : nat -> M kst A) : M tst A := fun s =>
  match m (here s) (spl_st s) with
  | Done (a, k) => Done (a, Tst k (here s) (t_in_interrupt s) (priority s) (t_stack s) (tm_badfaultfunc s)
                                (cputhreads s) (cpustacks s))
  | Stop f => Stop f
  end.
Definition set_in_interrupt (b : bool) : M tst unit := mmodify (fun s =>
  Tst (spl_st s) (here s) b (priority s) (t_stack s) (tm_badfaultfunc s) (cputhreads s) (cpustacks s)).
Definition set_priority (p : Z) : M tst unit := mmodify (fun s =>
  Tst (spl_st s) (here s) (t_in_interrupt s) p (t_stack s) (tm_badfaultfunc s) (cputhreads s) (cpustacks s)).
Definition set_slots (t stack : Z) : M tst unit := mmodify (fun s =>
  Tst (spl_st s) (here s) (t_in_interrupt s) (priority s) (t_stack s) (tm_badfaultfunc s)
      (<[here s := t]> (cputhreads s)) (<[here s := stack]> (cpustacks s))).

(** How a trap ends: in user mode or back in the kernel with the registers of
    [tf], or with the thread. *)
Inductive trap_end := Resume (tf : trapframe) | Exited (code : Z).

(** What an interrupt can come from. *)
Inductive source := Lamebus | Ipi | Timer.
Definition LAMEBUS_IRQ_BIT : Z := 0x400.
Definition LAMEBUS_IPI_BIT : Z := 0x800.
Definition MIPS_TIMER_BIT : Z := 0x8000.

Definition curthread : M tst Z := on_spl (fun c => x ← get_cpu c; mret (c_curthread x)).
Definition cur_thread : M tst thread := cur ← curthread; on_spl (fun _ => get_thread cur).
Definition put_cur (t : thread) : M tst unit := cur ← curthread; on_spl (fun _ => put_thread cur t).

Section trap.
(** The handlers.  A system call comes back with an error code and a value, or
    leaves the dispatcher for good, as [execv] and [_exit] do. *)
Context (interrupt : source -> M tst unit).
Context (vm_fault : Z -> Z -> M tst Z).
Context (sys : call -> trapframe -> M tst (trap_end + Z * Z)).

Definition mainbus_interrupt (tf : trapframe) : M tst unit :=
  t ← cur_thread;
  kassert (0 <? t_curspl t) ≫= fun _ =>
  let cause := tf_cause tf in
  if negb (Z.land cause LAMEBUS_IRQ_BIT =? 0) then interrupt Lamebus
  else if negb (Z.land cause LAMEBUS_IPI_BIT =? 0) then interrupt Ipi
  else if negb (Z.land cause MIPS_TIMER_BIT =? 0) then interrupt Timer
  else mstop KPanic.

(** [inl] is a call that does not come back. *)
Definition syscall (tf : trapframe) : M tst (trap_end + trapframe) :=
  t ← cur_thread;
  kassert (t_curspl t =? 0) ≫= fun _ =>
  kassert (t_iplhigh_count t =? 0) ≫= fun _ =>
  (match decode tf ≫= call_priority with Some p => set_priority p | None => mret tt end) ≫= fun _ =>
  r ← (match decode tf with
       | Some k => sys k tf
       | None => mret (inr (ENOSYS, 0))
       end);
  match r with
  | inl e => mret (inl e)
  | inr (err, retval) =>
      t ← cur_thread;
      kassert (t_curspl t =? 0) ≫= fun _ =>
      kassert (t_iplhigh_count t =? 0) ≫= fun _ =>
      mret (inr (answer err retval tf))
  end.

Definition kill_curthread (code : Z) (tf : trapframe) : M tst trap_end :=
  kassert (code <? NTRAPCODES) ≫= fun _ =>
  kassert (negb ((code =? EX_IRQ) || (code =? EX_IBE) || (code =? EX_DBE) || (code =? EX_SYS))) ≫= fun _ =>
  r ← sys (Exit 0) tf;
  match r with inl e => mret e | inr _ => mstop KPanic end.

(** The label [done2]. *)
Definition trap_out (tfa : Z) (tf : trapframe) : M tst trap_end :=
  stack ← mgets t_stack;
  if stack =? 0 then mret (Resume tf)
  else
    cur ← curthread;
    set_slots cur (u32 (stack + STACK_SIZE)) ≫= fun _ =>
    kassert (SAME_STACK (u32 (u32 (stack + STACK_SIZE) - 1)) tfa) ≫= fun _ =>
    mret (Resume tf).
(** The label [done]. *)
Definition trap_done (tfa : Z) (tf : trapframe) : M tst trap_end :=
  on_spl cpu_irqoff ≫= fun _ => trap_out tfa tf.

Definition trap_irq (tfa : Z) (tf : trapframe) : M tst trap_end :=
  old_in ← mgets t_in_interrupt;
  set_in_interrupt true ≫= fun _ =>
  t ← cur_thread;
  doadjust ← (if t_curspl t =? 0 then
                kassert (t_iplhigh_count t =? 0) ≫= fun _ =>
                put_cur (Thread IPL_HIGH (t_iplhigh_count t + 1)) ≫= fun _ => mret true
              else mret false);
  mainbus_interrupt tf ≫= fun _ =>
  (if (doadjust : bool) then
     t ← cur_thread;
     kassert (t_curspl t =? IPL_HIGH) ≫= fun _ =>
     kassert (t_iplhigh_count t =? 1) ≫= fun _ =>
     put_cur (Thread 0 (t_iplhigh_count t - 1))
   else mret tt) ≫= fun _ =>
  set_in_interrupt old_in ≫= fun _ =>
  trap_out tfa tf.

(** A fault that [vm_fault] did not repair, or another exception. *)
Definition trap_fatal (tfa code : Z) (iskern : bool) (tf : trapframe) : M tst trap_end :=
  if negb iskern then kill_curthread code tf
  else
    badfaultfunc ← mgets tm_badfaultfunc;
    if negb (badfaultfunc =? 0) then trap_done tfa (with_epc badfaultfunc tf)
    else mstop KPanic.
Definition trap_fault (faulttype tfa code : Z) (iskern : bool) (tf : trapframe) : M tst trap_end :=
  r ← vm_fault faulttype (tf_vaddr tf);
  if r =? 0 then trap_done tfa tf else trap_fatal tfa code iskern tf.

(** [tfa] is the address of the trap frame. *)
Definition mips_trap (tfa : Z) (tf : trapframe) : M tst trap_end :=
  kassert ((Z.of_nat (length (tf_others tf)) + 9) * 4 =? 37 * 4) ≫= fun _ =>
  let code := Z.shiftr (Z.land (tf_cause tf) CCA_CODE) CCA_CODESHIFT in
  let iskern := Z.land (tf_status tf) CST_KUp =? 0 in
  kassert (code <? NTRAPCODES) ≫= fun _ =>
  stack ← mgets t_stack;
  (if negb (stack =? 0) then
     kassert (tfa >? stack) ≫= fun _ => kassert (tfa <? u32 (stack + STACK_SIZE))
   else mret tt) ≫= fun _ =>
  if code =? EX_IRQ then trap_irq tfa tf
  else
    spl ← on_spl splhigh;
    on_spl (fun c => splx c spl) ≫= fun _ =>
    if code =? EX_SYS then
      t ← cur_thread;
      kassert (t_curspl t =? 0) ≫= fun _ =>
      kassert (t_iplhigh_count t =? 0) ≫= fun _ =>
      r ← syscall tf;
      match r with
      | inr tf' => trap_done tfa tf'
      | inl e => mret e
      end
    else if code =? EX_MOD then trap_fault VM_FAULT_READONLY tfa code iskern tf
    else if code =? EX_TLBL then trap_fault VM_FAULT_READ tfa code iskern tf
    else if code =? EX_TLBS then trap_fault VM_FAULT_WRITE tfa code iskern tf
    else if (code =? EX_IBE) || (code =? EX_DBE) then mstop KPanic
    else trap_fatal tfa code iskern tf.
End trap.

(** Entering user mode for the first time. *)
Definition mips_usermode (tfa : Z) (tf : trapframe) : M tst trap_end :=
  on_spl spl0 ≫= fun _ =>
  on_spl cpu_irqoff ≫= fun _ =>
  stack ← mgets t_stack;
  cur ← curthread;
  set_slots cur (u32 (stack + STACK_SIZE)) ≫= fun _ =>
  kassert (SAME_STACK (u32 (u32 (stack + STACK_SIZE) - 1)) tfa) ≫= fun _ =>
  mret (Resume tf).
(** The frame is zeroed except for the fields that are set; [tf_sp] is one of
    the others, at its place in the frame. *)
Definition enter_new_process (tfa argc argv stack entry : Z) : M tst trap_end :=
  mips_usermode tfa
    (Trapframe 0 (Z.lor CST_IRQMASK (Z.lor CST_IEp CST_KUp)) 0 entry 0 (u32 argc) argv 0 0
               (<[26%nat := stack]> (replicate 28 0))).
Definition enter_forked_process (tfa : Z) (tf : trapframe) : M tst trap_end :=
  mips_usermode tfa
    (Trapframe (tf_vaddr tf) (tf_status tf) (tf_cause tf) (u32 (tf_epc tf + 4)) 0 0
               (tf_a1 tf) (tf_a2 tf) (tf_a3 tf) (tf_others tf)).

(** ** What a trap keeps *)
#[export] Instance thread_eq_dec : EqDecision thread.
Proof. solve_decision. Defined.

(** The thread with its interrupt state, the interrupt enable bit of the
    processor it is on, and its other fields. *)
Definition level (s : tst) : option (Z * thread) :=
  x ← cpus (spl_st s) !! here s; t ← threads (spl_st s) !! c_curthread x; Some (c_curthread x, t).
Definition irq (s : tst) : option bool :=
  x ← cpus (spl_st s) !! here s; Some (Z.testbit (status x) 0).
Definition view (s : tst) := (level s, irq s, t_in_interrupt s, t_stack s, tm_badfaultfunc s).
Definition level_ok (t : thread) : Prop :=
  (t_curspl t = IPL_NONE \/ t_curspl t = IPL_HIGH) /\ t_curspl t <= t_iplhigh_count t.
Definition stack_ok (stack tfa : Z) : Prop :=
  stack = 0 \/ (0 < stack /\ stack mod STACK_SIZE = 0 /\ stack < tfa < stack + STACK_SIZE
                /\ stack + STACK_SIZE < 2 ^ 32).
(** A handler runs in the thread [cur], with this interrupt state. *)
Definition entered (s s1 : tst) (cur : Z) (t : thread) (i in_interrupt : bool) : Prop :=
  view s1 = (Some (cur, t), Some i, in_interrupt, t_stack s, tm_badfaultfunc s) /\ here s1 = here s.
(** Back in the interrupted program: the thread and its level as before, the
    interrupts off, and the slots for the next trap set. *)
Definition back (cur : Z) (t : thread) (s s' : tst) : Prop :=
  level s' = Some (cur, t) /\ irq s' = Some false /\ t_in_interrupt s' = t_in_interrupt s
  /\ (t_stack s <> 0 -> cputhreads s' !! here s' = Some cur
                        /\ cpustacks s' !! here s' = Some (t_stack s + STACK_SIZE)).

Lemma level_inv s cur t : level s = Some (cur, t) ->
  exists x, cpus (spl_st s) !! here s = Some x /\ c_curthread x = cur /\ threads (spl_st s) !! cur = Some t.
Proof.
  unfold level. destruct (cpus (spl_st s) !! here s) as [x|]; [|done]. cbn.
  destruct (threads (spl_st s) !! c_curthread x) as [t'|] eqn:E; [|done]. cbn. intros [= <- <-]. by exists x.
Qed.
Lemma cur_run s cur t : level s = Some (cur, t) ->
  curthread s = Done (cur, s) /\ cur_thread s = Done (t, s).
Proof.
  intros (x & Hx & Hc & Ht)%level_inv.
  assert (E : curthread s = Done (cur, s)).
  { unfold curthread, on_spl, get_cpu. mrun. rewrite Hx, Hc. by destruct s. }
  split; [done|]. unfold cur_thread. rewrite (bind_Done _ _ _ _ _ E).
  unfold on_spl, get_thread. mrun. rewrite Ht. by destruct s.
Qed.
Lemma put_cur_run s cur t t' : level s = Some (cur, t) ->
  exists s', put_cur t' s = Done (tt, s') /\ here s' = here s
    /\ view s' = (Some (cur, t'), irq s, t_in_interrupt s, t_stack s, tm_badfaultfunc s).
Proof.
  intros Hl. pose proof (cur_run s cur t Hl) as [E _]. apply level_inv in Hl as (x & Hx & Hc & Ht).
  unfold put_cur. rewrite (bind_Done _ _ _ _ _ E). unfold on_spl, put_thread. mrun.
  eexists. split; [reflexivity|]. split; [done|].
  unfold view, level, irq. cbn. rewrite Hx. cbn. by rewrite Hc, lookup_insert_eq.
Qed.
Lemma irqoff_run s cur t : level s = Some (cur, t) ->
  exists s', on_spl cpu_irqoff s = Done (tt, s') /\ here s' = here s
    /\ view s' = (Some (cur, t), Some false, t_in_interrupt s, t_stack s, tm_badfaultfunc s).
Proof.
  intros (x & Hx & Hc & Ht)%level_inv. unfold on_spl, cpu_irqoff, get_cpu, put_cpu. mrun. rewrite Hx.
  eexists. split; [reflexivity|]. split; [done|]. unfold view, level, irq. cbn. rewrite lookup_insert_eq. cbn.
  rewrite Hc, Ht. cbn. do 4 f_equal. f_equal. apply irqoff_bit.
Qed.

(** Forcing the level up and back brings the interrupt enable bit, which the
    processor has cleared, back in line with the thread. *)
Lemma sync_run s cur t : level s = Some (cur, t) -> irq s = Some false -> level_ok t ->
  exists v s', (spl ← on_spl splhigh; on_spl (fun c => splx c spl)) s = Done (v, s')
    /\ entered s s' cur t (t_iplhigh_count t =? 0) (t_in_interrupt s) /\ priority s' = priority s.
Proof.
  intros Hl Hirq Hok. apply level_inv in Hl as (x & Hx & Hc & Ht). subst cur.
  unfold irq in Hirq. rewrite Hx in Hirq. injection Hirq as Hirq.
  destruct t as [cs n], Hok as [Hcs Hn]. cbn [t_curspl t_iplhigh_count] in *.
  unfold splhigh, on_spl. mrun. destruct Hcs as [-> | ->].
  - rewrite (splx_up _ (here s) x n Hx Ht). cbn [spl_st here].
    erewrite splx_down; [|apply lookup_insert_eq|apply lookup_insert_eq]. cbn [threads cpus c_curthread status at_pc].
    rewrite !insert_insert_eq, Z.add_simpl_r.
    eexists _, _. split; [reflexivity|]. split; [|done]. split; [|done]. unfold view, level, irq. cbn. rewrite !lookup_insert_eq. cbn.
    rewrite lookup_insert_eq. cbn. do 4 f_equal. f_equal. destruct (n =? 0); [apply irqon_bit|done].
  - pose proof (splx_same _ (here s) x _ Hx Ht) as E. cbn [t_curspl] in E. rewrite E. cbn [spl_st here]. rewrite E.
    eexists _, _. split; [reflexivity|]. split; [|done]. split; [|done]. unfold view, level, irq. cbn. rewrite Hx. cbn. rewrite Ht, Hirq.
    cbn. do 4 f_equal. f_equal. unfold IPL_HIGH in *. symmetry. apply Z.eqb_neq. lia.
Qed.

Lemma same_stack stack tfa : 0 < stack -> stack mod STACK_SIZE = 0 -> stack < tfa < stack + STACK_SIZE ->
  stack + STACK_SIZE < 2 ^ 32 ->
  u32 (stack + STACK_SIZE) = stack + STACK_SIZE
  /\ SAME_STACK (u32 (u32 (stack + STACK_SIZE) - 1)) tfa = true.
Proof.
  unfold STACK_SIZE. intros H0 Hm Hr Hb.
  assert (E : u32 (stack + 4096) = stack + 4096) by (apply uwrap_small; lia). split; [done|].
  rewrite E. unfold SAME_STACK. replace (u32 (stack + 4096 - 1)) with (stack + 4095)
    by (symmetry; etransitivity; [apply uwrap_small; lia|lia]).
  change STACK_MASK with PAGE_FRAME. rewrite !land_frame by lia. apply Z.eqb_eq.
  unfold PAGE_SIZE. Z.div_mod_to_equations. lia.
Qed.

(** The program goes on with the registers of [tf]. *)
Definition goes_on (o : outcome (trap_end * tst)) (cur : Z) (t : thread) (s : tst) (tf : trapframe) : Prop :=
  exists s', o = Done (Resume tf, s') /\ back cur t s s'.

Lemma trap_out_run tfa tf s cur t i st bad : view s = (Some (cur, t), Some false, i, st, bad) ->
  stack_ok st tfa -> exists s', trap_out tfa tf s = Done (Resume tf, s') /\ back cur t s s'.
Proof.
  intros Hv Hst. injection Hv as Hl Hirq _ Est _. unfold trap_out. rewrite (bind_Done _ _ _ _ _ eq_refl). subst st.
  destruct Hst as [E|(H0 & Hm & Hr & Hb)].
  - rewrite E. exists s. split; [done|]. unfold back. rewrite E. done.
  - rewrite (proj2 (Z.eqb_neq _ _)) by lia.
    rewrite (bind_Done _ _ _ _ _ (proj1 (cur_run s cur t Hl))).
    destruct (same_stack _ _ H0 Hm Hr Hb) as [E1 E2]. unfold set_slots. mrun. rewrite E2.
    eexists. split; [reflexivity|]. split_and!; [done|done|done|]. intros _. cbn.
    by rewrite !lookup_insert_eq, E1.
Qed.
Lemma goes_on_from s0 s o cur t tf : goes_on o cur t s tf -> t_in_interrupt s0 = t_in_interrupt s ->
  t_stack s0 = t_stack s -> goes_on o cur t s0 tf.
Proof. intros (s' & E & Hb) E1 E2. exists s'. split; [done|]. unfold back in *. by rewrite E1, E2. Qed.
Lemma trap_done_run tfa tf s0 s cur t i bad :
  view s = (Some (cur, t), i, t_in_interrupt s0, t_stack s0, bad) -> stack_ok (t_stack s0) tfa ->
  goes_on (trap_done tfa tf s) cur t s0 tf.
Proof.
  intros Hv Hst. injection Hv as Hl Hi Hin Hs Hb. unfold trap_done.
  destruct (irqoff_run s cur t Hl) as (s1 & E & _ & Hv1). rewrite (bind_Done _ _ _ _ _ E).
  assert (stack_ok (t_stack s) tfa) as Hst' by (by rewrite Hs).
  pose proof (trap_out_run tfa tf s1 cur t _ _ _ Hv1 Hst') as Hg.
  injection Hv1 as _ _ Hin1 Hs1 _. apply (goes_on_from _ s1); [exact Hg|congruence|congruence].
Qed.

(** ** What the calls are

    The number of each call in kern/include/kern/syscall.h, and the arguments it
    finds in a0, a1 and a2. *)
Definition callno (k : call) : Z :=
  match k with
  | Fork => 0 | Execv _ _ => 2 | Exit _ => 3 | Waitpid _ _ _ => 4 | Getpid => 5
  | Open _ _ _ => 45 | Dup2 _ _ => 48 | Close _ => 49 | Read _ _ _ => 50 | Getdirentry _ _ _ => 54
  | Write _ _ _ => 55 | Lseek _ _ _ => 59 | Remove _ => 68 | Mkdir _ _ => 69 | Rmdir _ => 70
  | Rename _ _ => 72 | Chdir _ => 74 | Getcwd _ _ => 76 | Fstat _ _ => 82 | Time _ _ => 113
  | Reboot _ => 119
  end.
Definition arguments (k : call) : list Z :=
  match k with
  | Fork | Getpid => []
  | Reboot x | Exit x | Chdir x | Close x | Rmdir x | Remove x => [x]
  | Time x y | Execv x y | Getcwd x y | Dup2 x y | Mkdir x y | Fstat x y | Rename x y => [x; y]
  | Waitpid x y z | Open x y z | Read x y z | Write x y z | Lseek x y z | Getdirentry x y z => [x; y; z]
  end.
Definition asks (tf : trapframe) (k : call) : Prop :=
  s32 (tf_v0 tf) = callno k /\ arguments k `prefix_of` [tf_a0 tf; tf_a1 tf; tf_a2 tf].
(** The registers after a call: an error code or a value in v0, which of the two
    in a3, and the program counter behind the instruction. *)
Definition replied (tf : trapframe) (err v : Z) : trapframe :=
  Trapframe (tf_vaddr tf) (tf_status tf) (tf_cause tf) (u32 (tf_epc tf + 4))
            (if decide (err = 0) then u32 v else u32 err) (tf_a0 tf) (tf_a1 tf) (tf_a2 tf)
            (if decide (err = 0) then 0 else 1) (tf_others tf).

Lemma decode_asks tf k : decode tf = Some k <-> asks tf k.
Proof.
  unfold asks, decode. split.
  - intros H. repeat case_match; try discriminate H; injection H as <-; (split; [done|]); cbn [arguments];
      unfold prefix; first [by exists []|by exists [tf_a2 tf]|by exists [tf_a1 tf; tf_a2 tf]|by eexists].
  - intros [Hn [r Ha]]. rewrite Hn. destruct k; cbn in *; simplify_eq; done.
Qed.
Lemma answer_replied err v tf : answer err v tf = replied tf err v.
Proof. unfold answer, replied. destruct (Z.eqb_spec err 0), (decide (err = 0)); done. Qed.

Section ends.
Context (interrupt : source -> M tst unit) (vm_fault : Z -> Z -> M tst Z).
Context (sys : call -> trapframe -> M tst (trap_end + Z * Z)).

(** The first of the lines of the bus, of the other processors and of the timer
    that the cause register shows. *)
Definition from (d : source) (cause : Z) : Prop :=
  match d with
  | Lamebus => Z.testbit cause 10 = true
  | Ipi => Z.testbit cause 10 = false /\ Z.testbit cause 11 = true
  | Timer => Z.testbit cause 10 = false /\ Z.testbit cause 11 = false /\ Z.testbit cause 15 = true
  end.
(** An interrupt: its handler runs with the level high.  When it comes back with
    the thread as it found it, the program goes on with all its registers; a
    level or a spinlock it forgot is noticed if the program had interrupts on. *)
Definition irq_ends (o : outcome (trap_end * tst)) (tf : trapframe) (s : tst) (cur : Z) (t : thread) : Prop :=
  exists s1, entered s s1 cur (if t_curspl t =? 0 then Thread IPL_HIGH 1 else t) false true /\
  ((forall d, ~ from d (tf_cause tf)) -> o = Stop KPanic) /\
  forall d, from d (tf_cause tf) ->
  match interrupt d s1 with
  | Stop f => o = Stop f
  | Done (_, s2) =>
      (view s2 = view s1 -> goes_on o cur t s tf) /\
      (forall cur2 t2, t_curspl t = 0 -> level s2 = Some (cur2, t2) -> t2 <> Thread IPL_HIGH 1 -> o = Stop KAssertFail)
  end.
(** A fatal fault: of a user program, it ends the thread, with [_exit]; of the
    kernel, it goes on at the address announced, or panics if there is none. *)
Definition fatal_ends (o : outcome (trap_end * tst)) (iskern : bool) (tf : trapframe) (s s1 : tst) (cur : Z)
    (t : thread) : Prop :=
  if iskern then
    if tm_badfaultfunc s =? 0 then o = Stop KPanic
    else goes_on o cur t s (Trapframe (tf_vaddr tf) (tf_status tf) (tf_cause tf) (tm_badfaultfunc s) (tf_v0 tf)
                             (tf_a0 tf) (tf_a1 tf) (tf_a2 tf) (tf_a3 tf) (tf_others tf))
  else match sys (Exit 0) tf s1 with
       | Stop f => o = Stop f
       | Done (inl e, s2) => o = Done (e, s2)
       | Done (inr _, _) => o = Stop KPanic
       end.
(** A page fault: [vm_fault] runs at the level of the program.  Repaired, it
    changes no register. *)
Definition fault_ends (o : outcome (trap_end * tst)) (ty : Z) (iskern : bool) (tf : trapframe) (s : tst) (cur : Z)
    (t : thread) : Prop :=
  exists s1, entered s s1 cur t (t_iplhigh_count t =? 0) (t_in_interrupt s) /\
  match vm_fault ty (tf_vaddr tf) s1 with
  | Stop f => o = Stop f
  | Done (r, s2) =>
      view s2 = view s1 -> if r =? 0 then goes_on o cur t s tf else fatal_ends o iskern tf s s2 cur t
  end.
(** [_exit] and [waitpid] run at priority 0, the calls on files at priority 1. *)
Definition boost (n p : Z) : Z :=
  if bool_decide (n ∈ [3; 4]) then 0 else if bool_decide (n ∈ [45; 48; 49; 50; 55; 59; 74]) then 1 else p.
(** A system call runs with interrupts on, and is given its arguments.  When it
    comes back, the reply is in the registers; a level or a spinlock it forgot
    fails an assertion.  An unknown number is [ENOSYS]. *)
Definition call_ends (o : outcome (trap_end * tst)) (tf : trapframe) (s : tst) (cur : Z) : Prop :=
  exists s1, entered s s1 cur (Thread 0 0) true (t_in_interrupt s) /\
  ((forall k, ~ asks tf k) -> goes_on o cur (Thread 0 0) s (replied tf ENOSYS 0)) /\
  forall k, asks tf k -> priority s1 = boost (callno k) (priority s) /\
  match sys k tf s1 with
  | Stop f => o = Stop f
  | Done (inl e, s2) => o = Done (e, s2)
  | Done (inr (err, v), s2) =>
      (view s2 = view s1 -> goes_on o cur (Thread 0 0) s (replied tf err v)) /\
      (forall cur2 t2, level s2 = Some (cur2, t2) -> t2 <> Thread 0 0 -> o = Stop KAssertFail)
  end.
Definition trap_ends (o : outcome (trap_end * tst)) (code : Z) (iskern : bool) (tf : trapframe) (s : tst)
    (cur : Z) (t : thread) : Prop :=
  if code =? EX_IRQ then irq_ends o tf s cur t
  else if code =? EX_SYS then call_ends o tf s cur
  else if code =? EX_MOD then fault_ends o VM_FAULT_READONLY iskern tf s cur t
  else if code =? EX_TLBL then fault_ends o VM_FAULT_READ iskern tf s cur t
  else if code =? EX_TLBS then fault_ends o VM_FAULT_WRITE iskern tf s cur t
  else if (code =? EX_IBE) || (code =? EX_DBE) then o = Stop KPanic
  else exists s1, entered s s1 cur t (t_iplhigh_count t =? 0) (t_in_interrupt s) /\ fatal_ends o iskern tf s s1 cur t.

Lemma line_bit cause k : 0 <= k -> (Z.land cause (2 ^ k) =? 0) = negb (Z.testbit cause k).
Proof using Type.
  clear. intros Hk. pose proof (land_pow2_0 cause k Hk) as H. rewrite Z.shiftl_1_l in H.
  destruct (Z.eqb_spec (Z.land cause (2 ^ k)) 0) as [E|E], (Z.testbit cause k); naive_solver.
Qed.
Lemma mainbus_run tf s cur t : level s = Some (cur, t) -> 0 < t_curspl t ->
  ((forall d, ~ from d (tf_cause tf)) -> mainbus_interrupt interrupt tf s = Stop KPanic) /\
  (forall d, from d (tf_cause tf) -> mainbus_interrupt interrupt tf s = interrupt d s).
Proof using Type.
  clear vm_fault sys. intros Hl Ht. unfold mainbus_interrupt. rewrite (bind_Done _ _ _ _ _ (proj2 (cur_run s cur t Hl))).
  rewrite (proj2 (Z.ltb_lt _ _) Ht), (bind_Done _ _ _ _ _ (eq_refl : kassert true s = Done (tt, s))).
  change LAMEBUS_IRQ_BIT with (2 ^ 10). change LAMEBUS_IPI_BIT with (2 ^ 11). change MIPS_TIMER_BIT with (2 ^ 15).
  rewrite !line_bit, !negb_involutive by lia.
  destruct (Z.testbit (tf_cause tf) 10) eqn:B1, (Z.testbit (tf_cause tf) 11) eqn:B2, (Z.testbit (tf_cause tf) 15) eqn:B3;
    (split; [intros Hd|intros [] Hd; cbn in Hd; naive_solver congruence]);
    pose proof (Hd Lamebus) as D1; pose proof (Hd Ipi) as D2; pose proof (Hd Timer) as D3; cbn in D1, D2, D3; naive_solver.
Qed.
Lemma irq_run tfa tf s cur t : level s = Some (cur, t) -> irq s = Some false -> level_ok t ->
  (t_curspl t = 0 -> t_iplhigh_count t = 0) -> stack_ok (t_stack s) tfa ->
  irq_ends (trap_irq interrupt tfa tf s) tf s cur t.
Proof using Type.
  clear vm_fault sys. intros Hl Hirq Hok H0 Hst. unfold irq_ends. remember (trap_irq interrupt tfa tf s) as o eqn:Ho. unfold trap_irq in Ho. rewrite (bind_Done _ _ _ _ _ eq_refl) in Ho.
  unfold set_in_interrupt at 1 in Ho. rewrite (bind_Done _ _ _ _ _ eq_refl) in Ho.
  set (s1 := Tst (spl_st s) (here s) true _ _ _ _ _) in Ho. change (level s1 = Some (cur, t)) in Hl.
  rewrite (bind_Done _ _ _ _ _ (proj2 (cur_run s1 cur t Hl))) in Ho.
  assert (Hend : forall s3 i, view s3 = (Some (cur, t), Some false, i, t_stack s, tm_badfaultfunc s) ->
    goes_on ((set_in_interrupt (t_in_interrupt s) ≫= fun _ => trap_out tfa tf) s3) cur t s tf).
  { intros s3 i Hv. unfold set_in_interrupt. rewrite (bind_Done _ _ _ _ _ eq_refl). injection Hv as V1 V2 _ V4 V5.
    set (s4 := Tst _ _ _ _ _ _ _ _). apply (goes_on_from _ s4); [|done|done].
    apply (trap_out_run tfa tf s4 cur t (t_in_interrupt s) (t_stack s) (tm_badfaultfunc s)); [|done].
    unfold view. change (level s4) with (level s3). change (irq s4) with (irq s3). cbn. by rewrite V1, V2, V4, V5. }
  destruct (Z.eqb_spec (t_curspl t) 0) as [Ez|Ez].
  - rewrite (H0 Ez) in Ho. destruct (put_cur_run s1 cur t (Thread IPL_HIGH (0 + 1)) Hl) as (s2 & E2 & Hh2 & Hv2).
    rewrite (bind_Done _ _ s1 true s2) in Ho.
    2:{ cbn. rewrite (bind_Done _ _ _ _ _ (eq_refl : kassert true s1 = Done (tt, s1))).
        by rewrite (bind_Done _ _ _ _ _ E2). }
    exists s2. split; [split; [|done]; rewrite Hv2; by change (irq s1) with (irq s); rewrite Hirq|].
    assert (Hl2 : level s2 = Some (cur, Thread IPL_HIGH 1)) by (by injection Hv2).
    destruct (mainbus_run tf s2 cur _ Hl2) as [Hno Hyes]; [done|].
    split; [intros Hd; by rewrite (bind_Stop _ _ _ _ (Hno Hd)) in Ho|]. intros d Hd. specialize (Hyes d Hd).
    destruct (interrupt d s2) as [[[] s3]|f]; [|by rewrite (bind_Stop _ _ _ _ Hyes) in Ho].
    rewrite (bind_Done _ _ _ _ _ Hyes) in Ho. split.
    + intros Hv3. rewrite Hv2 in Hv3. assert (Hl3 : level s3 = Some (cur, Thread IPL_HIGH (0 + 1))) by (by injection Hv3).
      destruct (put_cur_run s3 cur _ (Thread 0 (1 - 1)) Hl3) as (s4 & E4 & _ & Hv4).
      rewrite (bind_Done _ _ s3 tt s4) in Ho.
      2:{ by rewrite (bind_Done _ _ _ _ _ (proj2 (cur_run s3 cur _ Hl3))). }
      assert (t = Thread 0 (1 - 1)) as -> by (destruct t; cbn in *; rewrite Ez, (H0 Ez); done).
      injection Hv3 as _ I3 _ S3 B3. rewrite Ho. apply (Hend s4 (t_in_interrupt s3)). rewrite Hv4, I3, S3, B3.
      change (irq s1) with (irq s). by rewrite Hirq.
    + intros cur2 t2 _ Hl3 Hne. rewrite Ho. erewrite bind_Stop; [done|].
      rewrite (bind_Done _ _ _ _ _ (proj2 (cur_run s3 cur2 t2 Hl3))). destruct t2 as [a b]. cbn [t_curspl t_iplhigh_count].
      destruct (Z.eqb_spec a IPL_HIGH) as [->|]; [|by apply bind_Stop].
      rewrite (bind_Done _ _ _ _ _ (eq_refl : kassert true s3 = Done (tt, s3))).
      destruct (Z.eqb_spec b 1) as [->|]; [done|by apply bind_Stop].
  - rewrite (bind_Done _ _ _ _ _ (eq_refl : (mret false : M tst bool) s1 = Done (false, s1))) in Ho.
    exists s1. split; [split; [|done]; unfold view; by rewrite Hl; change (irq s1) with (irq s); rewrite Hirq|].
    destruct (mainbus_run tf s1 cur t Hl) as [Hno Hyes]; [destruct Hok as [[?|?] _]; unfold IPL_NONE, IPL_HIGH in *; lia|].
    split; [intros Hd; by rewrite (bind_Stop _ _ _ _ (Hno Hd)) in Ho|]. intros d Hd. specialize (Hyes d Hd).
    destruct (interrupt d s1) as [[[] s3]|f]; [|by rewrite (bind_Stop _ _ _ _ Hyes) in Ho].
    rewrite (bind_Done _ _ _ _ _ Hyes) in Ho. split; [|done]. intros Hv3.
    rewrite (bind_Done _ _ _ _ _ (eq_refl : (mret tt : M tst unit) s3 = Done (tt, s3))) in Ho.
    rewrite Ho. apply (Hend s3 true). rewrite Hv3. unfold view. rewrite Hl. change (irq s1) with (irq s). by rewrite Hirq.
Qed.
Lemma boost_run tf s : exists s1, (match decode tf ≫= call_priority with Some p => set_priority p | None => mret tt end) s
    = Done (tt, s1) /\ view s1 = view s /\ here s1 = here s
  /\ forall k, decode tf = Some k -> priority s1 = boost (callno k) (priority s).
Proof using Type.
  destruct (decode tf) as [k|] eqn:Ek; cbn; [|by exists s].
  destruct (call_priority k) as [p|] eqn:Ep.
  - eexists. split; [reflexivity|]. split; [done|]. split; [done|]. intros ? [= <-]. destruct k; cbn in Ep; by simplify_eq.
  - exists s. split; [done|]. split; [done|]. split; [done|]. intros ? [= <-]. destruct k; done.
Qed.
Lemma levels_zero s2 cur t2 (a : trapframe) : level s2 = Some (cur, t2) ->
  (t ← cur_thread; kassert (t_curspl t =? 0) ≫= fun _ => kassert (t_iplhigh_count t =? 0) ≫= fun _ =>
   mret (inr a : trap_end + trapframe)) s2 = if decide (t2 = Thread 0 0) then Done (inr a, s2) else Stop KAssertFail.
Proof using Type.
  intros Hl. rewrite (bind_Done _ _ _ _ _ (proj2 (cur_run s2 cur _ Hl))). destruct t2 as [x y]. cbn [t_curspl t_iplhigh_count].
  destruct (Z.eqb_spec x 0) as [->|Hx]; [|by rewrite decide_False by congruence].
  destruct (Z.eqb_spec y 0) as [->|Hy]; [done|by rewrite decide_False by congruence].
Qed.
Lemma syscall_run tf s0 cur : level s0 = Some (cur, Thread 0 0) -> exists s1, view s1 = view s0 /\ here s1 = here s0 /\
  ((forall k, ~ asks tf k) -> syscall sys tf s0 = Done (inr (replied tf ENOSYS 0), s1)) /\
  forall k, asks tf k -> priority s1 = boost (callno k) (priority s0) /\
  match sys k tf s1 with
  | Stop f => syscall sys tf s0 = Stop f
  | Done (inl e, s2) => syscall sys tf s0 = Done (inl e, s2)
  | Done (inr (err, v), s2) =>
      (view s2 = view s1 -> syscall sys tf s0 = Done (inr (replied tf err v), s2)) /\
      (forall cur2 t2, level s2 = Some (cur2, t2) -> t2 <> Thread 0 0 -> syscall sys tf s0 = Stop KAssertFail)
  end.
Proof using Type.
  clear interrupt vm_fault. intros Hl. destruct (boost_run tf s0) as (s1 & E1 & Hv1 & Hh1 & Hp).
  assert (Hl1 : level s1 = Some (cur, Thread 0 0)) by (injection Hv1; congruence).
  remember (syscall sys tf s0) as o eqn:Ho. unfold syscall in Ho.
  rewrite (bind_Done _ _ _ _ _ (proj2 (cur_run s0 cur _ Hl))) in Ho. cbn [t_curspl t_iplhigh_count Z.eqb] in Ho.
  rewrite !(bind_Done _ _ _ _ _ (eq_refl : kassert true s0 = Done (tt, s0))), (bind_Done _ _ _ _ _ E1) in Ho.
  exists s1. split; [done|]. split; [done|]. split.
  - intros Hno. destruct (decode tf) as [k|] eqn:Ek; [by destruct (Hno k); apply decode_asks|].
    rewrite (bind_Done _ _ _ _ _ (eq_refl : (mret (inr (ENOSYS, 0)) : M tst (trap_end + Z * Z)) s1 = _)) in Ho.
    by rewrite (levels_zero s1 cur _ _ Hl1), answer_replied in Ho.
  - intros k Hk. apply decode_asks in Hk. rewrite Hk in Ho. split; [by apply Hp|].
    destruct (sys k tf s1) as [[[e|[err v]] s2]|f] eqn:Es; [| |by rewrite (bind_Stop _ _ _ _ Es) in Ho].
    { by rewrite (bind_Done _ _ _ _ _ Es) in Ho. }
    rewrite (bind_Done _ _ _ _ _ Es) in Ho. split.
    + intros Hv2. assert (Hl2 : level s2 = Some (cur, Thread 0 0)) by (injection Hv2; congruence).
      by rewrite (levels_zero s2 cur _ _ Hl2), answer_replied in Ho.
    + intros cur2 t2 Hl2 Hne. rewrite (levels_zero s2 cur2 t2 _ Hl2), decide_False in Ho by done. done.
Qed.
Lemma call_run tfa tf s s0 cur : entered s s0 cur (Thread 0 0) true (t_in_interrupt s) -> priority s0 = priority s ->
  stack_ok (t_stack s) tfa ->
  call_ends ((t ← cur_thread; kassert (t_curspl t =? 0) ≫= fun _ => kassert (t_iplhigh_count t =? 0) ≫= fun _ =>
    r ← syscall sys tf; match r with inr tf' => trap_done tfa tf' | inl e => mret e end) s0) tf s cur.
Proof using Type.
  clear interrupt vm_fault. intros [Hv Hh] Hpr Hst. unfold call_ends.
  assert (Hl : level s0 = Some (cur, Thread 0 0)) by (by injection Hv).
  destruct (syscall_run tf s0 cur Hl) as (s1 & Hv1 & Hh1 & Hno & Hyes).
  match goal with |- context [goes_on ?x] => remember x as o eqn:Ho end.
  rewrite (bind_Done _ _ _ _ _ (proj2 (cur_run s0 cur _ Hl))) in Ho. cbn [t_curspl t_iplhigh_count Z.eqb] in Ho.
  rewrite !(bind_Done _ _ _ _ _ (eq_refl : kassert true s0 = Done (tt, s0))) in Ho.
  exists s1. split; [split; congruence|]. split.
  - intros Hk. rewrite (bind_Done _ _ _ _ _ (Hno Hk)) in Ho. rewrite Ho. eapply trap_done_run; [|done]. by rewrite Hv1.
  - intros k Hk. destruct (Hyes k Hk) as [Hp Hm]. split; [congruence|].
    destruct (sys k tf s1) as [[[e|[err v]] s2]|f].
    + by rewrite (bind_Done _ _ _ _ _ Hm) in Ho.
    + destruct Hm as [Hm1 Hm2]. split.
      * intros Hv2. rewrite (bind_Done _ _ _ _ _ (Hm1 Hv2)) in Ho. rewrite Ho. eapply trap_done_run; [|done]. by rewrite Hv2, Hv1.
      * intros cur2 t2 Hl2 Hne. by rewrite (bind_Stop _ _ _ _ (Hm2 cur2 t2 Hl2 Hne)) in Ho.
    + by rewrite (bind_Stop _ _ _ _ Hm) in Ho.
Qed.

Lemma fatal_run tfa code iskern tf s s1 cur t i : view s1 = (Some (cur, t), i, t_in_interrupt s, t_stack s, tm_badfaultfunc s) ->
  stack_ok (t_stack s) tfa ->
  0 <= code < NTRAPCODES -> code <> EX_IRQ -> code <> EX_SYS -> code <> EX_IBE -> code <> EX_DBE ->
  fatal_ends (trap_fatal sys tfa code iskern tf s1) iskern tf s s1 cur t.
Proof using Type.
  intros Hv Hst Hr H1 H2 H3 H4. unfold trap_fatal, fatal_ends. destruct iskern; cbn [negb].
  - rewrite (bind_Done _ _ _ _ _ eq_refl). replace (tm_badfaultfunc s1) with (tm_badfaultfunc s) by (by injection Hv).
    destruct (tm_badfaultfunc s =? 0); cbn [negb]; [done|]. by eapply trap_done_run.
  - unfold kill_curthread. rewrite (proj2 (Z.ltb_lt _ _)) by lia.
    rewrite (proj2 (Z.eqb_neq _ _) H1), (proj2 (Z.eqb_neq _ _) H2), (proj2 (Z.eqb_neq _ _) H3),
      (proj2 (Z.eqb_neq _ _) H4). cbn [orb negb]. rewrite !(bind_Done _ _ _ _ _ (eq_refl : kassert true s1 = Done (tt, s1))).
    destruct (sys (Exit 0) tf s1) as [[[e|?] s2]|f] eqn:Es.
    + by rewrite (bind_Done _ _ _ _ _ Es).
    + by rewrite (bind_Done _ _ _ _ _ Es).
    + by rewrite (bind_Stop _ _ _ _ Es).
Qed.
Lemma fault_run ty tfa code iskern tf s s1 cur t : entered s s1 cur t (t_iplhigh_count t =? 0) (t_in_interrupt s) ->
  stack_ok (t_stack s) tfa -> code = EX_MOD \/ code = EX_TLBL \/ code = EX_TLBS ->
  fault_ends (trap_fault vm_fault sys ty tfa code iskern tf s1) ty iskern tf s cur t.
Proof using Type.
  intros He Hst Hcode. exists s1. split; [done|]. unfold trap_fault.
  destruct (vm_fault ty (tf_vaddr tf) s1) as [[r s2]|f] eqn:Ef; [|by rewrite (bind_Stop _ _ _ _ Ef)].
  intros Hv2. rewrite (bind_Done _ _ _ _ _ Ef). destruct He as [Hv _]. rewrite Hv in Hv2. destruct (r =? 0).
  - by eapply trap_done_run.
  - eapply fatal_run; try done; destruct Hcode as [->|[->| ->]]; unfold NTRAPCODES, EX_MOD, EX_TLBL, EX_TLBS; done || lia.
Qed.

End ends.

(** ** Witness of the trap theorem: [getpid] on processor 0, whose handler comes
    back on processor 1 *)
Definition quiet_interrupt (d : source) : M tst unit := mret tt.
Definition no_fault (ty a : Z) : M tst Z := mret 0.
Definition answer_7 (k : call) (tf : trapframe) : M tst (trap_end + Z * Z) := fun s =>
  Done (inr (0, 7), Tst (Kst {[ 10 := Thread 0 0 ]} {[ 1%nat := Cpu 10 1 Out ]} ∅ ∅) 1 false 2 0x80040000 0 ∅ ∅).
Definition user_frame (callno : Z) : trapframe :=
  Trapframe 0 CST_KUp (EX_SYS * 4) 0x400100 callno 1 2 3 4 (replicate 28 0).
Definition in_user : tst :=
  Tst (Kst {[ 10 := Thread 0 0 ]} {[ 0%nat := Cpu 10 0 Out ]} ∅ ∅) 0 false 2 0x80040000 0 ∅ ∅.

(** ** The user side of a system call *)

(** What the stub of the C library returns to its caller. *)
Definition user_result (tf : trapframe) : Z := if tf_a3 tf =? 0 then s32 (tf_v0 tf) else -1.
(** The registers of [lseek], as syscall.c describes them: a 64-bit argument is
    in an aligned pair of registers, the more significant word first, and
    what no longer fits is on the stack. *)
Definition lseek_frame (fd unused pos : Z) (tf : trapframe) : trapframe :=
  Trapframe (tf_vaddr tf) (tf_status tf) (tf_cause tf) (tf_epc tf) 59 fd unused
            (u32 (Z.shiftr pos 32)) (u32 pos) (tf_others tf).

(** The child of a [fork] gets 0 only if the parent happened to have 0 in
    register a3 when it called: [enter_forked_process] clears a0 instead.
    Otherwise the child takes the 0 for an error number and [fork] returns -1
    to it, although the parent sees the child's pid. *)
Theorem fork_child_result tfa tf s tf' s' :
  enter_forked_process tfa tf s = Done (Resume tf', s') ->
  user_result tf' = (if tf_a3 tf =? 0 then 0 else -1)
  /\ forall pid, 0 <= pid < 2 ^ 31 -> user_result (answer 0 pid tf) = pid.
Proof.
  intros H. split.
  - revert H. unfold enter_forked_process, mips_usermode. intros H.
    apply bind_inv in H as (? & s1 & _ & H). apply bind_inv in H as (? & s2 & _ & H).
    apply bind_inv in H as (? & s3 & _ & H). apply bind_inv in H as (? & s4 & _ & H).
    apply bind_inv in H as (? & s5 & _ & H). apply bind_inv in H as (? & s6 & _ & H).
    injection H as <- _. done.
  - intros pid Hp. change (s32 (u32 pid) = pid). rewrite (uwrap_small 32) by lia. unfold swrap. rewrite Z.mod_small; lia.
Qed.
Lemma fork_child_result_witness :
  exists tf' s', enter_forked_process 0x80040010 (user_frame 0) in_user = Done (Resume tf', s')
    /\ user_result tf' = -1.
Proof.
  destruct (enter_forked_process 0x80040010 (user_frame 0) in_user) as [[[tf'|n] s']|f] eqn:E;
    try (vm_compute in E; discriminate E).
  exists tf', s'. split; [reflexivity|]. exact (proj1 (fork_child_result _ _ _ _ _ E)).
Defined.

(** [syscall] takes the offset of [lseek] from the register the convention
    leaves unused, and the mode from the upper half of the offset: for a file
    position below 4 GB the call is always [SEEK_SET] to an unrelated word. *)
Theorem lseek_reads_wrong_registers fd unused pos tf : 0 <= pos < 2 ^ 32 ->
  decode (lseek_frame fd unused pos tf) = Some (Lseek fd unused 0).
Proof.
  intros Hp. unfold decode, lseek_frame. cbn [tf_a0 tf_a1 tf_a2 tf_v0].
  rewrite Z.shiftr_div_pow2, Z.div_small by lia. reflexivity.
Qed.
Lemma lseek_reads_wrong_registers_witness :
  decode (lseek_frame 3 77 1024 (user_frame 0)) = Some (Lseek 3 77 0).
Proof. apply (lseek_reads_wrong_registers 3 77 1024 (user_frame 0)). lia. Defined.
