(* ===== verification/Mips.v ===== *)
(** The assembly code of the kernel (kern/arch/mips: locore/exception-mips1.S,
    thread/switch.S, thread/threadstart.S, thread/switchframe.c,
    vm/tlb-mips1.S; common/libc/arch/mips/setjmp.S)

    Each routine is the list of its instructions, run by an interpreter of the
    instructions used, with their delay slots.  A label is the index of the
    instruction behind it; a jump out of the routine ends the run. *)
From S2P Require Import Prelude Memory Kmalloc Dumbvm.

(** ** The machine *)
Definition reg := nat.
Definition zero : reg := 0%nat.
Definition AT : reg := 1%nat.
Definition v0 : reg := 2%nat.
Definition v1 : reg := 3%nat.
Definition a0 : reg := 4%nat.
Definition a1 : reg := 5%nat.
Definition a2 : reg := 6%nat.
Definition a3 : reg := 7%nat.
Definition t0 : reg := 8%nat.
Definition t1 : reg := 9%nat.
Definition t2 : reg := 10%nat.
Definition t3 : reg := 11%nat.
Definition t4 : reg := 12%nat.
Definition t5 : reg := 13%nat.
Definition t6 : reg := 14%nat.
Definition t7 : reg := 15%nat.
Definition s0 : reg := 16%nat.
Definition s1 : reg := 17%nat.
Definition s2 : reg := 18%nat.
Definition s3 : reg := 19%nat.
Definition s4 : reg := 20%nat.
Definition s5 : reg := 21%nat.
Definition s6 : reg := 22%nat.
Definition s7 : reg := 23%nat.
Definition t8 : reg := 24%nat.
Definition t9 : reg := 25%nat.
Definition k0 : reg := 26%nat.
Definition k1 : reg := 27%nat.
Definition gp : reg := 28%nat.
Definition sp : reg := 29%nat.
Definition s8 : reg := 30%nat.
Definition ra : reg := 31%nat.
(** Registers of coprocessor 0. *)
Definition c0_index : reg := 0%nat.
Definition c0_entrylo : reg := 2%nat.
Definition c0_context : reg := 4%nat.
Definition c0_vaddr : reg := 8%nat.
Definition c0_entryhi : reg := 10%nat.
Definition c0_status : reg := 12%nat.
Definition c0_cause : reg := 13%nat.
Definition c0_epc : reg := 14%nat.

Definition CIN_P : Z := 0x80000000.
Definition CIN_INDEX : Z := 0x3f00.
Definition CIN_INDEXSHIFT : Z := 8.
Definition CTX_PTBASESHIFT : Z := 21.
Definition CST_KUp : Z := 8.

(** Words of memory by their addresses. *)
Definition rd (m : Z -> Z) (a : Z) : Z := m a.
Definition wr (m : Z -> Z) (a v : Z) : Z -> Z := fun b => if b =? a then v else m b.

Record mach := Mach {
  regs : reg -> Z;
  hi : Z;
  lo : Z;
  cop0 : reg -> Z;
  mem : Z -> Z;
  tlb : Z -> Z * Z;
}.
Definition set (r : reg) (v : Z) (f : reg -> Z) : reg -> Z :=
  fun x => if (x =? r)%nat then v else f x.
(** Register 0 stays 0. *)
Definition set_reg (r : reg) (v : Z) (m : mach) : mach :=
  if (r =? 0)%nat then m else Mach (set r v (regs m)) (hi m) (lo m) (cop0 m) (mem m) (tlb m).
Definition set_cop0 (r : reg) (v : Z) (m : mach) : mach :=
  Mach (regs m) (hi m) (lo m) (set r v (cop0 m)) (mem m) (tlb m).
Definition set_mem (f : Z -> Z) (m : mach) : mach := Mach (regs m) (hi m) (lo m) (cop0 m) f (tlb m).
Definition set_tlb (f : Z -> Z * Z) (m : mach) : mach := Mach (regs m) (hi m) (lo m) (cop0 m) (mem m) f.

Inductive instr :=
  | Nop
  | Sw (r : reg) (off : Z) (b : reg)
  | Lw (r : reg) (off : Z) (b : reg)
  | Addi (d s : reg) (i : Z)
  | Addu (d s t : reg)
  | Move (d s : reg)
  | Li (d : reg) (i : Z)
  | Andi (d s : reg) (i : Z)
  | Sll (d s : reg) (n : Z)
  | Srl (d s : reg) (n : Z)
  | Sra (d s : reg) (n : Z)
  | Sltiu (d s : reg) (i : Z)
  | Mfhi (d : reg)
  | Mflo (d : reg)
  | Mthi (s : reg)
  | Mtlo (s : reg)
  | Mfc0 (d : reg) (c : reg)
  | Mtc0 (s : reg) (c : reg)
  | Rfe
  | Tlbwi
  | Tlbr
  | Tlbp
  | Beq (s t : reg) (target : nat)
  | Bne (s : reg) (i : Z) (target : nat)
  | Bgez (s : reg) (target : nat)
  | J (target : nat)
  | Leave.

(** The entry of the TLB that matches the page of [entryhi]. *)
Fixpoint find_tlb (k : nat) (i : Z) (tlb : Z -> Z * Z) (hi : Z) : option Z :=
  match k with
  | O => None
  | S k' =>
      if Z.land (tlb i).1 PAGE_FRAME =? Z.land hi PAGE_FRAME then Some i
      else find_tlb k' (i + 1) tlb hi
  end.
Definition index_of (m : mach) : Z := Z.shiftr (Z.land (cop0 m c0_index) CIN_INDEX) CIN_INDEXSHIFT.
(** [rfe] pops the stack of mode bits in the status register. *)
Definition pop_mode (st : Z) : Z := Z.lor (st - st mod 16) (Z.shiftr (st mod 64) 2).
(** An exception pushes kernel mode with interrupts off. *)
Definition push_mode (st : Z) : Z := st - st mod 64 + (4 * st) mod 64.

Definition exec (i : instr) (m : mach) : mach :=
  match i with
  | Sw r off b => set_mem (wr (mem m) (u32 (regs m b + off)) (regs m r)) m
  | Lw r off b => set_reg r (rd (mem m) (u32 (regs m b + off))) m
  | Addi d s i => set_reg d (u32 (regs m s + i)) m
  | Addu d s t => set_reg d (u32 (regs m s + regs m t)) m
  | Move d s => set_reg d (regs m s) m
  | Li d i => set_reg d i m
  | Andi d s i => set_reg d (Z.land (regs m s) i) m
  | Sll d s n => set_reg d (u32 (Z.shiftl (regs m s) n)) m
  | Srl d s n => set_reg d (Z.shiftr (regs m s) n) m
  | Sra d s n => set_reg d (u32 (Z.shiftr (s32 (regs m s)) n)) m
  | Sltiu d s i => set_reg d (if regs m s <? i then 1 else 0) m
  | Mfhi d => set_reg d (hi m) m
  | Mflo d => set_reg d (lo m) m
  | Mthi s => Mach (regs m) (regs m s) (lo m) (cop0 m) (mem m) (tlb m)
  | Mtlo s => Mach (regs m) (hi m) (regs m s) (cop0 m) (mem m) (tlb m)
  | Mfc0 d c => set_reg d (cop0 m c) m
  | Mtc0 s c => set_cop0 c (regs m s) m
  | Rfe => set_cop0 c0_status (pop_mode (cop0 m c0_status)) m
  | Tlbwi =>
      set_tlb (fun j => if j =? index_of m then (cop0 m c0_entryhi, cop0 m c0_entrylo) else tlb m j) m
  | Tlbr =>
      set_cop0 c0_entryhi (tlb m (index_of m)).1 (set_cop0 c0_entrylo (tlb m (index_of m)).2 m)
  | Tlbp =>
      set_cop0 c0_index
        match find_tlb NUM_TLB 0 (tlb m) (cop0 m c0_entryhi) with
        | Some i => Z.shiftl i CIN_INDEXSHIFT
        | None => CIN_P
        end m
  | _ => m
  end.
(** The instruction behind the delay slot of a jump that is taken; [end_]
    leaves the routine. *)
Definition target (end_ : nat) (i : instr) (m : mach) : option nat :=
  match i with
  | Beq s t l => if regs m s =? regs m t then Some l else None
  | Bne s i l => if regs m s =? i then None else Some l
  | Bgez s l => if s32 (regs m s) <? 0 then None else Some l
  | J l => Some l
  | Leave => Some end_
  | _ => None
  end.
Definition step (p : list instr) (st : nat * nat * mach) : nat * nat * mach :=
  let '(pc, npc, m) := st in
  match p !! pc with
  | None => st
  | Some i =>
      (npc, match target (length p) i m with Some l => l | None => S npc end, exec i m)
  end.
Fixpoint steps (n : nat) (p : list instr) (st : nat * nat * mach) : nat * nat * mach :=
  match n with O => st | S k => steps k p (step p st) end.
(** The machine when the routine has ended, within [n] instructions. *)
Definition run (n : nat) (p : list instr) (m : mach) : option mach :=
  let '(pc, _, m') := steps n p (0%nat, 1%nat, m) in
  if (length p <=? pc)%nat then Some m' else None.

(** ** Context switch *)
Definition switchframe_switch : list instr :=
  [Addi sp sp (-40);
   Sw ra 36 sp; Sw gp 32 sp; Sw s8 28 sp; Sw s6 24 sp; Sw s5 20 sp; Sw s4 16 sp;
   Sw s3 12 sp; Sw s2 8 sp; Sw s1 4 sp; Sw s0 0 sp;
   Sw sp 0 a0;
   Lw sp 0 a1; Nop;
   Lw s0 0 sp; Lw s1 4 sp; Lw s2 8 sp; Lw s3 12 sp; Lw s4 16 sp; Lw s5 20 sp; Lw s6 24 sp;
   Lw s8 28 sp; Lw gp 32 sp; Lw ra 36 sp; Nop;
   Leave (* j ra *); Addi sp sp 40].
Definition mips_threadstart : list instr :=
  [Addi sp sp (-16); Move ra zero; Move a0 s0; Move a1 s1; Leave (* j thread_startup *); Move a2 s2].
(** [switchframe_init]: the frame on top of a new stack; the result is the
    [t_context] of the thread.  [start] is the address of [mips_threadstart]. *)
Definition STACK_SIZE : Z := 4096.
Definition zero_words (sf : Z) (m : Z -> Z) : Z -> Z :=
  foldr (fun i m => wr m (sf + 4 * Z.of_nat i) 0) m (seq 0 10).
Definition switchframe_init (t_stack entrypoint data1 data2 start : Z) (m : Z -> Z) : (Z -> Z) * Z :=
  let stacktop := t_stack + STACK_SIZE in
  let sf := stacktop - 40 in
  let m := zero_words sf m in
  (wr (wr (wr (wr m sf entrypoint) (sf + 4) data1) (sf + 8) data2) (sf + 36) start, sf).

(** ** setjmp and longjmp *)
Definition setjmp : list instr :=
  [Sw sp 0 a0; Sw ra 4 a0; Sw s0 8 a0; Sw s1 12 a0; Sw s2 16 a0; Sw s3 20 a0; Sw s4 24 a0;
   Sw s5 28 a0; Sw s6 32 a0; Sw s7 36 a0; Sw s8 40 a0;
   Leave; Li v0 0].
Definition longjmp : list instr :=
  [Sltiu t0 a1 1; Addu a1 a1 t0;
   Lw sp 0 a0; Lw ra 4 a0; Lw s0 8 a0; Lw s1 12 a0; Lw s2 16 a0; Lw s3 20 a0; Lw s4 24 a0;
   Lw s5 28 a0; Lw s6 32 a0; Lw s7 36 a0; Lw s8 40 a0;
   Leave; Move v0 a1].

(** ** Exceptions *)

(** [lui] and [%lo] of an address. *)
Definition hi16 (a : Z) : Z := 0x10000 * ((a + 0x8000) / 0x10000).
Definition lo16 (a : Z) : Z := a - hi16 a.

(** [stacks] and [threads] are the addresses of [cpustacks] and [cputhreads],
    [gpval] is that of [_gp]. *)
Definition common_exception (stacks threads gpval : Z) : list instr :=
  [Mfc0 k0 c0_status; Andi k0 k0 CST_KUp; Beq k0 zero 12; Nop;
   Mfc0 k1 c0_context; Srl k1 k1 CTX_PTBASESHIFT; Sll k1 k1 2;
   Li k0 (hi16 stacks); Addu k0 k0 k1; Move k1 sp; J 13; Lw sp (lo16 stacks) k0;
   (* 1: *) Move k1 sp;
   (* 2: *) Addi sp sp (-168);
   Sw ra 160 sp; Sw s8 156 sp; Sw sp 152 sp; Sw gp 148 sp; Sw k1 144 sp; Sw k0 140 sp;
   Sw k1 152 sp; Nop; Mfc0 k1 c0_epc; Sw k1 160 sp;
   Sw t9 136 sp; Sw t8 132 sp; Sw s7 128 sp; Sw s6 124 sp; Sw s5 120 sp; Sw s4 116 sp; Sw s3 112 sp;
   Sw s2 108 sp; Sw s1 104 sp; Sw s0 100 sp; Sw t7 96 sp; Sw t6 92 sp; Sw t5 88 sp; Sw t4 84 sp;
   Sw t3 80 sp; Sw t2 76 sp; Sw t1 72 sp; Sw t0 68 sp; Sw a3 64 sp; Sw a2 60 sp; Sw a1 56 sp; Sw a0 52 sp;
   Sw v1 48 sp; Sw v0 44 sp; Sw AT 40 sp; Sw ra 36 sp;
   Mfhi t0; Mflo t1; Sw t0 32 sp; Sw t1 28 sp;
   Mfc0 t2 c0_status; Sw t2 20 sp; Mfc0 t3 c0_vaddr; Sw t3 16 sp; Mfc0 t4 c0_cause; Sw t4 24 sp;
   Sw zero 12 sp;
   Andi k0 t2 CST_KUp; Beq k0 zero 70; Nop;
   Mfc0 k1 c0_context; Srl k1 k1 CTX_PTBASESHIFT; Sll k1 k1 2;
   Li k0 (hi16 threads); Addu k0 k0 k1; Lw s7 (lo16 threads) k0;
   (* 3: *) Li gp gpval; Addi a0 sp 16; Leave (* jal mips_trap *); Nop].
Definition exception_return : list instr :=
  [Lw t0 20 sp; Nop; Mtc0 t0 c0_status; Lw t1 28 sp; Lw t0 32 sp; Mtlo t1; Mthi t0;
   Lw ra 36 sp; Lw AT 40 sp; Lw v0 44 sp; Lw v1 48 sp; Lw a0 52 sp; Lw a1 56 sp; Lw a2 60 sp; Lw a3 64 sp;
   Lw t0 68 sp; Lw t1 72 sp; Lw t2 76 sp; Lw t3 80 sp; Lw t4 84 sp; Lw t5 88 sp; Lw t6 92 sp; Lw t7 96 sp;
   Lw s0 100 sp; Lw s1 104 sp; Lw s2 108 sp; Lw s3 112 sp; Lw s4 116 sp; Lw s5 120 sp; Lw s6 124 sp;
   Lw s7 128 sp; Lw t8 132 sp; Lw t9 136 sp; Lw gp 148 sp; Lw s8 156 sp; Lw k0 160 sp; Lw sp 152 sp;
   Leave (* jr k0 *); Rfe].
(** [asm_usermode] goes on in [exception_return]. *)
Definition asm_usermode : list instr := [J 2; Addi sp a0 (-16)] ++ exception_return.


(** ** TLB *)
Definition tlb_write : list instr :=
  [Mtc0 a0 c0_entryhi; Mtc0 a1 c0_entrylo; Sll t0 a2 CIN_INDEXSHIFT; Mtc0 t0 c0_index; Nop; Nop; Tlbwi;
   Leave; Nop].
Definition tlb_read : list instr :=
  [Sll t0 a2 CIN_INDEXSHIFT; Mtc0 t0 c0_index; Nop; Nop; Tlbr; Nop; Nop; Nop;
   Mfc0 t0 c0_entryhi; Mfc0 t1 c0_entrylo; Sw t0 0 a0; Leave; Sw t1 0 a1].
Definition tlb_probe : list instr :=
  [Mtc0 a0 c0_entryhi; Mtc0 a1 c0_entrylo; Nop; Nop; Tlbp; Nop; Nop; Mfc0 t0 c0_index;
   Bgez t0 13; Nop; Addi v0 zero (-1); Leave; Nop;
   (* 1: *) Andi t1 t0 CIN_INDEX; Leave; Sra v0 t1 CIN_INDEXSHIFT].
Definition tlb_reset : list instr :=
  [Li t0 0; Li t1 0x81000000;
   (* 1: *) Mtc0 zero c0_entrylo; Mtc0 t1 c0_entryhi; Nop; Nop; Tlbp; Nop; Nop; Mfc0 t2 c0_index;
   Bgez t2 2; Addi t1 t1 0x1000; Mtc0 t0 c0_index; Addi t0 t0 0x100; Bne t0 0x4000 2; Tlbwi;
   Leave; Nop].

(** ** Running the routines *)
Lemma rd_wr_eq m a b v : b = a -> rd (wr m a v) b = v.
Proof. intros ->. unfold rd, wr. by rewrite Z.eqb_refl. Qed.
Lemma rd_wr_ne m a b v : b <> a -> rd (wr m a v) b = rd m b.
Proof. intros H. unfold rd, wr. by rewrite (proj2 (Z.eqb_neq _ _) H). Qed.
(** Evaluate the routine, and then its loads from its stores. *)
Ltac sym := cbv -[rd wr uwrap swrap Z.add Z.land Z.lor Z.shiftr Z.shiftl Z.eqb Z.ltb Z.lt Z.le Z.sub Z.mul not pop_mode hi16 lo16
  find_tlb NUM_TLB].
Ltac sym_part t :=
  let x := eval cbv -[rd wr uwrap swrap Z.add Z.land Z.lor Z.shiftr Z.shiftl Z.eqb Z.ltb Z.lt Z.le Z.sub Z.mul not
    pop_mode hi16 lo16 find_tlb NUM_TLB] in t in
  change t with x.
Ltac ea := repeat rewrite (uwrap_small 32) by lia.
Ltac loads := repeat first [rewrite rd_wr_eq by lia | rewrite rd_wr_ne by lia].

(** The registers a function has to keep for its caller, without s7. *)
Definition callee_saved : list reg := [s0; s1; s2; s3; s4; s5; s6; s8; gp; ra; sp].

(** The words of a switch frame at [f] and the registers they belong to. *)
Definition frame_words (f : Z) : list (Z * reg) :=
  [(f, s0); (f + 4, s1); (f + 8, s2); (f + 12, s3); (f + 16, s4); (f + 20, s5); (f + 24, s6);
   (f + 28, s8); (f + 32, gp); (f + 36, ra)].
Definition word (a : Z) : Prop := 0 <= a < 2 ^ 32 - 64.

Lemma steps_add a b p st : steps (a + b) p st = steps b p (steps a p st).
Proof. revert st. induction a as [|a IH]; intros st; [done|]. apply IH. Qed.

(** The first half: the frame below the stack pointer and the context are
    written, and nothing else. *)
Lemma switch_save m : let f := regs m sp - 40 in
  word f -> word (regs m sp) -> word (regs m a0) -> ~ (f - 4 < regs m a0 < f + 40) ->
  exists m', steps 12 switchframe_switch (0%nat, 1%nat, m) = (12%nat, 13%nat, m')
    /\ regs m' a1 = regs m a1
    /\ rd (mem m') (regs m a0) = f
    /\ Forall (fun '(a, r) => rd (mem m') a = regs m r) (frame_words f)
    /\ (forall a, a <> regs m a0 -> ~ (f <= a < f + 40) -> rd (mem m') a = rd (mem m) a).
Proof.
  intros f Hf Hsp Ha0 Hd. unfold word in *. subst f. destruct m as [r h l c me t].
  change (regs (Mach r h l c me t)) with r in *. unfold sp, a0 in Hf, Hsp, Ha0, Hd.
  assert (E : uwrap 32 (r 29%nat + -40) = r 29%nat - 40) by (rewrite uwrap_small; lia).
  eexists. split; [sym; reflexivity|]. split; [reflexivity|].
  split; [sym; rewrite E; ea; loads; lia|]. split.
  - unfold frame_words. repeat (apply Forall_cons; split); [..|by apply Forall_nil];
      sym; rewrite E; ea; loads; done.
  - intros a Hne Hfr. unfold a0 in Hne. unfold sp in Hfr. sym. rewrite E. ea. by loads.
Qed.
(** The second half: the frame of the other context is loaded. *)
Lemma switch_load m : word (regs m a1) ->
  exists m', steps 15 switchframe_switch (12%nat, 13%nat, m) = (27%nat, 28%nat, m') /\ mem m' = mem m
    /\ forall f, rd (mem m) (regs m a1) = f -> word f -> regs m' sp = f + 40
    /\ Forall (fun '(a, r) => regs m' r = rd (mem m) a) (frame_words f).
Proof.
  intros Ha1. unfold word in *. destruct m as [r h l c me t]. cbn [mem regs] in *.
  change (r a1) with (r 5%nat) in *.
  eexists. split; [sym; reflexivity|]. split; [reflexivity|]. intros f Ef Hf.
  assert (E : rd me (uwrap 32 (r 5%nat + 0)) = f) by (rewrite uwrap_small by lia; by rewrite Z.add_0_r).
  split; [sym; rewrite E; ea; lia|].
  unfold frame_words. repeat (apply Forall_cons; split); [..|by apply Forall_nil]; sym; rewrite E; ea;
    rewrite ?Z.add_0_r; done.
Qed.
Lemma switch_run m : let f := regs m sp - 40 in
  word f -> word (regs m sp) -> word (regs m a0) -> word (regs m a1) -> ~ (f - 4 < regs m a0 < f + 40) ->
  exists m', run 27 switchframe_switch m = Some m'
    /\ rd (mem m') (regs m a0) = f
    /\ Forall (fun '(a, r) => rd (mem m') a = regs m r) (frame_words f)
    /\ (forall a, a <> regs m a0 -> ~ (f <= a < f + 40) -> rd (mem m') a = rd (mem m) a)
    /\ forall f', rd (mem m') (regs m a1) = f' -> word f' ->
        regs m' sp = f' + 40 /\ Forall (fun '(a, r) => regs m' r = rd (mem m') a) (frame_words f').
Proof.
  intros f Hf Hsp Ha0 Ha1 Hd. destruct (switch_save m Hf Hsp Ha0 Hd) as (m1 & E1 & Er & Hctx & Hfr & Hk).
  rewrite <- Er in Ha1. destruct (switch_load m1 Ha1) as (m2 & E2 & Em & Hl).
  exists m2. rewrite Em, <- Er. split_and!; try done. unfold run. change 27%nat with (12 + 15)%nat at 1.
  by rewrite steps_add, E1, E2.
Qed.

(** C6: A thread that calls [switchframe_switch] and is switched back to from
    another stack, its frame and context untouched, goes on with its stack
    pointer, return address and saved registers as they were at the call. *)
Theorem switch_returns m m1 n : let f := regs m sp - 40 in let ctx := regs m a0 in
  let g := regs n sp - 40 in
  word f -> word (regs m sp) -> word ctx -> word (regs m a1) -> ~ (f - 4 < ctx < f + 40) ->
  run 27 switchframe_switch m = Some m1 ->
  word g -> word (regs n sp) -> word (regs n a0) -> ~ (g - 4 < regs n a0 < g + 40) ->
  regs n a1 = ctx ->
  (forall a, a = ctx \/ f <= a < f + 40 ->
     rd (mem n) a = rd (mem m1) a /\ a <> regs n a0 /\ ~ (g <= a < g + 40)) ->
  exists n', run 27 switchframe_switch n = Some n'
    /\ Forall (fun r => regs n' r = regs m r) callee_saved.
Proof.
  intros f ctx g Hf Hsp Hc Ha1 Hd E1 Hg Hgsp Hga0 Hgd Ea1 Hsame.
  destruct (switch_run m Hf Hsp Hc Ha1 Hd) as (m1' & E1' & Hctx & Hfr & _).
  rewrite E1 in E1'. injection E1' as <-.
  destruct (switch_run n Hg Hgsp Hga0 ltac:(by rewrite Ea1) Hgd) as (n' & E2 & _ & _ & Hk & Hl).
  exists n'. split; [done|].
  assert (Hold : forall a, a = ctx \/ f <= a < f + 40 -> rd (mem n') a = rd (mem m1) a).
  { intros a Ha. destruct (Hsame a Ha) as (<- & H1 & H2). by apply Hk. }
  rewrite Ea1 in Hl. destruct (Hl f) as [Hs Hr]; [rewrite Hold by (by left); exact Hctx|done|].
  unfold callee_saved. unfold frame_words in *.
  repeat match goal with
  | H : Forall _ (_ :: _) |- _ => apply Forall_cons in H as [? H]
  end.
  assert (Hw : forall a r, f <= a < f + 40 -> regs n' r = rd (mem n') a -> rd (mem m1) a = regs m r ->
    regs n' r = regs m r) by (intros a r Ha -> <-; apply Hold; by right).
  repeat (apply Forall_cons; split); [..|by apply Forall_nil]; try (eapply Hw; [|eassumption|eassumption]; lia).
  rewrite Hs. unfold f. lia.
Qed.

(** ** New threads *)
Lemma zero_words_out sf m a : ~ (sf <= a < sf + 40) -> rd (zero_words sf m) a = rd m a.
Proof. intros Ha. unfold zero_words. cbn [seq foldr]. by loads. Qed.
Lemma threadstart_run m : word (regs m sp - 16) -> regs m zero = 0 ->
  exists m', run 6 mips_threadstart m = Some m'
    /\ regs m' a0 = regs m s0 /\ regs m' a1 = regs m s1 /\ regs m' a2 = regs m s2
    /\ regs m' ra = 0 /\ regs m' sp = regs m sp - 16.
Proof.
  intros Hsp Hz. unfold word in *. destruct m as [r h l c me t]. cbn [regs] in *.
  unfold zero in Hz. unfold sp in Hsp.
  eexists. split; [sym; reflexivity|]. sym. by rewrite uwrap_small by lia.
Qed.
Lemma init_frame t_stack e d1 d2 start M :
  let '(M', sf) := switchframe_init t_stack e d1 d2 start M in
  sf = t_stack + 4056 /\ rd M' sf = e /\ rd M' (sf + 4) = d1 /\ rd M' (sf + 8) = d2
  /\ rd M' (sf + 36) = start /\ forall a, ~ (sf <= a < sf + 40) -> rd M' a = rd M a.
Proof.
  unfold switchframe_init, STACK_SIZE. cbn zeta. split; [lia|].
  split; [by loads|]. split; [by loads|]. split; [by loads|]. split; [by loads|]. intros a Ha. loads.
  by apply zero_words_out.
Qed.

(** Switching to a thread whose stack [switchframe_init] has prepared runs
    [mips_threadstart], which enters [thread_startup] with the entry point and
    its two arguments in the argument registers, on the new stack, with no
    return address. *)
Theorem new_thread_starts m t_stack e d1 d2 start M : let f := regs m sp - 40 in
  word f -> word (regs m sp) -> word (regs m a0) -> word (regs m a1) -> ~ (f - 4 < regs m a0 < f + 40) ->
  word t_stack -> word (t_stack + STACK_SIZE) -> regs m zero = 0 ->
  mem m = (switchframe_init t_stack e d1 d2 start M).1 ->
  rd (mem m) (regs m a1) = (switchframe_init t_stack e d1 d2 start M).2 ->
  (forall a, a = regs m a1 \/ t_stack <= a < t_stack + STACK_SIZE ->
     a <> regs m a0 /\ ~ (f <= a < f + 40)) ->
  exists m1 m2, run 27 switchframe_switch m = Some m1 /\ regs m1 ra = start
    /\ run 6 mips_threadstart m1 = Some m2
    /\ regs m2 a0 = e /\ regs m2 a1 = d1 /\ regs m2 a2 = d2
    /\ regs m2 ra = 0 /\ regs m2 sp = t_stack + STACK_SIZE - 16.
Proof.
  intros f Hf Hsp Ha0 Ha1 Hd Hst Htop Hz Em Ec Hdis.
  pose proof (init_frame t_stack e d1 d2 start M) as Hi.
  destruct (switchframe_init t_stack e d1 d2 start M) as [M' sf]. cbn [fst snd] in *.
  destruct Hi as (Esf & H0 & H1 & H2 & H9 & _). rewrite Em in Ec.
  destruct (switch_run m Hf Hsp Ha0 Ha1 Hd) as (m1 & E1 & _ & _ & Hk & Hl). rewrite Em in Hk.
  assert (Hkeep : forall a, a = regs m a1 \/ t_stack <= a < t_stack + STACK_SIZE -> rd (mem m1) a = rd M' a).
  { intros a Ha. destruct (Hdis a Ha). by apply Hk. }
  unfold STACK_SIZE, word in *.
  destruct (Hl sf) as [Hs Hr]; [rewrite Hkeep by auto; done|unfold word; lia|].
  assert (Ez : regs m1 zero = 0).
  { revert E1. destruct m as [r h l c me t]. unfold run. sym. intros [= <-]. exact Hz. }
  destruct (threadstart_run m1) as (m2 & E2 & F0 & F1 & F2 & F3 & F4); [unfold word; lia|done|].
  exists m1, m2. unfold frame_words in Hr.
  repeat match goal with H : Forall _ (_ :: _) |- _ => apply Forall_cons in H as [? H] end.
  assert (Hw : forall a r v, sf <= a < sf + 40 -> regs m1 r = rd (mem m1) a -> rd M' a = v -> regs m1 r = v)
    by (intros a r v Ha -> <-; apply Hkeep; right; lia).
  split; [done|]. split; [eapply Hw; [|eassumption|done]; lia|]. split; [done|].
  rewrite F0, F1, F2, F3, F4. split_and!; try done; try (eapply Hw; [|eassumption|done]; lia). lia.
Qed.

(** ** setjmp and longjmp *)
Definition jmp_words (b : Z) : list (Z * reg) :=
  [(b, sp); (b + 4, ra); (b + 8, s0); (b + 12, s1); (b + 16, s2); (b + 20, s3); (b + 24, s4);
   (b + 28, s5); (b + 32, s6); (b + 36, s7); (b + 40, s8)].
Lemma setjmp_run m : word (regs m a0) ->
  exists m', run 13 setjmp m = Some m' /\ regs m' v0 = 0
    /\ Forall (fun '(a, r) => rd (mem m') a = regs m r) (jmp_words (regs m a0)).
Proof.
  intros Ha0. unfold word in *. destruct m as [r h l c me t]. cbn [regs] in *. unfold a0 in *.
  eexists. split; [sym; reflexivity|]. split; [reflexivity|]. unfold jmp_words.
  repeat (apply Forall_cons; split); [..|by apply Forall_nil]; sym; ea; loads; done.
Qed.
Lemma longjmp_run m : word (regs m a0) -> word (regs m a1) ->
  exists m', run 15 longjmp m = Some m'
    /\ regs m' v0 = (if regs m a1 =? 0 then 1 else regs m a1)
    /\ Forall (fun '(a, r) => regs m' r = rd (mem m) a) (jmp_words (regs m a0)).
Proof.
  intros Ha0 Ha1. unfold word in *. destruct m as [r h l c me t]. cbn [regs mem] in *. unfold a0, a1 in *.
  eexists. split; [sym; reflexivity|]. split.
  - sym. destruct (Z.eqb_spec (r 5%nat) 0) as [E|E].
    + by rewrite E.
    + rewrite (proj2 (Z.ltb_ge (r 5%nat) 1)) by lia. rewrite uwrap_small; lia.
  - unfold jmp_words. repeat (apply Forall_cons; split); [..|by apply Forall_nil]; sym; ea; rewrite ?Z.add_0_r; done.
Qed.
(** [longjmp] with the buffer that [setjmp] filled returns from that call
    of [setjmp] once more: the stack pointer, the return address and the saved
    registers are those of the call, and the result is the code, but never 0. *)
Theorem longjmp_returns m m1 n : word (regs m a0) -> run 13 setjmp m = Some m1 ->
  regs n a0 = regs m a0 -> word (regs n a1) ->
  (forall a, regs m a0 <= a < regs m a0 + 44 -> rd (mem n) a = rd (mem m1) a) ->
  exists n', run 15 longjmp n = Some n'
    /\ regs n' v0 = (if regs n a1 =? 0 then 1 else regs n a1)
    /\ Forall (fun r => regs n' r = regs m r) [sp; ra; s0; s1; s2; s3; s4; s5; s6; s7; s8].
Proof.
  intros Hb E1 Ea Hc Hsame. destruct (setjmp_run m Hb) as (m1' & E1' & _ & Hs).
  rewrite E1 in E1'. injection E1' as <-.
  destruct (longjmp_run n) as (n' & E2 & Hv & Hl); [by rewrite Ea|done|]. rewrite Ea in Hl.
  exists n'. split; [done|]. split; [done|]. unfold jmp_words in *.
  repeat match goal with H : Forall _ (_ :: _) |- _ => apply Forall_cons in H as [? H] end.
  assert (Hw : forall a r, regs m a0 <= a < regs m a0 + 44 -> regs n' r = rd (mem n) a -> rd (mem m1) a = regs m r ->
    regs n' r = regs m r) by (intros a r Ha -> <-; by apply Hsame).
  repeat (apply Forall_cons; split); [..|by apply Forall_nil]; (eapply Hw; [|eassumption|eassumption]; lia).
Qed.

(** ** Exceptions *)
Section exceptions.
Context (stacks threads gpval : Z).
Let P := common_exception stacks threads gpval.

(** The general registers in the frame of an exception that starts at [b + 16],
    without k0, k1 and the stack pointer. *)
Definition trap_words (b : Z) : list (Z * reg) :=
  [(b + 36, ra); (b + 40, AT); (b + 44, v0); (b + 48, v1); (b + 52, a0); (b + 56, a1); (b + 60, a2);
   (b + 64, a3); (b + 68, t0); (b + 72, t1); (b + 76, t2); (b + 80, t3); (b + 84, t4); (b + 88, t5);
   (b + 92, t6); (b + 96, t7); (b + 100, s0); (b + 104, s1); (b + 108, s2); (b + 112, s3); (b + 116, s4);
   (b + 120, s5); (b + 124, s6); (b + 128, s7); (b + 132, t8); (b + 136, t9); (b + 148, gp); (b + 156, s8)].
Definition from_user (m : mach) : bool := negb (Z.land (cop0 m c0_status) CST_KUp =? 0).
Definition cpu_of (m : mach) : Z := Z.shiftr (cop0 m c0_context) CTX_PTBASESHIFT.

(** The registers and the frame at label 2 and before the test behind it. *)
Record saved (m m' : mach) (b : Z) : Prop := Saved {
  sv_regs : Forall (fun '(a, r) => rd (mem m') a = regs m r) (trap_words b);
  sv_sp : rd (mem m') (b + 152) = regs m k1;
  sv_epc : rd (mem m') (b + 160) = cop0 m c0_epc;
  sv_status : rd (mem m') (b + 20) = cop0 m c0_status;
  sv_vaddr : rd (mem m') (b + 16) = cop0 m c0_vaddr;
  sv_cause : rd (mem m') (b + 24) = cop0 m c0_cause;
  sv_lo : rd (mem m') (b + 28) = lo m;
  sv_hi : rd (mem m') (b + 32) = hi m;
  sv_frame : forall a, ~ (b + 12 <= a < b + 164) -> rd (mem m') a = rd (mem m) a;
}.
Lemma exception_save m b : regs m sp = b + 168 -> word b -> word (b + 168) ->
  exists m', steps 49 P (13%nat, 14%nat, m) = (62%nat, 63%nat, m') /\ regs m' sp = b
    /\ regs m' k0 = Z.land (cop0 m c0_status) CST_KUp /\ cop0 m' = cop0 m /\ regs m' zero = regs m zero
    /\ regs m' s7 = regs m s7 /\ saved m m' b.
Proof.
  intros Hsp Hb Hb'. unfold word in *. destruct m as [r h l c me t]. cbn [regs mem hi lo cop0] in *.
  unfold sp in Hsp.
  assert (E : uwrap 32 (r 29%nat + -168) = b) by (rewrite uwrap_small; lia).
  unfold P. eexists. split; [sym; reflexivity|]. split; [exact E|]. split; [reflexivity|].
  split; [reflexivity|]. split; [reflexivity|]. split; [reflexivity|]. cbn [mem]. split; cbn [mem regs hi lo cop0].
  - sym. rewrite E. ea. repeat (apply Forall_cons; split); [..|by apply Forall_nil]; by loads.
  - sym. rewrite E. ea. by loads.
  - sym. rewrite E. ea. by loads.
  - sym. rewrite E. ea. by loads.
  - sym. rewrite E. ea. by loads.
  - sym. rewrite E. ea. by loads.
  - sym. rewrite E. ea. by loads.
  - sym. rewrite E. ea. by loads.
  - intros a Ha. rewrite E. ea. by loads.
Qed.

Lemma hi_lo a i : word (a + i) -> u32 (u32 (hi16 a + u32 i) + lo16 a) = a + i.
Proof.
  intros H. unfold word, uwrap in *. rewrite Zplus_mod_idemp_l, <- Z.add_assoc, (Z.add_comm _ (lo16 a)),
    Z.add_assoc, Zplus_mod_idemp_r.
  replace (hi16 a + lo16 a + i) with (a + i) by (unfold lo16; lia). apply Z.mod_small. lia.
Qed.
(** The kernel stack: the current one, or that of the processor. *)
Definition kernel_sp (m : mach) : Z :=
  if from_user m then rd (mem m) (stacks + 4 * cpu_of m) else regs m sp.
Record at_two (m m' : mach) : Prop := At_two {
  a2_regs r : r <> k0 -> r <> k1 -> r <> sp -> regs m' r = regs m r;
  a2_sp : regs m' sp = kernel_sp m;
  a2_k1 : regs m' k1 = regs m sp;
  a2_mem : mem m' = mem m; a2_hi : hi m' = hi m; a2_lo : lo m' = lo m; a2_cop0 : cop0 m' = cop0 m;
}.
Definition to_two (m : mach) : nat := if from_user m then 12 else 5.
Lemma exception_enter m : word (stacks + 4 * cpu_of m) -> 0 <= cpu_of m -> regs m zero = 0 ->
  exists m', steps (to_two m) P (0%nat, 1%nat, m) = (13%nat, 14%nat, m') /\ at_two m m'.
Proof.
  intros Hw Hcpu Hz. unfold to_two, kernel_sp, cpu_of, from_user in *. destruct m as [r h l c me t].
  cbn [regs mem cop0] in *. unfold zero in Hz. unfold P.
  destruct (Z.eqb_spec (Z.land (c c0_status) CST_KUp) 0) as [E|E]; cbn [negb];
    unfold c0_status, CST_KUp, c0_context, CTX_PTBASESHIFT in *.
  - eexists. split.
    + change 5%nat with (3 + 2)%nat. rewrite steps_add.
      match goal with |- context [steps 3 ?p ?st] => sym_part (steps 3 p st) end.
      rewrite E, Hz, Z.eqb_refl. sym. reflexivity.
    + split; try reflexivity; [|cbn; unfold kernel_sp, from_user; cbn;
        unfold c0_status, CST_KUp; by rewrite E].
      intros x H0 H1 H2. cbn. unfold set, k0, k1 in *. by rewrite !(proj2 (Nat.eqb_neq _ _)).
  - eexists. split.
    + change 12%nat with (3 + 9)%nat. rewrite steps_add.
      match goal with |- context [steps 3 ?p ?st] => sym_part (steps 3 p st) end.
      rewrite Hz, (proj2 (Z.eqb_neq _ _) E). sym. reflexivity.
    + split; try reflexivity.
      * intros x H0 H1 H2. cbn. unfold set, k0, k1, sp in *. by rewrite !(proj2 (Nat.eqb_neq _ _)).
      * unfold kernel_sp, from_user, cpu_of. cbn. unfold c0_status, CST_KUp. rewrite (proj2 (Z.eqb_neq _ _) E).
        cbn [negb]. f_equal. change (Z.shiftr (c c0_context) CTX_PTBASESHIFT) with (Z.shiftr (c 4%nat) 21).
        rewrite Z.shiftl_mul_pow2, (Z.mul_comm _ (2 ^ 2)) by lia. by apply hi_lo.
Qed.

(** Behind the saved registers: the kernel's own s7, gp and argument. *)
Definition to_trap (m : mach) : nat := if from_user m then 12 else 6.
Lemma exception_call m : word (threads + 4 * cpu_of m) -> 0 <= cpu_of m -> regs m zero = 0 ->
  regs m k0 = Z.land (cop0 m c0_status) CST_KUp -> word (regs m sp) ->
  exists m', steps (to_trap m) P (62%nat, 63%nat, m) = (74%nat, 75%nat, m') /\ mem m' = mem m
    /\ regs m' sp = regs m sp /\ regs m' a0 = regs m sp + 16 /\ regs m' gp = gpval
    /\ regs m' s7 = (if from_user m then rd (mem m) (threads + 4 * cpu_of m) else regs m s7).
Proof.
  intros Hw Hcpu Hz Hk0 Hsp. unfold to_trap, cpu_of, from_user, word in *. destruct m as [r h l c me t].
  cbn [regs mem cop0] in *. unfold zero, k0, sp in Hz, Hk0, Hsp. unfold P.
  assert (Ea : uwrap 32 (r 29%nat + 16) = r 29%nat + 16) by (apply uwrap_small; lia).
  destruct (Z.eqb_spec (Z.land (c c0_status) CST_KUp) 0) as [E|E]; cbn [negb];
    unfold c0_status, CST_KUp, c0_context, CTX_PTBASESHIFT in *.
  - eexists. split.
    + change 6%nat with (1 + 5)%nat. rewrite steps_add.
      match goal with |- context [steps 1 ?p ?st] => sym_part (steps 1 p st) end.
      rewrite Hk0, E, Hz, Z.eqb_refl. sym. reflexivity.
    + split_and!; try reflexivity. exact Ea.
  - eexists. split.
    + change 12%nat with (1 + 11)%nat. rewrite steps_add.
      match goal with |- context [steps 1 ?p ?st] => sym_part (steps 1 p st) end.
      rewrite Hk0, Hz, (proj2 (Z.eqb_neq _ _) E). sym. reflexivity.
    + split_and!; try reflexivity; [exact Ea|]. cbn. f_equal.
      rewrite Z.shiftl_mul_pow2, (Z.mul_comm _ (2 ^ 2)) by lia. by apply hi_lo.
Qed.
Lemma exception_return_run m : word (regs m sp) -> word (regs m sp + 168) ->
  exists m', run 39 exception_return m = Some m'
    /\ Forall (fun '(a, r) => regs m' r = rd (mem m) a) (trap_words (regs m sp))
    /\ regs m' sp = rd (mem m) (regs m sp + 152) /\ regs m' k0 = rd (mem m) (regs m sp + 160)
    /\ cop0 m' c0_status = pop_mode (rd (mem m) (regs m sp + 20))
    /\ lo m' = rd (mem m) (regs m sp + 28) /\ hi m' = rd (mem m) (regs m sp + 32) /\ mem m' = mem m.
Proof.
  intros Hsp Hsp'. unfold word in *. destruct m as [r h l c me t]. cbn [regs mem] in *. unfold sp in *.
  eexists. split; [unfold run; sym; reflexivity|]. split.
  - sym. ea. repeat (apply Forall_cons; split); [..|by apply Forall_nil]; done.
  - sym. ea. done.
Qed.

Lemma pop_push_mode st : pop_mode (push_mode st) mod 16 = st mod 16.
Proof.
  unfold pop_mode. set (x := push_mode st).
  assert (Ex : x mod 64 = 4 * (st mod 16)).
  { unfold x, push_mode. Z.div_mod_to_equations. lia. }
  change 16 with (2 ^ 4). rewrite <- !Z.land_ones, Z.land_lor_distr_l by lia. rewrite !Z.land_ones by lia.
  rewrite Ex, Z.shiftr_div_pow2 by lia. change (2 ^ 4) with 16. change (2 ^ 2) with 4.
  rewrite (Z.mul_comm 4), Z.div_mul, Z.mod_mod by lia.
  replace ((x - x mod 16) mod 16) with 0 by (Z.div_mod_to_equations; lia). apply Z.lor_0_l.
Qed.
(** The general registers that an exception keeps. *)
Definition kept : list reg := sp :: map snd (trap_words 0).

(** C5: An exception, from user or kernel mode.  The code before [mips_trap]
    calls it on the kernel stack of the processor (the current one when it
    was in the kernel) with the address of the frame, the thread of the
    processor in s7 and the kernel's gp, and has written nothing but the
    frame.  If [mips_trap] leaves the frame alone, the code behind it puts
    back every register but k0 and k1, hi and lo, pops the mode that the
    exception pushed, and jumps to the interrupted instruction. *)
Theorem exception_transparent m : let b := kernel_sp m - 168 in
  word b -> word (b + 168) -> 0 <= cpu_of m -> regs m zero = 0 ->
  word (stacks + 4 * cpu_of m) -> word (threads + 4 * cpu_of m) ->
  ~ (b + 12 <= threads + 4 * cpu_of m < b + 164) ->
  exists m1, run (to_two m + 49 + to_trap m) P m = Some m1
    /\ regs m1 sp = b /\ regs m1 a0 = b + 16 /\ regs m1 gp = gpval
    /\ regs m1 s7 = (if from_user m then rd (mem m) (threads + 4 * cpu_of m) else regs m s7)
    /\ (forall a, ~ (b + 12 <= a < b + 164) -> rd (mem m1) a = rd (mem m) a)
    /\ rd (mem m1) (b + 16) = cop0 m c0_vaddr /\ rd (mem m1) (b + 24) = cop0 m c0_cause
    /\ forall n, regs n sp = b -> (forall a, b + 16 <= a < b + 164 -> rd (mem n) a = rd (mem m1) a) ->
       exists n', run 39 exception_return n = Some n'
         /\ Forall (fun r => regs n' r = regs m r) kept /\ hi n' = hi m /\ lo n' = lo m
         /\ regs n' k0 = cop0 m c0_epc
         /\ forall st, cop0 m c0_status = push_mode st -> cop0 n' c0_status mod 16 = st mod 16.
Proof.
  intros b Hb Hb' Hcpu Hz Hst Hth Hout.
  destruct (exception_enter m Hst Hcpu Hz) as (x & Ex & [Xr Xsp Xk1 Xm Xhi Xlo Xc]).
  destruct (exception_save x b) as (y & Ey & Ysp & Yk0 & Yc & Yz & Ys7 & [Sr Ssp Sepc Sst Sva Sca Slo Shi Sfr]);
    [rewrite Xsp; unfold b; lia|done|done|].
  assert (Huser : from_user y = from_user m) by (unfold from_user; by rewrite Yc, Xc).
  assert (Hcpuy : cpu_of y = cpu_of m) by (unfold cpu_of; by rewrite Yc, Xc).
  destruct (exception_call y) as (z & Ez & Zm & Zsp & Za0 & Zgp & Zs7);
    [by rewrite Hcpuy|by rewrite Hcpuy|rewrite Yz, (Xr zero) by done; done|by rewrite Yc|by rewrite Ysp|].
  exists z. rewrite Huser, Hcpuy in Zs7. rewrite Zm. rewrite Xc in *. rewrite Xhi in Shi. rewrite Xlo in Slo.
  split; [unfold run; rewrite !steps_add, Ex, Ey; by (replace (to_trap m) with (to_trap y)
    by (unfold to_trap; by rewrite Huser)); rewrite Ez|].
  split; [by rewrite Zsp|]. split; [by rewrite Za0, Ysp|]. split; [done|].
  split; [rewrite Zs7, Sfr, Xm, Ys7, (Xr s7) by done; done|].
  split; [intros a Ha; by rewrite Sfr, Xm|]. split; [done|]. split; [done|].
  intros n Hn Hmem. destruct (exception_return_run n) as (n' & En & Nr & Nsp & Nk0 & Nst & Nlo & Nhi & _);
    [by rewrite Hn|by rewrite Hn|]. rewrite Hn in *.
  exists n'. split; [done|]. rewrite Nlo, Nhi, Nk0, Nst, !Hmem by lia. rewrite Sepc, Sst, Slo, Shi.
  split; [|split_and!; [done|done|done|intros st ->; apply pop_push_mode]].
  assert (Hw : forall a r, b + 16 <= a < b + 164 -> r <> k0 -> r <> k1 -> r <> sp -> regs n' r = rd (mem n) a ->
    rd (mem y) a = regs x r -> regs n' r = regs m r).
  { intros a r Ha H1 H2 H3 -> E. rewrite Hmem, E by done. by apply Xr. }
  unfold kept. cbn [map trap_words snd].
  apply Forall_cons. split; [by rewrite Nsp, Hmem, Ssp, Xk1 by lia|].
  unfold trap_words in Nr, Sr.
  repeat match goal with H : Forall _ (_ :: _) |- _ => apply Forall_cons in H as [? H] end.
  repeat (apply Forall_cons; split); [..|by apply Forall_nil];
    (eapply Hw; [| | | |eassumption|eassumption]; [lia|done|done|done]).
Qed.
End exceptions.

(** ** The TLB routines *)

(** The page of the [k]th address that [tlb_reset] tries. *)
Definition try_page (k : Z) : Z := 0x81000000 + 0x1000 * k.
Definition page (e : Z * Z) : Z := Z.land e.1 PAGE_FRAME.
Lemma try_page_frame k : 0 <= k < 1000 -> Z.land (try_page k) PAGE_FRAME = try_page k.
Proof.
  intros Hk. apply land_aligned; unfold try_page; [lia|]. unfold PAGE_SIZE.
  replace (0x81000000 + 0x1000 * k) with ((0x81000 + k) * 4096) by lia. apply Z.mod_mul. lia.
Qed.
Lemma find_tlb_spec n i f h :
  match find_tlb n i f h with
  | Some j => i <= j < i + Z.of_nat n /\ page (f j) = Z.land h PAGE_FRAME
  | None => forall j, i <= j < i + Z.of_nat n -> page (f j) <> Z.land h PAGE_FRAME
  end.
Proof.
  revert i. induction n as [|n IH]; intros i; cbn [find_tlb]; [lia|].
  destruct (Z.eqb_spec (Z.land (f i).1 PAGE_FRAME) (Z.land h PAGE_FRAME)) as [E|E].
  - split; [lia|done].
  - specialize (IH (i + 1)). destruct (find_tlb n (i + 1) f h) as [j|].
    + destruct IH. split; [lia|done].
    + intros j Hj. destruct (decide (j = i)) as [->|Hne]; [done|]. apply IH. lia.
Qed.

(** The state at label 1, with entry [i] to be written and page [k] tried. *)
Definition at_loop (m : mach) (i k : Z) : Prop :=
  regs m t0 = 0x100 * i /\ regs m t1 = try_page k /\ regs m zero = 0.
Lemma reset_skip m i k : at_loop m i k -> 0 <= i < 64 -> 0 <= k < 500 ->
  is_Some (find_tlb NUM_TLB 0 (tlb m) (try_page k)) ->
  exists m', steps 10 tlb_reset (2%nat, 3%nat, m) = (2%nat, 3%nat, m') /\ at_loop m' i (k + 1) /\ tlb m' = tlb m.
Proof.
  intros (H0 & H1 & Hz) Hi Hk [j Hj]. pose proof (find_tlb_spec NUM_TLB 0 (tlb m) (try_page k)) as Hs.
  rewrite Hj in Hs. change (Z.of_nat NUM_TLB) with 64 in Hs. destruct Hs as [Hjr _].
  destruct m as [r h l c me t]. cbn [tlb] in *. unfold at_loop in *. cbn [regs] in *. unfold t0, t1, zero in *.
  eexists. split.
  - change 10%nat with (9 + 1)%nat. rewrite steps_add.
    match goal with |- context [steps 9 ?p ?st] => sym_part (steps 9 p st) end.
    rewrite H1, Hj. unfold swrap. rewrite Z.shiftl_mul_pow2 by lia.
    rewrite (proj2 (Z.ltb_ge _ _)); [sym; reflexivity|].
    change (2 ^ (32 - 1)) with 0x80000000. rewrite Z.mod_small; lia.
  - split; [|reflexivity]. sym. rewrite H1. split_and!; try done.
    unfold try_page in *. rewrite uwrap_small; lia.
Qed.
Lemma reset_write m i k : at_loop m i k -> 0 <= i < 64 -> 0 <= k < 500 ->
  find_tlb NUM_TLB 0 (tlb m) (try_page k) = None ->
  exists m', steps 14 tlb_reset (2%nat, 3%nat, m)
      = ((if i =? 63 then 16%nat else 2%nat), (if i =? 63 then 17%nat else 3%nat), m')
    /\ at_loop m' (i + 1) (k + 1)
    /\ forall j, tlb m' j = if j =? i then (try_page k, 0) else tlb m j.
Proof.
  intros (H0 & H1 & Hz) Hi Hk Hj.
  destruct m as [r h l c me t]. cbn [tlb] in *. unfold at_loop in *. cbn [regs] in *. unfold t0, t1, zero in *.
  assert (E0 : uwrap 32 (r 8%nat + 0x100) = 0x100 * (i + 1)) by (rewrite uwrap_small; lia).
  eexists. split.
  - change 14%nat with (9 + 5)%nat. rewrite steps_add.
    match goal with |- context [steps 9 ?p ?st] => sym_part (steps 9 p st) end.
    rewrite H1, Hj. change (s32 2147483648 <? 0) with true. cbv iota.
    change 5%nat with (4 + 1)%nat. rewrite steps_add.
    match goal with |- context [steps 4 ?p ?st] => sym_part (steps 4 p st) end.
    replace (uwrap 32 (r 8%nat + 256) =? 16384) with (i =? 63)
      by (rewrite E0; destruct (Z.eqb_spec i 63), (Z.eqb_spec (0x100 * (i + 1)) 16384); lia).
    destruct (i =? 63); sym; reflexivity.
  - split.
    + sym; rewrite E0, ?H1; (split_and!; [lia| |done]); unfold try_page; rewrite uwrap_small; lia.
    + intros j. assert (Ei : Z.shiftr (Z.land (r 8%nat) 16128) 8 = i).
      { rewrite H0. change 16128 with (Z.shiftl (Z.ones 6) 8).
        replace (0x100 * i) with (Z.shiftl i 8) by (rewrite Z.shiftl_mul_pow2; lia).
        rewrite <- Z.shiftl_land, Z.shiftr_shiftl_l, Z.land_ones by lia. cbn. apply Z.mod_small. lia. }
      sym. rewrite Ei, ?H1, ?Hz. reflexivity.
Qed.

(** The old entries that may still make [tlb_reset] skip an address. *)
Definition pending (f : Z -> Z * Z) (i k : Z) : list Z :=
  filter (fun j => i <= j /\ try_page k <= page (f j)) (seqZ 0 64).
Record reset_inv (m : mach) (i k : Z) : Prop := Reset_inv {
  ri_at : at_loop m i k;
  ri_bound : 0 <= i <= 64 /\ 0 <= k /\ k + Z.of_nat (length (pending (tlb m) i k)) <= i + 64;
  ri_done : forall j, 0 <= j < i -> exists n, 0 <= n < k /\ tlb m j = (try_page n, 0);
  ri_distinct : forall j j', 0 <= j < i -> 0 <= j' < i -> page (tlb m j) = page (tlb m j') -> j = j';
}.
Lemma filter_le (P Q : Z -> Prop) `{forall x, Decision (P x), forall x, Decision (Q x)} (l : list Z) :
  (forall x, Q x -> P x) -> (length (filter Q l) <= length (filter P l))%nat.
Proof.
  intros Hi. induction l as [|x l IH]; [done|]. rewrite !filter_cons.
  repeat case_decide; cbn; try lia. exfalso. naive_solver.
Qed.
Lemma filter_lt (P Q : Z -> Prop) `{forall x, Decision (P x), forall x, Decision (Q x)} (l : list Z) y :
  (forall x, Q x -> P x) -> y ∈ l -> P y -> ~ Q y -> (length (filter Q l) < length (filter P l))%nat.
Proof.
  intros Hi. induction l as [|x l IH]; intros Hy HP HQ; [by apply not_elem_of_nil in Hy|].
  rewrite !filter_cons. pose proof (filter_le P Q l Hi) as Hle.
  destruct (decide (x = y)) as [->|Hne].
  - rewrite (decide_False (P := Q y)), (decide_True (P := P y)) by done. cbn. lia.
  - apply elem_of_cons in Hy as [->|Hy]; [done|]. specialize (IH Hy HP HQ).
    repeat case_decide; cbn; try lia. exfalso. naive_solver.
Qed.
Lemma pending_skip f i k j : i <= j < 64 -> 0 <= i -> page (f j) = try_page k ->
  (length (pending f i (k + 1)) < length (pending f i k))%nat.
Proof.
  intros Hj Hi Hp. apply (filter_lt _ _ _ j).
  - intros x [H1 H2]. split; [done|]. unfold try_page in *. lia.
  - apply elem_of_seqZ. lia.
  - rewrite Hp. lia.
  - rewrite Hp. unfold try_page. lia.
Qed.
Lemma pending_write f g i k : (forall j, i < j -> g j = f j) ->
  (length (pending g (i + 1) (k + 1)) <= length (pending f i k))%nat.
Proof.
  intros H. apply filter_le. intros x [H1 H2]. rewrite (H x) in H2 by lia. split; [lia|].
  unfold try_page in *. lia.
Qed.

Lemma reset_loop n : forall m i k, reset_inv m i k -> 0 <= i < 64 ->
  (Z.to_nat (64 - i) + length (pending (tlb m) i k) <= n)%nat ->
  exists c m', (c <= 14 * Z.to_nat (64 - i) + 10 * length (pending (tlb m) i k))%nat
    /\ steps c tlb_reset (2%nat, 3%nat, m) = (16%nat, 17%nat, m') /\ exists k', reset_inv m' 64 k'.
Proof.
  induction n as [|n IH]; intros m i k Hi Hr Hn; [lia|].
  destruct Hi as [Hat (Hi1 & Hk & Hb) Hd Hx].
  assert (Hk5 : 0 <= k < 500) by lia.
  pose proof (find_tlb_spec NUM_TLB 0 (tlb m) (try_page k)) as Hf. change (Z.of_nat NUM_TLB) with 64 in Hf.
  rewrite try_page_frame in Hf by lia.
  destruct (find_tlb NUM_TLB 0 (tlb m) (try_page k)) as [j|] eqn:Ef.
  - destruct Hf as [Hj Hp].
    assert (Hij : i <= j).
    { destruct (decide (i <= j)); [done|]. destruct (Hd j) as (q & Hq & Eq); [lia|].
      unfold page in Hp. rewrite Eq in Hp. cbn in Hp. rewrite try_page_frame in Hp by lia. unfold try_page in Hp. lia. }
    destruct (reset_skip m i k Hat Hr Hk5) as (m1 & E1 & Hat1 & Et); [by rewrite Ef|].
    pose proof (pending_skip (tlb m) i k j ltac:(lia) ltac:(lia) Hp) as Hlt.
    destruct (IH m1 i (k + 1)) as (c & m' & Hc & E & Hfin).
    + split; rewrite ?Et; try done; [lia|]. intros j' Hj'. destruct (Hd j' Hj') as (q & Hq & Eq).
      exists q. split; [lia|done].
    + done.
    + rewrite Et. lia.
    + rewrite Et in Hc. exists (10 + c)%nat, m'. split; [lia|]. by rewrite steps_add, E1.
  - destruct (reset_write m i k Hat Hr Hk5 Ef) as (m1 & E1 & Hat1 & Et).
    pose proof (pending_write (tlb m) (tlb m1) i k) as Hle.
    assert (Hsame : forall j, j <> i -> tlb m1 j = tlb m j).
    { intros j Hj. rewrite Et. by rewrite (proj2 (Z.eqb_neq j i) Hj). }
    assert (Hself : tlb m1 i = (try_page k, 0)) by (rewrite Et; by rewrite Z.eqb_refl).
    specialize (Hle ltac:(intros j Hj; apply Hsame; lia)).
    assert (Hnew : reset_inv m1 (i + 1) (k + 1)).
    { assert (Hpk : page (try_page k, 0) = try_page k) by (unfold page; cbn; apply try_page_frame; lia).
      split; [done|lia| |].
      - intros j Hj. destruct (decide (j = i)) as [->|Hne]; [exists k; split; [lia|done]|].
        destruct (Hd j) as (q & Hq & Eq); [lia|]. exists q. rewrite Hsame by done. split; [lia|done].
      - intros j j' Hj Hj'.
        destruct (decide (j = i)) as [->|Hne], (decide (j' = i)) as [->|Hne']; [done| | |].
        + rewrite Hself, Hsame, Hpk by done. intros E. by destruct (Hf j'); [lia|].
        + rewrite Hself, Hsame, Hpk by done. intros E. by destruct (Hf j); [lia|].
        + rewrite !Hsame by done. apply Hx; lia. }
    destruct (Z.eqb_spec i 63) as [->|Hne].
    + exists 14%nat, m1. split; [lia|]. split; [done|]. by exists (k + 1).
    + destruct (IH m1 (i + 1) (k + 1) Hnew) as (c & m' & Hc & E & Hfin); [lia|lia|].
      exists (14 + c)%nat, m'. split; [lia|]. by rewrite steps_add, E1.
Qed.
Lemma steps_end n p pc npc m : (length p <= pc)%nat -> steps n p (pc, npc, m) = (pc, npc, m).
Proof.
  intros Hl. induction n as [|n IH]; [done|]. cbn [steps step]. by rewrite lookup_ge_None_2.
Qed.

(** C39: Whatever the TLB holds when the processor starts, [tlb_reset] ends, and
    then no two entries are for the same page and none is for a page that
    [TLBHI_INVALID] names, so that the invalid entries can be written without
    making duplicates. *)
Theorem tlb_reset_distinct m : regs m zero = 0 ->
  exists m', run 1540 tlb_reset m = Some m'
    /\ (forall i j, 0 <= i < 64 -> 0 <= j < 64 -> page (tlb m' i) = page (tlb m' j) -> i = j)
    /\ forall i e, 0 <= i < 64 -> 0 <= e < 64 -> page (tlb m' i) <> TLBHI_INVALID e /\ (tlb m' i).2 = 0.
Proof.
  intros Hz.
  assert (exists m1, steps 2 tlb_reset (0%nat, 1%nat, m) = (2%nat, 3%nat, m1) /\ at_loop m1 0 0) as (m1 & E1 & Hat).
  { destruct m as [r h l c me t]. eexists. split; [reflexivity|]. by split_and!. }
  assert (Hinv : reset_inv m1 0 0).
  { split; [done| |lia|lia].
    pose proof (length_filter (fun j => 0 <= j /\ try_page 0 <= page (tlb m1 j)) (seqZ 0 64)) as Hl.
    rewrite length_seqZ in Hl. unfold pending. lia. }
  assert (Hp : (length (pending (tlb m1) 0 0) <= 64)%nat) by (destruct Hinv as [_ H _ _]; lia).
  destruct (reset_loop 128 m1 0 0 Hinv) as (c & m' & Hc & E & k' & [_ Hb Hd Hx]); [lia|lia|].
  assert (exists m2, steps 2 tlb_reset (16%nat, 17%nat, m') = (18%nat, 19%nat, m2) /\ tlb m2 = tlb m')
    as (m2 & E2 & Et) by by eexists.
  exists m2. split.
  - unfold run. replace 1540%nat with (2 + (c + (2 + (1536 - c))))%nat by lia.
    rewrite !steps_add, E1, E, E2, steps_end by (cbn; lia). done.
  - rewrite Et. split; [done|]. intros i e Hi He. destruct (Hd i Hi) as (n & Hn & En). unfold page. rewrite En. cbn [fst snd].
    split; [|done]. rewrite try_page_frame by lia. unfold try_page, TLBHI_INVALID.
    rewrite Z.shiftl_mul_pow2 by lia. unfold uwrap. Z.div_mod_to_equations. lia.
Qed.
Lemma index_shift i : 0 <= i < 64 -> Z.shiftr (Z.land (uwrap 32 (Z.shiftl i 8)) 16128) 8 = i.
Proof.
  intros Hi. rewrite uwrap_small by (rewrite Z.shiftl_mul_pow2; lia). change 16128 with (Z.shiftl (Z.ones 6) 8).
  rewrite <- Z.shiftl_land, Z.shiftr_shiftl_l, Z.land_ones by lia. cbn. apply Z.mod_small. lia.
Qed.
Lemma tlb_write_run m i : regs m a2 = i -> 0 <= i < 64 ->
  exists m', run 9 tlb_write m = Some m'
    /\ (forall j, tlb m' j = if j =? i then (regs m a0, regs m a1) else tlb m j) /\ mem m' = mem m.
Proof.
  intros Ea Hi. destruct m as [r h l c me t]. cbn [regs tlb] in *. unfold a2 in Ea.
  eexists. split; [unfold run; sym; reflexivity|]. split; [|reflexivity]. intros j. sym.
  rewrite Ea, index_shift by done. reflexivity.
Qed.
Lemma tlb_read_run m i : regs m a2 = i -> 0 <= i < 64 -> word (regs m a0) -> word (regs m a1) ->
  regs m a0 <> regs m a1 ->
  exists m', run 13 tlb_read m = Some m' /\ tlb m' = tlb m
    /\ rd (mem m') (regs m a0) = (tlb m i).1 /\ rd (mem m') (regs m a1) = (tlb m i).2.
Proof.
  intros Ea Hi H0 H1 Hne. destruct m as [r h l c me t]. cbn [regs tlb] in *. unfold a0, a1, a2, word in *.
  eexists. split; [unfold run; sym; reflexivity|]. split; [reflexivity|].
  sym. rewrite Ea, index_shift by done. ea. by split; loads.
Qed.
Lemma tlb_probe_run m :
  regs m zero = 0 ->
  exists m', run 15 tlb_probe m = Some m' /\ tlb m' = tlb m
    /\ s32 (regs m' v0) = match find_tlb NUM_TLB 0 (tlb m) (regs m a0) with Some i => i | None => -1 end.
Proof.
  intros Hz. pose proof (find_tlb_spec NUM_TLB 0 (tlb m) (regs m a0)) as Hf. change (Z.of_nat NUM_TLB) with 64 in Hf.
  destruct m as [r h l c me t]. cbn [regs tlb] in *. unfold a0, zero in *.
  destruct (find_tlb NUM_TLB 0 t (r 4%nat)) as [i|] eqn:Ef.
  - destruct Hf as [Hi _]. eexists. split.
    + unfold run. change 15%nat with (9 + 6)%nat. rewrite steps_add.
      match goal with |- context [steps 9 ?p ?st] => sym_part (steps 9 p st) end.
      rewrite Ef. replace (swrap 32 (Z.shiftl i 8) <? 0) with false; [sym; reflexivity|].
      symmetry. apply Z.ltb_ge. unfold swrap. rewrite Z.shiftl_mul_pow2 by lia. change (2 ^ (32 - 1)) with 0x80000000.
      rewrite Z.mod_small; lia.
    + split; [reflexivity|]. sym. change 16128 with (Z.shiftl (Z.ones 6) 8). rewrite <- Z.shiftl_land, Z.land_ones by lia.
      rewrite (Z.mod_small i) by (change (2 ^ 6) with 64; lia). unfold swrap.
      rewrite Z.shiftl_mul_pow2 by lia. change (2 ^ (32 - 1)) with 0x80000000.
      rewrite (Z.mod_small (i * 2 ^ 8 + _)), Z.add_simpl_r, Z.shiftr_div_pow2, Z.div_mul by lia.
      unfold uwrap. rewrite (Z.mod_small i), Z.mod_small; lia.
  - eexists. split.
    + unfold run. change 15%nat with (9 + 6)%nat. rewrite steps_add.
      match goal with |- context [steps 9 ?p ?st] => sym_part (steps 9 p st) end.
      rewrite Ef. change (s32 2147483648 <? 0) with true. sym. reflexivity.
    + split; [reflexivity|]. sym. rewrite Hz. reflexivity.
Qed.

(** ** Witnesses *)

(** A thread on the stack at 0x80041000 with its context at 0x80050000 calls
    [switchframe_switch]; another one on the stack at 0x80042000 switches back. *)
Definition regs_of (l : list (reg * Z)) : reg -> Z :=
  foldr (fun p f => set p.1 p.2 f) (fun _ => 0) l.
Definition machine (l : list (reg * Z)) (M : Z -> Z) : mach :=
  Mach (regs_of l) 11 12 (fun _ => 0) M (fun _ => (0, 0)).
Definition first_call : mach :=
  machine [(sp, 0x80041000); (a0, 0x80050000); (a1, 0x80050004); (s0, 5); (s8, 6); (gp, 7); (ra, 8)] (fun _ => 0x80042800).
Definition second_call (M : Z -> Z) : mach :=
  machine [(sp, 0x80042800); (a0, 0x80050004); (a1, 0x80050000)] M.
Lemma switch_returns_witness :
  exists m1 n', run 27 switchframe_switch first_call = Some m1
    /\ run 27 switchframe_switch (second_call (mem m1)) = Some n'
    /\ regs n' sp = 0x80041000 /\ regs n' ra = 8 /\ regs n' s0 = 5.
Proof.
  destruct (run 27 switchframe_switch first_call) as [m1|] eqn:E1; [|vm_compute in E1; discriminate E1].
  assert (H1 : regs first_call sp = 0x80041000 /\ regs first_call a0 = 0x80050000 /\ regs first_call a1 = 0x80050004)
    by (split_and!; reflexivity).
  assert (H2 : regs (second_call (mem m1)) sp = 0x80042800 /\ regs (second_call (mem m1)) a0 = 0x80050004
    /\ regs (second_call (mem m1)) a1 = 0x80050000) by (split_and!; reflexivity).
  destruct H1 as (A1 & A2 & A3), H2 as (B1 & B2 & B3).
  destruct (switch_returns first_call m1 (second_call (mem m1))) as (n' & E2 & Hr);
    rewrite ?A1, ?A2, ?A3, ?B1, ?B2, ?B3; unfold word; try lia; [exact E1| |].
  - intros a Ha. split; [reflexivity|lia].
  - exists m1, n'. split; [reflexivity|]. split; [exact E2|].
    unfold callee_saved in Hr.
    repeat match goal with H : Forall _ (_ :: _) |- _ => apply Forall_cons in H as [? H] end.
    rewrite A1 in *. split; [assumption|]. split; assumption.
Defined.

(** The memory with a new stack at 0x80043000 and its context at 0x80050008. *)
Definition prepared : Z -> Z :=
  (switchframe_init 0x80043000 0x80010000 21 22 0x80009000 (fun _ => 0x80043fd8)).1.
Definition to_new : mach :=
  machine [(sp, 0x80041000); (a0, 0x80050000); (a1, 0x80050008)] prepared.
Lemma new_thread_starts_witness :
  exists m1 m2, run 27 switchframe_switch to_new = Some m1 /\ run 6 mips_threadstart m1 = Some m2
    /\ regs m2 a0 = 0x80010000 /\ regs m2 a1 = 21 /\ regs m2 sp = 0x80043ff0.
Proof.
  assert (A1 : regs to_new sp = 0x80041000) by reflexivity.
  assert (A2 : regs to_new a0 = 0x80050000) by reflexivity.
  assert (A3 : regs to_new a1 = 0x80050008) by reflexivity.
  destruct (new_thread_starts to_new 0x80043000 0x80010000 21 22 0x80009000 (fun _ => 0x80043fd8))
    as (m1 & m2 & E1 & _ & E2 & F0 & F1 & _ & _ & F4);
    rewrite ?A1, ?A2, ?A3; unfold word, STACK_SIZE; try lia; try reflexivity.
  exists m1, m2. split; [exact E1|]. split; [exact E2|]. split; [exact F0|]. split; [exact F1|exact F4].
Defined.

(** An exception in user mode on processor 1, with the stack of the processor
    at 0x80042000 and its thread at 0x80060000. *)
Definition user_regs : list (reg * Z) := [(sp, 0x7fffff00); (s7, 1); (t0, 2); (ra, 3); (v0, 5)].
Definition faulting : mach :=
  Mach (regs_of user_regs) 11 12
       (regs_of [(c0_status, push_mode 0xff03); (c0_context, Z.shiftl 1 21); (c0_epc, 0x400100);
                 (c0_cause, 8); (c0_vaddr, 0x1000)])
       (fun a => if a =? 0x80050004 then 0x80042000 else if a =? 0x80051004 then 0x80060000 else 0)
       (fun _ => (0, 0)).
Lemma exception_transparent_witness :
  exists m1 n', run (to_two faulting + 49 + to_trap faulting) (common_exception 0x80050000 0x80051000 99) faulting = Some m1
    /\ regs m1 s7 = 0x80060000 /\ run 39 exception_return m1 = Some n'
    /\ Forall (fun r => regs n' r = regs faulting r) kept /\ regs n' k0 = 0x400100.
Proof.
  assert (A1 : kernel_sp 0x80050000 faulting = 0x80042000) by reflexivity.
  assert (A2 : cpu_of faulting = 1) by reflexivity.
  destruct (exception_transparent 0x80050000 0x80051000 99 faulting) as (m1 & E1 & Hsp & _ & _ & Hs7 & _ & _ & _ & Hret);
    rewrite ?A1, ?A2; unfold word; try lia; try reflexivity.
  destruct (Hret m1 Hsp (fun _ _ => eq_refl)) as (n' & E2 & Hr & _ & _ & Hk & _).
  exists m1, n'. split; [exact E1|]. split; [exact Hs7|]. split; [exact E2|]. split; [exact Hr|exact Hk].
Defined.
Lemma longjmp_returns_witness :
  exists m1 n', run 13 setjmp first_call = Some m1
    /\ run 15 longjmp (machine [(a0, 0x80050000); (a1, 0)] (mem m1)) = Some n' /\ regs n' v0 = 1.
Proof.
  destruct (run 13 setjmp first_call) as [m1|] eqn:E1; [|vm_compute in E1; discriminate E1].
  assert (A : regs first_call a0 = 0x80050000) by reflexivity.
  assert (B : regs (machine [(a0, 0x80050000); (a1, 0)] (mem m1)) a1 = 0) by reflexivity.
  destruct (longjmp_returns first_call m1 (machine [(a0, 0x80050000); (a1, 0)] (mem m1))) as (n' & E2 & Hv & _).
  - rewrite A. unfold word. lia.
  - exact E1.
  - reflexivity.
  - rewrite B. unfold word. lia.
  - intros a _. reflexivity.
  - exists m1, n'. split; [reflexivity|]. split; [exact E2|exact Hv].
Defined.
Lemma tlb_reset_distinct_witness :
  exists m', run 1540 tlb_reset first_call = Some m' /\ page (tlb m' 0) <> page (tlb m' 1).
Proof.
  destruct (tlb_reset_distinct first_call eq_refl) as (m' & E & Hd & _).
  exists m'. split; [exact E|]. intros H. discriminate (Hd 0 1 ltac:(lia) ltac:(lia) H).
Defined.
