(* ===== verification/Vfs.v ===== *)
(** * kern/vfs: names, paths and the current directory

    vfslist.c (the table of devices and the locks), vfslookup.c (path names),
    vfspath.c (operations on paths), vfscwd.c (the current directory),
    device.c and devnull.c (vnodes of devices), and from vnode.c the counts of
    a vnode and [vnode_check].

    File systems and device drivers are given by their operations (the class
    [FsOps]).  The code runs in one thread: a lock that is held is held by it.
    A C string is the list of its characters.  [getdevice] overwrites the
    colon of the path it is given; its callers do not use the path again.
    The locks of a vnode are taken and given back inside one function around
    code that cannot block, and are left out, as are messages. *)
From S2P Require Import Prelude Memory CopyInOut Uio Stream.
Import Uio Stream.

Definition str := list Z.
Definition colon : Z := 58.
Definition slash : Z := 47.
Definition raw : str := [114; 97; 119].
Definition null_name : str := [110; 117; 108; 108].
Definition NAME_MAX : Z := 255.
Definition O_ACCMODE : Z := 3.
Definition O_RDONLY : Z := 0.
Definition O_WRONLY : Z := 1.
Definition O_RDWR : Z := 2.
Definition O_CREAT : Z := 4.
Definition O_EXCL : Z := 8.
Definition O_TRUNC : Z := 16.
Definition O_APPEND : Z := 32.
Definition S_IFDIR : Z := 8192.
Definition S_IFCHR : Z := 24576.
Definition S_IFBLK : Z := 28672.

(** ** State *)
Inductive vnode_ops : Set :=
  | dev_vnode_ops
  | fs_vnode_ops.
(** [vn_data] is kept for device vnodes, where it is the device. *)
Record vnode := Vnode {
  vn_refcount : Z;
  vn_opencount : Z;
  vn_fs : option Z;
  vn_data : option Z;
  vn_ops : vnode_ops;
}.
Definition set_refcount (n : Z) (x : vnode) : vnode :=
  Vnode n (vn_opencount x) (vn_fs x) (vn_data x) (vn_ops x).
Definition set_opencount (n : Z) (x : vnode) : vnode :=
  Vnode (vn_refcount x) n (vn_fs x) (vn_data x) (vn_ops x).
Record device := Device { d_blocks : Z; d_blocksize : Z; d_devnumber : Z }.
Record knowndev := Knowndev {
  kd_name : str;
  kd_rawname : option str;
  kd_device : option Z;
  kd_vnode : Z;
  kd_fs : option Z;
}.
Definition set_fs (fs : option Z) (kd : knowndev) : knowndev :=
  Knowndev (kd_name kd) (kd_rawname kd) (kd_device kd) (kd_vnode kd) fs.
(** [knowndevs_lock]: [None] before it is created, then whether it is held. *)
Record vst := Vst {
  vnodes : gmap Z vnode;
  devices : gmap Z device;
  knowndevs : list knowndev;
  knowndevs_lock : option bool;
  vfs_biglock_depth : Z;
  t_cwd : option Z;
  bootfs_vnode : option Z;
}.
Definition with_vnodes (m : gmap Z vnode) (s : vst) : vst :=
  Vst m (devices s) (knowndevs s) (knowndevs_lock s) (vfs_biglock_depth s) (t_cwd s) (bootfs_vnode s).
Definition with_devices (m : gmap Z device) (s : vst) : vst :=
  Vst (vnodes s) m (knowndevs s) (knowndevs_lock s) (vfs_biglock_depth s) (t_cwd s) (bootfs_vnode s).
Definition with_knowndevs (l : list knowndev) (s : vst) : vst :=
  Vst (vnodes s) (devices s) l (knowndevs_lock s) (vfs_biglock_depth s) (t_cwd s) (bootfs_vnode s).
Definition with_lock (b : option bool) (s : vst) : vst :=
  Vst (vnodes s) (devices s) (knowndevs s) b (vfs_biglock_depth s) (t_cwd s) (bootfs_vnode s).
Definition with_depth (n : Z) (s : vst) : vst :=
  Vst (vnodes s) (devices s) (knowndevs s) (knowndevs_lock s) n (t_cwd s) (bootfs_vnode s).
Definition with_cwd (v : option Z) (s : vst) : vst :=
  Vst (vnodes s) (devices s) (knowndevs s) (knowndevs_lock s) (vfs_biglock_depth s) v (bootfs_vnode s).
Definition with_bootfs (v : option Z) (s : vst) : vst :=
  Vst (vnodes s) (devices s) (knowndevs s) (knowndevs_lock s) (vfs_biglock_depth s) (t_cwd s) v.
(** The fields of [struct stat] that are ever set; the others are zero. *)
Record stat := Stat {
  st_size : Z; st_mode : Z; st_nlink : Z; st_blocks : Z;
  st_dev : Z; st_ino : Z; st_rdev : Z; st_blksize : Z;
}.

(** ** What file systems and drivers provide

    The functions of [struct fs], of the [struct vnode_ops] of a file system
    and of [struct device]. *)
Class FsOps := {
  fs_sync : Z -> M vst Z;
  fs_getvolname : Z -> option str;
  fs_getroot : Z -> M vst Z;
  fs_unmount : Z -> M vst Z;
  vop_open : Z -> Z -> M vst Z;
  vop_close : Z -> M vst Z;
  vop_reclaim : Z -> M vst Z;
  vop_read : Z -> sio -> M vst (Z * sio);
  vop_readlink : Z -> sio -> M vst (Z * sio);
  vop_getdirentry : Z -> sio -> M vst (Z * sio);
  vop_write : Z -> sio -> M vst (Z * sio);
  vop_stat : Z -> M vst (result stat);
  vop_gettype : Z -> M vst (result Z);
  vop_tryseek : Z -> Z -> M vst Z;
  vop_truncate : Z -> Z -> M vst Z;
  vop_namefile : Z -> sio -> M vst (Z * sio);
  vop_creat : Z -> str -> bool -> Z -> M vst (result Z);
  vop_symlink : Z -> str -> str -> M vst Z;
  vop_mkdir : Z -> str -> Z -> M vst Z;
  vop_link : Z -> str -> Z -> M vst Z;
  vop_remove : Z -> str -> M vst Z;
  vop_rmdir : Z -> str -> M vst Z;
  vop_rename : Z -> str -> Z -> str -> M vst Z;
  vop_lookup : Z -> str -> M vst (result Z);
  vop_lookparent : Z -> str -> Z -> M vst (result (Z * str));
  d_open : Z -> Z -> M vst Z;
  d_close : Z -> M vst Z;
  d_io : Z -> sio -> M vst (Z * sio);
}.

Definition get_vnode (v : Z) : M vst vnode :=
  s ← mget; match vnodes s !! v with Some x => mret x | None => mstop BadAccess end.
Definition put_vnode (v : Z) (x : vnode) : M vst unit :=
  mmodify (fun s => with_vnodes (<[v := x]> (vnodes s)) s).
Definition get_device (d : Z) : M vst device :=
  s ← mget; match devices s !! d with Some x => mret x | None => mstop BadAccess end.

(** ** Locks *)

(** [lock_acquire(knowndevs_lock)] and [lock_release(knowndevs_lock)] *)
Definition lock_knowndevs : M vst unit :=
  l ← mgets knowndevs_lock;
  match l with
  | Some false => mmodify (with_lock (Some true))
  | _ => mstop KAssertFail
  end.
Definition unlock_knowndevs : M vst unit :=
  l ← mgets knowndevs_lock;
  match l with
  | Some _ => mmodify (with_lock (Some false))
  | None => mstop KAssertFail
  end.
Definition vfs_biglock_acquire : M vst unit :=
  mmodify (fun s => with_depth (vfs_biglock_depth s + 1) s).
Definition vfs_biglock_release : M vst unit :=
  d ← mgets vfs_biglock_depth;
  _ ← kassert (d >? 0);
  mmodify (with_depth (d - 1)).
Definition vfs_biglock_do_i_hold : M vst bool := d ← mgets vfs_biglock_depth; mret (d >? 0).

(** ** Vnode operations *)
Definition vnode_check (v : Z) (reclaim : bool) : M vst unit :=
  x ← get_vnode v;
  if vn_refcount x <? 0 then mstop KPanic
  else if (vn_refcount x =? 0) && negb reclaim then mstop KPanic
  else if vn_opencount x <? 0 then mstop KPanic
  else mret tt.
Definition vnode_incref (v : Z) : M vst unit :=
  x ← get_vnode v;
  put_vnode v (set_refcount (vn_refcount x + 1) x).
Definition vnode_incopen (v : Z) : M vst unit :=
  x ← get_vnode v;
  put_vnode v (set_opencount (vn_opencount x + 1) x).

Section vfs.
Context `{FS : FsOps}.

(** *** Vnodes of devices *)

(** [v->vn_data] *)
Definition dev_of (v : Z) : M vst Z := x ← get_vnode v; deref (vn_data x).
Definition dev_open (v flags : Z) : M vst Z :=
  if negb (Z.land flags (Z.lor (Z.lor (Z.lor O_CREAT O_TRUNC) O_EXCL) O_APPEND) =? 0) then mret EINVAL
  else d ← dev_of v; d_open d flags.
Definition dev_close (v : Z) : M vst Z := d ← dev_of v; d_close d.
Definition dev_reclaim (v : Z) : M vst Z := mret 0.
Definition dev_read (v : Z) (u : sio) : M vst (Z * sio) :=
  d ← dev_of v;
  _ ← kassert (match u_rw u with UIO_READ => true | UIO_WRITE => false end);
  d_io d u.
Definition null_io (v : Z) (u : sio) : M vst (Z * sio) := mret (EINVAL, u).
Definition dev_write (v : Z) (u : sio) : M vst (Z * sio) :=
  d ← dev_of v;
  _ ← kassert (match u_rw u with UIO_READ => false | UIO_WRITE => true end);
  d_io d u.
Definition dev_gettype (v : Z) : M vst (result Z) :=
  d ← dev_of v;
  x ← get_device d;
  mret (Ok (if d_blocks x >? 0 then S_IFBLK else S_IFCHR)).
(** [blkcnt_t] and [blksize_t] are 32-bit: the product wraps. *)
Definition dev_stat (v : Z) : M vst (result stat) :=
  d ← dev_of v;
  x ← get_device d;
  let size := if d_blocks x >? 0 then u32 (d_blocks x * d_blocksize x) else 0 in
  let blk := if d_blocks x >? 0 then d_blocksize x else 0 in
  _ ← vnode_check v false;
  m ←? dev_gettype v;
  mret (Ok (Stat size (Z.lor m 384) 1 (d_blocks x) 0 0 (d_devnumber x) blk)).
(** [pos] is a signed 64-bit value, and so is the block size in its company. *)
Definition dev_tryseek (v pos : Z) : M vst Z :=
  d ← dev_of v;
  x ← get_device d;
  if d_blocks x >? 0 then
    if d_blocksize x =? 0 then mstop DivZero
    else if negb (Z.rem pos (d_blocksize x) =? 0) then mret EINVAL
    else if pos <? 0 then mret EINVAL
    else if Z.quot pos (d_blocksize x) >=? d_blocks x then mret EINVAL
    else mret 0
  else mret ESPIPE.
Definition dev_truncate (v len : Z) : M vst Z :=
  d ← dev_of v;
  x ← get_device d;
  mret (if (d_blocks x >? 0) && (u32 (d_blocks x * d_blocksize x) =? len) then 0 else EINVAL).
Definition dev_namefile (v : Z) (u : sio) : M vst (Z * sio) := mret (0, u).
Definition null_creat (v : Z) (name : str) (excl : bool) (mode : Z) : M vst (result Z) := mret (Err ENOTDIR).
Definition null_mkdir (v : Z) (name : str) (mode : Z) : M vst Z := mret ENOTDIR.
Definition null_symlink (v : Z) (contents name : str) : M vst Z := mret ENOTDIR.
Definition null_nameop (v : Z) (name : str) : M vst Z := mret ENOTDIR.
Definition null_link (v : Z) (name : str) (file : Z) : M vst Z := mret ENOTDIR.
Definition null_rename (v : Z) (n1 : str) (v2 : Z) (n2 : str) : M vst Z := mret ENOTDIR.
Definition dev_lookup (dir : Z) (pathname : str) : M vst (result Z) :=
  if bool_decide (pathname <> []) then mret (Err ENOENT)
  else _ ← vnode_incref dir; mret (Ok dir).
Definition dev_lookparent (dir : Z) (pathname : str) (buflen : Z) : M vst (result (Z * str)) :=
  mret (Err ENOTDIR).

(** *** The VOP macros: [vnode_check] and the call through [vn_ops] *)
Definition vop {A} (v : Z) (reclaim : bool) (dev fs : M vst A) : M vst A :=
  _ ← vnode_check v reclaim;
  x ← get_vnode v;
  match vn_ops x with dev_vnode_ops => dev | fs_vnode_ops => fs end.
Definition VOP_OPEN (v flags : Z) : M vst Z := vop v false (dev_open v flags) (vop_open v flags).
Definition VOP_CLOSE (v : Z) : M vst Z := vop v false (dev_close v) (vop_close v).
Definition VOP_RECLAIM (v : Z) : M vst Z := vop v true (dev_reclaim v) (vop_reclaim v).
Definition VOP_READ (v : Z) (u : sio) : M vst (Z * sio) := vop v false (dev_read v u) (vop_read v u).
Definition VOP_READLINK (v : Z) (u : sio) : M vst (Z * sio) := vop v false (null_io v u) (vop_readlink v u).
Definition VOP_GETDIRENTRY (v : Z) (u : sio) : M vst (Z * sio) := vop v false (null_io v u) (vop_getdirentry v u).
Definition VOP_WRITE (v : Z) (u : sio) : M vst (Z * sio) := vop v false (dev_write v u) (vop_write v u).
Definition VOP_STAT (v : Z) : M vst (result stat) := vop v false (dev_stat v) (vop_stat v).
Definition VOP_GETTYPE (v : Z) : M vst (result Z) := vop v false (dev_gettype v) (vop_gettype v).
Definition VOP_TRYSEEK (v pos : Z) : M vst Z := vop v false (dev_tryseek v pos) (vop_tryseek v pos).
Definition VOP_TRUNCATE (v len : Z) : M vst Z := vop v false (dev_truncate v len) (vop_truncate v len).
Definition VOP_NAMEFILE (v : Z) (u : sio) : M vst (Z * sio) := vop v false (dev_namefile v u) (vop_namefile v u).
Definition VOP_CREAT (v : Z) (nm : str) (excl : bool) (mode : Z) : M vst (result Z) :=
  vop v false (null_creat v nm excl mode) (vop_creat v nm excl mode).
(** The macro passes its arguments on in the order it is given them. *)
Definition VOP_SYMLINK (v : Z) (name content : str) : M vst Z :=
  vop v false (null_symlink v name content) (vop_symlink v name content).
Definition VOP_MKDIR (v : Z) (name : str) (mode : Z) : M vst Z :=
  vop v false (null_mkdir v name mode) (vop_mkdir v name mode).
Definition VOP_LINK (v : Z) (name : str) (v2 : Z) : M vst Z :=
  vop v false (null_link v name v2) (vop_link v name v2).
Definition VOP_REMOVE (v : Z) (name : str) : M vst Z := vop v false (null_nameop v name) (vop_remove v name).
Definition VOP_RMDIR (v : Z) (name : str) : M vst Z := vop v false (null_nameop v name) (vop_rmdir v name).
Definition VOP_RENAME (v1 : Z) (n1 : str) (v2 : Z) (n2 : str) : M vst Z :=
  vop v1 false (null_rename v1 n1 v2 n2) (vop_rename v1 n1 v2 n2).
Definition VOP_LOOKUP (v : Z) (name : str) : M vst (result Z) :=
  vop v false (dev_lookup v name) (vop_lookup v name).
Definition VOP_LOOKPARENT (v : Z) (name : str) (buflen : Z) : M vst (result (Z * str)) :=
  vop v false (dev_lookparent v name buflen) (vop_lookparent v name buflen).

(** *** The counts that can end a vnode *)
Definition vnode_decref (v : Z) : M vst unit :=
  x ← get_vnode v;
  _ ← kassert (vn_refcount x >? 0);
  if vn_refcount x >? 1 then put_vnode v (set_refcount (vn_refcount x - 1) x)
  else _ ← VOP_RECLAIM v; mret tt.
Definition vnode_decopen (v : Z) : M vst unit :=
  x ← get_vnode v;
  _ ← kassert (vn_opencount x >? 0);
  _ ← put_vnode v (set_opencount (vn_opencount x - 1) x);
  if vn_opencount x - 1 >? 0 then mret tt else _ ← VOP_CLOSE v; mret tt.

(** ** vfslist.c: the table of devices *)
Definition samestring (a b : option str) : bool :=
  match a, b with Some x, Some y => bool_decide (x = y) | _, _ => false end.
Definition samestring3 (a b c d : option str) : bool := samestring a b || samestring a c || samestring a d.
Definition volname_of (kd : knowndev) : option str := kd_fs kd ≫= fs_getvolname.
Fixpoint badnames (n1 n2 n3 : option str) (l : list knowndev) : bool :=
  match l with
  | [] => false
  | kd :: r =>
      samestring3 (volname_of kd) n1 n2 n3
      || (samestring3 (kd_rawname kd) n1 n2 n3 || samestring3 (Some (kd_name kd)) n1 n2 n3)
      || badnames n1 n2 n3 r
  end.
Definition mkrawname (name : str) : str := name ++ raw.

(** The loop of [vfs_getroot]; [None] when no device has the name. *)
Fixpoint getroot_loop (devname : str) (l : list knowndev) : M vst (option (result Z)) :=
  match l with
  | [] => mret None
  | kd :: r =>
      let named := bool_decide (kd_name kd = devname) in
      let rest :=
        if named then
          _ ← kassert (bool_decide (kd_fs kd = None));
          _ ← kassert (bool_decide (kd_rawname kd = None));
          _ ← kassert (bool_decide (kd_device kd <> None));
          _ ← vnode_incref (kd_vnode kd);
          mret (Some (Ok (kd_vnode kd)))
        else if samestring (kd_rawname kd) (Some devname) then
          _ ← kassert (bool_decide (kd_device kd <> None));
          _ ← vnode_incref (kd_vnode kd);
          mret (Some (Ok (kd_vnode kd)))
        else getroot_loop devname r in
      match kd_fs kd with
      | Some fs =>
          if named || samestring (fs_getvolname fs) (Some devname) then
            v ← fs_getroot fs; mret (Some (Ok v))
          else rest
      | None =>
          if bool_decide (kd_rawname kd <> None) && named then mret (Some (Err ENXIO))
          else rest
      end
  end.
(** Every return after the lock is taken gives it back. *)
Definition with_table {A} (m : M vst A) : M vst A :=
  _ ← lock_knowndevs; a ← m; _ ← unlock_knowndevs; mret a.
Definition vfs_getroot (devname : str) : M vst (result Z) :=
  with_table (
    l ← mgets knowndevs;
    o ← getroot_loop devname l;
    mret (match o with Some r => r | None => Err ENODEV end)).
Fixpoint getdevname_loop (fs : Z) (l : list knowndev) : option str :=
  match l with
  | [] => None
  | kd :: r => if bool_decide (kd_fs kd = Some fs) then Some (kd_name kd) else getdevname_loop fs r
  end.
Definition vfs_getdevname (fs : Z) : M vst (option str) :=
  with_table (l ← mgets knowndevs; mret (getdevname_loop fs l)).

(** [knowndevarray_get] *)
Definition get_kd (i : nat) : M vst knowndev :=
  l ← mgets knowndevs; match l !! i with Some kd => mret kd | None => mstop KAssertFail end.
Definition set_kd_fs (i : nat) (fs : option Z) : M vst unit :=
  mmodify (fun s => with_knowndevs (alter (set_fs fs) i (knowndevs s)) s).
Fixpoint sync_loop (n i : nat) : M vst unit :=
  match n with
  | O => mret tt
  | S n' =>
      kd ← get_kd i;
      _ ← (match kd_fs kd with Some fs => _ ← fs_sync fs; mret tt | None => mret tt end);
      sync_loop n' (S i)
  end.
Definition vfs_sync : M vst Z :=
  with_table (l ← mgets knowndevs; _ ← sync_loop (length l) 0; mret 0).

(** [dev_create_vnode]: [ok] is the outcome of its allocation, [locks] that of
    [vnode_init], and [v] the address of the vnode. *)
Definition dev_create_vnode (ok locks : bool) (v : Z) (dev : option Z) : M vst bool :=
  if negb ok then mret false
  else if negb locks then mstop KPanic
  else _ ← put_vnode v (Vnode 1 0 None dev dev_vnode_ops); mret true.
(** Which allocations of [vfs_doadd] succeed: the lock, the name, the raw name,
    the vnode, its locks, the [struct knowndev], the growth of the array. *)
Record allocs := Allocs {
  al_lock : bool; al_name : bool; al_raw : bool; al_vnode : bool;
  al_vlocks : bool; al_kd : bool; al_array : bool;
}.
Definition vfs_doadd (mem : allocs) (vn : Z) (dname : str) (mountable : bool) (dev fs : option Z) : M vst Z :=
  _ ← (if al_lock mem then mmodify (with_lock (Some false)) else mstop KPanic);
  _ ← lock_knowndevs;
  if negb (al_name mem) || (mountable && negb (al_raw mem)) then
    _ ← unlock_knowndevs; mret ENOMEM
  else
    let rawname := if mountable then Some (mkrawname dname) else None in
    b ← dev_create_vnode (al_vnode mem) (al_vlocks mem) vn dev;
    if negb b then _ ← unlock_knowndevs; mret ENOMEM
    else if negb (al_kd mem) then
      _ ← mmodify (fun s => with_vnodes (delete vn (vnodes s)) s);
      _ ← unlock_knowndevs; mret ENOMEM
    else
      l ← mgets knowndevs;
      if badnames (Some dname) rawname (fs ≫= fs_getvolname) l then
        _ ← vfs_biglock_release; mret EEXIST
      else if negb (al_array mem) then
        _ ← unlock_knowndevs; mret ENOMEM
      else
        _ ← mmodify (with_knowndevs (l ++ [Knowndev dname rawname dev vn fs]));
        _ ← (match dev with
             | Some d =>
                 x ← get_device d;
                 mmodify (fun s => with_devices
                   (<[d := Device (d_blocks x) (d_blocksize x) (u32 (Z.of_nat (length l) + 1))]> (devices s)) s)
             | None => mret tt
             end);
        _ ← unlock_knowndevs; mret 0.
Definition vfs_adddev (mem : allocs) (vn : Z) (devname : str) (dev : Z) (mountable : bool) : M vst Z :=
  vfs_doadd mem vn devname mountable (Some dev) None.
Definition vfs_addfs (mem : allocs) (vn : Z) (devname : str) (fs : Z) : M vst Z :=
  vfs_doadd mem vn devname false None (Some fs).

(** The index of the mountable device of that name. *)
Fixpoint findmount (devname : str) (i : nat) (l : list knowndev) : option nat :=
  match l with
  | [] => None
  | kd :: r =>
      if bool_decide (kd_rawname kd = None) then findmount devname (S i) r
      else if bool_decide (devname = kd_name kd) then Some i
      else findmount devname (S i) r
  end.
Definition vfs_mount (mountfunc : Z -> M vst (result Z)) (devname : str) : M vst Z :=
  with_table (
    l ← mgets knowndevs;
    match findmount devname 0 l with
    | None => mret ENODEV
    | Some i =>
        kd ← get_kd i;
        if bool_decide (kd_fs kd <> None) then mret EBUSY
        else
          _ ← kassert (bool_decide (kd_rawname kd <> None));
          match kd_device kd with
          | None => mstop KAssertFail
          | Some d =>
              r ← mountfunc d;
              match r with
              | Err e => mret e
              | Ok fs => _ ← set_kd_fs i (Some fs); mret 0
              end
          end
    end).
Definition vfs_unmount (devname : str) : M vst Z :=
  with_table (
    l ← mgets knowndevs;
    match findmount devname 0 l with
    | None => mret ENODEV
    | Some i =>
        kd ← get_kd i;
        match kd_fs kd with
        | None => mret EINVAL
        | Some fs =>
            _ ← kassert (bool_decide (kd_rawname kd <> None));
            _ ← kassert (bool_decide (kd_device kd <> None));
            e ← fs_sync fs;
            if negb (e =? 0) then mret e
            else
              e ← fs_unmount fs;
              if negb (e =? 0) then mret e
              else _ ← set_kd_fs i None; mret 0
        end
    end).
(** One device of [vfs_unmountall]: whether its file system is dropped. *)
Definition unmount_one (kd : knowndev) : M vst bool :=
  match kd_rawname kd, kd_fs kd with
  | Some _, Some fs =>
      e ← fs_sync fs;
      e ← (if negb (e =? 0) then fs_sync fs else mret 0);
      if negb (e =? 0) then mret false
      else e ← fs_unmount fs; mret (e =? 0)
  | _, _ => mret false
  end.
Fixpoint unmountall_loop (n i : nat) : M vst unit :=
  match n with
  | O => mret tt
  | S n' =>
      kd ← get_kd i;
      b ← unmount_one kd;
      _ ← (if (b : bool) then set_kd_fs i None else mret tt);
      unmountall_loop n' (S i)
  end.
Definition vfs_unmountall : M vst Z :=
  with_table (l ← mgets knowndevs; _ ← unmountall_loop (length l) 0; mret 0).

(** ** vfscwd.c *)
Definition vfs_getcurdir : M vst (result Z) :=
  c ← mgets t_cwd;
  match c with
  | Some v => _ ← vnode_incref v; mret (Ok v)
  | None => mret (Err ENOENT)
  end.
Definition vfs_setcurdir (dir : Z) : M vst Z :=
  r ← VOP_GETTYPE dir;
  match r with
  | Err e => mret e
  | Ok vtype =>
      if negb (vtype =? S_IFDIR) then mret ENOTDIR
      else
        _ ← vnode_incref dir;
        old ← mgets t_cwd;
        _ ← mmodify (with_cwd (Some dir));
        _ ← (match old with Some o => vnode_decref o | None => mret tt end);
        mret 0
  end.
Definition vfs_clearcurdir : M vst Z :=
  old ← mgets t_cwd;
  _ ← mmodify (with_cwd None);
  _ ← (match old with Some o => vnode_decref o | None => mret tt end);
  mret 0.

(** ** vfslookup.c *)

(** The first colon or slash: [slash] and [colon] of the code, -1 if unset. *)
Fixpoint scan (i : Z) (path : str) : Z * Z :=
  match path with
  | [] => (-1, -1)
  | c :: r => if c =? colon then (-1, i) else if c =? slash then (i, -1) else scan (i + 1) r
  end.
Fixpoint skip_slashes (path : str) : str :=
  match path with
  | c :: r => if c =? slash then skip_slashes r else path
  | [] => []
  end.
(** [getdevice] after its first assertion. *)
Definition choose_start (path : str) : M vst (result (str * Z)) :=
  let '(sl, co) := scan 0 path in
  if (co <? 0) && negb (sl =? 0) then
    v ←? vfs_getcurdir; mret (Ok (path, v))
  else if co >? 0 then
    v ←? vfs_getroot (take (Z.to_nat co) path);
    mret (Ok (skip_slashes (drop (Z.to_nat co + 1) path), v))
  else
    _ ← kassert ((co =? 0) || (sl =? 0));
    if bool_decide (head path = Some slash) then
      o ← mgets bootfs_vnode;
      match o with
      | None => mret (Err ENOENT)
      | Some v => _ ← vnode_incref v; mret (Ok (skip_slashes (drop 1 path), v))
      end
    else
      _ ← kassert (bool_decide (head path = Some colon));
      vn ←? vfs_getcurdir;
      x ← get_vnode vn;
      match vn_fs x with
      | None => mstop KAssertFail
      | Some fs =>
          v ← fs_getroot fs;
          _ ← vnode_decref vn;
          mret (Ok (skip_slashes (drop 1 path), v))
      end.
Definition getdevice (path : str) : M vst (result (str * Z)) :=
  b ← vfs_biglock_do_i_hold;
  _ ← kassert b;
  choose_start path.
(** A function body between [vfs_biglock_acquire] and [vfs_biglock_release]. *)
Definition with_biglock {A} (m : M vst A) : M vst A :=
  _ ← vfs_biglock_acquire; a ← m; _ ← vfs_biglock_release; mret a.
Definition vfs_lookparent (path : str) (buflen : Z) : M vst (result (Z * str)) :=
  with_biglock (
    '(path, startvn) ←? getdevice path;
    r ← (if bool_decide (path = []) then mret (Err EINVAL)
         else VOP_LOOKPARENT startvn path buflen);
    _ ← vnode_decref startvn;
    mret r).
Definition vfs_lookup (path : str) : M vst (result Z) :=
  with_biglock (
    '(path, startvn) ←? getdevice path;
    if bool_decide (path = []) then mret (Ok startvn)
    else
      r ← VOP_LOOKUP startvn path;
      _ ← vnode_decref startvn;
      mret r).
Definition vfs_chdir (path : str) : M vst Z :=
  r ← vfs_lookup path;
  match r with
  | Err e => mret e
  | Ok vn => result ← vfs_setcurdir vn; _ ← vnode_decref vn; mret result
  end.
Definition change_bootfs (newvn : option Z) : M vst unit :=
  oldvn ← mgets bootfs_vnode;
  _ ← mmodify (with_bootfs newvn);
  match oldvn with Some o => vnode_decref o | None => mret tt end.
(** [snprintf] keeps the first [NAME_MAX-1] characters. *)
Definition vfs_setbootfs (fsname : str) : M vst Z :=
  with_biglock (
    let tmp := take 254 fsname in
    let dev :=
      match list_find (eq colon) tmp with
      | Some (i, _) => if (0 <? Z.of_nat (length (drop i tmp))) then None else Some tmp
      | None => Some (tmp ++ [colon])
      end in
    match dev with
    | None => mret EINVAL
    | Some tmp =>
        e ← vfs_chdir tmp;
        if negb (e =? 0) then mret e
        else
          r ← vfs_getcurdir;
          match r with
          | Err e => mret e
          | Ok newguy => _ ← change_bootfs (Some newguy); mret 0
          end
    end).
Definition vfs_clearbootfs : M vst unit := with_biglock (change_bootfs None).
(** [uiomove] with the characters of a string. *)
Definition umove_str (t : str) (u : sio) : M vst (Z * sio) :=
  '(e, _, u') ← mlift (umove t u); mret (e, u').
Definition vfs_getcwd (u : sio) : M vst (Z * sio) :=
  _ ← kassert (match u_rw u with UIO_READ => true | UIO_WRITE => false end);
  r ← vfs_getcurdir;
  match r with
  | Err e => mret (e, u)
  | Ok cwd =>
      x ← get_vnode cwd;
      match vn_fs x with
      | None => mstop KAssertFail
      | Some fs =>
          o ← (match fs_getvolname fs with
               | Some n => mret (Some n)
               | None => with_biglock (vfs_getdevname fs)
               end);
          match o with
          | None => mstop KAssertFail
          | Some name =>
              '(e, u) ← umove_str name u;
              '(e, u) ← (if negb (e =? 0) then mret (e, u)
                         else
                           '(e, u) ← umove_str [colon] u;
                           if negb (e =? 0) then mret (e, u) else VOP_NAMEFILE cwd u);
              _ ← vnode_decref cwd;
              mret (e, u)
          end
      end
  end.

(** ** vfspath.c *)
Definition bits (flags mask : Z) : bool := negb (Z.land flags mask =? 0).
Definition vfs_open (path : str) (openflags mode : Z) : M vst (result Z) :=
  let how := Z.land openflags O_ACCMODE in
  if negb ((how =? O_RDONLY) || (how =? O_WRONLY) || (how =? O_RDWR)) then mret (Err EINVAL)
  else
    let canwrite := negb (how =? O_RDONLY) in
    vn ←? (if bits openflags O_CREAT then
             '(dir, name) ←? vfs_lookparent path (NAME_MAX + 1);
             r ← VOP_CREAT dir name (bits openflags O_EXCL) mode;
             _ ← vnode_decref dir;
             mret r
           else vfs_lookup path);
    e ← VOP_OPEN vn openflags;
    if negb (e =? 0) then _ ← vnode_decref vn; mret (Err e)
    else
      _ ← vnode_incopen vn;
      e ← (if bits openflags O_TRUNC then
             if canwrite then VOP_TRUNCATE vn 0 else mret EINVAL
           else mret 0);
      if negb (e =? 0) then
        _ ← vnode_decopen vn;
        _ ← vnode_decref vn;
        mret (Err e)
      else mret (Ok vn).
Definition vfs_close (vn : Z) : M vst unit := _ ← vnode_decopen vn; vnode_decref vn.
(** The shape of [vfs_remove], [vfs_symlink], [vfs_mkdir] and [vfs_rmdir]. *)
Definition in_parent (path : str) (f : Z -> str -> M vst Z) : M vst Z :=
  r ← vfs_lookparent path (NAME_MAX + 1);
  match r with
  | Err e => mret e
  | Ok (dir, name) => e ← f dir name; _ ← vnode_decref dir; mret e
  end.
Definition vfs_remove (path : str) : M vst Z := in_parent path VOP_REMOVE.
Definition vfs_symlink (contents path : str) : M vst Z :=
  in_parent path (fun dir name => VOP_SYMLINK dir name contents).
Definition vfs_mkdir (path : str) (mode : Z) : M vst Z :=
  in_parent path (fun dir name => VOP_MKDIR dir name mode).
Definition vfs_rmdir (path : str) : M vst Z := in_parent path VOP_RMDIR.
(** Whether two vnodes are on the same file system. *)
Definition samefs (a b : Z) : M vst bool :=
  x ← get_vnode a;
  y ← get_vnode b;
  mret (bool_decide (vn_fs x <> None) && bool_decide (vn_fs y <> None) && bool_decide (vn_fs x = vn_fs y)).
Definition vfs_rename (oldpath newpath : str) : M vst Z :=
  r ← vfs_lookparent oldpath (NAME_MAX + 1);
  match r with
  | Err e => mret e
  | Ok (olddir, oldname) =>
      r ← vfs_lookparent newpath (NAME_MAX + 1);
      match r with
      | Err e => _ ← vnode_decref olddir; mret e
      | Ok (newdir, newname) =>
          b ← samefs olddir newdir;
          e ← (if (b : bool) then VOP_RENAME olddir oldname newdir newname else mret EXDEV);
          _ ← vnode_decref newdir;
          _ ← vnode_decref olddir;
          mret e
      end
  end.
Definition vfs_link (oldpath newpath : str) : M vst Z :=
  r ← vfs_lookup oldpath;
  match r with
  | Err e => mret e
  | Ok oldfile =>
      r ← vfs_lookparent newpath (NAME_MAX + 1);
      match r with
      | Err e => _ ← vnode_decref oldfile; mret e
      | Ok (newdir, newname) =>
          b ← samefs oldfile newdir;
          e ← (if (b : bool) then VOP_LINK newdir newname oldfile else mret EXDEV);
          _ ← vnode_decref newdir;
          _ ← vnode_decref oldfile;
          mret e
      end
  end.
Definition vfs_readlink (path : str) (u : sio) : M vst (Z * sio) :=
  r ← vfs_lookup path;
  match r with
  | Err e => mret (e, u)
  | Ok vn => '(e, u) ← VOP_READLINK vn u; _ ← vnode_decref vn; mret (e, u)
  end.

(** ** Start *)

(** [devnull_create]: [d] is the address of the new [struct device] and [vn]
    that of its vnode. *)
Definition devnull_create (mem : allocs) (ok : bool) (d vn : Z) : M vst unit :=
  if negb ok then mstop KPanic
  else
    _ ← mmodify (fun s => with_devices (<[d := Device 0 1 0]> (devices s)) s);
    e ← vfs_adddev mem vn null_name d false;
    if negb (e =? 0) then mstop KPanic else mret tt.
(** [vfs_bootstrap]: [ok] says whether the array, the big lock and the null
    device could be allocated. *)
Definition vfs_bootstrap (mem : allocs) (ok : bool * bool * bool) (d vn : Z) : M vst unit :=
  let '(a, b, c) := ok in
  if negb a then mstop KPanic
  else
    _ ← mmodify (with_knowndevs []);
    if negb b then mstop KPanic
    else
      _ ← mmodify (with_depth 0);
      devnull_create mem c d vn.
(** The functions of the null device. *)
Definition nullopen (openflags : Z) : M vst Z := mret 0.
Definition nullclose : M vst Z := mret 0.
Definition nullio (u : sio) : M vst (Z * sio) :=
  mret (0, match u_rw u with
           | UIO_WRITE => mkSio (u_rw u) (u_off u) 0 (u_len u) (u_room u) (u_user u) (u_data u)
           | UIO_READ => u
           end).
Definition nullioctl (op data : Z) : M vst Z := mret EINVAL.
End vfs.
