(* ===== verification/VfsRefs.v ===== *)
(** * The references of the VFS layer

    Who owns the references and open counts of vnodes and the two locks, and
    that every function of kern/vfs completes and leaves exactly what it hands
    back: the laws a file system has to meet (the class [FsLaws]), a small
    program logic that counts resources ([trip]), and its rules for the code
    of Vfs.v. *)
From S2P Require Import Prelude Memory CopyInOut Uio Stream.
Import Uio Stream.
From S2P Require Import Vfs.

(** ** Resources

    A reference to a vnode, an open handle (a reference with an open count),
    one level of the big lock, and the lock of the table, free or held. *)
Inductive key : Set :=
  | Ref (v : Z)
  | Hnd (v : Z)
  | Big
  | Free
  | Held.
#[export] Instance key_eq_dec : EqDecision key.
Proof. solve_decision. Defined.

Definition b2z (P : Prop) `{Decision P} : Z := if decide P then 1 else 0.
Fixpoint occ (k : key) (H : list key) : Z :=
  match H with [] => 0 | j :: r => b2z (j = k) + occ k r end.
Fixpoint intab (v : Z) (l : list knowndev) : Z :=
  match l with [] => 0 | kd :: r => b2z (kd_vnode kd = v) + intab v r end.

Definition none {A} (_ : A) : list key := [].

Lemma b2z_range P `{Decision P} : 0 <= b2z P <= 1.
Proof. unfold b2z. case_decide; lia. Qed.
Lemma b2z_true P `{Decision P} : P -> b2z P = 1.
Proof. intros HP. unfold b2z. by rewrite decide_True. Qed.
Lemma b2z_false P `{Decision P} : ~ P -> b2z P = 0.
Proof. intros HP. unfold b2z. by rewrite decide_False. Qed.
Lemma occ_nonneg k H : 0 <= occ k H.
Proof. induction H as [|j H IH]; cbn; [lia|]. pose proof (b2z_range (j = k)). lia. Qed.
Lemma occ_app k H H' : occ k (H ++ H') = occ k H + occ k H'.
Proof. induction H as [|j H IH]; cbn; [done|]. rewrite IH. lia. Qed.
(** Two lists with the same resources. *)
Definition same (H H' : list key) : Prop := forall k, occ k H = occ k H'.
Infix "≈" := same (at level 70).
Lemma intab_nonneg v l : 0 <= intab v l.
Proof. induction l as [|j l IH]; cbn; [lia|]. pose proof (b2z_range (kd_vnode j = v)). lia. Qed.

(** The counts of a vnode; an address without vnode has none. *)
Definition refs (s : vst) (v : Z) : Z := from_option vn_refcount 0 (vnodes s !! v).
Definition opens (s : vst) (v : Z) : Z := from_option vn_opencount 0 (vnodes s !! v).
(** The references of the VFS layer itself. *)
Definition own (s : vst) (v : Z) : Z :=
  b2z (t_cwd s = Some v) + b2z (bootfs_vnode s = Some v) + intab v (knowndevs s).
Lemma own_nonneg s v : 0 <= own s v.
Proof.
  unfold own. pose proof (b2z_range (t_cwd s = Some v)).
  pose proof (b2z_range (bootfs_vnode s = Some v)). pose proof (intab_nonneg v (knowndevs s)). lia.
Qed.
Definition tot (H : list key) (E : key -> Z) (k : key) : Z := occ k H + E k.

(** What an address holds: a vnode of a file system, of a device, or the
    unused vnode of a file system that has no device ([vfs_addfs]). *)
Inductive kind : Set := KFs | KDev | KHard.

(** What a function hands back. *)
Definition handed (r : result Z) : list key := match r with Ok v => [Ref v] | Err _ => [] end.
Definition handed_parent (r : result (Z * str)) : list key :=
  match r with Ok (v, _) => [Ref v] | Err _ => [] end.
Definition handed_opt (o : option (result Z)) : list key := from_option handed [] o.
Definition handed_start (r : result (str * Z)) : list key :=
  match r with Ok (_, v) => [Ref v] | Err _ => [] end.
Definition handle (r : result Z) : list key := match r with Ok v => [Hnd v] | Err _ => [] end.
Definition optref (o : option Z) : list key := from_option (fun v => [Ref v]) [] o.
Ltac acct := intros ?;
  cbn [occ app none handed handed_parent handed_opt handed_start handle optref from_option];
  rewrite ?occ_app; cbn [occ]; lia.

Section refs.
(** [T] is the table of devices without the mounted file systems: it changes
    only when a device is added, at boot. *)
Context `{FS : FsOps} (K : Z -> kind) (T : list knowndev) (ex : bool).

(** When [ex] is false, counts may exceed what is owned: a file system may
    fail to reclaim a vnode or keep the big lock, but takes nothing away. *)
Definition owed (n m : Z) : Prop := if ex then n = m else m <= n.
(** [H] is what the running code holds and [E] what everyone else holds. *)
Record owes (s : vst) (H : list key) (E : key -> Z) : Prop := Owes {
  o_ref : forall v, owed (refs s v) (own s v + tot H E (Ref v) + tot H E (Hnd v));
  o_opn : forall v, opens s v = tot H E (Hnd v);
  o_big : owed (vfs_biglock_depth s) (tot H E Big);
  o_free : b2z (knowndevs_lock s = Some false) = tot H E Free;
  o_held : b2z (knowndevs_lock s = Some true) = tot H E Held;
}.

Definition present (d : Z) (s : vst) : Prop := exists x, devices s !! d = Some x /\ d_blocksize x <> 0.
Definition node_ok (s : vst) (v : Z) (x : vnode) : Prop :=
  match K v with
  | KFs => vn_ops x = fs_vnode_ops /\ vn_fs x <> None
  | KDev => vn_ops x = dev_vnode_ops /\ 1 <= intab v (knowndevs s) /\
            exists d, vn_data x = Some d /\ present d s
  | KHard => vn_refcount x = own s v
  end.
Definition kd_ok (kd : knowndev) : Prop :=
  match kd_device kd with
  | Some _ => K (kd_vnode kd) = KDev
  | None => K (kd_vnode kd) = KHard /\ kd_rawname kd = None /\ kd_fs kd <> None
  end.
(** A file system that is mounted. *)
Definition live (fs : Z) (s : vst) : Prop := exists kd, kd ∈ knowndevs s /\ kd_fs kd = Some fs.
Record vok (s : vst) : Prop := Vok {
  vk_node : forall v x, vnodes s !! v = Some x -> node_ok s v x;
  vk_cwd : forall v, t_cwd s = Some v -> K v = KFs;
  vk_boot : forall v, bootfs_vnode s = Some v -> K v = KFs;
  vk_kd : Forall kd_ok (knowndevs s);
  vk_tab : map (set_fs None) (knowndevs s) = T;
  vk_dev : forall kd d, kd ∈ knowndevs s -> kd_device kd = Some d -> present d s;
  vk_live : forall v x fs, vnodes s !! v = Some x -> vn_fs x = Some fs -> live fs s;
}.

(** ** The logic *)
Definition runs {A} (s : vst) (E : key -> Z) (m : M vst A) (Q : A -> list key) : Prop :=
  exists a s', m s = Done (a, s') /\ owes s' (Q a) E /\ vok s'.
Definition safe {A} (P : vst -> Prop) (L : list key) (m : M vst A) (Q : A -> list key) : Prop :=
  forall E s, (forall k, 0 <= E k) -> owes s L E -> vok s -> P s -> runs s E m Q.
Definition trip {A} (L : list key) (m : M vst A) (Q : A -> list key) : Prop :=
  safe (fun _ => True) L m Q.

Lemma owes_ext s H H' E E' : (forall k, tot H' E' k = tot H E k) -> owes s H E -> owes s H' E'.
Proof. intros Et [Hr Ho Hb Hf Hh]. split; intros; rewrite ?Et; auto. Qed.
Lemma owes_perm s H H' E : H ≈ H' -> owes s H E -> owes s H' E.
Proof. intros HP. apply owes_ext. intros k. unfold tot. by rewrite (HP k). Qed.
Lemma owes_move s H F E : owes s (H ++ F) E <-> owes s H (fun k => occ k F + E k).
Proof. split; apply owes_ext; intros k; unfold tot; rewrite occ_app; lia. Qed.

Lemma trip_frame {A} L F H (m : M vst A) Q :
  trip L m Q -> H ≈ L ++ F -> trip H m (fun a => Q a ++ F).
Proof.
  intros Hm HP E s HE Ho Hv _.
  destruct (Hm (fun k => occ k F + E k) s) as (a & s' & Hd & Ho' & Hv'); [|by apply owes_move, (owes_perm _ _ _ _ HP)|done..|].
  { intros k. pose proof (occ_nonneg k F). specialize (HE k). lia. }
  exists a, s'. split; [done|]. split; [|done]. by apply owes_move.
Qed.
Lemma trip_framed {A} L F (m : M vst A) Q : trip L m Q -> trip (L ++ F) m (fun a => Q a ++ F).
Proof. intros Hm. by apply (trip_frame L F). Qed.
Lemma trip_perm {A} H H' (m : M vst A) Q Q' :
  trip H m Q -> H' ≈ H -> (forall a, Q a ≈ Q' a) -> trip H' m Q'.
Proof.
  intros Hm HP HQ E s HE Ho Hv _.
  destruct (Hm E s HE (owes_perm _ _ _ _ HP Ho) Hv I) as (a & s' & Hd & Ho' & Hv').
  exists a, s'. split; [done|]. split; [|done]. exact (owes_perm _ _ _ _ (HQ a) Ho').
Qed.
Lemma trip_bind {A B} L (m : M vst A) Q (k : A -> M vst B) R :
  trip L m Q -> (forall a, trip (Q a) (k a) R) -> trip L (m ≫= k) R.
Proof.
  intros Hm Hk E s HE Ho Hv _. destruct (Hm E s HE Ho Hv I) as (a & s' & Hd & Ho' & Hv').
  destruct (Hk a E s' HE Ho' Hv' I) as (b & s'' & Hd' & Hr).
  exists b, s''. by rewrite (bind_Done _ _ _ _ _ Hd).
Qed.
Lemma trip_step {A B} L F H (m : M vst A) Q (k : A -> M vst B) R :
  trip L m Q -> H ≈ L ++ F -> (forall a, trip (Q a ++ F) (k a) R) -> trip H (m ≫= k) R.
Proof. intros Hm HP Hk. exact (trip_bind _ _ _ _ _ (trip_frame _ _ _ _ _ Hm HP) Hk). Qed.
Lemma trip_ret {A} H (a : A) Q : H ≈ Q a -> trip H (mret a) Q.
Proof. intros HP E s HE Ho Hv _. exists a, s. split; [done|]. split; [|done]. exact (owes_perm _ _ _ _ HP Ho). Qed.
(** A step that only reads the state. *)
Lemma trip_read {A B} H (f : vst -> A) (k : A -> M vst B) R :
  (forall a, trip H (k a) R) -> trip H (mgets f ≫= k) R.
Proof. intros Hk E s HE Ho Hv _. destruct (Hk (f s) E s HE Ho Hv I) as (b & s' & Hd & Hr). by exists b, s'. Qed.

(** ** Facts about resources *)
Definition used (v : Z) (s : vst) : Prop := 0 < refs s v.
Definition holds (k : key) (v : Z) : Prop := k = Ref v \/ k = Hnd v.

Lemma used_node s v : used v s -> exists x, vnodes s !! v = Some x /\ 0 < vn_refcount x.
Proof.
  unfold used, refs. destruct (vnodes s !! v) as [x|]; cbn; [|lia]. intros Hx. by exists x.
Qed.
Lemma tot_nonneg H E k : (forall k, 0 <= E k) -> 0 <= tot H E k.
Proof. intros HE. unfold tot. pose proof (occ_nonneg k H). specialize (HE k). lia. Qed.
Lemma owed_ge n m : owed n m -> m <= n.
Proof. unfold owed. destruct ex; lia. Qed.
Lemma owed_eq n m n' m' : n' - n = m' - m -> owed n m -> owed n' m'.
Proof. unfold owed. destruct ex; lia. Qed.
Lemma holds_tot k v H E : (forall k, 0 <= E k) -> holds k v ->
  1 <= tot (k :: H) E (Ref v) + tot (k :: H) E (Hnd v).
Proof.
  intros HE [-> | ->]; pose proof (tot_nonneg H E (Ref v) HE); pose proof (tot_nonneg H E (Hnd v) HE);
    unfold tot in *; cbn; unfold b2z; repeat case_decide; simplify_eq; lia.
Qed.
Lemma holds_refs k v s H E : (forall k, 0 <= E k) -> holds k v -> owes s (k :: H) E -> own s v < refs s v.
Proof.
  intros HE Hk Ho. pose proof (owed_ge _ _ (o_ref _ _ _ Ho v)).
  pose proof (holds_tot k v H E HE Hk). lia.
Qed.
Lemma holds_used k v s H E : (forall k, 0 <= E k) -> holds k v -> owes s (k :: H) E -> used v s.
Proof.
  intros HE Hk Ho. pose proof (holds_refs _ _ _ _ _ HE Hk Ho). pose proof (own_nonneg s v). unfold used. lia.
Qed.
Lemma holds_kind k v s H E : (forall k, 0 <= E k) -> holds k v -> owes s (k :: H) E -> vok s -> K v <> KHard.
Proof.
  intros HE Hk Ho Hv HK. destruct (used_node s v (holds_used _ _ _ _ _ HE Hk Ho)) as (x & Hx & _).
  pose proof (vk_node _ Hv v x Hx) as Hn. unfold node_ok in Hn. rewrite HK in Hn.
  pose proof (holds_refs _ _ _ _ _ HE Hk Ho) as Hr. unfold refs in Hr. rewrite Hx in Hr. cbn in Hr. lia.
Qed.
Lemma own_used s H E v : (forall k, 0 <= E k) -> owes s H E -> 0 < own s v -> used v s.
Proof.
  intros HE Ho Hw. pose proof (owed_ge _ _ (o_ref _ _ _ Ho v)).
  pose proof (tot_nonneg H E (Ref v) HE). pose proof (tot_nonneg H E (Hnd v) HE). unfold used. lia.
Qed.

(** Changing the counts of one vnode. *)
Definition recount (x x' : vnode) : Prop :=
  vn_fs x' = vn_fs x /\ vn_data x' = vn_data x /\ vn_ops x' = vn_ops x.
Lemma put_owes s v x x' H H' E :
  vnodes s !! v = Some x ->
  (forall w, tot H' E (Ref w) + tot H' E (Hnd w) = tot H E (Ref w) + tot H E (Hnd w)
     + (if decide (w = v) then vn_refcount x' - vn_refcount x else 0)) ->
  (forall w, tot H' E (Hnd w) = tot H E (Hnd w)
     + (if decide (w = v) then vn_opencount x' - vn_opencount x else 0)) ->
  tot H' E Big = tot H E Big -> tot H' E Free = tot H E Free -> tot H' E Held = tot H E Held ->
  owes s H E -> owes (with_vnodes (<[v := x']> (vnodes s)) s) H' E.
Proof.
  intros Hx Hr Ho Hb Hf Hh [Or Oo Ob Of Oh]. split; cbn; [| |by rewrite Hb|by rewrite Hf|by rewrite Hh].
  - intros w. eapply owed_eq; [|apply (Or w)]. specialize (Hr w). unfold own, refs in *; cbn.
    case_decide; subst.
    + rewrite lookup_insert_eq, Hx. cbn. lia.
    + rewrite lookup_insert_ne by done. lia.
  - intros w. specialize (Ho w). specialize (Oo w). unfold opens in *; cbn. case_decide; subst.
    + rewrite Hx in Oo. rewrite lookup_insert_eq. cbn in *. lia.
    + rewrite lookup_insert_ne by done. lia.
Qed.
Lemma put_vok s v x x' :
  vnodes s !! v = Some x -> recount x x' -> (K v <> KHard \/ vn_refcount x' = vn_refcount x) ->
  vok s -> vok (with_vnodes (<[v := x']> (vnodes s)) s).
Proof.
  intros Hx (Ef & Ed & Eo) HK [Hn Hc Hb Hk Ht Hdv Hnm]. split; cbn; [|done..|].
  2:{ intros w y fs. destruct (decide (w = v)) as [->|].
      - rewrite lookup_insert_eq. intros [= <-]. rewrite Ef. exact (Hnm v x fs Hx).
      - rewrite lookup_insert_ne by done. exact (Hnm w y fs). }
  intros w y. destruct (decide (w = v)) as [->|].
  - rewrite lookup_insert_eq. intros [= <-]. specialize (Hn v x Hx). unfold node_ok in *; cbn.
    rewrite Ef, Ed, Eo. destruct (K v); [done..|]. destruct HK as [?| ->]; done.
  - rewrite lookup_insert_ne by done. intros Hy. exact (Hn w y Hy).
Qed.

Ltac tots := unfold none, tot; cbn [occ app]; unfold b2z; intros; cbn [set_refcount set_opencount vn_refcount vn_opencount];
  repeat case_decide; simplify_eq; try lia; try congruence.

Lemma get_vnode_run s v x : vnodes s !! v = Some x -> get_vnode v s = Done (x, s).
Proof. intros Hx. unfold get_vnode. mrun. by rewrite Hx. Qed.

(** ** What a file system and a driver promise

    Operations on a vnode someone holds, or on a file system that is in use,
    come back, keep the tables in order and give and take no resources, except
    that a vnode that is handed back carries a new reference (vnode.h, fs.h).
    Reclaiming a vnode nobody uses frees it. *)
Class FsLaws : Prop := {
  law_getroot : forall fs, safe (live fs) [] (fs_getroot fs) (fun v => [Ref v]);
  law_sync : forall fs, safe (live fs) [] (fs_sync fs) none;
  law_sync_table : forall fs s a s', fs_sync fs s = Done (a, s') -> knowndevs s' = knowndevs s;
  law_unmount : forall fs, safe (live fs) [] (fs_unmount fs) none;
  law_unmount_all : forall fs s a s', fs_unmount fs s = Done (a, s') -> knowndevs s' = knowndevs s /\
    (a = 0 -> forall v x, vnodes s' !! v = Some x -> vn_fs x <> Some fs);
  law_open : forall v f, K v = KFs -> safe (used v) [] (vop_open v f) none;
  law_close : forall v, K v = KFs -> safe (used v) [] (vop_close v) none;
  law_reclaim : forall v, K v = KFs ->
    safe (fun s => refs s v = 1 /\ opens s v = 0) [Ref v] (vop_reclaim v) none;
  law_read : forall v u, K v = KFs -> safe (used v) [] (vop_read v u) none;
  law_readlink : forall v u, K v = KFs -> safe (used v) [] (vop_readlink v u) none;
  law_getdirentry : forall v u, K v = KFs -> safe (used v) [] (vop_getdirentry v u) none;
  law_write : forall v u, K v = KFs -> safe (used v) [] (vop_write v u) none;
  law_stat : forall v, K v = KFs -> safe (used v) [] (vop_stat v) none;
  law_gettype : forall v, K v = KFs -> safe (used v) [] (vop_gettype v) none;
  law_tryseek : forall v pos, K v = KFs -> safe (used v) [] (vop_tryseek v pos) none;
  law_truncate : forall v len, K v = KFs -> safe (used v) [] (vop_truncate v len) none;
  law_namefile : forall v u, K v = KFs -> safe (used v) [] (vop_namefile v u) none;
  law_creat : forall v nm excl mode, K v = KFs -> safe (used v) [] (vop_creat v nm excl mode) handed;
  law_symlink : forall v a b, K v = KFs -> safe (used v) [] (vop_symlink v a b) none;
  law_mkdir : forall v nm mode, K v = KFs -> safe (used v) [] (vop_mkdir v nm mode) none;
  law_link : forall v nm f, K v = KFs ->
    safe (fun s => used v s /\ used f s) [] (vop_link v nm f) none;
  law_remove : forall v nm, K v = KFs -> safe (used v) [] (vop_remove v nm) none;
  law_rmdir : forall v nm, K v = KFs -> safe (used v) [] (vop_rmdir v nm) none;
  law_rename : forall v n1 w n2, K v = KFs ->
    safe (fun s => used v s /\ used w s) [] (vop_rename v n1 w n2) none;
  law_lookup : forall v p, K v = KFs -> safe (used v) [] (vop_lookup v p) handed;
  law_lookparent : forall v p n, K v = KFs -> safe (used v) [] (vop_lookparent v p n) handed_parent;
  law_d_open : forall d f, safe (present d) [] (d_open d f) none;
  law_d_close : forall d, safe (present d) [] (d_close d) none;
  law_d_io : forall d u, safe (present d) [] (d_io d u) none;
}.

(** ** Rules for the counts and the locks *)
Lemma incref_safe v : K v <> KHard -> safe (used v) [] (vnode_incref v) (fun _ => [Ref v]).
Proof.
  intros HK E s HE Ho Hv Hu. destruct (used_node s v Hu) as (x & Hx & _).
  unfold runs, vnode_incref. eexists tt, _. rewrite (bind_Done _ _ _ _ _ (get_vnode_run s v x Hx)).
  split; [reflexivity|]. split.
  - eapply (put_owes s v x _ []); [done|tots..|done].
  - eapply put_vok; [done|done|by left|done].
Qed.
Lemma incopen_rule v : trip [Ref v] (vnode_incopen v) (fun _ => [Hnd v]).
Proof.
  intros E s HE Ho Hv _.
  destruct (used_node s v (holds_used _ v _ _ _ HE (or_introl eq_refl) Ho)) as (x & Hx & _).
  unfold runs, vnode_incopen. eexists tt, _. rewrite (bind_Done _ _ _ _ _ (get_vnode_run s v x Hx)).
  split; [reflexivity|]. split.
  - eapply (put_owes s v x _ [Ref v]); [done|tots..|done].
  - eapply put_vok; [done|done|by right|done].
Qed.
Lemma biglock_acquire_rule : trip [] vfs_biglock_acquire (fun _ => [Big]).
Proof.
  intros E s HE [Hr Ho Hb Hf Hh] [Hn Hc Hbo Hk Ht Hdv Hnm] _. eexists tt, _. split; [reflexivity|].
  split; split; try done. cbn. eapply owed_eq, Hb. tots.
Qed.
Lemma biglock_held s H E : (forall k, 0 <= E k) -> owes s (Big :: H) E -> 0 < vfs_biglock_depth s.
Proof.
  intros HE Ho. pose proof (owed_ge _ _ (o_big _ _ _ Ho)). pose proof (tot_nonneg H E Big HE).
  unfold tot in *. cbn in *. unfold b2z in *. case_decide; [lia|done].
Qed.
Lemma biglock_release_rule : trip [Big] vfs_biglock_release (fun _ => []).
Proof.
  intros E s HE Ho0 Hv _. pose proof (biglock_held _ _ _ HE Ho0). destruct Ho0 as [Hr Ho Hb Hf Hh], Hv as [Hn Hc Hbo Hk Ht Hdv Hnm].
  unfold runs, vfs_biglock_release. mrun. rewrite (proj2 (Z.gtb_lt _ _)) by lia.
  eexists tt, _. split; [reflexivity|]. split; split; try done. cbn. eapply owed_eq, Hb. tots.
Qed.
Lemma lock_rule : trip [Free] lock_knowndevs (fun _ => [Held]).
Proof.
  intros E s HE [Hr Ho Hb Hf Hh] [Hn Hc Hbo Hk Ht Hdv Hnm] _. specialize (HE Free) as HF.
  assert (knowndevs_lock s = Some false) as El.
  { revert Hf. tots. }
  unfold runs, lock_knowndevs. mrun. rewrite El. eexists tt, _. split; [reflexivity|].
  rewrite El in Hf, Hh. split; split; try done; cbn; revert Hf Hh; tots.
Qed.
Lemma unlock_rule : trip [Held] unlock_knowndevs (fun _ => [Free]).
Proof.
  intros E s HE [Hr Ho Hb Hf Hh] [Hn Hc Hbo Hk Ht Hdv Hnm] _. specialize (HE Held) as HF.
  assert (knowndevs_lock s = Some true) as El.
  { revert Hh. tots. }
  unfold runs, unlock_knowndevs. mrun. rewrite El. eexists tt, _. split; [reflexivity|].
  rewrite El in Hf, Hh. split; split; try done; cbn; revert Hf Hh; tots.
Qed.

Context `{FL : !FsLaws}.

(** ** Vnode operations *)
Lemma safe_weaken {A} (P P' : vst -> Prop) L (m : M vst A) Q :
  (forall s, P' s -> P s) -> safe P L m Q -> safe P' L m Q.
Proof. intros HP Hm E s HE Ho Hv Hs. apply Hm; auto. Qed.
Lemma trip_held {A} k v (m : M vst A) Q : holds k v ->
  (K v <> KHard -> safe (used v) [] m Q) -> trip [k] m (fun a => Q a ++ [k]).
Proof.
  intros Hk Hm E s HE Ho Hv _. pose proof (holds_used _ _ _ _ _ HE Hk Ho) as Hu.
  pose proof (holds_kind _ _ _ _ _ HE Hk Ho Hv) as HK.
  destruct (Hm HK (fun j => occ j [k] + E j) s) as (a & s' & Hd & Ho' & Hv'); [|by apply owes_move|done..|].
  { intros j. pose proof (occ_nonneg j [k]). specialize (HE j). lia. }
  exists a, s'. split; [done|]. split; [|done]. by apply owes_move.
Qed.
Lemma vcheck_run s H E v b : (forall k, 0 <= E k) -> owes s H E -> used v s ->
  vnode_check v b s = Done (tt, s).
Proof.
  intros HE Ho Hu. destruct (used_node s v Hu) as (x & Hx & Hr). unfold vnode_check.
  rewrite (bind_Done _ _ _ _ _ (get_vnode_run s v x Hx)).
  pose proof (o_opn _ _ _ Ho v) as Hop. pose proof (tot_nonneg H E (Hnd v) HE).
  unfold opens in Hop. rewrite Hx in Hop. cbn in Hop.
  rewrite (proj2 (Z.ltb_ge _ _)), (proj2 (Z.eqb_neq _ _)), (proj2 (Z.ltb_ge _ _)) by lia. done.
Qed.
Lemma vop_run {A} s H E v b (dev fs : M vst A) x : (forall k, 0 <= E k) -> owes s H E ->
  vnodes s !! v = Some x -> 0 < vn_refcount x ->
  vop v b dev fs s = match vn_ops x with dev_vnode_ops => dev s | fs_vnode_ops => fs s end.
Proof.
  intros HE Ho Hx Hr. unfold vop.
  rewrite (bind_Done _ _ _ _ _ (vcheck_run s H E v b HE Ho ltac:(unfold used, refs; by rewrite Hx))).
  rewrite (bind_Done _ _ _ _ _ (get_vnode_run s v x Hx)). by destruct (vn_ops x).
Qed.
Lemma vop_safe {A} (P : vst -> Prop) v (dev fs : M vst A) Q : K v <> KHard ->
  (forall s, P s -> used v s) ->
  (K v = KDev -> safe P [] dev Q) -> (K v = KFs -> safe P [] fs Q) ->
  safe P [] (vop v false dev fs) Q.
Proof.
  intros HK HP Hd Hf E s HE Ho Hv Hs. destruct (used_node s v (HP s Hs)) as (x & Hx & Hr).
  unfold runs. rewrite (vop_run s [] E v false dev fs x HE Ho Hx Hr).
  pose proof (vk_node _ Hv v x Hx) as Hn. unfold node_ok in Hn.
  destruct (K v) eqn:Ek; [| |done]; destruct Hn as (-> & _).
  - exact (Hf eq_refl E s HE Ho Hv Hs).
  - exact (Hd eq_refl E s HE Ho Hv Hs).
Qed.
(** The device of a device vnode. *)
Lemma dev_of_run s v : vok s -> used v s -> K v = KDev ->
  exists d, dev_of v s = Done (d, s) /\ present d s.
Proof.
  intros Hv Hu HK. destruct (used_node s v Hu) as (x & Hx & _).
  pose proof (vk_node _ Hv v x Hx) as Hn. unfold node_ok in Hn. rewrite HK in Hn.
  destruct Hn as (_ & _ & d & Hd & Hp). exists d. split; [|done].
  unfold dev_of. rewrite (bind_Done _ _ _ _ _ (get_vnode_run s v x Hx)), Hd. done.
Qed.
Lemma safe_pure {A} P (m : M vst A) Q :
  (forall s, vok s -> P s -> exists a, m s = Done (a, s) /\ Q a = []) -> safe P [] m Q.
Proof.
  intros Hm E s HE Ho Hv Hs. destruct (Hm s Hv Hs) as (a & Hd & HQ). exists a, s. by rewrite HQ.
Qed.
Lemma dev_call_safe {A} v (f : Z -> M vst A) Q : K v = KDev ->
  (forall d, safe (present d) [] (f d) Q) -> safe (used v) [] (dev_of v ≫= f) Q.
Proof.
  intros HK Hf E s HE Ho Hv Hu. destruct (dev_of_run s v Hv Hu HK) as (d & Hd & Hp).
  destruct (Hf d E s HE Ho Hv Hp) as (a & s' & Hr & Hq). exists a, s'.
  by rewrite (bind_Done _ _ _ _ _ Hd).
Qed.
Lemma get_device_run s d : present d s -> exists x, get_device d s = Done (x, s) /\ d_blocksize x <> 0.
Proof. intros (x & Hx & Hb). exists x. split; [|done]. unfold get_device. mrun. by rewrite Hx. Qed.
Lemma dev_look_safe {A} v (f : device -> A) : K v = KDev ->
  safe (used v) [] (d ← dev_of v; x ← get_device d; mret (f x)) none.
Proof.
  intros HK. apply dev_call_safe; [done|]. intros d. apply safe_pure. intros s Hv Hp.
  destruct (get_device_run s d Hp) as (x & Hx & _). exists (f x). by rewrite (bind_Done _ _ _ _ _ Hx).
Qed.
Lemma ret_safe {A} P (a : A) Q : Q a = [] -> safe P [] (mret a) Q.
Proof. intros HQ. apply safe_pure. eauto. Qed.

Ltac by_law law := intros HK; apply vop_safe; [done|try tauto|intros Hdev|intros Hfs; apply law; done].
Lemma VOP_OPEN_safe v f : K v <> KHard -> safe (used v) [] (VOP_OPEN v f) none.
Proof.
  by_law law_open. unfold dev_open. case_match; [by apply ret_safe|].
  apply dev_call_safe; [done|]. intros d. apply law_d_open.
Qed.
Lemma VOP_CLOSE_safe v : K v <> KHard -> safe (used v) [] (VOP_CLOSE v) none.
Proof. by_law law_close. apply dev_call_safe; [done|]. intros d. apply law_d_close. Qed.
Lemma VOP_READLINK_safe v u : K v <> KHard -> safe (used v) [] (VOP_READLINK v u) none.
Proof. by_law law_readlink. by apply ret_safe. Qed.
Lemma VOP_GETDIRENTRY_safe v u : K v <> KHard -> safe (used v) [] (VOP_GETDIRENTRY v u) none.
Proof. by_law law_getdirentry. by apply ret_safe. Qed.
Lemma VOP_TRUNCATE_safe v n : K v <> KHard -> safe (used v) [] (VOP_TRUNCATE v n) none.
Proof. by_law law_truncate. by apply dev_look_safe. Qed.
Lemma VOP_NAMEFILE_safe v u : K v <> KHard -> safe (used v) [] (VOP_NAMEFILE v u) none.
Proof. by_law law_namefile. by apply ret_safe. Qed.
Lemma VOP_CREAT_safe v nm b m : K v <> KHard -> safe (used v) [] (VOP_CREAT v nm b m) handed.
Proof. by_law law_creat. by apply ret_safe. Qed.
Lemma VOP_SYMLINK_safe v a b : K v <> KHard -> safe (used v) [] (VOP_SYMLINK v a b) none.
Proof. by_law law_symlink. by apply ret_safe. Qed.
Lemma VOP_MKDIR_safe v nm m : K v <> KHard -> safe (used v) [] (VOP_MKDIR v nm m) none.
Proof. by_law law_mkdir. by apply ret_safe. Qed.
Lemma VOP_REMOVE_safe v nm : K v <> KHard -> safe (used v) [] (VOP_REMOVE v nm) none.
Proof. by_law law_remove. by apply ret_safe. Qed.
Lemma VOP_RMDIR_safe v nm : K v <> KHard -> safe (used v) [] (VOP_RMDIR v nm) none.
Proof. by_law law_rmdir. by apply ret_safe. Qed.
Lemma VOP_LINK_safe v nm f : K v <> KHard ->
  safe (fun s => used v s /\ used f s) [] (VOP_LINK v nm f) none.
Proof. by_law law_link. by apply ret_safe. Qed.
Lemma VOP_RENAME_safe v n1 w n2 : K v <> KHard ->
  safe (fun s => used v s /\ used w s) [] (VOP_RENAME v n1 w n2) none.
Proof. by_law law_rename. by apply ret_safe. Qed.
Lemma VOP_LOOKPARENT_safe v p n : K v <> KHard -> safe (used v) [] (VOP_LOOKPARENT v p n) handed_parent.
Proof. by_law law_lookparent. by apply ret_safe. Qed.
Lemma VOP_LOOKUP_safe v p : K v <> KHard -> safe (used v) [] (VOP_LOOKUP v p) handed.
Proof.
  by_law law_lookup. unfold dev_lookup. case_match; [by apply ret_safe|].
  intros E s HE Ho Hv Hu. destruct (incref_safe v HK E s HE Ho Hv Hu) as (a & s' & Hd & Hq).
  exists (Ok v), s'. by rewrite (bind_Done _ _ _ _ _ Hd).
Qed.
Definition reading (u : sio) : bool := match u_rw u with UIO_READ => true | UIO_WRITE => false end.
Lemma VOP_READ_safe v u : reading u = true -> K v <> KHard -> safe (used v) [] (VOP_READ v u) none.
Proof.
  intros Hu. by_law law_read. apply dev_call_safe; [done|]. intros d. unfold reading in Hu.
  destruct (u_rw u); [|done]. apply law_d_io.
Qed.
Lemma VOP_WRITE_safe v u : reading u = false -> K v <> KHard -> safe (used v) [] (VOP_WRITE v u) none.
Proof.
  intros Hu. by_law law_write. apply dev_call_safe; [done|]. intros d. unfold reading in Hu.
  destruct (u_rw u); [done|]. apply law_d_io.
Qed.
Lemma VOP_STAT_safe v : K v <> KHard -> safe (used v) [] (VOP_STAT v) none.
Proof.
  by_law law_stat. intros E s HE Ho Hv Hu. destruct (dev_of_run s v Hv Hu Hdev) as (d & Hd & Hp).
  destruct (get_device_run s d Hp) as (x & Hx & _). unfold runs, dev_stat, dev_gettype, ebind.
  rewrite (bind_Done _ _ _ _ _ Hd), (bind_Done _ _ _ _ _ Hx).
  rewrite (bind_Done _ _ _ _ _ (vcheck_run s [] E v false HE Ho Hu)).
  eexists _, s. split; [|by split].
  erewrite bind_Done; [|rewrite (bind_Done _ _ _ _ _ Hd), (bind_Done _ _ _ _ _ Hx); reflexivity]. reflexivity.
Qed.
Lemma VOP_TRYSEEK_safe v pos : K v <> KHard -> safe (used v) [] (VOP_TRYSEEK v pos) none.
Proof.
  by_law law_tryseek. apply dev_call_safe; [done|]. intros d. apply safe_pure. intros s Hv Hp.
  destruct (get_device_run s d Hp) as (x & Hx & Hb). rewrite (bind_Done _ _ _ _ _ Hx).
  rewrite (proj2 (Z.eqb_neq _ _) Hb). repeat case_match; eauto.
Qed.
(** A vnode operation by someone who holds the vnode. *)
Lemma held_rule {A B} k v F (m : M vst A) Q (f : A -> M vst B) R H :
  holds k v -> (K v <> KHard -> safe (used v) [] m Q) -> H ≈ k :: F ->
  (forall a, trip (Q a ++ k :: F) (f a) R) -> trip H (m ≫= f) R.
Proof.
  intros Hk Hm HH Hf. eapply (trip_step [k] F); [exact (trip_held k v m Q Hk Hm)|exact HH|].
  intros a. cbv beta. rewrite <- app_assoc. apply Hf.
Qed.

(** ** Giving up a reference or an open handle *)
Lemma last_reference v s E x : (forall k, 0 <= E k) -> owes s [Ref v] E -> vok s ->
  vnodes s !! v = Some x -> vn_refcount x <= 1 -> K v = KFs /\ refs s v = 1 /\ opens s v = 0.
Proof.
  intros HE Ho Hv Hx Hle. pose proof (holds_kind _ v _ _ _ HE (or_introl eq_refl) Ho Hv) as HK.
  pose proof (owed_ge _ _ (o_ref _ _ _ Ho v)) as Hr. pose proof (own_nonneg s v) as Hw.
  pose proof (holds_tot (Ref v) v [] E HE (or_introl eq_refl)) as Ht.
  pose proof (o_opn _ _ _ Ho v) as Hop. pose proof (tot_nonneg [Ref v] E (Hnd v) HE) as Hh.
  pose proof (HE (Ref v)). assert (1 <= tot [Ref v] E (Ref v)) by (unfold tot; cbn; unfold b2z; case_decide; [lia|done]).
  unfold refs in *. rewrite Hx in *. cbn in *.
  split; [|lia]. pose proof (vk_node _ Hv v x Hx) as Hn. unfold node_ok in Hn.
  destruct (K v); [done| |done]. destruct Hn as (_ & Hi & _). unfold own in *.
  pose proof (b2z_range (t_cwd s = Some v)). pose proof (b2z_range (bootfs_vnode s = Some v)). lia.
Qed.
Lemma decref_rule v : trip [Ref v] (vnode_decref v) none.
Proof.
  intros E s HE Ho Hv _. pose proof (holds_used _ v _ _ _ HE (or_introl eq_refl) Ho) as Hu.
  destruct (used_node s v Hu) as (x & Hx & Hr). unfold runs, vnode_decref.
  rewrite (bind_Done _ _ _ _ _ (get_vnode_run s v x Hx)).
  rewrite (proj2 (Z.gtb_lt _ _) Hr). unfold kassert. rewrite (bind_Done _ _ s tt s) by done.
  destruct (vn_refcount x >? 1) eqn:E1; rewrite Z.gtb_ltb in E1.
  - eexists tt, _. split; [reflexivity|]. split.
    + eapply (put_owes s v x _ [Ref v]); [done|tots..|done].
    + eapply put_vok; [done|done|left; exact (holds_kind _ v _ _ _ HE (or_introl eq_refl) Ho Hv)|done].
  - apply Z.ltb_ge in E1. destruct (last_reference v s E x HE Ho Hv Hx E1) as (HK & H1 & H0).
    destruct (law_reclaim v HK E s HE Ho Hv (conj H1 H0)) as (a & s' & Hd & Hq).
    exists tt, s'. unfold VOP_RECLAIM. erewrite bind_Done; [split; [reflexivity|exact Hq]|].
    rewrite (vop_run s [Ref v] E v true _ _ x HE Ho Hx Hr).
    pose proof (vk_node _ Hv v x Hx) as Hn. unfold node_ok in Hn. rewrite HK in Hn.
    destruct Hn as (-> & _). exact Hd.
Qed.
Lemma decopen_rule v : trip [Hnd v] (vnode_decopen v) (fun _ => [Ref v]).
Proof.
  intros E s HE Ho Hv _. pose proof (holds_used _ v _ _ _ HE (or_intror eq_refl) Ho) as Hu.
  destruct (used_node s v Hu) as (x & Hx & Hr). unfold runs, vnode_decopen.
  rewrite (bind_Done _ _ _ _ _ (get_vnode_run s v x Hx)).
  assert (0 < vn_opencount x) as Hop.
  { pose proof (o_opn _ _ _ Ho v) as Hop. unfold opens in Hop. rewrite Hx in Hop. specialize (HE (Hnd v)).
    unfold tot in Hop. cbn in Hop. unfold b2z in Hop. case_decide; [lia|done]. }
  rewrite (proj2 (Z.gtb_lt _ _) Hop). unfold kassert. rewrite (bind_Done _ _ s tt s) by done.
  set (s1 := with_vnodes (<[v := set_opencount (vn_opencount x - 1) x]> (vnodes s)) s).
  rewrite (bind_Done _ _ s tt s1) by done.
  assert (owes s1 [Ref v] E) as Ho1 by (eapply (put_owes s v x _ [Hnd v]); [done|tots..|done]).
  assert (vok s1) as Hv1 by (eapply put_vok; [done|done|by right|done]).
  case_match; [by exists tt, s1|].
  destruct (trip_held (Ref v) v (VOP_CLOSE v) none (or_introl eq_refl) (VOP_CLOSE_safe v) E s1 HE Ho1 Hv1 I)
    as (a & s' & Hd & Hq).
  exists tt, s'. rewrite (bind_Done _ _ _ _ _ Hd). done.
Qed.

(** ** The table of devices *)
Lemma safe_frame {A} P L F H (m : M vst A) Q :
  safe P L m Q -> H ≈ L ++ F -> safe P H m (fun a => Q a ++ F).
Proof.
  intros Hm HP E s HE Ho Hv Hs.
  destruct (Hm (fun k => occ k F + E k) s) as (a & s' & Hd & Ho' & Hv'); [|by apply owes_move, (owes_perm _ _ _ _ HP)|done..|].
  { intros k. pose proof (occ_nonneg k F). specialize (HE k). lia. }
  exists a, s'. split; [done|]. split; [|done]. by apply owes_move.
Qed.
(** A step that is safe in the state it starts from. *)
Lemma safe_bind {A B} P L F H (m : M vst A) Q (k : A -> M vst B) R :
  safe P L m Q -> H ≈ L ++ F -> (forall a, trip (Q a ++ F) (k a) R) -> safe P H (m ≫= k) R.
Proof.
  intros Hm HP Hk E s HE Ho Hv Hs.
  destruct (safe_frame P L F H m Q Hm HP E s HE Ho Hv Hs) as (a & s' & Hd & Ho' & Hv').
  destruct (Hk a E s' HE Ho' Hv' I) as (b & s'' & Hd' & Hr).
  exists b, s''. by rewrite (bind_Done _ _ _ _ _ Hd).
Qed.
(** Reading the state and going on with what was read. *)
Lemma trip_gets {A B} H (f : vst -> A) (k : A -> M vst B) R :
  (forall s, safe (eq s) H (k (f s)) R) -> trip H (mgets f ≫= k) R.
Proof.
  intros Hk E s HE Ho Hv _. destruct (Hk s E s HE Ho Hv eq_refl) as (b & s' & Hd & Hr). by exists b, s'.
Qed.
Lemma with_biglock_rule {A} L (m : M vst A) Q :
  trip (Big :: L) m (fun a => Big :: Q a) -> trip L (with_biglock m) Q.
Proof.
  intros Hm. eapply (trip_step [] L); [exact biglock_acquire_rule|acct|intros []].
  eapply trip_bind; [exact Hm|]. intros a.
  eapply (trip_step [Big] (Q a)); [exact biglock_release_rule|acct|intros []]. apply trip_ret. acct.
Qed.
Lemma with_table_rule {A} L (m : M vst A) Q :
  trip (Held :: L) m (fun a => Held :: Q a) -> trip (Free :: L) (with_table m) (fun a => Free :: Q a).
Proof.
  intros Hm. eapply (trip_step [Free] L); [exact lock_rule|acct|intros []].
  eapply trip_bind; [exact Hm|]. intros a.
  eapply (trip_step [Held] (Q a)); [exact unlock_rule|acct|intros []]. apply trip_ret. acct.
Qed.
Lemma intab_elem kd l : kd ∈ l -> 0 < intab (kd_vnode kd) l.
Proof.
  intros Hin. induction l as [|j l IH]; [by apply elem_of_nil in Hin|]. cbn.
  pose proof (b2z_range (kd_vnode j = kd_vnode kd)). pose proof (intab_nonneg (kd_vnode kd) l).
  apply elem_of_cons in Hin as [->|Hin]; [|specialize (IH Hin); lia].
  rewrite b2z_true by done. lia.
Qed.
Lemma intab_used s H E kd : (forall k, 0 <= E k) -> owes s H E -> kd ∈ knowndevs s -> used (kd_vnode kd) s.
Proof.
  intros HE Ho Hin. apply (own_used s H E); [done..|]. unfold own.
  pose proof (intab_elem kd _ Hin).
  pose proof (b2z_range (t_cwd s = Some (kd_vnode kd))). pose proof (b2z_range (bootfs_vnode s = Some (kd_vnode kd))). lia.
Qed.
Lemma getroot_loop_safe n l :
  safe (fun s => Forall (.∈ knowndevs s) l) [] (getroot_loop n l) handed_opt.
Proof.
  induction l as [|kd l IH]; cbn [getroot_loop].
  { by apply ret_safe. }
  intros E s HE Ho Hv Hin. apply Forall_cons in Hin as [Hkd Hin].
  pose proof (proj1 (Forall_forall _ _) (vk_kd _ Hv) kd Hkd) as Hok.
  assert (kd_device kd <> None -> runs s E
    (_ ← vnode_incref (kd_vnode kd); mret (Some (Ok (kd_vnode kd)))) handed_opt) as Hinc.
  { intros Hd. unfold kd_ok in Hok. destruct (kd_device kd); [|done].
    assert (K (kd_vnode kd) <> KHard) as HK by (rewrite Hok; discriminate).
    refine (safe_bind _ [] [] [] _ _ _ handed_opt (incref_safe _ HK) _ _ E s HE Ho Hv _).
    - acct.
    - intros []. apply trip_ret. acct.
    - exact (intab_used _ _ _ _ HE Ho Hkd). }
  assert (kd_fs kd = None \/ kd_name kd <> n -> kd_rawname kd = None \/ kd_name kd <> n -> runs s E
    (if bool_decide (kd_name kd = n) then
       _ ← kassert (bool_decide (kd_fs kd = None));
       _ ← kassert (bool_decide (kd_rawname kd = None));
       _ ← kassert (bool_decide (kd_device kd <> None));
       _ ← vnode_incref (kd_vnode kd);
       mret (Some (Ok (kd_vnode kd)))
     else if samestring (kd_rawname kd) (Some n) then
       _ ← kassert (bool_decide (kd_device kd <> None));
       _ ← vnode_incref (kd_vnode kd);
       mret (Some (Ok (kd_vnode kd)))
     else getroot_loop n l) handed_opt) as Hrest.
  { intros Hf Hr. unfold kd_ok in Hok. case_bool_decide as En.
    - destruct Hf as [Hf|]; [|done]. destruct Hr as [Hr|]; [|done]. rewrite Hf, Hr.
      destruct (kd_device kd) as [d|] eqn:Ed; [|by destruct Hok as (_ & _ & ?)].
      unfold runs. mrun. rewrite !bool_decide_eq_true_2 by done. by apply Hinc.
    - destruct (samestring (kd_rawname kd) (Some n)) eqn:Es; [|exact (IH E s HE Ho Hv Hin)].
      destruct (kd_device kd) as [d|] eqn:Ed; [|destruct Hok as (_ & Hr' & _); by rewrite Hr' in Es].
      unfold runs. mrun. rewrite bool_decide_eq_true_2 by done. by apply Hinc. }
  destruct (kd_fs kd) as [fs|] eqn:Efs.
  - destruct (bool_decide (kd_name kd = n) || _) eqn:En.
    + refine (safe_bind _ [] [] [] _ _ _ handed_opt (law_getroot fs) _ _ E s HE Ho Hv _).
      * acct.
      * intros v. apply trip_ret. acct.
      * by exists kd.
    + apply orb_false_iff in En as [En _]. apply bool_decide_eq_false in En. apply Hrest; by right.
  - destruct (bool_decide (kd_rawname kd <> None) && _) eqn:En.
    + exists (Some (Err ENXIO)), s. split; [done|]. by split.
    + apply Hrest; [by left|]. apply andb_false_iff in En as [En|En]; apply bool_decide_eq_false in En.
      * left. destruct (kd_rawname kd); [|done]. by destruct En.
      * by right.
Qed.
Lemma vfs_getroot_rule n : trip [Free] (vfs_getroot n) (fun r => Free :: handed r).
Proof.
  apply with_table_rule. apply trip_gets. intros s0.
  eapply safe_weaken; [|eapply (safe_bind _ [] [Held]); [apply (getroot_loop_safe n)|acct|]].
  - intros s <-. by apply Forall_forall.
  - intros o. apply trip_ret. destruct o as [[]|]; acct.
Qed.
Lemma vfs_getdevname_rule fs : trip [Free] (vfs_getdevname fs) (fun _ => [Free]).
Proof.
  apply with_table_rule. apply trip_read. intros l. apply trip_ret. acct.
Qed.

(** ** The current directory and the boot file system *)
Lemma getcurdir_step {B} H (k : result Z -> M vst B) R :
  (forall v, K v = KFs -> trip (Ref v :: H) (k (Ok v)) R) -> trip H (k (Err ENOENT)) R ->
  trip H (vfs_getcurdir ≫= k) R.
Proof.
  intros Hok Herr E s HE Ho Hv _. unfold runs, vfs_getcurdir.
  destruct (t_cwd s) as [v|] eqn:Ec.
  - assert (own s v > 0) as Hw.
    { unfold own. rewrite b2z_true by done. pose proof (b2z_range (bootfs_vnode s = Some v)).
      pose proof (intab_nonneg v (knowndevs s)). lia. }
    pose proof (vk_cwd _ Hv v Ec) as HK. assert (K v <> KHard) as HK' by (by rewrite HK).
    destruct (safe_bind _ [] H H _ _ (fun _ => k (Ok v)) R (incref_safe v HK') (fun _ => eq_refl) (fun _ => Hok v HK)
      E s HE Ho Hv (own_used s H E v HE Ho ltac:(lia))) as (b & s' & Hd & Hq).
    exists b, s'. split; [|exact Hq]. rewrite <- Hd. mrun. rewrite Ec. by destruct (vnode_incref v s) as [[]|].
  - destruct (Herr E s HE Ho Hv I) as (b & s' & Hd & Hq). exists b, s'. split; [|exact Hq].
    rewrite <- Hd. mrun. by rewrite Ec.
Qed.
Lemma own_cwd s new v : own (with_cwd new s) v = own s v + b2z (new = Some v) - b2z (t_cwd s = Some v).
Proof. unfold own. cbn. lia. Qed.
Lemma own_boot s new v : own (with_bootfs new s) v = own s v + b2z (new = Some v) - b2z (bootfs_vnode s = Some v).
Proof. unfold own. cbn. lia. Qed.
Lemma occ_optref o v : occ (Ref v) (optref o) = b2z (o = Some v).
Proof.
  destruct o as [w|]; cbn; [|by rewrite b2z_false]. destruct (decide (w = v)) as [->|].
  - by rewrite !b2z_true.
  - by rewrite !b2z_false by congruence.
Qed.
Lemma occ_optref_other o k : (forall v, k <> Ref v) -> occ k (optref o) = 0.
Proof. intros Hk. destruct o as [w|]; cbn; [|done]. rewrite b2z_false; [lia|]. intros <-. by apply (Hk w). Qed.
(** Replacing the current directory, or the boot file system, by a vnode of a
    file system: its reference is taken over, that of the old one comes free. *)
Lemma swap_owes s s' new old F E :
  (forall v, own s' v = own s v + b2z (new = Some v) - b2z (old = Some v)) ->
  vnodes s' = vnodes s -> vfs_biglock_depth s' = vfs_biglock_depth s -> knowndevs_lock s' = knowndevs_lock s ->
  owes s (optref new ++ F) E -> owes s' (optref old ++ F) E.
Proof.
  intros Hw En Ed El [Hr Ho Hb Hf Hh]. unfold tot, refs, opens in *.
  assert (forall k, (forall v, k <> Ref v) -> occ k (optref old ++ F) + E k = occ k (optref new ++ F) + E k) as Ht.
  { intros k Hk. by rewrite !occ_app, !occ_optref_other. }
  split; unfold tot, refs, opens in *; rewrite ?En, ?Ed, ?El; intros; try (rewrite Ht by done; auto).
  eapply owed_eq; [|apply (Hr v)]. rewrite (Ht (Hnd v)) by done. rewrite (Hw v), !(occ_app (Ref v)), !occ_optref. lia.
Qed.
Lemma swap_vok s s' new old :
  (forall v, own s' v = own s v + b2z (new = Some v) - b2z (old = Some v)) ->
  (forall v, new = Some v \/ old = Some v -> K v = KFs) ->
  vnodes s' = vnodes s -> knowndevs s' = knowndevs s -> devices s' = devices s ->
  (forall v, t_cwd s' = Some v \/ bootfs_vnode s' = Some v -> K v = KFs) ->
  vok s -> vok s'.
Proof.
  intros Hw Hk En Et Ed Hcb [Hn Hc Hbo Hkd Ht Hdv Hnm]. split; rewrite ?Et; auto; [|unfold present; rewrite Ed; exact Hdv|unfold live; rewrite En, Et; exact Hnm].
  intros v x Hx. rewrite En in Hx. specialize (Hn v x Hx). unfold node_ok, present in *. rewrite Et, Ed.
  destruct (K v) eqn:EK; [done..|]. rewrite Hn, (Hw v), !b2z_false; [lia| |];
    intros Heq; specialize (Hk v ltac:(auto)); congruence.
Qed.
Lemma chcwd_step {B} new F (k : option Z -> M vst B) R :
  (forall v, new = Some v -> K v = KFs) -> (forall old, trip (optref old ++ F) (k old) R) ->
  trip (optref new ++ F) (old ← mgets t_cwd; _ ← mmodify (with_cwd new); k old) R.
Proof.
  intros HK Hk E s HE Ho Hv _. apply (Hk (t_cwd s) E (with_cwd new s) HE); [| |done].
  - refine (swap_owes s _ new _ F E (own_cwd s new) _ _ _ Ho); done.
  - refine (swap_vok s _ new (t_cwd s) (own_cwd s new) _ _ _ _ _ Hv); try done; cbn.
    + intros v [Hc|Hc]; [by apply HK|exact (vk_cwd _ Hv v Hc)].
    + intros v [Hc|Hb]; [by apply HK|exact (vk_boot _ Hv v Hb)].
Qed.
Lemma chboot_step {B} new F (k : option Z -> M vst B) R :
  (forall v, new = Some v -> K v = KFs) -> (forall old, trip (optref old ++ F) (k old) R) ->
  trip (optref new ++ F) (old ← mgets bootfs_vnode; _ ← mmodify (with_bootfs new); k old) R.
Proof.
  intros HK Hk E s HE Ho Hv _. apply (Hk (bootfs_vnode s) E (with_bootfs new s) HE); [| |done].
  - refine (swap_owes s _ new _ F E (own_boot s new) _ _ _ Ho); done.
  - refine (swap_vok s _ new (bootfs_vnode s) (own_boot s new) _ _ _ _ _ Hv); try done; cbn.
    + intros v [Hc|Hc]; [by apply HK|exact (vk_boot _ Hv v Hc)].
    + intros v [Hc|Hc]; [exact (vk_cwd _ Hv v Hc)|by apply HK].
Qed.
Lemma decref_old old F : trip (optref old ++ F) (match old with Some o => vnode_decref o | None => mret tt end) (fun _ => F).
Proof.
  destruct old as [o|]; [|apply trip_ret; acct].
  exact (trip_framed [Ref o] F _ _ (decref_rule o)).
Qed.
Lemma change_bootfs_rule new : (forall v, new = Some v -> K v = KFs) -> trip (optref new) (change_bootfs new) none.
Proof.
  intros HK. rewrite <- (app_nil_r (optref new)). apply (chboot_step new [] _ none HK).
  intros old. exact (decref_old old []).
Qed.
Lemma vfs_clearcurdir_rule : trip [] vfs_clearcurdir none.
Proof.
  apply (chcwd_step None []); [done|]. intros old.
  eapply trip_bind; [apply decref_old|]. intros []. apply trip_ret. acct.
Qed.
Lemma vfs_clearbootfs_rule : trip [] vfs_clearbootfs none.
Proof.
  apply with_biglock_rule.
  exact (trip_framed [] [Big] _ _ (change_bootfs_rule None ltac:(discriminate))).
Qed.

Ltac step L F rule := refine (trip_step L F _ _ _ _ _ rule _ _); [acct|].
Ltac held v F rule := refine (held_rule (Ref v) v F _ _ _ _ _ (or_introl eq_refl) rule _ _); [acct|].

Lemma trip_kind {A} k v F (m : M vst A) Q : holds k v ->
  (K v = KFs -> trip (k :: F) m Q) -> (K v = KDev -> trip (k :: F) m Q) -> trip (k :: F) m Q.
Proof.
  intros Hk Hf Hd E s HE Ho Hv _. pose proof (holds_kind _ _ _ _ _ HE Hk Ho Hv).
  destruct (K v); [exact (Hf eq_refl E s HE Ho Hv I)|exact (Hd eq_refl E s HE Ho Hv I)|done].
Qed.
Lemma VOP_GETTYPE_safe v : K v <> KHard -> safe (used v) [] (VOP_GETTYPE v) none.
Proof. by_law law_gettype. by apply dev_look_safe. Qed.
(** A device cannot become the current directory. *)
Lemma setcurdir_dev dir : K dir = KDev -> safe (used dir) [] (vfs_setcurdir dir) none.
Proof.
  intros HK E s HE Ho Hv Hu. exists ENOTDIR, s. split; [|by split].
  destruct (dev_of_run s dir Hv Hu HK) as (d & Hd & Hp). destruct (get_device_run s d Hp) as (y & Hy & _).
  destruct (used_node s dir Hu) as (x & Hx & Hr). unfold vfs_setcurdir, VOP_GETTYPE.
  pose proof (vk_node _ Hv dir x Hx) as Hn. unfold node_ok in Hn. rewrite HK in Hn. destruct Hn as (Eo & _).
  erewrite bind_Done; [|rewrite (vop_run s [] E dir false _ _ x HE Ho Hx Hr), Eo; unfold dev_gettype;
    rewrite (bind_Done _ _ _ _ _ Hd), (bind_Done _ _ _ _ _ Hy); reflexivity].
  by destruct (d_blocks y >? 0).
Qed.
Lemma vfs_setcurdir_rule dir : trip [Ref dir] (vfs_setcurdir dir) (fun _ => [Ref dir]).
Proof.
  apply (trip_kind (Ref dir) dir []); [by left| |]; intros HK.
  - held dir (@nil key) (VOP_GETTYPE_safe dir). intros [e|t]; [apply trip_ret; acct|].
    case_match; [apply trip_ret; acct|].
    held dir (@nil key) (incref_safe dir). intros [].
    apply (chcwd_step (Some dir) [Ref dir]); [by intros v [= ->]|]. intros old.
    eapply trip_bind; [exact (decref_old old [Ref dir])|]. intros []. apply trip_ret. acct.
  - exact (trip_held _ _ _ none (or_introl eq_refl) (fun _ => setcurdir_dev dir HK)).
Qed.

(** ** Paths *)
Lemma scan_bounds path i : 0 <= i ->
  (scan i path).1 = -1 \/ i <= (scan i path).1 /\ (scan i path).2 = -1.
Proof.
  revert i. induction path as [|c path IH]; intros i Hi; cbn; [by left|].
  repeat case_match; cbn; [by left|right; lia|]. destruct (IH (i + 1) ltac:(lia)); [by left|right; lia].
Qed.
Lemma scan_colon path sl co : scan 0 path = (sl, co) -> co = 0 -> head path = Some colon.
Proof.
  destruct path as [|c path]; cbn; [by intros [= <- <-]|]. case_match; [intros _ _; f_equal; lia|].
  case_match; [by intros [= <- <-]|]. intros Hs ->.
  assert (forall p i, 0 < i -> (scan i p).2 = -1 \/ 0 < (scan i p).2) as Hp.
  { clear. induction p as [|c p IH]; intros i Hi; cbn; [by left|]. repeat case_match; cbn; [by right|by left|].
    apply IH. lia. }
  specialize (Hp path (0 + 1) ltac:(lia)). rewrite Hs in Hp. cbn in Hp. lia.
Qed.
Lemma getboot_step {B} H (k : option Z -> M vst B) R :
  (forall v, trip (Ref v :: H) (k (Some v)) R) -> trip H (k None) R ->
  trip H (o ← mgets bootfs_vnode; match o with Some v => _ ← vnode_incref v; k (Some v) | None => k None end) R.
Proof.
  intros Hok Herr E s HE Ho Hv _. unfold runs. destruct (bootfs_vnode s) as [v|] eqn:Eb.
  - assert (own s v > 0) as Hw.
    { unfold own. rewrite (b2z_true (bootfs_vnode s = Some v)) by done. pose proof (b2z_range (t_cwd s = Some v)).
      pose proof (intab_nonneg v (knowndevs s)). lia. }
    assert (K v <> KHard) as HK' by (by rewrite (vk_boot _ Hv v Eb)).
    destruct (safe_bind _ [] H H _ _ (fun _ => k (Some v)) R (incref_safe v HK') (fun _ => eq_refl) (fun _ => Hok v)
      E s HE Ho Hv (own_used s H E v HE Ho ltac:(lia))) as (b & s' & Hd & Hq).
    exists b, s'. split; [|exact Hq]. rewrite <- Hd. mrun. by rewrite Eb.
  - destruct (Herr E s HE Ho Hv I) as (b & s' & Hd & Hq). exists b, s'. split; [|exact Hq].
    rewrite <- Hd. mrun. by rewrite Eb.
Qed.
(** The root of the file system a vnode belongs to. *)
Lemma fsroot_step {B} v F (k : Z -> M vst B) R : K v = KFs ->
  (forall r, trip (Ref r :: Ref v :: F) (k r) R) ->
  trip (Ref v :: F) (x ← get_vnode v; match vn_fs x with None => mstop KAssertFail | Some fs => r ← fs_getroot fs; k r end) R.
Proof.
  intros HK Hk E s HE Ho Hv _.
  destruct (used_node s v (holds_used _ v _ _ _ HE (or_introl eq_refl) Ho)) as (x & Hx & _).
  unfold runs. rewrite (bind_Done _ _ _ _ _ (get_vnode_run s v x Hx)).
  pose proof (vk_node _ Hv v x Hx) as Hn. unfold node_ok in Hn. rewrite HK in Hn.
  destruct (vn_fs x) as [fs|] eqn:Ef; [|by destruct Hn].
  refine (safe_bind (live fs) [] (Ref v :: F) _ _ _ _ R (law_getroot fs) (fun _ => eq_refl) Hk E s HE Ho Hv _).
  exact (vk_live _ Hv v x fs Hx Ef).
Qed.
Lemma getdevice_rule path : trip [Big; Free] (getdevice path) (fun r => handed_start r ++ [Big; Free]).
Proof.
  unfold getdevice.
  assert (forall (m : M vst (result (str * Z))) Q, trip [Big; Free] m Q ->
    trip [Big; Free] (b ← vfs_biglock_do_i_hold; _ ← kassert b; m) Q) as Hhold.
  { intros m Q Hm E s HE Ho Hv _. pose proof (biglock_held _ _ _ HE Ho) as Hb.
    destruct (Hm E s HE Ho Hv I) as (a & s' & Hd & Hq). exists a, s'. split; [|done].
    unfold vfs_biglock_do_i_hold. mrun. by rewrite (proj2 (Z.gtb_lt _ _) Hb). }
  apply Hhold. clear Hhold. unfold choose_start. destruct (scan 0 path) as [sl co] eqn:Es.
  destruct ((co <? 0) && negb (sl =? 0)) eqn:E1.
  { apply getcurdir_step; [intros v _|]; apply trip_ret; acct. }
  destruct (co >? 0) eqn:E2.
  { step [Free] [Big] (vfs_getroot_rule (take (Z.to_nat co) path)).
    intros [e|v]; apply trip_ret; acct. }
  pose proof (scan_bounds path 0 ltac:(lia)) as Hb. rewrite Es in Hb. cbn in Hb.
  assert (co = 0 \/ sl = 0) as Hcs by lia. rewrite Z.gtb_ltb in E2.
  assert ((co =? 0) || (sl =? 0) = true) as -> by lia.
  apply (trip_step [] [Big; Free] _ (mret tt) none); [apply trip_ret; acct|acct|intros []].
  case_bool_decide as Eh.
  - apply (getboot_step _ (fun o => match o with
      | Some v => mret (Ok (skip_slashes (drop 1 path), v)) | None => mret (Err ENOENT) end)).
    + intros v. apply trip_ret. acct.
    + apply trip_ret. acct.
  - assert (co = 0) as Hco.
    { destruct Hcs as [?|Hs]; [done|]. exfalso. apply Eh. subst sl. clear -Es Hb.
      destruct path as [|c path]; cbn in Es; [congruence|].
      destruct (c =? colon) eqn:Ec; [congruence|]. destruct (c =? slash) eqn:Esl; [cbn; f_equal; lia|].
      pose proof (scan_bounds path (0 + 1) ltac:(lia)) as Hb'. rewrite Es in Hb'. cbn in Hb'. lia. }
    rewrite (bool_decide_eq_true_2 _ (scan_colon path sl co Es Hco)).
    apply (trip_step [] [Big; Free] _ (mret tt) none); [apply trip_ret; acct|acct|intros []].
    apply getcurdir_step; [|apply trip_ret; acct]. intros v HK.
    apply (fsroot_step v [Big; Free]); [done|]. intros r.
    step [Ref v] [Ref r; Big; Free] (decref_rule v). intros []. apply trip_ret. acct.
Qed.

Lemma vfs_lookparent_rule path n : trip [Free] (vfs_lookparent path n) (fun r => Free :: handed_parent r).
Proof.
  apply with_biglock_rule.
  step [Big; Free] (@nil key) (getdevice_rule path). intros [e|[p v]]; [apply trip_ret; acct|].
  apply (trip_bind _ _ (fun r => (handed_parent r ++ [Ref v]) ++ [Big; Free])).
  - case_bool_decide; [apply trip_ret; acct|].
    exact (trip_framed [Ref v] [Big; Free] _ _
      (trip_held _ v _ _ (or_introl eq_refl) (VOP_LOOKPARENT_safe v p n))).
  - intros r. step [Ref v] (handed_parent r ++ [Big; Free]) (decref_rule v). intros []. apply trip_ret. acct.
Qed.
Lemma vfs_lookup_rule path : trip [Free] (vfs_lookup path) (fun r => Free :: handed r).
Proof.
  apply with_biglock_rule.
  step [Big; Free] (@nil key) (getdevice_rule path). intros [e|[p v]]; [apply trip_ret; acct|].
  case_bool_decide; [apply trip_ret; acct|].
  held v [Big; Free] (VOP_LOOKUP_safe v p). intros r.
  step [Ref v] (handed r ++ [Big; Free]) (decref_rule v). intros []. apply trip_ret. acct.
Qed.
Lemma vfs_chdir_rule path : trip [Free] (vfs_chdir path) (fun _ => [Free]).
Proof.
  eapply trip_bind; [exact (vfs_lookup_rule path)|]. intros [e|v]; [apply trip_ret; acct|].
  step [Ref v] [Free] (vfs_setcurdir_rule v). intros e.
  step [Ref v] [Free] (decref_rule v). intros []. apply trip_ret. acct.
Qed.
Lemma vfs_setbootfs_rule name : trip [Free] (vfs_setbootfs name) (fun _ => [Free]).
Proof.
  apply with_biglock_rule. cbv zeta. destruct (match list_find _ _ with Some _ => _ | None => _ end) as [tmp|];
    [|apply trip_ret; acct].
  step [Free] [Big] (vfs_chdir_rule tmp). intros e. case_match; [apply trip_ret; acct|].
  apply getcurdir_step; [intros v HK|apply trip_ret; acct].
  step [Ref v] [Free; Big] (change_bootfs_rule (Some v) ltac:(intros w [= <-]; exact HK)).
  intros []. apply trip_ret. acct.
Qed.

(** ** Operations on paths *)
Lemma vfs_close_rule v : trip [Hnd v] (vfs_close v) none.
Proof. eapply trip_bind; [exact (decopen_rule v)|]. intros []. exact (decref_rule v). Qed.
Lemma vfs_open_rule path flags mode : trip [Free] (vfs_open path flags mode) (fun r => Free :: handle r).
Proof.
  unfold vfs_open. case_match; [apply trip_ret; acct|].
  apply (trip_bind _ _ (fun r => Free :: handed r)).
  { case_match; [|exact (vfs_lookup_rule path)].
    eapply trip_bind; [exact (vfs_lookparent_rule path _)|]. intros [e|[dir nm]]; [apply trip_ret; acct|].
    held dir [Free] (VOP_CREAT_safe dir nm (bits flags O_EXCL) mode). intros r.
    step [Ref dir] (handed r ++ [Free]) (decref_rule dir). intros []. apply trip_ret. acct. }
  intros [e|v]; [apply trip_ret; acct|].
  held v [Free] (VOP_OPEN_safe v flags). intros e. case_match.
  { step [Ref v] [Free] (decref_rule v). intros []. apply trip_ret. acct. }
  step [Ref v] [Free] (incopen_rule v). intros [].
  apply (trip_bind _ _ (fun _ => [Hnd v; Free])).
  { case_match; [|apply trip_ret; acct]. case_match; [|apply trip_ret; acct].
    exact (trip_framed [Hnd v] [Free] _ _ (trip_held _ v _ _ (or_intror eq_refl) (VOP_TRUNCATE_safe v 0))). }
  intros e'. case_match; [|apply trip_ret; acct].
  step [Hnd v] [Free] (decopen_rule v). intros []. step [Ref v] [Free] (decref_rule v). intros [].
  apply trip_ret. acct.
Qed.
Lemma in_parent_rule path f :
  (forall dir nm, K dir <> KHard -> safe (used dir) [] (f dir nm) none) ->
  trip [Free] (in_parent path f) (fun _ => [Free]).
Proof.
  intros Hf. eapply trip_bind; [exact (vfs_lookparent_rule path _)|]. intros [e|[dir nm]]; [apply trip_ret; acct|].
  held dir [Free] (Hf dir nm). intros e. step [Ref dir] [Free] (decref_rule dir). intros []. apply trip_ret. acct.
Qed.
Lemma trip_held2 {A} v w (m : M vst A) :
  (K v <> KHard -> safe (fun s => used v s /\ used w s) [] m none) ->
  trip [Ref v; Ref w] m (fun _ => [Ref v; Ref w]).
Proof.
  intros Hm E s HE Ho Hv _.
  pose proof (holds_used _ v _ _ _ HE (or_introl eq_refl) Ho) as Hu.
  pose proof (holds_kind _ v _ _ _ HE (or_introl eq_refl) Ho Hv) as HK.
  assert (owes s [Ref w; Ref v] E) as Ho2 by (eapply owes_perm; [|exact Ho]; acct).
  pose proof (holds_used _ w _ _ _ HE (or_introl eq_refl) Ho2) as Hw.
  exact (safe_frame _ [] [Ref v; Ref w] _ _ _ (Hm HK) (fun _ => eq_refl) E s HE Ho Hv (conj Hu Hw)).
Qed.
Lemma samefs_step {B} a b F (k : bool -> M vst B) R :
  (forall c, trip (Ref a :: Ref b :: F) (k c) R) -> trip (Ref a :: Ref b :: F) (samefs a b ≫= k) R.
Proof.
  intros Hk E s HE Ho Hv _.
  destruct (used_node s a (holds_used _ a _ _ _ HE (or_introl eq_refl) Ho)) as (x & Hx & _).
  assert (owes s (Ref b :: Ref a :: F) E) as Ho2 by (eapply owes_perm; [|exact Ho]; acct).
  destruct (used_node s b (holds_used _ b _ _ _ HE (or_introl eq_refl) Ho2)) as (y & Hy & _).
  unfold runs, samefs. erewrite bind_Done.
  2:{ rewrite (bind_Done _ _ _ _ _ (get_vnode_run s a x Hx)), (bind_Done _ _ _ _ _ (get_vnode_run s b y Hy)).
      reflexivity. }
  exact (Hk _ E s HE Ho Hv I).
Qed.
Lemma vfs_rename_rule p q : trip [Free] (vfs_rename p q) (fun _ => [Free]).
Proof.
  eapply trip_bind; [exact (vfs_lookparent_rule p _)|]. intros [e|[a n1]]; [apply trip_ret; acct|].
  step [Free] [Ref a] (vfs_lookparent_rule q (NAME_MAX + 1)). intros [e|[b n2]].
  { step [Ref a] [Free] (decref_rule a). intros []. apply trip_ret. acct. }
  eapply (trip_perm [Ref a; Ref b; Free]); [|acct|intros; exact (fun _ => eq_refl)].
  apply samefs_step. intros c. apply (trip_bind _ _ (fun _ => [Ref a; Ref b; Free])).
  { destruct c; [|apply trip_ret; acct].
    exact (trip_framed [Ref a; Ref b] [Free] _ _ (trip_held2 a b _ (VOP_RENAME_safe a n1 b n2))). }
  intros e. step [Ref b] [Ref a; Free] (decref_rule b). intros []. step [Ref a] [Free] (decref_rule a). intros [].
  apply trip_ret. acct.
Qed.
Lemma vfs_link_rule p q : trip [Free] (vfs_link p q) (fun _ => [Free]).
Proof.
  eapply trip_bind; [exact (vfs_lookup_rule p)|]. intros [e|a]; [apply trip_ret; acct|].
  step [Free] [Ref a] (vfs_lookparent_rule q (NAME_MAX + 1)). intros [e|[b n2]].
  { step [Ref a] [Free] (decref_rule a). intros []. apply trip_ret. acct. }
  eapply (trip_perm [Ref a; Ref b; Free]); [|acct|intros; exact (fun _ => eq_refl)].
  apply samefs_step. intros c. apply (trip_bind _ _ (fun _ => [Ref b; Ref a; Free])).
  { destruct c; [|apply trip_ret; acct]. eapply (trip_perm [Ref b; Ref a; Free]); [|acct|intros; exact (fun _ => eq_refl)].
    exact (trip_framed [Ref b; Ref a] [Free] _ _ (trip_held2 b a _ (VOP_LINK_safe b n2 a))). }
  intros e. step [Ref b] [Ref a; Free] (decref_rule b). intros []. step [Ref a] [Free] (decref_rule a). intros [].
  apply trip_ret. acct.
Qed.
Lemma vfs_readlink_rule p u : trip [Free] (vfs_readlink p u) (fun _ => [Free]).
Proof.
  eapply trip_bind; [exact (vfs_lookup_rule p)|]. intros [e|v]; [apply trip_ret; acct|].
  held v [Free] (VOP_READLINK_safe v u). intros [e u']. step [Ref v] [Free] (decref_rule v). intros [].
  apply trip_ret. acct.
Qed.

(** ** Mounting *)
Lemma tab_lookup s i kd : vok s -> knowndevs s !! i = Some kd -> T !! i = Some (set_fs None kd).
Proof. intros Hv Hk. rewrite <- (vk_tab _ Hv), list_lookup_fmap, Hk. done. Qed.
Lemma get_kd_step {B} i H (k : knowndev -> M vst B) R : (i < length T)%nat ->
  (forall kd, T !! i = Some (set_fs None kd) -> safe (fun s => knowndevs s !! i = Some kd) H (k kd) R) ->
  trip H (get_kd i ≫= k) R.
Proof.
  intros Hi Hk E s HE Ho Hv _.
  destruct (lookup_lt_is_Some_2 (knowndevs s) i) as [kd Hkd].
  { rewrite <- (length_map (set_fs None)), (vk_tab _ Hv). done. }
  unfold runs, get_kd. rewrite (bind_Done _ _ s kd s) by (mrun; by rewrite Hkd).
  exact (Hk kd (tab_lookup s i kd Hv Hkd) E s HE Ho Hv Hkd).
Qed.
Lemma intab_alter v fs (i : nat) l : intab v (alter (set_fs fs) i l) = intab v l.
Proof. revert i. induction l as [|kd l IH]; intros [|i]; cbn; try done. by rewrite IH. Qed.
Lemma tab_alter fs (i : nat) l : map (set_fs None) (alter (set_fs fs) i l) = map (set_fs None) l.
Proof. revert i. induction l as [|kd l IH]; intros [|i]; cbn; try done. by rewrite IH. Qed.
Lemma elem_alter fs (i : nat) (l : list knowndev) kd : kd ∈ alter (set_fs fs) i l ->
  (kd ∈ l) \/ exists kd', l !! i = Some kd' /\ kd = set_fs fs kd'.
Proof.
  intros (j & Hj)%list_elem_of_lookup. destruct (decide (i = j)) as [->|Hn].
  - rewrite list_lookup_alter_eq in Hj. destruct (l !! j) as [kd'|]; [|done]. injection Hj as <-. right. by exists kd'.
  - rewrite list_lookup_alter_ne in Hj by done. left. exact (list_elem_of_lookup_2 _ _ _ Hj).
Qed.
(** The file system of an entry is gone: no vnode belongs to it. *)
Definition dropped (i : nat) (s : vst) : Prop := forall kd fs v x,
  knowndevs s !! i = Some kd -> kd_fs kd = Some fs -> vnodes s !! v = Some x -> vn_fs x <> Some fs.
Lemma set_kd_fs_vok i t fs s : T !! i = Some t -> kd_device t <> None -> dropped i s -> vok s ->
  vok (with_knowndevs (alter (set_fs fs) i (knowndevs s)) s).
Proof.
  intros Ht Hd Hdr Hv. pose proof Hv as [Hn Hc Hbo Hk Htab Hdv Hnm]. split; try done; cbn.
  - intros v x Hx. specialize (Hn v x Hx). unfold node_ok, own in *. cbn. by rewrite intab_alter.
  - apply Forall_forall. intros kd [Hin|(kd' & Hkd & ->)]%elem_alter.
    + exact (proj1 (Forall_forall _ _) Hk kd Hin).
    + pose proof (proj1 (Forall_forall _ _) Hk kd' (list_elem_of_lookup_2 _ _ _ Hkd)) as Hok.
      pose proof (tab_lookup s i kd' Hv Hkd) as Ht'. rewrite Ht in Ht'. injection Ht' as ->.
      unfold kd_ok in *. cbn in *. by destruct (kd_device kd').
  - by rewrite tab_alter.
  - intros kd d [Hin|(kd' & Hkd & ->)]%elem_alter; [by apply Hdv|].
    exact (Hdv kd' d (list_elem_of_lookup_2 _ _ _ Hkd)).
  - intros v x f Hx Hf. destruct (Hnm v x f Hx Hf) as (kd & Hin & Hkf).
    apply list_elem_of_lookup in Hin as (j & Hj). destruct (decide (i = j)) as [->|Hne].
    + by destruct (Hdr kd f v x Hj Hkf Hx).
    + exists kd. split; [|done]. cbn. apply (list_elem_of_lookup_2 _ j).
      by rewrite list_lookup_alter_ne.
Qed.
Lemma set_kd_fs_safe i t fs : T !! i = Some t -> kd_device t <> None -> safe (dropped i) [] (set_kd_fs i fs) none.
Proof.
  intros Ht Hd E s HE [Hr Ho Hb Hf Hh] Hv Hdr. exists tt. eexists. split; [reflexivity|].
  split; [|exact (set_kd_fs_vok i t fs s Ht Hd Hdr Hv)]. split; try done; cbn.
  intros v. unfold own. cbn. rewrite intab_alter. apply Hr.
Qed.
Lemma set_kd_fs_rule i t fs F : T !! i = Some t -> kd_device t <> None ->
  safe (dropped i) F (_ ← set_kd_fs i fs; mret 0) (fun _ => F).
Proof.
  intros Ht Hd. refine (safe_bind _ [] F F _ _ _ _ (set_kd_fs_safe i t fs Ht Hd) (fun _ => eq_refl) _).
  intros []. apply trip_ret. acct.
Qed.
Lemma findmount_spec n j l i : findmount n j l = Some i ->
  exists kd, l !! (i - j)%nat = Some kd /\ (j <= i)%nat /\ kd_rawname kd <> None /\ kd_name kd = n.
Proof.
  revert j. induction l as [|kd l IH]; intros j; cbn; [done|].
  assert (findmount n (S j) l = Some i -> exists kd', (kd :: l) !! (i - j)%nat = Some kd' /\ (j <= i)%nat /\
    kd_rawname kd' <> None /\ kd_name kd' = n) as Hrec.
  { intros (kd' & Hl & Hle & Hp)%IH. exists kd'. split; [|split; [lia|done]].
    by replace (i - j)%nat with (S (i - S j)) by lia. }
  case_bool_decide; [done|]. case_bool_decide; [|done]. intros [= ->]. exists kd.
  rewrite Nat.sub_diag. done.
Qed.
(** The entry [findmount] finds can be mounted on. *)
Lemma findmount_step {B} n (k : option nat -> M vst B) H R :
  trip H (k None) R ->
  (forall i t, T !! i = Some t -> kd_rawname t <> None -> kd_device t <> None -> trip H (k (Some i)) R) ->
  trip H (l ← mgets knowndevs; k (findmount n 0 l)) R.
Proof.
  intros Hno Hk E s HE Ho Hv _. unfold runs. rewrite (bind_Done _ _ s (knowndevs s) s) by done.
  destruct (findmount n 0 (knowndevs s)) as [i|] eqn:Ef; [|exact (Hno E s HE Ho Hv I)].
  apply findmount_spec in Ef as (kd & Hl & _ & Hraw & _). rewrite Nat.sub_0_r in Hl.
  refine (Hk i (set_fs None kd) (tab_lookup s i kd Hv Hl) Hraw _ E s HE Ho Hv I).
  pose proof (proj1 (Forall_forall _ _) (vk_kd _ Hv) kd (list_elem_of_lookup_2 _ _ _ Hl)) as Hok.
  unfold kd_ok in Hok. cbn. destruct (kd_device kd); [done|]. by destruct Hok as (_ & ? & _).
Qed.
Lemma safe_ret {A} P H (a : A) Q : H ≈ Q a -> safe P H (mret a) Q.
Proof. intros HQ. apply (safe_weaken (fun _ => True)); [done|]. by apply trip_ret. Qed.
(** A mount function: it takes nothing, and the table is not its business. *)
Definition mounts (mountfunc : Z -> M vst (result Z)) : Prop := forall d,
  safe (present d) [] (mountfunc d) none /\
  forall s r s', mountfunc d s = Done (r, s') -> knowndevs s' = knowndevs s.
Lemma vfs_mount_rule mountfunc n : mounts mountfunc -> trip [Free] (vfs_mount mountfunc n) (fun _ => [Free]).
Proof.
  intros Hm. apply with_table_rule. apply (findmount_step n (fun o => match o with None => _ | Some i => _ end)).
  { apply trip_ret. acct. }
  intros i t Ht Hraw Hdev. apply get_kd_step; [exact (lookup_lt_Some _ _ _ Ht)|]. intros kd Hkd.
  rewrite Ht in Hkd. injection Hkd as ->. cbn in Hraw, Hdev.
  case_bool_decide as Efs; [apply safe_ret; acct|].
  intros E s HE Ho Hv Hin. unfold runs. rewrite (bind_Done _ _ s tt s) by (by rewrite bool_decide_eq_true_2).
  destruct (kd_device kd) as [d|] eqn:Ed; [|done].
  pose proof (vk_dev _ Hv kd d (list_elem_of_lookup_2 _ _ _ Hin) Ed) as Hp.
  destruct (safe_frame _ [] [Held] [Held] _ _ (proj1 (Hm d)) (fun _ => eq_refl) E s HE Ho Hv Hp) as (r & s1 & Hd & Ho1 & Hv1).
  rewrite (bind_Done _ _ _ _ _ Hd). destruct r as [e|fs]; [by exists e, s1|].
  apply (set_kd_fs_rule i _ (Some fs) [Held] Ht ltac:(cbn; congruence) E s1 HE Ho1 Hv1).
  intros kd' f v x Hkd'. rewrite (proj2 (Hm d) _ _ _ Hd), Hin in Hkd'. injection Hkd' as <-.
  rewrite Efs. discriminate.
Qed.
(** [fs_sync] of a mounted file system, which stays mounted, and its end. *)
Lemma sync_step {B} i kd fs F (k : Z -> M vst B) R : kd_fs kd = Some fs ->
  (forall e, safe (fun s => knowndevs s !! i = Some kd) F (k e) R) ->
  safe (fun s => knowndevs s !! i = Some kd) F (fs_sync fs ≫= k) R.
Proof.
  intros Hf Hk E s HE Ho Hv Hin.
  assert (live fs s) as Hl by (exists kd; split; [exact (list_elem_of_lookup_2 _ _ _ Hin)|done]).
  destruct (safe_frame _ [] F F _ _ (law_sync fs) (fun _ => eq_refl) E s HE Ho Hv Hl) as (e & s1 & Hd & Ho1 & Hv1).
  unfold runs. rewrite (bind_Done _ _ _ _ _ Hd). apply (Hk e E s1 HE Ho1 Hv1).
  by rewrite (law_sync_table _ _ _ _ Hd).
Qed.
Lemma unmount_step {B} i kd fs F (k : Z -> M vst B) R : kd_fs kd = Some fs ->
  (forall e, safe (fun s => e = 0 -> dropped i s) F (k e) R) ->
  safe (fun s => knowndevs s !! i = Some kd) F (fs_unmount fs ≫= k) R.
Proof.
  intros Hf Hk E s HE Ho Hv Hin.
  assert (live fs s) as Hl by (exists kd; split; [exact (list_elem_of_lookup_2 _ _ _ Hin)|done]).
  destruct (safe_frame _ [] F F _ _ (law_unmount fs) (fun _ => eq_refl) E s HE Ho Hv Hl) as (e & s1 & Hd & Ho1 & Hv1).
  unfold runs. rewrite (bind_Done _ _ _ _ _ Hd). apply (Hk e E s1 HE Ho1 Hv1).
  destruct (law_unmount_all _ _ _ _ Hd) as [Htab Hgone]. intros He kd' f v x Hkd' Hf' Hx.
  rewrite Htab, Hin in Hkd'. injection Hkd' as <-. rewrite Hf in Hf'. injection Hf' as <-. exact (Hgone He v x Hx).
Qed.
Lemma vfs_unmount_rule n : trip [Free] (vfs_unmount n) (fun _ => [Free]).
Proof.
  apply with_table_rule. apply (findmount_step n (fun o => match o with None => _ | Some i => _ end)).
  { apply trip_ret. acct. }
  intros i t Ht Hraw Hdev. apply get_kd_step; [exact (lookup_lt_Some _ _ _ Ht)|]. intros kd Hkd.
  rewrite Ht in Hkd. injection Hkd as ->. cbn in Hraw, Hdev.
  destruct (kd_fs kd) as [fs|] eqn:Ef; [|apply safe_ret; acct].
  rewrite !bool_decide_eq_true_2 by done.
  change (safe (fun s => knowndevs s !! i = Some kd) [Held] (fs_sync fs ≫= fun e => if negb (e =? 0) then mret e else
    e ← fs_unmount fs; if negb (e =? 0) then mret e else _ ← set_kd_fs i None; mret 0) (fun _ => [Held])).
  apply (sync_step i kd); [done|]. intros e. case_match; [apply safe_ret; acct|].
  apply (unmount_step i kd); [done|]. intros e'. destruct (Z.eqb_spec e' 0); cbn [negb]; [|apply safe_ret; acct].
  eapply safe_weaken; [|exact (set_kd_fs_rule i _ None [Held] Ht Hdev)]. auto.
Qed.
Lemma sync_loop_rule n i : (i + n <= length T)%nat -> trip [Held] (sync_loop n i) (fun _ => [Held]).
Proof.
  revert i. induction n as [|n IH]; intros i Hi; cbn [sync_loop]; [apply trip_ret; acct|].
  apply get_kd_step; [lia|]. intros kd _ E s HE Ho Hv Hin.
  assert (safe (fun s => knowndevs s !! i = Some kd) [Held]
    (match kd_fs kd with Some fs => _ ← fs_sync fs; mret tt | None => mret tt end) (fun _ => [Held])) as Hs.
  { destruct (kd_fs kd) as [fs|] eqn:Ef; [|apply safe_ret; acct].
    apply (sync_step i kd); [done|]. intros e. apply safe_ret. acct. }
  refine (safe_bind _ [Held] [] [Held] _ _ _ _ Hs _ _ E s HE Ho Hv Hin); [acct|]. intros []. apply IH. lia.
Qed.
Lemma table_length s : vok s -> length (knowndevs s) = length T.
Proof. intros Hv. by rewrite <- (vk_tab _ Hv), length_map. Qed.
Lemma table_loop (f : nat -> nat -> M vst unit) :
  (forall n i, (i + n <= length T)%nat -> trip [Held] (f n i) (fun _ => [Held])) ->
  trip [Free] (with_table (l ← mgets knowndevs; _ ← f (length l) O; mret 0)) (fun _ => [Free]).
Proof.
  intros Hf. apply with_table_rule. intros E s HE Ho Hv _. unfold runs.
  rewrite (bind_Done _ _ s (knowndevs s) s) by done. rewrite (table_length s Hv).
  refine (trip_bind [Held] _ _ _ (fun _ => [Held]) (Hf _ O _) _ E s HE Ho Hv I); [lia|].
  intros []. apply trip_ret. acct.
Qed.
Lemma vfs_sync_rule : trip [Free] vfs_sync (fun _ => [Free]).
Proof. exact (table_loop sync_loop sync_loop_rule). Qed.
Lemma bind_assoc {A B C} (m : M vst A) (f : A -> M vst B) (g : B -> M vst C) s :
  ((m ≫= f) ≫= g) s = (m ≫= fun a => f a ≫= g) s.
Proof. mrun. by destruct (m s) as [[]|]. Qed.
Lemma safe_assoc {A B C} P H (m : M vst A) (f : A -> M vst B) (g : B -> M vst C) R :
  safe P H (m ≫= fun a => f a ≫= g) R -> safe P H ((m ≫= f) ≫= g) R.
Proof. intros Hm E s HE Ho Hv Hs. unfold runs. setoid_rewrite bind_assoc. exact (Hm E s HE Ho Hv Hs). Qed.
Lemma unmount_one_step {B} i kd F (k : bool -> M vst B) R :
  safe (dropped i) F (k true) R -> trip F (k false) R ->
  safe (fun s => knowndevs s !! i = Some kd) F (unmount_one kd ≫= k) R.
Proof.
  intros Ht Hf. assert (forall P, safe P F (k false) R) as Hf' by (intros P; by apply (safe_weaken (fun _ => True))).
  unfold unmount_one. destruct (kd_rawname kd); [|exact (Hf' _)].
  destruct (kd_fs kd) as [fs|] eqn:Ef; [|exact (Hf' _)].
  assert (forall e, safe (fun s => knowndevs s !! i = Some kd) F
    ((if negb (e =? 0) then mret false else e ← fs_unmount fs; mret (e =? 0)) ≫= k) R) as Hu.
  { intros e. case_match; [exact (Hf' _)|]. apply safe_assoc. apply (unmount_step i kd); [done|]. intros e'.
    destruct (Z.eqb_spec e' 0); [|exact (Hf' _)]. eapply safe_weaken; [|exact Ht]. auto. }
  apply safe_assoc, (sync_step i kd); [done|]. intros e. apply safe_assoc.
  destruct (negb (e =? 0)); [by apply (sync_step i kd)|exact (Hu 0)].
Qed.
Lemma unmountall_loop_rule n i : (i + n <= length T)%nat -> trip [Held] (unmountall_loop n i) (fun _ => [Held]).
Proof.
  revert i. induction n as [|n IH]; intros i Hi; cbn [unmountall_loop]; [apply trip_ret; acct|].
  apply get_kd_step; [lia|]. intros kd Hkd E s HE Ho Hv Hin.
  pose proof (proj1 (Forall_forall _ _) (vk_kd _ Hv) kd (list_elem_of_lookup_2 _ _ _ Hin)) as Hok.
  destruct (kd_rawname kd) as [rn|] eqn:Er.
  - assert (kd_device kd <> None) as Hd.
    { unfold kd_ok in Hok. destruct (kd_device kd); [done|]. destruct Hok as (_ & ? & _). congruence. }
    refine (unmount_one_step i kd [Held] _ _ _ _ E s HE Ho Hv Hin); [|exact (IH (S i) ltac:(lia))].
    refine (safe_bind _ [] [Held] _ _ _ _ _ (set_kd_fs_safe i _ None Hkd Hd) (fun _ => eq_refl) _).
    intros []. apply IH. lia.
  - unfold runs, unmount_one. rewrite Er. apply (IH (S i) ltac:(lia) E s HE Ho Hv I).
Qed.
Lemma vfs_unmountall_rule : trip [Free] vfs_unmountall (fun _ => [Free]).
Proof. exact (table_loop unmountall_loop unmountall_loop_rule). Qed.

(** ** The name of the current directory

    The uio that [sys___getcwd] sets up: what is left to fill is what is left
    of its buffer. *)
Definition fits (u : sio) : Prop :=
  u_rw u = UIO_READ /\ 0 <= u_resid u < 2 ^ 32 /\ u_len u = u_resid u /\ u_resid u <= u_room u.
Lemma umove_fits t u : fits u -> exists u', umove t u = Done (0, t, u') /\ fits u'.
Proof.
  intros (Hrw & Hr & Hl & Hm). unfold umove. set (n := Z.of_nat (length t)).
  destruct ((0 <? n) && (0 <? u_resid u)) eqn:E1; [|exists u; done].
  apply andb_true_iff in E1 as [E1 E2]. rewrite Hl.
  assert (0 < (if n <? u_resid u then n else u_resid u) <= u_resid u) as Hs by (case_match; lia).
  assert (n <= u_resid u -> (if n <? u_resid u then n else u_resid u) = n) as Hs' by (case_match; lia).
  assert (u_resid u < n -> (if n <? u_resid u then n else u_resid u) = u_resid u) as Hs'' by (case_match; lia).
  set (size := if n <? u_resid u then n else u_resid u) in *.
  rewrite (proj2 (Z.eqb_neq _ _)), (proj2 (Z.ltb_ge _ _)) by lia.
  assert (u32 (u_resid u - size) = u_resid u - size) as Eu by (apply uwrap_small; lia).
  cbn [took u_resid]. rewrite Eu.
  replace ((0 <? n - size) && (0 <? u_resid u - size)) with false by lia.
  eexists. split; [unfold filled; rewrite Hrw; reflexivity|].
  unfold fits, took. cbn. rewrite Eu. repeat split; try done; lia.
Qed.
Lemma getdevname_loop_live fs l kd : kd ∈ l -> kd_fs kd = Some fs -> is_Some (getdevname_loop fs l).
Proof.
  induction l as [|j l IH]; cbn; [by intros ?%elem_of_nil|]. intros [->|Hin]%elem_of_cons Hf.
  - by rewrite bool_decide_eq_true_2.
  - case_bool_decide; [done|]. by apply IH.
Qed.
Lemma getdevname_run fs s F E : (forall k, 0 <= E k) -> owes s (Free :: F) E -> live fs s ->
  exists n, with_biglock (vfs_getdevname fs) s = Done (Some n, s).
Proof.
  intros HE Ho (kd & Hin & Hf). destruct (getdevname_loop_live fs _ kd Hin Hf) as [n Hn]. exists n.
  pose proof (o_free _ _ _ Ho) as Hfr. pose proof (tot_nonneg F E Free HE) as Ht.
  assert (knowndevs_lock s = Some false) as El.
  { unfold tot in *. cbn in Hfr. rewrite (b2z_true (Free = Free)) in Hfr by done.
    destruct (decide (knowndevs_lock s = Some false)) as [|Hne]; [done|].
    rewrite b2z_false in Hfr by done. lia. }
  pose proof (owed_ge _ _ (o_big _ _ _ Ho)) as Hb. pose proof (tot_nonneg (Free :: F) E Big HE).
  unfold with_biglock, vfs_biglock_acquire, vfs_getdevname, with_table, lock_knowndevs, unlock_knowndevs,
    vfs_biglock_release. mrun. cbn. rewrite El. cbn. rewrite Hn, (proj2 (Z.gtb_lt _ _)) by lia. cbn.
  repeat f_equal. unfold with_depth, with_lock. cbn. destruct s; cbn in *. f_equal; [done|lia].
Qed.
Lemma vfs_getcwd_rule u : fits u -> trip [Free] (vfs_getcwd u) (fun _ => [Free]).
Proof.
  intros Hu. unfold vfs_getcwd. rewrite (proj1 Hu).
  apply (trip_step [] [Free] _ (mret tt) none); [apply trip_ret; acct|acct|intros []].
  apply getcurdir_step; [|apply trip_ret; acct]. intros v HK E s HE Ho Hv _.
  destruct (used_node s v (holds_used _ v _ _ _ HE (or_introl eq_refl) Ho)) as (x & Hx & _).
  unfold runs. rewrite (bind_Done _ _ _ _ _ (get_vnode_run s v x Hx)).
  pose proof (vk_node _ Hv v x Hx) as Hn. unfold node_ok in Hn. rewrite HK in Hn.
  destruct (vn_fs x) as [fs|] eqn:Ef; [|by destruct Hn].
  assert (exists name, (match fs_getvolname fs with Some n => mret (Some n)
    | None => with_biglock (vfs_getdevname fs) end) s = Done (Some name, s)) as (name & Hname).
  { destruct (fs_getvolname fs) as [n|]; [by exists n|].
    refine (getdevname_run fs s [Ref v] E HE _ (vk_live _ Hv v x fs Hx Ef)). eapply owes_perm; [|exact Ho]. acct. }
  rewrite (bind_Done _ _ _ _ _ Hname).
  destruct (umove_fits name u Hu) as (u1 & H1 & Hu1). destruct (umove_fits [colon] u1 Hu1) as (u2 & H2 & Hu2).
  rewrite (bind_Done _ _ s (0, u1) s) by (unfold umove_str; mrun; by rewrite H1).
  cbn [negb Z.eqb].
  enough (trip [Ref v; Free] ('(e, u) ← (umove_str [colon] u1 ≫= fun '(e, u) =>
     if negb (e =? 0) then mret (e, u) else VOP_NAMEFILE v u); _ ← vnode_decref v; mret (e, u)) (fun _ => [Free])) as Hrest
    by exact (Hrest E s HE Ho Hv I).
  apply (trip_bind _ _ (fun _ => [Ref v; Free])).
  - intros E' s' HE' Ho' Hv' _. unfold runs.
    rewrite (bind_Done _ _ s' (0, u2) s') by (unfold umove_str; mrun; by rewrite H2).
    exact (trip_framed [Ref v] [Free] _ _ (trip_held _ v _ _ (or_introl eq_refl) (VOP_NAMEFILE_safe v u2)) E' s' HE' Ho' Hv' I).
  - intros [e u']. step [Ref v] [Free] (decref_rule v). intros []. apply trip_ret. acct.
Qed.
End refs.
