(* ===== verification/VfsSpec.v ===== *)
(** * What kern/vfs guarantees

    Sequences of calls into the VFS layer keep its books in order whatever the
    file systems do within their laws; names of devices stay distinct and
    [vfs_getroot] finds the device a name belongs to; and three places where
    the code does not do what its interface says.  [Disk] is a concrete file
    system that meets the laws. *)
From S2P Require Import Prelude Memory CopyInOut Uio Stream.
Import Uio Stream.
From S2P Require Import Vfs VfsRefs.

(** ** Sessions

    The calls of the VFS layer (vfs.h), and a client that keeps the vnodes it
    has open, and those it was given a plain reference to, in two lists and
    names them by their places there.  An added device comes with the address
    its vnode gets and with which allocations succeed. *)
Inductive vcall : Type :=
  | Open (path : str) (flags mode : Z)
  | Close (i : nat)
  | Read (i : nat) (u : sio)
  | Write (i : nat) (u : sio)
  | Stat (i : nat)
  | Tryseek (i : nat) (pos : Z)
  | Getdirentry (i : nat) (u : sio)
  | Remove (path : str)
  | Rename (oldpath newpath : str)
  | Link (oldpath newpath : str)
  | Symlink (contents path : str)
  | Readlink (path : str) (u : sio)
  | Mkdir (path : str) (mode : Z)
  | Rmdir (path : str)
  | Chdir (path : str)
  | Getcwd (u : sio)
  | Clearcurdir
  | Setbootfs (name : str)
  | Clearbootfs
  | Sync
  | Mount (mountfunc : Z -> M vst (result Z)) (name : str)
  | Unmount (name : str)
  | Unmountall
  | Lookup (path : str)
  | Lookparent (path : str) (buflen : Z)
  | Getroot (name : str)
  | Getcurdir
  | Setcurdir (i : nat)
  | Decref (i : nat)
  | Getdevname (fs : Z)
  | Adddev (mem : allocs) (vn : Z) (name : str) (dev : Z) (mountable : bool)
  | Addfs (mem : allocs) (vn : Z) (name : str) (fs : Z).
(** What the client has: its open vnodes and its references. *)
Record client := Client { c_open : list Z; c_refs : list Z }.

Section sessions.
Context `{FS : FsOps}.

(** An operation on the [i]-th open vnode. *)
Definition on_handle {A} (i : nat) (c : client) (f : Z -> M vst A) : M vst client :=
  match c_open c !! i with Some v => _ ← f v; mret c | None => mret c end.
Definition keeping {A} (c : client) (m : M vst A) : M vst client := _ ← m; mret c.
(** A call that hands back a vnode. *)
Definition given {A} (c : client) (m : M vst (result A)) (f : A -> Z) : M vst client :=
  r ← m; mret (match r with Ok a => Client (c_open c) (f a :: c_refs c) | Err _ => c end).
Definition perform (k : vcall) (c : client) : M vst client :=
  match k with
  | Open p f m =>
      r ← vfs_open p f m; mret (match r with Ok v => Client (v :: c_open c) (c_refs c) | Err _ => c end)
  | Close i =>
      match c_open c !! i with
      | Some v => _ ← vfs_close v; mret (Client (delete i (c_open c)) (c_refs c))
      | None => mret c
      end
  | Read i u => on_handle i c (fun v => VOP_READ v u)
  | Write i u => on_handle i c (fun v => VOP_WRITE v u)
  | Stat i => on_handle i c VOP_STAT
  | Tryseek i pos => on_handle i c (fun v => VOP_TRYSEEK v pos)
  | Getdirentry i u => on_handle i c (fun v => VOP_GETDIRENTRY v u)
  | Remove p => keeping c (vfs_remove p)
  | Rename p q => keeping c (vfs_rename p q)
  | Link p q => keeping c (vfs_link p q)
  | Symlink t p => keeping c (vfs_symlink t p)
  | Readlink p u => keeping c (vfs_readlink p u)
  | Mkdir p m => keeping c (vfs_mkdir p m)
  | Rmdir p => keeping c (vfs_rmdir p)
  | Chdir p => keeping c (vfs_chdir p)
  | Getcwd u => keeping c (vfs_getcwd u)
  | Clearcurdir => keeping c vfs_clearcurdir
  | Setbootfs n => keeping c (vfs_setbootfs n)
  | Clearbootfs => keeping c vfs_clearbootfs
  | Sync => keeping c vfs_sync
  | Mount f n => keeping c (vfs_mount f n)
  | Unmount n => keeping c (vfs_unmount n)
  | Unmountall => keeping c vfs_unmountall
  | Lookup p => given c (vfs_lookup p) id
  | Lookparent p n => given c (vfs_lookparent p n) fst
  | Getroot n => given c (vfs_getroot n) id
  | Getcurdir => given c vfs_getcurdir id
  | Setcurdir i => match c_refs c !! i with Some v => keeping c (vfs_setcurdir v) | None => mret c end
  | Decref i =>
      match c_refs c !! i with
      | Some v => _ ← vnode_decref v; mret (Client (c_open c) (delete i (c_refs c)))
      | None => mret c
      end
  | Getdevname fs => keeping c (vfs_getdevname fs)
  | Adddev mem vn n d m => keeping c (vfs_adddev mem vn n d m)
  | Addfs mem vn n fs => keeping c (vfs_addfs mem vn n fs)
  end.
Fixpoint session (ks : list vcall) (c : client) : M vst client :=
  match ks with
  | [] => mret c
  | k :: r => c' ← perform k c; session r c'
  end.

Context (K : Z -> kind) (ex : bool).
(** When a device may be added: its vnode gets an address of its own, the
    locks and the place in the table can be allocated, and none of the names
    it brings is in the table. *)
Record addable (mem : allocs) (vn : Z) (n : str) (mountable : bool) (dev fs : option Z) (s : vst) : Prop := Addable {
  ad_lock : al_lock mem = true;
  ad_vlocks : al_vlocks mem = true;
  ad_array : al_array mem = true;
  ad_new : vnodes s !! vn = None;
  ad_names : badnames (Some n) (if mountable then Some (mkrawname n) else None) (fs ≫= fs_getvolname) (knowndevs s) = false;
  ad_what : match dev with
            | Some d => K vn = KDev /\ present d s
            | None => K vn = KHard /\ mountable = false /\ fs <> None
            end;
}.
(** The arguments a caller has to get right. *)
Definition proper (k : vcall) (s : vst) : Prop :=
  match k with
  | Read _ u => reading u = true
  | Write _ u => reading u = false
  | Getcwd u => fits u
  | Mount f _ => forall T, mounts K T ex f
  | Adddev mem vn n d m => addable mem vn n m (Some d) None s
  | Addfs mem vn n fs => addable mem vn n false None (Some fs) s
  | _ => True
  end.
(** A sequence of calls whose arguments are right when they are made. *)
Fixpoint careful (ks : list vcall) (c : client) (s : vst) : Prop :=
  match ks with
  | [] => True
  | k :: r => proper k s /\ forall c' s', perform k c s = Done (c', s') -> careful r c' s'
  end.

Definition books (c : client) : list key := Free :: map Hnd (c_open c) ++ map Ref (c_refs c).
Ltac bal := unfold books; cbn [map c_open c_refs]; acct.
Lemma occ_take k (f : Z -> key) i l v :
  l !! i = Some v -> occ k (map f l) = b2z (f v = k) + occ k (map f (delete i l)).
Proof.
  revert i. induction l as [|w l IH]; intros [|i]; try done.
  - by intros [= ->].
  - intros Hi. change (delete (S i) (w :: l)) with (w :: delete i l).
    cbn [map occ]. rewrite (IH i Hi). lia.
Qed.
Lemma books_open i c v : c_open c !! i = Some v ->
  books c ≈ Hnd v :: books (Client (delete i (c_open c)) (c_refs c)).
Proof. intros Hi k. unfold books. cbn. rewrite !occ_app, (occ_take k Hnd i _ v Hi). cbn. lia. Qed.
Lemma books_ref i c v : c_refs c !! i = Some v ->
  books c ≈ Ref v :: books (Client (c_open c) (delete i (c_refs c))).
Proof. intros Hi k. unfold books. cbn. rewrite !occ_app, (occ_take k Ref i _ v Hi). cbn. lia. Qed.

Section table.
Context (T : list knowndev) `{FL : !FsLaws K T ex}.
Lemma keeping_rule {A} c (m : M vst A) :
  trip K T ex [Free] m (fun _ => [Free]) -> trip K T ex (books c) (keeping c m) books.
Proof.
  intros Hm. apply (trip_step K T ex [Free] (map Hnd (c_open c) ++ map Ref (c_refs c)) _ _ _ _ _ Hm); [bal|].
  intros a. apply trip_ret. bal.
Qed.
Lemma given_rule {A} c (m : M vst (result A)) f :
  trip K T ex [Free] m (fun r => Free :: match r with Ok a => [Ref (f a)] | Err _ => [] end) ->
  trip K T ex (books c) (given c m f) books.
Proof.
  intros Hm. apply (trip_step K T ex [Free] (map Hnd (c_open c) ++ map Ref (c_refs c)) _ _ _ _ _ Hm); [bal|].
  intros [e|a]; apply trip_ret; bal.
Qed.
Lemma on_handle_rule {A} i c (f : Z -> M vst A) :
  (forall v, K v <> KHard -> safe K T ex (used v) [] (f v) none) ->
  trip K T ex (books c) (on_handle i c f) books.
Proof.
  intros Hf. unfold on_handle. destruct (c_open c !! i) as [v|] eqn:Hi; [|apply trip_ret; bal].
  apply (held_rule K T ex (Hnd v) v (books (Client (delete i (c_open c)) (c_refs c))) _ none _ _ _ (or_intror eq_refl) (Hf v));
    [exact (books_open i c v Hi)|].
  intros a. apply trip_ret. intros k. symmetry. exact (books_open i c v Hi k).
Qed.
Lemma getcurdir_rule : trip K T ex [Free] vfs_getcurdir (fun r => Free :: handed r).
Proof.
  assert (trip K T ex [Free] (r ← vfs_getcurdir; mret r) (fun r => Free :: handed r)) as Hm.
  { apply getcurdir_step; [intros v HK|]; apply trip_ret; acct. }
  intros E s HE Ho Hv HI. destruct (Hm E s HE Ho Hv HI) as (r & s' & Hd & Hq). exists r, s'. split; [|exact Hq].
  revert Hd. clear. destruct (vfs_getcurdir s) as [[]|] eqn:Hr; unfold mbind, M_bind; rewrite Hr; auto.
Qed.
(** Every call but those that change the table. *)
Definition adds (k : vcall) : bool := match k with Adddev _ _ _ _ _ | Addfs _ _ _ _ => true | _ => false end.
Lemma perform_rule k c s : proper k s -> adds k = false -> trip K T ex (books c) (perform k c) books.
Proof.
  destruct k; cbn [perform proper adds]; intros Hp Ha; try discriminate Ha;
    try (apply keeping_rule); try (apply on_handle_rule; intros v HK); try (apply given_rule).
  - refine (trip_step K T ex [Free] (map Hnd (c_open c) ++ map Ref (c_refs c)) _ _ _ _ _
      (vfs_open_rule K T ex path flags mode) _ _); [bal|].
    intros [e|v]; apply trip_ret; bal.
  - destruct (c_open c !! i) as [v|] eqn:Hi; [|apply trip_ret; bal].
    refine (trip_step K T ex [Hnd v] (books (Client (delete i (c_open c)) (c_refs c))) _ _ _ _ _ (vfs_close_rule K T ex v) _ _);
      [exact (books_open i c v Hi)|]. intros []. apply trip_ret. bal.
  - by apply VOP_READ_safe.
  - by apply VOP_WRITE_safe.
  - by apply VOP_STAT_safe.
  - by apply VOP_TRYSEEK_safe.
  - by apply VOP_GETDIRENTRY_safe.
  - apply in_parent_rule; [done|]. intros dir nm. by apply VOP_REMOVE_safe.
  - by apply vfs_rename_rule.
  - by apply vfs_link_rule.
  - apply in_parent_rule; [done|]. intros dir nm. by apply VOP_SYMLINK_safe.
  - by apply vfs_readlink_rule.
  - apply in_parent_rule; [done|]. intros dir nm. by apply VOP_MKDIR_safe.
  - apply in_parent_rule; [done|]. intros dir nm. by apply VOP_RMDIR_safe.
  - by apply vfs_chdir_rule.
  - by apply vfs_getcwd_rule.
  - exact (trip_framed K T ex [] [Free] _ _ (vfs_clearcurdir_rule K T ex)).
  - by apply vfs_setbootfs_rule.
  - exact (trip_framed K T ex [] [Free] _ _ (vfs_clearbootfs_rule K T ex)).
  - by apply vfs_sync_rule.
  - by apply vfs_mount_rule.
  - by apply vfs_unmount_rule.
  - by apply vfs_unmountall_rule.
  - by apply vfs_lookup_rule.
  - refine (trip_perm K T ex _ _ _ _ _ (vfs_lookparent_rule K T ex path buflen) (fun _ => eq_refl) _).
    intros [e|[v nm]]; done.
  - by apply vfs_getroot_rule.
  - by apply getcurdir_rule.
  - destruct (c_refs c !! i) as [v|] eqn:Hi; [|apply trip_ret; bal].
    refine (trip_step K T ex [Ref v] (books (Client (c_open c) (delete i (c_refs c)))) _ _ _ _ _ (vfs_setcurdir_rule K T ex v) _ _);
      [exact (books_ref i c v Hi)|]. intros a. apply trip_ret. intros k. symmetry. exact (books_ref i c v Hi k).
  - destruct (c_refs c !! i) as [v|] eqn:Hi; [|apply trip_ret; bal].
    refine (trip_step K T ex [Ref v] (books (Client (c_open c) (delete i (c_refs c)))) _ _ _ _ _ (decref_rule K T ex v) _ _);
      [exact (books_ref i c v Hi)|]. intros []. apply trip_ret. bal.
  - by apply vfs_getdevname_rule.
Qed.
End table.

(** *** Adding a device *)
Section adding.
Context (mem : allocs) (vn : Z) (n : str) (mountable : bool) (dev fs : option Z).
Definition entry : knowndev := Knowndev n (if mountable then Some (mkrawname n) else None) dev vn fs.
Definition enter (s : vst) : vst :=
  let s1 := with_knowndevs (knowndevs s ++ [entry]) (with_vnodes (<[vn := Vnode 1 0 None dev dev_vnode_ops]> (vnodes s)) s) in
  match dev ≫= (devices s !!.) with
  | Some x => with_devices (match dev with
      | Some d => <[d := Device (d_blocks x) (d_blocksize x) (u32 (Z.of_nat (length (knowndevs s)) + 1))]>
      | None => id end (devices s)) s1
  | None => s1
  end.
Lemma doadd_run s : addable mem vn n mountable dev fs s -> knowndevs_lock s = Some false ->
  vfs_doadd mem vn n mountable dev fs s = Done (ENOMEM, s) \/
  vfs_doadd mem vn n mountable dev fs s = Done (0, enter s).
Proof.
  intros [Hl Hvl Ha Hn Hb Hw] Hk. unfold vfs_doadd, enter, entry. rewrite Hl, Ha.
  destruct s as [ns ds ks lk bl cw bo]. cbn in *. subst lk.
  destruct (negb (al_name mem) || _); [left; reflexivity|].
  unfold dev_create_vnode. rewrite Hvl. destruct (al_vnode mem); cbn [negb]; [|left; reflexivity].
  destruct (al_kd mem); cbn [negb].
  - right. unfold lock_knowndevs, unlock_knowndevs, get_device, put_vnode. mrun. cbn -[badnames].
    change (option_bind Z str fs_getvolname fs) with (fs ≫= fs_getvolname). rewrite Hb.
    destruct dev as [d|]; cbn; [|reflexivity].
    destruct Hw as (_ & x & Hx & _). cbn in Hx. mrun. cbn. rewrite Hx. mrun. reflexivity.
  - left. unfold lock_knowndevs, unlock_knowndevs, put_vnode. mrun. cbn. mrun.
    by rewrite delete_insert_id.
Qed.
Lemma enter_fields s : vnodes (enter s) = <[vn := Vnode 1 0 None dev dev_vnode_ops]> (vnodes s) /\
  knowndevs (enter s) = knowndevs s ++ [entry] /\ knowndevs_lock (enter s) = knowndevs_lock s /\
  vfs_biglock_depth (enter s) = vfs_biglock_depth s /\ t_cwd (enter s) = t_cwd s /\ bootfs_vnode (enter s) = bootfs_vnode s.
Proof. unfold enter. by destruct (dev ≫= _). Qed.
Lemma enter_present d s : present d s -> present d (enter s).
Proof.
  intros (x & Hx & Hb). unfold enter, present.
  destruct (dev ≫= _) as [y|] eqn:Hy; [|by exists x]. destruct dev as [d'|]; [|done]. cbn in *.
  destruct (decide (d' = d)) as [->|]; [|rewrite lookup_insert_ne by done; by exists x].
  rewrite lookup_insert_eq. eexists. split; [reflexivity|]. cbn. by simplify_eq.
Qed.
Lemma intab_app v l l' : intab v (l ++ l') = intab v l + intab v l'.
Proof. induction l as [|kd l IH]; cbn; [lia|]. rewrite IH. lia. Qed.
(** Nothing refers to an address that has no vnode. *)
Lemma new_unowned s H E : vnodes s !! vn = None -> (forall k, 0 <= E k) -> owes ex s H E -> own s vn = 0.
Proof.
  intros Hn HE Ho. pose proof (own_nonneg s vn). destruct (decide (own s vn = 0)) as [|Hw]; [done|].
  pose proof (own_used ex s H E vn HE Ho ltac:(lia)) as Hu. unfold used, refs in Hu. rewrite Hn in Hu. cbn in Hu. lia.
Qed.
Lemma enter_owes s H E : vnodes s !! vn = None -> owes ex s H E -> owes ex (enter s) H E.
Proof.
  intros Hn [Or Oo Ob Of Oh]. destruct (enter_fields s) as (En & Ek & El & Eb & Ec & Eo).
  split; [| |by rewrite Eb|by rewrite El..].
  - intros v. eapply owed_eq; [|exact (Or v)]. unfold own, refs. rewrite En, Ek, Ec, Eo, intab_app.
    cbn. destruct (decide (vn = v)) as [->|Hv].
    + rewrite lookup_insert_eq, Hn, (b2z_true (v = v)) by done. cbn. lia.
    + rewrite lookup_insert_ne, (b2z_false (vn = v)) by done. lia.
  - intros v. rewrite <- (Oo v). unfold opens. rewrite En. destruct (decide (vn = v)) as [->|Hv].
    + by rewrite lookup_insert_eq, Hn.
    + by rewrite lookup_insert_ne.
Qed.
Lemma enter_vok T s : addable mem vn n mountable dev fs s -> own s vn = 0 -> vok K T s ->
  vok K (T ++ [set_fs None entry]) (enter s).
Proof.
  intros Ha Hw [Hn Hc Hb Hk Ht Hd Hf]. destruct (enter_fields s) as (En & Ek & El & Eb & Ec & Eo).
  pose proof (ad_what _ _ _ _ _ _ _ Ha) as Hwh.
  split; rewrite ?En, ?Ek, ?Ec, ?Eo; try done.
  - intros v x [[<- <-]|[Hne Hx]]%lookup_insert_Some.
    + unfold node_ok. rewrite Ek, intab_app. cbn. rewrite (b2z_true (vn = vn)) by done.
      pose proof (intab_nonneg vn (knowndevs s)). destruct dev as [d|]; cbn.
      * destruct Hwh as [-> Hp]. split; [done|]. split; [lia|]. exists d. split; [done|]. by apply enter_present.
      * destruct Hwh as [-> _]. unfold own in *. rewrite Ek, Ec, Eo, intab_app. cbn.
        rewrite (b2z_true (vn = vn)) by done. lia.
    + specialize (Hn v x Hx). unfold node_ok in *. destruct (K v); [done| |].
      * destruct Hn as (? & ? & d & ? & ?). rewrite Ek, intab_app. pose proof (intab_nonneg v [entry]).
        split; [done|]. split; [lia|]. exists d. split; [done|]. by apply enter_present.
      * rewrite Hn. unfold own. rewrite Ek, Ec, Eo, intab_app. cbn. rewrite (b2z_false (vn = v)) by done. lia.
  - apply Forall_app. split; [done|]. apply Forall_singleton. unfold kd_ok. cbn.
    destruct dev as [d|]; cbn; [by destruct Hwh|]. by destruct Hwh as (? & -> & ?).
  - by rewrite map_app, Ht.
  - intros kd d [Hin | ->%list_elem_of_singleton]%elem_of_app Hkd; apply enter_present; [by apply (Hd kd)|].
    cbn in Hkd. rewrite Hkd in Hwh. by destruct Hwh.
  - intros v x f [[<- <-]|[Hne Hx]]%lookup_insert_Some Hxf; [done|].
    destruct (Hf v x f Hx Hxf) as (kd & Hin & Hkd). exists kd. split; [|done]. rewrite Ek. apply elem_of_app. by left.
Qed.
Lemma doadd_rule T s c E :
  addable mem vn n mountable dev fs s -> (forall k, 0 <= E k) -> vok K T s -> owes ex s (books c) E ->
  exists e s' T', vfs_doadd mem vn n mountable dev fs s = Done (e, s') /\ vok K (T ++ T') s' /\ owes ex s' (books c) E.
Proof.
  intros Ha HE Hv Ho. pose proof (ad_new _ _ _ _ _ _ _ Ha) as Hn.
  assert (knowndevs_lock s = Some false) as Hl.
  { pose proof (o_free _ _ _ _ Ho) as Hf. pose proof (tot_nonneg (map Hnd (c_open c) ++ map Ref (c_refs c)) E Free HE) as Ht.
    unfold tot, books in *. cbn [occ] in Hf. rewrite (b2z_true (Free = Free)) in Hf by done.
    unfold b2z in Hf. case_decide; [done|lia]. }
  destruct (doadd_run s Ha Hl) as [-> | ->].
  - exists ENOMEM, s, []. by rewrite app_nil_r.
  - exists 0, (enter s), [set_fs None entry]. split; [done|]. split.
    + exact (enter_vok T s Ha (new_unowned s _ E Hn HE Ho) Hv).
    + exact (enter_owes s _ E Hn Ho).
Qed.
End adding.

Lemma keeping_run {A} c (m : M vst A) s a s' : m s = Done (a, s') -> keeping c m s = Done (c, s').
Proof. intros Hm. unfold keeping. by rewrite (bind_Done _ _ _ _ _ Hm). Qed.
Context (FL : forall T, FsLaws K T ex).
Lemma perform_ok k c T E s :
  proper k s -> (forall k, 0 <= E k) -> vok K T s -> owes ex s (books c) E ->
  exists c' s' T', perform k c s = Done (c', s') /\ vok K (T ++ T') s' /\ owes ex s' (books c') E.
Proof.
  intros Hp HE Hv Ho. destruct (adds k) eqn:Ha.
  - destruct k; try discriminate Ha; cbn [proper perform] in *;
      destruct (doadd_rule _ _ _ _ _ _ T s c E Hp HE Hv Ho) as (e & s' & T' & Hd & Hv' & Ho');
      exists c, s', T'; (split; [exact (keeping_run _ _ _ _ _ Hd)|by split]).
  - destruct (perform_rule T k c s Hp Ha E s HE Ho Hv I) as (c' & s' & Hd & Ho' & Hv').
    exists c', s', []. by rewrite app_nil_r.
Qed.
Lemma session_ok ks c T E s :
  careful ks c s -> (forall k, 0 <= E k) -> vok K T s -> owes ex s (books c) E ->
  exists c' s' T', session ks c s = Done (c', s') /\ vok K (T ++ T') s' /\ owes ex s' (books c') E.
Proof.
  intros Hc HE. revert c T s Hc. induction ks as [|k ks IH]; intros c T s Hc Hv Ho.
  { exists c, s, []. by rewrite app_nil_r. }
  destruct Hc as [Hp Hr]. destruct (perform_ok k c T E s Hp HE Hv Ho) as (c1 & s1 & T1 & Hd & Hv1 & Ho1).
  destruct (IH c1 (T ++ T1) s1 (Hr c1 s1 Hd) Hv1 Ho1) as (c2 & s2 & T2 & Hd2 & Hv2 & Ho2).
  exists c2, s2, (T1 ++ T2). cbn [session]. rewrite (bind_Done _ _ _ _ _ Hd), app_assoc. by split.
Qed.
End sessions.

(** ** Names of devices *)
Section names.
Context `{FS : FsOps}.

(** The names under which an entry of the table can be found. *)
Definition names (kd : knowndev) : list str :=
  kd_name kd :: option_list (kd_rawname kd) ++ option_list (volname_of kd).
Definition distinct (l : list knowndev) : Prop := forall i j a b n,
  l !! i = Some a -> l !! j = Some b -> n ∈ names a -> n ∈ names b -> i = j.

Lemma elem_option_list (o : option str) n : n ∈ option_list o <-> o = Some n.
Proof.
  destruct o as [x|]; cbn.
  - rewrite list_elem_of_singleton. naive_solver.
  - split; [by intros ?%elem_of_nil|done].
Qed.
Lemma names_spec kd n :
  n ∈ names kd <-> volname_of kd = Some n \/ kd_rawname kd = Some n \/ kd_name kd = n.
Proof.
  unfold names. rewrite elem_of_cons, elem_of_app, !elem_option_list.
  naive_solver.
Qed.
Lemma samestring_true a b : samestring a b = true <-> exists n, a = Some n /\ b = Some n.
Proof.
  destruct a as [x|], b as [y|]; cbn; [|split; [done|intros (n & ? & ?); congruence]..].
  rewrite bool_decide_eq_true. split; [intros ->; eauto|intros (n & ? & ?); congruence].
Qed.
Lemma samestring3_true a b c d :
  samestring3 a b c d = true <-> exists n, a = Some n /\ (b = Some n \/ c = Some n \/ d = Some n).
Proof.
  unfold samestring3. rewrite !orb_true_iff, !samestring_true. split.
  - intros [[(n & -> & ->)|(n & -> & ->)]|(n & -> & ->)]; eauto.
  - intros (n & -> & [->|[->| ->]]); eauto 6.
Qed.
Lemma badnames_true n1 n2 n3 l : badnames n1 n2 n3 l = true <->
  exists kd n, kd ∈ l /\ n ∈ names kd /\ (n1 = Some n \/ n2 = Some n \/ n3 = Some n).
Proof.
  induction l as [|kd l IH]; cbn [badnames].
  { split; [done|]. intros (kd & n & Hin & _). by apply elem_of_nil in Hin. }
  rewrite !orb_true_iff, IH, !samestring3_true. split.
  - intros [[(n & Hn & Hs)|[(n & Hn & Hs)|(n & Hn & Hs)]]|(kd' & n & Hin & Hn & Hs)].
    1-3: exists kd, n; split; [apply list_elem_of_here|]; split; [apply names_spec|done]; try tauto.
    + injection Hn. tauto.
    + exists kd', n. split; [by apply list_elem_of_further|done].
  - intros (kd' & n & [->|Hin]%elem_of_cons & Hn & Hs); [left|right; eauto].
    apply names_spec in Hn as [Hn|[Hn|<-]]; eauto 6.
Qed.
Lemma distinct_snoc l kd : distinct l ->
  (forall a n, a ∈ l -> n ∈ names a -> n ∈ names kd -> False) -> distinct (l ++ [kd]).
Proof.
  intros Hl Hk i j a b n Hi Hj Ha Hb.
  apply lookup_app_Some in Hi as [Hi|[Hli Hi]]; apply lookup_app_Some in Hj as [Hj|[Hlj Hj]].
  - by eapply Hl.
  - apply list_lookup_singleton_Some in Hj as [_ <-]. destruct (Hk a n (list_elem_of_lookup_2 _ _ _ Hi) Ha Hb).
  - apply list_lookup_singleton_Some in Hi as [_ <-]. destruct (Hk b n (list_elem_of_lookup_2 _ _ _ Hj) Hb Ha).
  - apply list_lookup_singleton_Some in Hi as [? _]. apply list_lookup_singleton_Some in Hj as [? _]. lia.
Qed.
(** What [vfs_doadd] returns and what becomes of the table. *)
Lemma doadd_table mem vn d m dev fs s e s' :
  vfs_doadd mem vn d m dev fs s = Done (e, s') ->
  let kd := Knowndev d (if m then Some (mkrawname d) else None) dev vn fs in
  (e <> 0 /\ knowndevs s' = knowndevs s) \/
  (e = 0 /\ knowndevs s' = knowndevs s ++ [kd] /\
   badnames (Some d) (kd_rawname kd) (volname_of kd) (knowndevs s) = false).
Proof.
  unfold vfs_doadd, dev_create_vnode, lock_knowndevs, unlock_knowndevs, put_vnode, vfs_biglock_release, get_device.
  destruct mem as [[] al_n al_r [] [] [] al_a]; cbn [al_lock al_name al_raw al_vnode al_vlocks al_kd al_array]; mrun; try discriminate;
    destruct (negb al_n || (m && negb al_r)); cbn; try (intros [= <- <-]; left; done); try discriminate.
  destruct (badnames _ _ _ _) eqn:Hb.
  - destruct (_ >? 0); [|discriminate]. intros [= <- <-]. by left.
  - destruct al_a; cbn; [|intros [= <- <-]; by left]. destruct dev as [dv|].
    + cbn. destruct (devices s !! dv); cbn; [|discriminate]. intros [= <- <-]. by right.
    + intros [= <- <-]. by right.
Qed.

(** What the entry of a name stands for (the comment on [struct knowndev]). *)
Definition answer (n : str) (kd : knowndev) : M vst (result Z) :=
  let itself := _ ← vnode_incref (kd_vnode kd); mret (Ok (kd_vnode kd)) in
  if bool_decide (kd_rawname kd = Some n) && bool_decide (kd_name kd <> n) && negb (samestring (volname_of kd) (Some n))
  then itself
  else match kd_fs kd with
       | Some fs => v ← fs_getroot fs; mret (Ok v)
       | None => if bool_decide (kd_rawname kd <> None) then mret (Err ENXIO) else itself
       end.
(** An entry without a device is a file system of its own. *)
Definition shaped (kd : knowndev) : Prop :=
  kd_device kd = None -> kd_rawname kd = None /\ kd_fs kd <> None.
Lemma getroot_skip n kd l s : n ∉ names kd -> getroot_loop n (kd :: l) s = getroot_loop n l s.
Proof.
  rewrite names_spec. intros Hn. cbn [getroot_loop].
  assert (kd_name kd <> n) as H1 by tauto. rewrite (bool_decide_eq_false_2 (kd_name kd = n)) by done.
  assert (samestring (kd_rawname kd) (Some n) = false) as H2.
  { apply not_true_is_false. rewrite samestring_true. intros (x & ? & [= ->]). tauto. }
  rewrite H2. unfold volname_of in Hn. destruct (kd_fs kd) as [fs|]; cbn in Hn.
  - assert (samestring (fs_getvolname fs) (Some n) = false) as H3.
    { apply not_true_is_false. rewrite samestring_true. intros (x & ? & [= ->]). tauto. }
    by rewrite H3.
  - by rewrite andb_false_r.
Qed.
Ltac itself := mrun; repeat case_bool_decide; try done; try (exfalso; tauto); match goal with |- context [vnode_incref ?v ?s] => by destruct (vnode_incref v s) as [[]|] end.
Lemma getroot_hit n kd l s : shaped kd -> n ∈ names kd ->
  getroot_loop n (kd :: l) s = (r ← answer n kd; mret (Some r)) s.
Proof.
  intros Hsh Hn%names_spec. cbn [getroot_loop]. unfold answer, volname_of, shaped in *.
  destruct kd as [nm rw dv vn fs]; cbn in *.
  destruct (decide (nm = n)) as [->|Hne].
  - rewrite (bool_decide_eq_true_2 (n = n)) by done. rewrite (bool_decide_eq_false_2 (n <> n)) by tauto.
    rewrite andb_false_r. cbn. destruct fs as [f|]; cbn.
    + mrun. by destruct (fs_getroot f s) as [[]|].
    + destruct rw as [r|]; cbn; [done|]. destruct dv as [d|]; [|by destruct (Hsh eq_refl)].
      itself.
  - rewrite (bool_decide_eq_false_2 (nm = n)) by done. rewrite (bool_decide_eq_true_2 (nm <> n)) by done.
    destruct fs as [f|]; cbn in *.
    + destruct (samestring (fs_getvolname f) (Some n)) eqn:Ev; cbn.
      * rewrite andb_false_r. mrun. by destruct (fs_getroot f s) as [[]|].
      * destruct Hn as [Hn|[->|?]]; [rewrite Hn in Ev; cbn in Ev; by rewrite bool_decide_eq_true_2 in Ev| |done].
        cbn. rewrite bool_decide_eq_true_2 by done. rewrite (bool_decide_eq_true_2 (Some n = Some n)) by done. cbn.
        destruct dv as [d|]; [|by destruct (Hsh eq_refl)]. itself.
    + destruct Hn as [?|[->|?]]; [done| |done]. rewrite andb_false_r. cbn.
      rewrite (bool_decide_eq_true_2 (n = n)), (bool_decide_eq_true_2 (Some n = Some n)) by done. cbn.
      destruct dv as [d|]; [|by destruct (Hsh eq_refl)]. itself.
Qed.
Lemma getroot_found n kd l i s : distinct l -> l !! i = Some kd -> shaped kd -> n ∈ names kd ->
  getroot_loop n l s = (r ← answer n kd; mret (Some r)) s.
Proof.
  intros Hd Hi Hsh Hn. revert i Hi. induction l as [|k l IH]; intros i Hi; [done|].
  destruct i as [|i]; cbn in Hi.
  - injection Hi as ->. by apply getroot_hit.
  - rewrite getroot_skip.
    + refine (IH _ i Hi). intros a b x y m Ha Hb Hx Hy.
      pose proof (Hd (S a) (S b) x y m Ha Hb Hx Hy). lia.
    + intros Hk. pose proof (Hd O (S i) k kd n eq_refl Hi Hk Hn). lia.
Qed.
Lemma getroot_absent n l s : (forall kd, kd ∈ l -> n ∉ names kd) -> getroot_loop n l s = Done (None, s).
Proof.
  induction l as [|kd l IH]; intros Hn; [done|].
  rewrite getroot_skip by (apply Hn, list_elem_of_here). apply IH. intros k Hk. by apply Hn, list_elem_of_further.
Qed.
End names.

(** ** Paths *)
Definition plain (d : str) : Prop := Forall (fun c => c <> colon /\ c <> slash) d.
Lemma scan_plain d r i : plain d -> scan i (d ++ r) = scan (i + Z.of_nat (length d)) r.
Proof.
  intros Hd. revert i. induction Hd as [|c d [Hc Hs] Hd IH]; intros i; cbn.
  { f_equal. lia. }
  rewrite (proj2 (Z.eqb_neq _ _) Hc), (proj2 (Z.eqb_neq _ _) Hs), IH. f_equal. lia.
Qed.
Section paths.
Context `{FS : FsOps}.
Lemma getdevice_start path s : 0 < vfs_biglock_depth s -> getdevice path s = choose_start path s.
Proof.
  intros Hd. unfold getdevice.
  erewrite bind_Done; [|unfold vfs_biglock_do_i_hold; mrun; by rewrite (proj2 (Z.gtb_lt _ _) Hd)]. done.
Qed.
Lemma scan_relative path sl co : (forall d r, plain d -> path = d ++ colon :: r -> False) ->
  scan 0 path = (sl, co) -> co = -1.
Proof.
  assert (forall p i sl co, 0 <= i -> (forall d r, plain d -> p = d ++ colon :: r -> False) ->
    scan i p = (sl, co) -> co = -1) as Hg; [|apply Hg; lia].
  clear. induction p as [|c p IH]; intros i sl co Hi Hno; cbn; [by intros [= <- <-]|].
  destruct (Z.eqb_spec c colon) as [->|Hc]; [destruct (Hno [] p); [constructor|done]|].
  destruct (Z.eqb_spec c slash) as [->|Hs]; [by intros [= <- <-]|].
  apply (IH (i + 1)); [lia|]. intros d r Hd ->. apply (Hno (c :: d) r); [by constructor|done].
Qed.
End paths.

(** ** The properties *)

(** C14: any sequence of calls into the VFS layer runs to its end, as long as
    the client closes or drops only vnodes it was given, reads and writes with
    the right kind of uio, asks for the working directory with a sound uio,
    mounts with a function that takes nothing, and adds only devices and file
    systems whose names are not in the table yet (the second [vfs_adddev] of a
    name fails an assertion, [duplicate_device_stops]) while the allocator
    provides the locks and the place in the table: no assertion fails, no lock
    is taken twice, no dangling vnode is used.  Afterwards every count is
    accounted for: the references of a vnode are those of the current
    directory, the boot file system and the table, the open handles and
    references of the client, and those others had before; its open count is
    the number of handles; both locks are as they were found; the table has
    only grown.  [ex] selects equality, for file systems that meet the laws
    exactly; otherwise counts can only be higher. *)
Theorem vfs_calls_balanced `{FS : FsOps} K ex (FL : forall T, FsLaws K T ex) ks c T E s :
  careful K ex ks c s -> (forall k, 0 <= E k) -> vok K T s -> owes ex s (books c) E ->
  exists c' s' T', session ks c s = Done (c', s') /\ vok K (T ++ T') s' /\ owes ex s' (books c') E.
Proof. intros Hc HE. exact (session_ok K ex FL ks c T E s Hc HE). Qed.
(** C36: adding a device or file system keeps all names in the table distinct
    (device names, raw names and volume names), adds exactly one entry when it
    returns 0, and otherwise leaves the table alone. *)
Theorem doadd_keeps_names_distinct `{FS : FsOps} mem vn d m dev fs s e s' :
  distinct (knowndevs s) ->
  vfs_doadd mem vn d m dev fs s = Done (e, s') ->
  distinct (knowndevs s') /\
  knowndevs s' = knowndevs s ++
    (if e =? 0 then [Knowndev d (if m then Some (mkrawname d) else None) dev vn fs] else []).
Proof.
  intros Hd Hr%doadd_table. cbn zeta in Hr. destruct Hr as [[He ->]|(-> & -> & Hb)].
  - rewrite (proj2 (Z.eqb_neq _ _) He), app_nil_r. done.
  - split; [|done]. apply distinct_snoc; [done|]. intros a n Ha Hn Hk. apply not_true_iff_false in Hb. apply Hb.
    apply badnames_true. exists a, n. split; [done|]. split; [done|]. apply names_spec in Hk as [Hk|[Hk|Hk]]; cbn in *; subst; auto.
Qed.
(** C35: With distinct names, [vfs_getroot] finds the entry a name belongs to
    wherever it is in the table, and returns what the comment on [struct
    knowndev] says: the root of the file system, the device itself, or
    [ENXIO]; a name nothing has gives [ENODEV]. *)
Theorem getroot_resolves `{FS : FsOps} s : distinct (knowndevs s) ->
  (forall i kd n, knowndevs s !! i = Some kd -> shaped kd -> n ∈ names kd ->
     vfs_getroot n s = with_table (answer n kd) s) /\
  (forall n, (forall kd, kd ∈ knowndevs s -> n ∉ names kd) ->
     vfs_getroot n s = with_table (mret (Err ENODEV)) s).
Proof.
  intros Hd. unfold vfs_getroot, with_table, lock_knowndevs. split.
  - intros i kd n Hi Hsh Hn. mrun. destruct (knowndevs_lock s) as [[]|]; [done| |done]. cbn.
    rewrite (getroot_found n kd (knowndevs s) i _ Hd Hi Hsh Hn). mrun.
    by destruct (answer n kd _) as [[[]]|].
  - intros n Hn. mrun. destruct (knowndevs_lock s) as [[]|]; [done| |done]. cbn.
    by rewrite (getroot_absent n (knowndevs s) _ Hn).
Qed.
(** How a path is taken apart: device:path starts at the root of the
    device and loses the slashes after the colon; /path starts at the boot
    file system, :path at the root of the file system of the current
    directory; any other path is passed on whole and starts at the current
    directory. *)
Theorem getdevice_parses `{FS : FsOps} s : 0 < vfs_biglock_depth s ->
  (forall d r, plain d -> d <> [] ->
     getdevice (d ++ colon :: r) s = (v ←? vfs_getroot d; mret (Ok (skip_slashes r, v))) s) /\
  (forall r, getdevice (slash :: r) s =
     match bootfs_vnode s with
     | None => Done (Err ENOENT, s)
     | Some v => (_ ← vnode_incref v; mret (Ok (skip_slashes r, v))) s
     end) /\
  (forall r, getdevice (colon :: r) s =
     (vn ←? vfs_getcurdir;
      x ← get_vnode vn;
      match vn_fs x with
      | None => mstop KAssertFail
      | Some fs => v ← fs_getroot fs; _ ← vnode_decref vn; mret (Ok (skip_slashes r, v))
      end) s) /\
  (forall p, head p <> Some slash -> (forall d r, plain d -> p = d ++ colon :: r -> False) ->
     getdevice p s = (v ←? vfs_getcurdir; mret (Ok (p, v))) s).
Proof.
  intros Hd. split; [|split; [|split]]; intros; rewrite getdevice_start by done; unfold choose_start.
  - rewrite scan_plain by done. cbn [scan]. rewrite Z.eqb_refl, Z.add_0_l.
    assert (0 < Z.of_nat (length d)) by (destruct d; [done|cbn; lia]).
    rewrite (proj2 (Z.ltb_ge _ _)), (proj2 (Z.gtb_lt _ _)) by lia. cbn [andb].
    rewrite Nat2Z.id, take_app_length. replace (length d + 1)%nat with (S (length d)) by lia.
    replace (drop (S (length d)) (d ++ colon :: r)) with r; [done|].
    rewrite drop_app_ge by lia. by replace (S (length d) - length d)%nat with 1%nat by lia.
  - rewrite (bool_decide_eq_true_2 (head (slash :: r) = Some slash)) by done.
    cbn. mrun. by destruct (bootfs_vnode s).
  - rewrite (bool_decide_eq_false_2 (head (colon :: r) = Some slash)) by done.
    by rewrite (bool_decide_eq_true_2 (head (colon :: r) = Some colon)).
  - destruct (scan 0 p) as [sl co] eqn:Es. rewrite (scan_relative p sl co H0 Es) in *. cbn [Z.ltb andb].
    destruct (Z.eqb_spec sl 0) as [->|]; [|done]. exfalso. apply H. destruct p as [|c p]; cbn in Es; [congruence|].
    destruct (c =? colon) eqn:Ec; [congruence|]. destruct (c =? slash) eqn:Esl; [cbn; f_equal; lia|].
    pose proof (scan_bounds p (0 + 1) ltac:(lia)) as Hb. rewrite Es in Hb. cbn in Hb. lia.
Qed.
(** Adding a name that exists never reports [EEXIST]: outside the VFS layer
    the error path gives back the big lock, which it does not hold, and stops
    the machine. *)
Theorem duplicate_device_stops `{FS : FsOps} vn d (m : bool) dev fs s :
  vfs_biglock_depth s = 0 ->
  badnames (Some d) (if m then Some (mkrawname d) else None) (fs ≫= fs_getvolname) (knowndevs s) = true ->
  vfs_doadd (Allocs true true true true true true true) vn d m dev fs s = Stop KAssertFail.
Proof.
  intros Hd Hb. unfold vfs_doadd, dev_create_vnode, lock_knowndevs, put_vnode, vfs_biglock_release.
  destruct fs as [f|]; cbn in *; rewrite andb_false_r; mrun; cbn; rewrite Hb; cbn; rewrite Hd; done.
Qed.
(** [vfs_setbootfs] refuses every name with a colon (in the part of the
    name it keeps), also the form "lhd0:" its interface asks for. *)
Theorem setbootfs_refuses_colon `{FS : FsOps} name s :
  0 <= vfs_biglock_depth s -> colon ∈ take 254 name -> vfs_setbootfs name s = Done (EINVAL, s).
Proof.
  intros Hd Hin. unfold vfs_setbootfs, with_biglock, vfs_biglock_acquire, vfs_biglock_release. cbv zeta.
  destruct (list_find_elem_of (eq colon) (take 254 name) colon Hin eq_refl) as ([i c] & Hf). rewrite Hf.
  apply list_find_Some in Hf as (Hl & _ & _). apply lookup_lt_Some in Hl.
  rewrite (proj2 (Z.ltb_lt _ _)) by (rewrite length_drop; lia). mrun. cbn.
  rewrite (proj2 (Z.gtb_lt _ _)) by lia. repeat f_equal. unfold with_depth. destruct s; cbn. f_equal. lia.
Qed.
(** Adding a device puts a new lock in place of the one that protects the
    table, so it goes ahead whoever holds the old one. *)
Theorem doadd_ignores_lock `{FS : FsOps} mem vn d m dev fs s b :
  vfs_doadd mem vn d m dev fs (with_lock b s) = vfs_doadd mem vn d m dev fs s.
Proof.
  unfold vfs_doadd at 1 2. destruct (al_lock mem); [|done].
  rewrite !(bind_Done _ _ _ tt _ eq_refl). done.
Qed.
(** Seeking on a block device is allowed exactly at the start of each of
    its blocks. *)
Theorem dev_tryseek_blocks v pos s x d y :
  vnodes s !! v = Some x -> vn_data x = Some d -> devices s !! d = Some y ->
  0 < d_blocks y -> 0 < d_blocksize y ->
  exists e, dev_tryseek v pos s = Done (e, s) /\
    (e = 0 <-> exists b, 0 <= b < d_blocks y /\ pos = b * d_blocksize y).
Proof.
  intros Hx Hd Hy Hb Hs. unfold dev_tryseek, dev_of, get_vnode, get_device. mrun.
  rewrite Hx. cbn. rewrite Hd. cbn. rewrite Hy. cbn.
  rewrite (proj2 (Z.gtb_lt _ _)) by lia. rewrite (proj2 (Z.eqb_neq (d_blocksize y) 0)) by lia.
  destruct (Z.eqb_spec (Z.rem pos (d_blocksize y)) 0) as [Hr|Hr]; cbn.
  2:{ exists EINVAL. split; [done|]. split; [done|]. intros (b & Hb' & ->). by rewrite Z.rem_mul in Hr by lia. }
  pose proof (Z.quot_rem' pos (d_blocksize y)) as Hq.
  destruct (Z.ltb_spec pos 0); [exists EINVAL; split; [done|]; split; [done|]; intros (b & ? & ->); nia|].
  rewrite Z.geb_leb. destruct (Z.leb_spec (d_blocks y) (Z.quot pos (d_blocksize y))).
  - exists EINVAL. split; [done|]. split; [done|]. intros (b & ? & ->). rewrite Z.quot_mul in * by lia. lia.
  - exists 0. split; [done|]. split; [|done]. intros _. exists (Z.quot pos (d_blocksize y)).
    pose proof (Z.quot_pos pos (d_blocksize y)). lia.
Qed.

(** ** A file system that meets the laws

    Every volume has one directory, its root; vnodes of devices are below 100. *)
Module Disk.
Definition root_of (fs : Z) : Z := 100 + Z.abs fs.
Definition kind_of (v : Z) : kind := if v <? 100 then KDev else KFs.
Definition getroot (fs : Z) : M vst Z :=
  let v := root_of fs in
  s ← mget;
  match vnodes s !! v with
  | Some x => _ ← put_vnode v (set_refcount (vn_refcount x + 1) x); mret v
  | None => _ ← put_vnode v (Vnode 1 0 (Some fs) None fs_vnode_ops); mret v
  end.
Definition unmount (fs : Z) : M vst Z :=
  s ← mget;
  mret (if decide (map_Forall (fun _ x => vn_fs x <> Some fs) (vnodes s)) then 0 else EBUSY).
Definition reclaim (v : Z) : M vst Z :=
  _ ← mmodify (fun s => with_vnodes (delete v (vnodes s)) s); mret 0.
Definition lookup (v : Z) (p : str) : M vst (result Z) :=
  if bool_decide (p = [46]) then _ ← vnode_incref v; mret (Ok v) else mret (Err ENOENT).
Definition lookparent (v : Z) (p : str) : M vst (result (Z * str)) :=
  if bool_decide (slash ∈ p) then mret (Err ENOENT) else _ ← vnode_incref v; mret (Ok (v, p)).
#[export] Instance disk : FsOps := {
  fs_sync := fun _ => mret 0;
  fs_getvolname := fun _ => None;
  fs_getroot := getroot;
  fs_unmount := unmount;
  vop_open := fun _ _ => mret 0;
  vop_close := fun _ => mret 0;
  vop_reclaim := reclaim;
  vop_read := fun _ u => mret (EISDIR, u);
  vop_readlink := fun _ u => mret (EISDIR, u);
  vop_getdirentry := fun _ u => mret (0, took u 1 [46]);
  vop_write := fun _ u => mret (EISDIR, u);
  vop_stat := fun _ => mret (Ok (Vfs.Stat 0 S_IFDIR 2 0 0 0 0 512));
  vop_gettype := fun _ => mret (Ok S_IFDIR);
  vop_tryseek := fun _ _ => mret 0;
  vop_truncate := fun _ _ => mret EISDIR;
  vop_namefile := fun _ u => mret (0, u);
  vop_creat := fun _ _ _ _ => mret (Err ENOSPC);
  vop_symlink := fun _ _ _ => mret EUNIMP;
  vop_mkdir := fun _ _ _ => mret ENOSPC;
  vop_link := fun _ _ _ => mret ENOSPC;
  vop_remove := fun _ _ => mret ENOENT;
  vop_rmdir := fun _ _ => mret ENOENT;
  vop_rename := fun _ _ _ _ => mret ENOENT;
  vop_lookup := lookup;
  vop_lookparent := fun v p _ => lookparent v p;
  d_open := fun _ _ => mret 0;
  d_close := fun _ => mret 0;
  d_io := fun _ u => mret (0, u);
}.

Section laws.
Context (T : list knowndev) (ex : bool).
Abbreviation safe := (safe kind_of T ex).
Lemma incref_ok {A} v (a : A) Q : kind_of v = KFs -> Q a = [Ref v] ->
  safe (used v) [] (_ ← vnode_incref v; mret a) Q.
Proof.
  intros HK HQ E s HE Ho Hv Hu.
  destruct (incref_safe kind_of T ex v ltac:(by rewrite HK) E s HE Ho Hv Hu) as (x & s' & Hd & Hr).
  exists a, s'. rewrite (bind_Done _ _ _ _ _ Hd), HQ. by split.
Qed.
Lemma root_kind fs : kind_of (root_of fs) = KFs.
Proof. unfold kind_of, root_of. by rewrite (proj2 (Z.ltb_ge _ _)) by lia. Qed.
Ltac counts := unfold none, tot; cbn [occ app]; unfold b2z; intros; cbn; repeat case_decide; simplify_eq; try lia.
Lemma getroot_ok fs : safe (live fs) [] (getroot fs) (fun v => [Ref v]).
Proof.
  intros E s HE Ho Hv Hl. unfold getroot, runs. cbv zeta. rewrite (bind_Done _ _ s s s) by done.
  set (v := root_of fs). exists v. destruct (vnodes s !! v) as [x|] eqn:Hx; eexists; (split; [reflexivity|]).
  - split.
    + eapply (put_owes ex s v x _ []); [done|counts..|done].
    + eapply put_vok; [done|done|left; unfold v; by rewrite root_kind|done].
  - split.
    + destruct Ho as [Or Oo Ob Of Oh]. split; cbn; [| |done..].
      * intros w. eapply owed_eq; [|apply (Or w)]. unfold own, refs; cbn.
        destruct (decide (w = v)) as [->|]; [rewrite lookup_insert_eq, Hx|rewrite lookup_insert_ne by done]; counts.
      * intros w. assert (tot [Ref v] E (Hnd w) = tot [] E (Hnd w)) as -> by counts.
        specialize (Oo w). unfold opens in *; cbn.
        destruct (decide (w = v)) as [->|]; [rewrite lookup_insert_eq; by rewrite Hx in Oo|by rewrite lookup_insert_ne].
    + destruct Hv as [Hn Hc Hb Hk Ht Hd Hf]. split; cbn; try done.
      * intros w y. destruct (decide (w = v)) as [->|].
        -- rewrite lookup_insert_eq. intros [= <-]. unfold node_ok, v. by rewrite root_kind.
        -- rewrite lookup_insert_ne by done. apply Hn.
      * intros w y f. destruct (decide (w = v)) as [->|].
        -- rewrite lookup_insert_eq. by intros [= <-] [= <-].
        -- rewrite lookup_insert_ne by done. apply Hf.
Qed.
Lemma reclaim_ok v : kind_of v = KFs ->
  safe (fun s => refs s v = 1 /\ opens s v = 0) [Ref v] (reclaim v) none.
Proof.
  intros HK E s HE Ho Hv [H1 H0]. exists 0. eexists. split; [reflexivity|]. split.
  - destruct Ho as [Or Oo Ob Of Oh]. split; cbn; [| |done..].
    + intros w. eapply owed_eq; [|apply (Or w)]. unfold own, refs in *; cbn.
      destruct (decide (w = v)) as [->|]; [rewrite lookup_delete_eq|rewrite lookup_delete_ne by done]; counts.
    + intros w. assert (tot (none 0) E (Hnd w) = tot [Ref v] E (Hnd w)) as -> by counts.
      specialize (Oo w). unfold opens in *; cbn.
      destruct (decide (w = v)) as [->|]; [rewrite lookup_delete_eq; cbn; lia|by rewrite lookup_delete_ne].
  - destruct Hv as [Hn Hc Hb Hk Ht Hd Hf]. split; cbn; try done.
    + intros w y [_ Hy]%lookup_delete_Some. exact (Hn w y Hy).
    + intros w y f [_ Hy]%lookup_delete_Some. exact (Hf w y f Hy).
Qed.
#[export] Instance disk_laws : FsLaws kind_of T ex.
Proof.
  split; try (intros; by apply ret_safe).
  - exact getroot_ok.
  - by intros fs s a s' [= <- <-].
  - intros fs E s HE Ho Hv Hl. eexists _, s. split; [reflexivity|]. by split.
  - intros fs s a s' [= <- <-]. split; [done|]. case_decide as Hn; [|done]. intros _ v x Hx. exact (Hn v x Hx).
  - exact reclaim_ok.
  - intros v p HK. cbn. unfold lookup. case_bool_decide; [by apply incref_ok|by apply ret_safe].
  - intros v p n HK. cbn. unfold lookparent. case_bool_decide; [by apply ret_safe|by apply incref_ok].
Qed.
End laws.
End Disk.

(** ** Witnesses

    A machine with the null device and a disk with volume 7 mounted; a third
    device has a driver and no name yet. *)
Import Disk.
Definition lhd0 : str := [108; 104; 100; 48].
Definition booted : vst := {|
  vnodes := <[10 := Vnode 1 0 None (Some 1) dev_vnode_ops]> (<[20 := Vnode 1 0 None (Some 2) dev_vnode_ops]> ∅);
  devices := <[1 := Device 0 1 1]> (<[2 := Device 64 512 2]> (<[3 := Device 0 1 0]> ∅));
  knowndevs := [Knowndev null_name None (Some 1) 10 None;
                Knowndev lhd0 (Some (mkrawname lhd0)) (Some 2) 20 (Some 7)];
  knowndevs_lock := Some false;
  vfs_biglock_depth := 0;
  t_cwd := None;
  bootfs_vnode := None;
|}.
Definition booted_table : list knowndev := map (set_fs None) (knowndevs booted).
Lemma booted_node v x : vnodes booted !! v = Some x ->
  (v = 10 /\ x = Vnode 1 0 None (Some 1) dev_vnode_ops) \/ (v = 20 /\ x = Vnode 1 0 None (Some 2) dev_vnode_ops).
Proof. unfold booted. cbn. intros [[<- <-]|[_ [[<- <-]|[_ Hx]]%lookup_insert_Some]]%lookup_insert_Some; [auto..|done]. Qed.
Lemma booted_vok : vok kind_of booted_table booted.
Proof.
  split.
  - intros v x [[-> ->]|[-> ->]]%booted_node; unfold node_ok; cbn;
      (split; [done|]; split; [unfold b2z; repeat case_decide; lia|]); eexists; (split; [reflexivity|]);
      eexists; (split; [reflexivity|]); cbn; lia.
  - done.
  - done.
  - repeat constructor.
  - done.
  - intros kd d Hin Hd. cbn in Hin. apply elem_of_cons in Hin as [->|[->|[]%elem_of_nil]%elem_of_cons];
      injection Hd as <-; eexists; (split; [reflexivity|]); cbn; lia.
  - by intros v x fs [[-> ->]|[-> ->]]%booted_node.
Qed.
Lemma booted_owes : owes true booted (books (Client [] [])) (fun _ => 0).
Proof.
  split; [| |done..].
  - intros v. unfold owed, refs, own, tot. cbn [books map app c_open c_refs occ]. rewrite !(b2z_false (Free = _)) by done.
    destruct (vnodes booted !! v) as [x|] eqn:Hx.
    + apply booted_node in Hx as [[-> ->]|[-> ->]]; done.
    + assert (v <> 10 /\ v <> 20) as [H1 H2] by (split; intros ->; done).
      cbn. rewrite !b2z_false by congruence. done.
  - intros v. unfold opens, tot. cbn [books map app c_open c_refs occ]. rewrite b2z_false by done.
    destruct (vnodes booted !! v) as [x|] eqn:Hx; [|done]. by apply booted_node in Hx as [[-> ->]|[-> ->]].
Qed.
Lemma booted_distinct : distinct (knowndevs booted).
Proof.
  intros i j a b n Hi Hj Ha Hb. apply names_spec in Ha, Hb.
  destruct i as [|[|i]]; destruct j as [|[|j]]; cbn in Hi, Hj; simplify_eq; try done; exfalso;
    destruct Ha as [Ha|[Ha|Ha]], Hb as [Hb|[Hb|Hb]]; cbn in Ha, Hb; simplify_eq.
Qed.
Definition dot_path : str := lhd0 ++ [colon; slash; 46].
Definition console_name : str := [99; 111; 110].
Definition plenty : allocs := Allocs true true true true true true true.
Definition calls : list vcall :=
  [Adddev plenty 30 console_name 3 false; Chdir (lhd0 ++ [colon]); Open (null_name ++ [colon]) 0 0;
   Open (console_name ++ [colon]) 0 0; Open dot_path 0 0; Setbootfs lhd0; Lookup dot_path; Getroot lhd0;
   Setcurdir 0; Decref 0; Getcurdir; Getcwd (mkSio UIO_READ 0 16 16 16 16 []); Unmount lhd0; Close 0;
   Clearcurdir; Decref 0; Decref 0; Clearbootfs; Unmount lhd0].
Lemma careful_static ks c s : Forall (fun k => forall s, proper kind_of true k s) ks -> careful kind_of true ks c s.
Proof. intros Hk. revert c s. induction Hk as [|k ks Hp Hk IH]; intros c s; [exact I|]. split; auto. Qed.
Lemma console_addable : addable kind_of plenty 30 console_name false (Some 3) None booted.
Proof. split; [reflexivity..|]. split; [reflexivity|]. eexists. split; [reflexivity|]. cbn. lia. Qed.
Lemma vfs_calls_balanced_witness :
  exists c' s' T', session calls (Client [] []) booted = Done (c', s') /\ vok kind_of (booted_table ++ T') s' /\
    owes true s' (books c') (fun _ => 0).
Proof.
  apply (vfs_calls_balanced kind_of true (fun T => disk_laws T true) calls (Client [] []) booted_table (fun _ => 0) booted).
  - split; [exact console_addable|]. intros c' s' _. apply careful_static.
    repeat (apply Forall_cons_2; [try (intros; exact I)|]); [|apply Forall_nil_2].
    intros s. unfold proper, fits. cbn. split; [done|lia].
  - intros k. lia.
  - exact booted_vok.
  - exact booted_owes.
Defined.
(** The same calls evaluated: two handles are left and the volume is unmounted. *)
Lemma calls_result : exists s', session calls (Client [] []) booted = Done (Client [30; 10] [], s') /\
  refs s' 10 = 2 /\ opens s' 10 = 1 /\ refs s' 30 = 2 /\ map kd_fs (knowndevs s') = [None; None; None] /\
  vfs_biglock_depth s' = 0.
Proof. eexists. split; [vm_compute; reflexivity|]. vm_compute. auto 6. Qed.
Definition add_con : outcome (Z * vst) :=
  vfs_doadd (Allocs true true true true true true true) 30 console_name false (Some 3) None booted.
Definition added : vst := match add_con with Done (_, s) => s | Stop _ => booted end.
Lemma doadd_keeps_names_distinct_witness : add_con = Done (0, added) /\ distinct (knowndevs added).
Proof.
  assert (add_con = Done (0, added)) as Ha by (vm_compute; reflexivity). split; [exact Ha|].
  exact (proj1 (doadd_keeps_names_distinct (Allocs true true true true true true true) 30 console_name false (Some 3) None booted 0 added booted_distinct Ha)).
Defined.
Lemma getroot_resolves_witness :
  vfs_getroot (mkrawname lhd0) booted =
    with_table (answer (mkrawname lhd0) (Knowndev lhd0 (Some (mkrawname lhd0)) (Some 2) 20 (Some 7))) booted.
Proof.
  refine (proj1 (getroot_resolves booted booted_distinct) 1%nat _ _ eq_refl _ _); [done|].
  apply names_spec. auto.
Defined.
Lemma getdevice_parses_witness :
  getdevice (slash :: lhd0) (with_depth 1 booted) = Done (Err ENOENT, with_depth 1 booted).
Proof.
  assert (0 < vfs_biglock_depth (with_depth 1 booted)) as Hd by (cbn; lia).
  exact (proj1 (proj2 (getdevice_parses (with_depth 1 booted) Hd)) lhd0).
Defined.
Lemma duplicate_device_stops_witness :
  vfs_doadd (Allocs true true true true true true true) 30 lhd0 true (Some 1) None booted = Stop KAssertFail.
Proof. apply (duplicate_device_stops 30 lhd0 true (Some 1) None booted); reflexivity. Defined.
Lemma setbootfs_refuses_colon_witness :
  vfs_setbootfs (lhd0 ++ [colon]) booted = Done (EINVAL, booted).
Proof.
  apply (setbootfs_refuses_colon (lhd0 ++ [colon]) booted); [cbn; lia|].
  apply list_elem_of_In. cbn. tauto.
Defined.
Lemma dev_tryseek_blocks_witness :
  exists e, dev_tryseek 20 512 booted = Done (e, booted) /\ (e = 0 <-> exists b, 0 <= b < 64 /\ 512 = b * 512).
Proof.
  refine (dev_tryseek_blocks 20 512 booted (Vnode 1 0 None (Some 2) dev_vnode_ops) 2 (Device 64 512 2) _ _ _ _ _);
    [reflexivity..|cbn; lia|cbn; lia].
Defined.
