(* ===== verification/File.v ===== *)
(** * kern/syscall/file.c, kern/syscall/fs.c: system calls on files

    The file table of a thread and the system calls that use it, above the
    VFS layer (Vfs.v) and the copying of user memory (CopyInOut.v).

    A [struct File] is kept as the words of its fields in kernel memory, so
    that a store past the end of its block is a store into what lies there:
    vnode at offset 0, flags at 4, offset at 8 and 12, f_lock at 16.  What
    [kmalloc] and [lock_create] return (0 for failure) and the contents of
    uninitialised variables are arguments.  So is what [sys_close] finds in the
    blocks that were freed under it ([freed]): the allocator has put its own
    words there.  A buffer for a transfer is assumed to be
    allocated. *)
From S2P Require Import Prelude Memory CopyInOut Uio Stream.
Import Memory CopyInOut Uio Stream.
From S2P Require Import Vfs.

Definition MAX_FILE_FILETAB : Z := 20.
Definition PATH_MAX : Z := 1024.
Definition SEEK_SET : Z := 0.
Definition SEEK_CUR : Z := 1.
Definition SEEK_END : Z := 2.

(** ** State

    [kw] holds words of kernel memory, [blocks] the blocks in use, [locks]
    whether a lock is held; [around] is what lies before and after the array
    [fdesc] in [struct thread]. *)
Record fst := Fst {
  vfs : vst;
  ram : mach;
  kw : gmap Z Z;
  blocks : gset Z;
  locks : gmap Z bool;
  fdesc : list Z;
  around : Z -> Z;
}.
Definition with_vfs (v : vst) (s : fst) : fst :=
  Fst v (ram s) (kw s) (blocks s) (locks s) (fdesc s) (around s).
Definition with_ram (m : mach) (s : fst) : fst :=
  Fst (vfs s) m (kw s) (blocks s) (locks s) (fdesc s) (around s).
Definition with_kw (m : gmap Z Z) (s : fst) : fst :=
  Fst (vfs s) (ram s) m (blocks s) (locks s) (fdesc s) (around s).
Definition with_blocks (b : gset Z) (s : fst) : fst :=
  Fst (vfs s) (ram s) (kw s) b (locks s) (fdesc s) (around s).
Definition with_locks (l : gmap Z bool) (s : fst) : fst :=
  Fst (vfs s) (ram s) (kw s) (blocks s) l (fdesc s) (around s).
Definition with_fdesc (l : list Z) (a : Z -> Z) (s : fst) : fst :=
  Fst (vfs s) (ram s) (kw s) (blocks s) (locks s) l a.

(** ** Parts of the machine *)
Definition on_vfs {A} (m : M vst A) : M fst A := fun s =>
  match m (vfs s) with Done (a, v) => Done (a, with_vfs v s) | Stop f => Stop f end.
Definition on_ram {A} (m : M mach A) : M fst A := fun s =>
  match m (ram s) with Done (a, r) => Done (a, with_ram r s) | Stop f => Stop f end.
(** Kernel code that uses memory without protection against faults. *)
Definition direct {A} (x : X A) : M fst A := fun s =>
  match x (memory (ram s)) with
  | Val a m => Done (a, with_ram (mkMach m (tm_badfaultfunc (ram s))) s)
  | Trap _ => Stop BadAccess
  | OutOfFuel => Stop NoFuel
  end.
Definition kmalloc (a : Z) : M fst Z :=
  _ ← mmodify (fun s => if a =? 0 then s else with_blocks ({[a]} ∪ blocks s) s); mret a.
Definition kfree (a : Z) : M fst unit :=
  s ← mget;
  if a =? 0 then mret tt
  else if bool_decide (a ∈ blocks s) then mput (with_blocks (blocks s ∖ {[a]}) s)
  else mstop BadAccess.
Definition lock_create (l : Z) : M fst Z :=
  _ ← mmodify (fun s => if l =? 0 then s else with_locks (<[l := false]> (locks s)) s); mret l.
Definition lock_acquire (l : Z) : M fst unit :=
  s ← mget;
  if l =? 0 then mstop KAssertFail
  else match locks s !! l with
       | None => mstop BadAccess
       | Some true => mstop KAssertFail
       | Some false => mput (with_locks (<[l := true]> (locks s)) s)
       end.
Definition lock_release (l : Z) : M fst unit :=
  s ← mget;
  if l =? 0 then mstop KAssertFail
  else match locks s !! l with
       | None => mstop BadAccess
       | Some _ => mput (with_locks (<[l := false]> (locks s)) s)
       end.

(** ** [struct File] and the table *)
Definition rd (p off : Z) : M fst Z :=
  s ← mget;
  if p =? 0 then mstop NullDeref
  else match kw s !! (p + off) with Some w => mret w | None => mstop BadAccess end.
Definition wr (p off w : Z) : M fst unit :=
  s ← mget;
  if p =? 0 then mstop NullDeref
  else match kw s !! (p + off) with
       | Some _ => mput (with_kw (<[p + off := w]> (kw s)) s)
       | None => mstop BadAccess
       end.
Definition f_vnode : Z := 0.
Definition f_flags : Z := 4.
Definition f_lock : Z := 16.
Definition rd_offset (p : Z) : M fst Z :=
  hi ← rd p 8; lo ← rd p 12; mret (s64 (hi * 2 ^ 32 + lo)).
Definition wr_offset (p off : Z) : M fst unit :=
  _ ← wr p 8 (u32 (off / 2 ^ 32)); wr p 12 (u32 off).
(** [curthread->fdesc[fd]] *)
Definition fdesc_at (fd : Z) : M fst Z :=
  s ← mget;
  mret (if (0 <=? fd) && (fd <? MAX_FILE_FILETAB) then default 0 (fdesc s !! Z.to_nat fd) else around s fd).
Definition set_fdesc (fd f : Z) : M fst unit :=
  mmodify (fun s =>
    if (0 <=? fd) && (fd <? MAX_FILE_FILETAB) then with_fdesc (<[Z.to_nat fd := f]> (fdesc s)) (around s) s
    else with_fdesc (fdesc s) (fun i => if i =? fd then f else around s i) s).
Definition lock_of (fd : Z) : M fst Z := f ← fdesc_at fd; rd f f_lock.
Definition in_range (fd : Z) : bool := negb ((fd <? 0) || (fd >? MAX_FILE_FILETAB)).
(** The string at [a], up to its terminator. *)
Fixpoint read_str (fuel : nat) (a : Z) : X (list Z) :=
  match fuel with
  | O => nofuel
  | S n => c ← ld a; if c =? 0 then mret [] else r ← read_str n (a + 1); mret (c :: r)
  end.
(** [uio_kinit] with the bytes of the buffer. *)
Definition kinit (rw : uio_rw_t) (len pos : Z) (data : list Z) : sio := mkSio rw pos len len len len data.

(** Bytes of big-endian integers, and [struct stat] in memory. *)
Definition be32 (z : Z) : list Z := [u8 (z / 2 ^ 24); u8 (z / 2 ^ 16); u8 (z / 2 ^ 8); u8 z].
Definition be64 (z : Z) : list Z := be32 (u64 z / 2 ^ 32) ++ be32 z.
Definition stat_bytes (st : stat) : list Z :=
  be64 (st_size st) ++ be32 (st_mode st) ++ [u8 (st_nlink st / 2 ^ 8); u8 (st_nlink st); 0; 0]
  ++ be32 (st_blocks st) ++ be32 (st_dev st) ++ be32 (st_ino st) ++ be32 (st_rdev st)
  ++ replicate 48 0 ++ be32 (st_blksize st) ++ [0; 0; 0; 0].

Section calls.
Context `{FS : FsOps}.

(** A vnode operation on the vnode of a file; [vnode_check] refuses a null
    pointer. *)
Definition vnode_call {A} (v : Z) (m : M vst A) : M fst A := on_vfs (if v =? 0 then mstop KPanic else m).

Definition get_filetab (fd : Z) : M fst Z := f ← fdesc_at fd; rd f f_vnode.
(** The loop of [sys_open] from [fd] on; [MAX_FILE_FILETAB] if it finds none. *)
Fixpoint free_slot (n : nat) (fd : Z) : M fst Z :=
  match n with
  | O => mret fd
  | S n' => f ← fdesc_at fd; if f =? 0 then mret fd else free_slot n' (fd + 1)
  end.
(** A call returns its error number and what it stores in [*retval], if
    anything.  [fname] and [file] are what [kmalloc] returns, [lk] what
    [lock_create] returns, and [junk] is in [vn] before it is set. *)
Definition sys_open (fuel : nat) (fname file lk junk : Z) (filename flags mode : Z) : M fst (Z * option Z) :=
  fname ← kmalloc fname;
  if fname =? 0 then mret (ENOMEM, None)
  else
    _ ← on_ram (copyinstr filename fname PATH_MAX);
    fd ← free_slot 17 3;
    if fd =? MAX_FILE_FILETAB then mret (ENFILE, None)
    else
      f ← kmalloc file;
      _ ← set_fdesc fd f;
      if f =? 0 then mret (ENFILE, None)
      else
        path ← direct (read_str fuel fname);
        r ← on_vfs (vfs_open path flags mode);
        _ ← wr f f_vnode (match r with Ok v => v | Err _ => junk end);
        match r with
        | Err e => mret (e, None)
        | Ok _ =>
            _ ← wr f f_flags flags;
            _ ← wr_offset f 0;
            l ← lock_create lk;
            _ ← wr f f_lock l;
            _ ← kfree fname;
            mret (0, Some fd)
        end.

(** One of the three parts of [fdesc_init]; [temp] is the array on the stack
    that holds the name of the console. *)
Definition con_name : str := [99; 111; 110; colon].
Definition fdesc_con (fd file lk temp flags : Z) : M fst Z :=
  f ← fdesc_at fd;
  if negb (f =? 0) then mret 0
  else
    f ← kmalloc file;
    _ ← set_fdesc fd f;
    r ← on_vfs (vfs_open con_name flags 436);
    match r with
    | Err _ => _ ← kfree temp; mret EINVAL
    | Ok v =>
        _ ← wr f f_vnode v;
        _ ← wr f f_flags flags;
        _ ← wr_offset f 0;
        l ← lock_create lk;
        _ ← wr f f_lock l;
        mret 0
    end.
(** The thread whose table it sets up is the one the model is about. *)
Definition fdesc_init (files lks temps : Z * Z * Z) : M fst Z :=
  let '(a1, a2, a3) := files in
  let '(l1, l2, l3) := lks in
  let '(t1, t2, t3) := temps in
  e ← fdesc_con 0 a1 l1 t1 O_RDONLY;
  if negb (e =? 0) then mret e
  else
    e ← fdesc_con 1 a2 l2 t2 O_WRONLY;
    if negb (e =? 0) then mret e else fdesc_con 2 a3 l3 t3 O_WRONLY.

Definition sys_read (buffer : Z) (filehandle buf size : Z) : M fst (Z * option Z) :=
  l ← lock_of filehandle;
  _ ← lock_acquire l;
  if negb (in_range filehandle) then mret (EBADF, Some (-1))
  else
    f ← fdesc_at filehandle;
    if f =? 0 then mret (EBADF, Some (-1))
    else
      flags ← rd f f_flags;
      if negb (negb (flags =? O_RDONLY) || negb (flags =? O_RDWR)) then mret (EINVAL, Some (-1))
      else
        buffer ← kmalloc buffer;
        off ← rd_offset f;
        v ← rd f f_vnode;
        '(result, u) ← vnode_call v (VOP_READ v (kinit UIO_READ size off []));
        _ ← direct (stn buffer (u_data u));
        if negb (result =? 0) then
          _ ← kfree buffer;
          l ← lock_of filehandle;
          _ ← lock_release l;
          mret (result, Some (-1))
        else
          _ ← wr_offset f (u_off u);
          _ ← on_ram (copyout buffer buf size);
          _ ← kfree buffer;
          l ← lock_of filehandle;
          _ ← lock_release l;
          mret (0, Some (s32 (size - u_resid u))).
Definition sys_write (fuel : nat) (buffer : Z) (filehandle buf size : Z) : M fst (Z * option Z) :=
  if negb (in_range filehandle) then mret (EBADF, Some (-1))
  else
    f ← fdesc_at filehandle;
    if f =? 0 then mret (EBADF, Some (-1))
    else
      flags ← rd f f_flags;
      if negb (negb (flags =? O_WRONLY) || negb (flags =? O_RDWR)) then mret (EINVAL, Some (-1))
      else
        l ← lock_of filehandle;
        _ ← lock_acquire l;
        buffer ← kmalloc buffer;
        n ← direct (strlen fuel buffer);
        _ ← on_ram (copyinstr buf buffer n);
        data ← direct (ldn (Z.to_nat size) buffer);
        off ← rd_offset f;
        v ← rd f f_vnode;
        '(result, u) ← vnode_call v (VOP_WRITE v (kinit UIO_WRITE size off data));
        if negb (result =? 0) then
          _ ← kfree buffer;
          l ← lock_of filehandle;
          _ ← lock_release l;
          mret (result, Some (-1))
        else
          _ ← wr_offset f (u_off u);
          _ ← kfree buffer;
          l ← lock_of filehandle;
          _ ← lock_release l;
          mret (0, Some (s32 (size - u_resid u))).
(** Where the switch of [sys_lseek] sends the file: a position, or a return. *)
Definition seek_to (f pos code : Z) : M fst (result (option Z)) :=
  if code =? SEEK_SET then mret (Ok (Some pos))
  else if code =? SEEK_CUR then off ← rd_offset f; mret (Ok (Some (s64 (off + pos))))
  else if code =? SEEK_END then
    v ← rd f f_vnode;
    r ← vnode_call v (VOP_STAT v);
    match r with
    | Err e => mret (Err e)
    | Ok st => mret (Ok (Some (s64 (st_size st + pos))))
    end
  else mret (Ok None).
Definition sys_lseek (filehandle pos code : Z) : M fst (Z * option Z) :=
  if negb (in_range filehandle) then mret (EBADF, Some (-1))
  else
    f ← fdesc_at filehandle;
    l ← lock_of filehandle;
    _ ← lock_acquire l;
    r ← seek_to f pos code;
    match r with
    | Err e => mret (e, None)
    | Ok None => l ← lock_of filehandle; _ ← lock_release l; mret (EINVAL, None)
    | Ok (Some offset) =>
        if offset <? 0 then l ← lock_of filehandle; _ ← lock_release l; mret (EINVAL, None)
        else
          v ← rd f f_vnode;
          e ← vnode_call v (VOP_TRYSEEK v offset);
          if negb (e =? 0) then mret (e, None)
          else
            _ ← wr_offset f offset;
            l ← lock_of filehandle;
            _ ← lock_release l;
            mret (0, Some (s32 offset))
    end.
(** What the allocator does to freed blocks that [sys_close] goes on to use:
    the word it has put in the place of [vn_refcount] of a vnode that was freed
    (the link to the next free block, which may be null), whether it accepts
    the vnode a second time (it does not look, but counts the free blocks of a
    page), and the words of a [struct File] that freeing it overwrites (the
    block of [sys_open] ends before the lock). *)
Record freed := Freed { fr_word : Z; fr_twice : bool; fr_scrub : Z -> option Z }.
(** [vnode->vn_refcount] *)
Definition refcount_word (fr : freed) (v : Z) : M fst Z :=
  s ← mget;
  if v =? 0 then mstop NullDeref
  else mret (from_option vn_refcount (fr_word fr) (vnodes (vfs s) !! v)).
Definition kfree_vnode (fr : freed) (v : Z) : M fst unit :=
  s ← mget;
  match vnodes (vfs s) !! v with
  | Some _ => mput (with_vfs (with_vnodes (delete v (vnodes (vfs s))) (vfs s)) s)
  | None => if fr_twice fr then mret tt else mstop KAssertFail
  end.
Definition scrubbed (fr : freed) (f : Z) (m : gmap Z Z) : gmap Z Z :=
  foldr (fun off m => match fr_scrub fr off with Some w => <[f + off := w]> m | None => m end) m [0; 4; 8; 12; 16].
Definition kfree_file (fr : freed) (f : Z) : M fst unit :=
  _ ← kfree f; mmodify (fun s => with_kw (scrubbed fr f (kw s)) s).
Definition sys_close (fr : freed) (filehandle : Z) : M fst (Z * option Z) :=
  if negb (in_range filehandle) then mret (EBADF, Some (-1))
  else
    f ← fdesc_at filehandle;
    if f =? 0 then mret (EBADF, Some (-1))
    else
      l ← lock_of filehandle;
      _ ← lock_acquire l;
      v ← rd f f_vnode;
      _ ← (if v =? 0 then mret tt else on_vfs (vfs_close v));
      v ← rd f f_vnode;
      n ← refcount_word fr v;
      _ ← (if n =? 0 then _ ← kfree_vnode fr v; kfree_file fr f else set_fdesc filehandle 0);
      l ← lock_of filehandle;
      _ ← lock_release l;
      mret (0, Some 0).
Definition sys_dup2 (fr : freed) (filehandle newhandle : Z) : M fst (Z * option Z) :=
  if (filehandle <? 0) || (newhandle <? 0) then mret (EBADF, Some (-1))
  else if (MAX_FILE_FILETAB <=? filehandle) || (MAX_FILE_FILETAB <=? newhandle) then mret (EBADF, Some (-1))
  else
    g ← fdesc_at newhandle;
    '(e, r) ← (if g =? 0 then mret (0, None) else sys_close fr filehandle);
    if negb (e =? 0) then mret (EBADF, r)
    else
      l ← lock_of filehandle;
      _ ← lock_acquire l;
      g ← fdesc_at newhandle;
      f ← fdesc_at filehandle;
      w ← rd f f_flags;
      _ ← wr g f_flags w;
      o ← rd_offset f;
      _ ← wr_offset g o;
      v ← rd f f_vnode;
      _ ← wr g f_vnode v;
      l ← lock_of filehandle;
      _ ← lock_release l;
      mret (0, Some newhandle).
Definition sys___getcwd (name : Z) (fname buflen : Z) : M fst (Z * option Z) :=
  name ← kmalloc name;
  '(result, u) ← on_vfs (vfs_getcwd (kinit UIO_READ (u32 (buflen - 1)) 0 []));
  _ ← direct (stn name (u_data u));
  if negb (result =? 0) then mret (result, Some (-1))
  else
    _ ← direct (st (name + u32 (buflen - 1 - u_resid u)) 0);
    _ ← on_ram (copyoutstr name fname buflen);
    _ ← kfree name;
    mret (0, Some (s32 (buflen - u_resid u))).
Definition sys_chdir (fuel : nat) (name : Z) (fname : Z) : M fst (Z * option Z) :=
  name ← kmalloc name;
  _ ← on_ram (copyinstr fname name PATH_MAX);
  path ← direct (read_str fuel name);
  result ← on_vfs (vfs_chdir path);
  if negb (result =? 0) then mret (result, None)
  else _ ← kfree name; mret (0, Some 0).

(** ** fs.c

    [name] is the address of the array on the stack. *)
Definition with_path (fuel : nat) (name pathname : Z) (op : str -> M vst Z) : M fst (Z * option Z) :=
  '(e, _) ← on_ram (copyinstr pathname name NAME_MAX);
  if negb (e =? 0) then mret (1, Some (-1))
  else
    path ← direct (read_str fuel name);
    r ← on_vfs (op path);
    if negb (r =? 0) then mret (1, Some (-1)) else mret (0, Some r).
Definition sys_mkdir (fuel : nat) (name pathname mode : Z) : M fst (Z * option Z) :=
  with_path fuel name pathname (fun p => vfs_mkdir p mode).
Definition sys_rmdir (fuel : nat) (name pathname : Z) : M fst (Z * option Z) :=
  with_path fuel name pathname vfs_rmdir.
Definition sys_remove (fuel : nat) (name pathname : Z) : M fst (Z * option Z) :=
  with_path fuel name pathname vfs_remove.
Definition sys_rename (fuel : nat) (old_name new_name old new : Z) : M fst (Z * option Z) :=
  '(e, _) ← on_ram (copyinstr old old_name NAME_MAX);
  if negb (e =? 0) then mret (1, Some (-1))
  else
    '(e, _) ← on_ram (copyinstr new new_name NAME_MAX);
    if negb (e =? 0) then mret (1, Some (-1))
    else
      p ← direct (read_str fuel old_name);
      q ← direct (read_str fuel new_name);
      r ← on_vfs (vfs_rename p q);
      if negb (r =? 0) then mret (1, Some (-1)) else mret (0, Some r).
(** The buffer of the user is given to [uio_kinit] as it is. *)
Definition sys_getdirentry (fd buf buflen : Z) : M fst (Z * option Z) :=
  v ← get_filetab fd;
  '(r, u) ← vnode_call v (VOP_GETDIRENTRY v (kinit UIO_READ (u32 buflen) 0 []));
  _ ← direct (stn buf (u_data u));
  if negb (r =? 0) then mret (ENOENT, Some (-1)) else mret (0, Some r).
(** A file system whose [vop_stat] fails is taken to leave the buffer alone. *)
Definition sys_fstat (fd statbuf : Z) : M fst (Z * option Z) :=
  v ← get_filetab fd;
  r ← vnode_call v (VOP_STAT v);
  match r with
  | Err _ => mret (ENOENT, Some (-1))
  | Ok st => _ ← direct (stn statbuf (stat_bytes st)); mret (0, Some 0)
  end.
End calls.

(** ** Runs of the parts *)
Lemma run_on_vfs {A} (m : M vst A) s a v : m (vfs s) = Done (a, v) -> on_vfs m s = Done (a, with_vfs v s).
Proof. intros Hm. unfold on_vfs. by rewrite Hm. Qed.
Lemma run_on_ram {A} (m : M mach A) s a r : m (ram s) = Done (a, r) -> on_ram m s = Done (a, with_ram r s).
Proof. intros Hm. unfold on_ram. by rewrite Hm. Qed.
Lemma run_rd s p off w : p <> 0 -> kw s !! (p + off) = Some w -> rd p off s = Done (w, s).
Proof. intros Hp Hw. unfold rd. mrun. by rewrite (proj2 (Z.eqb_neq _ _) Hp), Hw. Qed.
Lemma run_wr s p off w w0 : p <> 0 -> kw s !! (p + off) = Some w0 ->
  wr p off w s = Done (tt, with_kw (<[p + off := w]> (kw s)) s).
Proof. intros Hp Hw. unfold wr. mrun. by rewrite (proj2 (Z.eqb_neq _ _) Hp), Hw. Qed.
Lemma rd_null s off : rd 0 off s = Stop NullDeref.
Proof. done. Qed.
Lemma run_fdesc s fd f : 0 <= fd < 20 -> fdesc s !! Z.to_nat fd = Some f -> fdesc_at fd s = Done (f, s).
Proof.
  intros Hr Hf. unfold fdesc_at. mrun. unfold MAX_FILE_FILETAB.
  rewrite (proj2 (Z.leb_le _ _)), (proj2 (Z.ltb_lt _ _)) by lia. cbn. by rewrite Hf.
Qed.
Lemma fdesc_at_pure fd s : exists f, fdesc_at fd s = Done (f, s).
Proof. by eexists. Qed.
Lemma set_fdesc_null fd s f : fdesc_at fd s = Done (f, s) -> f <> 0 ->
  exists s', set_fdesc fd 0 s = Done (tt, s') /\ fdesc_at fd s' = Done (0, s').
Proof.
  unfold fdesc_at, set_fdesc. mrun. intros [= Hf] Hn. eexists. split; [reflexivity|].
  destruct ((0 <=? fd) && (fd <? MAX_FILE_FILETAB)); cbn.
  - destruct (fdesc s !! Z.to_nat fd) as [g|] eqn:Eg; cbn in Hf; [|congruence].
    by rewrite list_lookup_insert_eq by (by eapply lookup_lt_Some).
  - by rewrite Z.eqb_refl.
Qed.
Lemma run_acquire s l : l <> 0 -> locks s !! l = Some false ->
  lock_acquire l s = Done (tt, with_locks (<[l := true]> (locks s)) s).
Proof. intros Hl Hf. unfold lock_acquire. mrun. by rewrite (proj2 (Z.eqb_neq _ _) Hl), Hf. Qed.
Lemma acquire_held s l : locks s !! l = Some true -> lock_acquire l s = Stop KAssertFail.
Proof. intros Hf. unfold lock_acquire. mrun. rewrite Hf. by destruct (l =? 0). Qed.
Lemma run_release s l b : l <> 0 -> locks s !! l = Some b ->
  lock_release l s = Done (tt, with_locks (<[l := false]> (locks s)) s).
Proof. intros Hl Hf. unfold lock_release. mrun. by rewrite (proj2 (Z.eqb_neq _ _) Hl), Hf. Qed.
Lemma in_range_true fd : 0 <= fd < 20 -> in_range fd = true.
Proof. intros Hr. unfold in_range, MAX_FILE_FILETAB. lia. Qed.

(** Handle [fd] is an open file: its structure is at [f], with vnode [v],
    flags [fl], offset [off] and lock [l]. *)
Record opened (s : fst) (fd f v fl off l : Z) : Prop := Opened {
  op_range : 0 <= fd < 20;
  op_slot : fdesc s !! Z.to_nat fd = Some f;
  op_file : f <> 0;
  op_vnode : kw s !! (f + f_vnode) = Some v;
  op_flags : kw s !! (f + f_flags) = Some fl;
  op_hi : kw s !! (f + 8) = Some (u32 (off / 2 ^ 32));
  op_lo : kw s !! (f + 12) = Some (u32 off);
  op_lock : kw s !! (f + f_lock) = Some l;
  op_vnull : v <> 0;
  op_lnull : l <> 0;
  op_off : - 2 ^ 63 <= off < 2 ^ 63;
}.
(** Changes elsewhere leave an open file open. *)
Lemma opened_same s s' fd f v fl off l : fdesc s' = fdesc s -> kw s' = kw s ->
  opened s fd f v fl off l -> opened s' fd f v fl off l.
Proof. intros Ef Ek []. by split; rewrite ?Ef, ?Ek. Qed.
Lemma s64_words off : - 2 ^ 63 <= off < 2 ^ 63 -> s64 (u32 (off / 2 ^ 32) * 2 ^ 32 + u32 off) = off.
Proof.
  intros Hr. unfold swrap, uwrap.
  replace ((off / 2 ^ 32) mod 2 ^ 32 * 2 ^ 32 + off mod 2 ^ 32) with (off mod 2 ^ 64).
  - rewrite Zplus_mod_idemp_l. rewrite (Z.mod_small (off + _)); lia.
  - change (2 ^ 64) with (2 ^ 32 * 2 ^ 32). rewrite Z.rem_mul_r by lia. lia.
Qed.
Lemma run_offset s fd f v fl off l : opened s fd f v fl off l -> rd_offset f s = Done (off, s).
Proof.
  intros []. unfold rd_offset.
  rewrite (bind_Done _ _ _ _ _ (run_rd s f 8 _ op_file0 op_hi0)), (bind_Done _ _ _ _ _ (run_rd s f 12 _ op_file0 op_lo0)).
  mrun. by rewrite s64_words.
Qed.
Lemma run_set_offset s fd f v fl off l off' : opened s fd f v fl off l -> - 2 ^ 63 <= off' < 2 ^ 63 ->
  exists k', wr_offset f off' s = Done (tt, with_kw k' s) /\ opened (with_kw k' s) fd f v fl off' l.
Proof.
  intros [] Hr. unfold wr_offset. eexists.
  rewrite (bind_Done _ _ _ _ _ (run_wr s f 8 _ _ op_file0 op_hi0)).
  erewrite run_wr; [|done|cbn; rewrite lookup_insert_ne by lia; exact op_lo0]. cbn. split; [reflexivity|].
  split; cbn; try done; unfold f_vnode, f_flags, f_lock; rewrite ?lookup_insert_ne by lia; rewrite ?lookup_insert_eq; done.
Qed.
Lemma run_lock_of s fd f v fl off l : opened s fd f v fl off l -> lock_of fd s = Done (l, s).
Proof.
  intros []. unfold lock_of. rewrite (bind_Done _ _ _ _ _ (run_fdesc s fd f op_range0 op_slot0)).
  by apply run_rd.
Qed.

(** ** Closing and duplicating handles *)
Section closing.
Context `{FS : FsOps}.
Lemma on_vfs_inv {A} (m : M vst A) s a s' : on_vfs m s = Done (a, s') ->
  exists v, m (vfs s) = Done (a, v) /\ s' = with_vfs v s.
Proof. unfold on_vfs. destruct (m (vfs s)) as [[b v]|]; [|done]. intros [= <- <-]. eauto. Qed.
Lemma rd_inv p off s w s' : rd p off s = Done (w, s') -> s' = s /\ p <> 0 /\ kw s !! (p + off) = Some w.
Proof.
  unfold rd. mrun. destruct (Z.eqb_spec p 0); [done|]. destruct (kw s !! (p + off)); [|done]. by intros [= <- <-].
Qed.
Lemma fdesc_at_inv fd s f s' : fdesc_at fd s = Done (f, s') -> s' = s /\ fdesc_at fd s = Done (f, s).
Proof. unfold fdesc_at. mrun. by intros [= <- <-]. Qed.
(** The table does not change while the vnode is closed. *)
Lemma fdesc_at_same fd s s' f : fdesc s' = fdesc s -> around s' = around s ->
  fdesc_at fd s = Done (f, s) -> fdesc_at fd s' = Done (f, s').
Proof. unfold fdesc_at. mrun. intros -> ->. by intros [= <-]. Qed.
Lemma lock_of_inv fd s l s' : lock_of fd s = Done (l, s') -> s' = s.
Proof. intros (f & s1 & [-> _]%fdesc_at_inv & (-> & _)%rd_inv)%bind_inv. done. Qed.
Lemma lock_acquire_inv l s s' : lock_acquire l s = Done (tt, s') ->
  fdesc s' = fdesc s /\ around s' = around s /\ kw s' = kw s /\ vfs s' = vfs s.
Proof.
  unfold lock_acquire. mrun. destruct (l =? 0); [done|]. destruct (locks s !! l) as [[]|]; try done.
  by intros [= <-].
Qed.
Lemma lock_release_inv l s s' : lock_release l s = Done (tt, s') ->
  fdesc s' = fdesc s /\ around s' = around s /\ blocks s' = blocks s.
Proof.
  unfold lock_release. mrun. destruct (l =? 0); [done|]. destruct (locks s !! l); [|done]. by intros [= <-].
Qed.
Lemma kfree_inv f s s' : f <> 0 -> kfree f s = Done (tt, s') -> s' = with_blocks (blocks s ∖ {[f]}) s.
Proof.
  intros Hf. unfold kfree. mrun. rewrite (proj2 (Z.eqb_neq _ _) Hf). case_bool_decide; [|done]. by intros [= <-].
Qed.
Lemma kfree_file_inv fr f s s' : f <> 0 -> kfree_file fr f s = Done (tt, s') ->
  fdesc s' = fdesc s /\ around s' = around s /\ blocks s' = blocks s ∖ {[f]}.
Proof. intros Hf ([] & s1 & ->%kfree_inv & [= <-])%bind_inv; done. Qed.
Lemma kfree_vnode_inv fr v s s' : kfree_vnode fr v s = Done (tt, s') ->
  fdesc s' = fdesc s /\ around s' = around s /\ kw s' = kw s.
Proof. unfold kfree_vnode. mrun. repeat case_match; try done; by intros [= <-]. Qed.
Lemma refcount_word_inv fr v s n s' : refcount_word fr v s = Done (n, s') ->
  s' = s /\ v <> 0 /\ n = from_option vn_refcount (fr_word fr) (vnodes (vfs s) !! v).
Proof. unfold refcount_word. mrun. destruct (Z.eqb_spec v 0); [done|]. by intros [= <- <-]. Qed.

(** The handle [fd] refers to a structure that has been freed. *)
Definition dangling (fd : Z) (s s' : fst) : Prop :=
  exists f, f <> 0 /\ fdesc_at fd s = Done (f, s) /\ fdesc_at fd s' = Done (f, s') /\ f ∉ blocks s'.
Lemma close_returns fr fd s e r s' : sys_close fr fd s = Done ((e, r), s') ->
  (e = EBADF /\ s' = s) \/ (e = 0 /\ r = Some 0 /\ dangling fd s s').
Proof.
  intros Hc. unfold sys_close in Hc. destruct (negb (in_range fd)); [injection Hc as <- _ <-; by left|].
  apply bind_inv in Hc as (f & s1 & [-> Hf]%fdesc_at_inv & Hc).
  destruct (Z.eqb_spec f 0) as [->|Hn]; [injection Hc as <- _ <-; by left|]. right.
  apply bind_inv in Hc as (l & s1 & ->%lock_of_inv & Hc).
  apply bind_inv in Hc as ([] & s2 & (F2 & A2 & K2 & V2)%lock_acquire_inv & Hc).
  apply bind_inv in Hc as (v & s3 & (-> & _ & Hv)%rd_inv & Hc).
  apply bind_inv in Hc as ([] & s3 & Hcl & Hc).
  assert (fdesc s3 = fdesc s /\ around s3 = around s) as [F3 A3].
  { destruct (v =? 0); [by injection Hcl as <-|]. apply on_vfs_inv in Hcl as (w & _ & ->). done. }
  apply bind_inv in Hc as (v' & s4 & (-> & _ & _)%rd_inv & Hc).
  apply bind_inv in Hc as (n & s4 & (-> & Hv0 & Hx)%refcount_word_inv & Hc).
  apply bind_inv in Hc as ([] & s5 & Hk & Hc). destruct (n =? 0).
  - apply bind_inv in Hk as ([] & s6 & (F6 & A6 & _)%kfree_vnode_inv & (F5 & A5 & B5)%kfree_file_inv); [|done].
    apply bind_inv in Hc as (l' & s7 & ->%lock_of_inv & Hc).
    apply bind_inv in Hc as ([] & s8 & (F8 & A8 & B8)%lock_release_inv & Hc). injection Hc as <- <- <-.
    split; [done|]. split; [done|]. exists f. split; [done|]. split; [done|].
    split; [|rewrite B8, B5; set_solver]. eapply fdesc_at_same; [..|exact Hf]; congruence.
  - exfalso. destruct (set_fdesc_null fd s3 f) as (s7 & Hs' & Hf7);
      [eapply fdesc_at_same; [..|exact Hf]; congruence|done|].
    rewrite Hk in Hs'. injection Hs' as <-.
    apply bind_inv in Hc as (l' & s8 & Hl & _). unfold lock_of in Hl.
    rewrite (bind_Done _ _ _ _ _ Hf7) in Hl. by rewrite rd_null in Hl.
Qed.
End closing.

(** ** Opening *)
Section opening.
Context `{FS : FsOps}.
Lemma free_slot_spec n fd s fd' s' : free_slot n fd s = Done (fd', s') ->
  s' = s /\ fd <= fd' <= fd + Z.of_nat n /\ (fd' < fd + Z.of_nat n -> fdesc_at fd' s = Done (0, s)) /\
  forall i, fd <= i < fd' -> fdesc_at i s <> Done (0, s).
Proof.
  revert fd. induction n as [|n IH]; intros fd; cbn [free_slot].
  { intros [= <- <-]. repeat split; lia. }
  intros (f & s1 & [-> Hf]%fdesc_at_inv & Hc)%bind_inv. destruct (Z.eqb_spec f 0) as [->|Hn].
  - injection Hc as <- <-. repeat split; lia || done.
  - destruct (IH _ Hc) as (-> & Hr & Hz & Hb). repeat split; [lia|lia| |].
    + intros Hlt. apply Hz. lia.
    + intros i Hi. destruct (decide (i = fd)) as [->|]; [rewrite Hf; congruence|apply Hb; lia].
Qed.
Lemma kmalloc_inv a s b s' : kmalloc a s = Done (b, s') -> b = a /\
  s' = if a =? 0 then s else with_blocks ({[a]} ∪ blocks s) s.
Proof. unfold kmalloc. mrun. by intros [= <- <-]. Qed.
Lemma on_ram_inv {A} (m : M mach A) s a s' : on_ram m s = Done (a, s') -> exists r, s' = with_ram r s.
Proof. unfold on_ram. destruct (m (ram s)) as [[b r]|]; [|done]. intros [= <- <-]. eauto. Qed.
Lemma direct_inv {A} (x : X A) s a s' : direct x s = Done (a, s') -> exists r, s' = with_ram r s.
Proof. unfold direct. destruct (x _); try done. intros [= <- <-]. eauto. Qed.
Lemma wr_inv p off w s s' : wr p off w s = Done (tt, s') ->
  p <> 0 /\ s' = with_kw (<[p + off := w]> (kw s)) s.
Proof.
  unfold wr. mrun. destruct (Z.eqb_spec p 0); [done|]. destruct (kw s !! (p + off)); [|done]. by intros [= <-].
Qed.
(** The steps of [sys_open] up to the return of [vfs_open]. *)
Record prepared (fname file : Z) (s s' : fst) (fd : Z) : Prop := Prepared {
  pr_fname : fname <> 0;
  pr_file : file <> 0;
  pr_fd : 3 <= fd < 20;
  pr_free : fdesc_at fd s = Done (0, s);
  pr_least : forall i, 3 <= i < fd -> fdesc_at i s <> Done (0, s);
  pr_fdesc : fdesc s' = <[Z.to_nat fd := file]> (fdesc s);
  pr_blocks : blocks s' = {[file]} ∪ ({[fname]} ∪ blocks s);
  pr_kw : kw s' = kw s;
  pr_locks : locks s' = locks s;
}.
Lemma sys_open_inv fuel fname file lk junk filename flags mode s e r s' :
  sys_open fuel fname file lk junk filename flags mode s = Done ((e, r), s') ->
  (r = None /\ (e = ENOMEM \/ e = ENFILE)) \/
  exists fd s1 path o w, prepared fname file s s1 fd /\
    vfs_open path flags mode (vfs s) = Done (o, w) /\ vfs s' = w /\
    match o with
    | Err e' => e = e' /\ r = None /\ s' = with_kw (<[file + f_vnode := junk]> (kw s)) s1
    | Ok v => e = 0 /\ r = Some fd /\ fdesc s' = fdesc s1 /\
        kw s' = <[file + f_lock := lk]> (<[file + 12 := 0]> (<[file + 8 := 0]>
                  (<[file + f_flags := flags]> (<[file + f_vnode := v]> (kw s)))))
    end.
Proof.
  unfold sys_open. intros (a & s1 & [-> ->]%kmalloc_inv & Hc)%bind_inv.
  destruct (Z.eqb_spec fname 0) as [->|Hfn]; [injection Hc as <- <- <-; by left; auto|].
  apply bind_inv in Hc as (c & s2 & (m & ->)%on_ram_inv & Hc).
  apply bind_inv in Hc as (fd & s3 & (-> & Hr & Hz & Hb)%free_slot_spec & Hc).
  destruct (Z.eqb_spec fd MAX_FILE_FILETAB) as [->|Hfd]; [injection Hc as <- <- <-; by left; auto|].
  unfold MAX_FILE_FILETAB in Hfd.
  apply bind_inv in Hc as (f & s4 & [-> ->]%kmalloc_inv & Hc).
  apply bind_inv in Hc as ([] & s5 & Hs & Hc).
  destruct (Z.eqb_spec file 0) as [->|Hfl]; [injection Hc as <- <- <-; by left; auto|].
  assert ((0 <=? fd) && (fd <? MAX_FILE_FILETAB) = true) as Hrange by (unfold MAX_FILE_FILETAB; lia).
  unfold set_fdesc in Hs. mrun. injection Hs as <-. rewrite Hrange in Hc.
  apply bind_inv in Hc as (path & s6 & (m2 & ->)%direct_inv & Hc).
  apply bind_inv in Hc as (o & s7 & (w & Hw & ->)%on_vfs_inv & Hc). cbn in Hw.
  apply bind_inv in Hc as ([] & s8 & (_ & ->)%wr_inv & Hc). right.
  match type of Hc with context [with_kw _ ?t] => set (st := t) in Hc end.
  assert (prepared fname file s st fd) as Hp.
  { split; try done; [lia| |].
    - specialize (Hz ltac:(lia)). unfold fdesc_at in *. mrun. cbn in Hz. injection Hz as Hz. by rewrite Hz.
    - intros i Hi Heq. apply (Hb i Hi). unfold fdesc_at in *. mrun. cbn. injection Heq as Heq. by rewrite Heq. }
  exists fd, st, path, o, w. split; [done|]. split; [done|]. destruct o as [e'|v].
  - injection Hc as <- <- <-. by cbn.
  - apply bind_inv in Hc as ([] & s9 & (_ & ->)%wr_inv & Hc).
    apply bind_inv in Hc as ([] & s10 & Hoff & Hc). unfold wr_offset in Hoff.
    apply bind_inv in Hoff as ([] & s11 & (_ & ->)%wr_inv & (_ & ->)%wr_inv).
    apply bind_inv in Hc as (l & s12 & Hl & Hc). unfold lock_create in Hl. mrun. injection Hl as <- <-.
    apply bind_inv in Hc as ([] & s13 & (_ & ->)%wr_inv & Hc).
    apply bind_inv in Hc as ([] & s14 & Hk & Hc). injection Hc as <- <- <-.
    unfold kfree in Hk. apply bind_inv in Hk as (s15 & s16 & [= <- <-] & Hk).
    rewrite (proj2 (Z.eqb_neq _ _) Hfn) in Hk. case_bool_decide; [|done].
    injection Hk as <-. cbn. by destruct (lk =? 0); cbn.
Qed.
End opening.
