(* ===== verification/FileSpec.v ===== *)
(** * What the system calls on files do

    What [sys_read] and [sys_lseek] do on an open file; [sys_open] picks the
    lowest free handle.  The other theorems are about what goes wrong:
    [sys_open] writes past its block and keeps the handle when it fails,
    [sys_close] and [sys_dup2] never give a handle back, [sys_write] can write
    something else than the user's data, [sys_read] and [sys_write] let every
    handle pass, a failed [sys_lseek] keeps the lock, and [sys_getdirentry]
    writes wherever the user says. *)
From S2P Require Import Prelude Memory CopyInOut Uio Stream.
Import Memory CopyInOut Uio Stream.
From S2P Require Import Vfs VfsRefs VfsSpec File.

(** ** Reading and seeking *)
Section io.
Context `{FS : FsOps}.

Lemma run_vnode_call {A} v (m : M vst A) s a w : v <> 0 -> m (vfs s) = Done (a, w) ->
  vnode_call v m s = Done (a, with_vfs w s).
Proof. intros Hv Hm. unfold vnode_call. rewrite (proj2 (Z.eqb_neq _ _) Hv). by apply run_on_vfs. Qed.
(** A flag test that no flags fail. *)
Lemma flags_pass fl a b : a <> b -> negb (negb (fl =? a) || negb (fl =? b)) = false.
Proof. intros Hab. destruct (Z.eqb_spec fl a) as [->|]; [|done]. by rewrite (proj2 (Z.eqb_neq _ _) Hab). Qed.
Lemma run_fdesc_open s fd f v fl off l : opened s fd f v fl off l -> fdesc_at fd s = Done (f, s).
Proof. intros []. by apply run_fdesc. Qed.
Lemma run_vnode_open s fd f v fl off l : opened s fd f v fl off l -> rd f f_vnode s = Done (v, s).
Proof. intros []. by apply run_rd. Qed.
Lemma run_flags_open s fd f v fl off l : opened s fd f v fl off l -> rd f f_flags s = Done (fl, s).
Proof. intros []. by apply run_rd. Qed.
Lemma run_kfree s a : a <> 0 -> a ∈ blocks s -> kfree a s = Done (tt, with_blocks (blocks s ∖ {[a]}) s).
Proof. intros Ha Hin. unfold kfree. mrun. by rewrite (proj2 (Z.eqb_neq _ _) Ha), bool_decide_eq_true_2. Qed.
Lemma run_direct {A} (x : X A) s a m : x (memory (ram s)) = Val a m ->
  direct x s = Done (a, with_ram (mkMach m (tm_badfaultfunc (ram s))) s).
Proof. intros Hx. unfold direct. by rewrite Hx. Qed.

(** The common end of a transfer: the buffer and the lock go back. *)
Lemma run_finish s fd f v fl off l buffer (r : Z * option Z) :
  opened s fd f v fl off l -> buffer <> 0 -> buffer ∈ blocks s -> locks s !! l = Some true ->
  (_ ← kfree buffer; l ← lock_of fd; _ ← lock_release l; mret r) s =
    Done (r, with_locks (<[l := false]> (locks s)) (with_blocks (blocks s ∖ {[buffer]}) s)).
Proof.
  intros Ho Hb Hin Hl. rewrite (bind_Done _ _ _ _ _ (run_kfree s buffer Hb Hin)).
  set (s1 := with_blocks _ s). assert (opened s1 fd f v fl off l) as Ho1 by (by apply (opened_same s)).
  rewrite (bind_Done _ _ _ _ _ (run_lock_of _ _ _ _ _ _ _ Ho1)).
  by rewrite (bind_Done _ _ _ _ _ (run_release s1 l true (op_lnull _ _ _ _ _ _ _ Ho) Hl)).
Qed.
End io.

(** C37: reading from an open file at its offset: when the file system reads
    without an error, the call returns 0 and the number of bytes transferred,
    moves the offset past them, gives the lock and the buffer back, and copies
    the buffer to the user.  This is so whatever flags the file was opened with
    (the test of the flags passes for every value, so that a handle opened for
    writing only is read instead of [EBADF]) and whatever the copy to the user
    returns (its error number is dropped, so that a bad buffer is not
    [EFAULT]). *)
Theorem sys_read_reads `{FS : FsOps} s fd f v fl off l buffer buf size u w m :
  opened s fd f v fl off l -> locks s !! l = Some false ->
  buffer <> 0 -> buffer ∉ blocks s ->
  VOP_READ v (kinit UIO_READ size off []) (vfs s) = Done ((0, u), w) ->
  - 2 ^ 63 <= u_off u < 2 ^ 63 ->
  stn buffer (u_data u) (memory (ram s)) = Val tt m ->
  forall e c, copyout buffer buf size (mkMach m (tm_badfaultfunc (ram s))) = Done (e, c) ->
  exists s', sys_read buffer fd buf size s = Done ((0, Some (s32 (size - u_resid u))), s') /\
    opened s' fd f v fl (u_off u) l /\ locks s' = locks s /\ blocks s' = blocks s /\
    vfs s' = w /\ ram s' = c /\ fdesc s' = fdesc s.
Proof.
  intros Ho Hl Hb Hnb Hr Hu Hst e c Hc. pose proof (op_lnull _ _ _ _ _ _ _ Ho) as Hl0.
  unfold sys_read. rewrite (bind_Done _ _ _ _ _ (run_lock_of _ _ _ _ _ _ _ Ho)).
  rewrite (bind_Done _ _ _ _ _ (run_acquire s l Hl0 Hl)).
  set (s1 := with_locks _ s). assert (opened s1 fd f v fl off l) as Ho1 by (by apply (opened_same s)).
  rewrite (in_range_true fd (op_range _ _ _ _ _ _ _ Ho)). cbn [negb].
  rewrite (bind_Done _ _ _ _ _ (run_fdesc_open _ _ _ _ _ _ _ Ho1)).
  rewrite (proj2 (Z.eqb_neq _ _) (op_file _ _ _ _ _ _ _ Ho)).
  rewrite (bind_Done _ _ _ _ _ (run_flags_open _ _ _ _ _ _ _ Ho1)), flags_pass by done.
  set (s2 := with_blocks ({[buffer]} ∪ blocks s1) s1).
  rewrite (bind_Done _ _ s1 buffer s2) by (unfold kmalloc; mrun; by rewrite (proj2 (Z.eqb_neq _ _) Hb)).
  assert (opened s2 fd f v fl off l) as Ho2 by (by apply (opened_same s)).
  rewrite (bind_Done _ _ _ _ _ (run_offset _ _ _ _ _ _ _ Ho2)).
  rewrite (bind_Done _ _ _ _ _ (run_vnode_open _ _ _ _ _ _ _ Ho2)).
  rewrite (bind_Done _ _ _ _ _ (run_vnode_call v _ s2 _ w (op_vnull _ _ _ _ _ _ _ Ho) Hr)).
  rewrite (bind_Done _ _ _ _ _ (run_direct _ (with_vfs w s2) tt m Hst)). cbn [negb Z.eqb].
  match goal with |- context [wr_offset f (u_off u) ≫= ?k] => set (rest := k) end.
  match goal with |- exists s', (_ ≫= _) ?t = _ /\ _ => set (s3 := t) end.
  assert (opened s3 fd f v fl off l) as Ho3 by (by apply (opened_same s)).
  destruct (run_set_offset s3 fd f v fl off l (u_off u) Ho3 Hu) as (k' & Hw & Ho4).
  rewrite (bind_Done _ _ _ _ _ Hw). unfold rest.
  rewrite (bind_Done _ _ _ _ _ (run_on_ram _ (with_kw k' s3) e c Hc)).
  assert (opened (with_ram c (with_kw k' s3)) fd f v fl (u_off u) l) as Ho5 by (by apply (opened_same (with_kw k' s3))).
  erewrite (run_finish _ _ _ _ _ _ _ buffer); [|exact Ho5|done|cbn; set_solver|cbn; by rewrite lookup_insert_eq].
  eexists. split; [reflexivity|]. split; [by apply (opened_same (with_kw k' s3))|]. cbn.
  split; [by rewrite insert_insert_eq, insert_id|]. split; [set_solver|done].
Qed.
(** Where a seek of [pos] by [code] goes in a file at [off]: the error of
    [VOP_STAT], or a position, or nowhere for an unknown code. *)
Inductive seeks `{FS : FsOps} (v off pos : Z) (w : vst) : Z -> result (option Z) -> vst -> Prop :=
| seeks_set : seeks v off pos w SEEK_SET (Ok (Some pos)) w
| seeks_cur : seeks v off pos w SEEK_CUR (Ok (Some (s64 (off + pos)))) w
| seeks_end st w' : VOP_STAT v w = Done (Ok st, w') ->
    seeks v off pos w SEEK_END (Ok (Some (s64 (st_size st + pos)))) w'
| seeks_fail e w' : VOP_STAT v w = Done (Err e, w') -> seeks v off pos w SEEK_END (Err e) w'
| seeks_none code : code <> SEEK_SET -> code <> SEEK_CUR -> code <> SEEK_END ->
    seeks v off pos w code (Ok None) w.
(** Every later call of the thread on the handle that takes its lock stops the
    machine: reading, writing, seeking, closing and duplicating it. *)
Definition stuck `{FS : FsOps} (s : fst) (fd : Z) : Prop :=
  (forall pos code, sys_lseek fd pos code s = Stop KAssertFail) /\
  (forall buffer buf size, sys_read buffer fd buf size s = Stop KAssertFail) /\
  (forall fuel buffer buf size, sys_write fuel buffer fd buf size s = Stop KAssertFail) /\
  (forall fr, sys_close fr fd s = Stop KAssertFail) /\
  (forall fr new, 0 <= new < 20 -> sys_dup2 fr fd new s = Stop KAssertFail).
Lemma held_stuck `{FS : FsOps} s fd f v fl off l : opened s fd f v fl off l -> locks s !! l = Some true -> stuck s fd.
Proof.
  intros Ho Hh. pose proof (in_range_true fd (op_range _ _ _ _ _ _ _ Ho)) as Hr.
  pose proof (run_fdesc_open _ _ _ _ _ _ _ Ho) as Hf. pose proof (run_lock_of _ _ _ _ _ _ _ Ho) as Hl.
  pose proof (proj2 (Z.eqb_neq _ _) (op_file _ _ _ _ _ _ _ Ho)) as Hf0.
  assert (forall fr, sys_close fr fd s = Stop KAssertFail) as Hc.
  { intros fr. unfold sys_close. rewrite Hr. cbn [negb]. rewrite (bind_Done _ _ _ _ _ Hf), Hf0, (bind_Done _ _ _ _ _ Hl).
    by rewrite (bind_Stop _ _ _ _ (acquire_held _ l Hh)). }
  split; [|split; [|split; [|split; [exact Hc|]]]]; intros.
  - unfold sys_lseek. rewrite Hr. cbn [negb]. rewrite (bind_Done _ _ _ _ _ Hf), (bind_Done _ _ _ _ _ Hl).
    by rewrite (bind_Stop _ _ _ _ (acquire_held _ l Hh)).
  - unfold sys_read. rewrite (bind_Done _ _ _ _ _ Hl). by rewrite (bind_Stop _ _ _ _ (acquire_held _ l Hh)).
  - unfold sys_write. rewrite Hr. cbn [negb]. rewrite (bind_Done _ _ _ _ _ Hf), Hf0.
    rewrite (bind_Done _ _ _ _ _ (run_flags_open _ _ _ _ _ _ _ Ho)), flags_pass by done.
    rewrite (bind_Done _ _ _ _ _ Hl). by rewrite (bind_Stop _ _ _ _ (acquire_held _ l Hh)).
  - unfold sys_dup2. pose proof (op_range _ _ _ _ _ _ _ Ho). unfold MAX_FILE_FILETAB.
    rewrite !(proj2 (Z.ltb_ge _ 0)), !(proj2 (Z.leb_gt 20 _)) by lia. cbn [orb].
    destruct (fdesc_at_pure new s) as [g Hg]. rewrite (bind_Done _ _ _ _ _ Hg).
    destruct (g =? 0); [|by rewrite (bind_Stop _ _ _ _ (Hc fr))].
    rewrite (bind_Done _ _ s (0, None) s) by done. cbn [Z.eqb negb]. rewrite (bind_Done _ _ _ _ _ Hl).
    by rewrite (bind_Stop _ _ _ _ (acquire_held _ l Hh)).
Qed.
Lemma run_seek_to `{FS : FsOps} s fd f v fl off l pos code t w : opened s fd f v fl off l ->
  seeks v off pos (vfs s) code t w -> seek_to f pos code s = Done (t, with_vfs w s).
Proof.
  intros Ho Hs. assert (with_vfs (vfs s) s = s) as Hid by (by destruct s).
  unfold seek_to. inversion Hs; subst; cbn [Z.eqb SEEK_SET SEEK_CUR SEEK_END Pos.eqb].
  - by rewrite Hid.
  - by rewrite (bind_Done _ _ _ _ _ (run_offset _ _ _ _ _ _ _ Ho)), Hid.
  - rewrite (bind_Done _ _ _ _ _ (run_vnode_open _ _ _ _ _ _ _ Ho)).
    by rewrite (bind_Done _ _ _ _ _ (run_vnode_call v _ s _ w (op_vnull _ _ _ _ _ _ _ Ho) H)).
  - rewrite (bind_Done _ _ _ _ _ (run_vnode_open _ _ _ _ _ _ _ Ho)).
    by rewrite (bind_Done _ _ _ _ _ (run_vnode_call v _ s _ w (op_vnull _ _ _ _ _ _ _ Ho) H)).
  - by rewrite !(proj2 (Z.eqb_neq _ _)), Hid.
Qed.
Lemma seeks_range `{FS : FsOps} v off pos w code o w' : - 2 ^ 63 <= pos < 2 ^ 63 ->
  seeks v off pos w code (Ok (Some o)) w' -> - 2 ^ 63 <= o < 2 ^ 63.
Proof. intros Hp Hs. inversion Hs; subst; [done|unfold swrap; dlia|unfold swrap; dlia]. Qed.
Lemma run_give_back {A} `{FS : FsOps} s fd f v fl off l (r : A) : opened s fd f v fl off l -> locks s !! l = Some true ->
  (l ← lock_of fd; _ ← lock_release l; mret r) s = Done (r, with_locks (<[l := false]> (locks s)) s).
Proof.
  intros Ho Hh. rewrite (bind_Done _ _ _ _ _ (run_lock_of _ _ _ _ _ _ _ Ho)).
  by rewrite (bind_Done _ _ _ _ _ (run_release _ l true (op_lnull _ _ _ _ _ _ _ Ho) Hh)).
Qed.
(** C38: [sys_lseek] with each of its codes.  A position the file accepts
    becomes the offset, and the call returns its low 32 bits as a signed number
    (not the position itself from 2^31 on); an unknown code and a negative
    position are EINVAL, and the handle is as before; when the vnode refuses
    [VOP_STAT] or the position, its error is returned, but the lock stays
    taken, and the next read, write, seek, close or dup2 of the thread on the
    handle stops the machine. *)
Theorem sys_lseek_spec `{FS : FsOps} s fd f v fl off l pos code t w :
  opened s fd f v fl off l -> locks s !! l = Some false -> - 2 ^ 63 <= pos < 2 ^ 63 ->
  seeks v off pos (vfs s) code t w ->
  match t with
  | Err e => exists s', sys_lseek fd pos code s = Done ((e, None), s') /\
      opened s' fd f v fl off l /\ stuck s' fd
  | Ok t => forall e w', (forall o, t = Some o -> VOP_TRYSEEK v o w = Done (e, w')) ->
      exists r s', sys_lseek fd pos code s = Done (r, s') /\
        match t with
        | Some o =>
            if o <? 0 then r = (EINVAL, None) /\ opened s' fd f v fl off l /\ locks s' = locks s
            else if e =? 0 then r = (0, Some (s32 o)) /\ opened s' fd f v fl o l /\ locks s' = locks s
            else r = (e, None) /\ opened s' fd f v fl off l /\ stuck s' fd
        | None => r = (EINVAL, None) /\ opened s' fd f v fl off l /\ locks s' = locks s
        end
  end.
Proof.
  intros Ho Hl Hp Hs. pose proof (op_lnull _ _ _ _ _ _ _ Ho) as Hl0.
  unfold sys_lseek at 1 2. rewrite (in_range_true fd (op_range _ _ _ _ _ _ _ Ho)). cbn [negb].
  rewrite (bind_Done _ _ _ _ _ (run_fdesc_open _ _ _ _ _ _ _ Ho)).
  rewrite (bind_Done _ _ _ _ _ (run_lock_of _ _ _ _ _ _ _ Ho)).
  rewrite (bind_Done _ _ _ _ _ (run_acquire s l Hl0 Hl)).
  set (s1 := with_locks _ s). assert (opened s1 fd f v fl off l) as Ho1 by (by apply (opened_same s)).
  rewrite (bind_Done _ _ s1 _ _ (run_seek_to s1 fd f v fl off l pos code t w Ho1 Hs)). cbv beta.
  assert (opened (with_vfs w s1) fd f v fl off l) as Ho2 by (by apply (opened_same s)).
  assert (locks (with_vfs w s1) !! l = Some true) as Hh by (cbn; by rewrite lookup_insert_eq).
  assert (forall x, locks x = locks s1 -> <[l := false]> (locks x) = locks s) as Hback
    by (intros x ->; cbn; by rewrite insert_insert_eq, insert_id).
  destruct t as [e|[o|]]; [eauto 9 using held_stuck| |].
  - intros e w' Ht. destruct (o <? 0) eqn:En.
    + rewrite (run_give_back _ fd f v fl off l _ Ho2 Hh). do 2 eexists.
      split; [reflexivity|]. split; [done|]. split; [by apply (opened_same s)|by apply Hback].
    + pose proof (seeks_range _ _ _ _ _ _ _ Hp Hs) as Hr.
      rewrite (bind_Done _ _ _ _ _ (run_vnode_open _ _ _ _ _ _ _ Ho2)).
      rewrite (bind_Done _ _ _ _ _ (run_vnode_call v (VOP_TRYSEEK v o) (with_vfs w s1) e w' (op_vnull _ _ _ _ _ _ _ Ho) (Ht o eq_refl))).
      set (s3 := with_vfs w' _). assert (opened s3 fd f v fl off l) as Ho3 by (by apply (opened_same s)).
      destruct (e =? 0) eqn:Ee; cbn [negb]; [|eauto 9 using held_stuck].
      destruct (run_set_offset _ fd f v fl off l o Ho3 Hr) as (k' & Hw & Ho4).
      rewrite (bind_Done _ _ _ _ _ Hw), (run_give_back _ fd f v fl o l _ Ho4 Hh).
      do 2 eexists. split; [reflexivity|]. split; [done|]. split; [by apply (opened_same (with_kw k' s3))|by apply Hback].
  - intros _ _ _. rewrite (run_give_back _ fd f v fl off l _ Ho2 Hh). do 2 eexists.
    split; [reflexivity|]. split; [done|]. split; [by apply (opened_same s)|by apply Hback].
Qed.

(** ** Opening, closing, writing, listing *)
Section more.
Context `{FS : FsOps}.
Lemma bind_ext_run {S A B} (m : M S A) (k k' : A -> M S B) s :
  (forall a s', m s = Done (a, s') -> k a s' = k' a s') -> (m ≫= k) s = (m ≫= k') s.
Proof. intros Hk. mrun. destruct (m s) as [[a s']|]; [by apply Hk|done]. Qed.
(** With length zero [copyinstr] refuses every user pointer but the null one. *)
Lemma copyinstr_zero user d m : 0 < user < 2 ^ 32 -> copyinstr user d 0 m = Done ((EFAULT, 0), m).
Proof.
  intros Hu. unfold copyinstr, copycheck. rewrite (uwrap_small 32) by lia.
  rewrite (proj2 (Z.ltb_lt _ _)) by lia. done.
Qed.
Lemma run_stale fuel buffer user s {B} (k : (Z * Z) -> M fst B) :
  memory (ram s) !! buffer = Some 0 -> 0 < user < 2 ^ 32 ->
  (n ← direct (strlen (S fuel) buffer); r ← on_ram (copyinstr user buffer n); k r) s = k (EFAULT, 0) s.
Proof.
  intros Hm Hu. assert (strlen (S fuel) buffer (memory (ram s)) = Val 0 (memory (ram s))) as Hs.
  { unfold strlen. cbn [strlen_loop]. rewrite Z.add_0_r. by rewrite (ld_run _ _ 0 _ Hm). }
  rewrite (bind_Done _ _ _ _ _ (run_direct _ s 0 _ Hs)).
  assert (with_ram (mkMach (memory (ram s)) (tm_badfaultfunc (ram s))) s = s) as -> by (by destruct s as [? []]).
  rewrite (bind_Done _ _ _ _ _ (run_on_ram _ s _ _ (copyinstr_zero user buffer (ram s) Hu))).
  by destruct s.
Qed.
Lemma kmalloc_ram a s b s' : kmalloc a s = Done (b, s') -> b = a /\ ram s' = ram s.
Proof. intros [-> ->]%kmalloc_inv. by destruct (a =? 0). Qed.
Lemma acquire_ram l s s' : lock_acquire l s = Done (tt, s') -> ram s' = ram s.
Proof.
  unfold lock_acquire. mrun. destruct (l =? 0); [done|]. destruct (locks s !! l) as [[]|]; try done.
  by intros [= <-].
Qed.
End more.

(** [sys_open] returns the lowest free handle from 3 on, with the vnode
    [vfs_open] found, the flags it was given and offset 0. *)
Theorem sys_open_lowest `{FS : FsOps} fuel fname file lk junk filename flags mode s fd s' :
  sys_open fuel fname file lk junk filename flags mode s = Done ((0, Some fd), s') ->
  length (fdesc s) = 20%nat -> lk <> 0 ->
  3 <= fd < 20 /\ fdesc s !! Z.to_nat fd = Some 0 /\
  (forall i, 3 <= i < fd -> fdesc s !! Z.to_nat i <> Some 0) /\
  exists path v, vfs_open path flags mode (vfs s) = Done (Ok v, vfs s') /\
    (v <> 0 -> opened s' fd file v flags 0 lk).
Proof.
  intros Hc Hlen Hlk. apply sys_open_inv in Hc as [[? _]|(fd' & s1 & path & o & w & Hp & Hv & Hw & Hc)]; [done|].
  destruct o as [e|v]; [by destruct Hc as (_ & ? & _)|]. destruct Hc as (_ & [= <-] & Hf & Hk).
  destruct Hp as [Hfn Hfl Hr Hfree Hleast Hfd Hbl Hkw Hlo].
  assert (forall i, 3 <= i < 20 -> fdesc_at i s = Done (default 0 (fdesc s !! Z.to_nat i), s)) as Hat.
  { intros i Hi. unfold fdesc_at, MAX_FILE_FILETAB. mrun.
    by rewrite (proj2 (Z.leb_le _ _)), (proj2 (Z.ltb_lt _ _)) by lia. }
  assert (forall i, 3 <= i < 20 -> is_Some (fdesc s !! Z.to_nat i)) as Hsome by (intros; apply lookup_lt_is_Some_2; lia).
  split; [done|]. split; [|split].
  - destruct (Hsome fd Hr) as [g Hg]. rewrite (Hat fd Hr), Hg in Hfree. cbn in Hfree. congruence.
  - intros i Hi He. apply (Hleast i Hi). rewrite Hat, He by lia. done.
  - exists path, v. rewrite Hw. split; [done|]. intros Hv0.
    split; rewrite ?Hk; unfold f_vnode, f_flags, f_lock; rewrite ?lookup_insert_ne by lia; rewrite ?lookup_insert_eq; try done; try lia.
    rewrite Hf, Hfd, list_lookup_insert_eq by lia. done.
Qed.
(** [sys_open] allocates a pointer's worth of memory for a [struct File]
    and stores the lock of the file 16 bytes into it, past the block; if
    another file of the thread lies there, its vnode pointer is replaced by
    the address of the lock. *)
Theorem sys_open_overflows `{FS : FsOps} fuel fname file lk junk filename flags mode s fd s' g :
  sys_open fuel fname file lk junk filename flags mode s = Done ((0, Some fd), s') ->
  0 <= g < 20 -> g <> fd -> fdesc s !! Z.to_nat g = Some (file + 16) -> file + 16 <> 0 ->
  get_filetab g s' = Done (lk, s').
Proof.
  intros Hc Hg Hne Hs Hn0. apply sys_open_inv in Hc as [[? _]|(fd' & s1 & path & o & w & Hp & Hv & Hw & Hc)]; [done|].
  destruct o as [e|v]; [by destruct Hc as (_ & ? & _)|]. destruct Hc as (_ & [= <-] & Hf & Hk).
  pose proof (pr_fd _ _ _ _ _ Hp). unfold get_filetab.
  rewrite (bind_Done _ _ _ _ _ (run_fdesc s' g (file + 16) Hg ltac:(rewrite Hf, (pr_fdesc _ _ _ _ _ Hp), list_lookup_insert_ne by lia; done))).
  apply run_rd; [done|]. rewrite Hk. unfold f_lock, f_vnode. rewrite Z.add_0_r. by rewrite lookup_insert_eq.
Qed.
(** When [vfs_open] fails, [sys_open] returns its error but the handle stays
    occupied by a structure with an arbitrary vnode pointer, and the copy of
    the path is never freed. *)
Theorem failed_open_keeps_handle `{FS : FsOps} fuel fname file lk junk filename flags mode s e r s' :
  sys_open fuel fname file lk junk filename flags mode s = Done ((e, r), s') ->
  e <> 0 -> e <> ENOMEM -> e <> ENFILE -> length (fdesc s) = 20%nat ->
  exists fd, 3 <= fd < 20 /\ fdesc s' = <[Z.to_nat fd := file]> (fdesc s) /\ file <> 0 /\
    fdesc_at fd s = Done (0, s) /\ get_filetab fd s' = Done (junk, s') /\ fname ∈ blocks s'.
Proof.
  intros Hc He Hm Hf Hlen. apply sys_open_inv in Hc as [[_ [?|?]]|(fd & s1 & path & o & w & Hp & Hv & Hw & Hc)]; [done..|].
  destruct o as [e'|v]; [|by destruct Hc as (? & _)]. destruct Hc as (-> & -> & ->).
  destruct Hp as [Hfn Hfl Hr Hfree Hleast Hfd Hbl Hkw Hlo]. exists fd. split; [done|]. split; [done|]. split; [done|].
  split; [done|]. split; [|cbn; rewrite Hbl; set_solver].
  unfold get_filetab. erewrite bind_Done; [|apply (run_fdesc _ fd file); [lia|cbn; by rewrite Hfd, list_lookup_insert_eq by lia]].
  apply run_rd; [done|]. cbn. by rewrite lookup_insert_eq.
Qed.
(** Steps that leave the table and the blocks as they are. *)
Lemma dangling_after fd s s1 s2 : dangling fd s s1 ->
  fdesc s2 = fdesc s1 -> around s2 = around s1 -> blocks s2 = blocks s1 -> dangling fd s s2.
Proof.
  intros (f & Hn & H0 & H1 & Hb) Ef Ea Eb. exists f. split; [done|]. split; [done|]. rewrite Eb.
  split; [|done]. by eapply fdesc_at_same.
Qed.
Lemma wr_same p off w s s' : wr p off w s = Done (tt, s') ->
  fdesc s' = fdesc s /\ around s' = around s /\ blocks s' = blocks s.
Proof. by intros [_ ->]%wr_inv. Qed.
Lemma acquire_same l s s' : lock_acquire l s = Done (tt, s') ->
  fdesc s' = fdesc s /\ around s' = around s /\ blocks s' = blocks s.
Proof.
  unfold lock_acquire. mrun. destruct (l =? 0); [done|]. destruct (locks s !! l) as [[]|]; try done. by intros [= <-].
Qed.
Lemma rd_offset_inv f s o s' : rd_offset f s = Done (o, s') -> s' = s.
Proof. by intros (a & s1 & (-> & _)%rd_inv & (b & s2 & (-> & _)%rd_inv & [= _ <-])%bind_inv)%bind_inv. Qed.
Lemma wr_offset_same f o s s' : wr_offset f o s = Done (tt, s') ->
  fdesc s' = fdesc s /\ around s' = around s /\ blocks s' = blocks s.
Proof. intros ([] & s1 & (F1 & A1 & B1)%wr_same & (F2 & A2 & B2)%wr_same)%bind_inv. split; [|split]; congruence. Qed.
Lemma close_stops `{FS : FsOps} fr s fd f v fl off l w :
  opened s fd f v fl off l -> locks s !! l = Some false -> vfs_close v (vfs s) = Done (tt, w) ->
  from_option vn_refcount (fr_word fr) (vnodes w !! v) <> 0 -> sys_close fr fd s = Stop NullDeref.
Proof.
  intros Ho Hl Hc Hn. unfold sys_close. pose proof (op_lnull _ _ _ _ _ _ _ Ho) as Hl0.
  rewrite (in_range_true fd (op_range _ _ _ _ _ _ _ Ho)). cbn [negb].
  rewrite (bind_Done _ _ _ _ _ (run_fdesc_open _ _ _ _ _ _ _ Ho)), (proj2 (Z.eqb_neq _ _) (op_file _ _ _ _ _ _ _ Ho)).
  rewrite (bind_Done _ _ _ _ _ (run_lock_of _ _ _ _ _ _ _ Ho)), (bind_Done _ _ _ _ _ (run_acquire s l Hl0 Hl)).
  set (s1 := with_locks _ s). assert (opened s1 fd f v fl off l) as Ho1 by (by apply (opened_same s)).
  rewrite (bind_Done _ _ _ _ _ (run_vnode_open _ _ _ _ _ _ _ Ho1)).
  rewrite (proj2 (Z.eqb_neq _ _) (op_vnull _ _ _ _ _ _ _ Ho)), (bind_Done _ _ _ _ _ (run_on_vfs _ s1 tt w Hc)).
  set (s2 := with_vfs w s1). assert (opened s2 fd f v fl off l) as Ho2 by (by apply (opened_same s)).
  rewrite (bind_Done _ _ _ _ _ (run_vnode_open _ _ _ _ _ _ _ Ho2)).
  assert (refcount_word fr v s2 = Done (from_option vn_refcount (fr_word fr) (vnodes w !! v), s2)) as Hw.
  { unfold refcount_word. mrun. by rewrite (proj2 (Z.eqb_neq _ _) (op_vnull _ _ _ _ _ _ _ Ho)). }
  rewrite (bind_Done _ _ _ _ _ Hw), (proj2 (Z.eqb_neq _ _) Hn).
  destruct (set_fdesc_null fd s2 f) as (s3 & Hs & Hf3); [by eapply run_fdesc_open|by eapply op_file|].
  rewrite (bind_Done _ _ _ _ _ Hs). apply bind_Stop. unfold lock_of. by rewrite (bind_Done _ _ _ _ _ Hf3).
Qed.
Lemma dup2_returns `{FS : FsOps} fr fd new s e r s' : sys_dup2 fr fd new s = Done ((e, r), s') ->
  (e = EBADF /\ s' = s) \/ (e = 0 /\ r = Some new /\ dangling fd s s').
Proof.
  intros Hc. unfold sys_dup2 in Hc.
  destruct (_ || _); [injection Hc as <- _ <-; by left|]. destruct (_ || _); [injection Hc as <- _ <-; by left|].
  apply bind_inv in Hc as (g & s1 & [-> Hg]%fdesc_at_inv & Hc).
  apply bind_inv in Hc as ([e1 r1] & s2 & H1 & Hc). destruct (Z.eqb_spec g 0) as [->|Hn].
  - exfalso. injection H1 as <- <- <-. cbn [negb Z.eqb] in Hc.
    apply bind_inv in Hc as (l & s3 & ->%lock_of_inv & Hc).
    apply bind_inv in Hc as ([] & s4 & (F4 & A4 & _)%lock_acquire_inv & Hc).
    apply bind_inv in Hc as (g & s5 & [-> Hg']%fdesc_at_inv & Hc).
    rewrite (fdesc_at_same new s s4 0 F4 A4 Hg) in Hg'. injection Hg' as <-.
    apply bind_inv in Hc as (f & s6 & [-> _]%fdesc_at_inv & Hc).
    apply bind_inv in Hc as (w & s7 & (-> & _)%rd_inv & Hc). by apply bind_inv in Hc as ([] & s8 & Hw & _).
  - destruct (close_returns fr fd s e1 r1 s2 H1) as [[-> ->]|(-> & -> & Hd)]; [injection Hc as <- _ <-; by left|].
    right. cbn [negb Z.eqb] in Hc. apply bind_inv in Hc as (l & s3 & ->%lock_of_inv & Hc).
    apply bind_inv in Hc as ([] & s4 & (F4 & A4 & B4)%acquire_same & Hc).
    apply bind_inv in Hc as (g1 & s5 & [-> _]%fdesc_at_inv & Hc).
    apply bind_inv in Hc as (f & s6 & [-> _]%fdesc_at_inv & Hc).
    apply bind_inv in Hc as (x & s7 & (-> & _)%rd_inv & Hc).
    apply bind_inv in Hc as ([] & s8 & (F8 & A8 & B8)%wr_same & Hc).
    apply bind_inv in Hc as (o & s9 & ->%rd_offset_inv & Hc).
    apply bind_inv in Hc as ([] & s10 & (F10 & A10 & B10)%wr_offset_same & Hc).
    apply bind_inv in Hc as (x' & s11 & (-> & _)%rd_inv & Hc).
    apply bind_inv in Hc as ([] & s12 & (F12 & A12 & B12)%wr_same & Hc).
    apply bind_inv in Hc as (l' & s13 & ->%lock_of_inv & Hc).
    apply bind_inv in Hc as ([] & s14 & (F14 & A14 & B14)%lock_release_inv & Hc). injection Hc as <- <- <-.
    split; [done|]. split; [done|]. apply (dangling_after fd s s2); [done|congruence..].
Qed.
(** C40: neither [sys_close] nor [sys_dup2] ever gives a handle back, whatever
    the allocator does with freed blocks.  On an open handle [sys_close] clears
    the handle and then stops the machine, because it gives the lock back
    through the cleared handle; the exception is when the word in the place of
    the reference count is zero after the vnode was closed (a freed vnode whose
    free-list link is null, which is then freed a second time).  When they
    return, it is either with [EBADF] and nothing done, or with 0, and then the
    handle given still refers to its structure, which has been freed; for
    [sys_dup2] that is the handle that was to be duplicated. *)
Theorem close_dup2_never_work `{FS : FsOps} fr fd s :
  (forall e r s', sys_close fr fd s = Done ((e, r), s') ->
    (e = EBADF /\ s' = s) \/ (e = 0 /\ r = Some 0 /\ dangling fd s s')) /\
  (forall f v fl off l w, opened s fd f v fl off l -> locks s !! l = Some false ->
    vfs_close v (vfs s) = Done (tt, w) ->
    from_option vn_refcount (fr_word fr) (vnodes w !! v) <> 0 -> sys_close fr fd s = Stop NullDeref) /\
  (forall new e r s', sys_dup2 fr fd new s = Done ((e, r), s') ->
    (e = EBADF /\ s' = s) \/ (e = 0 /\ r = Some new /\ dangling fd s s')).
Proof.
  split; [exact (close_returns fr fd s)|]. split; [|exact (fun new => dup2_returns fr fd new s)].
  intros f v fl off l w. exact (close_stops fr s fd f v fl off l w).
Qed.
(** When the fresh buffer of [sys_write] starts with a zero byte, nothing is
    copied from the user, and the file receives what was in the buffer: the
    call does the same thing whatever the user passes. *)
Theorem sys_write_ignores_user `{FS : FsOps} fuel buffer fd size s buf buf' :
  memory (ram s) !! buffer = Some 0 -> 0 < buf < 2 ^ 32 -> 0 < buf' < 2 ^ 32 ->
  sys_write (S fuel) buffer fd buf size s = sys_write (S fuel) buffer fd buf' size s.
Proof.
  intros Hm Hb Hb'. unfold sys_write. destruct (negb (in_range fd)); [done|].
  apply bind_ext_run. intros f s1 [-> _]%fdesc_at_inv. destruct (f =? 0); [done|].
  apply bind_ext_run. intros fl s1 (-> & _)%rd_inv. destruct (negb (_ || _)); [done|].
  apply bind_ext_run. intros l s1 ->%lock_of_inv.
  apply bind_ext_run. intros [] s1 Ha%acquire_ram.
  apply bind_ext_run. intros b s2 [-> Hr]%kmalloc_ram. rewrite Ha in Hr.
  rewrite !run_stale; [done|by rewrite ?Hr..].
Qed.
(** [sys_getdirentry] stores the name at the address the user gives, without
    a check: for every mapped address, those of the kernel included. *)
Theorem getdirentry_writes_anywhere `{FS : FsOps} fd v buf buflen s u w :
  get_filetab fd s = Done (v, s) -> v <> 0 ->
  VOP_GETDIRENTRY v (kinit UIO_READ (u32 buflen) 0 []) (vfs s) = Done ((0, u), w) ->
  mapped (memory (ram s)) buf (Z.of_nat (length (u_data u))) ->
  exists s', sys_getdirentry fd buf buflen s = Done ((0, Some 0), s') /\
    forall i b, u_data u !! i = Some b -> memory (ram s') !! (buf + Z.of_nat i) = Some b.
Proof.
  intros Hg Hv Hd Hm. unfold sys_getdirentry. rewrite (bind_Done _ _ _ _ _ Hg).
  rewrite (bind_Done _ _ _ _ _ (run_vnode_call v _ s _ w Hv Hd)).
  destruct (stn_run (u_data u) buf (memory (ram s)) Hm) as (m' & Hst & Hin).
  rewrite (bind_Done _ _ _ _ _ (run_direct _ (with_vfs w s) tt m' Hst)). eexists. split; [reflexivity|]. cbn.
  intros i b Hi. rewrite Hin. pose proof (lookup_lt_Some _ _ _ Hi). rewrite decide_True by lia.
  by replace (Z.to_nat (buf + Z.of_nat i - buf)) with i by lia.
Qed.

(** ** Witnesses

    The machine of VfsSpec.v with the strings "null:" and "lhd0:/." in user memory
    at 16 and 32, a kernel buffer of zeros at [kbuf], and room for two files at 4096. *)
Import Disk.
Definition kbuf : Z := 2 ^ 31.
Definition bytes_at (a : Z) (l : list Z) : mem := list_to_map (imap (fun i b => (a + Z.of_nat i, b)) l).
Definition machine : fst := {|
  vfs := booted;
  ram := mkMach (bytes_at 16 (null_name ++ [colon; 0]) ∪ bytes_at 32 (dot_path ++ [0]) ∪ bytes_at kbuf (replicate 16 0)) false;
  kw := list_to_map (map (fun i => (4096 + 4 * Z.of_nat i, 0)) (seq 0 12));
  blocks := ∅;
  locks := ∅;
  fdesc := replicate 20 0;
  around := fun _ => 0;
|}.
Definition after (o : outcome (Z * option Z * fst)) : fst := match o with Done (_, s) => s | Stop _ => machine end.
Definition open_null : outcome (Z * option Z * fst) := sys_open 10 kbuf 4096 9000 77 16 0 0 machine.
Definition one_open : fst := after open_null.
Lemma open_null_result : open_null = Done ((0, Some 3), one_open).
Proof. vm_compute. reflexivity. Qed.
Lemma one_open_opened : opened one_open 3 4096 10 0 0 9000.
Proof. split; try (vm_compute; reflexivity); cbn; lia. Qed.
Lemma sys_open_lowest_witness :
  3 <= 3 < 20 /\ fdesc machine !! 3%nat = Some 0 /\
  (forall i, 3 <= i < 3 -> fdesc machine !! Z.to_nat i <> Some 0) /\
  exists path v, vfs_open path 0 0 (vfs machine) = Done (Ok v, vfs one_open) /\
    (v <> 0 -> opened one_open 3 4096 v 0 0 9000).
Proof.
  refine (sys_open_lowest 10 kbuf 4096 9000 77 16 0 0 machine 3 one_open _ _ _);
    [vm_compute; reflexivity|reflexivity|lia].
Defined.
Lemma sys_read_reads_witness :
  exists s', sys_read kbuf 3 16 4 one_open = Done ((0, Some 0), s') /\ opened s' 3 4096 10 0 0 9000 /\
    locks s' = locks one_open.
Proof.
  destruct (sys_read_reads one_open 3 4096 10 0 0 9000 kbuf 16 4 (kinit UIO_READ 4 0 []) (vfs one_open)
    (memory (ram one_open)) one_open_opened) with (e := 0)
    (c := match copyout kbuf 16 4 (mkMach (memory (ram one_open)) (tm_badfaultfunc (ram one_open)))
          with Done (_, c) => c | Stop _ => ram one_open end) as (s' & Hr & Ho & Hl & _).
  1-7: try (vm_compute; reflexivity); try (vm_compute; discriminate).
  - cbn. lia.
  - exists s'. auto.
Defined.
Lemma sys_lseek_spec_witness :
  exists s', sys_lseek 3 0 SEEK_SET one_open = Done ((ESPIPE, None), s') /\ stuck s' 3.
Proof.
  destruct (sys_lseek_spec one_open 3 4096 10 0 0 9000 0 SEEK_SET (Ok (Some 0)) (vfs one_open) one_open_opened
    ltac:(vm_compute; reflexivity) ltac:(lia) (seeks_set _ _ _ _) ESPIPE (vfs one_open)) as (r & s' & Hs & Hr).
  - intros o [= <-]. vm_compute. reflexivity.
  - cbn in Hr. destruct Hr as (-> & _ & Hr). by exists s'.
Defined.
(** The second file is placed below the first. *)
Definition high_open : fst := after (sys_open 10 kbuf 4112 9000 77 16 0 0 machine).
Definition both_open : fst := after (sys_open 10 kbuf 4096 9004 77 16 0 0 high_open).
Lemma sys_open_overflows_witness :
  get_filetab 3 high_open = Done (10, high_open) /\ get_filetab 3 both_open = Done (9004, both_open).
Proof.
  split; [vm_compute; reflexivity|].
  refine (sys_open_overflows 10 kbuf 4096 9004 77 16 0 0 high_open 4 both_open 3 _ _ _ _ _);
    [vm_compute; reflexivity|lia|lia|reflexivity|lia].
Defined.
(** Flag 3 is not an access mode. *)
Definition failed_open : fst := after (sys_open 10 kbuf 4096 9000 77 16 3 0 machine).
Lemma failed_open_keeps_handle_witness :
  exists fd, 3 <= fd < 20 /\ fdesc failed_open = <[Z.to_nat fd := 4096]> (fdesc machine) /\ 4096 <> 0 /\
    fdesc_at fd machine = Done (0, machine) /\ get_filetab fd failed_open = Done (77, failed_open) /\
    kbuf ∈ blocks failed_open.
Proof.
  refine (failed_open_keeps_handle 10 kbuf 4096 9000 77 16 3 0 machine EINVAL None failed_open _ _ _ _ _);
    [vm_compute; reflexivity|done|done|done|reflexivity].
Defined.
(** The null device is never freed. *)
Lemma close_dup2_never_work_witness : sys_close (Freed 0 true (fun _ => None)) 3 one_open = Stop NullDeref.
Proof.
  refine (proj1 (proj2 (close_dup2_never_work (Freed 0 true (fun _ => None)) 3 one_open)) 4096 10 0 0 9000
    (match vfs_close 10 (vfs one_open) with Done (_, w) => w | Stop _ => vfs one_open end) one_open_opened _ _ _);
    [vm_compute; reflexivity..|vm_compute; discriminate].
Defined.
Lemma sys_write_ignores_user_witness :
  sys_write 10 (kbuf + 8) 3 16 4 one_open = sys_write 10 (kbuf + 8) 3 4095 4 one_open.
Proof.
  apply (sys_write_ignores_user 9 (kbuf + 8) 3 4 one_open 16 4095); [vm_compute; reflexivity|lia|lia].
Defined.
(** A directory, opened, whose first name is put into kernel memory. *)
Definition dir_open : fst := after (sys_open 10 kbuf 4096 9000 77 32 0 0 machine).
Lemma getdirentry_writes_anywhere_witness :
  exists s', sys_getdirentry 3 (kbuf + 12) 8 dir_open = Done ((0, Some 0), s') /\
    memory (ram dir_open) !! (kbuf + 12) = Some 0 /\ memory (ram s') !! (kbuf + 12) = Some 46.
Proof.
  destruct (getdirentry_writes_anywhere 3 107 (kbuf + 12) 8 dir_open (took (kinit UIO_READ 8 0 []) 1 [46]) (vfs dir_open))
    as (s' & Hs & Hm).
  - vm_compute. reflexivity.
  - lia.
  - vm_compute. reflexivity.
  - intros i Hi. change (0 <= i < 1) in Hi. assert (i = 0) as -> by lia. vm_compute. by eexists.
  - exists s'. split; [exact Hs|]. split; [vm_compute; reflexivity|]. exact (Hm O 46 eq_refl).
Defined.
(** Closing the only handle of a directory: the vnode is freed, the word in its
    place is null, and [sys_close] returns 0 with the handle still occupied;
    with any other word it stops. *)
Lemma close_of_last_handle :
  (exists s', sys_close (Freed 0 true (fun _ => None)) 3 dir_open = Done ((0, Some 0), s') /\
    fdesc_at 3 s' = Done (4096, s') /\ blocks s' = ∅) /\
  sys_close (Freed (2 ^ 31) true (fun _ => None)) 3 dir_open = Stop NullDeref.
Proof. split; [eexists; split; [vm_compute; reflexivity|split; vm_compute; reflexivity]|vm_compute; reflexivity]. Qed.
