(* ===== verification/Printf.v ===== *)
(** * Formatted output (common/libc/printf, common/libc/stdlib/atoi.c)

    __printf.c works through the format one character at a time in the state
    [PF] and hands pieces of text to the function it is given; snprintf.c is a
    client that stores them in a buffer.  A character is its code.  The
    argument list is a list of typed values, and fetching an argument of
    another type than the one passed stops with [BadAccess].

    The specification reads a format as a list of directives, literal
    characters and fields, and says what each prints; the number texts are
    characterised by the value of their digits.  The theorems say that
    [__vprintf] sends exactly that text to any client, that [vsnprintf] stores
    as much of it as fits and nothing outside the buffer, and that [atoi] reads
    back what was printed. *)
From S2P Require Import Prelude Memory.
Import Memory.

Abbreviation chars := (list Z).

Definition NUMBER_BUF_SIZE : nat := (8 * 8) / 3 + 2.

Inductive intsize := INTSZ | LONGSZ | LLONGSZ.
#[export] Instance intsize_eq_dec : EqDecision intsize.
Proof. solve_decision. Defined.

(** What a caller can pass: integers of the three sizes, a pointer, a string
    (or a null pointer). *)
Inductive arg :=
| AInt (n : Z)
| ALong (n : Z)
| ALLong (n : Z)
| APtr (n : Z)
| AStr (s : option chars).

(** The fields of [PF] but for [sendfunc] and [clientdata]. *)
Record PF := mkPF {
  ap : list arg;
  charcount : Z;
  in_pct : bool;
  size : intsize;
  num : Z;
  sign : Z;
  spacing : Z;
  rightspc : bool;
  fillchar : Z;
  base : Z;
  baseprefix : bool;
  altformat : bool
}.
Definition with_ap a p := mkPF a (charcount p) (in_pct p) (size p) (num p) (sign p) (spacing p) (rightspc p) (fillchar p) (base p) (baseprefix p) (altformat p).
Definition with_count c p := mkPF (ap p) c (in_pct p) (size p) (num p) (sign p) (spacing p) (rightspc p) (fillchar p) (base p) (baseprefix p) (altformat p).
Definition with_pct b p := mkPF (ap p) (charcount p) b (size p) (num p) (sign p) (spacing p) (rightspc p) (fillchar p) (base p) (baseprefix p) (altformat p).
Definition with_size z p := mkPF (ap p) (charcount p) (in_pct p) z (num p) (sign p) (spacing p) (rightspc p) (fillchar p) (base p) (baseprefix p) (altformat p).
Definition with_num n s p := mkPF (ap p) (charcount p) (in_pct p) (size p) n s (spacing p) (rightspc p) (fillchar p) (base p) (baseprefix p) (altformat p).
Definition with_spacing n p := mkPF (ap p) (charcount p) (in_pct p) (size p) (num p) (sign p) n (rightspc p) (fillchar p) (base p) (baseprefix p) (altformat p).
Definition with_right p := mkPF (ap p) (charcount p) (in_pct p) (size p) (num p) (sign p) (spacing p) true (fillchar p) (base p) (baseprefix p) (altformat p).
Definition with_fill c p := mkPF (ap p) (charcount p) (in_pct p) (size p) (num p) (sign p) (spacing p) (rightspc p) c (base p) (baseprefix p) (altformat p).
Definition with_base b p := mkPF (ap p) (charcount p) (in_pct p) (size p) (num p) (sign p) (spacing p) (rightspc p) (fillchar p) b (baseprefix p) (altformat p).
Definition with_prefix p := mkPF (ap p) (charcount p) (in_pct p) (size p) (num p) (sign p) (spacing p) (rightspc p) (fillchar p) (base p) true (altformat p).
Definition with_alt p := mkPF (ap p) (charcount p) (in_pct p) (size p) (num p) (sign p) (spacing p) (rightspc p) (fillchar p) (base p) (baseprefix p) true.

(** Characters. *)
Definition c_pct : Z := 37.
Definition c_space : Z := 32.
Definition c_zero : Z := 48.
Definition c_nine : Z := 57.
Definition c_hash : Z := 35.
Definition c_minus : Z := 45.
Definition c_plus : Z := 43.
Definition c_tab : Z := 9.
Definition c_c : Z := 99.
Definition c_d : Z := 100.
Definition c_l : Z := 108.
Definition c_o : Z := 111.
Definition c_p : Z := 112.
Definition c_s : Z := 115.
Definition c_u : Z := 117.
Definition c_x : Z := 120.
(** ["0123456789abcdef"], ["#-l0123456789"], ["doupx"], ["(null)"] *)
Definition digits : chars := [48; 49; 50; 51; 52; 53; 54; 55; 56; 57; 97; 98; 99; 100; 101; 102].
Definition modifiers : chars := [35; 45; 108; 48; 49; 50; 51; 52; 53; 54; 55; 56; 57].
Definition inttypes : chars := [100; 111; 117; 112; 120].
Definition nulltext : chars := [40; 110; 117; 108; 108; 41].

Definition slen (s : chars) : Z := Z.of_nat (length s).

(** ** Converting a number, on the buffer of [__pf_printnum] *)
Definition put_char (buf : list (option Z)) (x c : Z) : outcome (list (option Z)) :=
  if (0 <=? x) && (x <? Z.of_nat (length buf)) then Done (<[Z.to_nat x := Some c]> buf) else Stop BadAccess.
Fixpoint convert (fuel : nat) (b : Z) (buf : list (option Z)) (x xnum : Z) : outcome (list (option Z) * Z) :=
  match fuel with
  | O => Stop NoFuel
  | S fuel' =>
      if b =? 0 then Stop DivZero
      else
        match digits !! Z.to_nat (xnum mod b) with
        | None => Stop BadAccess
        | Some c =>
            buf ← put_char buf x c;
            let xnum := xnum / b in
            if 0 <? xnum then convert fuel' b buf (x - 1) xnum else Done (buf, x - 1)
        end
  end.
(** The string that starts at the head of [buf]. *)
Fixpoint read_text (buf : list (option Z)) : outcome chars :=
  match buf with
  | Some c :: r => if c =? 0 then Done [] else s ← read_text r; Done (c :: s)
  | _ => Stop BadAccess
  end.
Definition number_text (b n : Z) : outcome chars :=
  let last := Z.of_nat NUMBER_BUF_SIZE - 1 in
  buf ← put_char (replicate NUMBER_BUF_SIZE None) last 0;
  '(buf, x) ← convert 65 b buf (last - 1) n;
  read_text (drop (Z.to_nat (x + 1)) buf).

Section printf.
Context {C : Type}.
(** [sendfunc] applied to [clientdata]. *)
Variable sendfunc : chars -> M C unit.

Definition pf_get {A} (f : PF -> A) : M (PF * C) A := mgets (fun s => f s.1).
Definition pf_set (f : PF -> PF) : M (PF * C) unit := mmodify (fun s => (f s.1, s.2)).
Definition on_client {A} (m : M C A) : M (PF * C) A := fun s =>
  match m s.2 with Done (a, c) => Done (a, (s.1, c)) | Stop f => Stop f end.
Definition va_arg {A} (f : arg -> option A) : M (PF * C) A :=
  l ← pf_get ap;
  match l with
  | a :: r => match f a with Some x => _ ← pf_set (with_ap r); mret x | None => mstop BadAccess end
  | [] => mstop BadAccess
  end.

Definition __pf_print (txt : chars) : M (PF * C) unit :=
  _ ← on_client (sendfunc txt);
  pf_set (fun p => with_count (s32 (charcount p + slen txt)) p).

Definition endfield (p : PF) : PF :=
  mkPF (ap p) (charcount p) false INTSZ 0 0 0 false c_space 0 false false.
Definition __pf_endfield : M (PF * C) unit := pf_set endfield.

Definition __pf_modifier (ch : Z) : M (PF * C) unit :=
  if ch =? c_hash then pf_set with_alt
  else if ch =? c_minus then pf_set with_right
  else if ch =? c_l then
    pf_set (fun p => with_size (if bool_decide (size p = LONGSZ) then LLONGSZ else LONGSZ) p)
  else if ch =? c_zero then
    pf_set (fun p => if 0 <? spacing p then with_spacing (s32 (spacing p * 10)) p else with_fill c_zero p)
  else
    _ ← kassert ((c_zero <? ch) && (ch <=? c_nine));
    pf_set (fun p => with_spacing (s32 (spacing p * 10 + (ch - c_zero))) p).

(** What [va_arg] makes of an argument of the right type. *)
Definition get_signed (z : intsize) (a : arg) : option Z :=
  match z, a with
  | INTSZ, AInt n | LONGSZ, ALong n => Some (s32 n)
  | LLONGSZ, ALLong n => Some (s64 n)
  | _, _ => None
  end.
Definition get_unsigned (z : intsize) (a : arg) : option Z :=
  match z, a with
  | INTSZ, AInt n | LONGSZ, ALong n => Some (u32 n)
  | LLONGSZ, ALLong n => Some (u64 n)
  | _, _ => None
  end.
Definition get_ptr (a : arg) : option Z := match a with APtr n => Some (u32 n) | _ => None end.
Definition get_str (a : arg) : option (option chars) := match a with AStr s => Some s | _ => None end.
Definition get_char (a : arg) : option Z := match a with AInt n => Some (u8 n) | _ => None end.

Definition __pf_getnum (ch : Z) : M (PF * C) unit :=
  if ch =? c_p then n ← va_arg get_ptr; s ← pf_get sign; pf_set (with_num n s)
  else
    z ← pf_get size;
    if ch =? c_d then
      signednum ← va_arg (get_signed z);
      if signednum <? 0 then pf_set (with_num (u64 (s64 (- signednum))) (-1))
      else s ← pf_get sign; pf_set (with_num signednum s)
    else n ← va_arg (get_unsigned z); s ← pf_get sign; pf_set (with_num n s).

Definition __pf_setbase (ch : Z) : M (PF * C) unit :=
  _ ← (if (ch =? c_d) || (ch =? c_u) then pf_set (with_base 10)
       else if (ch =? c_x) || (ch =? c_p) then pf_set (with_base 16)
       else if ch =? c_o then pf_set (with_base 8)
       else mret tt);
  pf_set (fun p => if altformat p || (ch =? c_p) then with_prefix p else p).

Fixpoint fill_loop (n : nat) (f : Z) : M (PF * C) unit :=
  match n with
  | O => mret tt
  | S n' => _ ← __pf_print [f]; fill_loop n' f
  end.
Definition __pf_fill (spc : Z) : M (PF * C) unit :=
  f ← pf_get fillchar; fill_loop (Z.to_nat spc) f.

Definition __pf_printstuff (prefix prefix2 stuff : chars) : M (PF * C) unit :=
  p ← pf_get id;
  let len := s32 (slen prefix + slen prefix2 + slen stuff) in
  let spc := if len <? spacing p then spacing p - len else 0 in
  _ ← (if (0 <? spc) && negb (rightspc p) && negb (fillchar p =? c_zero) then __pf_fill spc else mret tt);
  _ ← __pf_print prefix;
  _ ← __pf_print prefix2;
  _ ← (if (0 <? spc) && negb (rightspc p) && (fillchar p =? c_zero) then __pf_fill spc else mret tt);
  _ ← __pf_print stuff;
  if (0 <? spc) && rightspc p then __pf_fill spc else mret tt.

Definition __pf_printnum : M (PF * C) unit :=
  p ← pf_get id;
  x ← mlift (number_text (base p) (num p));
  let bprefix :=
    if baseprefix p && (base p =? 16) then [c_zero; c_x]
    else if baseprefix p && (base p =? 8) then [c_zero] else [] in
  let sprefix := if negb (sign p =? 0) then [c_minus] else [] in
  __pf_printstuff sprefix bprefix x.

Definition __pf_send (ch : Z) : M (PF * C) unit :=
  _ ← kassert (negb (ch =? 0));
  pct ← pf_get in_pct;
  if negb pct && negb (ch =? c_pct) then __pf_print [ch]
  else if negb pct then pf_set (with_pct true)
  else if bool_decide (ch ∈ modifiers) then __pf_modifier ch
  else if bool_decide (ch ∈ inttypes) then
    _ ← __pf_getnum ch; _ ← __pf_setbase ch; _ ← __pf_printnum; __pf_endfield
  else if ch =? c_s then
    str ← va_arg get_str;
    _ ← __pf_printstuff [] [] (default nulltext str);
    __pf_endfield
  else
    x ← (if ch =? c_c then va_arg get_char else mret ch);
    _ ← __pf_printstuff [] [] (if x =? 0 then [] else [x]);
    __pf_endfield.

Fixpoint send_loop (format : chars) : M (PF * C) unit :=
  match format with
  | [] => mret tt
  | ch :: r => _ ← __pf_send ch; send_loop r
  end.
Definition __vprintf (format : chars) (args : list arg) : M C Z := fun c =>
  match send_loop format (endfield (mkPF args 0 false INTSZ 0 0 0 false 0 0 false false), c) with
  | Done (_, (p, c')) => Done (charcount p, c')
  | Stop f => Stop f
  end.
End printf.

(** ** snprintf.c: the context [SNP] and the memory it points into *)
Record snp := Snp { buf : Z; buflen : Z; bufpos : Z; bytes : mem }.
Definition store (a b : Z) (m : mem) : outcome mem :=
  match st a b m with Val _ m' => Done m' | Trap _ => Stop BadAccess | OutOfFuel => Stop NoFuel end.
Fixpoint __snprintf_send (data : chars) : M snp unit := fun s =>
  match data with
  | [] => Done (tt, s)
  | c :: r =>
      if bufpos s <? buflen s then
        match store (buf s + bufpos s) c (bytes s) with
        | Done m => __snprintf_send r (Snp (buf s) (buflen s) (u32 (bufpos s + 1)) m)
        | Stop f => Stop f
        end
      else __snprintf_send r s
  end.
Definition vsnprintf (buf len : Z) (fmt : chars) (args : list arg) : M mem Z := fun m =>
  match __vprintf __snprintf_send fmt args (Snp buf (if len =? 0 then 0 else len - 1) 0 m) with
  | Done (chars, s) =>
      if 0 <? len then
        match store (buf + bufpos s) 0 (bytes s) with Done m' => Done (chars, m') | Stop f => Stop f end
      else Done (chars, bytes s)
  | Stop f => Stop f
  end.
Definition snprintf (buf len : Z) (fmt : chars) (args : list arg) : M mem Z := vsnprintf buf len fmt args.

(** ** atoi.c *)
Fixpoint skip_blanks (fuel : nat) (s : Z) : X Z :=
  match fuel with
  | O => nofuel
  | S fuel' => c ← ld s; if (c =? c_space) || (c =? c_tab) then skip_blanks fuel' (s + 1) else mret s
  end.
Fixpoint atoi_loop (fuel : nat) (s val : Z) : X Z :=
  match fuel with
  | O => nofuel
  | S fuel' =>
      c ← ld s;
      if c =? 0 then mret val
      else
        match index c (take 10 digits) with
        | None => mret val
        | Some digit => atoi_loop fuel' (s + 1) (u32 (val * 10 + digit))
        end
  end.
Definition atoi (fuel : nat) (s : Z) : X Z :=
  s ← skip_blanks fuel s;
  c ← ld s;
  let neg := c =? c_minus in
  let s := if neg || (c =? c_plus) then s + 1 else s in
  val ← atoi_loop fuel s 0;
  mret (s32 (if neg then - val else val)).

(** ** What a format says

    [value b t] is the number the digits [t] stand for in base [b]; a numeral
    is the shortest text with that value. *)
Definition digit (c : Z) : Z := if c <=? c_nine then c - c_zero else c - 87.
Definition value (b : Z) (t : chars) : Z := fold_left (fun v c => v * b + digit c) t 0.
Record numeral (b n : Z) (t : chars) : Prop := Numeral {
  numeral_digits : Forall (fun c => c ∈ digits /\ digit c < b) t;
  numeral_value : value b t = n;
  numeral_short : t = [c_zero] \/ exists c r, t = c :: r /\ c <> c_zero
}.

(** The modifiers of a field, in any order. *)
Definition numbers (mods : chars) : chars := filter (fun c => c_zero <= c <= c_nine) mods.
Definition width (mods : chars) : Z := value 10 (numbers mods).
Definition zero_fill (mods : chars) : bool := bool_decide (head (numbers mods) = Some c_zero).
Definition size_of (mods : chars) : intsize :=
  let n := length (filter (eq c_l) mods) in
  if bool_decide (n = 0%nat) then INTSZ else if Nat.odd n then LONGSZ else LLONGSZ.
Definition fill (mods : chars) : Z := if zero_fill mods then c_zero else c_space.
(** A text in its field: a number is padded with zeros behind its prefix. *)
Definition padded (left : bool) (f w : Z) (prefix body : chars) : chars :=
  let pad := replicate (Z.to_nat (w - slen (prefix ++ body))) f in
  if left then prefix ++ body ++ pad
  else if f =? c_zero then prefix ++ pad ++ body
  else pad ++ prefix ++ body.
Definition in_field (mods prefix body : chars) : chars :=
  padded (bool_decide (c_minus ∈ mods)) (fill mods) (width mods) prefix body.
Definition base_prefix (mods : chars) (ty : Z) : chars :=
  if ty =? c_p then [c_zero; c_x]
  else if bool_decide (c_hash ∈ mods) then
    if ty =? c_x then [c_zero; c_x] else if ty =? c_o then [c_zero] else []
  else [].
Definition base_of (ty : Z) : Z := if ty =? c_u then 10 else if ty =? c_o then 8 else 16.

(** What a field of type [ty] prints, and the arguments it leaves.  A type that
    is none of d, o, u, p, x, s and c is printed itself and takes no argument:
    that is meant for the percent sign, and happens to X as well, which the
    manual has as upper-case hexadecimal ([uppercase_hex_is_not_printed]). *)
Inductive prints (mods : chars) : Z -> list arg -> chars -> list arg -> Prop :=
| prints_signed a n t rest : get_signed (size_of mods) a = Some n -> numeral 10 (Z.abs n) t ->
    prints mods c_d (a :: rest) (in_field mods (if n <? 0 then [c_minus] else []) t) rest
| prints_unsigned ty a n t rest : ty ∈ [c_u; c_x; c_o] -> get_unsigned (size_of mods) a = Some n ->
    numeral (base_of ty) n t -> prints mods ty (a :: rest) (in_field mods (base_prefix mods ty) t) rest
| prints_ptr n t rest : numeral 16 (u32 n) t ->
    prints mods c_p (APtr n :: rest) (in_field mods (base_prefix mods c_p) t) rest
| prints_str s rest : slen (default nulltext s) < 2 ^ 31 ->
    prints mods c_s (AStr s :: rest) (in_field mods [] (default nulltext s)) rest
| prints_char n rest : u8 n <> 0 -> prints mods c_c (AInt n :: rest) (in_field mods [] [u8 n]) rest
| prints_other ty args : ty <> 0 -> ty <> c_s -> ty <> c_c -> ty ∉ modifiers -> ty ∉ inttypes ->
    prints mods ty args (in_field mods [] [ty]) args.
Inductive says : chars -> list arg -> chars -> Prop :=
| says_end args : says [] args []
| says_cut mods args : Forall (.∈ modifiers) mods -> width mods < 2 ^ 31 -> says (c_pct :: mods) args []
| says_char c r args out : c <> 0 -> c <> c_pct -> says r args out -> says (c :: r) args (c :: out)
| says_field mods ty r args rest out out' : Forall (.∈ modifiers) mods -> width mods < 2 ^ 31 ->
    prints mods ty args out rest -> says r rest out' -> says (c_pct :: mods ++ ty :: r) args (out ++ out').

(** ** Numerals *)
Lemma value_app b t u : value b (t ++ u) = fold_left (fun v c => v * b + digit c) u (value b t).
Proof. unfold value. apply fold_left_app. Qed.
Lemma value_snoc b t c : value b (t ++ [c]) = value b t * b + digit c.
Proof. by rewrite value_app. Qed.
Lemma value_acc b t v : fold_left (fun v c => v * b + digit c) t v = v * b ^ slen t + value b t.
Proof.
  unfold value, slen. revert v. induction t as [|c t IH]; intros v; [cbn; lia|].
  cbn [fold_left length]. rewrite IH, (IH (0 * b + _)), Nat2Z.inj_succ, Z.pow_succ_r by lia. ring.
Qed.
Lemma value_cons b c t : value b (c :: t) = digit c * b ^ slen t + value b t.
Proof. unfold value at 1. cbn [fold_left]. rewrite value_acc. f_equal. Qed.
Lemma digits_facts c : c ∈ digits -> 0 <= digit c < 16 /\ 48 <= c <= 102 /\ digits !! Z.to_nat (digit c) = Some c.
Proof.
  intros H. unfold digits in H. repeat (apply elem_of_cons in H as [->|H]; [repeat split; vm_compute; congruence|]).
  by apply elem_of_nil in H.
Qed.
Lemma digit_zero c : c ∈ digits -> digit c = 0 -> c = c_zero.
Proof. intros Hc Hd. pose proof (digits_facts c Hc) as (_ & _ & Hl). rewrite Hd in Hl. by injection Hl. Qed.
Lemma digits_lookup d : 0 <= d < 16 -> exists c, digits !! Z.to_nat d = Some c /\ c ∈ digits /\ digit c = d.
Proof.
  intros H. destruct (lookup_lt_is_Some_2 digits (Z.to_nat d)) as [c Hc]; [cbn; lia|].
  exists c. split; [done|]. pose proof (list_elem_of_lookup_2 _ _ _ Hc) as He. split; [done|].
  pose proof (digits_facts c He) as (Hd & _ & Hl).
  assert (NoDup digits) as Hn by (vm_compute; repeat constructor; set_solver).
  pose proof (NoDup_lookup _ _ _ _ Hn Hc Hl). lia.
Qed.
Lemma numeral_digit b d c : 0 <= d < b -> c ∈ digits -> digit c = d -> numeral b d [c].
Proof.
  intros Hd Hc He. split.
  - constructor; [|done]. split; [done|lia].
  - by cbn.
  - destruct (decide (c = c_zero)) as [->|]; eauto.
Qed.
Lemma numeral_snoc b n t c : 0 < b -> 0 < n / b -> numeral b (n / b) t -> c ∈ digits -> digit c = n mod b ->
  numeral b n (t ++ [c]).
Proof.
  intros Hb Hn [Hd Hv Hs] Hc He. split.
  - apply Forall_app. split; [done|]. constructor; [|done]. split; [done|]. pose proof (Z.mod_pos_bound n b). lia.
  - rewrite value_snoc, Hv, He. pose proof (Z.div_mod n b ltac:(lia)). lia.
  - right. destruct Hs as [->|(c' & r & -> & Hz)]; [cbn in Hv; lia|]. exists c', (r ++ [c]). done.
Qed.
Lemma put_char_ok buf x c : 0 <= x < Z.of_nat (length buf) -> put_char buf x c = Done (<[Z.to_nat x := Some c]> buf).
Proof. intros H. unfold put_char. by rewrite (proj2 (Z.leb_le _ _)), (proj2 (Z.ltb_lt _ _)) by lia. Qed.
Lemma drop_insert_cons {A} (l : list A) i a : (i < length l)%nat -> drop i (<[i := a]> l) = a :: drop (S i) l.
Proof.
  intros H. rewrite (drop_S _ a) by (by rewrite list_lookup_insert_eq).
  f_equal. by rewrite drop_insert_lt by lia.
Qed.
(** The loop needs as many steps and places as the number has digits. *)
Lemma convert_ok fuel b buf x n k : 2 <= b <= 16 -> 0 <= n < b ^ Z.of_nat k -> (1 <= k <= fuel)%nat ->
  Z.of_nat k <= x + 1 -> x < Z.of_nat (length buf) ->
  exists t buf' x', convert fuel b buf x n = Done (buf', x') /\ numeral b n t /\
    (length t <= k)%nat /\ -1 <= x' /\ drop (Z.to_nat (x' + 1)) buf' = map Some t ++ drop (Z.to_nat (x + 1)) buf.
Proof.
  intros Hb. revert buf x n k. induction fuel as [|fuel IH]; intros buf x n k Hn Hk Hx Hl; [lia|].
  cbn [convert]. rewrite (proj2 (Z.eqb_neq b 0)) by lia.
  destruct (digits_lookup (n mod b)) as (c & Hc & Hin & Hd); [pose proof (Z.mod_pos_bound n b); lia|].
  rewrite Hc, put_char_ok by lia. cbn [mbind outcome_bind].
  assert (drop (Z.to_nat x) (<[Z.to_nat x := Some c]> buf) = Some c :: drop (Z.to_nat (x + 1)) buf) as Hdrop
    by (rewrite drop_insert_cons by lia; do 2 f_equal; lia).
  destruct (Z.ltb_spec 0 (n / b)) as [Hq|Hq].
  - destruct (IH (<[Z.to_nat x := Some c]> buf) (x - 1) (n / b) (k - 1)%nat) as (t & buf' & x' & -> & Ht & Hlen & Hx' & Hr).
    + split; [lia|]. apply Z.div_lt_upper_bound; [lia|]. rewrite <- Z.pow_succ_r by lia. replace (Z.succ _) with (Z.of_nat k) by lia. lia.
    + destruct k as [|[|k]]; [lia| |lia]. rewrite Z.div_small in Hq by (change (Z.of_nat 1) with 1 in Hn; lia). lia.
    + lia.
    + rewrite length_insert. lia.
    + exists (t ++ [c]), buf', x'. split; [done|]. split; [by apply numeral_snoc; try lia|].
      split; [rewrite length_app; cbn; lia|]. split; [done|].
      rewrite Hr. replace (x - 1 + 1) with x by lia. by rewrite Hdrop, map_app, <- app_assoc.
  - exists [c], (<[Z.to_nat x := Some c]> buf), (x - 1). split; [done|].
    assert (n / b = 0) as H0 by (pose proof (Z.div_pos n b); lia).
    apply Z.div_small_iff in H0; [|lia]. split; [apply numeral_digit; [lia|done|rewrite Hd, Z.mod_small; lia]|].
    split; [cbn; lia|]. split; [lia|]. replace (x - 1 + 1) with x by lia. by rewrite Hdrop.
Qed.
Lemma read_text_ok t l : Forall (fun c => c <> 0) t -> read_text (map Some t ++ Some 0 :: l) = Done t.
Proof.
  induction 1 as [|c t Hc _ IH]; [done|]. cbn [map app read_text].
  rewrite (proj2 (Z.eqb_neq c 0)), IH by done. done.
Qed.
Lemma numeral_nonzero b n t : numeral b n t -> Forall (fun c => c <> 0) t.
Proof. intros [Hd _ _]. eapply Forall_impl; [exact Hd|]. intros c [Hc _]. pose proof (digits_facts c Hc). lia. Qed.
(** Every 64-bit number fits into the buffer in bases 8 to 16. *)
Lemma number_text_ok b n : 8 <= b <= 16 -> 0 <= n < 2 ^ 64 ->
  exists t, number_text b n = Done t /\ numeral b n t /\ (length t <= 22)%nat.
Proof.
  intros Hb Hn. unfold number_text. change (Z.of_nat NUMBER_BUF_SIZE - 1) with 22.
  rewrite put_char_ok by (cbn; lia). cbn [mbind outcome_bind].
  destruct (convert_ok 65 b (<[Z.to_nat 22:=Some 0]> (replicate NUMBER_BUF_SIZE None)) (22 - 1) n 22)
    as (t & buf' & x' & -> & Ht & Hl & _ & Hr).
  - lia.
  - split; [lia|]. apply Z.lt_le_trans with (8 ^ 22); [lia|]. apply Z.pow_le_mono_l. lia.
  - lia.
  - lia.
  - vm_compute. reflexivity.
  - exists t. cbn [mbind outcome_bind]. rewrite Hr. split; [|done]. apply (read_text_ok t []). by eapply numeral_nonzero.
Qed.
Lemma value_bound b t : 0 < b -> Forall (fun c => c ∈ digits /\ digit c < b) t -> 0 <= value b t < b ^ slen t.
Proof.
  intros Hb. induction 1 as [|c t [Hc Hd] _ IH]; [change (0 <= 0 < b ^ 0); lia|].
  pose proof (digits_facts c Hc) as [Hp _]. rewrite value_cons. unfold slen in *. cbn [length].
  rewrite Nat2Z.inj_succ, Z.pow_succ_r by lia. nia.
Qed.
Lemma numeral_unique b n t u : 1 < b -> numeral b n t -> numeral b n u -> t = u.
Proof.
  intros Hb. revert n u. induction t as [|c t IH] using rev_ind; intros n u [Hd Hv Hs] [Hd' Hv' Hs'].
  { destruct Hs as [?|(? & ? & ? & _)]; done. }
  destruct u as [|c' u _] using rev_ind. { destruct Hs' as [?|(? & ? & ? & _)]; done. }
  apply Forall_app in Hd as [Hd [Hc Hcb]%Forall_singleton]. apply Forall_app in Hd' as [Hd' [Hc' Hcb']%Forall_singleton].
  rewrite value_snoc in Hv, Hv'.
  pose proof (digits_facts c Hc) as (Hr & _ & Hl). pose proof (digits_facts c' Hc') as (Hr' & _ & Hl').
  destruct (Z.div_mod_unique b (value b t) (value b u) (digit c) (digit c')) as [Hq He]; [lia..|].
  assert (c = c') as <- by congruence. f_equal.
  assert (forall w c, Forall (fun c => c ∈ digits /\ digit c < b) w -> (w ++ [c] = [c_zero] \/ (exists c' r, w ++ [c] = c' :: r /\ c' <> c_zero)) ->
    w = [] \/ (numeral b (value b w) w /\ 0 < value b w)) as Hcase.
  { intros w d Hw Hor. destruct w as [|e w]; [by left|right].
    destruct Hor as [Hz|(e' & r & [= -> _] & Hz)]; [by destruct w|].
    split; [split; [done|done|right; eauto]|]. rewrite value_cons.
    pose proof (Forall_inv Hw) as [He0 _]. pose proof (digits_facts e' He0) as (Hg & _ & Hl0).
    pose proof (value_bound b w ltac:(lia) (Forall_inv_tail Hw)).
    assert (digit e' <> 0) by (intros E0; by apply Hz, digit_zero).
    assert (0 < b ^ slen w) by (apply Z.pow_pos_nonneg; unfold slen; lia). nia. }
  destruct (Hcase t c Hd Hs) as [->|[Ht Hp]], (Hcase u c Hd' Hs') as [->|[Hu Hp']]; [done|cbn in Hq; lia|cbn in Hq; lia|].
  apply (IH (value b t)); [done|]. by rewrite Hq.
Qed.
(** A numeral has as many digits as its number needs. *)
Lemma numeral_length b n t k : 1 < b -> numeral b n t -> n < b ^ Z.of_nat k -> (1 <= k)%nat -> (length t <= k)%nat.
Proof.
  intros Hb [Hd Hv Hs] Hn Hk. destruct Hs as [->|(c & r & -> & Hz)]; [done|].
  pose proof (Forall_inv Hd) as [Hc _]. pose proof (digits_facts c Hc) as (Hg & _ & Hl).
  assert (digit c <> 0) by (intros E0; by apply Hz, digit_zero).
  rewrite value_cons in Hv. pose proof (value_bound b r ltac:(lia) (Forall_inv_tail Hd)).
  assert (b ^ slen r < b ^ Z.of_nat k) as Hp by nia. apply Z.pow_lt_mono_r_iff in Hp; [|lia..]. unfold slen in Hp. cbn. lia.
Qed.

(** ** The text a call sends

    [emits m p l p']: from the state [p] the code [m] hands the pieces [l] to
    the client, in this order and whatever the client does with them, and
    leaves the state [p']. *)
Section emits.
Context {C : Type} (send : chars -> M C unit).
Fixpoint send_all (l : list chars) : M C unit :=
  match l with
  | [] => mret tt
  | t :: r => _ ← send t; send_all r
  end.
Definition emits (m : M (PF * C) unit) (p : PF) (l : list chars) (p' : PF) : Prop :=
  forall c, m (p, c) = match send_all l c with Done (_, c') => Done (tt, (p', c')) | Stop f => Stop f end.
Definition bump (n : Z) (p : PF) : PF := with_count (s32 (charcount p + n)) p.

Lemma send_all_app l1 l2 c : send_all (l1 ++ l2) c =
  match send_all l1 c with Done (_, c') => send_all l2 c' | Stop f => Stop f end.
Proof.
  revert c. induction l1 as [|t l1 IH]; intros c; [done|]. cbn [app send_all]. mrun.
  destruct (send t c) as [[[] c']|]; [apply IH|done].
Qed.
Lemma emits_bind m k p l1 p1 l2 p2 : emits m p l1 p1 -> emits k p1 l2 p2 -> emits (_ ← m; k) p (l1 ++ l2) p2.
Proof.
  intros Hm Hk c. rewrite send_all_app. mrun. rewrite Hm. destruct (send_all l1 c) as [[[] c']|]; [|done]. apply Hk.
Qed.
Lemma emits_ret p : emits (mret tt) p [] p.
Proof. by intros c. Qed.
Lemma emits_set f p : emits (pf_set f) p [] (f p).
Proof. by intros c. Qed.
Lemma emits_get {A} (f : PF -> A) (k : A -> M (PF * C) unit) p l p' :
  emits (k (f p)) p l p' -> emits (x ← pf_get f; k x) p l p'.
Proof. done. Qed.
Lemma emits_assert b k p l p' : b = true -> emits k p l p' -> emits (_ ← kassert b; k) p l p'.
Proof. intros ->. done. Qed.
Lemma emits_lift {A} (o : outcome A) a (k : A -> M (PF * C) unit) p l p' :
  o = Done a -> emits (k a) p l p' -> emits (x ← mlift o; k x) p l p'.
Proof. intros ->. done. Qed.
Lemma emits_va {A} (f : arg -> option A) a x r (k : A -> M (PF * C) unit) p l p' : ap p = a :: r -> f a = Some x ->
  emits (k x) (with_ap r p) l p' -> emits (x ← va_arg f; k x) p l p'.
Proof. intros Ha Hf Hk c. rewrite <- Hk. unfold va_arg, pf_get, pf_set. mrun. cbn. by rewrite Ha, Hf. Qed.
Lemma emits_print t p : emits (__pf_print send t) p [t] (bump (slen t) p).
Proof. intros c. unfold __pf_print, on_client, pf_set, send_all. mrun. cbn. by destruct (send t c) as [[[] c']|]. Qed.
Lemma bump_bump a b p : bump b (bump a p) = bump (a + b) p.
Proof. unfold bump. destruct p. cbn. unfold with_count. cbn. f_equal. unfold swrap. dlia. Qed.
Lemma emits_fill n f p : emits (fill_loop send n f) p (replicate n [f]) (bump (Z.of_nat n) p) \/ n = 0%nat.
Proof.
  destruct n as [|n]; [by right|left]. revert p. induction n as [|n IH]; intros p.
  - cbn [fill_loop replicate]. rewrite <- (app_nil_r [[f]]). eapply emits_bind; [apply emits_print|apply emits_ret].
  - change (replicate (S (S n)) [f]) with ([[f]] ++ replicate (S n) [f]).
    replace (bump (Z.of_nat (S (S n))) p) with (bump (Z.of_nat (S n)) (bump 1 p)) by (rewrite bump_bump; f_equal; lia).
    eapply emits_bind; [apply (emits_print [f])|apply IH].
Qed.
Lemma emits_when g spc p : (g = true -> 0 < spc) ->
  emits (if g then __pf_fill send spc else mret tt) p
    (if g then replicate (Z.to_nat spc) [fillchar p] else []) (if g then bump spc p else p).
Proof.
  intros Hg. destruct g; [|apply emits_ret]. specialize (Hg eq_refl).
  destruct (emits_fill (Z.to_nat spc) (fillchar p) p) as [H|H]; [|lia]. rewrite Z2Nat.id in H by lia. exact H.
Qed.
Lemma concat_replicate n (f : Z) : concat (replicate n [f]) = replicate n f.
Proof. induction n; cbn; congruence. Qed.
Lemma slen_app (a b : chars) : slen (a ++ b) = slen a + slen b.
Proof. unfold slen. rewrite length_app. lia. Qed.
Lemma slen_replicate n (f : Z) : slen (replicate n f) = Z.of_nat n.
Proof. unfold slen. by rewrite length_replicate. Qed.
Definition fills (g : bool) (spc f : Z) : list chars := if g then replicate (Z.to_nat spc) [f] else [].
Lemma emits_stuff g1 g2 g3 spc a b t p : (g1 || g2 || g3 = true -> 0 < spc) ->
  emits (_ ← (if g1 then __pf_fill send spc else mret tt); _ ← __pf_print send a; _ ← __pf_print send b;
         _ ← (if g2 then __pf_fill send spc else mret tt); _ ← __pf_print send t;
         if g3 then __pf_fill send spc else mret tt) p
    (fills g1 spc (fillchar p) ++ [a] ++ [b] ++ fills g2 spc (fillchar p) ++ [t] ++ fills g3 spc (fillchar p))
    (bump ((if g1 then spc else 0) + slen a + slen b + (if g2 then spc else 0) + slen t + (if g3 then spc else 0)) p).
Proof.
  intros Hg.
  assert (forall q g, fillchar q = fillchar p -> (g = true -> 0 < spc) ->
    emits (if g then __pf_fill send spc else mret tt) q (fills g spc (fillchar p)) (if g then bump spc q else q)) as Hw
    by (intros q g <-; apply emits_when).
  set (q1 := if g1 then bump spc p else p). set (q3 := bump (slen b) (bump (slen a) q1)).
  set (q4 := if g2 then bump spc q3 else q3). set (q5 := bump (slen t) q4).
  match goal with |- emits _ _ _ ?q => replace q with (if g3 then bump spc q5 else q5) end.
  2: { unfold q5, q4, q3, q1. destruct g1, g2, g3; rewrite !bump_bump; f_equal; lia. }
  eapply emits_bind; [apply (Hw p g1); [done|intros ->; by apply Hg]|].
  eapply emits_bind; [apply emits_print|]. eapply emits_bind; [apply emits_print|].
  eapply emits_bind; [apply (Hw q3 g2); [by unfold q3, q1; destruct g1|intros ->; apply Hg; by destruct g1]|].
  eapply emits_bind; [apply emits_print|].
  apply (Hw q5 g3); [by unfold q5, q4, q3, q1; destruct g1, g2|intros ->; apply Hg; by destruct g1, g2].
Qed.
Lemma emits_printstuff a b t p : slen (a ++ b ++ t) < 2 ^ 31 -> 0 <= spacing p < 2 ^ 31 ->
  exists l, concat l = padded (rightspc p) (fillchar p) (spacing p) (a ++ b) t /\
    emits (__pf_printstuff send a b t) p l (bump (slen (concat l)) p).
Proof.
  intros Hl Hs. rewrite !slen_app in Hl.
  assert (0 <= slen a /\ 0 <= slen b /\ 0 <= slen t) as (Ha & Hb & Ht) by (unfold slen; lia).
  assert (s32 (slen a + slen b + slen t) = slen a + slen b + slen t) as Hlen by (unfold swrap; dlia).
  set (spc := Z.max 0 (spacing p - slen ((a ++ b) ++ t))).
  pose proof (emits_stuff ((0 <? spc) && negb (rightspc p) && negb (fillchar p =? c_zero))
    ((0 <? spc) && negb (rightspc p) && (fillchar p =? c_zero)) ((0 <? spc) && rightspc p) spc a b t p ltac:(lia)) as H.
  match type of H with emits _ _ ?l (bump ?n _) => assert (concat l = padded (rightspc p) (fillchar p) (spacing p) (a ++ b) t /\ slen (concat l) = n) as [Hc Hn]; [|exists l] end.
  - unfold padded, fills. replace (Z.to_nat (spacing p - _)) with (Z.to_nat spc) by lia.
    destruct (Z.ltb_spec 0 spc), (rightspc p), (fillchar p =? c_zero); cbn [andb negb app concat];
      rewrite ?concat_app, ?concat_replicate; cbn [concat app]; rewrite ?concat_app, ?concat_replicate, ?app_nil_r, ?slen_app, ?slen_replicate;
      try replace (Z.to_nat spc) with 0%nat by lia; cbn [replicate app]; rewrite ?app_nil_r, <- ?app_assoc;
      (split; [done|rewrite ?slen_app, ?slen_replicate; cbn; lia]).
  - split; [done|]. rewrite Hn. unfold __pf_printstuff. refine (emits_get id _ _ _ _ _). cbv beta zeta. unfold id.
    replace (if s32 (slen a + slen b + slen t) <? spacing p then spacing p - s32 (slen a + slen b + slen t) else 0) with spc; [exact H|].
    unfold spc. rewrite Hlen, !slen_app. destruct (Z.ltb_spec (slen a + slen b + slen t) (spacing p)); lia.
Qed.

(** *** Modifiers *)
Definition field_state (mods : chars) (p : PF) : PF :=
  mkPF (ap p) (charcount p) true (size_of mods) 0 0 (width mods) (bool_decide (c_minus ∈ mods)) (fill mods)
    0 false (bool_decide (c_hash ∈ mods)).
Lemma numbers_snoc_no mods c : ~ (c_zero <= c <= c_nine) -> numbers (mods ++ [c]) = numbers mods.
Proof. intros H. unfold numbers. by rewrite filter_app, filter_cons_False, filter_nil, app_nil_r. Qed.
Lemma numbers_snoc_yes mods c : c_zero <= c <= c_nine -> numbers (mods ++ [c]) = numbers mods ++ [c].
Proof. intros H. unfold numbers. by rewrite filter_app, filter_cons_True, filter_nil. Qed.
Lemma numbers_value_nonneg l : Forall (fun c => c_zero <= c <= c_nine) l -> 0 <= value 10 l.
Proof.
  induction l as [|c l IH] using rev_ind; [done|]. intros [H1 H2%Forall_inv]%Forall_app.
  rewrite value_snoc. cbn beta in H2. unfold digit, c_zero, c_nine in *. specialize (IH H1). destruct (Z.leb_spec c 57); lia.
Qed.
Lemma numbers_Forall mods : Forall (fun c => c_zero <= c <= c_nine) (numbers mods).
Proof. apply Forall_forall. intros c Hc. unfold numbers in Hc. by apply list_elem_of_filter in Hc as [Hc _]. Qed.
Lemma width_nonneg mods : 0 <= width mods.
Proof. apply numbers_value_nonneg, numbers_Forall. Qed.
Lemma width_snoc mods c : width mods <= width (mods ++ [c]).
Proof.
  destruct (decide (c_zero <= c <= c_nine)) as [H|H].
  - unfold width. rewrite numbers_snoc_yes, value_snoc by done. pose proof (width_nonneg mods) as Hw. unfold width in Hw.
    unfold digit, c_nine, c_zero in *. destruct (Z.leb_spec c 57); lia.
  - unfold width. by rewrite numbers_snoc_no.
Qed.
(** Before the first digit other than 0 the width is 0 and the digits are 0s. *)
Lemma fill_snoc mods c : c_zero <= c <= c_nine ->
  fill (mods ++ [c]) = if bool_decide (width mods = 0 /\ c = c_zero) then c_zero else fill mods.
Proof.
  intros Hc. unfold fill, zero_fill, width. rewrite numbers_snoc_yes by done.
  pose proof (numbers_Forall mods) as HF. destruct (numbers mods) as [|d l] eqn:E; cbn [head app].
  - change (value 10 []) with 0. destruct (decide (c = c_zero)) as [->|]; [by rewrite bool_decide_true, bool_decide_true|].
    rewrite bool_decide_false by congruence. rewrite bool_decide_false by naive_solver. done.
  - destruct (decide (d = c_zero)) as [->|Hd]; [rewrite bool_decide_true by done; by destruct (bool_decide _)|].
    rewrite (bool_decide_false (Some d = _)) by congruence. rewrite bool_decide_false; [done|]. intros [H0 _].
    rewrite value_cons in H0. pose proof (numbers_value_nonneg l (Forall_inv_tail HF)).
    pose proof (Forall_inv HF) as Hr. cbn in Hr. assert (0 < 10 ^ slen l) by (apply Z.pow_pos_nonneg; unfold slen; lia).
    unfold digit, c_nine, c_zero in *. destruct (Z.leb_spec d 57); nia.
Qed.
Lemma size_of_snoc mods c : size_of (mods ++ [c]) =
  if c =? c_l then if bool_decide (size_of mods = LONGSZ) then LLONGSZ else LONGSZ else size_of mods.
Proof.
  unfold size_of. rewrite filter_app. destruct (Z.eqb_spec c c_l) as [->|Hc].
  - rewrite filter_cons_True, filter_nil, length_app by done. cbn [length].
    rewrite Nat.add_1_r, Nat.odd_succ, <- Nat.negb_odd. rewrite (bool_decide_false (S _ = _)) by lia.
    destruct (length (filter (eq c_l) mods)) as [|n]; [done|]. rewrite (bool_decide_false (S n = _)) by lia.
    by destruct (Nat.odd (S n)).
  - by rewrite filter_cons_False, filter_nil, app_nil_r by congruence.
Qed.
Lemma in_snoc (c d : Z) mods : bool_decide (c ∈ mods ++ [d]) = bool_decide (c ∈ mods) || (c =? d).
Proof.
  destruct (Z.eqb_spec c d) as [->|H]; rewrite ?orb_true_r, ?orb_false_r.
  - apply bool_decide_true. set_solver.
  - apply bool_decide_ext. set_solver.
Qed.
Lemma emits_send_pct c p : c <> 0 -> in_pct p = true -> bool_decide (c ∈ modifiers) = true ->
  forall l p', emits (__pf_modifier c) p l p' -> emits (__pf_send send c) p l p'.
Proof.
  intros H0 Hp Hm l p' H. apply emits_assert; [by rewrite (proj2 (Z.eqb_neq _ _) H0)|].
  apply emits_get. by rewrite Hp, Hm.
Qed.
Lemma emits_modifier mods c p : c ∈ modifiers -> width (mods ++ [c]) < 2 ^ 31 ->
  emits (__pf_send send c) (field_state mods p) [] (field_state (mods ++ [c]) p).
Proof.
  intros Hc Hw. apply emits_send_pct; [|done|by apply bool_decide_true|].
  { intros ->. revert Hc. vm_compute. intros H. by repeat (apply elem_of_cons in H as [H|H]; [done|]); apply elem_of_nil in H. }
  pose proof (width_nonneg mods) as Hn. pose proof (width_nonneg (mods ++ [c])) as Hn'.
  unfold field_state at 2. rewrite size_of_snoc, !in_snoc.
  assert (c = c_hash \/ c = c_minus \/ c = c_l \/ c_zero <= c <= c_nine) as Hcase.
  { revert Hc. unfold modifiers, c_hash, c_minus, c_l, c_zero, c_nine. rewrite !elem_of_cons, elem_of_nil. lia. }
  destruct (decide (c_zero <= c <= c_nine)) as [Hd|Hd].
  - rewrite fill_snoc by done. unfold width in Hw, Hn' |- *. rewrite numbers_snoc_yes, value_snoc in Hw, Hn' |- * by done.
    fold (width mods) in *. assert (digit c = c - c_zero) as Hdig by (unfold digit; by rewrite (proj2 (Z.leb_le _ _)) by lia).
    rewrite Hdig in *. unfold __pf_modifier, c_hash, c_minus, c_l, c_zero, c_nine in *.
    rewrite (proj2 (Z.eqb_neq c 35)), (proj2 (Z.eqb_neq c 45)), (proj2 (Z.eqb_neq c 108)), (proj2 (Z.eqb_neq 35 c)), (proj2 (Z.eqb_neq 45 c)) by lia.
    rewrite !orb_false_r. destruct (Z.eqb_spec c 48) as [->|Hz].
    + intros st. unfold pf_set. mrun. cbn [fst snd field_state spacing]. do 3 f_equal.
      destruct (Z.ltb_spec 0 (width mods)).
      * rewrite (bool_decide_false (width mods = 0 /\ _)) by lia. unfold with_spacing; cbn. f_equal. unfold swrap. dlia.
      * rewrite (bool_decide_true (width mods = 0 /\ _)) by lia. unfold with_fill; cbn. f_equal. lia.
    + rewrite (bool_decide_false (width mods = 0 /\ _)) by lia. apply emits_assert; [lia|]. intros st. unfold pf_set. mrun. cbn [fst snd]. do 3 f_equal.
      unfold with_spacing; cbn. f_equal. unfold swrap. dlia.
  - unfold fill, zero_fill, width. rewrite numbers_snoc_no by done. destruct Hcase as [-> | [-> | [-> |]]]; [..|done].
    + intros st. cbn. unfold with_alt. cbn. by rewrite orb_true_r, orb_false_r.
    + intros st. cbn. unfold with_right. cbn. by rewrite orb_true_r, orb_false_r.
    + intros st. cbn. unfold with_size. cbn. by rewrite !orb_false_r.
Qed.
Lemma emits_open args count : emits (__pf_send send c_pct) (mkPF args count false INTSZ 0 0 0 false c_space 0 false false) []
  (with_pct true (endfield (mkPF args count false INTSZ 0 0 0 false c_space 0 false false))).
Proof. by intros c. Qed.
Lemma emits_loop_cons c r p l1 p1 l2 p2 : emits (__pf_send send c) p l1 p1 -> emits (send_loop send r) p1 l2 p2 ->
  emits (send_loop send (c :: r)) p (l1 ++ l2) p2.
Proof. apply emits_bind. Qed.
Lemma emits_loop_app a b p l1 p1 l2 p2 : emits (send_loop send a) p l1 p1 -> emits (send_loop send b) p1 l2 p2 ->
  emits (send_loop send (a ++ b)) p (l1 ++ l2) p2.
Proof.
  intros Ha Hb c. rewrite send_all_app.
  transitivity (match send_loop send a (p, c) with Done (_, st) => send_loop send b st | Stop f => Stop f end).
  - clear Ha. generalize (p, c). induction a as [|d a IH]; intros st; [done|]. cbn [app send_loop]. mrun.
    destruct (__pf_send send d st) as [[[] st']|]; [apply IH|done].
  - rewrite Ha. destruct (send_all l1 c) as [[[] c']|]; [apply Hb|done].
Qed.
Lemma emits_mods mods p : Forall (.∈ modifiers) mods -> width mods < 2 ^ 31 ->
  emits (send_loop send mods) (with_pct true (endfield p)) [] (field_state mods p).
Proof.
  induction mods as [|c mods IH] using rev_ind; [intros _ _; apply emits_ret|].
  intros [Hm Hc%Forall_inv]%Forall_app Hw. pose proof (width_snoc mods c).
  eapply (emits_loop_app _ _ _ [] _ []); [apply IH; [done|lia]|].
  eapply (emits_loop_cons _ _ _ [] _ []); [by apply emits_modifier|apply emits_ret].
Qed.

(** *** Fields *)
Definition idle (args : list arg) (count : Z) : PF := mkPF args count false INTSZ 0 0 0 false c_space 0 false false.
(** [m] prints [out] and leaves the field. *)
Definition emits_text (m : M (PF * C) unit) (p : PF) (out : chars) (rest : list arg) : Prop :=
  exists l, concat l = out /\ emits m p l (idle rest (s32 (charcount p + slen out))).
Lemma printstuff_text a b t p out rest : ap p = rest -> slen (a ++ b ++ t) < 2 ^ 31 -> 0 <= spacing p < 2 ^ 31 ->
  out = padded (rightspc p) (fillchar p) (spacing p) (a ++ b) t ->
  emits_text (_ ← __pf_printstuff send a b t; __pf_endfield) p out rest.
Proof.
  intros Ha Hl Hs ->. destruct (emits_printstuff a b t p Hl Hs) as (l & Hc & He). exists l. split; [done|].
  rewrite <- (app_nil_r l). eapply emits_bind; [exact He|].
  replace (idle rest _) with (endfield (bump (slen (concat l)) p)); [apply emits_set|].
  unfold endfield, idle, bump. cbn. by rewrite Ha, Hc.
Qed.
Lemma printnum_text p t rest : 8 <= base p <= 16 -> 0 <= num p < 2 ^ 64 -> numeral (base p) (num p) t ->
  ap p = rest -> 0 <= spacing p < 2 ^ 31 ->
  emits_text (_ ← __pf_printnum send; __pf_endfield) p
    (padded (rightspc p) (fillchar p) (spacing p)
      ((if negb (sign p =? 0) then [c_minus] else []) ++
       (if baseprefix p && (base p =? 16) then [c_zero; c_x] else if baseprefix p && (base p =? 8) then [c_zero] else [])) t) rest.
Proof.
  intros Hb Hn Ht Ha Hs. destruct (number_text_ok (base p) (num p) Hb Hn) as (t' & Hr & Ht' & Hl).
  assert (t' = t) as -> by (eapply numeral_unique; [|exact Ht'|exact Ht]; lia).
  set (sp := if negb _ then _ else _). set (bp := if baseprefix p && _ then _ else _).
  assert (emits_text (_ ← __pf_printstuff send sp bp t; __pf_endfield) p
    (padded (rightspc p) (fillchar p) (spacing p) (sp ++ bp) t) rest) as (l & Hc & He).
  { apply printstuff_text; [done| |done|done]. rewrite !slen_app. unfold slen.
    assert (length sp <= 1)%nat by (unfold sp; destruct (negb _); cbn; lia).
    assert (length bp <= 2)%nat by (unfold bp; repeat case_match; cbn; lia). lia. }
  exists l. split; [done|]. intros c. rewrite <- He. unfold __pf_printnum, pf_get. mrun. unfold id. cbn [fst snd].
  by rewrite Hr.
Qed.
Lemma emits_text_ext m m' p p' out rest : charcount p' = charcount p ->
  (forall c, m (p, c) = m' (p', c)) -> emits_text m' p' out rest -> emits_text m p out rest.
Proof. intros Hc Hm (l & Hl & He). exists l. split; [done|]. intros c. by rewrite Hm, He, Hc. Qed.
(** Fetching a number and choosing its base. *)
Definition number_state (mods : chars) (ty n sg : Z) (rest : list arg) (p : PF) : PF :=
  mkPF rest (charcount p) true (size_of mods) n sg (width mods) (bool_decide (c_minus ∈ mods)) (fill mods)
    (if ty =? c_d then 10 else base_of ty) (bool_decide (c_hash ∈ mods) || (ty =? c_p)) (bool_decide (c_hash ∈ mods)).
Definition fetched (mods : chars) (ty : Z) (a : arg) : option (Z * Z) :=
  if ty =? c_p then (., 0) <$> get_ptr a
  else if ty =? c_d then
    (fun n => if n <? 0 then (u64 (s64 (- n)), -1) else (n, 0)) <$> get_signed (size_of mods) a
  else (., 0) <$> get_unsigned (size_of mods) a.
Lemma run_getnum mods ty a n sg rest p c : ap p = a :: rest -> fetched mods ty a = Some (n, sg) ->
  @__pf_getnum C ty (field_state mods p, c) = Done (tt, (with_num n sg (with_ap rest (field_state mods p)), c)).
Proof.
  intros Ha Hf. unfold fetched in Hf. unfold __pf_getnum, va_arg, pf_get, pf_set. destruct (ty =? c_p).
  - mrun. cbn. rewrite Ha. destruct (get_ptr a) as [v|]; [|done]. cbn in Hf |- *. by injection Hf as <- <-.
  - destruct (ty =? c_d); mrun; cbn; rewrite Ha.
    + destruct (get_signed (size_of mods) a) as [v|]; [|done]. cbn in Hf |- *.
      destruct (v <? 0); cbn; by injection Hf as <- <-.
    + destruct (get_unsigned (size_of mods) a) as [v|]; [|done]. cbn in Hf |- *. by injection Hf as <- <-.
Qed.
Lemma run_setbase mods ty n sg rest p c : ty ∈ inttypes ->
  @__pf_setbase C ty (with_num n sg (with_ap rest (field_state mods p)), c) = Done (tt, (number_state mods ty n sg rest p, c)).
Proof.
  intros Hty. unfold __pf_setbase, pf_set, number_state, base_of, field_state. generalize (bool_decide (c_hash ∈ mods)).
  unfold inttypes in Hty. repeat (apply elem_of_cons in Hty as [->|Hty]; [by intros []|]).
  by apply elem_of_nil in Hty.
Qed.
Lemma run_number mods ty a n sg rest p c : ty ∈ inttypes -> ap p = a :: rest -> fetched mods ty a = Some (n, sg) ->
  __pf_send send ty (field_state mods p, c) =
  (_ ← __pf_printnum send; __pf_endfield) (number_state mods ty n sg rest p, c).
Proof.
  intros Hty Ha Hf. unfold __pf_send, kassert.
  assert (ty <> 0 /\ bool_decide (ty ∈ modifiers) = false) as [H0 Hm].
  { unfold inttypes in Hty. repeat (apply elem_of_cons in Hty as [->|Hty]; [split; [done|reflexivity]|]). by apply elem_of_nil in Hty. }
  rewrite (proj2 (Z.eqb_neq _ _) H0). cbn [negb]. unfold pf_get at 1. mrun. cbn [fst snd field_state in_pct negb andb].
  rewrite Hm, (bool_decide_true _ Hty), (run_getnum mods ty a n sg rest p c Ha Hf).
  by rewrite (run_setbase mods ty n sg rest p c Hty).
Qed.
Lemma number_field mods ty a n sg t rest p out : ty ∈ inttypes -> ap p = a :: rest -> fetched mods ty a = Some (n, sg) ->
  0 <= n < 2 ^ 64 -> numeral (if ty =? c_d then 10 else base_of ty) n t -> width mods < 2 ^ 31 ->
  out = in_field mods ((if sg =? 0 then [] else [c_minus]) ++ (if ty =? c_d then [] else base_prefix mods ty)) t ->
  emits_text (__pf_send send ty) (field_state mods p) out rest.
Proof.
  intros Hty Ha Hf Hn Ht Hw ->. pose proof (width_nonneg mods).
  eapply (emits_text_ext _ _ _ (number_state mods ty n sg rest p)); [done|by intros c; apply (run_number mods ty a)|].
  pose proof (printnum_text (number_state mods ty n sg rest p) t rest) as He. cbn [number_state base num ap spacing rightspc fillchar sign baseprefix] in He.
  unfold in_field. match goal with |- emits_text _ _ ?o _ => match type of He with _ -> _ -> _ -> _ -> _ -> emits_text _ _ ?o' _ => replace o with o'; [apply He|] end end;
    [|done|done|done|lia|].
  - unfold base_of. unfold inttypes in Hty. repeat case_match; lia.
  - f_equal. f_equal; [by destruct (sg =? 0)|]. unfold base_prefix, base_of. generalize (bool_decide (c_hash ∈ mods)).
    unfold inttypes in Hty. repeat (apply elem_of_cons in Hty as [->|Hty]; [by intros []|]).
    by apply elem_of_nil in Hty.
Qed.
Lemma get_signed_range z a n : get_signed z a = Some n -> - 2 ^ 63 <= n < 2 ^ 63.
Proof. destruct z, a; cbn; intros [= <-]; unfold swrap; dlia. Qed.
Lemma get_unsigned_range z a n : get_unsigned z a = Some n -> 0 <= n < 2 ^ 64.
Proof. destruct z, a; cbn; intros [= <-]; unfold uwrap; dlia. Qed.
Lemma text_field mods t p rest : ap p = rest -> slen t < 2 ^ 31 -> width mods < 2 ^ 31 ->
  emits_text (_ ← __pf_printstuff send [] [] t; __pf_endfield) (field_state mods p) (in_field mods [] t) rest.
Proof.
  intros Ha Ht Hw. pose proof (width_nonneg mods). apply printstuff_text; [done|done|cbn; lia|done].
Qed.
Lemma field_text mods ty args out rest p : width mods < 2 ^ 31 -> prints mods ty args out rest -> ap p = args ->
  emits_text (__pf_send send ty) (field_state mods p) out rest.
Proof.
  intros Hw Hp Ha. destruct Hp as [a n t rest Hg Ht|ty a n t rest Hty Hg Ht|n t rest Ht|s rest Hs|n rest Hn|ty args H0 Hs Hc Hm Hi].
  - pose proof (get_signed_range _ _ _ Hg). apply (number_field mods c_d a (Z.abs n) (if n <? 0 then -1 else 0) t rest p); try done; [set_solver| |lia|].
    + unfold fetched. cbn [Z.eqb Pos.eqb c_p c_d]. rewrite Hg. cbn. destruct (Z.ltb_spec n 0); do 2 f_equal; [|lia].
      unfold uwrap, swrap. dlia.
    + cbn [Z.eqb Pos.eqb c_d]. rewrite app_nil_r. by destruct (n <? 0).
  - pose proof (get_unsigned_range _ _ _ Hg).
    assert ((ty =? c_p) = false /\ (ty =? c_d) = false) as [Ep Ed].
    { repeat (apply elem_of_cons in Hty as [->|Hty]; [done|]). by apply elem_of_nil in Hty. }
    apply (number_field mods ty a n 0 t rest p); try done; [| |by rewrite Ed|by rewrite Ed].
    + repeat (apply elem_of_cons in Hty as [->|Hty]; [set_solver|]). by apply elem_of_nil in Hty.
    + unfold fetched. by rewrite Ep, Ed, Hg.
  - apply (number_field mods c_p (APtr n) (u32 n) 0 t rest p); try done; [set_solver|]. pose proof (uwrap_range 32 n). lia.
  - eapply (emits_text_ext _ _ _ (field_state mods (with_ap rest p))); [done| |by apply (text_field mods)].
    intros c. unfold __pf_send, kassert, va_arg, pf_get, pf_set. mrun. cbn [fst snd field_state in_pct ap negb andb Z.eqb c_s].
    change (bool_decide (c_s ∈ modifiers)) with false. change (bool_decide (c_s ∈ inttypes)) with false. cbn [Z.eqb Pos.eqb fst snd ap field_state c_s].
    by rewrite Ha.
  - eapply (emits_text_ext _ _ _ (field_state mods (with_ap rest p))); [done| |by apply (text_field mods)].
    intros c. unfold __pf_send, kassert, va_arg, pf_get, pf_set. mrun. cbn [fst snd field_state in_pct ap negb andb Z.eqb c_c].
    change (bool_decide (c_c ∈ modifiers)) with false. change (bool_decide (c_c ∈ inttypes)) with false. cbn [Z.eqb Pos.eqb fst snd ap field_state c_s c_c].
    rewrite Ha. cbn. by rewrite (proj2 (Z.eqb_neq _ _) Hn).
  - eapply (emits_text_ext _ _ _ (field_state mods p)); [done| |by apply (text_field mods)].
    intros c. unfold __pf_send, kassert, pf_get. mrun. cbn [fst snd field_state in_pct].
    rewrite (proj2 (Z.eqb_neq _ _) H0), (bool_decide_false _ Hm), (bool_decide_false _ Hi), (proj2 (Z.eqb_neq _ _) Hs), (proj2 (Z.eqb_neq _ _) Hc).
    cbn [negb andb]. by rewrite (proj2 (Z.eqb_neq _ _) H0).
Qed.
(** The whole format. *)
Lemma says_emits fmt args out : says fmt args out -> forall count, s32 count = count -> exists l p',
  concat l = out /\ emits (send_loop send fmt) (idle args count) l p' /\ charcount p' = s32 (count + slen out).
Proof.
  induction 1 as [args|mods args Hm Hw|c r args out H0 Hp Hs IH|mods ty r args rest out out' Hm Hw Hp Hs IH]; intros count Hc.
  - exists [], (idle args count). split; [done|]. split; [apply emits_ret|]. cbn. by rewrite Z.add_0_r.
  - exists [], (field_state mods (idle args count)). split; [done|]. split; [|cbn; by rewrite Z.add_0_r].
    eapply (emits_loop_cons _ _ _ [] _ []); [apply emits_open|by apply emits_mods].
  - destruct (IH (s32 (count + 1))) as (l & p' & Hl & He & Hn); [unfold swrap; dlia|]. exists ([c] :: l), p'.
    split; [cbn; by rewrite Hl|]. split; [|rewrite Hn; unfold slen; cbn [length]; rewrite Nat2Z.inj_succ; unfold swrap; dlia].
    apply (emits_loop_cons _ _ _ [[c]] (idle args (s32 (count + 1))) l); [|exact He]. intros st.
    pose proof (emits_print [c] (idle args count) st) as Hst. change (bump _ _) with (idle args (s32 (count + 1))) in Hst. rewrite <- Hst.
    unfold __pf_send, kassert, pf_get. mrun. cbn [fst snd idle in_pct]. by rewrite (proj2 (Z.eqb_neq _ _) H0), (proj2 (Z.eqb_neq _ _) Hp).
  - destruct (field_text mods ty args out rest (idle args count) Hw Hp eq_refl) as (l1 & Hl1 & He1).
    cbn [charcount field_state idle] in He1.
    destruct (IH (s32 (count + slen out))) as (l2 & p' & Hl2 & He2 & Hn); [unfold swrap; dlia|]. exists (l1 ++ l2), p'.
    split; [by rewrite concat_app, Hl1, Hl2|]. split; [|rewrite Hn, slen_app; unfold swrap; dlia].
    eapply (emits_loop_cons _ _ _ [] _ (l1 ++ l2)); [apply emits_open|].
    eapply (emits_loop_app _ _ _ [] _ (l1 ++ l2)); [by apply emits_mods|]. eapply emits_loop_cons; [exact He1|exact He2].
Qed.
End emits.

(** ** Storing the text in a buffer *)
Fixpoint write (a : Z) (bs : chars) (m : mem) : mem :=
  match bs with
  | [] => m
  | b :: r => write (a + 1) r (<[a := b]> m)
  end.
Lemma write_app a s t m : write a (s ++ t) m = write (a + slen s) t (write a s m).
Proof.
  revert a m. induction s as [|c s IH]; intros a m; cbn [app write]; [f_equal; unfold slen; cbn; lia|].
  rewrite IH. f_equal. unfold slen. cbn [length]. lia.
Qed.
Lemma write_dom a bs m x : is_Some (m !! x) -> is_Some (write a bs m !! x).
Proof.
  revert a m. induction bs as [|b bs IH]; intros a m H; [done|]. cbn. apply IH.
  destruct (decide (x = a)) as [->|]; [by rewrite lookup_insert_eq|by rewrite lookup_insert_ne].
Qed.
Lemma write_outside a bs m x : x < a \/ a + slen bs <= x -> write a bs m !! x = m !! x.
Proof.
  revert a m. induction bs as [|b bs IH]; intros a m H; [done|]. unfold slen in H. cbn [length] in H. cbn.
  rewrite IH by (unfold slen; lia). apply lookup_insert_ne. lia.
Qed.
Lemma store_ok a b m : is_Some (m !! a) -> store a b m = Done (<[a := b]> m).
Proof. intros [v Hv]. unfold store, st. by rewrite Hv. Qed.
Lemma snprintf_send_ok data b l pos m : 0 <= pos <= l -> l < 2 ^ 32 -> (forall i, 0 <= i < l -> is_Some (m !! (b + i))) ->
  __snprintf_send data (Snp b l pos m) =
    Done (tt, Snp b l (Z.min l (pos + slen data)) (write (b + pos) (take (Z.to_nat (l - pos)) data) m)).
Proof.
  intros Hp Hl. revert pos m Hp. induction data as [|c data IH]; intros pos m Hp Hm; cbn [__snprintf_send bufpos buflen buf bytes].
  - rewrite take_nil. do 3 f_equal. unfold slen. cbn. lia.
  - unfold slen. cbn [length]. rewrite Nat2Z.inj_succ. destruct (Z.ltb_spec pos l).
    + rewrite store_ok by (apply Hm; lia). rewrite uwrap_small by lia. rewrite IH.
      * do 3 f_equal; [unfold slen; lia|]. replace (Z.to_nat (l - pos)) with (S (Z.to_nat (l - (pos + 1)))) by lia.
        cbn [firstn write]. f_equal. lia.
      * lia.
      * intros i Hi. destruct (decide (i = pos)) as [->|]; [by rewrite lookup_insert_eq|rewrite lookup_insert_ne by lia; auto].
    + rewrite IH by done. replace (Z.to_nat (l - pos)) with 0%nat by lia. cbn. do 3 f_equal. unfold slen. lia.
Qed.
Lemma snprintf_send_app s t x : __snprintf_send (s ++ t) x =
  match __snprintf_send s x with Done (_, x') => __snprintf_send t x' | Stop f => Stop f end.
Proof.
  revert x. induction s as [|c s IH]; intros x; [done|]. cbn [app __snprintf_send].
  destruct (bufpos x <? buflen x); [|apply IH]. destruct (store _ _ _); [apply IH|done].
Qed.
Lemma snprintf_send_all l x : send_all __snprintf_send l x = __snprintf_send (concat l) x.
Proof.
  revert x. induction l as [|t l IH]; intros x; [done|]. cbn [send_all concat]. mrun. rewrite snprintf_send_app.
  destruct (__snprintf_send t x) as [[[] x']|]; [apply IH|done].
Qed.

Lemma cstr_write s a m : Forall (fun c => 0 < c < 256) s -> cstr (write a (s ++ [0]) m) a s.
Proof.
  intros H. revert a m. induction H as [|c s Hc _ IH]; intros a m; cbn [app write cstr]; [by rewrite lookup_insert_eq|].
  split; [|split; [done|apply IH]]. rewrite write_outside by lia. by rewrite lookup_insert_eq.
Qed.

(** C24: [__vprintf] sends the text the format says to its client, in pieces and
    in order, whatever the client does with them, and returns its length.  What
    a format says is [says]: the conversions d, o, u, p, x, s and c with their
    modifiers, field widths and prefixes as the manual has them; every other
    type character, X included although the manual lists it, stands for itself
    and consumes no argument. *)
Theorem vprintf_prints {C} (send : chars -> M C unit) fmt args out : says fmt args out ->
  exists l, concat l = out /\ forall c, __vprintf send fmt args c =
    match send_all send l c with Done (_, c') => Done (s32 (slen out), c') | Stop f => Stop f end.
Proof.
  intros H. destruct (says_emits send fmt args out H 0 eq_refl) as (l & p' & Hl & He & Hn).
  exists l. split; [done|]. intros c. unfold __vprintf. change (endfield _) with (idle args 0). rewrite (He c).
  destruct (send_all send l c) as [[[] c']|]; [by rewrite Hn|done].
Qed.

(** [printf("%X", n)] prints the letter X. *)
Lemma uppercase_hex_is_not_printed args : says [c_pct; 88] args [88].
Proof.
  apply (says_field [] 88 [] args args [88] []); [done|done| |constructor].
  apply (prints_other [] 88 args); [done|done|done| |]; by apply (bool_decide_unpack _); vm_compute.
Qed.

(** What ends up in a buffer of [len] bytes. *)
Definition stored (len : Z) (out : chars) : chars :=
  if 0 <? len then take (Z.to_nat (len - 1)) out ++ [0] else [].
Lemma vsnprintf_run buf len fmt args out m : says fmt args out -> 0 <= len < 2 ^ 32 ->
  (forall i, 0 <= i < len -> is_Some (m !! (buf + i))) ->
  vsnprintf buf len fmt args m = Done (s32 (slen out), write buf (stored len out) m).
Proof.
  intros H Hlen Hm. destruct (says_emits __snprintf_send fmt args out H 0 eq_refl) as (l & p' & Hl & He & Hn).
  unfold vsnprintf, __vprintf. change (endfield _) with (idle args 0). rewrite He, snprintf_send_all, Hl.
  assert (0 <= slen out) by (unfold slen; lia). set (k := if len =? 0 then 0 else len - 1). assert (0 <= k <= len) by (unfold k; destruct (Z.eqb_spec len 0); lia).
  rewrite snprintf_send_ok; [|lia|lia|intros i Hi; apply Hm; lia].
  rewrite Hn. cbn [bufpos bytes]. unfold stored. destruct (Z.ltb_spec 0 len) as [Hp|Hp].
  - assert (k = len - 1) as -> by (unfold k; by rewrite (proj2 (Z.eqb_neq _ _)) by lia).
    rewrite store_ok by (apply write_dom, Hm; lia). rewrite write_app. cbn [write]. do 2 f_equal.
    rewrite !Z.add_0_l, !Z.add_0_r, Z.sub_0_r. f_equal. unfold slen. rewrite length_take. lia.
  - assert (k = 0) as -> by (unfold k; replace len with 0 by lia; done). done.
Qed.
(** C28: [vsnprintf] stores as much of the text as fits into the buffer, with a
    terminator, changes no other byte, and returns the length of the whole
    text. *)
Theorem vsnprintf_stores buf len fmt args out m : says fmt args out -> 0 <= len < 2 ^ 32 ->
  (forall i, 0 <= i < len -> is_Some (m !! (buf + i))) ->
  exists m', vsnprintf buf len fmt args m = Done (s32 (slen out), m') /\
    (forall a, a < buf \/ buf + len <= a -> m' !! a = m !! a) /\
    (0 < len -> Forall (fun c => 0 < c < 256) out -> cstr m' buf (take (Z.to_nat (len - 1)) out)).
Proof.
  intros H Hlen Hm. eexists. split; [by apply vsnprintf_run|]. unfold stored. split.
  - intros a Ha. destruct (Z.ltb_spec 0 len); [|done]. apply write_outside.
    rewrite slen_app. unfold slen. rewrite length_take. cbn. lia.
  - intros Hp HF. rewrite (proj2 (Z.ltb_lt _ _) Hp). apply cstr_write. by apply Forall_take.
Qed.

(** ** Reading numbers *)
Lemma ld_cons m a c s : cstr m a (c :: s) -> ld a m = Val c m.
Proof. intros [H _]. unfold ld. by rewrite H. Qed.
Lemma ld_end m a : cstr m a [] -> ld a m = Val 0 m.
Proof. intros H. unfold ld. by rewrite H. Qed.
Lemma index_digit c : c ∈ digits -> digit c < 10 -> index c (take 10 digits) = Some (digit c).
Proof.
  intros H. unfold digits in H. repeat (apply elem_of_cons in H as [->|H]; [vm_compute; congruence|]).
  by apply elem_of_nil in H.
Qed.
(** The loop of [atoi] over digits and the character that ends them. *)
Definition ends (s : chars) : Prop := match s with c :: _ => index c (take 10 digits) = None | [] => True end.
Lemma atoi_loop_ok fuel m a t s v : cstr m a (t ++ s) -> Forall (fun c => c ∈ digits /\ digit c < 10) t ->
  ends s -> (length t < fuel)%nat -> 0 <= v < 2 ^ 32 ->
  atoi_loop fuel a v m = Val (u32 (v * 10 ^ slen t + value 10 t)) m.
Proof.
  revert a t v. induction fuel as [|fuel IH]; intros a t v Hs Ht He Hf Hv; [lia|]. cbn [atoi_loop].
  destruct t as [|c t]; cbn [app] in Hs.
  - change (slen []) with 0. change (value 10 []) with 0. rewrite Z.mul_1_r, Z.add_0_r, uwrap_small by done.
    unfold mbind, X_bind. destruct s as [|c s].
    + by rewrite (ld_end _ _ Hs).
    + rewrite (ld_cons _ _ _ _ Hs). destruct Hs as (_ & Hc & _). rewrite (proj2 (Z.eqb_neq c 0)) by lia. unfold ends in He. by rewrite He.
  - unfold mbind, X_bind. rewrite (ld_cons _ _ _ _ Hs). destruct Hs as (_ & Hc & Hs).
    pose proof (Forall_inv Ht) as [Hin Hd]. rewrite (proj2 (Z.eqb_neq c 0)), (index_digit c Hin Hd) by lia.
    rewrite (IH (a + 1) t); [|done|exact (Forall_inv_tail Ht)|done|cbn in Hf; lia|apply uwrap_range; lia].
    f_equal. rewrite value_cons. unfold slen. cbn [length]. rewrite Nat2Z.inj_succ, Z.pow_succ_r by lia.
    unfold uwrap. rewrite <- Zplus_mod_idemp_l, <- Zmult_mod_idemp_l. rewrite Zmod_mod, Zmult_mod_idemp_l, Zplus_mod_idemp_l.
    f_equal. ring.
Qed.
Lemma skip_blanks_ok fuel m a ws s : cstr m a (ws ++ s) -> Forall (.∈ [c_space; c_tab]) ws ->
  match s with c :: _ => c ∉ [c_space; c_tab] | [] => True end -> (length ws < fuel)%nat ->
  skip_blanks fuel a m = Val (a + slen ws) m /\ cstr m (a + slen ws) s.
Proof.
  intros Hs Hw He. revert fuel a Hs. induction Hw as [|c ws Hc Hw IH]; intros [|fuel] a Hs Hf; [cbn in Hf; lia| |cbn in Hf; lia|].
  - change (slen []) with 0. rewrite Z.add_0_r. split; [|done]. cbn [skip_blanks app] in *. unfold mbind, X_bind. destruct s as [|c s].
    + by rewrite (ld_end _ _ Hs).
    + rewrite (ld_cons _ _ _ _ Hs), !(proj2 (Z.eqb_neq c _)) by set_solver. done.
  - cbn [skip_blanks app] in *. unfold mbind at 1, X_bind at 1. rewrite (ld_cons _ _ _ _ Hs).
    assert ((c =? c_space) || (c =? c_tab) = true) as -> by (apply elem_of_cons in Hc as [->|Hc%list_elem_of_singleton]; subst; done).
    destruct (IH fuel (a + 1)) as [H1 H2]; [apply Hs|cbn in Hf; lia|].
    replace (a + slen (c :: ws)) with (a + 1 + slen ws) by (unfold slen; cbn [length]; lia). done.
Qed.
(** [atoi]: blanks, a sign, digits, and anything after them. *)
Lemma atoi_reads fuel m a ws sg t s : cstr m a (ws ++ sg ++ t ++ s) -> Forall (.∈ [c_space; c_tab]) ws ->
  sg ∈ [[]; [c_minus]; [c_plus]] -> t <> [] -> Forall (fun c => c ∈ digits /\ digit c < 10) t -> ends s ->
  (length ws + length t < fuel)%nat ->
  atoi fuel a m = Val (s32 (if bool_decide (sg = [c_minus]) then - value 10 t else value 10 t)) m.
Proof.
  intros Hs Hw Hsg Ht Hd He Hf. unfold atoi.
  destruct t as [|d t]; [done|]. pose proof (Forall_inv Hd) as [Hin _]. pose proof (digits_facts d Hin) as (_ & Hr & _).
  assert ((d ∉ [c_space; c_tab]) /\ d <> c_minus /\ d <> c_plus) as (Hd1 & Hd2 & Hd3).
  { unfold c_space, c_tab, c_minus, c_plus. rewrite !not_elem_of_cons. split; [|lia]. split; [lia|]. split; [lia|]. apply not_elem_of_nil. }
  destruct (skip_blanks_ok fuel m a ws (sg ++ (d :: t) ++ s) Hs Hw) as [H1 H2].
  { repeat (apply elem_of_cons in Hsg as [->|Hsg]; [by vm_compute in *; set_solver|]). by apply elem_of_nil in Hsg. }
  { lia. }
  unfold mbind, X_bind. rewrite H1.
  assert (forall z, s32 (- u32 z) = s32 (- z) /\ s32 (u32 z) = s32 z) as Hz by (intros z; unfold swrap, uwrap; dlia).
  repeat (apply elem_of_cons in Hsg as [->|Hsg]); [..|by apply elem_of_nil in Hsg]; cbn [app] in H2.
  - rewrite (ld_cons _ _ _ _ H2), (proj2 (Z.eqb_neq _ _) Hd2), (proj2 (Z.eqb_neq _ _) Hd3). cbn [orb].
    rewrite (atoi_loop_ok fuel m _ (d :: t) s 0 H2 Hd He) by lia. by rewrite Z.mul_0_l, Z.add_0_l, (proj2 (Hz _)).
  - rewrite (ld_cons _ _ _ _ H2). cbn [Z.eqb Pos.eqb orb c_minus c_plus].
    rewrite (atoi_loop_ok fuel m _ (d :: t) s 0 (proj2 (proj2 H2)) Hd He) by lia. rewrite Z.mul_0_l, Z.add_0_l. f_equal. apply Hz.
  - rewrite (ld_cons _ _ _ _ H2). cbn [Z.eqb Pos.eqb orb c_minus c_plus].
    rewrite (atoi_loop_ok fuel m _ (d :: t) s 0 (proj2 (proj2 H2)) Hd He) by lia. rewrite Z.mul_0_l, Z.add_0_l. f_equal. apply Hz.
Qed.
Lemma value_zeros n t : value 10 (replicate n c_zero ++ t) = value 10 t.
Proof. induction n as [|n IH]; [done|]. cbn [replicate app]. rewrite value_cons, IH. change (digit c_zero) with 0. lia. Qed.
Lemma zeros_digits n : Forall (fun c => c ∈ digits /\ digit c < 10) (replicate n c_zero).
Proof. apply Forall_replicate. split; [set_solver|done]. Qed.
Lemma text_chars t : Forall (fun c => c ∈ digits /\ digit c < 10) t -> Forall (fun c => 0 < c < 256) t.
Proof. intros H. eapply Forall_impl; [exact H|]. intros c [Hc _]. pose proof (digits_facts c Hc). lia. Qed.
(** What a decimal field looks like: blanks, sign, digits of the same value, blanks. *)
Lemma decimal_field mods n t : numeral 10 (Z.abs n) t -> ~ (c_minus ∈ mods /\ zero_fill mods = true) ->
  exists ws t' s, in_field mods (if n <? 0 then [c_minus] else []) t = ws ++ (if n <? 0 then [c_minus] else []) ++ t' ++ s /\
    Forall (.∈ [c_space; c_tab]) ws /\ t' <> [] /\ Forall (fun c => c ∈ digits /\ digit c < 10) t' /\ value 10 t' = Z.abs n /\
    ends s /\ Forall (fun c => 0 < c < 256) s.
Proof.
  intros [Hd Hv Hs] Hm. assert (t <> []) as Ht by (destruct Hs as [->|(? & ? & -> & _)]; done).
  unfold in_field, padded, fill. set (k := Z.to_nat _). set (sg := if n <? 0 then _ else _).
  assert (Forall (.∈ [c_space; c_tab]) (replicate k c_space)) as Hsp by (apply Forall_replicate; set_solver).
  case_bool_decide as Hl.
  - destruct (zero_fill mods) eqn:Ez; [naive_solver|]. exists [], t, (replicate k c_space). repeat split; try done.
    + by destruct k.
    + by apply Forall_replicate.
  - destruct (zero_fill mods); cbn [Z.eqb Pos.eqb c_zero c_space].
    + exists [], (replicate k c_zero ++ t), []. rewrite app_nil_r. repeat split; try done.
      * intros [_ ?]%app_eq_nil. done.
      * apply Forall_app. split; [apply zeros_digits|done].
      * by rewrite value_zeros.
    + exists (replicate k c_space), t, []. rewrite app_nil_r. repeat split; done.
Qed.
(** Reading back a printed number: whatever the width and the padding of the
    field (but for left alignment with zeros), [atoi] gives the number that was
    printed with [%d] into a buffer that is large enough. *)
Theorem snprintf_atoi mods n buf len m : - 2 ^ 31 <= n < 2 ^ 31 -> Forall (.∈ modifiers) mods ->
  size_of mods = INTSZ -> ~ (c_minus ∈ mods /\ zero_fill mods = true) ->
  12 <= len < 2 ^ 31 -> width mods < len -> (forall i, 0 <= i < len -> is_Some (m !! (buf + i))) ->
  exists k m', vsnprintf buf len (c_pct :: mods ++ [c_d]) [AInt n] m = Done (k, m') /\
    atoi (Z.to_nat len) buf m' = Val n m'.
Proof.
  intros Hn Hmods Hsz Hlz Hlen Hw Hm.
  destruct (number_text_ok 10 (Z.abs n)) as (t & _ & Ht & _); [lia..|].
  pose proof (numeral_length 10 _ t 10 ltac:(lia) Ht ltac:(lia) ltac:(lia)) as Htl.
  set (sg := if n <? 0 then [c_minus] else []).
  assert (says (c_pct :: mods ++ [c_d]) [AInt n] (in_field mods sg t)) as Hsays.
  { rewrite <- (app_nil_r (in_field _ _ _)). eapply says_field; [done|lia| |constructor]. constructor; [|done].
    rewrite Hsz. cbn. f_equal. unfold swrap. dlia. }
  destruct (decimal_field mods n t Ht Hlz) as (ws & t' & s & Hf & Hws & Ht' & Hd & Hv & He & Hsc). fold sg in Hf.
  assert (length (in_field mods sg t) < Z.to_nat len)%nat as Hfit.
  { unfold in_field, padded. assert (length sg <= 1)%nat by (unfold sg; destruct (n <? 0); cbn; lia).
    destruct (bool_decide _), (fill mods =? c_zero); rewrite !length_app, length_replicate, slen_app; unfold slen; lia. }
  do 2 eexists. split; [apply vsnprintf_run; [exact Hsays|lia|done]|]. unfold stored. rewrite (proj2 (Z.ltb_lt _ _)) by lia.
  rewrite take_ge by lia. rewrite Hf. rewrite (atoi_reads _ _ _ ws sg t' s).
  - f_equal. rewrite Hv. unfold sg. destruct (Z.ltb_spec n 0).
    + rewrite bool_decide_true, Z.abs_neq by (done || lia). unfold swrap. dlia.
    + rewrite bool_decide_false, Z.abs_eq by (done || lia). unfold swrap. dlia.
  - apply cstr_write. rewrite !Forall_app. repeat split; [|unfold sg; by destruct (n <? 0); repeat constructor|by apply text_chars|done].
    eapply Forall_impl; [exact Hws|]. cbn. intros c Hc. apply elem_of_cons in Hc as [->|Hc%list_elem_of_singleton]; subst; done.
  - done.
  - unfold sg. destruct (n <? 0); set_solver.
  - done.
  - done.
  - done.
  - rewrite Hf, !length_app in Hfit. lia.
Qed.

(** Left alignment with zeros changes the number: [%-03d] prints 5 as 500. *)
Lemma left_zero_field : says [c_pct; c_minus; c_zero; 51; c_d] [AInt 5] [53; c_zero; c_zero].
Proof.
  apply (says_field [c_minus; c_zero; 51] c_d [] [AInt 5] [] [53; c_zero; c_zero] []);
    [repeat constructor; set_solver|vm_compute; reflexivity| |constructor].
  replace [53; c_zero; c_zero] with (in_field [c_minus; c_zero; 51] (if 5 <? 0 then [c_minus] else []) [53]) by (vm_compute; reflexivity).
  apply (prints_signed _ (AInt 5) 5 [53] []); [done|]. split; [repeat constructor; set_solver|done|].
  right. by exists 53, [].
Qed.
(** "n=%04d" and "%d" with -7. *)
Definition fmt_n : chars := [110; 61; c_pct; c_zero; 52; c_d].
Definition out_n : chars := [110; 61; c_minus; c_zero; c_zero; 55].
Lemma says_n : says fmt_n [AInt (-7)] out_n.
Proof.
  do 2 (apply says_char; [done..|]).
  change [c_minus; c_zero; c_zero; 55] with ([c_minus; c_zero; c_zero; 55] ++ []).
  apply (says_field [c_zero; 52] c_d [] [AInt (-7)] [] _ []);
    [repeat constructor; set_solver|vm_compute; reflexivity| |constructor].
  replace [c_minus; c_zero; c_zero; 55] with (in_field [c_zero; 52] (if -7 <? 0 then [c_minus] else []) [55]) by (vm_compute; reflexivity).
  apply (prints_signed _ (AInt (-7)) (-7) [55] []); [done|]. split; [repeat constructor; set_solver|done|].
  right. by exists 55, [].
Qed.
Lemma vprintf_prints_witness : exists l, concat l = out_n /\
  __vprintf (fun t => mmodify (fun c : list chars => c ++ [t])) fmt_n [AInt (-7)] [] =
    match send_all (fun t => mmodify (fun c : list chars => c ++ [t])) l [] with
    | Done (_, c') => Done (6, c') | Stop f => Stop f end.
Proof.
  destruct (vprintf_prints (fun t => mmodify (fun c : list chars => c ++ [t])) fmt_n [AInt (-7)] out_n says_n) as (l & Hl & Hr).
  exists l. split; [exact Hl|exact (Hr [])].
Defined.
(** Six bytes that may be written, between two others. *)
Definition room (n : nat) : mem := mem_of 0 (replicate n 255).
Lemma vsnprintf_stores_witness : exists m', vsnprintf 1 4 fmt_n [AInt (-7)] (room 6) = Done (6, m') /\
  cstr m' 1 [110; 61; c_minus] /\ m' !! 5 = Some 255.
Proof.
  destruct (vsnprintf_stores 1 4 fmt_n [AInt (-7)] out_n (room 6) says_n) as (m' & Hr & Ho & Hc); [lia| |].
  - intros i Hi. cbn. rewrite !lookup_insert. repeat case_decide; eauto. lia.
  - exists m'. split; [exact Hr|]. split; [apply Hc; [lia|repeat constructor]|]. rewrite Ho by lia. reflexivity.
Defined.
Lemma snprintf_atoi_witness : exists k m', vsnprintf 0 12 [c_pct; 53; c_d] [AInt (-7)] (room 12) = Done (k, m') /\
  atoi 12 0 m' = Val (-7) m'.
Proof.
  apply (snprintf_atoi [53] (-7) 0 12 (room 12)); [lia|repeat constructor; set_solver|done| |lia|vm_compute; reflexivity|].
  - intros [_ H]. vm_compute in H. discriminate.
  - intros i Hi. cbn. rewrite !lookup_insert. repeat case_decide; eauto. lia.
Defined.
