(* ===== verification/Mksfs.v ===== *)
(** * user/sbin/mksfs: making a file system

    mksfs.c with disk.c, as built for OS/161 (without [HOST]).  The disk image
    is a file: its bytes, the position of the descriptor, and what the system
    calls return are the state; [write] may be interrupted or write less than
    it is asked to.  [Err n] is a call of [exit] with status [n].  The theorems say
    that the program leaves an empty volume, and that the kernel mounts it
    (SfsFs.v) into a state with the invariant of the file system. *)
From S2P Require Import Prelude Bitmap Arrays Memory Uio Stream Lhd SfsDisk Sfs SfsIo SfsVnode SfsFs.
Import Uio Stream Lhd SfsDisk Sfs SfsIo SfsVnode SfsFs.

Module Mksfs.
Definition BLOCKSIZE : Z := 512.
Definition MAXBITBLOCKS : Z := 32.
Definition MAPBYTES : nat := Z.to_nat (MAXBITBLOCKS * SFS_BLOCKSIZE).

(** What a call of [write] does: write so many bytes, or fail. *)
Inductive sysres := Wrote (k : Z) | Failed (errno : Z).
Record disk := Disk {
  fd : Z;
  nblocks : Z;
  image : list Z;
  pos : Z;
  script : list sysres;
  bitbuf : list Z
}.
(** What the other system calls return. *)
Record sysenv := Sysenv { r_open : Z; r_fstat : Z; r_lseek : Z; r_close : Z }.

Definition with_fd f d := Disk f (nblocks d) (image d) (pos d) (script d) (bitbuf d).
Definition with_nblocks n d := Disk (fd d) n (image d) (pos d) (script d) (bitbuf d).
Definition with_file i p sc d := Disk (fd d) (nblocks d) i p sc (bitbuf d).
Definition with_bitbuf b d := Disk (fd d) (nblocks d) (image d) (pos d) (script d) b.

(** Writing to a file past its end fills the gap with zeros. *)
Definition overwrite (p : Z) (data img : list Z) : list Z :=
  splice p data (img ++ replicate (Z.to_nat p - length img) 0).
(** [write(fd, data, n)]: the result and [errno]; without a script it writes everything. *)
Definition write (data : list Z) : M disk (Z * Z) := fun d =>
  match script d with
  | Failed e :: r => Done ((-1, e), with_file (image d) (pos d) r d)
  | Wrote k :: r =>
      let part := take (Z.to_nat k) data in
      Done ((Z.of_nat (length part), 0), with_file (overwrite (pos d) part (image d)) (pos d + Z.of_nat (length part)) r d)
  | [] =>
      Done ((Z.of_nat (length data), 0), with_file (overwrite (pos d) data (image d)) (pos d + Z.of_nat (length data)) [] d)
  end.

Fixpoint write_loop (fuel : nat) (data : list Z) (tot : Z) : M disk (result unit) :=
  match fuel with
  | O => mstop NoFuel
  | S fuel' =>
      if tot <? BLOCKSIZE then
        '(len, errno) ← write (drop (Z.to_nat tot) data);
        if len <? 0 then
          if (errno =? EINTR) || (errno =? EAGAIN) then write_loop fuel' data tot else mret (Err 1)
        else if len =? 0 then mret (Err 1)
        else write_loop fuel' data (u32 (tot + len))
      else mret (Ok tt)
  end.

Section program.
Variable e : sysenv.

Definition opendisk : M disk (result unit) :=
  f ← mgets fd;
  _ ← kassert (f <? 0);
  _ ← mmodify (with_fd (r_open e));
  if r_open e <? 0 then mret (Err 1)
  else if negb (r_fstat e =? 0) then mret (Err 1)
  else
    _ ← mmodify (fun d => with_nblocks (u32 (Z.of_nat (length (image d)) / BLOCKSIZE)) d);
    mret (Ok tt).
Definition diskblocksize : M disk Z := f ← mgets fd; _ ← kassert (0 <=? f); mret BLOCKSIZE.
Definition diskblocks : M disk Z := f ← mgets fd; _ ← kassert (0 <=? f); mgets nblocks.
Definition diskwrite (data : list Z) (block : Z) : M disk (result unit) :=
  f ← mgets fd;
  _ ← kassert (0 <=? f);
  if r_lseek e <? 0 then mret (Err 1)
  else
    _ ← mmodify (fun d => with_file (image d) (u32 (block * BLOCKSIZE)) (script d) d);
    n ← mgets (fun d => length (script d));
    write_loop (n + 2) data 0.
Definition closedisk : M disk (result unit) :=
  f ← mgets fd;
  _ ← kassert (0 <=? f);
  if negb (r_close e =? 0) then mret (Err 1) else _ ← mmodify (with_fd (-1)); mret (Ok tt).

Definition check_sizes : M disk unit :=
  _ ← kassert (4 + 4 + SFS_VOLNAME_SIZE + 4 * 118 =? SFS_BLOCKSIZE);
  _ ← kassert (4 + 2 + 2 + 4 * SFS_NDIRECT + 4 + 4 * (128 - 3 - SFS_NDIRECT) =? SFS_BLOCKSIZE);
  kassert (SFS_BLOCKSIZE mod sizeof_dir =? 0).

(** [bzero] of the structure, then [strcpy] of the name into it. *)
Definition writesuper (volname : list Z) (n : Z) : M disk (result unit) :=
  if SFS_VOLNAME_SIZE <=? Z.of_nat (length volname) then mret (Err 1)
  else
    let name := volname ++ replicate (Z.to_nat SFS_VOLNAME_SIZE - length volname) 0 in
    diskwrite (encode_super (mkSuper SFS_MAGIC n name (replicate 118 0))) SFS_SB_LOCATION.
Definition writerootdir : M disk (result unit) :=
  diskwrite (encode_inode (mkInode 0 SFS_TYPE_DIR 1 (replicate 15 0) 0 (replicate 110 0))) SFS_ROOT_LOCATION.

Definition doallocbit (bit : Z) : M disk unit :=
  let byte := bit / 8 in
  let mask := u8 (Z.shiftl 1 (bit mod 8)) in
  b ← mgets bitbuf;
  match b !! Z.to_nat byte with
  | None => mstop BadAccess
  | Some w =>
      _ ← kassert (Z.land w mask =? 0);
      mmodify (with_bitbuf (<[Z.to_nat byte := Z.lor w mask]> b))
  end.
(** [for (i=from; i<from+n; i++) doallocbit(i);] *)
Fixpoint alloc_bits (n : nat) (i : Z) : M disk unit :=
  match n with
  | O => mret tt
  | S n' => _ ← doallocbit i; alloc_bits n' (i + 1)
  end.
Fixpoint write_map (n : nat) (i : Z) : M disk (result unit) :=
  match n with
  | O => mret (Ok tt)
  | S n' =>
      ptr ← mgets (fun d => slice (i * SFS_BLOCKSIZE) SFS_BLOCKSIZE (bitbuf d));
      _ ←? diskwrite ptr (SFS_MAP_LOCATION + i);
      write_map n' (i + 1)
  end.
Definition writebitmap (fsblocks : Z) : M disk (result unit) :=
  let nbits := SFS_BITMAPSIZE fsblocks in
  let nblocks := SFS_BITBLOCKS fsblocks in
  if MAXBITBLOCKS <? nblocks then mret (Err 1)
  else
    _ ← doallocbit SFS_SB_LOCATION;
    _ ← doallocbit SFS_ROOT_LOCATION;
    _ ← alloc_bits (Z.to_nat nblocks) SFS_MAP_LOCATION;
    _ ← alloc_bits (Z.to_nat (nbits - fsblocks)) fsblocks;
    write_map (Z.to_nat nblocks) 0.

(** The checks of the volume name: one colon at its end is removed. *)
Definition volume_name (volname : list Z) : option (list Z) :=
  match Memory.index 58 volname with
  | Some i =>
      if negb (Z.of_nat (length (drop (Z.to_nat i) volname)) =? 1) then None
      else
        let v := take (Z.to_nat i) volname in
        match Memory.index 47 v with Some _ => None | None => Some v end
  | None => match Memory.index 47 volname with Some _ => None | None => Some volname end
  end.
Definition main (argv : list (list Z)) : M disk (result Z) :=
  match argv with
  | [_; _; arg2] =>
      _ ← check_sizes;
      match volume_name arg2 with
      | None => mret (Err 1)
      | Some volname =>
          _ ←? opendisk;
          blocksize ← diskblocksize;
          if negb (blocksize =? SFS_BLOCKSIZE) then mret (Err 1)
          else
            size ← diskblocks;
            _ ←? writesuper volname size;
            _ ←? writerootdir;
            _ ←? writebitmap size;
            _ ←? closedisk;
            mret (Ok 0)
      end
  | _ => mret (Err 1)
  end.
End program.

(** ** Writing a block in spite of interruptions *)
Definition benign (l : list sysres) : Prop :=
  Forall (fun r => match r with Wrote k => 0 < k | Failed e => e = EINTR \/ e = EAGAIN end) l.
Lemma overwrite_inside p data img : 0 <= p -> p + Z.of_nat (length data) <= Z.of_nat (length img) ->
  overwrite p data img = splice p data img.
Proof. intros Hp Hl. unfold overwrite. replace (Z.to_nat p - length img)%nat with 0%nat by lia. by rewrite app_nil_r. Qed.
Lemma splice_splice p a b img : 0 <= p -> p + Z.of_nat (length (a ++ b)) <= Z.of_nat (length img) ->
  splice (p + Z.of_nat (length a)) b (splice p a img) = splice p (a ++ b) img.
Proof.
  intros Hp Hl. rewrite length_app in Hl. apply list_eq. intros i.
  rewrite !lookup_splice; rewrite ?length_splice, ?length_app; try lia.
  replace (Z.to_nat (p + Z.of_nat (length a))) with (Z.to_nat p + length a)%nat by lia.
  destruct (Nat.leb_spec (Z.to_nat p + length a) i), (Nat.ltb_spec i (Z.to_nat p + length a + length b)),
    (Nat.leb_spec (Z.to_nat p) i), (Nat.ltb_spec i (Z.to_nat p + (length a + length b))); cbn [andb]; try lia; try done.
  - rewrite lookup_app_r by lia. f_equal. lia.
  - destruct (Nat.ltb_spec i (Z.to_nat p + length a)); [lia|done].
  - rewrite (proj2 (Nat.ltb_lt _ _)) by lia. by rewrite lookup_app_l by lia.
Qed.
Lemma write_loop_ok fuel data base tot d : benign (script d) -> length data = 512%nat -> 0 <= tot <= 512 -> 0 <= base ->
  pos d = base + tot -> base + 512 <= Z.of_nat (length (image d)) ->
  (length (script d) + (if decide (tot = 512%Z) then 1 else 2) <= fuel)%nat ->
  exists p sc, write_loop fuel data tot d =
    Done (Ok tt, with_file (splice (base + tot) (drop (Z.to_nat tot) data) (image d)) p sc d) /\ benign sc.
Proof.
  revert tot d. induction fuel as [|fuel IH]; intros tot d Hb Hl Ht Hb0 Hp Hi Hf; [destruct (decide _); lia|].
  cbn [write_loop]. unfold BLOCKSIZE. destruct (Z.ltb_spec tot 512) as [Hlt|Hge].
  - destruct (decide (tot = 512)); [lia|]. set (rest := drop (Z.to_nat tot) data).
    assert (Z.of_nat (length rest) = 512 - tot) as Hr by (unfold rest; rewrite length_drop; lia).
    assert (forall part r, (0 < length part <= length rest)%nat -> part = take (length part) rest -> benign r ->
      (length r + 2 <= fuel)%nat \/ length part = length rest /\ (length r + 1 <= fuel)%nat ->
      exists p sc, write_loop fuel data (u32 (tot + Z.of_nat (length part)))
        (with_file (overwrite (pos d) part (image d)) (pos d + Z.of_nat (length part)) r d) =
      Done (Ok tt, with_file (splice (base + tot) rest (image d)) p sc d) /\ benign sc) as Hstep.
    { intros part r Hpl Hpe Hbr Hfr. rewrite uwrap_small by lia. rewrite overwrite_inside by lia.
      edestruct (IH (tot + Z.of_nat (length part))
        (with_file (splice (pos d) part (image d)) (pos d + Z.of_nat (length part)) r d)) as (p & sc & E & Hsc); [done|done|lia|done|cbn; lia| | |].
      - cbn [image with_file]. rewrite length_splice by lia. lia.
      - cbn [script with_file]. destruct (decide _); lia.
      - exists p, sc. split; [|done]. rewrite E. unfold with_file at 1. cbn [image fd nblocks bitbuf with_file]. do 3 f_equal. rewrite Hp.
        replace (base + (tot + Z.of_nat (length part))) with (base + tot + Z.of_nat (length part)) by lia.
        replace (drop (Z.to_nat (tot + Z.of_nat (length part))) data) with (drop (length part) rest)
          by (unfold rest; rewrite drop_drop; f_equal; lia).
        rewrite splice_splice; [|lia|rewrite length_app, length_drop; lia].
        replace (part ++ drop (length part) rest) with rest; [done|].
        rewrite <- (take_drop (length part) rest) at 1. by rewrite <- Hpe. }
    mrun. unfold write. destruct (script d) as [|[k|er] r] eqn:Es.
    + cbn [length] in Hf. rewrite (proj2 (Z.ltb_ge _ _)), (proj2 (Z.eqb_neq _ _)) by lia.
      apply Hstep; [lia|by rewrite take_ge|constructor|right; split; [done|cbn; lia]].
    + apply Forall_cons in Hb as [Hk Hbr]. cbn [length] in Hf. set (part := take (Z.to_nat k) rest).
      assert (0 < length part <= length rest)%nat by (unfold part; rewrite length_take; lia).
      rewrite (proj2 (Z.ltb_ge _ _)), (proj2 (Z.eqb_neq _ _)) by lia.
      apply Hstep; [done| |done|left; lia]. unfold part. rewrite length_take.
      destruct (decide (Z.to_nat k <= length rest)%nat); [by rewrite Nat.min_l|rewrite Nat.min_r by lia; by rewrite !take_ge by lia].
    + apply Forall_cons in Hb as [Hk Hbr]. cbn [length] in Hf. cbn [Z.ltb Z.compare].
      replace ((er =? EINTR) || (er =? EAGAIN)) with true by (destruct Hk as [-> | ->]; done).
      destruct (IH tot (with_file (image d) (pos d) r d)) as (p & sc & E & Hsc); try done; [cbn; destruct (decide _); lia|].
      exists p, sc. by rewrite E.
  - assert (tot = 512) as -> by lia. exists (pos d), (script d). split; [|done].
    rewrite drop_ge by (rewrite Hl; done). unfold splice. cbn [app length]. rewrite Nat.add_0_r, take_drop. by destruct d.
Qed.

(** The blocks of the image. *)
Definition blk (d : disk) (b : Z) : list Z := slice (b * 512) 512 (image d).
(** An open disk of [n] blocks on which writing succeeds in the end. *)
Record ready (n : Z) (d : disk) : Prop := Ready {
  rd_fd : 0 <= fd d;
  rd_nblocks : nblocks d = n;
  rd_size : 0 <= n < 2 ^ 23 /\ Z.of_nat (length (image d)) = n * 512;
  rd_script : benign (script d)
}.
Lemma diskwrite_ok e data b n d : 0 <= r_lseek e -> ready n d -> length data = 512%nat -> 0 <= b < n ->
  exists d', diskwrite e data b d = Done (Ok tt, d') /\ ready n d' /\ bitbuf d' = bitbuf d /\
    forall c, 0 <= c -> blk d' c = if c =? b then data else blk d c.
Proof.
  intros Hs [Hf Hn [Hn0 Hi] Hb] Hl Hr. unfold diskwrite. mrun. rewrite (proj2 (Z.leb_le _ _)), (proj2 (Z.ltb_ge _ _)) by lia.
  unfold BLOCKSIZE. rewrite uwrap_small by lia.
  destruct (write_loop_ok (length (script d) + 2) data (b * 512) 0 (with_file (image d) (b * 512) (script d) d))
    as (p & sc & E & Hsc); [done|done|lia|lia|cbn [pos with_file]; lia|cbn [image with_file]; lia|destruct (decide _); cbn [script with_file]; lia|].
  cbn [script with_file] in *. rewrite E. eexists. split; [reflexivity|]. cbn [image with_file].
  change (drop (Z.to_nat 0) data) with data. rewrite Z.add_0_r. split; [|split; [done|]].
  - split; cbn; [done|done| |done]. rewrite length_splice by lia. done.
  - intros c Hc. unfold blk. cbn [image with_file]. destruct (Z.eqb_spec c b) as [->|Hne].
    + pose proof (slice_splice_same (b * 512) data (image d)) as Ess. rewrite Hl in Ess. apply Ess; lia.
    + apply slice_splice_other; lia.
Qed.

(** ** The bitmap *)
Definition bits (d : disk) (i : Z) : bool := Bitmap.bit (Bitmap.mkBitmap 0 (bitbuf d)) i.
Definition bytes_ok (d : disk) : Prop := Forall (fun w => 0 <= w < 256) (bitbuf d).
Lemma doallocbit_ok i d : bytes_ok d -> 0 <= i < 8 * Z.of_nat (length (bitbuf d)) -> bits d i = false ->
  exists b, doallocbit i d = Done (tt, with_bitbuf b d) /\ length b = length (bitbuf d) /\ bytes_ok (with_bitbuf b d) /\
    forall j, 0 <= j -> bits (with_bitbuf b d) j = if j =? i then true else bits d j.
Proof.
  intros Hb Hi Hz. unfold doallocbit. mrun.
  destruct (lookup_lt_is_Some_2 (bitbuf d) (Z.to_nat (i / 8))) as [w Hw]; [dlia|]. rewrite Hw.
  pose proof (Forall_lookup_1 _ _ _ _ Hb Hw) as Hwr. cbn beta in Hwr.
  unfold bits, Bitmap.bit in Hz. cbn in Hz. rewrite Hw in Hz. cbn in Hz.
  rewrite Bitmap.land_mask, Hz by lia. cbn [negb]. rewrite Bitmap.mask_eq by dlia.
  eexists. split; [reflexivity|]. split; [apply length_insert|]. split.
  - apply Forall_insert; [done|]. apply Bitmap.bytes_lor; [done|dlia].
  - destruct (Bitmap.lor_updates (Bitmap.mkBitmap 0 (bitbuf d)) i w Hw ltac:(lia)) as (_ & _ & Hu). exact Hu.
Qed.
Lemma alloc_bits_ok n i d : bytes_ok d -> 0 <= i -> i + Z.of_nat n <= 8 * Z.of_nat (length (bitbuf d)) ->
  (forall j, i <= j < i + Z.of_nat n -> bits d j = false) ->
  exists b, alloc_bits n i d = Done (tt, with_bitbuf b d) /\ length b = length (bitbuf d) /\ bytes_ok (with_bitbuf b d) /\
    forall j, 0 <= j -> bits (with_bitbuf b d) j = if (i <=? j) && (j <? i + Z.of_nat n) then true else bits d j.
Proof.
  revert i d. induction n as [|n IH]; intros i d Hb Hi Hl Hz.
  - exists (bitbuf d). assert (with_bitbuf (bitbuf d) d = d) as -> by (by destruct d). repeat split; try done.
    intros j Hj. destruct (Z.leb_spec i j), (Z.ltb_spec j (i + Z.of_nat 0)); cbn; done || lia.
  - cbn [alloc_bits]. destruct (doallocbit_ok i d Hb) as (b1 & E1 & Hl1 & Hb1 & Hu1); [lia|apply Hz; lia|].
    rewrite (bind_Done _ _ _ _ _ E1).
    destruct (IH (i + 1) (with_bitbuf b1 d) Hb1) as (b & E & Hlb & Hbb & Hu); [lia|cbn; rewrite Hl1; lia| |].
    + intros j Hj. rewrite Hu1 by lia. rewrite (proj2 (Z.eqb_neq _ _)) by lia. apply Hz. lia.
    + exists b. rewrite E. split; [done|]. split; [by rewrite Hlb|]. split; [done|]. intros j Hj.
      change (bits (with_bitbuf b d) j) with (bits (with_bitbuf b (with_bitbuf b1 d)) j). rewrite Hu, Hu1 by done.
      destruct (Z.leb_spec (i + 1) j), (Z.ltb_spec j (i + 1 + Z.of_nat n)), (Z.leb_spec i j),
        (Z.ltb_spec j (i + Z.of_nat (S n))), (Z.eqb_spec j i); cbn; done || lia.
Qed.
Lemma write_map_ok e n i m d : 0 <= r_lseek e -> ready m d -> 0 <= i -> SFS_MAP_LOCATION + i + Z.of_nat n <= m ->
  (i + Z.of_nat n) * 512 <= Z.of_nat (length (bitbuf d)) ->
  exists d', write_map e n i d = Done (Ok tt, d') /\ ready m d' /\ bitbuf d' = bitbuf d /\
    forall c, 0 <= c -> blk d' c =
      if (2 + i <=? c) && (c <? 2 + i + Z.of_nat n) then slice ((c - 2) * 512) 512 (bitbuf d) else blk d c.
Proof.
  intros Hs. unfold SFS_MAP_LOCATION. revert i d. induction n as [|n IH]; intros i d Hr Hi Hm Hl.
  - exists d. repeat split; try done; try apply Hr. intros c Hc.
    destruct (Z.leb_spec (2 + i) c), (Z.ltb_spec c (2 + i + Z.of_nat 0)); cbn; done || lia.
  - cbn [write_map]. unfold mgets. rewrite (bind_Done _ _ _ _ _ eq_refl). unfold SFS_BLOCKSIZE, SFS_MAP_LOCATION.
    set (ptr := slice (i * 512) 512 (bitbuf d)).
    pose proof (length_slice (i * 512) 512 (bitbuf d) ltac:(lia) ltac:(lia) ltac:(lia)) as Hlp.
    destruct (diskwrite_ok e ptr (2 + i) m d Hs Hr) as (d1 & E1 & Hr1 & Hb1 & Hc1); [unfold ptr; lia|lia|].
    rewrite (ebind_Ok _ _ _ _ _ E1). rewrite <- Hb1 in Hl.
    destruct (IH (i + 1) d1 Hr1) as (d2 & E2 & Hr2 & Hb2 & Hc2); [lia|lia|lia|].
    exists d2. rewrite E2. split; [done|]. split; [done|]. split; [congruence|]. intros c Hc. rewrite Hc2, Hc1 by done.
    rewrite Hb1. destruct (Z.eqb_spec c (2 + i)) as [->|].
    + rewrite (proj2 (Z.leb_gt _ _)) by lia. cbn [andb]. rewrite Z.leb_refl, (proj2 (Z.ltb_lt _ _)) by lia. cbn [andb].
      unfold ptr. f_equal. lia.
    + destruct (Z.leb_spec (2 + (i + 1)) c), (Z.ltb_spec c (2 + (i + 1) + Z.of_nat n)), (Z.leb_spec (2 + i) c),
        (Z.ltb_spec c (2 + i + Z.of_nat (S n))); cbn; done || lia.
Qed.

(** ** The new volume *)
Definition new_super (name : list Z) (n : Z) : sfs_super :=
  mkSuper SFS_MAGIC n (name ++ replicate (Z.to_nat SFS_VOLNAME_SIZE - length name) 0) (replicate 118 0).
Definition new_root : sfs_inode := mkInode 0 SFS_TYPE_DIR 1 (replicate 15 0) 0 (replicate 110 0).
(** The blocks in use: superblock, root, map, and what lies past the end. *)
Definition in_use (n i : Z) : bool := (i <? 2 + SFS_BITBLOCKS n) || ((n <=? i) && (i <? SFS_BITMAPSIZE n)).
Definition fits (n : Z) : Prop := n <= MAXBITBLOCKS * 4096 /\ 2 + SFS_BITBLOCKS n <= n.
Lemma fits_sizes n : 0 <= n -> fits n ->
  SFS_BITMAPSIZE n = SFS_BITBLOCKS n * 4096 /\ n <= SFS_BITMAPSIZE n < n + 4096 /\ 0 < SFS_BITBLOCKS n <= MAXBITBLOCKS.
Proof.
  unfold fits, MAXBITBLOCKS, SFS_BITBLOCKS, SFS_BITMAPSIZE, SFS_ROUNDUP. change SFS_BLOCKBITS with 4096. intros Hn [Hm Hf].
  rewrite !(uwrap_small 32 (n + 4096 - 1)) in * by lia. rewrite !uwrap_small in * by dlia. rewrite Z.div_mul in * by lia. dlia.
Qed.
Lemma new_super_ok name n : (length name < 32)%nat -> Forall (fun c => 0 <= c < 256) name -> 0 <= n < 2 ^ 32 -> super_ok (new_super name n).
Proof.
  intros Hl Hb Hn. split; cbn [new_super sp_magic sp_nblocks sp_volname sp_reserved]; [done|lia| |].
  - split; [rewrite length_app, length_replicate; change (Z.to_nat SFS_VOLNAME_SIZE) with 32%nat; lia|].
    apply Forall_app. split; [done|]. apply Forall_replicate. lia.
  - split; [done|]. apply Forall_replicate. lia.
Qed.
Lemma length_new_super name n : (length name < 32)%nat -> length (encode_super (new_super name n)) = 512%nat.
Proof.
  intros Hl. unfold encode_super, new_super. cbn [sp_magic sp_nblocks sp_volname sp_reserved]. rewrite !length_app, length_enc32, !length_replicate.
  change (Z.to_nat SFS_VOLNAME_SIZE) with 32%nat. cbn [be32 length]. lia.
Qed.
Lemma bits_replicate n d i : bitbuf d = replicate n 0 -> bits d i = false.
Proof. intros H. unfold bits. rewrite H. apply Bitmap.bit_replicate. Qed.
Lemma in_use_cases n i : in_use n i = true <-> i < 2 + SFS_BITBLOCKS n \/ n <= i < SFS_BITMAPSIZE n.
Proof. unfold in_use. rewrite orb_true_iff, andb_true_iff, !Z.ltb_lt, Z.leb_le. done. Qed.
Lemma writebitmap_ok e n d : 0 <= r_lseek e -> ready n d -> fits n -> bitbuf d = replicate MAPBYTES 0 ->
  exists d', writebitmap e n d = Done (Ok tt, d') /\ ready n d' /\ length (bitbuf d') = MAPBYTES /\
    (forall i, 0 <= i -> bits d' i = in_use n i) /\
    forall c, 0 <= c -> blk d' c =
      if (2 <=? c) && (c <? 2 + SFS_BITBLOCKS n) then slice ((c - 2) * 512) 512 (bitbuf d') else blk d c.
Proof.
  intros Hs Hr Hf Hz. pose proof (rd_size _ _ Hr) as [Hn _]. destruct (fits_sizes n ltac:(lia) Hf) as (Hb1 & Hb2 & Hb3).
  assert (Z.of_nat MAPBYTES = 16384) as HM by reflexivity.
  unfold writebitmap. rewrite (proj2 (Z.ltb_ge _ _)) by lia.
  assert (forall j, bits d j = false) as H0 by (intros j; by eapply bits_replicate).
  assert (length (bitbuf d) = MAPBYTES) as Hl by (rewrite Hz; apply length_replicate).
  destruct (doallocbit_ok SFS_SB_LOCATION d) as (b1 & E1 & L1 & B1 & U1); [|unfold SFS_SB_LOCATION; lia|done|].
  { unfold bytes_ok. rewrite Hz. apply Forall_replicate. lia. }
  rewrite (bind_Done _ _ _ _ _ E1).
  destruct (doallocbit_ok SFS_ROOT_LOCATION (with_bitbuf b1 d) B1) as (b2 & E2 & L2 & B2 & U2);
    [unfold SFS_ROOT_LOCATION; cbn [bitbuf with_bitbuf]; lia|rewrite U1, H0 by done; done|].
  rewrite (bind_Done _ _ _ _ _ E2). cbn [bitbuf with_bitbuf] in L2.
  destruct (alloc_bits_ok (Z.to_nat (SFS_BITBLOCKS n)) SFS_MAP_LOCATION (with_bitbuf b2 d) B2) as (b3 & E3 & L3 & B3 & U3).
  { done. } { unfold SFS_MAP_LOCATION. cbn [bitbuf with_bitbuf]. unfold MAXBITBLOCKS in Hb3. lia. }
  { intros j Hj. unfold SFS_MAP_LOCATION in Hj. change (with_bitbuf b2 d) with (with_bitbuf b2 (with_bitbuf b1 d)). rewrite U2, U1 by lia.
    unfold SFS_SB_LOCATION, SFS_ROOT_LOCATION. by rewrite !(proj2 (Z.eqb_neq _ _)) by lia. }
  change (with_bitbuf b2 (with_bitbuf b1 d)) with (with_bitbuf b2 d) in *. rewrite (bind_Done _ _ _ _ _ E3). cbn [bitbuf with_bitbuf] in L3.
  assert (forall j, 0 <= j -> bits (with_bitbuf b3 d) j = (j <? 2 + SFS_BITBLOCKS n)) as U4.
  { intros j Hj. change (with_bitbuf b3 d) with (with_bitbuf b3 (with_bitbuf b2 d)). rewrite U3, U2, U1, H0 by done.
    unfold SFS_SB_LOCATION, SFS_ROOT_LOCATION, SFS_MAP_LOCATION. rewrite Z2Nat.id by lia.
    clear - Hj Hb3. destruct (Z.leb_spec 2 j), (Z.ltb_spec j (2 + SFS_BITBLOCKS n)), (Z.eqb_spec j 1), (Z.eqb_spec j 0); cbn [andb]; done || lia. }
  destruct (alloc_bits_ok (Z.to_nat (SFS_BITMAPSIZE n - n)) n (with_bitbuf b3 d) B3) as (b4 & E4 & L4 & B4 & U5).
  { lia. } { cbn [bitbuf with_bitbuf]. unfold MAXBITBLOCKS in Hb3. lia. }
  { intros j Hj. rewrite U4 by lia. destruct Hf. apply Z.ltb_ge. lia. }
  rewrite (bind_Done _ _ _ _ _ E4). cbn [bitbuf with_bitbuf] in L4.
  destruct (write_map_ok e (Z.to_nat (SFS_BITBLOCKS n)) 0 n (with_bitbuf b4 d) Hs) as (d' & E5 & R5 & Bb & U6).
  { destruct Hr; by split. } { lia. } { unfold SFS_MAP_LOCATION. destruct Hf. lia. }
  { cbn [bitbuf with_bitbuf]. unfold MAXBITBLOCKS in Hb3. lia. }
  exists d'. split; [exact E5|]. split; [done|]. split; [rewrite Bb; cbn; congruence|]. split.
  - intros j Hj. unfold bits. rewrite Bb. fold (bits (with_bitbuf b4 (with_bitbuf b3 d)) j).
    change (bits (with_bitbuf b4 d) j = in_use n j). change (with_bitbuf b4 d) with (with_bitbuf b4 (with_bitbuf b3 d)).
    rewrite U5, U4 by done. unfold in_use. rewrite Z2Nat.id by lia. replace (n + (SFS_BITMAPSIZE n - n)) with (SFS_BITMAPSIZE n) by lia.
    by destruct ((n <=? j) && (j <? SFS_BITMAPSIZE n)), (j <? 2 + SFS_BITBLOCKS n).
  - intros c Hc. rewrite U6 by done. rewrite Z.add_0_r, Z2Nat.id by lia. by rewrite Bb.
Qed.

(** A disk before the program runs, and calls that succeed. *)
Record untouched (n : Z) (d : disk) : Prop := Untouched {
  un_fd : fd d < 0;
  un_size : 0 <= n < 2 ^ 23 /\ Z.of_nat (length (image d)) = n * 512;
  un_script : benign (script d);
  un_bitbuf : bitbuf d = replicate MAPBYTES 0
}.
Definition working (e : sysenv) : Prop := 0 <= r_open e /\ r_fstat e = 0 /\ 0 <= r_lseek e /\ r_close e = 0.
(** The image holds an empty volume; [old] are the blocks before. *)
Record formatted (name : list Z) (n : Z) (old : Z -> list Z) (d : disk) : Prop := Formatted {
  fo_image : Z.of_nat (length (image d)) = n * 512;
  fo_super : blk d 0 = encode_super (new_super name n);
  fo_root : blk d 1 = encode_inode new_root;
  fo_maplen : length (bitbuf d) = MAPBYTES;
  fo_bits : forall i, 0 <= i -> bits d i = in_use n i;
  fo_map : forall j, 0 <= j < SFS_BITBLOCKS n -> blk d (2 + j) = slice (j * 512) 512 (bitbuf d);
  fo_rest : forall b, 2 + SFS_BITBLOCKS n <= b -> blk d b = old b
}.
Lemma main_ok e n prog path arg name d : working e -> untouched n d -> fits n ->
  volume_name arg = Some name -> (length name < 32)%nat ->
  exists d', main e [prog; path; arg] d = Done (Ok 0, d') /\ formatted name n (blk d) d'.
Proof.
  intros (Ho & Hst & Hs & Hc) [Hfd [Hn Hi] Hb Hz] Hf Hv Hl. destruct (fits_sizes n ltac:(lia) Hf) as (Hb1 & Hb2 & Hb3).
  cbn [main]. rewrite (bind_Done _ _ d tt d eq_refl), Hv.
  set (d1 := with_nblocks n (with_fd (r_open e) d)).
  rewrite (ebind_Ok _ _ d tt d1); cycle 1.
  { unfold opendisk. mrun. rewrite (proj2 (Z.ltb_lt _ _) Hfd), (proj2 (Z.ltb_ge _ _)), Hst by lia. cbn [Z.eqb negb image with_fd].
    unfold BLOCKSIZE. rewrite Hi, Z.div_mul, uwrap_small by lia. done. }
  assert (ready n d1) as R1 by (split; cbn; done || lia).
  rewrite (bind_Done _ _ d1 512 d1) by (unfold diskblocksize; mrun; by rewrite (proj2 (Z.leb_le _ _) (rd_fd _ _ R1))).
  cbn [Z.eqb Pos.eqb negb SFS_BLOCKSIZE].
  rewrite (bind_Done _ _ d1 n d1) by (unfold diskblocks; mrun; by rewrite (proj2 (Z.leb_le _ _) (rd_fd _ _ R1))).
  destruct (diskwrite_ok e (encode_super (new_super name n)) 0 n d1 Hs R1) as (d2 & E2 & R2 & B2 & U2);
    [by apply length_new_super|destruct Hf; lia|].
  rewrite (ebind_Ok _ _ d1 tt d2); cycle 1.
  { unfold writesuper. rewrite (proj2 (Z.leb_gt _ _)) by (unfold SFS_VOLNAME_SIZE; lia). exact E2. }
  destruct (diskwrite_ok e (encode_inode new_root) 1 n d2 Hs R2) as (d3 & E3 & R3 & B3 & U3); [done|destruct Hf; lia|].
  rewrite (ebind_Ok _ _ d2 tt d3) by exact E3.
  destruct (writebitmap_ok e n d3 Hs R3 Hf) as (d4 & E4 & R4 & L4 & Bt & U4); [by rewrite B3, B2|].
  rewrite (ebind_Ok _ _ d3 tt d4) by exact E4.
  rewrite (ebind_Ok _ _ d4 tt (with_fd (-1) d4)) by (unfold closedisk; mrun; by rewrite (proj2 (Z.leb_le _ _) (rd_fd _ _ R4)), Hc).
  eexists. split; [reflexivity|].
  assert (forall c, 0 <= c -> blk (with_fd (-1) d4) c = blk d4 c) as Hblk by done.
  split; [apply R4| | |done|exact Bt| |].
  - rewrite Hblk, U4, U3, U2 by done. done.
  - rewrite Hblk, U4, U3 by done. done.
  - intros j Hj. rewrite Hblk, U4 by lia. rewrite (proj2 (Z.leb_le _ _)), (proj2 (Z.ltb_lt _ _)) by lia. cbn [andb].
    unfold with_fd. cbn [bitbuf]. f_equal. lia.
  - intros b Hbb. rewrite Hblk, U4, U3, U2 by lia. rewrite (proj2 (Z.ltb_ge _ _)), andb_false_r by lia.
    by rewrite !(proj2 (Z.eqb_neq _ _)) by lia.
Qed.

(** ** Mounting it *)
Lemma blocks_eq (a b : list Z) k x : (forall j, 0 <= j < k -> slice (j * 512) 512 a = slice (j * 512) 512 b) ->
  (x < Z.to_nat (k * 512))%nat -> a !! x = b !! x.
Proof.
  intros H Hx. specialize (H (Z.of_nat x / 512) ltac:(dlia)). apply (f_equal (fun l => l !! Z.to_nat (Z.of_nat x mod 512))) in H.
  rewrite !lookup_slice in H by dlia. rewrite (proj2 (Nat.ltb_lt _ _)) in H by (change (Z.to_nat 512) with 512%nat; dlia).
  replace (Z.to_nat (Z.of_nat x / 512 * 512) + Z.to_nat (Z.of_nat x mod 512))%nat with x in H by dlia. done.
Qed.
Lemma map_bytes_wf b n : 0 <= n -> fits n -> Bitmap.nbits b = SFS_BITMAPSIZE n ->
  Z.of_nat (length (Bitmap.v b)) = SFS_BITBLOCKS n * 512 ->
  (forall j, 0 <= j < SFS_BITBLOCKS n -> Forall (fun w => 0 <= w < 256) (map_block b j)) -> Bitmap.wf b.
Proof.
  intros Hn Hf Hnb Hl Hj. destruct (fits_sizes n Hn Hf) as (Hb1 & Hb2 & Hb3). unfold MAXBITBLOCKS in Hb3.
  split; [lia|rewrite Hnb, Hb1, Hl; dlia| |intros i Hi; lia].
  apply Forall_lookup. intros x w Hx. pose proof (lookup_lt_Some _ _ _ Hx).
  pose proof (proj1 (Forall_lookup _ _) (Hj (Z.of_nat x / 512) ltac:(dlia))) as HF.
  apply (HF (Z.to_nat (Z.of_nat x mod 512))). unfold map_block, Bitmap.bitmap_getdata, SFS_BLOCKSIZE. rewrite lookup_slice by dlia.
  rewrite (proj2 (Nat.ltb_lt _ _)) by (change (Z.to_nat 512) with 512%nat; dlia). rewrite <- Hx. f_equal. dlia.
Qed.
Lemma formatted_mounts {D} `{!BlockDevice D} name n old d (dev : D) (s0 : fs D) :
  formatted name n old d -> 0 <= n < 2 ^ 23 -> fits n -> (length name < 32)%nat -> Forall (fun c => 0 <= c < 256) name ->
  healthy dev -> d_blocks dev = n -> (forall b, 0 <= b < n -> block dev b = blk d b) ->
  super_ok (super s0) -> plenty (ker s0) -> 0 <= biglock_depth (ker s0) -> vheap s0 = ∅ ->
  exists m, sfs_domount (with_device dev s0) = Done (0, m) /\ steady m /\ super m = new_super name n /\
    (forall b, 0 <= b -> marked m b = in_use n b) /\ content m SFS_ROOT_LOCATION = encode_inode new_root /\
    (forall b, 2 + SFS_BITBLOCKS n <= b < n -> content m b = old b).
Proof.
  intros [Hi Hsb Hrt Hml Hbt Hmp Hre] Hn Hf Hl Hb Hh Hd Hblk Hs0 Hp Hk Hv. destruct (fits_sizes n ltac:(lia) Hf) as (Hb1 & Hb2 & Hb3).
  pose proof (new_super_ok name n Hl Hb ltac:(lia)) as Hso. pose proof Hf as [Hf1 Hf2].
  assert (mountable dev (new_super name n)) as Hm.
  { split; try done; cbn [new_super sp_nblocks sp_volname]; try lia.
    - rewrite Hblk by (unfold SFS_SB_LOCATION; lia). exact Hsb.
    - rewrite lookup_app_r by lia. rewrite lookup_replicate_2 by (change (Z.to_nat SFS_VOLNAME_SIZE) with 32%nat; lia). done. }
  destruct (mount_run (with_device dev s0) (new_super name n) Hm Hs0 Hp Hk)
    as (m & Hrm & Hhm & Hdm & Es & Ed1 & Ed2 & Ev & Eh & Ec & Ek & Ehd & Hc & Hnb & Hlen & Hmb).
  cbn [new_super sp_nblocks] in Hnb, Hlen, Hmb.
  assert (forall b, 0 <= b < n -> content m b = blk d b) as Hcb by (intros b Hb'; rewrite Hc; by apply Hblk).
  assert (forall b, 0 <= b -> marked m b = in_use n b) as Hmk.
  { intros b Hb'. unfold marked, Bitmap.bit. destruct (Z.ltb_spec b (SFS_BITMAPSIZE n)) as [Hlt|Hge].
    - rewrite <- Hbt by done. unfold bits, Bitmap.bit. cbn [Bitmap.v]. do 2 f_equal.
      apply (blocks_eq _ _ (SFS_BITBLOCKS n)); [|dlia]. intros j Hj. rewrite <- Hmp by done.
      rewrite <- Hcb by lia. rewrite Hc. apply Hmb. done.
    - rewrite lookup_ge_None_2 by dlia. cbn. rewrite Z.bits_0. symmetry. apply not_true_iff_false.
      rewrite in_use_cases. unfold MAXBITBLOCKS in *. lia. }
  assert (forall j, 0 <= j < SFS_BITBLOCKS n -> Forall (fun w => 0 <= w < 256) (map_block (sfs_freemap m) j)) as Hbytes.
  { intros j Hj. rewrite Hmb by done. by apply block_bytes. }
  exists m. split; [done|]. split; [|split; [done|split; [done|split]]].
  - cbn in Hdm. rewrite Hd in Hdm. split.
    + split; [split|..]; try (rewrite Es; cbn [new_super sp_nblocks]); try done; try lia.
      * apply (map_bytes_wf _ n); [lia|done..].
      * intros b Hbb. rewrite Hmk by lia. apply in_use_cases. lia.
      * rewrite Hmk by done. apply in_use_cases. lia.
      * unfold mapsize. rewrite Es. cbn. unfold SFS_MAP_LOCATION. lia.
    + split; [rewrite Ev; apply Arrays.wf_init|rewrite Ev; constructor|].
      intros v w sv sw Hv'. rewrite Eh in Hv'. cbn in Hv'. rewrite Hv in Hv'. done.
    + split.
      * intros _ j Hj. symmetry. unfold mapsize in Hj. rewrite Es in Hj. cbn in Hj. rewrite Hmb by done. by rewrite Hc.
      * intros _. rewrite Es, Hcb by (unfold SFS_SB_LOCATION; lia). done.
      * intros v sv Hv'. rewrite Eh in Hv'. cbn in Hv'. rewrite Hv in Hv'. done.
    + rewrite Ek. done.
  - rewrite Hcb by (unfold SFS_ROOT_LOCATION; lia). done.
  - intros b Hbb. rewrite Hcb by lia. apply Hre. lia.
Qed.

(** ** Properties *)

(** C16: [mksfs] makes a volume the kernel can mount.  On a disk image of [n]
    blocks, and although [write] may be interrupted or write parts, the
    program exits with status 0; whatever disk holds the image then, [sfs_domount]
    succeeds and gives a state with the invariant of the file system, the
    volume's name and size, an empty root directory with one link, and a free map in
    which exactly the superblock, the root, the map and the blocks past the
    end are in use; no other block was written. *)
Theorem mksfs_mounts e n prog path arg name d : working e -> untouched n d -> fits n ->
  volume_name arg = Some name -> (length name < 32)%nat -> Forall (fun c => 0 <= c < 256) name ->
  exists d', main e [prog; path; arg] d = Done (Ok 0, d') /\
    forall (D : Type) (BD : BlockDevice D) (dev : D) (s0 : fs D),
      healthy dev -> d_blocks dev = n -> (forall b, 0 <= b < n -> block dev b = blk d' b) ->
      super_ok (super s0) -> plenty (ker s0) -> 0 <= biglock_depth (ker s0) -> vheap s0 = ∅ ->
      exists m, sfs_domount (with_device dev s0) = Done (0, m) /\ steady m /\ super m = new_super name n /\
        (forall b, 0 <= b -> marked m b = in_use n b) /\
        content m SFS_ROOT_LOCATION = encode_inode new_root /\
        (forall b, 2 + SFS_BITBLOCKS n <= b < n -> content m b = blk d b).
Proof.
  intros He Hu Hf Hv Hl Hb. destruct (main_ok e n prog path arg name d He Hu Hf Hv Hl) as (d' & Hm & Hfo).
  exists d'. split; [done|]. intros D BD dev s0 Hh Hd Hblk. apply (formatted_mounts name n (blk d) d'); try done. apply Hu.
Qed.

(** A disk of 40 blocks, interrupted once and written in pieces. *)
Definition env0 : sysenv := Sysenv 3 0 0 0.
Definition disk0 : disk := Disk (-1) 0 (replicate (40 * 512) 7) 0 [Failed EINTR; Wrote 100; Wrote 500; Wrote 512; Wrote 1] (replicate MAPBYTES 0).
(** "vol:" *)
Definition volname0 : list Z := [118; 111; 108; 58].
Definition disk1 : disk := match main env0 [[]; []; volname0] disk0 with Done (_, d) => d | Stop _ => disk0 end.
Definition card (d : disk) : lhd sim :=
  (config_lhd true true (mkSim 40 (list_to_map ((fun b => (b, blk d b)) <$> seqZ 0 40)) []) blank).2.
Definition kernel0 : fs (lhd sim) :=
  mkFs (sim_disk 40 []) (mkSuper 0 0 (replicate 32 0) (replicate 118 0)) false (Bitmap.mkBitmap 0 []) false
    Arrays.array_init ∅ [] (mkEnv 0 [] [] [] 0).
Lemma disk0_untouched : untouched 40 disk0.
Proof. split; [done|split; [lia|cbn [image disk0]; rewrite length_replicate; lia]| |done]. repeat constructor; cbn; lia || auto. Qed.
Lemma card_block d b : 0 <= b < 40 -> block (card d) b = blk d b.
Proof.
  intros Hb. change (block (card d) b) with (sim_sector (mkSim 40 (list_to_map ((fun b => (b, blk d b)) <$> seqZ 0 40)) []) b).
  unfold sim_sector. cbn [sim_data]. erewrite (elem_of_list_to_map_1 _ b (blk d b)); [done| |].
  - rewrite <- list_fmap_compose. rewrite (list_fmap_ext _ id) by done. rewrite list_fmap_id. apply NoDup_seqZ.
  - apply list_elem_of_fmap. exists b. split; [done|]. apply elem_of_seqZ. lia.
Qed.
Lemma disk1_main : main env0 [[]; []; volname0] disk0 = Done (Ok 0, disk1).
Proof.
  assert (match main env0 [[]; []; volname0] disk0 with Done (Ok 0, _) => true | _ => false end = true) as H
    by (vm_compute; reflexivity).
  unfold disk1. destruct (main env0 [[]; []; volname0] disk0) as [[[|[]] d]|]; done.
Qed.
(** All bytes of the new image are bytes. *)
Lemma disk1_bytes b : 0 <= b < 40 -> length (blk disk1 b) = 512%nat /\ Forall (fun x => 0 <= x < 256) (blk disk1 b).
Proof.
  assert ((Z.of_nat (length (image disk1)) =? 20480) && forallb (fun x => (0 <=? x) && (x <? 256)) (image disk1) = true) as H by (vm_compute; reflexivity).
  apply andb_true_iff in H as [Hl Hf]. apply Z.eqb_eq in Hl. intros Hb. split.
  - pose proof (length_slice (b * 512) 512 (image disk1) ltac:(lia) ltac:(lia) ltac:(lia)). unfold blk. lia.
  - unfold blk, slice. apply Forall_take, Forall_drop. apply Is_true_eq_left in Hf. rewrite forallb_True in Hf. eapply Forall_impl; [exact Hf|]. cbn beta. intros x Hx%Is_true_eq_true. lia.
Qed.
Lemma card_healthy : healthy (card disk1).
Proof.
  split; try done. split; [done|]. intros b l Hl.
  apply elem_of_list_to_map_2, list_elem_of_fmap in Hl as (c & [= -> ->] & Hc%elem_of_seqZ). apply disk1_bytes. lia.
Qed.
Lemma kernel0_super : super_ok (super kernel0).
Proof. split; [cbn; lia|cbn; lia|split; [done|]|split; [done|]]; apply Forall_replicate; lia. Qed.
Lemma done_state {S A} (a a' : A) (s s' : S) : Done (a, s) = Done (a', s') -> s = s'.
Proof. by intros [= _ ->]. Qed.
Lemma mksfs_mounts_witness : exists m, sfs_domount (with_device (card disk1) kernel0) = Done (0, m) /\
  steady m /\ sp_nblocks (super m) = 40 /\ marked m 2 = true /\ marked m 3 = false.
Proof.
  destruct (mksfs_mounts env0 40 [] [] volname0 [118; 111; 108] disk0) as (d' & Hm & Hd).
  - split; [|split; [|split]]; done.
  - exact disk0_untouched.
  - vm_compute. split; discriminate.
  - reflexivity.
  - cbn. lia.
  - repeat (apply Forall_cons; split; [lia|]). constructor.
  - assert (Hd1 := disk1_main). rewrite Hm in Hd1. apply done_state in Hd1. subst d'.
    destruct (Hd (lhd sim) _ (card disk1) kernel0) as (m & Hr & Hs & Esb & Hmk & _);
      [exact card_healthy|done|apply card_block|exact kernel0_super
      |constructor|done|done|].
    exists m. split; [exact Hr|]. split; [exact Hs|]. rewrite Esb, !Hmk by lia. clear. split; [reflexivity|split; reflexivity].
Defined.
End Mksfs.
