(* ===== verification/Serial.v ===== *)
(** * The serial line under the console (kern/dev/lamebus/lser.c,
    kern/dev/generic/console.c)

    The two ends of the console driver that meet in interrupts.  Output: threads
    that print wait for [cs_wsem], the interrupt handler gives it back when the
    card is ready, and code that runs with interrupts off writes by polling in
    between.  Input: the interrupt handler puts characters into a ring buffer
    that [getch] takes them out of.  Functions that hold [ls_lock] are one step;
    the rest interleaves statement by statement.

    The card is the class [LserHw]: its registers, and as laws what the card
    does with them. *)
From S2P Require Import Prelude.

Definition LSER_REG_CHAR : Z := 0.
Definition LSER_REG_WIRQ : Z := 4.
Definition LSER_REG_RIRQ : Z := 8.
Definition LSER_IRQ_ENABLE : Z := 1.
Definition LSER_IRQ_ACTIVE : Z := 2.

(** The transmitter: nothing to do, sending, or done and interrupting. *)
Inductive wphase := WIdle | WBusy | WReady.
Definition active (x : Z) : bool := negb (Z.land x LSER_IRQ_ACTIVE =? 0).

Class LserHw (H : Type) : Type := {
  bus_read_register : Z -> H -> Z * H;
  bus_write_register : Z -> Z -> H -> H;
  w_phase : H -> wphase;
  sent : H -> list Z;
  (** how often the register is read before a transmission is seen to end *)
  patience : H -> nat;
  hw_read_wirq : forall h x h', bus_read_register LSER_REG_WIRQ h = (x, h') ->
    sent h' = sent h /\
    match w_phase h with
    | WIdle => w_phase h' = WIdle /\ active x = false
    | WReady => w_phase h' = WReady /\ active x = true
    | WBusy => (w_phase h' = WBusy /\ active x = false /\ (patience h' < patience h)%nat) \/
               (w_phase h' = WReady /\ active x = true)
    end;
  hw_read_other : forall r h x h', r <> LSER_REG_WIRQ -> bus_read_register r h = (x, h') ->
    sent h' = sent h /\ w_phase h' = w_phase h;
  hw_write_char : forall ch h, w_phase h = WIdle ->
    sent (bus_write_register LSER_REG_CHAR ch h) = sent h ++ [ch] /\
    w_phase (bus_write_register LSER_REG_CHAR ch h) = WBusy;
  hw_write_wirq : forall h, w_phase h <> WBusy ->
    sent (bus_write_register LSER_REG_WIRQ LSER_IRQ_ENABLE h) = sent h /\
    w_phase (bus_write_register LSER_REG_WIRQ LSER_IRQ_ENABLE h) = WIdle;
  hw_write_rirq : forall h,
    sent (bus_write_register LSER_REG_RIRQ LSER_IRQ_ENABLE h) = sent h /\
    w_phase (bus_write_register LSER_REG_RIRQ LSER_IRQ_ENABLE h) = w_phase h;
  (** What the card does on its own. *)
  hw_tick : H -> H -> Prop;
  hw_tick_ok : forall h h', hw_tick h h' -> sent h' = sent h /\
    (w_phase h' = w_phase h \/ w_phase h = WBusy /\ w_phase h' = WReady)
}.

Section lser.
Context {H : Type} `{!LserHw H}.

(** [struct lser_softc] with the card; [ls_lock] is held inside the functions. *)
Record lser_softc := Lser { ls_hw : H; ls_wbusy : bool; ls_lock : bool }.
Definition spinlock_acquire : M lser_softc unit := fun s =>
  if ls_lock s then Stop KAssertFail else Done (tt, Lser (ls_hw s) (ls_wbusy s) true).
Definition spinlock_release : M lser_softc unit := fun s =>
  if ls_lock s then Done (tt, Lser (ls_hw s) (ls_wbusy s) false) else Stop KAssertFail.
Definition read_reg (r : Z) : M lser_softc Z := fun s =>
  let '(x, h) := bus_read_register r (ls_hw s) in Done (x, Lser h (ls_wbusy s) (ls_lock s)).
Definition write_reg (r x : Z) : M lser_softc unit :=
  mmodify (fun s => Lser (bus_write_register r x (ls_hw s)) (ls_wbusy s) (ls_lock s)).
Definition set_wbusy (b : bool) : M lser_softc unit := mmodify (fun s => Lser (ls_hw s) b (ls_lock s)).

(** [lser_irq] up to its [spinlock_release]: whether [ls_start] is to be called,
    and the character for [ls_input]. *)
Definition lser_irq : M lser_softc (bool * option Z) :=
  _ ← spinlock_acquire;
  x ← read_reg LSER_REG_WIRQ;
  clear_to_write ← (if active x then
      _ ← set_wbusy false; _ ← write_reg LSER_REG_WIRQ LSER_IRQ_ENABLE; mret true
    else mret false);
  x ← read_reg LSER_REG_RIRQ;
  got ← (if active x then
      ch ← read_reg LSER_REG_CHAR; _ ← write_reg LSER_REG_RIRQ LSER_IRQ_ENABLE; mret (Some ch)
    else mret None);
  _ ← spinlock_release;
  mret (clear_to_write, got).
Definition lser_write (ch : Z) : M lser_softc unit :=
  _ ← spinlock_acquire;
  busy ← mgets ls_wbusy;
  if (busy : bool) then mstop KPanic
  else
    _ ← set_wbusy true;
    _ ← write_reg LSER_REG_CHAR ch;
    spinlock_release.
Fixpoint poll_loop (fuel : nat) : M lser_softc unit :=
  match fuel with
  | O => mstop NoFuel
  | S fuel' => val ← read_reg LSER_REG_WIRQ; if active val then mret tt else poll_loop fuel'
  end.
(** The loop ends because the card runs out of patience. *)
Definition lser_poll_until_write : M lser_softc unit :=
  held ← mgets ls_lock; _ ← kassert held;
  n ← mgets (fun s => patience (ls_hw s)); poll_loop (S n).
Definition lser_writepolled (ch : Z) : M lser_softc unit :=
  _ ← spinlock_acquire;
  irqpending ← mgets ls_wbusy;
  _ ← (if (irqpending : bool) then
      _ ← lser_poll_until_write; write_reg LSER_REG_WIRQ LSER_IRQ_ENABLE
    else mret tt);
  _ ← write_reg LSER_REG_CHAR ch;
  _ ← lser_poll_until_write;
  _ ← (if (irqpending : bool) then mret tt else write_reg LSER_REG_WIRQ LSER_IRQ_ENABLE);
  spinlock_release.
(** [config_lser] on a card that has been reset. *)
Definition config_lser (h : H) : Z * lser_softc :=
  (0, Lser (bus_write_register LSER_REG_WIRQ LSER_IRQ_ENABLE
             (bus_write_register LSER_REG_RIRQ LSER_IRQ_ENABLE h)) false false).
End lser.
Arguments lser_softc : clear implicits.

(** ** Output

    A thread that prints ([putch_intr]) takes [cs_wsem] and then calls
    [lser_write]; the handler calls [lser_irq] and then [con_start], which gives
    [cs_wsem] back; [putch_polled] is one call.  [written] is a record of the characters
    in the order in which they were handed to the card. *)
Section output.
Context {H : Type} `{!LserHw H}.
Record osys := Osys {
  dev : lser_softc H;
  cs_wsem : Z;
  senders : list Z;
  starters : nat;
  written : list Z
}.
Inductive ostep (s : osys) : osys -> Prop :=
| putch_intr_P ch : 0 < cs_wsem s ->
    ostep s (Osys (dev s) (cs_wsem s - 1) (ch :: senders s) (starters s) (written s))
| putch_intr_send ch l1 l2 d : senders s = l1 ++ ch :: l2 -> lser_write ch (dev s) = Done (tt, d) ->
    ostep s (Osys d (cs_wsem s) (l1 ++ l2) (starters s) (written s ++ [ch]))
| irq b got d : lser_irq (dev s) = Done ((b, got), d) ->
    ostep s (Osys d (cs_wsem s) (senders s) (if b then S (starters s) else starters s) (written s))
| con_start n : starters s = S n ->
    ostep s (Osys (dev s) (cs_wsem s + 1) (senders s) n (written s))
| putch_polled ch d : lser_writepolled ch (dev s) = Done (tt, d) ->
    ostep s (Osys d (cs_wsem s) (senders s) (starters s) (written s ++ [ch]))
| tick h : hw_tick (ls_hw (dev s)) h ->
    ostep s (Osys (Lser h (ls_wbusy (dev s)) (ls_lock (dev s))) (cs_wsem s) (senders s) (starters s) (written s)).
(** After [config_lser] and [config_con], which creates the semaphore with 1. *)
Definition ostart (h : H) : osys := Osys (snd (config_lser h)) 1 [] 0 [].

(** While the driver thinks the card busy it is sending or has an interrupt pending. *)
Definition phase_ok (busy : bool) (p : wphase) : Prop := if busy then p <> WIdle else p = WIdle.
(** Somebody has the semaphore or will give it back. *)
Record oinv (s : osys) : Prop := Oinv {
  oi_one : cs_wsem s + Z.of_nat (length (senders s)) + Z.of_nat (starters s) + (if ls_wbusy (dev s) then 1 else 0) = 1;
  oi_sem : 0 <= cs_wsem s;
  oi_lock : ls_lock (dev s) = false;
  oi_phase : phase_ok (ls_wbusy (dev s)) (w_phase (ls_hw (dev s)));
  oi_sent : sent (ls_hw (dev s)) = written s
}.

Lemma lser_write_ok ch (d : lser_softc H) : ls_wbusy d = false -> ls_lock d = false -> w_phase (ls_hw d) = WIdle ->
  exists h, lser_write ch d = Done (tt, Lser h true false) /\ sent h = sent (ls_hw d) ++ [ch] /\ w_phase h = WBusy.
Proof.
  intros Hb Hl Hp. destruct d as [h b l]. cbn in *. subst. eexists. split; [reflexivity|]. by apply hw_write_char.
Qed.
Lemma poll_loop_ok n (d : lser_softc H) : w_phase (ls_hw d) <> WIdle -> (patience (ls_hw d) < n)%nat ->
  exists h, poll_loop n d = Done (tt, Lser h (ls_wbusy d) (ls_lock d)) /\ sent h = sent (ls_hw d) /\ w_phase h = WReady.
Proof.
  revert d. induction n as [|n IH]; intros [h b l] Hp Hn; [lia|]. cbn in Hp, Hn. cbn [poll_loop]. unfold read_reg. mrun. cbn [ls_hw ls_wbusy ls_lock].
  destruct (bus_read_register LSER_REG_WIRQ h) as [x h'] eqn:E. destruct (hw_read_wirq _ _ _ E) as [Hs Hc].
  destruct (w_phase h) eqn:Ep; [done| |].
  - destruct Hc as [(Hp' & -> & Hlt)|(Hp' & ->)]; [|by exists h'].
    destruct (IH (Lser h' b l)) as (h2 & -> & Hs2 & Hp2); [cbn; congruence|cbn; lia|]. exists h2. cbn in *. by rewrite Hs2.
  - destruct Hc as (Hp' & ->). by exists h'.
Qed.
Lemma poll_ok (d : lser_softc H) : w_phase (ls_hw d) <> WIdle -> ls_lock d = true ->
  exists h, lser_poll_until_write d = Done (tt, Lser h (ls_wbusy d) true) /\ sent h = sent (ls_hw d) /\ w_phase h = WReady.
Proof.
  intros Hp Hl. destruct (poll_loop_ok (S (patience (ls_hw d))) d Hp ltac:(lia)) as (h & Hr & Hh).
  exists h. split; [|done]. unfold lser_poll_until_write. mrun. rewrite Hl. by rewrite Hr, Hl.
Qed.
Lemma writepolled_ok ch (d : lser_softc H) : ls_lock d = false ->
  phase_ok (ls_wbusy d) (w_phase (ls_hw d)) ->
  exists h, lser_writepolled ch d = Done (tt, Lser h (ls_wbusy d) false) /\ sent h = sent (ls_hw d) ++ [ch] /\
    phase_ok (ls_wbusy d) (w_phase h).
Proof.
  unfold phase_ok. intros Hl Hp. destruct d as [h b l]. cbn [ls_hw ls_wbusy ls_lock] in *. subst l. unfold lser_writepolled.
  rewrite (bind_Done _ _ _ tt (Lser h b true)) by done. rewrite (bind_Done (mgets ls_wbusy) _ (Lser h b true) b (Lser h b true) eq_refl).
  assert (exists h1, (if b then _ ← lser_poll_until_write; write_reg LSER_REG_WIRQ LSER_IRQ_ENABLE else mret tt) (Lser h b true) =
    Done (tt, Lser h1 b true) /\ sent h1 = sent h /\ w_phase h1 = WIdle) as (h1 & E1 & S1 & P1).
  { destruct b; [|by exists h]. destruct (poll_ok (Lser h true true)) as (h1 & E1 & S1 & P1); [done|done|].
    rewrite (bind_Done _ _ _ _ _ E1). destruct (hw_write_wirq h1) as [S2 P2]; [by rewrite P1|]. eexists. split; [reflexivity|].
    cbn in S1 |- *. split; [by rewrite S2|done]. }
  rewrite (bind_Done _ _ _ _ _ E1). destruct (hw_write_char ch h1 P1) as [S2 P2]. set (h2 := bus_write_register _ ch h1) in *.
  rewrite (bind_Done _ _ _ tt (Lser h2 b true)) by done.
  destruct (poll_ok (Lser h2 b true)) as (h3 & E3 & S3 & P3); [cbn; by rewrite P2|done|].
  rewrite (bind_Done _ _ _ _ _ E3). cbn [ls_wbusy ls_hw] in *. destruct b.
  - exists h3. split; [done|]. split; [congruence|by rewrite P3].
  - destruct (hw_write_wirq h3) as [S4 P4]; [by rewrite P3|]. eexists. split; [reflexivity|]. cbn. split; [congruence|done].
Qed.
Lemma lser_irq_ok (d : lser_softc H) : ls_lock d = false ->
  phase_ok (ls_wbusy d) (w_phase (ls_hw d)) ->
  exists (b : bool) got h, lser_irq d = Done ((b, got), Lser h (if b then false else ls_wbusy d) false) /\
    sent h = sent (ls_hw d) /\ (b = true -> ls_wbusy d = true) /\ (w_phase (ls_hw d) = WReady -> b = true) /\
    phase_ok (if b then false else ls_wbusy d) (w_phase h).
Proof.
  unfold phase_ok. intros Hl Hp. destruct d as [h w l]. cbn [ls_hw ls_wbusy ls_lock] in *. subst l. unfold lser_irq.
  rewrite (bind_Done _ _ _ tt (Lser h w true)) by done.
  destruct (bus_read_register LSER_REG_WIRQ h) as [x h1] eqn:E. destruct (hw_read_wirq _ _ _ E) as [S1 P1].
  rewrite (bind_Done _ _ _ x (Lser h1 w true)) by (unfold read_reg; cbn; by rewrite E).
  assert (exists (b : bool) h2, (if active x then _ ← set_wbusy false; _ ← write_reg LSER_REG_WIRQ LSER_IRQ_ENABLE; mret true else mret false)
    (Lser h1 w true) = Done (b, Lser h2 (if b then false else w) true) /\ sent h2 = sent h /\ (b = true -> w = true) /\
    (w_phase h = WReady -> b = true) /\ phase_ok (if b then false else w) (w_phase h2)) as (b & h2 & E2 & S2 & Hb & Hr & P2).
  { destruct (active x) eqn:Ea.
    - exists true. assert (w_phase h1 = WReady /\ w = true) as [P1' ->].
      { destruct (w_phase h), w; try done; destruct P1 as [(? & ?)|(? & ?)] || destruct P1; try done; naive_solver. }
      destruct (hw_write_wirq h1) as [S2 P2]; [by rewrite P1'|]. eexists. split; [reflexivity|]. cbn. split; [congruence|done].
    - exists false, h1. split; [done|]. split; [done|]. split; [done|]. split.
      + intros Hr. rewrite Hr in P1. destruct P1. congruence.
      + destruct w; [|rewrite Hp in P1; apply P1]. destruct (w_phase h); [done| |destruct P1; congruence].
        destruct P1 as [(-> & _)|(-> & _)]; done. }
  rewrite (bind_Done _ _ _ _ _ E2).
  destruct (bus_read_register LSER_REG_RIRQ h2) as [x3 h3] eqn:E3. destruct (hw_read_other LSER_REG_RIRQ h2 x3 h3 ltac:(done) E3) as [S3 P3].
  rewrite (bind_Done _ _ _ x3 (Lser h3 (if b then false else w) true)) by (unfold read_reg; cbn; by rewrite E3).
  assert (exists got h4, (if active x3 then ch ← read_reg LSER_REG_CHAR; _ ← write_reg LSER_REG_RIRQ LSER_IRQ_ENABLE; mret (Some ch) else mret None)
    (Lser h3 (if b then false else w) true) = Done (got, Lser h4 (if b then false else w) true) /\ sent h4 = sent h3 /\ w_phase h4 = w_phase h3)
    as (got & h4 & E4 & S4 & P4).
  { destruct (active x3); [|by eexists _, h3]. destruct (bus_read_register LSER_REG_CHAR h3) as [c h4] eqn:E4.
    destruct (hw_read_other LSER_REG_CHAR h3 c h4 ltac:(done) E4) as [S4 P4]. destruct (hw_write_rirq h4) as [S5 P5].
    eexists _, _. split; [unfold read_reg; mrun; cbn; rewrite E4; reflexivity|]. cbn; split; congruence. }
  rewrite (bind_Done _ _ _ _ _ E4). exists b, got, h4. split; [done|]. split; [congruence|]. split; [done|]. split; [done|].
  by rewrite P4, P3.
Qed.
Lemma ostep_inv s s' : oinv s -> ostep s s' -> oinv s'.
Proof.
  intros [H1 H2 H3 H4 H5] Hs. unfold phase_ok in *. destruct Hs as [ch Hw|ch l1 l2 d Hq Hr|b got d Hr|n Hn|ch d Hr|h Ht].
  - split; cbn; try done; lia.
  - rewrite Hq, length_app in H1. cbn in H1. destruct (ls_wbusy (dev s)) eqn:Eb; [lia|].
    destruct (lser_write_ok ch (dev s) Eb H3 H4) as (h & Hr' & Hsent & Hp). rewrite Hr in Hr'. injection Hr' as ->.
    split; cbn; try done; [rewrite length_app; lia|by rewrite Hp|congruence].
  - destruct (lser_irq_ok (dev s) H3 H4) as (b' & got' & h & Hr' & Hsent & Hb & _ & Hp). rewrite Hr in Hr'. injection Hr' as -> -> ->.
    split; cbn; try done; [|congruence]. destruct b'; [rewrite (Hb eq_refl) in H1|]; lia.
  - rewrite Hn in H1. split; cbn; try done; lia.
  - destruct (writepolled_ok ch (dev s) H3 H4) as (h & Hr' & Hsent & Hp). rewrite Hr in Hr'. injection Hr' as ->.
    split; cbn; try done. congruence.
  - destruct (hw_tick_ok _ _ Ht) as [Hsent Hp]. split; cbn; try done; [|congruence].
    destruct (ls_wbusy (dev s)), Hp as [-> |[Hp1 ->]]; try done. congruence.
Qed.
Lemma reachable_oinv h s : w_phase h = WIdle -> sent h = [] -> rtc ostep (ostart h) s -> oinv s.
Proof.
  intros Hp Hs Hr. remember (ostart h) as s0 eqn:E. assert (oinv s0) as H0.
  { subst. destruct (hw_write_rirq h) as [S1 P1]. destruct (hw_write_wirq (bus_write_register LSER_REG_RIRQ LSER_IRQ_ENABLE h)) as [S2 P2]; [by rewrite P1, Hp|].
    split; cbn; try done. by rewrite S2, S1. }
  clear E. induction Hr; eauto using ostep_inv.
Qed.
End output.

(** ** Input

    [con_input] runs in the interrupt handler, [getch_intr] in the thread that
    reads; their statements interleave.  [accepted] records the characters that found
    room, [received] those that [getch_intr] returned. *)
Definition CONSOLE_INPUT_BUFFER_SIZE : Z := 32.
Inductive reader := RIdle | RTaken | RLoaded (ret : Z).
Inductive handler := HIdle | HStore (ch nexthead : Z) | HHead (nexthead : Z) | HSignal.
Record isys := Isys {
  cs_gotchars : list Z;
  cs_gotchars_head : Z;
  cs_gotchars_tail : Z;
  cs_rsem : Z;
  at_reader : reader;
  at_handler : handler;
  accepted : list Z;
  received : list Z
}.
Definition next_slot (i : Z) : Z := (i + 1) mod CONSOLE_INPUT_BUFFER_SIZE.
(** The statements of [con_input] from the check on. *)
Inductive con_input_step (s : isys) : isys -> Prop :=
| con_input_drop : at_handler s = HIdle -> next_slot (cs_gotchars_head s) = cs_gotchars_tail s -> con_input_step s s
| con_input_accept ch : at_handler s = HIdle -> next_slot (cs_gotchars_head s) <> cs_gotchars_tail s ->
    con_input_step s (Isys (cs_gotchars s) (cs_gotchars_head s) (cs_gotchars_tail s) (cs_rsem s) (at_reader s)
      (HStore (u8 ch) (next_slot (cs_gotchars_head s))) (accepted s ++ [u8 ch]) (received s))
| con_input_store ch n : at_handler s = HStore ch n ->
    con_input_step s (Isys (<[Z.to_nat (cs_gotchars_head s) := ch]> (cs_gotchars s)) (cs_gotchars_head s) (cs_gotchars_tail s)
      (cs_rsem s) (at_reader s) (HHead n) (accepted s) (received s))
| con_input_head n : at_handler s = HHead n ->
    con_input_step s (Isys (cs_gotchars s) n (cs_gotchars_tail s) (cs_rsem s) (at_reader s) HSignal (accepted s) (received s))
| con_input_V : at_handler s = HSignal ->
    con_input_step s (Isys (cs_gotchars s) (cs_gotchars_head s) (cs_gotchars_tail s) (cs_rsem s + 1) (at_reader s) HIdle (accepted s) (received s)).
Inductive getch_step (s : isys) : isys -> Prop :=
| getch_P : at_reader s = RIdle -> 0 < cs_rsem s ->
    getch_step s (Isys (cs_gotchars s) (cs_gotchars_head s) (cs_gotchars_tail s) (cs_rsem s - 1) RTaken (at_handler s) (accepted s) (received s))
| getch_load c : at_reader s = RTaken -> cs_gotchars s !! Z.to_nat (cs_gotchars_tail s) = Some c ->
    getch_step s (Isys (cs_gotchars s) (cs_gotchars_head s) (cs_gotchars_tail s) (cs_rsem s) (RLoaded c) (at_handler s) (accepted s) (received s))
| getch_return c : at_reader s = RLoaded c ->
    getch_step s (Isys (cs_gotchars s) (cs_gotchars_head s) (next_slot (cs_gotchars_tail s)) (cs_rsem s) RIdle (at_handler s)
      (accepted s) (received s ++ [c])).
Inductive istep (s : isys) : isys -> Prop :=
| istep_input s' : con_input_step s s' -> istep s s'
| istep_getch s' : getch_step s s' -> istep s s'.
Definition istart (buf : list Z) : isys := Isys buf 0 0 0 RIdle HIdle [] [].

(** [q] are the characters in the ring. *)
Definition ring (s : isys) (q : list Z) : Prop :=
  Z.of_nat (length q) = (cs_gotchars_head s - cs_gotchars_tail s) mod 32 /\
  forall i c, q !! i = Some c -> cs_gotchars s !! Z.to_nat ((cs_gotchars_tail s + Z.of_nat i) mod 32) = Some c.
Record iinv (s : isys) (q : list Z) : Prop := Iinv {
  ii_size : length (cs_gotchars s) = 32%nat /\ 0 <= cs_gotchars_head s < 32 /\ 0 <= cs_gotchars_tail s < 32;
  ii_ring : ring s q;
  ii_sem : 0 <= cs_rsem s;
  ii_count : Z.of_nat (length q) = cs_rsem s + (match at_reader s with RIdle => 0 | _ => 1 end) + (match at_handler s with HSignal => 1 | _ => 0 end);
  ii_reader : match at_reader s with RLoaded c => head q = Some c | _ => True end;
  ii_handler : match at_handler s with
    | HStore ch n => n = next_slot (cs_gotchars_head s) /\ (length q < 31)%nat /\ accepted s = received s ++ q ++ [ch]
    | HHead n => n = next_slot (cs_gotchars_head s) /\ (length q < 31)%nat /\
        exists ch, cs_gotchars s !! Z.to_nat (cs_gotchars_head s) = Some ch /\ accepted s = received s ++ q ++ [ch]
    | _ => accepted s = received s ++ q
    end
}.
Lemma ring_head s q : iinv s q -> (length q < 32)%nat /\ cs_gotchars_head s = (cs_gotchars_tail s + Z.of_nat (length q)) mod 32.
Proof. intros [(_ & Hh & Ht) [Hl _] _ _ _ _]. split; [dlia|]. rewrite Hl. dlia. Qed.
Lemma con_input_inv s q s' : iinv s q -> con_input_step s s' -> exists q', iinv s' q'.
Proof.
  intros Hi Hs. pose proof (ring_head s q Hi) as [Hq Hh]. destruct Hi as [(Hl & Hhd & Htl) [Hn Hr] Hsem Hc Hrd Hhn].
  destruct Hs as [Hp Hf|ch Hp Hf|ch n Hp|n Hp|Hp]; rewrite Hp in *.
  - exists q. split; try done; rewrite ?Hp; done.
  - exists q. unfold next_slot, CONSOLE_INPUT_BUFFER_SIZE in *. split; cbn; try done; rewrite ?Hp; try done.
    split; [done|]. split; [dlia|]. by rewrite Hhn, <- app_assoc.
  - exists q. destruct Hhn as (-> & Hlt & Ha). split; cbn; try done; rewrite ?length_insert; try done.
    + split; [done|]. intros i c Hic. cbn. pose proof (lookup_lt_Some _ _ _ Hic). rewrite list_lookup_insert_ne; [by apply Hr|]. dlia.
    + split; [done|]. split; [done|]. exists ch. split; [|done]. rewrite list_lookup_insert_eq; [done|]. lia.
  - destruct Hhn as (-> & Hlt & ch & Hch & Ha). exists (q ++ [ch]). split; cbn; try done.
    + split; [done|]. unfold next_slot, CONSOLE_INPUT_BUFFER_SIZE. dlia.
    + split; cbn; [rewrite length_app; cbn; unfold next_slot, CONSOLE_INPUT_BUFFER_SIZE; dlia|]. intros i c Hic.
      apply lookup_app_Some in Hic as [Hic|[Hge Hic]]; [by apply Hr|]. apply list_lookup_singleton_Some in Hic as [Hi0 <-].
      rewrite <- Hch. f_equal. f_equal. rewrite Hh. do 2 f_equal. lia.
    + rewrite length_app. cbn. lia.
    + destruct (at_reader s); try done. by destruct q.
  - exists q. split; cbn; try done; lia.
Qed.
Lemma getch_inv s q s' : iinv s q -> getch_step s s' -> exists q', iinv s' q'.
Proof.
  intros Hi Hs. pose proof (ring_head s q Hi) as [Hq Hh]. destruct Hi as [(Hl & Hhd & Htl) [Hn Hr] Hsem Hc Hrd Hhn].
  destruct Hs as [Hp Hsm|c Hp Hld|c Hp]; rewrite Hp in *.
  - exists q. split; cbn; try done; lia.
  - exists q. split; cbn; try done. destruct q as [|d q]; [cbn in Hc; destruct (at_handler s); lia|]. cbn.
    specialize (Hr 0%nat d eq_refl). rewrite Z.add_0_r, Z.mod_small in Hr by lia. congruence.
  - destruct q as [|d q]; [done|]. cbn in Hrd. injection Hrd as ->. exists q.
    split; cbn; try done.
    + split; [done|]. split; [done|]. unfold next_slot, CONSOLE_INPUT_BUFFER_SIZE. dlia.
    + split; cbn; [unfold next_slot, CONSOLE_INPUT_BUFFER_SIZE; cbn in Hn, Hq; dlia|]. intros i e Hie. rewrite <- (Hr (S i) e Hie).
      f_equal. f_equal. unfold next_slot, CONSOLE_INPUT_BUFFER_SIZE. dlia.
    + cbn in Hc. lia.
    + destruct (at_handler s) as [|ch n|n|]; cbn in Hhn |- *; rewrite <- ?app_assoc; try done.
      * destruct Hhn as (-> & Hlt & ->). split; [done|]. split; [lia|done].
      * destruct Hhn as (-> & Hlt & ch & Hch & ->). split; [done|]. split; [lia|]. exists ch. by rewrite <- app_assoc.
Qed.
Lemma reachable_iinv buf s : length buf = 32%nat -> rtc istep (istart buf) s -> exists q, iinv s q.
Proof.
  intros Hl Hr. remember (istart buf) as s0 eqn:E. assert (exists q, iinv s0 q) as H0.
  { subst. exists []. split; cbn; try done; lia. }
  clear E. induction Hr as [|s1 s2 s3 Hs _ IH]; [done|]. apply IH. destruct H0 as [q Hq], Hs; eauto using con_input_inv, getch_inv.
Qed.

(** ** Properties *)

(** C22: Printing on the serial console.  Whatever threads, handlers and polled
    writes interleave, the card gets every character exactly once and in the order in
    which the calls of the driver take place; a thread that has passed the semaphore
    never finds the card busy (the panic in [lser_write] cannot happen), a polled
    write always comes back, and the semaphore is never lost: when it is taken
    somebody is about to use it or to give it back, or the card is sending and the
    interrupt at the end of the transmission will. *)
Theorem console_output {H} `{!LserHw H} (h : H) s : w_phase h = WIdle -> sent h = [] -> rtc ostep (ostart h) s ->
  sent (ls_hw (dev s)) = written s /\
  (forall ch, ch ∈ senders s -> exists d, lser_write ch (dev s) = Done (tt, d)) /\
  (forall ch, exists d, lser_writepolled ch (dev s) = Done (tt, d)) /\
  (cs_wsem s <= 0 -> senders s <> [] \/ (0 < starters s)%nat \/
     w_phase (ls_hw (dev s)) <> WIdle /\
     (w_phase (ls_hw (dev s)) = WReady -> exists got d, lser_irq (dev s) = Done ((true, got), d))).
Proof.
  intros Hp Hs Hr. destruct (reachable_oinv h s Hp Hs Hr) as [H1 H2 H3 H4 H5]. split; [done|]. split; [|split].
  - intros ch (l1 & l2 & E)%list_elem_of_split. rewrite E, length_app in H1. cbn in H1.
    destruct (ls_wbusy (dev s)) eqn:Eb; [lia|]. destruct (lser_write_ok ch (dev s) Eb H3 H4) as (d & Hw & _). by eexists.
  - intros ch. destruct (writepolled_ok ch (dev s) H3 H4) as (d & Hw & _). by eexists.
  - intros Hw. destruct (senders s); [|by left]. right. destruct (starters s); [|left; lia]. right.
    destruct (ls_wbusy (dev s)) eqn:Eb; [|cbn in H1; lia]. split; [exact H4|]. intros Hrd.
    rewrite <- Eb in H4. destruct (lser_irq_ok (dev s) H3 H4) as (b & got & d & Hi & _ & _ & Hb & _).
    rewrite (Hb Hrd) in Hi. by exists got; eexists.
Qed.
(** C26: Console input is a queue.  However [con_input] and one reader interleave,
    [getch] returns the accepted characters in order, without loss or repetition; at
    most 31 wait (32 while one is being put in), the semaphore counts them when
    nobody is inside, and a character is refused only when 31 wait. *)
Theorem console_input_fifo buf s : length buf = 32%nat -> rtc istep (istart buf) s ->
  exists q, accepted s = received s ++ q /\ (length q <= 31)%nat /\
    (at_handler s = HIdle -> at_reader s = RIdle -> cs_rsem s = Z.of_nat (length q)) /\
    (at_handler s = HIdle -> next_slot (cs_gotchars_head s) = cs_gotchars_tail s -> length q = 31%nat) /\
    (at_reader s = RTaken -> exists c, cs_gotchars s !! Z.to_nat (cs_gotchars_tail s) = Some c /\ head q = Some c).
Proof.
  intros Hl Hr. destruct (reachable_iinv buf s Hl Hr) as [q Hi]. pose proof (ring_head s q Hi) as [Hq Hh].
  destruct Hi as [(Hlen & Hhd & Htl) [Hn Hrg] Hsem Hc Hrd Hhn].
  assert (exists q', accepted s = received s ++ q' /\ (length q' <= 31)%nat /\ (at_handler s = HIdle -> q' = q) /\ (q <> [] -> head q' = head q))
    as (q' & Ha & Hlq & Hidle & Hhead).
  { destruct (at_handler s) as [|ch n|n|]; [by exists q; repeat split; try lia| | |by exists q; repeat split; try lia].
    - destruct Hhn as (_ & Hlt & ->). exists (q ++ [ch]). rewrite length_app. cbn. repeat split; [lia|done|by destruct q].
    - destruct Hhn as (_ & Hlt & ch & _ & ->). exists (q ++ [ch]). rewrite length_app. cbn. repeat split; [lia|done|by destruct q]. }
  exists q'. split; [done|]. split; [done|]. split; [|split].
  - intros E1 E2. rewrite E1, E2 in Hc. rewrite (Hidle E1). lia.
  - intros E1 E2. rewrite (Hidle E1). unfold next_slot, CONSOLE_INPUT_BUFFER_SIZE in E2. dlia.
  - intros E. rewrite E in Hc. destruct q as [|d q]; [cbn in Hc; destruct (at_handler s); lia|]. exists d.
    rewrite Hhead by done. split; [|done]. specialize (Hrg 0%nat d eq_refl). by rewrite Z.add_0_r, Z.mod_small in Hrg by lia.
Qed.

(** ** A card that takes three reads to send *)
Record card := Card { c_phase : wphase; c_sent : list Z; c_left : nat; c_in : list Z }.
Definition card_wirq (c : card) : Z * card :=
  match c_phase c, c_left c with
  | WIdle, _ => (1, c)
  | WReady, _ | WBusy, O => (3, Card WReady (c_sent c) 0 (c_in c))
  | WBusy, S n => (1, Card WBusy (c_sent c) n (c_in c))
  end.
Definition card_read (r : Z) (c : card) : Z * card :=
  if r =? LSER_REG_WIRQ then card_wirq c
  else if r =? LSER_REG_RIRQ then (match c_in c with [] => 1 | _ => 3 end, c)
  else (default 0 (head (c_in c)), c).
Definition card_write (r x : Z) (c : card) : card :=
  if r =? LSER_REG_CHAR then Card WBusy (c_sent c ++ [x]) 3 (c_in c)
  else if r =? LSER_REG_WIRQ then match c_phase c with WBusy => c | _ => Card WIdle (c_sent c) 0 (c_in c) end
  else Card (c_phase c) (c_sent c) (c_left c) (tail (c_in c)).
#[local] Obligation Tactic := idtac.
#[export] Program Instance card_hw : LserHw card := {
  bus_read_register := card_read;
  bus_write_register := card_write;
  w_phase := c_phase;
  sent := c_sent;
  patience := c_left;
  hw_tick c c' := exists ch, c' = Card (c_phase c) (c_sent c) (c_left c) (c_in c ++ [ch])
}.
Next Obligation.
  intros [p o [|n] i] x h' Hr; destruct p; injection Hr as <- <-; cbn; split; try done; [by right|].
  left. split; [done|]. split; [done|]. lia.
Qed.
Next Obligation.
  intros r h x h' Hne Hr. unfold card_read in Hr. rewrite (proj2 (Z.eqb_neq _ _) Hne) in Hr. by destruct (r =? LSER_REG_RIRQ); injection Hr as <- <-.
Qed.
Next Obligation. by intros ch h Hp. Qed.
Next Obligation. intros [p o n i] Hp. by destruct p. Qed.
Next Obligation. done. Qed.
Next Obligation. intros h h' [ch ->]. split; [done|by left]. Qed.

Definition line0 : card := Card WIdle [] 0 [].
(** A thread prints 65 and the semaphore is taken. *)
Definition printed : osys (H := card) := Osys (Lser (Card WBusy [65] 3 []) true false) 0 [] 0 [65].
Lemma console_output_witness : rtc ostep (ostart line0) printed /\ sent (ls_hw (dev printed)) = written printed /\
  exists d, lser_writepolled 66 (dev printed) = Done (tt, d).
Proof.
  assert (rtc ostep (ostart line0) printed) as Hr.
  { eapply rtc_l; [apply (putch_intr_P _ 65); cbn; lia|]. eapply rtc_l; [by apply (putch_intr_send _ 65 [] [])|]. apply rtc_refl. }
  destruct (console_output line0 printed) as (H1 & _ & H2 & _); [reflexivity|reflexivity|exact Hr|].
  split; [exact Hr|]. split; [exact H1|exact (H2 66)].
Defined.
Definition keyed : isys := Isys (<[0%nat := 97]> (replicate 32 0)) 1 0 0 RTaken HIdle [97] [].
Lemma console_input_fifo_witness : rtc istep (istart (replicate 32 0)) keyed /\ exists q, [97] = [] ++ q /\ (length q <= 31)%nat.
Proof.
  assert (rtc istep (istart (replicate 32 0)) keyed) as Hr.
  { eapply rtc_l; [apply istep_input, (con_input_accept _ 97); done|]. eapply rtc_l; [apply istep_input; by eapply con_input_store|].
    eapply rtc_l; [apply istep_input; by eapply con_input_head|]. eapply rtc_l; [apply istep_input; by apply con_input_V|].
    eapply rtc_l; [apply istep_getch; by apply getch_P|]. apply rtc_refl. }
  destruct (console_input_fifo (replicate 32 0) keyed eq_refl Hr) as (q & Hq & Hl & _). split; [exact Hr|]. exists q. split; [exact Hq|exact Hl].
Defined.
