(* ===== verification/Console.v ===== *)
(** * The console (kern/dev/generic/console.c, kern/lib/kprintf.c, kern/lib/kgets.c)

    What one thread does with the console: [putch], [getch], the device
    operations, [kprintf] and [panic], and the line editor [kgets].  Below are
    the serial driver and the interrupts (Serial.v), of which only the result is
    seen here: [out] is what was handed to the card, [keys] what [getch] will
    return.  Above is the formatting (Printf.v).

    The theorems say that [kprintf] prints what its format says, also before
    there is a console, that reading and writing the device transfer the lines
    they should, and that the line [kgets] returns is the line on the screen. *)
From S2P Require Import Prelude Memory CopyInOut Uio Stream Printf.
Import Uio Stream.

Definition DELAYBUFSIZE : Z := 1024.
Definition c_newline : Z := 10.
Definition c_return : Z := 13.
Definition c_backspace : Z := 8.

(** The variables of console.c, beep.c and kprintf.c, and what they read of the
    current thread and cpu.  A lock is [None] before it is created, and then
    tells whether this thread holds it; other threads are not seen here. *)
Record cst := Cst {
  the_console : bool;
  the_beep : bool;
  delayed_outbuf : list Z;
  out : list Z;
  keys : list Z;
  polling : bool;
  beeps : Z;
  cpu_exists : bool;
  t_in_interrupt : bool;
  t_iplhigh_count : Z;
  kprintf_lock : option bool;
  kprintf_spinlock : bool;
  con_userlock_read : option bool;
  con_userlock_write : option bool
}.
Definition with_console x s := Cst x (the_beep s) (delayed_outbuf s) (out s) (keys s) (polling s) (beeps s) (cpu_exists s) (t_in_interrupt s) (t_iplhigh_count s) (kprintf_lock s) (kprintf_spinlock s) (con_userlock_read s) (con_userlock_write s).
Definition with_beep x s := Cst (the_console s) x (delayed_outbuf s) (out s) (keys s) (polling s) (beeps s) (cpu_exists s) (t_in_interrupt s) (t_iplhigh_count s) (kprintf_lock s) (kprintf_spinlock s) (con_userlock_read s) (con_userlock_write s).
Definition with_delayed x s := Cst (the_console s) (the_beep s) x (out s) (keys s) (polling s) (beeps s) (cpu_exists s) (t_in_interrupt s) (t_iplhigh_count s) (kprintf_lock s) (kprintf_spinlock s) (con_userlock_read s) (con_userlock_write s).
Definition with_out x s := Cst (the_console s) (the_beep s) (delayed_outbuf s) x (keys s) (polling s) (beeps s) (cpu_exists s) (t_in_interrupt s) (t_iplhigh_count s) (kprintf_lock s) (kprintf_spinlock s) (con_userlock_read s) (con_userlock_write s).
Definition with_keys x s := Cst (the_console s) (the_beep s) (delayed_outbuf s) (out s) x (polling s) (beeps s) (cpu_exists s) (t_in_interrupt s) (t_iplhigh_count s) (kprintf_lock s) (kprintf_spinlock s) (con_userlock_read s) (con_userlock_write s).
Definition with_polling x s := Cst (the_console s) (the_beep s) (delayed_outbuf s) (out s) (keys s) x (beeps s) (cpu_exists s) (t_in_interrupt s) (t_iplhigh_count s) (kprintf_lock s) (kprintf_spinlock s) (con_userlock_read s) (con_userlock_write s).
Definition with_beeps x s := Cst (the_console s) (the_beep s) (delayed_outbuf s) (out s) (keys s) (polling s) x (cpu_exists s) (t_in_interrupt s) (t_iplhigh_count s) (kprintf_lock s) (kprintf_spinlock s) (con_userlock_read s) (con_userlock_write s).
Definition with_ipl x s := Cst (the_console s) (the_beep s) (delayed_outbuf s) (out s) (keys s) (polling s) (beeps s) (cpu_exists s) (t_in_interrupt s) x (kprintf_lock s) (kprintf_spinlock s) (con_userlock_read s) (con_userlock_write s).
Definition with_plock x s := Cst (the_console s) (the_beep s) (delayed_outbuf s) (out s) (keys s) (polling s) (beeps s) (cpu_exists s) (t_in_interrupt s) (t_iplhigh_count s) x (kprintf_spinlock s) (con_userlock_read s) (con_userlock_write s).
Definition with_spin x s := Cst (the_console s) (the_beep s) (delayed_outbuf s) (out s) (keys s) (polling s) (beeps s) (cpu_exists s) (t_in_interrupt s) (t_iplhigh_count s) (kprintf_lock s) x (con_userlock_read s) (con_userlock_write s).
Definition with_rlock x s := Cst (the_console s) (the_beep s) (delayed_outbuf s) (out s) (keys s) (polling s) (beeps s) (cpu_exists s) (t_in_interrupt s) (t_iplhigh_count s) (kprintf_lock s) (kprintf_spinlock s) x (con_userlock_write s).
Definition with_wlock x s := Cst (the_console s) (the_beep s) (delayed_outbuf s) (out s) (keys s) (polling s) (beeps s) (cpu_exists s) (t_in_interrupt s) (t_iplhigh_count s) (kprintf_lock s) (kprintf_spinlock s) (con_userlock_read s) x.
Definition with_cpu x s := Cst (the_console s) (the_beep s) (delayed_outbuf s) (out s) (keys s) (polling s) (beeps s) x (t_in_interrupt s) (t_iplhigh_count s) (kprintf_lock s) (kprintf_spinlock s) (con_userlock_read s) (con_userlock_write s).

(** [curthread->field], which needs a current thread. *)
Definition cur {A} (f : cst -> A) : M cst A :=
  c ← mgets cpu_exists;
  if (c : bool) then mgets f else mstop NullDeref.

(** ** console.c *)
Definition putch_delayed (ch : Z) : M cst unit :=
  l ← mgets delayed_outbuf;
  _ ← kassert (Z.of_nat (length l) <? DELAYBUFSIZE);
  mmodify (with_delayed (l ++ [u8 ch])).
(** [cs_send] and [cs_sendpolled]: the card is given one character. *)
Definition send (ch : Z) : M cst unit := mmodify (fun s => with_out (out s ++ [u8 ch]) s).
Definition putch_polled (ch : Z) : M cst unit := send ch.
Definition putch_intr (ch : Z) : M cst unit := send ch.
Definition polled : M cst bool :=
  i ← cur t_in_interrupt;
  n ← cur t_iplhigh_count;
  mret (i || (0 <? n)).
Definition putch (ch : Z) : M cst unit :=
  c ← mgets the_console;
  if negb (c : bool) then putch_delayed ch
  else p ← polled; if (p : bool) then putch_polled ch else putch_intr ch.
(** The serial driver masks its interrupt while it polls. *)
Definition putch_prepare : M cst unit :=
  c ← mgets the_console;
  if negb (c : bool) then mret tt
  else p ← polled; if (p : bool) then mmodify (with_polling true) else mret tt.
Definition putch_complete : M cst unit :=
  c ← mgets the_console;
  if negb (c : bool) then mret tt
  else p ← polled; if (p : bool) then mmodify (with_polling false) else mret tt.
(** [getch_intr] waits for a key for good when no more will come. *)
Definition getch_intr : M cst Z :=
  l ← mgets keys;
  match l with
  | [] => mstop Blocked
  | c :: r => _ ← mmodify (with_keys r); mret (u8 c)
  end.
Definition getch : M cst Z :=
  c ← mgets the_console;
  _ ← kassert c;
  i ← cur t_in_interrupt;
  n ← cur t_iplhigh_count;
  _ ← kassert (negb i && (n =? 0));
  getch_intr.
Fixpoint putch_all (l : list Z) : M cst unit :=
  match l with
  | [] => mret tt
  | c :: r => _ ← putch c; putch_all r
  end.
Definition flush_delay_buf : M cst unit :=
  l ← mgets delayed_outbuf;
  _ ← putch_all l;
  mmodify (with_delayed []).

(** [lock_acquire] and [lock_release]; the second does not ask who holds it. *)
Definition lock_acquire (get : cst -> option bool) (set : option bool -> cst -> cst) : M cst unit :=
  l ← mgets get;
  _ ← kassert (bool_decide (is_Some l));
  i ← cur t_in_interrupt;
  _ ← kassert (negb i);
  _ ← kassert (bool_decide (l <> Some true));
  mmodify (set (Some true)).
Definition lock_release (get : cst -> option bool) (set : option bool -> cst -> cst) : M cst unit :=
  l ← mgets get;
  _ ← kassert (bool_decide (is_Some l));
  mmodify (set (Some false)).
(** The spinlock of [kprintf]: while it is held interrupts are off.  Before
    there is a cpu nobody is the holder and a second acquire spins. *)
Definition spinlock_acquire : M cst unit :=
  s ← mget;
  if kprintf_spinlock s then mstop (if cpu_exists s then KPanic else Blocked)
  else
    _ ← mmodify (with_spin true);
    if cpu_exists s then mmodify (with_ipl (t_iplhigh_count s + 1)) else mret tt.
Definition spinlock_release : M cst unit :=
  s ← mget;
  _ ← kassert (negb (cpu_exists s) || kprintf_spinlock s);
  _ ← mmodify (with_spin false);
  if cpu_exists s then mmodify (with_ipl (t_iplhigh_count s - 1)) else mret tt.

Definition con_open : M cst Z := mret 0.
Definition con_close : M cst Z := mret 0.
Definition con_ioctl : M cst Z := mret EINVAL.
(** The loop of [con_io], one character at a time. *)
Fixpoint con_io_loop (fuel : nat) (u : sio) : M cst (Z * sio) :=
  match fuel with
  | O => mstop NoFuel
  | S fuel' =>
      if 0 <? u_resid u then
        match u_rw u with
        | UIO_READ =>
            ch ← getch;
            let ch := if ch =? c_return then c_newline else ch in
            '(result, _, u) ← mlift (umove [ch] u);
            if negb (result =? 0) then mret (result, u)
            else if ch =? c_newline then mret (0, u)
            else con_io_loop fuel' u
        | UIO_WRITE =>
            '(result, b, u) ← mlift (umove [0] u);
            if negb (result =? 0) then mret (result, u)
            else
              let ch := default 0 (head b) in
              _ ← (if ch =? c_newline then putch c_return else mret tt);
              _ ← putch ch;
              con_io_loop fuel' u
        end
      else mret (0, u)
  end.
Definition con_io (u : sio) : M cst (Z * sio) :=
  let '(get, set) := match u_rw u with
                     | UIO_READ => (con_userlock_read, with_rlock)
                     | UIO_WRITE => (con_userlock_write, with_wlock)
                     end in
  l ← mgets get;
  _ ← kassert (bool_decide (is_Some l));
  _ ← lock_acquire get set;
  r ← con_io_loop (S (Z.to_nat (u_resid u))) u;
  _ ← lock_release get set;
  mret r.
(** The results of [kmalloc] and of [vfs_adddev] are arguments. *)
Definition attach_console_to_vfs (have_mem : bool) (added : Z) : M cst Z :=
  if negb have_mem then mret ENOMEM
  else if negb (added =? 0) then mret added else mret 0.
(** [config_con]; the four flags say whether the semaphores and the locks can be
    created.  What was created is destroyed again when a later one cannot be. *)
Definition config_con (rsem wsem rlk wlk : bool) (have_mem : bool) (added unit : Z) : M cst Z :=
  c ← mgets the_console;
  if 0 <? unit then _ ← kassert c; mret ENODEV
  else
    _ ← kassert (negb c);
    if negb rsem then mret ENOMEM
    else if negb wsem then mret ENOMEM
    else if negb rlk then mret ENOMEM
    else if negb wlk then mret ENOMEM
    else
      _ ← mmodify (with_console true);
      _ ← mmodify (with_rlock (Some false));
      _ ← mmodify (with_wlock (Some false));
      _ ← flush_delay_buf;
      attach_console_to_vfs have_mem added.

(** ** kprintf.c *)
Definition kprintf_bootstrap (have_mem : bool) : M cst unit :=
  l ← mgets kprintf_lock;
  _ ← kassert (bool_decide (l = None));
  if negb have_mem then mstop KPanic
  else _ ← mmodify (with_plock (Some false)); mmodify (with_spin false).
Definition console_send (data : chars) : M cst unit := putch_all data.
Definition dolock : M cst bool :=
  l ← mgets kprintf_lock;
  if bool_decide (l = None) then mret false
  else
    i ← cur t_in_interrupt;
    if (i : bool) then mret false else n ← cur t_iplhigh_count; mret (n =? 0).
Definition kprintf (fmt : chars) (args : list arg) : M cst Z :=
  d ← dolock;
  _ ← (if (d : bool) then lock_acquire kprintf_lock with_plock else spinlock_acquire);
  _ ← putch_prepare;
  n ← __vprintf console_send fmt args;
  _ ← putch_complete;
  _ ← (if (d : bool) then lock_release kprintf_lock with_plock else spinlock_release);
  mret n.
(** What [panic] does in each value of [evil]; an action that panics itself
    starts [panic] over, and nothing returns. *)
Inductive panic_action := Splhigh | ThreadPanic | PrintMessage | SyncDisks | MainbusPanic.
Fixpoint panic (fuel : nat) (panics : panic_action -> bool) (evil : Z) (log : list panic_action) : option (list panic_action) :=
  match fuel with
  | O => None
  | S fuel' =>
      let run (k : Z) (a : panic_action) (next : Z -> list panic_action -> option (list panic_action)) (e : Z) (l : list panic_action) :=
        if e =? k then
          if panics a then panic fuel' panics (k + 1) (l ++ [a]) else next (k + 1) (l ++ [a])
        else next e l in
      run 0 Splhigh (run 1 ThreadPanic (run 2 PrintMessage (run 3 SyncDisks (run 4 MainbusPanic (fun _ l => Some l))))) evil log
  end.

(** ** beep.c *)
Definition config_beep (unit : Z) : M cst Z :=
  if negb (unit =? 0) then mret ENODEV
  else b ← mgets the_beep; _ ← kassert (negb b); _ ← mmodify (with_beep true); mret 0.
(** "beep: Warning: no beep device" *)
Definition no_beep : chars :=
  [98; 101; 101; 112; 58; 32; 87; 97; 114; 110; 105; 110; 103; 58; 32; 110; 111; 32; 98; 101; 101; 112; 32; 100; 101; 118; 105; 99; 101; 10].
Definition beep : M cst unit :=
  b ← mgets the_beep;
  if (b : bool) then mmodify (fun s => with_beeps (beeps s + 1) s)
  else _ ← kprintf no_beep []; mret tt.

(** ** kgets.c *)
Definition backsp : M cst unit := _ ← putch c_backspace; _ ← putch c_space; putch c_backspace.
(** [buf[i] = c] *)
Definition put_buf (buf : list Z) (i c : Z) : outcome (list Z) :=
  if (0 <=? i) && (i <? Z.of_nat (length buf)) then Done (<[Z.to_nat i := c]> buf) else Stop BadAccess.
Definition get_buf (buf : list Z) (i : Z) : outcome Z :=
  match buf !! Z.to_nat i with Some c => if 0 <=? i then Done c else Stop BadAccess | None => Stop BadAccess end.
(** [while (pos > 0) { backsp(); pos--; }] *)
Fixpoint erase (n : nat) : M cst unit :=
  match n with
  | O => mret tt
  | S n' => _ ← backsp; erase n'
  end.
(** [while (pos > 0 && test(buf[pos-1])) { backsp(); pos--; }] *)
Fixpoint erase_while (test : Z -> bool) (buf : list Z) (n : nat) : M cst nat :=
  match n with
  | O => mret O
  | S n' =>
      c ← mlift (get_buf buf (Z.of_nat n'));
      if test c then _ ← backsp; erase_while test buf n' else mret (S n')
  end.
(** The string at the start of a buffer. *)
Fixpoint cstring (buf : list Z) : chars :=
  match buf with
  | [] => []
  | c :: r => if c =? 0 then [] else c :: cstring r
  end.
(** "^R", newline, "%s" *)
Definition reprint : chars := [94; 82; 10; 37; 115].
Fixpoint kgets_loop (fuel : nat) (maxlen : Z) (buf : list Z) (pos : Z) : M cst (list Z * Z) :=
  match fuel with
  | O => mstop NoFuel
  | S fuel' =>
      ch ← getch;
      if (ch =? c_newline) || (ch =? c_return) then _ ← putch c_newline; mret (buf, pos)
      else if (32 <=? ch) && (ch <? 127) && (pos <? u32 (maxlen - 1)) then
        _ ← putch ch;
        buf ← mlift (put_buf buf pos ch);
        kgets_loop fuel' maxlen buf (u32 (pos + 1))
      else if ((ch =? c_backspace) || (ch =? 127)) && (0 <? pos) then
        _ ← backsp; kgets_loop fuel' maxlen buf (pos - 1)
      else if ch =? 3 then
        _ ← putch 94; _ ← putch 67; _ ← putch c_newline; mret (buf, 0)
      else if ch =? 18 then
        buf ← mlift (put_buf buf pos 0);
        _ ← kprintf reprint [AStr (Some (cstring buf))];
        kgets_loop fuel' maxlen buf pos
      else if ch =? 21 then
        _ ← erase (Z.to_nat pos); kgets_loop fuel' maxlen buf 0
      else if ch =? 23 then
        n ← erase_while (fun c => c =? c_space) buf (Z.to_nat pos);
        n ← erase_while (fun c => negb (c =? c_space)) buf n;
        kgets_loop fuel' maxlen buf (Z.of_nat n)
      else _ ← beep; kgets_loop fuel' maxlen buf pos
  end.
Definition kgets (maxlen : Z) (buf : list Z) : M cst (list Z) :=
  n ← mgets (fun s => length (keys s));
  '(buf, pos) ← kgets_loop (S n) maxlen buf 0;
  mlift (put_buf buf pos 0).

(** ** Printing *)

(** The state after the characters [l] have been printed. *)
Definition say (l : list Z) (s : cst) : cst :=
  if the_console s then with_out (out s ++ map u8 l) s else with_delayed (delayed_outbuf s ++ map u8 l) s.
(** There is a place for [n] characters. *)
Definition can_print (n : Z) (s : cst) : Prop :=
  if the_console s then cpu_exists s = true else Z.of_nat (length (delayed_outbuf s)) + n <= DELAYBUFSIZE.
(** No [kprintf] is under way in this thread, and the parts exist in the order
    in which the kernel starts them. *)
Record quiet (s : cst) : Prop := Quiet {
  quiet_lock : kprintf_lock s <> Some true;
  quiet_spin : kprintf_spinlock s = false;
  quiet_poll : polling s = false;
  quiet_ipl : 0 <= t_iplhigh_count s;
  quiet_cpu : cpu_exists s = false -> the_console s = false /\ kprintf_lock s = None
}.

Lemma putch_ok c s : can_print 1 s -> putch c s = Done (tt, say [c] s).
Proof.
  unfold can_print, say, putch, putch_delayed, polled, cur. mrun. intros H. destruct (the_console s) eqn:Hc; cbn [negb].
  - rewrite H. unfold putch_polled, putch_intr, send. mrun. rewrite ?Hc, ?H. destruct (t_in_interrupt s || (0 <? t_iplhigh_count s)); reflexivity.
  - rewrite (proj2 (Z.ltb_lt _ _)) by lia. done.
Qed.
Lemma say_console l s : the_console (say l s) = the_console s.
Proof. unfold say. by destruct (the_console s) eqn:Hc. Qed.
Lemma can_print_say l n s : 0 <= n -> can_print (slen l + n) s -> can_print n (say l s).
Proof.
  unfold can_print. rewrite say_console. unfold say. destruct (the_console s); [done|]. cbn.
  rewrite length_app, length_map. unfold slen. lia.
Qed.
Lemma can_print_le n m s : n <= m -> can_print m s -> can_print n s.
Proof. unfold can_print. destruct (the_console s); [done|lia]. Qed.
Lemma say_nil s : say [] s = s.
Proof. unfold say. destruct s as [[]]; cbn; by rewrite app_nil_r. Qed.
Lemma say_app l1 l2 s : say (l1 ++ l2) s = say l2 (say l1 s).
Proof. destruct s as [[]]; unfold say; cbn; by rewrite map_app, app_assoc. Qed.
Lemma putch_all_ok l s : can_print (slen l) s -> putch_all l s = Done (tt, say l s).
Proof.
  revert s. induction l as [|c l IH]; intros s H; [by rewrite say_nil|]. cbn [putch_all].
  assert (slen (c :: l) = slen [c] + slen l) as E by (unfold slen; cbn [length]; lia). rewrite E in H.
  erewrite bind_Done; [|apply putch_ok; eapply can_print_le; [|exact H]; unfold slen; cbn [length]; lia].
  rewrite IH; [by rewrite <- say_app|]. apply can_print_say; [unfold slen; lia|done].
Qed.
Lemma console_send_all l s : can_print (slen (concat l)) s -> send_all console_send l s = Done (tt, say (concat l) s).
Proof.
  revert s. induction l as [|t l IH]; intros s H; [cbn; by rewrite say_nil|]. cbn [send_all concat] in *.
  assert (slen (t ++ concat l) = slen t + slen (concat l)) as E by (unfold slen; rewrite length_app; lia). rewrite E in H.
  erewrite bind_Done; [|apply putch_all_ok; eapply can_print_le; [|exact H]; unfold slen; lia].
  rewrite IH; [by rewrite say_app|]. apply can_print_say; [unfold slen; lia|done].
Qed.
Lemma vprintf_console fmt args o s : says fmt args o -> can_print (slen o) s ->
  __vprintf console_send fmt args s = Done (s32 (slen o), say o s).
Proof.
  intros H Hc. destruct (says_emits console_send fmt args o H 0 eq_refl) as (l & p & Hl & He & Hn).
  unfold __vprintf. change (endfield _) with (idle args 0). rewrite He, console_send_all by by rewrite Hl.
  by rewrite Hn, Hl.
Qed.

(** The parts of [kprintf] around the printing. *)
Definition polls (s : cst) : bool := the_console s && (t_in_interrupt s || (0 <? t_iplhigh_count s)).
Definition started (s : cst) : Prop := the_console s = true -> cpu_exists s = true.
Lemma putch_prepare_ok s : started s -> putch_prepare s = Done (tt, if polls s then with_polling true s else s).
Proof.
  unfold started, polls, putch_prepare, polled, cur. mrun. destruct (the_console s); [|done]. intros H.
  cbn [negb andb]. rewrite !(H eq_refl). by destruct (t_in_interrupt s || _).
Qed.
Lemma putch_complete_ok s : started s -> putch_complete s = Done (tt, if polls s then with_polling false s else s).
Proof.
  unfold started, polls, putch_complete, polled, cur. mrun. destruct (the_console s); [|done]. intros H.
  cbn [negb andb]. rewrite !(H eq_refl). by destruct (t_in_interrupt s || _).
Qed.
Definition enter (d : bool) (s : cst) : cst :=
  if d then with_plock (Some true) s
  else let s' := with_spin true s in if cpu_exists s then with_ipl (t_iplhigh_count s + 1) s' else s'.
Definition leave (d : bool) (s : cst) : cst :=
  if d then with_plock (Some false) s
  else let s' := with_spin false s in if cpu_exists s then with_ipl (t_iplhigh_count s - 1) s' else s'.
Definition locks (s : cst) : bool :=
  bool_decide (kprintf_lock s <> None) && negb (t_in_interrupt s) && (t_iplhigh_count s =? 0).
Lemma dolock_ok s : quiet s -> dolock s = Done (locks s, s).
Proof.
  intros [_ _ _ _ Hc]. unfold dolock, locks, cur. mrun.
  destruct s as [? ? ? ? ? ? ? [] [] ? [] ? ? ?]; cbn in *; try done; by destruct Hc.
Qed.
Lemma acquire_ok s : quiet s ->
  (if locks s then lock_acquire kprintf_lock with_plock else spinlock_acquire) s = Done (tt, enter (locks s) s).
Proof.
  intros [Hl Hs _ _ Hc]. destruct (locks s) eqn:E; unfold enter.
  - unfold locks in E. apply andb_prop in E as [E _]. apply andb_prop in E as [E Hi]. apply bool_decide_eq_true in E.
    unfold lock_acquire, cur. mrun.
    destruct s as [? ? ? ? ? ? ? [] [] ? [[]|] ? ? ?]; cbn in *; try done; by destruct Hc.
  - unfold spinlock_acquire. mrun. rewrite Hs. by destruct (cpu_exists s).
Qed.
Lemma release_ok d s : (if d : bool then is_Some (kprintf_lock s) else kprintf_spinlock s = true) ->
  (if d then lock_release kprintf_lock with_plock else spinlock_release) s = Done (tt, leave d s).
Proof.
  destruct d; intros H; unfold leave.
  - unfold lock_release. mrun. by rewrite bool_decide_eq_true_2 by done.
  - unfold spinlock_release. mrun. rewrite H, orb_true_r. by destruct (cpu_exists s).
Qed.
(** What was changed around the printing is as before. *)
Lemma restored o s : quiet s -> can_print (slen o) s ->
  let d := locks s in
  let s1 := enter d s in
  let s2 := if polls s1 then with_polling true s1 else s1 in
  let s3 := say o s2 in
  let s4 := if polls s3 then with_polling false s3 else s3 in
  started s1 /\ can_print (slen o) s2 /\ started s3 /\
  (if d then is_Some (kprintf_lock s4) else kprintf_spinlock s4 = true) /\ leave d s4 = say o s.
Proof.
  intros [Hl Hs Hp Hi Hc] Hr. destruct s as [con bp del ou ks pl bs cpu int ipl lk sp rl wl].
  unfold started, can_print, locks, polls, say in *. cbn in *. subst sp pl.
  destruct lk as [[]|], int, con, cpu; cbn in *; try done; try (by destruct Hc);
    try (destruct (Z.eqb_spec ipl 0) as [->|?]); cbn;
    repeat (rewrite (proj2 (Z.ltb_lt 0 (ipl + 1))) by lia; cbn);
    rewrite ?Z.add_simpl_r; split_and!; first [done | by eexists].
Qed.
Lemma kprintf_ok fmt args o s : says fmt args o -> quiet s -> can_print (slen o) s ->
  kprintf fmt args s = Done (s32 (slen o), say o s).
Proof.
  intros Ho Hq Hr. destruct (restored o s Hq Hr) as (H1 & H2 & H3 & H4 & H5). unfold kprintf.
  erewrite bind_Done by by apply dolock_ok. erewrite bind_Done by by apply acquire_ok.
  erewrite bind_Done by by apply putch_prepare_ok. erewrite bind_Done by by apply vprintf_console.
  erewrite bind_Done by by apply putch_complete_ok. erewrite bind_Done by by apply release_ok.
  unfold mret, M_ret. by rewrite H5.
Qed.

(** ** From the first message to the console

    The messages of a kernel that starts: with no thread, with interrupts off,
    with interrupts on but no console, with the console but without the lock of
    [kprintf], and with all.  A message is a format, its arguments and its text. *)
Definition message := (chars * list arg * chars)%type.
Definition text (ms : list message) : chars := concat (map snd ms).
Fixpoint kprintf_all (ms : list message) : M cst unit :=
  match ms with
  | [] => mret tt
  | (fmt, args, _) :: r => _ ← kprintf fmt args; kprintf_all r
  end.
Definition startup (m1 m2 m3 m4 m5 : list message) (have_mem : bool) (added : Z) : M cst Z :=
  _ ← kprintf_all m1;
  _ ← mmodify (fun s => with_ipl 1 (with_cpu true s));
  _ ← kprintf_all m2;
  _ ← mmodify (with_ipl 0);
  _ ← kprintf_all m3;
  r ← config_con true true true true have_mem added 0;
  _ ← kprintf_all m4;
  _ ← kprintf_bootstrap true;
  _ ← kprintf_all m5;
  mret r.
(** The variables as the kernel is loaded. *)
Definition loaded (ks : list Z) : cst := Cst false false [] [] ks false 0 false false 0 None false None None.
Definition well_said : list message -> Prop := Forall (fun '(fmt, args, o) => says fmt args o).

Lemma kprintf_all_ok ms s : well_said ms -> quiet s -> can_print (slen (text ms)) s ->
  kprintf_all ms s = Done (tt, say (text ms) s).
Proof.
  intros H. revert s. induction H as [|[[fmt args] o] ms Ho _ IH]; intros s Hq Hc; [cbn; by rewrite say_nil|].
  change (text ((fmt, args, o) :: ms)) with (o ++ text ms) in *. cbn [kprintf_all].
  rewrite (slen_app o) in Hc. assert (0 <= slen (text ms)) by (unfold slen; lia).
  erewrite bind_Done; [|apply kprintf_ok; [exact Ho|done|eapply can_print_le; [|exact Hc]; lia]].
  rewrite say_app. apply IH; [|by apply can_print_say].
  destruct Hq. split; unfold say; by destruct (the_console s) eqn:E; cbn; rewrite ?E.
Qed.
Lemma config_con_ok have_mem added s : the_console s = false -> cpu_exists s = true ->
  config_con true true true true have_mem added 0 s =
    Done (if have_mem then added else ENOMEM,
          with_delayed [] (with_out (out s ++ map u8 (delayed_outbuf s))
            (with_wlock (Some false) (with_rlock (Some false) (with_console true s))))).
Proof.
  intros Hc Hp. unfold config_con, flush_delay_buf. mrun. rewrite Hc. cbn.
  rewrite putch_all_ok by (unfold can_print; cbn; done). unfold attach_console_to_vfs. mrun.
  destruct have_mem; cbn; [|done]. destruct (Z.eqb_spec added 0) as [->|]; done.
Qed.
Lemma map_u8_idem l : map u8 (map u8 l) = map u8 l.
Proof. rewrite map_map. apply map_ext. intros x. apply uwrap_idem. Qed.
Lemma text_app m1 m2 : text (m1 ++ m2) = text m1 ++ text m2.
Proof. unfold text. by rewrite map_app, concat_app. Qed.

(** Printing, on explicit states. *)
Lemma kprintf_early ms bp d o ks bs cpu ipl : well_said ms -> 0 <= ipl ->
  slen d + slen (text ms) <= DELAYBUFSIZE ->
  kprintf_all ms (Cst false bp d o ks false bs cpu false ipl None false None None) =
    Done (tt, Cst false bp (d ++ map u8 (text ms)) o ks false bs cpu false ipl None false None None).
Proof. intros Hw Hi Hl. rewrite kprintf_all_ok; [done|done|by split|done]. Qed.
Lemma kprintf_late ms bp d o ks bs ipl lk rl wl : well_said ms -> 0 <= ipl -> lk <> Some true ->
  kprintf_all ms (Cst true bp d o ks false bs true false ipl lk false rl wl) =
    Done (tt, Cst true bp d (o ++ map u8 (text ms)) ks false bs true false ipl lk false rl wl).
Proof. intros Hw Hi Hl. rewrite kprintf_all_ok; [done|done|by split|done]. Qed.
Ltac cst_norm := cbv beta iota delta [with_ipl with_cpu with_delayed with_out with_wlock with_rlock with_console with_plock with_spin
  the_console the_beep delayed_outbuf out keys polling beeps cpu_exists t_in_interrupt t_iplhigh_count kprintf_lock
  kprintf_spinlock con_userlock_read con_userlock_write].

(** C25: What the kernel prints from its first message on comes out on the
    console, whole and in order, whatever could be printed at once and whatever
    had to wait for the console, if what had to wait fits its buffer. *)
Theorem startup_prints m1 m2 m3 m4 m5 have_mem added ks :
  well_said (m1 ++ m2 ++ m3 ++ m4 ++ m5) -> slen (text (m1 ++ m2 ++ m3)) <= DELAYBUFSIZE ->
  exists s, startup m1 m2 m3 m4 m5 have_mem added (loaded ks) = Done (if have_mem then added else ENOMEM, s) /\
    out s = map u8 (text (m1 ++ m2 ++ m3 ++ m4 ++ m5)) /\ delayed_outbuf s = [] /\ quiet s.
Proof.
  unfold well_said. rewrite !Forall_app, !text_app, !slen_app. intros (W1 & W2 & W3 & W4 & W5) Hlen. unfold startup.
  assert (0 <= slen (text m1) /\ 0 <= slen (text m2) /\ 0 <= slen (text m3)) as (P1 & P2 & P3) by (unfold slen; lia).
  assert (slen [] = 0) as P0 by done.
  unfold loaded. erewrite bind_Done by (apply kprintf_early; [done|lia|lia]).
  erewrite bind_Done by reflexivity. cst_norm.
  assert (forall l, slen (map u8 l) = slen l) as Hm by (intros l; unfold slen; by rewrite length_map).
  erewrite bind_Done by (apply kprintf_early; [done|lia|cbn [app]; rewrite Hm; lia]).
  erewrite bind_Done by reflexivity. cst_norm.
  erewrite bind_Done by (apply kprintf_early; [done|lia|cbn [app]; rewrite slen_app, !Hm; lia]).
  erewrite bind_Done by by apply config_con_ok. cst_norm.
  erewrite bind_Done by by apply kprintf_late.
  erewrite bind_Done by reflexivity. cst_norm.
  erewrite bind_Done by by apply kprintf_late.
  eexists. split; [reflexivity|]. cst_norm. split_and!; [|done|by split].
  by rewrite !map_app, !map_u8_idem, <- !app_assoc.
Qed.
(** Without a console there is room for [DELAYBUFSIZE] characters and no more. *)
Lemma early_overflow c s : the_console s = false -> Z.of_nat (length (delayed_outbuf s)) = DELAYBUFSIZE ->
  putch c s = Stop KAssertFail.
Proof. intros Hc Hl. unfold putch, putch_delayed. mrun. rewrite Hc. cbn. by rewrite Hl. Qed.

(** ** Reading and writing the device *)
Definition crlf (l : list Z) : list Z := concat (map (fun c => if c =? c_newline then [c_return; c] else [c]) l).
Definition cr_to_nl (c : Z) : Z := if c =? c_return then c_newline else c.
(** What a read of [n] bytes gives when the user has memory for [room] and types
    [ks]: the result, the bytes and the keys left; [None] when it waits for more.
    The key that finds no memory is lost. *)
Fixpoint reads (n room : nat) (ks : list Z) : option (Z * list Z * list Z) :=
  match n, ks with
  | O, _ => Some (0, [], ks)
  | S _, [] => None
  | S n', k :: r =>
      match room with
      | O => Some (EFAULT, [], r)
      | S room' =>
          let c := cr_to_nl (u8 k) in
          if c =? c_newline then Some (0, [c], r)
          else '(e, l, r') ← reads n' room' r; Some (e, c :: l, r')
      end
  end.
(** A uio with one iovec, of which the first [u_room] bytes can be accessed. *)
Record fits (u : sio) : Prop := Fits {
  fits_off : 0 <= u_off u /\ u_off u + u_resid u < 2 ^ 63;
  fits_resid : 0 <= u_resid u < 2 ^ 32;
  fits_len : u_resid u <= u_len u /\ 0 <= u_room u;
  fits_data : u_rw u = UIO_WRITE -> u_resid u <= Z.of_nat (length (u_data u))
}.
(** [u'] is [u] after [n] bytes. *)
Record moved_on (n : Z) (u u' : sio) : Prop := MovedOn {
  on_rw : u_rw u' = u_rw u;
  on_off : u_off u' = u_off u + n;
  on_resid : u_resid u' = u_resid u - n;
  on_room : u_room u' = u_room u - n
}.
(** A thread that may do I/O. *)
Record at_ease (s : cst) : Prop := AtEase {
  ease_console : the_console s = true;
  ease_cpu : cpu_exists s = true;
  ease_int : t_in_interrupt s = false;
  ease_ipl : t_iplhigh_count s = 0
}.

Lemma umove_byte b u : fits u -> 0 < u_resid u -> 0 < u_room u ->
  umove [b] u = Done (0, filled u 1 [b], took u 1 [b]) /\ moved_on 1 u (took u 1 [b]) /\ fits (took u 1 [b]).
Proof.
  intros [F1 F2 F3 F4] Hr Hm. unfold umove. change (Z.of_nat (length [b])) with 1.
  rewrite (proj2 (Z.ltb_lt 0 (u_resid u))) by done. change (0 <? 1) with true. cbn [andb].
  assert ((if 1 <? u_len u then 1 else u_len u) = 1) as -> by (destruct (Z.ltb_spec 1 (u_len u)); lia).
  change (1 =? 0) with false. cbn iota. rewrite (proj2 (Z.ltb_ge (u_room u) 1)) by lia.
  assert (s64 (u_off u + 1) = u_off u + 1) as Ho by (unfold s64, swrap; dlia).
  assert (u32 (u_resid u - 1) = u_resid u - 1) as He by (unfold u32, uwrap; dlia).
  split; [done|]. split; [by split|]. split; cbn; rewrite ?Ho, ?He; [lia|lia|lia|].
  intros Hw. rewrite Hw, length_drop. specialize (F4 Hw). lia.
Qed.
Lemma umove_fault b u : fits u -> 0 < u_resid u -> u_room u = 0 -> umove [b] u = Done (EFAULT, [b], u).
Proof.
  intros [F1 F2 F3 F4] Hr Hm. unfold umove. change (Z.of_nat (length [b])) with 1.
  rewrite (proj2 (Z.ltb_lt 0 (u_resid u))) by done. change (0 <? 1) with true. cbn [andb].
  assert ((if 1 <? u_len u then 1 else u_len u) = 1) as -> by (destruct (Z.ltb_spec 1 (u_len u)); lia).
  unfold faulted, filled. rewrite Hm. by destruct (u_user u <? 1), (u_rw u).
Qed.
Lemma getch_ok k ks s : at_ease s -> keys s = k :: ks -> getch s = Done (u8 k, with_keys ks s).
Proof.
  intros [H1 H2 H3 H4] Hk. unfold getch, getch_intr, cur. mrun. rewrite H1.
  cbn. rewrite H2. cbn. rewrite H2, H3, H4. cbn. by rewrite Hk.
Qed.
Lemma getch_blocks s : at_ease s -> keys s = [] -> getch s = Stop Blocked.
Proof.
  intros [H1 H2 H3 H4] Hk. unfold getch, getch_intr, cur. mrun. rewrite H1.
  cbn. rewrite H2. cbn. rewrite H2, H3, H4. cbn. by rewrite Hk.
Qed.
Lemma at_ease_say l s : at_ease s -> at_ease (say l s).
Proof. intros []. by split; unfold say; destruct (the_console s) eqn:E. Qed.
Lemma ease_prints n s : at_ease s -> can_print n s.
Proof. intros [H1 H2 _ _]. unfold can_print. by rewrite H1. Qed.
Lemma moved_on_trans n m u u' u'' : moved_on n u u' -> moved_on m u' u'' -> moved_on (n + m) u u''.
Proof. intros [] []. split; [congruence|lia|lia|lia]. Qed.
Lemma moved_on_refl u : moved_on 0 u u.
Proof. split; [done|lia|lia|lia]. Qed.

Lemma crlf_cons c l : crlf (c :: l) = crlf [c] ++ crlf l.
Proof. unfold crlf. cbn [map concat]. by rewrite app_nil_r. Qed.

Lemma con_write_loop fuel u s : fits u -> u_rw u = UIO_WRITE -> at_ease s -> u_resid u < Z.of_nat fuel ->
  let n := Z.min (u_resid u) (u_room u) in
  exists u', con_io_loop fuel u s = Done ((if u_room u <? u_resid u then EFAULT else 0, u'), say (crlf (take (Z.to_nat n) (u_data u))) s) /\
    moved_on n u u' /\ u_data u' = drop (Z.to_nat n) (u_data u).
Proof.
  revert u s. induction fuel as [|fuel IH]; intros u s Hf Hw He Hl n; [destruct Hf; lia|]. cbn [con_io_loop].
  pose proof Hf as [F1 F2 F3 F4]. specialize (F4 Hw).
  destruct (Z.ltb_spec 0 (u_resid u)) as [Hp|Hp].
  2: { exists u. assert (n = 0) as -> by lia. rewrite (proj2 (Z.ltb_ge _ _)) by lia. cbn. rewrite say_nil. split; [done|]. split; [apply moved_on_refl|done]. }
  rewrite Hw. destruct (decide (u_room u = 0)) as [Hz|Hz].
  { exists u. assert (n = 0) as -> by lia. rewrite (proj2 (Z.ltb_lt _ _)) by lia. cbn. rewrite say_nil.
    unfold mlift. mrun. rewrite umove_fault by done. split; [done|]. split; [apply moved_on_refl|done]. }
  destruct (umove_byte 0 u Hf Hp ltac:(lia)) as (Hu & Hon & Hf'). set (u1 := took u 1 [0]) in *.
  destruct (u_data u) as [|c data] eqn:Hd; [cbn in F4; lia|].
  assert (filled u 1 [0] = [c]) as Hfi by (unfold filled; by rewrite Hw, Hd).
  assert (u_data u1 = data) as Hd1 by (unfold u1, took; cbn; by rewrite Hw, Hd).
  destruct Hon as [O1 O2 O3 O4].
  destruct (IH u1 (say (crlf [c]) s)) as (u' & Hr & Hm & Hdr); [done|congruence|by apply at_ease_say|lia|].
  exists u'. rewrite O3, O4 in Hr, Hm, Hdr. rewrite Hd1 in Hr, Hdr.
  assert (Z.min (u_resid u - 1) (u_room u - 1) = n - 1) as En by lia. rewrite En in Hr, Hm, Hdr.
  assert (Z.to_nat n = S (Z.to_nat (n - 1))) as Es by lia. rewrite Es. cbn [take drop].
  split; [|split; [|done]].
  2: { replace n with (1 + (n - 1)) by lia. eapply moved_on_trans; [|exact Hm]. by split. }
  assert ((u_room u - 1 <? u_resid u - 1) = (u_room u <? u_resid u)) as Eb by (destruct (Z.ltb_spec (u_room u) (u_resid u)); [apply Z.ltb_lt|apply Z.ltb_ge]; lia).
  rewrite Eb in Hr. rewrite crlf_cons, say_app, <- Hr. unfold mlift. mrun. rewrite Hu, Hfi. cbn [negb Z.eqb default head].
  change (0 =? 0) with true. cbn [negb]. change (id c) with c. unfold crlf. cbn [map concat app]. destruct (c =? c_newline); cbn [app].
  - rewrite putch_ok by by apply ease_prints. rewrite putch_ok by by apply ease_prints, at_ease_say. by rewrite <- say_app.
  - rewrite putch_ok by by apply ease_prints. done.
Qed.

Lemma with_keys_id s : with_keys (keys s) s = s.
Proof. by destruct s. Qed.
Lemma con_read_loop fuel u s : fits u -> u_rw u = UIO_READ -> at_ease s -> u_resid u < Z.of_nat fuel ->
  match reads (Z.to_nat (u_resid u)) (Z.to_nat (u_room u)) (keys s) with
  | Some (e, l, r) => exists u', con_io_loop fuel u s = Done ((e, u'), with_keys r s) /\
      moved_on (slen l) u u' /\ u_data u' = u_data u ++ l
  | None => con_io_loop fuel u s = Stop Blocked
  end.
Proof.
  revert u s. induction fuel as [|fuel IH]; intros u s Hf Hw He Hl; [destruct Hf; lia|]. cbn [con_io_loop].
  pose proof Hf as [F1 F2 F3 _]. destruct (Z.ltb_spec 0 (u_resid u)) as [Hp|Hp].
  2: { assert (u_resid u = 0) as -> by lia. cbn. exists u. rewrite with_keys_id, app_nil_r. split; [done|]. split; [apply moved_on_refl|done]. }
  rewrite Hw. destruct (Z.to_nat (u_resid u)) as [|n] eqn:En; [lia|]. cbn [reads].
  destruct (keys s) as [|k ks] eqn:Hk; [by rewrite (bind_Stop _ _ _ _ (getch_blocks s He Hk))|].
  pose proof (getch_ok k ks s He Hk) as Hg.
  destruct (Z.to_nat (u_room u)) as [|room] eqn:Em.
  { exists u. split; [|split; [apply moved_on_refl|by rewrite app_nil_r]].
    erewrite bind_Done by exact Hg. mrun. by rewrite umove_fault by (done || lia). }
  fold (cr_to_nl (u8 k)). set (c := cr_to_nl (u8 k)).
  destruct (umove_byte c u Hf Hp ltac:(lia)) as (Hu & Hon & Hf'). set (u1 := took u 1 [c]) in *.
  assert (u_data u1 = u_data u ++ [c]) as Hd1 by (unfold u1, took; cbn; by rewrite Hw).
  assert (con_io_loop (S fuel) u s = if c =? c_newline then Done ((0, u1), with_keys ks s) else con_io_loop fuel u1 (with_keys ks s)) as Hstep.
  { cbn [con_io_loop]. rewrite (proj2 (Z.ltb_lt _ _)), Hw by lia. erewrite bind_Done by exact Hg.
    fold (cr_to_nl (u8 k)). fold c. mrun. rewrite Hu. cbn. by destruct (c =? c_newline). }
  cbn [con_io_loop] in Hstep. rewrite (proj2 (Z.ltb_lt _ _)), Hw in Hstep by lia. rewrite Hstep. clear Hstep.
  destruct (c =? c_newline) eqn:Ec; [exists u1; by split_and!|].
  destruct Hon as [O1 O2 O3 O4]. specialize (IH u1 (with_keys ks s) Hf' ltac:(congruence)).
  rewrite O3, O4 in IH. replace (Z.to_nat (u_resid u - 1)) with n in IH by lia. replace (Z.to_nat (u_room u - 1)) with room in IH by lia.
  change (keys (with_keys ks s)) with ks in IH. specialize (IH ltac:(by destruct He) ltac:(lia)).
  destruct (reads n room ks) as [[[e l] r]|]; cbn; [|done]. destruct IH as (u' & Hr & Hm & Hd). exists u'. split; [exact Hr|].
  split; [|by rewrite Hd, Hd1, <- app_assoc]. replace (slen (c :: l)) with (1 + slen l) by (unfold slen; cbn [length]; lia).
  eapply moved_on_trans; [|exact Hm]. by split.
Qed.

Lemma lock_acquire_ok get set s : at_ease s -> get s = Some false -> lock_acquire get set s = Done (tt, set (Some true) s).
Proof.
  intros [_ H2 H3 _] Hg. unfold lock_acquire, cur. mrun. rewrite Hg. cbn. rewrite H2. cbn. by rewrite H3.
Qed.
Lemma lock_release_ok get set s b : get s = Some b -> lock_release get set s = Done (tt, set (Some false) s).
Proof. intros Hg. unfold lock_release. mrun. by rewrite Hg. Qed.
(** A lock around a computation. *)
Lemma con_io_locked (get : cst -> option bool) set (m : M cst (Z * sio)) s : at_ease s -> get s = Some false ->
  (forall x s, get (set x s) = x) ->
  (l ← mgets get; _ ← kassert (bool_decide (is_Some l)); _ ← lock_acquire get set; r ← m; _ ← lock_release get set; mret r) s =
    match m (set (Some true) s) with
    | Done (r, s') => if bool_decide (is_Some (get s')) then Done (r, set (Some false) s') else Stop KAssertFail
    | Stop f => Stop f
    end.
Proof.
  intros He Hg Hgs. erewrite bind_Done by reflexivity. rewrite Hg. erewrite bind_Done by reflexivity.
  erewrite bind_Done by by apply lock_acquire_ok. unfold lock_release. mrun.
  destruct (m (set (Some true) s)) as [[r s']|]; [|done]. by destruct (bool_decide (is_Some (get s'))).
Qed.

(** C27: Reading the console gives a line, with its end as a newline, or as much
    of it as was asked for; writing prints the bytes with a carriage return
    before every newline.  A transfer that runs out of user memory stops there
    with [EFAULT].  Either way the lock is free again. *)
Theorem con_io_transfers u s : fits u -> at_ease s ->
  match u_rw u with
  | UIO_READ => con_userlock_read s = Some false ->
      match reads (Z.to_nat (u_resid u)) (Z.to_nat (u_room u)) (keys s) with
      | Some (e, l, r) => exists u', con_io u s = Done ((e, u'), with_keys r s) /\
          moved_on (slen l) u u' /\ u_data u' = u_data u ++ l
      | None => con_io u s = Stop Blocked
      end
  | UIO_WRITE => con_userlock_write s = Some false ->
      let n := Z.min (u_resid u) (u_room u) in
      exists u', con_io u s = Done ((if u_room u <? u_resid u then EFAULT else 0, u'),
                                    with_out (out s ++ map u8 (crlf (take (Z.to_nat n) (u_data u)))) s) /\
        moved_on n u u' /\ u_data u' = drop (Z.to_nat n) (u_data u)
  end.
Proof.
  intros Hf He. assert (u_resid u < Z.of_nat (S (Z.to_nat (u_resid u)))) as Hfuel by lia.
  unfold con_io. set (fuel := S (Z.to_nat (u_resid u))) in *. clearbody fuel. destruct (u_rw u) eqn:Hw; intros Hlk.
  - pose proof (con_read_loop fuel u (with_rlock (Some true) s) Hf Hw ltac:(by destruct He) Hfuel) as Hl.
    change (keys (with_rlock _ s)) with (keys s) in Hl. rewrite con_io_locked by done.
    destruct (reads _ _ _) as [[[e l] r]|]; [|by rewrite Hl]. destruct Hl as (u' & -> & Hm & Hd). exists u'.
    split_and!; [|done..]. destruct s; cbn in Hlk |- *. by rewrite Hlk.
  - destruct (con_write_loop fuel u (with_wlock (Some true) s) Hf Hw ltac:(by destruct He) Hfuel) as (u' & Hr & Hm & Hd).
    exists u'. split_and!; [|done..]. rewrite con_io_locked, Hr by done. destruct He as [H1 _ _ _].
    destruct s; cbn in Hlk, H1 |- *. unfold say. cbn. by rewrite H1, Hlk.
Qed.

(** ** The line editor

    A terminal: the lines that are complete, the current one and the cursor.
    A backspace moves the cursor, a character overwrites what is there. *)
Record term := Term { above : list chars; line : chars; col : nat }.
Definition show (t : term) (c : Z) : term :=
  if c =? c_newline then Term (above t ++ [line t]) [] 0
  else if c =? c_backspace then Term (above t) (line t) (col t - 1)
  else Term (above t) (take (col t) (line t) ++ c :: drop (S (col t)) (line t)) (S (col t)).
Definition shown (t : term) (l : list Z) : term := fold_left show l t.
(** The current line is [l], with the cursor behind it and blanks after it. *)
Definition displays (t : term) (l : chars) : Prop :=
  exists n, line t = l ++ replicate n c_space /\ col t = length l.

(** What a key does to a line of at most [n] characters. *)
Fixpoint strip (test : Z -> bool) (l : chars) : chars :=
  match l with
  | [] => []
  | c :: r => if test c then strip test r else c :: r
  end.
Definition strip_end (test : Z -> bool) (l : chars) : chars := reverse (strip test (reverse l)).
Definition is_blank (c : Z) : bool := c =? c_space.
Definition erase_word (l : chars) : chars := strip_end (fun c => negb (is_blank c)) (strip_end is_blank l).
Definition edit_key (n : nat) (l : chars) (k : Z) : chars :=
  if (32 <=? k) && (k <? 127) && (length l <? n)%nat then l ++ [k]
  else if (k =? c_backspace) || (k =? 127) then take (length l - 1) l
  else if k =? 21 then []
  else if k =? 23 then erase_word l
  else l.
(** The line when it ends, whether it was abandoned, and the keys after it. *)
Fixpoint edit (n : nat) (l : chars) (ks : list Z) : option (chars * bool * list Z) :=
  match ks with
  | [] => None
  | k :: r =>
      if (u8 k =? c_newline) || (u8 k =? c_return) then Some (l, false, r)
      else if u8 k =? 3 then Some (l, true, r)
      else edit n (edit_key n l (u8 k)) r
  end.

Lemma shown_app t l1 l2 : shown t (l1 ++ l2) = shown (shown t l1) l2.
Proof. apply fold_left_app. Qed.
Lemma displays_char t l c : c <> c_newline -> c <> c_backspace -> displays t l -> displays (shown t [c]) (l ++ [c]).
Proof.
  intros H1 H2 (n & Hl & Hc). unfold displays, shown, show. cbn.
  rewrite (proj2 (Z.eqb_neq _ _) H1), (proj2 (Z.eqb_neq _ _) H2). cbn. rewrite Hl, Hc, length_app. exists (n - 1)%nat. cbn. split; [|lia].
  rewrite take_app_length, <- app_assoc. f_equal. cbn. f_equal. rewrite drop_app_ge by lia.
  replace (S (length l) - length l)%nat with 1%nat by lia. by destruct n; cbn; rewrite ?Nat.sub_0_r.
Qed.
Lemma displays_chars t l l' : Forall (fun c => 32 <= c < 127) l' -> displays t l -> displays (shown t l') (l ++ l').
Proof.
  intros H. revert t l. induction H as [|c l' Hc _ IH]; intros t l Hd; [by rewrite app_nil_r|].
  change (shown t (c :: l')) with (shown (shown t [c]) l').
  replace (l ++ c :: l') with ((l ++ [c]) ++ l') by by rewrite <- app_assoc.
  apply IH, displays_char; [unfold c_newline; lia|unfold c_backspace; lia|done].
Qed.
Definition rubout : list Z := [c_backspace; c_space; c_backspace].
Lemma displays_rubout t l c : displays t (l ++ [c]) -> displays (shown t rubout) l.
Proof.
  intros (n & Hl & Hc). exists (S n). rewrite length_app in Hc. cbn in Hc. unfold rubout, shown, show. cbn.
  rewrite Hl, Hc. replace (length l + 1 - 1)%nat with (length l) by lia. split; [|lia].
  rewrite <- app_assoc, take_app_length, drop_app_ge by lia. f_equal.
  by replace (S (length l) - length l)%nat with 1%nat by lia.
Qed.
Definition rubouts (n : nat) : list Z := concat (replicate n rubout).
Lemma displays_rubouts n t l : (n <= length l)%nat -> displays t l -> displays (shown t (rubouts n)) (take (length l - n) l).
Proof.
  revert t l. induction n as [|n IH]; intros t l Hn Hd; [by rewrite Nat.sub_0_r, firstn_all|].
  destruct l as [|c l _] using rev_ind; [cbn in Hn; lia|]. rewrite length_app in *. cbn [length] in *.
  change (rubouts (S n)) with (rubout ++ rubouts n). rewrite shown_app.
  replace (length l + 1 - S n)%nat with (length l - n)%nat by lia. rewrite take_app_le by lia.
  apply IH; [lia|]. by eapply displays_rubout.
Qed.

(** ** The editor and its screen *)

(** A line in the buffer of [kgets]. *)
Record typed (maxlen : Z) (buf : list Z) (pos : Z) (l : chars) : Prop := Typed {
  typed_text : take (length l) buf = l;
  typed_pos : pos = slen l;
  typed_fits : slen l < maxlen;
  typed_room : maxlen <= slen buf;
  typed_chars : Forall (fun c => 32 <= c < 127) l
}.
(** A thread that may type: there is something to beep with, and [kprintf] works. *)
Record may_type (s : cst) : Prop := MayType {
  type_ease : at_ease s;
  type_quiet : quiet s;
  type_beep : the_beep s = true
}.
Lemma backsp_ok s : at_ease s -> backsp s = Done (tt, say rubout s).
Proof.
  intros He. unfold backsp, rubout. change [c_backspace; c_space; c_backspace] with ([c_backspace] ++ [c_space] ++ [c_backspace]).
  erewrite bind_Done by by apply putch_ok, ease_prints. erewrite bind_Done by by apply putch_ok, ease_prints, at_ease_say.
  rewrite putch_ok by by apply ease_prints, at_ease_say, at_ease_say. by rewrite !say_app.
Qed.
Lemma erase_ok n s : at_ease s -> erase n s = Done (tt, say (rubouts n) s).
Proof.
  revert s. induction n as [|n IH]; intros s He; [cbn; by rewrite say_nil|]. cbn [erase].
  erewrite bind_Done by by apply backsp_ok. rewrite IH by by apply at_ease_say. by rewrite <- say_app.
Qed.
(** The two loops of the word eraser. *)
Lemma strip_end_snoc test l c : strip_end test (l ++ [c]) = if test c then strip_end test l else l ++ [c].
Proof.
  unfold strip_end. rewrite reverse_snoc. cbn [strip]. destruct (test c); [done|]. by rewrite reverse_cons, reverse_involutive.
Qed.
Lemma strip_end_prefix test l : exists n, (n <= length l)%nat /\ strip_end test l = take (length l - n) l.
Proof.
  induction l as [|c l IH] using rev_ind; [by exists 0%nat|]. rewrite strip_end_snoc, length_app. cbn [length].
  destruct (test c).
  - destruct IH as (n & Hn & E). exists (S n). split; [lia|]. rewrite E, take_app_le by lia. f_equal. lia.
  - exists 0%nat. split; [lia|]. rewrite Nat.sub_0_r, take_ge; [done|rewrite length_app; cbn; lia].
Qed.
Lemma erase_while_ok test buf l s : at_ease s -> take (length l) buf = l ->
  erase_while test buf (length l) s =
    Done (length (strip_end test l), say (rubouts (length l - length (strip_end test l))) s).
Proof.
  revert s. induction l as [|c l IH] using rev_ind; intros s He Hb; [cbn; by rewrite say_nil|].
  rewrite length_app in *. cbn [length] in *. rewrite strip_end_snoc.
  assert (buf !! length l = Some c) as Hc.
  { rewrite <- (take_drop (length l + 1) buf), Hb, lookup_app_l, lookup_app_r, Nat.sub_diag by (rewrite ?length_app; cbn; lia). done. }
  assert (take (length l) buf = l) as Hb'.
  { apply (f_equal (take (length l))) in Hb. by rewrite take_take, take_app_length, Nat.min_l in Hb by lia. }
  rewrite Nat.add_1_r. cbn [erase_while]. unfold get_buf. rewrite Nat2Z.id, Hc, (proj2 (Z.leb_le _ _)) by lia.
  erewrite bind_Done by reflexivity. destruct (test c).
  - erewrite bind_Done by by apply backsp_ok. rewrite IH by (done || by apply at_ease_say). rewrite <- say_app.
    destruct (strip_end_prefix test l) as (n & Hn & E). rewrite E, length_take.
    replace (S (length l) - (length l - n) `min` length l)%nat with (S (length l - (length l - n) `min` length l)) by lia. done.
  - rewrite length_app. cbn [length]. rewrite Nat.add_1_r, Nat.sub_diag. cbn. by rewrite say_nil.
Qed.

(** From one key to the next: what was printed, and what it left on a screen that
    showed the old line behind a prompt. *)
Record stepped (maxlen : Z) (buf : list Z) (l : chars) (s : cst) (buf' : list Z) (l' : chars) (s' : cst) : Prop := Stepped {
  step_typed : typed maxlen buf' (slen l') l';
  step_type : may_type s';
  step_keys : keys s' = keys s;
  step_above : drop (Z.to_nat maxlen) buf' = drop (Z.to_nat maxlen) buf;
  step_screen : exists o, out s' = out s ++ o /\ forall t pre, displays t (pre ++ l) ->
    displays (shown t o) (pre ++ l') \/ displays (shown t o) l'
}.
Lemma may_type_say l s : may_type s -> may_type (say l s).
Proof.
  intros [He [] Hb]. split; [by apply at_ease_say| |].
  - split; unfold say; destruct (the_console s) eqn:E; cbn; rewrite ?E; done.
  - unfold say. by destruct (the_console s).
Qed.
Lemma out_say l s : at_ease s -> out (say l s) = out s ++ map u8 l.
Proof. intros [H _ _ _]. unfold say. by rewrite H. Qed.
Lemma keys_say l s : keys (say l s) = keys s.
Proof. unfold say. by destruct (the_console s). Qed.
Lemma u8_chars l : Forall (fun c => 0 <= c < 256) l -> map u8 l = l.
Proof. induction 1 as [|c l Hc _ IH]; [done|]. cbn. rewrite IH. f_equal. unfold u8, uwrap. apply Z.mod_small. lia. Qed.
Lemma u8_rubouts n : map u8 (rubouts n) = rubouts n.
Proof.
  apply u8_chars. induction n; [constructor|]. change (rubouts (S n)) with (rubout ++ rubouts n). apply Forall_app. split; [|done].
  repeat constructor; unfold c_backspace, c_space; lia.
Qed.
Lemma typed_take maxlen buf l k : typed maxlen buf (slen l) l -> typed maxlen buf (slen (take k l)) (take k l).
Proof.
  intros [H1 _ H3 H4 H5]. assert (slen (take k l) <= slen l) by (unfold slen; rewrite length_take; lia).
  split; [|done|lia|done|by apply Forall_take]. rewrite length_take.
  transitivity (take k (take (length l) buf)); [rewrite take_take; f_equal; lia|by rewrite H1].
Qed.
Lemma stepped_erase maxlen buf l s m : typed maxlen buf (slen l) l -> may_type s -> (m <= length l)%nat ->
  stepped maxlen buf l s buf (take (length l - m) l) (say (rubouts m) s).
Proof.
  intros Ht Hs Hm. split; [by apply typed_take|by apply may_type_say|apply keys_say|done|].
  exists (rubouts m). split; [rewrite out_say by apply Hs; by rewrite u8_rubouts|]. intros t pre Hd. left.
  apply (displays_rubouts m) in Hd; [|rewrite length_app; lia]. rewrite length_app in Hd.
  rewrite take_app_ge in Hd by lia. by replace (length pre + length l - m - length pre)%nat with (length l - m)%nat in Hd by lia.
Qed.
Lemma put_buf_ok buf i c : 0 <= i < slen buf -> put_buf buf i c = Done (<[Z.to_nat i := c]> buf).
Proof. intros H. unfold put_buf. rewrite (proj2 (Z.leb_le _ _)), (proj2 (Z.ltb_lt _ _)) by (unfold slen in H; lia). done. Qed.
Lemma drop_put (buf : list Z) i c maxlen : 0 <= i < maxlen -> drop (Z.to_nat maxlen) (<[Z.to_nat i := c]> buf) = drop (Z.to_nat maxlen) buf.
Proof. intros H. apply drop_insert_lt. lia. Qed.
Lemma stepped_char maxlen buf l s c : typed maxlen buf (slen l) l -> may_type s -> 32 <= c < 127 -> slen l + 1 < maxlen ->
  stepped maxlen buf l s (<[length l := c]> buf) (l ++ [c]) (say [c] s).
Proof.
  intros [H1 _ H3 H4 H5] Hs Hc Hl. pose proof (drop_put buf (slen l) c maxlen) as Hd. unfold slen in Hd, Hl, H4. rewrite Nat2Z.id in Hd.
  split; [|by apply may_type_say|apply keys_say|by apply Hd; lia|].
  - split; [|done|rewrite slen_app; unfold slen; cbn [length]; lia|unfold slen; by rewrite length_insert|by apply Forall_app; split; [|constructor]].
    rewrite length_app. cbn [length]. rewrite Nat.add_1_r. rewrite (take_S_r _ _ c) by (apply list_lookup_insert_eq; lia).
    rewrite take_insert_ge by lia. by rewrite H1.
  - exists [c]. split; [rewrite out_say by apply Hs; by rewrite u8_chars by (constructor; [lia|constructor])|].
    intros t pre Ht. left. rewrite app_assoc. apply displays_char; [unfold c_newline; lia|unfold c_backspace; lia|done].
Qed.
Lemma cstring_end l r : Forall (fun c => 32 <= c < 127) l -> cstring (l ++ 0 :: r) = l.
Proof. induction 1 as [|c l Hc _ IH]; [done|]. cbn. rewrite IH. by rewrite (proj2 (Z.eqb_neq _ _)) by lia. Qed.
Lemma cstring_put buf l : take (length l) buf = l -> (length l < length buf)%nat -> Forall (fun c => 32 <= c < 127) l ->
  cstring (<[length l := 0]> buf) = l.
Proof.
  intros H1 H2 H3. rewrite insert_take_drop by done. by rewrite H1, cstring_end.
Qed.
Lemma says_reprint l : slen l < 2 ^ 31 -> says reprint [AStr (Some l)] ([94; 82; 10] ++ l).
Proof.
  intros Hl. do 3 (apply says_char; [done|done|]).
  replace l with (in_field [] [] l ++ []) at 2 by (rewrite app_nil_r; unfold in_field, padded; cbn; unfold width; cbn;
    replace (Z.to_nat _) with 0%nat by (unfold slen; lia); done).
  apply (says_field [] c_s [] _ []); [constructor|done| |constructor]. by apply (prints_str [] (Some l)).
Qed.
Lemma stepped_reprint maxlen buf l s : maxlen <= 2 ^ 31 -> typed maxlen buf (slen l) l -> may_type s ->
  exists buf' s', put_buf buf (slen l) 0 = Done buf' /\
    kprintf reprint [AStr (Some (cstring buf'))] s = Done (s32 (slen ([94; 82; 10] ++ l)), s') /\ stepped maxlen buf l s buf' l s'.
Proof.
  intros Hmax [H1 _ H3 H4 H5] Hs. exists (<[length l := 0]> buf), (say ([94; 82; 10] ++ l) s).
  assert (length l < length buf)%nat by (unfold slen in *; lia). split_and!.
  - rewrite put_buf_ok by (unfold slen in *; lia). unfold slen. by rewrite Nat2Z.id.
  - rewrite cstring_put by done. apply kprintf_ok; [apply says_reprint; lia|apply Hs|apply ease_prints, Hs].
  - pose proof (drop_put buf (slen l) 0 maxlen) as Hd. unfold slen in Hd, H3. rewrite Nat2Z.id in Hd.
    split; [|by apply may_type_say|apply keys_say|by apply Hd; lia|].
    { split; [|done|done|unfold slen in *; by rewrite length_insert|done]. by rewrite take_insert_ge by lia. }
    exists ([94; 82; 10] ++ l). split.
    + rewrite out_say by apply Hs. rewrite u8_chars; [done|]. apply Forall_app. split; [repeat constructor; lia|].
      eapply Forall_impl; [exact H5|]. cbn. lia.
    + intros t pre _. right. rewrite shown_app. apply (displays_chars _ [] l); [done|]. by exists 0%nat.
Qed.
Lemma stepped_beep maxlen buf l s : typed maxlen buf (slen l) l -> may_type s ->
  exists s', beep s = Done (tt, s') /\ stepped maxlen buf l s buf l s'.
Proof.
  intros Ht [[] [] Hb]. unfold beep. mrun. rewrite Hb. eexists. split; [reflexivity|].
  split; [done|by split; [split|split|]|done|done|]. exists []. split; [cbn; by rewrite app_nil_r|]. intros t pre Hd. by left.
Qed.
Lemma erase_word_ok maxlen buf l s : typed maxlen buf (slen l) l -> may_type s ->
  exists s', (n ← erase_while (fun c => c =? c_space) buf (length l);
              erase_while (fun c => negb (c =? c_space)) buf n) s = Done (length (erase_word l), s') /\
    stepped maxlen buf l s buf (erase_word l) s'.
Proof.
  intros Ht Hs. set (l1 := strip_end is_blank l).
  destruct (strip_end_prefix is_blank l) as (n1 & Hn1 & E1). fold l1 in E1.
  destruct (strip_end_prefix (fun c => negb (is_blank c)) l1) as (n2 & Hn2 & E2). change (strip_end _ l1) with (erase_word l) in E2.
  assert (length l1 = (length l - n1)%nat) as L1 by (rewrite E1, length_take; lia).
  assert (length (erase_word l) = (length l1 - n2)%nat) as L2 by (rewrite E2, length_take; lia).
  exists (say (rubouts n2) (say (rubouts n1) s)). split.
  - erewrite bind_Done; [|apply erase_while_ok; [apply Hs|apply Ht]]. change (strip_end (fun c => c =? c_space) l) with l1.
    rewrite L1. replace (length l - (length l - n1))%nat with n1 by lia. rewrite <- L1.
    rewrite erase_while_ok; [|by apply at_ease_say, Hs|rewrite E1; apply (typed_take maxlen buf l (length l - n1)), Ht].
    change (strip_end _ l1) with (erase_word l). rewrite L2. by replace (length l1 - (length l1 - n2))%nat with n2 by lia.
  - replace (erase_word l) with (take (length l - (n1 + n2)) l).
    2: { rewrite E2, L1, E1, take_take. f_equal. lia. }
    rewrite <- say_app. replace (rubouts n1 ++ rubouts n2) with (rubouts (n1 + n2)).
    2: { unfold rubouts. by rewrite replicate_add, concat_app. }
    apply stepped_erase; [done|done|lia].
Qed.
Lemma kgets_key fuel maxlen buf l s k ks : 1 <= maxlen <= 2 ^ 31 -> typed maxlen buf (slen l) l -> may_type s -> keys s = k :: ks ->
  u8 k <> c_newline -> u8 k <> c_return -> u8 k <> 3 ->
  exists buf' s', let l' := edit_key (Z.to_nat (maxlen - 1)) l (u8 k) in
    kgets_loop (S fuel) maxlen buf (slen l) s = kgets_loop fuel maxlen buf' (slen l') s' /\
    stepped maxlen buf l (with_keys ks s) buf' l' s'.
Proof.
  intros Hmax Ht Hs Hk N1 N2 N3. set (s1 := with_keys ks s). set (c := u8 k) in *.
  assert (may_type s1) as Hs1 by (destruct Hs as [[] [] ?]; by split; [split|split|]).
  pose proof Ht as [_ _ T3 T4 _]. assert (0 <= slen l) as Hl0 by (unfold slen; lia).
  cbn [kgets_loop]. erewrite bind_Done by by apply getch_ok; [apply Hs|]. fold c. fold s1.
  rewrite (proj2 (Z.eqb_neq _ _) N1), (proj2 (Z.eqb_neq _ _) N2), (proj2 (Z.eqb_neq _ _) N3). cbn [orb].
  replace (u32 (maxlen - 1)) with (maxlen - 1) by (unfold u32, uwrap; dlia). unfold edit_key.
  assert ((length l <? Z.to_nat (maxlen - 1))%nat = (slen l <? maxlen - 1)) as ->.
  { unfold slen. destruct (Z.ltb_spec (Z.of_nat (length l)) (maxlen - 1)); [apply Nat.ltb_lt|apply Nat.ltb_ge]; lia. }
  destruct ((32 <=? c) && (c <? 127) && (slen l <? maxlen - 1)) eqn:E1.
  { apply andb_prop in E1 as [E1 E1l]. apply andb_prop in E1 as [E1a E1b].
    apply Z.leb_le in E1a. apply Z.ltb_lt in E1b, E1l. eexists _, _. split; [|apply stepped_char; [done|done|lia|lia]].
    erewrite bind_Done by apply putch_ok, ease_prints, Hs1. rewrite put_buf_ok by lia. erewrite bind_Done by reflexivity.
    rewrite slen_app. change (slen [c]) with 1. unfold slen at 1. rewrite Nat2Z.id. f_equal. unfold u32, uwrap. dlia. }
  destruct ((c =? c_backspace) || (c =? 127)) eqn:E2.
  { cbn [andb]. destruct (Z.ltb_spec 0 (slen l)) as [Hp|Hp].
    - eexists _, _. split; [|apply (stepped_erase _ _ _ _ 1); [done|done|unfold slen in Hp; lia]].
      erewrite bind_Done by apply backsp_ok, Hs1. unfold rubouts. cbn [replicate concat]. rewrite app_nil_r.
      assert (slen (take (length l - 1) l) = slen l - 1) as -> by (unfold slen in *; rewrite length_take; lia). done.
    - assert (l = []) as -> by (destruct l; [done|unfold slen in Hp; cbn [length] in Hp; lia]).
      assert ((c =? 18) = false /\ (c =? 21) = false /\ (c =? 23) = false) as (-> & -> & ->).
      { apply orb_prop in E2 as [E2|E2]; apply Z.eqb_eq in E2; rewrite E2; done. }
      destruct (stepped_beep maxlen buf [] s1 Ht Hs1) as (s' & Hb & Hst). exists buf, s'. erewrite bind_Done by exact Hb. done. }
  cbn [andb]. destruct (Z.eqb_spec c 18) as [E3|E3].
  { rewrite E3. cbn. destruct (stepped_reprint maxlen buf l s1 ltac:(lia) Ht Hs1) as (buf' & s' & Hp & Hr & Hst).
    exists buf', s'. rewrite Hp. erewrite bind_Done by reflexivity. erewrite bind_Done by exact Hr. done. }
  destruct (c =? 21) eqn:E4.
  { eexists _, _. split; [|]. 2: { pose proof (stepped_erase maxlen buf l s1 (length l) Ht Hs1 ltac:(lia)) as He. rewrite Nat.sub_diag in He. exact He. }
    erewrite bind_Done by apply erase_ok, Hs1. unfold slen at 1. rewrite Nat2Z.id. done. }
  destruct (c =? 23) eqn:E5.
  { destruct (erase_word_ok maxlen buf l s1 Ht Hs1) as (s' & Hr & Hst). exists buf, s'. split; [|done].
    apply bind_inv in Hr as (n & s2 & Ha & Hb). unfold slen at 1. rewrite Nat2Z.id.
    erewrite bind_Done by exact Ha. erewrite bind_Done by exact Hb. done. }
  destruct (stepped_beep maxlen buf l s1 Ht Hs1) as (s' & Hb & Hst). exists buf, s'. erewrite bind_Done by exact Hb. done.
Qed.
(** The line is complete on the screen: [l] behind the prompt, or behind nothing
    once it was reprinted. *)
Definition completes (t : term) (prompt l : chars) : Prop :=
  line t = [] /\ col t = 0%nat /\ exists a p n, (p = prompt \/ p = []) /\ above t = a ++ [p ++ l ++ replicate n c_space].
Definition cancel : chars := [94; 67].
Lemma completes_newline t pre l : displays t (pre ++ l) -> completes (shown t [c_newline]) pre l.
Proof.
  intros (n & Hl & _). split; [done|]. split; [done|]. exists (above t), pre, n. split; [by left|].
  cbn. by rewrite Hl, <- app_assoc.
Qed.
Lemma completes_prompt t p pre l : p = pre \/ p = [] -> completes t p l -> completes t pre l.
Proof.
  intros Hp (H1 & H2 & a & q & n & Hq & Ha). split_and!; [done|done|]. exists a, q, n. split; [|done].
  destruct Hq as [->| ->], Hp as [->| ->]; auto.
Qed.
Lemma kgets_run maxlen ks : 1 <= maxlen <= 2 ^ 31 -> forall buf l s l' ab rest, typed maxlen buf (slen l) l -> may_type s ->
  keys s = ks -> edit (Z.to_nat (maxlen - 1)) l ks = Some (l', ab, rest) ->
  exists buf' s' o, kgets_loop (S (length ks)) maxlen buf (slen l) s = Done ((buf', if ab : bool then 0 else slen l'), s') /\
    typed maxlen buf' (slen l') l' /\ drop (Z.to_nat maxlen) buf' = drop (Z.to_nat maxlen) buf /\
    keys s' = rest /\ out s' = out s ++ o /\
    forall t pre, displays t (pre ++ l) -> completes (shown t o) pre (l' ++ if ab then cancel else []).
Proof.
  intros Hmax. induction ks as [|k ks IH]; intros buf l s l' ab rest Ht Hs Hk He; [done|]. cbn [edit] in He.
  assert (may_type (with_keys ks s)) as Hs1 by (destruct Hs as [[] [] ?]; by split; [split|split|]).
  destruct ((u8 k =? c_newline) || (u8 k =? c_return)) eqn:E1.
  { injection He as <- <- <-. exists buf, (say [c_newline] (with_keys ks s)), [c_newline]. split_and!; [|done|done|apply keys_say|by rewrite out_say by apply Hs1|].
    - cbn [kgets_loop]. erewrite bind_Done by by apply getch_ok; [apply Hs|]. rewrite E1.
      by erewrite bind_Done by apply putch_ok, ease_prints, Hs1.
    - intros t pre Hd. rewrite app_nil_r. by apply completes_newline. }
  apply orb_false_iff in E1 as [E1 E2]. destruct (Z.eqb_spec (u8 k) 3) as [E3|E3].
  { injection He as <- <- <-. exists buf, (say (cancel ++ [c_newline]) (with_keys ks s)), (cancel ++ [c_newline]).
    split_and!; [|done|done|apply keys_say|by rewrite out_say by apply Hs1|].
    - cbn [kgets_loop]. erewrite bind_Done by by apply getch_ok; [apply Hs|]. rewrite E3.
      change (3 =? c_newline) with false. change (3 =? c_return) with false. change (32 <=? 3) with false.
      change (3 =? c_backspace) with false. change (3 =? 127) with false. change (3 =? 3) with true. cbn [orb andb].
      erewrite bind_Done by apply putch_ok, ease_prints, Hs1. erewrite bind_Done by apply putch_ok, ease_prints, at_ease_say, Hs1.
      erewrite bind_Done by apply putch_ok, ease_prints, at_ease_say, at_ease_say, Hs1. by rewrite <- !say_app.
    - intros t pre Hd. rewrite shown_app. apply completes_newline. rewrite app_assoc. apply displays_chars; [repeat constructor; lia|done]. }
  apply Z.eqb_neq in E1, E2.
  destruct (kgets_key (S (length ks)) maxlen buf l s k ks Hmax Ht Hs Hk E1 E2 E3) as (buf1 & s1 & Hr & [S1 S2 S3 S4 (o1 & S5 & S6)]).
  destruct (IH buf1 _ s1 l' ab rest S1 S2 S3 He) as (buf' & s' & o & R1 & R2 & R3 & R4 & R5 & R6).
  exists buf', s', (o1 ++ o). cbn [length]. split_and!; [by rewrite Hr|done|congruence|done| |].
  - by rewrite R5, S5, app_assoc.
  - intros t pre Hd. rewrite shown_app. destruct (S6 t pre Hd) as [Hd'|Hd']; [by apply R6|].
    eapply completes_prompt; [|by apply (R6 _ [])]. by right.
Qed.

(** C23: [kgets] edits a line as its keys say and returns it, within the buffer
    and with its terminator; while it does, the screen shows the line as it is,
    and in the end the line on the screen is the line returned. *)
Theorem kgets_edits maxlen buf s l ab rest t prompt : 1 <= maxlen <= 2 ^ 31 -> maxlen <= slen buf -> may_type s ->
  edit (Z.to_nat (maxlen - 1)) [] (keys s) = Some (l, ab, rest) -> displays t prompt ->
  exists buf' s' o, kgets maxlen buf s = Done (buf', s') /\ cstring buf' = (if ab then [] else l) /\
    drop (Z.to_nat maxlen) buf' = drop (Z.to_nat maxlen) buf /\ slen l < maxlen /\
    keys s' = rest /\ out s' = out s ++ o /\ completes (shown t o) prompt (l ++ if ab then cancel else []).
Proof.
  intros Hmax Hb Hs He Hd.
  destruct (kgets_run maxlen (keys s) Hmax buf [] s l ab rest) as (buf1 & s' & o & Hr & [T1 _ T3 T4 T5] & Hdr & Hk & Ho & Hsc); [|done|done|done|].
  { split; [done|done|unfold slen; cbn; lia|done|constructor]. }
  assert (length l < length buf1)%nat by (unfold slen in T3, T4; lia).
  exists (<[if ab then 0%nat else length l := 0]> buf1), s', o. split_and!; [| | |done|done|done|by apply Hsc; rewrite app_nil_r].
  - unfold kgets. erewrite bind_Done by reflexivity. erewrite bind_Done by exact Hr. mrun.
    destruct ab; rewrite put_buf_ok by (unfold slen in *; lia); [done|]. unfold slen. by rewrite Nat2Z.id.
  - destruct ab; [by destruct buf1|by apply cstring_put].
  - rewrite <- Hdr. destruct ab; apply drop_insert_lt; unfold slen in *; lia.
Qed.

(** ** Panic *)
Definition panic_actions : list panic_action := [Splhigh; ThreadPanic; PrintMessage; SyncDisks; MainbusPanic].
(** From a step on: it may panic, or the ones after it are begun in this call. *)
Lemma panic_5 panics f log : panic (S f) panics 5 log = Some log.
Proof. done. Qed.
Lemma panic_from_4 panics f log : panic (S (S f)) panics 4 log = Some (log ++ drop 4 panic_actions).
Proof. generalize (panic_5 panics f). generalize (S f). intros n H. cbn. rewrite H. by destruct (panics MainbusPanic). Qed.
Lemma panic_from_3 panics f log : panic (S (S (S f))) panics 3 log = Some (log ++ drop 3 panic_actions).
Proof.
  generalize (panic_from_4 panics f), (panic_5 panics (S f)). generalize (S (S f)). intros n H4 H5. cbn. rewrite H4, H5.
  destruct (panics SyncDisks), (panics MainbusPanic); cbn; by rewrite <- app_assoc.
Qed.
Lemma panic_from_2 panics f log : panic (S (S (S (S f)))) panics 2 log = Some (log ++ drop 2 panic_actions).
Proof.
  generalize (panic_from_3 panics f), (panic_from_4 panics (S f)), (panic_5 panics (S (S f))).
  generalize (S (S (S f))). intros n H3 H4 H5. cbn. rewrite H3, H4, H5.
  destruct (panics PrintMessage), (panics SyncDisks), (panics MainbusPanic); cbn; by rewrite <- ?app_assoc.
Qed.
Lemma panic_from_1 panics f log : panic (S (S (S (S (S f))))) panics 1 log = Some (log ++ drop 1 panic_actions).
Proof.
  generalize (panic_from_2 panics f), (panic_from_3 panics (S f)), (panic_from_4 panics (S (S f))), (panic_5 panics (S (S (S f)))).
  generalize (S (S (S (S f)))). intros n H2 H3 H4 H5. cbn. rewrite H2, H3, H4, H5.
  destruct (panics ThreadPanic), (panics PrintMessage), (panics SyncDisks), (panics MainbusPanic); cbn; by rewrite <- ?app_assoc.
Qed.
(** Whatever of what [panic] does panics itself, each step of it is begun
    exactly once and in order, and five panics inside it are the most there can
    be. *)
Theorem panic_once panics log : panic 6 panics 0 log = Some (log ++ panic_actions).
Proof.
  generalize (panic_from_1 panics 0), (panic_from_2 panics 1), (panic_from_3 panics 2), (panic_from_4 panics 3), (panic_5 panics 4).
  generalize 5%nat. intros n H1 H2 H3 H4 H5. cbn. rewrite H1, H2, H3, H4, H5.
  destruct (panics Splhigh), (panics ThreadPanic), (panics PrintMessage), (panics SyncDisks), (panics MainbusPanic);
    cbn; by rewrite <- ?app_assoc.
Qed.

(** ** The theorems at work *)
(** "hi" *)
Definition greeting : message := ([104; 105], [], [104; 105]).
Lemma greeting_said : well_said [greeting; greeting; greeting; greeting; greeting].
Proof. repeat constructor; done. Qed.
Lemma startup_prints_witness : exists s,
  startup [greeting] [greeting] [greeting] [greeting] [greeting] true 0 (loaded []) = Done (0, s) /\
  out s = [104; 105; 104; 105; 104; 105; 104; 105; 104; 105].
Proof.
  destruct (startup_prints [greeting] [greeting] [greeting] [greeting] [greeting] true 0 []) as (s & H1 & H2 & _);
    [apply greeting_said|by vm_compute|]. exists s. split; [exact H1|exact H2].
Defined.
Definition running (ks : list Z) : cst := Cst true true [] [] ks false 0 true false 0 (Some false) false (Some false) (Some false).
Lemma con_io_transfers_witness : exists u', con_io (mkSio UIO_READ 0 5 5 5 5 []) (running [97; 13; 98]) = Done ((0, u'), running [98]) /\
  u_data u' = [97; 10].
Proof.
  destruct (con_io_transfers (mkSio UIO_READ 0 5 5 5 5 []) (running [97; 13; 98])) as (u' & H1 & _ & H3);
    [by split; cbn; (lia || done)|by split|done|]. exists u'. split; [exact H1|exact H3].
Defined.
(** "ab", backspace, "c", return *)
Lemma kgets_edits_witness : exists buf' s' o, kgets 8 (replicate 8 0) (running [97; 98; 8; 99; 13]) = Done (buf', s') /\
  cstring buf' = [97; 99] /\ completes (shown (Term [] [] 0) o) [] [97; 99].
Proof.
  destruct (kgets_edits 8 (replicate 8 0) (running [97; 98; 8; 99; 13]) [97; 99] false [] (Term [] [] 0) [])
    as (buf' & s' & o & H1 & H2 & _ & _ & _ & _ & H3); [lia|by vm_compute|by split; split|by vm_compute|by exists 0%nat|].
  exists buf', s', o. split; [exact H1|]. split; [exact H2|exact H3].
Defined.
