(* ===== verification/Elf.v ===== *)
(** * Loading programs (kern/syscall/loadelf.c and runprogram.c)

    An executable is a file with a header, program headers and segments.  The
    file is the class [ExecFile]: what [VOP_READ] hands over, in pieces, when it
    is read from an offset on.  The pieces go to the kernel's variables, or with
    [uiomove] to the memory of the process, one byte after the other through the
    TLB of VmSpec.v.  The theorems say that a program is started with the memory
    its headers describe, and that the file is closed whatever happens. *)
From S2P Require Import Prelude Memory CopyInOut SfsDisk Kmalloc Dumbvm VmSpec.
Import CopyInOut SfsDisk.

(** ** elf.h *)
Record Elf_Ehdr := Ehdr {
  e_ident : list Z;
  e_type : Z;
  e_machine : Z;
  e_version : Z;
  e_entry : Z;
  e_phoff : Z;
  e_phentsize : Z;
  e_phnum : Z
}.
Record Elf_Phdr := Phdr {
  p_type : Z;
  p_offset : Z;
  p_vaddr : Z;
  p_filesz : Z;
  p_memsz : Z;
  p_flags : Z
}.
Definition sizeof_ehdr : Z := 52.
Definition sizeof_phdr : Z := 32.
(** The structures as the bytes of the file give them, on a big-endian machine. *)
Definition decode_ehdr (bs : list Z) : Elf_Ehdr :=
  Ehdr (take 16 bs) (rd16 (drop 16 bs)) (rd16 (drop 18 bs)) (rd32 (drop 20 bs)) (rd32 (drop 24 bs))
    (rd32 (drop 28 bs)) (rd16 (drop 42 bs)) (rd16 (drop 44 bs)).
Definition decode_phdr (bs : list Z) : Elf_Phdr :=
  Phdr (rd32 bs) (rd32 (drop 4 bs)) (rd32 (drop 8 bs)) (rd32 (drop 16 bs)) (rd32 (drop 20 bs)) (rd32 (drop 24 bs)).
(** ["\177ELF"], [ELFCLASS32], [ELFDATA2MSB], [EV_CURRENT] *)
Definition good_ident : list Z := [0x7f; 69; 76; 70; 1; 2; 1].
Definition EV_CURRENT : Z := 1.
Definition ET_EXEC : Z := 2.
Definition EM_MACHINE : Z := 8.
Definition PT_NULL : Z := 0.
Definition PT_LOAD : Z := 1.
Definition PT_PHDR : Z := 6.
Definition PT_MIPS_REGINFO : Z := 0x70000000.

(** What reading [n] bytes from [off] on hands over, and the result. *)
Class ExecFile (F : Type) : Type := {
  contents : F -> list Z;
  vop_read : F -> Z -> Z -> Z * list (list Z)
}.

(** The machine, and how many opens of the file there are to be undone. *)
Record lst := Lst { machine : sys; opens : Z }.
Definition with_machine (c : sys) (s : lst) : lst := Lst c (opens s).
Definition with_opens (n : Z) (s : lst) : lst := Lst (machine s) n.
(** [curthread->t_addrspace] *)
Definition t_addrspace : M lst addrspace :=
  a ← mgets (fun s => cur_as (machine s));
  match a with Some a => mret a | None => mstop NullDeref end.
Definition set_addrspace (a : addrspace) : M lst unit := mmodify (fun s =>
  let c := machine s in
  match cur c with
  | Some i => with_machine (Sys (vm c) (<[i := a]> (spaces c)) (cur c)) s
  | None => s
  end).
Definition on_vm {A} (m : M vmstate A) : M lst A := fun s =>
  match m (vm (machine s)) with
  | Done (a, v) => Done (a, with_machine (with_vm (machine s) v) s)
  | Stop f => Stop f
  end.

(** [copyout] of the rest of a piece: a store the process cannot make ends it. *)
Definition user_store (v b : Z) : M lst Z := fun s =>
  match cstep (Store v b) (machine s) with
  | Done (RDone, c) => Done (0, with_machine c s)
  | Done (_, c) => Done (EFAULT, with_machine c s)
  | Stop f => Stop f
  end.
Fixpoint store_bytes (v : Z) (data : list Z) : M lst Z :=
  match data with
  | [] => mret 0
  | b :: r => e ← user_store v b; if negb (e =? 0) then mret e else store_bytes (v + 1) r
  end.
(** [uiomove] of one piece to the user address [v]. *)
Definition uiomove_user (v : Z) (data : list Z) : M lst Z :=
  if bool_decide (data = []) then mret 0
  else
    let len := Z.of_nat (length data) in
    let '(result, stoplen) := copycheck v len in
    if negb (result =? 0) then mret result
    else if negb (stoplen =? len) then mret EFAULT
    else store_bytes v data.
(** The pieces one after the other: the result, and how much was moved. *)
Fixpoint move_pieces (v : Z) (pieces : list (list Z)) : M lst (Z * Z) :=
  match pieces with
  | [] => mret (0, 0)
  | d :: r =>
      e ← uiomove_user v d;
      if negb (e =? 0) then mret (e, 0)
      else '(e, n) ← move_pieces (v + Z.of_nat (length d)) r; mret (e, n + Z.of_nat (length d))
  end.

Section file.
Context {F : Type} `{!ExecFile F}.
Variable v : F.

(** [VOP_READ] into a variable of [n] bytes at [off], with the check for a
    short read. *)
Definition read_struct (off n : Z) : M lst (result (list Z)) :=
  let '(result, pieces) := vop_read v off n in
  if negb (result =? 0) then mret (Err result)
  else
    let data := concat pieces in
    if negb (n - Z.of_nat (length data) =? 0) then mret (Err ENOEXEC) else mret (Ok data).

Definition load_segment (offset vaddr memsize filesize : Z) : M lst Z :=
  let filesize := if memsize <? filesize then memsize else filesize in
  let '(result, pieces) := vop_read v offset filesize in
  '(e, n) ← move_pieces vaddr pieces;
  if negb (e =? 0) then mret e
  else if negb (result =? 0) then mret result
  else if negb (filesize - n =? 0) then mret ENOEXEC
  else mret 0.

Definition bad_header (eh : Elf_Ehdr) : bool :=
  negb (bool_decide (take 7 (e_ident eh) = good_ident)) || negb (e_version eh =? EV_CURRENT) ||
  negb (e_type eh =? ET_EXEC) || negb (e_machine eh =? EM_MACHINE).
Definition skipped (t : Z) : bool := (t =? PT_NULL) || (t =? PT_PHDR) || (t =? PT_MIPS_REGINFO).
Definition read_phdr (eh : Elf_Ehdr) (i : Z) : M lst (result Elf_Phdr) :=
  bs ←? read_struct (u32 (e_phoff eh + i * e_phentsize eh)) sizeof_phdr;
  mret (Ok (decode_phdr bs)).
(** The first loop, from header [i] on. *)
Fixpoint define_regions (eh : Elf_Ehdr) (n : nat) (i : Z) : M lst Z :=
  match n with
  | O => mret 0
  | S n' =>
      r ← read_phdr eh i;
      match r with
      | Err e => mret e
      | Ok ph =>
          if skipped (p_type ph) then define_regions eh n' (i + 1)
          else if negb (p_type ph =? PT_LOAD) then mret ENOEXEC
          else
            a ← t_addrspace;
            let '(result, a) := as_define_region a (p_vaddr ph) (p_memsz ph) in
            _ ← set_addrspace a;
            if negb (result =? 0) then mret result else define_regions eh n' (i + 1)
      end
  end.
(** The second loop. *)
Fixpoint load_segments (eh : Elf_Ehdr) (n : nat) (i : Z) : M lst Z :=
  match n with
  | O => mret 0
  | S n' =>
      r ← read_phdr eh i;
      match r with
      | Err e => mret e
      | Ok ph =>
          if skipped (p_type ph) then load_segments eh n' (i + 1)
          else if negb (p_type ph =? PT_LOAD) then mret ENOEXEC
          else
            result ← load_segment (p_offset ph) (p_vaddr ph) (p_memsz ph) (p_filesz ph);
            if negb (result =? 0) then mret result else load_segments eh n' (i + 1)
      end
  end.
Definition as_complete_load (a : addrspace) : Z := 0.

(** [load_elf]: the entry point. *)
Definition load_elf : M lst (result Z) :=
  bs ←? read_struct 0 sizeof_ehdr;
  let eh := decode_ehdr bs in
  if bad_header eh then mret (Err ENOEXEC)
  else
    result ← define_regions eh (Z.to_nat (e_phnum eh)) 0;
    if negb (result =? 0) then mret (Err result)
    else
      a ← t_addrspace;
      '(result, a) ← on_vm (as_prepare_load a);
      _ ← set_addrspace a;
      if negb (result =? 0) then mret (Err result)
      else
        result ← load_segments eh (Z.to_nat (e_phnum eh)) 0;
        if negb (result =? 0) then mret (Err result)
        else
          a ← t_addrspace;
          let result := as_complete_load a in
          if negb (result =? 0) then mret (Err result) else mret (Ok (e_entry eh)).

(** [runprogram], with the results of [file_open] and of [as_create]'s allocation;
    the value is where user mode is entered, and with which stack. *)
Definition file_open (r : Z) : M lst Z :=
  if negb (r =? 0) then mret r else _ ← mmodify (fun s => with_opens (opens s + 1) s); mret 0.
Definition file_close : M lst unit := mmodify (fun s => with_opens (opens s - 1) s).
Definition runprogram (r_open : Z) (alloc_ok : bool) : M lst (result (Z * Z)) :=
  result ← file_open r_open;
  if negb (result =? 0) then mret (Err result)
  else
    old ← mgets (fun s => cur (machine s));
    _ ← kassert (bool_decide (old = None));
    match as_create alloc_ok with
    | None => _ ← file_close; mret (Err ENOMEM)
    | Some a =>
        _ ← mmodify (fun s => let c := machine s in
              with_machine (Sys (vm c) (spaces c ++ [a]) (Some (length (spaces c)))) s);
        _ ← on_vm as_activate;
        r ← load_elf;
        match r with
        | Err e => _ ← file_close; mret (Err e)
        | Ok entrypoint =>
            _ ← file_close;
            a ← t_addrspace;
            '(result, stackptr) ← mlift (as_define_stack a);
            if negb (result =? 0) then mret (Err result) else mret (Ok (entrypoint, stackptr))
        end
    end.
End file.

(** ** The bytes of a file and of a process *)
Definition slice (off n : Z) (l : list Z) : list Z := take (Z.to_nat n) (drop (Z.to_nat off) l).
(** [VOP_READ] succeeds and hands over what is there, up to the end of the file. *)
Definition readable {F} `{!ExecFile F} (f : F) : Prop := forall off n, 0 <= off -> 0 <= n ->
  (vop_read f off n).1 = 0 /\ concat (vop_read f off n).2 = slice off n (contents f).
(** A memory with [data] at [v]. *)
Definition put (v : Z) (data : list Z) (m : Z -> option Z) (x : Z) : option Z :=
  if decide (v <= x < v + Z.of_nat (length data)) then data !! Z.to_nat (x - v) else m x.

Lemma length_file_slice off n (l : list Z) : 0 <= off -> 0 <= n -> off + n <= Z.of_nat (length l) ->
  Z.of_nat (length (slice off n l)) = n.
Proof. intros. unfold slice. rewrite length_take, length_drop. lia. Qed.
Lemma put_nil v m x : put v [] m x = m x.
Proof. unfold put. cbn [length Z.of_nat]. by rewrite decide_False by lia. Qed.
Lemma put_app v d1 d2 m x : put (v + Z.of_nat (length d1)) d2 (put v d1 m) x = put v (d1 ++ d2) m x.
Proof.
  unfold put. rewrite length_app. repeat case_decide; try lia; try done.
  - rewrite lookup_app_r by lia. f_equal. lia.
  - rewrite lookup_app_l by lia. done.
Qed.
Lemma put_ext v d m m' x : (forall y, m y = m' y) -> put v d m x = put v d m' x.
Proof. intros H. unfold put. by case_decide. Qed.

(** ** Storing through the TLB *)
Lemma copycheck_inside v len : 0 <= v -> 0 < len -> v + len <= USERSPACETOP -> copycheck v len = (0, len).
Proof.
  intros Hv Hl Hu. unfold copycheck, USERSPACETOP in *.
  assert (u32 (v + len - 1) = v + len - 1) as -> by (unfold u32, uwrap; rewrite Z.mod_small; lia).
  rewrite (proj2 (Z.ltb_ge _ _)), !(proj2 (Z.leb_gt _ _)) by lia. done.
Qed.
(** The current process of a specification, while its memory is filled: the pages
    it touches are among [P]. *)
Record filling (P : list Z) (s : lst) (A : spec) (i : nat) (p : proc) : Prop := Filling {
  fill_rel : rel (machine s) A;
  fill_cur : acur A = Some i;
  fill_proc : procs A !! i = Some p;
  fill_nodup : NoDup (touched A);
  fill_pages : touched A ⊆ P;
  fill_few : (length P <= NUM_TLB)%nat
}.
(** [s'] differs from [s] in the memory of the process, which is [m] now. *)
Definition filled (P : list Z) (s : lst) (A : spec) (i : nat) (p : proc) (m : Z -> option Z) (s' : lst) : Prop :=
  opens s' = opens s /\ exists T p',
    filling P s' (Spec (<[i := p']> (procs A)) (acur A) T (afree A)) i p' /\
    pn1 p' = pn1 p /\ pn2 p' = pn2 p /\ forall x, pm p' x = m x.

Lemma touch_ok P s A i p x : filling P s A i p -> is_Some (pm p x) -> x - x mod PAGE_SIZE ∈ P ->
  exists T, touch x A = Some (i, p, Spec (procs A) (acur A) T (afree A)) /\ NoDup T /\ T ⊆ P.
Proof.
  intros [_ Hc Hp Hn Hs Hf] [b Hb] Hx. unfold touch. rewrite Hc. cbn. rewrite Hp. cbn. rewrite Hb. cbn.
  case_decide as Hin; [exists (touched A); split; [by rewrite <- Hc; destruct A|done]|]. exists ((x - x mod PAGE_SIZE) :: touched A).
  assert (NoDup ((x - x mod PAGE_SIZE) :: touched A)) as Hn' by by constructor.
  assert ((x - x mod PAGE_SIZE) :: touched A ⊆ P) as Hs' by set_solver.
  pose proof (submseteq_length _ _ (NoDup_submseteq _ _ Hn' Hs')) as Hle. cbn [length] in Hle.
  rewrite decide_True by lia. done.
Qed.
Lemma user_store_ok P s A i p x b : filling P s A i p -> 0 <= x < MIPS_KSEG0 -> is_Some (pm p x) -> x - x mod PAGE_SIZE ∈ P ->
  exists s', user_store x b s = Done (0, s') /\ filled P s A i p (put x [b] (pm p)) s'.
Proof.
  intros Hf Hx Hm Hpg. destruct (touch_ok _ _ _ _ _ _ Hf Hm Hpg) as (T & Ht & Hn & Hs).
  destruct (cstep_refines (Store x b) (machine s) A (fill_rel _ _ _ _ _ Hf) Hx) as (c' & Hc & Hr).
  cbn [astep] in Hc, Hr. rewrite Ht in Hc, Hr. cbn [fst snd procs acur touched afree] in Hc, Hr.
  exists (with_machine c' s). unfold user_store. rewrite Hc. split; [done|]. split; [done|].
  eexists T, _. split; [|split; [|split]]; [split| | |]; cbn.
  - exact Hr.
  - apply Hf.
  - apply list_lookup_insert_eq. apply lookup_lt_Some with p, Hf.
  - done.
  - done.
  - apply Hf.
  - done.
  - done.
  - intros y. cbn [pm]. unfold put. cbn [length]. change (Z.of_nat 1) with 1.
    repeat case_decide; try lia; try done. by replace (Z.to_nat (y - x)) with 0%nat by lia.
Qed.
Lemma filled_ext P s A i p m m' s' : (forall x, m x = m' x) -> filled P s A i p m s' -> filled P s A i p m' s'.
Proof. intros H (Ho & T & p' & Hf & H1 & H2 & Hm). split; [done|]. exists T, p'. split_and!; [done..|]. intros x. by rewrite Hm, H. Qed.
Lemma filled_refl P s A i p : filling P s A i p -> filled P s A i p (pm p) s.
Proof.
  intros Hf. split; [done|]. exists (touched A), p. split; [|done]. rewrite list_insert_id by apply Hf. by destruct A.
Qed.
Lemma filled_no_data P s A i p v : filling P s A i p -> filled P s A i p (put v [] (pm p)) s.
Proof. intros Hf. apply (filled_ext _ _ _ _ _ (pm p)); [intros x; by rewrite put_nil|by apply filled_refl]. Qed.
(** One filling after another: the second starts from the memory of the first. *)
Lemma filled_then P s A i p m s1 (Q : lst -> Prop) : filled P s A i p m s1 ->
  (forall A1 p1, filling P s1 A1 i p1 -> (forall x, pm p1 x = m x) ->
     (forall m' s', filled P s1 A1 i p1 m' s' -> filled P s A i p m' s') -> exists s', Q s') -> exists s', Q s'.
Proof.
  intros (Ho & T & p1 & Hf & H1 & H2 & Hm) Hk. apply (Hk _ p1 Hf Hm). intros m' s' (Ho' & T' & p' & Hf' & H1' & H2' & Hm').
  split; [congruence|]. exists T', p'. cbn [procs acur afree] in Hf'. rewrite list_insert_insert_eq in Hf'.
  split; [exact Hf'|]. split; [congruence|]. split; [congruence|done].
Qed.
(** The addresses [v .. v + n - 1] are the process's, on pages of [P]. *)
Definition covered (P : list Z) (m : Z -> option Z) (v n : Z) : Prop :=
  0 <= v /\ v + n <= MIPS_KSEG0 /\ forall x, v <= x < v + n -> is_Some (m x) /\ x - x mod PAGE_SIZE ∈ P.
Lemma covered_put P m v n w d : covered P m v n -> covered P (put w d m) v n.
Proof.
  intros (H1 & H2 & H3). split_and!; [done..|]. intros x Hx. split; [|by apply H3]. unfold put. case_decide; [|by apply H3].
  apply lookup_lt_is_Some_2. lia.
Qed.
Lemma covered_ext P m m' v n : (forall x, m x = m' x) -> covered P m v n -> covered P m' v n.
Proof. intros H (H1 & H2 & H3). split_and!; [done..|]. intros x Hx. rewrite <- H. by apply H3. Qed.
Lemma covered_sub P m v n v' n' : covered P m v n -> v <= v' -> v' + n' <= v + n -> covered P m v' n'.
Proof. intros (H1 & H2 & H3) ? ?. split_and!; [lia..|]. intros x Hx. apply H3. lia. Qed.

Lemma store_bytes_ok P data : forall v s A i p, filling P s A i p -> covered P (pm p) v (Z.of_nat (length data)) ->
  exists s', store_bytes v data s = Done (0, s') /\ filled P s A i p (put v data (pm p)) s'.
Proof.
  induction data as [|b data IH]; intros v s A i p Hf Hc; cbn [store_bytes].
  { exists s. split; [done|]. by apply filled_no_data. }
  cbn [length] in Hc. pose proof Hc as (H1 & H2 & H3). destruct (H3 v ltac:(lia)) as [Hm Hpg].
  destruct (user_store_ok P s A i p v b Hf ltac:(lia) Hm Hpg) as (s1 & Hs1 & Hf1).
  eapply filled_then; [exact Hf1|]. intros A1 p1 Hg Hp1 Hback.
  destruct (IH (v + 1) s1 A1 i p1 Hg) as (s' & Hs' & Hf').
  { eapply covered_ext; [intros x; symmetry; apply Hp1|]. apply covered_put. eapply covered_sub; [exact Hc|lia|lia]. }
  exists s'. erewrite bind_Done by exact Hs1. split; [exact Hs'|]. apply Hback in Hf'. eapply filled_ext; [|exact Hf'].
  intros x. rewrite (put_ext _ _ _ _ _ Hp1). apply (put_app v [b] data).
Qed.
Lemma uiomove_user_ok P data v s A i p : filling P s A i p -> covered P (pm p) v (Z.of_nat (length data)) ->
  exists s', uiomove_user v data s = Done (0, s') /\ filled P s A i p (put v data (pm p)) s'.
Proof.
  intros Hf Hc. unfold uiomove_user. destruct data as [|b data].
  { exists s. split; [done|]. by apply filled_no_data. }
  rewrite bool_decide_false by done. pose proof Hc as (H1 & H2 & _).
  rewrite copycheck_inside; [|done|cbn [length]; lia|exact H2]. cbn [negb Z.eqb].
  change (0 =? 0) with true. rewrite Z.eqb_refl. cbn [negb]. by apply store_bytes_ok.
Qed.
Lemma move_pieces_ok P pieces : forall v s A i p, filling P s A i p -> covered P (pm p) v (Z.of_nat (length (concat pieces))) ->
  exists s', move_pieces v pieces s = Done ((0, Z.of_nat (length (concat pieces))), s') /\
    filled P s A i p (put v (concat pieces) (pm p)) s'.
Proof.
  induction pieces as [|d pieces IH]; intros v s A i p Hf Hc; cbn [move_pieces concat] in *.
  { exists s. split; [done|]. by apply filled_no_data. }
  rewrite length_app in Hc. destruct (uiomove_user_ok P d v s A i p Hf) as (s1 & Hs1 & Hf1).
  { eapply covered_sub; [exact Hc|lia|lia]. }
  eapply filled_then; [exact Hf1|]. intros A1 p1 Hg Hp1 Hback.
  destruct (IH (v + Z.of_nat (length d)) s1 A1 i p1 Hg) as (s' & Hs' & Hf').
  { eapply covered_ext; [intros x; symmetry; apply Hp1|]. apply covered_put. eapply covered_sub; [exact Hc|lia|lia]. }
  exists s'. erewrite bind_Done by exact Hs1. change (0 =? 0) with true. cbn [negb]. erewrite bind_Done by exact Hs'.
  split; [unfold mret, M_ret; rewrite length_app; do 3 f_equal; lia|]. apply Hback in Hf'. eapply filled_ext; [|exact Hf'].
  intros x. rewrite (put_ext _ _ _ _ _ Hp1). apply put_app.
Qed.

(** ** The file *)
Section loading.
Context {F : Type} `{!ExecFile F}.
Variable f : F.
Hypothesis Hread : readable f.
Abbreviation bytes := (contents f).
Abbreviation flen := (Z.of_nat (length (contents f))).

Definition ehdr_of : Elf_Ehdr := decode_ehdr (slice 0 sizeof_ehdr bytes).
Definition phdr_off (eh : Elf_Ehdr) (i : Z) : Z := u32 (e_phoff eh + i * e_phentsize eh).
Definition phdr_at (eh : Elf_Ehdr) (i : Z) : Elf_Phdr := decode_phdr (slice (phdr_off eh i) sizeof_phdr bytes).
Definition headers (eh : Elf_Ehdr) (n : nat) (i : Z) : list Elf_Phdr := map (phdr_at eh) (seqZ i (Z.of_nat n)).
Definition loads (phs : list Elf_Phdr) : list Elf_Phdr := filter (fun ph => p_type ph = PT_LOAD) phs.
(** The program headers are in the file and of a type that is known. *)
Definition known (eh : Elf_Ehdr) (n : nat) (i : Z) : Prop :=
  forall j, i <= j < i + Z.of_nat n -> phdr_off eh j + sizeof_phdr <= flen /\
    (skipped (p_type (phdr_at eh j)) = true \/ p_type (phdr_at eh j) = PT_LOAD).
(** What a segment has in the file. *)
Definition seg_size (ph : Elf_Phdr) : Z := Z.min (p_filesz ph) (p_memsz ph).
Definition seg_data (ph : Elf_Phdr) : list Z := slice (p_offset ph) (seg_size ph) bytes.
Definition image (segs : list Elf_Phdr) (m : Z -> option Z) : Z -> option Z :=
  fold_left (fun m ph => put (p_vaddr ph) (seg_data ph) m) segs m.
Definition seg_in_file (ph : Elf_Phdr) : Prop :=
  0 <= p_offset ph /\ 0 <= seg_size ph /\ p_offset ph + seg_size ph <= flen.

Lemma image_ext segs : forall m m' x, (forall y, m y = m' y) -> image segs m x = image segs m' x.
Proof using Type. induction segs as [|ph segs IH]; intros m m' x H; [apply H|]. cbn [image fold_left]. apply IH. intros y. by apply put_ext. Qed.
Lemma read_struct_ok off n s : 0 <= off -> 0 <= n -> off + n <= flen -> read_struct f off n s = Done (Ok (slice off n bytes), s).
Proof using Hread.
  intros Ho Hn Hl. destruct (Hread off n Ho Hn) as [H1 H2]. unfold read_struct. destruct (vop_read f off n) as [e ps].
  cbn [fst snd] in *. rewrite H1, H2, length_file_slice by done. by rewrite Z.sub_diag.
Qed.
Lemma read_phdr_ok eh i s : phdr_off eh i + sizeof_phdr <= flen -> read_phdr f eh i s = Done (Ok (phdr_at eh i), s).
Proof using Hread.
  intros H. unfold read_phdr, ebind. erewrite bind_Done.
  2: { apply read_struct_ok; [|done|exact H]. apply uwrap_range. lia. }
  done.
Qed.
Lemma load_segment_ok P s A i p ph : filling P s A i p -> seg_in_file ph -> covered P (pm p) (p_vaddr ph) (seg_size ph) ->
  exists s', load_segment f (p_offset ph) (p_vaddr ph) (p_memsz ph) (p_filesz ph) s = Done (0, s') /\
    filled P s A i p (put (p_vaddr ph) (seg_data ph) (pm p)) s'.
Proof using Hread.
  intros Hf (Ho & Hs & Hl) Hc. unfold load_segment.
  assert ((if p_memsz ph <? p_filesz ph then p_memsz ph else p_filesz ph) = seg_size ph) as ->.
  { unfold seg_size. destruct (Z.ltb_spec (p_memsz ph) (p_filesz ph)); lia. }
  destruct (Hread (p_offset ph) (seg_size ph) Ho Hs) as [H1 H2]. destruct (vop_read f (p_offset ph) (seg_size ph)) as [e ps].
  cbn [fst snd] in *. subst e. fold (seg_data ph) in H2.
  assert (Z.of_nat (length (seg_data ph)) = seg_size ph) as Hlen by by apply length_file_slice.
  destruct (move_pieces_ok P ps (p_vaddr ph) s A i p Hf) as (s' & Hm & Hf'); [by rewrite H2, Hlen|].
  rewrite H2, Hlen in Hm. rewrite H2 in Hf'. exists s'. split; [|done]. erewrite bind_Done by exact Hm.
  change (0 =? 0) with true. cbn [negb]. by rewrite Z.sub_diag.
Qed.

(** ** The two loops *)

(** The machine while a process is loaded: its space is the last one. *)
Definition loading (v : vmstate) (sp : list addrspace) (a : addrspace) (o : Z) : lst :=
  Lst (Sys v (sp ++ [a]) (Some (length sp))) o.
Lemma t_addrspace_ok v sp a o : t_addrspace (loading v sp a o) = Done (a, loading v sp a o).
Proof using Type. unfold t_addrspace, loading, cur_as. mrun. cbn. by rewrite lookup_app_r, Nat.sub_diag by lia. Qed.
Lemma set_addrspace_ok v sp a o a' : set_addrspace a' (loading v sp a o) = Done (tt, loading v sp a' o).
Proof using Type.
  unfold set_addrspace, loading, with_machine. mrun. cbn. do 3 f_equal. rewrite insert_app_r_alt, Nat.sub_diag by lia. done.
Qed.
(** The regions of some segments, up to one that cannot be had. *)
Fixpoint define_all (segs : list Elf_Phdr) (a : addrspace) : Z * addrspace :=
  match segs with
  | [] => (0, a)
  | ph :: r =>
      let '(e, a) := as_define_region a (p_vaddr ph) (p_memsz ph) in
      if e =? 0 then define_all r a else (e, a)
  end.
Lemma define_regions_run eh n : forall i v sp a o, known eh n i ->
  define_regions f eh n i (loading v sp a o) =
    let '(e, a') := define_all (loads (headers eh n i)) a in Done (e, loading v sp a' o).
Proof using Hread.
  induction n as [|n IH]; intros i v sp a o Hk; [done|]. cbn [define_regions].
  destruct (Hk i ltac:(lia)) as [Hin Hty]. erewrite bind_Done by by apply read_phdr_ok.
  assert (headers eh (S n) i = phdr_at eh i :: headers eh n (i + 1)) as Eh.
  { unfold headers. rewrite seqZ_cons by lia. cbn [map]. do 3 f_equal; lia. }
  rewrite Eh. unfold loads. rewrite filter_cons. specialize (IH (i + 1)).
  assert (known eh n (i + 1)) as Hk' by (intros j Hj; apply Hk; lia).
  destruct (skipped (p_type (phdr_at eh i))) eqn:Es.
  - rewrite decide_False; [by apply IH|]. intros E. rewrite E in Es. done.
  - destruct Hty as [?|Hty]; [done|]. rewrite decide_True, Hty by done. cbn [negb].
    change (PT_LOAD =? PT_LOAD) with true. cbn [negb]. erewrite bind_Done by apply t_addrspace_ok. cbn [define_all].
    destruct (as_define_region a (p_vaddr (phdr_at eh i)) (p_memsz (phdr_at eh i))) as [e a1].
    erewrite bind_Done by apply set_addrspace_ok. destruct (e =? 0); cbn [negb]; [by apply IH|done].
Qed.
Lemma load_segments_run P eh n : forall i s A k p, known eh n i -> filling P s A k p ->
  Forall (fun ph => seg_in_file ph /\ covered P (pm p) (p_vaddr ph) (seg_size ph)) (loads (headers eh n i)) ->
  exists s', load_segments f eh n i s = Done (0, s') /\ filled P s A k p (image (loads (headers eh n i)) (pm p)) s'.
Proof using Hread.
  induction n as [|n IH]; intros i s A k p Hk Hf Hall; [exists s; split; [done|by apply filled_refl]|]. cbn [load_segments].
  destruct (Hk i ltac:(lia)) as [Hin Hty]. erewrite bind_Done by by apply read_phdr_ok.
  assert (headers eh (S n) i = phdr_at eh i :: headers eh n (i + 1)) as Eh.
  { unfold headers. rewrite seqZ_cons by lia. cbn [map]. do 3 f_equal; lia. }
  rewrite Eh in *. unfold loads in *. rewrite filter_cons in *.
  assert (known eh n (i + 1)) as Hk' by (intros j Hj; apply Hk; lia).
  destruct (skipped (p_type (phdr_at eh i))) eqn:Es.
  - rewrite decide_False in * by (intros E; by rewrite E in Es). by apply IH.
  - destruct Hty as [?|Hty]; [done|]. rewrite decide_True in * by done. rewrite Hty.
    apply Forall_cons in Hall as [[Hsf Hc] Hall]. change (PT_LOAD =? PT_LOAD) with true. cbn [negb].
    destruct (load_segment_ok P s A k p _ Hf Hsf Hc) as (s1 & Hs1 & Hf1).
    eapply filled_then; [exact Hf1|]. intros A1 p1 Hg Hp1 Hback. destruct (IH (i + 1) s1 A1 k p1 Hk' Hg) as (s' & Hs' & Hf').
    { eapply Forall_impl; [exact Hall|]. intros ph [H1 H2]. split; [done|].
      eapply covered_ext; [intros x; symmetry; apply Hp1|]. by apply covered_put. }
    exists s'. erewrite bind_Done by exact Hs1. split; [exact Hs'|]. apply Hback in Hf'. eapply filled_ext; [|exact Hf'].
    intros x. cbn [image fold_left]. apply image_ext, Hp1.
Qed.

(** ** Starting a program *)

(** A program with two segments, which is what an address space of dumbvm.c has
    room for, and few enough pages to be loaded through the TLB. *)
Record executable (ph1 ph2 : Elf_Phdr) : Prop := Executable {
  x_long : sizeof_ehdr <= flen;
  x_header : bad_header ehdr_of = false;
  x_known : known ehdr_of (Z.to_nat (e_phnum ehdr_of)) 0;
  x_loads : loads (headers ehdr_of (Z.to_nat (e_phnum ehdr_of)) 0) = [ph1; ph2];
  x_seg1 : segment_ok (p_vaddr ph1) (p_memsz ph1) /\ seg_in_file ph1;
  x_seg2 : segment_ok (p_vaddr ph2) (p_memsz ph2) /\ seg_in_file ph2;
  x_pages : page_count (p_vaddr ph1) (seg_size ph1) + page_count (p_vaddr ph2) (seg_size ph2) <= Z.of_nat NUM_TLB
}.
Definition pages (v n : Z) : list Z := map (fun k => v - v mod PAGE_SIZE + k * PAGE_SIZE) (seqZ 0 (page_count v n)).
Lemma pages_in v n x : 0 <= v -> v <= x < v + n -> x - x mod PAGE_SIZE ∈ pages v n.
Proof using Type.
  intros Hv Hx. unfold pages. apply list_elem_of_fmap. exists ((x - x mod PAGE_SIZE - (v - v mod PAGE_SIZE)) / PAGE_SIZE).
  unfold page_count, PAGE_SIZE. split; [dlia|]. apply elem_of_seqZ. dlia.
Qed.
Lemma length_pages v n : 0 <= v -> 0 <= n -> Z.of_nat (length (pages v n)) = page_count v n.
Proof using Type. intros. unfold pages. rewrite length_map, length_seqZ. unfold page_count, PAGE_SIZE. dlia. Qed.
Lemma define_two ph1 ph2 a : segment_ok (p_vaddr ph1) (p_memsz ph1) -> as_create true = Some a ->
  exists a1 a2, as_define_region a (p_vaddr ph1) (p_memsz ph1) = (0, a1) /\
    as_define_region a1 (p_vaddr ph2) (p_memsz ph2) = (0, a2) /\ define_all [ph1; ph2] a = (0, a2).
Proof using Type.
  intros H1 [= <-]. rewrite (as_define_region_spec _ (p_vaddr ph1)) by done. cbn zeta. cbn [as_vbase1].
  change (0 =? 0) with true. cbn iota. eexists _, _. split; [done|]. unfold as_define_region at 1. cbn [as_vbase1 as_vbase2].
  assert ((p_vaddr ph1 - p_vaddr ph1 mod PAGE_SIZE =? 0) = false) as E.
  { apply Z.eqb_neq. destruct H1 as (? & _ & _). unfold PAGE_SIZE in *. dlia. }
  rewrite E. change (0 =? 0) with true. cbn iota. split; [reflexivity|]. cbn [define_all].
  rewrite (as_define_region_spec _ (p_vaddr ph1)) by done. cbn zeta. cbn [as_vbase1]. change (0 =? 0) with true. cbn iota.
  unfold as_define_region at 1. cbn [as_vbase1 as_vbase2]. rewrite E. done.
Qed.
(** The address space of a new process, activated before its regions are
    defined, and what the specification makes of it. *)
Lemma prepared c A ph1 ph2 a a2 : rel c A -> cur c = None ->
  segment_ok (p_vaddr ph1) (p_memsz ph1) -> segment_ok (p_vaddr ph2) (p_memsz ph2) ->
  as_create true = Some a -> define_all [ph1; ph2] a = (0, a2) ->
  forall free, grab3 (page_count (p_vaddr ph1) (p_memsz ph1)) (page_count (p_vaddr ph2) (p_memsz ph2)) DUMBVM_STACKPAGES (afree A) = (true, free) ->
  let p := Proc (zero_mem (p_vaddr ph1) (p_memsz ph1) (p_vaddr ph2) (p_memsz ph2))
             (page_count (p_vaddr ph1) (p_memsz ph1)) (page_count (p_vaddr ph2) (p_memsz ph2)) in
  exists a3 s', as_prepare_load a2 (with_tlb reset_tlb (vm c)) = Done ((0, a3), s') /\
    rel (Sys s' (spaces c ++ [a3]) (Some (length (spaces c)))) (Spec (procs A ++ [p]) (Some (length (procs A))) [] free) /\
    as_stackpbase a3 <> 0.
Proof using Type.
  intros Hr Hc H1 H2 Ha Hd free Hg p. set (v1 := with_tlb reset_tlb (vm c)).
  pose proof Hr as [Rm Rf Rc Rn Rt Rto Rsp Rok Rd].
  assert (rel (Sys v1 (spaces c) None) (Spec (procs A) None [] (afree A))) as Hr1.
  { split; cbn [vm spaces cur procs acur touched afree v1 with_tlb tlb]; try done. apply reset_tlb_ok. }
  destruct (define_two ph1 ph2 a H1 Ha) as (a1 & a2' & E1 & E2 & E3). rewrite Hd in E3. injection E3 as <-.
  destruct (new_space_spec (p_vaddr ph1) (p_memsz ph1) (p_vaddr ph2) (p_memsz ph2) true v1) as (r & s' & Hn & Hp); [apply Hr1|done|done|].
  unfold new_space in Hn. rewrite Ha, E1 in Hn. change (0 =? 0) with true in Hn. cbn [negb] in Hn. rewrite E2 in Hn.
  change (0 =? 0) with true in Hn. cbn [negb] in Hn. apply bind_inv in Hn as ([e a3] & s1 & Hpl & Hn).
  pose proof Hp as (Hgr & _ & Hfree & Hres). cbn [pn1 pn2] in Hfree.
  change (free_pages v1) with (free_pages (vm c)) in Hfree. rewrite Rf, Hg in Hfree.
  destruct r as [e'|new]; [done|]. destruct (Z.eqb_spec e 0) as [->|He]; [|done]. cbn [negb] in Hn.
  unfold mret, M_ret in Hn. injection Hn as -> ->.
  exists new, s'. split; [exact Hpl|]. destruct (rel_load _ _ _ _ _ _ Hr1 Hp) as (c2 & E & Hr2).
  cbn [push_space spaces cur] in E. unfold a_load in E, Hr2. cbn [pn1 pn2 afree] in E, Hr2. rewrite Hg in E, Hr2. injection E as <-.
  split.
  - destruct Hgr as (_ & Htlb & _ & _). destruct Hr2 as [? ? ? ? ? ? ? ? ?].
    split; cbn [vm spaces cur procs acur touched afree fst snd] in *; try done.
    + by rewrite (Forall2_length _ _ _ Rsp).
    + intros j [= <-]. rewrite length_app. cbn. lia.
    + rewrite Htlb. apply reset_tlb_ok.
  - destruct Hres as (b & -> & [_ _ _ _ (? & _)] & _). lia.
Qed.
Lemma seg_covered ph1 ph2 ph : executable ph1 ph2 -> ph = ph1 \/ ph = ph2 ->
  covered (pages (p_vaddr ph1) (seg_size ph1) ++ pages (p_vaddr ph2) (seg_size ph2))
    (zero_mem (p_vaddr ph1) (p_memsz ph1) (p_vaddr ph2) (p_memsz ph2)) (p_vaddr ph) (seg_size ph).
Proof using Type.
  intros [_ _ _ _ [(A1 & A2 & A3) _] [(B1 & B2 & B3) _] _] Hph.
  assert (forall x, p_vaddr ph <= x < p_vaddr ph + seg_size ph ->
    is_Some (zero_mem (p_vaddr ph1) (p_memsz ph1) (p_vaddr ph2) (p_memsz ph2) x)) as Hz.
  { intros x Hx. unfold zero_mem. rewrite !in_region_spec. destruct Hph as [-> | ->]; unfold seg_size in Hx;
      [rewrite (bool_decide_eq_true_2 (_ <= x < p_vaddr ph1 - _ + _))|rewrite (bool_decide_eq_true_2 (_ <= x < p_vaddr ph2 - _ + _))];
      rewrite ?orb_true_r; cbn [orb]; try done; unfold page_count, PAGE_SIZE in *; dlia. }
  unfold covered. destruct Hph as [-> | ->]; unfold PAGE_SIZE in *; split_and!;
    try (unfold seg_size; lia); intros x Hx; (split; [by apply Hz|]); apply elem_of_app; [left|right]; apply pages_in; lia.
Qed.
Lemma load_elf_steps v sp a o a2 a3 v' s2 b : sizeof_ehdr <= flen -> bad_header ehdr_of = false ->
  known ehdr_of (Z.to_nat (e_phnum ehdr_of)) 0 ->
  define_all (loads (headers ehdr_of (Z.to_nat (e_phnum ehdr_of)) 0)) a = (0, a2) ->
  as_prepare_load a2 v = Done ((0, a3), v') ->
  load_segments f ehdr_of (Z.to_nat (e_phnum ehdr_of)) 0 (loading v' sp a3 o) = Done (0, s2) ->
  cur_as (machine s2) = Some b ->
  load_elf f (loading v sp a o) = Done (Ok (e_entry ehdr_of), s2).
Proof using Hread.
  intros X1 X2 X3 Hd Hpl Hs2 Hb. unfold load_elf, ebind. erewrite bind_Done by by apply read_struct_ok.
  cbv beta iota zeta. change (decode_ehdr (slice 0 sizeof_ehdr bytes)) with ehdr_of. rewrite X2.
  erewrite bind_Done. 2: { rewrite define_regions_run by done. rewrite Hd. reflexivity. }
  change (0 =? 0) with true. cbn [negb]. erewrite bind_Done by apply t_addrspace_ok.
  erewrite (bind_Done (on_vm _)). 2: { unfold on_vm, loading. cbn [machine vm]. rewrite Hpl. reflexivity. }
  change (with_machine _ _) with (loading v' sp a2 o). cbv beta iota.
  erewrite bind_Done by apply set_addrspace_ok. change (0 =? 0) with true. cbn [negb]. erewrite bind_Done by exact Hs2.
  change (0 =? 0) with true. cbn [negb]. unfold t_addrspace. mrun. by rewrite Hb.
Qed.
(** C10: A program that can be read in full, with a valid header, known program
    headers and two segments whose data is in the file and whose memory is user
    memory above the first page, is
    started at its entry point with the top of its stack, provided that what its
    segments have in the file touches no more pages than the TLB has entries
    (64) and that the free memory has room for its pages.  Its memory is zero
    but for what its segments have in the file, no other process's memory
    changes, and the file is closed again. *)
Theorem runprogram_starts c A o ph1 ph2 free : executable ph1 ph2 -> rel c A -> cur c = None ->
  grab3 (page_count (p_vaddr ph1) (p_memsz ph1)) (page_count (p_vaddr ph2) (p_memsz ph2)) DUMBVM_STACKPAGES (afree A) = (true, free) ->
  exists c' p T, runprogram f 0 true (Lst c o) = Done (Ok (e_entry ehdr_of, USERSTACK), Lst c' o) /\
    rel c' (Spec (procs A ++ [p]) (Some (length (procs A))) T free) /\
    forall x, pm p x = image [ph1; ph2] (zero_mem (p_vaddr ph1) (p_memsz ph1) (p_vaddr ph2) (p_memsz ph2)) x.
Proof using Hread.
  intros Hx Hr Hc Hg. pose proof Hx as [X1 X2 X3 X4 [X5 X5'] [X6 X6'] X7].
  destruct (as_create true) as [a|] eqn:Ha; [|done]. destruct (define_two ph1 ph2 a X5 Ha) as (a1 & a2 & _ & _ & Hd).
  destruct (prepared c A ph1 ph2 a a2 Hr Hc X5 X6 Ha Hd free Hg) as (a3 & s' & Hpl & Hrel & Hst).
  set (n := length (spaces c)) in *. set (P := pages (p_vaddr ph1) (seg_size ph1) ++ pages (p_vaddr ph2) (seg_size ph2)).
  set (p0 := Proc _ _ _) in Hrel.
  assert (filling P (loading s' (spaces c) a3 (o + 1)) (Spec (procs A ++ [p0]) (Some (length (procs A))) [] free) (length (procs A)) p0) as Hf.
  { split; cbn [acur procs touched]; [exact Hrel|done|by rewrite lookup_app_r, Nat.sub_diag by lia|constructor|set_solver|].
    unfold P. rewrite length_app. pose proof (length_pages (p_vaddr ph1) (seg_size ph1)). pose proof (length_pages (p_vaddr ph2) (seg_size ph2)).
    destruct X5 as (? & _ & _), X6 as (? & _ & _), X5' as (_ & ? & _), X6' as (_ & ? & _). unfold PAGE_SIZE in *. lia. }
  destruct (load_segments_run P ehdr_of (Z.to_nat (e_phnum ehdr_of)) 0 _ _ _ _ X3 Hf) as (s2 & Hs2 & (Ho & T & p & Hf2 & _ & _ & Hm)).
  { rewrite X4. apply Forall_cons. split; [split; [done|]|apply Forall_singleton; split; [done|]]; apply seg_covered; auto. }
  rewrite X4 in Hm. cbn [procs acur afree] in Hf2. rewrite insert_app_r_alt, Nat.sub_diag in Hf2 by lia. cbn in Hf2.
  exists (machine s2), p, T. split; [|split; [apply Hf2|exact Hm]].
  assert (exists b, cur_as (machine s2) = Some b /\ as_stackpbase b <> 0) as (b & Hb & Hb0).
  { pose proof (fill_rel _ _ _ _ _ Hf2) as [_ _ Rc Rn _ _ Rsp Rok _]. cbn [acur] in Rc. unfold cur_as. rewrite Rc. cbn.
    destruct (spaces (machine s2) !! length (procs A)) as [b|] eqn:E; [|].
    - exists b. split; [done|]. pose proof (Forall_lookup_1 _ _ _ _ Rok E) as [[_ _ _ _ (? & _)] _]. lia.
    - apply lookup_ge_None in E. specialize (Rn _ Rc). lia. }
  unfold runprogram, file_open. change (0 =? 0) with true. cbn [negb].
  erewrite bind_Done by reflexivity. change (0 =? 0) with true. cbn [negb]. erewrite bind_Done by reflexivity. cbn [with_opens machine]. rewrite Hc.
  erewrite bind_Done by reflexivity. rewrite Ha. erewrite bind_Done by reflexivity.
  assert (on_vm as_activate (loading (vm c) (spaces c) a (o + 1)) = Done (tt, loading (with_tlb reset_tlb (vm c)) (spaces c) a (o + 1))) as Hact.
  { unfold on_vm, loading. cbn [machine vm]. rewrite as_activate_spec by (pose proof (r_tlb _ _ Hr) as Ht; by destruct Ht). done. }
  erewrite bind_Done by exact Hact.
  assert (load_elf f (loading (with_tlb reset_tlb (vm c)) (spaces c) a (o + 1)) = Done (Ok (e_entry ehdr_of), s2)) as Hload.
  { eapply load_elf_steps; [done|done|done|by rewrite X4|exact Hpl|exact Hs2|exact Hb]. }
  erewrite bind_Done by exact Hload. cbv beta iota. unfold file_close, t_addrspace, as_define_stack. mrun. cbn [with_opens machine].
  rewrite Hb. cbv beta iota. rewrite (proj2 (Z.eqb_neq _ _) Hb0). cbn. unfold with_opens. cbn in Ho. rewrite Ho. do 3 f_equal. lia.
Qed.
End loading.

(** ** The file is closed on every path *)
Definition keeps {A} (m : M lst A) : Prop := forall s a s', m s = Done (a, s') -> opens s' = opens s.
Create HintDb keeps discriminated.
Lemma keeps_ret {A} (a : A) : keeps (mret a).
Proof. intros s a' s' [= <- <-]. done. Qed.
Lemma keeps_bind {A B} (m : M lst A) (k : A -> M lst B) : keeps m -> (forall a, keeps (k a)) -> keeps (m ≫= k).
Proof. intros Hm Hk s b s' H. apply bind_inv in H as (a & s1 & H1 & H2). apply Hk in H2. apply Hm in H1. congruence. Qed.
Lemma keeps_on_vm {A} (m : M vmstate A) : keeps (on_vm m).
Proof. intros s a s'. unfold on_vm. destruct (m _) as [[a' v]|]; [|done]. intros [= <- <-]. done. Qed.
Lemma keeps_t_addrspace : keeps t_addrspace.
Proof. intros s a s'. unfold t_addrspace. mrun. destruct (cur_as _); [|done]. intros [= <- <-]. done. Qed.
Lemma keeps_set_addrspace a : keeps (set_addrspace a).
Proof. intros s x s'. unfold set_addrspace. mrun. intros [= <- <-]. by destruct (cur (machine s)). Qed.
Lemma keeps_user_store v b : keeps (user_store v b).
Proof. intros s x s'. unfold user_store. destruct (cstep _ _) as [[[] c]|]; [..|done]; intros [= <- <-]; done. Qed.
#[export] Hint Resolve keeps_ret keeps_on_vm keeps_t_addrspace keeps_set_addrspace keeps_user_store : keeps.
Ltac keep := repeat first
  [ solve [eauto with keeps] | apply keeps_bind; [|intros ?]
  | match goal with |- keeps (let '(_, _) := ?x in _) => destruct x end
  | match goal with |- keeps (match ?x with _ => _ end) => destruct x end ].
Lemma keeps_store_bytes data v : keeps (store_bytes v data).
Proof. revert v. induction data; intros v; cbn [store_bytes]; keep. Qed.
#[export] Hint Resolve keeps_store_bytes : keeps.
Lemma keeps_move_pieces ps v : keeps (move_pieces v ps).
Proof. revert v. induction ps as [|d ps IH]; intros v; cbn [move_pieces]; unfold uiomove_user; keep. Qed.
#[export] Hint Resolve keeps_move_pieces : keeps.
Section keeping.
Context {F : Type} `{!ExecFile F} (f : F).
Lemma keeps_read_struct off n : keeps (read_struct f off n).
Proof using Type. unfold read_struct. keep. Qed.
Lemma keeps_read_phdr eh i : keeps (read_phdr f eh i).
Proof using Type. unfold read_phdr, ebind. apply keeps_bind; [apply keeps_read_struct|]. intros []; keep. Qed.
Lemma keeps_define_regions eh n i : keeps (define_regions f eh n i).
Proof using Type. revert i. induction n as [|n IH]; intros i; cbn [define_regions]; [keep|]. apply keeps_bind; [apply keeps_read_phdr|]. intros []; keep. Qed.
Lemma keeps_load_segments eh n i : keeps (load_segments f eh n i).
Proof using Type.
  revert i. induction n as [|n IH]; intros i; cbn [load_segments]; [keep|]. apply keeps_bind; [apply keeps_read_phdr|].
  intros []; unfold load_segment; keep.
Qed.
Lemma keeps_load_elf : keeps (load_elf f).
Proof using Type.
  unfold load_elf, ebind. apply keeps_bind; [apply keeps_read_struct|]. intros [e|bs]; [keep|]. destruct (bad_header _); [keep|].
  apply keeps_bind; [apply keeps_define_regions|]. intros e. destruct (negb _); [keep|]. apply keeps_bind; [keep|]. intros a.
  apply keeps_bind; [keep|]. intros [e' a']. apply keeps_bind; [keep|]. intros _. destruct (negb _); [keep|].
  apply keeps_bind; [apply keeps_load_segments|]. intros e1. keep.
Qed.
(** Whatever the file holds and however far loading it comes, [runprogram] leaves no file open. *)
Lemma runprogram_closes r_open alloc_ok : keeps (runprogram f r_open alloc_ok).
Proof using Type.
  intros s r s' H. unfold runprogram, file_open in H. destruct (negb (r_open =? 0)) eqn:E.
  { apply bind_inv in H as (x & s1 & [= <- <-] & H). rewrite E in H. by injection H as <- <-. }
  apply bind_inv in H as (x & s1 & H1 & H). apply bind_inv in H1 as ([] & s2 & E1 & E2).
  injection E1 as E1. injection E2 as E2 E3. subst x s1 s2.
  change (0 =? 0) with true in H. cbn [negb] in H. apply bind_inv in H as (old & s3 & [= <- <-] & H).
  apply bind_inv in H as ([] & s4 & Hk & H). apply kassert_inv in Hk as [_ ->].
  destruct (as_create alloc_ok) as [a|].
  2: { apply bind_inv in H as ([] & s5 & [= <-] & [= <- <-]). cbn. lia. }
  apply bind_inv in H as ([] & s5 & [= <-] & H). apply bind_inv in H as ([] & s6 & H6 & H). apply keeps_on_vm in H6.
  apply bind_inv in H as (r' & s7 & H7 & H). apply keeps_load_elf in H7. cbn in H6. rewrite H6 in H7.
  destruct r' as [e|entry]; apply bind_inv in H as ([] & s8 & [= <-] & H).
  - injection H as <- <-. cbn. lia.
  - assert (keeps (a0 ← t_addrspace; '(result, stackptr) ← mlift (as_define_stack a0);
      if negb (result =? 0) then mret (Err result) else mret (Ok (entry, stackptr)))) as Hkeep.
    { apply keeps_bind; [keep|]. intros a0. apply keeps_bind; [|intros [? ?]; keep].
      intros t x t'. unfold mlift. destruct (as_define_stack a0); [|done]. by intros [= <- <-]. }
    apply Hkeep in H. cbn in H. rewrite H. lia.
Qed.
End keeping.

(** ** A third segment *)
Lemma define_three ph1 ph2 ph3 r a : segment_ok (p_vaddr ph1) (p_memsz ph1) -> segment_ok (p_vaddr ph2) (p_memsz ph2) ->
  segment_ok (p_vaddr ph3) (p_memsz ph3) -> as_create true = Some a -> (define_all (ph1 :: ph2 :: ph3 :: r) a).1 = EUNIMP.
Proof.
  intros H1 H2 H3 [= <-]. cbn [define_all].
  assert (forall ph, segment_ok (p_vaddr ph) (p_memsz ph) -> (p_vaddr ph - p_vaddr ph mod PAGE_SIZE =? 0) = false) as E.
  { intros ph (? & _ & _). apply Z.eqb_neq. unfold PAGE_SIZE in *. dlia. }
  rewrite (as_define_region_spec _ (p_vaddr ph1)) by done. cbn zeta. cbn [as_vbase1]. change (0 =? 0) with true. cbn iota.
  rewrite (as_define_region_spec _ (p_vaddr ph2)) by done. cbn zeta. cbn [as_vbase1 as_vbase2]. rewrite E by done.
  change (0 =? 0) with true. cbn iota. rewrite (as_define_region_spec _ (p_vaddr ph3)) by done. cbn zeta. cbn [as_vbase1 as_vbase2].
  by rewrite !E by done.
Qed.
(** Programs with three segments, which the comment in [load_elf] mentions, are
    refused by the regions of dumbvm.c. *)
Lemma third_segment_refused {F} `{!ExecFile F} (f : F) v sp a o ph1 ph2 ph3 r : readable f -> as_create true = Some a ->
  sizeof_ehdr <= Z.of_nat (length (contents f)) -> bad_header (ehdr_of f) = false ->
  known f (ehdr_of f) (Z.to_nat (e_phnum (ehdr_of f))) 0 ->
  loads (headers f (ehdr_of f) (Z.to_nat (e_phnum (ehdr_of f))) 0) = ph1 :: ph2 :: ph3 :: r ->
  Forall (fun ph => segment_ok (p_vaddr ph) (p_memsz ph)) [ph1; ph2; ph3] ->
  exists s', load_elf f (loading v sp a o) = Done (Err EUNIMP, s').
Proof.
  intros Hread Ha X1 X2 X3 X4 Hs. rewrite !Forall_cons in Hs. destruct Hs as (H1 & H2 & H3 & _).
  pose proof (define_three ph1 ph2 ph3 r a H1 H2 H3 Ha) as Hd. unfold load_elf, ebind. erewrite bind_Done by by apply read_struct_ok.
  cbv beta iota zeta. change (decode_ehdr (slice 0 sizeof_ehdr (contents f))) with (ehdr_of f). rewrite X2.
  destruct (define_all (ph1 :: ph2 :: ph3 :: r) a) as [e a'] eqn:Ed. cbn [fst] in Hd. subst e.
  eexists. erewrite bind_Done. 2: { rewrite define_regions_run by done. rewrite X4, Ed. reflexivity. }
  reflexivity.
Qed.

(** ** The theorem at work *)

(** A file that hands over its bytes in two pieces. *)
#[export] Instance list_file : ExecFile (list Z) := {
  contents := fun l => l;
  vop_read := fun l off n => let d := slice off n l in (0, [take 10 d; drop 10 d])
}.
Lemma list_readable (l : list Z) : readable l.
Proof. intros off n _ _. cbn. split; [done|]. by rewrite app_nil_r, take_drop. Qed.
(** A header, three program headers and two segments of 20 and 4 bytes. *)
Definition prog : list Z :=
  (good_ident ++ replicate 9 0) ++ be16 2 ++ be16 8 ++ be32 1 ++ be32 0x400010 ++ be32 52 ++ be32 0 ++ be32 0 ++
  be16 52 ++ be16 32 ++ be16 3 ++ be16 0 ++ be16 0 ++ be16 0 ++
  enc32 [PT_MIPS_REGINFO; 0; 0; 0; 0; 0; 4; 4] ++
  enc32 [PT_LOAD; 148; 0x400000; 0; 20; 20; 5; 4096] ++
  enc32 [PT_LOAD; 168; 0x10000000; 0; 4; 100; 6; 4096] ++
  replicate 20 77 ++ [1; 2; 3; 4].
Definition seg1 : Elf_Phdr := Phdr PT_LOAD 148 0x400000 20 20 5.
Definition seg2 : Elf_Phdr := Phdr PT_LOAD 168 0x10000000 4 100 6.
Lemma prog_executable : executable prog seg1 seg2.
Proof.
  assert (forall j, 0 <= j < 3 -> j = 0 \/ j = 1 \/ j = 2) as H3 by lia. split.
  - by vm_compute.
  - by vm_compute.
  - intros j Hj. change (Z.of_nat (Z.to_nat (e_phnum (ehdr_of prog)))) with 3 in Hj.
    destruct (H3 j Hj) as [->|[->| ->]]; (split; [by vm_compute|]); [left|right|right]; by vm_compute.
  - by vm_compute.
  - split; [split_and!; by vm_compute|split_and!; by vm_compute].
  - split; [split_and!; by vm_compute|split_and!; by vm_compute].
  - by vm_compute.
Qed.
Lemma runprogram_starts_witness : exists c' p, runprogram prog 0 true (Lst (boot 20) 0) = Done (Ok (0x400010, USERSTACK), Lst c' 0) /\
  pm p 0x10000003 = Some 4 /\ pm p 0x10000010 = Some 0 /\ pm p 0x500000 = None.
Proof.
  destruct (runprogram_starts prog (list_readable prog) (boot 20) (Spec [] None [] 20) 0 seg1 seg2 6) as (c' & p & T & H1 & _ & H3);
    [apply prog_executable|apply boot_rel; lia|reflexivity|by vm_compute|].
  exists c', p. split; [exact H1|]. rewrite !H3. split_and!; by vm_compute.
Defined.
