(* ===== verification/Malloc.v ===== *)
(** * The allocator of user programs (user/lib/libc/stdlib/malloc.c)

    A heap of blocks one after the other, each with a header of two words that
    hold its size and the size of the block below.  Memory is a map of words; an
    access outside the heap stops with [BadAccess], and a call of [errx] with
    [KPanic].  The system call [sbrk] is the class [Sbrk].

    The theorems say that the allocator implements a map of disjoint blocks for
    any number of calls of a program that asks for less than 2 GB at a time, uses
    its blocks correctly and frees no block without bytes, and that free
    neighbours are always merged.  Freeing a block without bytes can end the
    program, and requests near 4 GB are not refused. *)
From S2P Require Import Prelude.

Definition MBLOCKSIZE : Z := 8.
Definition MBLOCKSHIFT : Z := 3.
Definition MMAGIC : Z := 2.
(** [(void * )-1] *)
Definition MINUS1 : Z := 2 ^ 32 - 1.

(** [sbrk] moves the end of the heap up and returns the old one, or fails and
    leaves it; asking for nothing succeeds. *)
Class Sbrk (K : Type) : Type := {
  sbrk : Z -> K -> Z * K;
  brk : K -> Z;
  sbrk_moves : forall n k, 0 <= n < 2 ^ 31 ->
    sbrk n k = (MINUS1, k) \/ ((sbrk n k).1 = brk k /\ brk (sbrk n k).2 = brk k + n);
  sbrk_none : forall k, (sbrk 0 k).1 = brk k;
  brk_range : forall k, 0 < brk k < 2 ^ 31
}.

Section malloc.
Context {K : Type} `{!Sbrk K}.

Record mst := Mst { mem : gmap Z Z; heapbase : Z; heaptop : Z; kernel : K }.
Definition with_mem m (s : mst) := Mst m (heapbase s) (heaptop s) (kernel s).
Definition load (a : Z) : M mst Z := fun s =>
  if (heapbase s <=? a) && (a + 4 <=? heaptop s) then Done (mem s !!! a, s) else Stop BadAccess.
Definition store (a w : Z) : M mst unit := fun s =>
  if (heapbase s <=? a) && (a + 4 <=? heaptop s) then Done (tt, with_mem (<[a := u32 w]> (mem s)) s) else Stop BadAccess.
Definition errx {A} : M mst A := mstop KPanic.

(** The bit fields: 29 bits of size, one bit, two bits of magic. *)
Definition mh_prevblock (mh : Z) : M mst Z := w ← load mh; mret (w / 8).
Definition mh_nextblock (mh : Z) : M mst Z := w ← load (mh + 4); mret (w / 8).
Definition mh_inuse (mh : Z) : M mst bool := w ← load (mh + 4); mret (negb (w / 4 mod 2 =? 0)).
Definition set_prevblock (mh x : Z) : M mst unit := w ← load mh; store mh (x mod 2 ^ 29 * 8 + w mod 8).
Definition set_nextblock (mh x : Z) : M mst unit := w ← load (mh + 4); store (mh + 4) (x mod 2 ^ 29 * 8 + w mod 8).
Definition set_inuse (mh : Z) (b : bool) : M mst unit :=
  w ← load (mh + 4); store (mh + 4) (w / 8 * 8 + Z.b2z b * 4 + w mod 4).
(** [mh_pad = 0; mh_magic1 = MMAGIC;] and [mh_magic2 = MMAGIC;] *)
Definition set_magic1 (mh : Z) : M mst unit := w ← load mh; store mh (w / 8 * 8 + MMAGIC).
Definition set_magic2 (mh : Z) : M mst unit := w ← load (mh + 4); store (mh + 4) (w / 4 * 4 + MMAGIC).
Definition M_OK (mh : Z) : M mst bool :=
  w1 ← load mh; w2 ← load (mh + 4); mret ((w1 mod 4 =? MMAGIC) && (w2 mod 4 =? MMAGIC)).
Definition M_NEXTOFF (mh : Z) : M mst Z := n ← mh_nextblock mh; mret (u32 (Z.shiftl n MBLOCKSHIFT)).
Definition M_PREVOFF (mh : Z) : M mst Z := n ← mh_prevblock mh; mret (u32 (Z.shiftl n MBLOCKSHIFT)).
Definition M_NEXT (mh : Z) : M mst Z := n ← M_NEXTOFF mh; mret (u32 (mh + n)).
Definition M_PREV (mh : Z) : M mst Z := n ← M_PREVOFF mh; mret (u32 (mh - n)).
Definition M_DATA (mh : Z) : Z := u32 (mh + MBLOCKSIZE).
Definition M_SIZE (mh : Z) : M mst Z := n ← M_NEXTOFF mh; mret (u32 (n - MBLOCKSIZE)).
Definition M_MKFIELD (off : Z) : Z := Z.shiftr off MBLOCKSHIFT.

Definition call_sbrk (n : Z) : M mst Z := fun s =>
  let '(x, k) := sbrk n (kernel s) in Done (x, Mst (mem s) (heapbase s) (heaptop s) k).
Definition set_bounds (base top : Z) : M mst unit := mmodify (fun s => Mst (mem s) base top (kernel s)).
Definition __malloc_init : M mst unit :=
  s ← mget;
  if negb (heapbase s =? 0) || negb (heaptop s =? 0) then errx
  else
    x ← call_sbrk 0;
    if x =? MINUS1 then errx
    else if x =? 0 then errx
    else
      _ ← set_bounds x x;
      if negb (x mod MBLOCKSIZE =? 0) then
        let adjust := MBLOCKSIZE - x mod MBLOCKSIZE in
        y ← call_sbrk adjust;
        if y =? MINUS1 then errx
        else if negb (y =? x) then errx
        else set_bounds (u32 (x + adjust)) (u32 (x + adjust))
      else mret tt.
(** [None] is the null pointer. *)
Definition __malloc_sbrk (size : Z) : M mst (option Z) :=
  x ← call_sbrk size;
  if x =? MINUS1 then mret None
  else
    top ← mgets heaptop;
    if negb (x =? top) then errx
    else
      base ← mgets heapbase;
      _ ← set_bounds base (u32 (top + size));
      mret (Some x).
Definition __malloc_split (mh size : Z) : M mst unit :=
  if negb (size mod MBLOCKSIZE =? 0) then errx
  else
    sz ← M_SIZE mh;
    if u32 (sz - size) <? 2 * MBLOCKSIZE then mret tt
    else
      mhnext ← M_NEXT mh;
      oldsize ← M_SIZE mh;
      _ ← set_nextblock mh (M_MKFIELD (u32 (size + MBLOCKSIZE)));
      mhnew ← M_NEXT mh;
      if mhnew =? mhnext then errx
      else
        _ ← set_prevblock mhnew (M_MKFIELD (u32 (size + MBLOCKSIZE)));
        _ ← set_magic1 mhnew;
        _ ← set_nextblock mhnew (M_MKFIELD (u32 (oldsize - size)));
        _ ← set_inuse mhnew false;
        _ ← set_magic2 mhnew;
        top ← mgets heaptop;
        if negb (mhnext =? top) then
          n ← mh_nextblock mhnew; set_prevblock mhnext n
        else mret tt.
(** The search from [i] on: the address of the data, or what it knows of the last
    block when there is none. *)
Fixpoint search (fuel : nat) (size i rightprevblock : Z) : M mst (Z + Z) :=
  match fuel with
  | O => mstop NoFuel
  | S fuel' =>
      top ← mgets heaptop;
      if i <? top then
        ok ← M_OK i;
        if negb (ok : bool) then errx
        else
          p ← mh_prevblock i;
          if negb (p =? rightprevblock) then errx
          else
            rightprevblock ← mh_nextblock i;
            inuse ← mh_inuse i;
            sz ← M_SIZE i;
            if (inuse : bool) || (sz <? size) then
              off ← M_NEXTOFF i; search fuel' size (u32 (i + off)) rightprevblock
            else
              _ ← __malloc_split i size;
              _ ← set_inuse i true;
              mret (inl (M_DATA i))
      else if negb (i =? top) then errx
      else mret (inr rightprevblock)
  end.
Definition malloc (size : Z) : M mst (option Z) :=
  base ← mgets heapbase;
  _ ← (if base =? 0 then __malloc_init else mret tt);
  s ← mget;
  if (heapbase s =? 0) || (heaptop s =? 0) || (heaptop s <? heapbase s) then errx
  else
    let size := Z.land (u32 (size + MBLOCKSIZE - 1)) (u32 (Z.lnot (MBLOCKSIZE - 1))) in
    r ← search (S (Z.to_nat (heaptop s - heapbase s))) size (heapbase s) 0;
    match r with
    | inl p => mret (Some p)
    | inr rightprevblock =>
        x ← __malloc_sbrk (u32 (size + MBLOCKSIZE));
        match x with
        | None => mret None
        | Some mh =>
            _ ← set_prevblock mh rightprevblock;
            _ ← set_magic1 mh;
            _ ← set_magic2 mh;
            _ ← set_inuse mh true;
            _ ← set_nextblock mh (M_MKFIELD (u32 (size + MBLOCKSIZE)));
            mret (Some (M_DATA mh))
        end
    end.

Fixpoint deadbeef_loop (n : nat) (x : Z) : M mst unit :=
  match n with
  | O => mret tt
  | S n' => _ ← store x 0xdeadbeef; deadbeef_loop n' (x + 4)
  end.
Definition __malloc_deadbeef (ptr size : Z) : M mst unit := deadbeef_loop (Z.to_nat (size / 4)) ptr.
Definition __malloc_trymerge (mh mhnext : Z) : M mst unit :=
  n ← mh_nextblock mh;
  p ← mh_prevblock mhnext;
  if negb (n =? p) then errx
  else
    u1 ← mh_inuse mh;
    u2 ← (if (u1 : bool) then mret true else mh_inuse mhnext);
    if (u2 : bool) then mret tt
    else
      mhnextnext ← M_NEXT mhnext;
      s1 ← M_SIZE mh;
      s2 ← M_SIZE mhnext;
      _ ← set_nextblock mh (M_MKFIELD (u32 (MBLOCKSIZE + s1 + MBLOCKSIZE + s2)));
      top ← mgets heaptop;
      _ ← (if negb (mhnextnext =? top) then n ← mh_nextblock mh; set_prevblock mhnextnext n else mret tt);
      __malloc_deadbeef mhnext MBLOCKSIZE.
Definition free (x : option Z) : M mst unit :=
  match x with
  | None => mret tt
  | Some x =>
      s ← mget;
      if (heapbase s =? 0) || (heaptop s =? 0) || (heaptop s <? heapbase s) then errx
      else if (x <? heapbase s) || (heaptop s <=? x) then errx
      else
        let mh := u32 (x - MBLOCKSIZE) in
        ok ← M_OK mh;
        if negb (ok : bool) then errx
        else
          used ← mh_inuse mh;
          if negb (used : bool) then errx
          else
            _ ← set_inuse mh false;
            sz ← M_SIZE mh;
            _ ← __malloc_deadbeef (M_DATA mh) sz;
            mhnext ← M_NEXT mh;
            _ ← (if negb (mhnext =? heaptop s) then __malloc_trymerge mh mhnext else mret tt);
            if negb (mh =? heapbase s) then mhprev ← M_PREV mh; __malloc_trymerge mhprev mh else mret tt
  end.
End malloc.

(** ** Headers *)
Section heap.
Context {K : Type} `{!Sbrk K}.
Implicit Types m : gmap Z Z.

Definition word1 (p : Z) : Z := p * 8 + MMAGIC.
Definition word2 (n : Z) (u : bool) : Z := n * 8 + Z.b2z u * 4 + MMAGIC.
Definition field (x : Z) : Prop := 0 <= x < 2 ^ 28.
(** A heap between [base] and [top], and a place for a header in it. *)
Abbreviation st := (Mst (K := K)).
Definition inside (base top a : Z) : Prop := 0 < base /\ base <= a /\ a + 8 <= top /\ top < 2 ^ 31.
(** The header at [a]: a block of [n] units above one of [p] units. *)
Definition hdr m (a p n : Z) (u : bool) : Prop := m !!! a = word1 p /\ m !!! (a + 4) = word2 n u /\ field p /\ field n.

Lemma lt_eq m a w x : <[a := w]> m !!! x = if decide (x = a) then w else m !!! x.
Proof using Type. case_decide as E; [subst; apply lookup_total_insert_eq|apply lookup_total_insert_ne; congruence]. Qed.
Lemma load_ok m base top k a : base <= a -> a + 4 <= top -> load a (st m base top k) = Done (m !!! a, st m base top k).
Proof using Type. intros. unfold load. cbn. by rewrite !(proj2 (Z.leb_le _ _)) by lia. Qed.
Lemma store_word_ok m base top k a w : base <= a -> a + 4 <= top -> 0 <= w < 2 ^ 32 ->
  store a w (st m base top k) = Done (tt, st (<[a := w]> m) base top k).
Proof using Type.
  intros. unfold store. cbn. rewrite !(proj2 (Z.leb_le _ _)) by lia. unfold with_mem. cbn.
  by replace (u32 w) with w by (unfold u32, uwrap; rewrite Z.mod_small; lia).
Qed.
Section header.
Context m (base top : Z) (k : K) (a p n : Z) (u : bool).
Hypothesis Hin : inside base top a.
Hypothesis Hh : hdr m a p n u.
Lemma prevblock_ok : mh_prevblock a (st m base top k) = Done (p, st m base top k).
Proof using Hin Hh.
  destruct Hin as (? & ? & ? & ?), Hh as (E1 & E2 & ? & ?). unfold mh_prevblock. erewrite bind_Done by (apply load_ok; lia).
  rewrite E1. unfold word1, MMAGIC, mret, M_ret. do 2 f_equal. dlia.
Qed.
Lemma nextblock_ok : mh_nextblock a (st m base top k) = Done (n, st m base top k).
Proof using Hin Hh.
  destruct Hin as (? & ? & ? & ?), Hh as (E1 & E2 & ? & ?). unfold mh_nextblock. erewrite bind_Done by (apply load_ok; lia).
  rewrite E2. unfold word2, MMAGIC, mret, M_ret. do 2 f_equal. destruct u; cbn [Z.b2z]; dlia.
Qed.
Lemma inuse_ok : mh_inuse a (st m base top k) = Done (u, st m base top k).
Proof using Hin Hh.
  destruct Hin as (? & ? & ? & ?), Hh as (E1 & E2 & ? & ?). unfold mh_inuse. erewrite bind_Done by (apply load_ok; lia).
  rewrite E2. unfold word2, MMAGIC, mret, M_ret. do 2 f_equal.
  destruct u; cbn [Z.b2z]; [replace ((n * 8 + 1 * 4 + 2) / 4 mod 2) with 1 by dlia|replace ((n * 8 + 0 * 4 + 2) / 4 mod 2) with 0 by dlia]; done.
Qed.
Lemma M_OK_ok : M_OK a (st m base top k) = Done (true, st m base top k).
Proof using Hin Hh.
  destruct Hin as (? & ? & ? & ?), Hh as (E1 & E2 & ? & ?). unfold M_OK. erewrite bind_Done by (apply load_ok; lia).
  erewrite bind_Done by (apply load_ok; lia). rewrite E1, E2. unfold word1, word2, MMAGIC, mret, M_ret. do 2 f_equal.
  replace ((p * 8 + 2) mod 4) with 2 by dlia. destruct u; cbn [Z.b2z]; [replace ((n * 8 + 1 * 4 + 2) mod 4) with 2 by dlia|replace ((n * 8 + 0 * 4 + 2) mod 4) with 2 by dlia]; done.
Qed.
Lemma nextoff_ok : M_NEXTOFF a (st m base top k) = Done (8 * n, st m base top k).
Proof using Hin Hh.
  unfold M_NEXTOFF. erewrite bind_Done by apply nextblock_ok. destruct Hh as (_ & _ & _ & Hn). unfold field in Hn.
  unfold mret, M_ret. do 2 f_equal. unfold MBLOCKSHIFT. rewrite Z.shiftl_mul_pow2 by lia. unfold u32, uwrap. rewrite Z.mod_small; lia.
Qed.
Lemma prevoff_ok : M_PREVOFF a (st m base top k) = Done (8 * p, st m base top k).
Proof using Hin Hh.
  unfold M_PREVOFF. erewrite bind_Done by apply prevblock_ok. destruct Hh as (_ & _ & Hn & _). unfold field in Hn.
  unfold mret, M_ret. do 2 f_equal. unfold MBLOCKSHIFT. rewrite Z.shiftl_mul_pow2 by lia. unfold u32, uwrap. rewrite Z.mod_small; lia.
Qed.
Lemma size_ok : 1 <= n -> M_SIZE a (st m base top k) = Done (8 * n - 8, st m base top k).
Proof using Hin Hh.
  intros Hn1. unfold M_SIZE. erewrite bind_Done by apply nextoff_ok. destruct Hh as (_ & _ & _ & Hn). unfold field in Hn.
  unfold mret, M_ret. do 2 f_equal. unfold MBLOCKSIZE, u32, uwrap. rewrite Z.mod_small; lia.
Qed.
Lemma next_ok : a + 8 * n <= top -> M_NEXT a (st m base top k) = Done (a + 8 * n, st m base top k).
Proof using Hin Hh.
  intros Ht. unfold M_NEXT. erewrite bind_Done by apply nextoff_ok. destruct Hh as (_ & _ & _ & Hn), Hin as (? & ? & ? & ?). unfold field in Hn.
  unfold mret, M_ret. do 2 f_equal. unfold u32, uwrap. rewrite Z.mod_small; lia.
Qed.
Lemma prev_ok : base <= a - 8 * p -> M_PREV a (st m base top k) = Done (a - 8 * p, st m base top k).
Proof using Hin Hh.
  intros Ht. unfold M_PREV. erewrite bind_Done by apply prevoff_ok. destruct Hh as (_ & _ & Hn & _), Hin as (? & ? & ? & ?). unfold field in Hn.
  unfold mret, M_ret. do 2 f_equal. unfold u32, uwrap. rewrite Z.mod_small; lia.
Qed.
Lemma set_prevblock_ok x : field x -> set_prevblock a x (st m base top k) = Done (tt, st (<[a := word1 x]> m) base top k).
Proof using Hin Hh.
  intros Hx. destruct Hin as (? & ? & ? & ?), Hh as (E1 & E2 & ? & ?). unfold set_prevblock, field in *. erewrite bind_Done by (apply load_ok; lia).
  rewrite E1. replace (x mod 2 ^ 29 * 8 + word1 p mod 8) with (word1 x) by (unfold word1, MMAGIC; dlia).
  apply store_word_ok; [lia|lia|]. unfold word1, MMAGIC. lia.
Qed.
Lemma set_nextblock_ok x : field x -> set_nextblock a x (st m base top k) = Done (tt, st (<[a + 4 := word2 x u]> m) base top k).
Proof using Hin Hh.
  intros Hx. destruct Hin as (? & ? & ? & ?), Hh as (E1 & E2 & ? & ?). unfold set_nextblock, field in *. erewrite bind_Done by (apply load_ok; lia).
  rewrite E2. replace (x mod 2 ^ 29 * 8 + word2 n u mod 8) with (word2 x u) by (unfold word2, MMAGIC; destruct u; cbn [Z.b2z]; dlia).
  apply store_word_ok; [lia|lia|]. unfold word2, MMAGIC. destruct u; cbn [Z.b2z]; lia.
Qed.
Lemma set_inuse_ok b : set_inuse a b (st m base top k) = Done (tt, st (<[a + 4 := word2 n b]> m) base top k).
Proof using Hin Hh.
  destruct Hin as (? & ? & ? & ?), Hh as (E1 & E2 & ? & ?). unfold set_inuse, field in *. erewrite bind_Done by (apply load_ok; lia).
  rewrite E2. replace (word2 n u / 8 * 8 + Z.b2z b * 4 + word2 n u mod 4) with (word2 n b) by (unfold word2, MMAGIC; destruct u, b; cbn [Z.b2z]; dlia).
  apply store_word_ok; [lia|lia|]. unfold word2, MMAGIC. destruct b; cbn [Z.b2z]; lia.
Qed.
End header.

(** A header written where there was none. *)
Lemma raw_store m base top k a w : base <= a -> a + 4 <= top -> store a w (st m base top k) = Done (tt, st (<[a := u32 w]> m) base top k).
Proof using Type. intros. unfold store. cbn. by rewrite !(proj2 (Z.leb_le _ _)) by lia. Qed.
Lemma u32_mod8 w : u32 w mod 8 = w mod 8.
Proof using Type. unfold u32, uwrap. dlia. Qed.
Lemma u32_mod4 w : u32 w mod 4 = w mod 4.
Proof using Type. unfold u32, uwrap. dlia. Qed.
Lemma make_header m base top k a p n : inside base top a -> field p -> field n ->
  (_ ← set_prevblock a p; _ ← set_magic1 a; _ ← set_nextblock a n; _ ← set_inuse a false; set_magic2 a) (st m base top k) =
    Done (tt, st (<[a + 4 := word2 n false]> (<[a := word1 p]> m)) base top k).
Proof using Type.
  intros (? & ? & ? & ?) Hp Hn. unfold field in *.
  unfold set_prevblock, set_magic1, set_nextblock, set_inuse, set_magic2. cbv [mbind M_bind]. unfold mbind, M_bind.
  rewrite load_ok, raw_store, load_ok, raw_store, load_ok, raw_store, load_ok, raw_store, load_ok, raw_store by lia.
  rewrite !lt_eq. repeat (rewrite decide_True by lia || rewrite decide_False by lia). do 3 f_equal. apply map_eq. intros x.
  rewrite !lookup_insert. repeat case_decide; try done; f_equal; unfold word1, word2, MMAGIC, u32, uwrap; cbn [Z.b2z]; dlia.
Qed.
Lemma make_top_header m base top k a p n : inside base top a -> field p -> field n ->
  (_ ← set_prevblock a p; _ ← set_magic1 a; _ ← set_magic2 a; _ ← set_inuse a true; set_nextblock a n) (st m base top k) =
    Done (tt, st (<[a + 4 := word2 n true]> (<[a := word1 p]> m)) base top k).
Proof using Type.
  intros (? & ? & ? & ?) Hp Hn. unfold field in *.
  unfold set_prevblock, set_magic1, set_nextblock, set_inuse, set_magic2. unfold mbind, M_bind.
  rewrite load_ok, raw_store, load_ok, raw_store, load_ok, raw_store, load_ok, raw_store, load_ok, raw_store by lia.
  rewrite !lt_eq. repeat (rewrite decide_True by lia || rewrite decide_False by lia). do 3 f_equal. apply map_eq. intros x.
  rewrite !lookup_insert. repeat case_decide; try done; f_equal; unfold word1, word2, MMAGIC, u32, uwrap; cbn [Z.b2z]; dlia.
Qed.

(** ** A heap is a list of blocks *)
Record blk := Blk { bn : Z; bused : bool }.
Definition total (bs : list blk) : Z := fold_right (fun b z => 8 * bn b + z) 0 bs.
Definition lastn (p : Z) (bs : list blk) : Z := fold_left (fun _ b => bn b) bs p.
(** The blocks [bs] lie from [a] on, above a block of [p] units. *)
Fixpoint seg m (p a : Z) (bs : list blk) : Prop :=
  match bs with
  | [] => True
  | b :: r => hdr m a p (bn b) (bused b) /\ 1 <= bn b /\ seg m (bn b) (a + 8 * bn b) r
  end.
(** The words that belong to the program, and the blocks it holds. *)
Fixpoint used (a : Z) (bs : list blk) (x : Z) : Prop :=
  match bs with
  | [] => False
  | b :: r => (bused b = true /\ a + 8 <= x < a + 8 * bn b) \/ used (a + 8 * bn b) r x
  end.
Fixpoint live (a : Z) (bs : list blk) (q n : Z) : Prop :=
  match bs with
  | [] => False
  | b :: r => (bused b = true /\ q = a /\ n = bn b) \/ live (a + 8 * bn b) r q n
  end.
(** No two free blocks are neighbours. *)
Fixpoint merged (bs : list blk) : Prop :=
  match bs with
  | b :: r => match r with c :: _ => bused b = true \/ bused c = true | [] => True end /\ merged r
  | [] => True
  end.
Definition sized (bs : list blk) : Prop := Forall (fun b => 1 <= bn b) bs.

Lemma total_app l1 l2 : total (l1 ++ l2) = total l1 + total l2.
Proof using Type. induction l1 as [|b l IH]; cbn; [done|]. fold (total (l ++ l2)) (total l). lia. Qed.
Lemma total_cons b l : total (b :: l) = 8 * bn b + total l.
Proof using Type. done. Qed.
Lemma total_nonneg l : sized l -> 0 <= total l.
Proof using Type. induction 1; cbn; [lia|]. fold (total l). lia. Qed.
Lemma lastn_app p l1 l2 : lastn p (l1 ++ l2) = lastn (lastn p l1) l2.
Proof using Type. apply fold_left_app. Qed.
Lemma seg_app m p a l1 l2 : seg m p a (l1 ++ l2) <-> seg m p a l1 /\ seg m (lastn p l1) (a + total l1) l2.
Proof using Type.
  revert p a. induction l1 as [|b l IH]; intros p a; cbn [app seg]; [cbn; rewrite Z.add_0_r; tauto|].
  rewrite IH, total_cons. change (lastn p (b :: l)) with (lastn (bn b) l).
  replace (a + (8 * bn b + total l)) with (a + 8 * bn b + total l) by lia. tauto.
Qed.
Lemma seg_sized m p a l : seg m p a l -> sized l.
Proof using Type. revert p a. induction l as [|b l IH]; intros p a; [constructor|]. intros (_ & H1 & H2). constructor; [done|by eapply IH]. Qed.
Lemma used_app a l1 l2 x : used a (l1 ++ l2) x <-> used a l1 x \/ used (a + total l1) l2 x.
Proof using Type.
  revert a. induction l1 as [|b l IH]; intros a; cbn [app used]; [cbn; rewrite Z.add_0_r; tauto|].
  rewrite IH, total_cons. replace (a + (8 * bn b + total l)) with (a + 8 * bn b + total l) by lia. tauto.
Qed.
Lemma live_app a l1 l2 q n : live a (l1 ++ l2) q n <-> live a l1 q n \/ live (a + total l1) l2 q n.
Proof using Type.
  revert a. induction l1 as [|b l IH]; intros a; cbn [app live]; [cbn; rewrite Z.add_0_r; tauto|].
  rewrite IH, total_cons. replace (a + (8 * bn b + total l)) with (a + 8 * bn b + total l) by lia. tauto.
Qed.
Lemma used_range a l x : sized l -> used a l x -> a + 8 <= x < a + total l.
Proof using Type.
  intros Hs. revert a. induction Hs as [|b l Hb Hs IH]; intros a; [done|]. cbn [used]. rewrite total_cons.
  pose proof (total_nonneg l Hs). intros [[_ ?]|H']; [lia|]. specialize (IH _ H'). lia.
Qed.
Lemma live_range a l q n : sized l -> live a l q n -> a <= q /\ 1 <= n /\ q + 8 * n <= a + total l.
Proof using Type.
  intros Hs. revert a. induction Hs as [|b l Hb Hs IH]; intros a; [done|]. cbn [live]. rewrite total_cons.
  pose proof (total_nonneg l Hs). intros [(_ & -> & ->)|H']; [lia|]. specialize (IH _ H'). lia.
Qed.
Lemma live_split a l q n : live a l q n -> exists l1 l2, l = l1 ++ Blk n true :: l2 /\ q = a + total l1.
Proof using Type.
  revert a. induction l as [|b l IH]; intros a; [done|]. cbn [live]. intros [(Hu & -> & ->)|H].
  - exists [], l. cbn. split; [destruct b; cbn in Hu; by subst|lia].
  - destruct (IH _ H) as (l1 & l2 & -> & ->). exists (b :: l1), l2. split; [done|]. rewrite total_cons. lia.
Qed.
Lemma live_used a l q n x : live a l q n -> q + 8 <= x < q + 8 * n -> used a l x.
Proof using Type.
  intros H Hx. destruct (live_split _ _ _ _ H) as (l1 & l2 & -> & ->). apply used_app. right. left. by split.
Qed.
Lemma used_live a l x : used a l x -> exists q n, live a l q n /\ q + 8 <= x < q + 8 * n.
Proof using Type.
  revert a. induction l as [|b l IH]; intros a; [done|]. cbn [used live]. intros [[Hu Hx]|H].
  - exists a, (bn b). split; [by left|done].
  - destruct (IH _ H) as (q & n & Hq & Hx). exists q, n. split; [by right|done].
Qed.
Lemma seg_frame m m' p a l : (forall x, a <= x < a + total l -> m' !!! x = m !!! x) -> seg m p a l -> seg m' p a l.
Proof using Type.
  revert p a. induction l as [|b l IH]; intros p a Hm; [done|]. rewrite total_cons in Hm. cbn [seg].
  intros ((H1 & H2 & H3 & H4) & Hb & Hs). pose proof (total_nonneg _ (seg_sized _ _ _ _ Hs)).
  split; [split_and!; rewrite ?Hm by lia; done|]. split; [done|]. apply IH; [|done]. intros x Hx. apply Hm. lia.
Qed.
(** The block above is told of a new size. *)
Lemma seg_setprev m p p' a l : l <> [] -> field p' -> seg m p a l -> seg (<[a := word1 p']> m) p' a l.
Proof using Type.
  destruct l as [|b l]; [done|]. intros _ Hp. cbn [seg]. intros ((H1 & H2 & H3 & H4) & Hb & Hs).
  split; [split_and!; rewrite ?lt_eq, ?decide_True, ?decide_False by lia; done|]. split; [done|].
  eapply seg_frame; [|exact Hs]. intros x Hx. rewrite lt_eq, decide_False by lia. done.
Qed.
Lemma seg_insert_out m p a l x w : ~ (a <= x < a + total l) -> seg m p a l -> seg (<[x := w]> m) p a l.
Proof using Type. intros Hx. apply seg_frame. intros y Hy. rewrite lt_eq, decide_False by (intros ->; done). done. Qed.

(** Reads of memory after writes. *)
Ltac look := rewrite ?lt_eq; repeat (case_decide; try lia).

(** ** Operations on the list *)
Record good m (base top : Z) (bs : list blk) : Prop := Good {
  g_base : 0 < base /\ base mod 8 = 0;
  g_top : base + total bs = top;
  g_small : top < 2 ^ 31;
  g_seg : seg m 0 base bs
}.
Lemma good_at m base top l1 b l2 : good m base top (l1 ++ b :: l2) ->
  let a := base + total l1 in
  inside base top a /\ hdr m a (lastn 0 l1) (bn b) (bused b) /\ 1 <= bn b < 2 ^ 28 /\
  a + 8 * bn b + total l2 = top /\ sized l1 /\ sized l2.
Proof using Type.
  intros [[Hb _] Ht Hs Hseg] a. pose proof (seg_sized _ _ _ _ Hseg) as Hsz. apply seg_app in Hseg as [H1 (H2 & H3 & H4)].
  apply Forall_app in Hsz as [Hs1 Hs2]. apply Forall_cons in Hs2 as [_ Hs2]. rewrite total_app, total_cons in Ht.
  pose proof (total_nonneg _ Hs1). pose proof (total_nonneg _ Hs2). pose proof H2 as (_ & _ & _ & Hf). unfold field in Hf. fold a in H2.
  split_and!; try done; unfold a; try lia. unfold inside. lia.
Qed.
(** The header of the block above, or the top of the heap. *)
Lemma good_next m base top l1 b l2 : good m base top (l1 ++ b :: l2) ->
  let a := base + total l1 + 8 * bn b in
  match l2 with
  | [] => a = top
  | c :: _ => a <> top /\ inside base top a /\ hdr m a (bn b) (bn c) (bused c) /\ 1 <= bn c < 2 ^ 28
  end.
Proof using Type.
  intros Hg a. destruct l2 as [|c l2].
  - destruct (good_at _ _ _ _ _ _ Hg) as (_ & _ & _ & E & _). cbn in E. unfold a. lia.
  - assert (l1 ++ b :: c :: l2 = (l1 ++ [b]) ++ c :: l2) as E by by rewrite <- app_assoc. rewrite E in Hg.
    destruct (good_at _ _ _ _ _ _ Hg) as (H1 & H2 & H3 & H4 & H5 & H6).
    rewrite total_app, lastn_app in *. cbn [lastn fold_left] in H2. rewrite total_cons in H1, H2, H4. cbn in H1, H2, H4.
    pose proof (total_nonneg _ H6). replace (base + (total l1 + (8 * bn b + 0))) with a in H1, H2, H4 by (unfold a; lia).
    split_and!; [lia|done|done|lia|lia].
Qed.
Lemma used_skip base l1 n l2 x : sized l1 -> sized l2 -> 1 <= n -> used base (l1 ++ Blk n false :: l2) x ->
  ~ (base + total l1 <= x < base + total l1 + 8 * n) /\ x <> base + total l1 + 8 * n.
Proof using Type.
  intros H1 H2 Hn Hu. apply used_app in Hu as [Hu|[[? _]|Hu]]; [|done|].
  - apply used_range in Hu; [|done]. lia.
  - apply used_range in Hu; [|done]. cbn in Hu. lia.
Qed.
Lemma mkfield j : 0 <= j < 2 ^ 28 -> M_MKFIELD (u32 (8 * j)) = j.
Proof using Type.
  intros Hj. unfold M_MKFIELD, MBLOCKSHIFT. rewrite Z.shiftr_div_pow2 by lia. unfold u32, uwrap. rewrite Z.mod_small by lia. dlia.
Qed.
(** Another list of the same size in the place of a block. *)
Lemma good_replace m m' base top l1 b mid l2 : good m base top (l1 ++ b ++ l2) -> total mid = total b ->
  (forall x, base <= x < base + total l1 -> m' !!! x = m !!! x) -> seg m' (lastn 0 l1) (base + total l1) (mid ++ l2) ->
  good m' base top (l1 ++ mid ++ l2).
Proof using Type.
  intros [Hb Ht Hs Hseg] Htot Hm Hup. split; [done|rewrite !total_app in *; lia|done|]. apply seg_app in Hseg as [H1 _].
  apply seg_app. split; [by eapply seg_frame|done].
Qed.
(** The block above is told of its new neighbour below, unless there is none. *)
Lemma tell_above m base top k a n p p' l2 x : hdr m a p n false -> inside base top a -> a < x -> x + total l2 = top -> seg m p' x l2 ->
  exists m', (if negb (x =? top) then z ← mh_nextblock a; set_prevblock x z else mret tt) (st m base top k) = Done (tt, st m' base top k) /\
    (forall y, y <> x -> m' !!! y = m !!! y) /\ seg m' n x l2.
Proof using Type.
  intros Hh Hin Hx Ht Hseg'. pose proof Hin as (? & ? & ? & ?). pose proof Hh as (_ & _ & _ & Hn). destruct l2 as [|d l2].
  - exists m. cbn in Ht. rewrite (proj2 (Z.eqb_eq x top)) by lia. by split_and!.
  - pose proof Hseg' as (Hhd & Hd1 & Hs2). pose proof (total_nonneg _ (seg_sized _ _ _ _ Hs2)). rewrite total_cons in Ht.
    exists (<[x := word1 n]> m). rewrite (proj2 (Z.eqb_neq x top)) by lia. cbn [negb].
    erewrite bind_Done by (eapply nextblock_ok; [done|exact Hh]).
    erewrite set_prevblock_ok; [|unfold inside; lia|exact Hhd|done]. split; [done|].
    split; [intros y Hy; by rewrite lt_eq, decide_False|by eapply seg_setprev].
Qed.
Lemma split_ok m base top k l1 n l2 j : good m base top (l1 ++ Blk n false :: l2) -> 0 <= j -> j + 1 <= n ->
  let a := base + total l1 in
  exists m' n1 l, __malloc_split a (8 * j) (st m base top k) = Done (tt, st m' base top k) /\
    good m' base top (l1 ++ Blk n1 false :: l ++ l2) /\ j + 1 <= n1 /\
    (l = [] \/ exists r, l = [Blk r false]) /\
    (n1 = n /\ l = [] \/ n1 + total l / 8 = n) /\
    forall x, used base (l1 ++ Blk n false :: l2) x -> m' !!! x = m !!! x.
Proof using Type.
  intros Hg Hj Hjn a. pose proof Hg as [Hb0 Ht Hs Hseg].
  destruct (good_at _ _ _ _ _ _ Hg) as (Hin & Hh & Hbn & He & Hz1 & Hz2). fold a in Hin, Hh, He. cbn [bn bused] in *.
  unfold __malloc_split. replace ((8 * j) mod MBLOCKSIZE) with 0 by (unfold MBLOCKSIZE; dlia). change (0 =? 0) with true. cbn [negb].
  erewrite bind_Done by (eapply size_ok; [done|exact Hh|lia]).
  replace (u32 (8 * n - 8 - 8 * j)) with (8 * (n - 1 - j)) by (unfold u32, uwrap; rewrite Z.mod_small; lia).
  unfold MBLOCKSIZE. destruct (Z.ltb_spec (8 * (n - 1 - j)) (2 * 8)) as [Hsm|Hsm].
  { exists m, n, []. split; [done|]. cbn [app]. split; [done|]. split_and!; [done|by left|by left|done]. }
  pose proof (total_nonneg _ Hz2) as Hp2.
  erewrite bind_Done by (eapply next_ok; [done|exact Hh|lia]). erewrite bind_Done by (eapply size_ok; [done|exact Hh|lia]).
  replace (8 * j + 8) with (8 * (j + 1)) by lia. rewrite mkfield by lia.
  erewrite bind_Done by (eapply set_nextblock_ok; [done|exact Hh|unfold field; lia]). set (m1 := <[a + 4 := _]> m).
  assert (hdr m1 a (lastn 0 l1) (j + 1) false) as Hh1.
  { destruct Hh as (E1 & E2 & F1 & F2). unfold m1, hdr. look. split_and!; [done|done|done|unfold field; lia]. }
  erewrite bind_Done by (eapply next_ok; [done|exact Hh1|lia]).
  assert ((a + 8 * (j + 1) =? a + 8 * n) = false) as -> by (apply Z.eqb_neq; lia).
  set (b := a + 8 * (j + 1)). replace (8 * n - 8 - 8 * j) with (8 * (n - j - 1)) by lia. rewrite mkfield by lia.
  assert (inside base top b) as Hib by (destruct Hin as (? & ? & ? & ?); unfold inside, b; lia).
  set (m2 := <[b + 4 := word2 (n - j - 1) false]> (<[b := word1 (j + 1)]> m1)).
  pose proof (make_header m1 base top k b (j + 1) (n - j - 1) Hib ltac:(unfold field; lia) ltac:(unfold field; lia)) as Hmk. fold m2 in Hmk.
  assert (hdr m2 b (j + 1) (n - j - 1) false) as Hh2.
  { unfold m2, hdr. look. split_and!; [done|done|unfold field; lia|unfold field; lia]. }
  apply bind_inv in Hmk as ([] & t1 & M1 & Hmk). apply bind_inv in Hmk as ([] & t2 & M2 & Hmk).
  apply bind_inv in Hmk as ([] & t3 & M3 & Hmk). apply bind_inv in Hmk as ([] & t4 & M4 & M5).
  erewrite bind_Done by exact M1. erewrite bind_Done by exact M2. erewrite bind_Done by exact M3. erewrite bind_Done by exact M4.
  erewrite bind_Done by exact M5. erewrite bind_Done by reflexivity. cbn [heaptop].
  assert (forall x, a <= x < a + 8 * n \/ m2 !!! x = m !!! x) as Hout by (intros x; unfold m2, m1, b; rewrite !lt_eq; repeat case_decide; lia || auto).
  apply seg_app in Hseg as [_ (_ & _ & Hsg2)]. cbn [bn] in Hsg2. fold a in Hsg2. pose proof (total_nonneg _ Hz1).
  destruct (tell_above m2 base top k b (n - j - 1) (j + 1) n l2 (a + 8 * n)) as (m3 & Hr3 & Hm3 & Hup); [done|done|unfold b; lia|lia| |].
  { eapply seg_frame; [|exact Hsg2]. intros x Hx. destruct (Hout x); [lia|done]. }
  exists m3, (j + 1), [Blk (n - j - 1) false]. split; [exact Hr3|]. split; [|split_and!; [lia|right; by eexists|right; cbn; dlia|]].
  - apply (good_replace m m3 base top l1 [Blk n false] [Blk (j + 1) false; Blk (n - j - 1) false] l2 Hg).
    + cbn. lia.
    + intros x Hx. rewrite Hm3 by (unfold a; lia). destruct (Hout x); [unfold a in *; lia|done].
    + fold a. cbn [app seg bn bused]. fold b. replace (b + 8 * (n - j - 1)) with (a + 8 * n) by (unfold b; lia).
      assert (hdr m3 a (lastn 0 l1) (j + 1) false) as Ha3.
      { destruct Hh1 as (E1 & E2 & F1 & F2). unfold hdr. rewrite !Hm3 by lia. unfold m2, b. look. by split_and!. }
      assert (hdr m3 b (j + 1) (n - j - 1) false) as Hb3.
      { destruct Hh2 as (E1 & E2 & F1 & F2). unfold hdr. rewrite !Hm3 by (unfold b; lia). by split_and!. }
      split_and!; done || lia.
  - intros x Hx. apply (used_skip base l1 n l2 x) in Hx as [Hx Hx2]; [|done|done|lia]. rewrite Hm3 by done. by destruct (Hout x).
Qed.

(** Marking a block as used or free. *)
Lemma mark_good m base top l1 n u u' l2 : good m base top (l1 ++ Blk n u :: l2) ->
  good (<[base + total l1 + 4 := word2 n u']> m) base top (l1 ++ Blk n u' :: l2).
Proof using Type.
  intros Hg. pose proof Hg as [Hb Ht Hs Hseg]. destruct (good_at _ _ _ _ _ _ Hg) as (Hin & Hh & Hbn & He & Hz1 & Hz2). cbn [bn bused] in *.
  apply seg_app in Hseg as [H1 (_ & _ & H2)]. cbn [bn] in H2. pose proof (total_nonneg _ Hz1). split; [done|by rewrite total_app, !total_cons in *|done|].
  apply seg_app. split; [apply seg_insert_out; [lia|done]|]. cbn [seg bn bused]. split; [|split; [lia|]].
  - destruct Hh as (E1 & E2 & F1 & F2). unfold hdr. look. by split_and!.
  - apply seg_insert_out; [lia|done].
Qed.
(** A block the search passes over. *)
Definition passed (j : Z) (b : blk) : Prop := bused b = true \/ bn b < j + 1.
Record taken m base top bs j (x : Z) m' : Prop := Taken {
  tk_blocks : exists l1 n l2 n1 l, bs = l1 ++ Blk n false :: l2 /\ Forall (passed j) l1 /\ x = base + total l1 + 8 /\
    good m' base top (l1 ++ Blk n1 true :: l ++ l2) /\ j + 1 <= n1 /\ (l = [] \/ exists r, l = [Blk r false]) /\
    (n1 = n /\ l = [] \/ n1 + total l / 8 = n);
  tk_keeps : forall y, used base bs y -> m' !!! y = m !!! y
}.
Lemma search_ok m base top k j : 0 <= j < 2 ^ 28 -> forall l2 l1 fuel, good m base top (l1 ++ l2) -> Forall (passed j) l1 ->
  (length l2 < fuel)%nat ->
  (exists x m', search fuel (8 * j) (base + total l1) (lastn 0 l1) (st m base top k) = Done (inl x, st m' base top k) /\
     taken m base top (l1 ++ l2) j x m') \/
  (search fuel (8 * j) (base + total l1) (lastn 0 l1) (st m base top k) = Done (inr (lastn 0 (l1 ++ l2)), st m base top k) /\
     Forall (passed j) (l1 ++ l2)).
Proof using Type.
  intros Hj l2. induction l2 as [|b l2 IH]; intros l1 fuel Hg Hp Hf; (destruct fuel as [|fuel]; [cbn in Hf; lia|]); cbn [search].
  { right. rewrite app_nil_r in *. destruct Hg as [_ <- _ _]. erewrite bind_Done by reflexivity. cbn [heaptop].
    rewrite Z.ltb_irrefl, Z.eqb_refl. done. }
  destruct (good_at _ _ _ _ _ _ Hg) as (Hin & Hh & Hbn & He & Hz1 & Hz2). cbn [bn bused] in *. set (a := base + total l1) in *.
  pose proof (total_nonneg _ Hz2). pose proof Hin as (? & ? & ? & ?). erewrite bind_Done by reflexivity. cbn [heaptop].
  rewrite (proj2 (Z.ltb_lt _ _)) by lia. erewrite bind_Done by (eapply M_OK_ok; [done|exact Hh]). cbn [negb].
  erewrite bind_Done by (eapply prevblock_ok; [done|exact Hh]). rewrite Z.eqb_refl. cbn [negb].
  erewrite bind_Done by (eapply nextblock_ok; [done|exact Hh]). erewrite bind_Done by (eapply inuse_ok; [done|exact Hh]).
  erewrite bind_Done by (eapply size_ok; [done|exact Hh|lia]).
  destruct (bused b || (8 * bn b - 8 <? 8 * j)) eqn:E.
  - erewrite bind_Done by (eapply nextoff_ok; [done|exact Hh]).
    replace (u32 (a + 8 * bn b)) with (base + total (l1 ++ [b])).
    2: { rewrite total_app, total_cons. cbn. unfold u32, uwrap, a in *. rewrite Z.mod_small; lia. }
    replace (bn b) with (lastn 0 (l1 ++ [b])) by by rewrite lastn_app.
    replace (l1 ++ b :: l2) with ((l1 ++ [b]) ++ l2) in * by by rewrite <- app_assoc.
    apply IH; [done| |cbn in Hf; lia]. apply Forall_app. split; [done|]. apply Forall_singleton.
    apply orb_prop in E as [E|E]; [by left|right]. apply Z.ltb_lt in E. lia.
  - left. apply orb_false_iff in E as [Eu Es]. apply Z.ltb_ge in Es. destruct b as [n u]. cbn [bn bused] in *. subst u.
    destruct (split_ok m base top k l1 n l2 j Hg ltac:(lia) ltac:(lia)) as (m1 & n1 & l & Hs & Hg1 & Hn1 & Hl & Hsum & Hk). fold a in Hs.
    destruct (good_at _ _ _ _ _ _ Hg1) as (Hin1 & Hh1 & _). cbn [bn bused] in *. fold a in Hin1, Hh1.
    exists (a + 8), (<[a + 4 := word2 n1 true]> m1). split.
    + erewrite bind_Done by exact Hs. erewrite bind_Done by (eapply set_inuse_ok; [done|exact Hh1]).
      unfold mret, M_ret. do 3 f_equal. unfold M_DATA, MBLOCKSIZE, u32, uwrap. rewrite Z.mod_small; lia.
    + split.
      * exists l1, n, l2, n1, l. split_and!; [done|done|done|by eapply mark_good|done|done|done].
      * intros y Hy. apply Hk in Hy as E. apply used_skip in Hy as [Hy _]; [|done|done|lia]. rewrite lt_eq, decide_False; [done|].
        fold a in Hy. lia.
Qed.

(** Overwriting the data of a block. *)
Lemma deadbeef_ok base top k n : forall m x, base <= x -> x + 4 * Z.of_nat n <= top ->
  exists m', deadbeef_loop n x (st m base top k) = Done (tt, st m' base top k) /\
    forall y, ~ (x <= y < x + 4 * Z.of_nat n) -> m' !!! y = m !!! y.
Proof using Type.
  induction n as [|n IH]; intros m x Hx Ht; cbn [deadbeef_loop]; [by exists m|].
  erewrite bind_Done by (apply store_word_ok; lia). destruct (IH (<[x := 0xdeadbeef]> m) (x + 4)) as (m' & -> & Hm); [lia|lia|].
  exists m'. split; [done|]. intros y Hy. rewrite Hm by lia. rewrite lt_eq, decide_False by lia. done.
Qed.
Lemma good_data m m' base top l1 b l2 : good m base top (l1 ++ b :: l2) ->
  (forall y, ~ (base + total l1 + 8 <= y < base + total l1 + 8 * bn b) -> m' !!! y = m !!! y) -> good m' base top (l1 ++ b :: l2).
Proof using Type.
  intros Hg Hm. pose proof Hg as [Hb Ht Hs Hseg]. destruct (good_at _ _ _ _ _ _ Hg) as (Hin & Hh & Hbn & He & Hz1 & Hz2).
  split; [done..|]. apply seg_app in Hseg as [H1 (_ & _ & H2)]. pose proof (total_nonneg _ Hz1).
  apply seg_app. split; [eapply seg_frame; [|exact H1]; intros x Hx; apply Hm; lia|]. cbn [seg].
  split; [|split; [lia|eapply seg_frame; [|exact H2]; intros x Hx; apply Hm; lia]].
  destruct Hh as (E1 & E2 & F1 & F2). split_and!; rewrite ?Hm by lia; done.
Qed.

(** Merging two neighbours. *)
Lemma trymerge_ok m base top k l1 b1 b2 l2 : good m base top (l1 ++ b1 :: b2 :: l2) ->
  let a := base + total l1 in
  if bused b1 || bused b2 then __malloc_trymerge a (a + 8 * bn b1) (st m base top k) = Done (tt, st m base top k)
  else exists m', __malloc_trymerge a (a + 8 * bn b1) (st m base top k) = Done (tt, st m' base top k) /\
    good m' base top (l1 ++ Blk (bn b1 + bn b2) false :: l2) /\
    forall x, used base (l1 ++ b1 :: b2 :: l2) x -> m' !!! x = m !!! x.
Proof using Type.
  intros Hg a. pose proof Hg as [Hb Ht Hs Hseg]. destruct (good_at _ _ _ _ _ _ Hg) as (Hin & Hh & Hbn & He & Hz1 & Hz2).
  pose proof (good_next _ _ _ _ _ _ Hg) as (_ & Hin2 & Hh2 & Hbn2). fold a in Hin, Hh, He, Hin2, Hh2. set (b := a + 8 * bn b1) in *.
  rewrite total_cons in He. apply Forall_cons in Hz2 as [_ Hz2]. pose proof (total_nonneg _ Hz1). pose proof (total_nonneg _ Hz2).
  pose proof Hin as (? & ? & ? & ?). unfold __malloc_trymerge.
  erewrite bind_Done by (eapply nextblock_ok; [done|exact Hh]). erewrite bind_Done by (eapply prevblock_ok; [done|exact Hh2]).
  rewrite Z.eqb_refl. cbn [negb]. erewrite bind_Done by (eapply inuse_ok; [done|exact Hh]).
  destruct (bused b1) eqn:U1; [done|]. cbn [orb]. erewrite bind_Done by (eapply inuse_ok; [done|exact Hh2]).
  destruct (bused b2) eqn:U2; [done|]. set (n := bn b1 + bn b2).
  erewrite bind_Done by (eapply next_ok; [done|exact Hh2|unfold b; lia]). erewrite bind_Done by (eapply size_ok; [done|exact Hh|lia]).
  erewrite bind_Done by (eapply size_ok; [done|exact Hh2|lia]).
  replace (MBLOCKSIZE + (8 * bn b1 - 8) + MBLOCKSIZE + (8 * bn b2 - 8)) with (8 * n) by (unfold MBLOCKSIZE, n; lia).
  rewrite mkfield by (unfold n; lia). erewrite bind_Done by (eapply set_nextblock_ok; [done|exact Hh|unfold field, n; lia]).
  set (m1 := <[a + 4 := _]> m). erewrite bind_Done by reflexivity. cbn [heaptop]. set (c := b + 8 * bn b2).
  assert (c = a + 8 * n) as Ec by (unfold c, b, n; lia).
  assert (hdr m1 a (lastn 0 l1) n false) as Hh1.
  { destruct Hh as (E1 & _ & F1 & _). unfold m1, hdr. look. split_and!; [done|done|done|unfold field, n; lia]. }
  apply seg_app in Hseg as [_ (_ & _ & (_ & _ & Hsg2))]. fold a b c in Hsg2.
  assert (forall y, ~ (a <= y < c) -> m1 !!! y = m !!! y) as Hm1 by (intros y Hy; unfold m1; look; done).
  destruct (tell_above m1 base top k a n (lastn 0 l1) (bn b2) l2 c) as (m2 & Hr2 & Hm2 & Hup2); [done|done|lia|unfold c, b; lia| |].
  { eapply seg_frame; [|exact Hsg2]. intros x Hx. apply Hm1. lia. }
  erewrite bind_Done by exact Hr2. unfold __malloc_deadbeef. change (Z.to_nat (MBLOCKSIZE / 4)) with 2%nat.
  destruct (deadbeef_ok base top k 2 m2 b) as (m3 & Hr3 & Hm3); [unfold b; lia|unfold b; lia|]. change (4 * Z.of_nat 2) with 8 in Hm3.
  exists m3. split; [exact Hr3|]. split.
  - apply (good_replace m m3 base top l1 [b1; b2] [Blk n false] l2 Hg).
    + cbn. unfold n. lia.
    + intros x Hx. rewrite Hm3 by (unfold b, a; lia). rewrite Hm2 by (unfold a in *; lia). apply Hm1. unfold a in *. lia.
    + fold a. cbn [app seg bn bused]. rewrite <- Ec. destruct Hh1 as (E1 & E2 & F1 & F2). split; [|split; [unfold n; lia|]].
      * unfold hdr. rewrite !Hm3, !Hm2 by (unfold b; lia). by split_and!.
      * eapply seg_frame; [|exact Hup2]. intros x Hx. apply Hm3. unfold b, c in *. lia.
  - intros x Hx. assert (~ (a <= x < c) /\ x <> c) as [Hx1 Hx2].
    { apply used_app in Hx as [Hx|[[? _]|[[? _]|Hx]]]; [|congruence|congruence|]; apply used_range in Hx; try done; fold a b c in Hx; unfold a in *; lia. }
    rewrite Hm3 by (unfold b, c in *; lia). rewrite Hm2 by done. by apply Hm1.
Qed.

(** ** The list after a call *)
Lemma merged_app l1 l2 : merged (l1 ++ l2) <-> merged l1 /\ merged l2 /\
  (forall b c, last l1 = Some b -> head l2 = Some c -> bused b = true \/ bused c = true).
Proof using Type.
  induction l1 as [|b l1 IH]; cbn [app merged].
  { split; [|tauto]. intros H. split; [done|]. split; [done|]. intros b c Hb. discriminate Hb. }
  destruct l1 as [|c l1]; cbn [app] in *.
  - destruct l2 as [|d l2]; cbn [app merged head last] in *.
    + split; [|tauto]. intros H. split; [done|]. split; [done|]. intros d c _ Hc. discriminate Hc.
    + split; [|intros (_ & H2 & H3); split; [by apply H3|done]].
      intros [H1 H2]. split; [done|]. split; [done|]. intros x y Hx Hy. injection Hx as <-. injection Hy as <-. done.
  - rewrite IH. cbn [last]. tauto.
Qed.
(** A free block between [l1] and [l2]. *)
Lemma merged_mid l1 n l2 : merged l1 -> merged l2 -> (forall b, last l1 = Some b -> bused b = true) ->
  (forall c, head l2 = Some c -> bused c = true) -> merged (l1 ++ Blk n false :: l2).
Proof using Type.
  intros H1 H2 H3 H4. apply merged_app. split_and!; [done| |].
  - cbn [merged]. split; [|done]. destruct l2 as [|c l2]; [done|]. right. by apply H4.
  - intros b c Hb _. left. by apply H3.
Qed.
Lemma merge_live base l1 n1 n2 l2 q n : live base (l1 ++ Blk (n1 + n2) false :: l2) q n <-> live base (l1 ++ Blk n1 false :: Blk n2 false :: l2) q n.
Proof using Type.
  rewrite !live_app. cbn [live bn bused]. replace (base + total l1 + 8 * (n1 + n2)) with (base + total l1 + 8 * n1 + 8 * n2) by lia.
  intuition congruence.
Qed.
Lemma merge_used base l1 n1 n2 l2 x : used base (l1 ++ Blk (n1 + n2) false :: l2) x <-> used base (l1 ++ Blk n1 false :: Blk n2 false :: l2) x.
Proof using Type.
  rewrite !used_app. cbn [used bn bused]. replace (base + total l1 + 8 * (n1 + n2)) with (base + total l1 + 8 * n1 + 8 * n2) by lia.
  intuition congruence.
Qed.
(** What [free] leaves of a heap with the block [Blk n true] between [l1] and [l2]. *)
Record freed m base top l1 n l2 m' bs : Prop := Freed {
  fr_good : good m' base top bs;
  fr_live : forall q z, live base bs q z <-> live base (l1 ++ Blk n false :: l2) q z;
  fr_keeps : forall x, used base (l1 ++ Blk n false :: l2) x -> m' !!! x = m !!! x;
  fr_used : forall x, used base bs x <-> used base (l1 ++ Blk n false :: l2) x
}.
(** The merge with the block above. *)
Lemma merge_above m base top k l1 n l2 : good m base top (l1 ++ Blk n false :: l2) -> merged l2 ->
  let a := base + total l1 in
  exists m' n' l2', (if negb (a + 8 * n =? top) then __malloc_trymerge a (a + 8 * n) else mret tt) (st m base top k) = Done (tt, st m' base top k) /\
    freed m base top l1 n l2 m' (l1 ++ Blk n' false :: l2') /\ merged l2' /\ (forall c, head l2' = Some c -> bused c = true).
Proof using Type.
  intros Hg Hm a. pose proof (good_next _ _ _ _ _ _ Hg) as Hnx. cbn [bn] in Hnx. fold a in Hnx.
  assert (freed m base top l1 n l2 m (l1 ++ Blk n false :: l2)) as Hsame by by split.
  destruct l2 as [|[n2 u2] l2].
  - exists m, n, []. rewrite Hnx, Z.eqb_refl. split; [done|]. split; [done|]. split; [done|]. by intros c [=].
  - destruct Hnx as (Hne & _). rewrite (proj2 (Z.eqb_neq _ _) Hne). cbn [negb].
    pose proof (trymerge_ok m base top k l1 (Blk n false) (Blk n2 u2) l2 Hg) as Ht. cbn zeta in Ht. cbn [bn bused orb] in Ht. fold a in Ht.
    destruct u2.
    + exists m, n, (Blk n2 true :: l2). split; [done|]. split; [done|]. split; [done|]. by intros c [= <-].
    + destruct Ht as (m' & Hr & Hg' & Hk). exists m', (n + n2), l2. split; [done|]. split; [split|].
      * done.
      * intros q z. apply merge_live.
      * done.
      * intros x. apply merge_used.
      * cbn [merged] in Hm. destruct Hm as [Hm1 Hm2]. split; [done|]. intros c Hc. destruct l2 as [|d l2]; [done|].
        injection Hc as <-. destruct Hm1 as [?|?]; [done|done].
Qed.
(** The merge with the block below. *)
Lemma merge_below m base top k l1 n l2 : good m base top (l1 ++ Blk n false :: l2) -> merged l1 -> merged l2 ->
  (forall c, head l2 = Some c -> bused c = true) ->
  let a := base + total l1 in
  exists m' bs, (if negb (a =? base) then mhprev ← M_PREV a; __malloc_trymerge mhprev a else mret tt) (st m base top k) = Done (tt, st m' base top k) /\
    freed m base top l1 n l2 m' bs /\ merged bs.
Proof using Type.
  intros Hg H1 H2 Hh2 a. assert (freed m base top l1 n l2 m (l1 ++ Blk n false :: l2)) as Hsame by by split.
  destruct (good_at _ _ _ _ _ _ Hg) as (Hin & Hhd & _ & _ & Hz1 & _). fold a in Hin, Hhd. cbn [bn bused] in Hhd.
  destruct l1 as [|[n0 u0] l0 _] using rev_ind.
  - exists m, ([] ++ Blk n false :: l2). replace a with base by (unfold a; cbn; lia). rewrite Z.eqb_refl. split; [done|]. split; [done|].
    apply merged_mid; [done|done|by intros b [=]|done].
  - apply Forall_app in Hz1 as [Hz0 Hn0]. apply Forall_cons in Hn0 as [Hn0 _]. cbn [bn] in Hn0. pose proof (total_nonneg _ Hz0).
    assert (a = base + total l0 + 8 * n0) as Ea by (unfold a; rewrite total_app, total_cons; cbn; lia).
    rewrite lastn_app in Hhd. change (lastn _ [Blk n0 u0]) with n0 in Hhd. rewrite (proj2 (Z.eqb_neq a base)) by lia. cbn [negb].
    erewrite bind_Done by (eapply prev_ok; [done|exact Hhd|lia]). replace (a - 8 * n0) with (base + total l0) by lia.
    replace ((l0 ++ [Blk n0 u0]) ++ Blk n false :: l2) with (l0 ++ Blk n0 u0 :: Blk n false :: l2) in * by by rewrite <- app_assoc.
    pose proof (trymerge_ok m base top k l0 (Blk n0 u0) (Blk n false) l2 Hg) as Ht. cbn zeta in Ht. cbn [bn bused] in Ht.
    rewrite <- Ea in Ht. apply merged_app in H1 as (H0 & _ & H01). destruct u0; cbn [orb] in Ht.
    + exists m, (l0 ++ Blk n0 true :: Blk n false :: l2). split; [done|]. split; [done|].
      apply merged_app. split; [done|]. split; [|intros b c Hb [= <-]; by right]. cbn [merged]. split; [by left|].
      split; [|done]. destruct l2 as [|c l2]; [done|]. right. by apply Hh2.
    + destruct Ht as (m' & Hr & Hg' & Hk). exists m', (l0 ++ Blk (n0 + n) false :: l2). split; [done|]. split; [split|].
      * done.
      * intros q z. rewrite <- app_assoc. apply merge_live.
      * intros x Hx. apply Hk. by rewrite <- app_assoc in Hx.
      * intros x. rewrite <- app_assoc. apply merge_used.
      * apply merged_mid; [done|done| |done]. intros b Hb. destruct (H01 b (Blk n0 false) Hb eq_refl) as [?|?]; [done|done].
Qed.

Lemma free_ok m base top k l1 n l2 : good m base top (l1 ++ Blk n true :: l2) -> merged (l1 ++ Blk n true :: l2) -> 2 <= n ->
  exists m' bs, free (Some (base + total l1 + 8)) (st m base top k) = Done (tt, st m' base top k) /\
    freed m base top l1 n l2 m' bs /\ merged bs.
Proof using Type.
  intros Hg Hmg Hn2. apply merged_app in Hmg as (M1 & M2 & _). cbn [merged] in M2. destruct M2 as [_ M2].
  destruct (good_at _ _ _ _ _ _ Hg) as (Hin & Hh & Hbn & He & Hz1 & Hz2). cbn [bn bused] in *. set (a := base + total l1) in *.
  pose proof Hin as (I1 & I2 & I3 & I4). pose proof (total_nonneg _ Hz2). unfold free. erewrite bind_Done by reflexivity. cbn [heapbase heaptop].
  rewrite !(proj2 (Z.eqb_neq _ 0)), (proj2 (Z.ltb_ge top base)), (proj2 (Z.ltb_ge (a + 8) base)), (proj2 (Z.leb_gt top (a + 8))) by lia.
  cbn [orb]. assert (u32 (a + 8 - MBLOCKSIZE) = a) as -> by (unfold MBLOCKSIZE, u32, uwrap; rewrite Z.mod_small; lia).
  erewrite bind_Done by (eapply M_OK_ok; [done|exact Hh]). cbn [negb]. erewrite bind_Done by (eapply inuse_ok; [done|exact Hh]). cbn [negb].
  erewrite bind_Done by (eapply set_inuse_ok; [done|exact Hh]). pose proof (mark_good _ _ _ _ _ _ false _ Hg) as Hg1. fold a in Hg1.
  set (m1 := <[a + 4 := word2 n false]> m) in *. destruct (good_at _ _ _ _ _ _ Hg1) as (_ & Hh1 & _). cbn [bn bused] in Hh1. fold a in Hh1.
  erewrite bind_Done by (eapply size_ok; [done|exact Hh1|lia]).
  assert (M_DATA a = a + 8) as -> by (unfold M_DATA, MBLOCKSIZE, u32, uwrap; rewrite Z.mod_small; lia). unfold __malloc_deadbeef.
  destruct (deadbeef_ok base top k (Z.to_nat ((8 * n - 8) / 4)) m1 (a + 8)) as (m2 & Hr2 & Hm2); [lia|dlia|].
  replace (4 * Z.of_nat (Z.to_nat ((8 * n - 8) / 4))) with (8 * n - 8) in Hm2 by dlia.
  erewrite bind_Done by exact Hr2. assert (good m2 base top (l1 ++ Blk n false :: l2)) as Hg2.
  { eapply good_data; [exact Hg1|]. intros y Hy. apply Hm2. cbn [bn] in Hy. fold a in Hy. lia. }
  destruct (good_at _ _ _ _ _ _ Hg2) as (_ & Hh2 & _). cbn [bn bused] in Hh2. fold a in Hh2.
  erewrite bind_Done by (eapply next_ok; [done|exact Hh2|lia]).
  destruct (merge_above m2 base top k l1 n l2 Hg2 M2) as (m3 & n3 & l3 & Hr3 & [G3 L3 K3 U3] & M3 & H3). fold a in Hr3.
  erewrite bind_Done by exact Hr3.
  destruct (merge_below m3 base top k l1 n3 l3 G3 M1 M3 H3) as (m4 & bs & Hr4 & [G4 L4 K4 U4] & M4). fold a in Hr4.
  exists m4, bs. split; [exact Hr4|]. split; [|done]. split; [done| | |].
  - intros q z. by rewrite L4, L3.
  - intros x Hx. rewrite K4 by by apply U3. rewrite K3 by done. apply used_skip in Hx as [Hx _]; [|done|done|lia].
    fold a in Hx. rewrite Hm2 by lia. unfold m1. rewrite lt_eq, decide_False by lia. done.
  - intros x. by rewrite U4, U3.
Qed.

(** The heap begins at a multiple of 8, or the kernel grants the bytes that are
    missing. *)
Definition alignable (k : K) : Prop :=
  brk k mod 8 = 0 \/ (sbrk (8 - brk k mod 8) (sbrk 0 k).2).1 <> MINUS1.
(** The program's view: a heap that may not have been started. *)
Inductive heap_of (s : mst (K := K)) (bs : list blk) : Prop :=
| unstarted : heapbase s = 0 -> heaptop s = 0 -> bs = [] -> alignable (kernel s) -> heap_of s bs
| running : good (mem s) (heapbase s) (heaptop s) bs -> heaptop s = brk (kernel s) -> merged bs -> heap_of s bs.
(** What [malloc] does to the kernel: it may look for the heap and align it, and
    then asks for room at most once. *)
Definition started (k k' : K) : Prop :=
  k' = k \/ k' = (sbrk 0 k).2 \/ k' = (sbrk (8 - brk k mod 8) (sbrk 0 k).2).2.
Definition need (size : Z) : Z := 8 * ((size + 7) / 8 + 1).
Lemma init_ok s bs : heap_of s bs ->
  exists s', (if heapbase s =? 0 then __malloc_init else mret tt) s = Done (tt, s') /\
    good (mem s') (heapbase s') (heaptop s') bs /\ heaptop s' = brk (kernel s') /\ merged bs /\ mem s' = mem s /\
    (bs <> [] -> heapbase s' = heapbase s) /\ started (kernel s) (kernel s').
Proof using Type.
  intros [Hb Ht -> Ha|Hg Ht Hm].
  2: { exists s. destruct Hg as [[? ?] ? ? ?]. rewrite (proj2 (Z.eqb_neq _ _)) by lia. split_and!; try done. by left. }
  destruct s as [m base top k]; cbn in *; subst. pose proof (brk_range k). pose proof (sbrk_none k) as H0.
  change (0 =? 0) with true. cbn iota. unfold __malloc_init. erewrite bind_Done by reflexivity. cbn [heapbase heaptop].
  change (0 =? 0) with true. cbn [negb orb].
  destruct (sbrk_moves 0 k ltac:(lia)) as [E|[E1 E2]].
  { rewrite E in H0. cbn in H0. unfold MINUS1 in H0. lia. }
  unfold call_sbrk, set_bounds, alignable in *. mrun. cbn [kernel]. destruct (sbrk 0 k) as [x k'] eqn:Ek. cbn [fst snd] in *. subst x.
  rewrite !(proj2 (Z.eqb_neq _ _)) by (unfold MINUS1; lia). unfold MBLOCKSIZE. pose proof (brk_range k'). rewrite Z.add_0_r in E2.
  destruct (Z.eqb_spec (brk k mod 8) 0) as [E8|E8]; cbn [negb].
  - eexists. split; [reflexivity|]. cbn. rewrite E2. split_and!; try done; [split; [lia|cbn; lia|lia|done]|right; left; by rewrite Ek].
  - destruct Ha as [?|Ha]; [done|]. mrun. cbn [kernel]. destruct (sbrk_moves (8 - brk k mod 8) k' ltac:(dlia)) as [E|[E3 E4]]; [by rewrite E in Ha|].
    destruct (sbrk (8 - brk k mod 8) k') as [y k2] eqn:Ek2. cbn [fst snd] in *. subst y. pose proof (brk_range k2).
    rewrite !(proj2 (Z.eqb_neq _ MINUS1)) by (unfold MINUS1; lia). rewrite E2, Z.eqb_refl. cbn [negb].
    eexists. split; [reflexivity|]. cbn. rewrite E4, E2 in *.
    assert (u32 (brk k + (8 - brk k mod 8)) = brk k + (8 - brk k mod 8)) as -> by (unfold u32, uwrap; rewrite Z.mod_small; dlia).
    split_and!; try done; [split; [dlia|cbn; lia|lia|done]|right; right; rewrite Ek; cbn [snd]; by rewrite Ek2].
Qed.

Lemma round_up size : 0 <= size <= 2 ^ 31 - 16 ->
  Z.land (u32 (size + MBLOCKSIZE - 1)) (u32 (Z.lnot (MBLOCKSIZE - 1))) = 8 * ((size + 7) / 8).
Proof using Type.
  intros H. unfold MBLOCKSIZE. replace (u32 (size + 8 - 1)) with (size + 7) by (unfold u32, uwrap; rewrite Z.mod_small; lia).
  change (u32 (Z.lnot (8 - 1))) with (Z.shiftl (Z.ones 29) 3). apply Z.bits_inj'. intros i Hi.
  rewrite Z.land_spec, Z.shiftl_spec by lia. rewrite Z.mul_comm. change 8 with (2 ^ 3) at 2. rewrite <- Z.shiftl_mul_pow2, Z.shiftl_spec by lia.
  destruct (Z.ltb_spec i 3) as [Hlt|Hge].
  { rewrite !(Z.testbit_neg_r _ (i - 3)) by lia. by rewrite andb_false_r. }
  change 8 with (2 ^ 3). rewrite Z.div_pow2_bits by lia. replace (i - 3 + 3) with i by lia.
  rewrite Z.testbit_ones by lia. rewrite (proj2 (Z.leb_le _ _)) by lia. cbn [andb].
  destruct (Z.ltb_spec (i - 3) 29); [by rewrite andb_true_r|]. rewrite andb_false_r. symmetry.
  apply Z.bits_above_log2; [lia|]. apply Z.log2_lt_pow2; [lia|]. assert (2 ^ 32 <= 2 ^ i) by (apply Z.pow_le_mono_r; lia). lia.
Qed.
Lemma live_apart a l q n q' n' : sized l -> live a l q n -> live a l q' n' ->
  q = q' /\ n = n' \/ q + 8 * n <= q' \/ q' + 8 * n' <= q.
Proof using Type.
  intros Hs. revert a. induction Hs as [|b l Hb Hs IH]; intros a; [done|]. cbn [live].
  intros [(_ & -> & ->)|H1] [(_ & -> & ->)|H2]; [by left|..|by eapply IH].
  - apply live_range in H2; [|done]. lia.
  - apply live_range in H1; [|done]. lia.
Qed.
Lemma length_total bs : sized bs -> Z.of_nat (length bs) <= total bs.
Proof using Type. induction 1; cbn; [lia|]. fold (total l). lia. Qed.

(** A new block in a heap: the old ones and their words are as before. *)
Record added (base : Z) (bs bs' : list blk) (m m' : gmap Z Z) (size x : Z) : Prop := Added {
  ad_block : exists q n, x = q + 8 /\ size <= 8 * n - 8 /\ (forall n', ~ live base bs q n') /\
    forall q' n', live base bs' q' n' <-> live base bs q' n' \/ q' = q /\ n' = n;
  ad_keeps : forall y, used base bs y -> m' !!! y = m !!! y;
  ad_merged : merged bs'
}.
Lemma taken_added m base top bs j x m' size : taken m base top bs j x m' -> merged bs -> size <= 8 * j ->
  exists bs', good m' base top bs' /\ added base bs bs' m m' size x.
Proof using Type.
  intros [(l1 & n & l2 & n1 & l & -> & _ & -> & Hg & Hn1 & Hl & Hsum) Hk] Hm Hsz. exists (l1 ++ Blk n1 true :: l ++ l2). split; [done|].
  assert (8 * n = 8 * n1 + total l /\ forall a q z, ~ live a l q z) as [Htot Hnl].
  { destruct Hl as [->|[r ->]]; cbn in *; (split; [|intros a q z; tauto || (intros [[? _]|[]]; done)]).
    - destruct Hsum as [[-> _]|?]; [lia|]. change (0 / 8) with 0 in *. lia.
    - destruct Hsum as [[_ ?]|?]; [done|]. replace ((8 * r + 0) / 8) with r in * by dlia. lia. }
  split; [|done|].
  - destruct (good_at _ _ _ _ _ _ Hg) as (_ & _ & Hb1 & _ & Hz1 & Hz2). cbn [bn] in Hb1.
    apply Forall_app in Hz2 as [Hzl Hz2]. pose proof (total_nonneg _ Hzl).
    exists (base + total l1), n1. split; [done|]. split; [lia|]. split.
    { intros n'. rewrite live_app. cbn [live bn bused]. intros [H'|[[? _]|H']]; [|done|]; apply live_range in H'; try done; lia. }
    intros q' n'. rewrite !live_app. cbn [live bn bused].
    rewrite live_app. replace (base + total l1 + 8 * n1 + total l) with (base + total l1 + 8 * n) by lia.
    specialize (Hnl (base + total l1 + 8 * n1) q' n'). intuition congruence.
  - apply merged_app in Hm as (M1 & M2 & _). cbn [merged] in M2. destruct M2 as [M2 M3]. apply merged_app. split; [done|].
    split; [|intros b c _ [= <-]; by right]. destruct Hl as [->|[r ->]]; cbn [app merged bused].
    + split; [destruct l2; [done|by left]|done].
    + split; [by left|]. split; [|done]. destruct l2 as [|c l2]; [done|]. destruct M2 as [?|?]; [done|by right].
Qed.
Lemma field_0 : field 0.
Proof using Type. unfold field. lia. Qed.
Lemma lastn_field m p a bs : field p -> seg m p a bs -> field (lastn p bs).
Proof using Type.
  revert p a. induction bs as [|b bs IH]; intros p a Hp; [done|]. intros ((_ & _ & _ & Hf) & _ & Hs). by eapply (IH (bn b)).
Qed.
(** A block at the top. *)
Lemma extend_good m base top bs n : good m base top bs -> 1 <= n -> top + 8 * n < 2 ^ 31 ->
  good (<[top + 4 := word2 n true]> (<[top := word1 (lastn 0 bs)]> m)) base (top + 8 * n) (bs ++ [Blk n true]).
Proof using Type.
  intros [[Hb Hb8] Ht Hs Hseg] Hn Hl. pose proof (total_nonneg _ (seg_sized _ _ _ _ Hseg)).
  pose proof (lastn_field _ _ _ _ field_0 Hseg) as Hf. split; [done|rewrite total_app, total_cons; cbn; lia|done|].
  apply seg_app. split; [apply seg_insert_out; [lia|]; apply seg_insert_out; [lia|done]|]. rewrite Ht. cbn [seg bn bused].
  split; [|done]. unfold hdr. look. split_and!; [done|done|done|unfold field; lia].
Qed.
Lemma extend_added base bs m m' n size : sized bs -> merged bs -> size <= 8 * n - 8 ->
  (forall y, base <= y < base + total bs -> m' !!! y = m !!! y) -> 1 <= n ->
  added base bs (bs ++ [Blk n true]) m m' size (base + total bs + 8).
Proof using Type.
  intros Hz Hm Hsz Hk Hn. split.
  - exists (base + total bs), n. split; [done|]. split; [done|]. split; [intros n' H; apply live_range in H; [lia|done]|].
    intros q' n'. rewrite live_app. cbn [live bn bused]. intuition congruence.
  - intros y Hy. apply Hk. apply used_range in Hy; [|done]. lia.
  - apply merged_app. split; [done|]. split; [done|]. intros b c _ [= <-]. by right.
Qed.
Lemma malloc_ok s bs size : heap_of s bs -> 0 <= size <= 2 ^ 31 - 16 ->
  exists r s', malloc size s = Done (r, s') /\
    match r with
    | None => heap_of s' bs /\ (bs <> [] -> heapbase s' = heapbase s) /\ mem s' = mem s /\
        started (kernel s) (kernel s') /\ (sbrk (need size) (kernel s')).1 = MINUS1
    | Some x => exists bs', heap_of s' bs' /\ (bs <> [] -> heapbase s' = heapbase s) /\ added (heapbase s') bs bs' (mem s) (mem s') size x /\
        exists k, started (kernel s) k /\ (kernel s' = k \/ kernel s' = (sbrk (need size) k).2)
    end.
Proof using Type.
  intros Hs Hsz. destruct (init_ok s bs Hs) as ([m base top k] & Hi & Hg & Ht & Hm & Hmem & Hbase & Hst). cbn in Hg, Ht, Hmem, Hbase, Hst.
  pose proof Hg as [[Hb1 Hb2] Htop Hsm Hseg]. pose proof (seg_sized _ _ _ _ Hseg) as Hzs. pose proof (total_nonneg _ Hzs). pose proof (length_total _ Hzs).
  unfold malloc. erewrite bind_Done by reflexivity. erewrite bind_Done by exact Hi. erewrite bind_Done by reflexivity. cbn [heapbase heaptop].
  rewrite !(proj2 (Z.eqb_neq _ 0)), (proj2 (Z.ltb_ge top base)) by lia. cbn [orb]. rewrite round_up by lia. set (j := (size + 7) / 8).
  assert (0 <= j < 2 ^ 28 - 1 /\ size <= 8 * j <= 2 ^ 31 - 16) as [Hj Hj8] by (unfold j; dlia).
  destruct (search_ok m base top k j ltac:(lia) bs [] (S (Z.to_nat (top - base)))) as [(x & m' & Hr & Htk)|[Hr Hpass]]; [done|constructor|lia|..].
  all: cbn [total fold_right lastn fold_left app] in Hr; rewrite Z.add_0_r in Hr; erewrite bind_Done by exact Hr.
  - cbn [app] in Htk. destruct (taken_added _ _ _ _ _ _ _ size Htk Hm ltac:(lia)) as (bs' & Hg' & Had).
    exists (Some x), (st m' base top k). split; [done|]. exists bs'. split_and!; [by apply running; [..|apply Had]|done|by rewrite <- Hmem|].
    exists k. by split; [|left].
  - unfold __malloc_sbrk. replace (u32 (8 * j + MBLOCKSIZE)) with (8 * (j + 1)) by (unfold MBLOCKSIZE, u32, uwrap; rewrite Z.mod_small; lia).
    pose proof (brk_range k). destruct (sbrk_moves (8 * (j + 1)) k ltac:(lia)) as [E|[E1 E2]].
    + unfold call_sbrk. mrun. cbn [kernel]. rewrite E, Z.eqb_refl. exists None, (st m base top k). split; [done|].
      split_and!; [by apply running|done|done|done|]. unfold need. fold j. cbn [kernel]. by rewrite E.
    + destruct (sbrk (8 * (j + 1)) k) as [x k'] eqn:Ek. cbn [fst snd] in *. subst x. pose proof (brk_range k').
      erewrite bind_Done; [|unfold call_sbrk, set_bounds; mrun; cbn [kernel]; rewrite Ek, (proj2 (Z.eqb_neq _ _)) by (unfold MINUS1; lia);
        cbn [heaptop heapbase]; rewrite Ht, Z.eqb_refl; cbn; reflexivity].
      replace (u32 (brk k + 8 * (j + 1))) with (brk k') by (unfold u32, uwrap; rewrite Z.mod_small; lia). cbv beta iota.
      rewrite <- Ht in *. set (top' := brk k') in *.
      pose proof (make_top_header m base top' k' top (lastn 0 bs) (j + 1) ltac:(unfold inside; lia)
        (lastn_field _ _ _ _ field_0 Hseg) ltac:(unfold field; lia)) as Hmk.
      apply bind_inv in Hmk as ([] & t1 & M1 & Hmk). apply bind_inv in Hmk as ([] & t2 & M2 & Hmk).
      apply bind_inv in Hmk as ([] & t3 & M3 & Hmk). apply bind_inv in Hmk as ([] & t4 & M4 & M5).
      erewrite bind_Done by exact M1. erewrite bind_Done by exact M2. erewrite bind_Done by exact M3. erewrite bind_Done by exact M4.
      replace (M_MKFIELD (8 * (j + 1))) with (j + 1) by (unfold M_MKFIELD, MBLOCKSHIFT; rewrite Z.shiftr_div_pow2 by lia; dlia).
      erewrite bind_Done by exact M5. set (m' := <[top + 4 := _]> _) in *.
      exists (Some (M_DATA top)), (st m' base top' k'). split; [done|]. exists (bs ++ [Blk (j + 1) true]).
      assert (M_DATA top = base + total bs + 8) as -> by (unfold M_DATA, MBLOCKSIZE, u32, uwrap; rewrite Z.mod_small; lia).
      assert (added base bs (bs ++ [Blk (j + 1) true]) m m' size (base + total bs + 8)) as Had.
      { apply extend_added; [done|done|lia| |lia]. intros y Hy. unfold m'. look. }
      split_and!; [|done|by rewrite <- Hmem|exists k; split; [done|right; unfold need; fold j; by rewrite Ek]].
      apply running; [|done|apply Had]. cbn [mem heapbase heaptop]. rewrite E2 in *. apply extend_good; [done|lia|lia].
Qed.

(** ** The contract *)
Record aheap := AHeap { ablocks : gmap Z Z; awords : gmap Z Z; akernel : K }.
Inductive uop := UAlloc (sz : Z) | UFree (p : Z) | UWrite (p off v : Z) | URead (p off : Z).
(** A program asks for less than 2 GB, frees what it holds but no block without
    bytes, and uses aligned words inside its blocks. *)
Definition in_block (A : aheap) (p off : Z) : Prop := exists z, ablocks A !! p = Some z /\ 0 <= off /\ off mod 4 = 0 /\ off + 4 <= z.
Definition legal (A : aheap) (op : uop) : Prop :=
  match op with
  | UAlloc sz => 0 <= sz <= 2 ^ 31 - 16
  | UFree p => p = 0 \/ exists z, ablocks A !! p = Some z /\ 0 < z
  | UWrite p off _ | URead p off => in_block A p off
  end.
(** A request fails only when the kernel refuses the room for it; it is asked for
    no more than that. *)
Inductive astep (A : aheap) : uop -> Z -> aheap -> Prop :=
| a_fail sz k : started (akernel A) k -> (sbrk (need sz) k).1 = MINUS1 -> astep A (UAlloc sz) 0 (AHeap (ablocks A) (awords A) k)
| a_alloc sz p z k k' : started (akernel A) k -> k' = k \/ k' = (sbrk (need sz) k).2 -> 0 < p -> p mod 8 = 0 -> sz <= z -> ablocks A !! p = None -> (forall b y, ablocks A !! b = Some y -> p + z <= b \/ b + y <= p) ->
    astep A (UAlloc sz) p (AHeap (<[p := z]> (ablocks A)) (awords A) k')
| a_free_null : astep A (UFree 0) 0 A
| a_free p z : ablocks A !! p = Some z ->
    astep A (UFree p) 0 (AHeap (delete p (ablocks A)) (filter (fun '(w, _) => ~ (p <= w < p + z)) (awords A)) (akernel A))
| a_write p off v : astep A (UWrite p off v) 0 (AHeap (ablocks A) (<[p + off := u32 v]> (awords A)) (akernel A))
| a_read p off v : (forall x, awords A !! (p + off) = Some x -> v = x) -> astep A (URead p off) v A.
Definition exec (op : uop) : M (mst (K := K)) Z :=
  match op with
  | UAlloc sz => r ← malloc sz; mret (default 0 r)
  | UFree p => _ ← free (if p =? 0 then None else Some p); mret 0
  | UWrite p off v => _ ← store (p + off) v; mret 0
  | URead p off => load (p + off)
  end.
(** Any number of calls of a program that looks at the results so far. *)
Inductive ahistory (next : list (uop * Z) -> uop) (k : K) : list (uop * Z) -> aheap -> Prop :=
| ah_nil : ahistory next k [] (AHeap ∅ ∅ k)
| ah_step h A r A' : ahistory next k h A -> astep A (next h) r A' -> ahistory next k (h ++ [(next h, r)]) A'.
Definition well_behaved (next : list (uop * Z) -> uop) (k : K) : Prop := forall h A, ahistory next k h A -> legal A (next h).
Fixpoint calls (next : list (uop * Z) -> uop) (n : nat) (h : list (uop * Z)) : M (mst (K := K)) (list (uop * Z)) :=
  match n with
  | O => mret h
  | S n' => r ← exec (next h); calls next n' (h ++ [(next h, r)])
  end.

Record mrel (s : mst (K := K)) (A : aheap) (bs : list blk) : Prop := Mrel {
  mr_heap : heap_of s bs;
  mr_kernel : akernel A = kernel s;
  mr_blocks : forall p z, ablocks A !! p = Some z <-> exists q n, live (heapbase s) bs q n /\ p = q + 8 /\ z = 8 * n - 8;
  mr_words : forall w v, awords A !! w = Some v -> mem s !!! w = v /\ used (heapbase s) bs w
}.
Lemma live_align a l q n : live a l q n -> (q - a) mod 8 = 0.
Proof using Type.
  revert a. induction l as [|b l IH]; intros a; [done|]. cbn [live]. intros [(_ & -> & _)|H]; [by rewrite Z.sub_diag|].
  apply IH in H. dlia.
Qed.
Lemma live_good s bs q n : heap_of s bs -> live (heapbase s) bs q n ->
  good (mem s) (heapbase s) (heaptop s) bs /\ heaptop s = brk (kernel s) /\ merged bs /\ sized bs.
Proof using Type.
  intros [_ _ -> _|Hg Ht Hm] Hl; [done|]. split_and!; try done. by eapply seg_sized, Hg.
Qed.
(** A heap from which [bs] was made with the same base, seen from the new base. *)
Lemma rebase (s s' : mst (K := K)) bs A : mrel s A bs -> (bs <> [] -> heapbase s' = heapbase s) ->
  (forall p z, ablocks A !! p = Some z <-> exists q n, live (heapbase s') bs q n /\ p = q + 8 /\ z = 8 * n - 8) /\
  (forall w v, awords A !! w = Some v -> mem s !!! w = v /\ used (heapbase s') bs w).
Proof using Type.
  intros [_ _ Hb Hw] He. destruct bs as [|b bs]; [|by rewrite He]. by split.
Qed.
Lemma alloc_step s A bs sz : mrel s A bs -> 0 <= sz <= 2 ^ 31 - 16 ->
  exists r s' A' bs', exec (UAlloc sz) s = Done (r, s') /\ astep A (UAlloc sz) r A' /\ mrel s' A' bs'.
Proof using Type.
  intros Hr Hsz. destruct (malloc_ok s bs sz (mr_heap _ _ _ Hr) Hsz) as ([x|] & s' & Hm & Hres).
  2: { destruct Hres as (Hh & Hb & Hmem & Hst & Hno). destruct (rebase s s' bs A Hr Hb) as (B1 & B3).
       exists 0, s', (AHeap (ablocks A) (awords A) (kernel s')), bs. unfold exec. erewrite bind_Done by exact Hm. split; [done|].
       split; [constructor; [by rewrite (mr_kernel _ _ _ Hr)|done]|]. split; [done|done|done|by rewrite Hmem]. }
  destruct Hres as (bs' & Hh & Hb & [(q & n & -> & Hn & Hfresh & Hlive) Hk Hmg] & k & Hst & Hask). destruct (rebase s s' bs A Hr Hb) as (B1 & B3).
  assert (live (heapbase s') bs' q n) as Hq by (apply Hlive; by right).
  destruct (live_good _ _ _ _ Hh Hq) as (Hg & Ht & _ & Hz). pose proof (live_range _ _ _ _ Hz Hq) as (Q1 & Q2 & Q3). pose proof (live_align _ _ _ _ Hq).
  destruct (g_base _ _ _ _ Hg) as [G1 G2].
  exists (q + 8), s', (AHeap (<[q + 8 := 8 * n - 8]> (ablocks A)) (awords A) (kernel s')), bs'. unfold exec. erewrite bind_Done by exact Hm.
  split; [done|]. split.
  - apply a_alloc with k; [by rewrite (mr_kernel _ _ _ Hr)|done|lia|dlia|done|..].
    { apply eq_None_not_Some. intros [y Hy]. apply B1 in Hy as (q' & n' & Hq' & E & _). apply (Hfresh n'). by replace q with q' by lia. } intros b y Hby. apply B1 in Hby as (q' & n' & Hq' & -> & ->).
    destruct (live_apart _ _ _ _ _ _ Hz Hq (proj2 (Hlive _ _) (or_introl Hq'))) as [[-> ->]|[?|?]]; [|lia|lia].
    by apply Hfresh in Hq'.
  - split; cbn [ablocks awords akernel].
    + done.
    + done.
    + intros p z. rewrite lookup_insert_Some, B1. split.
      * intros [[<- <-]|[_ (q' & n' & Hq' & -> & ->)]]; [by exists q, n|]. exists q', n'. split; [apply Hlive; by left|done].
      * intros (q' & n' & Hq' & -> & ->). apply Hlive in Hq' as [Hq'|[-> ->]]; [right|by left]. split; [|by exists q', n'].
        intros E. apply (Hfresh n'). by replace q with q' by lia.
    + intros w v Hw. destruct (B3 w v Hw) as [B4 B5]. split; [by rewrite Hk|].
      apply used_live in B5 as (q' & n' & Hq' & Hx). eapply live_used; [apply Hlive; by left|exact Hx].
Qed.
Lemma unmark_live base l1 n l2 q z : sized l1 -> sized l2 -> 1 <= n ->
  live base (l1 ++ Blk n false :: l2) q z <-> live base (l1 ++ Blk n true :: l2) q z /\ q <> base + total l1.
Proof using Type.
  intros H1 H2 Hn. rewrite !live_app. cbn [live bn bused]. split.
  - intros [H|[[? _]|H]]; [|done|]; (split; [by auto|]); apply live_range in H; try done; lia.
  - intros [[H|[(_ & -> & _)|H]] Hne]; [by left|done|by right; right].
Qed.
Lemma free_step s A bs p : mrel s A bs -> p = 0 \/ (exists z, ablocks A !! p = Some z /\ 0 < z) ->
  exists s' A' bs', exec (UFree p) s = Done (0, s') /\ astep A (UFree p) 0 A' /\ mrel s' A' bs'.
Proof using Type.
  intros Hr [->|(z & Hp & Hz0)]; [exists s, A, bs; split; [done|split; [constructor|done]]|].
  pose proof Hr as [Hh Hke Hb Hw]. apply Hb in Hp as Hq. destruct Hq as (q & n & Hq & Ep & Ez).
  destruct (live_good _ _ _ _ Hh Hq) as (Hg & Ht & Hm & Hz). assert (2 <= n) as Hn2 by lia.
  pose proof (live_range _ _ _ _ Hz Hq) as (Q1 & _ & Q3). destruct (g_base _ _ _ _ Hg) as [G1 _].
  destruct (live_split _ _ _ _ Hq) as (l1 & l2 & -> & Eq). destruct s as [m base top k]. cbn [mem heapbase heaptop kernel] in *.
  destruct (free_ok m base top k l1 n l2 Hg Hm Hn2) as (m' & bs' & Hf & [F1 F2 F3 F4] & Fm).
  apply Forall_app in Hz as [Hz1 Hz2]. apply Forall_cons in Hz2 as [_ Hz2].
  exists (st m' base top k), (AHeap (delete p (ablocks A)) (filter (fun '(w, _) => ~ (p <= w < p + z)) (awords A)) (akernel A)), bs'.
  assert (p = base + total l1 + 8) as Ep' by lia. split; [|split].
  - unfold exec. rewrite (proj2 (Z.eqb_neq p 0)) by lia. rewrite Ep'. by erewrite bind_Done by exact Hf.
  - by apply a_free.
  - split; cbn [ablocks awords akernel mem heapbase heaptop kernel].
    + by apply running.
    + done.
    + intros b y. rewrite lookup_delete_Some, Hb. split.
      * intros [Hne (q' & n' & Hq' & -> & ->)]. exists q', n'. split; [|done]. apply F2, unmark_live; [done|done|lia|]. split; [done|lia].
      * intros (q' & n' & Hq' & -> & ->). apply F2, unmark_live in Hq' as [Hq' Hne]; [|done|done|lia]. split; [lia|by exists q', n'].
    + intros w v Hwv. apply map_lookup_filter_Some in Hwv as [Hwv Hout]. destruct (Hw w v Hwv) as [Hmw Huw].
      assert (used base (l1 ++ Blk n false :: l2) w) as Hu'.
      { apply used_app in Huw as [Huw|[[_ Huw]|Huw]]; apply used_app; [by left| |by right; right]. cbn [bn] in Huw. lia. }
      rewrite F3, F4 by done. done.
Qed.
Lemma block_word s A bs p off : mrel s A bs -> in_block A p off ->
  heapbase s <= p + off /\ p + off + 4 <= heaptop s /\ used (heapbase s) bs (p + off) /\
  exists l1 n l2, bs = l1 ++ Blk n true :: l2 /\ heapbase s + total l1 + 8 <= p + off < heapbase s + total l1 + 8 * n /\
    good (mem s) (heapbase s) (heaptop s) bs /\ heaptop s = brk (kernel s) /\ merged bs.
Proof using Type.
  intros [Hh _ Hb _] (z & Hp & Ho1 & _ & Ho2). apply Hb in Hp as (q & n & Hq & -> & ->).
  destruct (live_good _ _ _ _ Hh Hq) as (Hg & Ht & Hm & Hz). pose proof (live_range _ _ _ _ Hz Hq) as (Q1 & _ & Q3).
  pose proof (g_top _ _ _ _ Hg). split_and!; [lia|lia|eapply live_used; [exact Hq|lia]|].
  destruct (live_split _ _ _ _ Hq) as (l1 & l2 & -> & ->). exists l1, n, l2. split_and!; [done|lia|lia|done|done|done].
Qed.
Lemma simulation s A bs op : mrel s A bs -> legal A op ->
  exists r s' A' bs', exec op s = Done (r, s') /\ astep A op r A' /\ mrel s' A' bs'.
Proof using Type.
  intros Hr Hl. destruct op as [sz|p|p off v|p off]; cbn [legal] in Hl.
  - by apply alloc_step with bs.
  - destruct (free_step s A bs p Hr Hl) as (s' & A' & bs' & H). by exists 0, s', A', bs'.
  - destruct (block_word s A bs p off Hr Hl) as (B1 & B2 & B3 & l1 & n & l2 & Ebs & B4 & Hg & Ht & Hm).
    destruct s as [m base top k]. cbn [mem heapbase heaptop kernel] in *.
    exists 0, (st (<[p + off := u32 v]> m) base top k), (AHeap (ablocks A) (<[p + off := u32 v]> (awords A)) (akernel A)), bs.
    unfold exec. erewrite bind_Done by by apply raw_store. split; [done|]. split; [constructor|]. destruct Hr as [Hh Hke Hb Hw].
    split; cbn [ablocks awords akernel mem heapbase heaptop kernel]; [|done|done|].
    + apply running; [|done|done]. cbn [mem heapbase heaptop]. subst bs. eapply good_data; [exact Hg|].
      intros y Hy. cbn [bn] in Hy. rewrite lt_eq, decide_False by lia. done.
    + intros w x. rewrite lookup_insert_Some, lt_eq. intros [[<- <-]|[Hne Hwx]]; [by rewrite decide_True|].
      rewrite decide_False by done. by apply Hw.
  - destruct (block_word s A bs p off Hr Hl) as (B1 & B2 & _). destruct s as [m base top k]. cbn [mem heapbase heaptop] in *.
    exists (m !!! (p + off)), (st m base top k), A, bs. unfold exec. rewrite load_ok by done. split; [done|]. split; [|done].
    constructor. intros x Hx. by apply Hr in Hx as [<- _].
Qed.
Lemma calls_sim next n k : well_behaved next k -> forall h s A bs, ahistory next k h A -> mrel s A bs ->
  exists h' s' A' bs', calls next n h s = Done (h', s') /\ length h' = (length h + n)%nat /\ ahistory next k h' A' /\ mrel s' A' bs'.
Proof using Type.
  intros Hnext. induction n as [|n IH]; intros h s A bs Hh Hr; cbn [calls]; [exists h, s, A, bs; split_and!; [done|lia|done|done]|].
  destruct (simulation s A bs (next h) Hr (Hnext _ _ Hh)) as (r & s1 & A1 & bs1 & He & Ha & Hr1).
  erewrite bind_Done by exact He. destruct (IH _ s1 A1 bs1 (ah_step _ _ _ _ _ _ Hh Ha) Hr1) as (h' & s' & A' & bs' & H1 & H2 & H3 & H4).
  exists h', s', A', bs'. split_and!; [done| |done|done]. rewrite H2, length_app. cbn. lia.
Qed.
Definition program_start (k : K) : mst := Mst ∅ 0 0 k.
Lemma start_rel k : alignable k -> mrel (program_start k) (AHeap ∅ ∅ k) [].
Proof using Type.
  intros Hk. split; cbn.
  - by apply unstarted.
  - done.
  - intros p z. rewrite lookup_empty. split; [done|]. by intros (? & ? & [] & _).
  - intros w v. by rewrite lookup_empty.
Qed.
(** C13: The allocator implements its contract.  Take any kernel whose [sbrk] does
    what it should, and grants the bytes that align the heap if it is not
    aligned, and any program that asks for less than 2 GB at a time, frees only
    blocks it holds and none without bytes, and uses only aligned words inside
    them.
    All calls of [malloc] and [free] come back, never touch memory outside the
    heap or find it corrupt, a request fails only when the kernel refuses the
    room for it, a new block is aligned, large enough and disjoint from every
    block in use, a word read is the word last written, and no two free blocks
    are left side by side. *)
Theorem malloc_refines k next n : alignable k -> well_behaved next k ->
  exists h s A bs, calls next n [] (program_start k) = Done (h, s) /\ length h = n /\ ahistory next k h A /\ mrel s A bs.
Proof using Type.
  intros Hk Hn. destruct (calls_sim next n k Hn [] _ _ _ (ah_nil next k) (start_rel k Hk)) as (h & s & A & bs & H1 & H2 & H3 & H4).
  by exists h, s, A, bs.
Qed.
End heap.

(** ** The theorem at work *)

(** A kernel with a limit of 1 GB on the heap. *)
Definition limited_brk (k : Z) : Z := Z.max 4096 (Z.min k (2 ^ 31 - 1)).
Definition limited_sbrk (n k : Z) : Z * Z :=
  if n =? 0 then (limited_brk k, k)
  else if (4096 <=? k) && (k + n <? 2 ^ 30) then (k, k + n) else (MINUS1, k).
#[export] Instance limited : Sbrk Z.
Proof.
  refine {| sbrk := limited_sbrk; brk := limited_brk |}.
  - intros n k Hn. unfold limited_sbrk. destruct (Z.eqb_spec n 0) as [->|Hne]; [right; cbn; by rewrite Z.add_0_r|].
    destruct (Z.leb_spec 4096 k), (Z.ltb_spec (k + n) (2 ^ 30)); cbn [andb]; [right|by left..]. cbn. unfold limited_brk. lia.
  - intros k. done.
  - intros k. unfold limited_brk. lia.
Defined.
Definition demo (h : list (uop * Z)) : uop :=
  match h with
  | [] => UAlloc 10
  | [(_, p)] => if p =? 0 then UFree 0 else UWrite p 4 77
  | [(_, p); _] => if p =? 0 then UFree 0 else URead p 4
  | [(_, p); _; _] => UFree p
  | _ => UFree 0
  end.
Lemma demo_holds (k : Z) h A : ahistory demo k h A -> forall op p rest, h = (op, p) :: rest -> (length rest <= 2)%nat -> p <> 0 ->
  exists z, ablocks A !! p = Some z /\ 10 <= z.
Proof.
  induction 1 as [|h A r A' Hh IH Hs]; [done|]. intros op p rest E Hl Hp. destruct h as [|[op0 p0] h].
  - cbn in E, Hs. injection E as <- <- <-. inversion Hs; subst; [done|]. exists z. cbn. by rewrite lookup_insert_eq.
  - cbn [app] in E. injection E as <- <- <-. rewrite length_app in Hl. cbn in Hl.
    destruct (IH _ _ _ eq_refl ltac:(lia) Hp) as (z & Hz & Hz10). exists z. split; [|done].
    apply Z.eqb_neq in Hp as Hp'.
    destruct h as [|x [|y h]]; cbn [demo] in Hs; [rewrite Hp' in Hs; inversion Hs; by subst|rewrite Hp' in Hs; inversion Hs; by subst|cbn in Hl; lia].
Qed.
Lemma demo_legal (k : Z) : well_behaved demo k.
Proof.
  intros h A Hh. pose proof (demo_holds k h A Hh) as H. destruct h as [|[op p] h]; [cbn; lia|].
  destruct (Z.eqb_spec p 0) as [->|Hp].
  { destruct h as [|x [|y [|w h]]]; cbn; by left. }
  destruct h as [|x [|y [|w h]]]; [| | |by left]; destruct (H _ _ _ eq_refl ltac:(cbn; lia) Hp) as (z & Hz & ?);
    cbn; rewrite ?(proj2 (Z.eqb_neq _ _) Hp); [exists z; split_and!; done || lia|exists z; split_and!; done || lia|right; exists z; split; [done|lia]].
Qed.
Lemma malloc_refines_witness : exists h s A bs, calls demo 4 [] (program_start (K := Z) 8195) = Done (h, s) /\
  length h = 4%nat /\ ahistory demo 8195 h A /\ mrel s A bs.
Proof. apply (malloc_refines (8195 : Z) demo 4); [right; vm_compute; discriminate|apply demo_legal]. Defined.

(** ** Requests that are not legal *)

(** [malloc(0)] at the top of the heap returns the top itself, and [free] of that
    pointer ends the program. *)
Lemma free_of_empty_block : exists s, malloc 0 (program_start (K := Z) 8192) = Done (Some 8200, s) /\ free (Some 8200) s = Stop KPanic.
Proof. eexists. split; [vm_compute; reflexivity|by vm_compute]. Qed.
(** A request of nearly 4 GB is rounded up to 0 and succeeds. *)
Lemma malloc_huge_succeeds : exists s, malloc (2 ^ 32 - 1) (program_start (K := Z) 8192) = Done (Some 8200, s) /\ heaptop s = 8200.
Proof. eexists. split; vm_compute; reflexivity. Qed.
